(* ===== verification/_CoqProject ===== *)
-Q . S2P
Prelude.v
Glob.v
Json.v
PolicyEngine.v
Roles.v
Hierarchy.v
Bindings.v
Catalogue.v
Seed.v
Policies.v
Cron.v
Definitions.v
WorkflowStore.v
Engine.v
Interleaving.v
Draining.v
Schedules.v
Events.v
Deliveries.v
Rules.v
Matcher.v
Networks.v
RateLimit.v
AccountPolicy.v
SignIn.v
Totp.v
Factors.v
Cadence.v
Backups.v
Sealing.v
MediaArchive.v
BackupRuns.v
BackupSchedules.v
RestorePlan.v
RestoreJobs.v
Validators.v
Uploads.v
Serving.v
Scanning.v
Folders.v
Grants.v
Sessions.v
ApiKeys.v
ServiceAccounts.v
Guards.v
Approvals.v
Preferences.v
Inbox.v
Outbox.v
Routes.v
Incidents.v
Shares.v
MediaRetention.v
