(* ===== verification/Prelude.v ===== *)
(** * Omnion: a verification development of the platform's core

    Omnion is a self-hosted platform: a Rust API ([apps/api]) over component crates ([crates/*])
    that share one PostgreSQL database.  Modelled here are the parts that decide what every other
    part may do, the parts that let people in, and the parts that carry work which must not be
    lost: authorization ([crates/policy-engine], [crates/permissions]), signing in and the
    controls around it ([crates/identity], [crates/security]), sessions, keys and the guards of the
    API, workflows and the automation that starts them ([crates/workflows], [crates/automation]),
    events and webhooks ([crates/events]), notifications ([crates/notifications]), the media
    library with its uploads, scans, folders and serving ([crates/media]), the incidents of the
    health centre ([crates/health]), and the backup centre ([crates/backup] with its routes and
    workers in [apps/api]).

    ** How the program fits together

    A request passes the rate limiter and then a guard with a subject, a context (organization,
    site, resource) and a permission key.  [authorize_subject] loads the live role bindings of the
    subject and of its groups, resolves them over the role graph (grants, denials, inheritance),
    and lets the organization's attribute policies overlay the verdict.  Administration writes the
    tables this path reads.  Boot seeds the base roles from the catalogue and makes sure an owner
    exists.

    A sign-in reads the organization's security policy, its address lists and access rules, counts
    failures, locks, checks the password and asks for a second factor.  It makes a session, known by
    the hash of a cookie's token; developer keys and machine keys are the other two credentials.  A
    guard resolves the credential of a request to a subject and asks the path above.  A permission
    that is missing can be requested, and an approval is a binding for a window.

    Uploads are validated, written to the object store and queued for a scanner; until its verdict a
    file is held, and serving reads the row's state, the ranges asked for and the validators of a
    client.  Files live in a tree of folders whose grants narrow what a role allows; each has a history
    of versions, a trash, and a nightly pass that thins the one and empties the other.

    Operations record events.  The bus queues a delivery for each subscribed webhook; a runner
    claims, sends, retries and gives up.  The automation matcher reads the same events past a
    cursor and starts the runs of the rules they fire.  A run materialises the steps of its
    definition as rows, and the engine moves the rows: it claims a due step, performs its action,
    writes the outcome and settles the run.  Several instances run at once; sweeps repair what a
    stopped instance left.

    A fact about a person becomes a row of the inbox and, past the preferences, a queued delivery on
    each channel; a runner claims and sends these, and routing rules name who hears of an event.
    Probes of the health centre report, and its policy opens and closes incidents.

    A backup run copies parts of the platform to a destination: documents, sealed under a
    passphrase where the settings say so, and the objects of the media library beside an index.
    Schedules take runs, retention removes them, and a restore, at once or queued, prices itself
    against the live library, takes a safety backup and writes the objects back.

    ** The files

    - [Prelude]: results and the [?] operator, Rust strings, comparisons and sorting, list
      lemmas, rewriting of boolean tests, tactics.
    - [Glob] ([permissions/src/matching.rs], wildcard half of [policy-engine/src/lib.rs]): the
      greedy backtracking loop, its two uses, and the language of a pattern.
    - [Json] ([serde_json::Value] as the crates read it): values; numbers behind [JsonNumber].
    - [PolicyEngine] ([policy-engine/src/lib.rs]): operators, condition trees and their JSON,
      attributes, the decision of a policy set.
    - [Roles] ([permissions/src/model.rs], [evaluate.rs]): subjects, scopes, roles, the resolver.
    - [Hierarchy] ([roles.rs], [versions.rs]): parent changes, the role operations, versions,
      diffs.
    - [Bindings] ([bindings.rs], [invariants.rs], [groups.rs], the revocation handler of
      [apps/api/src/routes/iam.rs]): binding rows, granting and revoking, the last-owner check.
    - [Catalogue], [Seed] ([catalogue.rs], [seed.rs]): the permission catalogue, the base roles,
      the boot-time reconciliation and owner check.
    - [Policies] ([policies.rs], [simulate.rs], the database half of [evaluate.rs]): the policy
      table and its history, request attributes, the overlay, [authorize_subject], the simulator.
    - [Cron] ([workflows/src/cron.rs]): the expression parser and the search for the next run;
      the calendar of the time library behind [Calendar].
    - [Definitions] ([definition.rs], [actions.rs]): triggers, steps, their validation, actions.
    - [WorkflowStore] ([store.rs], [model.rs]): rows, statuses, one function per statement.
    - [Engine] ([engine.rs], [handler.rs]): starting runs, advancing a step, tick, sweep, and the
      events of an interleaving.
    - [Interleaving]: the statements refine a transition system of rows; its invariant.
    - [Draining]: termination of the engine, and of a validated definition's run.
    - [Schedules]: claiming due schedules.
    - [Events] ([events/src/catalogue.rs], [validation.rs], [model.rs], [bus.rs]): the catalogue
      with its groups, subscriptions, the validation of endpoints and events.
    - [Deliveries] ([events/src/store.rs], [engine.rs], [sender.rs]): endpoints, the queue and its
      statements, the runner, redelivery, the sweep.
    - [Rules] ([automation/src/condition.rs], [binding.rs], [model.rs]): conditions, placeholders.
    - [Matcher] ([automation/src/matcher.rs]): the cursor, the drain, recorders that commit in any
      order.
    - [Networks] ([identity/src/security.rs], [security/src/ip_rules.rs]): addresses, networks,
      lists and access rules.
    - [RateLimit] ([security/src/limiter.rs], [limiter_redis.rs], [limiter_store.rs] and the layer
      in [apps/api]): policies, scopes, counters, the layer, the dry run.
    - [AccountPolicy] ([identity/src/security.rs]): the organization's security document.
    - [SignIn] ([identity/src/signin.rs], [security/src/lockout.rs], [enforce.rs]): attempts,
      locks, the password step, challenges.
    - [Totp], [Factors] ([identity/src/totp.rs], [secrets.rs], [mfa.rs]): one-time passwords,
      Base32, envelopes; factors and recovery codes, the instance of the interface [SignIn] uses.
    - [Cadence] ([backup/src/cadence.rs]): the next run of a schedule in a zone's local time.
    - [Backups] ([part.rs], [restore.rs], [store.rs], [sweep.rs], [purge.rs], [destination.rs]):
      parts, manifests, verification, the price of a restore, rows, retention.
    - [Sealing] ([crypto.rs]): the framing of encrypted artifacts, passphrase references.
    - [MediaArchive] ([media.rs], [restore_objects.rs]): copying the library and its index, and
      writing an index back.
    - [BackupRuns] (the producing half of [apps/api/src/routes/backups.rs]): a run from its row to
      its terminal status, and reading it back.
    - [BackupSchedules] (the schedules of [store.rs], [backup_schedule_runner.rs]): rows, routes,
      the tick.
    - [RestorePlan] ([preview.rs], [apply.rs], the restore route): comparison with the live
      library, the plan, the restore.
    - [RestoreJobs] ([restore_jobs.rs], [restore_job_runner.rs] and their routes): queued
      restores, cancelling, the worker, interleavings of their statements.
    - [Validators] ([media/src/validators.rs]): entity tags, HTTP dates, conditional requests.
    - [Uploads] ([storage/src/keys.rs], [fs.rs], [s3.rs], [media/src/validation.rs]): the keys of
      objects, the driver's operations, what an upload may be.
    - [Serving] ([media/src/ranges.rs], the serve path of [apps/api/src/routes/media.rs]): ranges,
      the store's window, the answer to a request for a file's bytes.
    - [Scanning] ([media/src/scanning.rs] and its runner): verdicts, holding, quarantine, the sweep.
    - [Folders], [Grants] ([media/src/folders.rs], [grants.rs]): the tree with its paths; grants
      along the path of a folder and the gate that reads them.
    - [Sessions] ([identity/src/sessions.rs], [devices.rs], the extractor of
      [apps/api/src/auth.rs] and the session routes): tokens and cookies, revocation, devices.
    - [ApiKeys] ([developer/src/keys.rs], [keys_store.rs]), [ServiceAccounts]
      ([permissions/src/service_accounts.rs]), with their routes: issuing, rotation,
      authentication, scopes.
    - [Guards] ([apps/api/src/guards.rs]): the credential a request is judged by, the caller it
      names, and what a guarded route lets through.
    - [Approvals] ([permissions/src/approvals.rs] and its routes): requests, decisions, windows.
    - [Preferences], [Inbox], [Outbox], [Routes] ([crates/notifications] and its routes and runner):
      the matrix and quiet hours; rows, counts and changes of a reader; the queue of deliveries with
      its transports; rules, recipients, templates.
    - [Shares] ([media/src/shares.rs], [apps/api/src/routes/media_shares.rs]): links with their
      tokens, passwords and ends, revocation, the public route and its counter.
    - [MediaRetention] ([media/src/retention.rs], [versions.rs], their routes and
      [retention_runner.rs]): policies, versions, trash, purges, passes over a site, the worker.
    - [Incidents] ([health/src/vocabulary.rs], [incidents.rs], the policy of [registry.rs]): limits,
      settings, incidents, maintenance windows, the ledger of breaches.

    ** How state and effects are modelled

    A table is the list of its rows, a statement a function of the tables it reads and writes,
    evaluated at an instant [now] (each file says its unit).  A constraint of the schema that a
    statement can violate is checked by it, and a violation is an error that changes nothing.
    Generated identifiers, random values and instants read on the way are arguments.  Where a
    statement leaves the order of ties open the model keeps the rows' order.  Fallible code
    returns [result]; messages for people are mostly dropped, error codes are kept.  Rust strings
    are lists of code points, bytes are [Z] below 256; [i32] and [i64] arithmetic is on [Z] with
    its saturation, wrap-around and casts written out.  Interleavings are lists of statements (or
    of whole transactions) of all parties in any order.

    Code outside the repository is an interface or an argument, with its documented behaviour as
    the laws of a class or as hypotheses of a section: JSON numbers ([JsonNumber]) and the text
    of documents, the calendar ([Calendar]) and the zone tables ([TimeZones]), SHA, HMAC and
    password hashing, the authenticated cipher ([Aead]), identifiers as text ([Uuids]), Redis,
    ipnet networks, the HTTP exchange of a delivery, host actions ([action_handler]), the file
    system ([FileSystem]), the object store ([ObjectStore], and [ObjectReader] where bytes are only
    read), reads of a byte window ([WindowReads]) and civil dates ([CivilDates]).  Every property that relies on such
    laws has a witness over a concrete instance.

    ** What the theorems show

    - Matching: both wildcard walks decide the language of the pattern and terminate.
    - Policies: the winner is first in (priority, deny, name) order whatever the listing order;
      conditions survive their JSON; request facts cannot be shadowed by account attributes;
      versions form a complete history.
    - Resolution: the resolver computes its specification over inheritance chains (deny, then
      allow, otherwise nothing); more bindings never lift a denial; the guard resolves exactly
      the live, applicable bindings; the whole path decides as specified, and the simulator
      agrees with it.
    - Hierarchy: the parent check accepts exactly the acyclic, shallow parents, and every
      sequence of role operations keeps the hierarchy well formed.
    - Safety of administration: a checked revocation keeps an owner; seeding reconciles and is
      idempotent; an installation with accounts has an owner.
    - Cron and cadence: a field's values and the next run are exactly the expression's; a backup
      runs at the first later instant with its local reading.
    - Engine, for every interleaving of instances, lost claims, stops and cancellations: steps
      run in order, one at a time; verdicts match steps; closed rows are final; attempts stay in
      budget.  For one instance that keeps sweeping and ticking: every run ends, and a validated
      definition always starts.
    - Automation: placeholders mean what the grammar says; a drain starts exactly the runs the
      rules owe, and every event committed in order is evaluated once.
    - Deliveries: while a lease lasts a delivery is handed out again only after somebody answered
      it; an answered claim moves on, so attempts end; the queue stays well formed.
    - Limits and sign-in: the counter admits exactly the ceiling of a window; wrong guesses made one
      after another are bounded by the threshold per lock; a password of an account with a factor
      brings a challenge, which the route of codes ends only with a code; a code is accepted exactly within its window; a recovery code works once; Base32 and
      networks are exact.
    - Backups: a successful run verifies from the bytes it wrote, encrypted or not, and later runs
      leave it so; opening inverts sealing and names what is wrong otherwise; objects copied and
      restored come back with their bytes; the sweep keeps protected runs and the successful run
      that finished last; a tick serves the schedules due soonest and arms each for its next time.
    - Restores: a plan exists exactly for what may be restored; nothing of the library is written
      before a complete, protected safety backup stands; a queued restore settles, is its
      worker's alone once claimed, is final once closed, and a cancel says what it did.
    - Media: the bytes served are the bytes of the named file and range; a held file is refused to
      everybody the policy holds it from; a sweep judges the files that waited longest; the folders stay
      a tree, and a move takes exactly its subtree, while its pattern matches no other folder; the gate reads the grants of the whole path, and grants
      only narrow; a share link serves what it names and nothing once it is revoked, and counts what
      it served; every file and version keeps its bytes, as long as purges by hand are of
      trashed files and end well; a pass spares what is held, live, recent or referenced, takes what is due and leaves no object of it, and never before its restore window ends.
    - Credentials: an ended session never returns, a sign-out reaches every session it names, and the
      cookie of a live session brings its account back; dead keys stay dead, a rotated key replaces
      the old one, and a key opens what was delegated to it; a guard lets through only a caller the
      resolution entitles.
    - Approvals: every approved request has its binding, a decision is final, and a window ends by
      itself.
    - Notifications: a fact is recorded once and on the channels the reader keeps; a claim is left
      alone while its lease lasts and nobody answers it or deletes its notification; a delivery that is reached settles; a pass tells whom the rules
      name, and a repeated event writes nothing.
    - Health: the history of incidents stays well formed; an outage is one incident; a breach is
      announced once a window; limits survive their save.
    - Boundaries of these guarantees, as theorems about concrete runs, one or more per component:
      the unfenced lease, the retry of a cancelled run, the race of two revocations, events
      committed late, overlapping guesses, skipped clock readings, restores of libraries that
      lost an object, the sweep of running restores, and the others the findings list.

    ** Bounds and fuel

    The matching loop runs on a fuel of (pattern + 1) * (text + 1) * (text + 1) steps, which its
    correctness theorem shows to suffice.  The parent walks are bounded by the limit of eight and
    by the number of links; the resolver by the number of roles; [fill] by the 256 values of a
    byte; the cron search by the source's own 1465 days and the cadence search by its own days,
    and their theorems say what lies beyond.  A tick's loop is bounded by its batch;
    [engine_drains] counts rounds by thirteen per step (each attempt is claimed once and ended
    once, at most six times, and one more for a claim found open) and one per run.  The scan of
    placeholders runs on the length of the text, shown to suffice.  Everything else is structural.

    ** What is not modelled

    Database failures other than constraint violations and those that are arguments, failures of
    the audit write, and transaction isolation below the level of a statement, except where a file
    interleaves statements; deletion of a workflow while its runs are in flight (the statement is
    modelled, it is not an event of the interleavings); the HTTP layer apart from the handlers
    named above; most listings and their filters; the wording of refusals.

    Of components that are modelled, these parts are not: the browser, image metadata, probing,
    transforms, presets, duplicates and usage of [media]; signing and configuration of
    [storage]; organizations, sites, WebAuthn, SSO and SCIM of [identity]; posture and secret
    rotation of [security]; the request log and OAuth applications of the developer portal; the
    probes, samples and history of [health]; encryption of a push and SMTP.  The crates content,
    search, analytics, audit, the AI hub, onboarding, the layered configuration of [core] and the
    command line are not modelled; the front ends are written in TypeScript. *)

From Stdlib Require Export Ascii String DecimalString Bool.
From Stdlib Require DecimalN.
From stdpp Require Export base numbers list strings gmap sorting.

#[global] Arguments N.eqb : simpl never.
#[global] Arguments N.leb : simpl never.
#[global] Arguments N.ltb : simpl never.
#[global] Arguments Z.eqb : simpl never.
#[global] Arguments Z.leb : simpl never.
#[global] Arguments Z.ltb : simpl never.
#[global] Arguments Z.mul : simpl never.
#[global] Arguments Z.add : simpl never.
#[global] Arguments Z.sub : simpl never.

#[global] Open Scope Z_scope.
#[global] Open Scope list_scope.

(** ** Fallible results: Rust's [Result] and the [?] operator *)

Inductive result (A E : Type) : Type :=
| Ok (a : A)
| Err (e : E).
Arguments Ok {A E} a.
Arguments Err {A E} e.

#[export] Instance result_eq_dec {A E} `{EqDecision A, EqDecision E} :
  EqDecision (result A E).
Proof. solve_decision. Defined.

Definition result_bind {A B E} (m : result A E) (k : A -> result B E) : result B E :=
  match m with Ok a => k a | Err e => Err e end.

Definition ok_or {A E} (o : option A) (e : E) : result A E :=
  match o with Some a => Ok a | None => Err e end.

(** [option.is_some()] *)
Definition is_given {A} (o : option A) : bool := match o with Some _ => true | None => false end.
Definition is_ok {A E} (m : result A E) : bool :=
  match m with Ok _ => true | Err _ => false end.

Declare Scope omnion_scope.
Delimit Scope omnion_scope with omnion.
#[global] Open Scope omnion_scope.

(** [let? x := m in k] is Rust's [let x = m?; k]; [guard b e k] is an early return. *)
Notation "'let?' x ':=' m 'in' k" := (result_bind m (fun x => k))
  (at level 10, x pattern, m at level 100, k at level 200) : omnion_scope.
Notation "'require' b 'else' e 'in' k" := (if b then k else Err e)
  (at level 10, b at level 100, e at level 100, k at level 200) : omnion_scope.
Notation "'refuse' b 'with' e 'in' k" := (if b then Err e else k)
  (at level 10, b at level 100, e at level 100, k at level 200) : omnion_scope.

Lemma refuse_ok {A E} (b : bool) (e : E) (k : result A E) a : (refuse b with e in k) = Ok a <-> b = false /\ k = Ok a.
Proof. destruct b; intuition discriminate. Qed.
Lemma require_ok {A E} (b : bool) (e : E) (k : result A E) a : (require b else e in k) = Ok a <-> b = true /\ k = Ok a.
Proof. destruct b; intuition discriminate. Qed.

Lemma ok_or_ok {A E} (o : option A) (e : E) a : ok_or o e = Ok a <-> o = Some a.
Proof. destruct o; cbn; intuition congruence. Qed.

Lemma result_bind_ok {A B E} (m : result A E) (k : A -> result B E) b :
  result_bind m k = Ok b <-> exists a, m = Ok a /\ k a = Ok b.
Proof.
  destruct m; simpl; split; [eauto | intros (? & [= ->] & ?); done | done |
    intros (? & ? & _); done].
Qed.

(** Collect a list of results, first error first ([collect::<Result<Vec<_>, _>>]). *)
Fixpoint collect {A E} (l : list (result A E)) : result (list A) E :=
  match l with
  | [] => Ok []
  | r :: rest => let? a := r in let? l' := collect rest in Ok (a :: l')
  end.

Lemma collect_ok {A E} (l : list (result A E)) l' :
  collect l = Ok l' <-> l = Ok <$> l'.
Proof.
  revert l'; induction l as [|r l IH]; intros l'; destruct l' as [|a l']; simpl;
    try (split; [discriminate || done | discriminate || done]).
  - destruct r; simpl; [destruct (collect l); simpl |]; split; discriminate || done.
  - destruct r as [b|e]; simpl; [|split; discriminate].
    destruct (collect l) as [l''|e]; simpl; split; intros H; simplify_eq;
      f_equal; try (by apply IH); try (by apply IH in H).
    + destruct (IH l') as [_ IH']. specialize (IH' eq_refl). by simplify_eq.
    + destruct (IH l') as [_ IH']. specialize (IH' eq_refl). by simplify_eq.
Qed.

(** ** Text

    A Rust [String] is a sequence of Unicode scalar values; [char] is such a value and [str] the
    sequence. [utf8_len] is Rust's [len] (bytes), [length] is [chars().count()]. *)

Definition char := N.
Definition str := list char.

(** An ASCII literal. *)
Fixpoint lit (s : string) : str :=
  match s with
  | EmptyString => []
  | String a s' => N_of_ascii a :: lit s'
  end.
Notation "'s!' x" := (lit x%string) (at level 1, x at level 0, format "'s!' x") : omnion_scope.
Notation "'c!' x" := (N_of_ascii x%char) (at level 1, x at level 0, format "'c!' x")
  : omnion_scope.

Definition str_eqb (a b : str) : bool := bool_decide (a = b).

Lemma str_eqb_eq a b : str_eqb a b = true <-> a = b.
Proof. apply bool_decide_eq_true. Qed.
Lemma str_eqb_refl a : str_eqb a a = true.
Proof. by apply str_eqb_eq. Qed.
Lemma str_eqb_neq a b : str_eqb a b = false <-> a <> b.
Proof. apply bool_decide_eq_false. Qed.

Definition utf8_width (c : char) : nat :=
  if (c <? 128)%N then 1%nat else if (c <? 2048)%N then 2%nat
  else if (c <? 65536)%N then 3%nat else 4%nat.
Definition utf8_len (s : str) : nat := sum_list (utf8_width <$> s).

(** *** Character classes *)
(** The UTF-8 encoding of a character. *)
Definition utf8_bytes (c : char) : list Z :=
  let z := Z.of_N c in
  let tail k := Z.lor 128 (Z.land (Z.shiftr z (6 * k)) 63) in
  if z <? 128 then [z]
  else if z <? 2048 then [Z.lor 192 (Z.shiftr z 6); tail 0]
  else if z <? 65536 then [Z.lor 224 (Z.shiftr z 12); tail 1; tail 0]
  else [Z.lor 240 (Z.shiftr z 18); tail 2; tail 1; tail 0].

Definition in_range (lo hi c : N) : bool := (lo <=? c)%N && (c <=? hi)%N.
Definition is_ascii_digit (c : char) : bool := in_range 48 57 c.
Definition is_ascii_lowercase (c : char) : bool := in_range 97 122 c.
Definition is_ascii_uppercase (c : char) : bool := in_range 65 90 c.
Definition is_ascii_alphabetic (c : char) : bool := is_ascii_lowercase c || is_ascii_uppercase c.
Definition is_ascii_alphanumeric (c : char) : bool := is_ascii_alphabetic c || is_ascii_digit c.
Definition is_ascii_hexdigit (c : char) : bool := is_ascii_digit c || in_range 97 102 c || in_range 65 70 c.

(** Unicode [White_Space], the class [trim] and [split_whitespace] use. *)
Definition is_whitespace (c : char) : bool :=
  in_range 9 13 c || (c =? 32)%N || (c =? 133)%N || (c =? 160)%N || (c =? 5760)%N
  || in_range 8192 8202 c || (c =? 8232)%N || (c =? 8233)%N || (c =? 8239)%N
  || (c =? 8287)%N || (c =? 12288)%N.

Definition to_ascii_lowercase (s : str) : str :=
  (fun c => if is_ascii_uppercase c then (c + 32)%N else c) <$> s.
Definition to_ascii_uppercase (s : str) : str :=
  (fun c => if is_ascii_lowercase c then (c - 32)%N else c) <$> s.

(** *** Searching, trimming and splitting *)
Fixpoint starts_with (s prefix : str) : bool :=
  match prefix, s with
  | [], _ => true
  | p :: prefix', c :: s' => (p =? c)%N && starts_with s' prefix'
  | _ :: _, [] => false
  end.

Definition strip_prefix (s prefix : str) : option str :=
  if starts_with s prefix then Some (drop (length prefix) s) else None.

Definition ends_with (s suffix : str) : bool := starts_with (rev s) (rev suffix).

(** Offset (in characters) of the first occurrence of [needle]. *)
Fixpoint find_sub (s needle : str) : option nat :=
  if starts_with s needle then Some 0%nat
  else match s with
       | [] => None
       | _ :: s' => S <$> find_sub s' needle
       end.
Definition contains_sub (s needle : str) : bool :=
  match find_sub s needle with Some _ => true | None => false end.

Definition contains_char (c : char) (s : str) : bool := existsb (N.eqb c) s.

Fixpoint trim_start_by (f : char -> bool) (s : str) : str :=
  match s with
  | c :: s' => if f c then trim_start_by f s' else s
  | [] => []
  end.
Definition trim_end_by (f : char -> bool) (s : str) : str := rev (trim_start_by f (rev s)).
Definition trim (s : str) : str := trim_end_by is_whitespace (trim_start_by is_whitespace s).
(** [s.trim_matches(f)] *)
Definition trim_matches (f : char -> bool) (s : str) : str := trim_end_by f (trim_start_by f s).
(** SQL's [btrim(s)]: spaces only. *)
Definition btrim (s : str) : str := trim_end_by (N.eqb c!" ") (trim_start_by (N.eqb c!" ") s).
(** [char::is_control] *)
Definition is_control (c : char) : bool := (c <? 32)%N || in_range 127 159 c.

(** [s.split(c)]: always at least one piece. *)
Fixpoint split_on (c : char) (s : str) : list str :=
  match s with
  | [] => [[]]
  | x :: s' =>
      if (x =? c)%N then [] :: split_on c s'
      else match split_on c s' with
           | piece :: rest => (x :: piece) :: rest
           | [] => [[x]]
           end
  end.

(** [s.split_once(c)]. *)
Fixpoint split_once (c : char) (s : str) : option (str * str) :=
  match s with
  | [] => None
  | x :: s' =>
      if (x =? c)%N then Some ([], s')
      else match split_once c s' with
           | Some (l, r) => Some (x :: l, r)
           | None => None
           end
  end.

(** [s.split_whitespace()]: the non-empty runs between white space. *)
Fixpoint split_whitespace_go (cur s : str) : list str :=
  match s with
  | [] => match cur with [] => [] | _ => [rev cur] end
  | x :: s' =>
      if is_whitespace x then
        match cur with
        | [] => split_whitespace_go [] s'
        | _ => rev cur :: split_whitespace_go [] s'
        end
      else split_whitespace_go (x :: cur) s'
  end.
Definition split_whitespace (s : str) : list str := split_whitespace_go [] s.

(** [s.rsplit_once(c)]. *)
Definition rsplit_once (c : char) (s : str) : option (str * str) :=
  match split_once c (rev s) with Some (r, l) => Some (rev l, rev r) | None => None end.

(** [pieces.join(sep)]. *)
Fixpoint join (sep : str) (pieces : list str) : str :=
  match pieces with
  | [] => []
  | [p] => p
  | p :: rest => p ++ sep ++ join sep rest
  end.

(** *** Numbers in text *)

Fixpoint digits_value (acc : N) (s : str) : option N :=
  match s with
  | [] => Some acc
  | c :: s' =>
      if is_ascii_digit c then digits_value (acc * 10 + (c - 48))%N s' else None
  end.

(** [s.parse::<uN>()] for an unsigned type with greatest value [max]: an optional [+], at least
    one digit, no overflow. *)
Definition parse_unsigned (max : N) (s : str) : option N :=
  let digits := match s with c :: s' => if (c =? 43)%N then s' else s | [] => [] end in
  match digits with
  | [] => None
  | _ => match digits_value 0 digits with
         | Some n => if (n <=? max)%N then Some n else None
         | None => None
         end
  end.

Definition u8_max : N := 255.
Definition u32_max : N := 4294967295.
Definition u64_max : N := 18446744073709551615.
Definition i32_max : Z := 2147483647.
(** [x as i32] of a wider integer. *)
Definition as_i32 (z : Z) : Z := (z + 2 ^ 31) mod 2 ^ 32 - 2 ^ 31.
Definition i64_max : Z := 9223372036854775807.

(** Decimal rendering of an unsigned number ([format!("{n}")]). *)
Definition show_N (n : N) : str := lit (NilEmpty.string_of_uint (N.to_uint n)).
Definition show_Z (z : Z) : str :=
  if z <? 0 then c!"-" :: show_N (Z.to_N (- z)) else show_N (Z.to_N z).

Lemma lit_inj s t : lit s = lit t -> s = t.
Proof.
  revert t; induction s as [|a s IH]; intros [|b t] H; try discriminate; [done|].
  cbn [lit] in H. injection H as Ha Ht. apply (f_equal ascii_of_N) in Ha.
  rewrite !ascii_N_embedding in Ha. subst. by rewrite (IH t).
Qed.

Lemma show_N_inj n m : show_N n = show_N m -> n = m.
Proof.
  intros H%lit_inj. apply (f_equal NilEmpty.uint_of_string) in H. rewrite !NilEmpty.usu in H.
  injection H as H. by apply DecimalN.Unsigned.to_uint_inj in H.
Qed.

Lemma show_N_digits n c : c ∈ show_N n -> is_ascii_digit c = true.
Proof.
  unfold show_N. generalize (N.to_uint n). intros d. revert c.
  induction d as [|d IH|d IH|d IH|d IH|d IH|d IH|d IH|d IH|d IH|d IH]; intros c;
    cbn [NilEmpty.string_of_uint lit]; rewrite ?elem_of_cons, ?elem_of_nil; [done|..];
    (intros [->|H]; [reflexivity|by apply IH]).
Qed.

Lemma show_Z_inj a b : show_Z a = show_Z b -> a = b.
Proof.
  assert (Hm : forall n m, c!"-" :: show_N n <> show_N m).
  { intros n m H. assert (Hd : is_ascii_digit c!"-" = true); [|by vm_compute in Hd].
    apply (show_N_digits m). rewrite <- H. apply list_elem_of_here. }
  unfold show_Z. destruct (Z.ltb_spec a 0), (Z.ltb_spec b 0); intros H'.
  - injection H' as H'%show_N_inj. lia.
  - by destruct (Hm _ _ H').
  - symmetry in H'. by destruct (Hm _ _ H').
  - apply show_N_inj in H'. lia.
Qed.

(** Reading a number back. *)
Lemma digits_value_acc d p :
  digits_value (N.pos p) (lit (NilEmpty.string_of_uint d)) = Some (N.pos (Pos.of_uint_acc d p)).
Proof.
  revert p. induction d as [|d IH|d IH|d IH|d IH|d IH|d IH|d IH|d IH|d IH|d IH]; intros p; [done|..];
    cbn [NilEmpty.string_of_uint lit digits_value Pos.of_uint_acc];
    rewrite <- IH; f_equal; rewrite N.mul_comm; simpl; lia.
Qed.

Lemma digits_value_uint d : digits_value 0 (lit (NilEmpty.string_of_uint d)) = Some (Pos.of_uint d).
Proof.
  induction d as [|d IH|d IH|d IH|d IH|d IH|d IH|d IH|d IH|d IH|d IH]; [done|..];
    cbn [NilEmpty.string_of_uint lit digits_value Pos.of_uint]; [exact IH|..]; apply (digits_value_acc d).
Qed.

Lemma digits_value_show n : digits_value 0 (show_N n) = Some n.
Proof. unfold show_N. rewrite digits_value_uint. f_equal. apply (DecimalN.Unsigned.of_to n). Qed.

Lemma split_once_app c (s rest : str) : c ∉ s -> split_once c (s ++ c :: rest) = Some (s, rest).
Proof.
  induction s as [|x s IH]; intros H; cbn [app split_once]; [by rewrite N.eqb_refl|].
  apply not_elem_of_cons in H as [Hx Hs]. rewrite IH by done. destruct (N.eqb_spec x c) as [->|]; done.
Qed.

Lemma rsplit_once_app c (rest s : str) : c ∉ s -> rsplit_once c (rest ++ c :: s) = Some (rest, s).
Proof.
  intros H. unfold rsplit_once. rewrite rev_app_distr. cbn [rev]. rewrite <- app_assoc. cbn [app].
  rewrite split_once_app; [by rewrite !rev_involutive|]. intros Hin. apply H. apply list_elem_of_In, in_rev. by apply list_elem_of_In.
Qed.

Lemma split_once_inv c s a b : split_once c s = Some (a, b) -> s = a ++ c :: b.
Proof.
  revert a. induction s as [|x s IH]; intros a; [done|]. cbn [split_once]. destruct (N.eqb_spec x c) as [->|]; [by intros [= <- <-]|].
  destruct (split_once c s) as [[a' b']|]; [|done]. intros [= <- <-]. cbn. f_equal. by apply IH.
Qed.

Lemma split_once_none c (s : str) : c ∉ s -> split_once c s = None.
Proof.
  induction s as [|x s IH]; intros H; cbn [split_once]; [done|]. apply not_elem_of_cons in H as [Hx Hs].
  rewrite IH by done. destruct (N.eqb_spec x c) as [->|]; done.
Qed.

(** Equal bytes are equal texts when one of them is ASCII. *)
Lemma utf8_ascii_inj (a b : str) :
  Forall (fun c => (c < 128)%N) a -> mjoin (utf8_bytes <$> a) = mjoin (utf8_bytes <$> b) -> a = b.
Proof.
  revert b. assert (forall c, (c < 128)%N -> utf8_bytes c = [Z.of_N c]) as Hone.
  { intros c H. unfold utf8_bytes. replace (Z.of_N c <? 128) with true by lia. done. }
  assert (forall c, ~ (c < 128)%N -> exists h t, utf8_bytes c = h :: t /\ 192 <= h) as Hmany.
  { assert (forall k x, 0 <= k -> 0 <= x -> k <= Z.lor k x) as Hl.
    { intros k x Hk Hx. assert (Z.lor k x = k + Z.ldiff x k) as ->; [|pose proof (proj2 (Z.ldiff_nonneg x k)); lia].
      rewrite Z.add_nocarry_lxor; (apply Z.bits_inj'; intros i Hi);
        rewrite ?Z.land_spec, ?Z.lor_spec, ?Z.lxor_spec, Z.ldiff_spec, ?Z.bits_0; by destruct (Z.testbit k i), (Z.testbit x i). }
    intros c H. unfold utf8_bytes. replace (Z.of_N c <? 128) with false by lia.
    repeat case_match; eexists _, _; (split; [reflexivity|]); (etrans; [|apply Hl; [lia|apply Z.shiftr_nonneg; lia]]); lia. }
  induction a as [|c a IH]; intros b Ha H.
  - destruct b as [|d b]; [done|]. cbn in H. destruct (decide (d < 128)%N) as [Hd|Hd]; [by rewrite (Hone d Hd) in H|].
    destruct (Hmany d Hd) as (h & t & E & _). by rewrite E in H.
  - apply Forall_cons in Ha as [Hc Ha]. cbn in H. rewrite (Hone c Hc) in H. destruct b as [|d b]; [done|]. cbn in H.
    destruct (decide (d < 128)%N) as [Hd|Hd].
    + rewrite (Hone d Hd) in H. cbn in H. injection H as E H. f_equal; [lia|auto].
    + destruct (Hmany d Hd) as (h & t & E & Hh). rewrite E in H. cbn in H. injection H as ? _. lia.
Qed.

(** Texts free of the separator's first character survive being joined. *)
Lemma split_on_none c s : c ∉ s -> split_on c s = [s].
Proof.
  induction s as [|x s IH]; intros H; [done|]. apply not_elem_of_cons in H as [Hx H]. cbn [split_on].
  assert ((x =? c)%N = false) as -> by (apply N.eqb_neq; congruence). by rewrite IH.
Qed.

Lemma split_on_app c s t : c ∉ s -> split_on c (s ++ c :: t) = s :: split_on c t.
Proof.
  induction s as [|x s IH]; intros H; cbn [app split_on]; [by rewrite N.eqb_refl|].
  apply not_elem_of_cons in H as [Hx H].
  assert ((x =? c)%N = false) as -> by (apply N.eqb_neq; congruence). by rewrite IH.
Qed.

Lemma split_on_length c s : (1 <= length (split_on c s))%nat.
Proof. destruct s as [|d s]; cbn; [lia|]. destruct (d =? c)%N, (split_on c s); cbn; lia. Qed.

Lemma split_on_comma c s : c ∈ s -> (2 <= length (split_on c s))%nat.
Proof.
  intros H. apply list_elem_of_split in H as (l & r & ->).
  destruct (decide (c ∈ l)) as [Hl|Hl]; cycle 1.
  - rewrite split_on_app by done. cbn [length]. pose proof (split_on_length c r). lia.
  - apply list_elem_of_split_l in Hl as (l1 & l2 & -> & Hl1). rewrite <- app_assoc. cbn [app]. rewrite split_on_app by done.
    cbn [length]. pose proof (split_on_length c (l2 ++ c :: r)). lia.
Qed.

Lemma split_on_inj c s t : split_on c s = split_on c t -> s = t.
Proof.
  assert (forall s, exists p l, split_on c s = p :: l) as Hne.
  { intros [|x r]; cbn [split_on]; [eauto|]. destruct (x =? c)%N; [eauto|]. destruct (split_on c r); eauto. }
  revert t. induction s as [|x s IH]; intros [|y t] H; cbn [split_on] in H; [done| | |].
  - destruct (Hne t) as (q & r & Et). rewrite Et in H. destruct (y =? c)%N; congruence.
  - destruct (Hne s) as (q & r & Es). rewrite Es in H. destruct (x =? c)%N; congruence.
  - destruct (Hne s) as (p & l & Es), (Hne t) as (q & r & Et). rewrite Es, Et in H.
    destruct (N.eqb_spec x c) as [->|], (N.eqb_spec y c) as [->|]; [|congruence|congruence|].
    + f_equal. apply IH. congruence.
    + injection H as -> -> ->. f_equal. apply IH. congruence.
Qed.

Lemma join_inj c sep (l l' : list str) :
  Forall (fun e => e <> [] /\ c ∉ e) l -> Forall (fun e => e <> [] /\ c ∉ e) l' ->
  join (c :: sep) l = join (c :: sep) l' -> l = l'.
Proof.
  assert (Hsplit : forall e l, c ∉ e -> split_once c (join (c :: sep) (e :: l))
    = match l with [] => None | _ => Some (e, sep ++ join (c :: sep) l) end).
  { intros e [|e' m] He; cbn [join app]; [by apply split_once_none|]. by apply split_once_app. }
  assert (Hne : forall e l, e <> [] -> join (c :: sep) (e :: l) <> []).
  { intros [|x e] [|e' m] He; done. }
  revert l'. induction l as [|e l IH]; intros [|e' l'] Hl Hl' H; [done|..];
    repeat match goal with H : Forall _ (_ :: _) |- _ => apply Forall_cons in H as [[? ?] ?] end.
  - symmetry in H. by apply Hne in H.
  - by apply Hne in H.
  - pose proof (f_equal (split_once c) H) as Hs. rewrite !Hsplit in Hs by done.
    destruct l as [|f l], l' as [|f' l']; try done.
    + cbn [join] in H. by subst.
    + injection Hs as -> Hs. apply app_inv_head in Hs. f_equal. by apply IH.
Qed.

(** ** Orderings and [sort_by]

    Rust's [Ordering::then_with], a law class for comparators, and the stable sort the code calls
    as [slice::sort_by]. *)

Definition then_with (a b : comparison) : comparison :=
  match a with Eq => b | _ => a end.

Definition bool_cmp (a b : bool) : comparison :=
  match a, b with
  | false, true => Lt
  | true, false => Gt
  | _, _ => Eq
  end.

(** [str::cmp]: byte order of UTF-8, which is the order of the scalar values. *)
Fixpoint str_cmp (a b : str) : comparison :=
  match a, b with
  | [], [] => Eq
  | [], _ :: _ => Lt
  | _ :: _, [] => Gt
  | x :: a', y :: b' => then_with (x ?= y)%N (str_cmp a' b')
  end.

Class CmpLaws {A} (cmp : A -> A -> comparison) : Prop := {
  cmp_flip : forall x y, cmp y x = CompOpp (cmp x y);
  cmp_le_trans : forall x y z, cmp x y <> Gt -> cmp y z <> Gt -> cmp x z <> Gt
}.
Arguments cmp_flip {A} cmp {_} x y.
Arguments cmp_le_trans {A} cmp {_} x y z.

Section CmpFacts.
Context {A : Type} (cmp : A -> A -> comparison) `{!CmpLaws cmp}.

Lemma cmp_refl x : cmp x x = Eq.
Proof. generalize (cmp_flip cmp x x). by destruct (cmp x x). Qed.

Lemma cmp_eq_sym x y : cmp x y = Eq -> cmp y x = Eq.
Proof. intros H. by rewrite (cmp_flip cmp x y), H. Qed.

Lemma cmp_eq_trans x y z : cmp x y = Eq -> cmp y z = Eq -> cmp x z = Eq.
Proof.
  intros H1 H2.
  pose proof (cmp_le_trans cmp x y z) as L1. pose proof (cmp_le_trans cmp z y x) as L2.
  rewrite (cmp_flip cmp y z), (cmp_flip cmp x y), (cmp_flip cmp x z), H1, H2 in L2.
  rewrite H1, H2 in L1.
  destruct (cmp x z); [done | by destruct L2 | by destruct L1].
Qed.

Lemma cmp_lt_le_trans x y z : cmp x y = Lt -> cmp y z <> Gt -> cmp x z = Lt.
Proof.
  intros H1 H2.
  pose proof (cmp_le_trans cmp x y z) as L1. pose proof (cmp_le_trans cmp y z x H2) as L2.
  rewrite (cmp_flip cmp x z), (cmp_flip cmp x y), H1 in L2. rewrite H1 in L1.
  destruct (cmp x z); [by destruct L2 | done | by destruct L1].
Qed.

Lemma cmp_le_lt_trans x y z : cmp x y <> Gt -> cmp y z = Lt -> cmp x z = Lt.
Proof.
  intros H1 H2.
  pose proof (cmp_le_trans cmp x y z H1) as L1.
  pose proof (fun H => cmp_le_trans cmp z x y H H1) as L2.
  rewrite (cmp_flip cmp x z), (cmp_flip cmp y z), H2 in L2. rewrite H2 in L1.
  destruct (cmp x z); [by destruct L2 | done | by destruct L1].
Qed.

Lemma cmp_total x y : cmp x y <> Gt \/ cmp y x <> Gt.
Proof. rewrite (cmp_flip cmp x y). destruct (cmp x y); naive_solver. Qed.

#[export] Instance cmp_reverse_laws : CmpLaws (fun x y => cmp y x).
Proof.
  split; [intros x y; exact (cmp_flip cmp y x)|].
  intros x y z H1 H2. exact (cmp_le_trans cmp z y x H2 H1).
Qed.
End CmpFacts.

#[export] Instance then_with_laws {A} (c1 c2 : A -> A -> comparison)
  `{!CmpLaws c1, !CmpLaws c2} : CmpLaws (fun x y => then_with (c1 x y) (c2 x y)).
Proof.
  split.
  - intros x y. rewrite (cmp_flip c1 x y). destruct (c1 x y); simpl; [apply (cmp_flip c2) | done..].
  - intros x y z.
    destruct (c1 x y) eqn:H1; simpl; [| |done];
      (destruct (c1 y z) eqn:H2; simpl; [| |done]); intros L1 L2.
    + rewrite (cmp_eq_trans c1 _ _ _ H1 H2); simpl. by eapply (cmp_le_trans c2).
    + by rewrite (cmp_le_lt_trans c1 x y z); [|rewrite H1|].
    + by rewrite (cmp_lt_le_trans c1 x y z); [| |rewrite H2].
    + by rewrite (cmp_lt_le_trans c1 x y z); [| |rewrite H2].
Qed.

#[export] Instance on_laws {A B} (f : A -> B) (cmp : B -> B -> comparison) `{!CmpLaws cmp} :
  CmpLaws (fun x y => cmp (f x) (f y)).
Proof.
  split; [intros x y; exact (cmp_flip cmp (f x) (f y))|].
  intros x y z. exact (cmp_le_trans cmp (f x) (f y) (f z)).
Qed.

#[export] Instance Z_compare_laws : CmpLaws Z.compare.
Proof. split; [intros x y; apply Z.compare_antisym | intros x y z; rewrite !Z.compare_le_iff; lia]. Qed.
#[export] Instance N_compare_laws : CmpLaws N.compare.
Proof. split; [intros x y; apply N.compare_antisym | intros x y z; rewrite !N.compare_le_iff; lia]. Qed.
#[export] Instance bool_cmp_laws : CmpLaws bool_cmp.
Proof. split; [by intros [] [] | by intros [] [] []]. Qed.

Lemma str_cmp_eq a b : str_cmp a b = Eq <-> a = b.
Proof.
  revert b; induction a as [|x a IH]; intros [|y b]; simpl; try (split; congruence).
  destruct (N.compare_spec x y); simpl; [rewrite IH|..]; split; try congruence; intros [= ? ?]; lia.
Qed.

#[export] Instance str_cmp_laws : CmpLaws str_cmp.
Proof.
  split.
  - intros s; induction s as [|x a IH]; intros [|y b]; simpl; [done..|].
    rewrite (N.compare_antisym x y), IH. by destruct (x ?= y)%N.
  - intros s; induction s as [|x a IH]; intros [|y b] [|z c]; simpl; try done.
    destruct (N.compare_spec x y), (N.compare_spec y z), (N.compare_spec x z); simpl;
      eauto; try done; lia.
Qed.

(** Part of a sorted list is sorted, and a coarser order sorts it too. *)
Lemma sorted_sublist {A} (R : A -> A -> Prop) l k : sublist l k -> StronglySorted R k -> StronglySorted R l.
Proof.
  induction 1 as [|x l k Hs IH|x l k Hs IH]; intros H; [done|..]; apply StronglySorted_inv in H as [H Hall]; [|by apply IH].
  constructor; [by apply IH|]. rewrite Forall_forall in Hall |- *. intros y Hy. apply Hall. by eapply sublist_subseteq.
Qed.
Lemma sorted_weaken {A} (R S : A -> A -> Prop) l : (forall x y, R x y -> S x y) -> StronglySorted R l -> StronglySorted S l.
Proof. intros HRS. induction 1 as [|x l _ IH Hall]; constructor; [done|]. eapply Forall_impl; [done|]. by apply HRS. Qed.

Section SortBy.
Context {A : Type} (cmp : A -> A -> comparison).

Fixpoint insert_by (x : A) (l : list A) : list A :=
  match l with
  | [] => [x]
  | y :: l' => match cmp x y with Gt => y :: insert_by x l' | _ => x :: l end
  end.
Definition sort_by (l : list A) : list A := foldr insert_by [] l.

Definition cmp_le (x y : A) : Prop := cmp x y <> Gt.

Lemma insert_by_perm x l : insert_by x l ≡ₚ x :: l.
Proof.
  induction l as [|y l IH]; simpl; [done|].
  destruct (cmp x y); [done..|]. rewrite IH. constructor.
Qed.
Lemma sort_by_perm l : sort_by l ≡ₚ l.
Proof. induction l as [|x l IH]; simpl; [done|]. by rewrite insert_by_perm, IH. Qed.

Context `{!CmpLaws cmp}.

Lemma insert_by_sorted x l :
  StronglySorted cmp_le l -> StronglySorted cmp_le (insert_by x l).
Proof.
  induction 1 as [|y l Hs IH Hall]; simpl; [by repeat constructor|].
  destruct (cmp x y) eqn:E.
  1,2: constructor; [by constructor|]; constructor; [by unfold cmp_le; rewrite E|];
    eapply Forall_impl; [done|]; intros z Hz; unfold cmp_le in *;
    eapply (cmp_le_trans cmp); [by rewrite E | done].
  constructor; [done|]. rewrite insert_by_perm. constructor; [|done].
  unfold cmp_le. by rewrite (cmp_flip cmp x y), E.
Qed.
Lemma sort_by_sorted l : StronglySorted cmp_le (sort_by l).
Proof. induction l; simpl; [constructor | by apply insert_by_sorted]. Qed.

(** The first element of a sorted list is a least one. *)
Lemma sort_by_head l x rest :
  sort_by l = x :: rest -> x ∈ l /\ forall y, y ∈ l -> cmp_le x y.
Proof.
  intros H. pose proof (sort_by_sorted l) as Hs. pose proof (sort_by_perm l) as Hp.
  rewrite H in Hs, Hp. split; [rewrite <- Hp; left|].
  intros y Hy. rewrite <- Hp in Hy. inversion Hs as [|? ? ? Hall]; subst.
  apply elem_of_cons in Hy as [->|Hy].
  - unfold cmp_le. by rewrite (cmp_refl cmp).
  - by eapply Forall_forall in Hall.
Qed.
(** Sorting is stable: it commutes with dropping elements. *)
Lemma insert_by_filter (p : A -> bool) x l :
  StronglySorted cmp_le l ->
  List.filter p (insert_by x l) = if p x then insert_by x (List.filter p l) else List.filter p l.
Proof.
  induction 1 as [|y l Hs IH Hall]; simpl; [by destruct (p x)|].
  assert (Hfirst : cmp x y <> Gt -> insert_by x (List.filter p (y :: l)) = x :: List.filter p (y :: l)).
  { intros E. destruct (List.filter p (y :: l)) as [|z l'] eqn:F; [done|]. simpl.
    assert (Hz : z ∈ y :: l).
    { assert (z ∈ List.filter p (y :: l)) as H%list_elem_of_In by (rewrite F; left).
      apply filter_In in H as [H _]. by apply list_elem_of_In. }
    assert (Hle : cmp x z <> Gt).
    { apply elem_of_cons in Hz as [->|Hz]; [done|]. eapply Forall_forall in Hall; [|done]. unfold cmp_le in Hall.
      destruct (cmp x y) eqn:Exy; [|by rewrite (cmp_lt_le_trans cmp x y z)|done].
      destruct (cmp x z) eqn:Exz; [done..|]. intros _.
      apply Hall. rewrite (cmp_flip cmp z y). 
      assert (cmp z x = Lt) as Hzx by (rewrite (cmp_flip cmp x z), Exz; done).
      by rewrite (cmp_lt_le_trans cmp z x y Hzx); [|rewrite Exy]. }
    by destruct (cmp x z). }
  destruct (cmp x y) eqn:E; simpl; simpl in Hfirst.
  1,2: destruct (p x); [|done]; rewrite Hfirst; done.
  rewrite IH. destruct (p y) eqn:Ey, (p x); simpl; try done. by rewrite E.
Qed.
Lemma sort_by_filter (p : A -> bool) l : sort_by (List.filter p l) = List.filter p (sort_by l).
Proof.
  induction l as [|x l IH]; simpl; [done|]. rewrite insert_by_filter by apply sort_by_sorted.
  rewrite <- IH. by destruct (p x).
Qed.
Lemma sort_by_nil l : sort_by l = [] <-> l = [].
Proof.
  split; [|by intros ->]. intros H. apply Permutation_nil_r. by rewrite <- (sort_by_perm l), H.
Qed.
End SortBy.

Lemma sort_by_elem {A} (cmp : A -> A -> comparison) x l : x ∈ sort_by cmp l <-> x ∈ l.
Proof. by rewrite (sort_by_perm cmp l). Qed.

(** ** Lists *)

Lemma elem_of_rev {A} (x : A) l : x ∈ rev l <-> x ∈ l.
Proof. by rewrite !list_elem_of_In, <- in_rev. Qed.
Lemma NoDup_rev {A} (l : list A) : NoDup (rev l) <-> NoDup l.
Proof. by rewrite <- Permutation_rev. Qed.

Lemma elem_of_filter_bool {A} (b : A -> bool) x l : x ∈ List.filter b l <-> x ∈ l /\ b x = true.
Proof. by rewrite !list_elem_of_In, filter_In. Qed.
Lemma existsb_elem {A} (b : A -> bool) l : existsb b l = true <-> exists x, x ∈ l /\ b x = true.
Proof. rewrite existsb_exists. by setoid_rewrite list_elem_of_In. Qed.
Lemma existsb_none {A} (b : A -> bool) l : existsb b l = false <-> forall x, x ∈ l -> b x = false.
Proof.
  rewrite <- not_true_iff_false, existsb_elem. split; [|intros H (x & Hx & E); by rewrite H in E].
  intros H x Hx. apply not_true_iff_false. intros E. apply H. by exists x.
Qed.
Lemma forallb_elem {A} (b : A -> bool) l : forallb b l = true <-> forall x, x ∈ l -> b x = true.
Proof. rewrite forallb_forall. by setoid_rewrite list_elem_of_In. Qed.

Lemma contains_char_elem c s : contains_char c s = true <-> c ∈ s.
Proof.
  unfold contains_char. rewrite existsb_elem. split; [intros (x & Hx & ->%N.eqb_eq); done|]. intros H. exists c. by rewrite N.eqb_refl.
Qed.

Lemma filter_ext_elem {A} (p q : A -> bool) l : (forall x, x ∈ l -> p x = q x) -> List.filter p l = List.filter q l.
Proof.
  induction l as [|x l IH]; intros H; simpl; [done|]. rewrite (H x) by left.
  rewrite IH; [done|]. intros y Hy. apply H. by right.
Qed.

Lemma filter_filter_bool {A} (p q : A -> bool) l :
  List.filter p (List.filter q l) = List.filter (fun x => q x && p x) l.
Proof. induction l as [|x l IH]; simpl; [done|]. destruct (q x) eqn:E; simpl; [destruct (p x)|]; by rewrite IH. Qed.

Lemma filter_all_length {A} (f : A -> bool) l :
  length (List.filter f l) = length l <-> forall x, x ∈ l -> f x = true.
Proof.
  induction l as [|x l IH]; simpl; [split; [by intros _ x ?%elem_of_nil|done]|].
  pose proof (List.filter_length_le f l) as Hle.
  destruct (f x) eqn:E; simpl; split; intros H.
  - intros y [->|Hy]%elem_of_cons; [done|]. apply IH; [lia|done].
  - f_equal. apply IH. intros y Hy. apply H. by right.
  - lia.
  - rewrite (H x) in E; [done|by left].
Qed.

Lemma filter_all {A} (p : A -> bool) l : (forall x, x ∈ l -> p x = true) -> List.filter p l = l.
Proof.
  induction l as [|x l IH]; intros H; [done|]. cbn. rewrite (H x) by (by left). f_equal. apply IH.
  intros y Hy. apply H. by right.
Qed.
Lemma filter_none {A} (p : A -> bool) l : (forall x, x ∈ l -> p x = false) -> List.filter p l = [].
Proof.
  intros H. rewrite (filter_ext_elem p (fun _ => false)) by done. clear H. by induction l.
Qed.
Lemma filter_comm_bool {A} (p q : A -> bool) l : List.filter p (List.filter q l) = List.filter q (List.filter p l).
Proof. rewrite !filter_filter_bool. apply filter_ext_elem. intros x _. apply andb_comm. Qed.

Lemma sublist_filter {A} (p : A -> bool) l : sublist (List.filter p l) l.
Proof.
  induction l as [|x l IH]; simpl; [constructor|]. destruct (p x); by constructor.
Qed.

(** A batch off a sorted table. *)
Lemma batch_length {A} n (cmp : A -> A -> comparison) l : length (take n (sort_by cmp l)) = Nat.min n (length l).
Proof. by rewrite length_take, sort_by_perm. Qed.

Lemma batch_first {A} n (cmp : A -> A -> comparison) `{!CmpLaws cmp} l x y :
  x ∈ take n (sort_by cmp l) -> y ∈ l -> y ∉ take n (sort_by cmp l) -> cmp x y <> Gt.
Proof.
  intros Hx Hy Hn. pose proof (sort_by_sorted cmp l) as S. rewrite <- (sort_by_elem cmp y l), <- (take_drop n (sort_by cmp l)), elem_of_app in Hy.
  destruct Hy as [Hy|Hy]; [done|]. rewrite <- (take_drop n (sort_by cmp l)) in S. by eapply StronglySorted_app_1_elem_of in S.
Qed.

Lemma batch_NoDup {A} n (cmp : A -> A -> comparison) q (l : list A) : NoDup l -> NoDup (take n (sort_by cmp (List.filter q l))).
Proof.
  intros N. eapply sublist_NoDup; [|apply sublist_take]. rewrite sort_by_perm. eapply sublist_NoDup; [exact N|]. apply sublist_filter.
Qed.

Lemma batch_all {A} n (cmp : A -> A -> comparison) l x : (length l <= n)%nat -> x ∈ l -> x ∈ take n (sort_by cmp l).
Proof. intros Hn Hx. rewrite take_ge; [by rewrite sort_by_elem|by rewrite sort_by_perm]. Qed.

Lemma filter_perm {A} (p : A -> bool) l l' : l ≡ₚ l' -> List.filter p l ≡ₚ List.filter p l'.
Proof.
  induction 1 as [|x l l' _ IH|x y l|l l' l'' _ IH1 _ IH2]; simpl; [done| | |by etrans].
  - destruct (p x); [by constructor|done].
  - destruct (p x), (p y); try done. constructor.
Qed.

Lemma NoDup_filter_keys {A B} (f : A -> B) (b : A -> bool) l :
  NoDup (f <$> l) -> NoDup (f <$> List.filter b l).
Proof.
  intros H. eapply sublist_NoDup; [exact H|]. apply fmap_sublist.
  clear H. induction l as [|a l IH]; simpl; [constructor|].
  destruct (b a); [by apply sublist_skip|by apply sublist_cons].
Qed.

(** Rows with distinct keys are told apart by them. *)
Lemma NoDup_key_inj {A B} (f : A -> B) l x y :
  NoDup (f <$> l) -> x ∈ l -> y ∈ l -> f x = f y -> x = y.
Proof.
  induction l as [|a l IH]; [by intros _ ?%elem_of_nil|]. simpl. intros [Ha Hl]%NoDup_cons.
  rewrite !elem_of_cons. intros [->|Hx] [->|Hy] He; [done| | |by apply IH];
    exfalso; apply Ha; [rewrite He|rewrite <- He]; by apply list_elem_of_fmap_2.
Qed.

(** [update … set f where p]. *)
Definition update_where {A} (p : A -> bool) (f : A -> A) (l : list A) : list A := (fun x => if p x then f x else x) <$> l.

Lemma update_where_elem {A} (p : A -> bool) f (l : list A) x :
  x ∈ update_where p f l <-> exists y, y ∈ l /\ x = if p y then f y else y.
Proof. unfold update_where. rewrite list_elem_of_fmap. firstorder. Qed.

Lemma update_where_keeps {A} (p : A -> bool) f (l : list A) d : d ∈ l -> p d = false -> d ∈ update_where p f l.
Proof. intros H E. apply update_where_elem. exists d. by rewrite E. Qed.
Lemma update_where_fmap {A B} (g : A -> B) (p : A -> bool) f (l : list A) :
  (forall x, g (f x) = g x) -> g <$> update_where p f l = g <$> l.
Proof. intros H. unfold update_where. rewrite <- list_fmap_compose. apply list_fmap_ext. intros i x _. cbn. by destruct (p x). Qed.

(** A table whose rows stay, each turned into what a later one may be, and that stays well formed. *)
Definition grows {A} (ok : list A -> Prop) (later : A -> A -> Prop) (l l' : list A) : Prop :=
  ok l -> ok l' /\ forall s, s ∈ l -> exists s', s' ∈ l' /\ later s s'.

#[export] Instance grows_preorder {A} (ok : list A -> Prop) (later : A -> A -> Prop) `{!PreOrder later} : PreOrder (grows ok later).
Proof.
  split; [intros l R; split; [done|]; intros s Hs; by exists s|]. intros l1 l2 l3 H1 H2 R1. destruct (H1 R1) as [R2 G1], (H2 R2) as [R3 G2].
  split; [done|]. intros s (s2 & Hs2 & L2)%G1. destruct (G2 s2 Hs2) as (s3 & Hs3 & L3). exists s3. split; [done|by etrans].
Qed.

Lemma grows_update {A} (ok : list A -> Prop) (later : A -> A -> Prop) `{!PreOrder later} p f l :
  (ok l -> ok (update_where p f l)) -> (forall s, s ∈ l -> ok l -> p s = true -> later s (f s)) -> grows ok later l (update_where p f l).
Proof.
  intros Hf H R. split; [auto|]. intros s Hs. exists (if p s then f s else s). split; [apply update_where_elem; eauto|].
  destruct (p s) eqn:E; [by apply H|reflexivity].
Qed.

Lemma grows_app {A} (ok : list A -> Prop) (later : A -> A -> Prop) `{!PreOrder later} l new :
  (ok l -> ok (l ++ new)) -> grows ok later l (l ++ new).
Proof. intros H R. split; [auto|]. intros s Hs. exists s. split; [apply elem_of_app; by left|reflexivity]. Qed.

Lemma NoDup_snoc {A} (l : list A) x : NoDup l -> x ∉ l -> NoDup (l ++ [x]).
Proof.
  intros N H. apply NoDup_app. split_and!; [done| |apply NoDup_singleton]. intros y Hy E%list_elem_of_singleton. congruence.
Qed.

(** [Vec::dedup]. *)
Fixpoint dedup_by {A} (eqb : A -> A -> bool) (l : list A) : list A :=
  match l with
  | x :: (y :: _) as l' => if eqb x y then dedup_by eqb l' else x :: dedup_by eqb l'
  | _ => l
  end.

Lemma dedup_by_elem l (x : str) : x ∈ dedup_by str_eqb l <-> x ∈ l.
Proof.
  induction l as [|y l IH]; [done|]. cbn [dedup_by]. destruct l as [|z l]; [done|].
  destruct (str_eqb y z) eqn:E; [apply str_eqb_eq in E as ->|]; rewrite ?elem_of_cons, IH, ?elem_of_cons; naive_solver.
Qed.

(** ** Automation *)

Create HintDb omnion discriminated.
Create Rewrite HintDb omnion_bool.
#[export] Hint Rewrite andb_true_iff orb_true_iff negb_true_iff andb_false_iff orb_false_iff
  negb_false_iff Z.leb_le Z.ltb_lt Z.leb_gt Z.ltb_ge Z.eqb_eq Z.eqb_neq
  N.leb_le N.ltb_lt N.leb_gt N.ltb_ge N.eqb_eq N.eqb_neq
  Nat.leb_le Nat.ltb_lt Nat.leb_gt Nat.ltb_ge Nat.eqb_eq Nat.eqb_neq
  str_eqb_eq str_eqb_neq bool_decide_eq_true bool_decide_eq_false : omnion_bool.

(** Read boolean tests in the context and the goal as propositions. *)
Ltac bool_prop := autorewrite with omnion_bool in *.

(** Case on the outermost [if] or [match] of the goal. *)
Ltac goal_case :=
  match goal with
  | |- context [if ?b then _ else _] => destruct b eqn:?
  | |- context [match ?x with _ => _ end] => destruct x eqn:?
  end.

(** Take a successful run of a fallible computation apart, one binding or guard at a time. *)
Ltac ok_step H :=
  match type of H with
  | result_bind _ _ = Ok _ =>
      let a := fresh "a" in let Ha := fresh "H" a in
      apply result_bind_ok in H as (a & Ha & H)
  | (if ?b then _ else _) = Ok _ => destruct b eqn:?; try discriminate H
  | (match ?x with _ => _ end) = Ok _ => destruct x eqn:?; try discriminate H
  | Ok _ = Ok _ => injection H as H
  | Err _ = Ok _ => discriminate H
  end.
Ltac ok_inv H := repeat ok_step H.

(** Close a decidable closed goal by computation. *)
Ltac by_compute :=
  first [ vm_compute; reflexivity | apply (bool_decide_unpack _); vm_compute; exact I ].

Lemma trim_start_by_head f s : trim_start_by f s = [] \/ exists c s', trim_start_by f s = c :: s' /\ f c = false.
Proof. induction s as [|x s IH]; simpl; [by left|]. destruct (f x) eqn:E; [done|right; eauto]. Qed.
Lemma trim_start_by_split f s : exists dropped, s = dropped ++ trim_start_by f s.
Proof.
  induction s as [|c s [d IH]]; [by exists []|]. cbn [trim_start_by]. destruct (f c); [|by exists []].
  exists (c :: d). cbn. by rewrite <- IH.
Qed.
Lemma trim_end_by_split f s : exists dropped, s = trim_end_by f s ++ dropped.
Proof.
  destruct (trim_start_by_split f (rev s)) as [d H]. exists (rev d). unfold trim_end_by.
  by rewrite <- rev_app_distr, <- H, rev_involutive.
Qed.

Lemma trim_id s : forallb (fun c => negb (is_whitespace c)) s = true -> trim s = s.
Proof.
  intros H. assert (Hs : forall l, forallb (fun c => negb (is_whitespace c)) l = true -> trim_start_by is_whitespace l = l).
  { intros [|c l] Hl; [done|]. cbn [forallb trim_start_by] in *. apply andb_true_iff in Hl as [Hc%negb_true_iff _]. by rewrite Hc. }
  unfold trim, trim_end_by. rewrite (Hs s) by done. rewrite Hs; [apply rev_involutive|].
  rewrite forallb_elem in *. intros c Hc. apply H. by rewrite elem_of_rev in Hc.
Qed.

Lemma trim_start_head f (c : char) s : f c = false -> trim_start_by f (c :: s) = c :: s.
Proof. intros H. cbn [trim_start_by]. by rewrite H. Qed.

Lemma trim_ends (c : char) s (d : char) :
  is_whitespace c = false -> is_whitespace d = false -> trim (c :: s ++ [d]) = c :: s ++ [d].
Proof.
  intros Hc Hd. unfold trim. rewrite (trim_start_head _ _ _ Hc). unfold trim_end_by.
  change (c :: s ++ [d]) with ((c :: s) ++ [d]). rewrite rev_app_distr. cbn [rev app].
  rewrite (trim_start_head _ _ _ Hd). cbn [rev]. by rewrite rev_app_distr, rev_involutive.
Qed.

Lemma forallb_app_inv {A} (f : A -> bool) l r : forallb f (l ++ r) = true -> forallb f l = true /\ forallb f r = true.
Proof. rewrite forallb_app. apply andb_true_iff. Qed.

Lemma trim_matches_forallb f p s : forallb p s = true -> forallb p (trim_matches f s) = true.
Proof.
  intros H. destruct (trim_start_by_split f s) as [d E]. rewrite E in H. apply forallb_app_inv in H as [_ H].
  unfold trim_matches. destruct (trim_end_by_split f (trim_start_by f s)) as [d' E']. rewrite E' in H.
  by apply forallb_app_inv in H as [H _].
Qed.

Lemma trim_start_by_idem f s : trim_start_by f (trim_start_by f s) = trim_start_by f s.
Proof.
  destruct (trim_start_by_head f s) as [->|(c & s' & -> & Hc)]; [done|]. cbn [trim_start_by]. by rewrite Hc.
Qed.

Lemma trim_start_snoc f s c : f c = false -> exists l, trim_start_by f (s ++ [c]) = l ++ [c].
Proof.
  intros H. induction s as [|x s (l & IH)]; simpl; [rewrite H; by exists []|]. destruct (f x); [eauto|].
  by exists (x :: s).
Qed.

Lemma trim_trim s : trim (trim s) = trim s.
Proof.
  unfold trim, trim_end_by. set (a := trim_start_by is_whitespace s).
  assert (H : trim_start_by is_whitespace (rev (trim_start_by is_whitespace (rev a)))
              = rev (trim_start_by is_whitespace (rev a))).
  { destruct (trim_start_by_head is_whitespace s) as [E|(c & l & E & Hc)]; fold a in E; rewrite E; [done|].
    cbn [rev]. destruct (trim_start_snoc is_whitespace (rev l) c Hc) as (k & ->).
    rewrite rev_app_distr. simpl. by rewrite Hc. }
  rewrite H, rev_involutive. by rewrite trim_start_by_idem.
Qed.

Lemma trim_matches_idem f s : trim_matches f (trim_matches f s) = trim_matches f s.
Proof.
  assert (trim_start_by f (trim_matches f s) = trim_matches f s) as E.
  { unfold trim_matches. destruct (trim_end_by_split f (trim_start_by f s)) as [d E].
    destruct (trim_start_by_head f s) as [H|(c & s' & H & Hc)]; [by rewrite H|]. rewrite H in *.
    destruct (trim_end_by f (c :: s')) as [|x r]; [done|]. injection E as -> _. cbn [trim_start_by]. by rewrite Hc. }
  unfold trim_matches at 1. rewrite E. unfold trim_matches, trim_end_by. by rewrite rev_involutive, trim_start_by_idem.
Qed.

Lemma trim_start_keeps f s c : c ∈ s -> f c = false -> c ∈ trim_start_by f s.
Proof.
  intros Hc Hf. induction s as [|d s IH]; [done|]. cbn [trim_start_by]. destruct (f d) eqn:E; [|done].
  apply elem_of_cons in Hc as [->|Hc]; [congruence|auto].
Qed.

Lemma trim_keeps s c : c ∈ s -> is_whitespace c = false -> c ∈ trim s.
Proof. intros Hc Hf. unfold trim, trim_end_by. apply elem_of_rev, trim_start_keeps, Hf. by apply elem_of_rev, trim_start_keeps. Qed.

Lemma starts_with_app s r : starts_with (s ++ r) s = true.
Proof. induction s as [|c s IH]; [by destruct r|]. simpl. by rewrite N.eqb_refl. Qed.

Lemma starts_with_iff s p : starts_with s p = true <-> exists r, s = p ++ r.
Proof.
  split; [|intros (r & ->); apply starts_with_app]. revert s. induction p as [|c p IH]; intros s; [by exists s|].
  destruct s as [|d s]; [done|]. cbn. intros [->%N.eqb_eq H]%andb_true_iff. destruct (IH s H) as (r & ->). by exists r.
Qed.

Lemma ends_with_iff s p : ends_with s p = true <-> exists l, s = l ++ p.
Proof.
  unfold ends_with. rewrite starts_with_iff. split.
  - intros (r & H). exists (rev r). apply (f_equal (@rev _)) in H. by rewrite rev_app_distr, !rev_involutive in H.
  - intros (l & ->). exists (rev l). apply rev_app_distr.
Qed.

Lemma contains_sub_iff s p : contains_sub s p = true <-> exists l r, s = l ++ p ++ r.
Proof.
  unfold contains_sub. induction s as [|c s IH]; cbn [find_sub].
  - destruct (starts_with [] p) eqn:E.
    + split; [|done]. intros _. apply starts_with_iff in E as (r & E). by exists [], r.
    + split; [done|]. intros (l & r & H). symmetry in H. apply app_eq_nil in H as [-> H]. by apply app_eq_nil in H as [-> ->].
  - destruct (starts_with (c :: s) p) eqn:E.
    + split; [|done]. intros _. apply starts_with_iff in E as (r & E). by exists [], r.
    + apply not_true_iff_false in E. rewrite starts_with_iff in E.
      transitivity (match find_sub s p with Some _ => true | None => false end = true); [by destruct (find_sub s p)|].
      rewrite IH. split; intros (l & r & H).
      * exists (c :: l), r. by rewrite H.
      * destruct l as [|d l]; [by destruct E; exists r|]. injection H as -> ->. by exists l, r.
Qed.

Lemma strip_prefix_app s r : strip_prefix (s ++ r) s = Some r.
Proof. unfold strip_prefix. by rewrite starts_with_app, drop_app_length. Qed.

Lemma strip_prefix_some s p r : strip_prefix s p = Some r -> s = p ++ r.
Proof.
  unfold strip_prefix. revert s. induction p as [|c p IH]; intros s; cbn; [by destruct s; intros [= <-]|].
  destruct s as [|d s]; [done|]. cbn. destruct (N.eqb_spec c d) as [->|]; [|done]. cbn [andb]. intros H. f_equal. by apply IH.
Qed.

Lemma strip_prefix_none s p : strip_prefix s p = None -> forall r, s <> p ++ r.
Proof. intros H r ->. by rewrite strip_prefix_app in H. Qed.

Lemma find_app {A} (f : A -> bool) l l' :
  List.find f (l ++ l') = match List.find f l with Some x => Some x | None => List.find f l' end.
Proof. induction l as [|x l IH]; [done|]. cbn [app List.find]. by destruct (f x). Qed.

Lemma find_exists {A} (p : A -> bool) l : is_given (List.find p l) = existsb p l.
Proof. induction l as [|x l IH]; simpl; [done|]. destruct (p x); [done|apply IH]. Qed.

Lemma omap_ext_elem {A B} (f g : A -> option B) (l : list A) : (forall x, x ∈ l -> f x = g x) -> omap f l = omap g l.
Proof.
  induction l as [|x l IH]; simpl; [done|]. intros H. rewrite (H x) by by left.
  destruct (g x); [f_equal|]; apply IH; intros y Hy; apply H; by right.
Qed.

Lemma find_nothing {A} (p : A -> bool) l : (forall x, x ∈ l -> p x = false) -> List.find p l = None.
Proof.
  induction l as [|x l IH]; simpl; [done|]. intros H. rewrite (H x) by by left. apply IH. intros y Hy. apply H. by right.
Qed.

Lemma find_unique {A} (p : A -> bool) l x :
  x ∈ l -> p x = true -> (forall y, y ∈ l -> p y = true -> y = x) -> List.find p l = Some x.
Proof.
  intros Hx Hp H. destruct (List.find p l) as [y|] eqn:E.
  - apply find_some in E as [Hy%list_elem_of_In E]. by rewrite (H y Hy E).
  - apply list_elem_of_In in Hx. by rewrite (find_none _ _ E x Hx) in Hp.
Qed.

(** Decide comparisons of two literals. *)
Ltac literal_keys :=
  repeat match goal with
  | |- context [str_eqb (lit ?a) (lit ?b)] =>
      let v := eval vm_compute in (str_eqb (lit a) (lit b)) in
      change (str_eqb (lit a) (lit b)) with v
  end.
