(* ===== verification/Glob.v ===== *)
(** * Wildcard matching: [crates/permissions/src/matching.rs] and the wildcard half of
    [crates/policy-engine/src/lib.rs]

    Both crates walk a pattern greedily and backtrack on the last [*] only.  [Greedy] is that
    loop, generic in what one pattern character does to one text character; [glob_matches] and
    [wildcard_match] are its two uses.  The specification is the language a pattern denotes
    ([denotes]); the loop decides it, and its fuel is enough. *)

From S2P Require Import Prelude.

(** ** The language of a pattern *)

Definition STAR : char := c!"*".
Definition QUESTION : char := c!"?".

(** [one c x]: the pattern character [c], when it is not [*], accepts the text character [x]. *)
Inductive denotes (one : char -> char -> bool) : str -> str -> Prop :=
| den_nil : denotes one [] []
| den_skip p v : denotes one p v -> denotes one (STAR :: p) v
| den_eat p x v : denotes one (STAR :: p) v -> denotes one (STAR :: p) (x :: v)
| den_one c p x v : c <> STAR -> one c x = true -> denotes one p v -> denotes one (c :: p) (x :: v).
#[export] Hint Constructors denotes : omnion.

Definition glob_one (c x : char) : bool := (c =? QUESTION)%N || (c =? x)%N.
Definition literal_one (c x : char) : bool := (c =? x)%N.

(** ** The loop *)

(** What a pattern character does to the text character under the cursor. *)
Inductive action := Star | Eat | Miss.

(** The loop's variables: pattern and text cursors, the last [*] seen and the text position its
    run currently ends at. *)
Record walker := Walker { wp : nat; wv : nat; wstar : option nat; wmark : nat }.

Section Greedy.
Context (act : char -> char -> action) (pat text : str).

(** One iteration with [wv < text.len()]: [None] is [return false]. *)
Definition greedy_step (w : walker) (x : char) : option walker :=
  let miss :=
    match wstar w with
    | Some s => Some (Walker (S s) (S (wmark w)) (Some s) (S (wmark w)))
    | None => None
    end in
  match pat !! wp w with
  | Some c =>
      match act c x with
      | Star => Some (Walker (S (wp w)) (wv w) (Some (wp w)) (wv w))
      | Eat => Some (Walker (S (wp w)) (S (wv w)) (wstar w) (wmark w))
      | Miss => miss
      end
  | None => miss
  end.

(** The loop: it leaves at the end of the text with the pattern cursor, returns [false], or is still
    running when the fuel is spent. *)
Inductive walk := AtEnd (p : nat) | ReturnsFalse | StillRunning.
Fixpoint greedy (fuel : nat) (w : walker) : walk :=
  match text !! wv w with
  | None => AtEnd (wp w)
  | Some x =>
      match fuel with
      | O => StillRunning
      | S fuel' =>
          match greedy_step w x with
          | Some w' => greedy fuel' w'
          | None => ReturnsFalse
          end
      end
  end.
End Greedy.

Definition start : walker := Walker 0 0 None 0.

(** A new [*] restarts the text part of the measure, a backtrack moves the mark on. *)
Definition fuel_for (pat text : str) : nat :=
  S (length pat) * S (length text) * S (length text).

(** [glob_matches]: [*] any run, [?] one character. *)
Definition glob_action (c x : char) : action :=
  if (c =? STAR)%N then Star
  else if (c =? QUESTION)%N then Eat
  else if (c =? x)%N then Eat else Miss.

Definition glob_matches (pattern value : str) : bool :=
  match greedy glob_action pattern value (fuel_for pattern value) start with
  | AtEnd p => forallb (N.eqb STAR) (drop p pattern)
  | ReturnsFalse | StillRunning => false
  end.

(** [wildcard_match]: the literal comparison comes first, then [*]. *)
Definition wildcard_action (c x : char) : action :=
  if (c =? x)%N then Eat else if (c =? STAR)%N then Star else Miss.

Fixpoint skip_stars (pattern : str) : str :=
  match pattern with
  | c :: rest => if (c =? STAR)%N then skip_stars rest else pattern
  | [] => []
  end.

Definition wildcard_match (pattern text : str) : bool :=
  match greedy wildcard_action pattern text (fuel_for pattern text) start with
  | AtEnd p => match skip_stars (drop p pattern) with [] => true | _ => false end
  | ReturnsFalse | StillRunning => false
  end.

(** [targets]: an exact key covers itself, a pattern without [*] nothing else. *)
Definition targets (pattern permission : str) : bool :=
  if str_eqb pattern permission then true
  else if negb (contains_char STAR pattern) then false
  else wildcard_match pattern permission.

(** ** Facts about the language *)

Section Language.
Context (one : char -> char -> bool).
#[local] Abbreviation L := (denotes one).

Lemma denotes_star_suffix p v n : L p (drop n v) -> L (STAR :: p) v.
Proof.
  revert v; induction n as [|n IH]; intros v H; [rewrite drop_0 in H; by constructor|].
  destruct v as [|x v]; simpl in H; [by constructor|]. apply den_eat. by apply IH.
Qed.

Lemma denotes_star_inv p v :
  L (STAR :: p) v -> exists n, (n <= length v)%nat /\ L p (drop n v).
Proof.
  remember (STAR :: p) as q eqn:Hq. intros H. revert p Hq.
  induction H as [|p' v H IH|p' x v H IH|c p' x v Hc Ho H IH]; intros p [= ?]; subst; try done.
  - exists 0%nat. rewrite drop_0. split; [lia | done].
  - destruct (IH p eq_refl) as (n & Hn & HL). exists (S n). simpl. split; [lia | done].
Qed.

Lemma denotes_one_inv c p v :
  c <> STAR -> L (c :: p) v -> exists x v', v = x :: v' /\ one c x = true /\ L p v'.
Proof. inversion 2; subst; try done. eauto. Qed.

Lemma denotes_one_iff c p x v : c <> STAR -> L (c :: p) (x :: v) <-> one c x = true /\ L p v.
Proof.
  intros Hc. split.
  - intros (y & v' & [= <- <-] & ? & ?)%denotes_one_inv; eauto.
  - intros [? ?]. by constructor.
Qed.

Lemma denotes_nil_text p : L p [] <-> forallb (N.eqb STAR) p = true.
Proof.
  split.
  - remember [] as v eqn:Hv. induction 1; simplify_eq/=; auto.
  - induction p as [|c p IH]; simpl; [constructor|].
    rewrite andb_true_iff, N.eqb_eq. intros [<- ?]. constructor; auto.
Qed.

(** A star-free prefix of the pattern uses exactly its length of text. *)
Lemma denotes_prefix seg rest v :
  Forall (fun c => c <> STAR) seg -> L (seg ++ rest) v ->
  (length seg <= length v)%nat /\ L rest (drop (length seg) v).
Proof.
  intros Hseg. revert v; induction Hseg as [|c seg Hc Hs IH]; intros v H; simpl in *.
  - rewrite drop_0. split; [lia | done].
  - apply denotes_one_inv in H as (x & v' & -> & _ & H); [|done].
    apply IH in H as [? ?]. simpl. split; [lia | done].
Qed.
End Language.

(** ** The loop decides the language *)

Section GreedyCorrect.
Context (one : char -> char -> bool) (act : char -> char -> action) (pat text : str).
#[local] Abbreviation L := (denotes one).

(** The action agrees with the language on every character of this text. *)
Hypothesis act_spec : forall c x, x ∈ text ->
  act c x = if (c =? STAR)%N then Star else if one c x then Eat else Miss.

(** What is still reachable from a loop state: the pattern from here, or the last [*] taking a
    longer run. *)
Definition reachable (w : walker) : Prop :=
  L (drop (wp w) pat) (drop (wv w) text)
  \/ exists s k, wstar w = Some s /\ (wmark w < k <= length text)%nat
                 /\ L (drop (S s) pat) (drop k text).

(** The pattern between the last [*] and the cursor is star-free and has consumed exactly the
    text between the mark and the cursor. *)
Definition walker_ok (w : walker) : Prop :=
  (wv w <= length text)%nat /\ (wmark w <= wv w)%nat /\
  match wstar w with
  | None => wmark w = 0%nat
  | Some s => (s < length pat)%nat /\ pat !! s = Some STAR /\
      wp w = (S s + (wv w - wmark w))%nat /\ (wp w <= length pat)%nat /\
      Forall (fun c => c <> STAR) (take (wv w - wmark w) (drop (S s) pat))
  end.

Lemma drop_lookup_cons {A} (l : list A) n x : l !! n = Some x -> drop n l = x :: drop (S n) l.
Proof. intros. by rewrite (drop_S l x n). Qed.

(** A longer run of the last [*] needs a suffix of the text strictly after the cursor. *)
Lemma later_run w s k :
  walker_ok w -> wstar w = Some s -> (wmark w < k <= length text)%nat ->
  L (drop (S s) pat) (drop k text) ->
  exists j, (wv w < j <= length text)%nat /\ L (drop (wp w) pat) (drop j text).
Proof.
  intros (Hv & Hm & Hs) E Hk HL. rewrite E in Hs. destruct Hs as (Hlt & Hstar & Hp & Hpl & Hfree).
  set (n := (wv w - wmark w)%nat) in *.
  rewrite <- (take_drop n (drop (S s) pat)), drop_drop in HL.
  apply denotes_prefix in HL as [Hlen HL]; [|done].
  rewrite length_take, length_drop, length_drop in Hlen.
  rewrite length_take, length_drop, drop_drop in HL.
  exists (k + n)%nat. split; [lia|].
  replace (wp w) with (S s + n)%nat by lia.
  replace (k + n)%nat with (k + n `min` (length pat - S s))%nat by lia. done.
Qed.

Definition backtrack (w : walker) (s : nat) : walker :=
  Walker (S s) (S (wmark w)) (Some s) (S (wmark w)).

Lemma backtrack_ok w s :
  walker_ok w -> (wv w < length text)%nat -> wstar w = Some s ->
  ~ L (drop (wp w) pat) (drop (wv w) text) ->
  walker_ok (backtrack w s) /\ (reachable w <-> reachable (backtrack w s)).
Proof.
  intros (Hv & Hm & Hs) Hlt E Hno. rewrite E in Hs. destruct Hs as (? & ? & ? & ? & ?).
  split; [|split].
  - unfold walker_ok; simpl. split_and!; try lia; try done.
    replace (wmark w - wmark w)%nat with 0%nat by lia. constructor.
  - intros [?|(s' & k & E' & Hk & HL)]; [done|]. rewrite E in E'. injection E' as <-.
    destruct (decide (k = S (wmark w))) as [->|]; [by left|].
    right. exists s, k. simpl. split_and!; [done|lia..|done].
  - intros [HL|(s' & k & E' & Hk & HL)]; simpl in *; right; exists s.
    + exists (S (wmark w)). split_and!; [done|lia..|done].
    + injection E' as <-. exists k. split_and!; [done|lia..|done].
Qed.

(** Meeting a [*]: earlier runs of the previous one are subsumed. *)
Lemma star_ok w :
  walker_ok w -> pat !! wp w = Some STAR ->
  let w' := Walker (S (wp w)) (wv w) (Some (wp w)) (wv w) in
  walker_ok w' /\ (reachable w <-> reachable w').
Proof.
  intros Hok Hc. pose proof Hok as (Hv & Hm & Hs).
  pose proof (lookup_lt_Some _ _ _ Hc). simpl. split; [|split].
  - unfold walker_ok; simpl. rewrite Nat.sub_diag. split_and!; try lia; try done.
  - unfold reachable at 2; simpl. intros Hr.
    assert (exists j, (wv w <= j <= length text)%nat /\ L (drop (wp w) pat) (drop j text))
      as (j & Hj & HL).
    { destruct Hr as [HL|(s & k & E & Hk & HL)]; [by exists (wv w)|].
      destruct (later_run w s k) as (j & ? & ?); [done..|]. exists j. split; [lia|done]. }
    rewrite (drop_lookup_cons _ _ _ Hc) in HL.
    apply denotes_star_inv in HL as (n & Hn & HL). rewrite drop_drop in HL.
    rewrite length_drop in Hn.
    destruct (decide (j + n = wv w)%nat) as [<-|]; [by left|].
    right. exists (wp w), (j + n)%nat. split_and!; [done|lia..|done].
  - unfold reachable; simpl. rewrite (drop_lookup_cons _ _ _ Hc). intros [HL|HL].
    + left. by apply den_skip.
    + destruct HL as (s & k & [= <-] & Hk & HL). left.
      apply (denotes_star_suffix _ _ _ (k - wv w)). rewrite drop_drop.
      by replace (wv w + (k - wv w))%nat with k by lia.
Qed.

Lemma eat_ok w c x :
  walker_ok w -> text !! wv w = Some x -> pat !! wp w = Some c -> c <> STAR ->
  one c x = true ->
  let w' := Walker (S (wp w)) (S (wv w)) (wstar w) (wmark w) in
  walker_ok w' /\ (reachable w <-> reachable w').
Proof.
  intros (Hv & Hm & Hs) Hx Hc Hne Ho. simpl.
  pose proof (lookup_lt_Some _ _ _ Hx). pose proof (lookup_lt_Some _ _ _ Hc).
  assert (L (drop (wp w) pat) (drop (wv w) text)
          <-> L (drop (S (wp w)) pat) (drop (S (wv w)) text)) as Hstep.
  { rewrite (drop_lookup_cons _ _ _ Hc), (drop_lookup_cons _ _ _ Hx), denotes_one_iff by done. tauto. }
  split.
  - unfold walker_ok; simpl. split_and!; [lia..|].
    destruct (wstar w) as [s|]; [|done]. destruct Hs as (? & ? & Hp & ? & Hf).
    split_and!; [lia|done|lia|lia|].
    replace (S (wv w) - wmark w)%nat with (S (wv w - wmark w)) by lia.
    rewrite (take_S_r _ _ c); [by apply Forall_app; repeat constructor|].
    rewrite lookup_drop. by rewrite <- Hp.
  - unfold reachable; simpl. by rewrite Hstep.
Qed.

(** One iteration keeps the invariant and loses no way to match. *)
Lemma step_more w x w' :
  walker_ok w -> text !! wv w = Some x -> greedy_step act pat w x = Some w' ->
  walker_ok w' /\ (reachable w <-> reachable w').
Proof.
  intros Hok Hx. pose proof (lookup_lt_Some _ _ _ Hx) as Hlt.
  assert (x ∈ text) as Hin by (by eapply list_elem_of_lookup_2).
  unfold greedy_step. destruct (pat !! wp w) as [c|] eqn:Hc.
  - rewrite (act_spec c x Hin).
    destruct (N.eqb_spec c STAR) as [->|Hne]; [intros [= <-]; by apply star_ok|].
    destruct (one c x) eqn:Ho; [intros [= <-]; by eapply eat_ok|].
    destruct (wstar w) as [s|] eqn:E; [|done]. intros [= <-].
    apply backtrack_ok; try done.
    rewrite (drop_lookup_cons _ _ _ Hc), (drop_lookup_cons _ _ _ Hx), denotes_one_iff by done.
    intros [? _]; congruence.
  - destruct (wstar w) as [s|] eqn:E; [|done]. intros [= <-].
    apply backtrack_ok; try done.
    apply lookup_ge_None in Hc. rewrite drop_ge, (drop_lookup_cons _ _ _ Hx) by lia.
    by inversion 1.
Qed.

Lemma step_stop w x :
  walker_ok w -> text !! wv w = Some x -> greedy_step act pat w x = None -> ~ reachable w.
Proof.
  intros Hok Hx. assert (x ∈ text) as Hin by (by eapply list_elem_of_lookup_2).
  unfold greedy_step, reachable. destruct (pat !! wp w) as [c|] eqn:Hc.
  - rewrite (act_spec c x Hin). destruct (N.eqb_spec c STAR) as [->|Hne]; [done|].
    destruct (one c x) eqn:Ho; [done|]. destruct (wstar w) as [s|] eqn:E; [done|].
    intros _ [HL|(s & k & ? & _)]; [|done].
    rewrite (drop_lookup_cons _ _ _ Hc), (drop_lookup_cons _ _ _ Hx) in HL.
    apply denotes_one_iff in HL as [? ?]; congruence.
  - destruct (wstar w) as [s|] eqn:E; [done|].
    apply lookup_ge_None in Hc. intros _ [HL|(s & k & ? & _)]; [|done].
    rewrite drop_ge, (drop_lookup_cons _ _ _ Hx) in HL by lia. by inversion HL.
Qed.

(** At the end of the text only the pattern from the cursor matters. *)
Lemma end_iff w :
  walker_ok w -> text !! wv w = None ->
  reachable w <-> forallb (N.eqb STAR) (drop (wp w) pat) = true.
Proof.
  intros Hok Hend. apply lookup_ge_None in Hend. rewrite <- (denotes_nil_text one). split.
  - intros [HL|(s & k & E & Hk & HL)]; [by rewrite (drop_ge text) in HL by lia|].
    destruct (later_run w s k) as (j & ? & ?); [done..|]. lia.
  - intros HL. left. by rewrite (drop_ge text) by lia.
Qed.

(** *** Termination: every iteration decreases a measure below the fuel *)

Definition star_rank (w : walker) : nat :=
  match wstar w with Some s => S s | None => 0 end.
Definition measure (w : walker) : nat :=
  ((length pat - star_rank w) * S (length text) + (length text - wmark w)) * S (length text)
  + (length text - wv w).

(** The lexicographic step behind the measure. *)
Lemma lex_step (n a b v v' : nat) : (a < b)%nat -> (v' <= n)%nat -> (a * S n + v' < b * S n + v)%nat.
Proof. intros. assert (S a * S n <= b * S n)%nat by (by apply Nat.mul_le_mono_r). lia. Qed.

Lemma step_measure w x w' :
  walker_ok w -> text !! wv w = Some x -> greedy_step act pat w x = Some w' ->
  (measure w' < measure w)%nat.
Proof.
  intros (Hv & Hm & Hs) Hx. pose proof (lookup_lt_Some _ _ _ Hx) as Hlt.
  assert (forall s, wstar w = Some s -> (measure (backtrack w s) < measure w)%nat) as Hback.
  { intros s E. unfold measure, star_rank; simpl. rewrite E. apply lex_step; lia. }
  unfold greedy_step. destruct (pat !! wp w) as [c|] eqn:Hc; [destruct (act c x)|].
  - intros [= <-]. pose proof (lookup_lt_Some _ _ _ Hc).
    unfold measure, star_rank; simpl. apply lex_step; [|lia]. apply lex_step; [|lia].
    destruct (wstar w) as [s|]; lia.
  - intros [= <-]. unfold measure, star_rank; simpl. lia.
  - destruct (wstar w) as [s|] eqn:E; [|done]. intros [= <-]. by apply Hback.
  - destruct (wstar w) as [s|] eqn:E; [|done]. intros [= <-]. by apply Hback.
Qed.

Definition accepts (o : walk) : Prop :=
  exists p, o = AtEnd p /\ forallb (N.eqb STAR) (drop p pat) = true.

Lemma greedy_sound fuel w :
  walker_ok w -> (measure w < fuel)%nat -> accepts (greedy act pat text fuel w) <-> reachable w.
Proof.
  unfold accepts. revert w; induction fuel as [|fuel IH]; intros w Hok Hf; [lia|]. simpl.
  destruct (text !! wv w) as [x|] eqn:Hx.
  - destruct (greedy_step act pat w x) as [w'|] eqn:E.
    + destruct (step_more w x w') as [Hok' ->]; try done.
      apply IH; [done|]. pose proof (step_measure w x w' Hok Hx E). lia.
    + pose proof (step_stop w x Hok Hx E). naive_solver.
  - rewrite (end_iff w Hok Hx). naive_solver.
Qed.

(** A walk within its measure comes to an end, and more fuel changes nothing. *)
Lemma greedy_ends fuel w :
  walker_ok w -> (measure w < fuel)%nat ->
  greedy act pat text fuel w <> StillRunning
  /\ forall more, (fuel <= more)%nat -> greedy act pat text more w = greedy act pat text fuel w.
Proof.
  revert w; induction fuel as [|fuel IH]; intros w Hok Hf; [lia|]. simpl. destruct (text !! wv w) as [x|] eqn:Hx.
  - destruct (greedy_step act pat w x) as [w'|] eqn:E.
    + destruct (step_more w x w') as [Hok' _]; try done. pose proof (step_measure w x w' Hok Hx E).
      destruct (IH w' Hok' ltac:(lia)) as [H1 H2]. split; [done|].
      intros [|more] Hm; [lia|]. cbn [greedy]. rewrite Hx, E. apply H2. lia.
    + split; [done|]. intros [|more] Hm; [lia|]. cbn [greedy]. by rewrite Hx, E.
  - split; [done|]. intros [|more] Hm; cbn [greedy]; by rewrite Hx.
Qed.

Lemma start_ok : walker_ok start.
Proof. unfold walker_ok; simpl. split_and!; lia || done. Qed.

Lemma fuel_enough : (measure start < fuel_for pat text)%nat.
Proof.
  unfold measure, fuel_for, star_rank. simpl wmark. simpl wv. simpl wstar.
  rewrite <- (Nat.add_0_r (S (length pat) * _ * _)). apply lex_step; [|lia].
  rewrite <- (Nat.add_0_r (S (length pat) * _)). apply lex_step; lia.
Qed.

Lemma reachable_start : reachable start <-> L pat text.
Proof. unfold reachable; simpl. rewrite !drop_0. naive_solver. Qed.

Lemma greedy_decides :
  accepts (greedy act pat text (fuel_for pat text) start) <-> L pat text.
Proof. rewrite <- reachable_start. apply greedy_sound; [apply start_ok | apply fuel_enough]. Qed.
End GreedyCorrect.

(** ** Theorems *)

Lemma glob_action_spec c x : glob_action c x = if (c =? STAR)%N then Star else if glob_one c x then Eat else Miss.
Proof.
  unfold glob_action, glob_one. by destruct (N.eqb_spec c STAR), (N.eqb_spec c QUESTION), (N.eqb_spec c x).
Qed.

(** C39. [glob_matches] returns [true] exactly for the values in the language of the pattern, where
    [*] stands for any run of characters, [?] for exactly one and every other character for
    itself: the greedy walk with one backtracking point is complete. Its loop terminates: within
    [fuel_for] iterations it has left at the end of the text or returned [false], and allowing it more
    changes nothing. *)
Theorem glob_matches_correct (pattern value : str) :
  (glob_matches pattern value = true <-> denotes glob_one pattern value)
  /\ greedy glob_action pattern value (fuel_for pattern value) start <> StillRunning
  /\ (forall more, (fuel_for pattern value <= more)%nat ->
        greedy glob_action pattern value more start = greedy glob_action pattern value (fuel_for pattern value) start).
Proof.
  split.
  - rewrite <- (greedy_decides glob_one glob_action) by (intros; apply glob_action_spec).
    unfold glob_matches, accepts. destruct (greedy _ _ _ _ _); naive_solver.
  - apply (greedy_ends glob_one); [intros; apply glob_action_spec|apply start_ok|apply fuel_enough].
Qed.

Lemma skip_stars_nil p : skip_stars p = [] <-> forallb (N.eqb STAR) p = true.
Proof.
  induction p as [|c p IH]; simpl; [done|]. rewrite (N.eqb_sym STAR c).
  destruct (N.eqb_spec c STAR); simpl; [done | split; done].
Qed.

Lemma wildcard_match_spec pattern text :
  STAR ∉ text -> wildcard_match pattern text = true <-> denotes literal_one pattern text.
Proof.
  intros Hfree. rewrite <- (greedy_decides literal_one wildcard_action).
  - unfold wildcard_match, accepts. destruct (greedy _ _ _ _ _) as [p| |]; [|naive_solver..].
    pose proof (skip_stars_nil (drop p pattern)). destruct (skip_stars _); naive_solver.
  - intros c x Hx. unfold wildcard_action, literal_one.
    destruct (N.eqb_spec c STAR), (N.eqb_spec c x); subst; done.
Qed.

Lemma contains_char_In c s : contains_char c s = true <-> c ∈ s.
Proof.
  unfold contains_char. rewrite existsb_exists, list_elem_of_In. split.
  - intros (x & ? & ->%N.eqb_eq). done.
  - intros. exists c. by rewrite N.eqb_refl.
Qed.

Lemma denotes_literal p v : STAR ∉ p -> denotes literal_one p v <-> p = v.
Proof.
  revert v; induction p as [|c p IH]; intros v Hp.
  - split; [by inversion 1 | intros <-; constructor].
  - apply not_elem_of_cons in Hp as [Hc Hp]. destruct v as [|x v].
    + split; [inversion 1; subst; done | done].
    + rewrite denotes_one_iff, IH by done. unfold literal_one. rewrite N.eqb_eq. naive_solver.
Qed.

(** A target pattern covers a permission key (a key without [*], as every catalogue key is)
    exactly when the key is in the pattern's language: an exact key covers only itself, [*]
    stands for any run of characters, [content.*] covers [content.pages.publish]. *)
Theorem targets_correct (pattern permission : str) (Hkey : STAR ∉ permission) :
  targets pattern permission = true <-> denotes literal_one pattern permission.
Proof.
  unfold targets. destruct (str_eqb pattern permission) eqn:E.
  - apply str_eqb_eq in E as ->. by rewrite denotes_literal.
  - apply str_eqb_neq in E. destruct (contains_char STAR pattern) eqn:Ec; simpl.
    + by apply wildcard_match_spec.
    + assert (STAR ∉ pattern) by (rewrite <- contains_char_In; congruence).
      rewrite denotes_literal; done.
Qed.
Lemma targets_correct_witness :
  (STAR ∉ s!"content.pages.publish") /\
  (targets s!"content.*" s!"content.pages.publish" = true
   <-> denotes literal_one s!"content.*" s!"content.pages.publish").
Proof.
  split; [by_compute|].
  apply (targets_correct s!"content.*" s!"content.pages.publish").
  by_compute.
Defined.

(** The wildcard walk compares literally before it looks for a wildcard, so a [*] in the text
    consumes the pattern's [*] as a plain character: [targets] of the bare pattern [*] refuses the
    key [*a], although the doc comment says [*] covers everything. *)
Theorem targets_literal_star_gap :
  targets s!"*" s!"*a" = false /\ denotes literal_one s!"*" s!"*a".
Proof. split; [by vm_compute | apply den_eat, den_eat, den_skip, den_nil]. Qed.
