(* ===== verification/Json.v ===== *)
(** * JSON values as the crates read them ([serde_json::Value])

    The crates match on [Value]'s constructors and call a few methods of it; the value type is
    modelled with those constructors.  Numbers belong to [serde_json]: [JsonNumber] is the
    interface the code relies on, [Z_number] an instance used by the witnesses.  A map is the
    association list its iteration shows, kept in key order by [obj_insert]. *)

From Stdlib Require Export SpecFloat.
From S2P Require Import Prelude.

(** ** Numbers *)

(** [number_eqb] is [==], [number_as_f64] and [number_as_i64] the accessors, [number_show] the
    [Display] text, [number_of_Z] the conversion from an integer ([json!(n)]). *)
Class JsonNumber := {
  number : Type;
  number_eqb : number -> number -> bool;
  number_as_f64 : number -> option spec_float;
  number_as_i64 : number -> option Z;
  number_show : number -> str;
  number_of_Z : Z -> number
}.

Definition in_i64 (z : Z) : bool := (- 2 ^ 63 <=? z) && (z <? 2 ^ 63).

(** [Number] implements [Eq]: equality is an equivalence; [as_i64] answers an [i64]. *)
Class JsonNumberLaws (J : JsonNumber) : Prop := {
  number_eqb_refl : forall n, number_eqb n n = true;
  number_eqb_sym : forall n m, number_eqb n m = number_eqb m n;
  number_as_i64_range : forall n z, number_as_i64 n = Some z -> - 2 ^ 63 <= z < 2 ^ 63;
  number_as_i64_of_Z : forall z, in_i64 z = true -> number_as_i64 (number_of_Z z) = Some z
}.

(** Integers, converted to binary64 by round-to-nearest-even. *)
#[export] Instance Z_number : JsonNumber := {|
  number := Z;
  number_eqb := Z.eqb;
  number_as_f64 := fun z => Some (binary_normalize 53 1024 z 0 false);
  number_as_i64 := fun z => if in_i64 z then Some z else None;
  number_show := show_Z;
  number_of_Z := fun z => z
|}.

#[export] Instance Z_number_laws : JsonNumberLaws Z_number.
Proof.
  split; simpl.
  - apply Z.eqb_refl.
  - apply Z.eqb_sym.
  - intros n z. unfold in_i64. destruct (_ && _) eqn:E; [|done]. intros [= ->].
    apply andb_true_iff in E as [?%Z.leb_le ?%Z.ltb_lt]. lia.
  - by intros z ->.
Qed.

(** ** Values *)

Unset Elimination Schemes.
Inductive value `{JsonNumber} : Type :=
| VNull
| VBool (b : bool)
| VNumber (n : number)
| VString (s : str)
| VArray (items : list value)
| VObject (map : list (str * value)).
Set Elimination Schemes.

Section Value.
Context `{J : JsonNumber}.

(** Induction through arrays and objects. *)
Lemma value_ind' (P : value -> Prop)
  (HNull : P VNull) (HBool : forall b, P (VBool b)) (HNumber : forall n, P (VNumber n))
  (HString : forall s, P (VString s))
  (HArray : forall items, Forall P items -> P (VArray items))
  (HObject : forall map, Forall (fun kv => P kv.2) map -> P (VObject map)) :
  forall v, P v.
Proof.
  fix IH 1. intros [|b|n|s|items|map].
  - exact HNull.
  - exact (HBool b).
  - exact (HNumber n).
  - exact (HString s).
  - apply HArray. induction items; constructor; [apply IH | done].
  - apply HObject. induction map as [|[k v] map IHm]; constructor; [apply IH | done].
Qed.

(** [==]. *)
Fixpoint value_eqb (a b : value) : bool :=
  let fix list_eqb (l m : list value) : bool :=
    match l, m with
    | [], [] => true
    | x :: l', y :: m' => value_eqb x y && list_eqb l' m'
    | _, _ => false
    end in
  let fix obj_eqb (l m : list (str * value)) : bool :=
    match l, m with
    | [], [] => true
    | (k, x) :: l', (k', y) :: m' => str_eqb k k' && value_eqb x y && obj_eqb l' m'
    | _, _ => false
    end in
  match a, b with
  | VNull, VNull => true
  | VBool x, VBool y => Bool.eqb x y
  | VNumber x, VNumber y => number_eqb x y
  | VString x, VString y => str_eqb x y
  | VArray l, VArray m => list_eqb l m
  | VObject l, VObject m => obj_eqb l m
  | _, _ => false
  end.

Lemma value_eqb_refl `{!JsonNumberLaws J} v : value_eqb v v = true.
Proof.
  induction v as [|b|n|s|items IH|map IH] using value_ind'; simpl.
  - done.
  - apply Bool.eqb_reflx.
  - apply number_eqb_refl.
  - apply str_eqb_refl.
  - induction IH as [|x items Hx _ IH]; [done|]. by rewrite Hx, IH.
  - induction IH as [|[k x] map Hx _ IH]; [done|]. simpl in Hx. by rewrite str_eqb_refl, Hx, IH.
Qed.

(** ** Accessors *)

Definition as_str (v : value) : option str := match v with VString s => Some s | _ => None end.
Definition as_array (v : value) : option (list value) :=
  match v with VArray l => Some l | _ => None end.
Definition as_object (v : value) : option (list (str * value)) :=
  match v with VObject m => Some m | _ => None end.
Definition as_f64 (v : value) : option spec_float :=
  match v with VNumber n => number_as_f64 n | _ => None end.
Definition as_i64 (v : value) : option Z :=
  match v with VNumber n => number_as_i64 n | _ => None end.
Definition is_null (v : value) : bool := match v with VNull => true | _ => false end.
Definition is_object (v : value) : bool := match v with VObject _ => true | _ => false end.

(** ** Maps *)

Fixpoint obj_get (k : str) (m : list (str * value)) : option value :=
  match m with
  | [] => None
  | (k', v) :: m' => if str_eqb k' k then Some v else obj_get k m'
  end.

Fixpoint obj_insert (k : str) (v : value) (m : list (str * value)) : list (str * value) :=
  match m with
  | [] => [(k, v)]
  | (k', v') :: m' =>
      match str_cmp k k' with
      | Lt => (k, v) :: m
      | Eq => (k, v) :: m'
      | Gt => (k', v') :: obj_insert k v m'
      end
  end.

(** [value.get("key")]: [None] for anything but an object. *)
Definition get (k : str) (v : value) : option value :=
  match v with VObject m => obj_get k m | _ => None end.

Lemma obj_get_insert k v m j :
  obj_get j (obj_insert k v m) = if str_eqb k j then Some v else obj_get j m.
Proof.
  induction m as [|[k' v'] m IH]; simpl; [done|].
  destruct (str_cmp k k') eqn:E; simpl; [|done|].
  - apply str_cmp_eq in E as ->. by destruct (str_eqb k' j).
  - rewrite IH. destruct (str_eqb k' j) eqn:Ej; [|done].
    destruct (str_eqb k j) eqn:Ek; [|done].
    apply str_eqb_eq in Ej as ->, Ek as ->. rewrite (cmp_refl str_cmp) in E. done.
Qed.

Lemma obj_get_insert_eq k v m : obj_get k (obj_insert k v m) = Some v.
Proof. by rewrite obj_get_insert, str_eqb_refl. Qed.

Lemma obj_get_insert_ne k v m j : k <> j -> obj_get j (obj_insert k v m) = obj_get j m.
Proof. intros. rewrite obj_get_insert. by rewrite (proj2 (str_eqb_neq k j)). Qed.
End Value.
