(* ===== verification/PolicyEngine.v ===== *)
(** * The attribute-based policy engine: [crates/policy-engine/src/lib.rs]

    Condition trees over JSON attributes, their stored form, and the decision of a policy set.
    Refusal sentences are modelled as the constructor of the branch that answers them. *)

From S2P Require Import Prelude Glob Json.

Section PolicyEngine.
Context `{J : JsonNumber}.

(** ** Operators *)

Inductive operator :=
| Equals | NotEquals | GreaterThan | LessThan | In | StartsWith | Contains.

#[export] Instance operator_eq_dec : EqDecision operator.
Proof. solve_decision. Defined.

Definition operator_all : list operator :=
  [Equals; NotEquals; GreaterThan; LessThan; In; StartsWith; Contains].

Definition operator_as_str (op : operator) : str :=
  match op with
  | Equals => s!"=="
  | NotEquals => s!"!="
  | GreaterThan => s!">"
  | LessThan => s!"<"
  | In => s!"in"
  | StartsWith => s!"starts_with"
  | Contains => s!"contains"
  end.

Definition operator_parse (text : str) : option operator :=
  List.find (fun op => str_eqb (operator_as_str op) text) operator_all.

(** Order two JSON numbers as binary64 values. *)
Definition compare (left right : value) : option Z :=
  match as_f64 left, as_f64 right with
  | Some l, Some r => Some (if SFltb r l then 1 else if SFltb l r then -1 else 0)
  | _, _ => None
  end.

Definition operator_apply (op : operator) (resolved expected : value) : bool :=
  match op with
  | Equals => value_eqb resolved expected
  | NotEquals => negb (value_eqb resolved expected)
  | GreaterThan =>
      match compare resolved expected with Some ordering => 0 <? ordering | None => false end
  | LessThan =>
      match compare resolved expected with Some ordering => ordering <? 0 | None => false end
  | In =>
      match as_array expected with
      | Some items => existsb (fun item => value_eqb item resolved) items
      | None => false
      end
  | StartsWith =>
      match as_str resolved, as_str expected with
      | Some text, Some prefix => starts_with text prefix
      | _, _ => false
      end
  | Contains =>
      match resolved with
      | VArray items => existsb (fun item => value_eqb item expected) items
      | VString text =>
          match as_str expected with
          | Some needle => negb (str_eqb needle []) && contains_sub text needle
          | None => false
          end
      | _ => false
      end
  end.

(** ** Condition trees *)

Unset Elimination Schemes.
Inductive condition :=
| CAll (children : list condition)
| CAny (children : list condition)
| CNot (child : condition)
| CLeaf (attribute : str) (op : operator) (expected : value).
Set Elimination Schemes.

Lemma condition_ind' (P : condition -> Prop)
  (HAll : forall l, Forall P l -> P (CAll l)) (HAny : forall l, Forall P l -> P (CAny l))
  (HNot : forall c, P c -> P (CNot c)) (HLeaf : forall a op v, P (CLeaf a op v)) :
  forall c, P c.
Proof.
  fix IH 1. intros [l|l|c|a op v].
  - apply HAll. induction l; constructor; [apply IH | done].
  - apply HAny. induction l; constructor; [apply IH | done].
  - apply HNot, IH.
  - apply HLeaf.
Qed.

Definition condition_empty : condition := CAll [].

Inductive parse_error :=
| ConditionNotObject | AllNotArray | AnyNotArray | EmptyAttribute | UnknownOperator
| MissingValue | UnknownShape.

(** [object.get(key)] followed by [f], so that recursion through it is structural. *)
Definition obj_get_with {B} (f : value -> B) (k : str) : list (str * value) -> option B :=
  fix go m :=
    match m with
    | [] => None
    | (k', v) :: m' => if str_eqb k' k then Some (f v) else go m'
    end.

Definition parse_leaf (object : list (str * value)) : result condition parse_error :=
  let? attribute := ok_or
    (match obj_get s!"attribute" object with
     | Some (VString raw) => let t := trim raw in if str_eqb t [] then None else Some t
     | _ => None
     end) EmptyAttribute in
  let? op := ok_or
    (match obj_get s!"operator" object with
     | Some (VString raw) => operator_parse raw
     | _ => None
     end) UnknownOperator in
  let? expected := ok_or (obj_get s!"value" object) MissingValue in
  Ok (CLeaf attribute op expected).

Fixpoint condition_parse (v : value) : result condition parse_error :=
  match v with
  | VObject object =>
      match obj_get_with (fun children =>
              match children with
              | VArray items => let? cs := collect (map condition_parse items) in Ok (CAll cs)
              | _ => Err AllNotArray
              end) s!"all" object with
      | Some r => r
      | None =>
      match obj_get_with (fun children =>
              match children with
              | VArray items => let? cs := collect (map condition_parse items) in Ok (CAny cs)
              | _ => Err AnyNotArray
              end) s!"any" object with
      | Some r => r
      | None =>
      match obj_get_with (fun child =>
              let? c := condition_parse child in Ok (CNot c)) s!"not" object with
      | Some r => r
      | None =>
          match obj_get s!"attribute" object with
          | Some _ => parse_leaf object
          | None => Err UnknownShape
          end
      end end end
  | _ => Err ConditionNotObject
  end.

Fixpoint condition_to_json (c : condition) : value :=
  match c with
  | CAll children => VObject (obj_insert s!"all" (VArray (map condition_to_json children)) [])
  | CAny children => VObject (obj_insert s!"any" (VArray (map condition_to_json children)) [])
  | CNot child => VObject (obj_insert s!"not" (condition_to_json child) [])
  | CLeaf attribute op expected =>
      VObject (obj_insert s!"value" expected
        (obj_insert s!"operator" (VString (operator_as_str op))
          (obj_insert s!"attribute" (VString attribute) [])))
  end.

(** ** Attributes *)

Record attributes := Attributes { attr_map : list (str * value) }.

Definition attributes_empty : attributes := Attributes [].

Definition attributes_from_json (v : value) : attributes :=
  Attributes (match as_object v with Some m => m | None => [] end).

Fixpoint walk_path (cursor : value) (segments : list str) : value :=
  match segments with
  | [] => cursor
  | segment :: rest =>
      match get segment cursor with Some v => walk_path v rest | None => VNull end
  end.

Definition DOT : char := c!".".

Definition attributes_get (a : attributes) (path : str) : value :=
  match split_on DOT path with
  | [] => VNull
  | first :: rest =>
      match obj_get first (attr_map a) with Some v => walk_path v rest | None => VNull end
  end.

(** The insertion loop: intermediate values that are not objects are replaced by empty ones. *)
Fixpoint set_path (segments : list str) (v : value) (m : list (str * value))
  : list (str * value) :=
  match segments with
  | [] => m
  | [last] => obj_insert last v m
  | segment :: rest =>
      let child := match obj_get segment m with Some (VObject c) => c | _ => [] end in
      obj_insert segment (VObject (set_path rest v child)) m
  end.

Definition attributes_set (a : attributes) (path : str) (v : value) : attributes :=
  Attributes (set_path (List.filter (fun part => negb (str_eqb part [])) (split_on DOT path))
                       v (attr_map a)).

Fixpoint satisfied (c : condition) (a : attributes) : bool :=
  match c with
  | CAll children => forallb (fun child => satisfied child a) children
  | CAny children => existsb (fun child => satisfied child a) children
  | CNot child => negb (satisfied child a)
  | CLeaf attribute op expected => operator_apply op (attributes_get a attribute) expected
  end.

(** ** Policies and decisions *)

Inductive policy_effect := PAllow | PDeny.

Definition policy_effect_as_str (e : policy_effect) : str :=
  match e with PAllow => s!"allow" | PDeny => s!"deny" end.
Definition policy_effect_parse (text : str) : option policy_effect :=
  if str_eqb text s!"allow" then Some PAllow
  else if str_eqb text s!"deny" then Some PDeny else None.
Definition is_deny (e : policy_effect) : bool := match e with PDeny => true | PAllow => false end.

(** Identifiers are 128-bit values that are only compared. *)
Record policy := Policy {
  policy_id : N;
  policy_name : str;
  effect : policy_effect;
  priority : Z;
  enabled : bool;
  target_permissions : list str;
  conditions : condition
}.

Record policy_match := PolicyMatch {
  match_id : N;
  match_name : str;
  match_effect : policy_effect;
  match_priority : Z
}.

Record policy_candidate := PolicyCandidate {
  cand_id : N;
  cand_name : str;
  cand_effect : policy_effect;
  cand_priority : Z;
  cand_enabled : bool;
  cand_targeted : bool;
  cand_satisfied : bool
}.

Definition applies (c : policy_candidate) : bool :=
  cand_enabled c && cand_targeted c && cand_satisfied c.

Definition policy_matches (p : policy) (permission : str) (a : attributes) : bool :=
  enabled p && existsb (fun pattern => targets pattern permission) (target_permissions p)
  && satisfied (conditions p) a.

(** The comparator of [decide]'s sort: priority descending, deny first, then the name. *)
Definition decide_order (left right : policy) : comparison :=
  then_with
    (then_with (priority right ?= priority left)
               (bool_cmp (is_deny (effect right)) (is_deny (effect left))))
    (str_cmp (policy_name left) (policy_name right)).

Definition to_match (p : policy) : policy_match :=
  PolicyMatch (policy_id p) (policy_name p) (effect p) (priority p).

Definition decide (policies : list policy) (permission : str) (a : attributes)
  : option policy_match :=
  let candidates := List.filter (fun p => policy_matches p permission a) policies in
  to_match <$> head (sort_by decide_order candidates).

Definition to_candidate (permission : str) (a : attributes) (p : policy) : policy_candidate :=
  PolicyCandidate (policy_id p) (policy_name p) (effect p) (priority p) (enabled p)
    (existsb (fun pattern => targets pattern permission) (target_permissions p))
    (satisfied (conditions p) a).

Definition candidate_order (left right : policy_candidate) : comparison :=
  then_with
    (then_with (bool_cmp (applies right) (applies left))
               (cand_priority right ?= cand_priority left))
    (str_cmp (cand_name left) (cand_name right)).

Definition candidates (policies : list policy) (permission : str) (a : attributes)
  : list policy_candidate :=
  sort_by candidate_order (map (to_candidate permission a) policies).

Inductive target_error := TargetEmpty | TargetUnknown | TargetMatchesNothing.

Definition validate_target (pattern : str) (known : list str) : result unit target_error :=
  let pattern := trim pattern in
  refuse str_eqb pattern [] with TargetEmpty in
  if negb (contains_char STAR pattern) then
    if existsb (str_eqb pattern) known then Ok tt else Err TargetUnknown
  else if existsb (targets pattern) known then Ok tt else Err TargetMatchesNothing.

(** ** The dry run's leaf trace *)

Record leaf_trace := LeafTrace {
  leaf_path : str;
  leaf_attribute : str;
  leaf_operator : str;
  leaf_expected : value;
  leaf_resolved : value;
  leaf_satisfied : bool
}.

Definition child_path (path : str) (kind : str) (index : nat) : str :=
  path ++ s!"/" ++ kind ++ s!"[" ++ show_N (N.of_nat index) ++ s!"]".

Fixpoint trace_walk (node : condition) (path : str) (a : attributes) : list leaf_trace :=
  let fix children (kind : str) (index : nat) (l : list condition) : list leaf_trace :=
    match l with
    | [] => []
    | child :: rest =>
        trace_walk child (child_path path kind index) a ++ children kind (S index) rest
    end in
  match node with
  | CAll l => children s!"all" 0%nat l
  | CAny l => children s!"any" 0%nat l
  | CNot child => trace_walk child (path ++ s!"/not") a
  | CLeaf attribute op expected =>
      let resolved := attributes_get a attribute in
      [LeafTrace (trim_start_by (N.eqb c!"/") path) attribute (operator_as_str op) expected
         resolved (operator_apply op resolved expected)]
  end.

Definition trace (c : condition) (a : attributes) : list leaf_trace := trace_walk c [] a.

(** ** Lemmas *)

#[export] Instance decide_order_laws : CmpLaws decide_order.
Proof.
  unfold decide_order. apply then_with_laws; [apply then_with_laws|].
  - apply (cmp_reverse_laws (fun l r => priority l ?= priority r)).
  - apply (cmp_reverse_laws (fun l r => bool_cmp (is_deny (effect l)) (is_deny (effect r)))).
  - apply (on_laws policy_name str_cmp).
Qed.

#[export] Instance candidate_order_laws : CmpLaws candidate_order.
Proof.
  unfold candidate_order. apply then_with_laws; [apply then_with_laws|].
  - apply (cmp_reverse_laws (fun l r => bool_cmp (applies l) (applies r))).
  - apply (cmp_reverse_laws (fun l r => cand_priority l ?= cand_priority r)).
  - apply (on_laws cand_name str_cmp).
Qed.

Lemma decide_order_le p q :
  cmp_le decide_order p q ->
  priority q <= priority p
  /\ (priority q = priority p -> is_deny (effect q) = true -> is_deny (effect p) = true).
Proof.
  unfold cmp_le, decide_order. destruct (Z.compare_spec (priority q) (priority p)); simpl; [|by split; [lia|lia]|done].
  intros Hc. split; [lia|]. intros _ Hd. rewrite Hd in Hc. by destruct (is_deny (effect p)).
Qed.

Lemma decide_order_eq p q :
  decide_order p q = Eq ->
  priority p = priority q /\ effect p = effect q /\ policy_name p = policy_name q.
Proof.
  unfold decide_order. destruct (Z.compare_spec (priority q) (priority p)); simpl; try done.
  destruct (effect p), (effect q); simpl; try done; rewrite str_cmp_eq; auto.
Qed.

Lemma List_filter_In {A} (f : A -> bool) l x : x ∈ List.filter f l <-> x ∈ l /\ f x = true.
Proof. by rewrite !list_elem_of_In, filter_In. Qed.

Lemma decide_inv policies permission a m :
  decide policies permission a = Some m ->
  exists p, m = to_match p /\ p ∈ policies /\ policy_matches p permission a = true /\
    forall q, q ∈ policies -> policy_matches q permission a = true -> cmp_le decide_order p q.
Proof.
  unfold decide. intros (p & Hm & Hp)%fmap_Some.
  destruct (sort_by _ _) as [|p' rest] eqn:E; simplify_eq/=.
  apply (sort_by_head decide_order) in E as [Hin Hle]. apply List_filter_In in Hin as [Hin Hma].
  exists p. split_and!; try done. intros q Hq Hmq. apply Hle. by apply List_filter_In.
Qed.

Lemma decide_none policies permission a :
  decide policies permission a = None <->
  forall q, q ∈ policies -> policy_matches q permission a = false.
Proof.
  unfold decide. rewrite fmap_None. split.
  - intros Hh q Hq. destruct (sort_by _ _) eqn:E; [|done]. apply sort_by_nil in E.
    destruct (policy_matches q permission a) eqn:Em; [|done].
    assert (q ∈ List.filter (fun p => policy_matches p permission a) policies) as Hin
      by (by apply List_filter_In). rewrite E in Hin. by apply elem_of_nil in Hin.
  - intros Hn. replace (List.filter _ _) with (@nil policy); [done|].
    symmetry. induction policies as [|p l IH]; simpl; [done|].
    rewrite Hn by left. apply IH. intros q Hq. apply Hn. by right.
Qed.

Lemma Permutation_List_filter {A} (f : A -> bool) l l' :
  l ≡ₚ l' -> List.filter f l ≡ₚ List.filter f l'.
Proof.
  induction 1; simpl; repeat match goal with |- context [if ?b then _ else _] => destruct b end;
    eauto using Permutation.
Qed.

Lemma candidates_elem policies permission a c :
  c ∈ candidates policies permission a <->
  exists p, c = to_candidate permission a p /\ p ∈ policies.
Proof. unfold candidates. rewrite sort_by_perm. apply list_elem_of_fmap. Qed.

Lemma applies_to_candidate permission a p :
  applies (to_candidate permission a p) = policy_matches p permission a.
Proof. done. Qed.

Lemma operator_parse_as_str op : operator_parse (operator_as_str op) = Some op.
Proof. by destruct op. Qed.

(** A leaf's attribute is non-empty and carries no outer white space. *)
Fixpoint condition_wf (c : condition) : bool :=
  match c with
  | CAll l | CAny l => forallb condition_wf l
  | CNot child => condition_wf child
  | CLeaf attribute _ _ => negb (str_eqb attribute []) && str_eqb (trim attribute) attribute
  end.

Lemma parse_children l :
  Forall (fun c => condition_wf c = true -> condition_parse (condition_to_json c) = Ok c) l ->
  forallb condition_wf l = true ->
  collect (map condition_parse (map condition_to_json l)) = Ok l.
Proof.
  induction 1 as [|c l Hc _ IH]; simpl; [done|]. intros [Hw Hl]%andb_true_iff.
  by rewrite (Hc Hw), (IH Hl).
Qed.

Lemma condition_parse_to_json c : condition_wf c = true -> condition_parse (condition_to_json c) = Ok c.
Proof.
  intros Hwf. induction c as [l IH|l IH|c IH|attribute op expected] using condition_ind'; simpl in *.
  - by rewrite (parse_children l).
  - by rewrite (parse_children l).
  - by rewrite IH.
  - apply andb_true_iff in Hwf as [Hne Htrim]. apply str_eqb_eq in Htrim.
    apply negb_true_iff in Hne. unfold parse_leaf; simpl.
    by rewrite Htrim, Hne, operator_parse_as_str.
Qed.

Lemma set_path_cons s segs v m :
  segs <> [] ->
  set_path (s :: segs) v m =
    obj_insert s (VObject (set_path segs v
      (match obj_get s m with Some (VObject c) => c | _ => [] end))) m.
Proof. by destruct segs. Qed.

Lemma walk_set_path segs v m s :
  match obj_get s (set_path (s :: segs) v m) with Some w => walk_path w segs | None => VNull end = v.
Proof.
  revert s m; induction segs as [|s' segs IH]; intros s m.
  - simpl. by rewrite obj_get_insert_eq.
  - rewrite set_path_cons, obj_get_insert_eq by done. simpl walk_path. apply IH.
Qed.

Lemma filter_nonempty (segs : list str) :
  Forall (fun x => x <> []) segs -> List.filter (fun part => negb (str_eqb part [])) segs = segs.
Proof.
  induction 1 as [|x l Hx _ IH]; simpl; [done|]. by rewrite (proj2 (str_eqb_neq x [])), IH.
Qed.

(** ** Theorems *)

(** The deciding policy of a set is a member that is enabled, targets the permission and
    holds; no other such member has a higher priority, and at equal priority a deny is never
    beaten by an allow.  The set is silent exactly when no member matches. *)
Theorem decide_deny_wins (policies : list policy) (permission : str) (a : attributes) :
  match decide policies permission a with
  | Some m => exists p, m = to_match p /\ p ∈ policies /\ policy_matches p permission a = true /\
      forall q, q ∈ policies -> policy_matches q permission a = true ->
        priority q < priority p
        \/ (priority q = priority p /\ (effect q = PDeny -> effect p = PDeny))
  | None => forall q, q ∈ policies -> policy_matches q permission a = false
  end.
Proof.
  destruct (decide _ _ _) as [m|] eqn:E; [|by apply decide_none].
  apply decide_inv in E as (p & -> & Hin & Hm & Hle). exists p. split_and!; try done.
  intros q Hq Hmq. destruct (decide_order_le p q (Hle q Hq Hmq)) as [Hp Hd].
  destruct (Z.lt_total (priority q) (priority p)) as [?|[Heq|?]]; [by left| |lia].
  right. split; [done|]. intros Hq'. specialize (Hd Heq). rewrite Hq' in Hd.
  destruct (effect p); [by discriminate Hd|done].
Qed.

(** A tie is never decided by insertion order: two permutations of one policy set give
    decisions with the same effect, priority and policy name. *)
Theorem decide_order_independent (l l' : list policy) (permission : str) (a : attributes)
  (Hperm : l ≡ₚ l') :
  (fun m => (match_effect m, match_priority m, match_name m)) <$> decide l permission a
  = (fun m => (match_effect m, match_priority m, match_name m)) <$> decide l' permission a.
Proof.
  destruct (decide l permission a) as [m|] eqn:E, (decide l' permission a) as [m'|] eqn:E'; simpl.
  - apply decide_inv in E as (p & -> & Hin & Hm & Hle), E' as (p' & -> & Hin' & Hm' & Hle').
    assert (decide_order p p' = Eq) as (Hp & He & Hn)%decide_order_eq;
      [|simpl; by rewrite Hp, He, Hn].
    assert (cmp_le decide_order p p') as L1 by (apply Hle; [by rewrite Hperm|done]).
    assert (cmp_le decide_order p' p) as L2 by (apply Hle'; [by rewrite <- Hperm|done]).
    unfold cmp_le in *. rewrite (cmp_flip decide_order p p') in L2. by destruct (decide_order p p').
  - apply decide_inv in E as (p & -> & Hin & Hm & _). rewrite decide_none in E'.
    rewrite E' in Hm; [done|]. by rewrite <- Hperm.
  - apply decide_inv in E' as (p & -> & Hin & Hm & _). rewrite decide_none in E.
    rewrite E in Hm; [done|]. by rewrite Hperm.
  - done.
Qed.

(** The dry run and the decision agree: the set decides exactly when some listed candidate
    applies, and the deciding policy is one of the candidates that apply. *)
Theorem candidates_agree (policies : list policy) (permission : str) (a : attributes) :
  match decide policies permission a with
  | Some m => exists c, c ∈ candidates policies permission a /\ applies c = true /\
      cand_id c = match_id m /\ cand_effect c = match_effect m /\ cand_priority c = match_priority m
  | None => forall c, c ∈ candidates policies permission a -> applies c = false
  end.
Proof.
  destruct (decide _ _ _) as [m|] eqn:E.
  - apply decide_inv in E as (p & -> & Hin & Hm & _). exists (to_candidate permission a p).
    split; [apply candidates_elem; eauto|]. by rewrite applies_to_candidate.
  - intros c (p & -> & Hin)%candidates_elem. rewrite applies_to_candidate.
    by apply (proj1 (decide_none _ _ _) E).
Qed.

(** Stored conditions read back: parsing the JSON a condition tree is written as gives the
    tree, for every tree whose leaves carry a trimmed, non-empty attribute. *)
Theorem condition_roundtrip (c : condition) (Hwf : condition_wf c = true) :
  condition_parse (condition_to_json c) = Ok c.
Proof.
  by apply condition_parse_to_json.
Qed.

(** Reading back an attribute gives what was stored at its path, whatever the set held before
    (intermediate objects are created, values in the way replaced); a path through a missing
    object resolves to null. *)
Theorem attributes_set_get (a : attributes) (path : str) (v : value)
  (Hpath : Forall (fun segment => segment <> []) (split_on DOT path)) :
  attributes_get (attributes_set a path v) path = v
  /\ attributes_get attributes_empty path = VNull.
Proof.
  unfold attributes_get, attributes_set; simpl. rewrite filter_nonempty by done.
  destruct (split_on DOT path) as [|s segs] eqn:E.
  - exfalso. revert E. clear. destruct path as [|x path]; simpl; [done|].
    destruct (x =? DOT)%N; [done|]. by destruct (split_on DOT path).
  - split; [apply walk_set_path | done].
Qed.
End PolicyEngine.

(** ** Witnesses *)

Section Witnesses.
#[local] Existing Instance Z_number.

Definition allow_all : policy := Policy 1 s!"a" PAllow 10 true [s!"*"] condition_empty.
Definition deny_all : policy := Policy 2 s!"b" PDeny 10 true [s!"*"] condition_empty.

Lemma decide_order_independent_witness :
  [allow_all; deny_all] ≡ₚ [deny_all; allow_all] /\
  (fun m => (match_effect m, match_priority m, match_name m)) <$>
    decide [allow_all; deny_all] s!"content.read" attributes_empty
  = (fun m => (match_effect m, match_priority m, match_name m)) <$>
    decide [deny_all; allow_all] s!"content.read" attributes_empty.
Proof.
  split; [apply perm_swap|].
  apply (decide_order_independent [allow_all; deny_all] [deny_all; allow_all] s!"content.read"
           attributes_empty).
  apply perm_swap.
Defined.

Definition path_condition : condition :=
  CAll [CLeaf s!"resource.path" StartsWith (VString s!"/blog"); CNot (CAny [])].

Lemma condition_roundtrip_witness :
  condition_wf path_condition = true /\
  condition_parse (condition_to_json path_condition) = Ok path_condition.
Proof. split; [reflexivity | apply (condition_roundtrip path_condition); reflexivity]. Defined.

Lemma attributes_set_get_witness :
  attributes_get (attributes_set attributes_empty s!"user.plan" (VString s!"pro")) s!"user.plan"
  = VString s!"pro" /\ attributes_get attributes_empty s!"user.plan" = VNull.
Proof.
  apply (attributes_set_get attributes_empty s!"user.plan" (VString s!"pro")).
  vm_compute. repeat constructor; discriminate.
Defined.

(** A node that carries several of [all], [any] and [not] is read by the first of them and the
    others are dropped without a refusal: the stored policy
    [{"all": [], "any": []}] parses as the condition that always holds. *)
Theorem condition_parse_ignores_extra_keys :
  condition_parse (VObject [(s!"all", VArray []); (s!"any", VArray [])]) = Ok (CAll [])
  /\ satisfied (CAll []) attributes_empty = true
  /\ satisfied (CAny []) attributes_empty = false.
Proof. split_and!; reflexivity. Qed.

(** The paths of a trace join their steps with a slash. *)
Example trace_paths :
  leaf_path <$> trace (CAll [CAny [CLeaf s!"a" Equals VNull; CLeaf s!"b" Equals VNull]])
                      attributes_empty
  = [s!"all[0]/any[0]"; s!"all[0]/any[1]"].
Proof. reflexivity. Qed.
End Witnesses.
