(* ===== verification/Roles.v ===== *)
(** * Roles, scopes and the permission resolver: [crates/permissions/src/model.rs] and
    [crates/permissions/src/evaluate.rs]

    The resolver walks every bound role's inheritance chain and merges the entries it meets.  The
    specification is stated over the chains themselves ([ancestor]). *)

From S2P Require Import Prelude Glob.

(** Identifiers are 128-bit values that are only compared; instants are integers. *)
Abbreviation uuid := N.
Abbreviation instant := Z.

(** ** Model ([model.rs]) *)

Inductive entry_effect := Allow | Deny.
#[export] Instance entry_effect_eq_dec : EqDecision entry_effect.
Proof. solve_decision. Defined.

Definition effect_as_str (e : entry_effect) : str :=
  match e with Allow => s!"allow" | Deny => s!"deny" end.

Inductive permissions_error :=
| InvalidScope | InvalidPriority | InvalidRoleName
| InvalidRoleKey | UnknownPermission (key : str)
| RoleNotFound | RoleKeyTaken | SelfInheritance | InheritanceCycle | InheritanceDepthExceeded
| RoleHasBindings (count : Z)
| VersionConflict (expected current : Z)
| InvalidEntries (unknown duplicates : list str)
| CrossOrganizationInheritance | SystemRole | InvalidBinding | AlreadyBound | PolicyNotFound | InvalidPolicy
| UnknownSimulatedAction (key : str).

Definition effect_from_stored (v : str) : result entry_effect permissions_error :=
  if str_eqb v s!"allow" then Ok Allow
  else if str_eqb v s!"deny" then Ok Deny
  else Err InvalidScope.

Record role := Role {
  role_id : uuid;
  organization_id : option uuid;
  role_key : str;
  role_name : str;
  description : str;
  role_priority : Z;
  inherits_role_id : option uuid;
  inherit_permissions : bool;
  is_system : bool;
  role_created_at : instant;
  role_updated_at : instant
}.

Record role_permission := RolePermission { rp_key : str; rp_effect : entry_effect }.
#[export] Instance role_permission_eq_dec : EqDecision role_permission.
Proof. solve_decision. Defined.

Record role_assignment := RoleAssignment { ra_role : role; ra_permissions : list role_permission }.

Definition entry (a : role_assignment) (key : str) : option entry_effect :=
  rp_effect <$> List.find (fun e => str_eqb (rp_key e) key) (ra_permissions a).

Inductive subject := User (id : uuid) | Group (id : uuid) | ServiceAccount (id : uuid).
#[export] Instance subject_eq_dec : EqDecision subject.
Proof. solve_decision. Defined.

Definition subject_type (s : subject) : str :=
  match s with
  | User _ => s!"user"
  | Group _ => s!"group"
  | ServiceAccount _ => s!"service_account"
  end.
Definition subject_id (s : subject) : uuid :=
  match s with User id | Group id | ServiceAccount id => id end.
Definition subject_from_parts (ty : str) (id : uuid) : result subject permissions_error :=
  if str_eqb ty s!"user" then Ok (User id)
  else if str_eqb ty s!"group" then Ok (Group id)
  else if str_eqb ty s!"service_account" then Ok (ServiceAccount id)
  else Err InvalidScope.

Record resource_context := ResourceContext {
  ctx_organization_id : option uuid;
  ctx_site_id : option uuid;
  ctx_department : option str;
  ctx_module : option str;
  ctx_path : option str
}.

Inductive scope :=
| Global
| Organization (organization : uuid)
| Site (organization : option uuid) (site : uuid)
| Department (organization : uuid) (department : str)
| Module_ (organization : option uuid) (site : option uuid) (module : str)
| Resource (organization : option uuid) (site : option uuid) (resource_type resource_id : str).
#[export] Instance scope_eq_dec : EqDecision scope.
Proof. solve_decision. Defined.

Definition scope_organization_id (s : scope) : option uuid :=
  match s with
  | Global => None
  | Organization o => Some o
  | Site o _ => o
  | Department o _ => Some o
  | Module_ o _ _ | Resource o _ _ _ => o
  end.
Definition scope_site_id (s : scope) : option uuid :=
  match s with
  | Global | Organization _ | Department _ _ => None
  | Site _ site => Some site
  | Module_ _ site _ | Resource _ site _ _ => site
  end.
Definition scope_type (s : scope) : str :=
  match s with
  | Global => s!"global"
  | Organization _ => s!"organization"
  | Site _ _ => s!"site"
  | Department _ _ => s!"department"
  | Module_ _ _ _ => s!"module"
  | Resource _ _ _ _ => s!"resource"
  end.
Definition scope_resource_type (s : scope) : option str :=
  match s with Resource _ _ ty _ => Some ty | _ => None end.
Definition scope_resource_id (s : scope) : option str :=
  match s with
  | Department _ d => Some d
  | Module_ _ _ m => Some m
  | Resource _ _ _ id => Some id
  | _ => None
  end.

Definition context_from_scope (s : scope) : resource_context :=
  ResourceContext (scope_organization_id s) (scope_site_id s) None None None.

(** [own.is_none_or(|own| target == Some(own))]. *)
Definition none_or_is (own target : option uuid) : bool :=
  match own with None => true | Some o => bool_decide (target = Some o) end.

Definition applies_to (s : scope) (ctx : resource_context) : bool :=
  match s with
  | Global => true
  | Organization o => bool_decide (ctx_organization_id ctx = Some o)
  | Site _ site => bool_decide (ctx_site_id ctx = Some site)
  | Department o d =>
      bool_decide (ctx_organization_id ctx = Some o) && bool_decide (ctx_department ctx = Some d)
  | Module_ o site m =>
      bool_decide (ctx_module ctx = Some m)
      && none_or_is o (ctx_organization_id ctx) && none_or_is site (ctx_site_id ctx)
  | Resource o site ty id =>
      let target :=
        if str_eqb ty s!"path" then
          match ctx_path ctx with Some path => glob_matches id path | None => false end
        else if str_eqb ty s!"module" then bool_decide (ctx_module ctx = Some id)
        else false in
      target && none_or_is o (ctx_organization_id ctx) && none_or_is site (ctx_site_id ctx)
  end.

Definition is_some {A} (o : option A) : bool := match o with Some _ => true | None => false end.

Definition scope_from_parts (ty : str) (organization site : option uuid)
  (resource_type resource_id : option str) : result scope permissions_error :=
  if str_eqb ty s!"global" then
    match organization, site, resource_type, resource_id with
    | None, None, None, None => Ok Global
    | _, _, _, _ => Err InvalidScope
    end
  else if str_eqb ty s!"organization" then
    match organization, site, resource_type, resource_id with
    | Some o, None, None, None => Ok (Organization o)
    | _, _, _, _ => Err InvalidScope
    end
  else if str_eqb ty s!"site" then
    match site, resource_type, resource_id with
    | Some st, None, None => Ok (Site organization st)
    | _, _, _ => Err InvalidScope
    end
  else if str_eqb ty s!"department" then
    match organization, site, resource_type, resource_id with
    | Some o, None, None, Some d => Ok (Department o d)
    | _, _, _, _ => Err InvalidScope
    end
  else if str_eqb ty s!"module" then
    match resource_type, resource_id with
    | None, Some m =>
        if is_some organization || is_some site then Ok (Module_ organization site m)
        else Err InvalidScope
    | _, _ => Err InvalidScope
    end
  else if str_eqb ty s!"resource" then
    match resource_type, resource_id with
    | Some rt, Some id =>
        if is_some organization || is_some site then Ok (Resource organization site rt id)
        else Err InvalidScope
    | _, _ => Err InvalidScope
    end
  else Err InvalidScope.

Definition MAX_PRIORITY : Z := 1000.
Definition MIN_PRIORITY : Z := 0.
Definition validate_priority (p : Z) : result Z permissions_error :=
  if (MIN_PRIORITY <=? p) && (p <=? MAX_PRIORITY) then Ok p else Err InvalidPriority.

Definition MAX_ROLE_NAME_LENGTH : nat := 80.
Definition validate_role_name (name : str) : result str permissions_error :=
  let name := trim name in
  if str_eqb name [] || (MAX_ROLE_NAME_LENGTH <? length name)%nat then Err InvalidRoleName
  else Ok name.

(** ** Evaluation ([evaluate.rs]) *)

Inductive via := ExplicitAllow | InheritedAllow | ExplicitDeny | InheritedDeny | ViaPolicy.

Definition rank (v : via) : Z :=
  match v with
  | ExplicitDeny => 3
  | InheritedDeny => 2
  | ExplicitAllow | ViaPolicy => 1
  | InheritedAllow => 0
  end.
Definition is_denial (v : via) : bool :=
  match v with ExplicitDeny | InheritedDeny => true | _ => false end.

Record policy_stamp := PolicyStamp { stamp_id : uuid; stamp_name : str; stamp_priority : Z }.

Record grant := Grant {
  grant_role_id : uuid;
  grant_role_key : str;
  grant_role_name : str;
  grant_role_priority : Z;
  grant_via : via;
  grant_policy : option policy_stamp
}.

Definition grant_from_policy (stamp : policy_stamp) : grant :=
  Grant (stamp_id stamp) s!"policy" (stamp_name stamp) (stamp_priority stamp) ViaPolicy (Some stamp).

Inductive deny_reason := ReasonExplicitDeny | ReasonPolicyDeny | MissingPermission.
Inductive decision :=
| Allowed (g : grant)
| Denied (reason : deny_reason) (source : option grant).

Definition is_allowed (d : decision) : bool :=
  match d with Allowed _ => true | Denied _ _ => false end.

Record effective_permissions := EffectivePermissions {
  grants : gmap str grant;
  denials : gmap str grant
}.
Definition no_permissions : effective_permissions := EffectivePermissions ∅ ∅.

Definition allows (e : effective_permissions) (key : str) : bool :=
  is_some (grants e !! key) && negb (is_some (denials e !! key)).

Definition decision_of (e : effective_permissions) (key : str) : decision :=
  match denials e !! key with
  | Some g => Denied ReasonExplicitDeny (Some g)
  | None =>
      match grants e !! key with
      | Some g => Allowed g
      | None => Denied MissingPermission None
      end
  end.

(** Strongest route first, then the higher role: a lexicographic comparison. *)
Definition is_stronger (candidate existing : grant) : bool :=
  match rank (grant_via candidate) ?= rank (grant_via existing) with
  | Gt => true
  | Lt => false
  | Eq =>
      match then_with (grant_role_priority candidate ?= grant_role_priority existing)
                      (str_cmp (grant_role_key candidate) (grant_role_key existing)) with
      | Gt => true
      | _ => false
      end
  end.

Definition keep_stronger (key : str) (g : grant) (target : gmap str grant) : gmap str grant :=
  match target !! key with
  | Some existing => if is_stronger g existing then <[key := g]> target else target
  | None => <[key := g]> target
  end.

Definition record_entry (e : effective_permissions) (key : str) (eff : entry_effect) (v : via)
  (r : role) : effective_permissions :=
  let g := Grant (role_id r) (role_key r) (role_name r) (role_priority r) v None in
  match eff with
  | Allow => EffectivePermissions (keep_stronger key g (grants e)) (denials e)
  | Deny => EffectivePermissions (grants e) (keep_stronger key g (denials e))
  end.

Abbreviation role_graph := (gmap uuid role_assignment).

(** Collecting pairs into a map keeps the last role of an id. *)
Definition role_graph_new (roles : list role_assignment) : role_graph :=
  fold_left (fun g a => <[role_id (ra_role a) := a]> g) roles ∅.

Definition via_of (eff : entry_effect) (inherited : bool) : via :=
  match eff, inherited with
  | Allow, false => ExplicitAllow
  | Allow, true => InheritedAllow
  | Deny, false => ExplicitDeny
  | Deny, true => InheritedDeny
  end.

(** The parent the walk continues with, when inheritance is on and the graph knows it. *)
Definition parent (g : role_graph) (a : role_assignment) : option role_assignment :=
  if inherit_permissions (ra_role a) then
    match inherits_role_id (ra_role a) with Some id => g !! id | None => None end
  else None.

Definition record_all (inherited : bool) (a : role_assignment) (e : effective_permissions)
  : effective_permissions :=
  fold_left (fun e p => record_entry e (rp_key p) (rp_effect p)
                          (via_of (rp_effect p) inherited) (ra_role a)) (ra_permissions a) e.

(** The [while let Some(assignment) = cursor] loop of [effective] for one bound role. *)
Fixpoint effective_walk (g : role_graph) (fuel : nat) (visited : gset uuid)
  (cursor : option role_assignment) (inherited : bool) (e : effective_permissions)
  : effective_permissions :=
  match cursor, fuel with
  | Some a, S fuel' =>
      if decide (role_id (ra_role a) ∈ visited) then e
      else effective_walk g fuel' ({[role_id (ra_role a)]} ∪ visited) (parent g a) true
             (record_all inherited a e)
  | _, _ => e
  end.

Definition walk_fuel (g : role_graph) : nat := S (size g).

Definition effective (g : role_graph) (bound : list uuid) : effective_permissions :=
  fold_left (fun e id =>
    match g !! id with
    | None => e
    | Some a => effective_walk g (walk_fuel g) ∅ (Some a) false e
    end) bound no_permissions.

Record trace := Trace {
  trace_role_id : uuid;
  trace_role_key : str;
  trace_role_name : str;
  trace_effect : entry_effect;
  trace_via : via;
  inherited_from : option (uuid * str)
}.

(** The same loop in [trace]: the first role of the chain with an entry answers. *)
Fixpoint trace_walk (g : role_graph) (key : str) (fuel : nat) (visited : gset uuid)
  (cursor : option role_assignment) (inherited : bool) (from : option (uuid * str))
  : option trace :=
  match cursor, fuel with
  | Some a, S fuel' =>
      let r := ra_role a in
      if decide (role_id r ∈ visited) then None
      else match entry a key with
           | Some eff =>
               Some (Trace (role_id r) (role_key r) (role_name r) eff (via_of eff inherited) from)
           | None =>
               let from' := match from with None => Some (role_id r, role_key r) | Some _ => from end in
               trace_walk g key fuel' ({[role_id r]} ∪ visited) (parent g a) true from'
           end
  | _, _ => None
  end.

Definition trace_of (g : role_graph) (id : uuid) (key : str) : option trace :=
  match g !! id with
  | None => None
  | Some a => trace_walk g key (walk_fuel g) ∅ (Some a) false None
  end.

(** ** Specification: inheritance chains and what they contribute *)

(** [ancestor g a b]: [b] is [a] or is reached from [a] by following [parent]. *)
Inductive ancestor (g : role_graph) : role_assignment -> role_assignment -> Prop :=
| ancestor_refl a : ancestor g a a
| ancestor_step a b c : parent g a = Some b -> ancestor g b c -> ancestor g a c.

(** Every role is filed under its own identifier. *)
Definition well_keyed (g : role_graph) : Prop :=
  forall id a, g !! id = Some a -> role_id (ra_role a) = id.

Definition grant_of (b : role_assignment) (v : via) : grant :=
  Grant (role_id (ra_role b)) (role_key (ra_role b)) (role_name (ra_role b))
        (role_priority (ra_role b)) v None.

(** [contributes g bound key eff gr]: an entry of a role on the chain of a bound role gives [gr]
    for [key]; it is explicit exactly when that role is the bound one itself. *)
Definition contributes (g : role_graph) (bound : list uuid) (key : str) (eff : entry_effect)
  (gr : grant) : Prop :=
  exists id a b, id ∈ bound /\ g !! id = Some a /\ ancestor g a b
    /\ RolePermission key eff ∈ ra_permissions b
    /\ gr = grant_of b (via_of eff (bool_decide (role_id (ra_role b) <> id))).

Definition speaks (g : role_graph) (bound : list uuid) (key : str) (eff : entry_effect) : Prop :=
  exists gr, contributes g bound key eff gr.

(** The order [is_stronger] decides. *)
Definition grant_cmp (a b : grant) : comparison :=
  then_with (rank (grant_via a) ?= rank (grant_via b))
    (then_with (grant_role_priority a ?= grant_role_priority b)
               (str_cmp (grant_role_key a) (grant_role_key b))).

(** [strongest l o]: [o] is a strongest element of [l], absent only when [l] is empty. *)
Definition strongest (l : grant -> Prop) (o : option grant) : Prop :=
  match o with
  | None => forall g, ~ l g
  | Some g => l g /\ forall g', l g' -> is_stronger g' g = false
  end.

(** The roles the loop visits. *)
Fixpoint walk_nodes (g : role_graph) (fuel : nat) (visited : gset uuid)
  (cursor : option role_assignment) : list role_assignment :=
  match cursor, fuel with
  | Some a, S fuel' =>
      if decide (role_id (ra_role a) ∈ visited) then []
      else a :: walk_nodes g fuel' ({[role_id (ra_role a)]} ∪ visited) (parent g a)
  | _, _ => []
  end.

(** ** Lemmas *)

#[export] Instance grant_cmp_laws : CmpLaws grant_cmp.
Proof.
  apply then_with_laws; [apply (on_laws (fun g => rank (grant_via g)) Z.compare)|].
  apply then_with_laws; [apply (on_laws grant_role_priority Z.compare)|].
  apply (on_laws grant_role_key str_cmp).
Qed.

Lemma is_stronger_cmp a b : is_stronger a b = true <-> grant_cmp a b = Gt.
Proof.
  unfold is_stronger, grant_cmp. destruct (rank _ ?= rank _); simpl; [|done..].
  by destruct (then_with _ _).
Qed.
Lemma not_stronger_cmp a b : is_stronger a b = false <-> grant_cmp a b <> Gt.
Proof. rewrite <- is_stronger_cmp. by destruct (is_stronger a b). Qed.

Lemma strongest_ext (l l' : grant -> Prop) o :
  (forall g, l g <-> l' g) -> strongest l o -> strongest l' o.
Proof. intros E. destruct o; simpl; setoid_rewrite E; done. Qed.

Lemma strongest_keep (l : grant -> Prop) key g target :
  strongest l (target !! key) ->
  strongest (fun g' => l g' \/ g' = g) (keep_stronger key g target !! key).
Proof.
  intros H. unfold keep_stronger. destruct (target !! key) as [old|] eqn:E; simpl in H.
  - destruct H as [H1 H2]. destruct (is_stronger g old) eqn:S.
    + rewrite lookup_insert_eq; simpl. split; [by right|]. intros g' [Hg| ->].
      * apply not_stronger_cmp. apply (cmp_le_trans grant_cmp _ old).
        -- by apply not_stronger_cmp, H2.
        -- apply is_stronger_cmp in S. by rewrite (cmp_flip grant_cmp g old), S.
      * apply not_stronger_cmp. by rewrite (cmp_refl grant_cmp).
    + rewrite E; simpl. split; [by left|]. intros g' [Hg| ->]; eauto.
  - rewrite lookup_insert_eq; simpl. split; [by right|]. intros g' [Hg| ->]; [by destruct (H g')|].
    apply not_stronger_cmp. by rewrite (cmp_refl grant_cmp).
Qed.
Lemma keep_stronger_ne key key' g target :
  key <> key' -> keep_stronger key g target !! key' = target !! key'.
Proof.
  intros Hne. unfold keep_stronger. destruct (target !! key) as [old|];
    [destruct (is_stronger g old)|]; by rewrite ?lookup_insert_ne.
Qed.

(** What a state has accumulated, per key and effect. *)
Definition side (eff : entry_effect) (e : effective_permissions) : gmap str grant :=
  match eff with Allow => grants e | Deny => denials e end.
Definition summarises (C : str -> entry_effect -> grant -> Prop) (e : effective_permissions) : Prop :=
  forall key eff, strongest (C key eff) (side eff e !! key).

Lemma summarises_ext (C C' : str -> entry_effect -> grant -> Prop) e :
  (forall k eff g, C k eff g <-> C' k eff g) -> summarises C e -> summarises C' e.
Proof. intros E H k eff. eapply strongest_ext; [apply E | apply H]. Qed.

Lemma summarises_record (C : str -> entry_effect -> grant -> Prop) e p inherited a :
  summarises C e ->
  summarises (fun k eff g => C k eff g
                \/ (p = RolePermission k eff /\ g = grant_of a (via_of eff inherited)))
    (record_entry e (rp_key p) (rp_effect p) (via_of (rp_effect p) inherited) (ra_role a)).
Proof.
  intros H k eff. specialize (H k eff). destruct p as [pk pe]; simpl.
  destruct (decide (pk = k /\ pe = eff)) as [[-> ->]|Hne].
  - destruct eff; simpl in *; (eapply strongest_ext; [|by apply strongest_keep]);
      intros g; simpl; unfold grant_of; naive_solver.
  - replace (side eff (record_entry e pk pe _ _) !! k) with (side eff e !! k).
    { eapply strongest_ext; [|done]. intros g; simpl. naive_solver. }
    destruct pe, eff; simpl; try done; rewrite keep_stronger_ne; naive_solver.
Qed.

Lemma summarises_record_all C inherited a e :
  summarises C e ->
  summarises (fun k eff g => C k eff g \/ (RolePermission k eff ∈ ra_permissions a
                                           /\ g = grant_of a (via_of eff inherited)))
    (record_all inherited a e).
Proof.
  unfold record_all. generalize (ra_permissions a) as l. intros l. revert C e.
  induction l as [|p l IH]; intros C e H; simpl.
  - eapply summarises_ext; [|done]. intros k eff g. rewrite elem_of_nil. naive_solver.
  - eapply summarises_ext; [|apply IH, (summarises_record C e p inherited a H)].
    intros k eff g; simpl. rewrite elem_of_cons. naive_solver.
Qed.

Lemma summarises_walk C g fuel visited cursor e :
  summarises C e ->
  summarises (fun k eff gr => C k eff gr \/ exists b, b ∈ walk_nodes g fuel visited cursor
                /\ RolePermission k eff ∈ ra_permissions b /\ gr = grant_of b (via_of eff true))
    (effective_walk g fuel visited cursor true e).
Proof.
  revert C visited cursor e. induction fuel as [|fuel IH]; intros C visited [a|] e H; simpl;
    try (eapply summarises_ext; [|done]; intros; setoid_rewrite elem_of_nil; naive_solver).
  destruct (decide _).
  - eapply summarises_ext; [|done]; intros; setoid_rewrite elem_of_nil; naive_solver.
  - eapply summarises_ext; [|apply IH, summarises_record_all, H].
    intros k eff gr; simpl. setoid_rewrite elem_of_cons. naive_solver.
Qed.

Lemma walk_nodes_fresh g fuel visited cursor b :
  b ∈ walk_nodes g fuel visited cursor -> role_id (ra_role b) ∉ visited.
Proof.
  revert visited cursor. induction fuel as [|fuel IH]; intros visited [a|]; simpl;
    rewrite ?elem_of_nil; try done.
  destruct (decide _); [by rewrite elem_of_nil|].
  intros [->|Hb]%elem_of_cons; [done|]. apply IH in Hb. set_solver.
Qed.

Lemma walk_nodes_sound g fuel visited a b :
  b ∈ walk_nodes g fuel visited (Some a) -> ancestor g a b.
Proof.
  revert visited a. induction fuel as [|fuel IH]; intros visited a; simpl; [by rewrite elem_of_nil|].
  destruct (decide _); [by rewrite elem_of_nil|]. rewrite elem_of_cons.
  intros [->|Hb]; [constructor|].
  destruct (parent g a) as [p|] eqn:E; [|by destruct fuel; apply elem_of_nil in Hb].
  econstructor; eauto.
Qed.

Lemma parent_in_graph g a p : parent g a = Some p -> exists id, g !! id = Some p.
Proof.
  unfold parent. destruct (inherit_permissions (ra_role a)), (inherits_role_id (ra_role a)); naive_solver.
Qed.

Lemma ancestor_in_graph g a b id : g !! id = Some a -> ancestor g a b -> exists id', g !! id' = Some b.
Proof.
  intros Ha Hab. revert id Ha. induction Hab; eauto. intros id _.
  edestruct parent_in_graph; eauto.
Qed.

(** The visited set together with what the walk still visits is closed under [parent]. *)
Definition frontier_closed (g : role_graph) (seen : uuid -> Prop) (cursor : option role_assignment) :=
  forall id v p, g !! id = Some v -> seen id -> parent g v = Some p ->
    seen (role_id (ra_role p)) \/ cursor = Some p.

Lemma walk_nodes_closed g fuel visited cursor :
  well_keyed g ->
  (size (dom g ∖ visited) < fuel)%nat ->
  (forall a, cursor = Some a -> exists id, g !! id = Some a) ->
  frontier_closed g (.∈ visited) cursor ->
  let seen id := id ∈ visited \/ exists b, b ∈ walk_nodes g fuel visited cursor
                                           /\ role_id (ra_role b) = id in
  frontier_closed g seen None /\ (forall a, cursor = Some a -> seen (role_id (ra_role a))).
Proof.
  intros Hk. revert visited cursor. induction fuel as [|fuel IH]; [lia|].
  intros visited [a|] Hf Hc Hcl; simpl.
  2:{ split; [|done]. intros id v p Hv [Hs|(b & Hb & _)] Hp; [|by apply elem_of_nil in Hb].
      destruct (Hcl id v p Hv Hs Hp); [by left; left|done]. }
  destruct (decide _) as [Hin|Hni].
  - split; [|by intros ? [= ->]; left].
    intros id v p Hv [Hs|(b & Hb & _)] Hp; [|by apply elem_of_nil in Hb].
    destruct (Hcl id v p Hv Hs Hp) as [|[= ->]]; by left; left.
  - destruct (Hc a eq_refl) as [ida Hida]. pose proof (Hk _ _ Hida) as Hkey.
    destruct (IH ({[role_id (ra_role a)]} ∪ visited) (parent g a)) as [IH1 IH2].
    + assert (size (dom g ∖ ({[role_id (ra_role a)]} ∪ visited)) < size (dom g ∖ visited))%nat; [|lia].
      apply subset_size. apply elem_of_dom_2 in Hida. set_solver.
    + intros b Hb. by eapply parent_in_graph.
    + intros id v p Hv Hs Hp. apply elem_of_union in Hs as [->%elem_of_singleton|Hs].
      * right. assert (v = a) as -> by congruence. done.
      * destruct (Hcl id v p Hv Hs Hp) as [|[= ->]]; [left; set_solver|left; set_solver].
    + split.
      * intros id v p Hv Hs Hp. destruct (IH1 id v p Hv) as [Hs'|]; [|done| |done].
        -- destruct Hs as [Hs|(b & [->|Hb]%elem_of_cons & <-)];
             [left; set_solver | left; set_solver | right; eauto].
        -- left. destruct Hs' as [Hs'|(b & Hb & <-)]; [|right; exists b; rewrite elem_of_cons; eauto].
           apply elem_of_union in Hs' as [Hs'%elem_of_singleton|?]; [|by left].
           right. exists a. rewrite elem_of_cons. eauto.
      * intros b [= <-]. right. exists a. rewrite elem_of_cons. eauto.
Qed.

(** From a bound role the loop visits exactly the chain: the fuel suffices, and stopping at a
    visited role loses nothing. *)
Lemma walk_nodes_complete g id a b :
  well_keyed g -> g !! id = Some a ->
  b ∈ walk_nodes g (walk_fuel g) ∅ (Some a) <-> ancestor g a b.
Proof.
  intros Hk Ha. split; [apply walk_nodes_sound|]. intros Hab.
  destruct (walk_nodes_closed g (walk_fuel g) ∅ (Some a)) as [Hcl Hroot]; cbv zeta in *; [done| | | | ].
  - unfold walk_fuel. rewrite difference_empty_L, size_dom. lia.
  - intros ? [= <-]; eauto.
  - intros ? ? ? _ ?. set_solver.
  - specialize (Hroot a eq_refl).
    assert (role_id (ra_role b) ∈@{gset uuid} ∅ \/ exists b',
      b' ∈ walk_nodes g (walk_fuel g) ∅ (Some a) /\ role_id (ra_role b') = role_id (ra_role b)) as Hs.
    { clear -Hk Ha Hab Hcl Hroot. revert Hcl Hroot.
      generalize (walk_nodes g (walk_fuel g) ∅ (Some a)) as nodes. intros nodes Hcl.
      revert id Ha. induction Hab as [a|a b c Hp Hbc IH]; intros id Ha Hr; [done|].
      destruct (parent_in_graph _ _ _ Hp) as [idb Hb]. eapply IH; [done|].
      assert (Hid := Hk _ _ Ha). rewrite Hid in Hr. by destruct (Hcl id a b Ha Hr Hp). }
    destruct Hs as [|(b' & Hb' & Heq)]; [set_solver|].
    assert (b' = b) as ->; [|done].
    destruct (ancestor_in_graph _ _ _ _ Ha (walk_nodes_sound _ _ _ _ _ Hb')) as [i1 H1].
    destruct (ancestor_in_graph _ _ _ _ Ha Hab) as [i2 H2].
    pose proof (Hk _ _ H1). pose proof (Hk _ _ H2). congruence.
Qed.

Lemma root_walk g id a C e :
  well_keyed g -> g !! id = Some a -> summarises C e ->
  summarises (fun k eff gr => C k eff gr \/ contributes g [id] k eff gr)
    (effective_walk g (walk_fuel g) ∅ (Some a) false e).
Proof.
  intros Hk Ha He. pose proof (fun b => walk_nodes_complete g id a b Hk Ha) as Hchain.
  pose proof (Hk _ _ Ha) as Hid. unfold walk_fuel in *. simpl in *.
  destruct (decide _) as [Hin|_]; [set_solver|].
  eapply summarises_ext; [|apply summarises_walk, summarises_record_all, He].
  intros k eff gr; simpl. unfold contributes.
  assert (forall b, b ∈ walk_nodes g (size g) ({[role_id (ra_role a)]} ∪ ∅) (parent g a) ->
                    bool_decide (role_id (ra_role b) <> id) = true) as Hfresh.
  { intros b Hb%walk_nodes_fresh. apply bool_decide_eq_true. set_solver. }
  assert (bool_decide (role_id (ra_role a) <> id) = false) as Hown
    by (rewrite bool_decide_eq_false; tauto).
  setoid_rewrite elem_of_cons in Hchain. split.
  - intros [[|[Hp ->]]|(b & Hb & Hp & ->)]; [by left|right..].
    + exists id, a, a. rewrite Hown. repeat split; try done; [set_solver|constructor].
    + exists id, a, b. rewrite (Hfresh b Hb). repeat split; try done; [set_solver|].
      apply Hchain. by right.
  - intros [|(i & a' & b & ->%list_elem_of_singleton & Ha' & Hab & Hp & ->)]; [by left; left|].
    assert (a' = a) as -> by congruence. apply Hchain in Hab as [->|Hb].
    + left; right. by rewrite Hown.
    + right. exists b. by rewrite (Hfresh b Hb).
Qed.

Lemma effective_summarises g bound :
  well_keyed g -> summarises (contributes g bound) (effective g bound).
Proof.
  intros Hk. unfold effective.
  assert (forall l C e, summarises C e -> summarises
            (fun k eff gr => C k eff gr \/ contributes g l k eff gr)
            (fold_left (fun e id => match g !! id with
               | None => e | Some a => effective_walk g (walk_fuel g) ∅ (Some a) false e end) l e))
    as Hfold.
  { induction l as [|id l IH]; intros C e He; simpl.
    - eapply summarises_ext; [|done]. intros. unfold contributes.
      setoid_rewrite elem_of_nil. naive_solver.
    - destruct (g !! id) as [a|] eqn:Ha.
      + eapply summarises_ext; [|apply IH, (root_walk g id a C e Hk Ha He)].
        intros k eff gr; simpl. unfold contributes.
        setoid_rewrite elem_of_cons. setoid_rewrite elem_of_nil. naive_solver.
      + eapply summarises_ext; [|by apply IH].
        intros k eff gr; simpl. unfold contributes. setoid_rewrite elem_of_cons. naive_solver. }
  eapply summarises_ext; [|apply (Hfold bound (fun _ _ _ => False))].
  - naive_solver.
  - intros k [|]; simpl; rewrite lookup_empty; simpl; tauto.
Qed.

Lemma role_graph_new_keyed roles : well_keyed (role_graph_new roles).
Proof.
  unfold role_graph_new. assert (well_keyed ∅) as H0 by (intros ? ? H; by rewrite lookup_empty in H).
  revert H0. generalize (∅ : role_graph). induction roles as [|a l IH]; intros g Hg; simpl; [done|].
  apply IH. intros id b. rewrite lookup_insert_Some. intros [[<- <-]|[_ H]]; eauto.
Qed.

Lemma side_speaks roles bound key eff :
  let g := role_graph_new roles in
  (side eff (effective g bound) !! key = None -> ~ speaks g bound key eff) /\
  (forall gr, side eff (effective g bound) !! key = Some gr ->
     contributes g bound key eff gr /\
     forall gr', contributes g bound key eff gr' -> grant_cmp gr' gr <> Gt).
Proof.
  intros g. pose proof (effective_summarises g bound (role_graph_new_keyed roles) key eff) as H.
  destruct (side eff _ !! key) as [gr|]; simpl in H; split; try done.
  - intros ? [= <-]. destruct H as [H1 H2]. split; [done|]. intros gr' Hgr'.
    by apply not_stronger_cmp, H2.
  - intros _ [gr Hgr]. by destruct (H gr).
Qed.

(** ** Theorems *)

(** C21. The verdict of the resolver is the specification over inheritance chains: for every key,
    a key is denied exactly when a role on the chain of a bound role denies it (a denial wins over
    every grant, direct or inherited), allowed exactly when none denies and one allows it, missing
    otherwise; and the reported source is a contribution no other contribution is stronger than.
    The loop's termination guard (visited roles) never loses a role of the chain. *)
Theorem effective_decides (roles : list role_assignment) (bound : list uuid) (key : str) :
  let g := role_graph_new roles in
  match decision_of (effective g bound) key with
  | Denied MissingPermission src => src = None /\ ~ speaks g bound key Deny /\ ~ speaks g bound key Allow
  | Denied _ src => exists gr, src = Some gr /\ contributes g bound key Deny gr /\
      forall gr', contributes g bound key Deny gr' -> grant_cmp gr' gr <> Gt
  | Allowed gr => ~ speaks g bound key Deny /\ contributes g bound key Allow gr /\
      forall gr', contributes g bound key Allow gr' -> grant_cmp gr' gr <> Gt
  end.
Proof.
  intros g. destruct (side_speaks roles bound key Deny) as [Hd1 Hd2].
  destruct (side_speaks roles bound key Allow) as [Ha1 Ha2]. simpl in *. fold g in Hd1, Hd2, Ha1, Ha2. clearbody g.
  unfold decision_of. destruct (denials _ !! key) as [gd|]; [eauto|].
  destruct (grants _ !! key) as [ga|]; naive_solver.
Qed.

Lemma speaks_mono g bound bound' key eff :
  bound ⊆ bound' -> speaks g bound key eff -> speaks g bound' key eff.
Proof. unfold speaks, contributes. naive_solver. Qed.

Lemma is_allowed_speaks roles bound key :
  let g := role_graph_new roles in
  is_allowed (decision_of (effective g bound) key) = true
  <-> speaks g bound key Allow /\ ~ speaks g bound key Deny.
Proof.
  intros g. pose proof (effective_decides roles bound key) as H. simpl in H. fold g in H. clearbody g.
  destruct (decision_of _ key) as [gr|[] src]; simpl; unfold speaks in *; naive_solver.
Qed.

(** More bindings never lift a denial, and neither the order nor the multiplicity of the
    bindings changes what is allowed. *)
Theorem bindings_never_lift_denial (roles : list role_assignment) (bound bound' : list uuid) (key : str) :
  let g := role_graph_new roles in
  bound ⊆ bound' ->
  (denials (effective g bound) !! key <> None ->
     is_allowed (decision_of (effective g bound') key) = false)
  /\ (bound' ⊆ bound ->
        is_allowed (decision_of (effective g bound) key)
        = is_allowed (decision_of (effective g bound') key)).
Proof.
  cbv zeta. intros Hsub. split.
  - intros Hd. apply not_true_iff_false. intros [_ Hn]%is_allowed_speaks. apply Hn.
    eapply speaks_mono; [done|]. destruct (side_speaks roles bound key Deny) as [_ H2].
    simpl in H2. destruct (denials _ !! key) as [gd|]; [|done].
    exists gd. by apply H2.
  - intros Hsub'. apply eq_true_iff_eq. rewrite !is_allowed_speaks.
    split; intros [H1 H2]; split; try (intros H3; apply H2); by eapply speaks_mono.
Qed.

Definition sample_role (id : uuid) (up : option uuid) (perms : list role_permission) : role_assignment :=
  RoleAssignment (Role id None s!"role" s!"Role" [] 0 up true false 0 0) perms.
Definition sample_roles : list role_assignment :=
  [ sample_role 1 (Some 2%N) [RolePermission s!"site.read" Allow];
    sample_role 2 None [RolePermission s!"site.read" Deny] ].

Lemma bindings_never_lift_denial_witness :
  is_allowed (decision_of (effective (role_graph_new sample_roles) [2%N; 1%N]) s!"site.read") = false.
Proof.
  refine (proj1 (bindings_never_lift_denial sample_roles [2%N] [2%N; 1%N] s!"site.read" _) _).
  - set_solver.
  - vm_compute. discriminate.
Defined.

Lemma entry_Some a key eff :
  entry a key = Some eff -> RolePermission key eff ∈ ra_permissions a.
Proof.
  unfold entry. intros ([k e] & Hf & ->)%fmap_Some. apply find_some in Hf as [Hin Hk].
  simpl in *. apply str_eqb_eq in Hk as <-. by apply list_elem_of_In.
Qed.
Lemma entry_None a key eff :
  entry a key = None -> RolePermission key eff ∉ ra_permissions a.
Proof.
  unfold entry. intros Hf%fmap_None Hin%list_elem_of_In.
  eapply find_none in Hf; [|exact Hin]. simpl in Hf. by rewrite str_eqb_refl in Hf.
Qed.

(** The walk of [trace] visits the same roles; it answers with the first that has an entry. *)
Lemma trace_walk_find g key fuel visited cursor from :
  match trace_walk g key fuel visited cursor true from with
  | None => forall b, b ∈ walk_nodes g fuel visited cursor -> entry b key = None
  | Some t => exists b, b ∈ walk_nodes g fuel visited cursor /\ entry b key = Some (trace_effect t)
      /\ trace_role_id t = role_id (ra_role b) /\ trace_via t = via_of (trace_effect t) true
  end.
Proof.
  revert visited cursor from. induction fuel as [|fuel IH]; intros visited [a|] from; simpl;
    try (intros b; by rewrite elem_of_nil).
  destruct (decide _); [intros b; by rewrite elem_of_nil|].
  destruct (entry a key) as [eff|] eqn:Ea; simpl.
  - exists a. by rewrite elem_of_cons; eauto.
  - match goal with |- context [trace_walk ?g ?k ?f ?v ?c true ?fr] => specialize (IH v c fr) end.
    destruct (trace_walk _ _ _ _ _ _ _); setoid_rewrite elem_of_cons; naive_solver.
Qed.

(** A trace of a bound role is silent exactly when no role on its chain has an entry for the
    key; otherwise it names a role of the chain, the entry it holds and whether it is inherited,
    and a trace that says deny implies the verdict denies. *)
Theorem trace_sound (roles : list role_assignment) (id : uuid) (key : str) :
  let g := role_graph_new roles in
  match trace_of g id key with
  | None => forall eff, ~ speaks g [id] key eff
  | Some t =>
      (exists gr, contributes g [id] key (trace_effect t) gr /\ grant_role_id gr = trace_role_id t
                  /\ grant_via gr = trace_via t)
      /\ (trace_effect t = Deny ->
          forall bound, id ∈ bound -> is_allowed (decision_of (effective g bound) key) = false)
  end.
Proof.
  cbv zeta. pose proof (is_allowed_speaks roles) as Hv. pose proof (role_graph_new_keyed roles) as Hk.
  cbv zeta in Hv. revert Hv Hk. generalize (role_graph_new roles) as g. intros g Hv Hk.
  unfold trace_of. destruct (g !! id) as [a|] eqn:Ha.
  2:{ intros eff (gr & i & a & b & ->%list_elem_of_singleton & Ha' & _). congruence. }
  enough (match trace_walk g key (walk_fuel g) ∅ (Some a) false None with
          | None => forall b, ancestor g a b -> entry b key = None
          | Some t => exists b, ancestor g a b /\ entry b key = Some (trace_effect t)
              /\ trace_role_id t = role_id (ra_role b)
              /\ trace_via t = via_of (trace_effect t) (bool_decide (role_id (ra_role b) <> id))
          end) as H.
  { destruct (trace_walk _ _ _ _ _ _ _) as [t|].
    - destruct H as (b & Hb & He & Hid & Hvia). apply entry_Some in He.
      assert (contributes g [id] key (trace_effect t) (grant_of b (trace_via t))) as Hc.
      { exists id, a, b. rewrite Hvia. split_and!; try done. by apply list_elem_of_singleton. }
      split; [by eexists|]. intros Hd bound Hin. rewrite Hd in Hc.
      apply not_true_iff_false. intros [_ Hn]%Hv. apply Hn.
      eapply (speaks_mono _ [id]); [intros i; by intros ->%list_elem_of_singleton|]. by eexists.
    - intros eff (gr & i & a' & b & ->%list_elem_of_singleton & Ha' & Hab & Hin & _).
      assert (a' = a) as -> by congruence. revert Hin. by apply entry_None, H. }
  pose proof (fun b => walk_nodes_complete g id a b Hk Ha) as Hchain. pose proof (Hk _ _ Ha) as Hid.
  unfold walk_fuel in *. simpl in *. destruct (decide _) as [|_]; [set_solver|].
  destruct (entry a key) as [eff|] eqn:Ea; simpl.
  - exists a. rewrite bool_decide_eq_false_2 by tauto. split_and!; try done. constructor.
  - match goal with |- context [trace_walk ?g ?k ?f ?v ?c true ?fr] =>
      pose proof (trace_walk_find g k f v c fr) as Hw end.
    setoid_rewrite elem_of_cons in Hchain.
    destruct (trace_walk _ _ _ _ _ _ _) as [t|]; [|setoid_rewrite <- Hchain; naive_solver].
    setoid_rewrite <- Hchain.
    destruct Hw as (b & Hb & He & Hi & Hvia). exists b. split_and!; auto.
    rewrite Hvia. apply walk_nodes_fresh in Hb. rewrite bool_decide_eq_true_2; [done|set_solver].
Qed.

(** The converse fails: a trace can say allow for a key the resolver denies, because the trace
    stops at the first role with an entry while the resolver goes on to the ancestor's denial. *)
Theorem trace_disagrees_with_verdict :
  let g := role_graph_new sample_roles in
  trace_effect <$> trace_of g 1%N s!"site.read" = Some Allow
  /\ is_allowed (decision_of (effective g [1%N]) s!"site.read") = false.
Proof. vm_compute. split; reflexivity. Qed.

(** *** Scopes and their columns *)

(** The scopes the stored columns can express. *)
Definition scope_stored (s : scope) : bool :=
  match s with
  | Module_ o site _ | Resource o site _ _ => is_some o || is_some site
  | _ => true
  end.

(** A scope rebuilt from the columns it writes is the scope itself for every scope that names
    an organization or a site where its kind needs one, and no stored row gives any other scope. *)
Theorem scope_columns_roundtrip (s : scope) :
  (scope_from_parts (scope_type s) (scope_organization_id s) (scope_site_id s)
     (scope_resource_type s) (scope_resource_id s) = if scope_stored s then Ok s else Err InvalidScope)
  /\ (forall ty o site rt rid, scope_from_parts ty o site rt rid = Ok s ->
        scope_stored s = true /\ ty = scope_type s /\ o = scope_organization_id s
        /\ site = scope_site_id s /\ rt = scope_resource_type s /\ rid = scope_resource_id s).
Proof.
  split.
  - destruct s; try reflexivity; simpl; unfold scope_from_parts; simpl;
      repeat match goal with |- context [str_eqb ?a ?b] =>
        first [replace (str_eqb a b) with false by reflexivity
              |replace (str_eqb a b) with true by reflexivity] end; by destruct (_ || _).
  - intros ty o site rt rid. unfold scope_from_parts.
    repeat (case_match; try discriminate); intros [= <-]; simpl in *;
      repeat match goal with H : str_eqb _ _ = true |- _ => apply str_eqb_eq in H end;
      subst; auto 10.
Qed.
