(* ===== verification/Hierarchy.v ===== *)
(** * Role hierarchy and role store: [crates/permissions/src/roles.rs], [versions.rs]

    The inheritance check run before a parent link is written, the role operations over the
    [roles], [role_permissions] and [role_versions] tables, and the diff of two permission sets. *)

From S2P Require Import Prelude Json Roles.

Definition MAX_INHERITANCE_DEPTH : nat := 8.

Abbreviation links := (gmap uuid (option uuid)).

(** [links.get(&id).copied().flatten()]. *)
Definition link (ls : links) (id : uuid) : option uuid := mjoin (ls !! id).

(** ** [validate_parent_change] *)

(** The walk up from the new parent. Every iteration either stops or takes one of at most
    [MAX_INHERITANCE_DEPTH] steps, so [S MAX_INHERITANCE_DEPTH] iterations always suffice. *)
Fixpoint walk_up (ls : links) (role : uuid) (fuel : nat) (cursor : option uuid) (steps : nat)
  (visited : gset uuid) : result unit permissions_error :=
  match cursor, fuel with
  | None, _ => Ok tt
  | Some _, O => Err InheritanceDepthExceeded
  | Some id, S fuel' =>
      refuse bool_decide (id = role) || bool_decide (id ∈ visited) with InheritanceCycle in
      refuse (MAX_INHERITANCE_DEPTH <? S steps)%nat with InheritanceDepthExceeded in
      walk_up ls role fuel' (link ls id) (S steps) ({[id]} ∪ visited)
  end.

(** The children index, in the map's key order. *)
Definition children_of (ls : links) (id : uuid) : list uuid :=
  sort_by N.compare (fst <$> List.filter (fun kv => bool_decide (snd kv = Some id)) (map_to_list ls)).

(** The walk down: a stack whose top is the head of the list. *)
Fixpoint walk_down (ls : links) (fuel : nat) (frontier : list (uuid * nat)) (seen : gset uuid)
  : result unit permissions_error :=
  match frontier, fuel with
  | [], _ => Ok tt
  | _, O => Err InheritanceDepthExceeded
  | (id, depth) :: rest, S fuel' =>
      refuse bool_decide (id ∈ seen) || (MAX_INHERITANCE_DEPTH <? depth)%nat
        with InheritanceDepthExceeded in
      walk_down ls fuel' (rev ((fun c => (c, S depth)) <$> children_of ls id) ++ rest)
        ({[id]} ∪ seen)
  end.

Definition validate_parent_change (ls : links) (role : uuid) (parent : option uuid)
  : result unit permissions_error :=
  let? _ := walk_up ls role (S MAX_INHERITANCE_DEPTH) parent 0 ∅ in
  walk_down ls (S (S (size ls))) [(role, 0%nat)] ∅.

(** ** Permission sets and their diff *)

(** Collecting entries into a [BTreeMap]: a repeated key keeps its last effect. *)
Definition entry_map (l : list role_permission) : gmap str entry_effect :=
  fold_left (fun m e => <[rp_key e := rp_effect e]> m) l ∅.

(** A map's entries in key order. *)
Definition map_entries (m : gmap str entry_effect) : list role_permission :=
  sort_by (fun a b => str_cmp (rp_key a) (rp_key b))
    ((fun kv => RolePermission (fst kv) (snd kv)) <$> map_to_list m).

Record permission_change := PermissionChange { pc_key : str; pc_from : entry_effect; pc_to : entry_effect }.
Record role_diff := RoleDiff {
  diff_added : list role_permission;
  diff_removed : list role_permission;
  diff_changed : list permission_change
}.

Definition diff (before after : list role_permission) : role_diff :=
  let before_map := entry_map before in
  let after_map := entry_map after in
  RoleDiff
    (List.filter (fun e => negb (is_some (before_map !! rp_key e))) (map_entries after_map))
    (List.filter (fun e => negb (is_some (after_map !! rp_key e))) (map_entries before_map))
    (omap (fun e => match before_map !! rp_key e with
                    | Some previous => if decide (previous = rp_effect e) then None
                                       else Some (PermissionChange (rp_key e) previous (rp_effect e))
                    | None => None
                    end) (map_entries after_map)).

(** [Vec::dedup]: drop consecutive repeats. *)
Fixpoint dedup (l : list str) : list str :=
  match l with
  | x :: (y :: _) as l' => if str_eqb x y then dedup l' else x :: dedup l'
  | _ => l
  end.

(** The validation loop of [replace_role_permissions]. *)
Record entry_check := EntryCheck {
  ec_unknown : list str; ec_duplicates : list str; ec_validated : gmap str entry_effect
}.
Definition check_entry (is_known : str -> bool) (c : entry_check) (e : role_permission) : entry_check :=
  if negb (is_known (rp_key e)) then
    EntryCheck (ec_unknown c ++ [rp_key e]) (ec_duplicates c) (ec_validated c)
  else
    EntryCheck (ec_unknown c)
      (if is_some (ec_validated c !! rp_key e) then ec_duplicates c ++ [rp_key e] else ec_duplicates c)
      (<[rp_key e := rp_effect e]> (ec_validated c)).
Definition check_entries (is_known : str -> bool) (l : list role_permission) : entry_check :=
  fold_left (check_entry is_known) l (EntryCheck [] [] ∅).

(** ** The role store *)

Section Store.
Context `{J : JsonNumber} (to_lowercase : str -> str) (is_known : str -> bool).

Record role_version := RoleVersion {
  rv_version : Z;
  rv_name : str;
  rv_description : str;
  rv_priority : Z;
  rv_inherits_role_id : option uuid;
  rv_inherit_permissions : bool;
  rv_permissions : value;
  rv_change : str;
  rv_changed_by : option uuid
}.

(** [RoleVersion::entries]. *)
Definition version_entry (item : value) : option role_permission :=
  key ← get s!"key" item ≫= as_str;
  eff ← get s!"effect" item ≫= as_str;
  match effect_from_stored eff with Ok e => Some (RolePermission key e) | Err _ => None end.
Definition version_entries (v : role_version) : list role_permission :=
  match as_array (rv_permissions v) with Some items => omap version_entry items | None => [] end.

(** The JSON a version row stores ([json!({"key": .., "effect": ..})]). *)
Definition entries_json (entries : list role_permission) : value :=
  VArray ((fun e => VObject [ (s!"effect", VString (effect_as_str (rp_effect e)));
                              (s!"key", VString (rp_key e)) ]) <$> entries).

Record role_store := RoleStore {
  st_roles : gmap uuid role;
  st_entries : gmap uuid (list role_permission);   (* in key order *)
  st_versions : gmap uuid (list role_version)      (* newest first *)
}.

Definition find_role (st : role_store) (id : uuid) : option role := st_roles st !! id.
Definition permission_entries (st : role_store) (id : uuid) : list role_permission :=
  default [] (st_entries st !! id).
Definition latest_version (st : role_store) (id : uuid) : option Z :=
  match default [] (st_versions st !! id) with
  | [] => None
  | v :: vs => Some (foldr Z.max (rv_version v) (rv_version <$> vs))
  end.

(** [versions::record]: the next number is one past the greatest stored. *)
Definition record (st : role_store) (r : role) (entries : list role_permission) (change : str)
  (changed_by : option uuid) : role_store * role_version :=
  let v := RoleVersion (default 0 (latest_version st (role_id r)) + 1) (role_name r) (description r)
             (role_priority r) (inherits_role_id r) (inherit_permissions r) (entries_json entries)
             change changed_by in
  (RoleStore (st_roles st) (st_entries st)
     (<[role_id r := v :: default [] (st_versions st !! role_id r)]> (st_versions st)), v).

(** Rows visible in one scope: platform roles and, when given, the organization's. *)
Definition in_scope (organization : option uuid) (r : role) : bool :=
  match organization_id r with
  | None => true
  | Some o => bool_decide (organization = Some o)
  end.
Definition parent_links (st : role_store) (organization : option uuid) : links :=
  inherits_role_id <$> filter (fun kv => in_scope organization (snd kv) = true) (st_roles st).

Definition MAX_ROLE_KEY_LENGTH : nat := 64.
Definition validate_role_key (raw : str) : result str permissions_error :=
  let key := to_lowercase (trim raw) in
  let last_ok := match rev key with
                 | c :: _ => is_ascii_lowercase c || is_ascii_digit c | [] => false end in
  let shaped := negb (str_eqb key []) && (utf8_len key <=? MAX_ROLE_KEY_LENGTH)%nat
    && match key with c :: _ => is_ascii_lowercase c | [] => false end
    && last_ok
    && forallb (fun c => is_ascii_lowercase c || is_ascii_digit c || (c =? c!"-")%N) key in
  if shaped then Ok key else Err InvalidRoleKey.

(** The insert, with the unique index on (organization, key). *)
Definition insert_role (st : role_store) (r : role) : result role_store permissions_error :=
  refuse existsb (fun kv => bool_decide (organization_id (snd kv) = organization_id r)
                            && str_eqb (role_key (snd kv)) (role_key r)) (map_to_list (st_roles st))
    with RoleKeyTaken in
  Ok (RoleStore (<[role_id r := r]> (st_roles st)) (st_entries st) (st_versions st)).

Record new_role := NewRole {
  nr_organization_id : uuid; nr_key : str; nr_name : str; nr_description : str; nr_priority : Z;
  nr_inherits_role_id : option uuid
}.

(** [stand_in] is the fresh id the depth check uses, [id] the one the insert generates. *)
Definition create_role (st : role_store) (stand_in id : uuid) (now : instant) (new : new_role)
  : result (role_store * role) permissions_error :=
  let? key := validate_role_key (nr_key new) in
  let? name := validate_role_name (nr_name new) in
  let? priority := validate_priority (nr_priority new) in
  let? _ :=
    match nr_inherits_role_id new with
    | None => Ok tt
    | Some parent_id =>
        let? parent := ok_or (find_role st parent_id) RoleNotFound in
        require in_scope (Some (nr_organization_id new)) parent else CrossOrganizationInheritance in
        validate_parent_change (parent_links st (Some (nr_organization_id new))) stand_in (Some parent_id)
    end in
  let r := Role id (Some (nr_organization_id new)) key name (trim (nr_description new)) priority
             (nr_inherits_role_id new) true false now now in
  let? st' := insert_role st r in
  Ok (st', r).

Inductive parent_change := Keep | SetParent (id : uuid) | Clear.
Record role_update := RoleUpdate {
  up_name : option str; up_description : option str; up_priority : option Z;
  up_parent : parent_change; up_inherit_permissions : option bool
}.

Definition traverse_opt {A B E} (f : A -> result B E) (o : option A) : result (option B) E :=
  match o with Some a => let? b := f a in Ok (Some b) | None => Ok None end.

Definition org_or (a b : option uuid) : option uuid := match a with Some _ => a | None => b end.

Definition update_parent (st : role_store) (id : uuid) (r : role) (change : parent_change)
  : result (option uuid) permissions_error :=
  match change with
  | Keep => Ok (inherits_role_id r)
  | Clear => Ok None
  | SetParent new_parent =>
      refuse bool_decide (new_parent = id) with SelfInheritance in
      let? parent_role := ok_or (find_role st new_parent) RoleNotFound in
      require negb (is_some (organization_id parent_role))
              || bool_decide (organization_id parent_role = organization_id r)
        else CrossOrganizationInheritance in
      let? _ := validate_parent_change
                  (parent_links st (org_or (organization_id r) (organization_id parent_role)))
                  id (Some new_parent) in
      Ok (Some new_parent)
  end.

Definition update_role (st : role_store) (id : uuid) (now : instant) (u : role_update)
  : result (role_store * role) permissions_error :=
  let? r := ok_or (find_role st id) RoleNotFound in
  refuse is_system r with SystemRole in
  let? name := traverse_opt validate_role_name (up_name u) in
  let? priority := traverse_opt validate_priority (up_priority u) in
  let? parent := update_parent st id r (up_parent u) in
  let r' := Role id (organization_id r) (role_key r) (default (role_name r) name)
              (default (description r) (trim <$> up_description u))
              (default (role_priority r) priority) parent
              (default (inherit_permissions r) (up_inherit_permissions u))
              (is_system r) (role_created_at r) now in
  Ok (RoleStore (<[id := r']> (st_roles st)) (st_entries st) (st_versions st), r').

(** [on delete set null] for the children's links, cascade for entries and versions; [live] is
    [bindings::count_live_for_role]. *)
Definition unlink (id : uuid) (r : role) : role :=
  if bool_decide (inherits_role_id r = Some id) then
    Role (role_id r) (organization_id r) (role_key r) (role_name r) (description r) (role_priority r)
      None (inherit_permissions r) (is_system r) (role_created_at r) (role_updated_at r)
  else r.
Definition delete_role (st : role_store) (id : uuid) (live : Z) : result role_store permissions_error :=
  let? r := ok_or (find_role st id) RoleNotFound in
  refuse is_system r with SystemRole in
  refuse 0 <? live with RoleHasBindings live in
  Ok (RoleStore (unlink id <$> delete id (st_roles st)) (delete id (st_entries st))
        (delete id (st_versions st))).

Definition duplicate_role (st : role_store) (source_id organization id : uuid) (raw_key raw_name : str)
  (now : instant) : result (role_store * role) permissions_error :=
  let? source := ok_or (find_role st source_id) RoleNotFound in
  require in_scope (Some organization) source else CrossOrganizationInheritance in
  let? key := validate_role_key raw_key in
  let? name := validate_role_name raw_name in
  let? parent :=
    match inherits_role_id source with
    | None => Ok None
    | Some parent_id =>
        let? parent_role := ok_or (find_role st parent_id) RoleNotFound in
        Ok (if in_scope (Some organization) parent_role then Some parent_id else None)
    end in
  let r := Role id (Some organization) key name (description source) (role_priority source) parent
             (inherit_permissions source) false now now in
  let? st' := insert_role st r in
  Ok (RoleStore (st_roles st') (<[id := permission_entries st source_id]> (st_entries st'))
        (st_versions st'), r).

(** [ancestors]: every iteration but the last meets a stored role for the first time. *)
Fixpoint ancestors_walk (st : role_store) (fuel : nat) (cursor : option uuid) (visited : gset uuid)
  : list role :=
  match cursor, fuel with
  | Some id, S fuel' =>
      if decide (id ∈ visited) then []
      else match find_role st id with
           | None => []
           | Some r => r :: ancestors_walk st fuel' (inherits_role_id r) ({[id]} ∪ visited)
           end
  | _, _ => []
  end.
Definition ancestors (st : role_store) (id : uuid) : result (list role) permissions_error :=
  let? r := ok_or (find_role st id) RoleNotFound in
  Ok (ancestors_walk st (S (size (st_roles st))) (inherits_role_id r) ∅).

Definition touch (r : role) (now : instant) : role :=
  Role (role_id r) (organization_id r) (role_key r) (role_name r) (description r) (role_priority r)
    (inherits_role_id r) (inherit_permissions r) (is_system r) (role_created_at r) now.

Record save_outcome := SaveOutcome {
  so_role : role; so_entries : list role_permission; so_diff : role_diff; so_version : Z
}.

Definition replace_role_permissions (st : role_store) (id : uuid) (entries : list role_permission)
  (expected_version : option Z) (changed_by : option uuid) (now : instant)
  : result (role_store * save_outcome) permissions_error :=
  let? r := ok_or (find_role st id) RoleNotFound in
  refuse is_system r with SystemRole in
  let c := check_entries is_known entries in
  let unknown := dedup (sort_by str_cmp (ec_unknown c)) in
  let duplicates := dedup (sort_by str_cmp (ec_duplicates c)) in
  refuse negb (bool_decide (unknown = [])) || negb (bool_decide (duplicates = []))
    with InvalidEntries unknown duplicates in
  let? _ :=
    match expected_version with
    | None => Ok tt
    | Some expected =>
        let current := default 0 (latest_version st id) in
        require current =? expected else VersionConflict expected current in Ok tt
    end in
  let before := permission_entries st id in
  let after := map_entries (ec_validated c) in
  let r' := touch r now in
  let st1 := RoleStore (<[id := r']> (st_roles st)) (<[id := after]> (st_entries st)) (st_versions st) in
  let '(st2, version) := record st1 r after s!"permissions" changed_by in
  Ok (st2, SaveOutcome r' after (diff before after) (rv_version version)).

(** One operation of the store's public interface. *)
Inductive role_step : role_store -> role_store -> Prop :=
| step_create st stand_in id now new st' r :
    st_roles st !! id = None -> create_role st stand_in id now new = Ok (st', r) -> role_step st st'
| step_update st id now u st' r : update_role st id now u = Ok (st', r) -> role_step st st'
| step_delete st id live st' : delete_role st id live = Ok st' -> role_step st st'
| step_duplicate st source organization id key name now st' r :
    st_roles st !! id = None ->
    duplicate_role st source organization id key name now = Ok (st', r) -> role_step st st'
| step_replace st id entries expected actor now st' o :
    replace_role_permissions st id entries expected actor now = Ok (st', o) -> role_step st st'.
End Store.

(** ** Specification: chains of links *)

(** The role [n] links above [id] ([id] itself for 0). *)
Fixpoint climb (ls : links) (n : nat) (id : uuid) : option uuid :=
  match n with O => Some id | S n' => link ls id ≫= climb ls n' end.

(** The role [n] steps up a chain that starts at [cursor]. *)
Definition above (ls : links) (cursor : option uuid) (n : nat) : option uuid :=
  cursor ≫= climb ls n.

(** Every chain ends. *)
Definition acyclic (ls : links) : Prop := forall id, exists n, climb ls n id = None.

(** ** Lemmas *)

Lemma climb_add ls m n id : climb ls (m + n) id = climb ls m id ≫= climb ls n.
Proof.
  revert id; induction m as [|m IH]; intros id; simpl; [done|].
  destruct (link ls id); simpl; [apply IH | done].
Qed.
Lemma climb_S_r ls n id : climb ls (S n) id = climb ls n id ≫= link ls.
Proof.
  replace (S n) with (n + 1)%nat by lia. rewrite climb_add.
  destruct (climb ls n id) as [i|]; simpl; [|done]. by destruct (link ls i).
Qed.
Lemma climb_None_mono ls m n id : (m <= n)%nat -> climb ls m id = None -> climb ls n id = None.
Proof.
  intros Hle H. replace n with (m + (n - m))%nat by lia. by rewrite climb_add, H.
Qed.
Lemma above_S ls id n : above ls (link ls id) n = climb ls (S n) id.
Proof. done. Qed.

(** Where a chain returns to a role it never ends. *)
Lemma climb_loop ls k id : (0 < k)%nat -> climb ls k id = Some id -> forall n, climb ls n id <> None.
Proof.
  intros Hk Hloop n Hn. assert (forall j, climb ls (j * k) id = Some id) as Hj.
  { induction j as [|j IHj]; [done|]. simpl. by rewrite climb_add, Hloop. }
  specialize (Hj n). by rewrite (climb_None_mono ls n (n * k) id) in Hj; [|nia|].
Qed.

Lemma link_Some ls id p : link ls id = Some p <-> ls !! id = Some (Some p).
Proof. unfold link. destruct (ls !! id) as [[q|]|]; simpl; naive_solver. Qed.

Lemma elem_of_children ls id c : c ∈ children_of ls id <-> link ls c = Some id.
Proof.
  unfold children_of. rewrite (sort_by_perm N.compare), list_elem_of_fmap, link_Some. split.
  - intros ([c' v] & -> & Hin%list_elem_of_In). apply filter_In in Hin as [Hin Hb].
    simpl in *. apply bool_decide_eq_true in Hb as ->. by apply elem_of_map_to_list, list_elem_of_In.
  - intros H. exists (c, Some id). split; [done|]. apply list_elem_of_In, filter_In.
    split; [by apply list_elem_of_In, elem_of_map_to_list | by apply bool_decide_eq_true].
Qed.
Lemma NoDup_children ls id : NoDup (children_of ls id).
Proof.
  unfold children_of. rewrite (sort_by_perm N.compare).
  pose proof (NoDup_fst_map_to_list ls) as H. revert H.
  generalize (map_to_list ls) as l. induction l as [|[k v] l IH]; simpl; [done|].
  intros [Hk Hl]%NoDup_cons. destruct (bool_decide _); simpl; [|by apply IH].
  constructor; [|by apply IH]. intros Hin. apply Hk.
  apply list_elem_of_fmap in Hin as (kv & -> & Hin%list_elem_of_In).
  apply filter_In in Hin as [Hin _]. by apply list_elem_of_fmap_2, list_elem_of_In.
Qed.

(** The condition the walk up accepts. *)
Definition up_ok (ls : links) (role : uuid) (cursor : option uuid) (budget : nat) : Prop :=
  exists n, (n <= budget)%nat /\ above ls cursor n = None /\ forall k, above ls cursor k <> Some role.

Lemma walk_up_ok ls role fuel cursor steps visited :
  (MAX_INHERITANCE_DEPTH < fuel + steps)%nat -> (steps <= MAX_INHERITANCE_DEPTH)%nat ->
  (forall k x, above ls cursor k = Some x -> (exists n, above ls cursor n = None) -> x ∉ visited) ->
  walk_up ls role fuel cursor steps visited = Ok tt
  <-> up_ok ls role cursor (MAX_INHERITANCE_DEPTH - steps).
Proof.
  revert cursor steps visited. induction fuel as [|fuel IH]; intros cursor steps visited Hf Hs Hv;
    destruct cursor as [id|]; simpl; try (split; [|done]; intros _; exists 0%nat; simpl; split_and!; naive_solver lia);
    [lia|].
  destruct (bool_decide (id = role)) eqn:Er; simpl.
  { apply bool_decide_eq_true in Er as ->. split; [done|]. intros (n & _ & _ & H). by destruct (H 0%nat). }
  apply bool_decide_eq_false in Er. destruct (bool_decide (id ∈ visited)) eqn:Ev; simpl.
  { apply bool_decide_eq_true in Ev. split; [done|]. intros (n & _ & Hn & _).
    destruct (Hv 0%nat id eq_refl); eauto. }
  destruct (Nat.ltb_spec MAX_INHERITANCE_DEPTH (S steps)).
  { split; [done|]. intros (n & Hle & Hn & _). assert (n = 0%nat) as -> by lia. done. }
  rewrite IH; [|lia|lia|].
  - unfold up_ok. split.
    + intros (n & Hle & Hn & Hr). exists (S n). split_and!; [lia|done|].
      intros [|k]; [simpl; congruence | apply Hr].
    + intros ([|n] & Hle & Hn & Hr); [done|]. exists n. split_and!; [lia|done|].
      intros k. apply (Hr (S k)).
  - intros k x Hx [n Hn]. rewrite above_S in Hx, Hn. apply bool_decide_eq_false in Ev.
    intros [->%elem_of_singleton|Hin]%elem_of_union.
    + by apply (climb_loop ls (S k) id ltac:(lia) Hx (S n)).
    + apply (Hv (S k) x Hx); [|done]. by exists (S n).
Qed.

(** No role sits more than [MAX_INHERITANCE_DEPTH] links below [role]. *)
Definition shallow (ls : links) (role : uuid) : Prop :=
  forall x, climb ls (S MAX_INHERITANCE_DEPTH) x <> Some role.

Lemma shallow_bound ls role d x : shallow ls role -> climb ls d x = Some role -> (d <= MAX_INHERITANCE_DEPTH)%nat.
Proof.
  intros Hsh Hd. destruct (le_lt_dec d MAX_INHERITANCE_DEPTH) as [|Hlt]; [done|]. exfalso.
  replace d with ((d - S MAX_INHERITANCE_DEPTH) + S MAX_INHERITANCE_DEPTH)%nat in Hd by lia.
  rewrite climb_add in Hd. destruct (climb ls (d - _) x) as [y|]; [|done]. by apply (Hsh y).
Qed.
Lemma shallow_no_loop ls role d : shallow ls role -> (0 < d)%nat -> climb ls d role <> Some role.
Proof.
  intros Hsh Hd Hloop.
  assert (climb ls (S MAX_INHERITANCE_DEPTH * d) role = Some role) as Hmul.
  { generalize (S MAX_INHERITANCE_DEPTH) as n. induction n as [|n IH]; [done|].
    simpl. by rewrite climb_add, Hloop. }
  apply shallow_bound in Hmul; [|done]. nia.
Qed.

(** Soundness: an accepted walk saw every role below each frontier entry. *)
Lemma walk_down_sound ls fuel frontier seen :
  walk_down ls fuel frontier seen = Ok tt ->
  forall id d k x, (id, d) ∈ frontier -> climb ls k x = Some id -> (d + k <= MAX_INHERITANCE_DEPTH)%nat.
Proof.
  revert frontier seen. induction fuel as [|fuel IH]; intros [|[i e] rest] seen; simpl; try done;
    try (intros _ id d k x H; by apply elem_of_nil in H).
  destruct (bool_decide _ || (_ <? e)%nat) eqn:E; [done|].
  apply orb_false_iff in E as [_ E%Nat.ltb_ge].
  intros Hok id d k x [[= -> ->]|Hin]%elem_of_cons Hk.
  - destruct k as [|k]; [lia|]. rewrite climb_S_r in Hk.
    destruct (climb ls k x) as [c|] eqn:Hc; [|done].
    enough (S e + k <= MAX_INHERITANCE_DEPTH)%nat by lia.
    apply (IH _ _ Hok c (S e) k x); [|done]. apply elem_of_app; left.
    apply elem_of_rev, list_elem_of_fmap. exists c. split; [done|]. by apply elem_of_children.
  - apply (IH _ _ Hok id d k x); [|done]. apply elem_of_app; by right.
Qed.

(** What holds of the frontier and the seen set throughout an accepting walk. *)
Record down_inv (ls : links) (role : uuid) (frontier : list (uuid * nat)) (seen : gset uuid) : Prop := {
  di_climb : forall id d, (id, d) ∈ frontier -> climb ls d id = Some role;
  di_fresh : forall id, id ∈ frontier.*1 -> id ∉ seen;
  di_nodup : NoDup (frontier.*1);
  di_parent : forall y, y ∈ seen \/ y ∈ frontier.*1 -> y = role \/ exists p, p ∈ seen /\ link ls y = Some p;
  di_known : forall y, y ∈ seen \/ y ∈ frontier.*1 -> y ∈ ({[role]} ∪ dom ls : gset uuid)
}.

Lemma fst_children ls id e :
  (rev ((fun c => (c, S e)) <$> children_of ls id)).*1 = rev (children_of ls id).
Proof.
  unfold fmap, list_fmap. change (map fst (rev (map (fun c => (c, S e)) (children_of ls id)))
    = rev (children_of ls id)). by rewrite map_rev, map_map, map_id.
Qed.

Lemma down_inv_step ls role id e rest seen :
  shallow ls role -> down_inv ls role ((id, e) :: rest) seen ->
  down_inv ls role (rev ((fun c => (c, S e)) <$> children_of ls id) ++ rest) ({[id]} ∪ seen).
Proof.
  intros Hsh [Hc Hf Hn Hp Hk]. simpl in *. apply NoDup_cons in Hn as [Hid Hn].
  assert (forall c, c ∈ children_of ls id -> c <> role /\ (c ∉ seen) /\ c <> id /\ c ∉ rest.*1) as Hnew.
  { intros c Hin%elem_of_children.
    assert (climb ls (S e) c = Some role) as Hrole.
    { simpl. rewrite Hin. apply Hc. by left. }
    assert (c <> role) as Hcr.
    { intros ->. by apply (shallow_no_loop ls role (S e)) in Hrole; [|done|lia]. }
    assert (id ∉ seen) by (apply Hf; by left).
    split_and!; [done| | |].
    - intros Hs. destruct (Hp c (or_introl Hs)) as [|(p & Hps & Hpl)]; congruence.
    - intros ->. destruct (Hp id) as [|(p & Hps & Hpl)]; [right; by left|done|congruence].
    - intros Hs. destruct (Hp c) as [|(p & Hps & Hpl)]; [right; by right|done|congruence]. }
  split.
  - intros i d [Hin|Hin]%elem_of_app; [|apply Hc; by right].
    rewrite elem_of_rev in Hin. apply list_elem_of_fmap in Hin as (c & [= -> ->] & Hin).
    simpl. apply elem_of_children in Hin. rewrite Hin. apply Hc. by left.
  - intros i. rewrite fmap_app, fst_children. intros [Hin|Hin]%elem_of_app.
    + rewrite elem_of_rev in Hin. apply Hnew in Hin as (_ & ? & ? & _).
      by rewrite not_elem_of_union, not_elem_of_singleton.
    + assert (i ∉ seen) by (apply Hf; by right).
      rewrite not_elem_of_union, not_elem_of_singleton. split; [by intros ->|done].
  - rewrite fmap_app, fst_children. apply NoDup_app. split_and!; [apply NoDup_rev, NoDup_children| |done].
    + intros i Hi. rewrite elem_of_rev in Hi. by apply Hnew.
  - intros y. rewrite fmap_app, fst_children, elem_of_app, elem_of_rev.
    intros [Hy|[Hy|Hy]].
    + apply elem_of_union in Hy as [->%elem_of_singleton|Hy].
      * destruct (Hp id) as [|(p & ? & ?)]; [right; by left|by left|right; exists p; split; [by apply elem_of_union_r|done]].
      * destruct (Hp y) as [|(p & ? & ?)]; [by left|by left|right; exists p; split; [by apply elem_of_union_r|done]].
    + right. exists id. split; [by apply elem_of_union_l, elem_of_singleton|]. by apply elem_of_children.
    + destruct (Hp y) as [|(p & ? & ?)]; [right; by right|by left|right; exists p; split; [by apply elem_of_union_r|done]].
  - intros y. rewrite fmap_app, fst_children, elem_of_app, elem_of_rev.
    intros [Hy|[Hy|Hy]].
    + apply elem_of_union in Hy as [->%elem_of_singleton|Hy]; apply Hk; [right; by left|by left].
    + apply elem_of_children, link_Some, elem_of_dom_2 in Hy. by apply elem_of_union_r.
    + apply Hk. right; by right.
Qed.

Lemma walk_down_complete ls role fuel frontier seen :
  shallow ls role -> down_inv ls role frontier seen ->
  (size ((({[role]} ∪ dom ls) : gset uuid) ∖ seen) < fuel)%nat ->
  walk_down ls fuel frontier seen = Ok tt.
Proof.
  intros Hsh. revert frontier seen.
  induction fuel as [|fuel IH]; intros [|[id e] rest] seen Hinv Hf; simpl; try done; [lia|].
  assert (id ∉ seen) as Hid by (apply (di_fresh _ _ _ _ Hinv); simpl; by left).
  rewrite bool_decide_eq_false_2 by done. simpl.
  assert (e <= MAX_INHERITANCE_DEPTH)%nat as He.
  { eapply shallow_bound; [done|]. apply (di_climb _ _ _ _ Hinv). by left. }
  destruct (Nat.ltb_spec MAX_INHERITANCE_DEPTH e); [lia|].
  apply IH; [by apply down_inv_step|].
  assert (id ∈ ({[role]} ∪ dom ls : gset uuid)) by (apply (di_known _ _ _ _ Hinv); simpl; right; by left).
  enough (size ((({[role]} ∪ dom ls) : gset uuid) ∖ ({[id]} ∪ seen))
          < size ((({[role]} ∪ dom ls) : gset uuid) ∖ seen))%nat by lia.
  apply subset_size. set_solver.
Qed.

Lemma walk_down_ok ls role :
  walk_down ls (S (S (size ls))) [(role, 0%nat)] ∅ = Ok tt <-> shallow ls role.
Proof.
  split.
  - intros H x Hx. pose proof (walk_down_sound _ _ _ _ H role 0 _ x ltac:(by left) Hx). lia.
  - intros Hsh. apply (walk_down_complete _ role); [done| |].
    + split; simpl.
      * intros id d [[= -> ->]|H]%elem_of_cons; [done|by apply elem_of_nil in H].
      * set_solver.
      * apply NoDup_singleton.
      * set_solver.
      * set_solver.
    + rewrite difference_empty_L. rewrite size_union_alt, size_singleton.
      pose proof (subseteq_size (dom ls ∖ {[role]}) (dom ls) ltac:(set_solver)) as Hle.
      rewrite size_dom in Hle. lia.
Qed.

Lemma up_ok_walk ls role parent :
  walk_up ls role (S MAX_INHERITANCE_DEPTH) parent 0 ∅ = Ok tt
  <-> up_ok ls role parent MAX_INHERITANCE_DEPTH.
Proof.
  rewrite walk_up_ok; [by rewrite Nat.sub_0_r|lia|lia|]. intros k x _ _. apply not_elem_of_empty.
Qed.

Lemma validate_ok ls role parent :
  validate_parent_change ls role parent = Ok tt
  <-> up_ok ls role parent MAX_INHERITANCE_DEPTH /\ shallow ls role.
Proof.
  unfold validate_parent_change. rewrite <- up_ok_walk, <- walk_down_ok.
  destruct (walk_up _ _ _ _ _ _) as [[]|]; simpl; naive_solver.
Qed.

(** Relinking [role] leaves a chain that does not pass through it alone. *)
Lemma climb_insert_avoid ls role parent id :
  (forall k, climb ls k id <> Some role) -> forall n, climb (<[role := parent]> ls) n id = climb ls n id.
Proof.
  intros Hav n. revert id Hav. induction n as [|n IH]; intros id Hav; simpl; [done|].
  assert (id <> role) as Hne by (intros ->; by apply (Hav 0%nat)).
  unfold link at 1. rewrite lookup_insert_ne by done. fold (link ls id).
  destruct (link ls id) as [p|] eqn:E; simpl; [|done]. apply IH. intros k Hk.
  apply (Hav (S k)). simpl. by rewrite E.
Qed.

Lemma acyclic_insert ls role parent :
  acyclic ls -> (exists n, above ls parent n = None) -> (forall k, above ls parent k <> Some role) ->
  acyclic (<[role := parent]> ls).
Proof.
  intros Hac [np Hnp] Hav id. destruct (Hac id) as [n Hn]. revert id Hn.
  assert (exists m, above (<[role := parent]> ls) parent m = None) as Hpar.
  { exists np. destruct parent as [p|]; [|done]. simpl in *. by rewrite climb_insert_avoid. }
  induction n as [|n IH]; intros id Hn; [done|]. destruct (decide (id = role)) as [->|Hne].
  - destruct Hpar as [m Hm]. exists (S m). simpl. unfold link. by rewrite lookup_insert_eq.
  - simpl in Hn. destruct (link ls id) as [p|] eqn:E.
    + destruct (IH p Hn) as [m Hm]. exists (S m). simpl. unfold link.
      rewrite lookup_insert_ne by done. fold (link ls id). by rewrite E.
    + exists 1%nat. simpl. unfold link. rewrite lookup_insert_ne by done. fold (link ls id). by rewrite E.
Qed.

(** Dropping links or rows never makes a chain longer. *)
Lemma climb_subchain ls ls' n id :
  (forall i p, link ls' i = Some p -> link ls i = Some p) ->
  climb ls n id = None -> climb ls' n id = None.
Proof.
  intros Hsub. revert id. induction n as [|n IH]; intros id; simpl; [done|].
  destruct (link ls' id) as [p|] eqn:E; simpl; [|done]. rewrite (Hsub _ _ E). apply IH.
Qed.

(** [validate_parent_change] accepts a parent exactly when the chain above it ends within
    [MAX_INHERITANCE_DEPTH] roles without meeting the role, and no role sits deeper than that below
    the role; both walks terminate on every link map, cyclic ones included. *)
Theorem validate_parent_change_accepts (ls : links) (role : uuid) (parent : option uuid) :
  validate_parent_change ls role parent = Ok tt
  <-> (exists n, (n <= MAX_INHERITANCE_DEPTH)%nat /\ above ls parent n = None)
      /\ (forall k, above ls parent k <> Some role)
      /\ (forall x, climb ls (S MAX_INHERITANCE_DEPTH) x <> Some role).
Proof. rewrite validate_ok. unfold up_ok, shallow. naive_solver. Qed.

(** The limit is applied to each direction of the changed role alone: after an accepted change a
    role below it can sit under more than [MAX_INHERITANCE_DEPTH] ancestors, although that is
    documented as the longest chain a role may sit in, counted in each direction. *)
Theorem depth_limit_gap :
  exists (ls : links) (role : uuid) (parent : option uuid) (leaf : uuid),
    acyclic ls /\ validate_parent_change ls role parent = Ok tt
    /\ climb (<[role := parent]> ls) (S MAX_INHERITANCE_DEPTH) leaf <> None.
Proof.
  exists (list_to_map [(1, None); (2, Some 1); (3, Some 2); (4, Some 3); (5, Some 4); (6, Some 5);
                       (7, Some 6); (8, Some 7); (20, None); (21, Some 20)]%N), 20%N, (Some 8%N), 21%N.
  split; [|split; [vm_compute; reflexivity | vm_compute; discriminate]].
  intros id. exists 8%nat.
  destruct (decide (id ∈ [1; 2; 3; 4; 5; 6; 7; 8; 20; 21]%N)) as [Hin|Hni].
  - repeat (apply elem_of_cons in Hin as [->|Hin]; [vm_compute; reflexivity|]).
    by apply elem_of_nil in Hin.
  - change (climb ?ls 8 id) with (link ls id ≫= climb ls 7). unfold link at 1.
    by rewrite not_elem_of_list_to_map_1.
Qed.

(** ** The store's hierarchy invariant *)

Section StoreProofs.
Context `{J : JsonNumber} (to_lowercase : str -> str) (is_known : str -> bool).

Definition all_links (st : role_store) : links := inherits_role_id <$> st_roles st.

(** Rows are keyed by id, a parent is a stored platform role or a role of the same organization,
    and every inheritance chain ends. *)
Record hierarchy_ok (st : role_store) : Prop := {
  ho_keyed : forall id r, st_roles st !! id = Some r -> role_id r = id;
  ho_parent : forall id r p, st_roles st !! id = Some r -> inherits_role_id r = Some p ->
    exists pr, st_roles st !! p = Some pr
               /\ (organization_id pr = None \/ organization_id pr = organization_id r);
  ho_acyclic : acyclic (all_links st)
}.

Lemma link_all st id p :
  link (all_links st) id = Some p
  <-> exists r, st_roles st !! id = Some r /\ inherits_role_id r = Some p.
Proof.
  rewrite link_Some. unfold all_links. rewrite lookup_fmap.
  destruct (st_roles st !! id) as [r|]; simpl; [|by split; [|intros (? & ? & _)]].
  split; [intros [= H]; eauto | by intros (? & [= <-] & ->)].
Qed.
Lemma link_scope st o id r :
  st_roles st !! id = Some r -> in_scope o r = true ->
  link (parent_links st o) id = link (all_links st) id.
Proof.
  intros Hr Hs. unfold link, parent_links, all_links. rewrite !lookup_fmap.
  replace (filter (fun kv => in_scope o (snd kv) = true) (st_roles st) !! id) with (Some r);
    [by rewrite Hr|].
  symmetry. by apply map_lookup_filter_Some.
Qed.

(** Inside one scope the restricted link map shows the whole chain. *)
Lemma climb_scope st o id r n :
  hierarchy_ok st -> st_roles st !! id = Some r -> in_scope o r = true ->
  climb (parent_links st o) n id = climb (all_links st) n id.
Proof.
  intros Hok. revert id r. induction n as [|n IH]; intros id r Hr Hs; simpl; [done|].
  rewrite (link_scope st o id r Hr Hs). destruct (link (all_links st) id) as [p|] eqn:E; simpl; [|done].
  apply link_all in E as (r0 & Hr0 & Hp). assert (r0 = r) as -> by congruence.
  destruct (ho_parent _ Hok id r p Hr Hp) as (pr & Hpr & Horg). apply (IH p pr Hpr).
  unfold in_scope in *. destruct Horg as [->| ->]; [done|]. done.
Qed.

Lemma accepted_parent st o role p pr :
  hierarchy_ok st -> st_roles st !! p = Some pr -> in_scope o pr = true ->
  validate_parent_change (parent_links st o) role (Some p) = Ok tt ->
  (exists n, above (all_links st) (Some p) n = None)
  /\ (forall k, above (all_links st) (Some p) k <> Some role).
Proof.
  intros Hok Hp Hs Hv. apply validate_ok in Hv as [(n & _ & Hn & Hav) _]. simpl in *.
  split; [exists n | intros k]; rewrite <- (climb_scope st o p pr) by done; eauto.
Qed.
Lemma climb_stored st k id x r :
  hierarchy_ok st -> st_roles st !! id = Some r -> climb (all_links st) k id = Some x ->
  exists rx, st_roles st !! x = Some rx.
Proof.
  intros Hok. revert id r. induction k as [|k IH]; intros id r Hr; simpl; [intros [= <-]; eauto|].
  destruct (link (all_links st) id) as [p|] eqn:E; simpl; [|done].
  apply link_all in E as (r0 & Hr0 & Hp). destruct (ho_parent _ Hok id r0 p Hr0 Hp) as (pr & Hpr & _).
  by apply (IH p pr).
Qed.

Lemma hierarchy_put st id r es vs :
  hierarchy_ok st -> role_id r = id ->
  (forall old, st_roles st !! id = Some old -> organization_id old = organization_id r) ->
  (forall p, inherits_role_id r = Some p -> exists pr, st_roles st !! p = Some pr
     /\ (organization_id pr = None \/ organization_id pr = organization_id r)) ->
  (exists n, above (all_links st) (inherits_role_id r) n = None) ->
  (forall k, above (all_links st) (inherits_role_id r) k <> Some id) ->
  hierarchy_ok (RoleStore (<[id := r]> (st_roles st)) es vs).
Proof.
  intros Hok Hid Hold Hpar Hend Hav. split; simpl.
  - intros i x. rewrite lookup_insert_Some. intros [[<- <-]|[_ Hx]]; [done|by apply (ho_keyed _ Hok)].
  - intros i x p. rewrite lookup_insert_Some. intros [[<- <-]|[Hne Hx]] Hp.
    + destruct (Hpar p Hp) as (pr & Hpr & Horg). exists pr. split; [|done].
      rewrite lookup_insert_ne; [done|]. intros ->. apply (Hav 0%nat). by rewrite Hp.
    + destruct (ho_parent _ Hok i x p Hx Hp) as (pr & Hpr & Horg).
      destruct (decide (p = id)) as [->|Hpi].
      * exists r. rewrite lookup_insert_eq. split; [done|]. by rewrite <- (Hold pr Hpr).
      * exists pr. by rewrite lookup_insert_ne.
  - unfold all_links. simpl. rewrite fmap_insert. apply acyclic_insert; [apply (ho_acyclic _ Hok)|done|done].
Qed.

Lemma fresh_chain st id parent pr :
  hierarchy_ok st -> st_roles st !! id = None -> (forall p, parent = Some p -> st_roles st !! p = Some pr) ->
  (exists n, above (all_links st) parent n = None)
  /\ (forall k, above (all_links st) parent k <> Some id).
Proof.
  intros Hok Hid Hp. split.
  - destruct parent as [p|]; [|by exists 0%nat]. apply (ho_acyclic _ Hok p).
  - intros k Hk. destruct parent as [p|]; [|done]. simpl in Hk.
    destruct (climb_stored st k p id pr Hok (Hp p eq_refl) Hk). congruence.
Qed.

Lemma insert_role_Ok st r st' :
  insert_role st r = Ok st' ->
  st' = RoleStore (<[role_id r := r]> (st_roles st)) (st_entries st) (st_versions st).
Proof. unfold insert_role. destruct (existsb _ _); [done|]. by intros [= <-]. Qed.

Lemma in_scope_Some o pr :
  in_scope (Some o) pr = true -> organization_id pr = None \/ organization_id pr = Some o.
Proof.
  unfold in_scope. destruct (organization_id pr) as [o'|]; [|by left].
  intros H%bool_decide_eq_true. right. congruence.
Qed.

Lemma create_keeps st stand_in id now new st' r :
  hierarchy_ok st -> st_roles st !! id = None ->
  create_role to_lowercase st stand_in id now new = Ok (st', r) -> hierarchy_ok st'.
Proof.
  intros Hok Hid. unfold create_role. rewrite result_bind_ok. intros (key & _ & H). revert H.
  rewrite result_bind_ok. intros (name & _ & H). revert H. rewrite result_bind_ok.
  intros (priority & _ & H). revert H. rewrite result_bind_ok. intros (u & Hparent & H).
  revert H. rewrite result_bind_ok. intros (st0 & ->%insert_role_Ok & [= <- <-]). simpl.
  assert (forall p, nr_inherits_role_id new = Some p -> exists pr, st_roles st !! p = Some pr
    /\ in_scope (Some (nr_organization_id new)) pr = true) as Hp.
  { intros p E. rewrite E in Hparent. unfold find_role in Hparent.
    destruct (st_roles st !! p) as [pr|]; [|done]. simpl in Hparent. exists pr. split; [done|].
    by destruct (in_scope _ pr). }
  assert (exists pr, forall p, nr_inherits_role_id new = Some p -> st_roles st !! p = Some pr) as [pr Hpr].
  { destruct (nr_inherits_role_id new) as [p|]; [|by eexists (Role id None [] [] [] 0 None true true 0 0)].
    destruct (Hp p eq_refl) as (pr & ? & _). exists pr. by intros ? [= <-]. }
  destruct (fresh_chain st id _ pr Hok Hid Hpr).
  apply hierarchy_put; simpl; try done; [congruence|].
  intros p E. destruct (Hp p E) as (pr' & ? & ?%in_scope_Some). eauto.
Qed.

Lemma update_parent_Ok st id r change parent :
  hierarchy_ok st -> st_roles st !! id = Some r -> update_parent st id r change = Ok parent ->
  (forall p, parent = Some p -> exists pr, st_roles st !! p = Some pr
     /\ (organization_id pr = None \/ organization_id pr = organization_id r))
  /\ (exists n, above (all_links st) parent n = None)
  /\ (forall k, above (all_links st) parent k <> Some id).
Proof.
  intros Hok Hr. destruct change as [|np|]; simpl.
  - intros [= <-]. split; [intros p; by apply (ho_parent _ Hok id)|].
    assert (link (all_links st) id = inherits_role_id r) as Hl.
    { unfold link, all_links. by rewrite lookup_fmap, Hr. }
    split.
    + destruct (ho_acyclic _ Hok id) as [[|n] Hn]; [done|]. exists n. simpl in Hn. by rewrite Hl in Hn.
    + intros k Hk. assert (climb (all_links st) (S k) id = Some id) as Hloop by (simpl; by rewrite Hl).
      destruct (ho_acyclic _ Hok id) as [n Hn]. by apply (climb_loop _ (S k) id ltac:(lia) Hloop n).
  - destruct (bool_decide _); [done|]. unfold find_role.
    destruct (st_roles st !! np) as [pr|] eqn:Hpr; [|done]. simpl.
    destruct (negb _ || _) eqn:E; [|done]. rewrite result_bind_ok. intros ([] & Hv & [= <-]).
    assert (organization_id pr = None \/ organization_id pr = organization_id r) as Horg.
    { apply orb_true_iff in E as [E|E%bool_decide_eq_true]; [left|by right].
      by destruct (organization_id pr). }
    split; [intros p [= <-]; eauto|]. eapply accepted_parent; [done..| |exact Hv].
    unfold in_scope. destruct (organization_id pr) as [o|] eqn:Ho; [|done].
    destruct Horg as [|Horg]; [done|]. rewrite <- Horg. by apply bool_decide_eq_true.
  - intros [= <-]. split; [done|]. split; [by exists 0%nat|done].
Qed.

Lemma update_keeps st id now u st' r :
  hierarchy_ok st -> update_role st id now u = Ok (st', r) -> hierarchy_ok st'.
Proof.
  intros Hok. unfold update_role, find_role. destruct (st_roles st !! id) as [old|] eqn:Hold; [|done].
  simpl. destruct (is_system old); [done|]. rewrite result_bind_ok. intros (name & _ & H). revert H.
  rewrite result_bind_ok. intros (priority & _ & H). revert H. rewrite result_bind_ok.
  intros (parent & Hp & [= <- <-]). apply update_parent_Ok in Hp as (H1 & H2 & H3); [|done|done].
  apply hierarchy_put; simpl; try done. congruence.
Qed.

Lemma delete_keeps st id live st' :
  hierarchy_ok st -> delete_role st id live = Ok st' -> hierarchy_ok st'.
Proof.
  intros Hok. unfold delete_role, find_role. destruct (st_roles st !! id) as [old|] eqn:Hold; [|done].
  simpl. destruct (is_system old), (0 <? live); try done. intros [= <-].
  assert (forall i x, (unlink id <$> delete id (st_roles st)) !! i = Some x ->
    i <> id /\ exists r, st_roles st !! i = Some r /\ x = unlink id r) as Hin.
  { intros i x. rewrite lookup_fmap, fmap_Some. intros (r & Hr & ->).
    apply lookup_delete_Some in Hr as [? ?]. eauto. }
  assert (forall r p, inherits_role_id (unlink id r) = Some p -> inherits_role_id r = Some p /\ p <> id) as Hun.
  { intros r p. unfold unlink. destruct (bool_decide _) eqn:E; [done|].
    apply bool_decide_eq_false in E. intros H. split; congruence. }
  assert (forall r, organization_id (unlink id r) = organization_id r /\ role_id (unlink id r) = role_id r)
    as Hsame by (intros r; unfold unlink; by destruct (bool_decide _)).
  split; simpl.
  - intros i x Hx. apply Hin in Hx as (_ & r & Hr & ->). rewrite (proj2 (Hsame r)). by apply (ho_keyed _ Hok).
  - intros i x p Hx Hp. apply Hin in Hx as (_ & r & Hr & ->). apply Hun in Hp as [Hp Hne].
    destruct (ho_parent _ Hok i r p Hr Hp) as (pr & Hpr & Horg). exists (unlink id pr).
    rewrite lookup_fmap, lookup_delete_ne, Hpr by done. rewrite (proj1 (Hsame pr)), (proj1 (Hsame r)). done.
  - intros i. destruct (ho_acyclic _ Hok i) as [n Hn]. exists n. revert Hn. apply climb_subchain.
    intros j p Hj. apply link_all in Hj as (x & Hx & Hp). simpl in Hx. apply Hin in Hx as (_ & r & Hr & ->).
    apply link_all. exists r. split; [done|]. by apply Hun.
Qed.

Lemma duplicate_keeps st source o id key name now st' r :
  hierarchy_ok st -> st_roles st !! id = None ->
  duplicate_role to_lowercase st source o id key name now = Ok (st', r) -> hierarchy_ok st'.
Proof.
  intros Hok Hid. unfold duplicate_role, find_role. destruct (st_roles st !! source) as [src|]; [|done].
  simpl. destruct (in_scope _ src); [|done]. rewrite result_bind_ok. intros (k & _ & H). revert H.
  rewrite result_bind_ok. intros (nm & _ & H). revert H. rewrite result_bind_ok. intros (parent & Hp & H).
  revert H. rewrite result_bind_ok. intros (st0 & ->%insert_role_Ok & [= <- <-]). simpl.
  assert (parent = None \/ exists p pr, parent = Some p /\ st_roles st !! p = Some pr
    /\ in_scope (Some o) pr = true) as Hpar.
  { destruct (inherits_role_id src) as [p|]; simpl in Hp; [|left; congruence].
    destruct (st_roles st !! p) as [pr|] eqn:Hpr; [|done]. simpl in Hp.
    destruct (in_scope (Some o) pr) eqn:E; simplify_eq; [right; eauto 6|by left]. }
  destruct Hpar as [->|(p & pr & -> & Hpr & Hs)].
  - apply hierarchy_put; simpl; try done; [congruence|by exists 0%nat].
  - destruct (fresh_chain st id (Some p) pr Hok Hid ltac:(by intros ? [= <-])).
    apply hierarchy_put; simpl; try done; [congruence|].
    intros ? [= <-]. apply in_scope_Some in Hs. eauto.
Qed.

Lemma replace_keeps st id entries expected actor now st' o :
  hierarchy_ok st -> replace_role_permissions is_known st id entries expected actor now = Ok (st', o) ->
  hierarchy_ok st'.
Proof.
  intros Hok. unfold replace_role_permissions, find_role.
  destruct (st_roles st !! id) as [old|] eqn:Hold; [|done]. simpl. destruct (is_system old); [done|].
  destruct (negb _ || _); [done|]. rewrite result_bind_ok. intros (u & _ & [= <- _]).
  destruct (update_parent_Ok st id old Keep _ Hok Hold eq_refl) as (H1 & H2 & H3).
  apply hierarchy_put; simpl; try done; [by apply (ho_keyed _ Hok)|congruence].
Qed.

Inductive role_steps : role_store -> role_store -> Prop :=
| steps_none st : role_steps st st
| steps_more st st' st'' : role_step to_lowercase is_known st st' -> role_steps st' st'' -> role_steps st st''.

(** C31. Every sequence of role operations (create, update, delete, duplicate, replace permissions)
    keeps the hierarchy sound: rows keyed by id, parents stored and of the platform or the same
    organization, every inheritance chain finite. *)
Theorem role_operations_keep_hierarchy (st st' : role_store) :
  hierarchy_ok st -> role_steps st st' -> hierarchy_ok st'.
Proof.
  intros Hok Hs. revert Hok. induction Hs as [|st st1 st2 Hstep _ IH]; [done|]. intros Hok. apply IH.
  destruct Hstep; eauto using create_keeps, update_keeps, delete_keeps, duplicate_keeps, replace_keeps.
Qed.
End StoreProofs.

(** ** Permission sets *)

Lemma elem_of_map_entries m k e : RolePermission k e ∈ map_entries m <-> m !! k = Some e.
Proof.
  unfold map_entries. rewrite (sort_by_perm (fun a b => str_cmp (rp_key a) (rp_key b))), list_elem_of_fmap.
  split.
  - intros ([k' e'] & [= -> ->] & H). by apply elem_of_map_to_list.
  - intros H. exists (k, e). split; [done|]. by apply elem_of_map_to_list.
Qed.
Lemma NoDup_map_entries m : NoDup (rp_key <$> map_entries m).
Proof.
  unfold map_entries. rewrite (sort_by_perm (fun a b => str_cmp (rp_key a) (rp_key b))).
  rewrite <- list_fmap_compose. apply (NoDup_fst_map_to_list m).
Qed.
Lemma is_some_false {A} (o : option A) : negb (is_some o) = true <-> o = None.
Proof. by destruct o. Qed.

Definition diff_keys (d : role_diff) : list str :=
  (rp_key <$> diff_added d) ++ (rp_key <$> diff_removed d) ++ (pc_key <$> diff_changed d).

Lemma elem_of_changed before after k a b :
  PermissionChange k a b ∈ diff_changed (diff before after)
  <-> entry_map before !! k = Some a /\ entry_map after !! k = Some b /\ a <> b.
Proof.
  simpl. rewrite list_elem_of_omap. split.
  - intros ([k' e] & Hin & H). simpl in H. apply elem_of_map_entries in Hin.
    destruct (entry_map before !! k') as [p|] eqn:Ep; [|done].
    destruct (decide (p = e)); simplify_eq. done.
  - intros (Ha & Hb & Hne). exists (RolePermission k b). rewrite elem_of_map_entries. split; [done|].
    simpl. rewrite Ha. by destruct (decide (a = b)).
Qed.

Lemma changed_keys_sublist (bm : gmap str entry_effect) l :
  sublist (pc_key <$> omap (fun e => match bm !! rp_key e with
                    | Some previous => if decide (previous = rp_effect e) then None
                                       else Some (PermissionChange (rp_key e) previous (rp_effect e))
                    | None => None
                    end) l) (rp_key <$> l).
Proof.
  induction l as [|e l IH]; simpl; [constructor|].
  destruct (bm !! rp_key e); [|by apply sublist_cons].
  destruct (decide _); [by apply sublist_cons | by apply sublist_skip].
Qed.

(** The diff of two permission sets lists exactly the keys only in the new set as added, the
    keys only in the old one as removed and the keys whose effect flipped as changed, and names no
    key twice. *)
Theorem diff_exact (before after : list role_permission) :
  let d := diff before after in
  (forall k e, RolePermission k e ∈ diff_added d
     <-> entry_map before !! k = None /\ entry_map after !! k = Some e)
  /\ (forall k e, RolePermission k e ∈ diff_removed d
     <-> entry_map before !! k = Some e /\ entry_map after !! k = None)
  /\ (forall k a b, PermissionChange k a b ∈ diff_changed d
     <-> entry_map before !! k = Some a /\ entry_map after !! k = Some b /\ a <> b)
  /\ NoDup (diff_keys d).
Proof.
  cbv zeta. assert (forall k e, RolePermission k e ∈ diff_added (diff before after)
     <-> entry_map before !! k = None /\ entry_map after !! k = Some e) as Hadd.
  { intros k e. simpl. rewrite elem_of_filter_bool, elem_of_map_entries. simpl. rewrite is_some_false. tauto. }
  assert (forall k e, RolePermission k e ∈ diff_removed (diff before after)
     <-> entry_map before !! k = Some e /\ entry_map after !! k = None) as Hrem.
  { intros k e. simpl. rewrite elem_of_filter_bool, elem_of_map_entries. simpl. by rewrite is_some_false. }
  split_and!; [done|done|intros; apply elem_of_changed|].
  assert (forall k, k ∈ pc_key <$> diff_changed (diff before after) ->
    is_Some (entry_map before !! k) /\ is_Some (entry_map after !! k)) as Hch.
  { intros k ([k' a b] & -> & Hin)%list_elem_of_fmap. apply elem_of_changed in Hin as (H1 & H2 & _). simpl. by rewrite H1, H2. }
  unfold diff_keys. apply NoDup_app. split_and!.
  - apply NoDup_filter_keys, NoDup_map_entries.
  - intros k ([k' e] & -> & Hin)%list_elem_of_fmap. apply Hadd in Hin as [Hb Ha]. simpl.
    intros [Hin|Hin]%elem_of_app.
    + apply list_elem_of_fmap in Hin as ([k2 e2] & -> & Hin). simpl in *. apply Hrem in Hin as [? ?]. congruence.
    + apply Hch in Hin as [[? H] _]. congruence.
  - apply NoDup_app. split_and!; [apply NoDup_filter_keys, NoDup_map_entries| |].
    + intros k ([k' e] & -> & Hin)%list_elem_of_fmap Hin2. apply Hrem in Hin as [Hb Ha].
      apply Hch in Hin2 as [_ [? H]]. simpl in *. congruence.
    + eapply sublist_NoDup; [|apply changed_keys_sublist]. apply NoDup_map_entries.
Qed.

Lemma fold_entries_lookup (l : list role_permission) (m : gmap str entry_effect) k e :
  NoDup (rp_key <$> l) ->
  fold_left (fun m e => <[rp_key e := rp_effect e]> m) l m !! k = Some e
  <-> RolePermission k e ∈ l \/ ((k ∉ (rp_key <$> l)) /\ m !! k = Some e).
Proof.
  revert m. induction l as [|[k' e'] l IH]; intros m; simpl.
  - intros _. rewrite !elem_of_nil. naive_solver.
  - intros [Hk Hl]%NoDup_cons. rewrite IH by done. rewrite lookup_insert_Some, !elem_of_cons.
    assert (RolePermission k' e ∉ l) as Hni by (intros H; apply Hk; by apply (list_elem_of_fmap_2 rp_key) in H).
    destruct (decide (k = k')) as [->|Hne].
    + split; [|naive_solver]. intros [?|[_ [[_ <-]|[? _]]]]; [done|by left; left|done].
    + split; [|naive_solver]. intros [?|[? [[? _]|[_ ?]]]]; [by left; right|congruence|right; naive_solver].
Qed.

(** What the validation loop has established after a list of entries. *)
Lemma check_entries_spec known l :
  let c := check_entries known l in
  (ec_unknown c = [] <-> Forall (fun e => known (rp_key e) = true) l)
  /\ (ec_unknown c = [] -> ec_validated c = entry_map l)
  /\ (ec_unknown c = [] -> ec_duplicates c = [] -> NoDup (rp_key <$> l)).
Proof.
  induction l as [|e l IH] using rev_ind; [split_and!; [by split|done|by intros; constructor]|].
  cbv zeta in *. unfold check_entries, entry_map in *. rewrite !fold_left_app. simpl.
  rewrite Forall_app, Forall_singleton. revert IH.
  generalize (fold_left (check_entry known) l (EntryCheck [] [] ∅)). intros c (IH1 & IH2 & IH3).
  unfold check_entry. destruct (known (rp_key e)) eqn:Hk; simpl.
  - rewrite IH1. split_and!; [naive_solver|intros H; by rewrite IH2 by by apply IH1|].
    intros Hu Hd. rewrite fmap_app. simpl. specialize (IH2 ltac:(by apply IH1)). rewrite IH2 in Hd.
    destruct (fold_left (fun m e => <[rp_key e := rp_effect e]> m) l ∅ !! rp_key e) as [old|] eqn:E;
      simpl in Hd; [by destruct (ec_duplicates c)|].
    specialize (IH3 ltac:(by apply IH1) Hd). apply NoDup_app. split_and!; [done| |apply NoDup_singleton].
    intros k Hin ->%list_elem_of_singleton. apply list_elem_of_fmap in Hin as ([k' e'] & Heq & Hin).
    simpl in Heq. assert (fold_left (fun m e => <[rp_key e := rp_effect e]> m) l
      (∅ : gmap str entry_effect) !! k' = Some e') as H by (apply fold_entries_lookup; [done|by left]).
    rewrite <- Heq in H. congruence.
  - assert (ec_unknown c ++ [rp_key e] <> []) as Hne by by destruct (ec_unknown c).
    split_and!; [|done..]. split; [done|naive_solver].
Qed.

Lemma dedup_nil l : dedup l = [] <-> l = [].
Proof.
  split; [|by intros ->]. induction l as [|x l IH]; [done|]. simpl. destruct l as [|y l]; [done|].
  destruct (str_eqb x y); [|done]. intros H. by specialize (IH H).
Qed.
Lemma dedup_sort_nil l : dedup (sort_by str_cmp l) = [] <-> l = [].
Proof. by rewrite dedup_nil, (sort_by_nil str_cmp). Qed.

Lemma version_entries_json `{J : JsonNumber} v entries :
  rv_permissions v = entries_json entries -> version_entries v = entries.
Proof.
  unfold version_entries. intros ->. simpl.
  induction entries as [|[k e] l IH]; simpl; [done|]. destruct e; simpl; f_equal; apply IH.
Qed.

(** A successful save stores exactly the requested entries (known keys, none repeated), under a
    version number one past the latest, which was the one the caller expected; the version row
    parses back to the saved entries and no other role's entries or history change. *)
Theorem replace_saves `{J : JsonNumber} (known : str -> bool) (st st' : role_store) (id : uuid)
  (entries : list role_permission) (expected : option Z) (actor : option uuid) (now : instant)
  (o : save_outcome)
  (Hkeyed : forall r, st_roles st !! id = Some r -> role_id r = id)
  (Hsave : replace_role_permissions known st id entries expected actor now = Ok (st', o)) :
  let current := default 0 (latest_version st id) in
  (Forall (fun e => known (rp_key e) = true) entries /\ NoDup (rp_key <$> entries))
  /\ so_entries o ≡ₚ entries /\ permission_entries st' id = so_entries o
  /\ so_diff o = diff (permission_entries st id) (so_entries o)
  /\ so_version o = current + 1 /\ (forall e, expected = Some e -> e = current)
  /\ (exists v, default [] (st_versions st' !! id) = v :: default [] (st_versions st !! id)
                /\ rv_version v = so_version o /\ version_entries v = so_entries o)
  /\ (forall j, j <> id -> st_entries st' !! j = st_entries st !! j
                           /\ st_versions st' !! j = st_versions st !! j).
Proof.
  revert Hsave. unfold replace_role_permissions, find_role.
  destruct (st_roles st !! id) as [r|] eqn:Hr; [|done]. simpl. destruct (is_system r); [done|].
  destruct (negb _ || negb _) eqn:E; [done|]. apply orb_false_iff in E as [Eu Ed].
  apply negb_false_iff, bool_decide_eq_true in Eu, Ed. rewrite dedup_sort_nil in Eu, Ed.
  destruct (check_entries_spec known entries) as (H1 & H2 & H3). cbv zeta in *.
  rewrite result_bind_ok. intros ([] & Hexp & [= <- <-]). simpl.
  rewrite (Hkeyed r eq_refl). specialize (H2 Eu). specialize (H3 Eu Ed). rewrite H2.
  assert (map_entries (entry_map entries) ≡ₚ entries) as Hperm.
  { apply NoDup_Permutation.
    - eapply NoDup_fmap_1. apply NoDup_map_entries.
    - by eapply NoDup_fmap_1.
    - intros [k e]. rewrite elem_of_map_entries. unfold entry_map. rewrite fold_entries_lookup by done.
      rewrite lookup_empty. naive_solver. }
  split_and!; try done.
  - by apply H1.
  - unfold permission_entries. simpl. by rewrite lookup_insert_eq.
  - intros e ->. destruct (default 0 (latest_version st id) =? e) eqn:Ee; [|done]. by apply Z.eqb_eq in Ee.
  - rewrite lookup_insert_eq. simpl. eexists. split_and!; [done|done|]. by apply version_entries_json.
  - intros j Hj. by rewrite !lookup_insert_ne.
Qed.

(** ** Witnesses *)

Definition empty_store : role_store (J := Z_number) := RoleStore ∅ ∅ ∅.
Definition sample_new : new_role := NewRole 7 s!" Web-Team " s!"Web" [] 200 None.
Definition sample_saved : list role_permission := [RolePermission s!"site.read" Allow].

Lemma empty_hierarchy : hierarchy_ok empty_store.
Proof.
  split; [intros ? ? H|intros ? ? ? H|intros id; exists 1%nat]; unfold empty_store in *; simpl in *;
    [by rewrite lookup_empty in H..|]. unfold all_links; simpl. by rewrite fmap_empty.
Qed.

Lemma role_operations_keep_hierarchy_witness :
  exists st', role_steps (J := Z_number) to_ascii_lowercase (fun _ => true) empty_store st'
              /\ st_roles st' !! 1%N <> None /\ hierarchy_ok st'.
Proof.
  assert (exists st' r, create_role to_ascii_lowercase empty_store 9 1 0 sample_new = Ok (st', r)
                        /\ st_roles st' !! 1%N <> None) as (st' & r & H & Hin)
    by (eexists; eexists; split; [reflexivity|discriminate]).
  exists st'. assert (role_steps (J := Z_number) to_ascii_lowercase (fun _ => true) empty_store st') as Hs.
  { eapply steps_more; [|apply steps_none]. by eapply step_create; [|exact H]. }
  split; [exact Hs|split; [exact Hin|]].
  exact (role_operations_keep_hierarchy to_ascii_lowercase (fun _ => true) _ _ empty_hierarchy Hs).
Defined.

Lemma replace_saves_witness :
  exists st o, permission_entries (J := Z_number) st 1 = so_entries o /\ so_version o = 1.
Proof.
  set (r := Role 1 (Some 7%N) s!"web" s!"Web" [] 0 None true false 0 0).
  set (st := RoleStore (J := Z_number) {[1%N := r]} ∅ ∅).
  assert (exists st' o, replace_role_permissions (fun _ => true) st 1 sample_saved (Some 0) None 5
                        = Ok (st', o)) as (st' & o & H) by (do 2 eexists; reflexivity).
  assert (forall r', st_roles st !! 1%N = Some r' -> role_id r' = 1%N) as Hk by (intros r' [= <-]; reflexivity).
  pose proof (replace_saves (fun _ => true) st st' 1 sample_saved (Some 0) None 5 o Hk H)
    as (_ & _ & He & _ & Hv & _).
  exists st', o. split; [exact He|exact Hv].
Defined.

(** Nothing reserves the keys of the built-in roles: an organization may have a role called [owner]. *)
Example customer_role_may_be_named_owner :
  match create_role (J := Z_number) to_ascii_lowercase empty_store 9 2 0 (NewRole 7 s!"owner" s!"Owner" [] 100 None) with
  | Ok (st, r) => role_key r = s!"owner" /\ organization_id r = Some 7%N /\ permission_entries st (role_id r) = []
  | Err _ => False
  end.
Proof. vm_compute. repeat split. Qed.
