(* ===== verification/Bindings.v ===== *)
(** * Role bindings and the revocation safety rules: [crates/permissions/src/bindings.rs],
    [invariants.rs]

    The [role_bindings] table as a list of rows, the operations on it as functions of the row list
    and the current instant, and the check that runs before a revocation. *)

From S2P Require Import Prelude Roles.

(** ** Rows and bindings *)

Record role_binding := RoleBinding {
  rb_id : uuid;
  rb_role_id : uuid;
  rb_subject : subject;
  rb_user_id : option uuid;
  rb_scope : scope;
  rb_granted_by : option uuid;
  rb_expires_at : option instant;
  rb_revoked_at : option instant;
  rb_created_at : instant
}.

Definition is_active_at (b : role_binding) (now : instant) : bool :=
  negb (is_some (rb_revoked_at b))
  && match rb_expires_at b with None => true | Some expires => now <? expires end.
Definition is_expired_at (b : role_binding) (now : instant) : bool :=
  negb (is_some (rb_revoked_at b))
  && match rb_expires_at b with None => false | Some expires => expires <=? now end.

Record binding_row := BindingRow {
  br_id : uuid;
  br_role_id : uuid;
  br_subject_type : str;
  br_subject_id : uuid;
  br_user_id : option uuid;
  br_scope_type : str;
  br_organization_id : option uuid;
  br_site_id : option uuid;
  br_resource_type : option str;
  br_resource_id : option str;
  br_granted_by : option uuid;
  br_expires_at : option instant;
  br_revoked_at : option instant;
  br_created_at : instant
}.

Definition into_binding (r : binding_row) : result role_binding permissions_error :=
  let? scope := scope_from_parts (br_scope_type r) (br_organization_id r) (br_site_id r)
                  (br_resource_type r) (br_resource_id r) in
  let? subject := subject_from_parts (br_subject_type r) (br_subject_id r) in
  Ok (RoleBinding (br_id r) (br_role_id r) subject (br_user_id r) scope (br_granted_by r)
        (br_expires_at r) (br_revoked_at r) (br_created_at r)).

Record new_subject_binding := NewSubjectBinding {
  nb_role_id : uuid;
  nb_subject : subject;
  nb_scope : scope;
  nb_granted_by : option uuid;
  nb_expires_at : option instant
}.

Abbreviation rows := (list binding_row).

(** [revoked_at is null] and [revoked_at is null and (expires_at is null or expires_at > now())]. *)
Definition unrevoked (r : binding_row) : bool := negb (is_some (br_revoked_at r)).
Definition live (now : instant) (r : binding_row) : bool :=
  unrevoked r && match br_expires_at r with None => true | Some e => now <? e end.
Definition ran_out (now : instant) (r : binding_row) : bool :=
  unrevoked r && match br_expires_at r with None => false | Some e => e <=? now end.

Definition set_revoked (now : instant) (r : binding_row) : binding_row :=
  BindingRow (br_id r) (br_role_id r) (br_subject_type r) (br_subject_id r) (br_user_id r)
    (br_scope_type r) (br_organization_id r) (br_site_id r) (br_resource_type r) (br_resource_id r)
    (br_granted_by r) (br_expires_at r) (Some now) (br_created_at r).

(** [update role_bindings set revoked_at = now() where p]. *)
Definition revoke_where (p : binding_row -> bool) (now : instant) (t : rows) : rows :=
  (fun r => if p r then set_revoked now r else r) <$> t.

(** ** Granting *)

(** The columns [retire_expired] compares ([is not distinct from]). *)
Definition same_grant (new : new_subject_binding) (r : binding_row) : bool :=
  (br_role_id r =? nb_role_id new)%N
  && str_eqb (br_subject_type r) (subject_type (nb_subject new))
  && (br_subject_id r =? subject_id (nb_subject new))%N
  && str_eqb (br_scope_type r) (scope_type (nb_scope new))
  && bool_decide (br_organization_id r = scope_organization_id (nb_scope new))
  && bool_decide (br_site_id r = scope_site_id (nb_scope new))
  && bool_decide (br_resource_id r = scope_resource_id (nb_scope new)).

Definition retire_expired (now : instant) (new : new_subject_binding) (t : rows) : rows :=
  revoke_where (fun r => same_grant new r && ran_out now r) now t.
Definition retire_all_expired (now : instant) (t : rows) : rows := revoke_where (ran_out now) now t.

(** The key of the partial unique index over unrevoked rows ([role_bindings_active_key]): absent
    identifiers read as the nil identifier, an absent resource id as the empty text. *)
Definition index_key (r : binding_row) : uuid * str * uuid * str * uuid * uuid * str :=
  (br_role_id r, br_subject_type r, br_subject_id r, br_scope_type r,
   default 0%N (br_organization_id r), default 0%N (br_site_id r), default [] (br_resource_id r)).

Definition new_row (id : uuid) (now : instant) (new : new_subject_binding) : binding_row :=
  BindingRow id (nb_role_id new) (subject_type (nb_subject new)) (subject_id (nb_subject new))
    (match nb_subject new with User u => Some u | _ => None end)
    (scope_type (nb_scope new)) (scope_organization_id (nb_scope new)) (scope_site_id (nb_scope new))
    (scope_resource_type (nb_scope new)) (scope_resource_id (nb_scope new))
    (nb_granted_by new) (nb_expires_at new) None now.

(** [id] is the generated primary key; [references] stands for the schema's foreign keys. *)
Definition grant_subject (references : new_subject_binding -> bool) (id : uuid) (now : instant)
  (new : new_subject_binding) (t : rows) : rows * result role_binding permissions_error :=
  let t1 := retire_expired now new t in
  let row := new_row id now new in
  if existsb (fun r => unrevoked r && bool_decide (index_key r = index_key row)) t1
  then (t1, Err AlreadyBound)
  else if negb (references new) then (t1, Err InvalidBinding)
  else (t1 ++ [row], into_binding row).

Definition grant_if_missing (references : new_subject_binding -> bool) (id : uuid) (now : instant)
  (new : new_subject_binding) (t : rows) : rows * result (option role_binding) permissions_error :=
  let '(t', r) := grant_subject references id now new t in
  (t', match r with Ok b => Ok (Some b) | Err AlreadyBound => Ok None | Err e => Err e end).

(** ** Revoking *)

Definition revoke (id : uuid) (now : instant) (t : rows) : rows * bool :=
  (revoke_where (fun r => (br_id r =? id)%N && unrevoked r) now t,
   existsb (fun r => (br_id r =? id)%N && unrevoked r) t).

Definition of_subject (s : subject) (r : binding_row) : bool :=
  str_eqb (br_subject_type r) (subject_type s) && (br_subject_id r =? subject_id s)%N.
Definition revoke_for_subject (s : subject) (now : instant) (t : rows) : rows * nat :=
  (revoke_where (fun r => of_subject s r && unrevoked r) now t,
   length (List.filter (fun r => of_subject s r && unrevoked r) t)).

(** ** Reading *)

(** [order by created_at desc, id desc], with live rows first where the query says so. *)
Definition newest_first (a b : binding_row) : comparison :=
  then_with (br_created_at b ?= br_created_at a) (br_id b ?= br_id a)%N.
Definition unrevoked_first (a b : binding_row) : comparison :=
  then_with (bool_cmp (unrevoked b) (unrevoked a)) (newest_first a b).
Definition binding_newest_first (a b : role_binding) : comparison :=
  then_with (rb_created_at b ?= rb_created_at a) (rb_id b ?= rb_id a)%N.

Definition bindings_of_subject (t : rows) (s : subject) : result (list role_binding) permissions_error :=
  collect (into_binding <$> sort_by unrevoked_first (List.filter (of_subject s) t)).

(** [members]: the rows of [group_members] as (group, account) pairs. *)
Definition member_groups (members : list (uuid * uuid)) (user : uuid) : list uuid :=
  fst <$> List.filter (fun m => (snd m =? user)%N) members.

Definition bindings_for (members : list (uuid * uuid)) (t : rows) (s : subject)
  : result (list role_binding) permissions_error :=
  let? own := bindings_of_subject t s in
  let? bindings :=
    match s with
    | User user =>
        let groups := member_groups members user in
        let? more := collect (into_binding <$> sort_by newest_first
          (List.filter (fun r => str_eqb (br_subject_type r) s!"group"
                                 && existsb (N.eqb (br_subject_id r)) groups) t)) in
        Ok (own ++ more)
    | _ => Ok own
    end in
  Ok (sort_by binding_newest_first bindings).

Definition active_for_context (now : instant) (members : list (uuid * uuid)) (t : rows) (s : subject)
  (ctx : resource_context) : result (list role_binding) permissions_error :=
  let? bindings := bindings_for members t s in
  Ok (List.filter (fun b => is_active_at b now && applies_to (rb_scope b) ctx) bindings).

Definition count_live_for_role (now : instant) (role : uuid) (t : rows) : Z :=
  Z.of_nat (length (List.filter (fun r => (br_role_id r =? role)%N && live now r) t)).

(** ** The revocation check ([invariants.rs]) *)

Definition PRIVILEGED_ROLE_KEYS : list str := [s!"owner"; s!"administrator"].

Inductive invariant_refusal := LastOwner | SelfLockout.

Section Revocation.
(** The key of a stored role ([join roles r on r.id = b.role_id]). *)
Context (role_key_of : uuid -> option str) (members : list (uuid * uuid)).

Definition privileged (r : binding_row) : bool :=
  match role_key_of (br_role_id r) with
  | Some key => existsb (str_eqb key) PRIVILEGED_ROLE_KEYS
  | None => false
  end.

(** The caller's own rows, personal or through a group. *)
Definition held_by (caller : uuid) (r : binding_row) : bool :=
  (str_eqb (br_subject_type r) s!"user" && (br_subject_id r =? caller)%N)
  || (str_eqb (br_subject_type r) s!"group"
      && existsb (N.eqb (br_subject_id r)) (member_groups members caller)).

(** The class a binding is defended in. *)
Definition same_class (organization : option uuid) (r : binding_row) : bool :=
  match organization with
  | Some o => bool_decide (br_organization_id r = Some o)
  | None => str_eqb (br_scope_type r) s!"global" && negb (is_some (br_organization_id r))
  end.

Definition find_unrevoked (id : uuid) (t : rows) : option binding_row :=
  List.find (fun r => (br_id r =? id)%N && unrevoked r && is_some (role_key_of (br_role_id r))) t.

Definition others (id : uuid) (now : instant) (p : binding_row -> bool) (t : rows) : rows :=
  List.filter (fun r => negb (br_id r =? id)%N && live now r && privileged r && p r) t.

Definition check_binding_revocation (id caller : uuid) (now : instant) (t : rows)
  : option invariant_refusal :=
  match find_unrevoked id t with
  | None => None
  | Some b =>
      if ran_out now b || negb (privileged b) then None
      else if str_eqb (br_subject_type b) s!"user" && (br_subject_id b =? caller)%N
              && (length (others id now (held_by caller) t) =? 0)%nat then Some SelfLockout
      else if (length (others id now (same_class (br_organization_id b)) t) =? 0)%nat
      then Some LastOwner
      else None
  end.

(** What the revocation endpoint does: the check, then the update, as two statements. *)
Definition guarded_revoke (id caller : uuid) (now : instant) (t : rows)
  : rows * option invariant_refusal :=
  match check_binding_revocation id caller now t with
  | Some refusal => (t, Some refusal)
  | None => (fst (revoke id now t), None)
  end.
End Revocation.

(** ** Lemmas *)

Lemma length_pos {A} (l : list A) : (length l =? 0)%nat = false <-> exists x, x ∈ l.
Proof.
  rewrite Nat.eqb_neq. destruct l as [|x l]; simpl; split; try done.
  - intros [x H]. by apply elem_of_nil in H.
  - intros _. exists x. by left.
Qed.

(** At most one unrevoked row per index key: what the partial unique index enforces. *)
Definition unique_grants (t : rows) : Prop := NoDup (index_key <$> List.filter unrevoked t).

Lemma unrevoked_revoke_where p now t :
  sublist (index_key <$> List.filter unrevoked (revoke_where p now t)) (index_key <$> List.filter unrevoked t).
Proof.
  induction t as [|r t IH]; simpl; [constructor|]. destruct (p r); simpl.
  - destruct (unrevoked r); simpl; [by apply sublist_cons|done].
  - destruct (unrevoked r); simpl; [by apply sublist_skip|done].
Qed.
Lemma unique_revoke_where p now t : unique_grants t -> unique_grants (revoke_where p now t).
Proof. intros H. eapply sublist_NoDup; [exact H|]. apply unrevoked_revoke_where. Qed.

Lemma elem_of_revoke_where p now t r :
  r ∈ revoke_where p now t <-> exists r0, r0 ∈ t /\ r = if p r0 then set_revoked now r0 else r0.
Proof. unfold revoke_where. rewrite list_elem_of_fmap. naive_solver. Qed.

Lemma unrevoked_set_revoked now r : unrevoked (set_revoked now r) = false.
Proof. done. Qed.
Lemma live_unrevoked now r : live now r = true -> unrevoked r = true.
Proof. unfold live. by destruct (unrevoked r). Qed.
Lemma live_not_ran_out now r : live now r = true -> ran_out now r = false.
Proof.
  unfold live, ran_out. destruct (unrevoked r); simpl; [|done].
  destruct (br_expires_at r); [|done]. rewrite Z.ltb_lt, Z.leb_gt. done.
Qed.

Lemma elem_of_collect {E} (l : list (result role_binding E)) bs b :
  collect l = Ok bs -> b ∈ bs <-> Ok b ∈ l.
Proof.
  intros ->%collect_ok. rewrite list_elem_of_fmap. split; [eauto|]. by intros (? & [= ->] & ?).
Qed.
Lemma collect_is_ok {A E} (l : list (result A E)) :
  (exists bs, collect l = Ok bs) <-> forall r, r ∈ l -> is_ok r = true.
Proof.
  induction l as [|[a|e] l IH]; simpl.
  - split; [|eauto]. intros _ r Hr. by apply elem_of_nil in Hr.
  - split.
    + intros [bs H] r. rewrite elem_of_cons. intros [->|Hr]; [done|].
      apply IH; [|done]. destruct (collect l); [eauto|done].
    + intros H. destruct IH as [_ IH]. destruct IH as [bs Hbs]; [intros r Hr; apply H; by right|].
      rewrite Hbs. simpl. eauto.
  - split; [by intros [bs H]|]. intros H. by specialize (H (Err e) ltac:(by left)).
Qed.

Lemma into_binding_err r e : into_binding r = Err e -> e = InvalidScope.
Proof.
  unfold into_binding, scope_from_parts, subject_from_parts.
  repeat (case_match; simpl; try congruence).
Qed.

(** ** Theorems *)

(** Granting keeps at most one unrevoked binding per (role, subject, scope), is refused as
    already bound exactly while an unrevoked row with that key stands that the retirement of
    expired rows did not clear, and on success adds exactly the row asked for. *)
Theorem grant_unique (references : new_subject_binding -> bool) (id : uuid) (now : instant)
  (new : new_subject_binding) (t t' : rows) (r : result role_binding permissions_error)
  (Hunique : unique_grants t) (Hgrant : grant_subject references id now new t = (t', r)) :
  unique_grants t'
  /\ (r = Err AlreadyBound <->
      exists row, row ∈ t /\ unrevoked row = true /\ index_key row = index_key (new_row id now new)
                  /\ (same_grant new row && ran_out now row) = false)
  /\ (is_ok r = true -> t' = retire_expired now new t ++ [new_row id now new]).
Proof.
  revert Hgrant. unfold grant_subject. set (t1 := retire_expired now new t).
  assert (unique_grants t1) as H1 by by apply unique_revoke_where.
  assert (existsb (fun r => unrevoked r && bool_decide (index_key r = index_key (new_row id now new))) t1 = true
    <-> exists row, row ∈ t /\ unrevoked row = true /\ index_key row = index_key (new_row id now new)
                    /\ (same_grant new row && ran_out now row) = false) as Hex.
  { rewrite existsb_elem. unfold t1, retire_expired. setoid_rewrite elem_of_revoke_where. split.
    - intros (x & (r0 & Hin & ->) & Hb). destruct (same_grant new r0 && ran_out now r0) eqn:E.
      + by rewrite unrevoked_set_revoked in Hb.
      + apply andb_true_iff in Hb as [? ?%bool_decide_eq_true]. eauto 6.
    - intros (r0 & Hin & Hu & Hk & E). exists r0. split; [exists r0; by rewrite E|].
      by rewrite Hu, bool_decide_eq_true_2. }
  destruct (existsb _ t1) eqn:E; [intros [= <- <-]; split_and!; [done|naive_solver|done]|].
  destruct (negb (references new)); intros [= <- <-]; split_and!; try done.
  - rewrite <- Hex. split; discriminate.
  - unfold unique_grants. rewrite List.filter_app. simpl. rewrite fmap_app. apply NoDup_app.
    split_and!; [done| |apply NoDup_singleton].
    intros k (x & -> & Hx)%list_elem_of_fmap Hk%list_elem_of_singleton.
    apply elem_of_filter_bool in Hx as [Hx Hu]. apply not_true_iff_false in E. apply E, existsb_elem.
    exists x. split; [done|]. by rewrite Hu, bool_decide_eq_true_2.
  - rewrite <- Hex. split; [|done]. intros Herr'%into_binding_err. done.
Qed.

(** The rows that speak for a subject. *)
Definition speaks_for (members : list (uuid * uuid)) (s : subject) (r : binding_row) : Prop :=
  of_subject s r = true
  \/ exists user, s = User user /\ br_subject_type r = s!"group"
                  /\ br_subject_id r ∈ member_groups members user.

Lemma elem_of_existsb_N x l : existsb (N.eqb x) l = true <-> x ∈ l.
Proof.
  rewrite existsb_elem. split; [|intros H; exists x; by rewrite N.eqb_refl].
  by intros (y & H & ->%N.eqb_eq).
Qed.

Lemma collect_rows (cmp : binding_row -> binding_row -> comparison) p t bs :
  collect (into_binding <$> sort_by cmp (List.filter p t)) = Ok bs ->
  forall b, b ∈ bs <-> exists r, r ∈ t /\ p r = true /\ into_binding r = Ok b.
Proof.
  intros H b. rewrite (elem_of_collect _ _ _ H), list_elem_of_fmap.
  setoid_rewrite (sort_by_perm cmp). setoid_rewrite elem_of_filter_bool. naive_solver.
Qed.
Lemma collect_rows_ok (cmp : binding_row -> binding_row -> comparison) p t :
  (exists bs, collect (into_binding <$> sort_by cmp (List.filter p t)) = Ok bs)
  <-> forall r, r ∈ t -> p r = true -> is_ok (into_binding r) = true.
Proof.
  rewrite collect_is_ok. setoid_rewrite list_elem_of_fmap. setoid_rewrite (sort_by_perm cmp).
  setoid_rewrite elem_of_filter_bool. naive_solver.
Qed.

Lemma bindings_for_spec members t s bs :
  bindings_for members t s = Ok bs ->
  forall b, b ∈ bs <-> exists r, r ∈ t /\ speaks_for members s r /\ into_binding r = Ok b.
Proof.
  unfold bindings_for, bindings_of_subject. rewrite result_bind_ok. intros (own & Hown & H).
  pose proof (collect_rows _ _ _ _ Hown) as Ho. intros b. unfold speaks_for.
  destruct s as [u|g|a]; simpl in H.
  2,3: injection H as <-; rewrite (sort_by_perm binding_newest_first), Ho; naive_solver.
  revert H. rewrite result_bind_ok. intros (all & Hall & [= <-]). revert Hall.
  rewrite result_bind_ok. intros (more & Hmore & [= <-]).
  rewrite (sort_by_perm binding_newest_first), elem_of_app, Ho, (collect_rows _ _ _ _ Hmore).
  setoid_rewrite andb_true_iff. setoid_rewrite str_eqb_eq. setoid_rewrite elem_of_existsb_N. naive_solver.
Qed.

Lemma bindings_for_ok members t s :
  (exists bs, bindings_for members t s = Ok bs)
  <-> forall r, r ∈ t -> speaks_for members s r -> is_ok (into_binding r) = true.
Proof.
  unfold bindings_for, bindings_of_subject.
  pose proof (collect_rows_ok unrevoked_first (of_subject s) t) as Ho. unfold speaks_for.
  destruct (collect (into_binding <$> sort_by unrevoked_first _)) as [own|e] eqn:Eo; simpl.
  2:{ split; [by intros [? ?]|]. intros H. destruct Ho as [_ Ho]. destruct Ho; [|done].
      intros r Hr Hp. apply H; auto. }
  destruct Ho as [Ho _]. specialize (Ho ltac:(eauto)).
  destruct s as [u|g|a]; simpl; [|split; [naive_solver|eauto]..].
  set (p := fun r => str_eqb _ _ && _).
  pose proof (collect_rows_ok newest_first p t) as Hg. subst p. simpl in Hg.
  setoid_rewrite andb_true_iff in Hg. setoid_rewrite str_eqb_eq in Hg.
  setoid_rewrite elem_of_existsb_N in Hg.
  destruct (collect (into_binding <$> sort_by newest_first _)) as [more|e]; simpl.
  - split; [|eauto]. intros _ r Hr [?|(? & [= <-] & ? & ?)]; [by apply Ho|]. apply Hg; eauto.
  - split; [by intros [? ?]|]. intros H. destruct Hg as [_ Hg]. destruct Hg; [|done]. naive_solver.
Qed.

Lemma into_binding_live r b now : into_binding r = Ok b -> live now r = is_active_at b now.
Proof.
  unfold into_binding. rewrite !result_bind_ok. intros (sc & _ & H). revert H.
  rewrite result_bind_ok. by intros (su & _ & [= <-]).
Qed.

Lemma active_for_context_members now members t s ctx bs :
  active_for_context now members t s ctx = Ok bs ->
  forall b, b ∈ bs <->
    (exists r, r ∈ t /\ speaks_for members s r /\ live now r = true /\ into_binding r = Ok b)
    /\ applies_to (rb_scope b) ctx = true.
Proof.
  unfold active_for_context. rewrite result_bind_ok. intros (all & Hall & [= <-]) b.
  rewrite elem_of_filter_bool, (bindings_for_spec _ _ _ _ Hall), andb_true_iff. split.
  - intros ((r & ? & ? & ?) & ? & ?). split; [|done]. exists r. by rewrite (into_binding_live r b).
  - intros ((r & ? & ? & Hl & ?) & ?). rewrite (into_binding_live r b) in Hl by done. eauto 6.
Qed.

(** The bindings the guard resolves are exactly the rows of the subject (for a person, also of
    every group they belong to) that are unrevoked, unexpired and whose scope applies to the
    request; the resolution fails exactly when one of the subject's rows, live or not, is
    malformed. *)
Theorem active_for_context_exact (now : instant) (members : list (uuid * uuid)) (t : rows)
  (s : subject) (ctx : resource_context) :
  ((exists bs, active_for_context now members t s ctx = Ok bs)
     <-> forall r, r ∈ t -> speaks_for members s r -> is_ok (into_binding r) = true)
  /\ (forall bs, active_for_context now members t s ctx = Ok bs ->
      forall b, b ∈ bs <->
        (exists r, r ∈ t /\ speaks_for members s r /\ live now r = true /\ into_binding r = Ok b)
        /\ applies_to (rb_scope b) ctx = true).
Proof.
  unfold active_for_context. split.
  - rewrite <- bindings_for_ok. destruct (bindings_for members t s); simpl; [split; eauto|].
    split; by intros [? ?].
  - intros bs. apply active_for_context_members.
Qed.

Section RevocationProofs.
Context (role_key_of : uuid -> option str) (members : list (uuid * uuid)).

Lemma find_unrevoked_None id t :
  find_unrevoked role_key_of id t = None ->
  forall r, r ∈ t -> br_id r = id -> unrevoked r = true -> privileged role_key_of r = false.
Proof.
  intros H r Hr%list_elem_of_In <- Hu. eapply find_none in H; [|exact Hr]. simpl in H.
  rewrite N.eqb_refl, Hu in H. simpl in H. unfold privileged. by destruct (role_key_of _).
Qed.
Lemma find_unrevoked_Some id t b :
  find_unrevoked role_key_of id t = Some b -> b ∈ t /\ br_id b = id /\ unrevoked b = true.
Proof.
  intros [Hin H]%find_some. apply andb_true_iff in H as [[?%N.eqb_eq ?]%andb_true_iff _].
  by rewrite list_elem_of_In.
Qed.
Lemma elem_of_others id now p t r :
  r ∈ others role_key_of id now p t
  <-> r ∈ t /\ br_id r <> id /\ live now r = true /\ privileged role_key_of r = true /\ p r = true.
Proof.
  unfold others. rewrite elem_of_filter_bool, !andb_true_iff, negb_true_iff, N.eqb_neq. tauto.
Qed.

(** A row other than the revoked one stays as it is. *)
Lemma revoke_keeps id now t r : r ∈ t -> br_id r <> id -> r ∈ fst (revoke id now t).
Proof.
  intros Hr Hne. unfold revoke; simpl. apply elem_of_revoke_where. exists r. split; [done|].
  by rewrite (proj2 (N.eqb_neq _ _) Hne).
Qed.

(** C22. A revocation that the check lets through never leaves a scope class (an organization, or
    the platform) without a live binding it had of a role with the key [owner] or [administrator],
    and never takes the last such binding of its own away from a caller who revokes a personal
    binding; a refused one changes nothing.  It is the key that counts, as in the statement, whoever
    made the role: see [customer_role_stands_for_the_owner] below. *)
Theorem revocation_keeps_privileged (id caller : uuid) (now : instant) (t t' : rows)
  (refusal : option invariant_refusal) (Hids : NoDup (br_id <$> t))
  (Hrun : guarded_revoke role_key_of members id caller now t = (t', refusal)) :
  (forall class, (exists r, r ∈ t /\ live now r = true /\ privileged role_key_of r = true
                            /\ same_class class r = true) ->
     exists r, r ∈ t' /\ live now r = true /\ privileged role_key_of r = true
               /\ same_class class r = true)
  /\ (forall b, b ∈ t -> br_id b = id -> live now b = true -> privileged role_key_of b = true ->
      of_subject (User caller) b = true ->
      exists r, r ∈ t' /\ live now r = true /\ privileged role_key_of r = true
                /\ held_by members caller r = true)
  /\ (refusal <> None -> t' = t).
Proof.
  assert (forall b, of_subject (User caller) b = true -> held_by members caller b = true) as Hown
    by (intros b Hb; unfold held_by; unfold of_subject in Hb; cbn [subject_type subject_id] in Hb; by rewrite Hb).
  revert Hrun. unfold guarded_revoke. destruct (check_binding_revocation _ _ _ _ _ _) as [x|] eqn:Hc;
    intros [= <- <-]; [split_and!; [done|eauto 6|done]|].
  unfold check_binding_revocation in Hc. destruct (find_unrevoked role_key_of id t) as [b|] eqn:Hf.
  2:{ pose proof (find_unrevoked_None id t Hf) as Hn. split_and!; [| |done].
      - intros class (r & Hr & Hl & Hp & Hcl). exists r. split_and!; try done.
        apply revoke_keeps; [done|]. intros Hid.
        by rewrite (Hn r Hr Hid (live_unrevoked _ _ Hl)) in Hp.
      - intros r Hr Hid Hl Hp _. by rewrite (Hn r Hr Hid (live_unrevoked _ _ Hl)) in Hp. }
  apply find_unrevoked_Some in Hf as (Hb & Hid & Hu).
  assert (forall r, r ∈ t -> br_id r = id -> r = b) as Hsame
    by (intros r Hr Hi; apply (NoDup_key_inj br_id t); [done..|congruence]).
  destruct (ran_out now b || negb (privileged role_key_of b)) eqn:E.
  { assert (forall r, r ∈ t -> live now r = true -> privileged role_key_of r = true -> br_id r <> id) as Hne.
    { intros r Hr Hl Hp Hi. rewrite (Hsame r Hr Hi) in Hl, Hp.
      by rewrite (live_not_ran_out _ _ Hl), Hp in E. }
    split_and!; [| |done].
    - intros class (r & Hr & Hl & Hp & Hcl). exists r. split_and!; try done. apply revoke_keeps; eauto.
    - intros r Hr Hi Hl Hp _. by destruct (Hne r Hr Hl Hp). }
  destruct (_ && _ && _) eqn:Eown in Hc; [done|].
  destruct (length (others _ _ _ (same_class _) _) =? 0)%nat eqn:Ecl in Hc; [done|].
  apply length_pos in Ecl as [w Hw]. apply elem_of_others in Hw as (Hw & Hwid & Hwl & Hwp & Hwc).
  split_and!; [| |done].
  - intros class (r & Hr & Hl & Hp & Hcl). destruct (decide (br_id r = id)) as [Hi|Hi].
    + exists w. split_and!; [by apply revoke_keeps|done..|]. rewrite (Hsame r Hr Hi) in Hcl.
      unfold same_class in Hcl. destruct class as [o|].
      * apply bool_decide_eq_true in Hcl. by rewrite Hcl in Hwc.
      * apply andb_true_iff in Hcl as [_ Hcl]. destruct (br_organization_id b); [done|]. done.
    + exists r. split_and!; try done. by apply revoke_keeps.
  - intros r Hr Hi Hl Hp Ho. rewrite (Hsame r Hr Hi) in Ho. unfold of_subject in Ho.
    cbn [subject_type subject_id] in Ho. rewrite Ho in Eown. cbn [andb] in Eown. apply length_pos in Eown as [v Hv].
    apply elem_of_others in Hv as (? & ? & ? & ? & ?). exists v. split_and!; try done. by apply revoke_keeps.
Qed.
End RevocationProofs.

(** ** Witnesses *)

Definition owner_row (id account : uuid) : binding_row :=
  BindingRow id 1 s!"user" account (Some account) s!"organization" (Some 7%N) None None None None None None 0.
Definition owner_key (r : uuid) : option str := if (r =? 1)%N then Some s!"owner" else None.

Lemma grant_unique_witness :
  exists t', unique_grants t'.
Proof.
  set (new := NewSubjectBinding 1 (User 5) (Organization 7) None None).
  assert (exists t' r, grant_subject (fun _ => true) 9 0 new [owner_row 1 2] = (t', r)) as (t' & r & H)
    by (do 2 eexists; reflexivity).
  exists t'. apply (grant_unique (fun _ => true) 9 0 new [owner_row 1 2] t' r); [|exact H].
  apply NoDup_singleton.
Defined.

Lemma revocation_keeps_privileged_witness :
  exists r, r ∈ fst (guarded_revoke owner_key [] 1 2 0 [owner_row 1 2; owner_row 2 2])
            /\ live 0 r = true /\ privileged owner_key r = true /\ held_by [] 2 r = true.
Proof.
  refine (proj1 (proj2 (revocation_keeps_privileged owner_key [] 1 2 0 [owner_row 1 2; owner_row 2 2]
    _ None _ eq_refl)) (owner_row 1 2) _ eq_refl eq_refl eq_refl eq_refl).
  - repeat constructor; set_solver.
  - by left.
Defined.

(** The check and the update are two statements, so the guarantee does not survive interleaving:
    when two administrators revoke each other's binding, both checks can pass before either update
    runs, and no live owner binding is left. *)
Theorem revocation_race :
  let t := [owner_row 1 2; owner_row 2 3] in
  check_binding_revocation owner_key [] 1 3 0 t = None
  /\ check_binding_revocation owner_key [] 2 2 0 t = None
  /\ forall r, r ∈ fst (revoke 2 0 (fst (revoke 1 0 t))) -> live 0 r = false.
Proof.
  cbv zeta. split_and!; [reflexivity|reflexivity|].
  intros r Hr. vm_compute in Hr. repeat (apply elem_of_cons in Hr as [->|Hr]; [reflexivity|]).
  by apply elem_of_nil in Hr.
Qed.

(** The comment on the two keys says that a role created by a customer does not count.  The statements
    compare keys alone, keys are unique only within an organization, and nothing reserves the two
    ([Hierarchy.customer_role_may_be_named_owner]): the built-in owner's last binding is let go when
    somebody holds a role of the organization that was given the same key and no permission. *)
Definition named_owner (r : uuid) : option str := if (r =? 1)%N || (r =? 2)%N then Some s!"owner" else None.
Definition impostor_row (id account : uuid) : binding_row :=
  BindingRow id 2 s!"user" account (Some account) s!"organization" (Some 7%N) None None None None None None 0.
Theorem customer_role_stands_for_the_owner :
  let t := [owner_row 1 2; impostor_row 2 3] in
  check_binding_revocation named_owner [] 1 3 0 t = None
  /\ forall r, r ∈ fst (guarded_revoke named_owner [] 1 3 0 t) -> live 0 r = true -> br_role_id r = 2%N.
Proof.
  cbv zeta. split; [reflexivity|]. intros r Hr Hl. vm_compute in Hr.
  repeat (apply elem_of_cons in Hr as [->|Hr]; [first [reflexivity|discriminate Hl]|]). by apply elem_of_nil in Hr.
Qed.
