(* ===== verification/Catalogue.v ===== *)
(** * The permission catalogue: [crates/permissions/src/catalogue.rs]

    The table of every permission the platform knows, in the order of the source, and the look-ups
    over it. *)

From S2P Require Import Prelude Roles.

Record permission_def := PermissionDef { pd_key : str; pd_category : str; pd_description : str }.

Definition content_permissions : list permission_def := [
  PermissionDef s!"content.pages.read" s!"content"
    s!"Read pages and their revisions";
  PermissionDef s!"content.pages.create" s!"content"
    s!"Create pages";
  PermissionDef s!"content.pages.update" s!"content"
    s!"Edit page content";
  PermissionDef s!"content.pages.delete" s!"content"
    s!"Delete pages";
  PermissionDef s!"content.pages.publish" s!"content"
    s!"Publish or unpublish pages";
  PermissionDef s!"content.pages.schedule" s!"content"
    s!"Schedule publication";
  PermissionDef s!"content.pages.restore" s!"content"
    s!"Restore an earlier revision" ].

Definition media_permissions : list permission_def := [
  PermissionDef s!"media.read" s!"media"
    s!"Read the media library";
  PermissionDef s!"media.upload" s!"media"
    s!"Upload files";
  PermissionDef s!"media.update" s!"media"
    s!"Edit media metadata";
  PermissionDef s!"media.delete" s!"media"
    s!"Delete files";
  PermissionDef s!"media.manage" s!"media"
    s!"Manage folders and storage settings";
  PermissionDef s!"media.settings.manage" s!"media"
    s!"Change transformation presets, storage and retention settings";
  PermissionDef s!"media.share" s!"media"
    s!"Create public share links for files";
  PermissionDef s!"media.scan.manage" s!"media"
    s!"Configure scanning and release quarantined files" ].

Definition ai_permissions : list permission_def := [
  PermissionDef s!"ai.providers.read" s!"ai"
    s!"Read AI providers and the model registry";
  PermissionDef s!"ai.providers.manage" s!"ai"
    s!"Connect and configure AI providers";
  PermissionDef s!"ai.chat" s!"ai"
    s!"Use the platform's AI chat" ].

Definition workflows_permissions : list permission_def := [
  PermissionDef s!"workflows.read" s!"workflows"
    s!"Read workflows and their run history";
  PermissionDef s!"workflows.manage" s!"workflows"
    s!"Create, edit and remove workflows";
  PermissionDef s!"workflows.run" s!"workflows"
    s!"Start and cancel workflow runs" ].

Definition users_permissions : list permission_def := [
  PermissionDef s!"users.read" s!"users"
    s!"Read accounts";
  PermissionDef s!"users.create" s!"users"
    s!"Invite and create accounts";
  PermissionDef s!"users.update" s!"users"
    s!"Edit accounts";
  PermissionDef s!"users.delete" s!"users"
    s!"Delete accounts";
  PermissionDef s!"users.impersonate" s!"users"
    s!"Sign in as another account" ].

Definition plugins_permissions : list permission_def := [
  PermissionDef s!"plugins.read" s!"plugins"
    s!"Browse installed plugins";
  PermissionDef s!"plugins.install" s!"plugins"
    s!"Install plugins";
  PermissionDef s!"plugins.update" s!"plugins"
    s!"Update plugins";
  PermissionDef s!"plugins.disable" s!"plugins"
    s!"Enable or disable plugins";
  PermissionDef s!"plugins.uninstall" s!"plugins"
    s!"Remove plugins" ].

Definition deployment_permissions : list permission_def := [
  PermissionDef s!"deployment.read" s!"deployment"
    s!"Read deployment state and history";
  PermissionDef s!"deployment.preview" s!"deployment"
    s!"Create preview environments";
  PermissionDef s!"deployment.deploy" s!"deployment"
    s!"Deploy to an environment";
  PermissionDef s!"deployment.rollback" s!"deployment"
    s!"Roll a deployment back" ].

Definition iam_permissions : list permission_def := [
  PermissionDef s!"iam.permissions.read" s!"iam"
    s!"Read the permission catalogue";
  PermissionDef s!"iam.roles.read" s!"iam"
    s!"Read roles and their permission sets";
  PermissionDef s!"iam.roles.manage" s!"iam"
    s!"Create roles and change their permission sets";
  PermissionDef s!"iam.bindings.read" s!"iam"
    s!"Read role assignments";
  PermissionDef s!"iam.bindings.manage" s!"iam"
    s!"Assign and revoke roles";
  PermissionDef s!"iam.groups.read" s!"iam"
    s!"Read groups and their members";
  PermissionDef s!"iam.groups.manage" s!"iam"
    s!"Create groups and change their membership";
  PermissionDef s!"iam.serviceaccounts.read" s!"iam"
    s!"Read machine identities and their keys";
  PermissionDef s!"iam.serviceaccounts.manage" s!"iam"
    s!"Create service accounts and issue or revoke their keys";
  PermissionDef s!"iam.policies.read" s!"iam"
    s!"Read ABAC policies and their versions";
  PermissionDef s!"iam.policies.manage" s!"iam"
    s!"Create and change ABAC policies";
  PermissionDef s!"iam.simulate" s!"iam"
    s!"Ask the permission simulator what a subject may do";
  PermissionDef s!"iam.security.read" s!"iam"
    s!"Read the password, lockout, IP and session policy";
  PermissionDef s!"iam.security.manage" s!"iam"
    s!"Change the password, lockout, IP and session policy";
  PermissionDef s!"iam.sessions.read" s!"iam"
    s!"Read active sessions";
  PermissionDef s!"iam.sessions.revoke" s!"iam"
    s!"End a signed-in session";
  PermissionDef s!"iam.devices.read" s!"iam"
    s!"Read known devices";
  PermissionDef s!"iam.devices.manage" s!"iam"
    s!"Set a device's trust window and forget devices";
  PermissionDef s!"iam.providers.read" s!"iam"
    s!"Read the connected sign-in providers";
  PermissionDef s!"iam.providers.manage" s!"iam"
    s!"Connect and change sign-in providers";
  PermissionDef s!"iam.approvals.read" s!"iam"
    s!"Read permission requests";
  PermissionDef s!"iam.approvals.decide" s!"iam"
    s!"Approve or reject permission requests";
  PermissionDef s!"iam.provisioning.manage" s!"iam"
    s!"Issue provisioning tokens and run the sync" ].

Definition audit_permissions : list permission_def := [
  PermissionDef s!"audit.read" s!"audit"
    s!"Read the audit trail" ].

Definition tenancy_permissions : list permission_def := [
  PermissionDef s!"organizations.read" s!"tenancy"
    s!"Read organizations";
  PermissionDef s!"organizations.manage" s!"tenancy"
    s!"Create and edit organizations";
  PermissionDef s!"sites.read" s!"tenancy"
    s!"Read sites and their domains";
  PermissionDef s!"sites.create" s!"tenancy"
    s!"Create sites";
  PermissionDef s!"sites.update" s!"tenancy"
    s!"Edit sites";
  PermissionDef s!"sites.delete" s!"tenancy"
    s!"Delete sites";
  PermissionDef s!"domains.manage" s!"tenancy"
    s!"Add, remove and promote site domains" ].

Definition webhooks_permissions : list permission_def := [
  PermissionDef s!"webhooks.read" s!"webhooks"
    s!"Read webhook endpoints and their delivery history";
  PermissionDef s!"webhooks.manage" s!"webhooks"
    s!"Connect, change, test and remove webhook endpoints" ].

Definition events_permissions : list permission_def := [
  PermissionDef s!"events.read" s!"events"
    s!"Read the platform's event feed" ].

Definition security_permissions : list permission_def := [
  PermissionDef s!"security.read" s!"security"
    s!"Read the security posture and the findings list";
  PermissionDef s!"security.scan" s!"security"
    s!"Re-run the security checks and ingest a dependency report";
  PermissionDef s!"security.manage" s!"security"
    s!"Acknowledge, ignore and resolve security findings";
  PermissionDef s!"security.ip.manage" s!"security"
    s!"Change the IP allow and deny lists" ].

Definition developer_permissions : list permission_def := [
  PermissionDef s!"developer.read" s!"developer"
    s!"Read the developer portal overview and the scope catalogue";
  PermissionDef s!"developer.keys.read" s!"developer"
    s!"Read API keys, their scopes and their usage";
  PermissionDef s!"developer.keys.manage" s!"developer"
    s!"Create, rotate and revoke API keys";
  PermissionDef s!"developer.oauth.read" s!"developer"
    s!"Read OAuth apps and their authorizations";
  PermissionDef s!"developer.oauth.manage" s!"developer"
    s!"Register OAuth apps, rotate their secrets and archive them";
  PermissionDef s!"developer.logs.read" s!"developer"
    s!"Read the API request log" ].

Definition backup_permissions : list permission_def := [
  PermissionDef s!"backup.read" s!"backup"
    s!"Read backups, their parts, manifests and status";
  PermissionDef s!"backup.create" s!"backup"
    s!"Run a backup and verify an existing one";
  PermissionDef s!"backup.restore" s!"backup"
    s!"Restore the platform from a backup";
  PermissionDef s!"backup.manage" s!"backup"
    s!"Manage backup schedules, retention and destination settings" ].

Definition health_permissions : list permission_def := [
  PermissionDef s!"health.read" s!"health"
    s!"Read system health, metrics and incidents";
  PermissionDef s!"health.manage" s!"health"
    s!"Run health checks, set thresholds and acknowledge incidents" ].

Definition notifications_permissions : list permission_def := [
  PermissionDef s!"notifications.read" s!"notifications"
    s!"Read and clear your own notifications";
  PermissionDef s!"notifications.send" s!"notifications"
    s!"Send notifications to other accounts";
  PermissionDef s!"notifications.manage" s!"notifications"
    s!"Change your notification channels and preferences";
  PermissionDef s!"notifications.admin" s!"notifications"
    s!"Read the organization-wide delivery outbox and manage routing rules" ].

Definition search_permissions : list permission_def := [
  PermissionDef s!"search.read" s!"search"
    s!"Search the platform's indexed content";
  PermissionDef s!"search.manage" s!"search"
    s!"Rebuild and configure the search index" ].

Definition analytics_permissions : list permission_def := [
  PermissionDef s!"analytics.read" s!"analytics"
    s!"Read analytics reports, settings and the tracking snippet";
  PermissionDef s!"analytics.export" s!"analytics"
    s!"Export analytics reports";
  PermissionDef s!"analytics.goals.manage" s!"analytics"
    s!"Create and edit conversion goals";
  PermissionDef s!"analytics.settings.manage" s!"analytics"
    s!"Change tracking, privacy and retention settings" ].

Definition CATALOGUE : list permission_def :=
  content_permissions ++ media_permissions ++ ai_permissions ++ workflows_permissions ++ users_permissions ++ plugins_permissions ++ deployment_permissions ++ iam_permissions ++ audit_permissions ++ tenancy_permissions ++ webhooks_permissions ++ events_permissions ++ security_permissions ++ developer_permissions ++ backup_permissions ++ health_permissions ++ notifications_permissions ++ search_permissions ++ analytics_permissions.

Definition permission_get (key : str) : option permission_def :=
  List.find (fun entry => str_eqb (pd_key entry) key) CATALOGUE.
Definition is_known (key : str) : bool := is_some (permission_get key).
Definition catalogue_keys : list str := pd_key <$> CATALOGUE.
Definition expect_known (key : str) : result permission_def permissions_error :=
  ok_or (permission_get key) (UnknownPermission key).

(** ** Facts *)

(** A catalogue key: lowercase letters, digits and dots, at least two dotted parts. *)
Definition key_shaped (key : str) : bool :=
  (2 <=? length (split_on c!"." key))%nat
  && forallb (fun c => is_ascii_lowercase c || is_ascii_digit c || (c =? c!".")%N) key.

Fixpoint distinct (l : list str) : bool :=
  match l with [] => true | x :: l' => negb (existsb (str_eqb x) l') && distinct l' end.

Lemma distinct_NoDup l : distinct l = true -> NoDup l.
Proof.
  induction l as [|x l IH]; simpl; [constructor|]. intros [Hx Hl]%andb_true_iff. constructor; [|auto].
  intros Hin. apply negb_true_iff, not_true_iff_false in Hx. apply Hx, existsb_exists.
  exists x. split; [by apply list_elem_of_In|apply str_eqb_refl].
Qed.

Lemma catalogue_keys_NoDup : NoDup catalogue_keys.
Proof. apply distinct_NoDup. vm_compute. reflexivity. Qed.

Lemma is_known_keys key : is_known key = true <-> key ∈ catalogue_keys.
Proof.
  unfold is_known, permission_get, catalogue_keys. rewrite list_elem_of_fmap.
  destruct (List.find _ CATALOGUE) as [d|] eqn:E; simpl.
  - apply find_some in E as [Hin Hk%str_eqb_eq]. split; [|done]. intros _.
    exists d. split; [done|by apply list_elem_of_In].
  - split; [done|]. intros (d & -> & Hin%list_elem_of_In). eapply find_none in E; [|exact Hin].
    by rewrite str_eqb_refl in E.
Qed.

(** The catalogue names no permission twice, every key is a lowercase dotted name of at least
    two parts with a category and a description, and a look-up answers exactly the entry that
    carries the key. *)
Theorem catalogue_sound :
  NoDup catalogue_keys
  /\ Forall (fun d => key_shaped (pd_key d) = true /\ trim (pd_category d) <> []
                      /\ trim (pd_description d) <> []) CATALOGUE
  /\ (forall key d, permission_get key = Some d <-> d ∈ CATALOGUE /\ pd_key d = key).
Proof.
  split; [exact catalogue_keys_NoDup|split].
  - assert (forallb (fun d => key_shaped (pd_key d) && negb (str_eqb (trim (pd_category d)) [])
      && negb (str_eqb (trim (pd_description d)) [])) CATALOGUE = true) as H by (vm_compute; reflexivity).
    apply Forall_forall. intros d Hd%list_elem_of_In. rewrite forallb_forall in H.
    specialize (H d Hd). apply andb_true_iff in H as [[? H1]%andb_true_iff H2].
    apply negb_true_iff, str_eqb_neq in H1, H2. done.
  - intros key d. unfold permission_get. split.
    + intros [Hin Hk%str_eqb_eq]%find_some. by rewrite list_elem_of_In.
    + intros [Hin <-]. destruct (List.find _ CATALOGUE) as [d'|] eqn:E.
      * apply find_some in E as [Hin' Hk%str_eqb_eq]. f_equal. apply list_elem_of_In in Hin'.
        by apply (NoDup_key_inj pd_key CATALOGUE); [exact catalogue_keys_NoDup|..].
      * apply list_elem_of_In in Hin. eapply find_none in E; [|exact Hin]. by rewrite str_eqb_refl in E.
Qed.
