(* ===== verification/Seed.v ===== *)
(** * Seeding the platform's own rows: [crates/permissions/src/seed.rs]

    The base roles, their reconciliation with the catalogue on every boot, and the guarantee that an
    installation with accounts has an owner. *)

From S2P Require Import Prelude Roles Catalogue Bindings.

Inductive base_permissions := All | PermissionList (keys : list str).
Record base_role := BaseRole {
  base_key : str; base_name : str; base_priority : Z; base_description : str;
  base_role_permissions : base_permissions
}.
Definition base_permission_keys (p : base_permissions) : list str :=
  match p with All => catalogue_keys | PermissionList l => l end.

Definition owner_role : base_role := BaseRole s!"owner" s!"Owner" 1000
  s!"Full control of the platform, including security and billing." All.

Definition administrator_role : base_role := BaseRole s!"administrator" s!"Administrator" 900
  s!"Runs the platform day to day." All.

Definition manager_role : base_role := BaseRole s!"manager" s!"Manager" 700
  s!"Manages content, media and the team that produces them." (PermissionList [
    s!"content.pages.read";
    s!"content.pages.create";
    s!"content.pages.update";
    s!"content.pages.delete";
    s!"content.pages.publish";
    s!"content.pages.schedule";
    s!"content.pages.restore";
    s!"media.read";
    s!"media.upload";
    s!"media.update";
    s!"media.delete";
    s!"media.manage";
    s!"media.settings.manage";
    s!"media.scan.manage";
    s!"ai.providers.read";
    s!"ai.chat";
    s!"workflows.read";
    s!"workflows.manage";
    s!"workflows.run";
    s!"users.read";
    s!"users.update";
    s!"iam.permissions.read";
    s!"iam.roles.read";
    s!"iam.bindings.read";
    s!"plugins.read";
    s!"deployment.read";
    s!"deployment.preview";
    s!"audit.read";
    s!"organizations.read";
    s!"sites.read";
    s!"sites.create";
    s!"sites.update";
    s!"domains.manage";
    s!"webhooks.read";
    s!"events.read";
    s!"search.read";
    s!"search.manage";
    s!"analytics.read";
    s!"analytics.export";
    s!"analytics.goals.manage";
    s!"analytics.settings.manage";
    s!"notifications.read";
    s!"notifications.send";
    s!"notifications.manage";
    s!"notifications.admin" ]).

Definition moderator_role : base_role := BaseRole s!"moderator" s!"Moderator" 500
  s!"Keeps content healthy and can publish and restore." (PermissionList [
    s!"content.pages.read";
    s!"content.pages.update";
    s!"content.pages.publish";
    s!"content.pages.schedule";
    s!"content.pages.restore";
    s!"media.read";
    s!"media.update";
    s!"ai.chat";
    s!"workflows.read";
    s!"workflows.run";
    s!"users.read";
    s!"audit.read";
    s!"sites.read";
    s!"search.read";
    s!"analytics.read";
    s!"notifications.read" ]).

Definition editor_role : base_role := BaseRole s!"editor" s!"Editor" 300
  s!"Writes and publishes content." (PermissionList [
    s!"content.pages.read";
    s!"content.pages.create";
    s!"content.pages.update";
    s!"content.pages.publish";
    s!"content.pages.schedule";
    s!"media.read";
    s!"media.upload";
    s!"media.update";
    s!"ai.chat";
    s!"workflows.read";
    s!"sites.read";
    s!"search.read";
    s!"analytics.read";
    s!"notifications.read" ]).

Definition member_role : base_role := BaseRole s!"member" s!"Member" 100
  s!"Reads content and media." (PermissionList [
    s!"content.pages.read";
    s!"media.read";
    s!"search.read";
    s!"notifications.read" ]).

Definition BASE_ROLES : list base_role :=
  [owner_role; administrator_role; manager_role; moderator_role; editor_role; member_role].

(** ** Reconciling the base roles

    The platform roles by key, each with its permission entries. *)
Abbreviation entries := (gmap str entry_effect).
Abbreviation platform_roles := (gmap str entries).

(** [insert .. on conflict do nothing]. *)
Definition add_entry (m : entries) (key : str) (e : entry_effect) : entries :=
  match m !! key with Some _ => m | None => <[key := e]> m end.
(** [insert .. on conflict do update .. where effect <> 'allow']: the entry is allow afterwards, and
    the row counts as changed unless it already was. *)
Definition ensure_allow_entry (m : entries) (key : str) : entries * bool :=
  match m !! key with
  | Some Allow => (m, false)
  | _ => (<[key := Allow]> m, true)
  end.
Definition prune_entries (m : entries) (keep : list str) : entries :=
  filter (fun kv => kv.1 ∈ keep) m.

Definition ensure_all (m : entries) (keys : list str) : entries * bool :=
  fold_left (fun acc key => let '(m', c) := ensure_allow_entry (fst acc) key in (m', snd acc || c))
    keys (m, false).

(** One iteration of the loop: the new table, whether the role was created, whether it gained. *)
Definition seed_base_role (db : platform_roles) (b : base_role)
  : result (platform_roles * bool * bool) permissions_error :=
  let keys := base_permission_keys (base_role_permissions b) in
  let? _ := collect (expect_known <$> keys) in
  let '(m, created) :=
    match db !! base_key b with
    | Some existing => (existing, false)
    | None => (fold_left (fun m key => add_entry m key Allow) keys ∅, true)
    end in
  let '(m', gained) := ensure_all m keys in
  Ok (<[base_key b := prune_entries m' keys]> db, created, gained).

Fixpoint seed_roles (db : platform_roles) (created : nat) (owner_gained : bool) (l : list base_role)
  : result (platform_roles * nat * bool) permissions_error :=
  match l with
  | [] => Ok (db, created, owner_gained)
  | b :: l' =>
      let? r := seed_base_role db b in
      let '(db', c, g) := r in
      seed_roles db' (if c then S created else created)
        (if str_eqb (base_key b) s!"owner" then owner_gained || g else owner_gained) l'
  end.
Definition seed_base_roles (db : platform_roles) : result (platform_roles * nat * bool) permissions_error :=
  seed_roles db 0 false BASE_ROLES.

(** ** The owner guarantee ([bind_owner], [ensure_owner_binding])

    [owner] is the platform Owner role, [earliest] the earliest active account. *)
Definition owner_binding (owner user : uuid) : new_subject_binding :=
  NewSubjectBinding owner (User user) Global None None.
Definition bind_owner (references : new_subject_binding -> bool) (owner id user : uuid) (now : instant)
  (t : rows) : rows * result (option uuid) permissions_error :=
  let '(t', r) := grant_if_missing references id now (owner_binding owner user) t in
  (t', match r with Ok b => Ok (rb_id <$> b) | Err e => Err e end).
Definition ensure_owner_binding (references : new_subject_binding -> bool) (owner id : uuid)
  (earliest : option uuid) (now : instant) (t : rows) : rows * result (option uuid) permissions_error :=
  if existsb (fun r => (br_role_id r =? owner)%N && live now r) t then (t, Ok None)
  else match earliest with
       | None => (t, Ok None)
       | Some user =>
           let '(t', r) := bind_owner references owner id user now t in
           (t', match r with Ok _ => Ok (Some user) | Err e => Err e end)
       end.

(** ** Lemmas *)

(** The entries a base role ends with: allow for each declared key, nothing else. *)
Definition allow_map (keys : list str) : entries := list_to_map ((fun k => (k, Allow)) <$> keys).

Lemma allow_map_lookup keys k :
  allow_map keys !! k = if decide (k ∈ keys) then Some Allow else None.
Proof.
  induction keys as [|x keys IH]; [done|]. unfold allow_map in *.
  rewrite fmap_cons, list_to_map_cons, lookup_insert, IH. repeat case_decide; set_solver.
Qed.

Lemma ensure_allow_entry_eq m key :
  ensure_allow_entry m key
  = if decide (m !! key = Some Allow) then (m, false) else (<[key := Allow]> m, true).
Proof. unfold ensure_allow_entry. destruct (m !! key) as [[]|]; by case_decide. Qed.

Lemma ensure_all_spec m keys :
  (forall k, fst (ensure_all m keys) !! k = if decide (k ∈ keys) then Some Allow else m !! k)
  /\ (snd (ensure_all m keys) = false <-> forall k, k ∈ keys -> m !! k = Some Allow).
Proof.
  unfold ensure_all. enough (forall m0 c, 
    let r := fold_left (fun acc key => let '(m', c) := ensure_allow_entry (fst acc) key in (m', snd acc || c))
      keys (m0, c) in
    (forall k, fst r !! k = if decide (k ∈ keys) then Some Allow else m0 !! k)
    /\ (snd r = false <-> c = false /\ forall k, k ∈ keys -> m0 !! k = Some Allow)) as H.
  { destruct (H m false) as [H1 H2]. split; [done|]. rewrite H2. naive_solver. }
  induction keys as [|x keys IH]; intros m0 c; simpl.
  - split; [done|]. split; [|naive_solver]. intros ->. split; [done|]. intros k Hk. by apply elem_of_nil in Hk.
  - rewrite ensure_allow_entry_eq.
    case_decide as Hx.
    + destruct (IH m0 (c || false)) as [H1 H2]. cbv zeta in *. split.
      * intros k. rewrite H1. repeat case_decide; set_solver.
      * rewrite H2, orb_false_r. setoid_rewrite elem_of_cons. naive_solver.
    + destruct (IH (<[x := Allow]> m0) (c || true)) as [H1 H2]. cbv zeta in *. split.
      * intros k. rewrite H1, lookup_insert. repeat case_decide; set_solver.
      * rewrite H2, orb_true_r. split; [by intros [? _]|]. intros [_ H]. destruct Hx. apply H. by left.
Qed.

Lemma prune_ensured m keys :
  prune_entries (fst (ensure_all m keys)) keys = allow_map keys.
Proof.
  apply map_eq. intros k. rewrite allow_map_lookup. unfold prune_entries.
  destruct (ensure_all_spec m keys) as [H _]. specialize (H k).
  case_decide as Hk; [apply map_lookup_filter_Some; by rewrite H|].
  apply map_lookup_filter_None. right. intros e _. done.
Qed.

Lemma known_keys_collect keys :
  Forall (fun k => is_known k = true) keys -> exists l, collect (expect_known <$> keys) = Ok l.
Proof.
  induction 1 as [|k keys Hk _ [l IH]]; [by exists []|].
  assert (exists d, expect_known k = Ok d) as [d Hd].
  { unfold expect_known, is_known in *. destruct (permission_get k); [simpl; eauto|done]. }
  rewrite fmap_cons. cbn [collect]. rewrite Hd. cbn [result_bind]. rewrite IH. simpl. eauto.
Qed.

Lemma base_roles_known :
  Forall (fun b => Forall (fun k => is_known k = true) (base_permission_keys (base_role_permissions b))) BASE_ROLES.
Proof.
  assert (forallb (fun b => forallb is_known (base_permission_keys (base_role_permissions b))) BASE_ROLES = true)
    as H by (vm_compute; reflexivity).
  apply Forall_forall. intros b Hb%list_elem_of_In. rewrite forallb_forall in H. specialize (H b Hb).
  apply Forall_forall. intros k Hk%list_elem_of_In. rewrite forallb_forall in H. auto.
Qed.
Lemma base_roles_NoDup : NoDup (base_key <$> BASE_ROLES).
Proof. apply distinct_NoDup. vm_compute. reflexivity. Qed.

(** The table after seeding a list of base roles. *)
Definition seeded (db : platform_roles) (l : list base_role) : platform_roles :=
  fold_left (fun db b => <[base_key b := allow_map (base_permission_keys (base_role_permissions b))]> db) l db.

Lemma seed_base_role_ok db b :
  Forall (fun k => is_known k = true) (base_permission_keys (base_role_permissions b)) ->
  exists created gained,
    seed_base_role db b = Ok (<[base_key b := allow_map (base_permission_keys (base_role_permissions b))]> db,
                              created, gained)
    /\ (created = false <-> is_Some (db !! base_key b))
    /\ (db !! base_key b = Some (allow_map (base_permission_keys (base_role_permissions b))) -> gained = false).
Proof.
  intros Hk. destruct (known_keys_collect _ Hk) as [l Hl]. unfold seed_base_role. rewrite Hl. simpl.
  set (keys := base_permission_keys _).
  destruct (db !! base_key b) as [m|] eqn:E;
    match goal with |- context [ensure_all ?m0 keys] =>
      destruct (ensure_all m0 keys) as [m' g] eqn:Em;
      pose proof (prune_ensured m0 keys) as Hp; destruct (ensure_all_spec m0 keys) as [_ Hg] end;
    rewrite Em in Hp, Hg; simpl in *; rewrite Hp; do 2 eexists; split_and!; try done.
  - intros [= ->]. apply Hg. intros k Hin. rewrite allow_map_lookup. by rewrite decide_True.
Qed.

Lemma seeded_lookup db l k :
  NoDup (base_key <$> l) ->
  (forall b, b ∈ l -> seeded db l !! base_key b = Some (allow_map (base_permission_keys (base_role_permissions b))))
  /\ (k ∉ base_key <$> l -> seeded db l !! k = db !! k).
Proof.
  unfold seeded. revert db. induction l as [|b l IH]; intros db; simpl.
  - intros _. split; [|done]. intros b Hb. by apply elem_of_nil in Hb.
  - intros [Hb Hl]%NoDup_cons. destruct (IH (<[base_key b := allow_map (base_permission_keys (base_role_permissions b))]> db) Hl)
      as [H1 H2]. split.
    + intros x [->|Hx]%elem_of_cons; [|by apply H1].
      clear H1 H2 IH. revert Hb. 
      set (v := allow_map _).
      enough (forall d, base_key b ∉ (base_key <$> l) -> d !! base_key b = Some v ->
        fold_left (fun db b => <[base_key b := allow_map (base_permission_keys (base_role_permissions b))]> db) l d
          !! base_key b = Some v) as H by (intros; apply H; [done|apply lookup_insert_eq]).
      clear. induction l as [|y l IH]; intros d; simpl; [done|]. rewrite not_elem_of_cons. intros [Hne Hn] Hd.
      apply IH; [done|]. by rewrite lookup_insert_ne.
    + rewrite not_elem_of_cons. intros [Hne Hn]. rewrite H2 by done. by rewrite lookup_insert_ne.
Qed.

Lemma seed_roles_ok db c g l :
  Forall (fun b => Forall (fun k => is_known k = true) (base_permission_keys (base_role_permissions b))) l ->
  exists c' g', seed_roles db c g l = Ok (seeded db l, c', g')
    /\ ((forall b, b ∈ l -> db !! base_key b = Some (allow_map (base_permission_keys (base_role_permissions b)))) ->
        c' = c /\ g' = g).
Proof.
  intros Hk. revert db c g. induction Hk as [|b l Hb _ IH]; intros db c g; cbn [seed_roles].
  - exists c, g. by split.
  - destruct (seed_base_role_ok db b Hb) as (cr & ga & Hr & Hcr & Hga). rewrite Hr. cbn [result_bind].
    set (db' := <[base_key b := _]> db).
    destruct (IH db' (if cr then S c else c) (if str_eqb (base_key b) s!"owner" then g || ga else g))
      as (c' & g' & Heq & Hsame). exists c', g'. split; [done|]. intros Hdb.
    specialize (Hdb b ltac:(by left)) as Hbk. rewrite Hga in Hsame by done. rewrite orb_false_r in Hsame.
    assert (cr = false) as -> by by apply Hcr.
    assert (db' = db) as Hid by by apply insert_id. rewrite Hid in Hsame.
    destruct Hsame as [-> ->]; [intros x Hx; apply Hdb; by right|]. split; [done|by destruct (str_eqb _ _)].
Qed.

(** Seeding never fails, and makes every base role hold an allow for exactly the catalogue keys
    it declares, whatever entries it had before (missing, denied or dropped ones), leaving every
    other role alone; a second run changes nothing and reports nothing created or gained. *)
Theorem seed_reconciles (db : platform_roles) :
  exists db' created gained,
    seed_base_roles db = Ok (db', created, gained)
    /\ (forall b, b ∈ BASE_ROLES ->
          db' !! base_key b = Some (allow_map (base_permission_keys (base_role_permissions b))))
    /\ (forall k, k ∉ base_key <$> BASE_ROLES -> db' !! k = db !! k)
    /\ seed_base_roles db' = Ok (db', 0%nat, false).
Proof.
  destruct (seed_roles_ok db 0 false BASE_ROLES base_roles_known) as (c & g & H & _).
  exists (seeded db BASE_ROLES), c, g. split; [exact H|].
  destruct (seeded_lookup db BASE_ROLES [] base_roles_NoDup) as [Hb _].
  split_and!; [exact Hb|intros k; apply (seeded_lookup db BASE_ROLES k base_roles_NoDup)|].
  destruct (seed_roles_ok (seeded db BASE_ROLES) 0 false BASE_ROLES base_roles_known) as (c' & g' & H' & Hs).
  destruct (Hs Hb) as [-> ->]. unfold seed_base_roles. rewrite H'.
  enough (seeded (seeded db BASE_ROLES) BASE_ROLES = seeded db BASE_ROLES) as -> by done.
  apply map_eq. intros k. destruct (decide (k ∈ base_key <$> BASE_ROLES)) as [Hin|Hni].
  - apply list_elem_of_fmap in Hin as (b & -> & Hin). rewrite (Hb b Hin).
    by apply (seeded_lookup (seeded db BASE_ROLES) BASE_ROLES [] base_roles_NoDup).
  - by apply (seeded_lookup (seeded db BASE_ROLES) BASE_ROLES k base_roles_NoDup).
Qed.

(** After the boot check succeeds on an installation with an active account, a live platform
    owner binding exists: an existing one is kept, otherwise the earliest active account holds it,
    also when that account's earlier owner binding had run out. *)
Theorem owner_is_bound (references : new_subject_binding -> bool) (owner id user : uuid)
  (now : instant) (t t' : rows) (bound : option uuid)
  (Hshape : forall r, r ∈ t -> br_scope_type r = s!"global" ->
     br_organization_id r = None /\ br_site_id r = None /\ br_resource_id r = None)
  (Hrun : ensure_owner_binding references owner id (Some user) now t = (t', Ok bound)) :
  exists r, r ∈ t' /\ br_role_id r = owner /\ live now r = true.
Proof.
  revert Hrun. unfold ensure_owner_binding. destruct (existsb _ t) eqn:E.
  { intros [= <- _]. apply existsb_elem in E as (r & Hr & Hb).
    apply andb_true_iff in Hb as [Hb%N.eqb_eq Hl]. eauto. }
  unfold bind_owner, grant_if_missing, grant_subject. set (new := owner_binding owner user).
  destruct (existsb _ (retire_expired now new t)) eqn:Ex.
  - simpl. intros [= <- _]. apply existsb_elem in Ex as (r & Hr & Hb). exists r. split; [done|].
    apply andb_true_iff in Hb as [Hu Hk%bool_decide_eq_true]. unfold index_key in Hk. simpl in Hk.
    injection Hk as Hrole Hty Hsub Hsc Ho Hs Hrid. split; [done|].
    unfold retire_expired in Hr. apply elem_of_revoke_where in Hr as (r0 & Hin & ->).
    destruct (same_grant new r0 && ran_out now r0) eqn:Eg; [by rewrite unrevoked_set_revoked in Hu|].
    destruct (Hshape r0 Hin Hsc) as (H1 & H2 & H3).
    assert (same_grant new r0 = true) as Hsg.
    { unfold same_grant. rewrite Hrole, Hsub, Hty, Hsc, H1, H2, H3. simpl.
      rewrite !N.eqb_refl. done. }
    rewrite Hsg in Eg. simpl in Eg. unfold live. rewrite Hu. unfold ran_out in Eg. rewrite Hu in Eg.
    simpl in *. destruct (br_expires_at r0); [|done]. apply Z.leb_gt in Eg. by apply Z.ltb_lt.
  - destruct (references new) eqn:Eref; simpl; [|discriminate].
    intros [= <- _]. eexists. split; [apply elem_of_app; right; by left|]. done.
Qed.

Lemma owner_is_bound_witness :
  exists r, r ∈ fst (ensure_owner_binding (fun _ => true) 1 9 (Some 5%N) 10 [])
            /\ br_role_id r = 1%N /\ live 10 r = true.
Proof.
  refine (owner_is_bound (fun _ => true) 1 9 5 10 [] _ (Some 5%N) _ eq_refl).
  intros r Hr. by apply elem_of_nil in Hr.
Defined.
