(* ===== verification/Policies.v ===== *)
(** * Policies over roles and the decision path: [crates/permissions/src/policies.rs],
    [evaluate.rs], [simulate.rs]

    The policy table with its history, the attributes a condition reads, the overlay of a winning
    policy on a role decision, the whole authorization path and the simulator that explains it. *)

From S2P Require Import Prelude Glob Json PolicyEngine Roles Hierarchy Bindings Catalogue.

(** ** The policy table *)

Inductive draft_error :=
| DraftNameMissing | DraftNameTooLong | DraftPriorityRange | DraftNoTargets
| DraftTarget (e : target_error) | DraftDuplicateTarget (pattern : str).

Section Policies.
Context `{J : JsonNumber} (show_uuid : uuid -> str).

Record policy_record := PolicyRecord {
  pr_id : uuid;
  pr_organization_id : uuid;
  pr_name : str;
  pr_description : str;
  pr_effect : policy_effect;
  pr_priority : Z;
  pr_conditions : condition;
  pr_target_permissions : list str;
  pr_enabled : bool;
  pr_version : Z;
  pr_created_at : instant;
  pr_updated_at : instant
}.

Definition to_policy (r : policy_record) : policy :=
  Policy (pr_id r) (pr_name r) (pr_effect r) (pr_priority r) (pr_enabled r)
    (pr_target_permissions r) (pr_conditions r).

Record policy_draft := PolicyDraft {
  dr_name : str;
  dr_description : str;
  dr_effect : policy_effect;
  dr_priority : Z;
  dr_conditions : condition;
  dr_target_permissions : list str;
  dr_enabled : bool
}.

Fixpoint check_targets (known patterns : list str) : result unit draft_error :=
  match patterns with
  | [] => Ok tt
  | p :: rest =>
      match validate_target p known with
      | Ok _ => check_targets known rest
      | Err e => Err (DraftTarget e)
      end
  end.
Fixpoint check_duplicates (seen patterns : list str) : result unit draft_error :=
  match patterns with
  | [] => Ok tt
  | p :: rest =>
      let pattern := trim p in
      refuse existsb (str_eqb pattern) seen with DraftDuplicateTarget pattern in
      check_duplicates (seen ++ [pattern]) rest
  end.

Definition validate_draft (d : policy_draft) : result unit draft_error :=
  let name := trim (dr_name d) in
  refuse str_eqb name [] with DraftNameMissing in
  refuse (120 <? length name)%nat with DraftNameTooLong in
  require (0 <=? dr_priority d) && (dr_priority d <=? 1000) else DraftPriorityRange in
  refuse bool_decide (dr_target_permissions d = []) with DraftNoTargets in
  let? _ := check_targets catalogue_keys (dr_target_permissions d) in
  check_duplicates [] (dr_target_permissions d).

(** A row of [policies], and of [policy_versions]: the effect as text, the conditions as JSON. *)
Record policy_row := PolicyRow {
  row_id : uuid;
  row_organization_id : uuid;
  row_name : str;
  row_description : str;
  row_effect : str;
  row_priority : Z;
  row_conditions : value;
  row_target_permissions : list str;
  row_enabled : bool;
  row_version : Z;
  row_created_at : instant;
  row_updated_at : instant
}.
Record version_row := VersionRow {
  vr_policy_id : uuid;
  vr_version : Z;
  vr_effect : str;
  vr_priority : Z;
  vr_conditions : value;
  vr_target_permissions : list str;
  vr_enabled : bool;
  vr_changed_by : option uuid
}.

Definition into_record (r : policy_row) : result policy_record permissions_error :=
  let? effect := ok_or (policy_effect_parse (row_effect r)) InvalidPolicy in
  let? conditions := match condition_parse (row_conditions r) with
                     | Ok c => Ok c | Err _ => Err InvalidPolicy end in
  Ok (PolicyRecord (row_id r) (row_organization_id r) (row_name r) (row_description r) effect
        (row_priority r) conditions (row_target_permissions r) (row_enabled r) (row_version r)
        (row_created_at r) (row_updated_at r)).

Record policy_store := PolicyStore {
  ps_policies : list policy_row;
  ps_versions : list version_row
}.

(** [snapshot]: one row per (policy, version), the first one kept. *)
Definition snapshot (st : policy_store) (r : policy_record) (author : option uuid) : policy_store :=
  if existsb (fun v => (vr_policy_id v =? pr_id r)%N && (vr_version v =? pr_version r)) (ps_versions st)
  then st
  else PolicyStore (ps_policies st)
         (ps_versions st ++
            [VersionRow (pr_id r) (pr_version r) (policy_effect_as_str (pr_effect r)) (pr_priority r)
               (condition_to_json (pr_conditions r)) (pr_target_permissions r) (pr_enabled r) author]).

(** [create]; [id] is the generated primary key.  A row that does not read back stays written. *)
Definition create_policy (st : policy_store) (id organization author : uuid) (now : instant)
  (d : policy_draft) : policy_store * result policy_record permissions_error :=
  if negb (is_ok (validate_draft d)) then (st, Err InvalidPolicy)
  else
    let row := PolicyRow id organization (trim (dr_name d)) (dr_description d)
                 (policy_effect_as_str (dr_effect d)) (dr_priority d) (condition_to_json (dr_conditions d))
                 (dr_target_permissions d) (dr_enabled d) 1 now now in
    let st1 := PolicyStore (ps_policies st ++ [row]) (ps_versions st) in
    match into_record row with
    | Ok r => (snapshot st1 r (Some author), Ok r)
    | Err e => (st1, Err e)
    end.

Definition saved_row (d : policy_draft) (now : instant) (old : policy_row) : policy_row :=
  PolicyRow (row_id old) (row_organization_id old) (trim (dr_name d)) (dr_description d)
    (policy_effect_as_str (dr_effect d)) (dr_priority d) (condition_to_json (dr_conditions d))
    (dr_target_permissions d) (dr_enabled d) (row_version old + 1) (row_created_at old) now.

Definition find_row (id : uuid) (l : list policy_row) : option policy_row :=
  List.find (fun r => (row_id r =? id)%N) l.

Definition update_policy (st : policy_store) (id author : uuid) (now : instant) (d : policy_draft)
  : policy_store * result policy_record permissions_error :=
  if negb (is_ok (validate_draft d)) then (st, Err InvalidPolicy)
  else
    let policies := (fun r => if (row_id r =? id)%N then saved_row d now r else r) <$> ps_policies st in
    let st1 := PolicyStore policies (ps_versions st) in
    match find_row id policies with
    | None => (st1, Err PolicyNotFound)
    | Some row =>
        match into_record row with
        | Ok r => (snapshot st1 r (Some author), Ok r)
        | Err e => (st1, Err e)
        end
    end.

(** [delete]: the versions follow the row. *)
Definition delete_policy (st : policy_store) (id : uuid) : policy_store * bool :=
  (PolicyStore (List.filter (fun r => negb (row_id r =? id)%N) (ps_policies st))
     (List.filter (fun v => negb (vr_policy_id v =? id)%N) (ps_versions st)),
   existsb (fun r => (row_id r =? id)%N) (ps_policies st)).

Definition policy_row_order (a b : policy_row) : comparison :=
  then_with (row_priority b ?= row_priority a) (str_cmp (row_name a) (row_name b)).
Definition list_policies (st : policy_store) (organization : uuid)
  : result (list policy_record) permissions_error :=
  collect (into_record <$> sort_by policy_row_order
    (List.filter (fun r => (row_organization_id r =? organization)%N) (ps_policies st))).
Definition active_policies (st : policy_store) (organization : uuid)
  : result (list policy_record) permissions_error :=
  collect (into_record <$> sort_by policy_row_order
    (List.filter (fun r => (row_organization_id r =? organization)%N && row_enabled r) (ps_policies st))).
Definition find_policy (st : policy_store) (id : uuid)
  : result (option policy_record) permissions_error :=
  match find_row id (ps_policies st) with
  | Some r => let? p := into_record r in Ok (Some p)
  | None => Ok None
  end.

(** ** The overlay and the attributes *)

Definition overlay (base : decision) (winner : option policy_match) : decision :=
  match winner with
  | None => base
  | Some w =>
      let stamp := PolicyStamp (match_id w) (match_name w) (match_priority w) in
      match match_effect w with
      | PAllow => Allowed (grant_from_policy stamp)
      | PDeny => Denied ReasonPolicyDeny (Some (grant_from_policy stamp))
      end
  end.

Definition set_known (path : str) (o : option str) (a : attributes) : attributes :=
  match o with Some text => attributes_set a path (VString text) | None => a end.

Definition attributes_from (stored : value) (s : subject) (ctx : resource_context) (key : str)
  : attributes :=
  let a := match as_object stored with
           | Some object => fold_left (fun a kv => attributes_set a (fst kv) (snd kv)) object attributes_empty
           | None => attributes_empty
           end in
  let a := attributes_set a s!"user" stored in
  let a := attributes_set a s!"action" (VString key) in
  let a := attributes_set a s!"subject"
             (VObject [(s!"id", VString (show_uuid (subject_id s)));
                       (s!"type", VString (subject_type s))]) in
  let a := set_known s!"organization.id" (show_uuid <$> ctx_organization_id ctx) a in
  let a := set_known s!"resource.site_id" (show_uuid <$> ctx_site_id ctx) a in
  let a := set_known s!"resource.path" (ctx_path ctx) a in
  let a := set_known s!"resource.department" (ctx_department ctx) a in
  set_known s!"resource.module" (ctx_module ctx) a.

(** ** The decision path *)

(** The tables a decision reads; [db_attributes] is [users.attributes]. *)
Record iam_db := IamDb {
  db_roles : role_store;
  db_bindings : rows;
  db_members : list (uuid * uuid);
  db_policies : policy_store;
  db_attributes : uuid -> option value
}.

Definition attributes_for (db : iam_db) (s : subject) (ctx : resource_context) (key : str) : attributes :=
  let stored := match s with
                | User user => default (VObject []) (db_attributes db user)
                | _ => VObject []
                end in
  attributes_from stored s ctx key.

Definition apply_policies (db : iam_db) (s : subject) (ctx : resource_context) (key : str)
  (base : decision) : result decision permissions_error :=
  match ctx_organization_id ctx with
  | None => Ok base
  | Some organization =>
      let? policies := active_policies (db_policies db) organization in
      match policies with
      | [] => Ok base
      | _ => Ok (overlay base (decide (to_policy <$> policies) key (attributes_for db s ctx key)))
      end
  end.

Definition role_list_order (a b : role) : comparison :=
  then_with (role_priority b ?= role_priority a) (str_cmp (role_key a) (role_key b)).
Definition list_roles (st : role_store) (organization : option uuid) : list role :=
  sort_by role_list_order (List.filter (in_scope organization) (snd <$> map_to_list (st_roles st))).
Definition load_role_graph (st : role_store) (organization : option uuid) : role_graph :=
  role_graph_new ((fun r => RoleAssignment r (permission_entries st (role_id r))) <$> list_roles st organization).

Definition effective_permissions_for (db : iam_db) (now : instant) (s : subject) (ctx : resource_context)
  : result effective_permissions permissions_error :=
  let? bindings := active_for_context now (db_members db) (db_bindings db) s ctx in
  Ok (effective (load_role_graph (db_roles db) (ctx_organization_id ctx)) (rb_role_id <$> bindings)).

Definition authorize_subject (db : iam_db) (now : instant) (s : subject) (ctx : resource_context)
  (key : str) : result decision permissions_error :=
  let? e := effective_permissions_for db now s ctx in
  apply_policies db s ctx key (decision_of e key).

(** ** The simulator *)

Definition subject_describe (s : subject) : str := subject_type s ++ s!":" ++ show_uuid (subject_id s).
Definition scope_describe (s : scope) : str :=
  match s with
  | Global => s!"global"
  | Organization o => s!"organization:" ++ show_uuid o
  | Site _ site => s!"site:" ++ show_uuid site
  | Department o d => s!"department:" ++ d ++ s!"@" ++ show_uuid o
  | Module_ _ (Some site) m => s!"module:" ++ m ++ s!"@site:" ++ show_uuid site
  | Module_ _ None m => s!"module:" ++ m
  | Resource _ (Some site) ty id => s!"resource:" ++ ty ++ s!":" ++ id ++ s!"@site:" ++ show_uuid site
  | Resource _ None ty id => s!"resource:" ++ ty ++ s!":" ++ id
  end.

Definition via_name (v : via) : str :=
  match v with
  | ExplicitAllow => s!"explicit_allow"
  | InheritedAllow => s!"inherited_allow"
  | ExplicitDeny => s!"explicit_deny"
  | InheritedDeny => s!"inherited_deny"
  | ViaPolicy => s!"policy"
  end.

Record simulation_step := SimulationStep {
  sim_binding_id : uuid;
  sim_role_id : uuid;
  sim_role_key : str;
  sim_role_name : str;
  sim_role_priority : Z;
  sim_subject : str;
  sim_scope : str;
  sim_state : str;
  sim_counts : bool;
  sim_effect : option str;
  sim_via : option str;
  sim_inherited_from : option str
}.

Definition binding_state (b : role_binding) (now : instant) (ctx : resource_context) : str :=
  if is_some (rb_revoked_at b) then s!"revoked"
  else if is_expired_at b now then s!"expired"
  else if negb (applies_to (rb_scope b) ctx) then s!"out_of_scope"
  else s!"active".

Definition simulation_step_of (g : role_graph) (key : str) (ctx : resource_context) (now : instant)
  (b : role_binding) : simulation_step :=
  let state := binding_state b now ctx in
  let counts := str_eqb state s!"active" in
  let t := if counts then trace_of g (rb_role_id b) key else None in
  let known {A} (f : role -> A) (d : A) :=
    match g !! rb_role_id b with Some a => f (ra_role a) | None => d end in
  SimulationStep (rb_id b) (rb_role_id b)
    (match t with Some t => trace_role_key t | None => known role_key (show_uuid (rb_role_id b)) end)
    (match t with Some t => trace_role_name t | None => known role_name (show_uuid (rb_role_id b)) end)
    (known role_priority 0)
    (subject_describe (rb_subject b)) (scope_describe (rb_scope b)) state counts
    (effect_as_str ∘ trace_effect <$> t) (via_name ∘ trace_via <$> t)
    (t ≫= fun t => snd <$> inherited_from t).

(** The sort key: counted first, denials first, then allows, then the higher role. *)
Definition step_order (a b : simulation_step) : comparison :=
  let silent s := negb (is_some (sim_effect s)) in
  let no_deny s := negb (bool_decide (sim_effect s = Some s!"deny")) in
  then_with (bool_cmp (negb (sim_counts a)) (negb (sim_counts b)))
    (then_with (bool_cmp (no_deny a) (no_deny b))
      (then_with (bool_cmp (silent a) (silent b)) (sim_role_priority b ?= sim_role_priority a))).

Record simulation_report := SimulationReport {
  rep_allowed : bool;
  rep_reason : str;
  rep_source : option grant;
  rep_steps : list simulation_step;
  rep_policies : list policy_candidate;
  rep_considered : nat;
  rep_counted : nat;
  rep_note : str
}.

Definition decision_reason (d : decision) : str * option grant :=
  match d with
  | Allowed g => (s!"allowed", Some g)
  | Denied ReasonPolicyDeny (Some g) => (s!"policy_denied", Some g)
  | Denied _ (Some g) => (s!"explicit_deny", Some g)
  | Denied _ None => (s!"missing_permission", None)
  end.

Definition show_nat (n : nat) : str := show_N (N.of_nat n).
Definition report_note (looked counted : nat) (evaluated : list policy_candidate) : str :=
  show_nat looked ++ s!" binding(s) looked at, " ++ show_nat counted
  ++ s!" counted " ++ [8212%N] ++ s!" revoked, expired and out-of-scope rows never decide."
  ++ if bool_decide (evaluated = []) then []
     else s!" " ++ show_nat (length evaluated) ++ s!" policy(ies) evaluated, "
          ++ show_nat (length (List.filter applies evaluated)) ++ s!" applies.".

(** [policies::candidates]: every policy of the organization, enabled or not. *)
Definition policy_candidates (db : iam_db) (organization : uuid) (key : str) (a : attributes)
  : result (list policy_candidate) permissions_error :=
  let? policies := list_policies (db_policies db) organization in
  Ok (candidates (to_policy <$> policies) key a).

Definition simulate (db : iam_db) (now : instant) (s : subject) (key : str) (ctx : resource_context)
  : result simulation_report permissions_error :=
  require is_known key else UnknownSimulatedAction key in
  let? d := authorize_subject db now s ctx key in
  let g := load_role_graph (db_roles db) (ctx_organization_id ctx) in
  let? all := bindings_for (db_members db) (db_bindings db) s in
  let steps := sort_by step_order (simulation_step_of g key ctx now <$> all) in
  let '(reason, source) := decision_reason d in
  let? evaluated :=
    match ctx_organization_id ctx with
    | None => Ok []
    | Some organization => policy_candidates db organization key (attributes_for db s ctx key)
    end in
  let counted := length (List.filter sim_counts steps) in
  Ok (SimulationReport (is_allowed d) reason source steps evaluated (length all) counted
        (report_note (length steps) counted evaluated)).

(** ** Lemmas *)

(** The value under a path of segments. *)
Definition obj_walk (m : list (str * value)) (segs : list str) : value :=
  match segs with
  | [] => VNull
  | s :: segs' => match obj_get s m with Some w => walk_path w segs' | None => VNull end
  end.

(** Two paths that part at some common position. *)
Fixpoint diverge (p q : list str) : bool :=
  match p, q with
  | s :: p', t :: q' => negb (str_eqb s t) || diverge p' q'
  | _, _ => false
  end.

Lemma obj_walk_cons m s t segs :
  obj_walk m (s :: t :: segs) = obj_walk (match obj_get s m with Some (VObject c) => c | _ => [] end) (t :: segs).
Proof.
  simpl. destruct (obj_get s m) as [w|]; [|done]. destruct w; simpl; try done.
  all: unfold get; simpl; try done.
Qed.

Lemma set_path_diverge p q v m : diverge p q = true -> obj_walk (set_path p v m) q = obj_walk m q.
Proof.
  revert q m. induction p as [|s p IH]; intros [|t q] m; simpl diverge; try done.
  destruct p as [|s' p].
  - intros [H|H]%orb_true_iff; [|by destruct q]. simpl. rewrite obj_get_insert_ne; [done|].
    by apply negb_true_iff, str_eqb_neq in H.
  - intros H. rewrite set_path_cons by done. destruct (str_eqb s t) eqn:E.
    + apply str_eqb_eq in E as ->. simpl in H. destruct q as [|t' q]; [done|].
      rewrite (obj_walk_cons m), (obj_walk_cons (obj_insert _ _ _)), obj_get_insert_eq. by apply IH.
    + apply str_eqb_neq in E. simpl. by rewrite obj_get_insert_ne.
Qed.

(** A path without empty segments. *)
Definition plain_path (path : str) : bool := forallb (fun x => negb (str_eqb x [])) (split_on DOT path).

Lemma plain_filter path :
  plain_path path = true ->
  List.filter (fun part => negb (str_eqb part [])) (split_on DOT path) = split_on DOT path.
Proof.
  intros H. apply filter_nonempty. unfold plain_path in H. rewrite forallb_forall in H.
  apply Forall_forall. intros x Hx%list_elem_of_In. by apply str_eqb_neq, negb_true_iff, H.
Qed.
Lemma attributes_get_walk a path : attributes_get a path = obj_walk (attr_map a) (split_on DOT path).
Proof. done. Qed.
Lemma get_set_eq a path v : plain_path path = true -> attributes_get (attributes_set a path v) path = v.
Proof.
  intros H. rewrite attributes_get_walk. unfold attributes_set. simpl. rewrite plain_filter by done.
  destruct (split_on DOT path) as [|s segs] eqn:E; [|apply walk_set_path].
  exfalso. revert E. clear. destruct path as [|x path]; simpl; [done|].
  destruct (x =? DOT)%N; [done|]. by destruct (split_on DOT path).
Qed.
Lemma get_set_ne a p q v :
  plain_path p = true -> diverge (split_on DOT p) (split_on DOT q) = true ->
  attributes_get (attributes_set a p v) q = attributes_get a q.
Proof.
  intros Hp Hd. rewrite !attributes_get_walk. unfold attributes_set. simpl.
  rewrite plain_filter by done. by apply set_path_diverge.
Qed.
Lemma get_known_ne a p q o :
  plain_path p = true -> diverge (split_on DOT p) (split_on DOT q) = true ->
  attributes_get (set_known p o a) q = attributes_get a q.
Proof. intros. destruct o; [by apply get_set_ne|done]. Qed.
Lemma get_known_eq a p x :
  plain_path p = true -> attributes_get (set_known p (Some x) a) p = VString x.
Proof. apply get_set_eq. Qed.

Lemma get_set_below a p q x segs v :
  split_on DOT p = [x] -> x <> [] -> split_on DOT q = x :: segs ->
  attributes_get (attributes_set a p v) q = walk_path v segs.
Proof.
  intros Hp Hx Hq. rewrite attributes_get_walk. unfold attributes_set. rewrite Hp, Hq.
  simpl. rewrite (proj2 (str_eqb_neq x [])) by done. simpl. by rewrite obj_get_insert_eq.
Qed.

(** Whatever attributes an account carries, the facts of the request are the request's own: the
    action, the subject and every known organization, site, path, department and module. *)
Theorem request_facts_win (stored : value) (s : subject) (ctx : resource_context) (key : str) :
  let a := attributes_from stored s ctx key in
  attributes_get a s!"action" = VString key
  /\ attributes_get a s!"subject.type" = VString (subject_type s)
  /\ attributes_get a s!"subject.id" = VString (show_uuid (subject_id s))
  /\ (forall o, ctx_organization_id ctx = Some o -> attributes_get a s!"organization.id" = VString (show_uuid o))
  /\ (forall o, ctx_site_id ctx = Some o -> attributes_get a s!"resource.site_id" = VString (show_uuid o))
  /\ (forall x, ctx_path ctx = Some x -> attributes_get a s!"resource.path" = VString x)
  /\ (forall x, ctx_department ctx = Some x -> attributes_get a s!"resource.department" = VString x)
  /\ (forall x, ctx_module ctx = Some x -> attributes_get a s!"resource.module" = VString x).
Proof.
  cbv zeta. unfold attributes_from. generalize (match as_object stored with
    | Some object => fold_left (fun a kv => attributes_set a (fst kv) (snd kv)) object attributes_empty
    | None => attributes_empty end). intros a0.
  split_and!.
  4,5: intros o H; rewrite H; change (show_uuid <$> Some o) with (Some (show_uuid o)).
  6,7,8: intros x H; rewrite H.
  4,5,6,7,8: repeat rewrite get_known_ne by reflexivity; by rewrite get_known_eq by reflexivity.
  all: repeat rewrite get_known_ne by reflexivity.
  - by rewrite get_set_ne, get_set_eq by reflexivity.
  - by erewrite get_set_below; [|reflexivity|discriminate|reflexivity].
  - by erewrite get_set_below; [|reflexivity|discriminate|reflexivity].
Qed.

(** ** The decision path *)

(** The policy that wins for a question, when there is an organization to ask. *)
Definition winner (db : iam_db) (s : subject) (ctx : resource_context) (key : str)
  : result (option policy_match) permissions_error :=
  match ctx_organization_id ctx with
  | None => Ok None
  | Some o =>
      let? policies := active_policies (db_policies db) o in
      Ok (decide (to_policy <$> policies) key (attributes_for db s ctx key))
  end.

Lemma apply_policies_winner db s ctx key base :
  apply_policies db s ctx key base = (let? w := winner db s ctx key in Ok (overlay base w)).
Proof.
  unfold apply_policies, winner. destruct (ctx_organization_id ctx) as [o|]; simpl; [|done].
  destruct (active_policies _ o) as [[|p l]|e]; simpl; done.
Qed.

Lemma overlay_allowed base w :
  is_allowed (overlay base w) = match w with Some m => negb (is_deny (match_effect m)) | None => is_allowed base end.
Proof. destruct w as [m|]; simpl; [|done]. by destruct (match_effect m). Qed.

(** C1. The decision a request gets: a winning policy decides alone, allow or deny, over whatever
    the roles say; without one the key is allowed exactly when some live binding of the subject (own
    or through a group) whose scope applies leads, along its inheritance chain, to an allow entry
    and none leads to a deny entry. *)
Theorem authorize_decides (db : iam_db) (now : instant) (s : subject) (ctx : resource_context)
  (key : str) (d : decision) (Hrun : authorize_subject db now s ctx key = Ok d) :
  exists (w : option policy_match) (bound : list uuid),
    winner db s ctx key = Ok w
    /\ (forall role, role ∈ bound <-> exists r b, r ∈ db_bindings db /\ speaks_for (db_members db) s r
          /\ live now r = true /\ into_binding r = Ok b /\ applies_to (rb_scope b) ctx = true
          /\ role = rb_role_id b)
    /\ (is_allowed d = true <->
         match w with
         | Some m => is_deny (match_effect m) = false
         | None => let g := load_role_graph (db_roles db) (ctx_organization_id ctx) in
                   speaks g bound key Allow /\ ~ speaks g bound key Deny
         end).
Proof.
  revert Hrun. unfold authorize_subject, effective_permissions_for. rewrite result_bind_ok.
  intros (e & He & H). revert He. rewrite result_bind_ok. intros (bs & Hbs & [= <-]). revert H.
  rewrite apply_policies_winner, result_bind_ok. intros (w & Hw & [= <-]).
  exists w, (rb_role_id <$> bs). split; [done|split].
  - intros role. rewrite list_elem_of_fmap. pose proof (active_for_context_members _ _ _ _ _ _ Hbs) as Hin.
    split.
    + intros (b & -> & Hb). apply Hin in Hb as [(r & ? & ? & ? & ?) ?]. eauto 10.
    + intros (r & b & ? & ? & ? & ? & ? & ->). exists b. split; [done|]. apply Hin. eauto 10.
  - rewrite overlay_allowed. destruct w as [m|]; [by rewrite negb_true_iff|].
    apply is_allowed_speaks.
Qed.

(** An allow policy that wins lifts even an explicit denial of the roles, although the documented
    precedence puts an explicit deny above everything. *)
Theorem allow_policy_lifts_denial (g : grant) (m : policy_match) :
  match_effect m = PAllow -> is_allowed (overlay (Denied ReasonExplicitDeny (Some g)) (Some m)) = true.
Proof. intros H. rewrite overlay_allowed, H. done. Qed.

(** ** The simulator *)

#[export] Instance step_order_laws : CmpLaws step_order.
Proof.
  unfold step_order. apply then_with_laws; [apply (on_laws (fun s => negb (sim_counts s)) bool_cmp)|].
  apply then_with_laws;
    [apply (on_laws (fun s => negb (bool_decide (sim_effect s = Some s!"deny"))) bool_cmp)|].
  apply then_with_laws; [apply (on_laws (fun s => negb (is_some (sim_effect s))) bool_cmp)|].
  apply (cmp_reverse_laws (fun a b => sim_role_priority a ?= sim_role_priority b)).
Qed.

Lemma step_counts g key ctx now b :
  sim_counts (simulation_step_of g key ctx now b) = is_active_at b now && applies_to (rb_scope b) ctx.
Proof.
  unfold simulation_step_of. simpl. unfold binding_state, is_active_at, is_expired_at.
  destruct (rb_revoked_at b); simpl; [done|]. destruct (rb_expires_at b) as [x|]; simpl.
  - destruct (Z.leb_spec x now), (Z.ltb_spec now x); try lia; simpl; [done|].
    by destruct (applies_to _ ctx).
  - by destruct (applies_to _ ctx).
Qed.

(** The simulator tells the truth: its verdict and reason are those of the decision path, it
    looks at every binding of the subject, the bindings it marks as counting are exactly the ones
    the decision path resolved, and the decisive rows come first. *)
Theorem simulate_agrees (db : iam_db) (now : instant) (s : subject) (key : str) (ctx : resource_context)
  (rep : simulation_report) (Hrun : simulate db now s key ctx = Ok rep) :
  (exists d, authorize_subject db now s ctx key = Ok d /\ rep_allowed rep = is_allowed d
             /\ (rep_reason rep, rep_source rep) = decision_reason d)
  /\ (exists bs active, bindings_for (db_members db) (db_bindings db) s = Ok bs
       /\ active_for_context now (db_members db) (db_bindings db) s ctx = Ok active
       /\ sim_binding_id <$> rep_steps rep ≡ₚ rb_id <$> bs
       /\ sim_binding_id <$> List.filter sim_counts (rep_steps rep) ≡ₚ rb_id <$> active
       /\ rep_considered rep = length bs /\ rep_counted rep = length active)
  /\ StronglySorted (cmp_le step_order) (rep_steps rep).
Proof.
  revert Hrun. unfold simulate. destruct (is_known key); [|done]. rewrite result_bind_ok.
  intros (d & Hd & H). revert H. rewrite result_bind_ok. intros (bs & Hbs & H). revert H.
  destruct (decision_reason d) as [reason source] eqn:Er. rewrite result_bind_ok.
  intros (ev & _ & [= <-]). simpl. set (g := load_role_graph _ _).
  set (steps := sort_by step_order (simulation_step_of g key ctx now <$> bs)).
  assert (steps ≡ₚ simulation_step_of g key ctx now <$> bs) as Hperm by apply (sort_by_perm step_order).
  assert (sim_binding_id <$> List.filter sim_counts (simulation_step_of g key ctx now <$> bs)
          = rb_id <$> List.filter (fun b => is_active_at b now && applies_to (rb_scope b) ctx) bs) as Hcount.
  { clear. induction bs as [|b bs IH]; [done|]. rewrite fmap_cons. cbn [List.filter].
    rewrite step_counts. destruct (_ && _); [|exact IH]. rewrite !fmap_cons. by rewrite IH. }
  assert (List.filter sim_counts steps ≡ₚ List.filter sim_counts (simulation_step_of g key ctx now <$> bs))
    as Hfp by by apply filter_perm.
  split_and!; [exists d; by rewrite <- Er| |apply (sort_by_sorted step_order)].
  exists bs, (List.filter (fun b => is_active_at b now && applies_to (rb_scope b) ctx) bs). split_and!.
  - done.
  - unfold active_for_context. by rewrite Hbs.
  - by rewrite Hperm, <- list_fmap_compose.
  - rewrite Hfp. by rewrite Hcount.
  - done.
  - rewrite (Permutation_length Hfp). rewrite <- (length_fmap sim_binding_id), Hcount. apply length_fmap.
Qed.
End Policies.

(** ** Policy history *)

Section History.
Context `{J : JsonNumber}.

Inductive policy_step : policy_store -> policy_store -> Prop :=
| policy_created st id organization author now d :
    find_row id (ps_policies st) = None -> condition_wf (dr_conditions d) = true ->
    policy_step st (fst (create_policy st id organization author now d))
| policy_updated st id author now d :
    condition_wf (dr_conditions d) = true -> policy_step st (fst (update_policy st id author now d))
| policy_deleted st id : policy_step st (fst (delete_policy st id)).

Inductive policy_steps : policy_store -> Prop :=
| policies_initial : policy_steps (PolicyStore [] [])
| policies_next st st' : policy_steps st -> policy_step st st' -> policy_steps st'.

(** A version row that records a policy row as it stands. *)
Definition records (v : version_row) (r : policy_row) : Prop :=
  vr_policy_id v = row_id r /\ vr_version v = row_version r /\ vr_effect v = row_effect r
  /\ vr_priority v = row_priority r /\ vr_conditions v = row_conditions r
  /\ vr_target_permissions v = row_target_permissions r /\ vr_enabled v = row_enabled r.

Record history_ok (st : policy_store) : Prop := {
  hk_ids : NoDup (row_id <$> ps_policies st);
  hk_reads : forall r, r ∈ ps_policies st -> is_ok (into_record r) = true;
  hk_range : forall v, v ∈ ps_versions st -> exists r, r ∈ ps_policies st
               /\ row_id r = vr_policy_id v /\ 1 <= vr_version v <= row_version r;
  hk_once : NoDup ((fun v => (vr_policy_id v, vr_version v)) <$> ps_versions st);
  hk_full : forall r n, r ∈ ps_policies st -> 1 <= n <= row_version r ->
              exists v, v ∈ ps_versions st /\ vr_policy_id v = row_id r /\ vr_version v = n;
  hk_current : forall r, r ∈ ps_policies st ->
                 1 <= row_version r /\ exists v, v ∈ ps_versions st /\ records v r
}.

Lemma find_row_Some id l r : find_row id l = Some r -> r ∈ l /\ row_id r = id.
Proof. intros [Hin H%N.eqb_eq]%find_some. by rewrite list_elem_of_In. Qed.
Lemma find_row_None id l r : find_row id l = None -> r ∈ l -> row_id r <> id.
Proof.
  intros H Hin%list_elem_of_In Heq. eapply find_none in H; [|exact Hin]. simpl in H.
  by apply N.eqb_neq in H.
Qed.

Lemma into_record_saved id o n de d pr tp en ver ca ua :
  condition_wf (dr_conditions d) = true ->
  into_record (PolicyRow id o n de (policy_effect_as_str (dr_effect d)) pr
     (condition_to_json (dr_conditions d)) tp en ver ca ua)
  = Ok (PolicyRecord id o n de (dr_effect d) pr (dr_conditions d) tp en ver ca ua).
Proof.
  intros Hwf. unfold into_record. simpl.
  assert (policy_effect_parse (policy_effect_as_str (dr_effect d)) = Some (dr_effect d)) as ->
    by by destruct (dr_effect d).
  simpl. by rewrite condition_parse_to_json.
Qed.

(** Writing a row whose version is one past the recorded ones, and its snapshot. *)
Lemma history_put st policies r row author :
  history_ok st -> NoDup (row_id <$> policies) -> row ∈ policies -> into_record row = Ok r ->
  (forall x, x ∈ policies -> row_id x <> row_id row -> x ∈ ps_policies st) ->
  (forall x, x ∈ ps_policies st -> row_id x <> row_id row -> x ∈ policies) ->
  1 <= row_version row ->
  (forall v, v ∈ ps_versions st -> vr_policy_id v = row_id row -> vr_version v < row_version row) ->
  (forall n, 1 <= n < row_version row -> exists v, v ∈ ps_versions st
     /\ vr_policy_id v = row_id row /\ vr_version v = n) ->
  row_effect row = policy_effect_as_str (pr_effect r) -> row_conditions row = condition_to_json (pr_conditions r) ->
  history_ok (snapshot (PolicyStore policies (ps_versions st)) r author).
Proof.
  intros [H1 H2 H3 H4 H5 H6] Hnd Hin Hrec Hback Hfwd Hpos Hlt Hfull Heff Hcond.
  assert (pr_id r = row_id row /\ pr_version r = row_version row /\ pr_priority r = row_priority row
    /\ pr_target_permissions r = row_target_permissions row /\ pr_enabled r = row_enabled row)
    as (Hid & Hver & Hpri & Htgt & Hen).
  { revert Hrec. unfold into_record. rewrite result_bind_ok. intros (e & _ & H). revert H.
    rewrite result_bind_ok. by intros (c & _ & [= <-]). }
  assert (forall x, x ∈ policies -> row_id x = row_id row -> x = row) as Hsame.
  { intros x Hx Hi. by apply (NoDup_key_inj row_id policies). }
  unfold snapshot. simpl. destruct (existsb _ (ps_versions st)) eqn:E.
  { apply existsb_elem in E as (v & Hv & Hb). apply andb_true_iff in Hb as [?%N.eqb_eq ?%Z.eqb_eq].
    specialize (Hlt v Hv). rewrite Hid in *. rewrite Hver in *. lia. }
  set (v := VersionRow _ _ _ _ _ _ _ _).
  assert (records v row) as Hv by (unfold records; subst v; simpl; split_and!; congruence).
  split; simpl.
  - done.
  - intros x Hx. destruct (base.decide (row_id x = row_id row)) as [Hi|Hi]; [|by apply H2, Hback].
    rewrite (Hsame x Hx Hi), Hrec. done.
  - intros w [Hw| ->%list_elem_of_singleton]%elem_of_app.
    + destruct (H3 w Hw) as (x & Hx & Hxi & Hrange).
      destruct (base.decide (row_id x = row_id row)) as [Hi|Hi].
      * exists row. specialize (Hlt w Hw). split_and!; [done|congruence|lia|]. assert (vr_version w < row_version row) by (apply Hlt; congruence). lia.
      * exists x. split_and!; [by apply Hfwd|done|lia|lia].
    + exists row. subst v. simpl. split_and!; [done|congruence|lia|lia].
  - rewrite fmap_app. apply NoDup_app. split_and!; [done| |apply NoDup_singleton].
    intros p (w & -> & Hw)%list_elem_of_fmap Heq%list_elem_of_singleton.
    injection Heq as Hwi Hwv. specialize (Hlt w Hw). rewrite Hid, Hver in *. assert (vr_version w < row_version row) by (apply Hlt; done). lia.
  - intros x n Hx Hn. destruct (base.decide (row_id x = row_id row)) as [Hi|Hi].
    + rewrite (Hsame x Hx Hi) in *. destruct (base.decide (n = row_version row)) as [->|Hne].
      * exists v. split; [apply elem_of_app; right; by left|]. by destruct Hv as (? & ? & _).
      * destruct (Hfull n) as (w & ? & ? & ?); [lia|]. exists w. split; [apply elem_of_app; by left|done].
    + destruct (H5 x n (Hback x Hx Hi) Hn) as (w & ? & ? & ?). exists w. split; [apply elem_of_app; by left|done].
  - intros x Hx. destruct (base.decide (row_id x = row_id row)) as [Hi|Hi].
    + rewrite (Hsame x Hx Hi). split; [done|]. exists v. split; [apply elem_of_app; right; by left|done].
    + destruct (H6 x (Hback x Hx Hi)) as (? & w & ? & ?). split; [done|]. exists w. split; [apply elem_of_app; by left|done].
Qed.

Lemma history_create st id organization author now d :
  history_ok st -> find_row id (ps_policies st) = None -> condition_wf (dr_conditions d) = true ->
  history_ok (fst (create_policy st id organization author now d)).
Proof.
  intros Hok Hid Hwf. unfold create_policy. destruct (negb _); [done|].
  rewrite into_record_saved by done. cbn [fst].
  assert (forall x, x ∈ ps_policies st -> row_id x <> id) as Hfresh by (intros x; by apply find_row_None).
  eapply history_put; try done.
  - rewrite fmap_app. apply NoDup_app. split_and!; [apply (hk_ids _ Hok)| |apply NoDup_singleton].
    intros i (x & -> & Hx)%list_elem_of_fmap Hi%list_elem_of_singleton. by apply (Hfresh x Hx).
  - apply elem_of_app. right. by left.
  - by apply into_record_saved.
  - intros x [Hx| ->%list_elem_of_singleton]%elem_of_app Hne; [done|by destruct Hne].
  - intros x Hx _. apply elem_of_app. by left.
  - simpl. lia.
  - intros v Hv Hvi. destruct (hk_range _ Hok v Hv) as (x & Hx & Hxi & _). destruct (Hfresh x Hx). simpl in Hvi. congruence.
  - intros n Hn. simpl in Hn. lia.
  - done.
  - done.
Qed.

Lemma history_update st id author now d :
  history_ok st -> condition_wf (dr_conditions d) = true ->
  history_ok (fst (update_policy st id author now d)).
Proof.
  intros Hok Hwf. unfold update_policy. destruct (negb _); [done|].
  set (save := fun r => if (row_id r =? id)%N then saved_row d now r else r).
  assert (forall r, row_id (save r) = row_id r) as Hid by (intros r; unfold save; by destruct (row_id r =? id)%N).
  assert (row_id <$> (save <$> ps_policies st) = row_id <$> ps_policies st) as Hids.
  { rewrite <- list_fmap_compose. apply list_fmap_ext. intros i r _. apply Hid. }
  destruct (find_row id (save <$> ps_policies st)) as [row|] eqn:Hf; cbn [fst].
  - apply find_row_Some in Hf as [Hrow Hrid].
    apply list_elem_of_fmap in Hrow as (old & Hrow & Hold).
    assert (row_id old = id) as Hoid by (by rewrite <- (Hid old), <- Hrow).
    assert (row = saved_row d now old) as -> by (rewrite Hrow; unfold save; by rewrite Hoid, N.eqb_refl).
    unfold saved_row. rewrite into_record_saved by done. cbn [fst].
    destruct (hk_current _ Hok old Hold) as [Hpos _].
    apply (history_put st _ _ (saved_row d now old)); try done; simpl.
    + rewrite Hids. apply (hk_ids _ Hok).
    + apply list_elem_of_fmap. exists old. split; [|done]. unfold save. by rewrite (proj2 (N.eqb_eq _ _) Hoid).
    + by apply into_record_saved.
    + intros x (y & -> & Hy)%list_elem_of_fmap. rewrite Hid. intros Hne. unfold save.
      rewrite Hoid in Hne. by rewrite (proj2 (N.eqb_neq _ _) Hne).
    + intros x Hx Hne. apply list_elem_of_fmap. exists x. split; [|done]. unfold save.
      rewrite Hoid in Hne. by rewrite (proj2 (N.eqb_neq _ _) Hne).
    + simpl. lia.
    + intros v Hv Hvi. destruct (hk_range _ Hok v Hv) as (x & Hx & Hxi & Hr).
      assert (x = old) as -> by (apply (NoDup_key_inj row_id (ps_policies st)); [apply (hk_ids _ Hok)|done|done|congruence]).
      lia.
    + intros n Hn. apply (hk_full _ Hok old n Hold). lia.
  - assert (save <$> ps_policies st = ps_policies st) as ->; [|by destruct st].
    transitivity ((fun r => r) <$> ps_policies st); [|apply map_id].
    apply list_fmap_ext. intros i r Hr. unfold save. destruct (row_id r =? id)%N eqn:E; [|done].
    apply N.eqb_eq in E. exfalso. apply (find_row_None id _ (save r) Hf).
    + apply list_elem_of_fmap_2. by eapply list_elem_of_lookup_2.
    + by rewrite Hid.
Qed.

Lemma history_delete st id : history_ok st -> history_ok (fst (delete_policy st id)).
Proof.
  intros [H1 H2 H3 H4 H5 H6]. unfold delete_policy. cbn [fst].
  assert (forall {A B} (f : A -> B) (p : A -> bool) l, NoDup (f <$> l) -> NoDup (f <$> List.filter p l)) as Hnd
    by (intros; by apply NoDup_filter_keys).
  assert (forall i, negb (i =? id)%N = true <-> i <> id) as Hne by (intros i; by rewrite negb_true_iff, N.eqb_neq).
  split; simpl; try (by apply Hnd).
  - intros r [Hr _]%elem_of_filter_bool. by apply H2.
  - intros v [Hv Hvi]%elem_of_filter_bool. destruct (H3 v Hv) as (r & Hr & Hri & Hrange).
    exists r. split_and!; [|done|lia|lia]. apply elem_of_filter_bool. by rewrite Hri.
  - intros r n [Hr Hri]%elem_of_filter_bool Hn. destruct (H5 r n Hr Hn) as (v & Hv & Hvi & Hvv).
    exists v. split; [|done]. apply elem_of_filter_bool. by rewrite Hvi.
  - intros r [Hr Hri]%elem_of_filter_bool. destruct (H6 r Hr) as (Hpos & v & Hv & Hrec).
    split; [done|]. exists v. split; [|done]. apply elem_of_filter_bool. destruct Hrec as (-> & _). done.
Qed.

(** After any sequence of creations, saves and deletions every policy reads back, its history
    holds each version from 1 to the current one exactly once, the newest history row is the policy
    as it stands, and a deleted policy leaves no history behind. *)
Theorem policy_history (st : policy_store) (Hreach : policy_steps st) : history_ok st.
Proof.
  induction Hreach as [|st st' _ IH Hstep].
  - split; simpl; try (by constructor); intros x; intros; by match goal with H : x ∈ [] |- _ => apply elem_of_nil in H end.
  - destruct Hstep; [by apply history_create|by apply history_update|by apply history_delete].
Qed.
End History.

(** ** Witnesses *)

Section Witnesses.
#[local] Existing Instance Z_number.

Definition sample_owner : role :=
  Role 1 None s!"owner" s!"Owner" [] 1000 None true true 0 0.
Definition sample_draft : policy_draft :=
  PolicyDraft s!"Legal hold" [] PDeny 700 (CLeaf s!"resource.path" StartsWith (VString s!"/legal"))
    [s!"content.*"] true.
Definition sample_policies : policy_store :=
  fst (create_policy (PolicyStore [] []) 3 7 2 0 sample_draft).
Definition sample_db : iam_db :=
  IamDb (RoleStore {[1%N := sample_owner]}
           {[1%N := [RolePermission s!"content.pages.read" Allow]]} ∅)
    [owner_row 1 2] [] sample_policies (fun _ => None).
Definition legal_page : resource_context := ResourceContext (Some 7%N) None None None (Some s!"/legal/a").

Lemma authorize_decides_witness :
  exists w, winner show_N sample_db (User 2) legal_page s!"content.pages.read" = Ok (Some w)
            /\ is_deny (match_effect w) = true.
Proof.
  assert (exists d, authorize_subject show_N sample_db 5 (User 2) legal_page s!"content.pages.read" = Ok d
                    /\ is_allowed d = false) as (d & Hd & Hno) by (eexists; split; reflexivity).
  destruct (authorize_decides show_N sample_db 5 (User 2) legal_page s!"content.pages.read" d Hd)
    as (w & bound & Hw & _ & Hiff).
  assert (exists m, winner show_N sample_db (User 2) legal_page s!"content.pages.read" = Ok (Some m))
    as [m Hm] by (eexists; reflexivity).
  exists m. split; [exact Hm|]. rewrite Hm in Hw. injection Hw as <-.
  destruct (is_deny (match_effect m)); [reflexivity|].
  rewrite (proj2 Hiff eq_refl) in Hno. discriminate Hno.
Defined.

Lemma allow_policy_lifts_denial_witness :
  is_allowed (overlay (Denied ReasonExplicitDeny (Some (grant_of (sample_role 1 None []) ExplicitDeny)))
                (Some (PolicyMatch 1 s!"open" PAllow 10))) = true.
Proof. apply (allow_policy_lifts_denial _ (PolicyMatch 1 s!"open" PAllow 10)). reflexivity. Defined.

Lemma simulate_agrees_witness :
  exists rep, simulate show_N sample_db 5 (User 2) s!"content.pages.read" legal_page = Ok rep
              /\ StronglySorted (cmp_le step_order) (rep_steps rep).
Proof.
  assert (exists rep, simulate show_N sample_db 5 (User 2) s!"content.pages.read" legal_page = Ok rep)
    as [rep H] by (eexists; reflexivity).
  exists rep. split; [exact H|].
  exact (proj2 (proj2 (simulate_agrees show_N sample_db 5 (User 2) s!"content.pages.read" legal_page rep H))).
Defined.

Lemma policy_history_witness : history_ok sample_policies.
Proof.
  apply policy_history. unfold sample_policies. eapply policies_next; [apply policies_initial|].
  apply policy_created; reflexivity.
Defined.

(** A target with white space around it passes validation but is stored as written, and then
    covers nothing: the policy never applies. *)
Theorem untrimmed_target_never_applies :
  let d := PolicyDraft s!"Hold" [] PDeny 700 condition_empty [s!" content.pages.read"] true in
  is_ok (validate_draft d) = true
  /\ forall (a : attributes), Forall (fun key =>
       exists r, snd (create_policy (PolicyStore [] []) 3 7 2 0 d) = Ok r
                 /\ policy_matches (to_policy r) key a = false) catalogue_keys.
Proof.
  cbv zeta. split; [reflexivity|]. intros a.
  assert (exists r, snd (create_policy (PolicyStore [] []) 3 7 2 0
    (PolicyDraft s!"Hold" [] PDeny 700 condition_empty [s!" content.pages.read"] true)) = Ok r
    /\ pr_target_permissions r = [s!" content.pages.read"]) as (r & Hr & Ht) by (eexists; split; reflexivity).
  assert (forallb (fun key => negb (targets s!" content.pages.read" key)) catalogue_keys = true) as Hn
    by (vm_compute; reflexivity).
  apply Forall_forall. intros key Hkey. exists r. split; [exact Hr|].
  rewrite forallb_elem in Hn. apply Hn, negb_true_iff in Hkey. unfold policy_matches.
  cbn [to_policy enabled target_permissions conditions]. rewrite Ht. cbn [existsb]. rewrite Hkey. cbn [orb]. by rewrite andb_false_r.
Qed.
End Witnesses.
