(* ===== verification/Cron.v ===== *)
(** * Cron schedules: [crates/workflows/src/cron.rs]

    The parser of the five-field expressions and the search for the next run.  Dates belong to the
    [time] crate: [Calendar] is the part of it the code uses, [gregorian] a concrete instance. *)

From S2P Require Import Prelude.

(** The error type of the engine: codes are kept, messages for people and causes are not. *)
Inductive workflow_error := Database | AuditError | Invalid (code : str).

Definition invalid_cron : workflow_error := Invalid s!"invalid_cron".

(** ** The calendar

    A date is its day number counted from the epoch; an instant is a number of nanoseconds. *)
Class Calendar := {
  cal_month : Z -> N;
  cal_day : Z -> N;
  cal_weekday : Z -> N;       (* days since Sunday *)
  cal_max : Z                 (* the last representable date *)
}.

Definition NANOS_PER_MINUTE : Z := 60000000000.
Definition NANOS_PER_DAY : Z := 1440 * NANOS_PER_MINUTE.
Definition date_of (i : Z) : Z := i / NANOS_PER_DAY.
Definition next_day `{Calendar} (d : Z) : option Z := if d <? cal_max then Some (d + 1) else None.

(** ** Parsing *)

Definition MONTH_NAMES : list (str * N) :=
  [(s!"jan", 1); (s!"feb", 2); (s!"mar", 3); (s!"apr", 4); (s!"may", 5); (s!"jun", 6);
   (s!"jul", 7); (s!"aug", 8); (s!"sep", 9); (s!"oct", 10); (s!"nov", 11); (s!"dec", 12)]%N.
Definition WEEKDAY_NAMES : list (str * N) :=
  [(s!"sun", 0); (s!"mon", 1); (s!"tue", 2); (s!"wed", 3); (s!"thu", 4); (s!"fri", 5); (s!"sat", 6)]%N.

Definition value_of (raw : str) (min max : N) (names : list (str * N)) : result N workflow_error :=
  let raw := trim raw in
  match parse_unsigned u8_max raw with
  | Some value => if (value <? min)%N || (max <? value)%N then Err invalid_cron else Ok value
  | None =>
      match List.find (fun kv => str_eqb (fst kv) (to_ascii_lowercase raw)) names with
      | Some (_, value) => Ok value
      | None => Err invalid_cron
      end
  end.

(** [value.saturating_add(step)] on [u8]. *)
Definition saturating_add_u8 (a b : N) : N := N.min (a + b) u8_max.

(** The [while value <= end] loop; 256 iterations suffice as long as [end] is below 255. *)
Fixpoint fill (fuel : nat) (value last step : N) (values : list N) : list N :=
  match fuel with
  | O => values
  | S fuel' =>
      if (value <=? last)%N then
        fill fuel' (saturating_add_u8 value step) last step
          (if existsb (N.eqb value) values then values else values ++ [value])
      else values
  end.

(** The bounds and step of one comma-separated item. *)
Definition parse_item (item : str) (min max : N) (names : list (str * N))
  : result (N * N * N) workflow_error :=
  let item := trim item in
  refuse str_eqb item [] with invalid_cron in
  let? rs :=
    match split_once c!"/" item with
    | Some (range, step) =>
        let? step := ok_or (parse_unsigned u8_max (trim step)) invalid_cron in
        refuse (step =? 0)%N with invalid_cron in
        Ok (trim range, step)
    | None => Ok (item, 1%N)
    end in
  let '(range, step) := rs in
  let? se :=
    if str_eqb range s!"*" then Ok (min, max)
    else match split_once c!"-" range with
         | Some (lo, hi) =>
             let? a := value_of lo min max names in
             let? b := value_of hi min max names in
             Ok (a, b)
         | None =>
             let? single := value_of range min max names in
             Ok (single, if (1 <? step)%N then max else single)
         end in
  let '(start, last) := se in
  refuse (last <? start)%N with invalid_cron in
  Ok (start, last, step).

Fixpoint parse_items (items : list str) (min max : N) (names : list (str * N)) (values : list N)
  : result (list N) workflow_error :=
  match items with
  | [] => Ok values
  | item :: rest =>
      let? b := parse_item item min max names in
      let '(start, last, step) := b in
      parse_items rest min max names (fill 256 start last step values)
  end.

Definition parse_field (field : str) (min max : N) (names : list (str * N))
  : result (list N) workflow_error :=
  let? values := parse_items (split_on c!"," field) min max names [] in
  refuse bool_decide (values = []) with invalid_cron in
  Ok (sort_by N.compare values).

Record cron_schedule := CronSchedule {
  minutes : list N;
  hours : list N;
  days : list N;
  months : list N;
  weekdays : list N;
  day_wildcard : bool;
  weekday_wildcard : bool;
  cron_expression : str
}.

Fixpoint dedup_N (l : list N) : list N :=
  match l with
  | x :: (y :: _) as l' => if (x =? y)%N then dedup_N l' else x :: dedup_N l'
  | _ => l
  end.

Definition cron_parse (expression : str) : result cron_schedule workflow_error :=
  match split_whitespace expression with
  | [f0; f1; f2; f3; f4] =>
      let? minutes := parse_field f0 0 59 [] in
      let? hours := parse_field f1 0 23 [] in
      let? days := parse_field f2 1 31 [] in
      let? months := parse_field f3 1 12 MONTH_NAMES in
      let? weekdays := parse_field f4 0 7 WEEKDAY_NAMES in
      let weekdays := (fun v => if (v =? 7)%N then 0%N else v) <$> weekdays in
      Ok (CronSchedule minutes hours days months (dedup_N (sort_by N.compare weekdays))
            (str_eqb (trim f2) s!"*") (str_eqb (trim f4) s!"*") (trim expression))
  | _ => Err invalid_cron
  end.

(** ** The next run *)

Section Next.
Context `{Calendar}.

Definition matches_day (c : cron_schedule) (d : Z) : bool :=
  if negb (existsb (N.eqb (cal_month d)) (months c)) then false
  else
    let day_of_month := existsb (N.eqb (cal_day d)) (days c) in
    let day_of_week := existsb (N.eqb (cal_weekday d)) (weekdays c) in
    match day_wildcard c, weekday_wildcard c with
    | true, true => true
    | false, true => day_of_month
    | true, false => day_of_week
    | false, false => day_of_month || day_of_week
    end.

(** [Time::from_hms] refuses values outside a day. *)
Definition at_time (d : Z) (hour minute : N) : result Z workflow_error :=
  require (hour <? 24)%N && (minute <? 60)%N else invalid_cron in
  Ok (d * NANOS_PER_DAY + (Z.of_N hour * 60 + Z.of_N minute) * NANOS_PER_MINUTE).

(** The two inner loops: the first candidate of one day after [from]. *)
Fixpoint first_minute (from d : Z) (hour : N) (ms : list N) : result (option Z) workflow_error :=
  match ms with
  | [] => Ok None
  | m :: ms' =>
      let? candidate := at_time d hour m in
      if candidate <=? from then first_minute from d hour ms' else Ok (Some candidate)
  end.
Fixpoint first_of_day (from d : Z) (ms hs : list N) : result (option Z) workflow_error :=
  match hs with
  | [] => Ok None
  | h :: hs' =>
      let? found := first_minute from d h ms in
      match found with Some t => Ok (Some t) | None => first_of_day from d ms hs' end
  end.

Definition MAX_SEARCH_DAYS : nat := 1465.

Fixpoint search (c : cron_schedule) (fuel : nat) (from d : Z) : result Z workflow_error :=
  match fuel with
  | O => Err invalid_cron
  | S fuel' =>
      let? found := if matches_day c d then first_of_day from d (minutes c) (hours c) else Ok None in
      match found with
      | Some t => Ok t
      | None =>
          match next_day d with
          | Some d' => search c fuel' from d'
          | None => Err invalid_cron
          end
      end
  end.

(** The start is the next minute boundary; only its date is used. *)
Definition next_after (c : cron_schedule) (from : Z) : result Z workflow_error :=
  let start := ((from + NANOS_PER_MINUTE) / NANOS_PER_MINUTE) * NANOS_PER_MINUTE in
  search c MAX_SEARCH_DAYS from (date_of start).
End Next.

(** ** Specification *)

(** The values one item stands for. *)
Definition item_allows (min max : N) (names : list (str * N)) (item : str) (v : N) : Prop :=
  exists start last step, parse_item item min max names = Ok (start, last, step)
    /\ (v <= last)%N /\ exists k, (v = start + k * step)%N.

(** The dates a schedule names: of its months, and of its days or of its weekdays, where a wildcard of one
    leaves the day to the other. *)
Definition names_date `{Calendar} (c : cron_schedule) (d : Z) : Prop :=
  cal_month d ∈ months c
  /\ ((day_wildcard c = true /\ weekday_wildcard c = true)
      \/ (day_wildcard c = false /\ cal_day d ∈ days c)
      \/ (weekday_wildcard c = false /\ cal_weekday d ∈ weekdays c)).
(** The instants a schedule names: whole minutes whose day, hour and minute are allowed. *)
Definition names_instant `{Calendar} (c : cron_schedule) (t : Z) : Prop :=
  exists hour minute, hour ∈ hours c /\ minute ∈ minutes c /\ (hour < 24)%N /\ (minute < 60)%N
    /\ t = date_of t * NANOS_PER_DAY + (Z.of_N hour * 60 + Z.of_N minute) * NANOS_PER_MINUTE
    /\ names_date c (date_of t).

Lemma matches_day_iff `{Calendar} c d : matches_day c d = true <-> names_date c d.
Proof.
  unfold matches_day, names_date. assert (forall v l, existsb (N.eqb v) l = true <-> v ∈ l) as Hmem.
  { intros v l. rewrite existsb_elem. split; [intros (x & Hx & ->%N.eqb_eq); done|]. intros Hv. exists v. by rewrite N.eqb_refl. }
  rewrite <- !Hmem. destruct (existsb (N.eqb (cal_month d)) _), (day_wildcard c), (weekday_wildcard c), (existsb (N.eqb (cal_day d)) _), (existsb (N.eqb (cal_weekday d)) _); cbn; naive_solver.
Qed.

Definition increasing (l : list N) : Prop := StronglySorted N.lt l.

(** What parsing guarantees. *)
Record schedule_ok (c : cron_schedule) : Prop := {
  so_minutes : increasing (minutes c) /\ Forall (fun v => (v <= 59)%N) (minutes c) /\ minutes c <> [];
  so_hours : increasing (hours c) /\ Forall (fun v => (v <= 23)%N) (hours c) /\ hours c <> [];
  so_days : increasing (days c) /\ Forall (fun v => (1 <= v <= 31)%N) (days c) /\ days c <> [];
  so_months : increasing (months c) /\ Forall (fun v => (1 <= v <= 12)%N) (months c) /\ months c <> [];
  so_weekdays : increasing (weekdays c) /\ Forall (fun v => (v <= 6)%N) (weekdays c) /\ weekdays c <> []
}.

(** ** Lemmas: parsing *)

Lemma elem_of_existsb (x : N) l : existsb (N.eqb x) l = true <-> x ∈ l.
Proof.
  rewrite existsb_elem. split; [|intros H; exists x; by rewrite N.eqb_refl].
  by intros (y & H & ->%N.eqb_eq).
Qed.

Lemma fill_spec fuel value last step values v :
  (0 < step)%N -> (last < 255)%N -> (last < value + N.of_nat fuel)%N ->
  v ∈ fill fuel value last step values
  <-> v ∈ values \/ ((v <= last)%N /\ exists k, (v = value + k * step)%N).
Proof.
  intros Hs Hl. revert value values. induction fuel as [|fuel IH]; intros value values Hf; cbn [fill].
  - split; [by left|]. intros [|(Hv & k & ->)]; [done|lia].
  - destruct (N.leb_spec value last) as [Hle|Hgt].
    2:{ split; [by left|]. intros [|(Hv & k & ->)]; [done|lia]. }
    rewrite IH by (unfold saturating_add_u8, u8_max; lia).
    assert (v ∈ (if existsb (N.eqb value) values then values else values ++ [value]) <-> v ∈ values \/ v = value) as ->.
    { destruct (existsb _ values) eqn:E.
      - apply elem_of_existsb in E. naive_solver.
      - by rewrite elem_of_app, list_elem_of_singleton. }
    unfold saturating_add_u8, u8_max. split.
    + intros [[?| ->]|(Hv & k & ->)]; [by left|right; split; [done|exists 0%N; lia]|].
      right. split; [done|]. exists (k + 1)%N. lia.
    + intros [?|(Hv & k & ->)]; [by left; left|]. destruct (decide (k = 0)%N) as [->|Hk].
      * left; right. lia.
      * right. split; [done|]. exists (k - 1)%N. assert (step * 1 <= k * step)%N by nia. nia.
Qed.

Lemma fill_NoDup fuel value last step values :
  NoDup values -> NoDup (fill fuel value last step values).
Proof.
  revert value values. induction fuel as [|fuel IH]; intros value values Hnd; cbn [fill]; [done|].
  destruct (value <=? last)%N; [|done]. apply IH. destruct (existsb _ values) eqn:E; [done|].
  apply NoDup_app. split_and!; [done| |apply NoDup_singleton].
  intros x Hx ->%list_elem_of_singleton. apply not_true_iff_false in E. by apply E, elem_of_existsb.
Qed.

Lemma value_of_range raw min max names v :
  Forall (fun kv => (min <= snd kv <= max)%N) names -> value_of raw min max names = Ok v -> (min <= v <= max)%N.
Proof.
  intros Hn. unfold value_of. destruct (parse_unsigned _ _) as [x|].
  - destruct (_ || _) eqn:E; [done|]. intros [= <-]. apply orb_false_iff in E as [?%N.ltb_ge ?%N.ltb_ge]. lia.
  - destruct (List.find _ names) as [[k x]|] eqn:E; [|done]. intros [= <-].
    apply find_some in E as [Hin%list_elem_of_In _]. rewrite Forall_forall in Hn. apply (Hn _ Hin).
Qed.

Lemma parse_item_range item min max names start last step :
  (min <= max)%N -> Forall (fun kv => (min <= snd kv <= max)%N) names ->
  parse_item item min max names = Ok (start, last, step) ->
  (min <= start /\ start <= last /\ last <= max /\ 0 < step)%N.
Proof.
  intros Hm Hn. unfold parse_item. destruct (str_eqb _ []); [done|]. rewrite result_bind_ok.
  intros ([range st] & Hst & H). revert H. rewrite result_bind_ok. intros ([a b] & Hab & H).
  destruct (b <? a)%N eqn:Eba; [done|]. injection H as -> -> ->. apply N.ltb_ge in Eba.
  assert (0 < step)%N as Hpos.
  { revert Hst. destruct (split_once c!"/" (trim item)) as [[r0 s0]|]; [|intros [= _ <-]; lia].
    rewrite result_bind_ok. intros (x & _ & H). destruct (x =? 0)%N eqn:E; [done|].
    injection H as _ <-. apply N.eqb_neq in E. lia. }
  destruct (str_eqb range _); [injection Hab as <- <-; lia|].
  destruct (split_once c!"-" range) as [[lo hi]|].
  - revert Hab. rewrite result_bind_ok. intros (x & Hx & H). revert H. rewrite result_bind_ok.
    intros (y & Hy & [= <- <-]). apply value_of_range in Hx, Hy; [lia|done|done].
  - revert Hab. rewrite result_bind_ok. intros (x & Hx & [= <- Hy]). apply value_of_range in Hx; [|done].
    destruct (1 <? step)%N; subst; lia.
Qed.

Lemma parse_items_spec items min max names values out :
  (min <= max)%N -> (max < 255)%N -> Forall (fun kv => (min <= snd kv <= max)%N) names ->
  NoDup values -> parse_items items min max names values = Ok out ->
  NoDup out /\ forall v, v ∈ out <-> v ∈ values \/ exists item, item ∈ items /\ item_allows min max names item v.
Proof.
  intros Hm H255 Hn. revert values. induction items as [|item items IH]; intros values Hnd; cbn [parse_items].
  - intros [= <-]. split; [done|]. intros v. split; [by left|]. intros [|(i & Hi & _)]; [done|by apply elem_of_nil in Hi].
  - rewrite result_bind_ok. intros ([[start last] step] & Hitem & H).
    pose proof (parse_item_range _ _ _ _ _ _ _ Hm Hn Hitem) as (? & ? & ? & ?).
    destruct (IH _ (fill_NoDup 256 start last step values Hnd) H) as [Hnd' Hin]. split; [done|].
    intros v. rewrite Hin, fill_spec by (unfold u8_max in *; lia).
    setoid_rewrite elem_of_cons. unfold item_allows. split.
    + intros [[?|(? & ?)]|(i & Hi & Ha)]; [by left| |eauto].
      right. exists item. split; [by left|]. exists start, last, step. done.
    + intros [?|(i & [->|Hi] & Ha)]; [by left; left| |right; eauto].
      destruct Ha as (s' & l' & st' & Heq & ? & ?). rewrite Hitem in Heq. injection Heq as <- <- <-. left; by right.
Qed.

Lemma sort_increasing l : NoDup l -> increasing (sort_by N.compare l).
Proof.
  intros Hnd. pose proof (sort_by_sorted N.compare l) as Hs.
  rewrite <- (sort_by_perm N.compare l) in Hnd. unfold increasing.
  induction Hs as [|x l' _ IH Hall]; [constructor|]. apply NoDup_cons in Hnd as [Hx Hnd].
  constructor; [auto|]. rewrite Forall_forall in *. intros y Hy. specialize (Hall y Hy).
  unfold cmp_le in Hall. rewrite N.compare_le_iff in Hall.
  assert (x <> y) by (by intros ->). lia.
Qed.

(** A parsed cron field lists, in increasing order and inside the field's range, exactly the
    values some comma-separated item of it stands for: its start and every step after it up to its
    end. *)
Theorem parse_field_exact (field : str) (min max : N) (names : list (str * N)) (values : list N)
  (Hrange : (min <= max < 255)%N) (Hnames : Forall (fun kv => (min <= snd kv <= max)%N) names)
  (Hparse : parse_field field min max names = Ok values) :
  increasing values /\ Forall (fun v => (min <= v <= max)%N) values /\ values <> []
  /\ forall v, v ∈ values <-> exists item, item ∈ split_on c!"," field /\ item_allows min max names item v.
Proof.
  revert Hparse. unfold parse_field. rewrite result_bind_ok. intros (out & Hout & H).
  destruct (bool_decide (out = [])) eqn:E; [done|]. injection H as <-. apply bool_decide_eq_false in E.
  apply parse_items_spec in Hout as [Hnd Hin]; [|lia|lia|done|constructor].
  assert (forall v, v ∈ sort_by N.compare out <-> exists item, item ∈ split_on c!"," field /\ item_allows min max names item v)
    as Hv.
  { intros v. rewrite (sort_by_perm N.compare), Hin. split; [|by right]. by intros [?%elem_of_nil|]. }
  split_and!; [by apply sort_increasing| |by rewrite (sort_by_nil N.compare)|done].
  apply Forall_forall. intros v (item & _ & start & last & step & Hi & Hle & k & ->)%Hv.
  apply parse_item_range in Hi; [|lia|done]. lia.
Qed.

Lemma elem_of_dedup_N l v : v ∈ dedup_N l <-> v ∈ l.
Proof.
  induction l as [|x l IH]; [done|]. cbn [dedup_N]. destruct l as [|y l]; [done|].
  destruct (N.eqb_spec x y) as [->|Hne]; rewrite ?elem_of_cons, IH, ?elem_of_cons; naive_solver.
Qed.
Lemma dedup_N_increasing l : StronglySorted (cmp_le N.compare) l -> increasing (dedup_N l).
Proof.
  unfold increasing. induction 1 as [|x l Hs IH Hall]; [constructor|]. cbn [dedup_N].
  destruct l as [|y l]; [repeat constructor|]. destruct (N.eqb_spec x y) as [->|Hne]; [done|].
  constructor; [done|]. rewrite Forall_forall. intros z Hz. rewrite elem_of_dedup_N in Hz.
  rewrite Forall_forall in Hall. pose proof (Hall y ltac:(by left)) as Hxy. unfold cmp_le in *.
  rewrite N.compare_le_iff in Hxy.
  assert (y <= z)%N; [|lia]. apply elem_of_cons in Hz as [->|Hz]; [lia|].
  inversion Hs as [|? ? ? Hy]; subst. rewrite Forall_forall in Hy. specialize (Hy z Hz).
  by rewrite N.compare_le_iff in Hy.
Qed.

Lemma names_in_range names min max :
  forallb (fun kv => (min <=? snd kv)%N && (snd kv <=? max)%N) names = true ->
  Forall (fun kv : str * N => (min <= snd kv <= max)%N) names.
Proof.
  rewrite forallb_elem, Forall_forall. intros H kv Hkv. specialize (H kv Hkv).
  apply andb_true_iff in H as [?%N.leb_le ?%N.leb_le]. lia.
Qed.

Lemma parse_field_sound field min max names values :
  (min <= max < 255)%N -> forallb (fun kv => (min <=? snd kv)%N && (snd kv <=? max)%N) names = true ->
  parse_field field min max names = Ok values ->
  increasing values /\ Forall (fun v => (min <= v <= max)%N) values /\ values <> [].
Proof.
  intros Hr Hn Hp. apply names_in_range in Hn. revert Hp. unfold parse_field. rewrite result_bind_ok.
  intros (out & Hout & H). destruct (bool_decide (out = [])) eqn:E; [done|]. injection H as <-.
  apply bool_decide_eq_false in E. apply parse_items_spec in Hout as [Hnd Hin]; [|lia|lia|done|constructor].
  split_and!; [by apply sort_increasing| |by rewrite (sort_by_nil N.compare)].
  apply Forall_forall. intros v Hv. rewrite (sort_by_perm N.compare), Hin in Hv.
  destruct Hv as [?%elem_of_nil|(item & _ & start & last & step & Hi & Hle & k & ->)]; [done|].
  apply parse_item_range in Hi; [|lia|done]. lia.
Qed.

Lemma cron_parse_ok expression c : cron_parse expression = Ok c -> schedule_ok c.
Proof.
  unfold cron_parse. destruct (split_whitespace expression) as [|f0 [|f1 [|f2 [|f3 [|f4 [|]]]]]]; try done.
  rewrite result_bind_ok. intros (mi & Hmi & H). revert H. rewrite result_bind_ok. intros (ho & Hho & H).
  revert H. rewrite result_bind_ok. intros (da & Hda & H). revert H. rewrite result_bind_ok.
  intros (mo & Hmo & H). revert H. rewrite result_bind_ok. intros (we & Hwe & [= <-]).
  apply parse_field_sound in Hmi as (? & Hm & ?); [|lia|reflexivity].
  apply parse_field_sound in Hho as (? & Hh & ?); [|lia|reflexivity].
  apply parse_field_sound in Hda as (? & Hd & ?); [|lia|reflexivity].
  apply parse_field_sound in Hmo as (? & Ho & ?); [|lia|reflexivity].
  apply parse_field_sound in Hwe as (? & Hw & Hne); [|lia|reflexivity].
  assert (forall v, v ∈ dedup_N (sort_by N.compare ((fun v => if (v =? 7)%N then 0%N else v) <$> we)) <->
    v ∈ ((fun v => if (v =? 7)%N then 0%N else v) <$> we)) as Hin
    by (intros v; by rewrite elem_of_dedup_N, (sort_by_perm N.compare)).
  split; simpl; split_and!; try done.
  - eapply Forall_impl; [exact Hm|]. simpl. lia.
  - eapply Forall_impl; [exact Hh|]. simpl. lia.
  - apply dedup_N_increasing, (sort_by_sorted N.compare).
  - apply Forall_forall. intros v Hv0. apply Hin in Hv0. apply list_elem_of_fmap in Hv0 as (w & -> & Hv). rewrite Forall_forall in Hw.
    specialize (Hw w Hv). simpl in Hw. destruct (N.eqb_spec w 7); lia.
  - destruct we as [|w we]; [done|]. intros E.
    assert ((if (w =? 7)%N then 0%N else w) ∈ (nil : list N)) as Hnil by (rewrite <- E; apply Hin; by left).
    by apply elem_of_nil in Hnil.
Qed.

(** ** Lemmas: the search *)

Section Search.
Context `{Calendar}.

(** The instant of a day, hour and minute. *)
Definition instant_of (d : Z) (h m : N) : Z :=
  d * NANOS_PER_DAY + (Z.of_N h * 60 + Z.of_N m) * NANOS_PER_MINUTE.

Lemma at_time_ok d h m : (h < 24)%N -> (m < 60)%N -> at_time d h m = Ok (instant_of d h m).
Proof. intros Hh Hm. unfold at_time. by rewrite (proj2 (N.ltb_lt _ _) Hh), (proj2 (N.ltb_lt _ _) Hm). Qed.

Lemma date_instant_of d h m : (h < 24)%N -> (m < 60)%N -> date_of (instant_of d h m) = d.
Proof.
  intros Hh Hm. unfold date_of, instant_of, NANOS_PER_DAY, NANOS_PER_MINUTE.
  symmetry. apply (Z.div_unique _ _ _ ((Z.of_N h * 60 + Z.of_N m) * 60000000000)); lia.
Qed.
Lemma instant_of_mono d h h' m m' :
  (m < 60)%N -> (m' < 60)%N -> (h < h')%N -> instant_of d h m < instant_of d h' m'.
Proof. unfold instant_of, NANOS_PER_MINUTE. lia. Qed.
Lemma instant_of_mono_minute d h m m' : (m < m')%N -> instant_of d h m < instant_of d h m'.
Proof. unfold instant_of, NANOS_PER_MINUTE. lia. Qed.

Lemma first_minute_spec from d h ms :
  (h < 24)%N -> Forall (fun m => (m < 60)%N) ms -> increasing ms ->
  exists o, first_minute from d h ms = Ok o /\
    match o with
    | Some t => exists m, m ∈ ms /\ t = instant_of d h m /\ from < t
                          /\ forall m', m' ∈ ms -> from < instant_of d h m' -> t <= instant_of d h m'
    | None => forall m, m ∈ ms -> instant_of d h m <= from
    end.
Proof.
  intros Hh. induction ms as [|m ms IH]; intros Hr Hs; cbn [first_minute].
  - exists None. split; [done|]. intros m Hm. by apply elem_of_nil in Hm.
  - apply Forall_cons in Hr as [Hm Hr]. inversion Hs as [|? ? Hs' Hall]; subst.
    rewrite at_time_ok by done. cbn [result_bind]. destruct (Z.leb_spec (instant_of d h m) from) as [Hle|Hgt].
    + destruct (IH Hr Hs') as ([t|] & -> & Ht); eexists; (split; [done|]); simpl.
      * destruct Ht as (m1 & Hin & -> & Hlt & Hmin). exists m1. split_and!; [by right|done|done|].
        intros m' [->|Hm']%elem_of_cons Hf; [lia|by apply Hmin].
      * intros m' [->|Hm']%elem_of_cons; [done|by apply Ht].
    + eexists. split; [done|]. simpl. exists m. split_and!; [by left|done|done|].
      intros m' [->|Hm']%elem_of_cons _; [lia|]. rewrite Forall_forall in Hall.
      pose proof (instant_of_mono_minute d h m m' (Hall m' Hm')). lia.
Qed.

Lemma first_of_day_spec from d ms hs :
  Forall (fun h => (h < 24)%N) hs -> increasing hs -> Forall (fun m => (m < 60)%N) ms -> increasing ms ->
  exists o, first_of_day from d ms hs = Ok o /\
    match o with
    | Some t => exists h m, h ∈ hs /\ m ∈ ms /\ t = instant_of d h m /\ from < t
        /\ forall h' m', h' ∈ hs -> m' ∈ ms -> from < instant_of d h' m' -> t <= instant_of d h' m'
    | None => forall h m, h ∈ hs -> m ∈ ms -> instant_of d h m <= from
    end.
Proof.
  intros Hh Hhs Hm Hms. induction hs as [|h hs IH]; cbn [first_of_day].
  - exists None. split; [done|]. intros h m Hin. by apply elem_of_nil in Hin.
  - apply Forall_cons in Hh as [Hh Hr]. inversion Hhs as [|? ? Hs' Hall]; subst.
    destruct (first_minute_spec from d h ms Hh Hm Hms) as ([t|] & -> & Ht); cbn [result_bind].
    + eexists. split; [done|]. destruct Ht as (m & Hin & -> & Hlt & Hmin). exists h, m.
      split_and!; [by left|done|done|done|]. intros h' m' [->|Hh']%elem_of_cons Hm' Hf; [by apply Hmin|].
      rewrite Forall_forall in Hall, Hm. specialize (Hall h' Hh').
      pose proof (instant_of_mono d h h' m m' (Hm m Hin) (Hm m' Hm') Hall). lia.
    + destruct (IH Hr Hs') as ([t|] & -> & Ht'); eexists; (split; [done|]); simpl.
      * destruct Ht' as (h1 & m1 & ? & ? & -> & Hlt & Hmin). exists h1, m1.
        split_and!; [by right|done|done|done|].
        intros h' m' [->|Hh']%elem_of_cons Hm' Hf; [specialize (Ht m' Hm'); lia|by apply Hmin].
      * intros h' m' [->|Hh']%elem_of_cons Hm'; [by apply Ht|by apply Ht'].
Qed.

Lemma names_instant_intro c d h m :
  h ∈ hours c -> m ∈ minutes c -> (h < 24)%N -> (m < 60)%N -> matches_day c d = true ->
  names_instant c (instant_of d h m).
Proof.
  intros ? ? ? ? Hd%matches_day_iff. exists h, m. rewrite date_instant_of by done. split_and!; done.
Qed.

Lemma search_spec c fuel from d :
  schedule_ok c ->
  match search c fuel from d with
  | Ok t => names_instant c t /\ from < t /\
      forall t', names_instant c t' -> from < t' -> d <= date_of t' -> t <= t'
  | Err _ => forall t', names_instant c t' -> from < t' -> d <= date_of t' ->
      cal_max < date_of t' \/ d + Z.of_nat fuel <= date_of t'
  end.
Proof.
  intros [(Hm1 & Hm2 & _) (Hh1 & Hh2 & _) _ _ _].
  assert (Forall (fun m => (m < 60)%N) (minutes c)) as Hm by (eapply Forall_impl; [exact Hm2|]; simpl; lia).
  assert (Forall (fun h => (h < 24)%N) (hours c)) as Hh by (eapply Forall_impl; [exact Hh2|]; simpl; lia).
  revert d. induction fuel as [|fuel IH]; intros d; cbn [search]; [intros; right; lia|].
  assert (exists o, (if matches_day c d then first_of_day from d (minutes c) (hours c) else Ok None) = Ok o /\
    match o with
    | Some t => names_instant c t /\ from < t /\ date_of t = d /\
        forall t', names_instant c t' -> from < t' -> date_of t' = d -> t <= t'
    | None => forall t', names_instant c t' -> date_of t' = d -> t' <= from
    end) as (o & -> & Ho).
  { destruct (matches_day c d) eqn:Ed.
    - destruct (first_of_day_spec from d (minutes c) (hours c) Hh Hh1 Hm Hm1) as ([t|] & Heq & Ht);
        eexists; (split; [exact Heq|]); simpl.
      + destruct Ht as (h & m & Hin & Hin' & -> & Hlt & Hmin). rewrite Forall_forall in Hm, Hh.
        rewrite date_instant_of by auto. split_and!; [by apply names_instant_intro; auto|done|done|].
        intros t' (h' & m' & ? & ? & ? & ? & Heq' & _) Hf Hd. rewrite Hd in Heq'.
        rewrite Heq'. apply Hmin; [done..|]. unfold instant_of. lia.
      + intros t' (h' & m' & ? & ? & ? & ? & Heq' & _) Hd. rewrite Hd in Heq'. rewrite Heq'. by apply Ht.
    - exists None. split; [done|]. intros t' (h' & m' & _ & _ & _ & _ & _ & Hd'%matches_day_iff) Hd. congruence. }
  destruct o as [t|]; cbn [result_bind].
  - destruct Ho as (Hn & Hf & Hd & Hmin). split_and!; [done|done|]. intros t' Hn' Hf' Hd'.
    destruct (decide (date_of t' = d)) as [|Hne]; [by apply Hmin|].
    assert (date_of t < date_of t') as Hlt by lia. unfold date_of in Hlt.
    destruct (Z.le_gt_cases t t') as [|Hgt]; [done|].
    pose proof (Z.div_le_mono t' t NANOS_PER_DAY ltac:(unfold NANOS_PER_DAY, NANOS_PER_MINUTE; lia) ltac:(lia)). lia.
  - assert (forall t', names_instant c t' -> from < t' -> date_of t' <> d) as Hne
      by (intros t' Hn Hf Hd; specialize (Ho t' Hn Hd); lia).
    unfold next_day. destruct (Z.ltb_spec d cal_max).
    + specialize (IH (d + 1)). destruct (search c fuel from (d + 1)) as [t|e].
      * destruct IH as (? & ? & Hmin). split_and!; [done|done|]. intros t' Hn Hf Hd.
        apply Hmin; [done..|]. specialize (Hne t' Hn Hf). lia.
      * intros t' Hn Hf Hd. specialize (Hne t' Hn Hf). destruct (IH t' Hn Hf ltac:(lia)); [by left|right; lia].
    + intros t' Hn Hf Hd. specialize (Hne t' Hn Hf). left. lia.
Qed.

Lemma next_after_later c from t :
  schedule_ok c -> next_after c from = Ok t -> names_instant c t /\ from < t.
Proof.
  intros Hok Hnext. unfold next_after in Hnext.
  pose proof (search_spec c MAX_SEARCH_DAYS from (date_of (((from + NANOS_PER_MINUTE) / NANOS_PER_MINUTE) * NANOS_PER_MINUTE)) Hok) as Hs.
  rewrite Hnext in Hs. by destruct Hs as (? & ? & _).
Qed.

(** C33. The next run of a parsed schedule is the first instant the schedule names strictly after the
    given one; when there is no answer, no instant it names lies within the following
    [MAX_SEARCH_DAYS] days (or before the calendar ends). *)
Theorem next_after_exact (expression : str) (c : cron_schedule) (from : Z)
  (Hparse : cron_parse expression = Ok c) :
  match next_after c from with
  | Ok t => names_instant c t /\ from < t /\ forall t', names_instant c t' -> from < t' -> t <= t'
  | Err _ => forall t', names_instant c t' -> from < t' ->
      cal_max < date_of t' \/ date_of from + Z.of_nat MAX_SEARCH_DAYS <= date_of t'
  end.
Proof.
  apply cron_parse_ok in Hparse as Hok. unfold next_after. set (start := _ * NANOS_PER_MINUTE).
  assert (forall t', names_instant c t' -> from < t' -> date_of start <= date_of t') as Hstart.
  { intros t' (h & m & _ & _ & _ & _ & Heq & _) Hf. unfold date_of at 1 2.
    apply Z.div_le_mono; [unfold NANOS_PER_DAY, NANOS_PER_MINUTE; lia|].
    unfold start, NANOS_PER_DAY in *. set (M := NANOS_PER_MINUTE) in *.
    assert (0 < M) by (unfold M, NANOS_PER_MINUTE; lia).
    assert (exists k, t' = k * M) as [k ->].
    { exists (date_of t' * 1440 + (Z.of_N h * 60 + Z.of_N m)). rewrite Heq at 1. ring. }
    assert ((from + M) / M <= k); [|nia].
    replace (from + M) with (from + 1 * M) by ring. rewrite Z.div_add by lia.
    assert (from / M < k); [|lia]. apply Z.div_lt_upper_bound; lia. }
  assert (date_of from <= date_of start) as Hdate.
  { unfold date_of. apply Z.div_le_mono; [unfold NANOS_PER_DAY, NANOS_PER_MINUTE; lia|].
    unfold start. set (M := NANOS_PER_MINUTE). assert (0 < M) by (unfold M, NANOS_PER_MINUTE; lia).
    pose proof (Z.mod_pos_bound (from + M) M ltac:(lia)). pose proof (Z.div_mod (from + M) M ltac:(lia)). lia. }
  pose proof (search_spec c MAX_SEARCH_DAYS from (date_of start) Hok) as Hs.
  destruct (search _ _ _ _) as [t|e].
  - destruct Hs as (? & ? & Hmin). split_and!; [done|done|]. intros t' Hn Hf. apply Hmin; auto.
  - intros t' Hn Hf. destruct (Hs t' Hn Hf (Hstart t' Hn Hf)); [by left|right; lia].
Qed.
End Search.

(** ** A concrete calendar and the witnesses *)

(** The proleptic Gregorian calendar over day numbers counted from 1970-01-01. *)
Definition civil (z : Z) : Z * Z * Z :=
  let z := z + 719468 in
  let era := z / 146097 in
  let doe := z - era * 146097 in
  let yoe := (doe - doe / 1460 + doe / 36524 - doe / 146096) / 365 in
  let doy := doe - (365 * yoe + yoe / 4 - yoe / 100) in
  let mp := (5 * doy + 2) / 153 in
  let m := if mp <? 10 then mp + 3 else mp - 9 in
  (yoe + era * 400 + (if m <=? 2 then 1 else 0), m, doy - (153 * mp + 2) / 5 + 1).

#[export] Instance gregorian : Calendar := {|
  cal_month := fun d => Z.to_N (snd (fst (civil d)));
  cal_day := fun d => Z.to_N (snd (civil d));
  cal_weekday := fun d => Z.to_N ((d + 4) mod 7);
  cal_max := 2932896
|}.

(** 2026-03-01 12:30:15 UTC; the next quarter past on a working day is Monday 2026-03-02 09:15. *)
Definition sample_instant : Z := 1772368215 * 1000000000.

Lemma parse_field_exact_witness :
  exists values, parse_field s!"mon-fri" 0 7 WEEKDAY_NAMES = Ok values /\ values <> [].
Proof.
  assert (exists values, parse_field s!"mon-fri" 0 7 WEEKDAY_NAMES = Ok values) as [values H]
    by (eexists; vm_compute; reflexivity).
  exists values. split; [exact H|].
  refine (proj1 (proj2 (proj2 (parse_field_exact s!"mon-fri" 0 7 WEEKDAY_NAMES values _ _ H)))).
  - lia.
  - apply names_in_range. reflexivity.
Defined.

Lemma next_after_exact_witness :
  exists c t, cron_parse s!"15 9 * * mon-fri" = Ok c /\ next_after c sample_instant = Ok t
              /\ t = 1772442900 * 1000000000 /\ names_instant c t.
Proof.
  assert (exists c, cron_parse s!"15 9 * * mon-fri" = Ok c
    /\ next_after c sample_instant = Ok (1772442900 * 1000000000)) as (c & Hc & Hn)
    by (eexists; split; [vm_compute; reflexivity|vm_compute; reflexivity]).
  exists c, (1772442900 * 1000000000). split; [exact Hc|]. split; [exact Hn|]. split; [reflexivity|].
  pose proof (next_after_exact s!"15 9 * * mon-fri" c sample_instant Hc) as H. rewrite Hn in H.
  exact (proj1 H).
Defined.

(** A single value with a step of one stands for that value alone, although [n/step] is
    documented as "from n to the top of the range"; with a step of two it does run to the top. *)
Theorem unit_step_gap :
  parse_field s!"57/1" 0 59 [] = Ok [57%N] /\ parse_field s!"57/2" 0 59 [] = Ok [57%N; 59%N].
Proof. split; vm_compute; reflexivity. Qed.
