(* ===== verification/Definitions.v ===== *)
(** * Workflow definitions and built-in actions: [crates/workflows/src/definition.rs], [actions.rs]

    The shape an author writes, the rules it must satisfy, and the closed set of actions. *)

From S2P Require Import Prelude Json Cron.

Inductive trigger_kind := Manual | Schedule | Event.
#[export] Instance trigger_kind_eq_dec : EqDecision trigger_kind.
Proof. solve_decision. Defined.
Definition trigger_kind_as_str (k : trigger_kind) : str :=
  match k with Manual => s!"manual" | Schedule => s!"schedule" | Event => s!"event" end.
Definition trigger_kind_parse (raw : str) : option trigger_kind :=
  if str_eqb raw s!"manual" then Some Manual
  else if str_eqb raw s!"schedule" then Some Schedule
  else if str_eqb raw s!"event" then Some Event else None.

Inductive step_kind := Task | Wait.
Definition step_kind_as_str (k : step_kind) : str :=
  match k with Task => s!"task" | Wait => s!"wait" end.
Definition step_kind_parse (raw : str) : option step_kind :=
  if str_eqb raw s!"task" then Some Task else if str_eqb raw s!"wait" then Some Wait else None.

Lemma step_kind_parse_as_str k : step_kind_parse (step_kind_as_str k) = Some k.
Proof. by destruct k. Qed.

Definition MAX_STEPS : nat := 50.
Definition MAX_CONDITIONS : nat := 10.
Definition MAX_EVENT_NAME : nat := 96.
Definition MAX_EVENT_SEGMENT : nat := 32.
Definition MAX_ATTEMPTS : Z := 5.
Definition MAX_WAIT_SECONDS : Z := 86400.
Definition MAX_STEP_NAME : nat := 80.

(** ** Actions *)

Section Actions.
Context `{J : JsonNumber}.

Definition ACTIONS : list str := [s!"noop"; s!"echo"; s!"fail"; s!"transient"].
Definition HOST_ACTIONS : list str := [s!"send_email"; s!"comment_revision"].
Definition action_keys : list str := ACTIONS ++ HOST_ACTIONS.
Definition is_action (key : str) : bool :=
  existsb (fun a => str_eqb a key) ACTIONS || existsb (fun a => str_eqb a key) HOST_ACTIONS.
Definition is_host_action (key : str) : bool := existsb (fun a => str_eqb a key) HOST_ACTIONS.

Definition require_text (params : value) (key : str) : result unit workflow_error :=
  let text := default [] (get key params ≫= as_str) in
  if str_eqb (trim text) [] then Err (Invalid s!"invalid_step_params") else Ok tt.

Definition validate_params (action : str) (params : value) : result unit workflow_error :=
  if str_eqb action s!"noop" then Ok tt
  else if str_eqb action s!"echo" then
    match get s!"value" params with
    | None => Err (Invalid s!"invalid_step_params")
    | Some _ => Ok tt
    end
  else if str_eqb action s!"fail" then Ok tt
  else if str_eqb action s!"transient" then
    match get s!"fail_times" params ≫= as_i64 with
    | Some n => if (1 <=? n) && (n <=? 4) then Ok tt else Err (Invalid s!"invalid_step_params")
    | None => Err (Invalid s!"invalid_step_params")
    end
  else if str_eqb action s!"send_email" then
    let? _ := require_text params s!"to" in
    let? _ := require_text params s!"subject" in
    require_text params s!"body"
  else if str_eqb action s!"comment_revision" then
    let? _ := require_text params s!"revision_id" in
    require_text params s!"body"
  else Err (Invalid s!"invalid_step_action").

(** Run one synthetic action: its output, or the failure message. *)
Definition run_action (action : str) (params : value) (attempt : Z) : result value str :=
  if is_host_action action then
    Err (s!"`" ++ action ++ s!"` is a host action; the process must install an action handler to run it")
  else if str_eqb action s!"noop" then Ok (VObject [(s!"action", VString s!"noop")])
  else if str_eqb action s!"echo" then
    Ok (VObject [(s!"action", VString s!"echo"); (s!"value", default VNull (get s!"value" params))])
  else if str_eqb action s!"fail" then
    Err (default s!"the fail action always fails" (get s!"message" params ≫= as_str))
  else if str_eqb action s!"transient" then
    let fail_times := default i32_max (get s!"fail_times" params ≫= as_i64) in
    if attempt <=? fail_times then
      Err (s!"simulated transient failure on attempt " ++ show_Z attempt ++ s!" of " ++ show_Z fail_times)
    else Ok (VObject [(s!"action", VString s!"transient"); (s!"attempt", VNumber (number_of_Z attempt))])
  else Err (s!"`" ++ action ++ s!"` is not a built-in action").

(** ** Definitions *)

Record trigger := Trigger { tr_kind : trigger_kind; tr_cron : option str; tr_event : option str }.

Record step_definition := StepDefinition {
  sd_name : str;
  sd_kind : step_kind;
  sd_action : option str;
  sd_params : value;
  sd_max_attempts : Z
}.

Record workflow_definition := WorkflowDefinition {
  wd_trigger : trigger;
  wd_conditions : list value;
  wd_steps : list step_definition
}.

Definition wait_seconds_from (params : value) : result Z workflow_error :=
  let? seconds := ok_or (get s!"seconds" params ≫= as_i64) (Invalid s!"invalid_wait") in
  require (1 <=? seconds) && (seconds <=? MAX_WAIT_SECONDS) else Invalid s!"invalid_wait" in
  Ok seconds.

Definition validate_attempts (s : step_definition) : result unit workflow_error :=
  require (1 <=? sd_max_attempts s) && (sd_max_attempts s <=? MAX_ATTEMPTS)
    else Invalid s!"invalid_max_attempts" in Ok tt.

Definition step_validate (s : step_definition) : result unit workflow_error :=
  let name := trim (sd_name s) in
  refuse str_eqb name [] with Invalid s!"invalid_step_name" in
  refuse (MAX_STEP_NAME <? length name)%nat with Invalid s!"invalid_step_name" in
  require is_object (sd_params s) else Invalid s!"invalid_step_params" in
  match sd_kind s with
  | Task =>
      let action := trim (default [] (sd_action s)) in
      require is_action action else Invalid s!"invalid_step_action" in
      let? _ := validate_params action (sd_params s) in
      validate_attempts s
  | Wait =>
      match sd_action s with
      | Some _ => Err (Invalid s!"invalid_wait")
      | None =>
          require sd_max_attempts s =? 1 else Invalid s!"invalid_max_attempts" in
          let? _ := wait_seconds_from (sd_params s) in Ok tt
      end
  end.

Definition segment_ok (segment : str) : bool :=
  negb (str_eqb segment []) && (utf8_len segment <=? MAX_EVENT_SEGMENT)%nat
  && match segment with c :: _ => is_ascii_lowercase c | [] => false end
  && forallb (fun c => is_ascii_lowercase c || is_ascii_digit c || (c =? c!"_")%N) segment.

Definition trigger_event_name (t : trigger) : result str workflow_error :=
  let raw := trim (default [] (tr_event t)) in
  refuse str_eqb raw [] with Invalid s!"invalid_trigger" in
  refuse (MAX_EVENT_NAME <? utf8_len raw)%nat with Invalid s!"invalid_trigger" in
  let segments := split_on c!"." raw in
  require (2 <=? length segments)%nat && forallb segment_ok segments else Invalid s!"invalid_trigger" in
  Ok raw.


Definition trigger_validate `{Cal : Calendar} (t : trigger) (now : Z) : result (option Z) workflow_error :=
  match tr_kind t with
  | Manual =>
      refuse is_given (tr_cron t) with Invalid s!"invalid_trigger" in
      refuse is_given (tr_event t) with Invalid s!"invalid_trigger" in
      Ok None
  | Schedule =>
      refuse is_given (tr_event t) with Invalid s!"invalid_trigger" in
      let raw := trim (default [] (tr_cron t)) in
      refuse str_eqb raw [] with Invalid s!"invalid_trigger" in
      let? schedule := cron_parse raw in
      let? next := next_after schedule now in
      Ok (Some next)
  | Event =>
      refuse is_given (tr_cron t) with Invalid s!"invalid_trigger" in
      let? _ := trigger_event_name t in
      Ok None
  end.

Definition validate_conditions (d : workflow_definition) : result unit workflow_error :=
  refuse (MAX_CONDITIONS <? length (wd_conditions d))%nat with Invalid s!"invalid_conditions" in
  match wd_conditions d with
  | [] => Ok tt
  | _ =>
      require bool_decide (tr_kind (wd_trigger d) = Event) else Invalid s!"invalid_conditions" in
      require forallb is_object (wd_conditions d) else Invalid s!"invalid_conditions" in
      Ok tt
  end.

Fixpoint validate_steps (seen : list str) (steps : list step_definition) : result unit workflow_error :=
  match steps with
  | [] => Ok tt
  | s :: rest =>
      let? _ := step_validate s in
      let name := trim (sd_name s) in
      refuse existsb (str_eqb name) seen with Invalid s!"invalid_step_name" in
      validate_steps (seen ++ [name]) rest
  end.

Definition definition_validate `{Cal : Calendar} (d : workflow_definition) (now : Z) : result unit workflow_error :=
  refuse bool_decide (wd_steps d = []) with Invalid s!"invalid_steps" in
  refuse (MAX_STEPS <? length (wd_steps d))%nat with Invalid s!"invalid_steps" in
  let? _ := validate_steps [] (wd_steps d) in
  let? _ := validate_conditions d in
  let? _ := trigger_validate (wd_trigger d) now in
  Ok tt.

(** ** What validation guarantees *)

(** A step the engine can run: its kind agrees with its action, its attempts are bounded. *)
Definition step_ready (s : step_definition) : Prop :=
  trim (sd_name s) <> []
  /\ match sd_kind s with
     | Task => is_action (trim (default [] (sd_action s))) = true /\ 1 <= sd_max_attempts s <= MAX_ATTEMPTS
     | Wait => sd_action s = None /\ sd_max_attempts s = 1
               /\ exists n, wait_seconds_from (sd_params s) = Ok n /\ 1 <= n <= MAX_WAIT_SECONDS
     end.

Lemma step_validate_ready s : step_validate s = Ok tt -> step_ready s.
Proof.
  unfold step_validate, step_ready. destruct (str_eqb (trim (sd_name s)) []) eqn:En; [done|].
  apply str_eqb_neq in En. destruct (_ <? _)%nat; [done|]. destruct (is_object _); [|done].
  intros H. split; [done|]. destruct (sd_kind s).
  - destruct (is_action _); [|done]. revert H. rewrite result_bind_ok. intros (u & _ & H). split; [done|].
    unfold validate_attempts in H. destruct (_ && _) eqn:E; [|done].
    apply andb_true_iff in E as [?%Z.leb_le ?%Z.leb_le]. done.
  - destruct (sd_action s); [done|]. destruct (sd_max_attempts s =? 1) eqn:E; [|done].
    apply Z.eqb_eq in E. revert H. rewrite result_bind_ok. intros (n & Hn & _). split_and!; [done|done|].
    exists n. split; [done|]. revert Hn. unfold wait_seconds_from. rewrite result_bind_ok.
    intros (x & _ & H). destruct (_ && _) eqn:E'; [|done]. injection H as ->.
    by apply andb_true_iff in E' as [?%Z.leb_le ?%Z.leb_le].
Qed.

Lemma validate_steps_ok seen steps :
  validate_steps seen steps = Ok tt ->
  Forall step_ready steps /\ NoDup (trim ∘ sd_name <$> steps)
  /\ forall s, s ∈ steps -> trim (sd_name s) ∉ seen.
Proof.
  revert seen. induction steps as [|s steps IH]; intros seen; cbn [validate_steps].
  - intros _. split_and!; [constructor|constructor|]. intros s Hs. by apply elem_of_nil in Hs.
  - rewrite result_bind_ok. intros ([] & Hs & H). destruct (existsb _ seen) eqn:E; [done|].
    apply IH in H as (Hr & Hn & Hfresh). split_and!.
    + constructor; [by apply step_validate_ready|done].
    + rewrite fmap_cons. constructor; [|done]. intros (x & Hx & Hin)%list_elem_of_fmap.
      apply (Hfresh x Hin), elem_of_app. right. simpl in Hx. rewrite <- Hx. by left.
    + intros x [->|Hx]%elem_of_cons Hin.
      * apply not_true_iff_false in E. apply E, existsb_elem. eexists. split; [exact Hin|apply str_eqb_refl].
      * apply (Hfresh x Hx), elem_of_app. by left.
Qed.

(** A definition that passes validation has 1 to 50 steps with distinct names, each of a kind
    that agrees with its action, with 1 to 5 attempts for a task and a pause of one second to one
    day for a wait; conditions only on an event trigger; and a schedule whose next run is an
    instant of the expression strictly after now. *)
Theorem definition_validated `{Cal : Calendar} (d : workflow_definition) (now : Z)
  (Hvalid : definition_validate d now = Ok tt) :
  (1 <= length (wd_steps d) <= 50)%nat
  /\ NoDup (trim ∘ sd_name <$> wd_steps d) /\ Forall step_ready (wd_steps d)
  /\ (length (wd_conditions d) <= 10)%nat
  /\ (wd_conditions d <> [] -> tr_kind (wd_trigger d) = Event)
  /\ (tr_kind (wd_trigger d) = Schedule -> exists c t,
        cron_parse (trim (default [] (tr_cron (wd_trigger d)))) = Ok c
        /\ trigger_validate (wd_trigger d) now = Ok (Some t) /\ names_instant c t /\ now < t).
Proof.
  revert Hvalid. unfold definition_validate. destruct (bool_decide (wd_steps d = [])) eqn:E0; [done|].
  apply bool_decide_eq_false in E0. destruct (MAX_STEPS <? _)%nat eqn:E1; [done|].
  apply Nat.ltb_ge in E1. unfold MAX_STEPS in E1. rewrite result_bind_ok. intros ([] & Hsteps & H). revert H.
  rewrite result_bind_ok. intros ([] & Hc & H). revert H. rewrite result_bind_ok. intros (next & Ht & _).
  apply validate_steps_ok in Hsteps as (Hr & Hn & _). revert Hc. unfold validate_conditions.
  destruct (MAX_CONDITIONS <? _)%nat eqn:E2; [done|]. apply Nat.ltb_ge in E2. unfold MAX_CONDITIONS in E2.
  intros Hc. split_and!; try done.
  - destruct (wd_steps d); [done|]. simpl. lia.
  - intros Hne. destruct (wd_conditions d); [done|]. destruct (bool_decide _) eqn:E; [|done].
    by apply bool_decide_eq_true in E.
  - intros Hk. revert Ht. unfold trigger_validate. rewrite Hk.
    destruct (is_given _); [done|]. destruct (str_eqb _ []); [done|]. rewrite result_bind_ok.
    intros (c & Hcp & H1). revert H1. rewrite result_bind_ok. intros (t & Hnext & [= <-]).
    exists c, t. rewrite Hcp. simpl. rewrite Hnext. split_and!; try done;
      by apply (next_after_later c now t (cron_parse_ok _ _ Hcp)) in Hnext as [? ?].
Qed.
End Actions.

Definition sample_definition : workflow_definition (J := Z_number) :=
  WorkflowDefinition (Trigger Schedule (Some s!"15 9 * * mon-fri") None) []
    [ StepDefinition s!"hello" Task (Some s!"noop") (VObject []) 3;
      StepDefinition s!"pause" Wait None (VObject [(s!"seconds", @VNumber Z_number 60)]) 1 ].

Lemma definition_validated_witness :
  definition_validate sample_definition sample_instant = Ok tt
  /\ NoDup (trim ∘ sd_name <$> wd_steps sample_definition).
Proof.
  assert (definition_validate sample_definition sample_instant = Ok tt) as H by reflexivity.
  split; [exact H|]. exact (proj1 (proj2 (definition_validated sample_definition sample_instant H))).
Defined.
