(* ===== verification/WorkflowStore.v ===== *)
(** * The durable step store: [crates/workflows/src/store.rs], [model.rs]

    Workflow, run and step rows, and the statements that move them. Each SQL statement is one
    function of the store; a statement the schema's checks refuse answers [Err Database] and
    changes nothing. [now] is the statement's [now()], in nanoseconds; ids are numbers. *)

From S2P Require Import Prelude Json Cron Definitions.

(** ** Statuses *)

Inductive execution_status := RunRunning | RunCompleted | RunFailed | RunCancelled.
#[export] Instance execution_status_eq_dec : EqDecision execution_status.
Proof. solve_decision. Defined.
Definition execution_status_as_str (st : execution_status) : str :=
  match st with
  | RunRunning => s!"running" | RunCompleted => s!"completed"
  | RunFailed => s!"failed" | RunCancelled => s!"cancelled"
  end.
Definition execution_status_parse (raw : str) : option execution_status :=
  if str_eqb raw s!"running" then Some RunRunning
  else if str_eqb raw s!"completed" then Some RunCompleted
  else if str_eqb raw s!"failed" then Some RunFailed
  else if str_eqb raw s!"cancelled" then Some RunCancelled else None.
Definition is_terminal (st : execution_status) : bool :=
  match st with RunRunning => false | _ => true end.

Inductive step_status := Pending | Running | Waiting | Succeeded | Failed | Cancelled.
#[export] Instance step_status_eq_dec : EqDecision step_status.
Proof. solve_decision. Defined.
Definition step_status_as_str (st : step_status) : str :=
  match st with
  | Pending => s!"pending" | Running => s!"running" | Waiting => s!"waiting"
  | Succeeded => s!"succeeded" | Failed => s!"failed" | Cancelled => s!"cancelled"
  end.
Definition step_status_parse (raw : str) : option step_status :=
  if str_eqb raw s!"pending" then Some Pending
  else if str_eqb raw s!"running" then Some Running
  else if str_eqb raw s!"waiting" then Some Waiting
  else if str_eqb raw s!"succeeded" then Some Succeeded
  else if str_eqb raw s!"failed" then Some Failed
  else if str_eqb raw s!"cancelled" then Some Cancelled else None.
Definition is_open (st : step_status) : bool :=
  match st with Pending | Running | Waiting => true | _ => false end.

Lemma status_columns_roundtrip :
  (forall st, execution_status_parse (execution_status_as_str st) = Some st)
  /\ (forall st, step_status_parse (step_status_as_str st) = Some st).
Proof. split; intros []; reflexivity. Qed.

Section Store.
Context `{J : JsonNumber}.

(** ** Rows *)

Record workflow := Workflow {
  w_id : Z;
  w_organization_id : Z;
  w_site_id : option Z;
  w_name : str;
  w_description : str;
  w_enabled : bool;
  w_trigger_kind : str;
  w_schedule : option str;
  w_trigger_event : option str;
  w_conditions : value;
  w_next_run_at : option Z;
  w_steps : value;
  w_last_triggered_at : option Z;
  w_trigger_count : Z;
  w_created_by : option Z;
  w_created_at : Z;
  w_updated_at : Z
}.

Record workflow_execution := WorkflowExecution {
  e_id : Z;
  e_workflow_id : Z;
  e_organization_id : Z;
  e_status : execution_status;
  e_trigger_kind : str;
  e_triggered_by : option Z;
  e_started_at : Z;
  e_finished_at : option Z;
  e_error : option str
}.

Record workflow_step := WorkflowStep {
  s_id : Z;
  s_execution_id : Z;
  s_step_no : Z;
  s_name : str;
  s_kind : str;
  s_action : option str;
  s_params : value;
  s_status : step_status;
  s_attempts : Z;
  s_max_attempts : Z;
  s_available_at : Z;
  s_started_at : option Z;
  s_finished_at : option Z;
  s_output : option value;
  s_error : option str
}.

(** A settlement or start the engine wrote to the audit trail: its action and its target. *)
Record audit_row := AuditRow { a_action : str; a_target : Z }.

Record store := Store {
  workflows : list workflow;
  executions : list workflow_execution;
  steps : list workflow_step;
  audit : list audit_row
}.

Definition with_workflows (db : store) l := Store l (executions db) (steps db) (audit db).
Definition with_executions (db : store) l := Store (workflows db) l (steps db) (audit db).
Definition with_steps (db : store) l := Store (workflows db) (executions db) l (audit db).
Definition with_audit (db : store) l := Store (workflows db) (executions db) (steps db) l.

(** The columns a statement writes: everything that identifies a step stays. *)
Definition write_step (s : workflow_step) (st : step_status) (attempts available_at : Z)
  (started_at finished_at : option Z) (output : option value) (error : option str) : workflow_step :=
  WorkflowStep (s_id s) (s_execution_id s) (s_step_no s) (s_name s) (s_kind s) (s_action s)
    (s_params s) st attempts (s_max_attempts s) available_at started_at finished_at output error.

Definition write_execution (e : workflow_execution) (st : execution_status)
  (finished_at : option Z) (error : option str) : workflow_execution :=
  WorkflowExecution (e_id e) (e_workflow_id e) (e_organization_id e) st (e_trigger_kind e)
    (e_triggered_by e) (e_started_at e) finished_at error.

Definition update_steps (p : workflow_step -> bool) (f : workflow_step -> workflow_step)
  (db : store) : store := with_steps db (update_where p f (steps db)).

(** [workflow_steps]'s checks: position, name, kind, action shape, attempts. *)
Definition schema_step (s : workflow_step) : bool :=
  (0 <? s_step_no s)
  && negb (str_eqb (trim_end_by (N.eqb 32) (trim_start_by (N.eqb 32) (s_name s))) [])
  && (str_eqb (s_kind s) s!"task" && is_given (s_action s)
      || str_eqb (s_kind s) s!"wait" && negb (is_given (s_action s)))
  && (1 <=? s_max_attempts s) && (s_max_attempts s <=? 5)
  && (str_eqb (s_kind s) s!"task" && (0 <=? s_attempts s) && (s_attempts s <=? s_max_attempts s)
      || str_eqb (s_kind s) s!"wait" && (0 <=? s_attempts s) && (s_attempts s <=? 2)).

(** ** Reads *)

Definition find_execution (db : store) (id : Z) : option workflow_execution :=
  List.find (fun e => e_id e =? id) (executions db).
Definition find_workflow (db : store) (id : Z) : option workflow :=
  List.find (fun w => w_id w =? id) (workflows db).

Definition steps_of (db : store) (execution : Z) : list workflow_step :=
  List.filter (fun s => s_execution_id s =? execution) (steps db).

Definition step_no_order (a b : workflow_step) : comparison := Z.compare (s_step_no a) (s_step_no b).
Definition list_steps (db : store) (execution : Z) : list workflow_step :=
  sort_by step_no_order (steps_of db execution).

(** The step's run is open. *)
Definition run_is_running (db : store) (s : workflow_step) : bool :=
  match find_execution db (s_execution_id s) with
  | Some e => bool_decide (e_status e = RunRunning)
  | None => false
  end.

(** ** Starting a run *)

Definition new_step (now eid sid : Z) (index : nat) (d : step_definition) : workflow_step :=
  WorkflowStep sid eid (Z.of_nat index + 1) (trim (sd_name d)) (step_kind_as_str (sd_kind d))
    (sd_action d) (sd_params d) Pending 0 (sd_max_attempts d) now None None None None.

Fixpoint insert_steps (now eid : Z) (sid : nat -> Z) (index : nat) (defs : list step_definition)
  (rows : list workflow_step) : result (list workflow_step) workflow_error :=
  match defs with
  | [] => Ok rows
  | d :: rest =>
      let row := new_step now eid (sid index) index d in
      require schema_step row && negb (existsb (fun s => s_id s =? sid index) rows) else Database in
      insert_steps now eid sid (S index) rest (rows ++ [row])
  end.

(** [create_execution]: the run and its steps, in one transaction. [eid] and [sid] are the ids
    the database generates; a clash with a stored primary key is refused. *)
Definition create_execution (now eid : Z) (sid : nat -> Z) (w : workflow) (t : trigger_kind)
  (triggered_by : option Z) (defs : list step_definition) (db : store) :
  result (workflow_execution * store) workflow_error :=
  let execution := WorkflowExecution eid (w_id w) (w_organization_id w) RunRunning
    (trigger_kind_as_str t) triggered_by now None None in
  refuse existsb (fun e => e_id e =? eid) (executions db) with Database in
  let? rows := insert_steps now eid sid 0 defs (steps db) in
  Ok (execution, Store (workflows db) (executions db ++ [execution]) rows (audit db)).

(** ** Claiming *)

(** What a claim hands to the runner. *)
Record claimed_step := ClaimedStep {
  c_id : Z;
  c_execution_id : Z;
  c_step_no : Z;
  c_name : str;
  c_kind : str;
  c_action : option str;
  c_params : value;
  c_attempts : Z;
  c_max_attempts : Z
}.

Definition earlier_open (db : store) (s : workflow_step) : bool :=
  existsb (fun earlier => (s_execution_id earlier =? s_execution_id s)
    && (s_step_no earlier <? s_step_no s) && is_open (s_status earlier)) (steps db).

Definition is_due (now : Z) (db : store) (s : workflow_step) : bool :=
  run_is_running db s
  && (bool_decide (s_status s = Pending) || bool_decide (s_status s = Waiting))
  && (s_available_at s <=? now) && negb (earlier_open db s).

Definition run_started_at (db : store) (s : workflow_step) : Z :=
  default 0 (e_started_at <$> find_execution db (s_execution_id s)).

(** [order by e.started_at asc, e.id, s.step_no asc] *)
Definition claim_order (db : store) (a b : workflow_step) : comparison :=
  then_with (Z.compare (run_started_at db a) (run_started_at db b))
    (then_with (Z.compare (s_execution_id a) (s_execution_id b)) (step_no_order a b)).

Definition due_steps (now : Z) (db : store) : list workflow_step :=
  sort_by (claim_order db) (List.filter (is_due now db) (steps db)).

Definition claim_row (now : Z) (s : workflow_step) : workflow_step :=
  write_step s Running (s_attempts s + 1) (s_available_at s) (Some now) (s_finished_at s)
    (s_output s) (s_error s).

Definition claim_of (s : workflow_step) : claimed_step :=
  ClaimedStep (s_id s) (s_execution_id s) (s_step_no s) (s_name s) (s_kind s) (s_action s)
    (s_params s) (s_attempts s) (s_max_attempts s).

Definition claim_due_step (now : Z) (db : store) :
  result (option claimed_step * store) workflow_error :=
  match due_steps now db with
  | [] => Ok (None, db)
  | s :: _ =>
      require schema_step (claim_row now s) else Database in
      Ok (Some (claim_of (claim_row now s)),
          update_steps (fun x => s_id x =? s_id s) (claim_row now) db)
  end.

(** ** Moving one step *)

Definition is_running_step (id : Z) (s : workflow_step) : bool :=
  (s_id s =? id) && bool_decide (s_status s = Running).

Definition set_step_waiting (id available_at : Z) (db : store) : store :=
  update_steps (is_running_step id) (fun s =>
    write_step s Waiting (s_attempts s) available_at None (s_finished_at s) (s_output s) (s_error s)) db.

Definition complete_step (now id : Z) (output : value) (db : store) : store :=
  update_steps (is_running_step id) (fun s =>
    write_step s Succeeded (s_attempts s) (s_available_at s) (s_started_at s) (Some now)
      (Some output) None) db.

Definition retry_step (id : Z) (message : str) (available_at : Z) (db : store) : store :=
  update_steps (is_running_step id) (fun s =>
    write_step s Pending (s_attempts s) available_at None (s_finished_at s) (s_output s)
      (Some message)) db.

Definition fail_step (now id : Z) (message : str) (db : store) : store :=
  update_steps (is_running_step id) (fun s =>
    write_step s Failed (s_attempts s) (s_available_at s) (s_started_at s) (Some now) (s_output s)
      (Some message)) db.

Definition cancelled_row (now : Z) (s : workflow_step) : workflow_step :=
  write_step s Cancelled (s_attempts s) (s_available_at s) (s_started_at s) (Some now) (s_output s)
    (Some s!"the run was cancelled").

Definition cancel_step (now id : Z) (db : store) : store :=
  update_steps (fun s => (s_id s =? id) && is_open (s_status s)) (cancelled_row now) db.

(** ** Settling and cancelling a run *)

Definition count_where (p : workflow_step -> bool) (db : store) (execution : Z) : nat :=
  length (List.filter p (steps_of db execution)).

Definition has_status (st : step_status) (s : workflow_step) : bool :=
  bool_decide (s_status s = st).

Definition is_running_execution (id : Z) (e : workflow_execution) : bool :=
  (e_id e =? id) && bool_decide (e_status e = RunRunning).

Definition verdict (db : store) (execution : Z) : execution_status :=
  if (0 <? count_where (has_status Failed) db execution)%nat then RunFailed
  else if (0 <? count_where (has_status Cancelled) db execution)%nat then RunCancelled
  else RunCompleted.

(** A failed run reports the first failure it met. *)
Definition first_failure (db : store) (execution : Z) : option str :=
  head (List.filter (has_status Failed) (list_steps db execution)) ≫= s_error.

Definition settle_execution (now id : Z) (db : store) : option execution_status * store :=
  if (0 <? count_where (fun s => is_open (s_status s)) db id)%nat then (None, db)
  else
    let status := verdict db id in
    let error := if bool_decide (status = RunFailed) then first_failure db id else None in
    let db' := with_executions db (update_where (is_running_execution id)
                 (fun e => write_execution e status (Some now) error) (executions db)) in
    if existsb (is_running_execution id) (executions db) then (Some status, db') else (None, db').

Definition cancel_execution (now id : Z) (db : store) : option workflow_execution * store :=
  let db1 := with_executions db (update_where (is_running_execution id)
               (fun e => write_execution e RunCancelled (Some now) (e_error e)) (executions db)) in
  match List.find (is_running_execution id) (executions db) with
  | None => (None, db1)
  | Some e =>
      (Some (write_execution e RunCancelled (Some now) (e_error e)),
       update_steps (fun s => (s_execution_id s =? id)
         && (has_status Pending s || has_status Waiting s)) (cancelled_row now) db1)
  end.

(** ** Sweeping *)

Definition limited {A} (limit : Z) (l : list A) : list A := take (Z.to_nat limit) l.

Definition waited_resumed : value := VObject [(s!"waited", VBool true); (s!"resumed", VBool true)].

Definition available_order (a b : workflow_step) : comparison :=
  Z.compare (s_available_at a) (s_available_at b).

Definition due_waits (now limit : Z) (db : store) : list workflow_step :=
  limited limit (sort_by available_order
    (List.filter (fun s => has_status Waiting s && (s_available_at s <=? now) && run_is_running db s)
       (steps db))).

Definition resolve_due_waits (now limit : Z) (db : store) : list Z * store :=
  let due := due_waits now limit db in
  (s_execution_id <$> due,
   update_steps (fun s => existsb (fun d => s_id d =? s_id s) due) (fun s =>
     write_step s Succeeded (s_attempts s) (s_available_at s) (s_started_at s) (Some now)
       (Some waited_resumed) (s_error s)) db).

Definition NANOS_PER_SECOND : Z := 1000000000.

Definition is_stale (now lease_seconds : Z) (db : store) (s : workflow_step) : bool :=
  has_status Running s && run_is_running db s
  && match s_started_at s with
     | Some t => t <? now - lease_seconds * NANOS_PER_SECOND
     | None => false
     end.

Definition claimed_order (a b : workflow_step) : comparison :=
  Z.compare (default 0 (s_started_at a)) (default 0 (s_started_at b)).

Definition stale_steps (now lease_seconds limit : Z) (db : store) : list workflow_step :=
  limited limit (sort_by claimed_order (List.filter (is_stale now lease_seconds db) (steps db))).

Definition started_order (a b : workflow_execution) : comparison :=
  Z.compare (e_started_at a) (e_started_at b).

Definition has_open_step (db : store) (execution : Z) : bool :=
  existsb (fun s => is_open (s_status s)) (steps_of db execution).

Definition unsettled (limit : Z) (db : store) : list workflow_execution :=
  limited limit (sort_by started_order
    (List.filter (fun e => bool_decide (e_status e = RunRunning) && negb (has_open_step db (e_id e)))
       (executions db))).

Fixpoint settle_all (now : Z) (ids : list Z) (db : store) : list Z * store :=
  match ids with
  | [] => ([], db)
  | id :: rest =>
      let '(settled, db1) := settle_execution now id db in
      let '(ids', db2) := settle_all now rest db1 in
      (match settled with Some _ => id :: ids' | None => ids' end, db2)
  end.

Definition reconcile_executions (now limit : Z) (db : store) : list Z * store :=
  settle_all now (e_id <$> unsettled limit db) db.

(** ** Backoff *)

Definition i64_max : Z := 9223372036854775807.
Definition i64_min : Z := -9223372036854775808.
(** [as i64] of a wider integer. *)
Definition as_i64_cast (z : Z) : Z := (z - i64_min) mod 18446744073709551616 + i64_min.
Definition saturating_mul_i64 (a b : Z) : Z := Z.max i64_min (Z.min i64_max (a * b)).
Definition NANOS_PER_MILLI : Z := 1000000.
Definition whole_milliseconds (d : Z) : Z := Z.quot d NANOS_PER_MILLI.

Definition retry_delay (attempt base max : Z) : Z :=
  let shift := Z.max 1 (Z.min 16 attempt) - 1 in
  let factor := Z.shiftl 1 shift in
  let base_ms := as_i64_cast (Z.max (whole_milliseconds base) 1) in
  let cap_ms := Z.max (as_i64_cast (whole_milliseconds max)) base_ms in
  Z.min (saturating_mul_i64 base_ms factor) cap_ms * NANOS_PER_MILLI.

(** ** Schedules *)

Definition set_next_run (next : Z) (w : workflow) : workflow :=
  Workflow (w_id w) (w_organization_id w) (w_site_id w) (w_name w) (w_description w) (w_enabled w)
    (w_trigger_kind w) (w_schedule w) (w_trigger_event w) (w_conditions w) (Some next) (w_steps w)
    (w_last_triggered_at w) (w_trigger_count w) (w_created_by w) (w_created_at w) (w_updated_at w).

Definition switch_off (now : Z) (w : workflow) : workflow :=
  Workflow (w_id w) (w_organization_id w) (w_site_id w) (w_name w) (w_description w) false
    (w_trigger_kind w) (w_schedule w) (w_trigger_event w) (w_conditions w) (w_next_run_at w) (w_steps w)
    (w_last_triggered_at w) (w_trigger_count w) (w_created_by w) (w_created_at w) now.

Definition is_due_workflow (now : Z) (w : workflow) : bool :=
  w_enabled w && str_eqb (w_trigger_kind w) s!"schedule"
  && match w_next_run_at w with Some t => t <=? now | None => false end.

Definition schedule_order (a b : workflow) : comparison :=
  then_with (Z.compare (default 0 (w_next_run_at a)) (default 0 (w_next_run_at b)))
    (Z.compare (w_id a) (w_id b)).

Definition due_workflows (now limit : Z) (db : store) : list workflow :=
  limited limit (sort_by schedule_order (List.filter (is_due_workflow now) (workflows db))).

Definition update_workflow_row (id : Z) (f : workflow -> workflow) (db : store) : store :=
  with_workflows db (update_where (fun w => w_id w =? id) f (workflows db)).

Fixpoint advance_schedules `{Cal : Calendar} (now : Z) (due : list workflow) (db : store) :
  result (list workflow * store) workflow_error :=
  match due with
  | [] => Ok ([], db)
  | w :: rest =>
      match cron_parse (default [] (w_schedule w)) with
      | Ok schedule =>
          let? next := next_after schedule now in
          let db1 := update_workflow_row (w_id w) (set_next_run next) db in
          let? (claimed, db2) := advance_schedules now rest db1 in
          Ok (w :: claimed, db2)
      | Err _ =>
          advance_schedules now rest
            (update_workflow_row (w_id w) (switch_off now) db)
      end
  end.

Definition claim_due_schedules `{Cal : Calendar} (now limit : Z) (db : store) :
  result (list workflow * store) workflow_error :=
  advance_schedules now (due_workflows now limit db) db.

(** ** Definitions of workflows *)

Definition is_array (v : value) : bool := match v with VArray _ => true | _ => false end.
Definition array_length (v : value) : nat := match v with VArray l => length l | _ => 0 end.

(** [workflows]'s checks: kind, name, shapes of the trigger, conditions and steps. *)
Definition schema_workflow (w : workflow) : bool :=
  let on k := str_eqb (w_trigger_kind w) k in
  (on s!"manual" || on s!"schedule" || on s!"event")
  && negb (str_eqb (trim_end_by (N.eqb 32) (trim_start_by (N.eqb 32) (w_name w))) [])
  && is_array (w_steps w)
  && (on s!"manual" && negb (is_given (w_schedule w)) && negb (is_given (w_next_run_at w))
      || on s!"schedule" && is_given (w_schedule w)
      || on s!"event" && negb (is_given (w_schedule w)) && negb (is_given (w_next_run_at w)))
  && (on s!"event" && is_given (w_trigger_event w) && negb (is_given (w_schedule w))
      || negb (on s!"event") && negb (is_given (w_trigger_event w)))
  && is_array (w_conditions w)
  && (on s!"event" || (array_length (w_conditions w) =? 0)%nat)
  && (0 <=? w_trigger_count w).

Record new_workflow := NewWorkflow {
  nw_organization_id : Z;
  nw_site_id : option Z;
  nw_name : str;
  nw_description : str;
  nw_enabled : bool;
  nw_trigger : trigger_kind;
  nw_schedule : option str;
  nw_trigger_event : option str;
  nw_conditions : value;
  nw_next_run_at : option Z;
  nw_steps : value;
  nw_created_by : option Z
}.

Definition insert_workflow (now id : Z) (new : new_workflow) (db : store) :
  result (workflow * store) workflow_error :=
  let w := Workflow id (nw_organization_id new) (nw_site_id new) (nw_name new) (nw_description new)
    (nw_enabled new) (trigger_kind_as_str (nw_trigger new)) (nw_schedule new) (nw_trigger_event new)
    (nw_conditions new) (nw_next_run_at new) (nw_steps new) None 0 (nw_created_by new) now now in
  require schema_workflow w && negb (existsb (fun x => w_id x =? id) (workflows db)) else Database in
  Ok (w, with_workflows db (workflows db ++ [w])).

Record workflow_update := WorkflowUpdate {
  wu_name : str;
  wu_description : str;
  wu_site_id : option Z;
  wu_enabled : bool;
  wu_trigger : trigger_kind;
  wu_schedule : option str;
  wu_trigger_event : option str;
  wu_conditions : value;
  wu_next_run_at : option Z;
  wu_steps : value
}.

Definition updated_workflow (now : Z) (u : workflow_update) (w : workflow) : workflow :=
  Workflow (w_id w) (w_organization_id w) (wu_site_id u) (wu_name u) (wu_description u) (wu_enabled u)
    (trigger_kind_as_str (wu_trigger u)) (wu_schedule u) (wu_trigger_event u) (wu_conditions u)
    (wu_next_run_at u) (wu_steps u) (w_last_triggered_at w) (w_trigger_count w) (w_created_by w)
    (w_created_at w) now.

Definition update_workflow (now id : Z) (u : workflow_update) (db : store) :
  result (option workflow * store) workflow_error :=
  match find_workflow db id with
  | None => Ok (None, db)
  | Some w =>
      let w' := updated_workflow now u w in
      require schema_workflow w' else Database in
      Ok (Some w', update_workflow_row id (updated_workflow now u) db)
  end.

(** Deleting a workflow cascades to its runs and their steps. *)
Definition delete_workflow (id : Z) (db : store) : bool * store :=
  let gone e := e_workflow_id e =? id in
  let runs := e_id <$> List.filter gone (executions db) in
  (existsb (fun w => w_id w =? id) (workflows db),
   Store (List.filter (fun w => negb (w_id w =? id)) (workflows db))
     (List.filter (fun e => negb (gone e)) (executions db))
     (List.filter (fun s => negb (existsb (Z.eqb (s_execution_id s)) runs)) (steps db))
     (audit db)).

Definition newest_first (a b : workflow) : comparison :=
  then_with (Z.compare (w_created_at b) (w_created_at a)) (Z.compare (w_id a) (w_id b)).
Definition oldest_first (a b : workflow) : comparison :=
  then_with (Z.compare (w_created_at a) (w_created_at b)) (Z.compare (w_id a) (w_id b)).

(** [$1 is null or column = $1] *)
Definition null_or_is (given : option Z) (column : option Z) : bool :=
  match given with None => true | Some x => bool_decide (column = Some x) end.

Definition list_workflows (organization_id site_id : option Z) (db : store) : list workflow :=
  sort_by newest_first (List.filter (fun w =>
    null_or_is organization_id (Some (w_organization_id w)) && null_or_is site_id (w_site_id w))
    (workflows db)).

Definition list_event_workflows (organization_id site_id : option Z) (db : store) : list workflow :=
  List.filter (fun w => str_eqb (w_trigger_kind w) s!"event") (list_workflows organization_id site_id db).

(** The armed rules of one tenant that listen for one event; a rule with no site hears them all. *)
Definition list_event_rules (organization_id : Z) (site_id : option Z) (event_name : str) (db : store) :
  list workflow :=
  sort_by oldest_first (List.filter (fun w =>
    str_eqb (w_trigger_kind w) s!"event" && w_enabled w
    && bool_decide (w_trigger_event w = Some event_name) && (w_organization_id w =? organization_id)
    && match w_site_id w, site_id with
       | None, _ => true
       | Some s, Some s' => s =? s'
       | Some _, None => false
       end) (workflows db)).

Definition matched (now : Z) (w : workflow) : workflow :=
  Workflow (w_id w) (w_organization_id w) (w_site_id w) (w_name w) (w_description w) (w_enabled w)
    (w_trigger_kind w) (w_schedule w) (w_trigger_event w) (w_conditions w) (w_next_run_at w) (w_steps w)
    (Some now) (w_trigger_count w + 1) (w_created_by w) (w_created_at w) (w_updated_at w).

(** The counter is a 32-bit column: the statement fails when it overflows. *)
Definition note_match (now id : Z) (db : store) : result store workflow_error :=
  require forallb (fun w => negb (w_id w =? id) || (w_trigger_count w <? i32_max)) (workflows db)
    else Database in
  Ok (update_workflow_row id (matched now) db).
End Store.
