(* ===== verification/Engine.v ===== *)
(** * The workflow engine: [crates/workflows/src/engine.rs]

    What one tick of the runner does, what the sweeper repairs, and what every interleaving of
    them keeps: steps run in order, closed rows stay closed, a run's verdict matches its steps,
    and a store that is ticked and swept drains. *)

From S2P Require Import Prelude Json Cron Definitions WorkflowStore.

Section Engine.
Context `{J : JsonNumber} {Cal : Calendar}.

(** ** Configuration, host actions, reports *)

(** Durations in nanoseconds. *)
Record runner_config := RunnerConfig {
  rc_tick : Z;
  rc_sweep : Z;
  rc_batch : nat;
  rc_sweep_batch : Z;
  rc_scheduler_batch : Z;
  rc_retry_base : Z;
  rc_retry_max : Z;
  rc_lease : Z
}.

Definition seconds (n : Z) : Z := n * NANOS_PER_SECOND.
Definition whole_seconds (d : Z) : Z := Z.quot d NANOS_PER_SECOND.

Definition default_config : runner_config :=
  RunnerConfig (seconds 1) (seconds 30) 16 100 8 (seconds 5) (seconds 300) (seconds 300).

Record action_context := ActionContext {
  ac_organization_id : option Z;   (* [None]: the nil id of a run that is gone *)
  ac_site_id : option Z;
  ac_execution_id : Z;
  ac_step_id : Z;
  ac_step_no : Z;
  ac_attempt : Z
}.

(** The process's implementation of the host actions. *)
Definition action_handler : Type := str -> value -> action_context -> result value str.

Definition no_action_handler : action_handler := fun action _ _ =>
  Err (s!"`" ++ action ++ s!"` needs an action handler; this process installed none").

Record tick_report := TickReport {
  started : nat; start_failures : nat; steps_run : nat; waits_parked : nat; retries : nat;
  completed : nat; failed : nat; cancelled : nat
}.
Definition empty_report : tick_report := TickReport 0 0 0 0 0 0 0 0.

Record sweep_report := SweepReport {
  waits_resolved : nat; steps_reclaimed : nat; executions_settled : nat
}.

Record step_outcome := StepOutcome {
  waited : bool; retried : bool; settled : option execution_status
}.

(** ** Audit *)

Definition record_audit (db : store) (row : audit_row) : store := with_audit db (audit db ++ [row]).

Definition settlement_action (st : execution_status) : option str :=
  match st with
  | RunCompleted => Some s!"workflow.execution.completed"
  | RunFailed => Some s!"workflow.execution.failed"
  | RunCancelled => Some s!"workflow.execution.cancelled"
  | RunRunning => None
  end.

Definition record_settlement (e : workflow_execution) (st : execution_status) (db : store) : store :=
  match settlement_action st with
  | Some action => record_audit db (AuditRow action (e_id e))
  | None => db
  end.

Definition audit_settlement (execution : Z) (db : store) : store :=
  match find_execution db execution with
  | Some e => if is_terminal (e_status e) then record_settlement e (e_status e) db else db
  | None => db
  end.

Definition settle_if_open (now execution : Z) (db : store) : store :=
  match settle_execution now execution db with
  | (Some _, db') => audit_settlement execution db'
  | (None, db') => db'
  end.

Definition record_start (e : workflow_execution) (db : store) : store :=
  record_audit db (AuditRow s!"workflow.execution.started" (e_id e)).

(** ** Starting runs *)

Definition start_run_with (now eid : Z) (sid : nat -> Z) (w : workflow) (t : trigger_kind)
  (triggered_by : option Z) (defs : list step_definition) (db : store) :
  result (workflow_execution * store) workflow_error :=
  let? (execution, db1) := create_execution now eid sid w t triggered_by defs db in
  Ok (execution, record_start execution db1).

(** [definitions] reads the stored JSON of a definition's steps (serde's derived reader). *)
Definition start_run (definitions : value -> result (list step_definition) workflow_error)
  (now eid : Z) (sid : nat -> Z) (w : workflow) (t : trigger_kind)
  (triggered_by : option Z) (db : store) : result (workflow_execution * store) workflow_error :=
  let? defs := definitions (w_steps w) in
  start_run_with now eid sid w t triggered_by defs db.

(** ** One claimed step *)

Definition settle_after_step (now : Z) (c : claimed_step) (db : store) :
  option execution_status * store :=
  match find_execution db (c_execution_id c) with
  | None => (None, db)
  | Some e =>
      match e_status e with
      | RunRunning =>
          match settle_execution now (c_execution_id c) db with
          | (Some st, db') => (Some st, record_settlement e st db')
          | (None, db') => (None, db')
          end
      | _ => (None, cancel_step now (c_id c) db)
      end
  end.

Definition claim_site (db : store) (execution : Z) : option Z :=
  (find_execution db execution ≫= (fun e => find_workflow db (e_workflow_id e))) ≫= w_site_id.

Definition context_of (db : store) (c : claimed_step) : action_context :=
  ActionContext (e_organization_id <$> find_execution db (c_execution_id c))
    (claim_site db (c_execution_id c)) (c_execution_id c) (c_id c) (c_step_no c) (c_attempts c).

(** Run the claimed step's action: the host's handler or the engine's own action. *)
Definition perform (handler : action_handler) (db : store) (c : claimed_step) : result value str :=
  let action := default [] (c_action c) in
  if is_host_action action then handler action (c_params c) (context_of db c)
  else run_action action (c_params c) (c_attempts c).

(** What the claim's own row became. *)
Inductive written := Finished | Parked | Requeued.

(** The write an attempt ends with: everything of [advance_step] before the run is settled. *)
Definition write_outcome (cfg : runner_config) (handler : action_handler) (now : Z)
  (c : claimed_step) (db : store) : result (written * store) workflow_error :=
  match step_kind_parse (c_kind c) with
  | None => Err (Invalid s!"workflow_store_error")
  | Some Wait =>
      if 1 <? c_attempts c then Ok (Finished, complete_step now (c_id c) waited_resumed db)
      else
        let? n := wait_seconds_from (c_params c) in
        Ok (Parked, set_step_waiting (c_id c) (now + seconds n) db)
  | Some Task =>
      match perform handler db c with
      | Ok output => Ok (Finished, complete_step now (c_id c) output db)
      | Err message =>
          let attempts_allowed := Z.min (c_max_attempts c) MAX_ATTEMPTS in
          if c_attempts c <? attempts_allowed then
            let delay := retry_delay (c_attempts c) (rc_retry_base cfg) (rc_retry_max cfg) in
            Ok (Requeued, retry_step (c_id c) message (now + delay) db)
          else Ok (Finished, fail_step now (c_id c) message db)
      end
  end.

Definition advance_step (cfg : runner_config) (handler : action_handler) (now : Z)
  (c : claimed_step) (db : store) : result (step_outcome * store) workflow_error :=
  let? (w, db1) := write_outcome cfg handler now c db in
  match w with
  | Requeued => Ok (StepOutcome false true None, db1)
  | Parked => Ok (StepOutcome true false None, (settle_after_step now c db1).2)
  | Finished =>
      let '(st, db2) := settle_after_step now c db1 in
      Ok (StepOutcome false false st, db2)
  end.

(** ** The tick *)

Definition count_start (r : tick_report) : tick_report :=
  TickReport (S (started r)) (start_failures r) (steps_run r) (waits_parked r) (retries r)
    (completed r) (failed r) (cancelled r).
Definition count_start_failure (r : tick_report) : tick_report :=
  TickReport (started r) (S (start_failures r)) (steps_run r) (waits_parked r) (retries r)
    (completed r) (failed r) (cancelled r).
Definition bump (b : bool) (n : nat) : nat := if b then S n else n.
Definition count_outcome (o : step_outcome) (r : tick_report) : tick_report :=
  TickReport (started r) (start_failures r) (S (steps_run r))
    (bump (waited o) (waits_parked r)) (bump (retried o) (retries r))
    (bump (bool_decide (settled o = Some RunCompleted)) (completed r))
    (bump (bool_decide (settled o = Some RunFailed)) (failed r))
    (bump (bool_decide (settled o = Some RunCancelled)) (cancelled r)).

(** A run's generated ids: the run, then its steps. *)
Definition id_supply : Type := nat -> Z * (nat -> Z).

Fixpoint start_scheduled (definitions : value -> result (list step_definition) workflow_error)
  (now : Z) (ids : id_supply) (k : nat) (due : list workflow) (r : tick_report) (db : store) :
  tick_report * store :=
  match due with
  | [] => (r, db)
  | w :: rest =>
      match start_run definitions now (ids k).1 (ids k).2 w Schedule None db with
      | Ok (_, db1) => start_scheduled definitions now ids (S k) rest (count_start r) db1
      | Err _ => start_scheduled definitions now ids (S k) rest (count_start_failure r) db
      end
  end.

(** The step loop of a tick. An error ends the tick; what was written stays written. *)
Fixpoint run_steps (cfg : runner_config) (handler : action_handler) (now : Z) (batch : nat)
  (r : tick_report) (db : store) : result tick_report workflow_error * store :=
  match batch with
  | O => (Ok r, db)
  | S batch =>
      match claim_due_step now db with
      | Err e => (Err e, db)
      | Ok (None, db1) => (Ok r, db1)
      | Ok (Some c, db1) =>
          match advance_step cfg handler now c db1 with
          | Err e => (Err e, db1)
          | Ok (o, db2) => run_steps cfg handler now batch (count_outcome o r) db2
          end
      end
  end.

Definition tick_with (definitions : value -> result (list step_definition) workflow_error)
  (cfg : runner_config) (handler : action_handler) (now : Z) (ids : id_supply) (db : store) :
  result tick_report workflow_error * store :=
  match claim_due_schedules now (rc_scheduler_batch cfg) db with
  | Err e => (Err e, db)
  | Ok (due, db1) =>
      let '(r, db2) := start_scheduled definitions now ids 0 due empty_report db1 in
      run_steps cfg handler now (rc_batch cfg) r db2
  end.

(** ** The sweep *)

Definition lease_seconds (cfg : runner_config) : Z := Z.max (whole_seconds (rc_lease cfg)) 1.

Definition reclaim_step (now : Z) (s : workflow_step) (db : store) : store :=
  match step_kind_parse (s_kind s) with
  | Some Wait =>
      if 1 <? s_attempts s then complete_step now (s_id s) waited_resumed db
      else match wait_seconds_from (s_params s) with
           | Ok n => set_step_waiting (s_id s) (now + seconds n) db
           | Err _ => fail_step now (s_id s) s!"the wait step could not be resumed after a restart" db
           end
  | Some Task =>
      if s_attempts s <? Z.min (s_max_attempts s) MAX_ATTEMPTS then
        retry_step (s_id s) s!"the previous attempt was lost when its runner stopped" now db
      else fail_step now (s_id s) s!"the last attempt was lost when its runner stopped" db
  | None => fail_step now (s_id s) s!"the step carries an unknown kind" db
  end.

Definition reclaim_stale_steps (cfg : runner_config) (now : Z) (db : store) : list Z * store :=
  let stale := stale_steps now (lease_seconds cfg) (rc_sweep_batch cfg) db in
  (s_execution_id <$> stale, foldl (fun db s => reclaim_step now s db) db stale).

Definition sweep (cfg : runner_config) (now : Z) (db : store) : sweep_report * store :=
  let '(waits, db1) := resolve_due_waits now (rc_sweep_batch cfg) db in
  let '(reclaimed, db2) := reclaim_stale_steps cfg now db1 in
  let db3 := foldl (fun db id => settle_if_open now id db) db2 (waits ++ reclaimed) in
  let '(recovered, db4) := reconcile_executions now (rc_sweep_batch cfg) db3 in
  let db5 := foldl (fun db id => audit_settlement id db) db4 recovered in
  (SweepReport (length waits) (length reclaimed) (length recovered), db5).

(** ** Interleavings

    Several instances run the engine at once, and a caller cancels runs. An event is one
    statement, or one attempt's write with the statements that settle its run; [Work] and
    [Settle] take any claim, so a runner that stopped, or that works on a claim it lost, is
    included. *)
Inductive event :=
| Start (now eid : Z) (sid : nat -> Z) (w : workflow) (t : trigger_kind) (who : option Z)
    (defs : list step_definition)
| Schedules (now limit : Z)
| Claim (now : Z)
| Work (cfg : runner_config) (handler : action_handler) (now : Z) (c : claimed_step)
| Settle (now : Z) (c : claimed_step)
| Cancel (now eid : Z)
| Waits (now limit : Z)
| Reclaim (now : Z) (s : workflow_step)
| SettleRun (now eid : Z)
| Reconcile (now limit : Z)
| Audit (eid : Z).

Definition or_unchanged {A} (db : store) (r : result (A * store) workflow_error) : store :=
  match r with Ok (_, db') => db' | Err _ => db end.

Definition handle (ev : event) (db : store) : store :=
  match ev with
  | Start now eid sid w t who defs => or_unchanged db (start_run_with now eid sid w t who defs db)
  | Schedules now limit => or_unchanged db (claim_due_schedules now limit db)
  | Claim now => or_unchanged db (claim_due_step now db)
  | Work cfg handler now c => or_unchanged db (write_outcome cfg handler now c db)
  | Settle now c => (settle_after_step now c db).2
  | Cancel now eid => (cancel_execution now eid db).2
  | Waits now limit => (resolve_due_waits now limit db).2
  | Reclaim now s => reclaim_step now s db
  | SettleRun now eid => settle_if_open now eid db
  | Reconcile now limit => (reconcile_executions now limit db).2
  | Audit eid => audit_settlement eid db
  end.

Definition run_events (evs : list event) (db : store) : store := foldl (fun db ev => handle ev db) db evs.

Definition empty_store (ws : list workflow) : store := Store ws [] [] [].
End Engine.
