(* ===== verification/Interleaving.v ===== *)
(** * What every interleaving of the engine keeps

    The statements of the store refine a small transition system of rows ([change]); its
    invariant holds for every sequence of events, from any number of instances, with runners
    that stop or outlive their claim. *)

From stdpp Require Import relations.
From S2P Require Import Prelude Json Cron Definitions WorkflowStore Engine.

Section Interleaving.
Context `{J : JsonNumber} {Cal : Calendar}.

(** ** The abstract machine *)

(** What identifies a step never changes. *)
Definition same_step (s s' : workflow_step) : Prop :=
  (s_id s', s_execution_id s', s_step_no s', s_name s', s_kind s', s_action s', s_params s', s_max_attempts s')
  = (s_id s, s_execution_id s, s_step_no s, s_name s, s_kind s, s_action s, s_params s, s_max_attempts s).

(** The state machine of one step row. *)
Inductive row_move (db : store) (s : workflow_step) : workflow_step -> Prop :=
| move_stay : row_move db s s
| move_claim now :
    is_due now db s = true -> schema_step (claim_row now s) = true -> row_move db s (claim_row now s)
| move_release s' :
    same_step s s' -> s_status s = Running -> s_status s' = Pending \/ s_status s' = Waiting ->
    s_attempts s' = s_attempts s -> row_move db s s'
| move_close s' :
    same_step s s' -> is_open (s_status s) = true -> is_open (s_status s') = false ->
    (s_status s = Pending -> s_status s' = Cancelled) ->
    s_attempts s' = s_attempts s -> row_move db s s'.

(** One atomic write of the store. *)
Inductive change (db : store) : store -> Prop :=
| change_steps l : Forall2 (row_move db) (steps db) l -> change db (with_steps db l)
| change_settle now id error :
    has_open_step db id = false ->
    change db (with_executions db (update_where (is_running_execution id)
      (fun e => write_execution e (verdict db id) (Some now) error) (executions db)))
| change_cancel now id :
    change db (with_executions db (update_where (is_running_execution id)
      (fun e => write_execution e RunCancelled (Some now) (e_error e)) (executions db)))
| change_start e rows :
    e_status e = RunRunning ->
    (forall x, x ∈ executions db -> e_id x <> e_id e) ->
    Forall (fun s => s_execution_id s = e_id e /\ s_status s = Pending /\ s_attempts s = 0
                     /\ schema_step s = true) rows ->
    NoDup (s_id <$> steps db ++ rows) -> NoDup (s_step_no <$> rows) ->
    change db (Store (workflows db) (executions db ++ [e]) (steps db ++ rows) (audit db))
| change_workflows l : change db (with_workflows db l)
| change_audit l : change db (with_audit db l).

Definition changes : store -> store -> Prop := rtc change.

Lemma changes_one db db' : change db db' -> changes db db'.
Proof. apply rtc_once. Qed.
Lemma changes_trans db1 db2 db3 : changes db1 db2 -> changes db2 db3 -> changes db1 db3.
Proof. intros ??. by etrans. Qed.

(** ** The statements are changes *)

Lemma update_steps_changes p f db :
  (forall s, s ∈ steps db -> p s = true -> row_move db s (f s)) -> changes db (update_steps p f db).
Proof.
  intros H. apply changes_one. unfold update_steps. apply change_steps. unfold update_where.
  apply Forall2_fmap_r, Forall_Forall2_diag, Forall_forall. intros s Hs. simpl.
  destruct (p s) eqn:E; [by apply H|apply move_stay].
Qed.

Lemma is_running_step_status id s : is_running_step id s = true -> s_status s = Running.
Proof. unfold is_running_step. intros [_ H]%andb_true_iff. by apply bool_decide_eq_true in H. Qed.

Lemma set_step_waiting_changes id at' db : changes db (set_step_waiting id at' db).
Proof.
  apply update_steps_changes. intros s _ Hs%is_running_step_status. apply move_release; auto. done.
Qed.
Lemma retry_step_changes id m at' db : changes db (retry_step id m at' db).
Proof.
  apply update_steps_changes. intros s _ Hs%is_running_step_status. apply move_release; auto. done.
Qed.
Lemma complete_step_changes now id o db : changes db (complete_step now id o db).
Proof.
  apply update_steps_changes. intros s _ Hs%is_running_step_status.
  apply move_close; simpl; rewrite ?Hs; done.
Qed.
Lemma fail_step_changes now id m db : changes db (fail_step now id m db).
Proof.
  apply update_steps_changes. intros s _ Hs%is_running_step_status.
  apply move_close; simpl; rewrite ?Hs; done.
Qed.
Lemma cancel_step_changes now id db : changes db (cancel_step now id db).
Proof.
  apply update_steps_changes. intros s _ [_ Ho]%andb_true_iff. by apply move_close.
Qed.
#[local] Hint Resolve set_step_waiting_changes retry_step_changes complete_step_changes
  fail_step_changes cancel_step_changes : core.

Lemma limited_elem {A} n (x : A) l : x ∈ limited n l -> x ∈ l.
Proof. unfold limited. intros H. by apply (sublist_subseteq _ _ (sublist_take l _)) in H. Qed.

Lemma due_waits_elem now limit db s :
  s ∈ due_waits now limit db ->
  s ∈ steps db /\ s_status s = Waiting /\ run_is_running db s = true.
Proof.
  intros H%limited_elem. rewrite sort_by_elem, elem_of_filter_bool in H.
  destruct H as (? & [[? _]%andb_true_iff ?]%andb_true_iff). split; [done|].
  split; [by apply (bool_decide_eq_true _)|done].
Qed.

Lemma resolve_due_waits_changes now limit db :
  NoDup (s_id <$> steps db) -> changes db (resolve_due_waits now limit db).2.
Proof.
  intros Hnd. apply update_steps_changes. intros s Hs (d & Hd & Hid%Z.eqb_eq)%existsb_elem.
  apply due_waits_elem in Hd as (Hd & Hw & _).
  assert (d = s) as -> by (eapply (NoDup_key_inj s_id); eauto).
  apply move_close; simpl; rewrite ?Hw; done.
Qed.

Lemma due_steps_cons now db s rest :
  due_steps now db = s :: rest -> s ∈ steps db /\ is_due now db s = true.
Proof.
  intros E. assert (s ∈ due_steps now db) as H by (rewrite E; by left). unfold due_steps in H.
  by rewrite sort_by_elem, elem_of_filter_bool in H.
Qed.

Lemma claim_due_step_changes now db r :
  NoDup (s_id <$> steps db) -> claim_due_step now db = Ok r -> changes db r.2.
Proof.
  intros Hnd. unfold claim_due_step. destruct (due_steps now db) as [|s rest] eqn:E.
  { intros [= <-]. apply rtc_refl. }
  destruct (schema_step _) eqn:Hok; [|done]. intros [= <-]. cbn [snd].
  apply due_steps_cons in E as [Hs Hdue]. apply update_steps_changes. intros x Hx Hid%Z.eqb_eq.
  assert (x = s) as -> by (by eapply (NoDup_key_inj s_id)). by apply move_claim.
Qed.

Lemma count_where_open db id :
  (0 <? count_where (fun s => is_open (s_status s)) db id)%nat = has_open_step db id.
Proof.
  unfold count_where, has_open_step. induction (steps_of db id) as [|s l IH]; simpl; [done|].
  by destruct (is_open _).
Qed.

Lemma settle_execution_changes now id db : changes db (settle_execution now id db).2.
Proof.
  unfold settle_execution. rewrite count_where_open. destruct (has_open_step db id) eqn:E; [apply rtc_refl|].
  destruct (existsb _ _); apply changes_one; by apply change_settle.
Qed.
#[local] Hint Resolve settle_execution_changes : core.

Lemma cancel_execution_changes now id db : changes db (cancel_execution now id db).2.
Proof.
  unfold cancel_execution. eapply changes_trans; [apply changes_one, (change_cancel _ now id)|].
  destruct (List.find _ _); [|apply rtc_refl]. cbn [snd]. apply update_steps_changes.
  intros s _ [_ H]%andb_true_iff. apply move_close; try done. unfold has_status in H.
  by destruct (s_status s).
Qed.

Lemma record_settlement_changes e st db : changes db (record_settlement e st db).
Proof. unfold record_settlement. destruct (settlement_action st); [apply changes_one, change_audit|apply rtc_refl]. Qed.
Lemma audit_settlement_changes id db : changes db (audit_settlement id db).
Proof.
  unfold audit_settlement. destruct (find_execution _ _); [|apply rtc_refl].
  destruct (is_terminal _); [apply record_settlement_changes|apply rtc_refl].
Qed.
#[local] Hint Resolve record_settlement_changes audit_settlement_changes : core.

Lemma settle_if_open_changes now id db : changes db (settle_if_open now id db).
Proof.
  unfold settle_if_open. pose proof (settle_execution_changes now id db) as H.
  destruct (settle_execution now id db) as [[st|] db']; [|done]. eapply changes_trans; [exact H|done].
Qed.

Lemma settle_after_step_changes now c db : changes db (settle_after_step now c db).2.
Proof.
  unfold settle_after_step. destruct (find_execution _ _) as [e|]; [|apply rtc_refl].
  destruct (e_status e); try apply cancel_step_changes.
  pose proof (settle_execution_changes now (c_execution_id c) db) as H.
  destruct (settle_execution _ _ db) as [[st|] db']; [|done].
  eapply changes_trans; [exact H|apply record_settlement_changes].
Qed.

Lemma reclaim_step_changes now s db : changes db (reclaim_step now s db).
Proof.
  unfold reclaim_step. destruct (step_kind_parse _) as [[]|]; [| |done].
  - by destruct (_ <? _).
  - destruct (_ <? _); [done|]. by destruct (wait_seconds_from _).
Qed.

Lemma write_outcome_changes cfg handler now c db r :
  write_outcome cfg handler now c db = Ok r -> changes db r.2.
Proof.
  unfold write_outcome. destruct (step_kind_parse _) as [[]|]; [| |done].
  - destruct (perform _ _ _); [by intros [= <-]; simpl|]. destruct (_ <? _); by intros [= <-]; simpl.
  - destruct (_ <? _); [by intros [= <-]; simpl|]. rewrite result_bind_ok. intros (n & _ & [= <-]). by simpl.
Qed.

Lemma settle_all_changes now ids db : changes db (settle_all now ids db).2.
Proof.
  revert db. induction ids as [|id ids IH]; intros db; simpl; [apply rtc_refl|].
  pose proof (settle_execution_changes now id db) as H.
  destruct (settle_execution now id db) as [st db1]. specialize (IH db1).
  destruct (settle_all now ids db1) as [l db2]. by eapply changes_trans.
Qed.

Lemma advance_schedules_changes now due db r :
  advance_schedules now due db = Ok r -> changes db r.2.
Proof.
  revert db r. induction due as [|w due IH]; intros db r; simpl.
  { intros [= <-]. apply rtc_refl. }
  destruct (cron_parse _) as [schedule|].
  - rewrite result_bind_ok. intros (next & _ & H). revert H. rewrite result_bind_ok.
    intros ([l db2] & H & [= <-]). apply IH in H. eapply changes_trans; [|exact H].
    apply changes_one, change_workflows.
  - intros H. apply IH in H. eapply changes_trans; [|exact H]. apply changes_one, change_workflows.
Qed.

(** *** Creating a run *)

Lemma insert_steps_spec now eid sid index defs rows out :
  NoDup (s_id <$> rows) -> insert_steps now eid sid index defs rows = Ok out ->
  exists new, out = rows ++ new /\ NoDup (s_id <$> rows ++ new)
    /\ Forall (fun s => s_execution_id s = eid /\ s_status s = Pending /\ s_attempts s = 0
                        /\ schema_step s = true) new
    /\ s_step_no <$> new = (fun k => Z.of_nat k + 1) <$> seq index (length defs).
Proof.
  revert index rows. induction defs as [|d defs IH]; intros index rows Hnd; cbn [insert_steps].
  - intros [= <-]. exists []. rewrite app_nil_r. done.
  - destruct (_ && _) eqn:E; [|done]. apply andb_true_iff in E as [Hok Hf%negb_true_iff].
    intros H. apply IH in H as (new & -> & Hn & Hall & Hpos).
    + exists (new_step now eid (sid index) index d :: new). rewrite <- !app_assoc in *.
      split_and!; [done|done|constructor; [|done]; done|]. by rewrite fmap_cons, Hpos.
    + rewrite fmap_app. apply NoDup_app. split_and!; [done| |apply NoDup_singleton].
      intros x (s & -> & Hs)%list_elem_of_fmap Hin%list_elem_of_singleton. simpl in Hin.
      apply not_true_iff_false in Hf. apply Hf, existsb_elem. exists s. split; [done|by apply Z.eqb_eq].
Qed.

Lemma start_run_with_changes now eid sid w t who defs db r :
  NoDup (s_id <$> steps db) -> start_run_with now eid sid w t who defs db = Ok r -> changes db r.2.
Proof.
  intros Hnd. unfold start_run_with, create_execution. rewrite result_bind_ok. intros ([e db1] & H & [= <-]).
  destruct (existsb _ _) eqn:Ef; [done|]. revert H. rewrite result_bind_ok. intros (rows & H & [= <- <-]).
  apply insert_steps_spec in H as (new & -> & Hn & Hall & Hpos); [|done].
  eapply changes_trans; [|apply changes_one, change_audit]. apply changes_one, change_start; try done.
  - intros x Hx Hid. apply not_true_iff_false in Ef. apply Ef, existsb_elem. exists x. split; [done|].
    by apply Z.eqb_eq.
  - rewrite Hpos. apply NoDup_fmap_2; [|apply NoDup_seq]. intros a b. lia.
Qed.

(** ** Moves of one row *)

Lemma move_same db s s' : row_move db s s' -> same_step s s'.
Proof. by destruct 1. Qed.

Lemma move_closed db s s' : row_move db s s' -> is_open (s_status s) = false -> s' = s.
Proof.
  destruct 1 as [|now Hd _|s' _ Hr _ _|s' _ Ho _ _ _]; [done| | |congruence].
  - unfold is_due in Hd. intros Hc. by destruct (run_is_running _ _), (s_status s).
  - by rewrite Hr.
Qed.

Lemma schema_step_same s s' :
  same_step s s' -> s_attempts s' = s_attempts s -> schema_step s' = schema_step s.
Proof. unfold same_step, schema_step. intros [= _ _ -> -> -> -> _ ->] ->. done. Qed.

Lemma move_schema db s s' : row_move db s s' -> schema_step s = true -> schema_step s' = true.
Proof.
  destruct 1 as [|now|s' Hs _ _ Ha|s' Hs _ _ _ Ha]; try done; by rewrite (schema_step_same s s').
Qed.

Lemma schema_attempts s : schema_step s = true -> 0 <= s_attempts s.
Proof.
  unfold schema_step. intros [_ H]%andb_true_iff.
  apply orb_true_iff in H as [[[_ H]%andb_true_iff _]%andb_true_iff|[[_ H]%andb_true_iff _]%andb_true_iff];
    by apply Z.leb_le in H.
Qed.

(** A step the engine has worked on: anything but never claimed, or cancelled before that. *)
Definition worked_on (st : step_status) : bool :=
  match st with Pending | Cancelled => false | _ => true end.

Lemma move_worked_on db s s' :
  row_move db s s' -> schema_step s = true ->
  (worked_on (s_status s) = true -> 0 < s_attempts s) ->
  worked_on (s_status s') = true -> 0 < s_attempts s'.
Proof.
  destruct 1 as [|now|s' _ Hr _ Ha|s' _ Ho Hc Hp Ha]; intros Hok Hw; rewrite ?Ha; [done| | |].
  - intros _. simpl. apply schema_attempts in Hok. lia.
  - intros _. apply Hw. by rewrite Hr.
  - intros Hw'. apply Hw. destruct (s_status s); try done. by rewrite Hp in Hw'.
Qed.

(** Attempts grow only by a claim, which every earlier step of the run must be closed for. *)
Lemma move_attempts db s s' :
  row_move db s s' -> s_attempts s' = s_attempts s \/ earlier_open db s = false.
Proof.
  destruct 1 as [|now Hd|s' _ _ _ Ha|s' _ _ _ _ Ha]; auto. right. unfold is_due in Hd.
  by apply andb_true_iff in Hd as [_ ?%negb_true_iff].
Qed.

(** ** The invariant *)

Record consistent (db : store) : Prop := {
  con_ids : NoDup (s_id <$> steps db);
  con_runs : NoDup (e_id <$> executions db);
  con_owner s : s ∈ steps db -> exists e, e ∈ executions db /\ e_id e = s_execution_id s;
  con_position s t : s ∈ steps db -> t ∈ steps db -> s_execution_id s = s_execution_id t ->
    s_step_no s = s_step_no t -> s = t;
  con_schema s : s ∈ steps db -> schema_step s = true;
  con_worked_on s : s ∈ steps db -> worked_on (s_status s) = true -> 0 < s_attempts s;
  con_order s t : s ∈ steps db -> t ∈ steps db -> s_execution_id s = s_execution_id t ->
    s_step_no s < s_step_no t -> 0 < s_attempts t -> is_open (s_status s) = false;
  con_completed e s : e ∈ executions db -> e_status e = RunCompleted -> s ∈ steps db ->
    s_execution_id s = e_id e -> s_status s = Succeeded;
  con_failed e : e ∈ executions db -> e_status e = RunFailed ->
    (exists s, s ∈ steps db /\ s_execution_id s = e_id e /\ s_status s = Failed)
    /\ forall s, s ∈ steps db -> s_execution_id s = e_id e -> is_open (s_status s) = false
}.

Lemma Forall2_moved db l s' :
  Forall2 (row_move db) (steps db) l -> s' ∈ l -> exists s, s ∈ steps db /\ row_move db s s'.
Proof.
  intros H [i Hi]%list_elem_of_lookup. destruct (Forall2_lookup_r _ _ _ _ _ H Hi) as (s & Hs & Hm).
  exists s. split; [by eapply list_elem_of_lookup_2|done].
Qed.

Lemma Forall2_kept db l s :
  Forall2 (row_move db) (steps db) l -> s ∈ steps db -> is_open (s_status s) = false -> s ∈ l.
Proof.
  intros H [i Hi]%list_elem_of_lookup Hc. destruct (Forall2_lookup_l _ _ _ _ _ H Hi) as (s' & Hs & Hm).
  rewrite (move_closed _ _ _ Hm Hc) in Hs. by eapply list_elem_of_lookup_2.
Qed.

Lemma Forall2_same_ids db l : Forall2 (row_move db) (steps db) l -> s_id <$> l = s_id <$> steps db.
Proof.
  induction 1 as [|s s' l l' Hm _ IH]; [done|]. rewrite !fmap_cons, IH. f_equal.
  apply move_same in Hm. unfold same_step in Hm. congruence.
Qed.

Lemma consistent_steps db l :
  consistent db -> Forall2 (row_move db) (steps db) l -> consistent (with_steps db l).
Proof.
  intros [Hid Hr Ho Hp Hs Hw Hord Hc Hf] H. constructor; simpl.
  - by rewrite (Forall2_same_ids _ _ H).
  - done.
  - intros s' (s & Hin & Hm)%(Forall2_moved _ _ _ H). destruct (Ho s Hin) as (e & He & Heq).
    exists e. split; [done|]. apply move_same in Hm. unfold same_step in Hm. congruence.
  - intros s' t' Hs' Ht' Hex Hno. apply (NoDup_key_inj s_id l); try done.
    { by rewrite (Forall2_same_ids _ _ H). }
    apply (Forall2_moved _ _ _ H) in Hs' as (s & Hin & Hm), Ht' as (t & Hin' & Hm').
    apply move_same in Hm, Hm'. unfold same_step in Hm, Hm'.
    assert (s = t) by (apply Hp; try done; congruence). congruence.
  - intros s' (s & Hin & Hm)%(Forall2_moved _ _ _ H). eapply move_schema; eauto.
  - intros s' (s & Hin & Hm)%(Forall2_moved _ _ _ H). eapply move_worked_on; eauto.
  - intros s' t' Hs' Ht' Hex Hno Ha.
    apply (Forall2_moved _ _ _ H) in Hs' as (s & Hin & Hm), Ht' as (t & Hin' & Hm').
    pose proof (move_same _ _ _ Hm) as Hsame. pose proof (move_same _ _ _ Hm') as Hsame'.
    unfold same_step in Hsame, Hsame'.
    assert (is_open (s_status s) = false) as Hcl.
    { destruct (move_attempts _ _ _ Hm') as [Heq|Heo].
      - apply (Hord s t); try done; [congruence|congruence|lia].
      - apply not_true_iff_false in Heo. destruct (is_open (s_status s)) eqn:E; [|done].
        exfalso. apply Heo, existsb_elem. exists s. split; [done|].
        rewrite !andb_true_iff, Z.eqb_eq, Z.ltb_lt. split_and!; [congruence| |done].
        replace (s_step_no s) with (s_step_no s') by congruence.
        by replace (s_step_no t) with (s_step_no t') by congruence. }
    by rewrite (move_closed _ _ _ Hm Hcl).
  - intros e s' He Hst (s & Hin & Hm)%(Forall2_moved _ _ _ H) Hex.
    pose proof (move_same _ _ _ Hm) as Hsame. unfold same_step in Hsame.
    assert (s_status s = Succeeded) as Hsu by (eapply Hc; eauto; congruence).
    rewrite (move_closed _ _ _ Hm); [done|by rewrite Hsu].
  - intros e He Hst. destruct (Hf e He Hst) as [(s & Hin & Hex & Hfa) Hcl]. split.
    + exists s. split_and!; try done. eapply Forall2_kept; [done..|]. by rewrite Hfa.
    + intros s' (t & Hin' & Hm)%(Forall2_moved _ _ _ H) Hex'.
      pose proof (move_same _ _ _ Hm) as Hsame. unfold same_step in Hsame.
      assert (is_open (s_status t) = false) as Hct by (apply Hcl; [done|congruence]).
      by rewrite (move_closed _ _ _ Hm Hct).
Qed.

Lemma steps_of_elem db id s : s ∈ steps_of db id <-> s ∈ steps db /\ s_execution_id s = id.
Proof. unfold steps_of. by rewrite elem_of_filter_bool, Z.eqb_eq. Qed.

Lemma count_where_pos p db id :
  (0 <? count_where p db id)%nat = true <->
  exists s, s ∈ steps db /\ s_execution_id s = id /\ p s = true.
Proof.
  unfold count_where. rewrite Nat.ltb_lt. split.
  - destruct (List.filter p (steps_of db id)) as [|s l] eqn:E; simpl; [lia|]. intros _. exists s.
    assert (s ∈ List.filter p (steps_of db id)) as H by (rewrite E; by left).
    rewrite elem_of_filter_bool, steps_of_elem in H. tauto.
  - intros (s & Hs & He & Hp).
    assert (s ∈ List.filter p (steps_of db id)) as H by (by rewrite elem_of_filter_bool, steps_of_elem).
    destruct (List.filter p _); [by apply elem_of_nil in H|simpl; lia].
Qed.

Lemma has_open_step_false db id s :
  has_open_step db id = false -> s ∈ steps db -> s_execution_id s = id -> is_open (s_status s) = false.
Proof.
  intros H Hs He. destruct (is_open (s_status s)) eqn:E; [|done]. apply not_true_iff_false in H.
  exfalso. apply H, existsb_elem. exists s. by rewrite steps_of_elem.
Qed.

(** The verdict a settled run gets from its closed steps. *)
Lemma verdict_spec db id :
  match verdict db id with
  | RunFailed => exists s, s ∈ steps db /\ s_execution_id s = id /\ s_status s = Failed
  | RunCancelled => exists s, s ∈ steps db /\ s_execution_id s = id /\ s_status s = Cancelled
  | RunCompleted => has_open_step db id = false ->
      forall s, s ∈ steps db -> s_execution_id s = id -> s_status s = Succeeded
  | RunRunning => False
  end.
Proof.
  unfold verdict. destruct (0 <? count_where (has_status Failed) db id)%nat eqn:Ef.
  { apply count_where_pos in Ef as (s & ? & ? & H). apply bool_decide_eq_true_1 in H. eauto. }
  destruct (0 <? count_where (has_status Cancelled) db id)%nat eqn:Ec.
  { apply count_where_pos in Ec as (s & ? & ? & H). apply bool_decide_eq_true_1 in H. eauto. }
  intros Ho s Hs He. pose proof (has_open_step_false _ _ _ Ho Hs He) as Hcl.
  apply not_true_iff_false in Ef, Ec. destruct (s_status s) eqn:Est; try done; exfalso;
    [apply Ef|apply Ec]; apply count_where_pos; exists s; by rewrite Est || by unfold has_status; rewrite Est.
Qed.

(** Rewriting run rows keeps the invariant when the new status is one the steps justify. *)
Lemma consistent_executions db p (f : workflow_execution -> workflow_execution) :
  consistent db -> (forall e, e_id (f e) = e_id e) ->
  (forall e, e ∈ executions db -> p e = true -> e_status (f e) = RunCompleted ->
     forall s, s ∈ steps db -> s_execution_id s = e_id e -> s_status s = Succeeded) ->
  (forall e, e ∈ executions db -> p e = true -> e_status (f e) = RunFailed ->
     (exists s, s ∈ steps db /\ s_execution_id s = e_id e /\ s_status s = Failed)
     /\ forall s, s ∈ steps db -> s_execution_id s = e_id e -> is_open (s_status s) = false) ->
  consistent (with_executions db (update_where p f (executions db))).
Proof.
  intros [Hid Hr Ho Hp Hs Hw Hord Hc Hf] Hk Hcomp Hfail. constructor; simpl; try done.
  - by rewrite update_where_fmap.
  - intros s (e & He & Heq)%Ho. exists (if p e then f e else e). split.
    + apply update_where_elem. eauto.
    + destruct (p e); [by rewrite Hk|done].
  - intros e' s (e & He & ->)%update_where_elem Hst Hin Hex. destruct (p e) eqn:E; [|by eapply Hc].
    rewrite Hk in Hex. by eapply Hcomp.
  - intros e' (e & He & ->)%update_where_elem Hst. destruct (p e) eqn:E; [|by apply Hf].
    rewrite Hk. by apply Hfail.
Qed.

Lemma consistent_start db e rows :
  consistent db -> e_status e = RunRunning ->
  (forall x, x ∈ executions db -> e_id x <> e_id e) ->
  Forall (fun s => s_execution_id s = e_id e /\ s_status s = Pending /\ s_attempts s = 0
                   /\ schema_step s = true) rows ->
  NoDup (s_id <$> steps db ++ rows) -> NoDup (s_step_no <$> rows) ->
  consistent (Store (workflows db) (executions db ++ [e]) (steps db ++ rows) (audit db)).
Proof.
  intros [Hid Hr Ho Hp Hs Hw Hord Hc Hf] Hst Hfresh Hrows Hn Hno.
  rewrite Forall_forall in Hrows.
  assert (Hold : forall s, s ∈ steps db -> s_execution_id s <> e_id e).
  { intros s (x & Hx & <-)%Ho. by apply Hfresh. }
  constructor; simpl; try done.
  - rewrite fmap_app. apply NoDup_app. split_and!; [done| |apply NoDup_singleton].
    intros k (x & -> & Hx)%list_elem_of_fmap Hk%list_elem_of_singleton. by apply (Hfresh x).
  - intros s [Hin|Hin]%elem_of_app.
    + destruct (Ho s Hin) as (x & Hx & ?). exists x. split; [apply elem_of_app; by left|done].
    + exists e. split; [apply elem_of_app; right; by apply list_elem_of_singleton|].
      symmetry. by apply Hrows.
  - intros s t [Hin|Hin]%elem_of_app [Hin'|Hin']%elem_of_app Hex Hpos; [by apply Hp| | |].
    + destruct (Hold s Hin). rewrite Hex. by apply Hrows.
    + destruct (Hold t Hin'). rewrite <- Hex. by apply Hrows.
    + by apply (NoDup_key_inj s_step_no rows).
  - intros s [Hin|Hin]%elem_of_app; [by apply Hs|by apply Hrows].
  - intros s [Hin|Hin]%elem_of_app; [by apply Hw|]. by destruct (Hrows s Hin) as (_ & -> & _).
  - intros s t [Hin|Hin]%elem_of_app [Hin'|Hin']%elem_of_app Hex Hpos Ha; [by apply (Hord s t)| | |].
    + destruct (Hrows t Hin') as (_ & _ & Ha' & _). lia.
    + destruct (Hold t Hin'). rewrite <- Hex. by apply Hrows.
    + destruct (Hrows t Hin') as (_ & _ & Ha' & _). lia.
  - intros x s [Hx| ->%list_elem_of_singleton]%elem_of_app Hx'; [|congruence].
    intros [Hin|Hin]%elem_of_app Hex; [by apply (Hc x)|]. destruct (Hfresh x Hx).
    rewrite <- Hex. by apply Hrows.
  - intros x [Hx| ->%list_elem_of_singleton]%elem_of_app Hx'; [|congruence].
    destruct (Hf x Hx Hx') as [(s & Hin & Hex & Hfa) Hcl]. split.
    + exists s. split; [apply elem_of_app; by left|done].
    + intros t [Hin'|Hin']%elem_of_app Hex'; [by apply Hcl|]. destruct (Hfresh x Hx).
      rewrite <- Hex'. by apply Hrows.
Qed.

Lemma change_consistent db db' : change db db' -> consistent db -> consistent db'.
Proof.
  destruct 1 as [l H|now id err Ho|now id|e rows ?????|l|l]; intros Hcon.
  - by apply consistent_steps.
  - apply consistent_executions; [done|done| |]; intros e He [Hid%Z.eqb_eq _]%andb_true_iff Hst;
      simpl in Hst; pose proof (verdict_spec db id) as Hv; rewrite Hst in Hv; rewrite Hid; [by apply Hv|].
    split; [done|]. intros s. by apply has_open_step_false.
  - by apply consistent_executions.
  - by apply consistent_start.
  - by destruct Hcon.
  - by destruct Hcon.
Qed.

Lemma changes_consistent db db' : changes db db' -> consistent db -> consistent db'.
Proof. induction 1; eauto using change_consistent. Qed.

(** *** Every event is a sequence of changes *)

Lemma handle_changes ev db : consistent db -> changes db (handle ev db).
Proof.
  intros Hcon. pose proof (con_ids _ Hcon) as Hnd.
  assert (Hrefl : changes db db) by apply rtc_refl.
  destruct ev; cbn [handle].
  - destruct (start_run_with _ _ _ _ _ _ _ db) as [[e db']|] eqn:E; [|done].
    by apply start_run_with_changes in E.
  - destruct (claim_due_schedules _ _ db) as [[l db']|] eqn:E; [|done]. by apply advance_schedules_changes in E.
  - destruct (claim_due_step _ db) as [[c db']|] eqn:E; [|done]. by apply claim_due_step_changes in E.
  - destruct (write_outcome _ _ _ _ db) as [[w db']|] eqn:E; [|done]. by apply write_outcome_changes in E.
  - apply settle_after_step_changes.
  - apply cancel_execution_changes.
  - by apply resolve_due_waits_changes.
  - apply reclaim_step_changes.
  - apply settle_if_open_changes.
  - apply settle_all_changes.
  - apply audit_settlement_changes.
Qed.

Lemma run_events_consistent evs db : consistent db -> consistent (run_events evs db).
Proof.
  revert db. induction evs as [|ev evs IH]; intros db H; simpl; [done|].
  apply IH. eapply changes_consistent; [by apply handle_changes|done].
Qed.

Lemma run_events_changes evs db : consistent db -> changes db (run_events evs db).
Proof.
  revert db. induction evs as [|ev evs IH]; intros db H; simpl; [apply rtc_refl|].
  eapply changes_trans; [by apply handle_changes|]. apply IH.
  eapply changes_consistent; [by apply handle_changes|done].
Qed.

Lemma empty_consistent ws : consistent (empty_store ws).
Proof.
  constructor; simpl; try (intros; by match goal with H : _ ∈ [] |- _ => apply elem_of_nil in H end);
    apply NoDup_nil_2.
Qed.

Lemma reachable_consistent evs ws : consistent (run_events evs (empty_store ws)).
Proof. apply run_events_consistent, empty_consistent. Qed.

(** ** Theorems *)

(** C9. Whatever the interleaving of instances, stops, lost claims and cancellations, a run's
    steps are worked on strictly in order: a step is attempted only after every earlier step of
    its run is closed, and at most one step of a run is being run or waiting. *)
Theorem steps_run_in_order (evs : list event) (ws : list workflow) (s t : workflow_step)
  (Hs : s ∈ steps (run_events evs (empty_store ws)))
  (Ht : t ∈ steps (run_events evs (empty_store ws)))
  (Hrun : s_execution_id s = s_execution_id t) :
  (s_step_no s < s_step_no t -> 0 < s_attempts t -> is_open (s_status s) = false)
  /\ (s_status s = Running \/ s_status s = Waiting ->
      s_status t = Running \/ s_status t = Waiting -> s = t).
Proof.
  pose proof (reachable_consistent evs ws) as Hcon. split; [by apply (con_order _ Hcon)|].
  intros H H'. assert (worked_on (s_status s) = true /\ is_open (s_status s) = true) as [Hw Ho]
    by (by destruct H as [-> | ->]).
  assert (worked_on (s_status t) = true /\ is_open (s_status t) = true) as [Hw' Ho']
    by (by destruct H' as [-> | ->]).
  apply (con_worked_on _ Hcon) in Hw; [|done]. apply (con_worked_on _ Hcon) in Hw'; [|done].
  destruct (Z.lt_trichotomy (s_step_no s) (s_step_no t)) as [Hlt|[Heq|Hgt]].
  - by rewrite (con_order _ Hcon s t) in Ho.
  - by apply (con_position _ Hcon).
  - by rewrite (con_order _ Hcon t s) in Ho'.
Qed.

(** Whatever the interleaving, a run's verdict matches its steps: a completed run succeeded
    at every step; a failed run has a failed step and no step left open. *)
Theorem verdict_matches_steps (evs : list event) (ws : list workflow) (e : workflow_execution)
  (He : e ∈ executions (run_events evs (empty_store ws))) :
  (e_status e = RunCompleted -> forall s, s ∈ steps (run_events evs (empty_store ws)) ->
     s_execution_id s = e_id e -> s_status s = Succeeded)
  /\ (e_status e = RunFailed ->
     (exists s, s ∈ steps (run_events evs (empty_store ws)) /\ s_execution_id s = e_id e
        /\ s_status s = Failed)
     /\ forall s, s ∈ steps (run_events evs (empty_store ws)) -> s_execution_id s = e_id e ->
        is_open (s_status s) = false).
Proof.
  pose proof (reachable_consistent evs ws) as Hcon. split.
  - intros Hst s Hs Hex. by eapply (con_completed _ Hcon).
  - by apply (con_failed _ Hcon).
Qed.

(** What a change leaves of the rows it starts from. *)
Definition preserved (db db' : store) : Prop :=
  (forall s, s ∈ steps db -> is_open (s_status s) = false -> s ∈ steps db')
  /\ (forall s, s ∈ steps db -> exists s', s' ∈ steps db' /\ same_step s s' /\ s_attempts s <= s_attempts s')
  /\ (forall e, e ∈ executions db -> is_terminal (e_status e) = true -> e ∈ executions db').

Lemma same_step_refl s : same_step s s.
Proof. done. Qed.
Lemma preserved_refl db : preserved db db.
Proof. split_and!; [done| |done]. intros s Hs. exists s. split_and!; [done|done|lia]. Qed.

Lemma preserved_trans db1 db2 db3 : preserved db1 db2 -> preserved db2 db3 -> preserved db1 db3.
Proof.
  intros (Hs & Hr & He) (Hs' & Hr' & He'). split_and!; eauto.
  intros s Hin. destruct (Hr s Hin) as (s1 & Hin1 & Hsame & Hle).
  destruct (Hr' s1 Hin1) as (s2 & Hin2 & Hsame' & Hle').
  exists s2. split_and!; [done|unfold same_step in *; congruence|lia].
Qed.

Lemma move_attempts_le db s s' : row_move db s s' -> s_attempts s <= s_attempts s'.
Proof. destruct 1 as [|now|s' _ _ _ ->|s' _ _ _ _ ->]; simpl; lia. Qed.

Lemma preserved_executions db id f :
  preserved db (with_executions db (update_where (is_running_execution id) f (executions db))).
Proof.
  split_and!; simpl; [done|apply preserved_refl|]. intros e He Ht. apply update_where_elem.
  exists e. split; [done|]. unfold is_running_execution. destruct (e_status e); [done|..];
    by rewrite andb_false_r.
Qed.

Lemma change_preserved db db' : change db db' -> preserved db db'.
Proof.
  destruct 1 as [l H|now id err Ho|now id|e rows ?????|l|l];
    try apply preserved_executions; try apply preserved_refl.
  - split_and!; simpl; [|..|done].
    + intros s Hs Hc. by eapply Forall2_kept.
    + intros s [i Hi]%list_elem_of_lookup. destruct (Forall2_lookup_l _ _ _ _ _ H Hi) as (s' & Hs & Hm).
      exists s'. split_and!; [by eapply list_elem_of_lookup_2|by eapply move_same|by eapply move_attempts_le].
  - split_and!; simpl.
    + intros s Hs _. apply elem_of_app. by left.
    + intros s Hs. exists s. split_and!; [apply elem_of_app; by left|done|lia].
    + intros x Hx _. apply elem_of_app. by left.
  - exact (preserved_refl db).
  - exact (preserved_refl db).
Qed.

Lemma changes_preserved db db' : changes db db' -> preserved db db'.
Proof. induction 1; eauto using preserved_refl, preserved_trans, change_preserved. Qed.

(** C32. Whatever the interleaving, what is closed is final: a step that succeeded, failed or was
    cancelled, and a run that was completed, failed or cancelled, keep their row unchanged for
    ever; no step row is lost, renamed or given another action, and attempts never go back. *)
Theorem closed_is_final (evs later : list event) (ws : list workflow) :
  preserved (run_events evs (empty_store ws)) (run_events later (run_events evs (empty_store ws))).
Proof. apply changes_preserved, run_events_changes, reachable_consistent. Qed.

(** Whatever the interleaving, no step is attempted more often than it may be: a task at
    most [max_attempts] times, itself at most five, and a wait at most twice. *)
Theorem attempts_within_budget (evs : list event) (ws : list workflow) (s : workflow_step)
  (Hs : s ∈ steps (run_events evs (empty_store ws))) :
  0 <= s_attempts s /\ 1 <= s_max_attempts s <= 5
  /\ (s_kind s = s!"task" /\ s_attempts s <= s_max_attempts s
      \/ s_kind s = s!"wait" /\ s_action s = None /\ s_attempts s <= 2).
Proof.
  pose proof (con_schema _ (reachable_consistent evs ws) s Hs) as H.
  unfold schema_step in H. bool_prop.
  destruct H as [[[[_ Hk] Hm] Hm'] H]. split_and!; [lia..|].
  destruct H as [[[H _] H']|[[H _] H']]; [by left|right]. split_and!; [done| |done].
  destruct Hk as [[Hk _]|[_ Hk]]; [by rewrite H in Hk|]. by destruct (s_action s).
Qed.

(** *** A store with nothing to repair *)

Lemma due_steps_later before now db :
  before <= now -> forallb (fun s => s_available_at s <=? before) (steps db) = true ->
  due_steps now db = due_steps before db.
Proof.
  intros Hle. rewrite forallb_elem. intros H. unfold due_steps. f_equal. apply filter_ext_in.
  intros s Hs%list_elem_of_In. specialize (H s Hs). apply Z.leb_le in H. unfold is_due.
  by rewrite !(proj2 (Z.leb_le _ _)) by lia.
Qed.

Lemma limited_nil {A} limit : limited limit (@nil A) = [].
Proof. apply take_nil. Qed.

Lemma sweep_idle cfg now db :
  due_waits now (rc_sweep_batch cfg) db = [] ->
  stale_steps now (lease_seconds cfg) (rc_sweep_batch cfg) db = [] ->
  unsettled (rc_sweep_batch cfg) db = [] -> sweep cfg now db = (SweepReport 0 0 0, db).
Proof.
  intros Hw Hst Hu. unfold sweep, resolve_due_waits, reclaim_stale_steps, reconcile_executions. rewrite Hw. cbn.
  assert (update_steps (fun _ => false) (fun s => write_step s Succeeded (s_attempts s) (s_available_at s)
    (s_started_at s) (Some now) (Some waited_resumed) (s_error s)) db = db) as ->.
  { unfold update_steps, update_where. rewrite list_fmap_id. by destruct db. }
  rewrite Hst. cbn. by rewrite Hu.
Qed.

Definition nothing_to_repair (db : store) : bool :=
  forallb (fun s => negb ((has_status Waiting s || has_status Running s) && run_is_running db s)) (steps db)
  && forallb (fun e => negb (bool_decide (e_status e = RunRunning) && negb (has_open_step db (e_id e))))
       (executions db).

Lemma sweep_quiet cfg now db :
  nothing_to_repair db = true -> sweep cfg now db = (SweepReport 0 0 0, db).
Proof.
  unfold nothing_to_repair. rewrite andb_true_iff, !forallb_elem. intros [Hs He].
  assert (due_waits now (rc_sweep_batch cfg) db = []) as Hw.
  { unfold due_waits. rewrite filter_none; [apply limited_nil|]. intros s Hin. specialize (Hs s Hin).
    destruct (has_status Waiting s), (run_is_running db s); try done; by rewrite andb_comm. }
  assert (stale_steps now (lease_seconds cfg) (rc_sweep_batch cfg) db = []) as Hst.
  { unfold stale_steps. rewrite filter_none; [apply limited_nil|]. intros s Hin. specialize (Hs s Hin).
    unfold is_stale. by destruct (has_status Waiting s), (has_status Running s), (run_is_running db s). }
  assert (unsettled (rc_sweep_batch cfg) db = []) as Hu.
  { unfold unsettled. rewrite filter_none; [apply limited_nil|]. intros e Hin. specialize (He e Hin).
    by apply negb_true_iff in He. }
  by apply sweep_idle.
Qed.

Lemma run_steps_idle cfg handler now batch r db :
  forallb (fun e => negb (bool_decide (e_status e = RunRunning))) (executions db) = true ->
  run_steps cfg handler now batch r db = (Ok r, db).
Proof.
  rewrite forallb_elem. intros He. destruct batch as [|batch]; cbn [run_steps]; [done|].
  unfold claim_due_step, due_steps. rewrite filter_none; [done|]. intros s _. unfold is_due, run_is_running.
  destruct (find_execution db (s_execution_id s)) as [e|] eqn:E; [|done].
  apply find_some in E as [Hin _]. apply list_elem_of_In in Hin. specialize (He e Hin).
  apply negb_true_iff in He. by rewrite He.
Qed.
End Interleaving.

(** ** Concrete runs *)

Definition sample_workflow : workflow (J := Z_number) :=
  Workflow 1 7 None s!"sample" [] true s!"manual" None None (VArray []) None (VArray []) None 0 None 0 0.

(** One flaky task with two attempts, then a second task. *)
Definition flaky_steps : list (step_definition (J := Z_number)) :=
  [ StepDefinition s!"flaky" Task (Some s!"fail") (VObject []) 2;
    StepDefinition s!"then" Task (Some s!"noop") (VObject []) 1 ].

Definition start_flaky : event (J := Z_number) :=
  Start 0 1 (fun k => Z.of_nat k + 10) sample_workflow Manual None flaky_steps.

(** A database of its own: nothing but the flaky run. *)
Definition flaky_store : store (J := Z_number) := run_events [start_flaky] (empty_store []).

Definition claimed_at (now : Z) (db : store (J := Z_number)) : claimed_step * store :=
  match claim_due_step now db with
  | Ok (Some c, db') => (c, db')
  | _ => (ClaimedStep 0 0 0 [] [] None VNull 0 0, db)
  end.

(** The step is claimed, the run is cancelled, and the claim then fails with an attempt left. *)
Definition first_claim := (claimed_at 1 flaky_store).1.
Definition stranded_events : list (event (J := Z_number)) :=
  [start_flaky; Claim 1; Cancel 2 1; Work default_config no_action_handler 3 first_claim].
Definition stranded_store : store (J := Z_number) := run_events stranded_events (empty_store []).

(** The race the cancellation flag exists for is not closed on the retry path: when the step
    that was running when its run was cancelled fails with attempts left, it is put back to
    [pending] in the cancelled run, and no later tick or sweep ever touches it again. *)
Theorem cancelled_retry_strands_step :
  (exists c db', claim_due_step 1 flaky_store = Ok (Some c, db') /\ first_claim = c)
  /\ (forall e, e ∈ executions stranded_store -> e_status e = RunCancelled)
  /\ (exists s, s ∈ steps stranded_store /\ s_step_no s = 1 /\ s_status s = Pending)
  /\ forall cfg handler now batch r,
       run_steps cfg handler now batch r stranded_store = (Ok r, stranded_store)
       /\ sweep cfg now stranded_store = (SweepReport 0 0 0, stranded_store).
Proof.
  split_and!.
  - eexists _, _. split; reflexivity.
  - intros e He. vm_compute in He. by apply list_elem_of_singleton in He as ->.
  - eexists. split; [left|]. by vm_compute.
  - intros cfg handler now batch r. split; [by apply run_steps_idle|by apply sweep_quiet].
Qed.

(** The first runner outlives its lease; the sweep gives the step to a second one; then the
    first one fails. *)
Definition swept_at : Z := seconds 400.
Definition abandoned_store : store (J := Z_number) :=
  (sweep default_config swept_at (run_events [Claim 1] flaky_store)).2.
Definition second_claim := (claimed_at swept_at abandoned_store).1.
Definition wedged_store : store (J := Z_number) :=
  run_events [Claim swept_at; Work default_config no_action_handler (swept_at + 1) first_claim]
    abandoned_store.
Definition wedged_until : Z := seconds 500.

(** A claim is a lease without a fence: a runner that fails after its lease expired requeues
    the step a second runner holds, whose attempts are used up; from then on the step is due,
    the schema refuses its next attempt, and every tick of every instance ends with a database
    error at this step, which no sweep repairs. *)
Theorem lost_lease_blocks_the_runner (now : Z) (Hdue : wedged_until <= now) :
  c_attempts second_claim = 2
  /\ (exists s, s ∈ steps wedged_store /\ s_status s = Pending /\ s_attempts s = s_max_attempts s)
  /\ forall cfg handler batch r,
       run_steps cfg handler now (S batch) r wedged_store = (Err Database, wedged_store)
       /\ sweep cfg now wedged_store = (SweepReport 0 0 0, wedged_store).
Proof.
  split_and!; [reflexivity|eexists; split; [left|]; by vm_compute|].
  intros cfg handler batch r.
  split; [|by apply sweep_quiet].
  cbn [run_steps]. assert (claim_due_step now wedged_store = Err Database) as ->; [|done].
  unfold claim_due_step. rewrite (due_steps_later wedged_until now) by done. reflexivity.
Qed.

Lemma lost_lease_blocks_the_runner_witness :
  exists s, s ∈ steps wedged_store /\ s_status s = Pending /\ s_attempts s = s_max_attempts s.
Proof.
  assert (wedged_until <= wedged_until) as H by lia.
  exact (proj1 (proj2 (lost_lease_blocks_the_runner wedged_until H))).
Defined.

(** The whole run: both attempts of the first step fail, the second step runs, the run fails. *)
Definition failed_events : list (event (J := Z_number)) :=
  let work t c := Work default_config no_action_handler t c in
  let second := (claimed_at (seconds 10) (run_events [Claim 1; work 2 first_claim] flaky_store)).1 in
  let before := [Claim 1; work 2 first_claim; Claim (seconds 10); work (seconds 11) second;
                 Settle (seconds 11) second; Claim (seconds 12)] in
  let third := (claimed_at (seconds 12) (run_events (take 5 before) flaky_store)).1 in
  start_flaky :: before ++ [work (seconds 13) third; Settle (seconds 13) third].
Definition failed_store : store (J := Z_number) := run_events failed_events (empty_store []).
Definition failed_step : workflow_step (J := Z_number) :=
  default (new_step 0 0 0 0 (StepDefinition [] Task None VNull 0)) (steps failed_store !! 0%nat).
Definition noop_step : workflow_step (J := Z_number) :=
  default (new_step 0 0 0 0 (StepDefinition [] Task None VNull 0)) (steps failed_store !! 1%nat).
Definition failed_run : workflow_execution :=
  default (WorkflowExecution 0 0 0 RunRunning [] None 0 None None) (executions failed_store !! 0%nat).

Lemma elem_default {A} (d : A) (l : list A) (i : nat) : is_given (l !! i) = true -> default d (l !! i) ∈ l.
Proof. destruct (l !! i) as [x|] eqn:E; [|done]. intros _. by eapply list_elem_of_lookup_2. Qed.

Lemma failed_store_rows :
  failed_step ∈ steps failed_store /\ noop_step ∈ steps failed_store /\ failed_run ∈ executions failed_store.
Proof.
  split_and!; apply elem_default; vm_compute; reflexivity.
Qed.

Lemma steps_run_in_order_witness :
  s_attempts noop_step = 1 /\ s_attempts failed_step = 2 /\ is_open (s_status failed_step) = false.
Proof.
  split; [by vm_compute|split; [by vm_compute|]]. destruct failed_store_rows as (H1 & H2 & _). unfold failed_store in H1, H2.
  assert (s_execution_id failed_step = s_execution_id noop_step) as He by (by vm_compute).
  exact (proj1 (steps_run_in_order failed_events [] failed_step noop_step H1 H2 He) ltac:(by vm_compute) ltac:(by vm_compute)).
Defined.

Lemma verdict_matches_steps_witness :
  e_status failed_run = RunFailed
  /\ exists s, s ∈ steps failed_store /\ s_execution_id s = e_id failed_run /\ s_status s = Failed.
Proof.
  split; [by vm_compute|]. destruct failed_store_rows as (_ & _ & H). unfold failed_store in H |- *.
  exact (proj1 (proj2 (verdict_matches_steps failed_events [] failed_run H) ltac:(by vm_compute))).
Defined.

Lemma attempts_within_budget_witness :
  s_attempts failed_step = 2 /\ 1 <= s_max_attempts failed_step <= 5.
Proof.
  split; [by vm_compute|]. destruct failed_store_rows as (H & _ & _). unfold failed_store in H.
  exact (proj1 (proj2 (attempts_within_budget failed_events [] failed_step H))).
Defined.
