(* ===== verification/Draining.v ===== *)
(** * The engine drains: [crates/workflows/src/engine.rs], [store.rs]

    One runner that keeps ticking and sweeping brings every run to a terminal state, whatever a
    previous process left behind and whatever the host's actions answer. Each round makes a
    natural number, the attempts and settlements still possible, strictly smaller. *)

From S2P Require Import Prelude Json Cron Definitions WorkflowStore Engine Interleaving.

Section Draining.
Context `{J : JsonNumber} {Cal : Calendar}.

(** ** Backoff *)

Definition backoff_base (base : Z) : Z := as_i64_cast (Z.max (whole_milliseconds base) 1).
Definition backoff_cap (base max : Z) : Z :=
  Z.max (as_i64_cast (whole_milliseconds max)) (backoff_base base) * NANOS_PER_MILLI.

Lemma retry_delay_cap attempt base max : retry_delay attempt base max <= backoff_cap base max.
Proof. unfold retry_delay, backoff_cap, backoff_base, NANOS_PER_MILLI. lia. Qed.

(** The backoff of a failed attempt is the base doubled once per earlier attempt, up to the
    cap: the first wait is the base, never less and never more than the cap, each later one is
    twice the previous or the cap, and attempts beyond sixteen wait no longer. Arithmetic
    saturates instead of overflowing. *)
Theorem retry_delay_doubles (attempt base max : Z)
  (Hattempt : 1 <= attempt) (Hbase : NANOS_PER_MILLI <= base <= i64_max) (Hmax : 0 <= max <= i64_max) :
  let ms := whole_milliseconds base in
  let cap := Z.max (whole_milliseconds max) ms in
  retry_delay 1 base max = ms * NANOS_PER_MILLI
  /\ retry_delay attempt base max = Z.min (ms * 2 ^ (Z.min 16 attempt - 1)) cap * NANOS_PER_MILLI
  /\ ms * NANOS_PER_MILLI <= retry_delay attempt base max <= cap * NANOS_PER_MILLI
  /\ (attempt < 16 -> retry_delay (attempt + 1) base max
        = Z.min (2 * (retry_delay attempt base max)) (cap * NANOS_PER_MILLI)).
Proof.
  intros ms cap. unfold i64_max, NANOS_PER_MILLI in *.
  assert (1 <= ms <= 9223372036854) as Hms.
  { unfold ms, whole_milliseconds, NANOS_PER_MILLI. rewrite Z.quot_div_nonneg by lia. split.
    - apply Z.div_le_lower_bound; lia.
    - apply Z.lt_succ_r, Z.div_lt_upper_bound; lia. }
  assert (0 <= whole_milliseconds max <= 9223372036854) as Hc.
  { unfold whole_milliseconds, NANOS_PER_MILLI. rewrite Z.quot_div_nonneg by lia. split.
    - apply Z.div_le_lower_bound; lia.
    - apply Z.lt_succ_r, Z.div_lt_upper_bound; lia. }
  assert (Hcast : forall z, 0 <= z <= 9223372036854 -> as_i64_cast z = z).
  { intros z Hz. unfold as_i64_cast, i64_min. rewrite Z.mod_small; lia. }
  assert (Heq : forall a, 1 <= a ->
    retry_delay a base max = Z.min (ms * 2 ^ (Z.min 16 a - 1)) cap * 1000000).
  { intros a Ha. unfold retry_delay. fold ms. rewrite (Z.max_l ms 1) by lia.
    rewrite !Hcast by lia. rewrite Z.shiftl_1_l. replace (Z.max 1 (Z.min 16 a)) with (Z.min 16 a) by lia.
    fold cap. unfold saturating_mul_i64, i64_max, i64_min, NANOS_PER_MILLI. f_equal.
    assert (1 <= 2 ^ (Z.min 16 a - 1)) by (apply Z.lt_pred_le, Z.pow_pos_nonneg; lia).
    assert (0 <= ms * 2 ^ (Z.min 16 a - 1)) by nia. lia. }
  assert (1 <= 2 ^ (Z.min 16 attempt - 1)) as Hpow by (apply Z.lt_pred_le, Z.pow_pos_nonneg; lia).
  split_and!.
  - rewrite Heq by lia. change (2 ^ (Z.min 16 1 - 1)) with 1. rewrite Z.mul_1_r. unfold cap. lia.
  - by apply Heq.
  - rewrite Heq by lia. unfold cap. nia.
  - rewrite Heq by lia. unfold cap. nia.
  - intros Hlt. rewrite !Heq by lia. replace (Z.min 16 (attempt + 1)) with (attempt + 1) by lia.
    replace (Z.min 16 attempt) with attempt in * by lia.
    replace (attempt + 1 - 1) with (Z.succ (attempt - 1)) by lia. rewrite Z.pow_succ_r by lia.
    unfold cap. nia.
Qed.

(** ** What is left to do *)

(** An attempt can be claimed and ended; a claimed one can only be ended. *)
Definition weight (s : workflow_step) : nat :=
  if is_open (s_status s) then
    Z.to_nat (2 * (6 - s_attempts s)) + (if has_status Running s then 1 else 0)
  else 0.

Definition open_runs (db : store) : nat :=
  length (List.filter (fun e => bool_decide (e_status e = RunRunning)) (executions db)).

Definition potential (db : store) : nat := sum_list (weight <$> steps db) + open_runs db.

(** The longest a step is put off. *)
Definition max_delay (cfg : runner_config) : Z :=
  Z.max (seconds MAX_WAIT_SECONDS) (backoff_cap (rc_retry_base cfg) (rc_retry_max cfg)).

(** One sweep, then the step loop of one tick. *)
Definition round (cfg : runner_config) (handler : action_handler) (now : Z) (db : store) : store :=
  (run_steps cfg handler now (rc_batch cfg) empty_report (sweep cfg now db).2).2.

(** [n] rounds, [pause] apart; the host's actions may answer differently in every round. *)
Fixpoint drive (cfg : runner_config) (handlers : nat -> action_handler) (n : nat) (now pause : Z) (db : store) : store :=
  match n with
  | O => db
  | S n => drive cfg handlers n (now + pause) pause (round cfg (handlers n) now db)
  end.

(** ** The rows a restart finds *)

(** A row the runner can continue from: a step waiting for its turn has an attempt left and is
    due within [delay]; a claimed step says when it was claimed. *)
Definition ready (delay now : Z) (s : workflow_step) : Prop :=
  schema_step s = true
  /\ s_available_at s <= now + delay
  /\ (s_status s = Running -> exists t, s_started_at s = Some t /\ t <= now)
  /\ (s_status s = Pending \/ s_status s = Waiting -> schema_step (claim_row 0 s) = true).

Record recoverable (delay now : Z) (db : store) : Prop := {
  rec_ids : NoDup (s_id <$> steps db);
  rec_runs : NoDup (e_id <$> executions db);
  rec_ready s : s ∈ steps db -> ready delay now s
}.

Lemma recoverable_later delay now now' db :
  now <= now' -> recoverable delay now db -> recoverable delay now' db.
Proof.
  intros Hle [Hi Hr Hs]. constructor; [done|done|]. intros s Hin. destruct (Hs s Hin) as (H1 & H2 & H3 & H4).
  split_and!; [done|lia| |done]. intros H. destruct (H3 H) as (t & ? & ?). exists t. split; [done|lia].
Qed.

Definition progress (delay now : Z) (db db' : store) : Prop :=
  recoverable delay now db'
  /\ (potential db' <= potential db /\ open_runs db' <= open_runs db)%nat.

Lemma progress_refl delay now db : recoverable delay now db -> progress delay now db db.
Proof. by split. Qed.
Lemma progress_trans delay now db1 db2 db3 :
  progress delay now db1 db2 -> progress delay now db2 db3 -> progress delay now db1 db3.
Proof. intros [_ ?] [? ?]. split; [done|lia]. Qed.

Lemma sum_weight_le (f : workflow_step -> workflow_step) l :
  (forall s, s ∈ l -> weight (f s) <= weight s)%nat ->
  (sum_list (weight <$> (f <$> l)) <= sum_list (weight <$> l))%nat.
Proof.
  induction l as [|s l IH]; intros H; [done|]. rewrite !fmap_cons. simpl.
  pose proof (H s ltac:(by left)). specialize (IH (fun x Hx => H x ltac:(by right))). lia.
Qed.

Lemma sum_weight_lt (f : workflow_step -> workflow_step) l s :
  (forall x, x ∈ l -> weight (f x) <= weight x)%nat -> s ∈ l -> (weight (f s) < weight s)%nat ->
  (sum_list (weight <$> (f <$> l)) < sum_list (weight <$> l))%nat.
Proof.
  intros H Hs Hlt. induction l as [|x l IH]; [by apply elem_of_nil in Hs|].
  rewrite !fmap_cons. simpl. pose proof (H x ltac:(by left)).
  pose proof (sum_weight_le f l (fun y Hy => H y ltac:(by right))).
  apply elem_of_cons in Hs as [->|Hs]; [lia|].
  specialize (IH (fun y Hy => H y ltac:(by right)) Hs). lia.
Qed.

(** A guarded update whose writes keep rows ready and never add work. *)
Lemma update_steps_progress delay now p f db :
  recoverable delay now db ->
  (forall s, s ∈ steps db -> p s = true ->
     s_id (f s) = s_id s /\ ready delay now (f s) /\ (weight (f s) <= weight s)%nat) ->
  progress delay now db (update_steps p f db)
  /\ forall s, s ∈ steps db -> p s = true -> (weight (f s) < weight s)%nat ->
       (potential (update_steps p f db) < potential db)%nat.
Proof.
  intros [Hi Hr Hs] H. unfold update_steps, update_where, progress, potential, open_runs. simpl.
  assert (forall s, s ∈ steps db -> (weight (if p s then f s else s) <= weight s)%nat) as Hw.
  { intros s Hin. destruct (p s) eqn:E; [|done]. by apply H. }
  split; [split|].
  - constructor; simpl; [|done|].
    + rewrite <- list_fmap_compose. erewrite (list_fmap_ext _ s_id); [done|].
      intros i s Hin%list_elem_of_lookup_2. simpl. destruct (p s) eqn:E; [by apply H|done].
    + intros x (s & -> & Hin)%list_elem_of_fmap. destruct (p s) eqn:E; [by apply H|by apply Hs].
  - pose proof (sum_weight_le _ _ Hw). lia.
  - intros s Hin Hp Hlt.
    pose proof (sum_weight_lt (fun x => if p x then f x else x) _ s Hw Hin) as Hsum.
    simpl in Hsum. rewrite Hp in Hsum. specialize (Hsum Hlt). lia.
Qed.

(** ** Rows *)

Lemma schema_budget s : schema_step s = true -> 0 <= s_attempts s <= 5.
Proof.
  intros H. pose proof (schema_attempts _ H). unfold schema_step in H. bool_prop. lia.
Qed.

Lemma weight_open s : schema_step s = true -> is_open (s_status s) = true -> (2 <= weight s)%nat.
Proof. intros H%schema_budget Ho. unfold weight. rewrite Ho. lia. Qed.
Lemma weight_closed s : is_open (s_status s) = false -> weight s = 0%nat.
Proof. unfold weight. by intros ->. Qed.
Lemma weight_running s :
  s_status s = Running -> weight s = (Z.to_nat (2 * (6 - s_attempts s)) + 1)%nat.
Proof. unfold weight, has_status. by intros ->. Qed.
Lemma weight_queued s :
  s_status s = Pending \/ s_status s = Waiting -> weight s = Z.to_nat (2 * (6 - s_attempts s)).
Proof. unfold weight, has_status. intros [-> | ->]; simpl; lia. Qed.

Lemma room_same s s' :
  same_step s s' -> s_attempts s' = s_attempts s ->
  schema_step (claim_row 0 s') = schema_step (claim_row 0 s).
Proof. intros Hs Ha. apply schema_step_same; [done|simpl; by rewrite Ha]. Qed.

Lemma ready_closed delay now s s' :
  ready delay now s -> same_step s s' -> s_attempts s' = s_attempts s ->
  s_available_at s' = s_available_at s -> is_open (s_status s') = false -> ready delay now s'.
Proof.
  intros (Hok & Hav & _ & _) Hs Ha Hav' Hc. split_and!.
  - by rewrite (schema_step_same s s').
  - by rewrite Hav'.
  - intros E. by rewrite E in Hc.
  - intros E. by destruct E as [E|E]; rewrite E in Hc.
Qed.

Lemma step_kind_parse_inv raw k : step_kind_parse raw = Some k -> raw = step_kind_as_str k.
Proof.
  unfold step_kind_parse. destruct (str_eqb raw s!"task") eqn:E; [intros [= <-]; by apply str_eqb_eq in E|].
  destruct (str_eqb raw s!"wait") eqn:E'; [|done]. intros [= <-]. by apply str_eqb_eq in E'.
Qed.

Lemma schema_kind s : schema_step s = true -> exists k, step_kind_parse (s_kind s) = Some k.
Proof.
  intros H. unfold schema_step in H. bool_prop.
  destruct H as [_ [[[-> _] _]|[[-> _] _]]]; [by exists Task|by exists Wait].
Qed.

(** A task with an attempt left, and a wait that has not resumed, can be claimed again. *)
Lemma room_task s :
  schema_step s = true -> step_kind_parse (s_kind s) = Some Task ->
  s_attempts s < s_max_attempts s -> schema_step (claim_row 0 s) = true.
Proof.
  intros H Hk%step_kind_parse_inv Ha. pose proof (schema_attempts _ H). unfold schema_step in *. simpl.
  rewrite Hk in *. cbn in *. bool_prop. repeat split; try tauto. left. split_and!; [done|lia|lia].
Qed.
Lemma room_wait s :
  schema_step s = true -> step_kind_parse (s_kind s) = Some Wait ->
  s_attempts s <= 1 -> schema_step (claim_row 0 s) = true.
Proof.
  intros H Hk%step_kind_parse_inv Ha. pose proof (schema_attempts _ H). unfold schema_step in *. simpl.
  rewrite Hk in *. cbn in *. bool_prop. repeat split; try tauto. right. split_and!; [done|lia|lia].
Qed.

(** ** Writes *)

Lemma close_progress delay now p f db :
  recoverable delay now db ->
  (forall s, same_step s (f s) /\ s_attempts (f s) = s_attempts s
             /\ s_available_at (f s) = s_available_at s /\ is_open (s_status (f s)) = false) ->
  (forall s, s ∈ steps db -> p s = true -> is_open (s_status s) = true) ->
  progress delay now db (update_steps p f db)
  /\ forall s, s ∈ steps db -> p s = true -> (potential (update_steps p f db) < potential db)%nat.
Proof.
  intros Hrec Hf Hp. assert (Hready := rec_ready _ _ _ Hrec).
  destruct (update_steps_progress delay now p f db Hrec) as [Hpr Hlt].
  { intros s Hs _. destruct (Hf s) as (Hsame & Ha & Hav & Hc). split_and!.
    - unfold same_step in Hsame. congruence.
    - by eapply ready_closed; [apply Hready|..].
    - rewrite weight_closed by done. lia. }
  split; [done|]. intros s Hs Hps. apply (Hlt s); [done|done|].
  destruct (Hf s) as (_ & _ & _ & Hc). rewrite (weight_closed (f s)) by done.
  pose proof (weight_open s (proj1 (Hready s Hs)) (Hp s Hs Hps)). lia.
Qed.

Lemma running_step_open id s : is_running_step id s = true -> is_open (s_status s) = true.
Proof. by intros ->%is_running_step_status. Qed.

Lemma running_step_self s : s_status s = Running -> is_running_step (s_id s) s = true.
Proof. intros H. unfold is_running_step. by rewrite Z.eqb_refl, H. Qed.

Lemma complete_step_progress delay now t id o db :
  recoverable delay now db ->
  progress delay now db (complete_step t id o db)
  /\ forall s, s ∈ steps db -> s_id s = id -> s_status s = Running ->
       (potential (complete_step t id o db) < potential db)%nat.
Proof.
  intros Hrec. unfold complete_step.
  edestruct (close_progress delay now (is_running_step id)) as [Hp Hlt]; [done| | |split; [exact Hp|]].
  - by intros s.
  - intros s _. apply running_step_open.
  - intros s Hs <- Hr. by apply (Hlt s Hs), running_step_self.
Qed.

Lemma fail_step_progress delay now t id m db :
  recoverable delay now db ->
  progress delay now db (fail_step t id m db)
  /\ forall s, s ∈ steps db -> s_id s = id -> s_status s = Running ->
       (potential (fail_step t id m db) < potential db)%nat.
Proof.
  intros Hrec. unfold fail_step.
  edestruct (close_progress delay now (is_running_step id)) as [Hp Hlt]; [done| | |split; [exact Hp|]].
  - by intros s.
  - intros s _. apply running_step_open.
  - intros s Hs <- Hr. by apply (Hlt s Hs), running_step_self.
Qed.

Lemma cancel_step_progress delay now t id db :
  recoverable delay now db -> progress delay now db (cancel_step t id db).
Proof.
  intros Hrec. apply close_progress; [done|by intros s|]. by intros s _ [_ ?]%andb_true_iff.
Qed.

(** A running step put back on the queue, or parked. *)
Lemma release_progress delay now s f db :
  recoverable delay now db -> s ∈ steps db -> s_status s = Running ->
  (forall x, same_step x (f x) /\ s_attempts (f x) = s_attempts x) ->
  s_status (f s) = Pending \/ s_status (f s) = Waiting ->
  s_available_at (f s) <= now + delay -> schema_step (claim_row 0 s) = true ->
  progress delay now db (update_steps (is_running_step (s_id s)) f db)
  /\ (potential (update_steps (is_running_step (s_id s)) f db) < potential db)%nat.
Proof.
  intros Hrec Hs Hrun Hf Hst Hav Hroom.
  assert (Huniq : forall x, x ∈ steps db -> is_running_step (s_id s) x = true -> x = s).
  { intros x Hx [Hid%Z.eqb_eq _]%andb_true_iff. by eapply (NoDup_key_inj s_id); [eapply rec_ids|..]. }
  destruct (rec_ready _ _ _ Hrec s Hs) as (Hok & _ & _ & _). destruct (Hf s) as [Hsame Ha].
  pose proof (schema_budget _ Hok) as Hb.
  assert (weight (f s) < weight s)%nat as Hlt.
  { rewrite (weight_running s), (weight_queued (f s)), Ha by done. lia. }
  destruct (update_steps_progress delay now (is_running_step (s_id s)) f db Hrec) as [Hp Hstrict].
  { intros x Hx ->%Huniq; [|done]. split_and!; [unfold same_step in Hsame; congruence| |lia].
    split_and!; [by rewrite (schema_step_same s (f s))|done| |].
    - intros E. by destruct Hst as [E'|E']; rewrite E' in E.
    - intros _. by rewrite (room_same s (f s)). }
  split; [done|]. apply (Hstrict s); [done|by apply running_step_self|done].
Qed.

(** ** Runs *)

Lemma with_audit_progress delay now db l : recoverable delay now db -> progress delay now db (with_audit db l).
Proof. intros [? ? ?]. split; [by constructor|]. unfold potential, open_runs. simpl. lia. Qed.

Lemma filter_length_le {A} (p : A -> bool) (f : A -> A) l :
  (forall x, p (f x) = true -> p x = true) ->
  (length (List.filter p (f <$> l)) <= length (List.filter p l))%nat.
Proof.
  intros H. induction l as [|x l IH]; [done|]. rewrite fmap_cons. simpl.
  destruct (p (f x)) eqn:E; [rewrite (H x E); simpl; lia|]. destruct (p x); simpl; lia.
Qed.

Lemma filter_length_le' {A} (p : A -> bool) (l : list A) : (length (List.filter p l) <= length l)%nat.
Proof. induction l as [|x l IH]; simpl; [done|]. destruct (p x); simpl; lia. Qed.

Lemma filter_length_lt {A} (p : A -> bool) (f : A -> A) l x :
  (forall x, p (f x) = true -> p x = true) -> x ∈ l -> p x = true -> p (f x) = false ->
  (length (List.filter p (f <$> l)) < length (List.filter p l))%nat.
Proof.
  intros H Hx Hp Hf. induction l as [|y l IH]; [by apply elem_of_nil in Hx|]. rewrite fmap_cons. simpl.
  apply elem_of_cons in Hx as [->|Hx].
  - rewrite Hp, Hf. simpl. pose proof (filter_length_le p f l H). lia.
  - specialize (IH Hx). destruct (p (f y)) eqn:E; [rewrite (H y E); simpl; lia|]. destruct (p y); simpl; lia.
Qed.

Lemma verdict_terminal db id : verdict db id <> RunRunning.
Proof. unfold verdict. by repeat destruct (_ <? _)%nat. Qed.

Lemma settle_execution_progress delay now t id db :
  recoverable delay now db ->
  progress delay now db (settle_execution t id db).2
  /\ forall e, e ∈ executions db -> e_id e = id -> e_status e = RunRunning ->
       has_open_step db id = false ->
       (potential (settle_execution t id db).2 < potential db)%nat.
Proof.
  intros Hrec. unfold settle_execution. rewrite count_where_open.
  destruct (has_open_step db id); [by split; [apply progress_refl|]|].
  set (error := if bool_decide _ then _ else _). clearbody error.
  set (f := fun e => write_execution e (verdict db id) (Some t) error).
  set (g := fun e => if is_running_execution id e then f e else e).
  change (update_where (is_running_execution id) f (executions db)) with (g <$> executions db).
  assert (Hg : forall e, bool_decide (e_status (g e) = RunRunning) = true
                         -> bool_decide (e_status e = RunRunning) = true).
  { intros e. unfold g. destruct (is_running_execution id e); [|done]. simpl.
    intros H%bool_decide_eq_true_1. by apply verdict_terminal in H. }
  destruct Hrec as [Hi Hr Hs].
  assert (recoverable delay now (with_executions db (g <$> executions db))) as Hrec'.
  { constructor; simpl; [done| |done]. rewrite <- list_fmap_compose.
    erewrite (list_fmap_ext _ e_id); [done|]. intros i e _. simpl. unfold g.
    by destruct (is_running_execution id e). }
  split.
  - destruct (existsb _ _); split; try exact Hrec'; unfold potential, open_runs; simpl;
      pose proof (filter_length_le _ g (executions db) Hg) as Hle; lia.
  - intros e He Hid Hst _.
    assert (is_running_execution id e = true) as Hrun
      by (unfold is_running_execution; by rewrite Hid, Z.eqb_refl, Hst).
    assert (bool_decide (e_status (g e) = RunRunning) = false) as Hge.
    { unfold g. rewrite Hrun. simpl. apply bool_decide_eq_false_2, verdict_terminal. }
    pose proof (filter_length_lt _ g (executions db) e Hg He (bool_decide_eq_true_2 _ Hst) Hge) as Hlt.
    destruct (existsb _ _); unfold potential, open_runs; simpl; lia.
Qed.

Lemma record_settlement_progress delay now e st db :
  recoverable delay now db -> progress delay now db (record_settlement e st db).
Proof.
  intros H. unfold record_settlement.
  destruct (settlement_action st); [by apply with_audit_progress|by apply progress_refl].
Qed.

Lemma audit_settlement_progress delay now id db :
  recoverable delay now db -> progress delay now db (audit_settlement id db).
Proof.
  intros H. unfold audit_settlement. destruct (find_execution _ _); [|by apply progress_refl].
  destruct (is_terminal _); [by apply record_settlement_progress|by apply progress_refl].
Qed.

Lemma settle_if_open_progress delay now t id db :
  recoverable delay now db -> progress delay now db (settle_if_open t id db).
Proof.
  intros H. unfold settle_if_open. destruct (settle_execution_progress delay now t id db H) as [Hp _].
  destruct (settle_execution t id db) as [[st|] db']; [|done].
  eapply progress_trans; [exact Hp|]. apply audit_settlement_progress, Hp.
Qed.

Lemma settle_after_step_progress delay now t c db :
  recoverable delay now db -> progress delay now db (settle_after_step t c db).2.
Proof.
  intros H. unfold settle_after_step. destruct (find_execution _ _) as [e|]; [|by apply progress_refl].
  destruct (e_status e); try by apply cancel_step_progress.
  destruct (settle_execution_progress delay now t (c_execution_id c) db H) as [Hp _].
  destruct (settle_execution t (c_execution_id c) db) as [[st|] db']; [|done].
  eapply progress_trans; [exact Hp|]. apply record_settlement_progress, Hp.
Qed.

Lemma settle_all_progress delay now t ids db :
  recoverable delay now db -> progress delay now db (settle_all t ids db).2.
Proof.
  revert db. induction ids as [|id ids IH]; intros db H; simpl; [by apply progress_refl|].
  destruct (settle_execution_progress delay now t id db H) as [Hp _].
  destruct (settle_execution t id db) as [st db1]. specialize (IH db1 (proj1 Hp)).
  destruct (settle_all t ids db1) as [l db2]. by eapply progress_trans.
Qed.

Lemma fold_progress {A} delay now (f : store -> A -> store) l db :
  (forall db x, recoverable delay now db -> progress delay now db (f db x)) ->
  recoverable delay now db -> progress delay now db (foldl f db l).
Proof.
  intros Hf. revert db. induction l as [|x l IH]; intros db H; simpl; [by apply progress_refl|].
  eapply progress_trans; [by apply Hf|]. apply IH. by apply Hf.
Qed.

(** ** The sweep *)

Section Round.
Context (cfg : runner_config) (handler : action_handler) (delay now : Z).
Context (Hdelay : max_delay cfg <= delay).

Lemma delay_wait n params : wait_seconds_from params = Ok n -> now + seconds n <= now + delay.
Proof.
  unfold wait_seconds_from. rewrite result_bind_ok. intros (x & _ & H). destruct (_ && _) eqn:E; [|done].
  injection H as ->. apply andb_true_iff in E as [_ E%Z.leb_le].
  unfold max_delay in Hdelay. assert (seconds n <= seconds MAX_WAIT_SECONDS); [|lia].
  unfold seconds, NANOS_PER_SECOND. lia.
Qed.

Lemma delay_nonneg : 0 <= delay.
Proof. unfold max_delay in Hdelay. assert (0 <= seconds MAX_WAIT_SECONDS) by (vm_compute; done). lia. Qed.

Lemma reclaim_step_progress s db :
  recoverable delay now db -> s ∈ steps db -> s_status s = Running ->
  progress delay now db (reclaim_step now s db)
  /\ (potential (reclaim_step now s db) < potential db)%nat.
Proof.
  intros Hrec Hs Hrun. pose proof delay_nonneg as Hd.
  destruct (rec_ready _ _ _ Hrec s Hs) as (Hok & _). destruct (schema_kind s Hok) as [k Hk].
  assert (Hfail : forall m, progress delay now db (fail_step now (s_id s) m db)
                            /\ (potential (fail_step now (s_id s) m db) < potential db)%nat).
  { intros m. destruct (fail_step_progress delay now now (s_id s) m db Hrec) as [Hp Hl]. eauto. }
  unfold reclaim_step. rewrite Hk. destruct k.
  - destruct (_ <? _) eqn:E; [|apply Hfail]. apply Z.ltb_lt in E.
    apply (release_progress delay now s); simpl; auto; [by intros|lia|].
    apply room_task; [done|done|lia].
  - destruct (1 <? s_attempts s) eqn:E.
    { destruct (complete_step_progress delay now now (s_id s) waited_resumed db Hrec) as [Hp Hl]. eauto. }
    apply Z.ltb_ge in E. destruct (wait_seconds_from _) as [n|] eqn:En; [|apply Hfail].
    apply (release_progress delay now s); simpl; auto; [by intros|by eapply delay_wait|].
    by apply room_wait.
Qed.

Lemma update_steps_keep p f db t : t ∈ steps db -> p t = false -> t ∈ steps (update_steps p f db).
Proof. intros Ht Hp. unfold update_steps. simpl. apply update_where_elem. exists t. by rewrite Hp. Qed.

Lemma reclaim_step_keep s t db : t ∈ steps db -> s_id t <> s_id s -> t ∈ steps (reclaim_step now s db).
Proof.
  intros Ht Hne. assert (Hp : is_running_step (s_id s) t = false).
  { unfold is_running_step. by rewrite (proj2 (Z.eqb_neq _ _) Hne). }
  unfold reclaim_step, complete_step, set_step_waiting, fail_step, retry_step.
  destruct (step_kind_parse _) as [[]|]; [| |by apply update_steps_keep].
  - destruct (_ <? _); by apply update_steps_keep.
  - destruct (_ <? _); [by apply update_steps_keep|]. destruct (wait_seconds_from _); by apply update_steps_keep.
Qed.

Lemma reclaim_all_progress l db :
  recoverable delay now db -> NoDup (s_id <$> l) ->
  (forall s, s ∈ l -> s ∈ steps db /\ s_status s = Running) ->
  progress delay now db (foldl (fun db s => reclaim_step now s db) db l)
  /\ (l <> [] -> (potential (foldl (fun db s => reclaim_step now s db) db l) < potential db)%nat).
Proof.
  revert db. induction l as [|s l IH]; intros db Hrec Hnd Hl; cbn [foldl].
  { by split; [apply progress_refl|]. }
  rewrite fmap_cons, NoDup_cons in Hnd. destruct Hnd as [Hni Hnd].
  destruct (Hl s ltac:(by left)) as [Hs Hrun].
  destruct (reclaim_step_progress s db Hrec Hs Hrun) as [Hp Hlt].
  destruct (IH (reclaim_step now s db) (proj1 Hp) Hnd) as [Hp' _].
  { intros t Ht. destruct (Hl t ltac:(by right)) as [Ht' ?]. split; [|done]. apply reclaim_step_keep; [done|].
    intros Heq. apply Hni. rewrite <- Heq. by apply list_elem_of_fmap_2. }
  split; [by eapply progress_trans|]. intros _. destruct Hp'. lia.
Qed.

Lemma limited_sublist {A} n (l : list A) : sublist (limited n l) l.
Proof. apply sublist_take. Qed.

Lemma stale_steps_spec lease limit db :
  recoverable delay now db ->
  NoDup (s_id <$> stale_steps now lease limit db)
  /\ forall s, s ∈ stale_steps now lease limit db -> s ∈ steps db /\ s_status s = Running.
Proof.
  intros Hrec. unfold stale_steps. split.
  - eapply sublist_NoDup; [|apply fmap_sublist, limited_sublist]. rewrite (sort_by_perm claimed_order _).
    apply NoDup_filter_keys. eapply rec_ids, Hrec.
  - intros s Hs%limited_elem. rewrite sort_by_elem, elem_of_filter_bool in Hs. destruct Hs as [Hs H].
    split; [done|]. unfold is_stale in H. apply andb_true_iff in H as [[H _]%andb_true_iff _].
    by apply bool_decide_eq_true_1 in H.
Qed.

Lemma resolve_due_waits_progress limit db :
  recoverable delay now db ->
  progress delay now db (resolve_due_waits now limit db).2
  /\ (due_waits now limit db <> [] -> (potential (resolve_due_waits now limit db).2 < potential db)%nat).
Proof.
  intros Hrec. unfold resolve_due_waits. simpl.
  edestruct (close_progress delay now (fun s => existsb (fun d => s_id d =? s_id s) (due_waits now limit db)))
    as [Hp Hlt]; [exact Hrec|..].
  3: split; [exact Hp|].
  - by intros s.
  - intros s Hs (d & Hd & Hid%Z.eqb_eq)%existsb_elem. apply due_waits_elem in Hd as (Hd & Hw & _).
    assert (d = s) as -> by (eapply (NoDup_key_inj s_id); eauto; eapply rec_ids, Hrec). by rewrite Hw.
  - intros Hne. destruct (due_waits now limit db) as [|d l] eqn:E; [done|].
    assert (d ∈ due_waits now limit db) as Hd by (rewrite E; by left).
    apply due_waits_elem in Hd as (Hd & _). apply (Hlt d Hd). apply existsb_elem. exists d.
    split; [by left|by apply Z.eqb_refl].
Qed.

Lemma reconcile_progress limit db :
  recoverable delay now db ->
  progress delay now db (reconcile_executions now limit db).2
  /\ (unsettled limit db <> [] -> (potential (reconcile_executions now limit db).2 < potential db)%nat).
Proof.
  intros Hrec. split; [by apply settle_all_progress|]. unfold reconcile_executions.
  destruct (unsettled limit db) as [|e l] eqn:E; [done|]. intros _. cbn.
  assert (e ∈ unsettled limit db) as He by (rewrite E; by left).
  apply limited_elem in He. rewrite sort_by_elem, elem_of_filter_bool in He.
  destruct He as [He [Hst%bool_decide_eq_true_1 Ho%negb_true_iff]%andb_true_iff].
  destruct (settle_execution_progress delay now now (e_id e) db Hrec) as [Hp Hlt].
  specialize (Hlt e He eq_refl Hst Ho). destruct (settle_execution now (e_id e) db) as [st db1]. cbn in *.
  pose proof (settle_all_progress delay now now (e_id <$> l) db1 (proj1 Hp)) as Hp'.
  destruct (settle_all now (e_id <$> l) db1) as [ids db2]. cbn in *. destruct Hp'. lia.
Qed.

(** A sweep never adds work, and one that finds something to repair takes some away. *)
Lemma sweep_progress db :
  recoverable delay now db ->
  progress delay now db (sweep cfg now db).2
  /\ ((potential (sweep cfg now db).2 < potential db)%nat
      \/ due_waits now (rc_sweep_batch cfg) db = []
         /\ stale_steps now (lease_seconds cfg) (rc_sweep_batch cfg) db = []
         /\ unsettled (rc_sweep_batch cfg) db = []).
Proof.
  intros Hrec. set (b := rc_sweep_batch cfg).
  unfold sweep. fold b.
  destruct (resolve_due_waits_progress b db Hrec) as [Hp1 Hlt1].
  destruct (resolve_due_waits now b db) as [waits db1] eqn:E1. cbn in Hp1, Hlt1.
  destruct (stale_steps_spec (lease_seconds cfg) b db1 (proj1 Hp1)) as [Hnd Hst].
  destruct (reclaim_all_progress _ db1 (proj1 Hp1) Hnd Hst) as [Hp2 Hlt2].
  destruct (reclaim_stale_steps cfg now db1) as [reclaimed db2] eqn:E2.
  unfold reclaim_stale_steps in E2. fold b in E2. injection E2 as Er Edb. rewrite Edb in Hp2, Hlt2.
  set (touched := waits ++ reclaimed).
  pose proof (fold_progress delay now (fun db id => settle_if_open now id db) touched db2
    (fun db x => settle_if_open_progress delay now now x db) (proj1 Hp2)) as Hp3.
  set (db3 := foldl _ db2 touched) in *.
  destruct (reconcile_progress b db3 (proj1 Hp3)) as [Hp4 Hlt4].
  destruct (reconcile_executions now b db3) as [recovered db4] eqn:E4. cbn in Hp4, Hlt4.
  pose proof (fold_progress delay now (fun db id => audit_settlement id db) recovered db4
    (fun db x => audit_settlement_progress delay now x db) (proj1 Hp4)) as Hp5.
  cbn [snd]. split; [by eauto using progress_trans|].
  destruct Hp1 as [_ H1], Hp2 as [_ H2], Hp3 as [_ H3], Hp4 as [_ H4], Hp5 as [_ H5].
  destruct (decide (due_waits now b db = [])) as [Hw|Hw]; [|left; specialize (Hlt1 Hw); lia].
  assert (db1 = db) as ->.
  { unfold resolve_due_waits in E1. injection E1 as _ <-. rewrite Hw. unfold update_steps, update_where.
    simpl. rewrite list_fmap_id. by destruct db. }
  destruct (decide (stale_steps now (lease_seconds cfg) b db = [])) as [Hs|Hs]; [|left; specialize (Hlt2 Hs); lia].
  rewrite Hs in Edb. simpl in Edb. subst db2.
  assert (touched = []) as Et.
  { unfold touched. rewrite <- Er, Hs. unfold resolve_due_waits in E1. rewrite Hw in E1. by injection E1 as <- _. }
  assert (db3 = db) as Hdb3 by (unfold db3; by rewrite Et). rewrite Hdb3 in *.
  destruct (decide (unsettled b db = [])) as [Hu|Hu]; [by right|left; specialize (Hlt4 Hu); lia].
Qed.

(** ** The step loop *)

Lemma claim_row_progress s db :
  recoverable delay now db -> s ∈ steps db -> s_status s = Pending \/ s_status s = Waiting ->
  progress delay now db (update_steps (fun x => s_id x =? s_id s) (claim_row now) db)
  /\ (potential (update_steps (fun x => (s_id x =? s_id s)%Z) (claim_row now) db) < potential db)%nat.
Proof.
  intros Hrec Hs Hq. destruct (rec_ready _ _ _ Hrec s Hs) as (Hok & Hav & _ & Hroom). specialize (Hroom Hq).
  pose proof (schema_budget _ Hok). pose proof (schema_budget _ Hroom) as Hb. simpl in Hb.
  assert (weight (claim_row now s) < weight s)%nat as Hlt.
  { rewrite weight_running, (weight_queued s) by done. simpl. lia. }
  edestruct (update_steps_progress delay now) as [Hp Hstrict]; [exact Hrec|..].
  2: split; [exact Hp|apply (Hstrict s); [done|by apply Z.eqb_refl|exact Hlt]].
  intros x Hx Hid%Z.eqb_eq.
  assert (x = s) as -> by (by eapply (NoDup_key_inj s_id); [eapply rec_ids|..]).
  split_and!; [done| |lia]. split_and!; [done|done| |by intros [?|?]]. intros _. exists now. split; [done|lia].
Qed.

Lemma claim_due_step_progress db :
  recoverable delay now db ->
  (due_steps now db = [] /\ claim_due_step now db = Ok (None, db))
  \/ exists s db1, s ∈ steps db /\ claim_due_step now db = Ok (Some (claim_of (claim_row now s)), db1)
       /\ claim_row now s ∈ steps db1 /\ progress delay now db db1 /\ (potential db1 < potential db)%nat.
Proof.
  intros Hrec. unfold claim_due_step. destruct (due_steps now db) as [|s l] eqn:E; [by left|right].
  apply due_steps_cons in E as [Hs Hdue]. destruct (rec_ready _ _ _ Hrec s Hs) as (_ & _ & _ & Hroom).
  assert (s_status s = Pending \/ s_status s = Waiting) as Hq.
  { unfold is_due in Hdue. bool_prop. destruct Hdue as [[[_ [H|H]] _] _]; auto. }
  specialize (Hroom Hq). change (schema_step (claim_row 0 s)) with (schema_step (claim_row now s)) in Hroom.
  rewrite Hroom. destruct (claim_row_progress s db Hrec Hs Hq) as [Hp Hlt].
  exists s. eexists. split_and!; [done|done| |exact Hp|exact Hlt].
  unfold update_steps. simpl. apply update_where_elem. exists s. by rewrite Z.eqb_refl.
Qed.

(** Whatever the action answered, the write of a fresh claim keeps the store recoverable. *)
Lemma write_outcome_progress s db w db' :
  recoverable delay now db -> s ∈ steps db -> s_status s = Running ->
  write_outcome cfg handler now (claim_of s) db = Ok (w, db') -> progress delay now db db'.
Proof.
  intros Hrec Hs Hrun. destruct (rec_ready _ _ _ Hrec s Hs) as (Hok & _).
  unfold write_outcome. cbn [c_kind c_attempts c_params c_max_attempts c_id claim_of].
  destruct (step_kind_parse (s_kind s)) as [[]|] eqn:Hk; [| |done].
  - destruct (perform _ _ _) as [output|m]; [intros [= <- <-]; by apply complete_step_progress|].
    destruct (s_attempts s <? _) eqn:E; intros [= <- <-]; [|by apply fail_step_progress].
    apply Z.ltb_lt in E. apply (release_progress delay now s); simpl; auto; [by intros| |].
    + pose proof (retry_delay_cap (s_attempts s) (rc_retry_base cfg) (rc_retry_max cfg)).
      unfold max_delay in Hdelay. lia.
    + apply room_task; [done|done|lia].
  - destruct (1 <? s_attempts s) eqn:E; [intros [= <- <-]; by apply complete_step_progress|].
    apply Z.ltb_ge in E. rewrite result_bind_ok. intros (n & Hn & [= <- <-]).
    apply (release_progress delay now s); simpl; auto; [by intros|by eapply delay_wait|by apply room_wait].
Qed.

Lemma advance_step_progress s db o db' :
  recoverable delay now db -> s ∈ steps db -> s_status s = Running ->
  advance_step cfg handler now (claim_of s) db = Ok (o, db') -> progress delay now db db'.
Proof.
  intros Hrec Hs Hrun. unfold advance_step. rewrite result_bind_ok. intros ([w db1] & Hw & H).
  apply write_outcome_progress in Hw; [|done..].
  pose proof (settle_after_step_progress delay now now (claim_of s) db1 (proj1 Hw)) as Hp.
  destruct w; [| |by injection H as _ <-].
  - destruct (settle_after_step now (claim_of s) db1) as [st db2]. injection H as _ <-. by eapply progress_trans.
  - injection H as _ <-. by eapply progress_trans.
Qed.

Lemma run_steps_progress batch r db :
  recoverable delay now db ->
  progress delay now db (run_steps cfg handler now batch r db).2
  /\ ((0 < batch)%nat -> due_steps now db <> [] ->
      (potential (run_steps cfg handler now batch r db).2 < potential db)%nat).
Proof.
  revert r db. induction batch as [|batch IH]; intros r db Hrec; cbn [run_steps].
  { split; [by apply progress_refl|lia]. }
  destruct (claim_due_step_progress db Hrec) as [[Hd ->]|(s & db1 & Hs & -> & Hs1 & Hp & Hlt)].
  { by split; [apply progress_refl|]. }
  destruct (advance_step cfg handler now _ db1) as [[o db2]|e] eqn:E; [|by split].
  apply advance_step_progress in E; [|apply Hp|done..].
  destruct (IH (count_outcome o r) db2 (proj1 E)) as [Hp' _]. split.
  - by eauto using progress_trans.
  - intros _ _. destruct E, Hp'. lia.
Qed.

(** ** A round *)

(** Enough time has passed for what the last round put off, and for a lost claim's lease. *)
Definition ripe (db : store) : Prop :=
  forall s, s ∈ steps db ->
    s_available_at s <= now
    /\ (s_status s = Running -> exists t, s_started_at s = Some t
          /\ t < now - lease_seconds cfg * NANOS_PER_SECOND).

Lemma limited_not_nil {A} n (l : list A) : 0 < n -> limited n l = [] -> l = [].
Proof. unfold limited. intros Hn. destruct (Z.to_nat n) eqn:E; [lia|]. by destruct l. Qed.

Lemma sorted_not_nil {A} (cmp : A -> A -> comparison) (p : A -> bool) l x :
  x ∈ l -> p x = true -> sort_by cmp (List.filter p l) <> [].
Proof. intros Hx Hp. rewrite sort_by_nil. intros E. assert (x ∈ List.filter p l) as H by (by apply elem_of_filter_bool). rewrite E in H. by apply elem_of_nil in H. Qed.

Lemma find_execution_elem db e :
  recoverable delay now db -> e ∈ executions db -> find_execution db (e_id e) = Some e.
Proof.
  intros Hrec He. unfold find_execution. destruct (List.find _ _) as [x|] eqn:E.
  - apply find_some in E as [Hx Hid%Z.eqb_eq]. apply list_elem_of_In in Hx. f_equal.
    by eapply (NoDup_key_inj e_id); [eapply rec_runs|..].
  - eapply find_none in E; [|by apply list_elem_of_In]. by rewrite Z.eqb_refl in E.
Qed.

(** The first open step of a run. *)
Lemma first_open db id :
  has_open_step db id = true ->
  exists s, s ∈ steps db /\ s_execution_id s = id /\ is_open (s_status s) = true
            /\ earlier_open db s = false.
Proof.
  intros (s0 & Hs0 & Ho0)%existsb_elem.
  destruct (sort_by step_no_order (List.filter (fun s => is_open (s_status s)) (steps_of db id)))
    as [|s rest] eqn:E; [by eapply sorted_not_nil in E|].
  destruct (sort_by_head (CmpLaws0 := on_laws s_step_no Z.compare) step_no_order _ _ _ E) as [Hin Hmin].
  apply elem_of_filter_bool in Hin as [Hin Ho]. apply steps_of_elem in Hin as [Hin Hid].
  exists s. split_and!; [done|done|done|]. apply not_true_iff_false.
  intros (x & Hx & H)%existsb_elem. apply andb_true_iff in H as [[He%Z.eqb_eq Hlt%Z.ltb_lt]%andb_true_iff Hox].
  assert (x ∈ List.filter (fun s => is_open (s_status s)) (steps_of db id)) as Hx'.
  { rewrite elem_of_filter_bool, steps_of_elem. split; [split; [done|congruence]|done]. }
  apply Hmin in Hx'. change (s_step_no s <= s_step_no x) in Hx'. lia.
Qed.

Context (Hbatch : (0 < rc_batch cfg)%nat) (Hsweep : 0 < rc_sweep_batch cfg).

(** If nothing is due, overdue, stale or unsettled, no run is open. *)
Lemma nothing_open db :
  recoverable delay now db -> ripe db ->
  stale_steps now (lease_seconds cfg) (rc_sweep_batch cfg) db = [] ->
  unsettled (rc_sweep_batch cfg) db = [] -> due_steps now db = [] ->
  forall e, e ∈ executions db -> e_status e <> RunRunning.
Proof.
  intros Hrec Hripe Hst%limited_not_nil Hu%limited_not_nil Hd e He Hrun; [|done..].
  pose proof (find_execution_elem db e Hrec He) as Hf.
  destruct (has_open_step db (e_id e)) eqn:Ho.
  2: { revert Hu. apply (sorted_not_nil started_order _ _ e He). by rewrite Hrun, Ho. }
  apply first_open in Ho as (s & Hs & Hid & Ho & Hearlier). destruct (Hripe s Hs) as [Hav Hlease].
  assert (run_is_running db s = true) as Hrr by (unfold run_is_running; rewrite Hid, Hf; by rewrite Hrun).
  destruct (s_status s) eqn:E; try done.
  1, 3: revert Hd; apply (sorted_not_nil (claim_order db) _ _ s Hs); unfold is_due; rewrite Hrr, E, Hearlier;
    by rewrite (proj2 (Z.leb_le _ _) Hav).
  revert Hst. apply (sorted_not_nil claimed_order _ _ s Hs). unfold is_stale, has_status. rewrite E, Hrr.
  destruct (Hlease eq_refl) as (t & -> & Ht). by apply Z.ltb_lt in Ht.
Qed.

Lemma round_progress db :
  recoverable delay now db -> ripe db ->
  progress delay now db (round cfg handler now db)
  /\ ((potential (round cfg handler now db) < potential db)%nat
      \/ forall e, e ∈ executions (round cfg handler now db) -> e_status e <> RunRunning).
Proof.
  intros Hrec Hripe. unfold round. destruct (sweep_progress db Hrec) as [Hp Hcase].
  destruct (run_steps_progress (rc_batch cfg) empty_report _ (proj1 Hp)) as [Hp' Hlt].
  split; [by eapply progress_trans|]. destruct Hp' as [_ Hle]. destruct Hcase as [Hs|(Hw & Hst & Hu)]; [left; lia|].
  rewrite (sweep_idle cfg now db Hw Hst Hu) in *. cbn [snd] in *.
  destruct (base.decide (due_steps now db = [])) as [Hd|Hd]; [right|left; by apply Hlt].
  assert (run_steps cfg handler now (rc_batch cfg) empty_report db = (Ok empty_report, db)) as ->.
  { destruct (rc_batch cfg); cbn [run_steps]; [done|].
    destruct (claim_due_step_progress db Hrec) as [[_ ->]|(s & db1 & Hs & Hc & _)]; [done|].
    unfold claim_due_step in Hc. by rewrite Hd in Hc. }
  by apply nothing_open.
Qed.
End Round.

Lemma recoverable_ripe cfg delay now now' db :
  recoverable delay now db -> now + delay <= now' -> now + lease_seconds cfg * NANOS_PER_SECOND < now' ->
  ripe cfg now' db.
Proof.
  intros Hrec Hd Hl s Hs. destruct (rec_ready _ _ _ Hrec s Hs) as (_ & Hav & Hrun & _). split; [lia|].
  intros Hr. destruct (Hrun Hr) as (t & Ht & Hle). exists t. split; [done|lia].
Qed.


Lemma open_runs_0 db : open_runs db = 0%nat <-> forall e, e ∈ executions db -> e_status e <> RunRunning.
Proof.
  unfold open_runs. split.
  - intros H e He Hr. apply length_zero_iff_nil in H.
    assert (e ∈ List.filter (fun e => bool_decide (e_status e = RunRunning)) (executions db)) as Hin
      by (apply elem_of_filter_bool; by rewrite Hr).
    rewrite H in Hin. by apply elem_of_nil in Hin.
  - intros H. rewrite filter_none; [done|]. intros e He. by apply bool_decide_eq_false, H.
Qed.

Lemma drains_within_potential (cfg : runner_config) (handlers : nat -> action_handler) (delay now pause : Z)
  (db : store) (n : nat)
  (Hdelay : max_delay cfg <= delay) (Hpause : delay <= pause)
  (Hlease : lease_seconds cfg * NANOS_PER_SECOND < pause)
  (Hbatch : (0 < rc_batch cfg)%nat) (Hsweep : 0 < rc_sweep_batch cfg)
  (Hdb : recoverable delay now db) (Hn : (potential db <= n)%nat) :
  forall e, e ∈ executions (drive cfg handlers n (now + pause) pause db) -> e_status e <> RunRunning.
Proof.
  apply open_runs_0. revert now db Hdb Hn. induction n as [|n IH]; intros now db Hdb Hn; cbn [drive].
  { unfold potential in Hn. lia. }
  assert (Hdb' : recoverable delay (now + pause) db).
  { eapply recoverable_later; [|exact Hdb]. pose proof (delay_nonneg cfg delay Hdelay). lia. }
  assert (Hripe : ripe cfg (now + pause) db) by (eapply recoverable_ripe; [exact Hdb|lia|lia]).
  destruct (round_progress cfg (handlers n) delay (now + pause) Hdelay Hbatch Hsweep db Hdb' Hripe)
    as [[Hrec [Hle Ho]] [Hlt|Hdone]].
  - apply IH; [done|lia].
  - apply open_runs_0 in Hdone. clear Hle.
    set (db1 := round cfg (handlers n) (now + pause) db) in *. clearbody db1.
    clear IH Hn Hripe Hdb Hdb' Ho db. revert now db1 Hrec Hdone.
    induction n as [|n IH]; intros now db Hdb Hdone; cbn [drive]; [done|].
    assert (Hdb' : recoverable delay (now + pause + pause) db).
    { eapply recoverable_later; [|exact Hdb]. pose proof (delay_nonneg cfg delay Hdelay). lia. }
    destruct (round_progress cfg (handlers n) delay (now + pause + pause) Hdelay Hbatch Hsweep db Hdb')
      as [[Hrec [_ Ho]] _]; [eapply recoverable_ripe; [exact Hdb|lia|lia]|].
    apply IH; [done|lia].
Qed.

Lemma potential_bound delay now db :
  recoverable delay now db -> (potential db <= 13 * length (steps db) + length (executions db))%nat.
Proof.
  intros [_ _ H]. unfold potential, open_runs. pose proof (filter_length_le' (fun e => bool_decide (e_status e = RunRunning)) (executions db)).
  assert (sum_list (weight <$> steps db) <= 13 * length (steps db))%nat; [|lia].
  induction (steps db) as [|s l IH]; [done|]. rewrite fmap_cons. simpl.
  specialize (IH (fun x Hx => H x ltac:(by right))).
  assert (weight s <= 13)%nat; [|lia]. destruct (H s ltac:(by left)) as (Hok & _).
  pose proof (schema_budget _ Hok). unfold weight. destruct (is_open (s_status s)), (has_status Running s); lia.
Qed.

(** C14. The engine drains: whatever a stopped process left in the store (claimed steps, parked
    waits, unsettled runs), whatever the host's actions answer in each round, and whatever else is queued,
    rounds of one sweep and the step loop of one tick, paced further apart than the longest
    backoff, pause and lease, bring every run to a terminal state, within thirteen rounds per
    step and one per run. *)
Theorem engine_drains (cfg : runner_config) (handlers : nat -> action_handler) (delay now pause : Z)
  (db : store) (n : nat)
  (Hdelay : max_delay cfg <= delay) (Hpause : delay <= pause)
  (Hlease : lease_seconds cfg * NANOS_PER_SECOND < pause)
  (Hbatch : (0 < rc_batch cfg)%nat) (Hsweep : 0 < rc_sweep_batch cfg)
  (Hdb : recoverable delay now db)
  (Hn : (13 * length (steps db) + length (executions db) <= n)%nat) :
  forall e, e ∈ executions (drive cfg handlers n (now + pause) pause db) -> e_status e <> RunRunning.
Proof.
  apply (drains_within_potential cfg handlers delay); try done.
  pose proof (potential_bound delay now db Hdb). lia.
Qed.

(** ** A validated definition *)

Lemma trim_start_by_nil f s : trim_start_by f s = [] -> forall c, c ∈ s -> f c = true.
Proof.
  induction s as [|x s IH]; simpl; [by intros _ c ?%elem_of_nil|].
  destruct (f x) eqn:E; [|done]. intros H c [->|Hc]%elem_of_cons; [done|by apply IH].
Qed.

Lemma trim_start_by_app f s c : f c = false -> c ∈ trim_start_by f (s ++ [c]).
Proof.
  intros Hc. induction s as [|x s IH]; simpl; [rewrite Hc; by left|].
  destruct (f x); [done|]. right. apply elem_of_app. right. by left.
Qed.

(** A trimmed name that is not empty holds a character that is no white space. *)
Lemma trim_by_nil f s : trim_end_by f (trim_start_by f s) = [] -> forall c, c ∈ s -> f c = true.
Proof.
  intros H. apply trim_start_by_nil.
  destruct (trim_start_by_head f s) as [E|(c & s' & E & Hc)]; [done|exfalso]. unfold trim_end_by in H.
  rewrite E in H. simpl in H. pose proof (trim_start_by_app f (rev s') c Hc) as Hin.
  apply (f_equal (@rev char)) in H. rewrite rev_involutive in H. rewrite H in Hin. by apply elem_of_nil in Hin.
Qed.

Lemma trim_visible s : trim s <> [] -> exists c, c ∈ trim s /\ is_whitespace c = false.
Proof.
  intros H. unfold trim in *. destruct (trim_start_by_head is_whitespace s) as [E|(c & s' & E & Hc)].
  - by rewrite E in H.
  - exists c. split; [|done]. rewrite E. unfold trim_end_by. apply elem_of_rev. simpl. by apply trim_start_by_app.
Qed.

Lemma new_step_ready delay now eid sid index d :
  0 <= delay -> step_ready d ->
  schema_step (new_step now eid sid index d) = true /\ ready delay now (new_step now eid sid index d).
Proof.
  intros Hd [Hname Hkind].
  assert (trim_end_by (N.eqb 32) (trim_start_by (N.eqb 32) (trim (sd_name d))) <> []) as Hvis.
  { intros H. destruct (trim_visible _ Hname) as (c & Hc & Hw).
    apply (trim_by_nil _ _ H) in Hc. apply N.eqb_eq in Hc. by rewrite <- Hc in Hw. }
  apply str_eqb_neq in Hvis.
  assert (schema_step (new_step now eid sid index d) = true
          /\ schema_step (claim_row 0 (new_step now eid sid index d)) = true) as [H1 H2].
  { unfold schema_step. simpl. rewrite Hvis. unfold MAX_ATTEMPTS in Hkind.
    rewrite (proj2 (Z.ltb_lt 0 _)) by lia. destruct (sd_kind d).
    - destruct Hkind as [Ha Hm]. destruct (sd_action d); [|done]. cbn.
      rewrite !(proj2 (Z.leb_le _ _)) by lia. done.
    - destruct Hkind as (-> & -> & _). done. }
  split; [done|]. split_and!; [done|simpl; lia|done|done].
Qed.

Lemma insert_steps_ready delay now eid sid index defs rows :
  0 <= delay -> Forall step_ready defs -> (forall i j, sid i = sid j -> i = j) ->
  (forall i s, s ∈ rows -> s_id s = sid i -> (i < index)%nat) ->
  (forall s, s ∈ rows -> ready delay now s) ->
  exists out, insert_steps now eid sid index defs rows = Ok out
              /\ length out = (length rows + length defs)%nat
              /\ forall s, s ∈ out -> ready delay now s.
Proof.
  intros Hd Hdefs Hinj. revert index rows. induction Hdefs as [|d defs Hr _ IH]; intros index rows Hfresh Hready.
  { exists rows. simpl. split_and!; [done|lia|done]. }
  cbn [insert_steps]. destruct (new_step_ready delay now eid (sid index) index d Hd Hr) as [Hok Hrow].
  rewrite Hok. destruct (existsb _ rows) eqn:E.
  { apply existsb_elem in E as (s & Hs & Hid%Z.eqb_eq). specialize (Hfresh _ _ Hs Hid). lia. }
  cbn. destruct (IH (S index) (rows ++ [new_step now eid (sid index) index d])) as (out & Hout & Hlen & Hall).
  - intros i s [Hs|Hs]%elem_of_app Hid; [specialize (Hfresh _ _ Hs Hid); lia|].
    apply list_elem_of_singleton in Hs as ->. simpl in Hid. apply Hinj in Hid. lia.
  - intros s [Hs| ->%list_elem_of_singleton]%elem_of_app; [by apply Hready|done].
  - exists out. rewrite length_app in Hlen. simpl in *. split_and!; [done|lia|done].
Qed.

Lemma start_recoverable delay now db defs w t who eid sid :
  0 <= delay -> recoverable delay now db -> Forall step_ready defs ->
  eid ∉ e_id <$> executions db -> (forall i, sid i ∉ s_id <$> steps db) ->
  (forall i j, sid i = sid j -> i = j) ->
  exists e db', start_run_with now eid sid w t who defs db = Ok (e, db')
    /\ e ∈ executions db' /\ e_id e = eid /\ e_status e = RunRunning /\ recoverable delay now db'
    /\ length (steps db') = (length (steps db) + length defs)%nat
    /\ length (executions db') = S (length (executions db)).
Proof.
  intros Hd Hdb Hready Heid Hsid Hinj.
  destruct (insert_steps_ready delay now eid sid 0 defs (steps db)) as (rows & Hrows & Hlen & Hall); try done.
  { intros i s Hs Hid. destruct (Hsid i). rewrite <- Hid. by apply list_elem_of_fmap_2. }
  { apply Hdb. }
  pose proof (insert_steps_spec now eid sid 0 defs (steps db) rows (rec_ids _ _ _ Hdb) Hrows)
    as (new & Hnew & Hnd & _).
  set (e := WorkflowExecution eid (w_id w) (w_organization_id w) RunRunning (trigger_kind_as_str t) who now None None).
  set (db' := record_start e (Store (workflows db) (executions db ++ [e]) rows (audit db))).
  assert (start_run_with now eid sid w t who defs db = Ok (e, db')) as Hstart.
  { unfold start_run_with, create_execution. destruct (existsb _ _) eqn:E.
    - apply existsb_elem in E as (x & Hx & Hid%Z.eqb_eq). destruct Heid. rewrite <- Hid. by apply list_elem_of_fmap_2.
    - cbn. by rewrite Hrows. }
  exists e, db'. split_and!; [done|apply elem_of_app; right; by left|done|done| |done|simpl; rewrite length_app; simpl; lia].
  constructor; simpl; [by rewrite Hnew| |done]. rewrite fmap_app. apply NoDup_app.
  split_and!; [apply Hdb| |apply NoDup_singleton]. intros k Hk ->%list_elem_of_singleton. done.
Qed.

Lemma definition_steps_ready d now : definition_validate d now = Ok tt -> Forall step_ready (wd_steps d).
Proof.
  unfold definition_validate. destruct (bool_decide _); [done|]. destruct (_ <? _)%nat; [done|].
  rewrite result_bind_ok. intros ([] & H%validate_steps_ok & _). apply H.
Qed.

(** From a definition to a verdict: a definition that passed validation always starts (with
    fresh ids, no check of the schema refuses its rows), and the engine then brings its run and
    every other open run to a terminal state, within thirteen rounds per step and one per run. *)
Theorem validated_run_settles (cfg : runner_config) (handlers : nat -> action_handler) (delay now pause : Z)
  (db : store) (d : workflow_definition) (w : workflow) (t : trigger_kind) (who : option Z)
  (eid : Z) (sid : nat -> Z)
  (Hdelay : max_delay cfg <= delay) (Hpause : delay <= pause)
  (Hlease : lease_seconds cfg * NANOS_PER_SECOND < pause)
  (Hbatch : (0 < rc_batch cfg)%nat) (Hsweep : 0 < rc_sweep_batch cfg)
  (Hdb : recoverable delay now db) (Hvalid : definition_validate d now = Ok tt)
  (Heid : eid ∉ e_id <$> executions db) (Hsid : forall i, sid i ∉ s_id <$> steps db)
  (Hinj : forall i j, sid i = sid j -> i = j) :
  exists e db', start_run_with now eid sid w t who (wd_steps d) db = Ok (e, db')
    /\ e ∈ executions db' /\ e_id e = eid /\ e_status e = RunRunning
    /\ forall n x, (13 * (length (steps db) + length (wd_steps d)) + S (length (executions db)) <= n)%nat ->
         x ∈ executions (drive cfg handlers n (now + pause) pause db') -> e_status x <> RunRunning.
Proof.
  destruct (start_recoverable delay now db (wd_steps d) w t who eid sid)
    as (e & db' & Hstart & He & Hid & Hst & Hrec & Hsteps & Hruns); try done.
  - exact (delay_nonneg cfg delay Hdelay).
  - by eapply definition_steps_ready.
  - exists e, db'. split_and!; try done. intros n x Hn.
    apply (engine_drains cfg handlers delay); try done. lia.
Qed.
End Draining.

(** ** Concrete runs *)

Definition day : Z := seconds MAX_WAIT_SECONDS.

(** The runner that claimed the flaky step stopped. *)
Definition orphaned_store : store (J := Z_number) := run_events [Claim 1] flaky_store.

Lemma empty_recoverable delay now : recoverable delay now (empty_store (J := Z_number) []).
Proof. constructor; simpl; [apply NoDup_nil_2..|by intros s ?%elem_of_nil]. Qed.

Lemma supply_inj : forall i j : nat, Z.of_nat i + 10 = Z.of_nat j + 10 -> i = j.
Proof. intros. lia. Qed.

Lemma default_delay : max_delay default_config <= day.
Proof. by vm_compute. Qed.

Lemma orphaned_recoverable : recoverable day 1 orphaned_store.
Proof.
  assert (Forall step_ready flaky_steps) as Hready.
  { repeat constructor; try done; by vm_compute. }
  destruct (start_recoverable day 0 (empty_store []) flaky_steps sample_workflow Manual None 1
              (fun k => Z.of_nat k + 10)) as (e & db' & Hstart & _ & _ & _ & Hrec & _);
    [by vm_compute|apply empty_recoverable|exact Hready|by intros ?%elem_of_nil|by intros i ?%elem_of_nil|apply supply_inj|].
  assert (flaky_store = db') as Hdb.
  { unfold flaky_store, start_flaky, run_events. cbn [foldl handle]. by rewrite Hstart. }
  unfold orphaned_store, run_events. cbn [foldl handle]. rewrite Hdb.
  assert (recoverable day 1 db') as Hrec' by (eapply recoverable_later; [|exact Hrec]; lia).
  destruct (claim_due_step_progress day 1 db' Hrec')
    as [[_ ->]|(s & db1 & _ & -> & _ & Hp & _)]; [done|apply Hp].
Qed.

Lemma engine_drains_witness :
  recoverable day 1 orphaned_store
  /\ forall e, e ∈ executions (drive default_config (fun _ => no_action_handler) 27 (1 + day) day orphaned_store) ->
       e_status e <> RunRunning.
Proof.
  split; [exact orphaned_recoverable|].
  apply (engine_drains default_config (fun _ => no_action_handler) day 1 day orphaned_store 27);
    [exact default_delay|lia|by vm_compute|simpl; lia|by vm_compute|exact orphaned_recoverable|vm_compute; lia].
Defined.

Lemma validated_run_settles_witness :
  exists e db', start_run_with sample_instant 1 (fun k => Z.of_nat k + 10) sample_workflow Manual None
      (wd_steps sample_definition) (empty_store []) = Ok (e, db')
    /\ e ∈ executions db' /\ e_id e = 1 /\ e_status e = RunRunning
    /\ forall n x, (13 * (0 + 2) + 1 <= n)%nat ->
         x ∈ executions (drive default_config (fun _ => no_action_handler) n (sample_instant + day) day db') ->
         e_status x <> RunRunning.
Proof.
  apply (validated_run_settles default_config (fun _ => no_action_handler) day sample_instant day (empty_store [])
           sample_definition sample_workflow Manual None 1 (fun k => Z.of_nat k + 10));
    [exact default_delay|lia|by vm_compute|simpl; lia|by vm_compute|apply empty_recoverable|reflexivity
    |by intros ?%elem_of_nil|by intros i ?%elem_of_nil|apply supply_inj].
Defined.

Lemma retry_delay_doubles_witness :
  1 <= 3 /\ NANOS_PER_MILLI <= seconds 5 <= i64_max /\ 0 <= seconds 300 <= i64_max
  /\ retry_delay 1 (seconds 5) (seconds 300) = whole_milliseconds (seconds 5) * NANOS_PER_MILLI.
Proof.
  assert (1 <= 3) as H1 by lia. assert (NANOS_PER_MILLI <= seconds 5 <= i64_max) as H2 by (by vm_compute).
  assert (0 <= seconds 300 <= i64_max) as H3 by (by vm_compute).
  split_and!; try lia. exact (proj1 (retry_delay_doubles 3 (seconds 5) (seconds 300) H1 H2 H3)).
Defined.
