(* ===== verification/Schedules.v ===== *)
(** * Due schedules: [claim_due_schedules] of [crates/workflows/src/store.rs]

    One claim advances every workflow it takes past the instant it was due at, and switches off
    the ones whose expression no longer parses. *)

From S2P Require Import Prelude Json Cron Definitions WorkflowStore Engine Interleaving.

Section Schedules.
Context `{J : JsonNumber} {Cal : Calendar}.

(** What a claim makes of one due row. *)
Definition advanced (now : Z) (d w : workflow) : workflow :=
  match cron_parse (default [] (w_schedule d)) with
  | Ok c => match next_after c now with
            | Ok t => set_next_run t w
            | Err _ => w
            end
  | Err _ => switch_off now w
  end.

Definition advanced_by (now : Z) (due : list workflow) (w : workflow) : workflow :=
  match List.find (fun d => w_id d =? w_id w) due with
  | Some d => advanced now d w
  | None => w
  end.

Definition parses (w : workflow) : bool := is_ok (cron_parse (default [] (w_schedule w))).

Lemma advanced_id now d w : w_id (advanced now d w) = w_id w.
Proof. unfold advanced. destruct (cron_parse _); [|done]. by destruct (next_after _ _). Qed.

Lemma find_other (due : list workflow) w : w_id w ∉ w_id <$> due -> List.find (fun d => w_id d =? w_id w) due = None.
Proof.
  intros H. destruct (List.find _ due) as [d|] eqn:E; [|done]. apply find_some in E as [Hd Hid%Z.eqb_eq].
  destruct H. rewrite <- Hid. by apply list_elem_of_fmap_2, list_elem_of_In.
Qed.

Lemma advance_schedules_spec now due db claimed db' :
  NoDup (w_id <$> due) -> advance_schedules now due db = Ok (claimed, db') ->
  claimed = List.filter parses due
  /\ db' = with_workflows db (advanced_by now due <$> workflows db)
  /\ forall d c, d ∈ due -> cron_parse (default [] (w_schedule d)) = Ok c -> is_ok (next_after c now) = true.
Proof.
  revert db claimed db'. induction due as [|d due IH]; intros db claimed db'; cbn [advance_schedules].
  { intros _ [= <- <-]. split_and!; [done| |by intros d c ?%elem_of_nil].
    destruct db. unfold with_workflows. simpl. f_equal. symmetry. apply list_fmap_id. }
  rewrite fmap_cons, NoDup_cons. intros [Hni Hnd].
  assert (Hstep : forall f out l, (forall w, f w = advanced now d w) ->
    advance_schedules now due (update_workflow_row (w_id d) f db) = Ok (l, out) ->
    l = List.filter parses due
    /\ out = with_workflows db (advanced_by now (d :: due) <$> workflows db)
    /\ forall x c, x ∈ due -> cron_parse (default [] (w_schedule x)) = Ok c -> is_ok (next_after c now) = true).
  { intros f out l Hf H. apply IH in H as (Hl & -> & Hok); [|done]. split_and!; [done| |done].
    unfold update_workflow_row, with_workflows, update_where. simpl. f_equal. rewrite <- list_fmap_compose.
    apply list_fmap_ext. intros _ w _. unfold advanced_by. simpl. rewrite (Z.eqb_sym (w_id w) (w_id d)).
    destruct (w_id d =? w_id w) eqn:E; [|done]. apply Z.eqb_eq in E.
    rewrite Hf, find_other; [done|]. by rewrite advanced_id, <- E. }
  unfold parses at 1. simpl. fold (parses d). unfold parses at 1.
  destruct (cron_parse _) as [c|e] eqn:Ec; cbn [is_ok].
  - rewrite result_bind_ok. intros (t & Ht & H). revert H. rewrite result_bind_ok. intros ([l out] & H & [= <- <-]).
    apply Hstep in H as (-> & Hout & Hok).
    + split_and!; [done|done|]. intros x c' [->|Hx]%elem_of_cons; [|by apply Hok].
      rewrite Ec. intros [= <-]. by rewrite Ht.
    + intros w. unfold advanced. by rewrite Ec, Ht.
  - intros H. apply Hstep in H as (-> & Hout & Hok).
    + split_and!; [done|done|]. intros x c' [->|Hx]%elem_of_cons; [by rewrite Ec|by apply Hok].
    + intros w. unfold advanced. by rewrite Ec.
Qed.

Lemma due_workflows_NoDup now limit db :
  NoDup (w_id <$> workflows db) -> NoDup (w_id <$> due_workflows now limit db).
Proof.
  intros H. unfold due_workflows. eapply sublist_NoDup; [|apply fmap_sublist, sublist_take].
  rewrite (sort_by_perm schedule_order _). by apply NoDup_filter_keys.
Qed.

Lemma due_workflows_elem now limit db w :
  w ∈ due_workflows now limit db -> w ∈ workflows db /\ is_due_workflow now w = true.
Proof.
  intros H%limited_elem. by rewrite sort_by_elem, elem_of_filter_bool in H.
Qed.

(** Claiming due schedules takes a due workflow at most once per due time: every claimed
    workflow's next run is an instant of its expression strictly after now, a due workflow whose
    expression no longer parses is switched off instead, every other row and every run stays as
    it was, and nothing the claim took is due again at the same instant. *)
Theorem schedules_claimed_once (now limit : Z) (db db' : store) (claimed : list workflow)
  (Hids : NoDup (w_id <$> workflows db))
  (Hclaim : claim_due_schedules now limit db = Ok (claimed, db')) :
  claimed = List.filter parses (due_workflows now limit db)
  /\ executions db' = executions db /\ steps db' = steps db
  /\ (forall w, w ∈ workflows db -> w ∉ due_workflows now limit db -> w ∈ workflows db')
  /\ (forall w c, w ∈ due_workflows now limit db -> cron_parse (default [] (w_schedule w)) = Ok c ->
        exists t, names_instant c t /\ now < t /\ set_next_run t w ∈ workflows db')
  /\ (forall w, w ∈ due_workflows now limit db -> parses w = false ->
        switch_off now w ∈ workflows db')
  /\ (forall w', w' ∈ workflows db' -> is_due_workflow now w' = true ->
        w' ∈ workflows db /\ w' ∉ due_workflows now limit db).
Proof.
  pose proof (due_workflows_NoDup now limit db Hids) as Hnd. unfold claim_due_schedules in Hclaim.
  apply advance_schedules_spec in Hclaim as (-> & -> & Hok); [|done]. simpl.
  set (due := due_workflows now limit db) in *.
  assert (Hby : forall w, w ∈ due -> advanced_by now due w = advanced now w w).
  { intros w Hw. unfold advanced_by. destruct (List.find _ due) as [d|] eqn:E.
    - apply find_some in E as [Hd%list_elem_of_In Hid%Z.eqb_eq].
      by rewrite (NoDup_key_inj w_id due d w Hnd Hd Hw Hid).
    - eapply find_none in E; [|by apply list_elem_of_In]. by rewrite Z.eqb_refl in E. }
  assert (Hkeep : forall w, w ∈ workflows db -> w ∉ due -> advanced_by now due w = w).
  { intros w Hw Hn. unfold advanced_by. rewrite find_other; [done|].
    intros (d & Hid & Hd)%list_elem_of_fmap. destruct Hn. pose proof (due_workflows_elem _ _ _ _ Hd) as [Hd' _].
    by rewrite (NoDup_key_inj w_id _ w d Hids Hw Hd' Hid). }
  assert (Hin : forall w w', w ∈ workflows db -> advanced_by now due w = w' ->
    w' ∈ advanced_by now due <$> workflows db) by (intros w w' Hw <-; by apply list_elem_of_fmap_2).
  split_and!; [done|done|done|by eauto| | |].
  - intros w c Hw Hc. specialize (Hok w c Hw Hc). destruct (next_after c now) as [t|] eqn:Ht; [|done].
    destruct (next_after_later c now t (cron_parse_ok _ _ Hc) Ht) as [Hn Hlt]. exists t. split_and!; [done|done|].
    apply (Hin w); [by apply due_workflows_elem in Hw as [? _]|]. rewrite (Hby w Hw). unfold advanced. by rewrite Hc, Ht.
  - intros w Hw Hp. apply (Hin w); [by apply due_workflows_elem in Hw as [? _]|]. rewrite (Hby w Hw).
    unfold advanced, parses in *. by destruct (cron_parse _).
  - intros w' (w & -> & Hw)%list_elem_of_fmap Hdue. assert (w ∈ due \/ w ∉ due) as [Hd|Hd].
    { destruct (base.decide (w_id w ∈ w_id <$> due)) as [(d & Hid & Hd)%list_elem_of_fmap|Hd].
      - left. pose proof (due_workflows_elem _ _ _ _ Hd) as [Hd' _].
        by rewrite (NoDup_key_inj w_id _ w d Hids Hw Hd' Hid).
      - right. intros H. by apply Hd, list_elem_of_fmap_2. }
    + exfalso. rewrite (Hby w Hd) in Hdue. unfold advanced in Hdue.
      destruct (cron_parse (default [] (w_schedule w))) as [c|] eqn:Hc.
      * specialize (Hok w c Hd Hc). destruct (next_after c now) as [t|] eqn:Ht; [|done].
        apply (next_after_later c now t (cron_parse_ok _ _ Hc)) in Ht as [_ Hlt].
        unfold is_due_workflow in Hdue. simpl in Hdue. bool_prop. lia.
      * done.
    + by rewrite (Hkeep w Hw Hd).
Qed.
End Schedules.

Definition nightly : workflow (J := Z_number) :=
  Workflow 1 7 None s!"nightly" [] true s!"schedule" (Some s!"15 9 * * mon-fri") None (VArray [])
    (Some 0) (VArray []) None 0 None 0 0.
Definition broken : workflow (J := Z_number) :=
  Workflow 2 7 None s!"broken" [] true s!"schedule" (Some s!"never") None (VArray [])
    (Some 0) (VArray []) None 0 None 0 0.

Lemma schedules_claimed_once_witness :
  exists claimed db', claim_due_schedules sample_instant 8 (empty_store [nightly; broken]) = Ok (claimed, db')
    /\ switch_off sample_instant broken ∈ workflows db'.
Proof.
  assert (NoDup (w_id <$> workflows (empty_store [nightly; broken]))) as Hids
    by (apply (bool_decide_unpack (NoDup [1; 2])); vm_compute; exact I).
  assert (is_ok (claim_due_schedules sample_instant 8 (empty_store [nightly; broken])) = true) as Hok
    by (vm_compute; reflexivity).
  destruct (claim_due_schedules sample_instant 8 (empty_store [nightly; broken])) as [[claimed db']|] eqn:E; [|done].
  exists claimed, db'. split; [done|].
  apply (proj1 (proj2 (proj2 (proj2 (proj2 (proj2 (schedules_claimed_once _ _ _ _ _ Hids E))))))).
  - assert (due_workflows sample_instant 8 (empty_store [nightly; broken]) = [nightly; broken]) as -> by reflexivity.
    right. left.
  - vm_compute. reflexivity.
Defined.
