(* ===== verification/Events.v ===== *)
(** * The event registry: [crates/events/src/catalogue.rs], [validation.rs], [bus.rs]

    Event names, the catalogue of the names the platform emits, and what an endpoint's
    subscription covers. A refusal keeps its code and drops its message. *)

From S2P Require Import Prelude Json.

(** [EventsError], by the part a caller can branch on. *)
Inductive events_error :=
| EventsStore
| EndpointNotFound
| EndpointNameTaken
| InvalidEndpoint
| InvalidEvent
| Client
| RedeliveryRefused (code : str)
| InvalidRetention
| OrganizationNotFound.

Definition events_error_code (e : events_error) : str :=
  match e with
  | EventsStore | Client => s!"internal_error"
  | EndpointNotFound => s!"webhook_endpoint_not_found"
  | EndpointNameTaken => s!"webhook_name_taken"
  | InvalidEndpoint => s!"invalid_webhook_endpoint"
  | InvalidEvent => s!"invalid_event"
  | RedeliveryRefused code => code
  | InvalidRetention => s!"invalid_retention_window"
  | OrganizationNotFound => s!"organization_not_found"
  end.

(** ** Names *)

Definition MAX_EVENT_NAME : nat := 96.
Definition MAX_EVENT_SEGMENT : nat := 32.
Definition MAX_SUBSCRIPTIONS : nat := 32.

Definition event_segment_ok (segment : str) : bool :=
  match segment with
  | first :: rest =>
      is_ascii_lowercase first
      && forallb (fun c => is_ascii_lowercase c || is_ascii_digit c || (c =? c!"_")%N) rest
      && (utf8_len segment <=? MAX_EVENT_SEGMENT)%nat
  | [] => false
  end.

Definition validate_event_name (raw : str) : result str events_error :=
  let name := trim raw in
  refuse str_eqb name [] with InvalidEvent in
  refuse (MAX_EVENT_NAME <? utf8_len name)%nat with InvalidEvent in
  let segments := split_on c!"." name in
  refuse (length segments <? 2)%nat with InvalidEvent in
  require forallb event_segment_ok segments else InvalidEvent in
  Ok name.

Fixpoint validate_names (raw names : list str) : result (list str) events_error :=
  match raw with
  | [] => Ok names
  | entry :: rest =>
      let? name := validate_event_name entry in
      validate_names rest (if existsb (str_eqb name) names then names else names ++ [name])
  end.
Definition validate_subscriptions (raw : list str) : result (list str) events_error :=
  refuse (length raw =? 0)%nat with InvalidEndpoint in
  refuse (MAX_SUBSCRIPTIONS <? length raw)%nat with InvalidEndpoint in
  let? names := validate_names raw [] in
  Ok (sort_by str_cmp names).

Definition MIN_RETENTION_DAYS : Z := 1.
Definition MAX_RETENTION_DAYS : Z := 3650.
Definition validate_retention_window (days : Z) : result Z events_error :=
  require (MIN_RETENTION_DAYS <=? days) && (days <=? MAX_RETENTION_DAYS) else InvalidRetention in
  Ok days.

(** ** Recorded events *)

Section Rows.
Context `{J : JsonNumber}.

Record event_row := EventRow {
  ev_id : Z;
  ev_name : str;
  ev_organization_id : option Z;
  ev_site_id : option Z;
  ev_actor_user_id : option Z;
  ev_payload : value;
  ev_created_at : Z
}.

Record new_event := NewEvent {
  ne_name : str;
  ne_organization_id : option Z;
  ne_site_id : option Z;
  ne_actor_user_id : option Z;
  ne_payload : value
}.

(** [bus::prepare] *)
Definition prepare (new : new_event) : result new_event events_error :=
  let? name := validate_event_name (ne_name new) in
  require is_object (ne_payload new) else InvalidEvent in
  Ok (NewEvent name (ne_organization_id new) (ne_site_id new) (ne_actor_user_id new) (ne_payload new)).
End Rows.

(** ** The catalogue *)

Inductive field_kind := FUuid | FString | FInteger | FBoolean | FTimestamp | FJson | FAny.
Inductive catalogue_status := Live | Reserved.
Record event_field := EventField { f_name : str; f_kind : field_kind; f_required : bool }.
Record event_definition := EventDefinition {
  ed_name : str; ed_area : str; ed_status : catalogue_status; ed_fields : list event_field
}.

Definition GROUP_SUFFIX : str := s!".*".

(** The first piece of a split. *)
Definition first_segment (name : str) : str := match split_on c!"." name with g :: _ => g | [] => [] end.
Definition event_group (e : event_definition) : str := first_segment (ed_name e).
Definition required_fields (e : event_definition) : list event_field := List.filter f_required (ed_fields e).

Definition EVENT_CATALOGUE : list event_definition :=
  [
   EventDefinition s!"page.created" s!"content" Live
     [EventField s!"page_id" FUuid true; EventField s!"site_id" FUuid true; EventField s!"slug" FString true;
      EventField s!"status" FString true];
   EventDefinition s!"page.updated" s!"content" Live
     [EventField s!"page_id" FUuid true; EventField s!"site_id" FUuid true; EventField s!"slug" FString true;
      EventField s!"status" FString false];
   EventDefinition s!"page.published" s!"content" Live
     [EventField s!"page_id" FUuid true; EventField s!"site_id" FUuid true; EventField s!"slug" FString true;
      EventField s!"status" FString false; EventField s!"revision_id" FUuid true;
      EventField s!"revision_no" FInteger true; EventField s!"title" FString false];
   EventDefinition s!"page.unpublished" s!"content" Reserved
     [EventField s!"page_id" FUuid true; EventField s!"site_id" FUuid true; EventField s!"slug" FString true;
      EventField s!"status" FString false];
   EventDefinition s!"page.deleted" s!"content" Live
     [EventField s!"page_id" FUuid true; EventField s!"site_id" FUuid true; EventField s!"slug" FString true];
   EventDefinition s!"page.restored" s!"content" Live
     [EventField s!"page_id" FUuid true; EventField s!"site_id" FUuid true; EventField s!"slug" FString true];
   EventDefinition s!"translation.updated" s!"content" Live
     [EventField s!"page_id" FUuid true; EventField s!"site_id" FUuid true;
      EventField s!"locale" FString true];
   EventDefinition s!"translation.published" s!"content" Reserved
     [EventField s!"page_id" FUuid true; EventField s!"site_id" FUuid true;
      EventField s!"locale" FString true];
   EventDefinition s!"media.created" s!"media" Live
     [EventField s!"media_id" FUuid true; EventField s!"site_id" FUuid true;
      EventField s!"filename" FString true; EventField s!"content_type" FString false];
   EventDefinition s!"media.updated" s!"media" Live
     [EventField s!"media_id" FUuid true; EventField s!"site_id" FUuid false;
      EventField s!"filename" FString false];
   EventDefinition s!"media.deleted" s!"media" Live [EventField s!"media_id" FUuid true;
   EventField s!"site_id" FUuid false];
   EventDefinition s!"media.restored" s!"media" Live [EventField s!"media_id" FUuid true];
   EventDefinition s!"media.purged" s!"media" Live [EventField s!"media_id" FUuid true];
   EventDefinition s!"media.version_created" s!"media" Live
     [EventField s!"media_id" FUuid true; EventField s!"version" FInteger true];
   EventDefinition s!"media.folder_created" s!"media" Live
     [EventField s!"folder_id" FUuid true; EventField s!"parent_id" FUuid false];
   EventDefinition s!"media.folder_moved" s!"media" Live
     [EventField s!"folder_id" FUuid true; EventField s!"parent_id" FUuid false];
   EventDefinition s!"media.folder_deleted" s!"media" Live [EventField s!"folder_id" FUuid true];
   EventDefinition s!"media.share_created" s!"media" Live
     [EventField s!"share_id" FUuid true; EventField s!"media_id" FUuid true;
      EventField s!"url" FString false];
   EventDefinition s!"media.share_revoked" s!"media" Live
     [EventField s!"share_id" FUuid true; EventField s!"media_id" FUuid false];
   EventDefinition s!"media.scan_flagged" s!"media" Live
     [EventField s!"media_id" FUuid true; EventField s!"reason" FString true];
   EventDefinition s!"media.retention_applied" s!"media" Live
     [EventField s!"rule" FString true; EventField s!"affected" FInteger false];
   EventDefinition s!"media.duplicate_merged" s!"media" Live
     [EventField s!"kept_media_id" FUuid true; EventField s!"merged_media_id" FUuid true;
      EventField s!"affected" FInteger false];
   EventDefinition s!"media.storage_updated" s!"media" Live [EventField s!"driver" FString true];
   EventDefinition s!"media.preset_created" s!"media" Live
     [EventField s!"preset_id" FUuid true; EventField s!"name" FString true];
   EventDefinition s!"media.grant_changed" s!"media" Live
     [EventField s!"media_id" FUuid true; EventField s!"subject" FString true];
   EventDefinition s!"media.grant_removed" s!"media" Live
     [EventField s!"media_id" FUuid true; EventField s!"subject" FString true];
   EventDefinition s!"media.hold_placed" s!"media" Live
     [EventField s!"media_id" FUuid true; EventField s!"site_id" FUuid true;
      EventField s!"filename" FString false; EventField s!"reason" FString true];
   EventDefinition s!"media.hold_released" s!"media" Live
     [EventField s!"media_id" FUuid true; EventField s!"site_id" FUuid true;
      EventField s!"filename" FString false; EventField s!"reason" FString true];
   EventDefinition s!"user.created" s!"identity" Live
     [EventField s!"user_id" FUuid true; EventField s!"email" FString false;
      EventField s!"role" FString false];
   EventDefinition s!"user.updated" s!"identity" Live
     [EventField s!"user_id" FUuid true; EventField s!"email" FString false;
      EventField s!"role" FString false];
   EventDefinition s!"user.deleted" s!"identity" Live [EventField s!"user_id" FUuid true];
   EventDefinition s!"iam.mfa_enrolled" s!"identity" Live
     [EventField s!"user_id" FUuid true; EventField s!"method" FString false];
   EventDefinition s!"iam.mfa_removed" s!"identity" Live
     [EventField s!"user_id" FUuid true; EventField s!"method" FString false];
   EventDefinition s!"iam.session_revoked" s!"identity" Live
     [EventField s!"user_id" FUuid true; EventField s!"session_id" FUuid false];
   EventDefinition s!"iam.policy_changed" s!"identity" Live
     [EventField s!"policy" FString false; EventField s!"action" FString true];
   EventDefinition s!"iam.binding_created" s!"identity" Live
     [EventField s!"subject" FString true; EventField s!"role" FString true];
   EventDefinition s!"iam.user_provisioned" s!"identity" Live
     [EventField s!"user_id" FUuid true; EventField s!"provider" FString true];
   EventDefinition s!"iam.provider_connected" s!"identity" Live
     [EventField s!"provider" FString true; EventField s!"connected" FBoolean true];
   EventDefinition s!"iam.approval_requested" s!"identity" Live
     [EventField s!"subject" FString true; EventField s!"permission" FString false];
   EventDefinition s!"iam.approval_decided" s!"identity" Live
     [EventField s!"subject" FString true; EventField s!"permission" FString false;
      EventField s!"approved" FBoolean false];
   EventDefinition s!"security.scan.completed" s!"security" Live
     [EventField s!"run_id" FUuid true; EventField s!"checks" FInteger true];
   EventDefinition s!"security.headers.updated" s!"security" Live
     [EventField s!"csp_mode" FString true; EventField s!"directives" FString false];
   EventDefinition s!"security.rate_limits.updated" s!"security" Live [EventField s!"scopes" FInteger true];
   EventDefinition s!"security.lockout.released" s!"security" Live [EventField s!"user_id" FUuid true];
   EventDefinition s!"security.lockout.triggered" s!"security" Live
     [EventField s!"user_id" FUuid true; EventField s!"attempts" FInteger true;
      EventField s!"lockout_minutes" FInteger false];
   EventDefinition s!"security.finding.opened" s!"security" Live
     [EventField s!"finding_id" FUuid true; EventField s!"severity" FString true;
      EventField s!"source" FString true; EventField s!"component" FString false;
      EventField s!"component_version" FString false; EventField s!"fixed_in" FString false];
   EventDefinition s!"security.ip_rule.changed" s!"security" Live
     [EventField s!"action" FString true; EventField s!"rule_id" FUuid true; EventField s!"kind" FString true;
      EventField s!"cidr" FString true];
   EventDefinition s!"site.created" s!"tenancy" Live
     [EventField s!"site_id" FUuid true; EventField s!"key" FString true; EventField s!"name" FString false];
   EventDefinition s!"site.updated" s!"tenancy" Live [EventField s!"site_id" FUuid true;
   EventField s!"name" FString false];
   EventDefinition s!"site.archived" s!"tenancy" Live [EventField s!"site_id" FUuid true];
   EventDefinition s!"domain.added" s!"tenancy" Live
     [EventField s!"domain_id" FUuid true; EventField s!"site_id" FUuid true;
      EventField s!"hostname" FString true];
   EventDefinition s!"domain.verified" s!"tenancy" Reserved
     [EventField s!"domain_id" FUuid true; EventField s!"site_id" FUuid true;
      EventField s!"hostname" FString true];
   EventDefinition s!"domain.removed" s!"tenancy" Live
     [EventField s!"domain_id" FUuid true; EventField s!"site_id" FUuid false;
      EventField s!"hostname" FString false];
   EventDefinition s!"plugin.installed" s!"plugins" Reserved
     [EventField s!"plugin" FString true; EventField s!"version" FString false];
   EventDefinition s!"plugin.activated" s!"plugins" Reserved [EventField s!"plugin" FString true];
   EventDefinition s!"plugin.deactivated" s!"plugins" Reserved [EventField s!"plugin" FString true];
   EventDefinition s!"plugin.uninstalled" s!"plugins" Reserved [EventField s!"plugin" FString true];
   EventDefinition s!"theme.activated" s!"themes" Live
     [EventField s!"theme" FString true; EventField s!"site_id" FUuid false];
   EventDefinition s!"workflow.run.started" s!"workflows" Reserved
     [EventField s!"workflow_id" FUuid true; EventField s!"run_id" FUuid true;
      EventField s!"site_id" FUuid false];
   EventDefinition s!"workflow.run.completed" s!"workflows" Reserved
     [EventField s!"workflow_id" FUuid true; EventField s!"run_id" FUuid true;
      EventField s!"duration_ms" FInteger false];
   EventDefinition s!"workflow.run.failed" s!"workflows" Reserved
     [EventField s!"workflow_id" FUuid true; EventField s!"run_id" FUuid true;
      EventField s!"error" FString false];
   EventDefinition s!"webhook.endpoint.created" s!"webhooks" Live
     [EventField s!"endpoint_id" FUuid true; EventField s!"endpoint_name" FString true;
      EventField s!"url" FString false];
   EventDefinition s!"webhook.endpoint.updated" s!"webhooks" Live
     [EventField s!"endpoint_id" FUuid true; EventField s!"endpoint_name" FString true];
   EventDefinition s!"webhook.endpoint.removed" s!"webhooks" Live
     [EventField s!"endpoint_id" FUuid true; EventField s!"endpoint_name" FString true];
   EventDefinition s!"webhook.endpoint.tested" s!"webhooks" Live
     [EventField s!"endpoint_id" FUuid true; EventField s!"event_id" FInteger false];
   EventDefinition s!"webhook.secret.rotated" s!"webhooks" Live
     [EventField s!"endpoint_id" FUuid true; EventField s!"endpoint_name" FString true];
   EventDefinition s!"webhook.test" s!"webhooks" Live [EventField s!"endpoint_id" FUuid true];
   EventDefinition s!"webhook.delivery.failed" s!"webhooks" Live
     [EventField s!"delivery_id" FUuid true; EventField s!"endpoint_id" FUuid true;
      EventField s!"endpoint_name" FString true; EventField s!"event_name" FString true;
      EventField s!"attempts" FInteger false; EventField s!"response_status" FInteger false];
   EventDefinition s!"webhook.retention.changed" s!"webhooks" Live
     [EventField s!"previous_window_days" FInteger false; EventField s!"window_days" FInteger true];
   EventDefinition s!"webhook.retention.swept" s!"webhooks" Live
     [EventField s!"window_days" FInteger false; EventField s!"events_deleted" FInteger false;
      EventField s!"deliveries_deleted" FInteger false];
   EventDefinition s!"analytics.traffic_spike" s!"analytics" Live
     [EventField s!"site_id" FUuid false; EventField s!"metric" FString false];
   EventDefinition s!"analytics.goal_reached" s!"analytics" Live
     [EventField s!"goal_id" FUuid false; EventField s!"site_id" FUuid false];
   EventDefinition s!"analytics.retention_purged" s!"analytics" Live
     [EventField s!"rule" FString true; EventField s!"affected" FInteger false];
   EventDefinition s!"analytics.erasure_completed" s!"analytics" Live [EventField s!"subject" FString false];
   EventDefinition s!"search.reindexed" s!"search" Live
     [EventField s!"scope" FString false; EventField s!"indexed" FInteger false];
   EventDefinition s!"notification.created" s!"notifications" Live
     [EventField s!"notification_id" FUuid true; EventField s!"channel" FString false];
   EventDefinition s!"notification.routed" s!"notifications" Live
     [EventField s!"notification_id" FUuid false; EventField s!"route" FString false;
      EventField s!"event_name" FString false];
   EventDefinition s!"notification.preferences.changed" s!"notifications" Live
     [EventField s!"user_id" FUuid true; EventField s!"field" FString false];
   EventDefinition s!"health.service.degraded" s!"health" Live
     [EventField s!"service" FString true; EventField s!"from_state" FString true;
      EventField s!"to_state" FString true; EventField s!"message" FString false;
      EventField s!"incident_id" FUuid false; EventField s!"suppressed" FBoolean false];
   EventDefinition s!"health.service.recovered" s!"health" Live
     [EventField s!"service" FString true; EventField s!"from_state" FString true;
      EventField s!"to_state" FString true; EventField s!"duration_seconds" FInteger false;
      EventField s!"incident_id" FUuid false];
   EventDefinition s!"health.threshold.breached" s!"health" Live
     [EventField s!"metric" FString true; EventField s!"value" FInteger false;
      EventField s!"crit_limit" FInteger false; EventField s!"window_start" FTimestamp false];
   EventDefinition s!"health.incident.acknowledged" s!"health" Live
     [EventField s!"incident_id" FUuid true; EventField s!"service" FString true;
      EventField s!"actor" FUuid true; EventField s!"note" FString false];
   EventDefinition s!"health.checks.completed" s!"health" Live
     [EventField s!"state" FString true; EventField s!"services" FInteger true;
      EventField s!"worst_service" FString false; EventField s!"samples" FInteger false];
   EventDefinition s!"backup.restored" s!"backups" Live
     [EventField s!"backup_id" FUuid true; EventField s!"parts" FInteger false;
      EventField s!"objects_restored" FInteger false; EventField s!"objects_failed" FInteger false;
      EventField s!"safety_backup_id" FUuid false];
   EventDefinition s!"notification.delivery.succeeded" s!"notifications" Live
     [EventField s!"notification_id" FUuid true; EventField s!"channel" FString true;
      EventField s!"test" FBoolean true; EventField s!"delivered" FBoolean false];
   EventDefinition s!"order.created" s!"commerce" Reserved
     [EventField s!"order_id" FUuid true; EventField s!"site_id" FUuid false;
      EventField s!"total" FString false]].

Definition event_lookup (name : str) : option event_definition :=
  List.find (fun e => str_eqb (ed_name e) name) EVENT_CATALOGUE.
Definition is_known (name : str) : bool := match event_lookup name with Some _ => true | None => false end.
Definition areas : list str :=
  foldl (fun seen e => if existsb (str_eqb (ed_area e)) seen then seen else seen ++ [ed_area e]) [] EVENT_CATALOGUE.
Definition in_area (area : str) : list event_definition :=
  List.filter (fun e => str_eqb (ed_area e) area) EVENT_CATALOGUE.
Definition group_members (group : str) : list str :=
  ed_name <$> List.filter (fun e => str_eqb (event_group e) group) EVENT_CATALOGUE.
Definition live_names : list str :=
  ed_name <$> List.filter (fun e => match ed_status e with Live => true | Reserved => false end) EVENT_CATALOGUE.

Definition strip_suffix (s suffix : str) : option str := (fun r : str => rev r) <$> strip_prefix (rev s) (rev suffix).

Definition is_group (pattern : str) : bool :=
  match strip_suffix pattern GROUP_SUFFIX with
  | Some group => negb (str_eqb group []) && forallb is_ascii_lowercase group
  | None => false
  end.
Definition group_of (pattern : str) : option str :=
  if is_group pattern then strip_suffix pattern GROUP_SUFFIX else None.
Definition validate_group (group : str) : result unit events_error :=
  let? _ := validate_event_name (group ++ s!".probe") in Ok tt.

(** A [BTreeSet] of names: an ordered list without repetition. *)
Fixpoint set_insert (x : str) (l : list str) : list str :=
  match l with
  | [] => [x]
  | y :: l' => match str_cmp x y with Lt => x :: l | Eq => l | Gt => y :: set_insert x l' end
  end.

Fixpoint reconcile_loop (subscriptions names : list str) : result (list str) events_error :=
  match subscriptions with
  | [] => Ok names
  | raw :: rest =>
      let pattern := trim raw in
      refuse str_eqb pattern [] with InvalidEndpoint in
      match group_of pattern with
      | Some group =>
          let? _ := validate_group group in
          reconcile_loop rest (foldl (fun l n => set_insert n l) (set_insert pattern names) (group_members group))
      | None =>
          let? name := validate_event_name pattern in
          reconcile_loop rest (set_insert name names)
      end
  end.
Definition reconcile (subscriptions : list str) : result (list str) events_error :=
  refuse (length subscriptions =? 0)%nat with InvalidEndpoint in
  refuse (MAX_SUBSCRIPTIONS <? length subscriptions)%nat with InvalidEndpoint in
  reconcile_loop subscriptions [].

Definition subscribed_to (subscriptions : list str) (event : str) : bool :=
  existsb (fun entry => str_eqb entry event) subscriptions
  || existsb (fun entry => str_eqb entry (first_segment event ++ GROUP_SUFFIX)) subscriptions.

(** ** Names and groups *)

Lemma catalogue_well_formed :
  forallb (fun e => is_ok (validate_event_name (ed_name e))) EVENT_CATALOGUE
  && forallb (fun e => is_group (event_group e ++ GROUP_SUFFIX)) EVENT_CATALOGUE
  && bool_decide (NoDup (ed_name <$> EVENT_CATALOGUE)) = true.
Proof. vm_compute. reflexivity. Qed.

Lemma no_wildcard_in_catalogue m :
  m ∈ (ed_name <$> EVENT_CATALOGUE) -> forall g, m <> g ++ GROUP_SUFFIX.
Proof.
  intros Hm g ->. assert (H : forallb (fun m => negb (ends_with m GROUP_SUFFIX)) (ed_name <$> EVENT_CATALOGUE) = true)
    by (vm_compute; reflexivity).
  rewrite forallb_elem in H. specialize (H _ Hm). apply negb_true_iff in H.
  unfold ends_with in H. rewrite rev_app_distr in H. by destruct (rev g).
Qed.

Lemma group_members_elem g m :
  m ∈ group_members g -> m ∈ (ed_name <$> EVENT_CATALOGUE) /\ first_segment m = g.
Proof.
  unfold group_members. generalize EVENT_CATALOGUE as table. intros table.
  intros (e & -> & [He Hg%str_eqb_eq]%elem_of_filter_bool)%list_elem_of_fmap.
  split; [by apply list_elem_of_fmap_2|done].
Qed.

Lemma starts_with_split s p : starts_with s p = true -> s = p ++ drop (length p) s.
Proof.
  revert s. induction p as [|c p IH]; intros [|d s]; simpl; try done.
  intros [E%N.eqb_eq H]%andb_true_iff. subst d. by rewrite <- (IH s H).
Qed.

Lemma strip_suffix_eq s suffix g : strip_suffix s suffix = Some g -> s = g ++ suffix.
Proof.
  unfold strip_suffix, strip_prefix. destruct (starts_with _ _) eqn:E; [|done]. intros [= <-].
  apply starts_with_split in E. apply (f_equal (@rev char)) in E. rewrite rev_involutive, rev_app_distr in E.
  by rewrite rev_involutive in E.
Qed.

Lemma group_of_eq p g : group_of p = Some g -> p = g ++ GROUP_SUFFIX.
Proof. unfold group_of. destruct (is_group p); [apply strip_suffix_eq|done]. Qed.

(** ** Sets of names *)

Definition str_lt (a b : str) : Prop := str_cmp a b = Lt.

Lemma set_insert_elem x y l : y ∈ set_insert x l <-> y = x \/ y ∈ l.
Proof.
  induction l as [|z l IH]; simpl.
  - rewrite list_elem_of_singleton. set_solver.
  - destruct (str_cmp x z) eqn:E; rewrite ?elem_of_cons; [|done|rewrite IH; tauto].
    apply str_cmp_eq in E as ->. tauto.
Qed.

Lemma set_insert_sorted x l : StronglySorted str_lt l -> StronglySorted str_lt (set_insert x l).
Proof.
  induction 1 as [|y l Hs IH Hall]; simpl; [repeat constructor|].
  rewrite Forall_forall in Hall. destruct (str_cmp x y) eqn:E.
  - constructor; [done|by apply Forall_forall].
  - constructor; [constructor; [done|by apply Forall_forall]|]. apply Forall_forall.
    intros z [->|Hz]%elem_of_cons; [done|]. eapply (cmp_lt_le_trans str_cmp); [exact E|]. by rewrite (Hall z Hz).
  - constructor; [done|]. apply Forall_forall. intros z [->|Hz]%set_insert_elem; [|by apply Hall].
    unfold str_lt. by rewrite (cmp_flip str_cmp x y), E.
Qed.

Lemma set_extend_elem y ns l : y ∈ foldl (fun l n => set_insert n l) l ns <-> y ∈ ns \/ y ∈ l.
Proof.
  revert l. induction ns as [|n ns IH]; intros l; simpl; [rewrite elem_of_nil; tauto|].
  rewrite IH, set_insert_elem, elem_of_cons. tauto.
Qed.

Lemma set_extend_sorted ns l :
  StronglySorted str_lt l -> StronglySorted str_lt (foldl (fun l n => set_insert n l) l ns).
Proof. revert l. induction ns as [|n ns IH]; intros l H; simpl; [done|]. by apply IH, set_insert_sorted. Qed.

(** ** What a selection stores and covers *)

(** An entry a selection stands for: itself, or a member of the group it names. *)
Definition stands_for (raw : str) (name : str) : Prop :=
  name = trim raw \/ exists g, group_of (trim raw) = Some g /\ name ∈ group_members g.

Lemma validate_event_name_ok raw name : validate_event_name raw = Ok name -> name = trim raw.
Proof. intros H. unfold validate_event_name in H. by ok_inv H. Qed.

Lemma reconcile_loop_elem subscriptions names stored name :
  reconcile_loop subscriptions names = Ok stored ->
  name ∈ stored <-> name ∈ names \/ exists raw, raw ∈ subscriptions /\ stands_for raw name.
Proof.
  revert names. induction subscriptions as [|raw rest IH]; intros names; cbn [reconcile_loop].
  { intros [= ->]. split; [by left|]. intros [?|(raw & ?%elem_of_nil & _)]; done. }
  assert (Hex : forall P : str -> Prop, (exists r, r ∈ raw :: rest /\ P r) <-> P raw \/ exists r, r ∈ rest /\ P r).
  { intros P. split; [intros (r & [->|Hr]%elem_of_cons & HP); [by left|right; eauto]|].
    intros [HP|(r & Hr & HP)]; eexists; (split; [|exact HP]); [by left|by right]. }
  rewrite Hex. goal_case; [done|]. destruct (group_of (trim raw)) as [g|] eqn:Eg.
  - rewrite result_bind_ok. intros (_ & _ & H). rewrite (IH _ H), set_extend_elem, set_insert_elem.
    assert (Hs : stands_for raw name <-> name = trim raw \/ name ∈ group_members g).
    { unfold stands_for. rewrite Eg. split; [intros [?|(g' & [= <-] & ?)]|intros [?|?]]; eauto. }
    rewrite Hs. tauto.
  - rewrite result_bind_ok. intros (n & Hn & H). rewrite (IH _ H), set_insert_elem.
    apply validate_event_name_ok in Hn as ->. rewrite trim_trim.
    assert (Hs : stands_for raw name <-> name = trim raw).
    { unfold stands_for. rewrite Eg. split; [intros [?|(g' & [=] & ?)]|intros ?]; eauto. }
    rewrite Hs. tauto.
Qed.

Lemma reconcile_loop_sorted subscriptions names stored :
  StronglySorted str_lt names -> reconcile_loop subscriptions names = Ok stored -> StronglySorted str_lt stored.
Proof.
  revert names. induction subscriptions as [|raw rest IH]; intros names Hs; cbn [reconcile_loop]; [by intros [= <-]|].
  goal_case; [done|]. destruct (group_of (trim raw)) as [g|].
  - rewrite result_bind_ok. intros (_ & _ & H). eapply IH; [|exact H]. by apply set_extend_sorted, set_insert_sorted.
  - rewrite result_bind_ok. intros (n & _ & H). eapply IH; [|exact H]. by apply set_insert_sorted.
Qed.

Lemma subscribed_to_elem l e :
  subscribed_to l e = true <-> e ∈ l \/ (first_segment e ++ GROUP_SUFFIX) ∈ l.
Proof.
  unfold subscribed_to. rewrite orb_true_iff, !existsb_elem. split.
  - intros [(x & Hx & <-%str_eqb_eq)|(x & Hx & <-%str_eqb_eq)]; auto.
  - intros [H|H]; [left|right]; eexists; (split; [exact H|apply str_eqb_refl]).
Qed.

(** Storing a subscription with its groups expanded changes its reading, not its meaning: the
    stored list is sorted without repetition, every selection is in it, and an endpoint hears an
    event exactly when one of the selections the operator typed is the event's name or its
    group's wildcard, whatever the catalogue holds. *)
Theorem reconcile_keeps_coverage (typed stored : list str) :
  reconcile typed = Ok stored ->
  StronglySorted str_lt stored
  /\ (forall raw, raw ∈ typed -> trim raw ∈ stored)
  /\ forall event, subscribed_to stored event = subscribed_to (trim <$> typed) event.
Proof.
  unfold reconcile. goal_case; [done|]. goal_case; [done|]. intros H. split_and!.
  - eapply reconcile_loop_sorted; [constructor|exact H].
  - intros raw Hr. apply (reconcile_loop_elem _ _ _ _ H). right. exists raw. split; [done|by left].
  - intros event. apply eq_true_iff_eq. rewrite !subscribed_to_elem.
    rewrite !(reconcile_loop_elem _ _ _ _ H), !list_elem_of_fmap.
    split.
    + intros [[[]%elem_of_nil|(raw & Hr & [->|(g & Hg & Hm)])]|[[]%elem_of_nil|(raw & Hr & [Hw|(g & _ & Hm)])]].
      * eauto.
      * right. exists raw. split; [|done]. apply group_members_elem in Hm as [_ ->]. by apply group_of_eq in Hg.
      * eauto.
      * apply group_members_elem in Hm as [Hm _]. by destruct (no_wildcard_in_catalogue _ Hm (first_segment event)).
    + intros [(raw & -> & Hr)|(raw & Hw & Hr)].
      * left. right. exists raw. split; [done|by left].
      * right. right. exists raw. split; [done|by left].
Qed.

Lemma reconcile_keeps_coverage_witness :
  match reconcile [s!" site.* "; s!"page.published"] with
  | Ok stored => subscribed_to stored s!"site.archived" = true /\ subscribed_to stored s!"page.created" = false
  | Err _ => False
  end.
Proof.
  destruct (reconcile [s!" site.* "; s!"page.published"]) as [stored|] eqn:E; [|by vm_compute in E].
  destruct (reconcile_keeps_coverage _ _ E) as (_ & _ & Hc). split; rewrite Hc; vm_compute; reflexivity.
Defined.
