(* ===== verification/Deliveries.v ===== *)
(** * The webhook delivery queue: [crates/events/src/store.rs], [bus.rs], [engine.rs], [sender.rs]

    Endpoints, the deliveries queued for them, and the runner that claims, sends, retries and
    gives up. Ids are numbers, instants and durations milliseconds; a statement the database
    refuses is [EventsStore]. *)

From S2P Require Import Prelude Json Events.

Inductive delivery_status := Pending | Delivered | Failed.
#[export] Instance delivery_status_eq_dec : EqDecision delivery_status.
Proof. solve_decision. Defined.
Definition delivery_status_as_str (st : delivery_status) : str :=
  match st with Pending => s!"pending" | Delivered => s!"delivered" | Failed => s!"failed" end.
Definition delivery_status_parse (raw : str) : option delivery_status :=
  if str_eqb raw s!"pending" then Some Pending
  else if str_eqb raw s!"delivered" then Some Delivered
  else if str_eqb raw s!"failed" then Some Failed else None.

Definition DEFAULT_MAX_ATTEMPTS : Z := 5.
Definition DEFAULT_EVENT_RETENTION_DAYS : Z := 30.
Definition MAX_REDELIVERIES : Z := 10.
Definition MAX_ERROR_CHARS : nat := 500.
Definition day_ms : Z := 86400000.

Record webhook_endpoint := WebhookEndpoint {
  ep_id : Z;
  ep_organization_id : Z;
  ep_name : str;
  ep_url : str;
  ep_secret : str;
  ep_events : list str;
  ep_enabled : bool;
  ep_created_by : option Z;
  ep_created_at : Z;
  ep_updated_at : Z
}.

Record delivery := Delivery {
  dl_id : Z;
  dl_endpoint_id : Z;
  dl_event_id : Z;
  dl_status : delivery_status;
  dl_attempts : Z;
  dl_max_attempts : Z;
  dl_next_attempt_at : Z;
  dl_claimed_at : option Z;
  dl_response_status : option Z;
  dl_error : option str;
  dl_delivered_at : option Z;
  dl_created_at : Z;
  dl_trigger : str;
  dl_duration_ms : option Z;
  dl_redeliver_count : Z;
  dl_replayed_at : option Z
}.

Record retention_run := RetentionRun {
  rr_organization_id : option Z;
  rr_window_days : Z;
  rr_cutoff : Z;
  rr_events_deleted : Z;
  rr_deliveries_deleted : Z;
  rr_finished_at : option Z
}.

(** [retry_delay]: [checked_shl] answers [None] from a shift of 64, [saturating_mul] stops at
    the largest i64. *)
Definition retry_delay (attempt base max : Z) : Z :=
  let shift := Z.max 1 (Z.min 16 attempt) - 1 in
  let factor := if shift <? 64 then Z.shiftl 1 shift else i64_max in
  let base_ms := Z.max base 1 in
  let cap_ms := Z.max max base_ms in
  Z.min (Z.min i64_max (base_ms * factor)) cap_ms.

(** [char::is_control] and [sender::trim]. *)
Definition is_control (c : char) : bool := (c <? 32)%N || in_range 127 159 c.
Definition sender_trim (text : str) (max : nat) : str :=
  let collapsed := (fun c => if is_control c then 32%N else c) <$> text in
  let trimmed := trim collapsed in
  if (length trimmed <=? max)%nat then trimmed else take max trimmed ++ [8230%N].

Inductive delivery_outcome :=
| Accepted (status : Z)
| Refused (status : option Z) (message : str).

Section Queue.
Context `{J : JsonNumber}.

(** The tables. An organization's window is absent until it has been set. *)
Record queue := Queue {
  q_endpoints : list webhook_endpoint;
  q_events : list event_row;
  q_next_event : Z;
  q_deliveries : list delivery;
  q_windows : list (Z * Z);
  q_runs : list retention_run
}.

Definition with_deliveries (q : queue) l :=
  Queue (q_endpoints q) (q_events q) (q_next_event q) l (q_windows q) (q_runs q).
Definition with_endpoints (q : queue) l :=
  Queue l (q_events q) (q_next_event q) (q_deliveries q) (q_windows q) (q_runs q).

Definition find_endpoint (id : Z) (q : queue) : option webhook_endpoint :=
  List.find (fun w => ep_id w =? id) (q_endpoints q).
Definition find_delivery (id : Z) (q : queue) : option delivery :=
  List.find (fun d => dl_id d =? id) (q_deliveries q).

(** ** Endpoints *)

(** The table's checks on what the code leaves to it: the list's size, and a name of its own. *)
Definition MIN_ENTRIES : nat := 1.
Definition MAX_ENTRIES : nat := 32.
Definition schema_endpoint (w : webhook_endpoint) : bool :=
  (MIN_ENTRIES <=? length (ep_events w))%nat && (length (ep_events w) <=? MAX_ENTRIES)%nat.

Definition name_taken (w : webhook_endpoint) (q : queue) : bool :=
  existsb (fun o => (ep_organization_id o =? ep_organization_id w)
    && str_eqb (to_ascii_lowercase (ep_name o)) (to_ascii_lowercase (ep_name w))
    && negb (ep_id o =? ep_id w)) (q_endpoints q).

Record new_endpoint := NewEndpoint {
  nw_organization_id : Z; nw_name : str; nw_url : str; nw_secret : str; nw_events : list str;
  nw_created_by : option Z
}.

Definition insert_endpoint (now id : Z) (new : new_endpoint) (q : queue) :
  result (webhook_endpoint * queue) events_error :=
  let w := WebhookEndpoint id (nw_organization_id new) (nw_name new) (nw_url new) (nw_secret new)
    (nw_events new) true (nw_created_by new) now now in
  require schema_endpoint w else EventsStore in
  refuse existsb (fun o => ep_id o =? id) (q_endpoints q) with EventsStore in
  refuse name_taken w q with EndpointNameTaken in
  Ok (w, with_endpoints q (q_endpoints q ++ [w])).

Record endpoint_changes := EndpointChanges {
  ec_name : option str; ec_url : option str; ec_events : option (list str); ec_enabled : option bool;
  ec_secret : option str
}.
Definition endpoint_changes_is_empty (c : endpoint_changes) : bool :=
  negb (is_given (ec_name c)) && negb (is_given (ec_url c)) && negb (is_given (ec_events c))
  && negb (is_given (ec_enabled c)) && negb (is_given (ec_secret c)).

Definition changed_endpoint (now : Z) (c : endpoint_changes) (w : webhook_endpoint) : webhook_endpoint :=
  WebhookEndpoint (ep_id w) (ep_organization_id w) (default (ep_name w) (ec_name c))
    (default (ep_url w) (ec_url c)) (default (ep_secret w) (ec_secret c))
    (default (ep_events w) (ec_events c)) (default (ep_enabled w) (ec_enabled c))
    (ep_created_by w) (ep_created_at w) now.

Definition update_endpoint (now id : Z) (c : endpoint_changes) (q : queue) :
  result (option webhook_endpoint * queue) events_error :=
  match find_endpoint id q with
  | None => Ok (None, q)
  | Some w =>
      let w' := changed_endpoint now c w in
      require schema_endpoint w' else EventsStore in
      refuse name_taken w' q with if is_given (ec_name c) then EndpointNameTaken else EventsStore in
      Ok (Some w', with_endpoints q ((fun o => if ep_id o =? id then w' else o) <$> q_endpoints q))
  end.

(** Its deliveries go with it ([on delete cascade]). *)
Definition delete_endpoint (id : Z) (q : queue) : bool * queue :=
  (existsb (fun w => ep_id w =? id) (q_endpoints q),
   with_deliveries (with_endpoints q (List.filter (fun w => negb (ep_id w =? id)) (q_endpoints q)))
     (List.filter (fun d => negb (dl_endpoint_id d =? id)) (q_deliveries q))).

(** ** Recording an event and queueing its deliveries *)

Definition record_event (now : Z) (new : new_event) (q : queue) : event_row * queue :=
  let e := EventRow (q_next_event q) (ne_name new) (ne_organization_id new) (ne_site_id new)
    (ne_actor_user_id new) (ne_payload new) now in
  (e, Queue (q_endpoints q) (q_events q ++ [e]) (q_next_event q + 1) (q_deliveries q) (q_windows q) (q_runs q)).

Definition queued (now id endpoint event : Z) (trigger : str) : delivery :=
  Delivery id endpoint event Pending 0 DEFAULT_MAX_ATTEMPTS now None None None None now trigger None 0 None.

Definition same_pair (endpoint event : Z) (d : delivery) : bool :=
  (dl_endpoint_id d =? endpoint) && (dl_event_id d =? event).

(** [insert ... on conflict (endpoint_id, event_id) do nothing], with the number of rows
    inserted. [ids] are the ids the database generates. *)
Fixpoint insert_deliveries (now : Z) (ids : nat -> Z) (event : Z) (trigger : str) (targets : list webhook_endpoint)
  (inserted : nat) (rows : list delivery) : result (nat * list delivery) events_error :=
  match targets with
  | [] => Ok (inserted, rows)
  | w :: rest =>
      if existsb (same_pair (ep_id w) event) rows
      then insert_deliveries now ids event trigger rest inserted rows
      else
        refuse existsb (fun d => dl_id d =? ids inserted) rows with EventsStore in
        insert_deliveries now ids event trigger rest (S inserted)
          (rows ++ [queued now (ids inserted) (ep_id w) event trigger])
  end.

Definition fanout_target (organization : Z) (name : str) (w : webhook_endpoint) : bool :=
  let wildcard := first_segment name ++ s!".*" in
  ep_enabled w && (ep_organization_id w =? organization)
  && (existsb (fun entry => str_eqb entry name) (ep_events w)
      || existsb (fun entry => str_eqb entry wildcard) (ep_events w)).

Definition enqueue_fanout (now : Z) (ids : nat -> Z) (e : event_row) (q : queue) :
  result (nat * queue) events_error :=
  match ev_organization_id e with
  | None => Ok (0%nat, q)
  | Some organization =>
      let? (n, rows) := insert_deliveries now ids (ev_id e) s!"event"
        (List.filter (fanout_target organization (ev_name e)) (q_endpoints q)) 0 (q_deliveries q) in
      Ok (n, with_deliveries q rows)
  end.

Definition enqueue_for_endpoints (now : Z) (ids : nat -> Z) (e : event_row) (endpoint_ids : list Z) (q : queue) :
  result (nat * queue) events_error :=
  match endpoint_ids with
  | [] => Ok (0%nat, q)
  | _ =>
      let? (n, rows) := insert_deliveries now ids (ev_id e) s!"test"
        (List.filter (fun w => existsb (Z.eqb (ep_id w)) endpoint_ids) (q_endpoints q)) 0 (q_deliveries q) in
      Ok (n, with_deliveries q rows)
  end.

Record emit_report := EmitReport { er_event : event_row; er_deliveries : nat }.

(** One transaction: an error leaves the queue as it was. *)
Definition emit (now : Z) (ids : nat -> Z) (new : new_event) (q : queue) : result (emit_report * queue) events_error :=
  let? new := prepare new in
  let '(e, q1) := record_event now new q in
  let? (n, q2) := enqueue_fanout now ids e q1 in
  Ok (EmitReport e n, q2).

Definition emit_to (now : Z) (ids : nat -> Z) (new : new_event) (endpoint_ids : list Z) (q : queue) :
  result (emit_report * queue) events_error :=
  let? new := prepare new in
  let '(e, q1) := record_event now new q in
  let? (n, q2) := enqueue_for_endpoints now ids e endpoint_ids q1 in
  Ok (EmitReport e n, q2).

(** ** Claiming *)

(** One claimed delivery, with the endpoint and the event its sending needs. *)
Record delivery_job := DeliveryJob {
  j_delivery_id : Z;
  j_endpoint_id : Z;
  j_endpoint_name : str;
  j_endpoint_url : str;
  j_endpoint_secret : str;
  j_event_id : Z;
  j_event_name : str;
  j_event_payload : value;
  j_organization_id : option Z;
  j_site_id : option Z;
  j_actor_user_id : option Z;
  j_event_created_at : Z;
  j_attempts : Z;
  j_max_attempts : Z
}.

Definition lease_over (now lease : Z) (d : delivery) : bool :=
  match dl_claimed_at d with None => true | Some at_ => at_ <=? now - lease end.

Definition is_pending (d : delivery) : bool := bool_decide (dl_status d = Pending).

Definition endpoint_enabled (q : queue) (d : delivery) : bool :=
  match find_endpoint (dl_endpoint_id d) q with Some w => ep_enabled w | None => false end.
Definition endpoint_disabled (q : queue) (d : delivery) : bool :=
  match find_endpoint (dl_endpoint_id d) q with Some w => negb (ep_enabled w) | None => false end.

Definition is_due (now lease : Z) (q : queue) (d : delivery) : bool :=
  is_pending d && endpoint_enabled q d && (dl_next_attempt_at d <=? now) && lease_over now lease d.

(** [order by d.next_attempt_at asc, d.created_at asc] *)
Definition due_order (a b : delivery) : comparison :=
  then_with (Z.compare (dl_next_attempt_at a) (dl_next_attempt_at b))
    (Z.compare (dl_created_at a) (dl_created_at b)).

(** The rows a claim takes. [locked] are the rows another claim holds ([skip locked]). *)
Definition due_deliveries (now batch lease : Z) (locked : Z -> bool) (q : queue) : list delivery :=
  take (Z.to_nat batch) (sort_by due_order
    (List.filter (fun d => is_due now lease q d && negb (locked (dl_id d))) (q_deliveries q))).

Definition claim_row (now : Z) (d : delivery) : delivery :=
  Delivery (dl_id d) (dl_endpoint_id d) (dl_event_id d) (dl_status d) (dl_attempts d + 1) (dl_max_attempts d)
    (dl_next_attempt_at d) (Some now) (dl_response_status d) (dl_error d) (dl_delivered_at d) (dl_created_at d)
    (dl_trigger d) (dl_duration_ms d) (dl_redeliver_count d) (dl_replayed_at d).

Definition in_ids (ids : list Z) (d : delivery) : bool := existsb (Z.eqb (dl_id d)) ids.
Definition update_deliveries (p : delivery -> bool) (f : delivery -> delivery) (q : queue) : queue :=
  with_deliveries q (update_where p f (q_deliveries q)).

Definition job_of (q : queue) (d : delivery) : option delivery_job :=
  match find_endpoint (dl_endpoint_id d) q, List.find (fun e => ev_id e =? dl_event_id d) (q_events q) with
  | Some w, Some e =>
      Some (DeliveryJob (dl_id d) (ep_id w) (ep_name w) (ep_url w) (ep_secret w) (ev_id e) (ev_name e)
        (ev_payload e) (ev_organization_id e) (ev_site_id e) (ev_actor_user_id e) (ev_created_at e)
        (dl_attempts d) (dl_max_attempts d))
  | _, _ => None
  end.

(** The second statement of a claim: the claimed rows joined with what their sending needs. *)
Definition read_jobs (ids : list Z) (q : queue) : list delivery_job :=
  omap (job_of q) (sort_by due_order (List.filter (in_ids ids) (q_deliveries q))).

Definition claim_due (now batch lease : Z) (locked : Z -> bool) (q : queue) :
  result (list delivery_job * queue) events_error :=
  let claimed := dl_id <$> due_deliveries now batch lease locked q in
  match claimed with
  | [] => Ok ([], q)
  | _ =>
      require forallb (fun d => negb (in_ids claimed d) || (dl_attempts d <? i32_max)) (q_deliveries q)
        else EventsStore in
      let q' := update_deliveries (in_ids claimed) (claim_row now) q in
      Ok (read_jobs claimed q', q')
  end.

(** ** Settling *)

Definition settled (d : delivery) (st : delivery_status) (next_attempt_at : Z) (response : option Z)
  (error : option str) (delivered_at duration : option Z) : delivery :=
  Delivery (dl_id d) (dl_endpoint_id d) (dl_event_id d) st (dl_attempts d) (dl_max_attempts d)
    next_attempt_at None response error delivered_at (dl_created_at d) (dl_trigger d) duration
    (dl_redeliver_count d) (dl_replayed_at d).

Definition switched_off : str := s!"the endpoint was switched off before the delivery went out".

Definition cancel_pending_for_disabled (now lease : Z) (q : queue) : nat * queue :=
  let p d := endpoint_disabled q d && is_pending d && lease_over now lease d in
  (length (List.filter p (q_deliveries q)),
   update_deliveries p (fun d => settled d Failed (dl_next_attempt_at d) (dl_response_status d)
     (Some switched_off) (dl_delivered_at d) (dl_duration_ms d)) q).

(** [coalesce($3, duration_ms)] *)
Definition coalesce (a b : option Z) : option Z := match a with Some x => Some x | None => b end.

Definition has_delivery_id (id : Z) (d : delivery) : bool := dl_id d =? id.

Definition mark_delivered (now id : Z) (response duration : option Z) (q : queue) : queue :=
  update_deliveries (has_delivery_id id) (fun d => settled d Delivered (dl_next_attempt_at d) response None
    (Some now) (coalesce duration (dl_duration_ms d))) q.

Definition mark_retry (id : Z) (response : option Z) (error : str) (next_attempt_at : Z) (duration : option Z)
  (q : queue) : queue :=
  update_deliveries (has_delivery_id id) (fun d => settled d (dl_status d) next_attempt_at response (Some error)
    (dl_delivered_at d) (coalesce duration (dl_duration_ms d))) q.

Definition mark_failed (id : Z) (response : option Z) (error : str) (duration : option Z) (q : queue) : queue :=
  update_deliveries (has_delivery_id id) (fun d => settled d Failed (dl_next_attempt_at d) response (Some error)
    (dl_delivered_at d) (coalesce duration (dl_duration_ms d))) q.

(** ** The runner *)

Record runner_config := RunnerConfig {
  rc_batch : Z;
  rc_lease : Z;
  rc_request_timeout : Z;
  rc_retry_base : Z;
  rc_retry_max : Z
}.
Definition default_config : runner_config := RunnerConfig 20 120000 10000 15000 900000.

Record run_report := RunReport {
  rp_cancelled : nat; rp_claimed : nat; rp_delivered : nat; rp_retried : nat; rp_failed : nat
}.
Definition run_report_is_idle (r : run_report) : bool := (rp_cancelled r =? 0)%nat && (rp_claimed r =? 0)%nat.

Definition elapsed_millis (elapsed : Z) : option Z :=
  let millis := Z.min elapsed i32_max in if millis <=? i32_max then Some millis else None.

(** The event that says out loud that a delivery was given up. *)
Definition given_up (uuid_text : Z -> str) (job : delivery_job) (status : option Z) (message : str) : new_event :=
  NewEvent s!"webhook.delivery.failed" (j_organization_id job) (j_site_id job) (j_actor_user_id job)
    (VObject [(s!"attempts", VNumber (number_of_Z (j_attempts job)));
              (s!"delivery_id", VString (uuid_text (j_delivery_id job)));
              (s!"endpoint_id", VString (uuid_text (j_endpoint_id job)));
              (s!"endpoint_name", VString (j_endpoint_name job));
              (s!"event_name", VString (j_event_name job));
              (s!"reason", VString message);
              (s!"status", match status with Some s => VNumber (number_of_Z s) | None => VNull end)]).

(** What the outside world contributes to one sending: the receiver's answer, how long it took,
    when the answer is written, and the ids of rows it makes the platform insert. *)
Record sending := Sending {
  sn_outcome : delivery_outcome;
  sn_elapsed : Z;
  sn_now : Z;
  sn_ids : nat -> Z
}.

Definition deliver_one (uuid_text : Z -> str) (cfg : runner_config) (job : delivery_job) (s : sending)
  (r : run_report) (q : queue) : run_report * queue :=
  let duration := elapsed_millis (sn_elapsed s) in
  let id := j_delivery_id job in
  match sn_outcome s with
  | Accepted status =>
      (RunReport (rp_cancelled r) (rp_claimed r) (S (rp_delivered r)) (rp_retried r) (rp_failed r),
       mark_delivered (sn_now s) id (Some status) duration q)
  | Refused status message =>
      let message := sender_trim message MAX_ERROR_CHARS in
      if j_attempts job <? j_max_attempts job then
        let delay := retry_delay (j_attempts job) (rc_retry_base cfg) (rc_retry_max cfg) in
        (RunReport (rp_cancelled r) (rp_claimed r) (rp_delivered r) (S (rp_retried r)) (rp_failed r),
         mark_retry id status message (sn_now s + delay) duration q)
      else
        let q1 := mark_failed id status message duration q in
        let q2 := match emit (sn_now s) (sn_ids s) (given_up uuid_text job status message) q1 with
                  | Ok (_, q2) => q2
                  | Err _ => q1
                  end in
        (RunReport (rp_cancelled r) (rp_claimed r) (rp_delivered r) (rp_retried r) (S (rp_failed r)), q2)
  end.

(** The jobs of one tick, one after the other. [world k] is the k-th sending. *)
Fixpoint deliver_all (uuid_text : Z -> str) (cfg : runner_config) (world : nat -> sending) (k : nat)
  (jobs : list delivery_job) (r : run_report) (q : queue) : run_report * queue :=
  match jobs with
  | [] => (r, q)
  | job :: rest =>
      let '(r, q) := deliver_one uuid_text cfg job (world k) r q in
      deliver_all uuid_text cfg world (S k) rest r q
  end.

Definition run_due (uuid_text : Z -> str) (cfg : runner_config) (now : Z) (locked : Z -> bool)
  (world : nat -> sending) (q : queue) : result (run_report * queue) events_error :=
  let '(cancelled, q1) := cancel_pending_for_disabled now (rc_lease cfg) q in
  let? (jobs, q2) := claim_due now (rc_batch cfg) (rc_lease cfg) locked q1 in
  Ok (deliver_all uuid_text cfg world 0 jobs (RunReport cancelled (length jobs) 0 0 0) q2).

(** ** Forcing a delivery again *)

Inductive redeliver_refusal := Unknown | AlreadyPending | OverCap.
Definition redeliver_refusal_code (r : redeliver_refusal) : str :=
  match r with
  | Unknown => s!"delivery_not_found"
  | AlreadyPending => s!"delivery_already_pending"
  | OverCap => s!"redeliver_limit_reached"
  end.

Definition replayed (now : Z) (d : delivery) : delivery :=
  Delivery (dl_id d) (dl_endpoint_id d) (dl_event_id d) Pending 0 (dl_max_attempts d) now None None None None
    (dl_created_at d) s!"replay" None (dl_redeliver_count d + 1) (Some now).

Definition redeliverable (endpoint id : Z) (d : delivery) : bool :=
  (dl_id d =? id) && (dl_endpoint_id d =? endpoint) && negb (is_pending d)
  && (dl_redeliver_count d <? MAX_REDELIVERIES).

Definition redeliver (now endpoint id : Z) (q : queue) : result (Z * queue) events_error :=
  match List.find (redeliverable endpoint id) (q_deliveries q) with
  | Some d => Ok (dl_redeliver_count d + 1, update_deliveries (redeliverable endpoint id) (replayed now) q)
  | None =>
      let refusal :=
        match List.find (fun d => (dl_id d =? id) && (dl_endpoint_id d =? endpoint)) (q_deliveries q) with
        | None => Unknown
        | Some d => if is_pending d then AlreadyPending else OverCap
        end in
      Err (RedeliveryRefused (redeliver_refusal_code refusal))
  end.

Fixpoint redeliver_many (now endpoint : Z) (ids : list Z) (q : queue) :
  list (Z * result Z events_error) * queue :=
  match ids with
  | [] => ([], q)
  | id :: rest =>
      match redeliver now endpoint id q with
      | Ok (count, q1) =>
          let '(outcomes, q2) := redeliver_many now endpoint rest q1 in ((id, Ok count) :: outcomes, q2)
      | Err e => let '(outcomes, q2) := redeliver_many now endpoint rest q in ((id, Err e) :: outcomes, q2)
      end
  end.

(** ** Retention *)

Definition retention_window (organization : option Z) (q : queue) : Z :=
  default DEFAULT_EVENT_RETENTION_DAYS
    (organization ≫= fun o => snd <$> List.find (fun w => w.1 =? o) (q_windows q)).

(** [exists_] is the [where id = $1] of the update; the column refuses a window out of range. *)
Definition set_retention_window (organization days : Z) (exists_ : bool) (q : queue) :
  result (Z * queue) events_error :=
  require exists_ else OrganizationNotFound in
  require is_ok (validate_retention_window days) else EventsStore in
  Ok (days, Queue (q_endpoints q) (q_events q) (q_next_event q) (q_deliveries q)
    ((organization, days) :: List.filter (fun w => negb (w.1 =? organization)) (q_windows q)) (q_runs q)).

Definition has_pending (q : queue) (e : event_row) : bool :=
  existsb (fun d => (dl_event_id d =? ev_id e) && is_pending d) (q_deliveries q).

Definition sweepable (organization : option Z) (cutoff : Z) (q : queue) (e : event_row) : bool :=
  bool_decide (ev_organization_id e = organization) && (ev_created_at e <? cutoff) && negb (has_pending q e).

(** [retention_counts]: a null organization asks about every event. *)
Definition retention_counts (now : Z) (organization : option Z) (q : queue) : nat * nat :=
  let mine := List.filter (fun e => match organization with
    | None => true | Some _ => bool_decide (ev_organization_id e = organization) end) (q_events q) in
  (length mine,
   length (List.filter (fun e => (ev_created_at e <? now - day_ms * retention_window organization q)
     && negb (has_pending q e)) mine)).

Record sweep_report := SweepReport {
  sr_organization_id : option Z; sr_window_days : Z; sr_cutoff : Z; sr_events_deleted : nat;
  sr_deliveries_deleted : nat; sr_finished_at : Z
}.

Definition sweep_events (now : Z) (organization : option Z) (window_days : Z) (q : queue) :
  sweep_report * queue :=
  let cutoff := now - day_ms * window_days in
  let due := List.filter (sweepable organization cutoff q) (q_events q) in
  let gone d := existsb (fun e => dl_event_id d =? ev_id e) due in
  let deliveries_deleted := length (List.filter gone (q_deliveries q)) in
  let q1 := with_deliveries q (List.filter (fun d => negb (gone d)) (q_deliveries q)) in
  let due1 e := sweepable organization cutoff q1 e in
  let events_deleted := length (List.filter due1 (q_events q1)) in
  let run := RetentionRun organization window_days cutoff (Z.min (Z.of_nat events_deleted) i32_max)
    (Z.min (Z.of_nat deliveries_deleted) i32_max) (Some now) in
  (SweepReport organization window_days cutoff events_deleted deliveries_deleted now,
   Queue (q_endpoints q1) (List.filter (fun e => negb (due1 e)) (q_events q1)) (q_next_event q1)
     (List.filter (fun d => negb (existsb (fun e => (dl_event_id d =? ev_id e) && due1 e) (q_events q1)))
        (q_deliveries q1))
     (q_windows q1) (q_runs q1 ++ [run])).

(** ** Everything that can happen to the queue, one step at a time *)

Inductive queue_step :=
| InsertEndpoint (now id : Z) (new : new_endpoint)
| UpdateEndpoint (now id : Z) (c : endpoint_changes)
| DeleteEndpoint (id : Z)
| Emit (now : Z) (ids : nat -> Z) (new : new_event)
| EmitTo (now : Z) (ids : nat -> Z) (new : new_event) (endpoint_ids : list Z)
| CancelDisabled (now lease : Z)
| Claim (now batch lease : Z) (locked : Z -> bool)
| Send (uuid_text : Z -> str) (cfg : runner_config) (job : delivery_job) (s : sending)
| Redeliver (now endpoint id : Z)
| SetWindow (organization days : Z) (exists_ : bool)
| Sweep (now : Z) (organization : option Z) (window_days : Z).

Definition no_report : run_report := RunReport 0 0 0 0 0.
Definition keep {A} (r : result (A * queue) events_error) (q : queue) : queue :=
  match r with Ok (_, q') => q' | Err _ => q end.

(** A refused step changes nothing. Sendings name any job: a runner may hold one for as long as
    it likes. *)
Definition apply_step (s : queue_step) (q : queue) : queue :=
  match s with
  | InsertEndpoint now id new => keep (insert_endpoint now id new q) q
  | UpdateEndpoint now id c => keep (update_endpoint now id c q) q
  | DeleteEndpoint id => (delete_endpoint id q).2
  | Emit now ids new => keep (emit now ids new q) q
  | EmitTo now ids new targets => keep (emit_to now ids new targets q) q
  | CancelDisabled now lease => (cancel_pending_for_disabled now lease q).2
  | Claim now batch lease locked => keep (claim_due now batch lease locked q) q
  | Send uuid_text cfg job s => (deliver_one uuid_text cfg job s no_report q).2
  | Redeliver now endpoint id => keep (redeliver now endpoint id q) q
  | SetWindow organization days exists_ => keep (set_retention_window organization days exists_ q) q
  | Sweep now organization days => (sweep_events now organization days q).2
  end.
Definition run_steps (l : list queue_step) (q : queue) : queue := foldl (fun q s => apply_step s q) q l.

Definition empty_queue : queue := Queue [] [] 1 [] [] [].

(** ** The invariant of the tables *)

Definition pair_of (d : delivery) : Z * Z := (dl_endpoint_id d, dl_event_id d).

Record row_ok (d : delivery) : Prop := {
  ro_attempts : 0 <= dl_attempts d;
  ro_max : 1 <= dl_max_attempts d <= 10;
  ro_redelivered : 0 <= dl_redeliver_count d <= MAX_REDELIVERIES
}.

Record queue_ok (q : queue) : Prop := {
  qo_endpoints : NoDup (ep_id <$> q_endpoints q);
  qo_events : NoDup (ev_id <$> q_events q);
  qo_next e : e ∈ q_events q -> ev_id e < q_next_event q;
  qo_ids : NoDup (dl_id <$> q_deliveries q);
  qo_pairs : NoDup (pair_of <$> q_deliveries q);
  qo_endpoint d : d ∈ q_deliveries q -> dl_endpoint_id d ∈ (ep_id <$> q_endpoints q);
  qo_event d : d ∈ q_deliveries q -> dl_event_id d ∈ (ev_id <$> q_events q);
  qo_rows d : d ∈ q_deliveries q -> row_ok d;
  qo_shape w : w ∈ q_endpoints q -> schema_endpoint w = true
}.

Definition same_identity (d d' : delivery) : Prop := dl_id d' = dl_id d /\ pair_of d' = pair_of d.

Lemma update_deliveries_ok p f q :
  (forall d, same_identity d (f d)) -> (forall d, p d = true -> row_ok d -> row_ok (f d)) ->
  queue_ok q -> queue_ok (update_deliveries p f q).
Proof.
  intros Hid Hrow [H1 H2 H3 H4 H5 H6 H7 H8 H9].
  assert (Hin : forall d, d ∈ q_deliveries (update_deliveries p f q) ->
    exists d0, d0 ∈ q_deliveries q /\ pair_of d = pair_of d0 /\ row_ok d).
  { intros d (d0 & -> & Hd0)%list_elem_of_fmap. exists d0. destruct (p d0) eqn:E; [|by auto].
    split_and!; [done|apply Hid|by auto]. }
  constructor; simpl; try done.
  - by rewrite (update_where_fmap dl_id) by (intros d; apply Hid).
  - by rewrite (update_where_fmap pair_of) by (intros d; apply Hid).
  - intros d (d0 & Hd0 & [= E _] & _)%Hin. rewrite E. by apply H6.
  - intros d (d0 & Hd0 & [= _ E] & _)%Hin. rewrite E. by apply H7.
  - intros d (d0 & _ & _ & Hr)%Hin. done.
Qed.

Lemma settled_ok d st next response error delivered duration :
  same_identity d (settled d st next response error delivered duration)
  /\ (row_ok d -> row_ok (settled d st next response error delivered duration)).
Proof. split; [done|]. by intros []. Qed.

Lemma mark_ok q p (st : delivery -> delivery_status) (next : delivery -> Z)
  (response delivered duration : delivery -> option Z) (error : delivery -> option str) :
  queue_ok q -> queue_ok (update_deliveries p (fun d =>
    settled d (st d) (next d) (response d) (error d) (delivered d) (duration d)) q).
Proof. apply update_deliveries_ok; intros d; [|intros _]; apply settled_ok. Qed.

(** A part of the rows, the endpoints and the events that keeps what is referenced. *)
Lemma shrink_ok q endpoints events deliveries windows runs :
  queue_ok q -> sublist endpoints (q_endpoints q) -> sublist events (q_events q) ->
  sublist deliveries (q_deliveries q) ->
  (forall d, d ∈ deliveries -> dl_endpoint_id d ∈ (ep_id <$> endpoints) /\ dl_event_id d ∈ (ev_id <$> events)) ->
  queue_ok (Queue endpoints events (q_next_event q) deliveries windows runs).
Proof.
  intros [H1 H2 H3 H4 H5 H6 H7 H8 H9] Se Sv Sd Href. constructor; simpl.
  - eapply sublist_NoDup; [exact H1|]. by apply fmap_sublist.
  - eapply sublist_NoDup; [exact H2|]. by apply fmap_sublist.
  - intros e He. apply H3. by apply (sublist_subseteq _ _ Sv).
  - eapply sublist_NoDup; [exact H4|]. by apply fmap_sublist.
  - eapply sublist_NoDup; [exact H5|]. by apply fmap_sublist.
  - intros d Hd. by apply Href.
  - intros d Hd. by apply Href.
  - intros d Hd. apply H8. by apply (sublist_subseteq _ _ Sd).
  - intros w Hw. apply H9. by apply (sublist_subseteq _ _ Se).
Qed.

(** ** Inserting *)

Lemma insert_deliveries_spec now ids event trigger targets n rows n' rows' :
  insert_deliveries now ids event trigger targets n rows = Ok (n', rows') ->
  NoDup (dl_id <$> rows) -> NoDup (pair_of <$> rows) ->
  exists added, rows' = rows ++ added /\ n' = (n + length added)%nat
    /\ NoDup (dl_id <$> rows') /\ NoDup (pair_of <$> rows')
    /\ (forall d, d ∈ added -> exists w k, w ∈ targets /\ d = queued now (ids k) (ep_id w) event trigger)
    /\ (forall w, w ∈ targets -> exists d, d ∈ rows' /\ pair_of d = (ep_id w, event)).
Proof.
  revert n rows. induction targets as [|w rest IH]; intros n rows; cbn [insert_deliveries].
  { intros [= <- <-] H1 H2. exists []. rewrite app_nil_r. split_and!; [done|cbn; lia|done|done|..].
    - by intros d ?%elem_of_nil.
    - by intros w ?%elem_of_nil. }
  destruct (existsb (same_pair _ _) rows) eqn:Ep.
  - intros H Hi Hp. destruct (IH _ _ H Hi Hp) as (added & -> & -> & H1 & H2 & H3 & H4).
    exists added. split_and!; try done.
    + intros d Hd. destruct (H3 d Hd) as (w' & k & Hw & ->). exists w', k. split; [by right|done].
    + intros w' [-> |Hw]%elem_of_cons; [|by apply H4].
      apply existsb_elem in Ep as (d & Hd & Hs). exists d. split; [apply elem_of_app; by left|].
      unfold same_pair in Hs. bool_prop. destruct Hs. unfold pair_of. congruence.
  - goal_case; [done|]. intros H Hi Hp. match goal with E : existsb _ _ = false |- _ => rename E into Ei end.
    set (row := queued now (ids n) (ep_id w) event trigger) in *.
    assert (Hi' : NoDup (dl_id <$> rows ++ [row])).
    { rewrite fmap_app. apply NoDup_app. split_and!; [done| |apply NoDup_singleton].
      intros x (d & -> & Hd)%list_elem_of_fmap Hx%list_elem_of_singleton.
      apply not_true_iff_false in Ei. apply Ei. apply existsb_elem. exists d. split; [done|]. by apply Z.eqb_eq. }
    assert (Hp' : NoDup (pair_of <$> rows ++ [row])).
    { rewrite fmap_app. apply NoDup_app. split_and!; [done| |apply NoDup_singleton].
      intros x (d & -> & Hd)%list_elem_of_fmap [= E1 E2]%list_elem_of_singleton.
      apply not_true_iff_false in Ep. apply Ep. apply existsb_elem. exists d. split; [done|].
      unfold same_pair. bool_prop. done. }
    destruct (IH _ _ H Hi' Hp') as (added & -> & -> & H1 & H2 & H3 & H4).
    exists (row :: added). rewrite <- app_assoc in *. split_and!; [done|cbn; lia|done|done|..].
    + intros d [->|Hd]%elem_of_cons; [exists w, n; split; [by left|done]|].
      destruct (H3 d Hd) as (w' & k & Hw & ->). exists w', k. split; [by right|done].
    + intros w' [-> |Hw]%elem_of_cons; [|by apply H4]. exists row. split; [|done].
      apply elem_of_app. right. by left.
Qed.

Lemma queued_ok now id endpoint event trigger : row_ok (queued now id endpoint event trigger).
Proof. constructor; simpl; unfold DEFAULT_MAX_ATTEMPTS, MAX_REDELIVERIES; lia. Qed.

Lemma enqueue_ok now ids e trigger (p : webhook_endpoint -> bool) q n rows :
  queue_ok q -> e ∈ q_events q ->
  insert_deliveries now ids (ev_id e) trigger (List.filter p (q_endpoints q)) 0 (q_deliveries q) = Ok (n, rows) ->
  queue_ok (with_deliveries q rows).
Proof.
  intros [H1 H2 H3 H4 H5 H6 H7 H8 H9] He Hi.
  destruct (insert_deliveries_spec _ _ _ _ _ _ _ _ _ Hi H4 H5) as (added & -> & _ & Hn & Hp & Ha & _).
  constructor; simpl; try done.
  - intros d [Hd|Hd]%elem_of_app; [by apply H6|].
    destruct (Ha d Hd) as (w & k & [Hw _]%elem_of_filter_bool & ->). simpl. by apply list_elem_of_fmap_2.
  - intros d [Hd|Hd]%elem_of_app; [by apply H7|].
    destruct (Ha d Hd) as (w & k & _ & ->). simpl. by apply list_elem_of_fmap_2.
  - intros d [Hd|Hd]%elem_of_app; [by apply H8|]. destruct (Ha d Hd) as (w & k & _ & ->). apply queued_ok.
Qed.

Lemma record_event_ok now new q : queue_ok q -> queue_ok (record_event now new q).2.
Proof.
  intros [H1 H2 H3 H4 H5 H6 H7 H8 H9]. constructor; simpl; try done.
  - rewrite fmap_app. apply NoDup_app. split_and!; [done| |apply NoDup_singleton].
    intros x (e & -> & He)%list_elem_of_fmap Hx%list_elem_of_singleton. specialize (H3 e He). simpl in Hx. lia.
  - intros e [He| ->%list_elem_of_singleton]%elem_of_app; [specialize (H3 e He)|simpl]; lia.
  - intros d Hd. rewrite fmap_app, elem_of_app. left. by apply H7.
Qed.

Lemma emit_ok now ids new q r q' : queue_ok q -> emit now ids new q = Ok (r, q') -> queue_ok q'.
Proof.
  intros Hq. unfold emit. rewrite result_bind_ok. intros (new' & _ & H).
  pose proof (record_event_ok now new' q Hq) as Hq1. destruct (record_event now new' q) as [e q1] eqn:E. simpl in Hq1.
  apply result_bind_ok in H as ([n q2] & Hf & [= _ <-]). unfold enqueue_fanout in Hf.
  destruct (ev_organization_id e); [|by injection Hf as _ <-].
  apply result_bind_ok in Hf as ([m rows] & Hi & [= _ <-]). eapply enqueue_ok; [done| |exact Hi].
  injection E as <- <-. simpl. apply elem_of_app. right. by left.
Qed.

Lemma emit_to_ok now ids new targets q r q' : queue_ok q -> emit_to now ids new targets q = Ok (r, q') -> queue_ok q'.
Proof.
  intros Hq. unfold emit_to. rewrite result_bind_ok. intros (new' & _ & H).
  pose proof (record_event_ok now new' q Hq) as Hq1. destruct (record_event now new' q) as [e q1] eqn:E. simpl in Hq1.
  apply result_bind_ok in H as ([n q2] & Hf & [= _ <-]). unfold enqueue_for_endpoints in Hf.
  destruct targets; [by injection Hf as _ <- |].
  apply result_bind_ok in Hf as ([m rows] & Hi & [= _ <-]). eapply enqueue_ok; [done| |exact Hi].
  injection E as <- <-. simpl. apply elem_of_app. right. by left.
Qed.

(** ** The steps keep the invariant *)

Lemma find_endpoint_elem id q w : find_endpoint id q = Some w -> w ∈ q_endpoints q /\ ep_id w = id.
Proof. intros [H E]%find_some. apply list_elem_of_In in H. by apply Z.eqb_eq in E. Qed.

Lemma insert_endpoint_ok now id new q w q' : queue_ok q -> insert_endpoint now id new q = Ok (w, q') -> queue_ok q'.
Proof.
  intros [H1 H2 H3 H4 H5 H6 H7 H8 H9] H. unfold insert_endpoint in H.
  set (x := WebhookEndpoint id _ _ _ _ _ _ _ _ _) in H.
  destruct (schema_endpoint x) eqn:Es; [|done]. destruct (existsb _ _) eqn:Ei; [done|].
  destruct (name_taken x q); [done|]. injection H as <- <-. constructor; simpl; try done.
  - rewrite fmap_app. apply NoDup_app. split_and!; [done| |apply NoDup_singleton].
    intros k (o & -> & Ho)%list_elem_of_fmap Hx%list_elem_of_singleton. simpl in Hx.
    apply not_true_iff_false in Ei. apply Ei. apply existsb_elem. exists o. split; [done|]. by apply Z.eqb_eq.
  - intros d Hd. rewrite fmap_app, elem_of_app. left. by apply H6.
  - intros o [Ho| ->%list_elem_of_singleton]%elem_of_app; [by apply H9|done].
Qed.

Lemma update_endpoint_ok now id c q w q' : queue_ok q -> update_endpoint now id c q = Ok (w, q') -> queue_ok q'.
Proof.
  intros Hq H. unfold update_endpoint in H. destruct (find_endpoint id q) as [o|] eqn:Ef; [|by injection H as _ <-].
  apply find_endpoint_elem in Ef as [_ Eid]. set (x := changed_endpoint now c o) in H.
  destruct (schema_endpoint x) eqn:Es; [|done]. destruct (name_taken x q); [done|]. injection H as _ <-.
  destruct Hq as [H1 H2 H3 H4 H5 H6 H7 H8 H9].
  assert (Hids : ep_id <$> ((fun o => if ep_id o =? id then x else o) <$> q_endpoints q) = ep_id <$> q_endpoints q).
  { rewrite <- list_fmap_compose. apply list_fmap_ext. intros i e _. simpl.
    destruct (ep_id e =? id) eqn:E; [|done]. apply Z.eqb_eq in E. simpl. congruence. }
  constructor; simpl; rewrite ?Hids; try done.
  intros e (e0 & -> & He0)%list_elem_of_fmap. destruct (ep_id e0 =? id); [done|by apply H9].
Qed.

Lemma delete_endpoint_ok id q : queue_ok q -> queue_ok (delete_endpoint id q).2.
Proof.
  intros Hq. simpl. unfold with_deliveries, with_endpoints. simpl.
  apply shrink_ok; try apply sublist_filter; [done|done|].
  intros d [Hd Hne]%elem_of_filter_bool. split; [|by apply Hq]. apply (qo_endpoint q Hq) in Hd.
  apply list_elem_of_fmap in Hd as (w & E & Hw). rewrite E in *. apply list_elem_of_fmap_2.
  by apply elem_of_filter_bool.
Qed.

Lemma claim_due_ok now batch lease locked q jobs q' :
  queue_ok q -> claim_due now batch lease locked q = Ok (jobs, q') -> queue_ok q'.
Proof.
  intros Hq H. unfold claim_due in H. destruct (dl_id <$> _) as [|i l]; [by injection H as _ <-|].
  destruct (forallb _ _); [|done]. injection H as _ <-. apply update_deliveries_ok; [done| |done].
  intros x _ []. constructor; simpl; lia.
Qed.

Lemma redeliver_ok now endpoint id q n q' : queue_ok q -> redeliver now endpoint id q = Ok (n, q') -> queue_ok q'.
Proof.
  intros Hq H. unfold redeliver in H. destruct (List.find _ _); [|done]. injection H as _ <-.
  apply update_deliveries_ok; [done| |done].
  intros x Hp []. unfold redeliverable in Hp. bool_prop. constructor; simpl; lia.
Qed.

Lemma deliver_one_ok uuid_text cfg job s r q : queue_ok q -> queue_ok (deliver_one uuid_text cfg job s r q).2.
Proof.
  intros Hq. unfold deliver_one. destruct (sn_outcome s) as [status|status message]; [by apply mark_ok|].
  destruct (j_attempts job <? j_max_attempts job); [by apply mark_ok|]. cbn [snd].
  set (q1 := mark_failed _ _ _ _ q). assert (Hq1 : queue_ok q1) by (by apply mark_ok).
  destruct (emit _ _ _ q1) as [[e q2]|] eqn:E; [|done]. by eapply emit_ok.
Qed.

(** What a sweep's second statement sees is what its first one saw. *)
Lemma sweepable_again organization cutoff q e :
  let due := List.filter (sweepable organization cutoff q) (q_events q) in
  let q1 := with_deliveries q (List.filter (fun d => negb (existsb (fun e => dl_event_id d =? ev_id e) due))
    (q_deliveries q)) in
  sweepable organization cutoff q1 e = sweepable organization cutoff q e.
Proof.
  intros due q1. unfold sweepable. f_equal. f_equal. apply eq_true_iff_eq. unfold has_pending.
  rewrite !existsb_elem. split; intros (d & Hd & Hp); exists d; (split; [|done]).
  - by apply elem_of_filter_bool in Hd as [? _].
  - apply elem_of_filter_bool. split; [done|]. apply negb_true_iff, not_true_iff_false.
    intros (e' & He' & Hid)%existsb_elem. apply elem_of_filter_bool in He' as [_ Hs].
    unfold sweepable in Hs. apply andb_true_iff in Hs as [_ Hn]. apply negb_true_iff, not_true_iff_false in Hn.
    apply Hn. apply existsb_elem. exists d. split; [done|]. apply andb_true_iff in Hp as [_ ->]. by rewrite Hid.
Qed.

Definition swept (organization : option Z) (cutoff : Z) (q : queue) (d : delivery) : bool :=
  existsb (fun e => (dl_event_id d =? ev_id e) && sweepable organization cutoff q e) (q_events q).

Lemma sweep_rows now organization days q :
  let cutoff := now - day_ms * days in
  let q' := (sweep_events now organization days q).2 in
  q_endpoints q' = q_endpoints q
  /\ q_next_event q' = q_next_event q
  /\ q_events q' = List.filter (fun e => negb (sweepable organization cutoff q e)) (q_events q)
  /\ q_deliveries q' = List.filter (fun d => negb (swept organization cutoff q d)) (q_deliveries q).
Proof.
  cbn zeta. unfold sweep_events. cbn [snd q_events q_deliveries q_endpoints q_next_event with_deliveries].
  set (cutoff := now - day_ms * days). set (due := List.filter (sweepable organization cutoff q) (q_events q)).
  pose proof (fun e => sweepable_again organization cutoff q e) as Hagain. cbn zeta in Hagain. fold due in Hagain.
  set (q1 := with_deliveries q _) in *.
  assert (Hs : forall d, existsb (fun e => dl_event_id d =? ev_id e) due = swept organization cutoff q d).
  { intros d. unfold swept, due. apply eq_true_iff_eq. rewrite !existsb_elem. split.
    - intros (e & [He Hp]%elem_of_filter_bool & Hid). exists e. by rewrite Hp, Hid.
    - intros (e & He & [Hid Hp]%andb_true_iff). exists e. by rewrite elem_of_filter_bool. }
  split_and!; [done|done|..].
  - apply filter_ext. intros e. f_equal. apply Hagain.
  - transitivity (q_deliveries q1).
    + apply filter_all. intros d [Hd Hg]%elem_of_filter_bool. rewrite Hs in Hg. unfold swept in Hg.
      rewrite <- Hg. f_equal. apply eq_true_iff_eq. rewrite !existsb_elem. by setoid_rewrite Hagain.
    + unfold q1. simpl. apply filter_ext. intros d. by rewrite Hs.
Qed.

Lemma sweep_ok now organization days q : queue_ok q -> queue_ok (sweep_events now organization days q).2.
Proof.
  intros Hq. destruct (sweep_rows now organization days q) as (Ew & En & Ee & Ed).
  destruct ((sweep_events now organization days q).2) as [ws es n ds wi ru]. simpl in *. subst ws n.
  apply shrink_ok; [done|done|subst es; apply sublist_filter|subst ds; apply sublist_filter|].
  subst es ds. intros d [Hd Hn]%elem_of_filter_bool. split; [by apply Hq|].
  apply (qo_event q Hq) in Hd. apply list_elem_of_fmap in Hd as (e & E & He). rewrite E.
  apply list_elem_of_fmap_2, elem_of_filter_bool. split; [done|].
  apply negb_true_iff, not_true_iff_false in Hn. apply negb_true_iff, not_true_iff_false. intros Hs. apply Hn.
  apply existsb_elem. exists e. by rewrite E, Z.eqb_refl, Hs.
Qed.

Lemma apply_step_ok s q : queue_ok q -> queue_ok (apply_step s q).
Proof.
  intros Hq. assert (Hk : forall A (r : result (A * queue) events_error),
    (forall a q', r = Ok (a, q') -> queue_ok q') -> queue_ok (keep r q)).
  { intros A [[a q']|e] H; simpl; [by eapply H|done]. }
  destruct s; cbn [apply_step]; try apply Hk; try intros a q' H.
  - by eapply insert_endpoint_ok.
  - by eapply update_endpoint_ok.
  - by apply delete_endpoint_ok.
  - by eapply emit_ok.
  - by eapply emit_to_ok.
  - by apply mark_ok.
  - by eapply claim_due_ok.
  - by apply deliver_one_ok.
  - by eapply redeliver_ok.
  - unfold set_retention_window in H. destruct exists_; [|done]. destruct (is_ok _); [|done].
    injection H as _ <-. by destruct Hq.
  - by apply sweep_ok.
Qed.

(** C35. The tables stay well formed whatever happens to them: after any sequence of operations
    by any number of processes, an endpoint has at most one delivery of an event, every delivery
    belongs to a stored endpoint and a stored event, a delivery is allowed one to ten attempts,
    and is forced again at most ten times. *)
Theorem queue_stays_well_formed (l : list queue_step) : queue_ok (run_steps l empty_queue).
Proof.
  unfold run_steps. assert (H : queue_ok empty_queue).
  { constructor; simpl; try apply NoDup_nil_2; intros x []%elem_of_nil. }
  generalize dependent empty_queue. induction l as [|s l IH]; intros q Hq; simpl; [done|].
  by apply IH, apply_step_ok.
Qed.

(** ** Reading rows after a statement *)

Lemma update_elem p f q d :
  d ∈ q_deliveries (update_deliveries p f q)
  <-> exists d0, d0 ∈ q_deliveries q /\ d = if p d0 then f d0 else d0.
Proof.
  unfold update_deliveries, update_where. simpl. rewrite list_elem_of_fmap. split; intros (d0 & H1 & H2); eauto.
Qed.

Lemma row_unique q d d' :
  queue_ok q -> d ∈ q_deliveries q -> d' ∈ q_deliveries q -> dl_id d = dl_id d' -> d = d'.
Proof. intros Hq Hd Hd' E. by apply (NoDup_key_inj dl_id (q_deliveries q) d d' (qo_ids q Hq)). Qed.

Lemma in_ids_elem ids d : in_ids ids d = true <-> dl_id d ∈ ids.
Proof.
  unfold in_ids. rewrite existsb_elem. split; [intros (x & Hx & Ex%Z.eqb_eq); by subst x|].
  intros H. exists (dl_id d). split; [done|apply Z.eqb_refl].
Qed.

Lemma due_elem now batch lease locked q d :
  d ∈ due_deliveries now batch lease locked q -> d ∈ q_deliveries q /\ is_due now lease q d = true.
Proof.
  intros H. unfold due_deliveries in H. apply (sublist_subseteq _ _ (sublist_take _ _)) in H.
  rewrite (sort_by_perm due_order _), elem_of_filter_bool in H. by destruct H as [? [? _]%andb_true_iff].
Qed.

Lemma read_jobs_elem ids q j :
  j ∈ read_jobs ids q -> exists d, d ∈ q_deliveries q /\ dl_id d ∈ ids /\ job_of q d = Some j.
Proof.
  intros (d & Hd & Hj)%list_elem_of_omap.
  rewrite (sort_by_perm due_order _), elem_of_filter_bool, in_ids_elem in Hd. destruct Hd. eauto.
Qed.

Lemma job_of_fields q d j :
  job_of q d = Some j ->
  j_delivery_id j = dl_id d /\ j_attempts j = dl_attempts d /\ j_max_attempts j = dl_max_attempts d
  /\ exists w, find_endpoint (dl_endpoint_id d) q = Some w /\ j_endpoint_id j = ep_id w
       /\ exists e, e ∈ q_events q /\ ev_id e = dl_event_id d /\ j_organization_id j = ev_organization_id e.
Proof.
  unfold job_of. destruct (find_endpoint _ q) as [w|]; [|done].
  destruct (List.find _ (q_events q)) as [e|] eqn:Ee; [|done]. intros [= <-]. simpl.
  apply find_some in Ee as [He Hid]. apply list_elem_of_In in He. apply Z.eqb_eq in Hid. split_and!; eauto 10.
Qed.

(** What a claim hands out: due rows, with the attempt it has just counted. *)
Lemma claim_due_spec now batch lease locked q jobs q' :
  queue_ok q -> claim_due now batch lease locked q = Ok (jobs, q') ->
  q' = update_deliveries (in_ids (dl_id <$> due_deliveries now batch lease locked q)) (claim_row now) q
  /\ forall j, j ∈ jobs -> exists d,
       d ∈ q_deliveries q /\ is_due now lease q d = true /\ claim_row now d ∈ q_deliveries q'
       /\ job_of q' (claim_row now d) = Some j.
Proof.
  intros Hq H. unfold claim_due in H. set (due := due_deliveries now batch lease locked q) in *.
  destruct (dl_id <$> due) as [|i l] eqn:E.
  - injection H as <- <-. split; [|by intros j ?%elem_of_nil].
    unfold update_deliveries, update_where, with_deliveries. destruct q as [a b c ds e f]; simpl. f_equal.
    rewrite <- (list_fmap_id ds) at 1. by apply list_fmap_ext.
  - rewrite <- E in *. destruct (forallb _ _); [|done]. injection H as <- <-. split; [done|].
    intros j (d' & Hd' & Hi & Hj)%read_jobs_elem. apply update_elem in Hd' as (d & Hd & ->).
    assert (Hid : dl_id (if in_ids (dl_id <$> due) d then claim_row now d else d) = dl_id d) by (by destruct (in_ids _ d)).
    rewrite Hid in Hi. pose proof (proj2 (in_ids_elem _ _) Hi) as Hin. rewrite Hin in Hj. exists d.
    split_and!; [done| | |done].
    + apply list_elem_of_fmap in Hi as (d0 & E0 & Hd0). pose proof (due_elem _ _ _ _ _ _ Hd0) as [Hq0 Hdue].
      by rewrite (row_unique q d d0 Hq Hd Hq0 E0).
    + apply update_elem. exists d. by rewrite Hin.
Qed.

(** ** The lease *)

(** Nobody may settle [id], nor may its lease run out, before the instant the steps end at. *)
Definition leaves_alone (id since : Z) (s : queue_step) : Prop :=
  match s with
  | Emit _ ids _ | EmitTo _ ids _ _ => forall k, ids k <> id
  | CancelDisabled now lease => now - lease < since
  | Claim now _ _ _ => since <= now
  | Send _ _ job s => j_delivery_id job <> id /\ forall k, sn_ids s k <> id
  | _ => True
  end.

Definition held (id since : Z) (q : queue) : Prop :=
  forall d, d ∈ q_deliveries q -> dl_id d = id ->
    dl_status d = Pending /\ exists at_, dl_claimed_at d = Some at_ /\ since <= at_.

Lemma held_sublist id since q q' :
  (forall d, d ∈ q_deliveries q' -> d ∈ q_deliveries q) -> held id since q -> held id since q'.
Proof. intros Hs H d Hd. apply H. by apply Hs. Qed.

Lemma held_update id since p f q :
  (forall d, dl_id (f d) = dl_id d) ->
  (forall d, d ∈ q_deliveries q -> dl_id d = id -> p d = true ->
     dl_status (f d) = Pending /\ exists at_, dl_claimed_at (f d) = Some at_ /\ since <= at_) ->
  held id since q -> held id since (update_deliveries p f q).
Proof.
  intros Hf Hp H d (d0 & Hd0 & ->)%update_elem Hid. destruct (p d0) eqn:E; [|by apply H].
  apply Hp; [done| |done]. by rewrite Hf in Hid.
Qed.

Lemma held_insert id since now ids event trigger targets q n rows :
  (forall k, ids k <> id) ->
  insert_deliveries now ids event trigger targets n (q_deliveries q) = Ok rows ->
  held id since q -> held id since (with_deliveries q rows.2).
Proof.
  intros Hids. destruct rows as [m rows]. simpl. unfold held. simpl. generalize (q_deliveries q) as l.
  revert n. induction targets as [|w rest IH]; intros n l; cbn [insert_deliveries]; [by intros [= _ <-]|].
  goal_case; [by apply IH|]. goal_case; [done|]. intros Hi H. eapply IH; [exact Hi|].
  intros d [Hd| ->%list_elem_of_singleton]%elem_of_app; [by apply H|]. simpl. intros E. by destruct (Hids n).
Qed.

Lemma held_emit id since now ids new q :
  (forall k, ids k <> id) -> held id since q -> held id since (keep (emit now ids new q) q).
Proof.
  intros Hids H. destruct (emit now ids new q) as [[r q']|] eqn:E; [|done]. simpl. unfold emit in E.
  apply result_bind_ok in E as (new' & _ & E). simpl in E.
  apply result_bind_ok in E as ([n q2] & Hf & [= _ <-]). unfold enqueue_fanout in Hf.
  destruct (ev_organization_id _); [|by injection Hf as _ <-].
  apply result_bind_ok in Hf as ([m rows] & Hi & [= _ <-]). by apply (held_insert _ _ _ _ _ _ _ _ _ _ Hids Hi).
Qed.

Lemma held_step id since s q :
  leaves_alone id since s -> held id since q -> held id since (apply_step s q).
Proof.
  intros Hl H. destruct s; cbn [apply_step leaves_alone] in *.
  - unfold insert_endpoint. destruct (schema_endpoint _); [|exact H]. destruct (existsb _ _); [exact H|].
    destruct (name_taken _ q); exact H.
  - unfold update_endpoint. destruct (find_endpoint _ q); [|exact H].
    destruct (schema_endpoint _); [|exact H]. destruct (name_taken _ q); exact H.
  - eapply held_sublist; [|exact H]. simpl. intros d Hd. by apply elem_of_filter_bool in Hd as [? _].
  - by apply held_emit.
  - destruct (emit_to _ _ _ _ q) as [[r q']|] eqn:E; [|done]. simpl. unfold emit_to in E.
    apply result_bind_ok in E as (new' & _ & E). simpl in E.
    apply result_bind_ok in E as ([n q2] & Hf & [= _ <-]). unfold enqueue_for_endpoints in Hf.
    destruct endpoint_ids; [by injection Hf as _ <-|].
    apply result_bind_ok in Hf as ([m rows] & Hi & [= _ <-]). by apply (held_insert _ _ _ _ _ _ _ _ _ _ Hl Hi).
  - apply held_update; [done| |done]. intros d Hd Hid Hp. exfalso.
    destruct (H d Hd Hid) as (_ & c & Hc & Hle). unfold lease_over in Hp. rewrite Hc in Hp. bool_prop. lia.
  - unfold claim_due. goal_case; [done|]. goal_case; [|done]. simpl. apply held_update; [done| |done].
    intros d Hd Hid _. destruct (H d Hd Hid) as [Hs _]. simpl. split; [done|]. eexists. split; [done|lia].
  - destruct Hl as [Hne Hids]. unfold deliver_one.
    assert (Hm : forall st next response error delivered duration,
      held id since (update_deliveries (has_delivery_id (j_delivery_id job)) (fun d =>
        settled d (st d) (next d) (response d) (error d) (delivered d) (duration d)) q)).
    { intros. apply held_update; [done| |done]. intros d _ Hid Hp. unfold has_delivery_id in Hp. bool_prop. lia. }
    destruct (sn_outcome s) as [status|status message]; [by apply Hm|]. goal_case; [by apply Hm|].
    simpl. apply held_emit; [done|]. apply Hm.
  - unfold redeliver. goal_case; [|done]. simpl. apply held_update; [done| |done].
    intros x Hd Hid Hp. exfalso. destruct (H x Hd Hid) as [Hs _]. unfold redeliverable, is_pending in Hp.
    rewrite Hs in Hp. bool_prop. by destruct Hp as [[_ ?] _].
  - unfold set_retention_window. destruct exists_; [|exact H]. destruct (is_ok _); exact H.
  - eapply held_sublist; [|exact H]. destruct (sweep_rows now organization window_days q) as (_ & _ & _ & ->).
    intros d Hd. by apply elem_of_filter_bool in Hd as [? _].
Qed.

(** Between the two claims: the clocks are those of the lease (no claim runs before it began, no sweep of
    disabled endpoints finds it over) and ids are fresh. *)
Definition within_lease (id since : Z) (s : queue_step) : Prop :=
  match s with
  | Emit _ ids _ | EmitTo _ ids _ _ => forall k, ids k <> id
  | CancelDisabled now lease => now - lease < since
  | Claim now _ _ _ => since <= now
  | Send _ _ _ s => forall k, sn_ids s k <> id
  | _ => True
  end.
(** A runner, whichever it is, writes what came of the delivery. *)
Definition settles (id : Z) (s : queue_step) : Prop := match s with Send _ _ job _ => j_delivery_id job = id | _ => False end.

Lemma settled_or_alone id since l : Forall (within_lease id since) l -> (exists s, s ∈ l /\ settles id s) \/ Forall (leaves_alone id since) l.
Proof.
  induction 1 as [|s l Hs _ IH]; [by right|]. destruct IH as [(x & Hx & H)|IH]; [left; exists x; split; [by right|done]|].
  assert (settles id s \/ leaves_alone id since s) as [H|H].
  { destruct s; cbn in *; try by right. destruct (Z.eq_dec (j_delivery_id job) id); [by left|by right]. }
  - left. exists s. split; [by left|done].
  - right. by constructor.
Qed.

(** C20. A claim is exclusive while its lease lasts: when a claim less than the lease later is handed the
    same delivery, some runner had written an answer to that delivery in between. Whatever else happens to
    the queue does not hand it out twice. The answer need not be the holder's: settling is by id alone, so
    the refusal of a runner that held an earlier claim puts the delivery back inside the holder's lease
    ([stale_refusal_hands_out_a_held_delivery]). *)
Theorem lease_is_exclusive (t1 t2 b1 b2 lease : Z) (l1 l2 : Z -> bool) (between : list queue_step)
  (q q1 q2 : queue) (jobs1 jobs2 : list delivery_job) (j1 j2 : delivery_job) :
  queue_ok q -> claim_due t1 b1 lease l1 q = Ok (jobs1, q1) -> j1 ∈ jobs1 ->
  Forall (within_lease (j_delivery_id j1) t1) between -> t2 < t1 + lease ->
  claim_due t2 b2 lease l2 (run_steps between q1) = Ok (jobs2, q2) -> j2 ∈ jobs2 ->
  j_delivery_id j2 = j_delivery_id j1 -> exists s, s ∈ between /\ settles (j_delivery_id j1) s.
Proof.
  intros Hq H1 Hj1 [Hs|Hb]%settled_or_alone Ht H2 Hj2 E; [done|exfalso].
  pose proof (claim_due_ok _ _ _ _ _ _ _ Hq H1) as Hq1.
  apply (claim_due_spec _ _ _ _ _ _ _ Hq) in H1 as [_ H1].
  destruct (H1 j1 Hj1) as (d & Hd & Hdue & Hd1 & (Eid & _)%job_of_fields).
  assert (Hheld : held (j_delivery_id j1) t1 q1).
  { intros x Hx Hid. rewrite (row_unique q1 x _ Hq1 Hx Hd1) by congruence. simpl.
    unfold is_due, is_pending in Hdue. bool_prop. split; [tauto|]. eexists. split; [done|lia]. }
  assert (Hrun : queue_ok (run_steps between q1) /\ held (j_delivery_id j1) t1 (run_steps between q1)).
  { clear H1 Hd1 Hd H2. unfold run_steps. induction Hb as [|s l Hs _ IH] in q1, Hq1, Hheld |- *; simpl; [done|].
    apply IH; [by apply apply_step_ok|by apply held_step]. }
  destruct Hrun as [Hq' Hheld']. apply (claim_due_spec _ _ _ _ _ _ _ Hq') in H2 as [_ H2].
  destruct (H2 j2 Hj2) as (d2 & Hd2 & Hdue2 & _ & (Eid2 & _)%job_of_fields).
  destruct (Hheld' d2 Hd2) as (_ & c & Hc & Hle); [simpl in Eid2; congruence|].
  unfold is_due, lease_over in Hdue2. rewrite Hc in Hdue2. bool_prop. lia.
Qed.

(** ** Settling what was claimed *)

Definition answered (uuid_text : Z -> str) (cfg : runner_config) (job : delivery_job) (s : sending) (q : queue) : queue :=
  (deliver_one uuid_text cfg job s no_report q).2.

Lemma insert_deliveries_keeps now ids event trigger targets n rows n' rows' d :
  insert_deliveries now ids event trigger targets n rows = Ok (n', rows') -> d ∈ rows -> d ∈ rows'.
Proof.
  revert n rows. induction targets as [|w rest IH]; intros n rows; cbn [insert_deliveries].
  { by intros [= _ <-]. }
  destruct (existsb _ rows); [by apply IH|]. destruct (existsb _ rows); [done|]. intros H Hd.
  apply (IH _ _ H). apply elem_of_app. by left.
Qed.

Lemma emit_keeps_rows now ids new q d : d ∈ q_deliveries q -> d ∈ q_deliveries (keep (emit now ids new q) q).
Proof.
  intros Hd. destruct (emit now ids new q) as [[r q']|] eqn:E; [|done]. simpl. unfold emit in E.
  apply result_bind_ok in E as (new' & _ & E). simpl in E.
  apply result_bind_ok in E as ([n q2] & Hf & [= _ <-]). unfold enqueue_fanout in Hf.
  destruct (ev_organization_id _); [|by injection Hf as _ <-].
  apply result_bind_ok in Hf as ([m rows] & Hi & [= _ <-]).
  by apply (insert_deliveries_keeps _ _ _ _ _ _ _ _ _ d Hi).
Qed.

Lemma answered_elem uuid_text cfg job s q d :
  d ∈ q_deliveries q -> dl_id d = j_delivery_id job ->
  exists d', d' ∈ q_deliveries (answered uuid_text cfg job s q) /\ dl_id d' = dl_id d
    /\ dl_attempts d' = dl_attempts d /\ dl_claimed_at d' = None
    /\ match sn_outcome s with
       | Accepted _ => dl_status d' = Delivered /\ dl_delivered_at d' = Some (sn_now s)
       | Refused _ _ =>
           if j_attempts job <? j_max_attempts job
           then dl_status d' = dl_status d
             /\ dl_next_attempt_at d' = sn_now s + retry_delay (j_attempts job) (rc_retry_base cfg) (rc_retry_max cfg)
           else dl_status d' = Failed
       end.
Proof.
  intros Hd Hid. unfold answered, deliver_one.
  assert (Hp : has_delivery_id (j_delivery_id job) d = true) by (by apply Z.eqb_eq).
  destruct (sn_outcome s) as [status|status message].
  2: destruct (j_attempts job <? j_max_attempts job) eqn:E; rewrite ?E.
  3: { eexists. split; [apply emit_keeps_rows, update_elem; exists d; split; [exact Hd|by rewrite Hp]|done]. }
  all: eexists; (split; [apply update_elem; exists d; split; [exact Hd|by rewrite Hp]|done]).
Qed.

(** C29. What a runner does with a delivery it was handed: an answer of the receiver that accepts it
    settles it; a refusal puts it back, later, as long as attempts are left, and gives it up on the
    last one. So each round of claiming and answering settles the delivery or uses up one of the
    attempts it is allowed: a receiver that never accepts is given up after at most that many. *)
Theorem answered_claim_moves_on (now batch lease : Z) (locked : Z -> bool) (uuid_text : Z -> str)
  (cfg : runner_config) (q q1 : queue) (jobs : list delivery_job) (job : delivery_job) (s : sending) :
  queue_ok q -> claim_due now batch lease locked q = Ok (jobs, q1) -> job ∈ jobs ->
  exists d d', d ∈ q_deliveries q /\ dl_id d = j_delivery_id job /\ is_pending d = true
    /\ d' ∈ q_deliveries (answered uuid_text cfg job s q1) /\ dl_id d' = dl_id d /\ dl_attempts d' = dl_attempts d + 1
    /\ dl_claimed_at d' = None
    /\ match sn_outcome s with
       | Accepted _ => dl_status d' = Delivered /\ dl_delivered_at d' = Some (sn_now s)
       | Refused _ _ =>
           if dl_attempts d + 1 <? dl_max_attempts d
           then dl_status d' = Pending
             /\ dl_next_attempt_at d' = sn_now s + retry_delay (dl_attempts d + 1) (rc_retry_base cfg) (rc_retry_max cfg)
           else dl_status d' = Failed
       end.
Proof.
  intros Hq H Hj. apply (claim_due_spec _ _ _ _ _ _ _ Hq) in H as [_ H].
  destruct (H job Hj) as (d & Hd & Hdue & Hd1 & (Eid & Ea & Em & _)%job_of_fields). simpl in Eid, Ea, Em.
  destruct (answered_elem uuid_text cfg job s q1 (claim_row now d) Hd1 ltac:(simpl; congruence))
    as (d' & Hd' & Ei & Ea' & Ec & Hs). simpl in *. rewrite Ea, Em in Hs.
  assert (is_pending d = true) as Hp by (unfold is_due in Hdue; bool_prop; tauto).
  exists d, d'. split_and!; try done. unfold is_pending in Hp. bool_prop. by rewrite Hp in Hs.
Qed.

(** ** What the runner does not hold to *)

Definition claims (n : nat) (start lease batch : Z) : list queue_step :=
  (fun k => Claim (start + Z.of_nat k * lease) batch lease (fun _ => false)) <$> seq 0 n.

Lemma due_all now lease batch q d :
  d ∈ q_deliveries q -> is_due now lease q d = true -> Z.of_nat (length (q_deliveries q)) <= batch ->
  d ∈ due_deliveries now batch lease (fun _ => false) q.
Proof.
  intros Hd Hdue Hb. unfold due_deliveries. rewrite take_ge.
  - rewrite (sort_by_perm due_order _), elem_of_filter_bool. by rewrite Hdue.
  - rewrite (Permutation_length (sort_by_perm due_order _)).
    pose proof (List.filter_length_le (fun d => is_due now lease q d && negb false) (q_deliveries q)). lia.
Qed.

Lemma claim_advances now lease batch q d :
  queue_ok q -> d ∈ q_deliveries q -> is_due now lease q d = true -> Z.of_nat (length (q_deliveries q)) <= batch ->
  (forall x, x ∈ q_deliveries q -> dl_attempts x < i32_max) ->
  let q' := apply_step (Claim now batch lease (fun _ => false)) q in
  claim_row now d ∈ q_deliveries q' /\ q_endpoints q' = q_endpoints q
  /\ length (q_deliveries q') = length (q_deliveries q)
  /\ forall x, x ∈ q_deliveries q' -> exists y, y ∈ q_deliveries q /\ dl_attempts x <= dl_attempts y + 1.
Proof.
  intros Hq Hd Hdue Hb Hmax. pose proof (due_all now lease batch q d Hd Hdue Hb) as Hin. simpl.
  unfold claim_due. destruct (dl_id <$> _) as [|i l] eqn:E.
  { apply (list_elem_of_fmap_2 dl_id) in Hin. rewrite E in Hin. by apply elem_of_nil in Hin. }
  rewrite <- E. rewrite (proj2 (forallb_elem _ _)).
  2: { intros x Hx. specialize (Hmax x Hx). apply Z.ltb_lt in Hmax. rewrite Hmax. apply orb_true_r. }
  simpl. split_and!; [|done|by unfold update_where; rewrite length_fmap|].
  - apply update_elem. exists d. split; [done|].
    by rewrite (proj2 (in_ids_elem _ _) (list_elem_of_fmap_2 dl_id _ _ Hin)).
  - intros x (y & Hy & ->)%update_elem. exists y. split; [done|]. destruct (in_ids _ y); simpl; lia.
Qed.

(** A gap: nothing stops a delivery whose runner dies. A claim counts the attempt but never
    looks at how many are allowed, and only a runner that survives gives up; so a delivery that
    kills its runner is claimed again at every lapse of the lease, past any number of attempts,
    and stays pending. *)
Theorem crash_loop_retries_for_ever (n : nat) (start lease batch : Z) (q : queue) (d : delivery) :
  queue_ok q -> 0 <= lease -> d ∈ q_deliveries q -> is_due start lease q d = true ->
  Z.of_nat (length (q_deliveries q)) <= batch ->
  (forall x, x ∈ q_deliveries q -> dl_attempts x + Z.of_nat n <= i32_max) ->
  exists d', d' ∈ q_deliveries (run_steps (claims n start lease batch) q)
    /\ dl_id d' = dl_id d /\ dl_status d' = Pending /\ dl_max_attempts d' = dl_max_attempts d
    /\ dl_attempts d' = dl_attempts d + Z.of_nat n.
Proof.
  unfold claims. intros Hq Hlease. enough (Hgen : forall k q d, queue_ok q -> d ∈ q_deliveries q ->
    is_due (start + Z.of_nat k * lease) lease q d = true -> Z.of_nat (length (q_deliveries q)) <= batch ->
    (forall x, x ∈ q_deliveries q -> dl_attempts x + Z.of_nat n <= i32_max) ->
    exists d', d' ∈ q_deliveries (run_steps ((fun k => Claim (start + Z.of_nat k * lease) batch lease (fun _ => false)) <$> seq k n) q)
      /\ dl_id d' = dl_id d /\ dl_status d' = Pending /\ dl_max_attempts d' = dl_max_attempts d
      /\ dl_attempts d' = dl_attempts d + Z.of_nat n).
  { intros Hd Hdue. apply (Hgen 0%nat q d Hq Hd). by rewrite Z.add_0_r. }
  clear d q Hq. induction n as [|n IH]; intros k q d Hq Hd Hdue Hb Hmax.
  { exists d. simpl. assert (Hp := Hdue). unfold is_due, is_pending in Hp. bool_prop. split_and!; try tauto; lia. }
  cbn [seq fmap list_fmap run_steps foldl].
  destruct (claim_advances (start + Z.of_nat k * lease) lease batch q d Hq Hd Hdue Hb) as (Hd1 & Ee & El & Hle).
  { intros x Hx. specialize (Hmax x Hx). lia. }
  set (step := Claim _ batch lease _) in *. set (q1 := apply_step step q) in *.
  destruct (IH (S k) q1 (claim_row (start + Z.of_nat k * lease) d)) as (d' & H1 & H2 & H3 & H4 & H5).
  - by apply apply_step_ok.
  - done.
  - unfold is_due, is_pending, endpoint_enabled, find_endpoint, lease_over in Hdue |- *. rewrite Ee. simpl.
    bool_prop. destruct Hdue as [[[? ?] ?] _]. split_and!; [done|done|lia|lia].
  - rewrite El. done.
  - intros x Hx. destruct (Hle x Hx) as (y & Hy & Hxy). specialize (Hmax y Hy). lia.
  - exists d'. split_and!; [exact H1|done|done|done|]. rewrite H5. simpl. lia.
Qed.

(** A gap: settling does not ask whether the claim is still held. A runner that comes back
    after its lease has lapsed writes over what a second runner recorded, so a delivery a receiver
    has accepted ends as failed. *)
Theorem stale_runner_overwrites (uuid_text : Z -> str) (cfg : runner_config) (job : delivery_job) (s : sending)
  (status : option Z) (message : str) (q : queue) (d : delivery) :
  d ∈ q_deliveries q -> dl_id d = j_delivery_id job -> dl_status d = Delivered ->
  sn_outcome s = Refused status message -> j_max_attempts job <= j_attempts job ->
  exists d', d' ∈ q_deliveries (answered uuid_text cfg job s q) /\ dl_id d' = dl_id d /\ dl_status d' = Failed.
Proof.
  intros Hd Hid _ Ho Ha. destruct (answered_elem uuid_text cfg job s q d Hd Hid) as (d' & H1 & H2 & _ & _ & H3).
  rewrite Ho in H3. assert (E : (j_attempts job <? j_max_attempts job) = false) by (apply Z.ltb_ge; lia).
  rewrite E in H3. eauto.
Qed.

(** ** Recording and fanning out *)

Lemma insert_fresh now ids event trigger targets n rows n' rows' :
  insert_deliveries now ids event trigger targets n rows = Ok (n', rows') ->
  NoDup (ep_id <$> targets) -> (forall d w, d ∈ rows -> w ∈ targets -> pair_of d <> (ep_id w, event)) ->
  exists added, rows' = rows ++ added /\ n' = (n + length added)%nat
    /\ pair_of <$> added = (fun w => (ep_id w, event)) <$> targets
    /\ Forall (fun d => dl_status d = Pending /\ dl_attempts d = 0 /\ dl_next_attempt_at d = now
         /\ dl_trigger d = trigger) added.
Proof.
  revert n rows. induction targets as [|w rest IH]; intros n rows; cbn [insert_deliveries].
  { intros [= <- <-] _ _. exists []. rewrite app_nil_r. split_and!; [done|cbn; lia|done|constructor]. }
  rewrite fmap_cons, NoDup_cons. intros H [Hw Hn] Hf. destruct (existsb (same_pair _ _) rows) eqn:E.
  { exfalso. apply existsb_elem in E as (d & Hd & Hs). unfold same_pair in Hs. bool_prop.
    apply (Hf d w Hd ltac:(by left)). unfold pair_of. destruct Hs. congruence. }
  clear E. destruct (existsb _ rows); [done|].
  destruct (IH _ _ H Hn) as (added & -> & -> & Hp & Ha).
  { intros d w' [Hd| ->%list_elem_of_singleton]%elem_of_app Hw'; [apply Hf; [done|by right]|].
    intros [= E']. apply Hw. rewrite E'. by apply list_elem_of_fmap_2. }
  eexists (_ :: added). rewrite <- app_assoc. split_and!; [done|cbn; lia| |by constructor].
  rewrite !fmap_cons. by f_equal.
Qed.

Definition subscriber (organization : Z) (name : str) (w : webhook_endpoint) : bool :=
  ep_enabled w && (ep_organization_id w =? organization) && subscribed_to (ep_events w) name.

(** Recording an event queues exactly what it owes: one delivery, due at once, for each enabled
    endpoint of the event's organization whose subscription covers the name, and none at all for
    an event of no organization; everything already queued is untouched. *)
Theorem emit_queues_each_subscriber (now : Z) (ids : nat -> Z) (new : new_event) (q q' : queue) (r : emit_report) :
  queue_ok q -> emit now ids new q = Ok (r, q') ->
  exists added, q_deliveries q' = q_deliveries q ++ added /\ er_deliveries r = length added
    /\ q_events q' = q_events q ++ [er_event r] /\ ev_name (er_event r) = trim (ne_name new)
    /\ pair_of <$> added = match ne_organization_id new with
         | Some o => (fun w => (ep_id w, ev_id (er_event r))) <$>
             List.filter (subscriber o (trim (ne_name new))) (q_endpoints q)
         | None => [] end
    /\ Forall (fun d => dl_status d = Pending /\ dl_attempts d = 0 /\ dl_next_attempt_at d = now
         /\ dl_trigger d = s!"event") added.
Proof.
  intros Hq. unfold emit. rewrite result_bind_ok. intros (new' & Hp & H). simpl in H.
  apply result_bind_ok in H as ([n q2] & Hf & [= <- <-]). simpl.
  unfold prepare in Hp. apply result_bind_ok in Hp as (name & Hn & Hp). apply validate_event_name_ok in Hn as ->.
  destruct (is_object _); [|done]. injection Hp as <-. unfold enqueue_fanout in Hf. simpl in *.
  destruct (ne_organization_id new) as [o|].
  - apply result_bind_ok in Hf as ([m rows] & Hi & [= <- <-]). simpl in *.
    assert (Hsub : fanout_target o (trim (ne_name new)) = subscriber o (trim (ne_name new))) by done.
    rewrite Hsub in Hi.
    destruct (insert_fresh _ _ _ _ _ _ _ _ _ Hi) as (added & -> & -> & Hpairs & Ha).
    + apply NoDup_filter_keys, Hq.
    + intros d w Hd _ [= _ E]. apply (qo_event q Hq) in Hd. rewrite E in Hd.
      apply list_elem_of_fmap in Hd as (e & E' & He). apply (qo_next q Hq) in He. lia.
    + exists added. split_and!; done.
  - injection Hf as <- <-. exists []. simpl. rewrite app_nil_r. by split_and!.
Qed.

Lemma insert_deliveries_succeeds now ids event trigger targets n rows :
  (forall k d, d ∈ rows -> ids k <> dl_id d) -> (forall i j, ids i = ids j -> i = j) ->
  is_ok (insert_deliveries now ids event trigger targets n rows) = true.
Proof.
  intros Hf Hinj. assert (H : forall k d, (n <= k)%nat -> d ∈ rows -> ids k <> dl_id d) by (intros; by apply Hf).
  clear Hf. revert n rows H. induction targets as [|w rest IH]; intros n rows H; cbn [insert_deliveries]; [done|].
  destruct (existsb (same_pair _ _) rows); [by apply IH|]. destruct (existsb _ rows) eqn:E.
  { apply existsb_elem in E as (d & Hd & Hid%Z.eqb_eq). by destruct (H n d ltac:(lia) Hd). }
  apply IH. intros k d Hk [Hd| ->%list_elem_of_singleton]%elem_of_app; [apply H; [lia|done]|].
  simpl. intros Hids%Hinj. lia.
Qed.

Lemma given_up_prepared uuid_text job status message :
  prepare (given_up uuid_text job status message) = Ok (given_up uuid_text job status message).
Proof. reflexivity. Qed.

(** A gap: giving a delivery up feeds the queue. The event that reports it fans out to every
    subscriber of the organization, the endpoint that has just failed included; so a dead receiver
    that listens for failed deliveries gets a new delivery for each one it has lost, for ever. *)
Theorem giving_up_requeues_the_same_endpoint (uuid_text : Z -> str) (cfg : runner_config) (job : delivery_job)
  (s : sending) (status : option Z) (message : str) (q : queue) (w : webhook_endpoint) (o : Z) :
  queue_ok q -> w ∈ q_endpoints q -> j_endpoint_id job = ep_id w -> j_organization_id job = Some o ->
  subscriber o s!"webhook.delivery.failed" w = true ->
  sn_outcome s = Refused status message -> j_max_attempts job <= j_attempts job ->
  (forall k d, d ∈ q_deliveries q -> sn_ids s k <> dl_id d) -> (forall i j, sn_ids s i = sn_ids s j -> i = j) ->
  exists d, d ∈ q_deliveries (answered uuid_text cfg job s q) /\ dl_endpoint_id d = j_endpoint_id job
    /\ dl_status d = Pending /\ dl_event_id d = q_next_event q.
Proof.
  intros Hq Hw Hj Ho Hs Hout Ha Hfresh Hinj. unfold answered, deliver_one. rewrite Hout.
  rewrite (proj2 (Z.ltb_ge _ _)) by lia. cbn [snd]. set (text := sender_trim message MAX_ERROR_CHARS).
  set (q1 := mark_failed _ _ _ _ q). assert (Hq1 : queue_ok q1) by (by apply mark_ok).
  destruct (emit (sn_now s) (sn_ids s) (given_up uuid_text job status text) q1) as [[r q2]|] eqn:E.
  - pose proof (emit_queues_each_subscriber _ _ _ _ _ _ Hq1 E) as (added & Ed & _ & Ee & _ & Hp & Hall).
    assert (Hid : ev_id (er_event r) = q_next_event q).
    { unfold emit in E. rewrite given_up_prepared in E. cbn [result_bind record_event] in E.
      by apply result_bind_ok in E as ([n q3] & _ & [= <- _]). }
    simpl in Hp. rewrite Ho in Hp.
    assert (Hin : (ep_id w, ev_id (er_event r)) ∈ pair_of <$> added).
    { rewrite Hp. apply (list_elem_of_fmap_2 (fun w => (ep_id w, ev_id (er_event r)))). by apply elem_of_filter_bool. }
    apply list_elem_of_fmap in Hin as (d & [= E1 E2] & Hd). exists d. rewrite Forall_forall in Hall.
    destruct (Hall d Hd) as (? & _). rewrite Ed, elem_of_app. split_and!; [by right|congruence|done|congruence].
  - exfalso. revert E. unfold emit. rewrite given_up_prepared. cbn [result_bind]. unfold enqueue_fanout. simpl. rewrite Ho.
    match goal with |- context [insert_deliveries ?a ?b ?c ?d ?e ?f ?g] =>
      pose proof (insert_deliveries_succeeds a b c d e f g) as Hok; destruct (insert_deliveries a b c d e f g) as [[m rows]|] end.
    + done.
    + intros _. discriminate Hok; [|done]. intros k d (d0 & Hd0 & ->)%update_elem. specialize (Hfresh k d0 Hd0).
      by destruct (has_delivery_id _ d0).
Qed.

(** A gap: the test delivery of an endpoint that is switched off never goes out. It is queued
    whatever the endpoint's state, but a claim only takes deliveries of enabled endpoints and the
    runner's first statement settles it as failed. *)
Theorem test_of_a_disabled_endpoint_is_not_sent (now later lease batch : Z) (ids : nat -> Z) (locked : Z -> bool)
  (new : new_event) (q q' : queue) (r : emit_report) (w : webhook_endpoint) :
  queue_ok q -> w ∈ q_endpoints q -> ep_enabled w = false ->
  emit_to now ids new [ep_id w] q = Ok (r, q') ->
  (forall jobs q'', claim_due later batch lease locked q' = Ok (jobs, q'') ->
     forall j, j ∈ jobs -> j_endpoint_id j <> ep_id w)
  /\ exists d, d ∈ q_deliveries (cancel_pending_for_disabled later lease q').2 /\ dl_endpoint_id d = ep_id w
       /\ dl_event_id d = ev_id (er_event r) /\ dl_status d = Failed /\ dl_error d = Some switched_off.
Proof.
  intros Hq Hw Hoff H. pose proof (emit_to_ok _ _ _ _ _ _ _ Hq H) as Hq'.
  unfold emit_to in H. apply result_bind_ok in H as (new' & _ & H). simpl in H.
  apply result_bind_ok in H as ([n q2] & Hf & [= <- <-]). apply result_bind_ok in Hf as ([m rows] & Hi & [= <- <-]).
  simpl in *. set (q' := with_deliveries _ rows) in *.
  assert (Hfind : find_endpoint (ep_id w) q' = Some w).
  { unfold find_endpoint, q'. simpl. destruct (List.find _ (q_endpoints q)) as [x|] eqn:E.
    - apply find_some in E as [Hx Eid]. apply list_elem_of_In in Hx. apply Z.eqb_eq in Eid. f_equal.
      by apply (NoDup_key_inj ep_id (q_endpoints q) x w (qo_endpoints q Hq)).
    - apply list_elem_of_In, (find_none _ _ E) in Hw. by rewrite Z.eqb_refl in Hw. }
  split.
  - intros jobs q'' Hc j Hj E. apply (claim_due_spec _ _ _ _ _ _ _ Hq') in Hc as [-> Hc].
    destruct (Hc j Hj) as (d & _ & Hdue & _ & (_ & _ & _ & x & Hx & Ex & _)%job_of_fields). simpl in Hx.
    unfold is_due, endpoint_enabled in Hdue. change (find_endpoint (dl_endpoint_id d) q' = Some x) in Hx.
    pose proof (find_endpoint_elem _ _ _ Hx) as [_ Eid]. rewrite <- Eid, <- Ex, E, Hfind in Hdue. bool_prop.
    rewrite Hoff in Hdue. naive_solver.
  - destruct (insert_fresh _ _ _ _ _ _ _ _ _ Hi) as (added & -> & _ & Hp & Hall).
    + apply NoDup_filter_keys, Hq.
    + intros d x Hd _ [= _ E]. apply (qo_event q Hq) in Hd. rewrite E in Hd.
      apply list_elem_of_fmap in Hd as (e & E' & He). apply (qo_next q Hq) in He. simpl in *. lia.
    + assert (Hin : (ep_id w, q_next_event q) ∈ pair_of <$> added).
      { rewrite Hp. apply (list_elem_of_fmap_2 (fun w => (ep_id w, q_next_event q))).
        apply elem_of_filter_bool. split; [done|]. simpl. by rewrite Z.eqb_refl. }
      apply list_elem_of_fmap in Hin as (d & [= E1 E2] & Hd). rewrite Forall_forall in Hall.
      destruct (Hall d Hd) as (Hpend & _).
      assert (Hc : dl_claimed_at d = None).
      { destruct (insert_deliveries_spec _ _ _ _ _ _ _ _ _ Hi (qo_ids q Hq) (qo_pairs q Hq)) as (a & Ea & _ & _ & _ & Ha & _).
        apply app_inv_head in Ea as <-. by destruct (Ha d Hd) as (x & k & _ & ->). }
      exists (settled d Failed (dl_next_attempt_at d) (dl_response_status d) (Some switched_off)
        (dl_delivered_at d) (dl_duration_ms d)). split; [|by simpl; split_and!].
      apply list_elem_of_fmap. exists d. split; [|apply elem_of_app; by right].
      unfold endpoint_disabled, is_pending, lease_over. by rewrite <- E1, Hfind, Hoff, Hc, Hpend.
Qed.

(** ** Retention *)

(** A sweep removes exactly the events of the organization that are past the window and have
    no delivery still owed, with the deliveries of those events; every pending delivery, and the
    event it carries, is kept; and the report counts what was removed. *)
Theorem sweep_keeps_what_is_owed (now days : Z) (organization : option Z) (q : queue) :
  let cutoff := now - day_ms * days in
  let '(report, q') := sweep_events now organization days q in
  q_events q' = List.filter (fun e => negb (bool_decide (ev_organization_id e = organization)
    && (ev_created_at e <? cutoff) && negb (has_pending q e))) (q_events q)
  /\ q_deliveries q' = List.filter (fun d => negb (swept organization cutoff q d)) (q_deliveries q)
  /\ (forall d, d ∈ q_deliveries q -> dl_status d = Pending -> d ∈ q_deliveries q')
  /\ (sr_events_deleted report + length (q_events q') = length (q_events q))%nat
  /\ (sr_deliveries_deleted report + length (q_deliveries q') = length (q_deliveries q))%nat.
Proof.
  cbn zeta. pose proof (sweep_rows now organization days q) as (_ & _ & Ee & Ed).
  set (cutoff := now - day_ms * days) in *.
  assert (Hcount : forall A (p : A -> bool) l, (length (List.filter p l) + length (List.filter (fun x => negb (p x)) l) = length l)%nat).
  { intros A p l. induction l as [|x l IH]; [done|]. cbn. destruct (p x); cbn; lia. }
  destruct (sweep_events now organization days q) as [report q'] eqn:E. simpl in Ee, Ed.
  rewrite Ee, Ed. split_and!; [done|done|..].
  - intros d Hd Hp. apply elem_of_filter_bool. split; [done|]. apply negb_true_iff, not_true_iff_false.
    intros (e & He & [Hid Hs]%andb_true_iff)%existsb_elem. unfold sweepable in Hs.
    apply andb_true_iff in Hs as [_ Hn]. apply negb_true_iff, not_true_iff_false in Hn. apply Hn.
    apply existsb_elem. exists d. split; [done|]. rewrite Hid. simpl. by apply bool_decide_eq_true.
  - pose proof (fun e => sweepable_again organization cutoff q e) as Hagain. cbn zeta in Hagain.
    unfold sweep_events in E. injection E as <- _. cbn [sr_events_deleted]. etrans; [|apply (Hcount _ (sweepable organization cutoff q))].
    f_equal. f_equal. apply filter_ext. intros e. apply Hagain.
  - unfold sweep_events in E. injection E as <- _. cbn [sr_deliveries_deleted].
    etrans; [|apply (Hcount _ (swept organization cutoff q))]. f_equal. f_equal. apply filter_ext. intros d.
    unfold swept. apply eq_true_iff_eq. rewrite !existsb_elem. split.
    + intros (e & [He Hp]%elem_of_filter_bool & Hid). exists e. split; [done|]. apply andb_true_iff. by split.
    + intros (e & He & [Hid Hp]%andb_true_iff). exists e. split; [|done]. by apply elem_of_filter_bool.
Qed.
End Queue.

(** ** The retry ladder *)

(** The wait before the next attempt is one base, then twice that, then four times it, and so
    on, never shorter than the base (one millisecond at least), never longer than the ceiling (or
    the base, when the ceiling is below it), and never shorter on a later attempt. *)
Theorem retry_delay_ladder (attempt base max : Z) :
  1 <= attempt -> base <= i64_max -> max <= i64_max ->
  retry_delay attempt base max = Z.min (Z.max base 1 * 2 ^ (Z.min 16 attempt - 1)) (Z.max max (Z.max base 1))
  /\ Z.max base 1 <= retry_delay attempt base max <= Z.max max (Z.max base 1)
  /\ retry_delay attempt base max <= retry_delay (attempt + 1) base max.
Proof.
  unfold i64_max. intros Ha Hb Hm.
  assert (Hf : forall a, 1 <= a -> retry_delay a base max
    = Z.min (Z.max base 1 * 2 ^ (Z.min 16 a - 1)) (Z.max max (Z.max base 1))).
  { intros a Ha'. unfold retry_delay, i64_max. replace (Z.max 1 (Z.min 16 a)) with (Z.min 16 a) by lia.
    assert (E : (Z.min 16 a - 1 <? 64) = true) by (apply Z.ltb_lt; lia). rewrite E.
    rewrite Z.shiftl_mul_pow2, Z.mul_1_l by lia. lia. }
  assert (Hp : forall a, 1 <= a -> 1 <= 2 ^ (Z.min 16 a - 1)).
  { intros a Ha'. assert (0 < 2 ^ (Z.min 16 a - 1)); [apply Z.pow_pos_nonneg; lia|lia]. }
  pose proof (Hp attempt Ha) as H1.
  assert (H2 : 2 ^ (Z.min 16 attempt - 1) <= 2 ^ (Z.min 16 (attempt + 1) - 1)) by (apply Z.pow_le_mono_r; lia).
  rewrite !Hf by lia. split_and!; [done|nia|lia|nia].
Qed.

Lemma retry_delay_ladder_witness : retry_delay 3 15000 900000 = 60000.
Proof. rewrite (proj1 (retry_delay_ladder 3 15000 900000 ltac:(lia) ltac:(by compute) ltac:(by compute))). reflexivity. Defined.

(** ** Concrete queues *)

Definition hook : new_endpoint :=
  NewEndpoint 7 s!"hook" s!"https://example.com/" s!"0123456789abcdef" [s!"page.published"; s!"webhook.*"] None.
Definition published : new_event (J := Z_number) := NewEvent s!"page.published" (Some 7) None None (VObject []).
Definition nobody : Z -> bool := fun _ => false.
Definition hook_row : webhook_endpoint :=
  WebhookEndpoint 1 7 s!"hook" s!"https://example.com/" s!"0123456789abcdef" [s!"page.published"; s!"webhook.*"]
    true None 0 0.
Definition off_row : webhook_endpoint := changed_endpoint 1 (EndpointChanges None None None (Some false) None) hook_row.

(** Two recorded events, each with one delivery for the one endpoint. *)
Definition hooked : list (queue_step (J := Z_number)) := [InsertEndpoint 0 1 hook].
Definition two_events : list (queue_step (J := Z_number)) :=
  hooked ++ [Emit 0 (fun k => 10 + Z.of_nat k) published; Emit 0 (fun k => 20 + Z.of_nat k) published].
Definition two_queue : queue := run_steps two_events empty_queue.

Definition no_job : delivery_job (J := Z_number) := DeliveryJob 0 0 [] [] [] 0 [] VNull None None None 0 0 0.
Definition taken (now batch : Z) (q : queue (J := Z_number)) : delivery_job * queue :=
  match claim_due now batch 120000 nobody q with Ok (j :: _, q') => (j, q') | _ => (no_job, q) end.

Definition job_a := (taken 5 1 two_queue).1.
Definition queue_a := (taken 5 1 two_queue).2.
Definition job_b := (taken 6 1 queue_a).1.

Definition show_id (id : Z) : str := show_Z id.
Definition refusal : sending := Sending (Refused (Some 500) s!"down") 10 130000 (fun k => 90 + Z.of_nat k).

(** Five claims, each abandoned; the first and the sixth runner then both come back. *)
Definition crashed : list (queue_step (J := Z_number)) := claims 4 5 120000 20.
Definition crashed_queue : queue := run_steps (two_events ++ crashed) empty_queue.
Definition last_job := (taken 480005 1 crashed_queue).1.
Definition overtaken : list (queue_step (J := Z_number)) :=
  [Claim 480005 1 120000 nobody; Claim 600005 1 120000 nobody;
   Send show_id default_config (taken 600005 1 (taken 480005 1 crashed_queue).2).1
     (Sending (Accepted 200) 10 600010 (fun k => Z.of_nat k + 50))].
Definition overtaken_queue : queue := run_steps overtaken crashed_queue.
Definition row_of (q : queue (J := Z_number)) (n : nat) : delivery := default (queued 0 0 0 0 []) (q_deliveries q !! n).

Lemma row_of_elem q n : is_given (q_deliveries q !! n) = true -> row_of q n ∈ q_deliveries q.
Proof.
  unfold row_of. destruct (q_deliveries q !! n) as [d|] eqn:E; [|done]. intros _. by apply list_elem_of_lookup_2 in E.
Qed.

(** The first runner's lease runs out and a second runner takes the delivery; the first then reports a
    refusal, and a third runner takes the delivery inside the second's lease. *)
Definition one_queue : queue := run_steps (hooked ++ [Emit 0 (fun k => 10 + Z.of_nat k) published]) empty_queue.
Definition first_job := (taken 5 1 one_queue).1.
Definition second_job := (taken 120005 1 (taken 5 1 one_queue).2).1.
Definition second_queue := (taken 120005 1 (taken 5 1 one_queue).2).2.
Definition stale_refusal : queue_step := Send show_id default_config first_job refusal.
Definition refused_late : list (queue_step (J := Z_number)) := [CancelDisabled 150000 120000; stale_refusal].
Definition third_job := (taken 200000 1 (run_steps refused_late second_queue)).1.
Example stale_refusal_hands_out_a_held_delivery :
  j_delivery_id first_job = 10 /\ j_delivery_id second_job = 10 /\ j_delivery_id third_job = 10 /\ 200000 < 120005 + 120000.
Proof. vm_compute. done. Qed.

Lemma taken_claim now batch q : match claim_due now batch 120000 nobody q with Ok ([_], _) => true | _ => false end = true ->
  claim_due now batch 120000 nobody q = Ok ([(taken now batch q).1], (taken now batch q).2).
Proof. unfold taken. destruct (claim_due _ _ _ _ _) as [[[|j [|]] q']|]; done. Qed.

Lemma lease_is_exclusive_witness :
  (exists s, s ∈ refused_late /\ settles (j_delivery_id second_job) s) /\ 200000 < 120005 + 120000.
Proof.
  split; [|lia].
  apply (lease_is_exclusive 120005 200000 1 1 120000 nobody nobody refused_late (taken 5 1 one_queue).2 second_queue
    (taken 200000 1 (run_steps refused_late second_queue)).2 [second_job] [third_job] second_job third_job).
  - apply (queue_stays_well_formed (hooked ++ [Emit 0 (fun k => 10 + Z.of_nat k) published; Claim 5 1 120000 nobody])).
  - apply taken_claim. vm_compute. reflexivity.
  - apply list_elem_of_here.
  - constructor; [cbn; lia|]. constructor; [|constructor]. intros k. change (90 + Z.of_nat k <> 10). lia.
  - lia.
  - apply taken_claim. vm_compute. reflexivity.
  - apply list_elem_of_here.
  - vm_compute. reflexivity.
Defined.

Lemma answered_claim_moves_on_witness :
  exists d', d' ∈ q_deliveries (answered show_id default_config job_a refusal queue_a)
    /\ dl_status d' = Pending /\ dl_next_attempt_at d' = 145000.
Proof.
  destruct (answered_claim_moves_on 5 1 120000 nobody show_id default_config two_queue queue_a [job_a] job_a refusal)
    as (d & d' & Hd & Hid & _ & Hd' & _ & _ & _ & Hs);
    [apply queue_stays_well_formed|reflexivity|by left|].
  exists d'. split; [done|].
  assert (E : d = row_of two_queue 0).
  { apply (row_unique two_queue); [apply queue_stays_well_formed|done|apply row_of_elem; vm_compute; reflexivity|]. rewrite Hid. reflexivity. }
  rewrite E in Hs. exact Hs.
Defined.

Lemma crash_loop_retries_for_ever_witness :
  exists d', d' ∈ q_deliveries (run_steps (claims 99 5 120000 20) two_queue)
    /\ dl_status d' = Pending /\ dl_max_attempts d' = 5 /\ dl_attempts d' = 99.
Proof.
  destruct (crash_loop_retries_for_ever 99 5 120000 20 two_queue (row_of two_queue 0)) as (d' & H1 & _ & H2 & H3 & H4);
    [apply queue_stays_well_formed|lia|apply row_of_elem; vm_compute; reflexivity|vm_compute; reflexivity|vm_compute; discriminate| |].
  - intros x Hx. assert (H : forallb (fun x => dl_attempts x + 99 <=? i32_max) (q_deliveries two_queue) = true)
      by (vm_compute; reflexivity).
    rewrite forallb_elem in H. specialize (H x Hx). apply Z.leb_le in H. exact H.
  - exists d'. by split_and!.
Defined.

Lemma stale_runner_overwrites_witness :
  dl_status (row_of overtaken_queue 0) = Delivered
  /\ exists d', d' ∈ q_deliveries (answered show_id default_config last_job refusal overtaken_queue)
       /\ dl_id d' = 10 /\ dl_status d' = Failed.
Proof.
  split; [reflexivity|].
  destruct (stale_runner_overwrites show_id default_config last_job refusal (Some 500) s!"down" overtaken_queue
    (row_of overtaken_queue 0)) as (d' & H1 & H2 & H3); [apply row_of_elem; vm_compute; reflexivity|vm_compute; reflexivity|vm_compute; reflexivity|reflexivity|vm_compute; discriminate|].
  exists d'. by split_and!.
Defined.

Lemma emit_queues_each_subscriber_witness :
  match emit 9 (fun k => Z.of_nat k + 30) published (run_steps hooked empty_queue) with
  | Ok (r, q') => er_deliveries r = 1%nat
  | Err _ => False
  end.
Proof.
  destruct (emit 9 (fun k => Z.of_nat k + 30) published (run_steps hooked empty_queue)) as [[r q']|] eqn:E.
  2: { apply (f_equal is_ok) in E. vm_compute in E. discriminate E. }
  destruct (emit_queues_each_subscriber _ _ _ _ _ _ (queue_stays_well_formed hooked) E)
    as (added & _ & -> & _ & _ & Hp & _). apply (f_equal length) in Hp. rewrite length_fmap in Hp. rewrite Hp.
  simpl ne_organization_id. cbv iota beta. rewrite length_fmap. reflexivity.
Defined.

Lemma giving_up_requeues_the_same_endpoint_witness :
  exists d, d ∈ q_deliveries (answered show_id default_config last_job refusal crashed_queue)
    /\ dl_endpoint_id d = 1 /\ dl_status d = Pending.
Proof.
  destruct (giving_up_requeues_the_same_endpoint show_id default_config last_job refusal (Some 500) s!"down"
    crashed_queue hook_row 7) as (d & H1 & H2 & H3 & _).
  - unfold crashed_queue. apply queue_stays_well_formed.
  - apply (list_elem_of_lookup_2 _ 0). vm_compute. reflexivity.
  - vm_compute. reflexivity.
  - vm_compute. reflexivity.
  - vm_compute. reflexivity.
  - reflexivity.
  - vm_compute. discriminate.
  - intros k d Hd. assert (H : forallb (fun d => dl_id d <? 90) (q_deliveries crashed_queue) = true) by (vm_compute; reflexivity).
    rewrite forallb_elem in H. specialize (H d Hd). apply Z.ltb_lt in H. simpl. lia.
  - simpl. lia.
  - exists d. by split_and!.
Defined.

Lemma test_of_a_disabled_endpoint_is_not_sent_witness :
  match emit_to 9 (fun k => Z.of_nat k + 30) published [1]
      (run_steps (hooked ++ [UpdateEndpoint 1 1 (EndpointChanges None None None (Some false) None)]) empty_queue) with
  | Ok (r, q') => exists d, d ∈ q_deliveries (cancel_pending_for_disabled 10 120000 q').2 /\ dl_status d = Failed
  | Err _ => False
  end.
Proof.
  set (q := run_steps _ empty_queue).
  destruct (emit_to 9 (fun k => Z.of_nat k + 30) published [1] q) as [[r q']|] eqn:E.
  2: { apply (f_equal is_ok) in E. vm_compute in E. discriminate E. }
  destruct (test_of_a_disabled_endpoint_is_not_sent 9 10 120000 20 (fun k => Z.of_nat k + 30) nobody published q q' r
    off_row) as (_ & d & Hd & _ & _ & Hs & _); [apply queue_stays_well_formed|apply (list_elem_of_lookup_2 _ 0); vm_compute; reflexivity|done|exact E|].
  exists d. by split.
Defined.

(** A gap: the stored list is checked where the typed one was bounded. Three selections of
    groups pass the limit of 32 the code applies to what the operator typed, and the expanded list
    is then refused by the limit of 32 the table still has on what is stored. *)
Theorem expanded_groups_overflow_the_table (now id : Z) (name url secret : str) :
  match reconcile [s!"media.*"; s!"iam.*"; s!"webhook.*"] with
  | Ok stored => insert_endpoint (J := Z_number) now id (NewEndpoint 7 name url secret stored None) empty_queue = Err EventsStore
  | Err _ => False
  end.
Proof.
  destruct (reconcile _) as [stored|] eqn:E; [|by vm_compute in E].
  assert (H : (length stored <=? MAX_ENTRIES)%nat = false).
  { assert (H' : match reconcile [s!"media.*"; s!"iam.*"; s!"webhook.*"] with
      | Ok l => (length l <=? MAX_ENTRIES)%nat | Err _ => true end = false) by (vm_compute; reflexivity).
    by rewrite E in H'. }
  unfold insert_endpoint, schema_endpoint. simpl nw_events. cbn [ep_events]. by rewrite H, andb_false_r.
Qed.
