(* ===== verification/Rules.v ===== *)
(** * Automation rules: [crates/automation/src/condition.rs], [binding.rs], [model.rs]

    What an event payload must satisfy for a rule to fire, the placeholders an action's parameters
    carry, and the checks a rule passes before it is stored. Messages are dropped, codes kept. *)

From S2P Require Import Prelude Json Events Cron Definitions WorkflowStore.

Inductive automation_error :=
| AutomationDatabase
| AutomationWorkflows (e : workflow_error)
| AutomationAudit
| AutomationInvalid (code : str).

Definition invalid_conditions : automation_error := AutomationInvalid s!"invalid_conditions".
Definition invalid_binding : automation_error := AutomationInvalid s!"invalid_binding".

(** ** Conditions *)

Inductive condition_operator :=
| Equals | NotEquals | Contains | NotContains | StartsWith | EndsWith | In | Exists | NotExists.
#[export] Instance condition_operator_eq_dec : EqDecision condition_operator.
Proof. solve_decision. Defined.

Definition condition_operators : list condition_operator :=
  [Equals; NotEquals; Contains; NotContains; StartsWith; EndsWith; In; Exists; NotExists].

Definition condition_operator_as_str (o : condition_operator) : str :=
  match o with
  | Equals => s!"equals" | NotEquals => s!"not_equals" | Contains => s!"contains"
  | NotContains => s!"not_contains" | StartsWith => s!"starts_with" | EndsWith => s!"ends_with"
  | In => s!"in" | Exists => s!"exists" | NotExists => s!"not_exists"
  end.
Definition condition_operator_parse (raw : str) : option condition_operator :=
  List.find (fun o => str_eqb (condition_operator_as_str o) raw) condition_operators.
Definition needs_value (o : condition_operator) : bool :=
  match o with Exists | NotExists => false | _ => true end.
Definition is_text_operator (o : condition_operator) : bool :=
  match o with Contains | NotContains | StartsWith | EndsWith => true | _ => false end.

Definition MAX_FIELD_SEGMENTS : nat := 5.
Definition MAX_FIELD_SEGMENT : nat := 64.
Definition MAX_COMPARISON_TEXT : nat := 512.

Section Rules.
Context `{J : JsonNumber}.

Record condition := Condition {
  cond_field : str;
  cond_operator : condition_operator;
  cond_value : option value
}.

(** [current.get(segment)?] along a path. *)
Fixpoint get_path (current : value) (segments : list str) : option value :=
  match segments with
  | [] => Some current
  | segment :: rest => get segment current ≫= fun next => get_path next rest
  end.

Definition resolve_field (payload : value) (field : str) : option value :=
  get_path payload (split_on c!"." field).

Definition text_compare (found wanted : option value) (predicate : str -> str -> bool) : bool :=
  match found ≫= as_str, wanted ≫= as_str with
  | Some found, Some wanted => predicate found wanted
  | _, _ => false
  end.

Definition holds (c : condition) (payload : value) : bool :=
  let found := resolve_field payload (cond_field c) in
  match cond_operator c with
  | Exists => match found with Some v => negb (is_null v) | None => false end
  | NotExists => match found with Some v => is_null v | None => true end
  | Equals => match found, cond_value c with Some f, Some w => value_eqb f w | _, _ => false end
  | NotEquals => match found, cond_value c with Some f, Some w => negb (value_eqb f w) | _, _ => false end
  | Contains => text_compare found (cond_value c) contains_sub
  | NotContains => text_compare found (cond_value c) (fun h n => negb (contains_sub h n))
  | StartsWith => text_compare found (cond_value c) starts_with
  | EndsWith => text_compare found (cond_value c) ends_with
  | In => match found, cond_value c with
          | Some f, Some (VArray values) => existsb (fun v => value_eqb v f) values
          | _, _ => false
          end
  end.

Definition all_hold (conditions : list condition) (payload : value) : bool :=
  forallb (fun c => holds c payload) conditions.

Definition field_segment_ok (segment : str) : bool :=
  negb (str_eqb segment []) && (utf8_len segment <=? MAX_FIELD_SEGMENT)%nat
  && match segment with c :: _ => is_ascii_alphabetic c || (c =? c!"_")%N | [] => false end
  && forallb (fun c => is_ascii_alphanumeric c || (c =? c!"_")%N) segment.

Definition validate_field (field : str) : result unit automation_error :=
  let trimmed := trim field in
  refuse str_eqb trimmed [] with invalid_conditions in
  let segments := split_on c!"." trimmed in
  refuse (MAX_FIELD_SEGMENTS <? length segments)%nat with invalid_conditions in
  require forallb field_segment_ok segments else invalid_conditions in
  Ok tt.

Definition validate_condition (c : condition) : result unit automation_error :=
  let? _ := validate_field (cond_field c) in
  let o := cond_operator c in
  refuse needs_value o && negb (is_given (cond_value c)) with invalid_conditions in
  refuse negb (needs_value o) && is_given (cond_value c) with invalid_conditions in
  let? _ :=
    match is_text_operator o, cond_value c with
    | true, Some v =>
        match as_str v with
        | Some text => if (length text <=? MAX_COMPARISON_TEXT)%nat then Ok tt else Err invalid_conditions
        | None => Err invalid_conditions
        end
    | _, _ => Ok tt
    end in
  match o with
  | In => match cond_value c with Some (VArray (_ :: _)) => Ok tt | _ => Err invalid_conditions end
  | _ => Ok tt
  end.

Fixpoint validate_each (conditions : list condition) : result unit automation_error :=
  match conditions with
  | [] => Ok tt
  | c :: rest => let? _ := validate_condition c in validate_each rest
  end.

(** [condition::validate] *)
Definition validate_condition_list (conditions : list condition) : result unit automation_error :=
  refuse (MAX_CONDITIONS <? length conditions)%nat with invalid_conditions in
  validate_each conditions.

(** ** Bindings *)

Definition OPEN : str := s!"{{".
Definition CLOSE : str := s!"}}".
Definition MAX_EXPRESSION : nat := 160.

(** [text.rfind(needle)] *)
Definition rfind_sub (text needle : str) : option nat :=
  (fun k => length text - length needle - k)%nat <$> find_sub (rev text) (rev needle).

(** The loop of [expressions]; each iteration consumes a placeholder, so the text's length is
    fuel enough. *)
Fixpoint expressions_loop (fuel : nat) (rest : str) : result (list str) automation_error :=
  match fuel with
  | O => Ok []
  | S fuel =>
      match find_sub rest OPEN with
      | None => Ok []
      | Some start =>
          let after := drop (start + length OPEN) rest in
          match find_sub after CLOSE with
          | None => Err invalid_binding
          | Some stop =>
              let expression := trim (take stop after) in
              refuse str_eqb expression [] with invalid_binding in
              refuse (MAX_EXPRESSION <? utf8_len expression)%nat with invalid_binding in
              refuse contains_char c!"{" expression || contains_char c!"}" expression with invalid_binding in
              let? more := expressions_loop fuel (drop (stop + length CLOSE) after) in
              Ok (expression :: more)
          end
      end
  end.
Definition expressions (text : str) : result (list str) automation_error :=
  expressions_loop (S (length text)) text.

(** [event.field.field] read out of the payload. *)
Definition binding_lookup (payload : value) (expression : str) : result value automation_error :=
  let? stripped := ok_or (strip_prefix expression s!"event.") invalid_binding in
  let field := trim stripped in
  refuse str_eqb field [] with invalid_binding in
  ok_or (get_path payload (split_on c!"." field)) invalid_binding.

Section Resolve.
(** [Value]'s [Display]: the compact JSON text. *)
Context (to_text : value -> str).

Definition display (v : value) : str :=
  match v with VString text => text | VNull => [] | other => to_text other end.

(** Mixed text: every placeholder is rendered and spliced in, left to right. *)
Fixpoint render (fuel : nat) (payload : value) (rest rendered : str) : result str automation_error :=
  match fuel with
  | O => Ok (rendered ++ rest)
  | S fuel =>
      match find_sub rest OPEN with
      | None => Ok (rendered ++ rest)
      | Some start =>
          match find_sub (drop start rest) CLOSE with
          | None => Err invalid_binding
          | Some stop =>
              let finish := (start + stop + length CLOSE)%nat in
              let inner := take (finish - length CLOSE - (start + length OPEN)) (drop (start + length OPEN) rest) in
              let? v := binding_lookup payload (trim inner) in
              render fuel payload (drop finish rest) (rendered ++ take start rest ++ display v)
          end
      end
  end.

Definition resolve_text (text : str) (payload : value) : result value automation_error :=
  let? found := expressions text in
  let mixed := let? rendered := render (S (length text)) payload text [] in Ok (VString rendered) in
  match found with
  | [] => Ok (VString text)
  | [expression] =>
      let start := default 0%nat (find_sub text OPEN) in
      let finish := (default 0 (rfind_sub text CLOSE) + length CLOSE)%nat in
      if (start =? 0)%nat && (finish =? length text)%nat then binding_lookup payload expression else mixed
  | _ => mixed
  end.

Fixpoint resolve (v payload : value) : result value automation_error :=
  let fix resolve_items (l : list value) : result (list value) automation_error :=
    match l with
    | [] => Ok []
    | x :: l' => let? y := resolve x payload in let? ys := resolve_items l' in Ok (y :: ys)
    end in
  let fix resolve_entries (m resolved : list (str * value)) : result (list (str * value)) automation_error :=
    match m with
    | [] => Ok resolved
    | (k, x) :: m' => let? y := resolve x payload in resolve_entries m' (obj_insert k y resolved)
    end in
  match v with
  | VString text => resolve_text text payload
  | VArray items => let? items := resolve_items items in Ok (VArray items)
  | VObject map => let? map := resolve_entries map [] in Ok (VObject map)
  | other => Ok other
  end.

Definition resolve_params (params payload : value) : result value automation_error := resolve params payload.
End Resolve.

(** [trim_start_matches("event.")]: the prefix, as often as it repeats. *)
Fixpoint trim_start_matches (fuel : nat) (s prefix : str) : str :=
  match fuel with
  | O => s
  | S fuel => match strip_prefix s prefix with Some rest => trim_start_matches fuel rest prefix | None => s end
  end.

Fixpoint check_expressions (found : list str) : result unit automation_error :=
  match found with
  | [] => Ok tt
  | expression :: rest =>
      require starts_with expression s!"event" else invalid_binding in
      refuse str_eqb expression s!"event" with invalid_binding in
      let field := trim_start_matches (length expression) expression s!"event." in
      refuse str_eqb (trim field) [] with invalid_binding in
      check_expressions rest
  end.

(** [walk] with the check of [validate_bindings]. *)
Fixpoint validate_bindings (v : value) : result unit automation_error :=
  let fix walk_items (l : list value) : result unit automation_error :=
    match l with
    | [] => Ok tt
    | x :: l' => let? _ := validate_bindings x in walk_items l'
    end in
  let fix walk_entries (m : list (str * value)) : result unit automation_error :=
    match m with
    | [] => Ok tt
    | (_, x) :: m' => let? _ := validate_bindings x in walk_entries m'
    end in
  match v with
  | VString text => let? found := expressions text in check_expressions found
  | VArray items => walk_items items
  | VObject map => walk_entries map
  | _ => Ok tt
  end.

(** ** The rule and the definition it becomes *)

Definition MAX_NAME : nat := 80.
Definition MAX_DESCRIPTION : nat := 400.

Record automation_rule := AutomationRule {
  ru_id : Z;
  ru_organization_id : Z;
  ru_site_id : option Z;
  ru_name : str;
  ru_description : str;
  ru_enabled : bool;
  ru_event : str;
  ru_conditions : list condition;
  ru_actions : list step_definition;
  ru_trigger_count : Z;
  ru_last_triggered_at : option Z;
  ru_created_at : Z;
  ru_updated_at : Z
}.

(** [Workflow::trigger] *)
Definition workflow_trigger (w : workflow) : trigger_kind :=
  default Manual (trigger_kind_parse (w_trigger_kind w)).

Definition rule_unreadable : automation_error := AutomationInvalid s!"rule_unreadable".

(** serde's side: the readers its derive macros generate and the compact JSON text of a value. *)
Class StoredJson := {
  read_conditions : value -> option (list condition);
  read_steps : value -> result (list step_definition) workflow_error;
  json_text : value -> str
}.

Definition from_workflow `{StoredJson} (w : workflow) : result (option automation_rule) automation_error :=
  match workflow_trigger w with
  | Event =>
      let? event := ok_or (w_trigger_event w) rule_unreadable in
      let? conditions := ok_or (read_conditions (w_conditions w)) rule_unreadable in
      match read_steps (w_steps w) with
      | Err e => Err (AutomationWorkflows e)
      | Ok actions =>
          Ok (Some (AutomationRule (w_id w) (w_organization_id w) (w_site_id w) (w_name w)
            (w_description w) (w_enabled w) event conditions actions (w_trigger_count w)
            (w_last_triggered_at w) (w_created_at w) (w_updated_at w)))
      end
  | _ => Ok None
  end.

Definition validate_event (raw : str) : result str automation_error :=
  match validate_event_name raw with Ok name => Ok name | Err _ => Err (AutomationInvalid s!"invalid_event") end.

Definition validate_name (raw : str) : result str automation_error :=
  let name := trim raw in
  refuse str_eqb name [] with AutomationInvalid s!"invalid_name" in
  refuse (MAX_NAME <? length name)%nat with AutomationInvalid s!"invalid_name" in
  Ok name.

Definition validate_description (raw : str) : result str automation_error :=
  let description := trim raw in
  refuse (MAX_DESCRIPTION <? length description)%nat with AutomationInvalid s!"invalid_description" in
  Ok description.

(** [condition::to_json] *)
Definition condition_json (c : condition) : value :=
  VObject ([(s!"field", VString (cond_field c));
            (s!"operator", VString (condition_operator_as_str (cond_operator c)))]
           ++ match cond_value c with Some v => [(s!"value", v)] | None => [] end).

Fixpoint validate_actions (actions : list step_definition) : result unit automation_error :=
  match actions with
  | [] => Ok tt
  | a :: rest => let? _ := validate_bindings (sd_params a) in validate_actions rest
  end.

Definition from_workflow_error {A} (r : result A workflow_error) : result A automation_error :=
  match r with Ok a => Ok a | Err e => Err (AutomationWorkflows e) end.

Definition event_trigger (event : str) : trigger := Trigger Event None (Some event).

Definition build_definition `{Cal : Calendar} (now : Z) (event : str) (conditions : list condition)
  (actions : list step_definition) : result workflow_definition automation_error :=
  let? event := validate_event event in
  let? _ := validate_condition_list conditions in
  let? _ := validate_actions actions in
  let first := WorkflowDefinition (event_trigger event) [] actions in
  let? _ := from_workflow_error (definition_validate first now) in
  let definition := WorkflowDefinition (event_trigger event) (condition_json <$> conditions) actions in
  let? _ := from_workflow_error (definition_validate definition now) in
  Ok definition.

Record new_rule := NewRule {
  nr_name : str;
  nr_description : str;
  nr_enabled : bool;
  nr_site_id : option Z;
  nr_event : str;
  nr_conditions : list condition;
  nr_actions : list step_definition
}.

Definition new_rule_definition `{Cal : Calendar} (now : Z) (r : new_rule) :
  result workflow_definition automation_error :=
  let? _ := validate_name (nr_name r) in
  let? _ := validate_description (nr_description r) in
  build_definition now (nr_event r) (nr_conditions r) (nr_actions r).

Definition rule_definition `{Cal : Calendar} (now : Z) (r : automation_rule) :
  result workflow_definition automation_error :=
  build_definition now (ru_event r) (ru_conditions r) (ru_actions r).

(** ** Templates: what the text of a parameter means *)

(** Literal text and the inside of a placeholder, alternating; then the text after the last. *)
Definition template : Type := list (str * str).
Definition print_template (t : template) (tail : str) : str :=
  concat ((fun piece => piece.1 ++ OPEN ++ piece.2 ++ CLOSE) <$> t) ++ tail.

Definition well_formed_piece (piece : str * str) : bool :=
  negb (contains_char c!"{" piece.1)
  && negb (contains_char c!"{" piece.2) && negb (contains_char c!"}" piece.2)
  && negb (str_eqb (trim piece.2) []) && (utf8_len (trim piece.2) <=? MAX_EXPRESSION)%nat.

(** Every placeholder replaced by the text of the field it names. *)
Fixpoint fill (to_text : value -> str) (payload : value) (t : template) (tail : str) : result str automation_error :=
  match t with
  | [] => Ok tail
  | (text, inner) :: rest =>
      let? v := binding_lookup payload (trim inner) in
      let? filled := fill to_text payload rest tail in
      Ok (text ++ display to_text v ++ filled)
  end.

(** A payload that carries [v] at a path. *)
Fixpoint nest (segments : list str) (v : value) : value :=
  match segments with
  | [] => v
  | segment :: rest => VObject [(segment, nest rest v)]
  end.

(** ** Searching *)


Lemma starts_with_length s p : starts_with s p = true -> (length p <= length s)%nat.
Proof.
  revert s. induction p as [|c p IH]; intros [|d s]; simpl; try done; [lia..|].
  intros [_ H]%andb_true_iff. apply IH in H. lia.
Qed.

Lemma find_sub_first c needle l r :
  contains_char c l = false -> find_sub (l ++ (c :: needle) ++ r) (c :: needle) = Some (length l).
Proof.
  unfold contains_char. induction l as [|x l IH]; intros H.
  - pose proof (starts_with_app (c :: needle) r) as E. cbn [app] in *. cbn [find_sub]. by rewrite E.
  - simpl in H. apply orb_false_iff in H as [Hx H]. simpl. rewrite Hx. simpl. cbn [app] in IH. by rewrite (IH H).
Qed.

Lemma find_sub_none c needle l : contains_char c l = false -> find_sub l (c :: needle) = None.
Proof.
  unfold contains_char. induction l as [|x l IH]; intros H; simpl; [done|].
  simpl in H. apply orb_false_iff in H as [-> H]. by rewrite (IH H).
Qed.

Lemma find_sub_bound s needle k : find_sub s needle = Some k -> (k + length needle <= length s)%nat.
Proof.
  revert k. induction s as [|c s IH]; intros k; cbn [find_sub].
  - destruct (starts_with [] needle) eqn:E; [|done]. intros [= <-]. by apply starts_with_length in E.
  - destruct (starts_with (c :: s) needle) eqn:E.
    + intros [= <-]. by apply starts_with_length in E.
    + destruct (find_sub s needle) as [j|]; [|done]. simpl. intros [= <-]. specialize (IH j eq_refl). lia.
Qed.

Lemma find_sub_zero s needle : (find_sub s needle = Some 0%nat) <-> starts_with s needle = true.
Proof.
  destruct s as [|c s]; cbn [find_sub]; destruct (starts_with _ needle); split; try done.
  by destruct (find_sub s needle).
Qed.

Lemma contains_char_app c l r : contains_char c (l ++ r) = contains_char c l || contains_char c r.
Proof. unfold contains_char. apply existsb_app. Qed.

Lemma rfind_at_end s needle :
  (length needle < length s)%nat ->
  ((default 0 (rfind_sub s needle) + length needle) =? length s)%nat = ends_with s needle.
Proof.
  intros Hlt. unfold rfind_sub, ends_with. destruct (find_sub (rev s) (rev needle)) as [k|] eqn:E; simpl.
  - pose proof (find_sub_bound _ _ _ E) as Hb. rewrite !length_rev in Hb.
    destruct (starts_with _ _) eqn:Es.
    + apply find_sub_zero in Es. rewrite Es in E. injection E as <-. apply Nat.eqb_eq. lia.
    + apply Nat.eqb_neq. assert (k <> 0%nat); [|lia]. intros ->. apply find_sub_zero in E. by rewrite E in Es.
  - destruct (starts_with _ _) eqn:Es; [apply find_sub_zero in Es; by rewrite Es in E|]. apply Nat.eqb_neq. lia.
Qed.

Lemma drop_exact {A} (l r : list A) n : n = length l -> drop n (l ++ r) = r.
Proof. intros ->. apply drop_app_length. Qed.
Lemma take_exact {A} (l r : list A) n : n = length l -> take n (l ++ r) = l.
Proof. intros ->. apply take_app_length. Qed.

(** ** Scanning terminates *)

Lemma expressions_fuel fuel rest :
  (length rest < fuel)%nat -> expressions_loop fuel rest = expressions_loop (S (length rest)) rest.
Proof.
  revert rest. assert (H : forall n f1 f2 rest, (length rest < n)%nat -> (length rest < f1)%nat -> (length rest < f2)%nat ->
    expressions_loop f1 rest = expressions_loop f2 rest); [|intros rest Hf; apply (H (S (length rest))); lia].
  induction n as [|n IH]; intros [|f1] [|f2] rest Hn H1 H2; try lia. cbn [expressions_loop].
  destruct (find_sub rest OPEN) as [k|] eqn:Eo; [|done]. pose proof (find_sub_bound _ _ _ Eo) as Hk.
  destruct (find_sub (drop _ rest) CLOSE) as [j|] eqn:Ec; [|done].
  assert (Hl : (length (drop (j + length CLOSE) (drop (k + length OPEN) rest)) < length rest)%nat).
  { rewrite !length_drop. change (length OPEN) with 2%nat in *. lia. }
  rewrite (IH f1 f2) by lia. done.
Qed.

Lemma render_fuel to_text fuel payload rest rendered :
  (length rest < fuel)%nat ->
  render to_text fuel payload rest rendered = render to_text (S (length rest)) payload rest rendered.
Proof.
  revert rest rendered. assert (H : forall n f1 f2 rest rendered, (length rest < n)%nat -> (length rest < f1)%nat ->
    (length rest < f2)%nat -> render to_text f1 payload rest rendered = render to_text f2 payload rest rendered);
    [|intros rest rendered Hf; apply (H (S (length rest))); lia].
  induction n as [|n IH]; intros [|f1] [|f2] rest rendered Hn H1 H2; try lia. cbn [render].
  destruct (find_sub rest OPEN) as [k|] eqn:Eo; [|done]. pose proof (find_sub_bound _ _ _ Eo) as Hk.
  destruct (find_sub (drop _ rest) CLOSE) as [j|] eqn:Ec; [|done].
  destruct (binding_lookup payload _) as [v|]; [|done]. simpl.
  apply IH; rewrite length_drop; change (length OPEN) with 2%nat in *; lia.
Qed.

(** The two scans of a parameter's text terminate: each placeholder found leaves less text
    behind it, so any fuel above the text's length runs both loops to their own end, and more
    fuel never changes the answer. *)
Theorem placeholder_scans_terminate (to_text : value -> str) (fuel : nat) (payload : value) (text rendered : str) :
  (length text < fuel)%nat ->
  expressions_loop fuel text = expressions text
  /\ render to_text fuel payload text rendered = render to_text (S (length text)) payload text rendered.
Proof. intros H. split; [by apply expressions_fuel|by apply render_fuel]. Qed.

(** ** What a template resolves to *)

Lemma well_formed_pieceE text inner :
  well_formed_piece (text, inner) = true ->
  contains_char c!"{" text = false /\ contains_char c!"{" inner = false /\ contains_char c!"}" inner = false
  /\ trim inner <> [] /\ (utf8_len (trim inner) <= MAX_EXPRESSION)%nat.
Proof. unfold well_formed_piece. simpl. bool_prop. tauto. Qed.

Lemma print_template_cons text inner t tail :
  print_template ((text, inner) :: t) tail = text ++ OPEN ++ inner ++ CLOSE ++ print_template t tail.
Proof. unfold print_template. rewrite fmap_cons. cbn [concat fst snd]. by rewrite <- !app_assoc. Qed.

Lemma trim_keeps_clear c s : contains_char c s = false -> contains_char c (trim s) = false.
Proof.
  assert (Hs : forall l, contains_char c l = false -> contains_char c (trim_start_by is_whitespace l) = false).
  { induction l as [|x l IH]; simpl; [done|]. intros H. destruct (is_whitespace x); [|done].
    apply IH. unfold contains_char in *. simpl in H. by apply orb_false_iff in H as [_ H]. }
  assert (Hr : forall l, contains_char c (rev l) = contains_char c l).
  { intros l. induction l as [|x l IH]; [done|]. simpl. rewrite contains_char_app, IH. unfold contains_char. simpl.
    rewrite orb_false_r. apply orb_comm. }
  intros H. unfold trim, trim_end_by. rewrite Hr. apply Hs. rewrite Hr. by apply Hs.
Qed.

Lemma open_print text inner t tail :
  contains_char c!"{" text = false ->
  find_sub (print_template ((text, inner) :: t) tail) OPEN = Some (length text).
Proof. intros H. rewrite print_template_cons. by apply (find_sub_first c!"{" s!"{"). Qed.

Lemma expressions_template t tail :
  forallb well_formed_piece t = true -> contains_char c!"{" tail = false ->
  expressions (print_template t tail) = Ok ((fun piece => trim piece.2) <$> t).
Proof.
  intros Ht Htail. unfold expressions. induction t as [|[text inner] t IH].
  { cbn [expressions_loop]. unfold OPEN. change (print_template [] tail) with tail.
    by rewrite (find_sub_none c!"{" s!"{"). }
  simpl in Ht. apply andb_true_iff in Ht as [(H1 & H2 & H3 & H4 & H5)%well_formed_pieceE Ht]. specialize (IH Ht).
  cbn [expressions_loop]. rewrite open_print, print_template_cons by done.
  rewrite app_assoc, (drop_exact (text ++ OPEN)) by (by rewrite length_app).
  pose proof (find_sub_first c!"}" s!"}" inner (print_template t tail) H3) as Hc.
  change (c!"}" :: s!"}") with CLOSE in Hc. rewrite Hc, take_exact by done.
  apply str_eqb_neq in H4. rewrite H4. apply Nat.leb_le in H5. rewrite Nat.ltb_antisym, H5. cbn [negb].
  rewrite !trim_keeps_clear by done. cbn [orb].
  rewrite (app_assoc inner), (drop_exact (inner ++ CLOSE)) by (by rewrite length_app).
  rewrite expressions_fuel by (rewrite !length_app; change (length OPEN) with 2%nat; lia). by rewrite IH.
Qed.

Lemma render_template to_text payload t tail rendered :
  forallb well_formed_piece t = true -> contains_char c!"{" tail = false ->
  render to_text (S (length (print_template t tail))) payload (print_template t tail) rendered
  = (let? filled := fill to_text payload t tail in Ok (rendered ++ filled)).
Proof.
  intros Ht Htail. revert rendered. induction t as [|[text inner] t IH]; intros rendered.
  { cbn [render]. change (print_template [] tail) with tail. unfold OPEN. by rewrite (find_sub_none c!"{" s!"{"). }
  simpl in Ht. apply andb_true_iff in Ht as [(H1 & H2 & H3 & H4 & H5)%well_formed_pieceE Ht]. specialize (IH Ht).
  cbn [render]. rewrite open_print, print_template_cons by done. rewrite (drop_exact text) by done.
  assert (Hc : find_sub (OPEN ++ inner ++ CLOSE ++ print_template t tail) CLOSE = Some (2 + length inner)%nat).
  { rewrite app_assoc. apply (find_sub_first c!"}" s!"}"). by rewrite contains_char_app, H3. }
  rewrite Hc. change (length CLOSE) with 2%nat. change (length OPEN) with 2%nat.
  replace (take (length text + (2 + length inner) + 2 - 2 - (length text + 2)) _) with inner.
  2: { rewrite app_assoc, (drop_exact (text ++ OPEN)) by (by rewrite length_app). rewrite take_exact; [done|lia]. }
  cbn [fill]. destruct (binding_lookup payload (trim inner)) as [v|]; [|done]. cbn [result_bind].
  rewrite take_exact by done.
  replace (drop _ _) with (print_template t tail).
  2: { rewrite !app_assoc. rewrite <- (app_assoc _ CLOSE). rewrite app_assoc. symmetry. apply drop_exact.
       rewrite !length_app. change (length CLOSE) with 2%nat. change (length OPEN) with 2%nat. lia. }
  rewrite render_fuel by (rewrite !length_app; change (length OPEN) with 2%nat; lia). rewrite IH.
  destruct (fill to_text payload t tail); [|done]. simpl. by rewrite <- !app_assoc.
Qed.

(** What a parameter's text means: text without a placeholder is kept; text that starts with
    its only placeholder and ends with its closing braces becomes the field's value with its type;
    anything else becomes text, each placeholder replaced by its field. Any missing field fails. *)
Theorem resolve_text_meaning (to_text : value -> str) (payload : value) (t : template) (tail : str) :
  forallb well_formed_piece t = true -> contains_char c!"{" tail = false ->
  resolve_text to_text (print_template t tail) payload
  = match t with
    | [] => Ok (VString tail)
    | [([], inner)] =>
        if ends_with (print_template t tail) CLOSE then binding_lookup payload (trim inner)
        else let? filled := fill to_text payload t tail in Ok (VString filled)
    | _ => let? filled := fill to_text payload t tail in Ok (VString filled)
    end.
Proof.
  intros Ht Htail. unfold resolve_text. rewrite expressions_template by done. cbn [result_bind].
  rewrite render_template by done. set (mixed := result_bind (result_bind _ _) _).
  assert (Hm : mixed = (let? filled := fill to_text payload t tail in Ok (VString filled))).
  { unfold mixed. by destruct (fill to_text payload t tail). }
  destruct t as [|[text inner] [|p t]]; [done| |by destruct text].
  simpl in Ht. rewrite andb_true_r in Ht. apply well_formed_pieceE in Ht as (H1 & _).
  cbn [fmap list_fmap snd]. rewrite open_print by done. simpl (default _ _).
  assert (Hlen : (length CLOSE < length (print_template [(text, inner)] tail))%nat).
  { rewrite print_template_cons, !length_app. simpl. lia. }
  rewrite rfind_at_end by done. destruct text as [|c text]; [|by rewrite Hm].
  simpl. destruct (ends_with _ _); [done|by rewrite Hm].
Qed.

(** ** What an accepted condition can do *)

Lemma get_path_nest segments v : get_path (nest segments v) segments = Some v.
Proof. induction segments as [|k l IH]; simpl; [done|]. by rewrite str_eqb_refl. Qed.

Lemma contains_sub_prefix s p : starts_with s p = true -> contains_sub s p = true.
Proof. intros H%find_sub_zero. unfold contains_sub. by rewrite H. Qed.

(** What a condition asks of a payload, operator by operator. *)
Definition meets (c : condition) (payload : value) : Prop :=
  let found := resolve_field payload (cond_field c) in
  let texts (R : str -> str -> Prop) :=
    exists h n, found = Some (VString h) /\ cond_value c = Some (VString n) /\ R h n in
  match cond_operator c with
  | Exists => exists v, found = Some v /\ v <> VNull
  | NotExists => ~ exists v, found = Some v /\ v <> VNull
  | Equals => exists f w, found = Some f /\ cond_value c = Some w /\ value_eqb f w = true
  | NotEquals => exists f w, found = Some f /\ cond_value c = Some w /\ value_eqb f w = false
  | Contains => texts (fun h n => exists l r, h = l ++ n ++ r)
  | NotContains => texts (fun h n => ~ exists l r, h = l ++ n ++ r)
  | StartsWith => texts (fun h n => exists r, h = n ++ r)
  | EndsWith => texts (fun h n => exists l, h = l ++ n)
  | In => exists f vs v, found = Some f /\ cond_value c = Some (VArray vs) /\ v ∈ vs /\ value_eqb v f = true
  end.

Lemma text_compare_iff found wanted (p : str -> str -> bool) (R : str -> str -> Prop) :
  (forall h n, p h n = true <-> R h n) ->
  text_compare found wanted p = true <-> exists h n, found = Some (VString h) /\ wanted = Some (VString n) /\ R h n.
Proof.
  intros HR. unfold text_compare. split.
  - destruct found as [[| | |t1| |]|], wanted as [[| | |t2| |]|]; try done. intros H. exists t1, t2. by rewrite <- HR.
  - intros (h & n & -> & -> & H). by apply HR.
Qed.

(** A condition holds exactly when the payload meets it. *)
Theorem holds_meets (c : condition) (payload : value) : holds c payload = true <-> meets c payload.
Proof.
  unfold holds, meets. set (found := resolve_field _ _). destruct (cond_operator c).
  - destruct found as [f|], (cond_value c) as [w|]; naive_solver.
  - destruct found as [f|], (cond_value c) as [w|]; try naive_solver.
    rewrite negb_true_iff. naive_solver.
  - apply text_compare_iff. intros h n. apply contains_sub_iff.
  - apply text_compare_iff. intros h n. by rewrite negb_true_iff, <- not_true_iff_false, contains_sub_iff.
  - apply text_compare_iff. intros h n. apply starts_with_iff.
  - apply text_compare_iff. intros h n. apply ends_with_iff.
  - destruct found as [f|], (cond_value c) as [[| | | |vs|]|]; try naive_solver.
    rewrite existsb_elem. naive_solver.
  - destruct found as [[]|]; naive_solver.
  - destruct found as [[]|]; naive_solver.
Qed.

Lemma starts_with_refl s : starts_with s s = true.
Proof. pose proof (starts_with_app s []) as H. by rewrite app_nil_r in H. Qed.

Definition other_value (v : value) : value := match v with VNull => VBool true | _ => VNull end.

(** The field's content that makes an accepted condition hold. *)
Definition satisfying (c : condition) : option value :=
  match cond_operator c, cond_value c with
  | Exists, _ => Some (VBool true)
  | NotExists, _ => None
  | NotEquals, Some w => Some (other_value w)
  | NotContains, Some _ => Some (VString [])
  | In, Some (VArray (v :: _)) => Some v
  | _, w => w
  end.

(** No accepted condition is dead, but one kind: for every condition that passes validation
    there is an event payload on which it holds, unless it asks that a text not contain the empty
    text. *)
Theorem accepted_condition_can_hold `{!JsonNumberLaws J} (c : condition) :
  validate_condition c = Ok tt ->
  ~ (cond_operator c = NotContains /\ cond_value c = Some (VString [])) ->
  exists payload, holds c payload = true.
Proof.
  intros Hv Hn. destruct c as [field o w]. unfold validate_condition in Hv. simpl in *.
  destruct (validate_field field); [|done]. cbn [result_bind] in Hv.
  exists (match satisfying (Condition field o w) with
          | Some v => nest (split_on c!"." field) v
          | None => VNull end).
  unfold holds, resolve_field, satisfying. simpl.
  destruct o, w as [w|]; simpl in *; try done; rewrite ?get_path_nest; simpl; try apply value_eqb_refl; try done.
  - by destruct w.
  - destruct w as [| | |text| |]; try done. simpl. apply contains_sub_prefix, starts_with_refl.
  - destruct w as [| | |text| |]; try done. destruct text; [|done]. by destruct Hn.
  - destruct w as [| | |text| |]; try done. simpl. apply starts_with_refl.
  - destruct w as [| | |text| |]; try done. simpl. apply starts_with_refl.
  - destruct w as [| | | |[|v items]|]; try done. rewrite get_path_nest. simpl. by rewrite value_eqb_refl.
  - by destruct (split_on _ field).
Qed.

Lemma split_on_first (x : char) (s : str) : (x =? c!".")%N = false -> exists piece rest, split_on c!"." (x :: s) = (x :: piece) :: rest.
Proof. intros H. cbn [split_on]. rewrite H. destruct (split_on _ s) as [|p r]; eauto. Qed.

Lemma obj_get_absent k m : (forall kv, kv ∈ m -> kv.1 <> k) -> obj_get k m = None.
Proof.
  induction m as [|[k' v] m IH]; intros H; simpl; [done|].
  rewrite (proj2 (str_eqb_neq k' k)); [apply IH; intros kv Hk; apply H; by right|].
  exact (H (k', v) ltac:(by left)).
Qed.

(** A gap in the validation of conditions: the field path is checked with its surrounding
    white space removed and stored with it, so a path with a leading blank passes and is then
    looked up under a name no well-formed payload has. Such a condition never holds, or always
    does when it asks for absence. *)
Theorem blank_path_reads_nothing (c : condition) (blank : char) (rest : str) (m : list (str * value)) :
  cond_field c = blank :: rest -> is_whitespace blank = true ->
  (forall kv, kv ∈ m -> match kv.1 with x :: _ => is_whitespace x = false | [] => True end) ->
  validate_condition c = validate_condition (Condition (trim (cond_field c)) (cond_operator c) (cond_value c))
  /\ holds c (VObject m) = bool_decide (cond_operator c = NotExists).
Proof.
  intros Hf Hb Hm. split.
  - unfold validate_condition. simpl. f_equal. unfold validate_field. by rewrite trim_trim.
  - assert (E : resolve_field (VObject m) (cond_field c) = None).
    { unfold resolve_field. rewrite Hf.
      destruct (split_on_first blank rest) as (piece & l & ->).
      - apply N.eqb_neq. intros ->. done.
      - simpl. rewrite obj_get_absent; [done|]. intros [k v] Hk E. specialize (Hm _ Hk). simpl in *.
        subst k. by rewrite Hb in Hm. }
    unfold holds. rewrite E. destruct (cond_operator c); reflexivity.
Qed.

(** Gaps in the validation of placeholders: [eventual.x] passes for a field of the event and
    can never be resolved; text after a lone placeholder is dropped when it ends in braces. *)
Theorem accepted_placeholders_misread (to_text : value -> str) (payload v : value) :
  validate_bindings (VString s!"{{eventual.x}}") = Ok tt
  /\ resolve_text to_text s!"{{eventual.x}}" payload = Err invalid_binding
  /\ resolve_text to_text s!"{{event.a}} and }}" (VObject [(s!"a", v)]) = Ok v.
Proof. split_and!; reflexivity. Qed.
End Rules.

(** ** Concrete rules *)

Definition show_number (v : @value Z_number) : str := match v with VNumber n => show_Z n | _ => [] end.
Definition slug_payload : @value Z_number := VObject [(s!"no", @VNumber Z_number 7); (s!"slug", VString s!"home")].
Definition greeting : template := [(s!"page ", s!" event.slug "); (s!" #", s!"event.no")].
Definition status_condition : condition (J := Z_number) := Condition s!" status" Equals (Some (VString s!"open")).

Lemma placeholder_scans_terminate_witness :
  expressions_loop 99 (print_template greeting []) = expressions (print_template greeting []).
Proof. apply (placeholder_scans_terminate show_number 99 slug_payload _ []). vm_compute. lia. Defined.

Lemma resolve_text_meaning_witness :
  resolve_text show_number (print_template greeting s!"!") slug_payload = Ok (VString s!"page home #7!").
Proof.
  rewrite (resolve_text_meaning show_number slug_payload greeting s!"!"); [reflexivity..].
Defined.

Lemma accepted_condition_can_hold_witness : exists payload, holds status_condition payload = true.
Proof. apply accepted_condition_can_hold; [reflexivity|intros [[=] _]]. Defined.

Lemma blank_path_reads_nothing_witness :
  holds status_condition (VObject [(s!"status", VString s!"open")]) = false.
Proof.
  apply (blank_path_reads_nothing status_condition c!" " s!"status"); [reflexivity..|].
  intros kv ->%list_elem_of_singleton. reflexivity.
Defined.
