(* ===== verification/Matcher.v ===== *)
(** * The automation matcher: [crates/automation/src/matcher.rs]

    Reading the event bus past a cursor, deciding which rules fire, and starting their runs, all
    in one transaction. The bus allocates an event's id when its row is inserted and shows the
    row when that transaction commits; the interleavings keep the two apart. *)

From S2P Require Import Prelude Json Events Cron Definitions WorkflowStore Engine Rules.

Section Matcher.
Context `{J : JsonNumber} {SJ : StoredJson}.

(** ** The bus *)

(** What the matcher reads and writes, and the inserts that have not committed yet. *)
Record bus := Bus {
  b_store : store;
  b_events : list event_row;     (* committed *)
  b_inserting : list event_row;  (* inserted, not committed *)
  b_next_id : Z;                 (* the identity column's sequence *)
  b_cursor : Z                   (* [automation_cursor.last_event_id] *)
}.

Definition with_store (b : bus) (db : store) : bus :=
  Bus db (b_events b) (b_inserting b) (b_next_id b) (b_cursor b).
Definition with_cursor (b : bus) (cursor : Z) : bus :=
  Bus (b_store b) (b_events b) (b_inserting b) (b_next_id b) cursor.

(** [insert_event], inside a transaction that stays open. *)
Definition insert_event (now : Z) (new : new_event) (b : bus) : bus :=
  let row := EventRow (b_next_id b) (ne_name new) (ne_organization_id new) (ne_site_id new)
    (ne_actor_user_id new) (ne_payload new) now in
  Bus (b_store b) (b_events b) (b_inserting b ++ [row]) (b_next_id b + 1) (b_cursor b).

Definition has_id (id : Z) (e : event_row) : bool := ev_id e =? id.

(** That transaction commits, or rolls back. *)
Definition commit_event (id : Z) (b : bus) : bus :=
  Bus (b_store b) (b_events b ++ List.filter (has_id id) (b_inserting b))
    (List.filter (fun e => negb (has_id id e)) (b_inserting b)) (b_next_id b) (b_cursor b).
Definition rollback_event (id : Z) (b : bus) : bus :=
  Bus (b_store b) (b_events b) (List.filter (fun e => negb (has_id id e)) (b_inserting b))
    (b_next_id b) (b_cursor b).

(** ** The drain *)

Definition DEFAULT_BATCH : Z := 100.
Definition MAX_BATCH : Z := 1000.

Record match_report := MatchReport {
  mr_cursor : Z;
  mr_evaluated : nat;
  mr_matched : nat;
  mr_skipped : nat;
  mr_runs : list Z;
  mr_idle : bool
}.
Definition idle_report (cursor : Z) : match_report := MatchReport cursor 0 0 0 [] true.

Definition event_cursor (b : bus) : Z := b_cursor b.

(** [coalesce(max(id), 0)] *)
Definition last_committed (b : bus) : Z := foldr Z.max 0 (ev_id <$> b_events b).

Definition seed_cursor (b : bus) : option Z * bus :=
  if b_cursor b =? 0 then (Some (last_committed b), with_cursor b (last_committed b)) else (None, b).

Definition event_order (a b : event_row) : comparison := Z.compare (ev_id a) (ev_id b).

(** [where id > $1 order by id asc limit $2] *)
Definition events_after (cursor limit : Z) (b : bus) : list event_row :=
  limited limit (sort_by event_order (List.filter (fun e => cursor <? ev_id e) (b_events b))).

Fixpoint resolve_actions (payload : value) (actions : list step_definition) :
  result (list step_definition) automation_error :=
  match actions with
  | [] => Ok []
  | a :: rest =>
      let? params := resolve_params json_text (sd_params a) payload in
      let? steps := resolve_actions payload rest in
      Ok (StepDefinition (sd_name a) (sd_kind a) (sd_action a) params (sd_max_attempts a) :: steps)
  end.
Definition resolve_steps (r : automation_rule) (payload : value) :
  result (list step_definition) automation_error := resolve_actions payload (ru_actions r).

(** What a rule says to an event: the steps of the run to start, a skip (with its reason when the
    rule could not be run), or nothing because the row is no rule. *)
Inductive reaction := Fires (steps : list step_definition) | Skips (failed : bool) | NoRule.

Definition react (w : workflow) (payload : value) : reaction :=
  match from_workflow w with
  | Ok (Some rule) =>
      if negb (all_hold (ru_conditions rule) payload) then Skips false
      else match resolve_steps rule payload with
           | Ok steps => Fires steps
           | Err _ => Skips true
           end
  | Ok None => NoRule
  | Err _ => Skips true
  end.

(** The transaction's own state while it loops. *)
Record draining := Draining {
  d_store : store;
  d_evaluated : nat;
  d_matched : nat;
  d_skipped : nat;
  d_started : list workflow_execution;
  d_failures : list (Z * Z)
}.

Definition skip (failed : option (Z * Z)) (d : draining) : draining :=
  Draining (d_store d) (d_evaluated d) (d_matched d) (S (d_skipped d)) (d_started d)
    (match failed with Some f => d_failures d ++ [f] | None => d_failures d end).

(** One rule against one event. [ids] are the ids the database generates for a run. *)
Definition apply_rule (now : Z) (ids : id_supply) (e : event_row) (w : workflow) (d : draining) :
  result draining automation_error :=
  match react w (ev_payload e) with
  | NoRule => Ok d
  | Skips failed => Ok (skip (if failed then Some (w_id w, ev_id e) else None) d)
  | Fires steps =>
      let k := length (d_started d) in
      let? (execution, db1) := from_workflow_error
        (create_execution now (ids k).1 (ids k).2 w Event None steps (d_store d)) in
      let? db2 := from_workflow_error (note_match now (w_id w) db1) in
      Ok (Draining db2 (d_evaluated d) (S (d_matched d)) (d_skipped d) (d_started d ++ [execution])
            (d_failures d))
  end.

Fixpoint apply_rules (now : Z) (ids : id_supply) (e : event_row) (rules : list workflow) (d : draining) :
  result draining automation_error :=
  match rules with
  | [] => Ok d
  | w :: rest => let? d := apply_rule now ids e w d in apply_rules now ids e rest d
  end.

Definition evaluate_event (now : Z) (ids : id_supply) (e : event_row) (d : draining) :
  result draining automation_error :=
  let d := Draining (d_store d) (S (d_evaluated d)) (d_matched d) (d_skipped d) (d_started d) (d_failures d) in
  match ev_organization_id e with
  | None => Ok d
  | Some organization =>
      apply_rules now ids e (list_event_rules organization (ev_site_id e) (ev_name e) (d_store d)) d
  end.

Fixpoint evaluate_events (now : Z) (ids : id_supply) (events : list event_row) (d : draining) :
  result draining automation_error :=
  match events with
  | [] => Ok d
  | e :: rest => let? d := evaluate_event now ids e d in evaluate_events now ids rest d
  end.

Definition record_match (e : workflow_execution) (db : store) : store :=
  record_audit db (AuditRow s!"automation.rule.matched" (e_id e)).
Definition record_skip (workflow_id : Z) (db : store) : store :=
  record_audit db (AuditRow s!"automation.rule.skipped" workflow_id).

(** After the commit: the record of what the rows already say. *)
Definition audit_drain (d : draining) : store :=
  let db := foldl (fun db e => record_match e (record_start e db)) (d_store d) (d_started d) in
  foldl (fun db f => record_skip f.1 db) db (d_failures d).

(** One drain. [locked] is the answer of [for update skip locked]: another matcher may hold the
    cursor. An error rolls the whole transaction back. *)
Definition drain (now batch : Z) (locked : bool) (ids : id_supply) (b : bus) :
  result (match_report * bus) automation_error :=
  let batch := Z.max 1 (Z.min MAX_BATCH batch) in
  if negb locked then Ok (idle_report 0, b)
  else
    match events_after (b_cursor b) batch b with
    | [] => Ok (idle_report (b_cursor b), b)
    | events =>
        let? d := evaluate_events now ids events (Draining (b_store b) 0 0 0 [] []) in
        let cursor := default (b_cursor b) (ev_id <$> last events) in
        Ok (MatchReport cursor (d_evaluated d) (d_matched d) (d_skipped d) (e_id <$> d_started d) false,
            with_store (with_cursor b cursor) (audit_drain d))
    end.

(** [update_from_rule] *)
Definition update_from_rule `{Cal : Calendar} (now : Z) (steps_json : list step_definition -> value)
  (r : automation_rule) : option workflow_update :=
  match rule_definition now r with
  | Ok d => Some (WorkflowUpdate (ru_name r) (ru_description r) (ru_site_id r) (ru_enabled r) Event
      None (Some (ru_event r)) (VArray (wd_conditions d)) None (steps_json (wd_steps d)))
  | Err _ => None
  end.

(** ** Interleavings of recorders, matchers and everything else that writes the workflows *)
Inductive bus_event :=
| Insert (now : Z) (new : new_event)
| Commit (id : Z)
| Rollback (id : Z)
| Drain (now batch : Z) (locked : bool) (ids : id_supply)
| Boot
| Elsewhere (f : store -> store).

(** A step, with the events it evaluated for good: those of a drain that commits. *)
Definition bus_step (op : bus_event) (b : bus) : bus * list event_row :=
  match op with
  | Insert now new => (insert_event now new b, [])
  | Commit id => (commit_event id b, [])
  | Rollback id => (rollback_event id b, [])
  | Drain now batch locked ids =>
      match drain now batch locked ids b with
      | Ok (r, b') => (b', if locked then events_after (b_cursor b) (Z.max 1 (Z.min MAX_BATCH batch)) b else [])
      | Err _ => (b, [])
      end
  | Boot => ((seed_cursor b).2, [])
  | Elsewhere f => (with_store b (f (b_store b)), [])
  end.

Fixpoint run_bus (ops : list bus_event) (b : bus) : bus * list event_row :=
  match ops with
  | [] => (b, [])
  | op :: rest =>
      let '(b1, seen) := bus_step op b in
      let '(b2, later) := run_bus rest b1 in
      (b2, seen ++ later)
  end.

Definition empty_bus (db : store) : bus := Bus db [] [] 1 0.

(** Each transaction commits before every one that inserted an event after it, and no boot finds
    events above an unmoved cursor: what the matcher assumes of the rest of the system. *)
Definition step_in_order (op : bus_event) (b : bus) : bool :=
  match op with
  | Commit id => forallb (fun e => id <=? ev_id e) (b_inserting b)
  | Boot => negb (b_cursor b =? 0) || match b_events b with [] => true | _ => false end
  | _ => true
  end.
Fixpoint in_order (ops : list bus_event) (b : bus) : bool :=
  match ops with
  | [] => true
  | op :: rest => step_in_order op b && in_order rest (bus_step op b).1
  end.

Definition fires (payload : value) (w : workflow) : bool :=
  match react w payload with Fires _ => true | _ => false end.

(** ** What a drain owes, row by row

    None of this goes through the functions of the matcher. *)

(** An action with its placeholders filled in. *)
Definition filled (payload : value) (a d : step_definition) : Prop :=
  sd_name d = sd_name a /\ sd_kind d = sd_kind a /\ sd_action d = sd_action a /\ sd_max_attempts d = sd_max_attempts a
  /\ resolve_params json_text (sd_params a) payload = Ok (sd_params d).

(** The rule in row [w] owes event [e] a run of the steps [defs]. *)
Record owes (e : event_row) (w : workflow) (defs : list step_definition) : Prop := {
  ow_listens : w_trigger_kind w = s!"event" /\ w_trigger_event w = Some (ev_name e);
  ow_enabled : w_enabled w = true;
  ow_tenant : ev_organization_id e = Some (w_organization_id w);
  ow_site : w_site_id w = None \/ exists site, w_site_id w = Some site /\ ev_site_id e = Some site;
  ow_conditions : exists cs, read_conditions (w_conditions w) = Some cs /\ forall c, c ∈ cs -> meets c (ev_payload e);
  ow_steps : exists actions, read_steps (w_steps w) = Ok actions /\ Forall2 (filled (ev_payload e)) actions defs
}.

Definition no_newer (a b : workflow) : Prop :=
  w_created_at a < w_created_at b \/ (w_created_at a = w_created_at b /\ w_id a <= w_id b).

(** The runs owed to one event: each rule that owes one, no more often than it is a row, oldest first. *)
Record owed_to (db : store) (e : event_row) (l : list (workflow * list step_definition)) : Prop := {
  ot_each w defs : (w, defs) ∈ l <-> w ∈ workflows db /\ owes e w defs;
  ot_once : l.*1 ⊆+ workflows db;
  ot_oldest : StronglySorted no_newer l.*1
}.

(** A run as it is written: open, of its rule, with a row for every step, none of them begun. *)
Definition starts (now : Z) (owed : workflow * list step_definition) (run : workflow_execution * list workflow_step) : Prop :=
  let '((w, defs), (x, rows)) := (owed, run) in
  x = WorkflowExecution (e_id x) (w_id w) (w_organization_id w) RunRunning s!"event" None now None None
  /\ length rows = length defs
  /\ forall k d row, defs !! k = Some d -> rows !! k = Some row ->
       row = WorkflowStep (s_id row) (e_id x) (Z.of_nat k + 1) (trim (sd_name d)) (step_kind_as_str (sd_kind d)) (sd_action d)
               (sd_params d) Pending 0 (sd_max_attempts d) now None None None None.

(** The events a drain reads: the oldest committed ones past the cursor, in the order of their ids,
    all of them unless the batch is full. *)
Definition reads (b : bus) (batch : nat) (events : list event_row) : Prop :=
  StronglySorted (fun x y => ev_id x <= ev_id y) events
  /\ exists rest, events ++ rest ≡ₚ List.filter (fun e => b_cursor b <? ev_id e) (b_events b)
       /\ (forall x y, x ∈ events -> y ∈ rest -> ev_id x <= ev_id y)
       /\ (rest = [] \/ length events = batch).

(** ** What one read of the bus takes *)

Definition before (a b : event_row) : Prop := ev_id a < ev_id b.

Lemma strictly_sorted l :
  NoDup (ev_id <$> l) -> StronglySorted (cmp_le event_order) l -> StronglySorted before l.
Proof.
  intros Hn. induction 1 as [|x l Hs IH Hall]; [constructor|].
  rewrite fmap_cons, NoDup_cons in Hn. destruct Hn as [Hni Hn]. constructor; [by apply IH|].
  rewrite Forall_forall in Hall |- *. intros y Hy. specialize (Hall y Hy).
  change (ev_id x <= ev_id y) in Hall. unfold before.
  assert (ev_id x <> ev_id y); [|lia]. intros E. apply Hni. rewrite E. by apply list_elem_of_fmap_2.
Qed.

Lemma sorted_take {A} (R : A -> A -> Prop) n l : StronglySorted R l -> StronglySorted R (take n l).
Proof.
  intros H. revert n. induction H as [|x l Hs IH Hall]; intros [|n]; simpl; try constructor; [apply IH|].
  rewrite Forall_forall in Hall |- *. intros y Hy. apply Hall.
  by apply (sublist_subseteq _ _ (sublist_take l n)) in Hy.
Qed.

#[local] Instance event_order_laws : CmpLaws event_order := on_laws ev_id Z.compare.

Lemma events_after_sorted cursor limit b :
  NoDup (ev_id <$> b_events b) -> StronglySorted before (events_after cursor limit b).
Proof.
  intros H. apply sorted_take, strictly_sorted.
  - rewrite (sort_by_perm event_order _). by apply NoDup_filter_keys.
  - apply (sort_by_sorted event_order).
Qed.

Lemma events_after_elem cursor limit b e :
  e ∈ events_after cursor limit b -> e ∈ b_events b /\ cursor < ev_id e.
Proof.
  intros H. unfold events_after in H.
  apply (sublist_subseteq _ _ (sublist_take _ _)) in H.
  rewrite (sort_by_perm event_order _), elem_of_filter_bool, Z.ltb_lt in H. exact H.
Qed.

(** A prefix of a sorted list holds everything up to its last element. *)
Lemma sorted_prefix_complete l n x y :
  StronglySorted before l -> last (take n l) = Some y -> x ∈ l -> ev_id x <= ev_id y -> x ∈ take n l.
Proof.
  intros Hs Hlast Hx Hle. rewrite <- (take_drop n l), elem_of_app in Hx. destruct Hx as [Hx|Hx]; [done|exfalso].
  rewrite <- (take_drop n l) in Hs. apply last_Some in Hlast as (l' & Hl').
  rewrite Hl', <- app_assoc in Hs. clear Hl'. revert Hs. induction l' as [|z l' IH]; simpl; intros Hs.
  - apply StronglySorted_inv in Hs as [_ Hall]. rewrite Forall_forall in Hall.
    specialize (Hall x Hx). unfold before in Hall. lia.
  - apply StronglySorted_inv in Hs as [Hs _]. by apply IH.
Qed.

Lemma events_after_complete cursor limit b e f :
  NoDup (ev_id <$> b_events b) -> last (events_after cursor limit b) = Some f ->
  e ∈ b_events b -> cursor < ev_id e -> ev_id e <= ev_id f -> e ∈ events_after cursor limit b.
Proof.
  intros Hn Hl He Hc Hle. unfold events_after, limited in *. eapply sorted_prefix_complete; [|exact Hl| |done].
  - apply strictly_sorted; [|apply (sort_by_sorted event_order)]. rewrite (sort_by_perm event_order _).
    by apply NoDup_filter_keys.
  - by rewrite (sort_by_perm event_order _), elem_of_filter_bool, Z.ltb_lt.
Qed.

Lemma last_elem {A} (l : list A) x : last l = Some x -> x ∈ l.
Proof. intros (l' & ->)%last_Some. apply elem_of_app. right. by left. Qed.

Lemma sorted_last l e f : StronglySorted before l -> last l = Some f -> e ∈ l -> ev_id e <= ev_id f.
Proof.
  intros Hs (l' & ->)%last_Some [He|He%list_elem_of_singleton]%elem_of_app; [|subst; lia].
  induction l' as [|x l' IH]; [by apply elem_of_nil in He|].
  apply StronglySorted_inv in Hs as [Hs Hall]. apply elem_of_cons in He as [->|He]; [|by apply IH].
  rewrite Forall_forall in Hall. specialize (Hall f). unfold before in Hall.
  assert (f ∈ l' ++ [f]) as Hf by (apply elem_of_app; right; by left). specialize (Hall Hf). lia.
Qed.

(** ** The bus keeps its ids apart *)

Record bus_ok (b : bus) : Prop := {
  bo_ids : NoDup (ev_id <$> b_events b ++ b_inserting b);
  bo_allocated e : e ∈ b_events b ++ b_inserting b -> 1 <= ev_id e < b_next_id b;
  bo_next : 1 <= b_next_id b;
  bo_cursor : 0 <= b_cursor b < b_next_id b
}.

Lemma bus_ok_events b : bus_ok b -> NoDup (ev_id <$> b_events b).
Proof. intros [H _ _ _]. rewrite fmap_app in H. by apply NoDup_app in H as [? _]. Qed.

Lemma drain_ok now batch ids b r b' :
  drain now batch true ids b = Ok (r, b') ->
  exists db, b' = with_store (with_cursor b (default (b_cursor b)
    (ev_id <$> last (events_after (b_cursor b) (Z.max 1 (Z.min MAX_BATCH batch)) b)))) db.
Proof.
  unfold drain. simpl. destruct (events_after _ _ b) as [|e l] eqn:E.
  { intros [= _ <-]. exists (b_store b). by destruct b. }
  rewrite result_bind_ok. intros (d & _ & [= _ <-]). eauto.
Qed.

Lemma filter_split_perm id (l : list event_row) :
  Permutation (List.filter (has_id id) l ++ List.filter (fun e => negb (has_id id e)) l) l.
Proof.
  induction l as [|e l IH]; [done|]. cbn [List.filter]. destruct (has_id id e); cbn [negb app].
  - by constructor.
  - etrans; [symmetry; apply Permutation_middle|]. by constructor.
Qed.

Lemma bus_step_ok op b : bus_ok b -> bus_ok (bus_step op b).1.
Proof.
  intros Hb. pose proof (bus_ok_events b Hb) as Hev. destruct Hb as [Hn Ha Hx Hc].
  destruct op as [now new|id|id|now batch locked ids| |f]; cbn [bus_step fst].
  - constructor; simpl; [| |lia|lia].
    + rewrite app_assoc, (fmap_app ev_id). apply NoDup_app. split_and!; [done| |apply NoDup_singleton].
      intros k (e & -> & He%Ha)%list_elem_of_fmap Hk%list_elem_of_singleton. simpl in Hk. lia.
    + intros e. rewrite app_assoc. intros [He%Ha|He%list_elem_of_singleton]%elem_of_app; [lia|subst; simpl; lia].
  - constructor; simpl; [rewrite <- app_assoc| |done|done].
    { erewrite fmap_Permutation; [exact Hn|]. by rewrite filter_split_perm. }
    intros e.
    rewrite <- app_assoc, filter_split_perm. apply Ha.
  - constructor; simpl; [| |done|done].
    + eapply sublist_NoDup; [exact Hn|]. apply fmap_sublist, sublist_app; [done|].
      clear. induction (b_inserting b) as [|e l IH]; simpl; [constructor|].
      destruct (has_id id e); simpl; [by apply sublist_cons|by apply sublist_skip].
    + intros e [He|He]%elem_of_app; apply Ha, elem_of_app; [by left|right].
      by apply elem_of_filter_bool in He as [? _].
  - destruct (drain now batch locked ids b) as [[r b']|] eqn:E; [|by constructor]. destruct locked.
    2: { unfold drain in E. simpl in E. injection E as _ <-. by constructor. }
    apply drain_ok in E as (db & ->). constructor; simpl; [done|done|done|].
    destruct (last _) as [e|] eqn:El; simpl; [|lia].
    apply last_elem, events_after_elem in El as [He Hlt].
    specialize (Ha e ltac:(apply elem_of_app; by left)). lia.
  - unfold seed_cursor. destruct (b_cursor b =? 0); simpl; [|by constructor]. constructor; simpl; [done..|].
    assert (H : forall l, (forall e, e ∈ l -> 1 <= ev_id e < b_next_id b) -> 0 <= foldr Z.max 0 (ev_id <$> l) < b_next_id b).
    { induction l as [|e l IH]; intros Hl; rewrite ?fmap_cons; cbn [foldr]; [cbn; lia|].
      specialize (Hl e ltac:(by left)) as He. specialize (IH ltac:(intros; apply Hl; by right)). lia. }
    apply H. intros e He. apply Ha, elem_of_app. by left.
  - by constructor.
Qed.

Lemma empty_bus_ok db : bus_ok (empty_bus db).
Proof. constructor; simpl; [apply NoDup_nil_2|by intros e ?%elem_of_nil|lia|lia]. Qed.

(** ** Never twice *)

Lemma drain_step_log now batch locked ids b :
  bus_ok b ->
  let '(b', seen) := bus_step (Drain now batch locked ids) b in
  StronglySorted before seen /\ b_cursor b <= b_cursor b'
  /\ b_events b' = b_events b /\ b_inserting b' = b_inserting b
  /\ (forall e, e ∈ seen -> e ∈ b_events b /\ b_cursor b < ev_id e <= b_cursor b')
  /\ (forall e, e ∈ b_events b -> b_cursor b < ev_id e <= b_cursor b' -> e ∈ seen)
  /\ (b_cursor b' = b_cursor b \/ exists e, e ∈ b_events b /\ ev_id e = b_cursor b').
Proof.
  intros Hb. cbn [bus_step]. pose proof (bus_ok_events b Hb) as Hev.
  assert (Hidle : forall b0 : bus, b0 = b -> StronglySorted before [] /\ b_cursor b <= b_cursor b0
    /\ b_events b0 = b_events b /\ b_inserting b0 = b_inserting b
    /\ (forall e, e ∈ [] -> e ∈ b_events b /\ b_cursor b < ev_id e <= b_cursor b0)
    /\ (forall e, e ∈ b_events b -> b_cursor b < ev_id e <= b_cursor b0 -> e ∈ [])
    /\ (b_cursor b0 = b_cursor b \/ exists e, e ∈ b_events b /\ ev_id e = b_cursor b0)).
  { intros b0 ->. split_and!; [constructor|lia|done|done|by intros e ?%elem_of_nil|intros; lia|by left]. }
  destruct (drain now batch locked ids b) as [[r b']|] eqn:E; [|by apply Hidle].
  destruct locked; [|unfold drain in E; simpl in E; injection E as _ <-; by apply Hidle].
  apply drain_ok in E as (db & ->). set (limit := Z.max 1 (Z.min MAX_BATCH batch)).
  destruct (last (events_after (b_cursor b) limit b)) as [f|] eqn:El; simpl.
  - pose proof (last_elem _ _ El) as Hf. apply events_after_elem in Hf as [Hfe Hf].
    pose proof (events_after_sorted (b_cursor b) limit b Hev) as Hs. split_and!; [done|lia|done|done| | |].
    + intros e He. pose proof (events_after_elem _ _ _ _ He) as [? ?].
      split; [done|]. pose proof (sorted_last _ _ _ Hs El He). lia.
    + intros e He Hr. apply (events_after_complete _ _ _ e f); try done; lia.
    + right. by exists f.
  - apply last_None in El. rewrite El. by apply Hidle.
Qed.

Lemma seed_cursor_forward b : bus_ok b -> b_cursor b <= b_cursor (seed_cursor b).2.
Proof.
  intros _. unfold seed_cursor. destruct (b_cursor b =? 0) eqn:E; simpl; [|lia].
  apply Z.eqb_eq in E as ->. unfold last_committed. induction (ev_id <$> b_events b); simpl; lia.
Qed.

Lemma bus_step_log op b :
  bus_ok b ->
  let '(b', seen) := bus_step op b in
  StronglySorted before seen /\ b_cursor b <= b_cursor b'
  /\ (forall e, e ∈ seen -> e ∈ b_events b /\ b_cursor b < ev_id e <= b_cursor b').
Proof.
  intros Hb. destruct op as [now new|id|id|now batch locked ids| |f].
  4: { pose proof (drain_step_log now batch locked ids b Hb) as H.
       destruct (bus_step _ b) as [b' seen]. tauto. }
  all: simpl; split_and!; [constructor| |by intros e ?%elem_of_nil]; try lia.
  by apply seed_cursor_forward.
Qed.

Lemma bus_step_events op b e : e ∈ b_events b -> e ∈ b_events (bus_step op b).1.
Proof.
  intros He. destruct op as [now new|id|id|now batch locked ids| |f]; cbn [bus_step fst]; try done.
  - simpl. apply elem_of_app. by left.
  - destruct (drain now batch locked ids b) as [[r b']|] eqn:E; [|done]. destruct locked.
    + apply drain_ok in E as (db & ->). done.
    + unfold drain in E. simpl in E. by injection E as _ <-.
  - unfold seed_cursor. by destruct (_ =? 0).
Qed.

Lemma sorted_app (l1 l2 : list event_row) k :
  StronglySorted before l1 -> StronglySorted before l2 ->
  (forall e, e ∈ l1 -> ev_id e <= k) -> (forall e, e ∈ l2 -> k < ev_id e) -> StronglySorted before (l1 ++ l2).
Proof.
  intros H1 H2 Hle Hlt. induction H1 as [|x l1 Hs IH Hall]; simpl; [done|]. constructor.
  - apply IH. intros e He. apply Hle. by right.
  - rewrite Forall_app. split; [done|]. apply Forall_forall. intros e He. unfold before.
    specialize (Hle x ltac:(by left)). specialize (Hlt e He). lia.
Qed.

Lemma sorted_NoDup l : StronglySorted before l -> NoDup l.
Proof.
  induction 1 as [|x l Hs IH Hall]; constructor; [|done].
  intros Hx. rewrite Forall_forall in Hall. specialize (Hall x Hx). unfold before in Hall. lia.
Qed.

Lemma run_bus_log ops b :
  bus_ok b ->
  StronglySorted before (run_bus ops b).2 /\ bus_ok (run_bus ops b).1
  /\ b_cursor b <= b_cursor (run_bus ops b).1
  /\ (forall e, e ∈ b_events b -> e ∈ b_events (run_bus ops b).1)
  /\ forall e, e ∈ (run_bus ops b).2 ->
       e ∈ b_events (run_bus ops b).1 /\ b_cursor b < ev_id e <= b_cursor (run_bus ops b).1.
Proof.
  revert b. induction ops as [|op ops IH]; intros b Hb; cbn [run_bus].
  { simpl. split_and!; [constructor|done|lia|done|by intros e ?%elem_of_nil]. }
  pose proof (bus_step_log op b Hb) as Hl. pose proof (bus_step_ok op b Hb) as Hb1.
  pose proof (fun e => bus_step_events op b e) as Hk. destruct (bus_step op b) as [b1 seen]. simpl in Hb1, Hk.
  destruct Hl as (Hs & Hc & Hin). destruct (IH b1 Hb1) as (Hs' & Hb2 & Hc' & Hk' & Hin').
  destruct (run_bus ops b1) as [b2 later]. simpl in *. split_and!; [|done|lia|by auto|].
  - apply (sorted_app _ _ (b_cursor b1)); [done|done|intros e He; apply Hin in He; lia|].
    intros e He. apply Hin' in He. lia.
  - intros e [He|He]%elem_of_app.
    + apply Hin in He as [? ?]. split; [by auto|lia].
    + apply Hin' in He as [? ?]. split; [done|lia].
Qed.

(** No event is evaluated twice: whatever the interleaving of recorders, matchers, roll-backs
    and failed drains, the events evaluated by drains that committed are committed events, in
    strictly increasing id order, and never beyond the cursor. *)
Theorem events_evaluated_once (ops : list bus_event) (db : store) :
  StronglySorted before (run_bus ops (empty_bus db)).2
  /\ NoDup (run_bus ops (empty_bus db)).2
  /\ forall e, e ∈ (run_bus ops (empty_bus db)).2 ->
       e ∈ b_events (run_bus ops (empty_bus db)).1 /\ ev_id e <= b_cursor (run_bus ops (empty_bus db)).1.
Proof.
  destruct (run_bus_log ops (empty_bus db) (empty_bus_ok db)) as (Hs & _ & _ & _ & Hin).
  split_and!; [done|by apply sorted_NoDup|].
  intros e He. apply Hin in He as [? ?]. split; [done|lia].
Qed.
(** ** Never missed, when commits follow the ids *)

(** Every committed event below the cursor was evaluated; what is still being inserted is above
    everything committed. *)
Record caught_up (b : bus) (log : list event_row) : Prop := {
  cu_seen e : e ∈ b_events b -> ev_id e <= b_cursor b -> e ∈ log;
  cu_above e f : e ∈ b_events b -> f ∈ b_inserting b -> ev_id e < ev_id f;
  cu_cursor f : f ∈ b_inserting b -> b_cursor b < ev_id f
}.

Lemma inserting_id_unique b e f :
  bus_ok b -> e ∈ b_inserting b -> f ∈ b_inserting b -> ev_id e = ev_id f -> e = f.
Proof.
  intros [Hn _ _ _] He Hf Hk. rewrite fmap_app in Hn. apply NoDup_app in Hn as (_ & _ & Hn).
  by apply (NoDup_key_inj ev_id (b_inserting b)).
Qed.

Lemma caught_up_step op b log :
  bus_ok b -> caught_up b log -> step_in_order op b = true ->
  caught_up (bus_step op b).1 (log ++ (bus_step op b).2).
Proof.
  intros Hb [Hs Ha Hc] Ho. destruct op as [now new|id|id|now batch locked ids| |f].
  - simpl. rewrite app_nil_r. destruct Hb as [_ Hal _ Hcu]. constructor; simpl; [done| |].
    + intros e f He [Hf|Hf%list_elem_of_singleton]%elem_of_app; [by apply Ha|subst; simpl].
      assert (e ∈ b_events b ++ b_inserting b) as H%Hal by (apply elem_of_app; by left). lia.
    + intros f [Hf|Hf%list_elem_of_singleton]%elem_of_app; [by apply Hc|subst; simpl; lia].
  - simpl in Ho |- *. rewrite app_nil_r. rewrite forallb_elem in Ho. constructor; simpl.
    + intros e [He|He]%elem_of_app Hle; [by apply Hs|].
      apply elem_of_filter_bool in He as [He _]. specialize (Hc e He). lia.
    + intros e f He [Hf Hne]%elem_of_filter_bool. apply elem_of_app in He as [He|He]; [by apply Ha|].
      apply elem_of_filter_bool in He as [He Hid]. unfold has_id in *. specialize (Ho f Hf). lia.
    + intros f [Hf _]%elem_of_filter_bool. by apply Hc.
  - simpl. rewrite app_nil_r. constructor; simpl; [done| |].
    + intros e f He [Hf _]%elem_of_filter_bool. by apply Ha.
    + intros f [Hf _]%elem_of_filter_bool. by apply Hc.
  - pose proof (drain_step_log now batch locked ids b Hb) as H.
    destruct (bus_step (Drain now batch locked ids) b) as [b' seen].
    destruct H as (_ & Hle & Ee & Ei & Hin & Hall & Hcur'). simpl. constructor.
    + intros e. rewrite Ee, elem_of_app. intros He Hcur. destruct (Z.le_gt_cases (ev_id e) (b_cursor b)).
      * left. by apply Hs.
      * right. apply Hall; [done|lia].
    + by rewrite Ee, Ei.
    + intros f. rewrite Ei. intros Hf. destruct Hcur' as [->|(e & He & <-)]; [by apply Hc|by apply Ha].
  - simpl in *. rewrite app_nil_r. unfold seed_cursor, last_committed.
    destruct (b_cursor b =? 0) eqn:E; simpl in *; [|by constructor]. apply Z.eqb_eq in E.
    destruct (b_events b) as [|x l] eqn:Eb; [|done]. constructor; simpl; rewrite ?Eb.
    + intros e []%elem_of_nil.
    + intros e f []%elem_of_nil.
    + by rewrite <- E.
  - simpl. rewrite app_nil_r. by constructor.
Qed.

Lemma caught_up_run ops b log :
  bus_ok b -> caught_up b log -> in_order ops b = true ->
  caught_up (run_bus ops b).1 (log ++ (run_bus ops b).2).
Proof.
  revert b log. induction ops as [|op ops IH]; intros b log Hb Hc Ho; cbn [run_bus in_order] in *.
  { simpl. by rewrite app_nil_r. }
  bool_prop. destruct Ho as [Ho Hrest]. pose proof (caught_up_step op b log Hb Hc Ho) as H1.
  pose proof (bus_step_ok op b Hb) as Hb1. destruct (bus_step op b) as [b1 seen]. simpl in *.
  specialize (IH b1 (log ++ seen) Hb1 H1 Hrest). destruct (run_bus ops b1) as [b2 later]. simpl in *.
  by rewrite app_assoc.
Qed.

(** No event is missed when events are committed in the order their ids were given: whatever
    else interleaves, every committed event up to the cursor was evaluated, by exactly one drain. *)
Theorem every_event_is_evaluated (ops : list bus_event) (db : store) :
  in_order ops (empty_bus db) = true ->
  (forall e, e ∈ b_events (run_bus ops (empty_bus db)).1 ->
     ev_id e <= b_cursor (run_bus ops (empty_bus db)).1 -> e ∈ (run_bus ops (empty_bus db)).2)
  /\ (run_bus ops (empty_bus db)).2
     ≡ₚ List.filter (fun e => ev_id e <=? b_cursor (run_bus ops (empty_bus db)).1)
          (b_events (run_bus ops (empty_bus db)).1).
Proof.
  intros Ho. pose proof (empty_bus_ok db) as Hb.
  assert (Hc : caught_up (run_bus ops (empty_bus db)).1 ([] ++ (run_bus ops (empty_bus db)).2)).
  { apply caught_up_run; [done| |done]. constructor; simpl; [intros e|intros e f|intros f]; intros []%elem_of_nil. }
  destruct (run_bus_log ops (empty_bus db) Hb) as (Hs & Hb' & _ & _ & Hin).
  split; [apply Hc|]. apply NoDup_Permutation.
  - by apply sorted_NoDup.
  - apply (NoDup_fmap_1 ev_id), NoDup_filter_keys. by apply bus_ok_events.
  - intros e. rewrite elem_of_filter_bool, Z.leb_le. split.
    + intros He. apply Hin in He. split; [apply He|lia].
    + intros [He Hle]. by apply Hc.
Qed.

(** ** What a drain starts *)

(** A rule's row but for its counters, which are all a drain writes. *)
Definition unmatched (w : workflow) : workflow :=
  Workflow (w_id w) (w_organization_id w) (w_site_id w) (w_name w) (w_description w) (w_enabled w)
    (w_trigger_kind w) (w_schedule w) (w_trigger_event w) (w_conditions w) (w_next_run_at w) (w_steps w)
    None 0 (w_created_by w) (w_created_at w) (w_updated_at w).
Definition same_rules (db db' : store) : Prop := unmatched <$> workflows db = unmatched <$> workflows db'.

Lemma fires_unmatched payload w : fires payload (unmatched w) = fires payload w.
Proof.
  unfold fires, react, from_workflow, workflow_trigger. simpl.
  destruct (trigger_kind_parse (w_trigger_kind w)) as [[]|]; simpl; try done.
  destruct (w_trigger_event w), (read_conditions _), (read_steps _); simpl; done.
Qed.

Lemma filter_fmap {A B} (f : A -> B) (p : B -> bool) (q : A -> bool) l :
  (forall x, p (f x) = q x) -> List.filter p (f <$> l) = f <$> List.filter q l.
Proof.
  intros H. induction l as [|x l IH]; [done|]. cbn. rewrite H. destruct (q x); cbn; by rewrite <- IH.
Qed.

Lemma sort_by_fmap {A B} (f : A -> B) (c : A -> A -> comparison) (c' : B -> B -> comparison) l :
  (forall x y, c' (f x) (f y) = c x y) -> sort_by c' (f <$> l) = f <$> sort_by c l.
Proof.
  intros H. induction l as [|x l IH]; [done|].
  change (insert_by c' (f x) (sort_by c' (f <$> l)) = f <$> insert_by c x (sort_by c l)). rewrite IH.
  generalize (sort_by c l) as k. clear l IH. intros k. induction k as [|y k IH]; [done|].
  cbn. rewrite H. destruct (c x y); cbn; [done..|]. by rewrite <- IH.
Qed.

Lemma list_event_rules_same o site name db db' :
  same_rules db db' ->
  unmatched <$> list_event_rules o site name db = unmatched <$> list_event_rules o site name db'.
Proof.
  intros H. unfold list_event_rules.
  rewrite <- 2(sort_by_fmap unmatched oldest_first oldest_first) by done. f_equal.
  match goal with |- unmatched <$> List.filter ?p _ = _ => rewrite <- 2(filter_fmap unmatched p p) by done end.
  by rewrite H.
Qed.

(** *** The rules the matcher lists are those that owe a run *)

Lemma resolve_actions_filled payload actions defs :
  resolve_actions payload actions = Ok defs <-> Forall2 (filled payload) actions defs.
Proof.
  revert defs. induction actions as [|a actions IH]; intros defs; cbn [resolve_actions].
  { split; [by intros [= <-]|by intros ->%Forall2_nil_inv_l]. }
  rewrite result_bind_ok. split.
  - intros (params & Hp & H). apply result_bind_ok in H as (steps & Hs & [= <-]). constructor; [by split_and!|by apply IH].
  - intros (d & rest & (E1 & E2 & E3 & E4 & Hp) & Hs & ->)%Forall2_cons_inv_l. exists (sd_params d). split; [done|].
    apply IH in Hs. rewrite Hs. simpl. rewrite <- E1, <- E2, <- E3, <- E4. by destruct d.
Qed.

Lemma react_fires w payload defs : w_trigger_kind w = s!"event" -> w_trigger_event w <> None ->
  react w payload = Fires defs
  <-> (exists cs, read_conditions (w_conditions w) = Some cs /\ forall c, c ∈ cs -> meets c payload)
      /\ exists actions, read_steps (w_steps w) = Ok actions /\ Forall2 (filled payload) actions defs.
Proof.
  intros Hk He. unfold react, from_workflow, workflow_trigger. rewrite Hk.
  change (default Manual (trigger_kind_parse s!"event")) with Event. cbv iota.
  destruct (w_trigger_event w) as [event|]; [|done]. cbn [ok_or result_bind].
  destruct (read_conditions (w_conditions w)) as [cs|]; cbn [ok_or result_bind]; [|split; [done|intros [(? & ? & _) _]; done]].
  destruct (read_steps (w_steps w)) as [actions|]; [|split; [done|intros [_ (? & ? & _)]; done]].
  unfold resolve_steps. cbn [ru_conditions ru_actions].
  assert (Hall : all_hold cs payload = true <-> forall c, c ∈ cs -> meets c payload).
  { unfold all_hold. rewrite forallb_elem. by setoid_rewrite holds_meets. }
  destruct (all_hold cs payload) eqn:Eh; cbn [negb].
  - destruct (resolve_actions payload actions) as [steps|] eqn:Er.
    + split.
      * intros [= <-]. split; [exists cs; split; [done|by apply Hall]|]. exists actions. by rewrite <- resolve_actions_filled.
      * intros [_ (actions' & [= <-] & Hf)]. apply resolve_actions_filled in Hf. congruence.
    + split; [done|]. intros [_ (actions' & [= <-] & Hf)]. apply resolve_actions_filled in Hf. congruence.
  - split; [done|]. intros [(cs' & [= <-] & H) _]. apply Hall in H. done.
Qed.

(** The listed rules that fire, with the steps of their runs. *)
Definition firing (payload : value) (w : workflow) : option (workflow * list step_definition) :=
  match react w payload with Fires defs => Some (w, defs) | _ => None end.
Definition owed_runs (db : store) (e : event_row) : list (workflow * list step_definition) :=
  match ev_organization_id e with
  | None => []
  | Some organization => omap (firing (ev_payload e)) (list_event_rules organization (ev_site_id e) (ev_name e) db)
  end.

Lemma omap_firing_fst payload l : (omap (firing payload) l).*1 = List.filter (fires payload) l.
Proof.
  induction l as [|w l IH]; [done|]. cbn. unfold firing, fires in *. destruct (react w payload); cbn; by rewrite ?IH.
Qed.

#[local] Instance oldest_first_laws : CmpLaws oldest_first :=
  then_with_laws (fun a b => Z.compare (w_created_at a) (w_created_at b)) (fun a b => Z.compare (w_id a) (w_id b)).

Lemma oldest_first_le a b : cmp_le oldest_first a b -> no_newer a b.
Proof.
  unfold cmp_le, oldest_first, then_with, no_newer.
  destruct (Z.compare_spec (w_created_at a) (w_created_at b)); [|by left; lia|done].
  destruct (Z.compare_spec (w_id a) (w_id b)); [right; lia|right; lia|done].
Qed.

Lemma owed_runs_owed db e : owed_to db e (owed_runs db e).
Proof.
  unfold owed_runs. destruct (ev_organization_id e) as [o|] eqn:Eo.
  2: { split; [|apply submseteq_nil_l|constructor]. intros w defs. split; [by intros ?%elem_of_nil|].
       intros [_ [_ _ Ht _ _ _]]. congruence. }
  unfold list_event_rules. match goal with |- context [List.filter ?p (workflows db)] => set (listed := p) end.
  split.
  - intros w defs. rewrite list_elem_of_omap. unfold firing. split.
    + intros (w' & Hw & H). destruct (react w' (ev_payload e)) as [defs'| |] eqn:Er; [|done..]. injection H as -> ->.
      apply (sort_by_elem oldest_first), elem_of_filter_bool in Hw as [Hw Hl]. split; [done|]. unfold listed in Hl.
      apply andb_true_iff in Hl as [[[[Hk%str_eqb_eq He]%andb_true_iff Hn%bool_decide_eq_true]%andb_true_iff Ho%Z.eqb_eq]%andb_true_iff Hs].
      apply react_fires in Er as [Hc Ha]; [|done|by rewrite Hn].
      split; [done|done|by rewrite Eo, Ho| |done|done].
      destruct (w_site_id w) as [site|]; [right|by left]. destruct (ev_site_id e) as [site'|]; [|done].
      apply Z.eqb_eq in Hs as ->. by exists site'.
    + intros [Hw [[Hk Hn] He Ht Hs Hc Ha]]. exists w. split.
      * apply (sort_by_elem oldest_first), elem_of_filter_bool. split; [done|]. unfold listed. rewrite Hk, str_eqb_refl, He, Hn.
        rewrite Eo in Ht. injection Ht as ->. rewrite bool_decide_true, Z.eqb_refl by done. cbn [andb].
        destruct Hs as [->|(site & -> & ->)]; [done|]. apply Z.eqb_refl.
      * rewrite (proj2 (react_fires w (ev_payload e) defs Hk ltac:(by rewrite Hn))); [done|]. by split.
  - rewrite omap_firing_fst. etrans; [apply sublist_submseteq, sublist_filter|]. rewrite (sort_by_perm oldest_first).
    apply sublist_submseteq, sublist_filter.
  - rewrite omap_firing_fst. apply (sorted_sublist _ _ (sort_by oldest_first (List.filter listed (workflows db)))); [apply sublist_filter|].
    eapply sorted_weaken; [apply oldest_first_le|].
    apply (sort_by_sorted oldest_first).
Qed.

(** A run of a listed row is the same whatever its counters say. *)
Definition same_owed (a b : workflow * list step_definition) : Prop := unmatched a.1 = unmatched b.1 /\ a.2 = b.2.

Lemma react_unmatched payload w : react (unmatched w) payload = react w payload.
Proof.
  unfold react, from_workflow, workflow_trigger. simpl.
  destruct (trigger_kind_parse (w_trigger_kind w)) as [[]|]; simpl; try done.
  destruct (w_trigger_event w), (read_conditions _), (read_steps _); simpl; done.
Qed.

(** What the transaction has done so far, seen from the store it began with: [runs] with their steps. *)
Record drained (now : Z) (db : store) (owed : list (workflow * list step_definition))
  (runs : list (workflow_execution * list workflow_step)) (d : draining) : Prop := {
  dr_rules : same_rules db (d_store d);
  dr_started : Forall2 (starts now) owed runs;
  dr_runs : executions (d_store d) = executions db ++ runs.*1;
  dr_steps : steps (d_store d) = steps db ++ concat runs.*2;
  dr_list : d_started d = runs.*1;
  dr_count : d_matched d = length owed;
  dr_audit : audit (d_store d) = audit db
}.

Lemma note_match_same now id db db' :
  note_match now id db = Ok db' ->
  same_rules db db' /\ executions db' = executions db /\ steps db' = steps db /\ audit db' = audit db.
Proof.
  unfold note_match. goal_case; [|done]. intros [= <-]. split_and!; [|done..].
  unfold same_rules, update_workflow_row, update_where. simpl. rewrite <- list_fmap_compose.
  apply list_fmap_ext. intros _ w _. simpl. by destruct (w_id w =? id).
Qed.

Lemma from_workflow_error_ok {A} (r : result A workflow_error) a : from_workflow_error r = Ok a -> r = Ok a.
Proof. by destruct r; intros [= ->]. Qed.

Lemma insert_steps_rows now eid sid index defs rows out : insert_steps now eid sid index defs rows = Ok out ->
  out = rows ++ imap (fun k d => new_step now eid (sid (index + k)%nat) (index + k) d) defs.
Proof.
  revert index rows. induction defs as [|d defs IH]; intros index rows; cbn [insert_steps].
  { intros [= <-]. by rewrite app_nil_r. }
  destruct (_ && _); [|done]. intros H. apply IH in H as ->. rewrite <- app_assoc. f_equal. cbn. f_equal.
  - by rewrite Nat.add_0_r.
  - apply imap_ext. intros k x _. simpl. by rewrite Nat.add_succ_r.
Qed.

(** Creating the run of a rule writes what it owes. *)
Lemma create_execution_starts now eid sid w w0 defs db x db1 : unmatched w = unmatched w0 ->
  create_execution now eid sid w Event None defs db = Ok (x, db1) ->
  exists rows, starts now (w0, defs) (x, rows) /\ db1 = Store (workflows db) (executions db ++ [x]) (steps db ++ rows) (audit db).
Proof.
  intros Hw. unfold create_execution. destruct (existsb _ _); [done|]. rewrite result_bind_ok.
  intros (rows & Hr%insert_steps_rows & [= <- <-]). rewrite Hr. eexists. split; [|done]. unfold starts. cbn [e_id]. split_and!.
  - assert (w_id w = w_id w0 /\ w_organization_id w = w_organization_id w0) as [-> ->]; [|done].
    split; [apply (f_equal w_id Hw)|apply (f_equal w_organization_id Hw)].
  - apply length_imap.
  - intros k d row Hd Hk. rewrite list_lookup_imap, Hd in Hk. by injection Hk as <-.
Qed.

Lemma apply_rule_drained now ids e w w0 db owed runs d d' : unmatched w = unmatched w0 ->
  drained now db owed runs d -> apply_rule now ids e w d = Ok d' ->
  exists more, drained now db (owed ++ match firing (ev_payload e) w0 with Some o => [o] | None => [] end) (runs ++ more) d'
  /\ d_evaluated d' = d_evaluated d.
Proof.
  intros Hw [H1 H2 H3 H4 H5 H6 H7]. unfold apply_rule, firing.
  rewrite <- (react_unmatched (ev_payload e) w), Hw, react_unmatched.
  destruct (react w0 (ev_payload e)) as [defs|failed|].
  - rewrite result_bind_ok. intros ([x db1] & Hc%from_workflow_error_ok & H). apply result_bind_ok in H as (db2 & Hn & [= <-]).
    apply from_workflow_error_ok, note_match_same in Hn as (Hs & He & Hst & Hau).
    apply (create_execution_starts _ _ _ _ w0) in Hc as (rows & Hrun & ->); [|done]. exists [(x, rows)]. split; [|done]. simpl in *.
    constructor; simpl.
    + by etrans.
    + apply Forall2_app; [done|]. by constructor.
    + by rewrite He, H3, fmap_app, app_assoc.
    + rewrite Hst, H4, fmap_app, concat_app. simpl. by rewrite app_nil_r, app_assoc.
    + by rewrite H5, fmap_app.
    + rewrite H6, length_app. simpl. lia.
    + by rewrite Hau.
  - intros [= <-]. exists []. rewrite !app_nil_r. split; [|done]. by constructor.
  - intros [= <-]. exists []. rewrite !app_nil_r. split; [|done]. by constructor.
Qed.

Lemma apply_rules_drained now ids e rules rules0 db owed runs d d' : unmatched <$> rules = unmatched <$> rules0 ->
  drained now db owed runs d -> apply_rules now ids e rules d = Ok d' ->
  exists more, drained now db (owed ++ omap (firing (ev_payload e)) rules0) (runs ++ more) d' /\ d_evaluated d' = d_evaluated d.
Proof.
  revert rules0 owed runs d. induction rules as [|w rules IH]; intros rules0 owed runs d Hr Hd; cbn [apply_rules].
  { symmetry in Hr. apply fmap_nil_inv in Hr as ->. intros [= <-]. exists []. simpl. by rewrite !app_nil_r. }
  destruct rules0 as [|w0 rules0]; [done|]. rewrite !fmap_cons in Hr.
  assert (Hw : unmatched w = unmatched w0) by congruence. assert (Hr' : unmatched <$> rules = unmatched <$> rules0) by congruence. clear Hr.
  rewrite result_bind_ok. intros (d1 & H1 & H2).
  destruct (apply_rule_drained _ _ _ _ _ _ _ _ _ _ Hw Hd H1) as (more1 & Hd1 & E1).
  destruct (IH _ _ _ _ Hr' Hd1 H2) as (more2 & Hd2 & E2). exists (more1 ++ more2). rewrite <- E1. split; [|done].
  rewrite app_assoc. rewrite <- app_assoc in Hd2. cbn [omap list_omap]. by destruct (firing (ev_payload e) w0).
Qed.

Lemma evaluate_events_drained now ids events db owed runs d d' :
  drained now db owed runs d -> evaluate_events now ids events d = Ok d' ->
  exists more, drained now db (owed ++ concat (owed_runs db <$> events)) (runs ++ more) d'
  /\ d_evaluated d' = (d_evaluated d + length events)%nat.
Proof.
  revert owed runs d. induction events as [|e events IH]; intros owed runs d Hd; cbn [evaluate_events].
  { intros [= <-]. exists []. simpl. rewrite !app_nil_r. split; [done|lia]. }
  rewrite result_bind_ok. intros (d1 & H1 & H2).
  assert (exists more, drained now db (owed ++ owed_runs db e) (runs ++ more) d1 /\ d_evaluated d1 = S (d_evaluated d))
    as (more1 & Hd1 & E1).
  { revert H1. unfold evaluate_event, owed_runs.
    assert (Hd0 : drained now db owed runs (Draining (d_store d) (S (d_evaluated d)) (d_matched d)
      (d_skipped d) (d_started d) (d_failures d))) by (by destruct Hd).
    destruct (ev_organization_id e) as [o|].
    - intros H. refine (apply_rules_drained _ _ _ _ _ _ _ _ _ _ (list_event_rules_same o _ _ _ _ _) Hd0 H).
      symmetry. apply Hd.
    - intros [= <-]. exists []. by rewrite !app_nil_r. }
  destruct (IH _ _ _ Hd1 H2) as (more2 & Hd2 & E2). exists (more1 ++ more2). rewrite app_assoc. rewrite <- app_assoc in Hd2.
  simpl. split; [done|lia].
Qed.

Lemma audit_drain_rows d :
  workflows (audit_drain d) = workflows (d_store d) /\ executions (audit_drain d) = executions (d_store d)
  /\ steps (audit_drain d) = steps (d_store d).
Proof.
  unfold audit_drain.
  assert (H : forall A (f : store -> A -> store) l db,
    (forall db x, workflows (f db x) = workflows db /\ executions (f db x) = executions db /\ steps (f db x) = steps db) ->
    workflows (foldl f db l) = workflows db /\ executions (foldl f db l) = executions db
    /\ steps (foldl f db l) = steps db).
  { intros A f l. induction l as [|x l IH]; intros db Hf; [done|]. simpl.
    destruct (IH (f db x) Hf) as (-> & -> & ->). apply Hf. }
  match goal with |- context [foldl ?h (foldl ?g ?db0 ?l) ?l'] =>
    destruct (H _ g l db0) as (E1 & E2 & E3); [done|];
    destruct (H _ h l' (foldl g db0 l)) as (-> & -> & ->); [done|] end.
  by rewrite E1, E2, E3.
Qed.

Lemma events_after_reads b limit : 0 <= limit -> reads b (Z.to_nat limit) (events_after (b_cursor b) limit b).
Proof.
  intros Hl. unfold events_after, limited. set (newer := List.filter _ (b_events b)).
  pose proof (sort_by_sorted event_order newer) as Hs. set (sorted := sort_by event_order newer) in *.
  assert (Hle : StronglySorted (fun x y => ev_id x <= ev_id y) sorted).
  { eapply sorted_weaken; [|exact Hs]. intros x y. unfold cmp_le, event_order.
    destruct (Z.compare_spec (ev_id x) (ev_id y)); intros Hc; [lia|lia|done]. }
  split; [by apply sorted_take|]. exists (drop (Z.to_nat limit) sorted). split_and!.
  - rewrite take_drop. apply (sort_by_perm event_order).
  - intros x y Hx Hy. rewrite <- (take_drop (Z.to_nat limit) sorted) in Hle. exact (StronglySorted_app_1_elem_of _ _ _ x y Hle Hx Hy).
  - destruct (decide (length sorted <= Z.to_nat limit)%nat); [left; by apply drop_ge|right]. rewrite length_take. lia.
Qed.

(** C10. A drain that commits does exactly what it owes.  It reads the oldest events past the cursor in
    the order of their ids, up to the batch.  For each of them in turn, and for each rule that owes it
    a run, oldest first, it writes one run, and nothing else: the rule is enabled, of the event's
    tenant, of its site or of none, listens for its name, and every condition meets the payload; the
    run is open and of that rule, and has one row, not begun, for every action of the rule, with its
    placeholders filled in from the event.  The rules are left as they were but for their counters,
    and the cursor ends on the last event read. *)
Theorem drain_starts_what_it_owes (now batch : Z) (ids : id_supply) (b b' : bus) (r : match_report) :
  drain now batch true ids b = Ok (r, b') ->
  exists events owed started,
    reads b (Z.to_nat (Z.max 1 (Z.min MAX_BATCH batch))) events
    /\ Forall2 (owed_to (b_store b)) events owed
    /\ Forall2 (starts now) (concat owed) started
    /\ executions (b_store b') = executions (b_store b) ++ started.*1
    /\ steps (b_store b') = steps (b_store b) ++ concat started.*2
    /\ mr_runs r = e_id <$> started.*1
    /\ mr_matched r = length started /\ mr_evaluated r = length events
    /\ same_rules (b_store b) (b_store b')
    /\ b_cursor b' = default (b_cursor b) (ev_id <$> last events) /\ mr_cursor r = b_cursor b'
    /\ b_events b' = b_events b.
Proof.
  unfold drain. simpl. set (limit := Z.max 1 _). pose proof (events_after_reads b limit ltac:(lia)) as Hread.
  destruct (events_after _ _ b) as [|e l] eqn:E.
  { intros [= <- <-]. exists [], [], []. simpl. rewrite !app_nil_r. by split_and!. }
  rewrite result_bind_ok. intros (d & Hd & [= <- <-]).
  destruct (evaluate_events_drained now ids (e :: l) (b_store b) [] [] (Draining (b_store b) 0 0 0 [] []) d)
    as (runs & [H1 H2 H3 H4 H5 H6 H7] & He); [|done|].
  { constructor; simpl; try done; by rewrite app_nil_r. }
  destruct (audit_drain_rows d) as (Ew & Ee & Es). exists (e :: l), (owed_runs (b_store b) <$> (e :: l)), runs.
  cbn [b_store with_store mr_runs mr_matched mr_evaluated mr_cursor b_cursor with_cursor b_events].
  split_and!; [done| |done|by rewrite Ee|by rewrite Es|by rewrite H5| |done| |done..].
  - apply Forall2_fmap_r, Forall_Forall2_diag, Forall_forall. intros x _. apply owed_runs_owed.
  - rewrite H6. by apply Forall2_length in H2.
  - unfold same_rules. by rewrite Ew.
Qed.

(** ** What falls behind the cursor *)

Lemma run_bus_app ops1 ops2 b :
  run_bus (ops1 ++ ops2) b
  = ((run_bus ops2 (run_bus ops1 b).1).1, (run_bus ops1 b).2 ++ (run_bus ops2 (run_bus ops1 b).1).2).
Proof.
  revert b. induction ops1 as [|op ops IH]; intros b; cbn [run_bus app].
  { cbn [fst snd app]. apply surjective_pairing. }
  destruct (bus_step op b) as [b1 seen]. rewrite IH. destruct (run_bus ops b1) as [b2 later]. simpl.
  by rewrite app_assoc.
Qed.

(** An event the cursor has passed before it was evaluated never is. *)
Lemma passed_is_lost ops later db e :
  e ∉ (run_bus ops (empty_bus db)).2 -> ev_id e <= b_cursor (run_bus ops (empty_bus db)).1 ->
  e ∉ (run_bus (ops ++ later) (empty_bus db)).2.
Proof.
  intros Hn Hle. rewrite run_bus_app. simpl. intros [He|He]%elem_of_app; [done|].
  destruct (run_bus_log ops (empty_bus db) (empty_bus_ok db)) as (_ & Hb & _).
  destruct (run_bus_log later (run_bus ops (empty_bus db)).1 Hb) as (_ & _ & _ & _ & Hin).
  apply Hin in He. lia.
Qed.

(** A gap: an event whose transaction is still open when the cursor passes its id is never
    evaluated, whatever follows: not by the drains after its commit, and by no restart. *)
Theorem late_commit_is_missed (ops later : list bus_event) (db : store) (e : event_row) :
  e ∈ b_inserting (run_bus ops (empty_bus db)).1 ->
  ev_id e <= b_cursor (run_bus ops (empty_bus db)).1 ->
  e ∉ (run_bus (ops ++ later) (empty_bus db)).2.
Proof.
  intros Hi Hle. apply passed_is_lost; [|done]. intros He.
  destruct (run_bus_log ops (empty_bus db) (empty_bus_ok db)) as (_ & [Hn _ _ _] & _ & _ & Hin).
  apply Hin in He as [He _]. rewrite fmap_app in Hn. apply NoDup_app in Hn as (_ & Hd & _).
  by apply (Hd (ev_id e)); apply list_elem_of_fmap_2.
Qed.

(** A restart that finds the cursor still at 0 drops what was recorded before it. *)
Lemma reseed_skips b e :
  b_cursor b = 0 -> e ∈ b_events b -> ev_id e <= b_cursor (bus_step Boot b).1.
Proof.
  intros E. cbn [bus_step fst]. unfold seed_cursor. rewrite E. simpl. unfold last_committed.
  induction (b_events b) as [|x l IH]; [by intros ?%elem_of_nil|]. intros [->|He]%elem_of_cons;
    rewrite fmap_cons; cbn [foldr]; [lia|]. specialize (IH He). lia.
Qed.

(** A second gap: as long as no drain has moved the cursor off 0, a restart moves it past the
    events recorded since the installation's first boot, and none of them is ever evaluated. *)
Theorem restart_before_first_drain_skips (ops later : list bus_event) (db : store) (e : event_row) :
  b_cursor (run_bus ops (empty_bus db)).1 = 0 -> e ∈ b_events (run_bus ops (empty_bus db)).1 ->
  e ∉ (run_bus (ops ++ Boot :: later) (empty_bus db)).2.
Proof.
  intros Hc He. change (Boot :: later) with ([Boot] ++ later). rewrite app_assoc.
  destruct (run_bus_log ops (empty_bus db) (empty_bus_ok db)) as (_ & _ & _ & _ & Hin).
  apply passed_is_lost; rewrite run_bus_app; cbn [run_bus]; simpl.
  - rewrite app_nil_r. intros H%Hin. simpl in H. lia.
  - by apply reseed_skips.
Qed.
End Matcher.

(** ** Concrete runs *)

(** A reader under which every stored rule has no condition and one action. *)
#[local] Instance one_action : StoredJson (J := Z_number) := {|
  read_conditions := fun _ => Some [];
  read_steps := fun _ => Ok [StepDefinition s!"note" Task (Some s!"noop") (VObject []) 1];
  json_text := fun _ => []
|}.

Definition listening_rule : workflow (J := Z_number) :=
  Workflow 1 7 None s!"welcome" [] true s!"event" None (Some s!"user.registered") (VArray []) None
    (VArray []) None 0 None 0 0.
Definition rule_store : store := Store [listening_rule] [] [] [].

Definition registered : new_event (J := Z_number) :=
  NewEvent s!"user.registered" (Some 7) None None (VObject []).
Definition fresh_ids : id_supply := fun k => (Z.of_nat k + 100, fun i => Z.of_nat (10 * k + i) + 1000).

(** Two recorders, the second committing first, and a drain between the two commits. *)
Definition in_order_ops : list bus_event :=
  [Boot; Insert 1 registered; Commit 1; Insert 2 registered; Drain 3 100 true fresh_ids; Commit 2].
Definition racing_ops : list bus_event :=
  [Insert 1 registered; Insert 2 registered; Commit 2; Drain 3 100 true fresh_ids].
Definition recorded_ops : list bus_event := [Boot; Insert 1 registered; Commit 1].

Definition first_event : event_row (J := Z_number) :=
  EventRow 1 s!"user.registered" (Some 7) None None (VObject []) 1.
Definition after_ops (ops : list bus_event) : bus := (run_bus ops (empty_bus rule_store)).1.

Definition drained_once : bus :=
  match drain 3 100 true fresh_ids (after_ops recorded_ops) with Ok (_, b) => b | Err _ => after_ops [] end.

Lemma every_event_is_evaluated_witness :
  in_order in_order_ops (empty_bus rule_store) = true
  /\ (run_bus in_order_ops (empty_bus rule_store)).2
     ≡ₚ List.filter (fun e => ev_id e <=? b_cursor (after_ops in_order_ops)) (b_events (after_ops in_order_ops)).
Proof.
  split; [vm_compute; reflexivity|]. apply every_event_is_evaluated. vm_compute. reflexivity.
Defined.

Lemma late_commit_is_missed_witness :
  (b_cursor (after_ops racing_ops) =? 2) = true
  /\ first_event ∈ b_events (after_ops (racing_ops ++ [Commit 1]))
  /\ fires (ev_payload first_event) listening_rule = true
  /\ first_event ∉ (run_bus (racing_ops ++ [Commit 1; Drain 4 100 true fresh_ids]) (empty_bus rule_store)).2.
Proof.
  split_and!.
  - vm_compute. reflexivity.
  - apply (list_elem_of_lookup_2 _ 1). reflexivity.
  - vm_compute. reflexivity.
  - apply late_commit_is_missed; [apply (list_elem_of_lookup_2 _ 0); reflexivity|].
    apply Z.leb_le. vm_compute. reflexivity.
Defined.

Lemma restart_before_first_drain_skips_witness :
  fires (ev_payload first_event) listening_rule = true
  /\ first_event ∉ (run_bus (recorded_ops ++ [Boot; Drain 4 100 true fresh_ids]) (empty_bus rule_store)).2.
Proof.
  split; [vm_compute; reflexivity|].
  apply restart_before_first_drain_skips; [reflexivity|apply (list_elem_of_lookup_2 _ 0); reflexivity].
Defined.

(** The run of [listening_rule] for the one recorded event. *)
Lemma drain_starts_what_it_owes_witness :
  exists r b, drain 3 100 true fresh_ids (after_ops recorded_ops) = Ok (r, b)
  /\ mr_runs r = [100]
  /\ exists events owed started, reads (after_ops recorded_ops) 100 events /\ Forall2 (owed_to rule_store) events owed
       /\ Forall2 (starts 3) (concat owed) started /\ executions (b_store b) = started.*1.
Proof.
  destruct (drain 3 100 true fresh_ids (after_ops recorded_ops)) as [[r b]|] eqn:E.
  2: { exfalso. assert (is_ok (drain 3 100 true fresh_ids (after_ops recorded_ops)) = true) as H
         by (vm_compute; reflexivity). by rewrite E in H. }
  exists r, b. split; [done|]. split.
  { assert (match drain 3 100 true fresh_ids (after_ops recorded_ops) with Ok (r, _) => mr_runs r | Err _ => [] end = [100]) as H
      by (vm_compute; reflexivity). by rewrite E in H. }
  destruct (drain_starts_what_it_owes _ _ _ _ _ _ E) as (events & owed & started & Hr & Ho & Hs & Hx & _).
  exists events, owed, started. split; [exact Hr|]. split; [exact Ho|]. split; [exact Hs|exact Hx].
Defined.
