(* ===== verification/Networks.v ===== *)
(** * Addresses and networks: [crates/identity/src/security.rs], [crates/security/src/ip_rules.rs]

    Addresses as the standard library parses them, the networks of the identity crate with their
    masks, the address lists a sign-in reads, and the access rules of the security centre. Those
    rules keep their networks in the ipnet crate, which is an interface here. *)

From S2P Require Import Prelude.

(** ** Addresses ([std::net::IpAddr] and its [FromStr]) *)

Inductive ip_addr := V4 (a : Z) | V6 (a : Z).
#[export] Instance ip_addr_eq_dec : EqDecision ip_addr.
Proof. solve_decision. Defined.

Definition is_ipv4 (a : ip_addr) : bool := match a with V4 _ => true | V6 _ => false end.
Definition ip_width (a : ip_addr) : Z := if is_ipv4 a then 32 else 128.
Definition ip_bits (a : ip_addr) : Z := match a with V4 x => x | V6 x => x end.
Definition ip_ok (a : ip_addr) : Prop := 0 <= ip_bits a < 2 ^ ip_width a.

Definition to_digit (radix : Z) (c : char) : option Z :=
  let d := if is_ascii_digit c then Some (Z.of_N c - 48)
           else if in_range 97 102 c then Some (Z.of_N c - 87)
           else if in_range 65 70 c then Some (Z.of_N c - 55) else None in
  match d with Some x => if x <? radix then Some x else None | None => None end.

(** The leading digits: their count, their value and what follows them. *)
Fixpoint read_digits (radix : Z) (s : str) (count : nat) (acc : Z) : nat * Z * str :=
  match s with
  | c :: s' =>
      match to_digit radix c with
      | Some d => read_digits radix s' (S count) (acc * radix + d)
      | None => (count, acc, s)
      end
  | [] => (count, acc, [])
  end.

Definition read_number (radix : Z) (max_digits : nat) (max_value : Z) (allow_zero_prefix : bool) (s : str) :
  option (Z * str) :=
  let '(count, value, rest) := read_digits radix s 0 0 in
  let leading_zero := match s with c :: _ => (c =? c!"0")%N | [] => false end in
  if (count =? 0)%nat || (max_digits <? count)%nat || (max_value <? value) then None
  else if negb allow_zero_prefix && leading_zero && (1 <? count)%nat then None
  else Some (value, rest).

Definition read_given_char (c : char) (s : str) : option str :=
  match s with x :: s' => if (x =? c)%N then Some s' else None | [] => None end.

Definition read_separator {A} (sep : char) (index : nat) (inner : str -> option (A * str)) (s : str) :
  option (A * str) :=
  if (index =? 0)%nat then inner s else read_given_char sep s ≫= inner.

Fixpoint read_octets (n index : nat) (s : str) : option (list Z * str) :=
  match n with
  | O => Some ([], s)
  | S n =>
      match read_separator c!"." index (read_number 10 3 255 false) s with
      | Some (o, rest) => match read_octets n (S index) rest with
                          | Some (os, rest) => Some (o :: os, rest)
                          | None => None
                          end
      | None => None
      end
  end.

Definition join_groups (bits : Z) (groups : list Z) : Z := foldl (fun acc g => Z.lor (Z.shiftl acc bits) g) 0 groups.

Definition read_ipv4_addr (s : str) : option (Z * str) :=
  match read_octets 4 0 s with Some (os, rest) => Some (join_groups 8 os, rest) | None => None end.

(** [read_groups]: up to [limit] groups, the last two possibly an IPv4 address; whether it was. *)
Fixpoint read_groups (n i : nat) (s : str) : list Z * bool * str :=
  match n with
  | O => ([], false, s)
  | S n' =>
      let plain :=
        match read_separator c!":" i (read_number 16 4 65535 true) s with
        | Some (g, rest) => let '(gs, v4, rest) := read_groups n' (S i) rest in (g :: gs, v4, rest)
        | None => ([], false, s)
        end in
      if (1 <? n)%nat then
        match read_separator c!":" i read_ipv4_addr s with
        | Some (a, rest) => ([Z.shiftr a 16; Z.land a 65535], true, rest)
        | None => plain
        end
      else plain
  end.

Definition read_ipv6_addr (s : str) : option (Z * str) :=
  let '(head, head_v4, rest) := read_groups 8 0 s in
  if (length head =? 8)%nat then Some (join_groups 16 head, rest)
  else if head_v4 then None
  else
    match read_given_char c!":" rest ≫= read_given_char c!":" with
    | None => None
    | Some rest =>
        let '(tail, _, rest) := read_groups (8 - (length head + 1)) 0 rest in
        Some (join_groups 16 (head ++ replicate (8 - length head - length tail) 0 ++ tail), rest)
    end.

Definition parse_ip (s : str) : option ip_addr :=
  match read_ipv4_addr s with
  | Some (a, []) => Some (V4 a)
  | Some _ => None
  | None => match read_ipv6_addr s with Some (a, []) => Some (V6 a) | _ => None end
  end.

Definition parse_u8 (s : str) : option Z := Z.of_N <$> parse_unsigned u8_max s.

(** ** Networks of the identity crate *)

Inductive network_error := InvalidNetwork.

Record cidr := Cidr { cidr_address : ip_addr; cidr_prefix : Z }.

Definition cidr_parse (text : str) : result cidr network_error :=
  let text := trim text in
  let '(address, prefix) :=
    match split_once c!"/" text with Some (a, p) => (a, Some p) | None => (text, None) end in
  let? address := ok_or (parse_ip (trim address)) InvalidNetwork in
  let max := if is_ipv4 address then 32 else 128 in
  let? prefix := match prefix with
                 | Some prefix => ok_or (parse_u8 (trim prefix)) InvalidNetwork
                 | None => Ok max
                 end in
  refuse max <? prefix with InvalidNetwork in
  Ok (Cidr address prefix).

(** Shifts of machine words drop what leaves the word. *)
Definition mask_u32 (prefix : Z) : Z :=
  if prefix =? 0 then 0 else Z.land (Z.shiftl (Z.ones 32) (32 - prefix)) (Z.ones 32).
Definition mask_u128 (prefix : Z) : Z :=
  if prefix =? 0 then 0 else Z.land (Z.shiftl (Z.ones 128) (128 - prefix)) (Z.ones 128).

Definition cidr_contains (n : cidr) (ip : ip_addr) : bool :=
  match cidr_address n, ip with
  | V4 network, V4 candidate =>
      let mask := mask_u32 (cidr_prefix n) in Z.land network mask =? Z.land candidate mask
  | V6 network, V6 candidate =>
      let mask := mask_u128 (cidr_prefix n) in Z.land network mask =? Z.land candidate mask
  | _, _ => false
  end.

(** ** The address lists of a sign-in *)

Inductive ip_verdict := Allowed | Denied (rule reason : str).
Definition is_denied (v : ip_verdict) : bool := match v with Denied _ _ => true | Allowed => false end.

Definition entry_contains (ip : ip_addr) (entry : str) : bool :=
  match cidr_parse entry with Ok n => cidr_contains n ip | Err _ => false end.

Definition blank (s : str) : bool := str_eqb (trim s) [].

Definition check_ip (ip_denylist ip_allowlist : list str) (ip : option ip_addr) : ip_verdict :=
  match ip with
  | None => Allowed
  | Some ip =>
      match List.find (entry_contains ip) ip_denylist with
      | Some entry => Denied (trim entry) s!"denylist"
      | None =>
          match List.filter (fun e => negb (blank e)) ip_allowlist with
          | [] => Allowed
          | allowlist =>
              if existsb (entry_contains ip) allowlist then Allowed
              else Denied (join s!", " ip_allowlist) s!"allowlist"
          end
      end
  end.

(** ** Access rules of the security centre *)

(** The ipnet crate: building, canonicalising, comparing, printing, parsing and testing. *)
Class IpNets := {
  ipnet : Type;
  net_new : ip_addr -> Z -> option ipnet;
  net_trunc : ipnet -> ipnet;
  net_eqb : ipnet -> ipnet -> bool;
  net_show : ipnet -> str;
  net_parse : str -> option ipnet;
  net_contains : ipnet -> ip_addr -> bool
}.

Inductive rule_kind := Allow | Deny.
#[export] Instance rule_kind_eq_dec : EqDecision rule_kind.
Proof. solve_decision. Defined.
Definition rule_kind_as_str (k : rule_kind) : str := match k with Allow => s!"allow" | Deny => s!"deny" end.
Definition rule_kind_parse (raw : str) : option rule_kind :=
  if str_eqb raw s!"allow" then Some Allow else if str_eqb raw s!"deny" then Some Deny else None.

Record ip_rule := IpRule {
  ir_id : Z;
  ir_kind : rule_kind;
  ir_cidr : str;
  ir_note : str;
  ir_created_by : option Z;
  ir_created_at : Z;
  ir_expires_at : option Z
}.

Record rule_verdict := RuleVerdict {
  rv_blocked : bool;
  rv_decision : option rule_kind;
  rv_matched : option ip_rule;
  rv_expired : option ip_rule
}.

(** How an operator's text is answered. [Panics] is an arithmetic overflow, which stops the
    handler in a build with overflow checks. *)
Inductive parsed := Network (text : str) | Refused | Panics.

Section Rules.
Context `{N : IpNets}.

(** [1u128 << by] *)
Definition shl_u128 (by_ : Z) : option Z := if (0 <=? by_) && (by_ <? 128) then Some (2 ^ by_) else None.

Definition parse_cidr (raw : str) : parsed :=
  let trimmed := trim raw in
  if str_eqb trimmed [] then Refused
  else
    let '(address_text, prefix_text) :=
      match split_once c!"/" trimmed with Some (a, p) => (a, Some p) | None => (trimmed, None) end in
    match parse_ip (trim address_text) with
    | None => Refused
    | Some address =>
        let full := if is_ipv4 address then 32 else 128 in
        match (match prefix_text with None => Some full | Some p => parse_u8 (trim p) end) with
        | None => Refused
        | Some prefix =>
            match net_new address prefix with
            | None => Refused
            | Some network =>
                if negb (net_eqb (net_trunc network) network) then
                  (* the message names how many addresses the network covers *)
                  if prefix =? full then Refused
                  else match shl_u128 (full - prefix) with Some _ => Refused | None => Panics end
                else Network (net_show network)
            end
        end
    end.

Definition network_text (address : ip_addr) (prefix : Z) : option str :=
  (fun n => net_show (net_trunc n)) <$> net_new address prefix.

Definition rule_contains (text : str) (address : ip_addr) : bool :=
  match net_parse text with Some n => net_contains n address | None => false end.

Definition or_else {A} (a b : option A) : option A := match a with Some x => Some x | None => b end.

Definition rule_expired (now : Z) (r : ip_rule) : bool :=
  match ir_expires_at r with Some at_ => at_ <=? now | None => false end.

(** The loop's state: the first live deny, the first live allow, the first expired deny. *)
Definition rule_step (address : ip_addr) (now : Z)
  (st : option ip_rule * option ip_rule * option ip_rule) (r : ip_rule) :
  option ip_rule * option ip_rule * option ip_rule :=
  let '(deny, allow, expired) := st in
  if negb (rule_contains (ir_cidr r) address) then st
  else if rule_expired now r then
    (deny, allow, or_else expired (if bool_decide (ir_kind r = Deny) then Some r else None))
  else match ir_kind r with
       | Deny => (or_else deny (Some r), allow, expired)
       | Allow => (deny, or_else allow (Some r), expired)
       end.

Definition evaluate (rules : list ip_rule) (address : option ip_addr) (now : Z) : rule_verdict :=
  match address with
  | None => RuleVerdict false None None None
  | Some address =>
      let '(deny, allow, expired) := foldl (rule_step address now) (None, None, None) rules in
      match deny, allow with
      | Some d, _ => RuleVerdict true (Some Deny) (Some d) expired
      | None, Some a => RuleVerdict false (Some Allow) (Some a) expired
      | None, None => RuleVerdict false None None expired
      end
  end.

(** ** What the rules decide *)

Definition live (address : ip_addr) (now : Z) (k : rule_kind) (r : ip_rule) : bool :=
  rule_contains (ir_cidr r) address && negb (rule_expired now r) && bool_decide (ir_kind r = k).
Definition lapsed (address : ip_addr) (now : Z) (r : ip_rule) : bool :=
  rule_contains (ir_cidr r) address && rule_expired now r && bool_decide (ir_kind r = Deny).

Lemma evaluate_loop address now rules deny allow expired :
  foldl (rule_step address now) (deny, allow, expired) rules
  = (or_else deny (List.find (live address now Deny) rules),
     or_else allow (List.find (live address now Allow) rules),
     or_else expired (List.find (lapsed address now) rules)).
Proof.
  revert deny allow expired. induction rules as [|r rules IH]; intros deny allow expired.
  { simpl. by destruct deny, allow, expired. }
  cbn [foldl]. unfold live, lapsed. cbn [List.find].
  assert (E : rule_step address now (deny, allow, expired) r
    = if negb (rule_contains (ir_cidr r) address) then (deny, allow, expired)
      else if rule_expired now r then
        (deny, allow, or_else expired (if bool_decide (ir_kind r = Deny) then Some r else None))
      else match ir_kind r with
           | Deny => (or_else deny (Some r), allow, expired)
           | Allow => (deny, or_else allow (Some r), expired)
           end) by done.
  rewrite E. clear E. destruct (rule_contains (ir_cidr r) address); cbn [negb andb]; [|by rewrite IH].
  destruct (rule_expired now r), (ir_kind r); cbn [negb andb]; rewrite IH;
    repeat case_bool_decide; try done; by destruct deny, allow, expired.
Qed.

(** The access list decides by what is in it and not by its order: an address is refused
    exactly when some rule in force denies a network that holds it, it is allowed by a rule exactly
    when none denies it and one in force allows it, rules that have expired decide nothing, and
    any reordering of the rules gives the same answer. *)
Theorem access_rules_decide (rules rules' : list ip_rule) (address : ip_addr) (now : Z) :
  rv_blocked (evaluate rules (Some address) now) = existsb (live address now Deny) rules
  /\ rv_decision (evaluate rules (Some address) now)
     = (if existsb (live address now Deny) rules then Some Deny
        else if existsb (live address now Allow) rules then Some Allow else None)
  /\ (rules ≡ₚ rules' ->
      rv_blocked (evaluate rules (Some address) now) = rv_blocked (evaluate rules' (Some address) now)
      /\ rv_decision (evaluate rules (Some address) now) = rv_decision (evaluate rules' (Some address) now)).
Proof.
  assert (H : forall l, rv_blocked (evaluate l (Some address) now) = existsb (live address now Deny) l
    /\ rv_decision (evaluate l (Some address) now)
     = (if existsb (live address now Deny) l then Some Deny
        else if existsb (live address now Allow) l then Some Allow else None)).
  { intros l. unfold evaluate. rewrite evaluate_loop. cbn [or_else].
    rewrite <- !find_exists. by destruct (List.find (live address now Deny) l), (List.find (live address now Allow) l). }
  split_and!; [apply H|apply H|]. intros Hp.
  assert (He : forall k, existsb (live address now k) rules = existsb (live address now k) rules').
  { intros k. apply eq_true_iff_eq. rewrite !existsb_elem. by setoid_rewrite Hp. }
  destruct (H rules) as [-> ->], (H rules') as [-> ->]. by rewrite !He.
Qed.

End Rules.

(** ** Masks *)

Definition prefix_of (w p x : Z) : Z := Z.shiftr x (w - p).

Lemma land_mask w p x :
  0 <= p <= w -> 0 <= x < 2 ^ w ->
  Z.land x (Z.land (Z.shiftl (Z.ones w) (w - p)) (Z.ones w)) = Z.shiftl (prefix_of w p x) (w - p).
Proof.
  intros Hp Hx. unfold prefix_of. apply Z.bits_inj'. intros i Hi.
  rewrite !Z.land_spec, !Z.shiftl_spec by lia. rewrite (Z.testbit_ones_nonneg w i) by lia.
  destruct (Z.lt_ge_cases i (w - p)) as [Hlt|Hge].
  - rewrite !(Z.testbit_neg_r _ (i - (w - p))) by lia. by rewrite andb_false_l, andb_false_r.
  - rewrite Z.shiftr_spec by lia. replace (i - (w - p) + (w - p)) with i by lia.
    rewrite Z.testbit_ones_nonneg by lia. destruct (Z.lt_ge_cases i w) as [Hw|Hw].
    + rewrite !(proj2 (Z.ltb_lt _ _)) by lia. by rewrite !andb_true_r.
    + rewrite (proj2 (Z.ltb_ge i w)) by lia. rewrite !andb_false_r. symmetry.
      destruct (Z.eq_dec x 0) as [->|Hne]; [apply Z.bits_0|].
      apply Z.bits_above_log2; [lia|]. assert (Z.log2 x < w); [|lia]. apply Z.log2_lt_pow2; lia.
Qed.

Lemma shiftl_inj a b n : 0 <= n -> Z.shiftl a n = Z.shiftl b n -> a = b.
Proof. intros Hn. rewrite !Z.shiftl_mul_pow2 by done. intros H. apply Z.mul_reg_r in H; [done|]. lia. Qed.

Lemma mask_compare w p x y :
  0 <= p <= w -> 0 <= x < 2 ^ w -> 0 <= y < 2 ^ w ->
  let mask := Z.land (Z.shiftl (Z.ones w) (w - p)) (Z.ones w) in
  (Z.land x mask =? Z.land y mask) = (prefix_of w p x =? prefix_of w p y).
Proof.
  intros Hp Hx Hy. cbn zeta. rewrite !land_mask by done. apply eq_true_iff_eq. rewrite !Z.eqb_eq. split.
  - apply shiftl_inj. lia.
  - by intros ->.
Qed.

Lemma mask_u32_eq p : 0 <= p <= 32 -> mask_u32 p = Z.land (Z.shiftl (Z.ones 32) (32 - p)) (Z.ones 32).
Proof. intros H. unfold mask_u32. destruct (p =? 0) eqn:E; [|done]. by apply Z.eqb_eq in E as ->. Qed.
Lemma mask_u128_eq p : 0 <= p <= 128 -> mask_u128 p = Z.land (Z.shiftl (Z.ones 128) (128 - p)) (Z.ones 128).
Proof. intros H. unfold mask_u128. destruct (p =? 0) eqn:E; [|done]. by apply Z.eqb_eq in E as ->. Qed.

(** A network holds exactly the addresses of its family that share its leading bits, for every
    prefix length from nothing to the whole width: the masks of 32 and 128 bits neither overflow
    nor shift too far, and the host bits of the network's own address do not matter. *)
Theorem cidr_contains_exact (n : cidr) (ip : ip_addr) :
  ip_ok (cidr_address n) -> ip_ok ip -> 0 <= cidr_prefix n <= ip_width (cidr_address n) ->
  cidr_contains n ip
  = Bool.eqb (is_ipv4 (cidr_address n)) (is_ipv4 ip)
    && (prefix_of (ip_width ip) (cidr_prefix n) (ip_bits (cidr_address n))
        =? prefix_of (ip_width ip) (cidr_prefix n) (ip_bits ip)).
Proof.
  destruct n as [[a|a] p], ip as [b|b]; unfold ip_ok, cidr_contains; simpl; intros Ha Hb Hp; try done.
  - rewrite mask_u32_eq by done. by apply (mask_compare 32).
  - rewrite mask_u128_eq by done. by apply (mask_compare 128).
Qed.

(** ** What the address lists decide *)

Lemma blank_entry ip e : blank e = true -> entry_contains ip e = false.
Proof. unfold blank, entry_contains, cidr_parse. intros ->%str_eqb_eq. reflexivity. Qed.

(** The lists of a sign-in: an address is refused exactly when an entry of the deny list holds
    it, or the allow list has an entry and none of its entries holds it; a denied address is
    refused whatever the allow list says, and an address that is not known is let through. *)
Theorem address_lists_decide (deny allow : list str) (ip : ip_addr) :
  check_ip deny allow None = Allowed
  /\ is_denied (check_ip deny allow (Some ip))
     = existsb (entry_contains ip) deny
       || existsb (fun e => negb (blank e)) allow && negb (existsb (entry_contains ip) allow)
  /\ (existsb (entry_contains ip) deny = true ->
      exists e, e ∈ deny /\ entry_contains ip e = true
        /\ check_ip deny allow (Some ip) = Denied (trim e) s!"denylist").
Proof.
  split; [done|]. unfold check_ip. destruct (List.find (entry_contains ip) deny) as [e|] eqn:E.
  - pose proof E as [He%list_elem_of_In Hc]%find_some. rewrite <- find_exists, E. split; [done|]. intros _.
    by exists e.
  - rewrite <- find_exists, E. simpl. split; [|done].
    assert (Hx : existsb (entry_contains ip) (List.filter (fun e => negb (blank e)) allow)
      = existsb (entry_contains ip) allow).
    { clear E. induction allow as [|x l IH]; simpl; [done|]. destruct (blank x) eqn:Eb; simpl; rewrite IH; [|done].
      by rewrite (blank_entry ip x Eb). }
    assert (Hn : existsb (fun e => negb (blank e)) allow
      = negb (match List.filter (fun e => negb (blank e)) allow with [] => true | _ => false end)).
    { clear E Hx. induction allow as [|x l IH]; simpl; [done|]. destruct (negb (blank x)); [done|apply IH]. }
    rewrite Hn, <- Hx. destruct (List.filter _ allow) as [|y l']; [done|]. cbn [negb andb].
    cbn [existsb]. by destruct (entry_contains ip y || _).
Qed.

(** A gap: a text that sets bits outside a prefix of no bits stops the handler instead of being
    refused. The message says how many addresses such a network covers, and for IPv6 that is a
    shift of a 128-bit word by 128. *)
Theorem span_of_every_address_overflows `{N : IpNets} (n : ipnet) :
  net_new (V6 1) 0 = Some n -> net_eqb (net_trunc n) n = false -> parse_cidr s!"::1/0" = Panics.
Proof.
  intros H1 H2. unfold parse_cidr.
  replace (trim s!"::1/0") with s!"::1/0" by (vm_compute; reflexivity).
  replace (split_once c!"/" s!"::1/0") with (Some (s!"::1", s!"0")) by (vm_compute; reflexivity).
  replace (parse_ip (trim s!"::1")) with (Some (V6 1)) by (vm_compute; reflexivity).
  replace (parse_u8 (trim s!"0")) with (Some 0) by (vm_compute; reflexivity).
  by rewrite H1, H2.
Qed.

(** ** Concrete networks *)

(** Networks as pairs, with the identity crate's test. *)
Definition pair_new (a : ip_addr) (p : Z) : option cidr := if p <=? ip_width a then Some (Cidr a p) else None.
Definition pair_trunc (n : cidr) : cidr :=
  let w := ip_width (cidr_address n) in
  let cut x := Z.shiftl (prefix_of w (cidr_prefix n) x) (w - cidr_prefix n) in
  Cidr (match cidr_address n with V4 a => V4 (cut a) | V6 a => V6 (cut a) end) (cidr_prefix n).
#[export] Instance pair_nets : IpNets := {|
  ipnet := cidr;
  net_new := pair_new;
  net_trunc := pair_trunc;
  net_eqb := fun a b => bool_decide (cidr_address a = cidr_address b) && (cidr_prefix a =? cidr_prefix b);
  net_show := fun n => show_Z (cidr_prefix n);
  net_parse := fun s => match cidr_parse s with Ok n => Some n | Err _ => None end;
  net_contains := cidr_contains
|}.

Lemma span_of_every_address_overflows_witness : parse_cidr s!"::1/0" = Panics.
Proof. apply (span_of_every_address_overflows (N := pair_nets) (Cidr (V6 1) 0)); reflexivity. Defined.

Definition office : cidr := Cidr (V4 167772161) 8.
Lemma cidr_contains_exact_witness : cidr_contains office (V4 184549375) = true.
Proof. rewrite cidr_contains_exact; [reflexivity|vm_compute; split; [discriminate|reflexivity]..|vm_compute; split; discriminate]. Defined.

Lemma address_lists_decide_witness :
  check_ip [s!"10.0.0.0/8"] [s!"10.1.0.0/16"; s!" "] (parse_ip s!"10.1.2.3") = Denied s!"10.0.0.0/8" s!"denylist".
Proof.
  replace (parse_ip s!"10.1.2.3") with (Some (V4 167838211)) by (vm_compute; reflexivity).
  destruct (address_lists_decide [s!"10.0.0.0/8"] [s!"10.1.0.0/16"; s!" "] (V4 167838211)) as (_ & _ & H).
  destruct H as (e & He & _ & ->); [vm_compute; reflexivity|].
  apply list_elem_of_singleton in He as ->. vm_compute. reflexivity.
Defined.

Lemma access_rules_decide_witness :
  let deny := IpRule 1 Deny s!"10.1.0.0/16" [] None 0 (Some 50) in
  let allow := IpRule 2 Allow s!"10.0.0.0/8" [] None 0 None in
  rv_decision (evaluate [deny; allow] (Some (V4 167838211)) 60) = Some Allow
  /\ rv_decision (evaluate [deny; allow] (Some (V4 167838211)) 40) = rv_decision (evaluate [allow; deny] (Some (V4 167838211)) 40).
Proof.
  intros deny allow. split.
  - rewrite (proj1 (proj2 (access_rules_decide [deny; allow] [] _ _))). vm_compute. reflexivity.
  - apply (access_rules_decide [deny; allow] [allow; deny]). constructor.
Defined.
