(* ===== verification/RateLimit.v ===== *)
(** * The rate limiter: [crates/security/src/limiter.rs], [limiter_redis.rs],
    [apps/api/src/rate_limit_middleware.rs], [routes/security_limiter.rs]

    The policy document and its checks, the scope of a request, the decision, the counter in
    Redis, the layer every request passes, the save and the dry run of the security screen. Redis
    is an interface: entries with a value and an expiry, and the commands the code sends. *)

From S2P Require Import Prelude Json Networks.

(** ** The policy document *)

Definition RATE_SCOPES : list str :=
  [s!"global"; s!"sign_in"; s!"public_api"; s!"authenticated_api"; s!"webhook_intake"].

Definition MAX_WINDOW_SECONDS : Z := 86400.
Definition MIN_LIMIT : Z := 1.
Definition MAX_LIMIT : Z := 1000000.
Definition MAX_BURST : Z := 10000.
Definition MAX_PAGE : nat := 200.

Inductive rate_error :=
| EmptyScope | UnknownScope | BadWindow | BadLimit | BadBurst | UnreadableRow | NoPolicy | WrongRowCount
| DocumentMoved | NotAnAddress.

Record rate_policy := RatePolicy {
  rp_scope : str;
  rp_window_seconds : Z;
  rp_limit : Z;
  rp_burst : Z;
  rp_enabled : bool
}.

Definition rate_defaults : list rate_policy :=
  [ RatePolicy s!"global" 60 600 100 true;
    RatePolicy s!"sign_in" 300 10 0 true;
    RatePolicy s!"public_api" 60 120 20 true;
    RatePolicy s!"authenticated_api" 60 1200 200 true;
    RatePolicy s!"webhook_intake" 60 300 50 true ].

(** [RatePolicy::new]; [to_lowercase] is the Unicode mapping of the standard library. *)
Definition rate_policy_new (to_lowercase : str -> str) (scope : str) (window_seconds limit burst : Z)
  (enabled : bool) : result rate_policy rate_error :=
  let scope := to_lowercase (trim scope) in
  refuse str_eqb scope [] with EmptyScope in
  refuse negb (existsb (str_eqb scope) RATE_SCOPES) with UnknownScope in
  refuse (window_seconds <? 1) || (MAX_WINDOW_SECONDS <? window_seconds) with BadWindow in
  refuse (limit <? MIN_LIMIT) || (MAX_LIMIT <? limit) with BadLimit in
  refuse negb ((0 <=? burst) && (burst <=? MAX_BURST)) with BadBurst in
  Ok (RatePolicy scope window_seconds limit burst enabled).

(** [i32] addition, as a release build does it: what leaves the word is dropped. *)
Definition add_i32 (a b : Z) : Z := (a + b + 2 ^ 31) mod 2 ^ 32 - 2 ^ 31.

Definition ceiling (p : rate_policy) : Z := add_i32 (rp_limit p) (rp_burst p).
Definition admits (p : rate_policy) (count : Z) : bool := count <=? add_i32 (rp_limit p) (rp_burst p).

(** ** Clients and their counters *)

Record client_id := ClientId { cl_user_id : option str; cl_ip : option ip_addr }.

(** [Display] of an IPv4 address; an IPv6 address is written by the standard library with its
    longest run of zero groups elided, which is an argument here. *)
Definition show_v4 (a : Z) : str :=
  join s!"." ((fun sh => show_Z (Z.land (Z.shiftr a sh) 255)) <$> [24; 16; 8; 0]).

Section Limiter.
Context (show_v6 : Z -> str).

Definition show_ip (a : ip_addr) : str := match a with V4 x => show_v4 x | V6 x => show_v6 x end.

Definition client_key (c : client_id) : str :=
  match cl_user_id c with
  | Some user => s!"user:" ++ user
  | None => match cl_ip c with Some ip => s!"ip:" ++ show_ip ip | None => s!"anon" end
  end.

Definition counter_identity (p : rate_policy) (c : client_id) : str :=
  if str_eqb (rp_scope p) s!"authenticated_api" then client_key c
  else match cl_ip c with Some ip => s!"ip:" ++ show_ip ip | None => client_key c end.

Definition hex_digit (d : Z) : char := Z.to_N (if d <? 10 then 48 + d else 87 + d).
(** [{hash:016x}] *)
Definition hex16 (h : Z) : str :=
  (fun i => hex_digit (Z.land (Z.shiftr h (4 * (15 - Z.of_nat i))) 15)) <$> seq 0 16.

Definition fnv_step (hash byte : Z) : Z := (Z.lxor hash byte * 1099511628211) mod 2 ^ 64.
Definition short_hash (value : str) : str :=
  hex16 (foldl fnv_step 14695981039346656037 (mjoin (utf8_bytes <$> value))).

Definition bucket (p : rate_policy) (now : Z) : Z := now `div` Z.max 1 (rp_window_seconds p).

Definition counter_key (p : rate_policy) (c : client_id) (now : Z) : str :=
  s!"omnion:rl:" ++ rp_scope p ++ s!":" ++ show_Z (bucket p now) ++ s!":" ++ short_hash (counter_identity p c).

(** ** Scopes *)

Record request_facts := RequestFacts {
  rf_method : str;
  rf_path : str;
  rf_client : client_id;
  rf_machine_key : bool;
  rf_exempt : bool
}.

Definition trim_slashes (path : str) : str := trim_end_by (fun c => (c =? c!"/")%N) path.

Definition is_sign_in (method path : str) : bool :=
  if negb (existsb (str_eqb (to_ascii_uppercase method)) [s!"POST"; s!"PUT"; s!"PATCH"; s!"DELETE"]) then false
  else
    let path := trim_slashes path in
    ends_with path s!"/sign-in" || ends_with path s!"/signin" || ends_with path s!"/login"
    || ends_with path s!"/session" || ends_with path s!"/mfa/verify".

Definition is_webhook_intake (path : str) : bool :=
  let path := trim_slashes path in
  contains_sub path s!"/webhooks/intake" || contains_sub path s!"/hooks/intake" || ends_with path s!"/intake".

Definition scope_of (facts : request_facts) : str :=
  if rf_exempt facts then s!"exempt"
  else if is_sign_in (rf_method facts) (rf_path facts) then s!"sign_in"
  else if negb (is_given (cl_user_id (rf_client facts))) then s!"public_api"
  else if is_webhook_intake (rf_path facts) then s!"webhook_intake"
  else s!"authenticated_api".

(** ** The decision *)

Record verdict := Verdict {
  v_limited : bool;
  v_scope : str;
  v_count : Z;
  v_ceiling : Z;
  v_retry_after : option Z
}.

Definition policy_of (policies : list rate_policy) (scope : str) : option rate_policy :=
  List.find (fun p => str_eqb (rp_scope p) scope) policies.

Definition decide (policies : list rate_policy) (scope : str) (client : client_id) (count now : Z) :
  result verdict rate_error :=
  let? policy := ok_or (policy_of policies scope) NoPolicy in
  if negb (rp_enabled policy) then Ok (Verdict false scope count (ceiling policy) None)
  else if str_eqb (rp_scope policy) s!"public_api" && is_given (cl_user_id client) then
    Ok (Verdict false scope 0 (ceiling policy) None)
  else if admits policy count then Ok (Verdict false scope count (ceiling policy) None)
  else
    let elapsed := now `mod` Z.max 1 (rp_window_seconds policy) in
    let retry_after := Z.max 1 (rp_window_seconds policy - elapsed) in
    Ok (Verdict true scope count (ceiling policy) (Some retry_after)).

(** ** The stored document *)

Section Document.
Context `{J : JsonNumber}.

Definition in_i32 (z : Z) : bool := (- 2 ^ 31 <=? z) && (z <? 2 ^ 31).
Definition read_i32 (v : value) : option Z := as_i64 v ≫= fun z => if in_i32 z then Some z else None.
Definition read_bool (v : value) : option bool := match v with VBool b => Some b | _ => None end.

(** [serde_json::from_value::<RatePolicy>]: the derived reader takes an object with every field, or
    the fields in order as an array; it reads types and widths. *)
Definition policy_of_fields (scope window limit burst enabled : value) : option rate_policy :=
  scope ← as_str scope;
  window ← as_i64 window;
  limit ← read_i32 limit;
  burst ← read_i32 burst;
  enabled ← read_bool enabled;
  Some (RatePolicy scope window limit burst enabled).

Definition policy_from_value (row : value) : option rate_policy :=
  match row with
  | VObject m =>
      scope ← obj_get s!"scope" m;
      window ← obj_get s!"window_seconds" m;
      limit ← obj_get s!"limit" m;
      burst ← obj_get s!"burst" m;
      enabled ← obj_get s!"enabled" m;
      policy_of_fields scope window limit burst enabled
  | VArray [scope; window; limit; burst; enabled] => policy_of_fields scope window limit burst enabled
  | _ => None
  end.

Definition policy_to_value (p : rate_policy) : value :=
  VObject
    (obj_insert s!"scope" (VString (rp_scope p))
    (obj_insert s!"window_seconds" (VNumber (number_of_Z (rp_window_seconds p)))
    (obj_insert s!"limit" (VNumber (number_of_Z (rp_limit p)))
    (obj_insert s!"burst" (VNumber (number_of_Z (rp_burst p)))
    (obj_insert s!"enabled" (VBool (rp_enabled p)) []))))).

(** [if let Some(slot) = merged.iter_mut().find(..) { *slot = stored }] *)
Fixpoint replace_scope (stored : rate_policy) (merged : list rate_policy) : list rate_policy :=
  match merged with
  | [] => []
  | p :: rest => if str_eqb (rp_scope p) (rp_scope stored) then stored :: rest else p :: replace_scope stored rest
  end.

Definition merge_row (merged : list rate_policy) (row : value) : list rate_policy :=
  match policy_from_value row with
  | None => merged
  | Some stored =>
      if negb (existsb (str_eqb (rp_scope stored)) RATE_SCOPES) then merged else replace_scope stored merged
  end.

Definition merge_with_defaults (document : value) : list rate_policy :=
  match as_array document with None => rate_defaults | Some rows => foldl merge_row rate_defaults rows end.

Definition to_document (policies : list rate_policy) : value := VArray (policy_to_value <$> policies).

Definition parse_document (document : value) : result (list rate_policy) rate_error :=
  match as_array document with
  | None => Ok rate_defaults
  | Some rows => collect ((fun row => ok_or (policy_from_value row) UnreadableRow) <$> rows)
  end.

Definition scope_options : list str := take MAX_PAGE RATE_SCOPES.

(** [save_rate_limits]: the singleton row changes when the stored document is the expected one. *)
Definition save_rate_limits (stored document : value) (expected : option value) : result value rate_error :=
  require (match expected with Some e => value_eqb stored e | None => false end) else DocumentMoved in
  Ok document.

(** [put_rate_limits] as far as the documents go: the stored document after the save and the
    policies installed in the running layer. *)
Definition put_rate_limits (loaded stored document : value) : result (value * list rate_policy) rate_error :=
  let? policies := parse_document document in
  refuse negb (length policies =? length RATE_SCOPES)%nat with WrongRowCount in
  let? saved := save_rate_limits stored (to_document policies) (Some loaded) in
  Ok (saved, merge_with_defaults saved).
End Document.

(** ** The counter in Redis *)

(** A server's keys: a key holds a number and, when it has one, the instant it expires. *)
Class Redis := {
  redis : Type;
  redis_entry : redis -> str -> option (Z * option Z);
  redis_incr : Z -> str -> redis -> redis * Z;
  redis_expire : Z -> str -> Z -> redis -> redis;
  redis_del : str -> redis -> redis
}.

Definition live_entry (at_ : Z) (e : option (Z * option Z)) : option (Z * option Z) :=
  match e with
  | Some (v, Some x) => if at_ <? x then Some (v, Some x) else None
  | _ => e
  end.
Definition live_count (at_ : Z) (e : option (Z * option Z)) : Z :=
  match live_entry at_ e with Some (v, _) => v | None => 0 end.

(** What the documentation of the commands says: [INCR] adds one to the live value, an absent or
    expired key counting as zero with no expiry, and answers the sum; [EXPIRE] sets the expiry of a
    key that exists; no command touches another key. *)
Class RedisLaws (R : Redis) : Prop := {
  incr_reply : forall at_ k r, live_count at_ (redis_entry r k) < i64_max ->
    snd (redis_incr at_ k r) = live_count at_ (redis_entry r k) + 1;
  incr_entry : forall at_ k r, live_count at_ (redis_entry r k) < i64_max ->
    redis_entry (fst (redis_incr at_ k r)) k
    = Some (live_count at_ (redis_entry r k) + 1, live_entry at_ (redis_entry r k) ≫= snd);
  incr_other : forall at_ k k' r, k <> k' -> redis_entry (fst (redis_incr at_ k r)) k' = redis_entry r k';
  expire_entry : forall at_ k ttl r v e, redis_entry r k = Some (v, e) ->
    redis_entry (redis_expire at_ k ttl r) k = Some (v, Some (at_ + ttl));
  expire_other : forall at_ k k' ttl r, k <> k' -> redis_entry (redis_expire at_ k ttl r) k' = redis_entry r k';
  del_entry : forall k r, redis_entry (redis_del k r) k = None;
  del_other : forall k k' r, k <> k' -> redis_entry (redis_del k r) k' = redis_entry r k'
}.

Definition RETENTION_SLACK_SECONDS : Z := 60.
Definition retention_for (p : rate_policy) : Z := Z.max 1 (rp_window_seconds p) + RETENTION_SLACK_SECONDS.

Record counted := Counted { c_count : Z; c_authoritative : bool }.

Section Counter.
Context `{R : Redis}.

(** The script: one atomic step of the server, at the server's instant [at_]. *)
Definition INCREMENT (at_ : Z) (key : str) (ttl : Z) (r : redis) : redis * Z :=
  let '(r, current) := redis_incr at_ key r in
  if current =? 1 then (redis_expire at_ key ttl r, current) else (r, current).

(** A server that cannot be reached is [None]. *)
Definition count (r : option redis) (p : rate_policy) (c : client_id) (now at_ : Z) : option (redis * counted) :=
  match r with
  | None => None
  | Some r =>
      let key := counter_key p c now in
      let ttl := Z.max 1 (rp_window_seconds p) + RETENTION_SLACK_SECONDS in
      let '(r, n) := INCREMENT at_ key ttl r in
      Some (r, Counted n true)
  end.

Definition forget (r : option redis) (p : rate_policy) (c : client_id) (now : Z) : option redis :=
  redis_del (counter_key p c now) <$> r.

Definition enforce (r : option redis) (policies : list rate_policy) (scope : str) (client : client_id)
  (now at_ : Z) : result (verdict * counted * option redis) rate_error :=
  let? policy := ok_or (policy_of policies scope) NoPolicy in
  if negb (rp_enabled policy) then
    let? verdict := decide policies scope client 0 now in
    Ok (verdict, Counted 0 true, r)
  else
    match count r policy client now at_ with
    | None =>
        let? verdict := decide policies scope client 0 now in
        Ok (verdict, Counted 0 false, r)
    | Some (r', counted) =>
        let? verdict := decide policies scope client (c_count counted) now in
        Ok (verdict, counted, Some r')
    end.

(** ** The layer *)

(** The values of a header in order, each as text when it is visible ASCII ([to_str]). *)
Definition headers : Type := str -> list (option str).
Definition first_text (h : headers) (name : str) : option str := head (h name) ≫= id.

Definition bearer_token (h : headers) : option str :=
  value ← first_text h s!"authorization";
  token ← match strip_prefix value s!"Bearer " with
          | Some token => Some token
          | None => strip_prefix value s!"bearer "
          end;
  let token := trim token in
  if str_eqb token [] then None else Some token.

Definition SESSION_COOKIE : str := s!"omnion_session".

Definition session_pair (pair : str) : option str :=
  match split_once c!"=" pair with
  | None => None
  | Some (name, value) =>
      if negb (str_eqb (trim name) SESSION_COOKIE) then None
      else let value := trim value in if str_eqb value [] then None else Some value
  end.

Fixpoint find_map {A B} (f : A -> option B) (l : list A) : option B :=
  match l with
  | [] => None
  | x :: l => match f x with Some y => Some y | None => find_map f l end
  end.

Definition session_token (h : headers) : option str :=
  find_map session_pair (mjoin ((fun raw => split_on c!";" raw) <$> omap id (h s!"cookie"))).

Definition peer_from_headers (h : headers) : option ip_addr :=
  forwarded ← first_text h s!"x-forwarded-for";
  first ← head (split_on c!"," forwarded);
  parse_ip (trim first).

Definition is_exempt_path (path : str) : bool :=
  let path := trim_slashes path in
  starts_with path s!"/api/v1/public/" || contains_sub path s!"/webhooks/intake"
  || contains_sub path s!"/hooks/intake".

Inductive refusal :=
| TooManyRequests (scope : str) (count ceiling retry_after : Z)
| RateLimiterMisconfigured (scope : str).

(** [decide_request]; [resolve_session] answers the account of a session token. *)
Definition decide_request (resolve_session : str -> option str) (policies : list rate_policy)
  (method path : str) (h : headers) (peer : option ip_addr) (r : option redis) (now at_ : Z) :
  option refusal * option redis :=
  let machine_key := is_given (bearer_token h) in
  let address := or_else peer (peer_from_headers h) in
  let user_id := if machine_key then None else session_token h ≫= resolve_session in
  let client := ClientId user_id address in
  let exempt := machine_key || is_exempt_path path in
  let scope := scope_of (RequestFacts method path client machine_key exempt) in
  if str_eqb scope s!"exempt" then (None, r)
  else
    match enforce r policies scope client now at_ with
    | Err _ => (Some (RateLimiterMisconfigured scope), r)
    | Ok (verdict, counted, r) =>
        if negb (c_authoritative counted) then (None, r)
        else if negb (v_limited verdict) then (None, r)
        else
          let retry_after := Z.max 1 (match v_retry_after verdict with Some n => n | None => 1 end) in
          (Some (TooManyRequests (v_scope verdict) (v_count verdict) (v_ceiling verdict) retry_after), r)
    end.

(** The dry run of the screen: the scope and the verdict it shows. *)
Definition test_rate_limit (policies : list rate_policy) (method path : str) (client_ip user_id : option str)
  (assumed : option Z) (machine_key : bool) (now : Z) : result (str * verdict) rate_error :=
  let? ip := match client_ip with
             | None => Ok None
             | Some raw => let? a := ok_or (parse_ip raw) NotAnAddress in Ok (Some a)
             end in
  let client := ClientId user_id ip in
  let scope := scope_of (RequestFacts method path client machine_key machine_key) in
  if str_eqb scope s!"exempt" then Ok (scope, Verdict false scope 0 0 None)
  else
    let count := Z.max 0 (match assumed with Some n => n | None => 1 end) in
    let? verdict := decide policies scope client count now in
    Ok (scope, verdict).
End Counter.

(** ** Policies in range *)

Definition valid_policy (p : rate_policy) : bool :=
  existsb (str_eqb (rp_scope p)) RATE_SCOPES
  && (1 <=? rp_window_seconds p) && (rp_window_seconds p <=? MAX_WINDOW_SECONDS)
  && (MIN_LIMIT <=? rp_limit p) && (rp_limit p <=? MAX_LIMIT)
  && (0 <=? rp_burst p) && (rp_burst p <=? MAX_BURST).

Lemma add_i32_exact a b : - 2 ^ 31 <= a + b < 2 ^ 31 -> add_i32 a b = a + b.
Proof. intros H. unfold add_i32. rewrite Z.mod_small; lia. Qed.

Lemma valid_policy_spec p :
  valid_policy p = true ->
  rp_scope p ∈ RATE_SCOPES /\ 1 <= rp_window_seconds p <= 86400
  /\ 1 <= rp_limit p <= 1000000 /\ 0 <= rp_burst p <= 10000.
Proof.
  unfold valid_policy, MAX_WINDOW_SECONDS, MIN_LIMIT, MAX_LIMIT, MAX_BURST.
  rewrite !andb_true_iff, !Z.leb_le. intros ((((((Hs & ?) & ?) & ?) & ?) & ?) & ?).
  split_and!; try lia. by apply existsb_elem in Hs as (s & Hs & ->%str_eqb_eq).
Qed.

Lemma valid_ceiling p : valid_policy p = true -> ceiling p = rp_limit p + rp_burst p.
Proof. intros (_ & _ & ? & ?)%valid_policy_spec. apply add_i32_exact. lia. Qed.

(** The constructor accepts a row exactly when its scope, once trimmed and lowered, is one the
    platform knows and its numbers are in range; the row it returns carries what was typed, and
    its ceiling is the sum of limit and burst, far from the width of the word. *)
Theorem rate_policy_new_exact (to_lowercase : str -> str) (scope : str) (w l b : Z) (on : bool) (p : rate_policy) :
  rate_policy_new to_lowercase scope w l b on = Ok p
  <-> p = RatePolicy (to_lowercase (trim scope)) w l b on /\ valid_policy p = true.
Proof.
  unfold rate_policy_new, valid_policy. set (s := to_lowercase (trim scope)).
  assert (He : str_eqb s [] = true -> existsb (str_eqb s) RATE_SCOPES = false).
  { intros ->%str_eqb_eq. by vm_compute. }
  split.
  - destruct (str_eqb s []); [done|]. destruct (existsb _ RATE_SCOPES) eqn:Es; cbn [negb]; [|done].
    destruct ((w <? 1) || _) eqn:Ew; [done|]. destruct ((l <? MIN_LIMIT) || _) eqn:El; [done|].
    destruct (negb _) eqn:Eb; [done|]. intros [= <-]. split; [done|]. cbn [rp_scope rp_window_seconds rp_limit rp_burst].
    rewrite Es. apply orb_false_iff in Ew as [Ew1%Z.ltb_ge Ew2%Z.ltb_ge].
    apply orb_false_iff in El as [El1%Z.ltb_ge El2%Z.ltb_ge]. apply negb_false_iff in Eb.
    rewrite !(proj2 (Z.leb_le _ _)) by done. done.
  - intros [-> Hv]. cbn [rp_scope rp_window_seconds rp_limit rp_burst] in Hv.
    rewrite !andb_true_iff, !Z.leb_le in Hv. destruct Hv as ((((((Hs & ?) & ?) & ?) & ?) & Hb1) & Hb2).
    destruct (str_eqb s []); [by rewrite He in Hs|]. rewrite Hs. cbn [negb].
    rewrite !(proj2 (Z.ltb_ge _ _)) by done. cbn [orb].
    by rewrite (proj2 (Z.leb_le _ _) Hb1), (proj2 (Z.leb_le _ _) Hb2).
Qed.

(** ** Keys *)

Lemma hex16_length h : length (hex16 h) = 16%nat.
Proof. reflexivity. Qed.

Lemma scope_without_colon s : s ∈ RATE_SCOPES -> c!":" ∉ s.
Proof.
  intros H. assert (Ha : forallb (fun s => negb (contains_char c!":" s)) RATE_SCOPES = true) by by vm_compute.
  apply forallb_elem with (x := s) in Ha; [|done]. apply negb_true_iff in Ha. intros Hc.
  assert (contains_char c!":" s = true) as Hc'; [|congruence]. apply existsb_elem. exists c!":".
  split; [done|apply N.eqb_refl].
Qed.

(** A key names its scope and its bucket, whatever the client part hashes to. *)
Lemma counter_key_inj p p' c c' now now' :
  rp_scope p ∈ RATE_SCOPES -> rp_scope p' ∈ RATE_SCOPES ->
  counter_key p c now = counter_key p' c' now' ->
  rp_scope p = rp_scope p' /\ bucket p now = bucket p' now'.
Proof.
  intros Hs Hs' H. unfold counter_key in H. apply app_inv_head in H.
  apply (f_equal (split_once c!":")) in H.
  change (s!":" ++ ?x) with (c!":" :: x) in H.
  rewrite !split_once_app in H by by apply scope_without_colon.
  injection H as Hscope Hrest. split; [done|].
  apply app_inj_2 in Hrest as [Hb _]; [|reflexivity]. by apply show_Z_inj in Hb.
Qed.

(** ** What a sequence of requests is answered *)

Section Sequence.
Context `{R : Redis, L : !RedisLaws R}.

(** A request that reaches the counter: its scope, its client, the clock of the instance that
    serves it and the clock of the server. *)
Record arrival := Arrival { ar_scope : str; ar_client : client_id; ar_now : Z; ar_at : Z }.

Definition serve (policies : list rate_policy) (r : redis) (a : arrival) : result (verdict * counted * option redis) rate_error :=
  enforce (Some r) policies (ar_scope a) (ar_client a) (ar_now a) (ar_at a).
Definition after (policies : list rate_policy) (r : redis) (l : list arrival) : redis :=
  foldl (fun r a => match serve policies r a with Ok (_, _, Some r') => r' | _ => r end) r l.

(** The counter an arrival spends, when its scope is enforced. *)
Definition key_of (policies : list rate_policy) (a : arrival) : option str :=
  match policy_of policies (ar_scope a) with
  | Some p => if rp_enabled p then Some (counter_key p (ar_client a) (ar_now a)) else None
  | None => None
  end.
Definition spent (policies : list rate_policy) (k : str) (l : list arrival) : nat :=
  length (List.filter (fun a => bool_decide (key_of policies a = Some k)) l).

(** The two clocks differ by at most half the slack. *)
Definition clocks_close (a : arrival) : bool := Z.abs (ar_at a - ar_now a) <=? 30.

Lemma policy_of_spec policies scope p :
  policy_of policies scope = Some p -> p ∈ policies /\ rp_scope p = scope.
Proof.
  intros H. apply find_some in H as [H1 ->%str_eqb_eq]. split; [by apply list_elem_of_In|done].
Qed.

Lemma INCREMENT_entry at_ k ttl r :
  live_count at_ (redis_entry r k) < i64_max -> 0 <= live_count at_ (redis_entry r k) ->
  snd (INCREMENT at_ k ttl r) = live_count at_ (redis_entry r k) + 1
  /\ redis_entry (fst (INCREMENT at_ k ttl r)) k
     = Some (live_count at_ (redis_entry r k) + 1,
             if live_count at_ (redis_entry r k) =? 0 then Some (at_ + ttl)
             else live_entry at_ (redis_entry r k) ≫= snd)
  /\ (forall k', k <> k' -> redis_entry (fst (INCREMENT at_ k ttl r)) k' = redis_entry r k').
Proof.
  intros Hlt Hpos. unfold INCREMENT.
  pose proof (incr_reply at_ k r Hlt) as Hr. pose proof (incr_entry at_ k r Hlt) as He.
  pose proof (fun k' => incr_other at_ k k' r) as Ho.
  destruct (redis_incr at_ k r) as [r1 n] eqn:E. simpl in Hr, He, Ho. subst n.
  destruct (Z.eqb_spec (live_count at_ (redis_entry r k)) 0) as [H0|H0].
  - rewrite (proj2 (Z.eqb_eq _ _)) by lia. cbn [fst snd].
    split_and!; [done|by apply (expire_entry _ _ _ _ _ _ He)|].
    intros k' Hk. rewrite expire_other by done. by apply Ho.
  - rewrite (proj2 (Z.eqb_neq _ _)) by lia. cbn [fst snd]. by split_and!.
Qed.

(** What the server holds for a key that has been spent [n] times: it expires after the bucket of
    the arrival that created it, whatever the clocks. *)
Definition entry_after (policies : list rate_policy) (l : list arrival) (k : str) (e : option (Z * option Z)) : Prop :=
  match e with
  | None => spent policies k l = 0%nat
  | Some (v, x) =>
      v = Z.of_nat (spent policies k l) /\ 0 < v
      /\ exists a p, key_of policies a = Some k /\ policy_of policies (ar_scope a) = Some p
           /\ clocks_close a = true /\ x = Some (ar_at a + retention_for p)
  end.

Lemma spent_snoc policies k l a :
  spent policies k (l ++ [a]) = (spent policies k l + if bool_decide (key_of policies a = Some k) then 1 else 0)%nat.
Proof. unfold spent. rewrite List.filter_app, length_app. simpl. by case_bool_decide. Qed.

Lemma same_bucket_close p now now' : bucket p now = bucket p now' -> now < now' + Z.max 1 (rp_window_seconds p).
Proof.
  unfold bucket. set (w := Z.max 1 (rp_window_seconds p)). intros H.
  pose proof (Z.div_mod now w). pose proof (Z.div_mod now' w).
  pose proof (Z.mod_pos_bound now w). pose proof (Z.mod_pos_bound now' w). subst w. nia.
Qed.

(** The live count an arrival finds under its key. *)
Lemma entry_live policies l k e a :
  Forall (fun p => rp_scope p ∈ RATE_SCOPES) policies ->
  key_of policies a = Some k -> clocks_close a = true -> entry_after policies l k e ->
  live_count (ar_at a) e = Z.of_nat (spent policies k l)
  /\ ((live_count (ar_at a) e =? 0) = false -> live_entry (ar_at a) e = e).
Proof.
  intros Hsc Hk Hc He. destruct e as [[v x]|]; [|split; [by rewrite He|done]].
  destruct He as (-> & Hpos & a0 & p0 & Hk0 & Hp0 & Hc0 & ->).
  unfold key_of in Hk, Hk0. rewrite Hp0 in Hk0.
  destruct (policy_of policies (ar_scope a)) as [p|] eqn:Hp; [|done].
  destruct (rp_enabled p); [|done]. destruct (rp_enabled p0); [|done].
  injection Hk as Hk. injection Hk0 as Hk0. rewrite <- Hk0 in Hk.
  pose proof (policy_of_spec _ _ _ Hp) as [Hi Hs]. pose proof (policy_of_spec _ _ _ Hp0) as [Hi0 Hs0].
  rewrite Forall_forall in Hsc. apply counter_key_inj in Hk as [Hss Hb]; [|by apply Hsc..].
  assert (p = p0) as -> by (rewrite <- Hs, Hss, Hs0, Hp0 in Hp; congruence).
  apply same_bucket_close in Hb. unfold clocks_close in Hc, Hc0. apply Z.leb_le in Hc, Hc0.
  unfold live_count, live_entry, retention_for, RETENTION_SLACK_SECONDS.
  rewrite (proj2 (Z.ltb_lt (ar_at a) _)) by lia. done.
Qed.

Lemma serve_step policies r l a :
  Forall (fun p => rp_scope p ∈ RATE_SCOPES) policies -> clocks_close a = true ->
  Z.of_nat (length l) < i64_max ->
  (forall k, entry_after policies l k (redis_entry r k)) ->
  let r' := after policies r [a] in
  (forall k, entry_after policies (l ++ [a]) k (redis_entry r' k))
  /\ (forall k p, key_of policies a = Some k -> policy_of policies (ar_scope a) = Some p ->
      count (Some r) p (ar_client a) (ar_now a) (ar_at a)
      = Some (r', Counted (Z.of_nat (spent policies k l) + 1) true)).
Proof.
  intros Hsc Hc Hlen Hinv r'. subst r'. unfold after, serve, enforce. cbn [foldl].
  destruct (policy_of policies (ar_scope a)) as [p|] eqn:Hp; cbn [ok_or result_bind].
  2: { assert (Hn : key_of policies a = None) by (unfold key_of; by rewrite Hp). split; [|by intros; simplify_eq].
       intros k. specialize (Hinv k). unfold entry_after in *. by rewrite spent_snoc, Hn, Nat.add_0_r. }
  destruct (rp_enabled p) eqn:Hon; cbn [negb].
  2: { assert (Hn : key_of policies a = None) by (unfold key_of; by rewrite Hp, Hon). split.
       - intros k. specialize (Hinv k). unfold entry_after in *. rewrite spent_snoc, Hn, Nat.add_0_r.
         unfold decide. rewrite Hp. cbn. by rewrite Hon.
       - intros k p' Hk. congruence. }
  set (k0 := counter_key p (ar_client a) (ar_now a)).
  assert (Hk0 : key_of policies a = Some k0) by (unfold key_of; by rewrite Hp, Hon).
  destruct (entry_live policies l k0 _ a Hsc Hk0 Hc (Hinv k0)) as [Hlive Hkeep].
  assert (Hn : Z.of_nat (spent policies k0 l) <= Z.of_nat (length l)).
  { unfold spent. pose proof (List.filter_length_le (fun a => bool_decide (key_of policies a = Some k0)) l). lia. }
  destruct (INCREMENT_entry (ar_at a) k0 (retention_for p) r) as (Hi1 & Hi2 & Hi3); [lia|lia|].
  unfold count. fold (retention_for p). fold k0.
  destruct (INCREMENT (ar_at a) k0 (retention_for p) r) as [r1 n] eqn:E. simpl in Hi1, Hi2, Hi3.
  cbn [c_count]. destruct (decide policies (ar_scope a) (ar_client a) n (ar_now a)) as [v|e] eqn:Hd.
  2: { unfold decide in Hd. rewrite Hp in Hd. cbn [ok_or result_bind] in Hd. rewrite Hon in Hd. cbn [negb] in Hd.
       destruct (_ && _) in Hd; [done|]. by destruct (admits p n). }
  cbn [result_bind]. split.
  - intros k. destruct (decide_rel (=) k k0) as [->|Hne].
    + rewrite Hi2. unfold entry_after. rewrite spent_snoc, bool_decide_eq_true_2 by done.
      rewrite Hlive. split_and!; [lia|lia|]. destruct (Z.eqb_spec (Z.of_nat (spent policies k0 l)) 0) as [H0|H0].
      * exists a, p. split_and!; done.
      * rewrite Hkeep by (rewrite Hlive; by apply Z.eqb_neq). specialize (Hinv k0). unfold entry_after in Hinv.
        destruct (redis_entry r k0) as [[v0 x0]|]; [|lia]. destruct Hinv as (_ & _ & Hx). exact Hx.
    + rewrite Hi3 by done. specialize (Hinv k). unfold entry_after in *.
      rewrite spent_snoc, bool_decide_eq_false_2 by (rewrite Hk0; congruence). by rewrite Nat.add_0_r.
  - intros k p' Hk Hp'. rewrite Hk0 in Hk. injection Hk as <-. injection Hp' as <-.
    change (counter_key p (ar_client a) (ar_now a)) with k0.
    change (Z.max 1 (rp_window_seconds p) + RETENTION_SLACK_SECONDS) with (retention_for p).
    by rewrite E, Hi1, Hlive.
Qed.

Lemma after_invariant policies r0 l :
  Forall (fun p => rp_scope p ∈ RATE_SCOPES) policies -> forallb clocks_close l = true ->
  Z.of_nat (length l) <= i64_max -> (forall k, redis_entry r0 k = None) ->
  forall k, entry_after policies l k (redis_entry (after policies r0 l) k).
Proof.
  intros Hsc. induction l as [|a l IH] using rev_ind; intros Hc Hlen H0 k.
  { unfold after; simpl. by rewrite H0. }
  rewrite forallb_app, andb_true_iff in Hc. destruct Hc as [Hc Ha]. simpl in Ha. rewrite andb_true_r in Ha.
  rewrite length_app in Hlen. simpl in Hlen. unfold after. rewrite foldl_app.
  refine (proj1 (serve_step policies _ l a Hsc Ha _ _) k); [lia|]. intros k'. apply IH; [done|lia|done].
Qed.
End Sequence.

(** ** The counter *)

Section Counting.
Context `{R : Redis, L : !RedisLaws R}.

(** C17. Whatever requests came before, of any scope and any client, a request of an enforced scope
    is the first of its client and window plus one for every earlier request that spent the same
    counter: it is refused exactly when that number exceeds limit and burst together, and told to
    come back when its window ends. Counters of other scopes, clients and windows play no part,
    and the expiry of a counter never cuts its own window short as long as the clocks of the
    instances and the server stay within half the slack. *)
Theorem limiter_counts_exactly (policies : list rate_policy) (r0 : redis) (pre : list arrival) (a : arrival) (p : rate_policy) :
  forallb valid_policy policies = true ->
  (forall k, redis_entry r0 k = None) ->
  forallb clocks_close (pre ++ [a]) = true -> Z.of_nat (length (pre ++ [a])) <= i64_max ->
  policy_of policies (ar_scope a) = Some p -> rp_enabled p = true ->
  (rp_scope p = s!"public_api" -> cl_user_id (ar_client a) = None) ->
  let n := Z.of_nat (spent policies (counter_key p (ar_client a) (ar_now a)) pre) + 1 in
  let limited := rp_limit p + rp_burst p <? n in
  exists r', serve policies (after policies r0 pre) a
    = Ok (Verdict limited (ar_scope a) n (rp_limit p + rp_burst p)
            (if limited then Some (rp_window_seconds p - ar_now a `mod` rp_window_seconds p) else None),
          Counted n true, Some r').
Proof.
  intros Hv H0 Hc Hlen Hp Hon Hpub n limited.
  assert (Hsc : Forall (fun p => rp_scope p ∈ RATE_SCOPES) policies).
  { apply Forall_forall. intros q Hq. rewrite forallb_elem in Hv. by apply valid_policy_spec, Hv. }
  pose proof (policy_of_spec _ _ _ Hp) as [Hin Hs].
  assert (Hpv : valid_policy p = true) by (rewrite forallb_elem in Hv; by apply Hv).
  pose proof (valid_policy_spec p Hpv) as (_ & Hw & Hl & Hb). pose proof (valid_ceiling p Hpv) as Hceil.
  rewrite forallb_app, andb_true_iff in Hc. destruct Hc as [Hc Ha]. simpl in Ha. rewrite andb_true_r in Ha.
  rewrite length_app in Hlen. simpl in Hlen.
  assert (Hk : key_of policies a = Some (counter_key p (ar_client a) (ar_now a))) by (unfold key_of; by rewrite Hp, Hon).
  destruct (serve_step policies (after policies r0 pre) pre a Hsc Ha) as [_ Hcount]; [lia| |].
  { apply after_invariant; [done|done|lia|done]. }
  specialize (Hcount _ _ Hk Hp). exists (after policies (after policies r0 pre) [a]).
  unfold serve, enforce, decide. rewrite Hp. cbn [ok_or result_bind]. rewrite Hon. cbn [negb].
  rewrite Hcount. cbn [c_count]. fold n.
  assert (str_eqb (rp_scope p) s!"public_api" && is_given (cl_user_id (ar_client a)) = false) as ->.
  { destruct (str_eqb _ _) eqn:E; [|done]. apply str_eqb_eq, Hpub in E. by rewrite E. }
  assert (admits p n = negb limited) as ->.
  { unfold admits, limited. fold (ceiling p). rewrite Hceil. apply Z.leb_antisym. }
  rewrite Hceil. destruct limited; cbn [negb result_bind]; [|done].
  pose proof (Z.mod_pos_bound (ar_now a) (rp_window_seconds p)).
  rewrite (Z.max_r 1 (rp_window_seconds p)) by lia. rewrite Z.max_r by lia. done.
Qed.
End Counting.

(** The wait a refusal names is exact: every instant before it is still in the refused window
    and the instant itself opens the next one, under another counter. *)
Theorem retry_after_opens_the_next_window (policies : list rate_policy) (scope : str) (client : client_id)
  (count now wait : Z) (v : verdict) (p : rate_policy) :
  forallb valid_policy policies = true -> policy_of policies scope = Some p ->
  decide policies scope client count now = Ok v -> v_retry_after v = Some wait ->
  v_limited v = true /\ 1 <= wait <= rp_window_seconds p
  /\ (forall d, 0 <= d < wait -> counter_key p client (now + d) = counter_key p client now)
  /\ counter_key p client (now + wait) <> counter_key p client now.
Proof.
  intros Hv Hp Hd Hw. pose proof (policy_of_spec _ _ _ Hp) as [Hin _].
  rewrite forallb_elem in Hv. pose proof (valid_policy_spec p (Hv p Hin)) as (Hs & Hwin & _).
  unfold decide in Hd. rewrite Hp in Hd. cbn [ok_or result_bind] in Hd.
  destruct (negb (rp_enabled p)); [by simplify_eq|]. destruct (_ && _) in Hd; [by simplify_eq|].
  destruct (admits p count); [by simplify_eq|]. injection Hd as <-. cbn [v_retry_after] in Hw. injection Hw as <-.
  rewrite (Z.max_r 1 (rp_window_seconds p)) by lia.
  pose proof (Z.mod_pos_bound now (rp_window_seconds p)) as Hm. rewrite Z.max_r by lia.
  pose proof (Z.div_mod now (rp_window_seconds p)) as Hdm.
  assert (Hb : forall d q, now + d = rp_window_seconds p * q + (now + d - rp_window_seconds p * q) ->
    0 <= now + d - rp_window_seconds p * q < rp_window_seconds p -> bucket p (now + d) = q).
  { intros d q He Hr. unfold bucket. rewrite Z.max_r by lia. symmetry. by apply (Z.div_unique_pos _ _ _ _ Hr). }
  split_and!; [done|lia|lia| |].
  - intros d Hdr. unfold counter_key. do 3 f_equal. f_equal.
    rewrite (Hb d (now `div` rp_window_seconds p)) by lia.
    unfold bucket. by rewrite Z.max_r by lia.
  - intros Hk%counter_key_inj; [|done..]. destruct Hk as [_ Hk].
    rewrite (Hb _ (now `div` rp_window_seconds p + 1)) in Hk by lia.
    unfold bucket in Hk. rewrite Z.max_r in Hk by lia. lia.
Qed.

(** ** The stored document and the rows in force *)

Section Rows.
Context `{J : JsonNumber, JL : !JsonNumberLaws J, R : Redis}.

Lemma replace_scope_scopes stored l : rp_scope <$> replace_scope stored l = rp_scope <$> l.
Proof.
  induction l as [|p l IH]; [done|]. cbn [replace_scope].
  destruct (str_eqb (rp_scope p) (rp_scope stored)) eqn:E; cbn [fmap list_fmap].
  - apply str_eqb_eq in E. by rewrite E.
  - by f_equal.
Qed.

Lemma merged_scopes document : rp_scope <$> merge_with_defaults document = RATE_SCOPES.
Proof.
  unfold merge_with_defaults. destruct (as_array document) as [rows|]; [|reflexivity].
  assert (H : forall l, rp_scope <$> l = RATE_SCOPES -> rp_scope <$> foldl merge_row l rows = RATE_SCOPES).
  { induction rows as [|row rows IH]; intros l Hl; [done|]. cbn [foldl]. apply IH. unfold merge_row.
    destruct (policy_from_value row); [|done]. destruct (negb _); [done|]. by rewrite replace_scope_scopes. }
  apply H. reflexivity.
Qed.

Lemma policy_of_known policies scope :
  rp_scope <$> policies = RATE_SCOPES -> scope ∈ RATE_SCOPES -> is_given (policy_of policies scope) = true.
Proof.
  intros <- (p & -> & Hp)%list_elem_of_fmap. unfold policy_of. rewrite find_exists. apply existsb_elem.
  exists p. split; [done|apply str_eqb_refl].
Qed.

Lemma scope_of_known facts : scope_of facts = s!"exempt" \/ scope_of facts ∈ RATE_SCOPES.
Proof.
  unfold scope_of. destruct (rf_exempt facts); [by left|]. right.
  destruct (is_sign_in _ _); [apply (list_elem_of_lookup_2 _ 1); reflexivity|].
  destruct (negb _); [apply (list_elem_of_lookup_2 _ 2); reflexivity|].
  destruct (is_webhook_intake _); [apply (list_elem_of_lookup_2 _ 4)|apply (list_elem_of_lookup_2 _ 3)]; reflexivity.
Qed.

Lemma decide_total policies scope client count now p :
  policy_of policies scope = Some p -> exists v, decide policies scope client count now = Ok v.
Proof.
  intros Hp. unfold decide. rewrite Hp. cbn [ok_or result_bind].
  destruct (negb (rp_enabled p)); [by eexists|]. destruct (_ && _); [by eexists|]. destruct (admits p count); by eexists.
Qed.

(** The layer can only refuse for having counted too many. Whatever document is stored, the
    table in force has exactly one row for each scope, in order, so a request is never answered
    that the limiter is misconfigured; and when the counter cannot be reached no request is
    refused. *)
Theorem limiter_refuses_only_what_it_counted (resolve : str -> option str) (document : value)
  (method path : str) (h : headers) (peer : option ip_addr) (r : option redis) (now at_ : Z) :
  let policies := merge_with_defaults document in
  rp_scope <$> policies = RATE_SCOPES
  /\ match decide_request resolve policies method path h peer r now at_ with
     | (Some (TooManyRequests scope n most wait), r') =>
         scope ∈ RATE_SCOPES /\ is_given r = true /\ most < n /\ 1 <= wait
     | (Some (RateLimiterMisconfigured _), _) => False
     | (None, _) => True
     end.
Proof.
  intros policies. assert (Hm : rp_scope <$> policies = RATE_SCOPES) by apply merged_scopes. split; [done|].
  unfold decide_request. set (facts := RequestFacts _ _ _ _ _). set (client := ClientId _ _).
  destruct (str_eqb (scope_of facts) s!"exempt") eqn:Ee; [done|].
  destruct (scope_of_known facts) as [Hx|Hk]; [by rewrite Hx in Ee|].
  pose proof (policy_of_known policies (scope_of facts) Hm Hk) as Hg.
  destruct (policy_of policies (scope_of facts)) as [p|] eqn:Hp; [|done].
  assert (Hd : forall n, exists v, decide policies (scope_of facts) client n now = Ok v
     /\ (v_limited v = true -> v_scope v = scope_of facts /\ v_ceiling v < v_count v)).
  { intros n. destruct (decide_total policies _ client n now p Hp) as [v Hv]. exists v. split; [done|]. intros Hl.
    unfold decide in Hv. rewrite Hp in Hv. cbn [ok_or result_bind] in Hv.
    destruct (negb (rp_enabled p)); [by simplify_eq|]. destruct (_ && _); [by simplify_eq|].
    destruct (admits p n) eqn:Ea; [by simplify_eq|]. injection Hv as <-. cbn [v_scope v_ceiling v_count].
    unfold admits in Ea. by apply Z.leb_gt in Ea. }
  unfold enforce. rewrite Hp. cbn [ok_or result_bind]. destruct (negb (rp_enabled p)) eqn:Eon.
  { destruct (Hd 0) as (v & Hv & _). rewrite Hv. cbn [result_bind c_authoritative negb].
    unfold decide in Hv. rewrite Hp in Hv. cbn [ok_or result_bind] in Hv. rewrite Eon in Hv. by injection Hv as <-. }
  destruct (count r p client now at_) as [[r' c]|] eqn:Ec.
  - destruct r as [rd|]; [|done]. cbn [count] in Ec. destruct (INCREMENT _ _ _ _) as [r1 n]. injection Ec as <- <-.
    destruct (Hd n) as (v & Hv & Hl). cbn [c_count]. rewrite Hv. cbn [result_bind c_authoritative negb].
    destruct (v_limited v) eqn:El; cbn [negb]; [|done]. destruct (Hl eq_refl) as [-> Hlt]. split_and!; [done|done|done|lia].
  - destruct (Hd 0) as (v & Hv & _). rewrite Hv. done.
Qed.
End Rows.

Section Saving.
Context `{J : JsonNumber, JL : !JsonNumberLaws J, R : Redis}.

Definition word_sized (p : rate_policy) : bool := in_i64 (rp_window_seconds p) && in_i32 (rp_limit p) && in_i32 (rp_burst p).

Lemma policy_value_roundtrip p : word_sized p = true -> policy_from_value (policy_to_value p) = Some p.
Proof.
  unfold word_sized. rewrite !andb_true_iff. intros ((Hw & Hl) & Hb).
  assert (H32 : forall z, in_i32 z = true -> in_i64 z = true).
  { unfold in_i32, in_i64. intros z. rewrite !andb_true_iff, !Z.leb_le, !Z.ltb_lt. lia. }
  destruct p as [sc w l b on]. cbn [rp_scope rp_window_seconds rp_limit rp_burst rp_enabled] in *.
  transitivity (policy_of_fields (VString sc) (VNumber (number_of_Z w)) (VNumber (number_of_Z l))
    (VNumber (number_of_Z b)) (VBool on)).
  { unfold policy_from_value, policy_to_value. cbn [rp_scope rp_window_seconds rp_limit rp_burst rp_enabled].
    rewrite !obj_get_insert. by literal_keys. }
  unfold policy_of_fields, read_i32, as_i64, read_bool, as_str.
  rewrite !number_as_i64_of_Z by eauto. cbn [mbind option_bind]. rewrite Hl. cbn [mbind option_bind]. by rewrite Hb.
Qed.

Lemma parse_to_document policies :
  forallb word_sized policies = true -> parse_document (to_document policies) = Ok policies.
Proof.
  intros Hw. unfold parse_document, to_document. cbn [as_array]. apply collect_ok.
  rewrite <- !list_fmap_compose. apply list_fmap_ext. intros i p Hi. cbn [compose].
  rewrite forallb_elem in Hw. rewrite policy_value_roundtrip by (apply Hw; by eapply list_elem_of_lookup_2). done.
Qed.

(** A gap in the save: any five numbers that fit their words are stored and put in force. The
    handler means every row to pass the checks of the constructor, but rows are only read by type,
    so a table with one row per scope is saved as it is and installed, even one whose limit is
    zero or whose ceiling wraps around the word. *)
Theorem saved_limits_are_not_checked (stored : value) (policies : list rate_policy) :
  value_eqb stored stored = true -> rp_scope <$> policies = RATE_SCOPES -> forallb word_sized policies = true ->
  put_rate_limits stored stored (to_document policies) = Ok (to_document policies, policies).
Proof.
  intros Hs Hsc Hw. unfold put_rate_limits. rewrite parse_to_document by done. cbn [result_bind].
  assert (Hl : length policies = 5%nat) by (rewrite <- (length_fmap rp_scope), Hsc; done).
  rewrite Hl. unfold save_rate_limits. rewrite Hs. cbn [negb Nat.eqb length RATE_SCOPES result_bind]. do 2 f_equal.
  unfold merge_with_defaults, to_document. cbn [as_array].
  destruct policies as [|p1 [|p2 [|p3 [|p4 [|p5 [|]]]]]]; try discriminate Hl. clear Hl.
  cbn [fmap list_fmap] in Hsc. injection Hsc as H1 H2 H3 H4 H5.
  cbn [forallb] in Hw. rewrite !andb_true_iff in Hw. destruct Hw as (Hw1 & Hw2 & Hw3 & Hw4 & Hw5 & _).
  cbn [fmap list_fmap foldl]. unfold merge_row.
  rewrite !policy_value_roundtrip by done. rewrite !H1, !H2, !H3, !H4, !H5.
  destruct p1 as [s1 w1 l1 b1 o1], p2 as [s2 w2 l2 b2 o2], p3 as [s3 w3 l3 b3 o3], p4 as [s4 w4 l4 b4 o4], p5 as [s5 w5 l5 b5 o5].
  cbn [rp_scope] in *. subst. vm_compute. reflexivity.
Qed.

(** A gap: a request that carries any text after [Bearer] in its authorization header is
    neither counted nor refused, whatever it asks for, the sign-in included, and whatever the
    table in force says. The token itself is not looked at. *)
Theorem any_bearer_text_is_exempt (resolve : str -> option str) (policies : list rate_policy)
  (method path token : str) (h : headers) (peer : option ip_addr) (r : option redis) (now at_ : Z) :
  first_text h s!"authorization" = Some (s!"Bearer " ++ token) -> trim token <> [] ->
  decide_request resolve policies method path h peer r now at_ = (None, r).
Proof.
  intros Hh Ht. unfold decide_request.
  assert (Hb : bearer_token h = Some (trim token)).
  { unfold bearer_token. rewrite Hh. cbn [mbind option_bind].
    rewrite strip_prefix_app.
    cbn [mbind option_bind]. by rewrite (proj2 (str_eqb_neq _ _) Ht). }
  rewrite Hb. reflexivity.
Qed.

(** The dry run of the screen predicts the layer: for a request without a machine key, on a
    path that is not exempt, it names the scope the layer counts under and refuses exactly what the layer refuses,
    with the same count, ceiling and wait, when it is given the count the server answers. *)
Theorem dry_run_predicts_the_layer (resolve : str -> option str) (policies : list rate_policy)
  (method path : str) (h : headers) (peer : option ip_addr) (client_ip : option str) (rd : redis) (now at_ : Z)
  (p : rate_policy) :
  bearer_token h = None -> is_exempt_path path = false ->
  let user := session_token h ≫= resolve in
  let address := or_else peer (peer_from_headers h) in
  match client_ip with Some raw => parse_ip raw = address /\ is_given address = true | None => address = None end ->
  let scope := scope_of (RequestFacts method path (ClientId user address) false false) in
  policy_of policies scope = Some p -> rp_enabled p = true ->
  forall r' n, count (Some rd) p (ClientId user address) now at_ = Some (r', Counted n true) -> 0 <= n ->
  exists v, test_rate_limit policies method path client_ip user (Some n) false now = Ok (scope, v)
    /\ fst (decide_request resolve policies method path h peer (Some rd) now at_)
       = if v_limited v
         then Some (TooManyRequests scope (v_count v) (v_ceiling v)
                      (Z.max 1 (match v_retry_after v with Some s => s | None => 1 end)))
         else None.
Proof.
  intros Hb Hx user address Hip scope Hp Hon r' n Hc Hn.
  assert (Hne : str_eqb scope s!"exempt" = false).
  { destruct (str_eqb scope _) eqn:E; [|done]. apply str_eqb_eq in E. unfold scope, scope_of in E. cbn [rf_exempt rf_method rf_path rf_client] in E.
    destruct (is_sign_in _ _); [done|]. destruct (negb _); [done|]. by destruct (is_webhook_intake _). }
  destruct (decide_total policies scope (ClientId user address) n now p Hp) as [v Hv]. exists v. split.
  - unfold test_rate_limit.
    assert (Hipr : (match client_ip with None => Ok None | Some raw => let? a := ok_or (parse_ip raw) NotAnAddress in Ok (Some a) end)
                   = Ok address).
    { destruct client_ip as [raw|]; [|by rewrite Hip]. destruct Hip as [-> Hg]. by destruct address. }
    rewrite Hipr. cbn [result_bind]. fold scope. rewrite Hne. rewrite Z.max_r by done. by rewrite Hv.
  - unfold decide_request. rewrite Hb, Hx. cbn [is_given orb]. fold user address. fold scope. rewrite Hne.
    unfold enforce. rewrite Hp. cbn [ok_or result_bind]. rewrite Hon. cbn [negb]. rewrite Hc. cbn [c_count].
    rewrite Hv. cbn [result_bind c_authoritative negb].
    assert (Hs : v_scope v = scope).
    { unfold decide in Hv. rewrite Hp in Hv. cbn [ok_or result_bind] in Hv. rewrite Hon in Hv. cbn [negb] in Hv.
      destruct (_ && _) in Hv; [by simplify_eq|]. destruct (admits p n); by simplify_eq. }
    rewrite Hs. by destruct (v_limited v).
Qed.
End Saving.
End Limiter.

(** ** A server *)

Definition server_incr (at_ : Z) (k : str) (m : gmap str (Z * option Z)) : gmap str (Z * option Z) * Z :=
  let n := live_count at_ (m !! k) + 1 in
  (<[k := (n, live_entry at_ (m !! k) ≫= snd)]> m, n).

#[export] Instance gmap_redis : Redis := {|
  redis := gmap str (Z * option Z);
  redis_entry := fun m k => m !! k;
  redis_incr := server_incr;
  redis_expire := fun at_ k ttl m => match m !! k with Some (v, _) => <[k := (v, Some (at_ + ttl))]> m | None => m end;
  redis_del := fun k m => delete k m
|}.

#[export] Instance gmap_redis_laws : RedisLaws gmap_redis.
Proof.
  split; cbn [redis redis_entry redis_incr redis_expire redis_del gmap_redis]; intros; unfold server_incr; cbn [fst snd].
  - done.
  - by rewrite lookup_insert_eq.
  - by rewrite lookup_insert_ne.
  - rewrite H. by rewrite lookup_insert_eq.
  - destruct (r !! k) as [[v x]|]; [by rewrite lookup_insert_ne|done].
  - by rewrite lookup_delete_eq.
  - by rewrite lookup_delete_ne.
Qed.

(** ** Concrete requests *)

Definition plain_v6 (a : Z) : str := show_Z a.
Definition visitor : client_id := ClientId None (Some (V4 3405803783)).
Definition guess (now : Z) : arrival := Arrival s!"sign_in" visitor now (now + 1).

Lemma limiter_counts_exactly_witness :
  exists r', serve plain_v6 (R := gmap_redis) rate_defaults (after plain_v6 (R := gmap_redis) rate_defaults ∅ (guess <$> [300; 301; 302; 310; 311; 320; 321; 322; 400; 599]))
               (guess 599)
             = Ok (Verdict true s!"sign_in" 11 10 (Some 1), Counted 11 true, Some r').
Proof.
  destruct (limiter_counts_exactly plain_v6 (R := gmap_redis) rate_defaults ∅
              (guess <$> [300; 301; 302; 310; 311; 320; 321; 322; 400; 599]) (guess 599)
              (RatePolicy s!"sign_in" 300 10 0 true)) as [r' Hr];
    [vm_compute; reflexivity|done|vm_compute; reflexivity|vm_compute; discriminate|vm_compute; reflexivity|reflexivity|done|].
  exists r'. etransitivity; [exact Hr|]. vm_compute. reflexivity.
Defined.

Lemma retry_after_opens_the_next_window_witness :
  counter_key plain_v6 (RatePolicy s!"sign_in" 300 10 0 true) visitor (320 + 280)
  <> counter_key plain_v6 (RatePolicy s!"sign_in" 300 10 0 true) visitor 320.
Proof.
  destruct (retry_after_opens_the_next_window plain_v6 rate_defaults s!"sign_in" visitor 11 320 280
    (Verdict true s!"sign_in" 11 10 (Some 280)) (RatePolicy s!"sign_in" 300 10 0 true)) as (_ & _ & _ & H);
    [vm_compute; reflexivity|vm_compute; reflexivity|vm_compute; reflexivity|reflexivity|exact H].
Defined.

(** A table whose row for signed-in requests allows nothing. *)
Definition closed_table : list rate_policy :=
  [ RatePolicy s!"global" 60 600 100 true; RatePolicy s!"sign_in" 300 10 0 true;
    RatePolicy s!"public_api" 60 2147483647 1 true; RatePolicy s!"authenticated_api" 60 0 0 true;
    RatePolicy s!"webhook_intake" 60 300 50 true ].

Lemma saved_limits_are_not_checked_witness :
  put_rate_limits (J := Z_number) (VArray []) (VArray []) (to_document closed_table)
    = Ok (to_document closed_table, closed_table)
  /\ v_limited <$> (match decide closed_table s!"authenticated_api" (ClientId (Some s!"ada") None) 1 0 with Ok v => Some v | Err _ => None end) = Some true
  /\ v_limited <$> (match decide closed_table s!"public_api" visitor 1 0 with Ok v => Some v | Err _ => None end) = Some true.
Proof.
  split; [|split; vm_compute; reflexivity].
  apply (saved_limits_are_not_checked (J := Z_number)); reflexivity.
Defined.

Definition header_of (name value : str) : headers := fun n => if str_eqb n name then [Some value] else [].

Lemma any_bearer_text_is_exempt_witness :
  decide_request plain_v6 (R := gmap_redis) (fun _ => None) rate_defaults s!"POST" s!"/api/v1/auth/login"
    (header_of s!"authorization" s!"Bearer nothing") (Some (V4 3405803783)) None 0 0 = (None, None).
Proof. apply (any_bearer_text_is_exempt plain_v6 _ _ _ _ s!"nothing"); [reflexivity|vm_compute; discriminate]. Defined.

Lemma dry_run_predicts_the_layer_witness :
  exists v, test_rate_limit rate_defaults s!"POST" s!"/api/v1/auth/login" (Some s!"203.0.113.7") None (Some 1) false 0
            = Ok (s!"sign_in", v).
Proof.
  destruct (dry_run_predicts_the_layer plain_v6 (R := gmap_redis) (fun _ => None) rate_defaults s!"POST" s!"/api/v1/auth/login"
    (fun _ => []) (Some (V4 3405803783)) (Some s!"203.0.113.7") ∅ 0 0 (RatePolicy s!"sign_in" 300 10 0 true)) with
    (r' := fst (INCREMENT (R := gmap_redis) 0 (counter_key plain_v6 (RatePolicy s!"sign_in" 300 10 0 true) visitor 0) 360 ∅)) (n := 1) as (v & Hv & _);
    [vm_compute; reflexivity|vm_compute; reflexivity|split; vm_compute; reflexivity|vm_compute; reflexivity|reflexivity| |lia|].
  - vm_compute. reflexivity.
  - exists v. exact Hv.
Defined.
