(* ===== verification/SignIn.v ===== *)
(** * Signing in: [crates/identity/src/signin.rs], [crates/security/src/lockout.rs], [enforce.rs],
    [limiter_store.rs]

    The sign-in-protection document and its arithmetic, the thresholds in force, the tables a
    sign-in reads and writes, the checks in their order, the password, the failure counter and the
    lock, the challenge of the second factor. The second factor itself is an interface
    ([SecondFactor]); password hashing, token hashing and lower-casing are arguments.

    Instants and intervals are in microseconds, the resolution of the database. An address is the
    text [IpAddr] prints, so equal texts are equal addresses. *)

From S2P Require Import Prelude Json Networks AccountPolicy RateLimit.

(** ** The sign-in-protection document ([lockout.rs]) *)

Definition MIN_WINDOW_SECONDS : Z := 60.
Definition MAX_WINDOW_SECONDS : Z := 86400.
Definition MIN_ATTEMPTS : Z := 1.
Definition MAX_ATTEMPTS : Z := 50.
Definition MIN_LOCKOUT_MINUTES : Z := 1.
Definition MAX_LOCKOUT_MINUTES : Z := 1440.
Definition MIN_DELAY_SECONDS : Z := 1.
Definition MAX_DELAY_SECONDS : Z := 60.

Record lockout_policy := LockoutPolicy {
  lp_window_seconds : Z;
  lp_attempts : Z;
  lp_lockout_minutes : Z;
  lp_progressive_delay : bool;
  lp_base_delay_seconds : Z;
  lp_reset_on_success : bool
}.
Definition lockout_default : lockout_policy := LockoutPolicy 900 5 15 true 2 true.

Inductive lockout_error := BadFailureWindow | BadThreshold | BadDuration | BadDelay | NotSettings | MissingFields | UnreadableDocument.

Definition validated (p : lockout_policy) : result lockout_policy lockout_error :=
  require within MIN_WINDOW_SECONDS MAX_WINDOW_SECONDS (lp_window_seconds p) else BadFailureWindow in
  require within MIN_ATTEMPTS MAX_ATTEMPTS (lp_attempts p) else BadThreshold in
  require within MIN_LOCKOUT_MINUTES MAX_LOCKOUT_MINUTES (lp_lockout_minutes p) else BadDuration in
  require within MIN_DELAY_SECONDS MAX_DELAY_SECONDS (lp_base_delay_seconds p) else BadDelay in
  Ok p.

Definition locks_at (p : lockout_policy) (failures : Z) : bool := lp_attempts p <=? failures.
Definition lock_seconds (p : lockout_policy) : Z := lp_lockout_minutes p * 60.

(** [as u32]: what leaves the word is dropped. *)
Definition as_u32 (z : Z) : Z := z mod 2 ^ 32.

Definition delay_for (p : lockout_policy) (failures : Z) : Z :=
  if negb (lp_progressive_delay p) || (failures <? 1) then 0
  else
    let exponent := as_u32 (Z.min (failures - 1) MAX_DELAY_SECONDS) in
    let delay := lp_base_delay_seconds p * 2 ^ Z.min exponent 31 in
    Z.min delay MAX_DELAY_SECONDS.

Record lockout_state := LockoutState {
  ls_failures : Z;
  ls_would_lock : bool;
  ls_next_delay_seconds : Z;
  ls_attempts_remaining : Z
}.

Definition evaluate_lockout (p : lockout_policy) (failures : Z) : result lockout_state lockout_error :=
  let? p := validated p in
  let failures := Z.max failures 0 in
  Ok (LockoutState failures (locks_at p failures) (delay_for p failures) (Z.max 0 (lp_attempts p - failures))).

Section Document.
Context `{J : JsonNumber}.

Definition lockout_to_value (p : lockout_policy) : value :=
  VObject
    (obj_insert s!"window_seconds" (VNumber (number_of_Z (lp_window_seconds p)))
    (obj_insert s!"attempts" (VNumber (number_of_Z (lp_attempts p)))
    (obj_insert s!"lockout_minutes" (VNumber (number_of_Z (lp_lockout_minutes p)))
    (obj_insert s!"progressive_delay" (VBool (lp_progressive_delay p))
    (obj_insert s!"base_delay_seconds" (VNumber (number_of_Z (lp_base_delay_seconds p)))
    (obj_insert s!"reset_on_success" (VBool (lp_reset_on_success p)) [])))))).

Definition lockout_fields : list str :=
  [s!"window_seconds"; s!"attempts"; s!"lockout_minutes"; s!"progressive_delay"; s!"base_delay_seconds"; s!"reset_on_success"].

(** [serde_json::from_value::<LockoutPolicy>] of an object. *)
Definition lockout_from_object (m : list (str * value)) : option lockout_policy :=
  window ← obj_get s!"window_seconds" m ≫= as_i64;
  attempts ← obj_get s!"attempts" m ≫= read_i32;
  minutes ← obj_get s!"lockout_minutes" m ≫= read_i32;
  progressive ← obj_get s!"progressive_delay" m ≫= read_bool;
  base ← obj_get s!"base_delay_seconds" m ≫= read_i32;
  reset ← obj_get s!"reset_on_success" m ≫= read_bool;
  Some (LockoutPolicy window attempts minutes progressive base reset).

Definition is_empty_object (v : value) : bool := match v with VObject [] => true | _ => false end.

Definition parse_lockout (v : value) : result lockout_policy lockout_error :=
  if is_null v || is_empty_object v then Ok lockout_default
  else
    let? m := ok_or (as_object v) NotSettings in
    require forallb (fun f => is_given (obj_get f m)) lockout_fields else MissingFields in
    let? p := ok_or (lockout_from_object m) UnreadableDocument in
    validated p.

(** ** The thresholds in force ([enforce.rs]) *)

Record enforced_lockout := EnforcedLockout { el_attempts : Z; el_lockout_minutes : Z; el_window_seconds : Z }.
Definition enforced_from (p : lockout_policy) : enforced_lockout :=
  EnforcedLockout (lp_attempts p) (lp_lockout_minutes p) (lp_window_seconds p).

Definition resolve_lockout (stored : value) (policies : list security_policy) (organization : option Z) : enforced_lockout :=
  let fallback :=
    match organization with
    | None => enforced_from lockout_default
    | Some o =>
        match get_policy policies o with
        | Some legacy =>
            EnforcedLockout (sp_lockout_attempts legacy) (sp_lockout_minutes legacy) (lp_window_seconds lockout_default)
        | None => enforced_from lockout_default
        end
    end in
  match parse_lockout stored with
  | Ok p => if negb (is_null stored || is_empty_object stored) then enforced_from p else fallback
  | Err _ => fallback
  end.
End Document.

(** ** The tables *)

Definition seconds (n : Z) : Z := n * 1000000.
Definition minutes (n : Z) : Z := n * 60000000.

Inductive outcome := Success | Failed | Locked | Blocked | MfaRequired.
#[export] Instance outcome_eq_dec : EqDecision outcome.
Proof. solve_decision. Defined.

Record account := Account {
  a_id : Z;
  a_organization_id : option Z;
  a_email : str;
  a_status : str;
  a_password_hash : option str;
  a_locked_until : option Z;
  a_failed_sign_in_count : Z;
  a_last_sign_in_at : option Z
}.

Record attempt := Attempt {
  at_email : str;
  at_user_id : option Z;
  at_organization_id : option Z;
  at_ip : option str;
  at_outcome : outcome;
  at_created_at : Z
}.

Record challenge := Challenge {
  ch_user_id : Z;
  ch_purpose : str;
  ch_token_hash : str;
  ch_consumed_at : option Z;
  ch_expires_at : Z
}.

Inductive verification := TotpMatched (factor_id : Z) | RecoveryMatched.

(** What the sign-in asks of the second-factor store. *)
Class SecondFactor := {
  factors : Type;
  has_confirmed_factor : factors -> Z -> bool;
  verify_code : factors -> Z -> Z -> str -> factors * option verification
}.

Record tables `{J : JsonNumber, F : SecondFactor} := Tables {
  t_users : list account;
  t_attempts : list attempt;
  t_challenges : list challenge;
  t_policies : list security_policy;
  t_lockout : value;
  t_factors : factors
}.

Section SignIn.
Context `{J : JsonNumber, F : SecondFactor}.
Context (to_lowercase : str -> str) (verify_password : str -> str -> bool) (hash_token : str -> str).

Definition with_users (f : list account -> list account) (t : tables) : tables :=
  Tables _ _ (f (t_users t)) (t_attempts t) (t_challenges t) (t_policies t) (t_lockout t) (t_factors t).
Definition with_challenges (c : list challenge) (t : tables) : tables :=
  Tables _ _ (t_users t) (t_attempts t) c (t_policies t) (t_lockout t) (t_factors t).
Definition with_policies (p : list security_policy) (t : tables) : tables :=
  Tables _ _ (t_users t) (t_attempts t) (t_challenges t) p (t_lockout t) (t_factors t).
Definition with_factors (f : factors) (t : tables) : tables :=
  Tables _ _ (t_users t) (t_attempts t) (t_challenges t) (t_policies t) (t_lockout t) f.

Definition record_attempt (a : attempt) (t : tables) : tables :=
  Tables _ _ (t_users t) (t_attempts t ++ [a]) (t_challenges t) (t_policies t) (t_lockout t) (t_factors t).

Definition update_account (id : Z) (f : account -> account) : list account -> list account :=
  fmap (fun a => if a_id a =? id then f a else a).

(** ** Counting *)

Definition counts_for_account (o : outcome) : bool := match o with Failed | Locked | Blocked => true | _ => false end.
Definition counts_for_address (o : outcome) : bool := match o with Failed | Locked => true | _ => false end.

Definition failures_in_window (attempts : list attempt) (user : Z) (window now : Z) : Z :=
  Z.of_nat (length (List.filter
    (fun a => bool_decide (at_user_id a = Some user)
              && (now - seconds (Z.max 1 (Z.min window MAX_WINDOW_SECONDS)) <? at_created_at a)
              && counts_for_account (at_outcome a)) attempts)).

Definition recent_failures_from_address (attempts : list attempt) (ip : str) (window_minutes now : Z) : Z :=
  Z.of_nat (length (List.filter
    (fun a => bool_decide (at_ip a = Some ip) && counts_for_address (at_outcome a)
              && (now - minutes window_minutes <? at_created_at a)) attempts)).

Definition recent_failures_total (attempts : list attempt) (window_minutes now : Z) : Z :=
  Z.of_nat (length (List.filter
    (fun a => counts_for_account (at_outcome a) && (now - minutes window_minutes <? at_created_at a)) attempts)).

Definition clear_address_failures (t : tables) : tables :=
  Tables _ _ (t_users t) (List.filter (fun a => negb (counts_for_address (at_outcome a))) (t_attempts t))
    (t_challenges t) (t_policies t) (t_lockout t) (t_factors t).

(** ** The lock *)

(** [locked_until > now()] *)
Definition is_locked (now : Z) (a : account) : bool :=
  match a_locked_until a with Some until => now <? until | None => false end.

Definition locked_count (t : tables) (now : Z) : Z := Z.of_nat (length (List.filter (is_locked now) (t_users t))).

(** [unlock_account]: whether a locked account was unlocked. *)
Definition unlock_account (id now : Z) (t : tables) : tables * bool :=
  let clear a := if is_locked now a
                 then Account (a_id a) (a_organization_id a) (a_email a) (a_status a) (a_password_hash a) None 0 (a_last_sign_in_at a)
                 else a in
  (with_users (update_account id clear) t, existsb (fun a => (a_id a =? id) && is_locked now a) (t_users t)).

Definition set_failures (count : Z) (lockout : enforced_lockout) (now : Z) (a : account) : account :=
  Account (a_id a) (a_organization_id a) (a_email a) (a_status a) (a_password_hash a)
    (if el_attempts lockout <=? count then Some (now + minutes (el_lockout_minutes lockout)) else a_locked_until a)
    count (a_last_sign_in_at a).

Definition find_by_id (id : Z) (t : tables) : option account := List.find (fun a => a_id a =? id) (t_users t).

(** [register_failure]: the counter's new value and the lock the row carries afterwards. *)
Definition register_failure (t : tables) (id : Z) (lockout : enforced_lockout) (now : Z) : tables * (Z * option Z) :=
  let failures_now := as_i32 (failures_in_window (t_attempts t) id (el_window_seconds lockout) now) in
  let failures_including_this_one := add_i32 failures_now 1 in
  let t := with_users (update_account id (set_failures failures_including_this_one lockout now)) t in
  (t, (failures_including_this_one, find_by_id id t ≫= a_locked_until)).

Definition clear_failures (id now : Z) (t : tables) : tables :=
  with_users (update_account id (fun a =>
    Account (a_id a) (a_organization_id a) (a_email a) (a_status a) (a_password_hash a) None 0 (Some now))) t.

(** ** Challenges *)

Definition CHALLENGE_TTL_MINUTES : Z := 5.
Definition PURPOSE_LOGIN : str := s!"login".
Definition PURPOSE_STEP_UP : str := s!"step_up".

Definition is_open (c : challenge) : bool := negb (is_given (ch_consumed_at c)).
Definition consumed (now : Z) (c : challenge) : challenge :=
  Challenge (ch_user_id c) (ch_purpose c) (ch_token_hash c) (Some now) (ch_expires_at c).

(** One live challenge per purpose: the new one replaces the previous. *)
Definition create_challenge (user : Z) (purpose token : str) (now : Z) (cs : list challenge) : list challenge :=
  let retire c := if (ch_user_id c =? user) && str_eqb (ch_purpose c) purpose && is_open c then consumed now c else c in
  (retire <$> cs) ++ [Challenge user purpose (hash_token token) None (now + minutes CHALLENGE_TTL_MINUTES)].

Definition usable (token_hash purpose : str) (now : Z) (c : challenge) : bool :=
  str_eqb (ch_token_hash c) token_hash && str_eqb (ch_purpose c) purpose && is_open c && (now <? ch_expires_at c).

Definition consume_challenge (token purpose : str) (now : Z) (cs : list challenge) : list challenge * option Z :=
  let h := hash_token token in
  ((fun c => if usable h purpose now c then consumed now c else c) <$> cs,
   ch_user_id <$> List.find (usable h purpose now) cs).

Definition peek_challenge (token purpose : str) (now : Z) (cs : list challenge) : option Z :=
  ch_user_id <$> List.find (usable (hash_token token) purpose now) cs.

(** ** Signing in *)

Definition DEFAULT_ADDRESS_FAILURE_MULTIPLE : Z := 3.
Definition MAX_EMAIL_LENGTH : nat := 254.

Inductive email_error := InvalidEmail.

Definition normalize_email (email : str) : result str email_error :=
  let trimmed := trim email in
  refuse str_eqb trimmed [] with InvalidEmail in
  refuse (MAX_EMAIL_LENGTH <? utf8_len trimmed)%nat with InvalidEmail in
  refuse existsb is_whitespace trimmed with InvalidEmail in
  let? (local, domain) := ok_or (split_once c!"@" trimmed) InvalidEmail in
  let domain_valid := contains_char c!"." domain && negb (starts_with domain s!".")
    && negb (ends_with domain s!".") && negb (contains_char c!"@" domain) in
  refuse str_eqb local [] || str_eqb domain [] || negb domain_valid with InvalidEmail in
  Ok (to_lowercase trimmed).

Inductive sign_in_outcome :=
| Authenticated (user : account) (challenge : option str)
| InvalidCredentials
| AccountDisabled (status : str)
| AccountLocked (until : Z) (newly_locked : bool) (user_id : Z) (organization_id : option Z) (attempts : Z)
| IpBlocked (reason rule : str).

(** The row must have a password to be an account. *)
Definition find_account (t : tables) (email : str) : option (account * str) :=
  row ← List.find (fun a => str_eqb (a_email a) email) (t_users t);
  hash ← a_password_hash row;
  Some (row, hash).

(** The organization of an account exists: its row refers to it. *)
Definition policy_for (t : tables) (organization : option Z) (now : Z) : tables * option security_policy :=
  match policy_for_account (fun _ => true) (t_policies t) organization now with
  | Ok (policies, p) => (with_policies policies t, p)
  | Err _ => (t, None)
  end.

(** What the checks before the password decide: an answer, or the password's turn. *)
Inductive checked :=
| Answered (o : sign_in_outcome)
| PasswordTurn (a : account) (hash : str) (lockout : enforced_lockout) (email : str).

(** Everything before the password: the tables it leaves and what it decides. *)
Definition check_before_password (t : tables) (email : str) (ip : option str) (now : Z) : tables * checked :=
  let normalized := match normalize_email email with Ok e => Some e | Err _ => None end in
  let attempt_email := match normalized with Some e => e | None => to_lowercase (trim email) end in
  let found := normalized ≫= find_account t in
  let organization := found ≫= fun '(a, _) => a_organization_id a in
  let '(t, policy) := match found with Some _ => policy_for t organization now | None => (t, None) end in
  let lockout := resolve_lockout (t_lockout t) (t_policies t) organization in
  let address_failure_limit := el_attempts lockout * DEFAULT_ADDRESS_FAILURE_MULTIPLE in
  let note o := record_attempt (Attempt attempt_email ((fun '(a, _) => a_id a) <$> found) organization ip o now) t in
  let lists := match policy with
               | Some p => check_ip (sp_ip_denylist p) (sp_ip_allowlist p) (ip ≫= parse_ip)
               | None => Allowed
               end in
  match lists with
  | Denied rule reason => (note Blocked, Answered (IpBlocked reason rule))
  | Allowed =>
      let spray := match ip with
                   | Some text => address_failure_limit <=? recent_failures_from_address (t_attempts t) text (el_lockout_minutes lockout) now
                   | None => false
                   end in
      if spray then (note Blocked, Answered (IpBlocked s!"address_failures" (default [] ip)))
      else
        match found with
        | None => (note Failed, Answered InvalidCredentials)
        | Some (a, hash) =>
            match a_locked_until a with
            | Some until =>
                if now <? until then
                  (note Locked, Answered (AccountLocked until false (a_id a) (a_organization_id a) (el_attempts lockout)))
                else (t, PasswordTurn a hash lockout attempt_email)
            | None => (t, PasswordTurn a hash lockout attempt_email)
            end
        end
  end.

Definition is_active (a : account) : bool := str_eqb (a_status a) s!"active".

(** The password and what follows it; [token] is the token a challenge would get. *)
Definition after_password (t : tables) (a : account) (hash : str) (lockout : enforced_lockout) (email password : str)
  (ip : option str) (token : str) (now : Z) : tables * sign_in_outcome :=
  let note o t := record_attempt (Attempt email (Some (a_id a)) (a_organization_id a) ip o now) t in
  if negb (verify_password password hash) then
    let '(t, (_, locked_until)) := register_failure t (a_id a) lockout now in
    let locked := match locked_until with Some until => now <? until | None => false end in
    let t := note (if locked then Locked else Failed) t in
    match locked_until with
    | Some until =>
        if locked then (t, AccountLocked until true (a_id a) (a_organization_id a) (el_attempts lockout))
        else (t, InvalidCredentials)
    | None => (t, InvalidCredentials)
    end
  else if negb (is_active a) then (note Failed t, AccountDisabled (a_status a))
  else
    let t := clear_failures (a_id a) now t in
    if has_confirmed_factor (t_factors t) (a_id a) then
      let t := with_challenges (create_challenge (a_id a) PURPOSE_LOGIN token now (t_challenges t)) t in
      (note MfaRequired t, Authenticated a (Some token))
    else (note Success t, Authenticated a None).

(** [sign_in] when nothing else runs between its statements. *)
Definition sign_in (t : tables) (email password : str) (ip : option str) (token : str) (now : Z) : tables * sign_in_outcome :=
  match check_before_password t email ip now with
  | (t, Answered o) => (t, o)
  | (t, PasswordTurn a hash lockout e) => after_password t a hash lockout e password ip token now
  end.

Inductive mfa_error := InvalidFactor.

(** [complete_mfa_login]: [Ok None] when the challenge is unknown, expired or used. *)
Definition complete_mfa_login (t : tables) (token code : str) (ip : option str) (now : Z) :
  tables * result (option (account * verification)) mfa_error :=
  let '(cs, user) := consume_challenge token PURPOSE_LOGIN now (t_challenges t) in
  let t := with_challenges cs t in
  match user ≫= fun id => find_by_id id t with
  | None => (t, Ok None)
  | Some a =>
      let '(f, v) := verify_code (t_factors t) now (a_id a) code in
      let t := with_factors f t in
      let note o := record_attempt (Attempt (a_email a) (Some (a_id a)) (a_organization_id a) ip o now) t in
      match v with
      | None => (note Failed, Err InvalidFactor)
      | Some v => (note Success, Ok (Some (a, v)))
      end
  end.

(** [session_policy_for] *)
Definition session_policy_for (t : tables) (organization : option Z) (now : Z) : session_policy :=
  match snd (policy_for t organization now) with Some p => session_policy_from p | None => session_policy_default end.

(** ** Sequences of sign-ins *)

Record request := Request { rq_email : str; rq_password : str; rq_ip : option str; rq_token : str; rq_now : Z }.

Definition serve (t : tables) (r : request) : tables * sign_in_outcome :=
  sign_in t (rq_email r) (rq_password r) (rq_ip r) (rq_token r) (rq_now r).
Definition serve_all (t : tables) (l : list request) : tables := foldl (fun t r => fst (serve t r)) t l.

(** A request that had a password of account [user] verified, and it was wrong. *)
Definition is_guess (t : tables) (user : Z) (r : request) : bool :=
  match snd (check_before_password t (rq_email r) (rq_ip r) (rq_now r)) with
  | PasswordTurn a hash _ _ => (a_id a =? user) && negb (verify_password (rq_password r) hash)
  | Answered _ => false
  end.

(** The instants of the wrong passwords tried against an account, in order. *)
Fixpoint guesses (t : tables) (user : Z) (l : list request) : list Z :=
  match l with
  | [] => []
  | r :: l => (if is_guess t user r then [rq_now r] else []) ++ guesses (fst (serve t r)) user l
  end.

(** The document has been saved: it is the policy in force for everyone. *)
Definition in_force (t : tables) (p : lockout_policy) : Prop :=
  parse_lockout (t_lockout t) = Ok p /\ is_null (t_lockout t) || is_empty_object (t_lockout t) = false.

Lemma in_force_resolves t p policies organization :
  in_force t p -> resolve_lockout (t_lockout t) policies organization = enforced_from p.
Proof. intros [Hp Hw]. unfold resolve_lockout. by rewrite Hp, Hw. Qed.

Lemma validated_spec p q :
  validated p = Ok q -> q = p /\ 60 <= lp_window_seconds p <= 86400 /\ 1 <= lp_attempts p <= 50
  /\ 1 <= lp_lockout_minutes p <= 1440 /\ 1 <= lp_base_delay_seconds p <= 60.
Proof.
  unfold validated, within, MIN_WINDOW_SECONDS, MAX_WINDOW_SECONDS, MIN_ATTEMPTS, MAX_ATTEMPTS, MIN_LOCKOUT_MINUTES,
    MAX_LOCKOUT_MINUTES, MIN_DELAY_SECONDS, MAX_DELAY_SECONDS.
  intros H. ok_inv H. rewrite !andb_true_iff, !Z.leb_le in *. split; [done|lia].
Qed.

Lemma in_force_range t p :
  in_force t p -> 60 <= lp_window_seconds p <= 86400 /\ 1 <= lp_attempts p <= 50 /\ 1 <= lp_lockout_minutes p <= 1440.
Proof.
  intros [H Hw]. unfold parse_lockout in H. rewrite Hw in H. ok_inv H.
  by apply validated_spec in H as (-> & ? & ? & ? & _).
Qed.

(** The checks before the password sign nobody in and leave the factors alone. *)
Lemma check_refuses t email ip now t' c :
  check_before_password t email ip now = (t', c) ->
  t_factors t' = t_factors t /\ match c with Answered o => forall a x, o <> Authenticated a x | PasswordTurn _ _ _ _ => True end.
Proof.
  intros H. unfold check_before_password in H.
  destruct (match _ with Some _ => policy_for _ _ _ | None => _ end) as [t1 q] eqn:Ep in H.
  assert (Hf : t_factors t1 = t_factors t).
  { destruct (_ ≫= _) in Ep; [|by simplify_eq]. unfold policy_for in Ep.
    destruct (policy_for_account _ _ _ _) as [[? ?]|] in Ep; by simplify_eq. }
  rewrite <- Hf. clear Ep Hf.
  destruct (match _ with Some _ => check_ip _ _ _ | None => _ end) in H; [|by simplify_eq].
  destruct (match ip with Some _ => _ | None => _ end) in H; [by simplify_eq|].
  destruct (_ ≫= _) as [[b hash]|] in H; [|by simplify_eq].
  destruct (a_locked_until b) in H; [destruct (now <? _) in H|]; by simplify_eq.
Qed.

(** What the checks before the password leave: at most one row more in the log, the accounts as
    they were, and, for the password's turn, the log as it was and an account that is not locked. *)
Lemma check_leaves t email ip now t' c p :
  in_force t p -> check_before_password t email ip now = (t', c) ->
  in_force t' p /\ t_users t' = t_users t
  /\ match c with
     | Answered o => exists e u org k, t_attempts t' = t_attempts t ++ [Attempt e u org ip k now]
         /\ (forall a x, o <> Authenticated a x)
         /\ (counts_for_address k = true -> forall text, ip = Some text ->
             recent_failures_from_address (t_attempts t) text (lp_lockout_minutes p) now < lp_attempts p * 3)
     | PasswordTurn a hash l e => t_attempts t' = t_attempts t /\ a ∈ t_users t /\ is_locked now a = false
         /\ l = enforced_from p
         /\ (forall text, ip = Some text ->
             recent_failures_from_address (t_attempts t) text (lp_lockout_minutes p) now < lp_attempts p * 3)
     end.
Proof.
  intros Hf H. unfold check_before_password in H.
  set (norm := match normalize_email email with Ok e => Some e | Err _ => None end) in H.
  set (found := norm ≫= find_account t) in H.
  set (org := found ≫= _) in H.
  destruct (match found with Some _ => policy_for t org now | None => (t, None) end) as [t0 policy] eqn:Ep.
  assert (Ht : in_force t0 p /\ t_users t0 = t_users t /\ t_attempts t0 = t_attempts t).
  { destruct found; [|by simplify_eq]. unfold policy_for in Ep.
    destruct (policy_for_account _ _ _ _) as [[? ?]|]; by simplify_eq. }
  destruct Ht as (Hf0 & Hu & Ha). rewrite (in_force_resolves t0 p) in H by done.
  assert (Hfound : forall a hash, found = Some (a, hash) -> a ∈ t_users t).
  { intros a hash E. unfold found in E. destruct norm as [e|]; [|done]. cbn in E. unfold find_account in E.
    destruct (List.find _ (t_users t)) as [row|] eqn:Er; [|done]. cbn in E.
    destruct (a_password_hash row); [|done]. cbn in E. injection E as <- <-. apply find_some in Er as [Er _].
    by apply list_elem_of_In. }
  rewrite <- Hu, <- Ha. rewrite <- Hu in Hfound. clearbody found org. clear Ep.
  destruct (match policy with Some _ => _ | None => _ end) as [|rule reason] eqn:El in H.
  2: { injection H as <- <-. cbn. split_and!; try apply Hf0; [done|]. by eexists _, _, _, _. }
  cbn [el_attempts el_lockout_minutes enforced_from] in H. unfold DEFAULT_ADDRESS_FAILURE_MULTIPLE in H.
  destruct (match ip with Some _ => _ | None => _ end) eqn:Es in H.
  { injection H as <- <-. cbn. split_and!; try apply Hf0; [done|]. by eexists _, _, _, _. }
  assert (Hs : forall text, ip = Some text ->
    recent_failures_from_address (t_attempts t0) text (lp_lockout_minutes p) now < lp_attempts p * 3).
  { intros text ->. by apply Z.leb_gt in Es. }
  destruct found as [[a hash]|].
  2: { injection H as <- <-. cbn. split_and!; try apply Hf0; [done|]. by eexists _, _, _, _. }
  assert (Hin : a ∈ t_users t0) by by eapply Hfound.
  destruct (a_locked_until a) as [until|] eqn:Eu.
  - destruct (now <? until) eqn:E.
    + injection H as <- <-. cbn. split_and!; try apply Hf0; [done|]. by eexists _, _, _, _.
    + injection H as <- <-. split_and!; try apply Hf0; try done. unfold is_locked. by rewrite Eu.
  - injection H as <- <-. split_and!; try apply Hf0; try done. unfold is_locked. by rewrite Eu.
Qed.

Definition cleared (now : Z) (a : account) : account :=
  Account (a_id a) (a_organization_id a) (a_email a) (a_status a) (a_password_hash a) None 0 (Some now).

(** The count a wrong password compares with the threshold. *)
Definition failures_with_this (t : tables) (user : Z) (l : enforced_lockout) (now : Z) : Z :=
  add_i32 (as_i32 (failures_in_window (t_attempts t) user (el_window_seconds l) now)) 1.

Lemma after_leaves t a hash l e pw ip token now t' o p :
  in_force t p -> after_password t a hash l e pw ip token now = (t', o) ->
  in_force t' p
  /\ (exists k, t_attempts t' = t_attempts t ++ [Attempt e (Some (a_id a)) (a_organization_id a) ip k now]
      /\ (verify_password pw hash = false -> k = Failed \/ k = Locked))
  /\ t_users t' = (if verify_password pw hash then if is_active a then update_account (a_id a) (cleared now) (t_users t) else t_users t
                   else update_account (a_id a) (set_failures (failures_with_this t (a_id a) l now) l now) (t_users t)).
Proof.
  intros Hf H. unfold after_password in H. destruct (verify_password pw hash) eqn:Ev; cbn [negb] in H.
  - destruct (is_active a); cbn [negb] in H.
    + destruct (has_confirmed_factor _ _) in H; injection H as <- <-; cbn; (split_and!; [exact Hf| |done]);
        eexists; (split; [reflexivity|done]).
    + injection H as <- <-. cbn. split_and!; [exact Hf| |done]. by exists Failed.
  - unfold register_failure in H. fold (failures_with_this t (a_id a) l now) in H.
    assert (t' = record_attempt (Attempt e (Some (a_id a)) (a_organization_id a) ip
      (if match find_by_id (a_id a) (with_users (update_account (a_id a) (set_failures (failures_with_this t (a_id a) l now) l now)) t)
                ≫= a_locked_until with Some until => now <? until | None => false end then Locked else Failed) now)
      (with_users (update_account (a_id a) (set_failures (failures_with_this t (a_id a) l now) l now)) t)) as ->.
    { destruct (find_by_id _ _ ≫= a_locked_until) as [until|]; [destruct (now <? until)|]; by injection H as <- <-. }
    cbn [record_attempt t_attempts t_users with_users]. split_and!; [exact Hf| |done].
    eexists. split; [reflexivity|]. intros _.
    match goal with |- context [if ?b then Locked else Failed] => destruct b end; auto.
Qed.

(** ** Counting in the log *)

Definition newer (x : Z) (l : list Z) : Z := Z.of_nat (length (List.filter (fun g => x <? g) l)).
Definition rows_of (user x : Z) (l : list attempt) : Z :=
  Z.of_nat (length (List.filter (fun a => bool_decide (at_user_id a = Some user) && (x <? at_created_at a)
                                          && counts_for_account (at_outcome a)) l)).

Lemma newer_app x l l' : newer x (l ++ l') = newer x l + newer x l'.
Proof. unfold newer. rewrite List.filter_app, length_app. lia. Qed.
Lemma rows_of_app user x l l' : rows_of user x (l ++ l') = rows_of user x l + rows_of user x l'.
Proof. unfold rows_of. rewrite List.filter_app, length_app. lia. Qed.
Lemma rows_of_nonneg user x l : 0 <= rows_of user x l <= Z.of_nat (length l).
Proof. unfold rows_of. pose proof (List.filter_length_le (fun a => bool_decide (at_user_id a = Some user) && (x <? at_created_at a) && counts_for_account (at_outcome a)) l). lia. Qed.

Lemma as_i32_exact z : 0 <= z < i32_max -> add_i32 (as_i32 z) 1 = z + 1.
Proof.
  unfold i32_max. intros H. unfold as_i32. rewrite Z.mod_small by lia.
  replace (z + 2 ^ 31 - 2 ^ 31) with z by lia. apply add_i32_exact. lia.
Qed.

Lemma failures_rows t p user now :
  60 <= lp_window_seconds p <= 86400 -> Z.of_nat (length (t_attempts t)) < i32_max ->
  failures_with_this t user (enforced_from p) now
  = rows_of user (now - seconds (lp_window_seconds p)) (t_attempts t) + 1.
Proof.
  intros Hw Hl. unfold failures_with_this, failures_in_window. cbn [el_window_seconds enforced_from].
  unfold MAX_WINDOW_SECONDS. rewrite (Z.min_l (lp_window_seconds p)), Z.max_r by lia.
  fold (rows_of user (now - seconds (lp_window_seconds p)) (t_attempts t)).
  pose proof (rows_of_nonneg user (now - seconds (lp_window_seconds p)) (t_attempts t)). apply as_i32_exact. lia.
Qed.

(** A lock that has to hold until an instant: every row of the account carries it, or the instant
    has passed. *)
Definition held_until (t : tables) (user clock until : Z) : Prop :=
  until <= clock \/ forall a, a ∈ t_users t -> a_id a = user -> exists l, a_locked_until a = Some l /\ until <= l.

Record guess_invariant (p : lockout_policy) (user : Z) (t : tables) (g : list Z) (clock : Z) : Prop := {
  gi_force : in_force t p;
  gi_past : forall x, x ∈ g -> x <= clock;
  gi_sorted : StronglySorted Z.le g;
  gi_logged : forall x, newer x g <= rows_of user x (t_attempts t);
  gi_locked : forall i first last, g !! i = Some first -> g !! (i + Z.to_nat (lp_attempts p) - 1)%nat = Some last ->
    first <= last - seconds (lp_window_seconds p)
    \/ held_until t user clock (last + minutes (lp_lockout_minutes p))
}.

Lemma elem_of_update id f l a : a ∈ update_account id f l <-> exists b, b ∈ l /\ a = (if a_id b =? id then f b else b).
Proof. unfold update_account. rewrite list_elem_of_fmap. naive_solver. Qed.

(** A step that leaves the accounts of a held lock alone, or finds it expired. *)
Lemma held_by_step t t' user clock now until :
  clock <= now -> held_until t user clock until ->
  (t_users t' = t_users t
   \/ (exists a, a ∈ t_users t /\ is_locked now a = false
       /\ exists f, (forall b, a_id (f b) = a_id b) /\ t_users t' = update_account (a_id a) f (t_users t))) ->
  held_until t' user now until.
Proof.
  intros Hle Hh H. unfold held_until. destruct Hh as [Hh|Hh]; [left; lia|]. destruct H as [->|(a & Ha & Hlock & f & Hf & ->)]; [by right|].
  destruct (Z.eq_dec (a_id a) user) as [Hu|Hu].
  - left. destruct (Hh a Ha Hu) as (l & Hl & Hul). unfold is_locked in Hlock. rewrite Hl in Hlock.
    apply Z.ltb_ge in Hlock. lia.
  - right. intros b (c & Hc & ->)%elem_of_update Hb. destruct (Z.eqb_spec (a_id c) (a_id a)) as [E|E].
    + rewrite Hf in Hb. congruence.
    + by apply Hh.
Qed.

Lemma held_by_lock t t' user now p n :
  t_users t' = update_account user (set_failures n (enforced_from p) now) (t_users t) -> lp_attempts p <= n ->
  held_until t' user now (now + minutes (lp_lockout_minutes p)).
Proof.
  intros Hu Hn. right. intros a. rewrite Hu. intros (b & _ & ->)%elem_of_update Ha.
  exists (now + minutes (lp_lockout_minutes p)). split; [|lia].
  destruct (Z.eqb_spec (a_id b) user) as [E|E]; [|done]. cbn [set_failures a_locked_until enforced_from el_attempts el_lockout_minutes].
  by rewrite (proj2 (Z.leb_le _ _) Hn).
Qed.

Lemma newer_since x g i first :
  StronglySorted Z.le g -> g !! i = Some first -> x < first -> Z.of_nat (length g - i) <= newer x g.
Proof.
  intros Hs Hi Hx. rewrite <- (take_drop i g), newer_app.
  assert (Hd : newer x (drop i g) = Z.of_nat (length (drop i g))).
  { unfold newer. do 2 f_equal. rewrite (drop_S _ _ _ Hi).
    assert (Hall : forall y, y ∈ first :: drop (S i) g -> first <= y).
    { clear -Hs Hi. revert i Hi. induction Hs as [|z l Hs IH Hf]; intros i Hi; [done|]. destruct i as [|i].
      - injection Hi as ->. cbn [drop]. rewrite drop_0. intros y [->|Hy]%elem_of_cons; [lia|]. rewrite Forall_forall in Hf. by apply Hf.
      - cbn [drop]. by apply IH. }
    induction (first :: drop (S i) g) as [|y l IH]; [done|]. cbn [List.filter].
    rewrite (proj2 (Z.ltb_lt x y)) by (specialize (Hall y (list_elem_of_here _ _)); lia).
    f_equal. apply IH. intros z Hz. apply Hall. by apply elem_of_cons; right. }
  rewrite Hd, length_drop, (take_drop i g). unfold newer. lia.
Qed.

Lemma sorted_lookup g i j x y : StronglySorted Z.le g -> g !! i = Some x -> g !! j = Some y -> (i < j)%nat -> x <= y.
Proof.
  intros Hs Hi Hj Hlt. rewrite <- (take_drop j g) in Hs.
  apply (StronglySorted_app_1_elem_of _ _ _ _ _ Hs).
  - apply (list_elem_of_lookup_2 _ i). by rewrite lookup_take_lt.
  - apply (list_elem_of_lookup_2 _ 0). by rewrite lookup_drop, Nat.add_0_r.
Qed.

(** The [n]-th wrong password after a given one comes late: a lock was due, and it has run out. *)
Lemma guess_spacing p user t g clock a now i first :
  guess_invariant p user t g clock -> clock <= now -> a ∈ t_users t -> a_id a = user -> is_locked now a = false ->
  (i + Z.to_nat (lp_attempts p))%nat = length g -> g !! i = Some first ->
  first + Z.min (seconds (lp_window_seconds p)) (minutes (lp_lockout_minutes p)) <= now.
Proof.
  intros [Hf Hpast Hsort Hlog Hlock] Hle Hin Eu Hunlocked Hi H1. pose proof (in_force_range t p Hf) as (Hw & Hn & Hm).
  destruct (lookup_lt_is_Some_2 g (i + Z.to_nat (lp_attempts p) - 1)%nat) as [last H2]; [lia|].
  assert (Hfl : first <= last /\ last <= now).
  { split; [|pose proof (Hpast last (list_elem_of_lookup_2 _ _ _ H2)); lia].
    destruct (decide_rel (=) i (i + Z.to_nat (lp_attempts p) - 1)%nat) as [He|Hne]; [rewrite <- He in H2; assert (first = last) by congruence; lia|].
    by eapply (sorted_lookup g i (i + Z.to_nat (lp_attempts p) - 1)%nat); [exact Hsort|exact H1|exact H2|lia]. }
  destruct (Hlock i first last H1 H2) as [?|[Hh|Hh]]; [lia|lia|].
  destruct (Hh a Hin Eu) as (u & Hau & Hlu). unfold is_locked in Hunlocked. rewrite Hau in Hunlocked.
  apply Z.ltb_ge in Hunlocked. lia.
Qed.

(** A new wrong password is logged, and locks when enough of them are recent. *)
Lemma guess_extends p user t t1 g clock now e org ip k n :
  guess_invariant p user t g clock -> clock <= now -> in_force t1 p ->
  t_attempts t1 = t_attempts t ++ [Attempt e (Some user) org ip k now] -> k = Failed \/ k = Locked ->
  t_users t1 = update_account user (set_failures n (enforced_from p) now) (t_users t) ->
  n = rows_of user (now - seconds (lp_window_seconds p)) (t_attempts t) + 1 ->
  (forall until, held_until t user clock until -> held_until t1 user now until) ->
  guess_invariant p user t1 (g ++ [now]) now.
Proof.
  intros [Hf Hpast Hsort Hlog Hlock] Hle Hf1 Ha1 Hk Hu1 -> Hheld. pose proof (in_force_range t p Hf) as (Hw & Hn & Hm). split.
  - done.
  - intros x [Hx| ->%list_elem_of_singleton]%elem_of_app; [specialize (Hpast x Hx)|]; lia.
  - apply StronglySorted_app. split_and!; [|done|by repeat constructor].
    intros x y Hx ->%list_elem_of_singleton. specialize (Hpast x Hx). lia.
  - intros x. rewrite newer_app, Ha1, rows_of_app. specialize (Hlog x).
    assert (newer x [now] <= rows_of user x [Attempt e (Some user) org ip k now]); [|lia].
    unfold newer, rows_of. cbn [List.filter at_user_id at_created_at at_outcome]. rewrite bool_decide_eq_true_2 by done.
    destruct (x <? now); [|done]. by destruct Hk as [-> | ->].
  - intros i first last H1 H2.
    destruct (decide_rel (=) (i + Z.to_nat (lp_attempts p) - 1)%nat (length g)) as [He|Hne].
    + rewrite He, list_lookup_middle in H2 by done. injection H2 as <-.
      destruct (Z.le_gt_cases first (now - seconds (lp_window_seconds p))) as [?|Hgt]; [by left|right].
      eapply held_by_lock; [exact Hu1|]. specialize (Hlog (now - seconds (lp_window_seconds p))).
      assert (Hi : (i < length g)%nat \/ i = length g).
      { apply lookup_lt_Some in H1. rewrite length_app in H1. simpl in H1. lia. }
      destruct Hi as [Hi|Hi].
      * rewrite lookup_app_l in H1 by done.
        pose proof (newer_since (now - seconds (lp_window_seconds p)) g i first Hsort H1 ltac:(lia)). lia.
      * pose proof (rows_of_nonneg user (now - seconds (lp_window_seconds p)) (t_attempts t)). lia.
    + assert (i + Z.to_nat (lp_attempts p) - 1 < length g)%nat as Hlt.
      { apply lookup_lt_Some in H2. rewrite length_app in H2. simpl in H2. lia. }
      rewrite lookup_app_l in H1, H2 by lia. destruct (Hlock i first last H1 H2) as [?|Hh]; [by left|right; by apply Hheld].
Qed.

(** Any other request: the log only grows, and a held lock stays held. *)
Lemma guess_keeps p user t t1 g clock now :
  guess_invariant p user t g clock -> clock <= now -> in_force t1 p ->
  (forall x, rows_of user x (t_attempts t) <= rows_of user x (t_attempts t1)) ->
  (forall until, held_until t user clock until -> held_until t1 user now until) ->
  guess_invariant p user t1 g now.
Proof.
  intros [Hf Hpast Hsort Hlog Hlock] Hle Hf1 Hrows Hheld. split; [done| |done| |].
  - intros x Hx. specialize (Hpast x Hx). lia.
  - intros x. specialize (Hlog x). specialize (Hrows x). lia.
  - intros i first last H1 H2. destruct (Hlock i first last H1 H2) as [?|Hh]; [by left|right; by apply Hheld].
Qed.

Lemma guess_step p user t g clock r :
  guess_invariant p user t g clock -> clock <= rq_now r ->
  Z.of_nat (length (t_attempts t)) < i32_max ->
  let g' := g ++ (if is_guess t user r then [rq_now r] else []) in
  guess_invariant p user (fst (serve t r)) g' (rq_now r)
  /\ (length (t_attempts (fst (serve t r))) = S (length (t_attempts t)))
  /\ (is_guess t user r = true -> forall i first, (i + Z.to_nat (lp_attempts p))%nat = length g -> g !! i = Some first ->
      first + Z.min (seconds (lp_window_seconds p)) (minutes (lp_lockout_minutes p)) <= rq_now r).
Proof.
  intros Hg Hle Hlen g'. pose proof (gi_force _ _ _ _ _ Hg) as Hf. pose proof (in_force_range t p Hf) as (Hw & _ & _).
  unfold serve, sign_in, is_guess in *.
  destruct (check_before_password t (rq_email r) (rq_ip r) (rq_now r)) as [t0 c] eqn:Ec.
  destruct (check_leaves _ _ _ _ _ _ p Hf Ec) as (Hf0 & Hu0 & Hc). cbn [snd] in g' |- *.
  destruct c as [o|a hash l e].
  { destruct Hc as (e & u & org & k & Ha & _). subst g'. rewrite app_nil_r. cbn [fst].
    split_and!; [|by rewrite Ha, length_app; simpl; lia|done]. eapply guess_keeps; [exact Hg|done|done| |].
    - intros x. rewrite Ha, rows_of_app. pose proof (rows_of_nonneg user x [Attempt e u org (rq_ip r) k (rq_now r)]). lia.
    - intros x Hh. eapply held_by_step; [exact Hle|exact Hh|by left]. }
  destruct Hc as (Ha0 & Hin & Hunlocked & -> & _).
  destruct (after_password t0 a hash (enforced_from p) e (rq_password r) (rq_ip r) (rq_token r) (rq_now r)) as [t1 o] eqn:Eo.
  destruct (after_leaves _ _ _ _ _ _ _ _ _ _ _ p Hf0 Eo) as (Hf1 & (k & Ha1 & Hk) & Hu1). cbn [fst].
  rewrite Ha0 in Ha1. rewrite Hu0 in Hu1.
  assert (Hheld : forall until, held_until t user clock until -> held_until t1 user (rq_now r) until).
  { intros x Hh. eapply held_by_step; [exact Hle|exact Hh|]. destruct (verify_password (rq_password r) hash).
    - destruct (is_active a); [right|by left]. exists a. split_and!; [done|done|]. exists (cleared (rq_now r)). by split.
    - right. exists a. split_and!; [done|done|]. eexists. split; [|exact Hu1]. done. }
  assert (Hlen1 : length (t_attempts t1) = S (length (t_attempts t))) by (rewrite Ha1, length_app; simpl; lia).
  destruct ((a_id a =? user) && negb (verify_password (rq_password r) hash)) eqn:Eg; subst g'.
  - apply andb_true_iff in Eg as [Eu%Z.eqb_eq Ev%negb_true_iff]. rewrite Ev in Hu1. rewrite Eu in Ha1, Hu1.
    split_and!; [|done|intros _ i first; by eapply guess_spacing].
    eapply guess_extends; [exact Hg|done|done|exact Ha1|by apply Hk|exact Hu1| |done].
    rewrite failures_rows by (rewrite ?Ha0; done). by rewrite Ha0.
  - rewrite app_nil_r. split_and!; [|done|done]. eapply guess_keeps; [exact Hg|done|done| |done].
    intros x. rewrite Ha1, rows_of_app.
    pose proof (rows_of_nonneg user x [Attempt e (Some (a_id a)) (a_organization_id a) (rq_ip r) k (rq_now r)]). lia.
Qed.

Lemma guesses_bounded p user l t g clock :
  guess_invariant p user t g clock ->
  Sorted Z.le (clock :: (rq_now <$> l)) -> Z.of_nat (length (t_attempts t) + length l) < i32_max ->
  forall i first last, (g ++ guesses t user l) !! i = Some first ->
    (g ++ guesses t user l) !! (i + Z.to_nat (lp_attempts p))%nat = Some last -> (length g <= i + Z.to_nat (lp_attempts p))%nat ->
    first + Z.min (seconds (lp_window_seconds p)) (minutes (lp_lockout_minutes p)) <= last.
Proof.
  revert t g clock. induction l as [|r l IH]; intros t g clock Hg Hs Hlen i first last H1 H2 Hi; cbn [guesses] in *.
  { rewrite app_nil_r in H2. apply lookup_lt_Some in H2. lia. }
  cbn [length] in Hlen. cbn [fmap list_fmap] in Hs. apply Sorted_inv in Hs as [Hs Hr%HdRel_inv].
  destruct (guess_step p user t g clock r Hg Hr) as (Hg' & Hl' & Hq); [lia|].
  rewrite app_assoc in H1, H2.
  destruct (is_guess t user r) eqn:Eg.
  - destruct (decide_rel (=) (i + Z.to_nat (lp_attempts p))%nat (length g)) as [He|Hne].
    + rewrite <- app_assoc in H2. cbn [app] in H2. rewrite list_lookup_middle in H2 by done. injection H2 as <-.
      pose proof (in_force_range t p (gi_force _ _ _ _ _ Hg)) as (_ & ? & _).
      rewrite <- app_assoc, lookup_app_l in H1 by lia. by apply (Hq eq_refl i).
    + apply (IH _ _ _ Hg' Hs ltac:(lia) i first last H1 H2). rewrite length_app. simpl. lia.
  - apply (IH _ _ _ Hg' Hs ltac:(lia) i first last H1 H2). rewrite length_app. simpl. lia.
Qed.

(** C2. The lock bounds how fast an account's password can be guessed. Under a saved document with
    threshold [n], between a wrong password and the [n]-th wrong one after it at least the failure
    window or the length of the lock passes, whichever is shorter; whatever addresses the guesses
    come from, whatever other accounts do meanwhile, and even if the right password is entered in between.
    The sign-ins are answered one after another, in the order of their instants, and nobody unlocks the
    account or saves another document meanwhile: passwords tried at the same time are all tried
    ([overlapping_guesses_are_all_tried]). *)
Theorem guesses_are_rate_bounded (p : lockout_policy) (t : tables) (user : Z) (l : list request)
  (i : nat) (first last : Z) :
  in_force t p -> Sorted Z.le (rq_now <$> l) -> Z.of_nat (length (t_attempts t) + length l) < i32_max ->
  guesses t user l !! i = Some first -> guesses t user l !! (i + Z.to_nat (lp_attempts p))%nat = Some last ->
  first + Z.min (seconds (lp_window_seconds p)) (minutes (lp_lockout_minutes p)) <= last.
Proof.
  intros Hf Hs Hl H1 H2. destruct l as [|r l]; [done|].
  eapply (guesses_bounded p user (r :: l) t [] (rq_now r)); [|constructor; [exact Hs|constructor; lia]|done|exact H1|exact H2|simpl; lia].
  split; [done|intros x Hx; by apply elem_of_nil in Hx|constructor|intros x|done].
  unfold newer; simpl. pose proof (rows_of_nonneg user x (t_attempts t)). lia.
Qed.

(** ** Addresses *)

Lemma recent_app l l' ip w now :
  recent_failures_from_address (l ++ l') ip w now = recent_failures_from_address l ip w now + recent_failures_from_address l' ip w now.
Proof. unfold recent_failures_from_address. rewrite List.filter_app, length_app. lia. Qed.

Lemma recent_later l ip w now now' :
  now <= now' -> recent_failures_from_address l ip w now' <= recent_failures_from_address l ip w now.
Proof.
  intros H. unfold recent_failures_from_address. apply inj_le. induction l as [|a l IH]; [done|]. cbn [List.filter].
  destruct (bool_decide (at_ip a = Some ip) && counts_for_address (at_outcome a)); cbn [andb]; [|done].
  destruct (now' - minutes w <? at_created_at a) eqn:E.
  - apply Z.ltb_lt in E. rewrite (proj2 (Z.ltb_lt _ _)) by lia. simpl. lia.
  - destruct (now - minutes w <? at_created_at a); simpl; lia.
Qed.

Lemma recent_one a ip w now : recent_failures_from_address [a] ip w now <= 1.
Proof. unfold recent_failures_from_address. cbn [List.filter]. destruct (_ && _); simpl; lia. Qed.

Lemma recent_other e u org k now0 text ip w now :
  text <> Some ip \/ counts_for_address k = false ->
  recent_failures_from_address [Attempt e u org text k now0] ip w now = 0.
Proof.
  intros H. unfold recent_failures_from_address. cbn [List.filter at_ip at_outcome].
  destruct H as [H | ->]; [by rewrite bool_decide_eq_false_2 | by rewrite andb_false_r].
Qed.

Lemma serve_all_force t l p : in_force t p -> in_force (serve_all t l) p.
Proof.
  revert t. induction l as [|r l IH]; intros t Hf; [done|]. unfold serve_all. cbn [foldl]. apply IH.
  unfold serve, sign_in. destruct (check_before_password t (rq_email r) (rq_ip r) (rq_now r)) as [t1 c] eqn:Ec.
  destruct (check_leaves _ _ _ _ _ _ p Hf Ec) as (Hf1 & _). destruct c as [o|a hash lk e]; [done|].
  destruct (after_password t1 a hash lk e (rq_password r) (rq_ip r) (rq_token r) (rq_now r)) as [t2 o] eqn:Eo.
  by destruct (after_leaves _ _ _ _ _ _ _ _ _ _ _ p Hf1 Eo) as (? & _).
Qed.

(** An address cannot spray: under a saved document with threshold [n], the log never holds
    more than three times [n] failures from one address within the length of a lock, whichever
    accounts they name, existing or not. The attempts beyond are refused before any password. *)
Theorem address_failures_are_bounded (p : lockout_policy) (t : tables) (l : list request) (ip : str) (clock : Z) :
  in_force t p -> Sorted Z.le ((rq_now <$> l) ++ [clock]) ->
  (forall start, recent_failures_from_address (t_attempts t) ip (lp_lockout_minutes p) start <= lp_attempts p * 3) ->
  recent_failures_from_address (t_attempts (serve_all t l)) ip (lp_lockout_minutes p) clock <= lp_attempts p * 3.
Proof.
  intros Hf. revert clock. induction l as [|r l IH] using rev_ind; intros clock Hs H0; [by apply H0|].
  rewrite fmap_app in Hs. cbn [fmap list_fmap] in Hs. apply Sorted_StronglySorted in Hs; [|intros x y z; lia].
  apply StronglySorted_app in Hs as (Hrc & Hs & _).
  assert (Hr : rq_now r <= clock).
  { apply (Hrc (rq_now r) clock); [apply elem_of_app; right|]; apply list_elem_of_here. }
  specialize (IH (rq_now r) ltac:(by apply StronglySorted_Sorted) H0).
  unfold serve_all in *. rewrite foldl_app. cbn [foldl]. fold (serve_all t l) in *.
  pose proof (serve_all_force t l p Hf) as Hf1. set (t1 := serve_all t l) in *. clearbody t1.
  etransitivity; [by apply recent_later|].
  unfold serve, sign_in. destruct (check_before_password t1 (rq_email r) (rq_ip r) (rq_now r)) as [t2 c] eqn:Ec.
  destruct (check_leaves _ _ _ _ _ _ p Hf1 Ec) as (Hf2 & _ & Hc).
  assert (Hrow : forall e u org k, (counts_for_address k = true -> forall text, rq_ip r = Some text ->
     recent_failures_from_address (t_attempts t1) text (lp_lockout_minutes p) (rq_now r) < lp_attempts p * 3) ->
     recent_failures_from_address (t_attempts t1 ++ [Attempt e u org (rq_ip r) k (rq_now r)]) ip (lp_lockout_minutes p) (rq_now r) <= lp_attempts p * 3).
  { intros e u org k Hk. rewrite recent_app. pose proof (recent_one (Attempt e u org (rq_ip r) k (rq_now r)) ip (lp_lockout_minutes p) (rq_now r)).
    destruct (counts_for_address k) eqn:Ek; [|rewrite recent_other by auto; lia].
    destruct (decide_rel (=) (rq_ip r) (Some ip)) as [E|E]; [|rewrite recent_other by auto; lia].
    specialize (Hk eq_refl ip E). lia. }
  destruct c as [o|a hash lk e].
  - destruct Hc as (e & u & org & k & Ha & _ & Hk). cbn [fst]. rewrite Ha. by apply Hrow.
  - destruct Hc as (Ha & _ & _ & _ & Hk).
    destruct (after_password t2 a hash lk e (rq_password r) (rq_ip r) (rq_token r) (rq_now r)) as [t3 o] eqn:Eo.
    destruct (after_leaves _ _ _ _ _ _ _ _ _ _ _ p Hf2 Eo) as (_ & (k & Ha3 & _) & _). cbn [fst]. rewrite Ha3, Ha.
    apply Hrow. auto.
Qed.

(** ** The lock and the password *)

(** A locked account is not signed in, and its password is not looked at: whatever the
    password, the answer is the same, it is a refusal, and the accounts stay as they are. *)
Theorem locked_account_is_not_signed_in (t : tables) (email e : str) (a : account) (hash pw pw' : str)
  (ip : option str) (token : str) (now until : Z) (p : lockout_policy) :
  in_force t p -> normalize_email email = Ok e -> find_account t e = Some (a, hash) ->
  a_locked_until a = Some until -> now < until ->
  sign_in t email pw ip token now = sign_in t email pw' ip token now
  /\ t_users (fst (sign_in t email pw ip token now)) = t_users t
  /\ (snd (sign_in t email pw ip token now)
       = AccountLocked until false (a_id a) (a_organization_id a) (lp_attempts p)
      \/ exists reason rule, snd (sign_in t email pw ip token now) = IpBlocked reason rule).
Proof.
  intros Hf He Hfind Hu Hlt.
  assert (Hc : exists o, snd (check_before_password t email ip now) = Answered o
    /\ (o = AccountLocked until false (a_id a) (a_organization_id a) (lp_attempts p) \/ exists reason rule, o = IpBlocked reason rule)).
  { unfold check_before_password. rewrite He. cbn [mbind option_bind]. rewrite Hfind. cbn [mbind option_bind].
    destruct (policy_for t (a_organization_id a) now) as [t0 policy] eqn:Ep.
    assert (Hf0 : in_force t0 p).
    { unfold policy_for in Ep. destruct (policy_for_account _ _ _ _) as [[? ?]|]; by simplify_eq. }
    rewrite (in_force_resolves t0 p) by done.
    destruct (match policy with Some _ => _ | None => _ end); [|eexists; split; [reflexivity|right; by eexists _, _]].
    destruct (match ip with Some _ => _ | None => _ end); [eexists; split; [reflexivity|right; by eexists _, _]|].
    rewrite Hu, (proj2 (Z.ltb_lt now until)) by done. eexists. split; [reflexivity|by left]. }
  destruct Hc as (o & Ho & Hcase). unfold sign_in.
  destruct (check_before_password t email ip now) as [t1 c] eqn:Ec. cbn [snd] in Ho. subst c.
  destruct (check_leaves _ _ _ _ _ _ p Hf Ec) as (_ & Hus & _). cbn [fst snd]. split_and!; [done|done|].
  destruct Hcase as [-> | (reason & rule & ->)]; [by left|right; by eexists _, _].
Qed.

Lemma wrong_count (t : tables) (a : account) (hash e pw : str) (ip : option str) (token : str) (now : Z) (p : lockout_policy) :
  in_force t p -> find_by_id (a_id a) t = Some a -> is_locked now a = false ->
  Z.of_nat (length (t_attempts t)) < i32_max -> verify_password pw hash = false ->
  let n := rows_of (a_id a) (now - seconds (lp_window_seconds p)) (t_attempts t) + 1 in
  snd (after_password t a hash (enforced_from p) e pw ip token now)
  = (if lp_attempts p <=? n
     then AccountLocked (now + minutes (lp_lockout_minutes p)) true (a_id a) (a_organization_id a) (lp_attempts p)
     else InvalidCredentials)
  /\ (exists b, find_by_id (a_id a) (fst (after_password t a hash (enforced_from p) e pw ip token now)) = Some b
      /\ a_failed_sign_in_count b = n /\ is_locked now b = (lp_attempts p <=? n)).
Proof.
  intros Hf Hfind Hun Hlen Hv n. pose proof (in_force_range t p Hf) as (Hw & _ & Hm).
  pose proof (failures_rows t p (a_id a) now Hw Hlen) as Hn. fold n in Hn.
  unfold after_password. rewrite Hv. cbn [negb]. unfold register_failure. fold (failures_with_this t (a_id a) (enforced_from p) now).
  rewrite Hn. set (t1 := with_users (update_account (a_id a) (set_failures n (enforced_from p) now)) t).
  assert (Hf1 : find_by_id (a_id a) t1 = Some (set_failures n (enforced_from p) now a)).
  { unfold find_by_id, t1, update_account in *. cbn [with_users t_users]. clear -Hfind. induction (t_users t) as [|x l IH]; [done|].
    cbn [fmap list_fmap List.find] in *. destruct (a_id x =? a_id a) eqn:E.
    - injection Hfind as ->. cbn [set_failures a_id]. by rewrite E.
    - rewrite E. by apply IH. }
  rewrite Hf1. cbn [mbind option_bind set_failures a_locked_until el_attempts el_lockout_minutes enforced_from].
  assert (Hpos : 0 < minutes (lp_lockout_minutes p)) by (unfold minutes; lia).
  destruct (lp_attempts p <=? n) eqn:El.
  - rewrite (proj2 (Z.ltb_lt now _)) by lia. split; [done|]. eexists. split; [exact Hf1|]. split; [done|].
    unfold is_locked. cbn [set_failures a_locked_until el_attempts el_lockout_minutes enforced_from]. rewrite El.
    by apply Z.ltb_lt; lia.
  - unfold is_locked in Hun. destruct (a_locked_until a) as [u|] eqn:Eu; [rewrite Hun|]; (split; [done|]);
      eexists; (split; [exact Hf1|]); (split; [done|]); unfold is_locked;
      cbn [set_failures a_locked_until el_attempts el_lockout_minutes enforced_from]; by rewrite El, Eu.
Qed.

(** What a wrong password does: the account's count becomes the number of its failures in the
    window with this one, and exactly when that reaches the threshold the account is locked for
    the configured time and the answer says that this attempt locked it. *)
Theorem wrong_password_counts_and_locks (t : tables) (a : account) (hash e pw : str) (ip : option str) (token : str)
  (now : Z) (p : lockout_policy) :
  in_force t p -> find_by_id (a_id a) t = Some a -> is_locked now a = false ->
  Z.of_nat (length (t_attempts t)) < i32_max -> verify_password pw hash = false ->
  let n := rows_of (a_id a) (now - seconds (lp_window_seconds p)) (t_attempts t) + 1 in
  let '(t', o) := after_password t a hash (enforced_from p) e pw ip token now in
  o = (if lp_attempts p <=? n
       then AccountLocked (now + minutes (lp_lockout_minutes p)) true (a_id a) (a_organization_id a) (lp_attempts p)
       else InvalidCredentials)
  /\ (exists b, find_by_id (a_id a) t' = Some b /\ a_failed_sign_in_count b = n /\ is_locked now b = (lp_attempts p <=? n)).
Proof.
  intros Hf Hfind Hun Hlen Hv n.
  pose proof (wrong_count t a hash e pw ip token now p Hf Hfind Hun Hlen Hv) as H.
  by destruct (after_password t a hash (enforced_from p) e pw ip token now).
Qed.

(** A gap: passwords tried at the same time are all tried. The lock is read before the password
    is verified and not again afterwards, so a request whose checks have passed is answered by its
    password alone, whatever was recorded meanwhile: however many wrong passwords have finished
    in between, the right one signs in, and it lifts the lock they caused. *)
Theorem overlapping_guesses_are_all_tried (t : tables) (a : account) (hash e pw : str) (ip : option str) (token : str)
  (now : Z) (lockout : enforced_lockout) (wrong : list (str * str)) :
  Forall (fun w => verify_password (fst w) hash = false) wrong ->
  verify_password pw hash = true -> is_active a = true ->
  let t1 := foldl (fun t w => fst (after_password t a hash lockout e (fst w) ip (snd w) now)) t wrong in
  exists challenge, snd (after_password t1 a hash lockout e pw ip token now) = Authenticated a challenge
    /\ forall b, b ∈ t_users (fst (after_password t1 a hash lockout e pw ip token now)) -> a_id b = a_id a -> a_locked_until b = None.
Proof.
  intros _ Hv Ha t1. unfold after_password. rewrite Hv, Ha. cbn [negb].
  assert (Hb : forall b, b ∈ update_account (a_id a) (cleared now) (t_users t1) -> a_id b = a_id a -> a_locked_until b = None).
  { intros b (c & _ & ->)%elem_of_update. by destruct (Z.eqb_spec (a_id c) (a_id a)). }
  destruct (has_confirmed_factor _ _); eexists; (split; [reflexivity|]); cbn [fst record_attempt with_challenges t_users]; exact Hb.
Qed.

(** A gap: signing in does not start the count again. The failures that count are those of the
    log, and the log keeps them: an account one failure short of its threshold that then signs in
    is locked by the next wrong password inside the window, although its counter was set to zero
    and the document asks for a reset on success. *)
Theorem success_does_not_reset_the_count (t : tables) (a : account) (hash e good bad : str) (ip : option str) (token token' : str)
  (now now' : Z) (p : lockout_policy) :
  in_force t p -> lp_reset_on_success p = true -> find_by_id (a_id a) t = Some a ->
  Z.of_nat (length (t_attempts t)) + 1 < i32_max ->
  verify_password good hash = true -> verify_password bad hash = false -> is_active a = true ->
  rows_of (a_id a) (now' - seconds (lp_window_seconds p)) (t_attempts t) = lp_attempts p - 1 ->
  let t1 := fst (after_password t a hash (enforced_from p) e good ip token now) in
  (exists b, find_by_id (a_id a) t1 = Some b /\ a_failed_sign_in_count b = 0 /\ a_locked_until b = None)
  /\ snd (after_password t1 (cleared now a) hash (enforced_from p) e bad ip token' now')
     = AccountLocked (now' + minutes (lp_lockout_minutes p)) true (a_id a) (a_organization_id a) (lp_attempts p).
Proof.
  intros Hf _ Hfind Hlen Hg Hb Ha Hrows t1.
  destruct (after_password t a hash (enforced_from p) e good ip token now) as [t1' o] eqn:Eo. subst t1. cbn [fst].
  destruct (after_leaves _ _ _ _ _ _ _ _ _ _ _ p Hf Eo) as (Hf1 & (k & Hk & _) & Hu). rewrite Hg, Ha in Hu.
  assert (Hfind1 : find_by_id (a_id a) t1' = Some (cleared now a)).
  { unfold find_by_id in *. rewrite Hu. clear -Hfind. induction (t_users t) as [|x l IH]; [done|].
    unfold update_account in *. cbn [fmap list_fmap List.find] in *. destruct (a_id x =? a_id a) eqn:E.
    - injection Hfind as ->. cbn [cleared a_id]. by rewrite E.
    - rewrite E. by apply IH. }
  split; [by exists (cleared now a)|].
  assert (Hkc : rows_of (a_id a) (now' - seconds (lp_window_seconds p)) (t_attempts t1') = lp_attempts p - 1).
  { rewrite Hk, rows_of_app, Hrows. unfold after_password in Eo. rewrite Hg, Ha in Eo. cbn [negb] in Eo.
    assert (k = MfaRequired \/ k = Success) as Hks.
    { destruct (has_confirmed_factor _ _) in Eo; injection Eo as <- _; cbn in Hk; apply app_inv_head in Hk; injection Hk as <-; auto. }
    unfold rows_of. cbn [List.filter at_outcome]. destruct Hks as [-> | ->]; cbn [counts_for_account]; rewrite andb_false_r; cbn; lia. }
  pose proof (wrong_count t1' (cleared now a) hash e bad ip token' now' p Hf1 Hfind1) as Hw.
  cbn [a_id cleared a_organization_id] in Hw. rewrite Hkc in Hw.
  destruct Hw as [-> _]; [done|rewrite Hk, length_app; simpl; lia|done|]. by rewrite (proj2 (Z.leb_le _ _)) by lia.
Qed.

(** A gap: the probe of the security screen and the sign-in can use different thresholds. Until a
    document is saved, the probe evaluates the built-in policy, while the sign-in falls back to
    the columns of the organization's own policy. *)
Theorem probe_disagrees_with_sign_in (stored : value) (policies : list security_policy) (organization : Z) (row : security_policy) (failures : Z) :
  is_empty_object stored = true -> get_policy policies organization = Some row ->
  5 <= failures < sp_lockout_attempts row ->
  exists p st, parse_lockout stored = Ok p /\ evaluate_lockout p failures = Ok st /\ ls_would_lock st = true
    /\ el_attempts (resolve_lockout stored policies (Some organization)) = sp_lockout_attempts row
    /\ failures < el_attempts (resolve_lockout stored policies (Some organization)).
Proof.
  intros He Hg Hn. exists lockout_default. eexists. unfold resolve_lockout, parse_lockout. rewrite He, orb_true_r. cbn [negb].
  split_and!; [done|reflexivity| |by rewrite Hg|rewrite Hg; apply Hn].
  change ((5 <=? Z.max failures 0) = true). apply Z.leb_le. lia.
Qed.

(** ** Challenges *)

(** What may happen to the challenges: a sign-in or a step-up makes one, a completion tries one. *)
Inductive challenge_step := Created (user : Z) (purpose token : str) | Tried (token purpose : str).
Definition run_challenge (cs : list challenge) (s : Z * challenge_step) : list challenge :=
  match s with
  | (now, Created u purpose token) => create_challenge u purpose token now cs
  | (now, Tried token purpose) => fst (consume_challenge token purpose now cs)
  end.
Definition creates (token : str) (s : Z * challenge_step) : bool :=
  match snd s with Created _ _ t => str_eqb (hash_token t) (hash_token token) | Tried _ _ => false end.

(** No challenge with this token can be used from [now] on. *)
Definition spent (token purpose : str) (now : Z) (cs : list challenge) : Prop :=
  forall c, c ∈ cs -> ch_token_hash c = hash_token token -> ch_purpose c = purpose ->
    is_open c = false \/ ch_expires_at c <= now.

Lemma spent_unusable token purpose now now' cs : spent token purpose now cs -> now <= now' ->
  List.find (usable (hash_token token) purpose now') cs = None.
Proof.
  intros Hs Hle. destruct (List.find _ cs) as [c|] eqn:E; [|done]. apply find_some in E as [Hc E].
  unfold usable in E. rewrite !andb_true_iff in E. destruct E as (((E1%str_eqb_eq & E2%str_eqb_eq) & E3) & E4%Z.ltb_lt).
  destruct (Hs c) as [H|H]; [by apply list_elem_of_In|done|done|congruence|lia].
Qed.

Lemma consumed_spends token purpose now cs : spent token purpose now (fst (consume_challenge token purpose now cs)).
Proof.
  intros c (d & -> & Hd)%list_elem_of_fmap. destruct (usable (hash_token token) purpose now d) eqn:E; cbn; intros H1 H2; [by left|].
  unfold usable in E. rewrite (proj2 (str_eqb_eq _ _) H1), (proj2 (str_eqb_eq _ _) H2) in E. cbn [andb] in E.
  destruct (is_open d); [right|by left]. cbn [andb] in E. by apply Z.ltb_ge in E.
Qed.

Lemma spent_step token purpose now now' cs s :
  spent token purpose now cs -> now <= now' -> creates token (now', s) = false -> spent token purpose now' (run_challenge cs (now', s)).
Proof.
  intros Hs Hle Hc.
  assert (Hmap : forall f c, (forall d, f d = d \/ f d = consumed now' d) -> c ∈ f <$> cs ->
    ch_token_hash c = hash_token token -> ch_purpose c = purpose -> is_open c = false \/ ch_expires_at c <= now').
  { intros f c Hf (d & -> & Hd)%list_elem_of_fmap H1 H2. destruct (Hf d) as [E|E]; rewrite E in *; [|by left].
    destruct (Hs d Hd H1 H2) as [?|?]; [by left|right; lia]. }
  destruct s as [u q tok|tok q]; cbn [run_challenge].
  - unfold create_challenge. intros c [Hin|Hin]%elem_of_app.
    + eapply Hmap; [|exact Hin]. intros d. cbv beta. destruct (_ && _); auto.
    + apply list_elem_of_singleton in Hin as ->. cbn. intros H1 _. unfold creates in Hc. cbn in Hc.
      rewrite H1, str_eqb_refl in Hc. done.
  - intros c Hin. eapply Hmap; [|exact Hin]. intros d. cbv beta. destruct (usable _ _ _ d); auto.
Qed.

(** A challenge finishes at most one sign-in and survives one try: once a token has been tried,
    with the right code or a wrong one, and unless a new challenge is made with the same token, no
    later try of it gets as far as the code, whatever else is created, tried or expires. *)
Theorem challenge_is_tried_once (t : tables) (token code code' : str) (ip ip' : option str) (now last : Z)
  (steps : list (Z * challenge_step)) :
  Sorted Z.le (now :: (fst <$> steps) ++ [last]) -> forallb (fun s => negb (creates token s)) steps = true ->
  let t1 := fst (complete_mfa_login t token code ip now) in
  let t2 := with_challenges (foldl run_challenge (t_challenges t1) steps) t1 in
  snd (complete_mfa_login t2 token code' ip' last) = Ok None.
Proof.
  intros Hs Hc t1 t2.
  assert (H1 : spent token PURPOSE_LOGIN now (t_challenges t1)).
  { subst t1. unfold complete_mfa_login. pose proof (consumed_spends token PURPOSE_LOGIN now (t_challenges t)) as H.
    destruct (consume_challenge token PURPOSE_LOGIN now (t_challenges t)) as [cs u]. cbn [fst] in H.
    destruct (u ≫= _) as [a|]; [|done]. cbn [t_factors with_challenges].
    destruct (verify_code _ _ _ _) as [f [v|]]; done. }
  assert (H2 : forall cs, spent token PURPOSE_LOGIN now cs ->
    spent token PURPOSE_LOGIN last (foldl run_challenge cs steps)).
  { clear t1 t2 H1. apply Sorted_StronglySorted in Hs; [|intros x y z; lia].
    revert now Hs Hc. induction steps as [|[n s] steps IH]; intros now Hs Hc cs Hsp.
    - cbn in Hs. apply StronglySorted_inv in Hs as [_ Hl]. rewrite Forall_forall in Hl.
      specialize (Hl last (list_elem_of_here _ _)). intros c H1 H2 H3. destruct (Hsp c H1 H2 H3); [by left|right; lia].
    - cbn [fmap list_fmap app fst forallb] in *. apply andb_true_iff in Hc as [Hc1%negb_true_iff Hc2].
      apply StronglySorted_inv in Hs as [Hs Hl]. rewrite Forall_forall in Hl. cbn [foldl].
      apply (IH n); [done|done|]. apply (spent_step _ _ now); [done| |done]. apply Hl, list_elem_of_here. }
  unfold complete_mfa_login, consume_challenge. cbn [t2 with_challenges t_challenges].
  rewrite (spent_unusable _ _ _ last _ (H2 _ H1)) by lia. done.
Qed.
End SignIn.

(** ** Delays *)

(** The delay the screen announces is the doubling ladder, capped: nothing without a failure,
    then the base, twice the base, and so on, never more than a minute, and the machine arithmetic that computes it
    is exact for every count a 64-bit integer holds. *)
Theorem delay_ladder (p q : lockout_policy) (failures : Z) :
  validated p = Ok q -> lp_progressive_delay p = true -> - 2 ^ 63 <= failures <= i64_max ->
  delay_for p failures = (if failures <? 1 then 0 else Z.min 60 (lp_base_delay_seconds p * 2 ^ (failures - 1)))
  /\ 0 <= delay_for p failures <= delay_for p (failures + 1) /\ delay_for p failures <= 60
  /\ lp_base_delay_seconds p * 2 ^ Z.min (as_u32 (Z.min (failures - 1) MAX_DELAY_SECONDS)) 31 <= i64_max.
Proof.
  intros Hv Hp Hf. pose proof (validated_spec p q Hv) as (_ & _ & _ & _ & Hb).
  assert (Hd : forall n, delay_for p n = if n <? 1 then 0 else Z.min 60 (lp_base_delay_seconds p * 2 ^ (n - 1))).
  { intros n. unfold delay_for. rewrite Hp. cbn [negb orb]. destruct (Z.ltb_spec n 1) as [|Hn]; [done|].
    unfold MAX_DELAY_SECONDS, as_u32. rewrite Z.mod_small by lia.
    destruct (Z.le_gt_cases (n - 1) 31) as [Hle|Hgt]; [rewrite (Z.min_l (n - 1) 60), (Z.min_l (n - 1) 31) by lia; lia|].
    rewrite (Z.min_r _ 31) by lia.
    pose proof (Z.pow_le_mono_r 2 31 (n - 1)). nia. }
  rewrite !Hd. split; [done|]. split; [|split].
  - pose proof (Z.pow_nonneg 2 (failures - 1)). pose proof (Z.pow_nonneg 2 (failures + 1 - 1)).
    pose proof (Z.pow_le_mono_r 2 (failures - 1) (failures + 1 - 1)).
    destruct (Z.ltb_spec failures 1), (Z.ltb_spec (failures + 1) 1); nia.
  - destruct (failures <? 1); lia.
  - pose proof (Z.pow_le_mono_r 2 (Z.min (as_u32 (Z.min (failures - 1) MAX_DELAY_SECONDS)) 31) 31). unfold i64_max. nia.
Qed.

(** ** Concrete sign-ins *)

Definition no_factor : SecondFactor :=
  {| factors := unit; has_confirmed_factor := fun _ _ => false; verify_code := fun f _ _ _ => (f, None) |}.
Definition any_code : SecondFactor :=
  {| factors := unit; has_confirmed_factor := fun _ _ => true; verify_code := fun f _ _ _ => (f, Some RecoveryMatched) |}.

Definition saved_policy : lockout_policy := LockoutPolicy 120 3 1 true 2 true.
Definition ada : account := Account 7 None s!"ada@x.y" s!"active" (Some s!"right") None 0 None.
Definition start (F : SecondFactor) (f : @factors F) (log : list attempt) : @tables Z_number F :=
  @Tables Z_number F [ada] log [] [] (lockout_to_value saved_policy) f.
Definition office_ip : option str := Some s!"10.0.0.1".
Definition failure_at (n : Z) : attempt := Attempt s!"ada@x.y" (Some 7) None office_ip Failed (seconds n).

Lemma start_in_force F f log : in_force (J := Z_number) (F := F) (start F f log) saved_policy.
Proof. split; reflexivity. Qed.

Definition guess_at (n : Z) : request := Request s!"ada@x.y" s!"wrong" office_ip s!"t" (seconds n).

Lemma guesses_are_rate_bounded_witness :
  exists first last,
    guesses to_ascii_lowercase (fun pw h => str_eqb pw h) (fun t => t) (start no_factor tt []) 7
      (guess_at <$> [100; 110; 120; 130; 190]) !! 0%nat = Some first
    /\ guesses to_ascii_lowercase (fun pw h => str_eqb pw h) (fun t => t) (start no_factor tt []) 7
      (guess_at <$> [100; 110; 120; 130; 190]) !! 3%nat = Some last
    /\ first + seconds 60 <= last.
Proof.
  exists (seconds 100), (seconds 190). split; [reflexivity|]. split; [reflexivity|].
  apply (guesses_are_rate_bounded to_ascii_lowercase (fun pw h => str_eqb pw h) (fun t => t) saved_policy
           (start no_factor tt []) 7 (guess_at <$> [100; 110; 120; 130; 190]) 0).
  - apply start_in_force.
  - vm_compute. repeat constructor; discriminate.
  - vm_compute. reflexivity.
  - reflexivity.
  - reflexivity.
Defined.

Lemma address_failures_are_bounded_witness :
  recent_failures_from_address
    (t_attempts (serve_all to_ascii_lowercase (fun pw h => str_eqb pw h) (fun t => t) (start no_factor tt []) (guess_at <$> [100; 110; 120])))
    s!"10.0.0.1" 1 (seconds 125) <= 9.
Proof.
  apply (address_failures_are_bounded to_ascii_lowercase (fun pw h => str_eqb pw h) (fun t => t) saved_policy
           (start no_factor tt []) (guess_at <$> [100; 110; 120])).
  - apply start_in_force.
  - vm_compute. repeat constructor; discriminate.
  - intros start. unfold recent_failures_from_address. simpl. discriminate.
Defined.

Definition locked_ada : account := Account 7 None s!"ada@x.y" s!"active" (Some s!"right") (Some 500) 3 None.

Lemma locked_account_is_not_signed_in_witness :
  let t := @Tables Z_number no_factor [locked_ada] [] [] [] (lockout_to_value saved_policy) tt in
  t_users (fst (sign_in to_ascii_lowercase (fun pw h => str_eqb pw h) (fun t => t) t s!"ada@x.y" s!"right" office_ip s!"t" 400)) = [locked_ada].
Proof.
  intros t.
  apply (locked_account_is_not_signed_in to_ascii_lowercase (fun pw h => str_eqb pw h) (fun t => t) t s!"ada@x.y" s!"ada@x.y"
           locked_ada s!"right" s!"right" s!"wrong" office_ip s!"t" 400 500 saved_policy); [split; reflexivity|reflexivity..].
Defined.

Lemma wrong_password_counts_and_locks_witness :
  snd (after_password (fun pw h => str_eqb pw h) (fun t => t) (start no_factor tt [failure_at 10; failure_at 20]) ada s!"right"
         (enforced_from saved_policy) s!"ada@x.y" s!"wrong" office_ip s!"t" (seconds 30))
  = AccountLocked (seconds 30 + minutes 1) true 7 None 3.
Proof.
  pose proof (wrong_password_counts_and_locks (fun pw h => str_eqb pw h) (fun t => t) (start no_factor tt [failure_at 10; failure_at 20])
    ada s!"right" s!"ada@x.y" s!"wrong" office_ip s!"t" (seconds 30) saved_policy) as H.
  specialize (H (start_in_force _ _ _) eq_refl eq_refl ltac:(vm_compute; reflexivity) eq_refl). cbv zeta in H.
  destruct (after_password _ _ _ _ _ _ _ _ _ _ _) as [t' o]. destruct H as [-> _]. reflexivity.
Defined.

Lemma overlapping_guesses_are_all_tried_witness :
  exists challenge, snd (after_password (fun pw h => str_eqb pw h) (fun t => t)
    (foldl (fun t w => fst (after_password (fun pw h => str_eqb pw h) (fun t => t) t ada s!"right" (enforced_from saved_policy) s!"ada@x.y" (fst w) office_ip (snd w) 50))
       (start no_factor tt []) (replicate 5 (s!"wrong", s!"t")))
    ada s!"right" (enforced_from saved_policy) s!"ada@x.y" s!"right" office_ip s!"t" 50) = Authenticated ada challenge.
Proof.
  destruct (overlapping_guesses_are_all_tried (fun pw h => str_eqb pw h) (fun t => t) (start no_factor tt []) ada s!"right" s!"ada@x.y"
    s!"right" office_ip s!"t" 50 (enforced_from saved_policy) (replicate 5 (s!"wrong", s!"t"))) as (c & Hc & _);
    [repeat constructor|reflexivity|reflexivity|by exists c].
Defined.

Lemma success_does_not_reset_the_count_witness :
  let t1 := fst (after_password (fun pw h => str_eqb pw h) (fun t => t) (start no_factor tt [failure_at 10; failure_at 20]) ada s!"right"
     (enforced_from saved_policy) s!"ada@x.y" s!"right" office_ip s!"t" (seconds 30)) in
  snd (after_password (fun pw h => str_eqb pw h) (fun t => t) t1 (cleared (seconds 30) ada) s!"right" (enforced_from saved_policy) s!"ada@x.y" s!"wrong"
     office_ip s!"t" (seconds 40)) = AccountLocked (seconds 40 + minutes 1) true 7 None 3.
Proof.
  apply (success_does_not_reset_the_count (fun pw h => str_eqb pw h) (fun t => t) (start no_factor tt [failure_at 10; failure_at 20]) ada
    s!"right" s!"ada@x.y" s!"right" s!"wrong" office_ip s!"t" s!"t" (seconds 30) (seconds 40) saved_policy);
    [apply start_in_force|reflexivity|reflexivity|vm_compute; reflexivity|reflexivity|reflexivity|reflexivity|reflexivity].
Defined.

Lemma probe_disagrees_with_sign_in_witness :
  7 < el_attempts (resolve_lockout (J := Z_number) (VObject []) [default_row 3 0] (Some 3)).
Proof.
  destruct (probe_disagrees_with_sign_in (J := Z_number) (VObject []) [default_row 3 0] 3 (default_row 3 0) 7) as (p & st & _ & _ & _ & _ & H);
    [reflexivity|reflexivity|vm_compute; split; [discriminate|reflexivity]|exact H].
Defined.

Lemma challenge_is_tried_once_witness :
  let t := with_challenges (create_challenge (fun t => t) 7 PURPOSE_LOGIN s!"t" 0 []) (start any_code tt []) in
  let t1 := fst (complete_mfa_login (fun t => t) t s!"t" s!"123456" office_ip 10) in
  snd (complete_mfa_login (fun t => t) t s!"t" s!"123456" office_ip 10) = Ok (Some (ada, RecoveryMatched))
  /\ snd (complete_mfa_login (fun t => t)
       (with_challenges (foldl (run_challenge (fun t => t)) (t_challenges t1) [(20, Created 7 PURPOSE_LOGIN s!"u")]) t1) s!"t" s!"123456" office_ip 30) = Ok None.
Proof.
  intros t t1. split; [reflexivity|].
  apply (challenge_is_tried_once (fun t => t) t s!"t" s!"123456" s!"123456" office_ip office_ip 10 30 [(20, Created 7 PURPOSE_LOGIN s!"u")]).
  - vm_compute. repeat constructor; discriminate.
  - vm_compute. reflexivity.
Defined.

Lemma delay_ladder_witness : delay_for lockout_default 10000 = 60 /\ delay_for lockout_default 3 = 8.
Proof.
  split.
  - destruct (delay_ladder lockout_default lockout_default 10000) as (-> & _); [reflexivity|reflexivity|vm_compute; split; discriminate|].
    vm_compute. reflexivity.
  - destruct (delay_ladder lockout_default lockout_default 3) as (-> & _); [reflexivity|reflexivity|vm_compute; split; discriminate|reflexivity].
Defined.
