(* ===== verification/Totp.v ===== *)
(** * One-time passwords and secret envelopes: [crates/identity/src/totp.rs], [secrets.rs]

    The codes an authenticator shows and how they are verified, the Base32 text a secret is typed
    from, the enrolment URI, and the encrypted envelope a secret is stored in. A byte is a [Z]
    below 256. The hash functions of the sha1, sha2 and hmac crates and the hex crate are
    arguments. *)

From S2P Require Import Prelude RateLimit.

Definition byte_ok (b : Z) : bool := (0 <=? b) && (b <? 256).

(** [to_be_bytes] of a word of [n] bytes. *)
Definition be_bytes (n : nat) (w : Z) : list Z :=
  (fun i => Z.land (Z.shiftr w (8 * (Z.of_nat n - 1 - Z.of_nat i))) 255) <$> seq 0 n.

(** ** Codes *)

Definition SECRET_BYTES : nat := 20.
Definition DIGITS : Z := 6.
Definition STEP_SECONDS : Z := 30.
Definition DEFAULT_WINDOW : Z := 1.

Section Codes.
(** HMAC-SHA1: a key and a message. *)
Context (hmac_sha1 : list Z -> list Z -> list Z).

Definition byte_at (l : list Z) (i : Z) : Z := nth (Z.to_nat i) l 0.

Definition hotp (secret : list Z) (counter : Z) : Z :=
  let digest := hmac_sha1 secret (be_bytes 8 counter) in
  let offset := Z.land (byte_at digest 19) 15 in
  let binary :=
    Z.lor (Z.lor (Z.lor (Z.shiftl (Z.land (byte_at digest offset) 127) 24)
      (Z.shiftl (byte_at digest (offset + 1)) 16)) (Z.shiftl (byte_at digest (offset + 2)) 8))
      (byte_at digest (offset + 3)) in
  binary mod 10 ^ DIGITS.

Definition counter_for (unix_seconds : Z) : Z := Z.max unix_seconds 0 / STEP_SECONDS.

Definition totp (secret : list Z) (unix_seconds : Z) : Z := hotp secret (counter_for unix_seconds).

Definition checked_sub_u64 (a b : Z) : option Z := if a - b <? 0 then None else Some (a - b).
Definition checked_add_u64 (a b : Z) : option Z := if 2 ^ 64 <=? a + b then None else Some (a + b).

(** [code.trim().parse::<u32>()] *)
Definition read_code (code : str) : option Z := Z.of_N <$> parse_unsigned u32_max (trim code).

(** The steps a window compares, in order: each offset below, then above. *)
Definition steps_of (counter window : Z) : list Z :=
  mjoin ((fun i => let offset := Z.of_nat i in
                   omap id [checked_sub_u64 counter offset; checked_add_u64 counter offset])
         <$> seq 0 (Z.to_nat (window + 1))).

Definition verify (secret : list Z) (code : str) (unix_seconds window : Z) : bool :=
  match read_code code with
  | None => false
  | Some candidate => existsb (fun step => hotp secret step =? candidate) (steps_of (counter_for unix_seconds) window)
  end.

(** [{value:06}] *)
Definition format_code (value : Z) : str :=
  let s := show_Z value in replicate (Z.to_nat DIGITS - length s) c!"0" ++ s.
End Codes.

(** ** Base32 *)

Definition BASE32_ALPHABET : str := s!"ABCDEFGHIJKLMNOPQRSTUVWXYZ234567".
Definition base32_char (v : Z) : char := nth (Z.to_nat v) BASE32_ALPHABET 0%N.

(** [bytes.chunks(n)] *)
Fixpoint chunks_go (n fuel : nat) (l : list Z) : list (list Z) :=
  match fuel, l with
  | S fuel, _ :: _ => take n l :: chunks_go n fuel (drop n l)
  | _, _ => []
  end.
Definition chunks (n : nat) (l : list Z) : list (list Z) := chunks_go n (length l) l.

Definition base32_chunk (chunk : list Z) : str :=
  let bits := foldl (fun bits byte => Z.lor (Z.shiftl bits 8) byte) 0 chunk in
  let bits := Z.shiftl bits (40 - Z.of_nat (length chunk) * 8) in
  let characters := match length chunk with 1%nat => 2%nat | 2%nat => 4%nat | 3%nat => 5%nat | 4%nat => 7%nat | _ => 8%nat end in
  (fun index => base32_char (Z.land (Z.shiftr bits (35 - Z.of_nat index * 5)) 31)) <$> seq 0 characters.

Definition base32_encode (bytes : list Z) : str := mjoin (base32_chunk <$> chunks 5 bytes).

Fixpoint position_of (c : char) (l : str) (i : Z) : option Z :=
  match l with
  | [] => None
  | x :: l => if (x =? c)%N then Some i else position_of c l (i + 1)
  end.

(** The decoder's loop: a 64-bit buffer, how many of its low bits are pending, the bytes so far. *)
Fixpoint decode_go (text : str) (buffer bits : Z) : option (list Z) :=
  match text with
  | [] => Some []
  | c :: text =>
      let character := if is_ascii_lowercase c then (c - 32)%N else c in
      if (character =? c!"=")%N || (character =? c!" ")%N || (character =? c!"-")%N then decode_go text buffer bits
      else
        value ← position_of character BASE32_ALPHABET 0;
        let buffer := Z.lor (Z.shiftl buffer 5 mod 2 ^ 64) value in
        let bits := bits + 5 in
        if 8 <=? bits then
          let bits := bits - 8 in
          out ← decode_go text buffer bits;
          Some (Z.land (Z.shiftr buffer bits) 255 :: out)
        else decode_go text buffer bits
  end.
Definition base32_decode (text : str) : option (list Z) := decode_go text 0 0.

(** ** The enrolment URI *)

Definition upper_hex (d : Z) : char := Z.to_N (if d <? 10 then 48 + d else 55 + d).

Definition encode_byte (b : Z) : str :=
  let c := Z.to_N b in
  if is_ascii_alphanumeric c || existsb (N.eqb c) [c!"-"; c!"."; c!"_"; c!"~"] then [c]
  else [c!"%"; upper_hex (Z.shiftr b 4); upper_hex (Z.land b 15)].

Definition encode_label (value : str) : str := mjoin (encode_byte <$> mjoin (utf8_bytes <$> value)).

Definition otpauth_uri (issuer account secret_base32 : str) : str :=
  s!"otpauth://totp/" ++ encode_label issuer ++ s!":" ++ encode_label account ++ s!"?secret=" ++ secret_base32
  ++ s!"&issuer=" ++ encode_label issuer ++ s!"&algorithm=SHA1&digits=" ++ show_Z DIGITS ++ s!"&period=" ++ show_Z STEP_SECONDS.

(** ** Envelopes *)

Definition VERSION : str := s!"v1".
Definition NONCE_BYTES : nat := 16.

Inductive crypto_error := Crypto.

Section Envelopes.
(** SHA-256, HMAC-SHA256 (key, message) and the hex crate. *)
Context (sha256 : list Z -> list Z) (hmac_sha256 : list Z -> list Z -> list Z).
Context (hex_encode : list Z -> str) (hex_decode : str -> option (list Z)).
(** The domain separation labels, as bytes. *)
Definition label (s : str) : list Z := Z.of_N <$> s.

Definition from_key_material (material : list Z) : list Z := sha256 (label s!"omnion.secret.key.v1" ++ material).

Fixpoint xor_block (block mask : list Z) : list Z :=
  match block, mask with
  | b :: block, m :: mask => Z.lxor b m :: xor_block block mask
  | _, _ => block
  end.

Fixpoint keystream_go (key nonce : list Z) (fuel : nat) (block_index : Z) (buffer : list Z) : list Z :=
  match fuel, buffer with
  | S fuel, _ :: _ =>
      let digest := sha256 (key ++ label s!"omnion.secret.keystream.v1" ++ nonce ++ be_bytes 4 block_index) in
      xor_block (take 32 buffer) digest ++ keystream_go key nonce fuel (block_index + 1) (drop 32 buffer)
  | _, _ => []
  end.
Definition apply_keystream (key nonce buffer : list Z) : list Z := keystream_go key nonce (length buffer) 0 buffer.

Definition envelope_tag (key nonce ciphertext : list Z) : list Z :=
  hmac_sha256 key (label s!"omnion.secret.tag.v1" ++ nonce ++ ciphertext).

(** The nonce is drawn from the system. *)
Definition encrypt (key nonce plaintext : list Z) : str :=
  let ciphertext := apply_keystream key nonce plaintext in
  let tag := envelope_tag key nonce ciphertext in
  VERSION ++ s!"." ++ hex_encode nonce ++ s!"." ++ hex_encode ciphertext ++ s!"." ++ hex_encode tag.

Definition decrypt (key : list Z) (envelope : str) : result (list Z) crypto_error :=
  match split_on c!"." envelope with
  | [version; nonce_hex; cipher_hex; tag_hex] =>
      require str_eqb version VERSION else Crypto in
      let? nonce := ok_or (hex_decode nonce_hex) Crypto in
      let? ciphertext := ok_or (hex_decode cipher_hex) Crypto in
      let? tag := ok_or (hex_decode tag_hex) Crypto in
      require (length nonce =? NONCE_BYTES)%nat else Crypto in
      require bool_decide (envelope_tag key nonce ciphertext = tag) else Crypto in
      Ok (apply_keystream key nonce ciphertext)
  | _ => Err Crypto
  end.
End Envelopes.

(** ** Words as numbers *)

Lemma lor_shift a b k : 0 <= k -> 0 <= b < 2 ^ k -> Z.lor (Z.shiftl a k) b = a * 2 ^ k + b.
Proof.
  intros Hk Hb. rewrite <- Z.shiftl_mul_pow2 by done. rewrite <- Z.add_lor_land.
  assert (Z.land (Z.shiftl a k) b = 0) as ->; [|lia].
  apply Z.bits_inj'. intros i Hi. rewrite Z.land_spec, Z.shiftl_spec, Z.bits_0 by done.
  destruct (Z.lt_ge_cases i k) as [Hlt|Hge]; [by rewrite Z.testbit_neg_r by lia|].
  replace b with (b mod 2 ^ k) by (by apply Z.mod_small). rewrite Z.mod_pow2_bits_high by lia. apply andb_false_r.
Qed.

Lemma land_31 a : Z.land a 31 = a mod 32.
Proof. apply (Z.land_ones a 5). lia. Qed.
Lemma land_255 a : Z.land a 255 = a mod 256.
Proof. apply (Z.land_ones a 8). lia. Qed.

Lemma buffer_step buffer v : 0 <= v < 32 ->
  Z.lor (Z.shiftl buffer 5 mod 2 ^ 64) v = (buffer mod 2 ^ 59) * 32 + v.
Proof.
  intros Hv. transitivity (Z.lor (Z.shiftl (buffer mod 2 ^ 59) 5) v); [f_equal|by apply lor_shift].
  rewrite !Z.shiftl_mul_pow2 by lia. change (2 ^ 64) with (2 ^ 59 * 2 ^ 5). by rewrite Z.mul_mod_distr_r.
Qed.

Lemma mod_mod_pow a n m : 0 <= n <= m -> (a mod 2 ^ m) mod 2 ^ n = a mod 2 ^ n.
Proof.
  intros H. apply Z.bits_inj'. intros i Hi. destruct (Z.lt_ge_cases i n).
  - by rewrite !Z.mod_pow2_bits_low by lia.
  - by rewrite !Z.mod_pow2_bits_high by lia.
Qed.

Lemma div_mod_pow a b n : 0 <= b -> 0 <= n -> (a / 2 ^ b) mod 2 ^ n = a mod 2 ^ (b + n) / 2 ^ b.
Proof.
  intros Hb Hn. apply Z.bits_inj'. intros i Hi. rewrite Z.div_pow2_bits by lia. destruct (Z.lt_ge_cases i n).
  - by rewrite !Z.mod_pow2_bits_low, Z.div_pow2_bits by lia.
  - by rewrite !Z.mod_pow2_bits_high by lia.
Qed.

(** ** Base32 reads back *)

(** What the decoder's loop computes: only the pending bits of the buffer matter. *)
Fixpoint dec (vals : list Z) (low bits : Z) : list Z :=
  match vals with
  | [] => []
  | v :: vals =>
      if 3 <=? bits then (low * 32 + v) / 2 ^ (bits - 3) :: dec vals ((low * 32 + v) mod 2 ^ (bits - 3)) (bits - 3)
      else dec vals (low * 32 + v) (bits + 5)
  end.

Lemma base32_char_value v : 0 <= v < 32 ->
  position_of (base32_char v) BASE32_ALPHABET 0 = Some v /\ is_ascii_lowercase (base32_char v) = false
  /\ (base32_char v =? c!"=")%N || (base32_char v =? c!" ")%N || (base32_char v =? c!"-")%N = false.
Proof.
  intros Hv.
  assert (H : forallb (fun n => bool_decide (position_of (base32_char (Z.of_nat n)) BASE32_ALPHABET 0 = Some (Z.of_nat n))
    && negb (is_ascii_lowercase (base32_char (Z.of_nat n)))
    && negb ((base32_char (Z.of_nat n) =? c!"=")%N || (base32_char (Z.of_nat n) =? c!" ")%N || (base32_char (Z.of_nat n) =? c!"-")%N))
    (seq 0 32) = true) by (vm_compute; reflexivity).
  rewrite forallb_elem in H. specialize (H (Z.to_nat v)). rewrite elem_of_seq in H. rewrite Z2Nat.id in H by lia.
  specialize (H ltac:(lia)). rewrite !andb_true_iff, !negb_true_iff in H. destruct H as ((H1 & H2) & H3).
  by apply bool_decide_eq_true in H1.
Qed.

Lemma decode_dec vals buffer bits :
  Forall (fun v => 0 <= v < 32) vals -> 0 <= bits < 8 ->
  decode_go (base32_char <$> vals) buffer bits = Some (dec vals (buffer mod 2 ^ bits) bits).
Proof.
  intros Hv. revert buffer bits. induction Hv as [|v vals Hv _ IH]; intros buffer bits Hb; [done|].
  destruct (base32_char_value v Hv) as (Hp & Hl & Hc).
  cbn [fmap list_fmap decode_go dec]. rewrite Hl, Hc, Hp. cbn [mbind option_bind]. rewrite buffer_step by done.
  set (x := buffer mod 2 ^ 59 * 32 + v).
  assert (Hx : x mod 2 ^ (bits + 5) = buffer mod 2 ^ bits * 32 + v).
  { subst x. symmetry. apply (Z.mod_unique_pos _ _ (buffer mod 2 ^ 59 / 2 ^ bits)).
    - rewrite Z.pow_add_r by lia. pose proof (Z.mod_pos_bound buffer (2 ^ bits)). lia.
    - rewrite Z.pow_add_r by lia. rewrite <- (mod_mod_pow buffer bits 59) by lia.
      pose proof (Z.div_mod (buffer mod 2 ^ 59) (2 ^ bits)). lia. }
  destruct (Z.leb_spec 3 bits) as [H3|H3].
  - rewrite (proj2 (Z.leb_le 8 (bits + 5))) by lia. rewrite IH by lia. cbn [mbind option_bind]. do 2 f_equal.
    + rewrite land_255, Z.shiftr_div_pow2 by lia. change 256 with (2 ^ 8).
      rewrite div_mod_pow by lia. replace (bits + 5 - 8 + 8) with (bits + 5) by lia. rewrite Hx. f_equal. f_equal. lia.
    + f_equal; [|lia]. replace (bits + 5 - 8) with (bits - 3) by lia.
      rewrite <- Hx. by rewrite mod_mod_pow by lia.
  - rewrite (proj2 (Z.leb_gt 8 (bits + 5))) by lia. rewrite IH by lia. by rewrite Hx.
Qed.

Ltac dec_steps :=
  cbn [dec];
  repeat match goal with |- context [3 <=? ?b] =>
    let v := eval vm_compute in (3 <=? b) in change (3 <=? b) with v; cbn iota end;
  repeat match goal with |- context [2 ^ ?e] =>
    let v := eval vm_compute in (2 ^ e) in change (2 ^ e) with v end.

(** Linear arithmetic with division by constants. *)
Ltac dlia := Z.to_euclidean_division_equations; lia.

(** Eight characters give five bytes and leave nothing pending. *)
Lemma dec_block v0 v1 v2 v3 v4 v5 v6 v7 rest :
  Forall (fun v => 0 <= v < 32) [v0; v1; v2; v3; v4; v5; v6; v7] ->
  let n := v0 * 34359738368 + v1 * 1073741824 + v2 * 33554432 + v3 * 1048576 + v4 * 32768 + v5 * 1024 + v6 * 32 + v7 in
  dec (v0 :: v1 :: v2 :: v3 :: v4 :: v5 :: v6 :: v7 :: rest) 0 0
  = n / 4294967296 :: n / 16777216 mod 256 :: n / 65536 mod 256 :: n / 256 mod 256 :: n mod 256 :: dec rest 0 0.
Proof.
  rewrite !Forall_cons, Forall_nil. intros (H0 & H1 & H2 & H3 & H4 & H5 & H6 & H7 & _) n. dec_steps.
  rewrite Z.mod_1_r, Z.div_1_r. subst n.
  replace (((0 * 32 + v0) * 32 + v1) mod 4) with (v1 mod 4) by dlia.
  replace (((v1 mod 4 * 32 + v2) * 32 + v3) mod 16) with (v3 mod 16) by dlia.
  replace ((v3 mod 16 * 32 + v4) mod 2) with (v4 mod 2) by dlia.
  replace (((v4 mod 2 * 32 + v5) * 32 + v6) mod 8) with (v6 mod 8) by dlia.
  do 4 (f_equal; [dlia|]). f_equal. dlia.
Qed.

Lemma split_groups n : 0 <= n < 1099511627776 ->
  n = (n / 34359738368) mod 32 * 34359738368 + (n / 1073741824) mod 32 * 1073741824 + (n / 33554432) mod 32 * 33554432
      + (n / 1048576) mod 32 * 1048576 + (n / 32768) mod 32 * 32768 + (n / 1024) mod 32 * 1024 + (n / 32) mod 32 * 32 + n mod 32.
Proof. intros H. dlia. Qed.

(** The five-bit groups of a chunk. *)
Definition chunk_vals (n : Z) (k : nat) : list Z := (fun i => (n / 2 ^ (35 - Z.of_nat i * 5)) mod 32) <$> seq 0 k.

Lemma chunk_vals_small n k : Forall (fun v => 0 <= v < 32) (chunk_vals n k).
Proof. apply Forall_forall. intros v (i & -> & _)%list_elem_of_fmap. by apply Z.mod_pos_bound. Qed.

Definition number_of_chunk (chunk : list Z) : Z := foldl (fun bits byte => bits * 256 + byte) 0 chunk * 2 ^ (40 - Z.of_nat (length chunk) * 8).
Definition characters_of (chunk : list Z) : nat :=
  match length chunk with 1%nat => 2%nat | 2%nat => 4%nat | 3%nat => 5%nat | 4%nat => 7%nat | _ => 8%nat end.

Lemma base32_chunk_vals chunk : forallb byte_ok chunk = true -> (length chunk <= 5)%nat ->
  base32_chunk chunk = base32_char <$> chunk_vals (number_of_chunk chunk) (characters_of chunk).
Proof.
  intros Hb Hl. unfold base32_chunk, chunk_vals, number_of_chunk.
  assert (He : forall acc, foldl (fun bits byte => Z.lor (Z.shiftl bits 8) byte) acc chunk = foldl (fun bits byte => bits * 256 + byte) acc chunk).
  { clear Hl. induction chunk as [|b chunk IH]; intros acc; [done|]. cbn [forallb foldl] in *. apply andb_true_iff in Hb as [Hb Hc].
    unfold byte_ok in Hb. apply andb_true_iff in Hb as [H1%Z.leb_le H2%Z.ltb_lt]. rewrite lor_shift by lia. by apply IH. }
  rewrite He, Z.shiftl_mul_pow2 by lia. rewrite <- list_fmap_compose. apply list_fmap_ext. intros i j Hij.
  apply lookup_seq in Hij as [-> Hi]. cbn [compose]. f_equal. rewrite land_31, Z.shiftr_div_pow2; [done|].
  assert (characters_of chunk <= 8)%nat by (unfold characters_of; repeat case_match; lia). unfold characters_of in *. lia.
Qed.

Lemma dec_chunk chunk rest :
  forallb byte_ok chunk = true -> (0 < length chunk <= 5)%nat -> (length chunk = 5%nat \/ rest = []) ->
  dec (chunk_vals (number_of_chunk chunk) (characters_of chunk) ++ rest) 0 0 = chunk ++ dec rest 0 0.
Proof.
  intros Hb Hl Hr. unfold byte_ok in Hb.
  destruct chunk as [|b0 [|b1 [|b2 [|b3 [|b4 [|]]]]]]; cbn [length] in Hl, Hr; try lia;
    cbn [forallb] in Hb; rewrite ?andb_true_iff, ?Z.leb_le, ?Z.ltb_lt in Hb;
    try (destruct Hr as [?| ->]; [lia|]); unfold number_of_chunk; cbn [foldl length];
    match goal with |- context [2 ^ ?e] => let v := eval vm_compute in (2 ^ e) in change (2 ^ e) with v end.
  5: { rewrite app_nil_r || idtac. unfold chunk_vals. cbn [seq fmap list_fmap characters_of length app].
       repeat match goal with |- context [2 ^ ?e] => let v := eval vm_compute in (2 ^ e) in change (2 ^ e) with v end.
       rewrite dec_block by (repeat constructor; by apply Z.mod_pos_bound).
       set (n := (((((0 * 256 + b0) * 256 + b1) * 256 + b2) * 256 + b3) * 256 + b4) * 1). rewrite (Z.div_1_r n).
       rewrite <- split_groups by lia. subst n. cbn [app]. do 4 (f_equal; [dlia|]). f_equal. dlia. }
  all: rewrite app_nil_r; unfold chunk_vals; cbn [seq fmap list_fmap characters_of length app]; dec_steps.
  all: repeat (f_equal; try dlia).
Qed.

Lemma dec_chunks fuel l : forallb byte_ok l = true -> (length l <= fuel)%nat ->
  dec (mjoin ((fun c => chunk_vals (number_of_chunk c) (characters_of c)) <$> chunks_go 5 fuel l)) 0 0 = l.
Proof.
  revert l. induction fuel as [|fuel IH]; intros l Hb Hl; [by destruct l; [|cbn in Hl; lia]|].
  destruct l as [|b l]; [done|]. cbn [chunks_go fmap list_fmap mjoin list_join]. set (m := b :: l) in *.
  assert (Hm : forallb byte_ok (take 5 m) = true /\ forallb byte_ok (drop 5 m) = true).
  { rewrite <- (take_drop 5 m), forallb_app, andb_true_iff in Hb. done. }
  rewrite dec_chunk; [|by apply Hm|rewrite length_take; subst m; cbn [length]; lia|].
  - rewrite IH; [by rewrite take_drop|by apply Hm|]. rewrite length_drop. subst m. cbn [length] in *. lia.
  - destruct (Nat.le_gt_cases 5 (length m)) as [H|H]; [left; rewrite length_take; lia|right].
    rewrite drop_ge by lia. by destruct fuel.
Qed.

(** The text a secret is shown as reads back to the secret: decoding an encoding gives the bytes,
    for every length, so no padding is needed and the bits that fill the last character are
    dropped. *)
Theorem base32_roundtrip (bytes : list Z) :
  forallb byte_ok bytes = true -> base32_decode (base32_encode bytes) = Some bytes.
Proof.
  intros Hb. unfold base32_decode, base32_encode.
  assert (He : forall fuel l, forallb byte_ok l = true ->
    mjoin (base32_chunk <$> chunks_go 5 fuel l)
    = base32_char <$> mjoin ((fun c => chunk_vals (number_of_chunk c) (characters_of c)) <$> chunks_go 5 fuel l)).
  { induction fuel as [|fuel IH]; intros l Hl; [done|]. destruct l as [|b l]; [done|].
    cbn [chunks_go fmap list_fmap mjoin list_join]. set (m := b :: l) in *.
    rewrite <- (take_drop 5 m), forallb_app, andb_true_iff in Hl. destruct Hl as [H1 H2].
    rewrite fmap_app, base32_chunk_vals, IH; [done|done|done|]. rewrite length_take. lia. }
  unfold chunks. rewrite He by done. rewrite decode_dec; [|apply Forall_forall|lia].
  - by rewrite Z.mod_1_r, dec_chunks.
  - intros v Hv. apply list_elem_of_join in Hv as (c & Hv & Hc). apply list_elem_of_fmap in Hc as (d & -> & _).
    pose proof (chunk_vals_small (number_of_chunk d) (characters_of d)) as H. rewrite Forall_forall in H. by apply H.
Qed.

(** ** Verifying a code *)

Lemma digit_not_space c : is_ascii_digit c = true -> negb (is_whitespace c) = true /\ (c =? 43)%N = false.
Proof.
  unfold is_ascii_digit, in_range. intros [H1%N.leb_le H2%N.leb_le]%andb_true_iff.
  assert (H : forallb (fun n => negb (is_whitespace (N.of_nat n)) && negb (N.of_nat n =? 43)%N) (seq 48 10) = true) by (vm_compute; reflexivity).
  rewrite forallb_elem in H. specialize (H (N.to_nat c)). rewrite elem_of_seq, N2Nat.id in H.
  specialize (H ltac:(lia)). apply andb_true_iff in H as [? ?%negb_true_iff]. done.
Qed.

Lemma read_format v : 0 <= v < 10 ^ DIGITS -> read_code (format_code v) = Some v.
Proof.
  intros Hv. unfold read_code, format_code, show_Z. rewrite (proj2 (Z.ltb_ge v 0)) by lia.
  set (k := (Z.to_nat DIGITS - length (show_N (Z.to_N v)))%nat).
  assert (Hd : forall c, c ∈ replicate k c!"0" ++ show_N (Z.to_N v) -> is_ascii_digit c = true).
  { intros c [Hc|Hc]%elem_of_app; [by apply elem_of_replicate in Hc as [-> _]|by eapply show_N_digits]. }
  rewrite trim_id by (apply forallb_elem; intros c Hc; apply digit_not_space; auto).
  assert (Hz : digits_value 0 (replicate k c!"0" ++ show_N (Z.to_N v)) = Some (Z.to_N v)).
  { clear Hd. generalize k. clear k. induction k as [|k IH]; [apply digits_value_show|exact IH]. }
  unfold parse_unsigned. destruct (replicate k c!"0" ++ show_N (Z.to_N v)) as [|c s] eqn:E.
  - exfalso. apply app_eq_nil in E as [E1 E2]. unfold k in E1. rewrite E2 in E1. discriminate E1.
  - destruct (digit_not_space c) as [_ ->]; [apply Hd, list_elem_of_here|]. rewrite Hz.
    unfold u32_max. unfold DIGITS in Hv. rewrite (proj2 (N.leb_le _ _)) by lia. cbn. f_equal. lia.
Qed.

Section Verify.
Context (hmac_sha1 : list Z -> list Z -> list Z).

Lemma hotp_range secret counter : 0 <= hotp hmac_sha1 secret counter < 10 ^ DIGITS.
Proof. apply Z.mod_pos_bound. done. Qed.

Lemma elem_of_steps counter window step :
  0 <= counter < 2 ^ 64 -> 0 <= window ->
  step ∈ steps_of counter window <-> Z.abs (step - counter) <= window /\ 0 <= step < 2 ^ 64.
Proof.
  intros Hc Hw. unfold steps_of. rewrite list_elem_of_join. split.
  - intros (l & Hs & (i & -> & Hi%elem_of_seq)%list_elem_of_fmap). apply list_elem_of_omap in Hs as (o & Ho & Hs).
    unfold id in Hs. subst o. unfold checked_sub_u64, checked_add_u64 in Ho.
    apply elem_of_cons in Ho as [Ho|Ho]; [|apply list_elem_of_singleton in Ho].
    + destruct (Z.ltb_spec (counter - Z.of_nat i) 0); [done|]. injection Ho as ->. lia.
    + destruct (Z.leb_spec (2 ^ 64) (counter + Z.of_nat i)); [done|]. injection Ho as ->. lia.
  - intros [Ha Hs]. set (i := Z.to_nat (Z.abs (step - counter))).
    exists (omap id [checked_sub_u64 counter (Z.of_nat i); checked_add_u64 counter (Z.of_nat i)]). split.
    + apply list_elem_of_omap. exists (Some step). split; [|done]. unfold checked_sub_u64, checked_add_u64.
      destruct (Z.le_gt_cases step counter) as [Hle|Hgt]; apply elem_of_cons.
      * left. rewrite (proj2 (Z.ltb_ge _ 0)) by lia. f_equal. lia.
      * right. apply list_elem_of_singleton. rewrite (proj2 (Z.leb_gt (2 ^ 64) _)) by lia. f_equal. lia.
    + apply list_elem_of_fmap. exists i. split; [done|]. apply elem_of_seq. lia.
Qed.

Lemma counter_for_range t : t <= i64_max -> 0 <= counter_for t < 2 ^ 64.
Proof. unfold counter_for, STEP_SECONDS, i64_max. intros H. dlia. Qed.

(** A typed code is accepted exactly when it is the code of a step of the window around the
    current one; so the code an authenticator shows, with its leading zeros, is accepted from the
    moment its clock is within the window of the server's, and a text that is not a number never is. *)
Theorem verify_exact (secret : list Z) (code : str) (now window : Z) :
  now <= i64_max -> 0 <= window ->
  (verify hmac_sha1 secret code now window = true
   <-> exists step, Z.abs (step - counter_for now) <= window /\ 0 <= step < 2 ^ 64
         /\ read_code code = Some (hotp hmac_sha1 secret step))
  /\ (forall shown, shown <= i64_max -> Z.abs (counter_for shown - counter_for now) <= window ->
      verify hmac_sha1 secret (format_code (totp hmac_sha1 secret shown)) now window = true).
Proof.
  intros Hn Hw. pose proof (counter_for_range now Hn) as Hc.
  assert (Hv : forall code, verify hmac_sha1 secret code now window = true
    <-> exists step, Z.abs (step - counter_for now) <= window /\ 0 <= step < 2 ^ 64
         /\ read_code code = Some (hotp hmac_sha1 secret step)).
  { intros c. unfold verify. destruct (read_code c) as [v|].
    - rewrite existsb_elem. split.
      + intros (step & Hs & He%Z.eqb_eq). apply elem_of_steps in Hs as [? ?]; [|done..]. exists step. by rewrite He.
      + intros (step & ? & ? & [= ->]). exists step. rewrite Z.eqb_refl. split; [by apply elem_of_steps|done].
    - split; [done|]. by intros (? & _ & _ & ?). }
  split; [apply Hv|]. intros shown Hs Hd. apply Hv. exists (counter_for shown).
  split_and!; try done; try apply (counter_for_range shown Hs). apply read_format, hotp_range.
Qed.
End Verify.

(** ** Envelopes open *)

Section Sealed.
Context (sha256 : list Z -> list Z) (hmac_sha256 : list Z -> list Z -> list Z).
Context (hex_encode : list Z -> str) (hex_decode : str -> option (list Z)).

Lemma xor_block_length b m : length (xor_block b m) = length b.
Proof. revert m; induction b as [|x b IH]; intros [|y m]; cbn; [done..|by rewrite IH]. Qed.
Lemma xor_block_twice b m : xor_block (xor_block b m) m = b.
Proof.
  revert m; induction b as [|x b IH]; intros [|y m]; cbn; [done..|]. rewrite IH. f_equal.
  by rewrite Z.lxor_assoc, Z.lxor_nilpotent, Z.lxor_0_r.
Qed.

Lemma keystream_length key nonce fuel i b : (length b <= fuel)%nat -> length (keystream_go sha256 key nonce fuel i b) = length b.
Proof.
  revert i b. induction fuel as [|fuel IH]; intros i [|x b] Hl; cbn [length] in Hl; try done; [lia|].
  cbn [keystream_go]. set (m := x :: b) in *. rewrite length_app, xor_block_length, IH.
  - rewrite length_take, length_drop. lia.
  - rewrite length_drop. subst m. cbn [length]. lia.
Qed.

Lemma keystream_twice key nonce fuel i b :
  (length b <= fuel)%nat -> keystream_go sha256 key nonce fuel i (keystream_go sha256 key nonce fuel i b) = b.
Proof.
  revert i b. induction fuel as [|fuel IH]; intros i [|x b] Hl; try done; [cbn [length] in Hl; lia|].
  set (m := x :: b) in *. assert (Hm : (0 < length m)%nat) by (subst m; cbn [length]; lia).
  assert (Hg : forall l, (0 < length l)%nat -> keystream_go sha256 key nonce (S fuel) i l
    = xor_block (take 32 l) (sha256 (key ++ label s!"omnion.secret.keystream.v1" ++ nonce ++ be_bytes 4 i))
      ++ keystream_go sha256 key nonce fuel (i + 1) (drop 32 l)) by (intros [|y l] H; [cbn in H; lia|done]).
  rewrite (Hg m) by done. set (digest := sha256 _). set (head := xor_block (take 32 m) digest).
  assert (Hh : length head = (32 `min` length m)%nat) by (unfold head; by rewrite xor_block_length, length_take).
  rewrite Hg by (rewrite length_app, Hh; lia). fold digest.
  assert (Htail : length (drop 32 m) = 0%nat \/ length head = 32%nat) by (rewrite length_drop; lia).
  assert (Ht : take 32 (head ++ keystream_go sha256 key nonce fuel (i + 1) (drop 32 m)) = head
    /\ drop 32 (head ++ keystream_go sha256 key nonce fuel (i + 1) (drop 32 m)) = keystream_go sha256 key nonce fuel (i + 1) (drop 32 m)).
  { destruct Htail as [H0|H32].
    - apply nil_length_inv in H0. rewrite H0. assert (keystream_go sha256 key nonce fuel (i + 1) [] = []) as -> by by destruct fuel.
      rewrite app_nil_r. rewrite take_ge, drop_ge by lia. done.
    - rewrite <- H32. by rewrite take_app_length, drop_app_length. }
  destruct Ht as [-> ->]. unfold head. rewrite xor_block_twice, IH; [apply take_drop|].
  rewrite length_drop. cbn [length] in Hl. subst m. cbn [length] in *. lia.
Qed.

(** A secret put in an envelope comes out as it went in, under the same key and whatever the
    nonce: the keystream is its own inverse block by block, the last partial block included, and
    the four fields of the envelope are told apart. *)
Theorem envelope_roundtrip (key nonce plaintext : list Z) :
  (forall b, hex_decode (hex_encode b) = Some b) -> (forall b, c!"." ∉ hex_encode b) ->
  length nonce = NONCE_BYTES ->
  decrypt sha256 hmac_sha256 hex_decode key (encrypt sha256 hmac_sha256 hex_encode key nonce plaintext) = Ok plaintext.
Proof.
  intros Hd Hc Hn. unfold decrypt, encrypt.
  set (ct := apply_keystream sha256 key nonce plaintext). set (tag := envelope_tag hmac_sha256 key nonce ct).
  assert (Hs : split_on c!"." (VERSION ++ s!"." ++ hex_encode nonce ++ s!"." ++ hex_encode ct ++ s!"." ++ hex_encode tag)
    = [VERSION; hex_encode nonce; hex_encode ct; hex_encode tag]).
  { change (split_on c!"." (VERSION ++ c!"." :: hex_encode nonce ++ c!"." :: hex_encode ct ++ c!"." :: hex_encode tag)
      = [VERSION; hex_encode nonce; hex_encode ct; hex_encode tag]).
    rewrite (split_on_app _ VERSION) by (by intros H; apply (list_elem_of_In _ _) in H; vm_compute in H; naive_solver).
    do 2 rewrite split_on_app by apply Hc. by rewrite split_on_none by apply Hc. }
  rewrite Hs, str_eqb_refl, !Hd. cbn [ok_or result_bind]. rewrite Hn, Nat.eqb_refl.
  rewrite bool_decide_eq_true_2 by done. f_equal. unfold ct, apply_keystream.
  rewrite keystream_length by done. by apply keystream_twice.
Qed.
End Sealed.

(** ** Concrete secrets *)

(** A stand-in for the keyed hash: every digest is twenty bytes of the counter's last byte. *)
Definition echo_hmac (key msg : list Z) : list Z := replicate 20 (List.last msg 0).

Lemma base32_roundtrip_witness : base32_decode (base32_encode [0; 255; 16; 7; 9; 200; 1]) = Some [0; 255; 16; 7; 9; 200; 1].
Proof. apply base32_roundtrip. vm_compute. reflexivity. Defined.

Lemma verify_exact_witness : verify echo_hmac [1; 2; 3] (format_code (totp echo_hmac [1; 2; 3] 89)) 60 1 = true.
Proof. apply (verify_exact echo_hmac [1; 2; 3] [] 60 1); vm_compute; discriminate. Defined.

(** A text form of numbers, outside ASCII. *)
Definition wide_char (z : Z) : char := Z.to_N (if 0 <=? z then 1000 + 2 * z else 999 - 2 * z).
Definition wide_value (c : char) : Z :=
  let v := Z.of_N c - 1000 in if Z.even v then v / 2 else - ((v + 1) / 2).
Definition wide_encode (b : list Z) : str := wide_char <$> b.
Definition wide_decode (s : str) : option (list Z) := Some (wide_value <$> s).

Lemma wide_decode_encode b : wide_decode (wide_encode b) = Some b.
Proof.
  unfold wide_decode, wide_encode. f_equal. rewrite <- list_fmap_compose. rewrite <- (list_fmap_id b) at 2.
  apply list_fmap_ext. intros i z _. cbn [compose]. unfold id, wide_value, wide_char.
  destruct (Z.leb_spec 0 z).
  - rewrite Z2N.id by lia. replace (1000 + 2 * z - 1000) with (2 * z) by lia. rewrite Z.even_mul. cbn [Z.even orb].
    rewrite Z.mul_comm. by apply Z.div_mul.
  - rewrite Z2N.id by lia. replace (999 - 2 * z - 1000) with (2 * (- z - 1) + 1) by lia.
    rewrite Z.even_add, Z.even_mul. cbn [Z.even orb Bool.eqb]. dlia.
Qed.

Lemma envelope_roundtrip_witness :
  decrypt (fun _ => [1; 2; 3]) (fun _ m => m) wide_decode [9]
    (encrypt (fun _ => [1; 2; 3]) (fun _ m => m) wide_encode [9] (replicate 16 0) [4; 5; 6; 7]) = Ok [4; 5; 6; 7].
Proof.
  apply envelope_roundtrip; [apply wide_decode_encode| |reflexivity].
  intros b (z & Hz & _)%list_elem_of_fmap. unfold wide_char in Hz. change (c!".") with 46%N in Hz. destruct (Z.leb_spec 0 z); lia.
Defined.
