(* ===== verification/Factors.v ===== *)
(** * Second factors: [crates/identity/src/mfa.rs]

    The factors of an account and its recovery codes: enrolment in two steps, verification of a
    code, single-use recovery codes, passkey rows, revocation and reset; and the instance of the
    interface a sign-in uses. Random values (secrets, codes, identifiers) are arguments, and so
    are the envelope's opening and the hash functions. *)

From S2P Require Import Prelude Json RateLimit SignIn Totp.

Definition RECOVERY_CODE_COUNT : nat := 10.
Definition RECOVERY_CODE_CHARS : nat := 5.
Definition RECOVERY_ALPHABET : str := s!"ABCDEFGHJKLMNPQRSTUVWXYZ23456789".
Definition MAX_LABEL_LENGTH : nat := 64.
Definition MAX_PASSKEYS : Z := 10.

Inductive factor_kind := KTotp | KWebauthn | KRecovery.
#[export] Instance factor_kind_eq_dec : EqDecision factor_kind.
Proof. solve_decision. Defined.
Definition is_kind (k : factor_kind) (k' : factor_kind) : bool := bool_decide (k = k').

Record mfa_factor := MfaFactor {
  mf_id : Z;
  mf_user_id : Z;
  mf_kind : factor_kind;
  mf_label : str;
  mf_secret_ciphertext : option str;
  mf_credential_id : option str;
  mf_public_key : option str;
  mf_sign_count : Z;
  mf_transports : list str;
  mf_confirmed_at : option Z;
  mf_last_used_at : option Z;
  mf_created_at : Z;
  mf_revoked_at : option Z
}.

Record recovery_code := RecoveryCode { rc_id : Z; rc_user_id : Z; rc_code_hash : str; rc_used_at : option Z }.
Record factor_store := FactorStore { fs_factors : list mfa_factor; fs_codes : list recovery_code }.

Inductive factor_error := FactorNotFound | NotATotpFactor | CodeDoesNotMatch | CryptoFailure.

Section Factors.
(** HMAC-SHA1, the opening of an envelope ([SecretBox::decrypt]), SHA-256 as hex text. *)
Context (hmac_sha1 : list Z -> list Z -> list Z) (open_box : str -> option (list Z)) (sha256_hex : str -> str).

Definition is_live (f : mfa_factor) : bool := negb (is_given (mf_revoked_at f)).
Definition of_user (user : Z) (f : mfa_factor) : bool := mf_user_id f =? user.

Definition newest_first (a b : mfa_factor) : comparison := (mf_created_at b ?= mf_created_at a).

Definition list_factors (st : factor_store) (user : Z) : list mfa_factor :=
  sort_by newest_first (List.filter (fun f => of_user user f && is_live f) (fs_factors st)).

Definition confirmed_count (st : factor_store) (user : Z) : Z :=
  Z.of_nat (length (List.filter
    (fun f => of_user user f && is_live f && is_given (mf_confirmed_at f)
              && (is_kind KTotp (mf_kind f) || is_kind KWebauthn (mf_kind f))) (fs_factors st))).

Definition has_factor (st : factor_store) (user : Z) : bool := 0 <? confirmed_count st user.

Definition find_factor (st : factor_store) (user id : Z) : option mfa_factor :=
  List.find (fun f => (mf_id f =? id) && of_user user f && is_live f) (fs_factors st).

Definition revoke (now : Z) (f : mfa_factor) : mfa_factor :=
  MfaFactor (mf_id f) (mf_user_id f) (mf_kind f) (mf_label f) (mf_secret_ciphertext f) (mf_credential_id f) (mf_public_key f)
    (mf_sign_count f) (mf_transports f) (mf_confirmed_at f) (mf_last_used_at f) (mf_created_at f) (Some now).
Definition confirm (now : Z) (f : mfa_factor) : mfa_factor :=
  MfaFactor (mf_id f) (mf_user_id f) (mf_kind f) (mf_label f) (mf_secret_ciphertext f) (mf_credential_id f) (mf_public_key f)
    (mf_sign_count f) (mf_transports f) (Some now) (Some now) (mf_created_at f) (mf_revoked_at f).
Definition use_factor (now : Z) (sign_count : option Z) (f : mfa_factor) : mfa_factor :=
  MfaFactor (mf_id f) (mf_user_id f) (mf_kind f) (mf_label f) (mf_secret_ciphertext f) (mf_credential_id f) (mf_public_key f)
    (default (mf_sign_count f) sign_count) (mf_transports f) (mf_confirmed_at f) (Some now) (mf_created_at f) (mf_revoked_at f).

Definition update_where (p : mfa_factor -> bool) (g : mfa_factor -> mfa_factor) (st : factor_store) : factor_store :=
  FactorStore ((fun f => if p f then g f else f) <$> fs_factors st) (fs_codes st).

Definition is_pending (user : Z) (f : mfa_factor) : bool :=
  of_user user f && is_kind KTotp (mf_kind f) && negb (is_given (mf_confirmed_at f)) && is_live f.

(** [enroll_totp]: [ciphertext] is the envelope of the new secret's Base32 text. *)
Definition enroll_totp (st : factor_store) (user id now : Z) (label : option str) (ciphertext : str) : factor_store * mfa_factor :=
  let label := match trim <$> label with
               | Some l => if str_eqb l [] then s!"Authenticator app" else l
               | None => s!"Authenticator app"
               end in
  let st := update_where (is_pending user) (revoke now) st in
  let f := MfaFactor id user KTotp (take MAX_LABEL_LENGTH label) (Some ciphertext) None None 0 [] None None now None in
  (FactorStore (fs_factors st ++ [f]) (fs_codes st), f).

Definition hash_recovery_code (code : str) : str :=
  sha256_hex (s!"omnion.recovery.v1" ++ to_ascii_uppercase (List.filter is_ascii_alphanumeric code)).

(** [generate_recovery_code] from ten random bytes. *)
Definition generate_recovery_code (bytes : list Z) : str :=
  let characters := (fun b => nth (Z.to_nat (b mod Z.of_nat (length RECOVERY_ALPHABET))) RECOVERY_ALPHABET 0%N) <$> bytes in
  take RECOVERY_CODE_CHARS characters ++ s!"-" ++ drop RECOVERY_CODE_CHARS characters.

(** [fresh] is what the generator draws: an identifier and ten bytes for each code. *)
Definition refresh_recovery_codes (st : factor_store) (user : Z) (fresh : list (Z * list Z)) : factor_store * list str :=
  let kept := List.filter (fun c => negb (rc_user_id c =? user)) (fs_codes st) in
  let codes := (fun d => generate_recovery_code (snd d)) <$> take RECOVERY_CODE_COUNT fresh in
  let rows := (fun d => RecoveryCode (fst d) user (hash_recovery_code (generate_recovery_code (snd d))) None)
              <$> take RECOVERY_CODE_COUNT fresh in
  (FactorStore (fs_factors st) (kept ++ rows), codes).

Definition remaining_recovery_codes (st : factor_store) (user : Z) : Z :=
  Z.of_nat (length (List.filter (fun c => (rc_user_id c =? user) && negb (is_given (rc_used_at c))) (fs_codes st))).

(** The bytes of an envelope as text; a byte outside ASCII is in no Base32 text, which fails the
    same way. *)
Definition ascii_text (bytes : list Z) : option str :=
  if forallb (fun b => (0 <=? b) && (b <? 128)) bytes then Some (Z.to_N <$> bytes) else None.
Definition secret_of (f : mfa_factor) : option (list Z) :=
  envelope ← mf_secret_ciphertext f; bytes ← open_box envelope; text ← ascii_text bytes; base32_decode text.

Definition confirm_totp (st : factor_store) (user id : Z) (code : str) (unix_seconds now : Z) (fresh : list (Z * list Z)) :
  result (factor_store * list str) factor_error :=
  let? f := ok_or (find_factor st user id) FactorNotFound in
  require is_kind KTotp (mf_kind f) else NotATotpFactor in
  let? secret := ok_or (secret_of f) CryptoFailure in
  require verify hmac_sha1 secret code unix_seconds DEFAULT_WINDOW else CodeDoesNotMatch in
  let st := update_where (fun f => mf_id f =? id) (confirm now) st in
  Ok (refresh_recovery_codes st user fresh).

Definition totp_matches (code : str) (unix_seconds : Z) (f : mfa_factor) : bool :=
  is_kind KTotp (mf_kind f) && is_given (mf_confirmed_at f)
  && match secret_of f with Some secret => verify hmac_sha1 secret code unix_seconds DEFAULT_WINDOW | None => false end.

Definition unused_code (user : Z) (hash : str) (c : recovery_code) : bool :=
  (rc_user_id c =? user) && str_eqb (rc_code_hash c) hash && negb (is_given (rc_used_at c)).
Definition use_code (now : Z) (c : recovery_code) : recovery_code :=
  RecoveryCode (rc_id c) (rc_user_id c) (rc_code_hash c) (Some now).

(** [verify_code]: a TOTP factor first, then a recovery code. *)
Definition verify_factor (st : factor_store) (user : Z) (code : str) (unix_seconds now : Z) : factor_store * option verification :=
  let code := trim code in
  if str_eqb code [] then (st, None)
  else
    match List.find (totp_matches code unix_seconds) (list_factors st user) with
    | Some f => (update_where (fun g => mf_id g =? mf_id f) (use_factor now None) st, Some (TotpMatched (mf_id f)))
    | None =>
        let hash := hash_recovery_code code in
        (FactorStore (fs_factors st) ((fun c => if unused_code user hash c then use_code now c else c) <$> fs_codes st),
         if existsb (unused_code user hash) (fs_codes st) then Some RecoveryMatched else None)
    end.

Definition reset (st : factor_store) (user now : Z) : factor_store * Z :=
  let live f := of_user user f && is_live f in
  let st' := update_where live (revoke now) st in
  (FactorStore (fs_factors st') (List.filter (fun c => negb (rc_user_id c =? user)) (fs_codes st)),
   Z.of_nat (length (List.filter live (fs_factors st)))).

Definition revoke_factor (st : factor_store) (user id now : Z) : factor_store * bool :=
  let p f := (mf_id f =? id) && of_user user f && is_live f in
  (update_where p (revoke now) st, existsb p (fs_factors st)).

(** ** Passkeys *)

Definition list_passkeys (st : factor_store) (user : Z) : list mfa_factor :=
  sort_by newest_first (List.filter (fun f => of_user user f && is_kind KWebauthn (mf_kind f) && is_live f) (fs_factors st)).

Definition has_credential (id : str) (f : mfa_factor) : bool :=
  match mf_credential_id f with Some c => str_eqb c id | None => false end.

Definition find_passkey (st : factor_store) (user : Z) (credential : str) : option mfa_factor :=
  List.find (fun f => of_user user f && is_kind KWebauthn (mf_kind f) && has_credential credential f && is_live f) (fs_factors st).

Definition passkey_exists (st : factor_store) (credential : str) : bool :=
  existsb (fun f => is_kind KWebauthn (mf_kind f) && has_credential credential f && is_live f) (fs_factors st).

Definition create_passkey (st : factor_store) (user id now : Z) (label credential key : str) (sign_count : Z) (transports : list str) :
  factor_store * mfa_factor :=
  let label := trim label in
  let label := if str_eqb label [] then s!"Passkey" else take MAX_LABEL_LENGTH label in
  let f := MfaFactor id user KWebauthn label None (Some credential) (Some key) sign_count transports (Some now) (Some now) now None in
  (FactorStore (fs_factors st ++ [f]) (fs_codes st), f).

Definition record_passkey_use (st : factor_store) (id sign_count now : Z) : factor_store :=
  update_where (fun f => mf_id f =? id) (use_factor now (Some sign_count)) st.

(** What a sign-in uses: the clock of the codes is the database's, in seconds. *)
Definition factor_interface : SecondFactor := {|
  factors := factor_store;
  has_confirmed_factor := has_factor;
  verify_code := fun st now user code => verify_factor st user code (now / 1000000) now
|}.
End Factors.

(** ** Sequences of operations *)

Section Operations.
Context (hmac_sha1 : list Z -> list Z -> list Z) (open_box : str -> option (list Z)) (sha256_hex : str -> str).

Inductive factor_op :=
| OEnroll (user id now : Z) (label : option str) (ciphertext : str)
| OConfirm (user id : Z) (code : str) (unix_seconds now : Z) (fresh : list (Z * list Z))
| ORefresh (user : Z) (fresh : list (Z * list Z))
| OVerify (user : Z) (code : str) (unix_seconds now : Z)
| OReset (user now : Z)
| ORevoke (user id now : Z)
| OPasskey (user id now : Z) (label credential key : str) (sign_count : Z) (transports : list str)
| OPasskeyUse (id sign_count now : Z).

Definition run_op (st : factor_store) (o : factor_op) : factor_store :=
  match o with
  | OEnroll user id now label ciphertext => fst (enroll_totp st user id now label ciphertext)
  | OConfirm user id code unix now fresh =>
      match confirm_totp hmac_sha1 open_box sha256_hex st user id code unix now fresh with Ok (st', _) => st' | Err _ => st end
  | ORefresh user fresh => fst (refresh_recovery_codes sha256_hex st user fresh)
  | OVerify user code unix now => fst (verify_factor hmac_sha1 open_box sha256_hex st user code unix now)
  | OReset user now => fst (reset st user now)
  | ORevoke user id now => fst (revoke_factor st user id now)
  | OPasskey user id now label credential key n transports => fst (create_passkey st user id now label credential key n transports)
  | OPasskeyUse id n now => record_passkey_use st id n now
  end.
Definition run_ops (st : factor_store) (l : list factor_op) : factor_store := foldl run_op st l.

(** ** Pending enrolments *)

Definition pending (user : Z) (st : factor_store) : nat := length (List.filter (is_pending user) (fs_factors st)).

Lemma pending_update user p g st :
  (forall f, p f = true -> is_pending user (g f) = true -> is_pending user f = true) ->
  (pending user (update_where p g st) <= pending user st)%nat.
Proof.
  intros H. unfold pending, update_where. cbn [fs_factors]. induction (fs_factors st) as [|f l IH]; [done|].
  cbn [fmap list_fmap List.filter]. destruct (p f) eqn:Ep.
  - specialize (H f Ep). destruct (is_pending user (g f)); [rewrite H by done; cbn [length]; lia|].
    destruct (is_pending user f); cbn [length]; lia.
  - destruct (is_pending user f); cbn [length]; lia.
Qed.

Lemma pending_app user st f codes :
  pending user (FactorStore (fs_factors st ++ [f]) codes) = (pending user st + if is_pending user f then 1 else 0)%nat.
Proof. unfold pending. cbn [fs_factors]. rewrite List.filter_app, length_app. cbn [List.filter]. by destruct (is_pending user f). Qed.

Lemma revoked_not_pending user now f : is_pending user (revoke now f) = false.
Proof. unfold is_pending, revoke, is_live. cbn. by rewrite andb_false_r. Qed.

(** Whatever the order of enrolments, confirmations, verifications, revocations and resets,
    an account never has two enrolments waiting for their code: starting one retires the other. *)
Theorem one_pending_enrolment (user : Z) (st : factor_store) (l : list factor_op) :
  (pending user st <= 1)%nat -> (pending user (run_ops st l) <= 1)%nat.
Proof.
  revert st. induction l as [|o l IH]; intros st H; [done|]. unfold run_ops. cbn [foldl]. apply IH. clear IH.
  destruct o; cbn [run_op].
  - unfold enroll_totp. cbn [fst]. rewrite pending_app. set (f := MfaFactor _ _ _ _ _ _ _ _ _ _ _ _ _).
    destruct (Z.eq_dec user0 user) as [->|Hne].
    + assert (Hz : pending user (update_where (is_pending user) (revoke now) st) = 0%nat).
      { unfold pending, update_where. cbn [fs_factors]. induction (fs_factors st) as [|g m IH]; [done|].
        cbn [fmap list_fmap List.filter]. destruct (is_pending user g) eqn:E; [rewrite revoked_not_pending|rewrite E]; by rewrite IH by (cbn; lia). }
      rewrite Hz. destruct (is_pending user f); lia.
    + assert (is_pending user f = false) as ->.
      { unfold is_pending, of_user. cbn. by rewrite (proj2 (Z.eqb_neq user0 user)). }
      rewrite Nat.add_0_r. etransitivity; [|exact H]. apply pending_update. intros g _. by rewrite revoked_not_pending.
  - destruct (confirm_totp _ _ _ _ _ _ _ _ _ _) as [[st' codes]|] eqn:E; [|done]. unfold confirm_totp in E. ok_inv E.
    subst st'. etransitivity; [|exact H].
    etransitivity; [|apply (pending_update user (fun f => mf_id f =? id) (confirm now))]; [done|].
    intros f _. unfold is_pending, confirm. cbn. by rewrite andb_false_r.
  - done.
  - unfold verify_factor. destruct (str_eqb (trim code) []); [done|].
    destruct (List.find _ _) as [f|]; [|done]. etransitivity; [|exact H]. by apply pending_update.
  - etransitivity; [|exact H]. etransitivity; [|apply (pending_update user (fun f => of_user user0 f && is_live f) (revoke now))]; [done|].
    intros f _. by rewrite revoked_not_pending.
  - etransitivity; [|exact H]. apply pending_update. intros f _. by rewrite revoked_not_pending.
  - unfold create_passkey. cbn [fst]. rewrite pending_app.
    match goal with |- context [is_pending user ?f] =>
      assert (is_pending user f = false) as -> by (unfold is_pending; destruct (of_user user f); reflexivity) end. lia.
  - etransitivity; [|exact H]. by apply pending_update.
Qed.

(** ** Recovery codes *)

(** No unused code of the account has this hash. *)
Definition code_spent (user : Z) (hash : str) (st : factor_store) : Prop :=
  forall c, c ∈ fs_codes st -> unused_code user hash c = false.

(** An operation that hands the account new codes. *)
Definition issues (user : Z) (o : factor_op) : bool :=
  match o with OConfirm u _ _ _ _ _ | ORefresh u _ => u =? user | _ => false end.

Lemma refresh_keeps_spent user hash u fresh st : u <> user ->
  code_spent user hash st -> code_spent user hash (fst (refresh_recovery_codes sha256_hex st u fresh)).
Proof.
  intros Hne Hs c [Hc|Hc]%elem_of_app; [apply Hs; by apply elem_of_filter_bool in Hc as [? _]|].
  apply list_elem_of_fmap in Hc as (d & -> & _). unfold unused_code. cbn. by rewrite (proj2 (Z.eqb_neq u user)).
Qed.

Lemma op_keeps_spent user hash st o :
  issues user o = false -> code_spent user hash st -> code_spent user hash (run_op st o).
Proof.
  intros Ho Hs. destruct o; cbn [run_op issues] in *; try exact Hs.
  - destruct (confirm_totp _ _ _ _ _ _ _ _ _ _) as [[st' codes]|] eqn:E; [|done]. unfold confirm_totp in E. ok_inv E. subst st'.
    apply (refresh_keeps_spent user hash user0 fresh (update_where (fun f => mf_id f =? id) (confirm now) st)); [by apply Z.eqb_neq|exact Hs].
  - apply refresh_keeps_spent; [by apply Z.eqb_neq|done].
  - unfold verify_factor. destruct (str_eqb (trim code) []); [done|]. destruct (List.find _ _); [exact Hs|].
    intros c (d & -> & Hd)%list_elem_of_fmap. destruct (unused_code _ _ d); [|by apply Hs].
    unfold unused_code. cbn. by rewrite andb_false_r.
  - intros c Hc. apply Hs. by apply elem_of_filter_bool in Hc as [? _].
Qed.

(** A recovery code works once: after it has been accepted, no spelling of it is accepted again
    as a recovery code of the account, whatever happens to the factors, until the account is issued
    a new set. *)
Theorem recovery_code_works_once (st : factor_store) (user : Z) (code code' : str) (unix now unix' now' : Z) (l : list factor_op) :
  snd (verify_factor hmac_sha1 open_box sha256_hex st user code unix now) = Some RecoveryMatched ->
  forallb (fun o => negb (issues user o)) l = true ->
  hash_recovery_code sha256_hex (trim code') = hash_recovery_code sha256_hex (trim code) ->
  snd (verify_factor hmac_sha1 open_box sha256_hex
        (run_ops (fst (verify_factor hmac_sha1 open_box sha256_hex st user code unix now)) l) user code' unix' now') <> Some RecoveryMatched.
Proof.
  intros Hv Hl Hh. set (hash := hash_recovery_code sha256_hex (trim code)) in *.
  set (st1 := fst (verify_factor _ _ _ st user code unix now)).
  assert (H1 : code_spent user hash st1).
  { subst st1. unfold verify_factor in *. destruct (str_eqb (trim code) []); [done|]. destruct (List.find _ _); [done|].
    intros c (d & -> & Hd)%list_elem_of_fmap. destruct (unused_code _ _ d) eqn:E; [|exact E].
    unfold unused_code. cbn. by rewrite andb_false_r. }
  clearbody st1. assert (H2 : code_spent user hash (run_ops st1 l)).
  { revert st1 H1. induction l as [|o l IH]; intros st1 H1; [done|]. cbn [forallb] in Hl.
    apply andb_true_iff in Hl as [Ho%negb_true_iff Hl]. by apply IH, op_keeps_spent. }
  unfold verify_factor. destruct (str_eqb (trim code') []); [done|]. destruct (List.find _ _); [done|].
  cbn [snd]. rewrite Hh. assert (existsb (unused_code user hash) (fs_codes (run_ops st1 l)) = false) as ->; [|done].
  apply not_true_iff_false. intros (c & Hc & Hu)%existsb_elem. by rewrite H2 in Hu.
Qed.

(** Confirming an enrolment hands out working codes: as many as are drawn, ten of ten, and each
    of them is accepted as long as it is not also a password of the moment; the codes of an earlier
    set are gone. *)
Theorem issued_codes_work (st st' : factor_store) (user id : Z) (code : str) (unix now unix' now' : Z)
  (fresh : list (Z * list Z)) (codes : list str) :
  confirm_totp hmac_sha1 open_box sha256_hex st user id code unix now fresh = Ok (st', codes) ->
  length fresh = RECOVERY_CODE_COUNT ->
  remaining_recovery_codes st' user = 10 /\ length codes = 10%nat
  /\ has_factor st' user = true
  /\ forall c, c ∈ codes -> trim c = c -> c <> [] ->
      List.find (totp_matches hmac_sha1 open_box c unix') (list_factors st' user) = None ->
      snd (verify_factor hmac_sha1 open_box sha256_hex st' user c unix' now') = Some RecoveryMatched.
Proof.
  intros H Hl. unfold confirm_totp in H. ok_inv H. subst st' codes. rename Ha into Hf.
  rewrite (firstn_all2 (n := RECOVERY_CODE_COUNT) fresh) by lia. cbn [fs_codes fs_factors].
  set (row := fun d : Z * list Z => RecoveryCode (fst d) user (hash_recovery_code sha256_hex (generate_recovery_code (snd d))) None).
  assert (Hrows : forall kept p, (forall c, c ∈ kept -> p c = false) -> (forall d, p (row d) = true) ->
    length (List.filter p (kept ++ (row <$> fresh))) = length fresh).
  { intros kept p Hk Hp. rewrite List.filter_app, length_app.
    assert (Hn : forall l, (forall c, c ∈ l -> p c = false) -> List.filter p l = []).
    { induction l as [|c m IH]; intros Hm; [done|]. cbn [List.filter]. rewrite (Hm c) by apply list_elem_of_here.
      apply IH. intros x Hx. apply Hm. by apply elem_of_cons; right. }
    rewrite Hn by done. cbn [length Nat.add]. clear -Hp. induction fresh as [|d m IH]; [done|].
    cbn [fmap list_fmap List.filter]. rewrite Hp. cbn [length]. by f_equal. }
  split_and!.
  - unfold remaining_recovery_codes. cbn [fs_codes]. rewrite Hrows; [by rewrite Hl| |].
    + intros c [_ Hc%negb_true_iff]%elem_of_filter_bool. by rewrite Hc.
    + intros d. cbn. by rewrite Z.eqb_refl.
  - by rewrite length_fmap.
  - unfold find_factor in Hf. destruct (List.find _ _) as [f|] eqn:E; [|done]. injection Hf as ->.
    apply find_some in E as [Hin Hq]. rewrite !andb_true_iff in Hq. destruct Hq as ((Hid & Hu) & Hlive).
    unfold has_factor, confirmed_count. cbn [fs_factors]. apply Z.ltb_lt.
    assert (He : confirm now a ∈ List.filter (fun f => of_user user f && is_live f && is_given (mf_confirmed_at f)
       && (is_kind KTotp (mf_kind f) || is_kind KWebauthn (mf_kind f)))
       ((fun f => if mf_id f =? id then confirm now f else f) <$> fs_factors st)).
    { apply elem_of_filter_bool. split.
      - apply list_elem_of_fmap. exists a. rewrite Hid. split; [done|by apply list_elem_of_In].
      - unfold confirm, of_user, is_live in *. cbn. rewrite Hu, Hlive. cbn. by rewrite Heqb. }
    destruct (List.filter _ _); [by apply elem_of_nil in He|]. cbn [length]. lia.
  - intros c (d & -> & Hd)%list_elem_of_fmap Ht Hne Hno. unfold verify_factor. rewrite Ht.
    rewrite (proj2 (str_eqb_neq _ _) Hne), Hno. cbn [snd fs_codes].
    assert (existsb (unused_code user (hash_recovery_code sha256_hex (generate_recovery_code (snd d))))
      (List.filter (fun c => negb (rc_user_id c =? user)) (fs_codes st) ++ (row <$> fresh)) = true) as ->; [|done].
    apply existsb_elem. exists (row d). split; [apply elem_of_app; right; by apply list_elem_of_fmap_2|].
    unfold unused_code. cbn. by rewrite Z.eqb_refl, str_eqb_refl.
Qed.
End Operations.

(** ** With the sign-in *)

Section Composition.
Context `{J : JsonNumber}.
Context (hmac_sha1 : list Z -> list Z -> list Z) (open_box : str -> option (list Z)) (sha256_hex : str -> str).
Context (to_lowercase : str -> str) (verify_password : str -> str -> bool) (hash_token : str -> str).
Local Instance the_factors : SecondFactor := factor_interface hmac_sha1 open_box sha256_hex.

(** A second factor that counts: an authenticator or a passkey, confirmed and not revoked. *)
Definition counts_for (user : Z) (f : mfa_factor) : Prop :=
  mf_user_id f = user /\ mf_revoked_at f = None /\ (exists at_, mf_confirmed_at f = Some at_) /\ (mf_kind f = KTotp \/ mf_kind f = KWebauthn).

Lemma has_factor_spec st user : has_factor st user = true <-> exists f, f ∈ fs_factors st /\ counts_for user f.
Proof.
  unfold has_factor, confirmed_count. rewrite Z.ltb_lt. set (p := fun f => _). trans (exists f, f ∈ List.filter p (fs_factors st)).
  - destruct (List.filter p _) as [|x l]; cbn; split; try lia; [by intros (f & ?%elem_of_nil)|intros _; exists x; by left].
  - setoid_rewrite elem_of_filter_bool. unfold p, counts_for, of_user, is_live, is_kind.
    setoid_rewrite andb_true_iff. setoid_rewrite andb_true_iff. setoid_rewrite andb_true_iff. setoid_rewrite orb_true_iff. setoid_rewrite bool_decide_eq_true. setoid_rewrite Z.eqb_eq.
    split; intros (f & Hf & H); exists f; (split; [done|]).
    + destruct (mf_revoked_at f), (mf_confirmed_at f); naive_solver.
    + destruct H as (H1 & -> & (at_ & ->) & H4). naive_solver.
Qed.

(** C25. An account with a confirmed authenticator or passkey is not signed in by its password: the answer
    is then a challenge, and an account without one gets none. On the route that takes codes a challenge
    is finished only by an unspent recovery code of that account or by a code its authenticator shows
    within a step of the server's clock, checked against the secret of a confirmed authenticator that
    has not been revoked. The route that takes a passkey's assertion ([webauthn.rs]) finishes challenges
    too and is not modelled. *)
Theorem factor_is_demanded (t : tables) (email pw code token : str) (ip : option str) (now : Z) (a : account) :
  (forall ch, snd (sign_in to_lowercase verify_password hash_token t email pw ip token now) = Authenticated a ch ->
     is_given ch = true <-> exists f, f ∈ fs_factors (t_factors t) /\ counts_for (a_id a) f)
  /\ (forall v, snd (complete_mfa_login hash_token t token code ip now) = Ok (Some (a, v)) ->
     match v with
     | TotpMatched id => exists f secret, f ∈ fs_factors (t_factors t) /\ mf_id f = id /\ mf_kind f = KTotp /\ counts_for (a_id a) f
         /\ secret_of open_box f = Some secret /\ verify hmac_sha1 secret (trim code) (now / 1000000) 1 = true
     | RecoveryMatched => exists c, c ∈ fs_codes (t_factors t) /\ rc_user_id c = a_id a /\ rc_used_at c = None
         /\ rc_code_hash c = hash_recovery_code sha256_hex (trim code)
     end).
Proof.
  split.
  - intros ch H. rewrite <- has_factor_spec. cut (is_given ch = has_factor (t_factors t) (a_id a)); [by intros ->|]. unfold sign_in in H. destruct (check_before_password to_lowercase t email ip now) as [t0 c] eqn:Ec.
    destruct (check_refuses _ _ _ _ _ _ _ Ec) as [Hf Ho].
    destruct c as [o|b hash l e]; [cbn [snd] in H; by apply Ho in H|].
    unfold after_password in H. destruct (negb (verify_password pw hash)).
    { destruct (register_failure _ _ _ _) as [t2 [n [u|]]]; [destruct (now <? u)|]; done. }
    destruct (negb (is_active b)); [done|].
    destruct (has_confirmed_factor (t_factors (clear_failures (a_id b) now t0)) (a_id b)) eqn:Eh; cbn [snd] in H;
      injection H as -> <-; cbn in Eh; rewrite Hf in Eh; symmetry; exact Eh.
  - intros v H. unfold complete_mfa_login in H. destruct (consume_challenge _ _ _ _ _) as [cs u].
    destruct (u ≫= _) as [b|]; [|done]. cbn [t_factors with_challenges] in H.
    cbn [verify_code the_factors factor_interface] in H.
    destruct (verify_factor _ _ _ (t_factors t) (a_id b) code (now / 1000000) now) as [st w] eqn:Ev.
    destruct w as [w|]; cbn [snd] in H; [|done]. injection H as -> ->. unfold verify_factor in Ev.
    destruct (str_eqb (trim code) []); [done|].
    destruct (List.find _ (list_factors _ _)) as [f|] eqn:Ef.
    + injection Ev as _ <-. apply find_some in Ef as [Hin Hm]. unfold totp_matches in Hm.
      rewrite !andb_true_iff in Hm. destruct Hm as ((Hk%bool_decide_eq_true & Hc) & Hs).
      destruct (secret_of open_box f) as [secret|] eqn:Es; [|done]. exists f, secret.
      apply list_elem_of_In in Hin. unfold list_factors in Hin. rewrite sort_by_perm in Hin.
      apply elem_of_filter_bool in Hin as [Hin Hq]. apply andb_true_iff in Hq as [Hu%Z.eqb_eq Hl].
      unfold counts_for, is_live in *. destruct (mf_revoked_at f), (mf_confirmed_at f); try done. split_and!; try done; [by eexists|by left].
    + destruct (existsb _ _) eqn:Ee; [|done]. injection Ev as _ <-. apply existsb_elem in Ee as (c & Hc & Hu).
      unfold unused_code in Hu. rewrite !andb_true_iff in Hu. destruct Hu as ((Hu%Z.eqb_eq & Hh%str_eqb_eq) & Hn).
      exists c. split_and!; try done. by destruct (rc_used_at c).
Qed.
End Composition.

Section Limits.
Context (hmac_sha1 : list Z -> list Z -> list Z) (open_box : str -> option (list Z)) (sha256_hex : str -> str).

(** After a reset nothing of the account verifies: no factor is demanded, no code is accepted
    whatever the clock, and no recovery code is left; other accounts keep theirs. *)
Theorem reset_leaves_nothing (st : factor_store) (user now : Z) (code : str) (unix now' other : Z) :
  let st' := fst (reset st user now) in
  has_factor st' user = false /\ remaining_recovery_codes st' user = 0
  /\ snd (verify_factor hmac_sha1 open_box sha256_hex st' user code unix now') = None
  /\ (other <> user -> has_factor st' other = has_factor st other
      /\ remaining_recovery_codes st' other = remaining_recovery_codes st other).
Proof.
  intros st'.
  assert (Hlive : forall f, f ∈ fs_factors st' -> of_user user f && is_live f = false).
  { intros f (g & -> & Hg)%list_elem_of_fmap. destruct (of_user user g && is_live g) eqn:E; [|exact E].
    unfold is_live, revoke. cbn. apply andb_false_r. }
  assert (Hnone : forall p l, (forall f : mfa_factor, f ∈ l -> of_user user f && is_live f = false) ->
    (forall f, p f = true -> of_user user f && is_live f = true) -> List.filter p l = []).
  { intros p l Hl Hp. induction l as [|f l IH]; [done|]. cbn [List.filter].
    destruct (p f) eqn:E; [apply Hp in E; rewrite Hl in E by apply list_elem_of_here; done|].
    apply IH. intros g Hg. apply Hl. by apply elem_of_cons; right. }
  assert (Hcodes : forall c, c ∈ fs_codes st' -> (rc_user_id c =? user) = false).
  { intros c [_ Hc%negb_true_iff]%elem_of_filter_bool. done. }
  assert (Hnocode : forall p l, (forall c : recovery_code, c ∈ l -> (rc_user_id c =? user) = false) ->
    (forall c, p c = true -> (rc_user_id c =? user) = true) -> existsb p l = false /\ List.filter p l = []).
  { intros p l Hl Hp. induction l as [|c l IH]; [done|]. cbn [existsb List.filter].
    destruct (p c) eqn:E; [apply Hp in E; rewrite Hl in E by apply list_elem_of_here; done|].
    apply IH. intros g Hg. apply Hl. by apply elem_of_cons; right. }
  split_and!.
  - unfold has_factor, confirmed_count. rewrite Hnone; [done|done|]. intros f. rewrite !andb_true_iff. tauto.
  - unfold remaining_recovery_codes. destruct (Hnocode (fun c => (rc_user_id c =? user) && negb (is_given (rc_used_at c))) _ Hcodes) as [_ ->]; [|done].
    intros c [? _]%andb_true_iff. done.
  - unfold verify_factor. destruct (str_eqb (trim code) []); [done|]. unfold list_factors. rewrite Hnone; [|done|done].
    cbn [sort_by foldr List.find snd]. 
    destruct (Hnocode (unused_code user (hash_recovery_code sha256_hex (trim code))) _ Hcodes) as [-> _]; [|done].
    intros c Hc. unfold unused_code in Hc. rewrite !andb_true_iff in Hc. tauto.
  - intros Hne. split.
    + unfold has_factor, confirmed_count. do 3 f_equal. subst st'. cbn [reset fst fs_factors update_where].
      induction (fs_factors st) as [|f l IH]; [done|]. cbn [fmap list_fmap List.filter].
      destruct (of_user user f && is_live f) eqn:E.
      * apply andb_true_iff in E as [Hu _]. unfold of_user in Hu. apply Z.eqb_eq in Hu.
        assert (of_user other f = false /\ of_user other (revoke now f) = false) as [-> ->].
        { unfold of_user, revoke. cbn. rewrite Hu. split; apply Z.eqb_neq; congruence. }
        cbn [andb]. apply IH.
      * destruct (of_user other f && is_live f && is_given (mf_confirmed_at f) && _); [|apply IH]. cbn [length]. by rewrite IH.
    + unfold remaining_recovery_codes. do 2 f_equal. subst st'. cbn [reset fst fs_codes].
      induction (fs_codes st) as [|c l IH]; [done|]. cbn [List.filter].
      destruct (Z.eqb_spec (rc_user_id c) user) as [E|E]; cbn [negb List.filter].
      * rewrite (proj2 (Z.eqb_neq _ other)) by congruence. cbn [andb]. apply IH.
      * destruct (_ && _); [|apply IH]. cbn [length]. by rewrite IH.
Qed.

(** Marking a factor as used changes nothing that a verification reads. *)
Lemma sort_by_map (g : mfa_factor -> mfa_factor) l :
  (forall f, mf_created_at (g f) = mf_created_at f) ->
  sort_by newest_first (g <$> l) = g <$> sort_by newest_first l.
Proof.
  intros Hg. unfold sort_by. induction l as [|f l IH]; [done|]. cbn [fmap list_fmap foldr]. rewrite IH. clear IH.
  induction (foldr (insert_by newest_first) [] l) as [|h m IHm]; [done|]. cbn [fmap list_fmap insert_by].
  unfold newest_first at 1 3. rewrite !Hg. by destruct (mf_created_at h ?= mf_created_at f); cbn [fmap list_fmap]; rewrite ?IHm.
Qed.

(** A gap: a password of the moment is not of one time. Nothing records the step of an accepted
    code, so the same code is accepted again, for the same factor, for as long as its step stays
    in the window: whoever sees it typed has up to three steps to use it too. *)
Theorem accepted_code_is_accepted_again (st : factor_store) (user : Z) (code : str) (unix now now' id : Z) :
  snd (verify_factor hmac_sha1 open_box sha256_hex st user code unix now) = Some (TotpMatched id) ->
  snd (verify_factor hmac_sha1 open_box sha256_hex
        (fst (verify_factor hmac_sha1 open_box sha256_hex st user code unix now)) user code unix now') = Some (TotpMatched id).
Proof.
  unfold verify_factor at 1 3. destruct (str_eqb (trim code) []) eqn:Et; [done|].
  destruct (List.find _ (list_factors st user)) as [f|] eqn:Ef; [|cbn [snd]; by destruct (existsb _ _)].
  cbn [fst snd]. intros [= <-]. unfold verify_factor. rewrite Et.
  set (g := fun h => if mf_id h =? mf_id f then use_factor now None h else h).
  assert (Hl : list_factors (update_where (fun h => mf_id h =? mf_id f) (use_factor now None) st) user = g <$> list_factors st user).
  { unfold list_factors. rewrite <- sort_by_map by (intros h; unfold g; by destruct (_ =? _)). f_equal.
    cbn [update_where fs_factors]. fold g. induction (fs_factors st) as [|h l IH]; [done|]. cbn [fmap list_fmap List.filter].
    assert (of_user user (g h) && is_live (g h) = of_user user h && is_live h) as -> by (unfold g; by destruct (_ =? _)).
    destruct (of_user user h && is_live h); cbn [fmap list_fmap]; by rewrite IH. }
  rewrite Hl.
  assert (Hfind : List.find (totp_matches hmac_sha1 open_box (trim code) unix) (g <$> list_factors st user) = Some (g f)).
  { clear Hl. induction (list_factors st user) as [|h l IH]; [done|]. cbn [fmap list_fmap List.find] in *.
    assert (totp_matches hmac_sha1 open_box (trim code) unix (g h) = totp_matches hmac_sha1 open_box (trim code) unix h) as ->
      by (unfold g; by destruct (_ =? _)).
    destruct (totp_matches _ _ _ _ h); [by injection Ef as ->|by apply IH]. }
  rewrite Hfind. cbn [snd]. unfold g. by destruct (_ =? _).
Qed.
End Limits.

(** ** Concrete factors *)

(** An envelope that is its own text. *)
Definition clear_box (s : str) : option (list Z) := Some (Z.of_N <$> s).
Definition draws : list (Z * list Z) := (fun i => (Z.of_nat i, replicate 10 (Z.of_nat i))) <$> seq 0 10.

Definition phone : mfa_factor :=
  MfaFactor 1 7 KTotp s!"Phone" (Some (base32_encode [1; 2; 3; 4; 5])) None None 0 [] None None 0 None.
Definition pending_store : factor_store := FactorStore [phone] [].
Definition code_now : str := format_code (totp echo_hmac [1; 2; 3; 4; 5] 60).

Lemma one_pending_enrolment_witness :
  (pending 7 (run_ops echo_hmac clear_box id pending_store [OEnroll 7 2 10 None s!"X"; OEnroll 7 3 20 None s!"Y"]) <= 1)%nat.
Proof. apply one_pending_enrolment. vm_compute. constructor. Defined.

Definition confirmed_store : factor_store :=
  match confirm_totp echo_hmac clear_box id pending_store 7 1 code_now 60 60 draws with Ok (st, _) => st | Err _ => pending_store end.

Lemma issued_codes_work_witness :
  remaining_recovery_codes confirmed_store 7 = 10 /\ has_factor confirmed_store 7 = true.
Proof.
  assert (H : exists codes, confirm_totp echo_hmac clear_box id pending_store 7 1 code_now 60 60 draws = Ok (confirmed_store, codes)).
  { eexists. vm_compute. reflexivity. }
  destruct H as [codes H].
  destruct (issued_codes_work echo_hmac clear_box id pending_store confirmed_store 7 1 code_now 60 60 0 0 draws codes H eq_refl) as (H1 & _ & H2 & _).
  by split.
Defined.

Lemma recovery_code_works_once_witness :
  snd (verify_factor echo_hmac clear_box id confirmed_store 7 s!"BBBBB-BBBBB" 0 0) = Some RecoveryMatched
  /\ snd (verify_factor echo_hmac clear_box id
       (run_ops echo_hmac clear_box id (fst (verify_factor echo_hmac clear_box id confirmed_store 7 s!"BBBBB-BBBBB" 0 0)) [ORevoke 7 1 5])
       7 s!"bbbbb bbbbb" 0 0) <> Some RecoveryMatched.
Proof.
  split; [vm_compute; reflexivity|].
  apply recovery_code_works_once; [vm_compute; reflexivity|reflexivity|vm_compute; reflexivity].
Defined.

Lemma accepted_code_is_accepted_again_witness :
  snd (verify_factor echo_hmac clear_box id (fst (verify_factor echo_hmac clear_box id confirmed_store 7 code_now 60 0)) 7 code_now 60 0)
  = Some (TotpMatched 1).
Proof. apply accepted_code_is_accepted_again. vm_compute. reflexivity. Defined.

(** Ada has a confirmed authenticator: her password brings a challenge, a recovery code finishes it. *)
Local Instance sample_factors : SecondFactor := the_factors echo_hmac clear_box id.
Definition guarded : tables := start sample_factors confirmed_store [].
Definition challenged : tables * sign_in_outcome := sign_in id (fun pw h => str_eqb pw h) id guarded s!"ada@x.y" s!"right" office_ip s!"t" 70.
Lemma factor_is_demanded_witness :
  (exists f, f ∈ fs_factors (t_factors guarded) /\ counts_for 7 f)
  /\ exists c, c ∈ fs_codes (t_factors (fst challenged)) /\ rc_user_id c = 7 /\ rc_used_at c = None.
Proof.
  destruct (snd challenged) as [a ch| | | |] eqn:E; try (vm_compute in E; discriminate E). split.
  - destruct (factor_is_demanded echo_hmac clear_box id id (fun pw h => str_eqb pw h) id guarded s!"ada@x.y" s!"right" [] s!"t" office_ip 70 a) as [H _].
    vm_compute in E. injection E as <- <-. apply (H _ eq_refl). reflexivity.
  - destruct (snd (complete_mfa_login (F := sample_factors) id (fst challenged) s!"t" s!"BBBBB-BBBBB" office_ip 80)) as [[[b v]|]|e] eqn:Ec;
      pose proof Ec as Ev; vm_compute in Ev; try discriminate Ev.
    destruct (factor_is_demanded echo_hmac clear_box id id (fun pw h => str_eqb pw h) id (fst challenged) s!"ada@x.y" s!"right" s!"BBBBB-BBBBB" s!"t" office_ip 80 b) as [_ H].
    specialize (H v Ec). injection Ev as <- <-. destruct H as (c & Hc & Hu & Hn & _). by exists c.
Defined.
