(* ===== verification/Cadence.v ===== *)
(** * When a backup schedule runs next: [crates/backup/src/cadence.rs]

    The local wall clock of a zone, the search over its days and the resolution of readings that
    happen twice or not at all. The zone tables and the clock formats belong to libraries:
    [TimeZones] is the part of them the code uses; the calendar is that of [Cron]. *)

From S2P Require Import Prelude Cron.

(** The errors of the backup crate; messages for people are not kept. *)
Inductive backup_error :=
| BackupDatabase
| BackupNotFound
| ScheduleNotFound
| BackupInvalid
| BackupRejected
| BackupPartial (failed total : Z).

(** Instants are nanoseconds since the epoch, dates are day numbers, offsets are seconds. *)
Class TimeZones := {
  zone : Type;
  zone_by_name : str -> option zone;      (* [timezones::get_by_name] *)
  zone_offset : zone -> Z -> Z;           (* [get_offset_utc(&instant).to_utc()] *)
  utc_offset : Z -> option Z;             (* [UtcOffset::from_whole_seconds] *)
  date_ok : Z -> bool;                    (* [Date::from_julian_day] *)
  clock_full : str -> option Z;           (* [Time::parse] of [HH:MM:SS], of [HH:MM] *)
  clock_short : str -> option Z
}.

Definition NANOS_PER_SECOND : Z := 1000000000.
Definition NANOS_PER_HOUR : Z := 3600 * NANOS_PER_SECOND.
Definition MAX_LOOKAHEAD_DAYS : nat := 40.

Record backup_schedule := BackupSchedule {
  bs_id : Z;
  bs_organization_id : option Z;
  bs_name : str;
  bs_frequency : str;
  bs_at_time : option str;
  bs_day_of_week : option Z;
  bs_day_of_month : option Z;
  bs_timezone : str;
  bs_scopes : list str;
  bs_retention_count : Z;
  bs_destination : str;
  bs_enabled : bool;
  bs_last_run_at : option Z;
  bs_next_run_at : option Z;
  bs_last_backup_id : option Z;
  bs_created_at : Z;
  bs_updated_at : Z
}.

Record cadence := Cadence {
  cd_frequency : str;
  cd_at_time : option Z;
  cd_day_of_week : option N;   (* days since Sunday *)
  cd_day_of_month : option Z;
  cd_timezone : str
}.

Definition weekday_of (day : Z) : N :=
  if (0 <=? day) && (day <=? 5) then Z.to_N day else 6%N.

Section Cadence.
Context `{TZ : TimeZones, Cal : Calendar}.

Definition parse_time (text : str) : result Z backup_error :=
  let trimmed := trim text in
  match clock_full trimmed with
  | Some at_ => Ok at_
  | None => ok_or (clock_short trimmed) BackupInvalid
  end.

Definition from_schedule (s : backup_schedule) : result cadence backup_error :=
  let? at_time :=
    (if str_eqb (bs_frequency s) s!"hourly" then Ok None
     else match bs_at_time s with
          | Some text => let? t := parse_time text in Ok (Some t)
          | None => Err BackupInvalid
          end) in
  Ok (Cadence (bs_frequency s) at_time (weekday_of <$> bs_day_of_week s)
        ((fun day => day mod 256) <$> bs_day_of_month s) (bs_timezone s)).

Definition zone_of (c : cadence) : result zone backup_error :=
  let name := trim (cd_timezone c) in
  if str_eqb (to_ascii_lowercase name) s!"utc" then ok_or (zone_by_name s!"UTC") BackupInvalid
  else ok_or (zone_by_name name) BackupInvalid.

(** ** Readings of the local clock *)

Definition at_offset (local offset : Z) : Z := local - offset * NANOS_PER_SECOND.

(** [UtcOffset::from_whole_seconds(..).unwrap_or(base_offset())], pushed unless present. *)
Definition push_candidate (out : list Z) (seconds : Z) : list Z :=
  let candidate := default 0 (utc_offset seconds) in
  if existsb (Z.eqb candidate) out then out else out ++ [candidate].

Definition sample_offsets (z : zone) (local : Z) (out : list Z) (shift_days : Z) : list Z :=
  let date := date_of local + shift_days in
  if date_ok date then
    let base := zone_offset z (date * NANOS_PER_DAY + local mod NANOS_PER_DAY) in
    fold_left push_candidate [base; base + 3600; base - 3600] out
  else out.

Definition candidate_offsets (z : zone) (local : Z) : list Z :=
  sort_by Z.compare (fold_left (sample_offsets z local) [-186; 0; 186] []).

Definition resolve_local (z : zone) (local : Z) : Z :=
  let candidates := candidate_offsets z local in
  match List.filter (fun o => zone_offset z (at_offset local o) =? o) candidates with
  | [] =>
      match head candidates, last candidates with
      | Some before, Some after => if before <? after then at_offset local before else local
      | _, _ => local
      end
  | [o] => at_offset local o
  | o :: rest => fold_left Z.min (at_offset local <$> rest) (at_offset local o)
  end.

(** ** The search *)

Definition fires_on (c : cadence) (date : Z) : bool :=
  if str_eqb (cd_frequency c) s!"hourly" then true
  else if str_eqb (cd_frequency c) s!"daily" then true
  else if str_eqb (cd_frequency c) s!"weekly" then bool_decide (cd_day_of_week c = Some (cal_weekday date))
  else if str_eqb (cd_frequency c) s!"monthly" then
    Z.of_N (cal_day date) =? Z.max 1 (Z.min (default 1 (cd_day_of_month c)) 28)
  else true.

Fixpoint search_days (c : cadence) (z : zone) (at_time after : Z) (days : nat) (date : Z) : option Z :=
  match days with
  | O => None
  | S days =>
      if date_ok date then
        if fires_on c date then
          let instant := resolve_local z (date * NANOS_PER_DAY + at_time) in
          if after <? instant then Some instant else search_days c z at_time after days (date + 1)
        else search_days c z at_time after days (date + 1)
      else None
  end.

(** The wall clock of a zone at an instant, as nanoseconds of a clock that runs on UTC. *)
Definition local_reading (z : zone) (instant : Z) : Z := instant + zone_offset z instant * NANOS_PER_SECOND.

Definition next_after (c : cadence) (after : Z) : result Z backup_error :=
  let? z := zone_of c in
  if str_eqb (cd_frequency c) s!"hourly" then Ok (after - after mod NANOS_PER_HOUR + NANOS_PER_HOUR)
  else
    let? at_time := ok_or (cd_at_time c) BackupInvalid in
    ok_or (search_days c z at_time after MAX_LOOKAHEAD_DAYS (date_of (local_reading z after))) BackupInvalid.

(** ** What a run is

    A cadence runs at an instant whose reading is its time of day on a date it fires on; of two
    instants with that reading, at the first. *)
Definition runs_at (c : cadence) (z : zone) (at_time instant : Z) : Prop :=
  local_reading z instant mod NANOS_PER_DAY = at_time
  /\ fires_on c (date_of (local_reading z instant)) = true
  /\ forall other, local_reading z other = local_reading z instant -> instant <= other.

Lemma local_reading_at_offset z local o :
  zone_offset z (at_offset local o) = o <-> local_reading z (at_offset local o) = local.
Proof.
  unfold local_reading, at_offset, NANOS_PER_SECOND. split; intros H; [rewrite H; lia|nia].
Qed.

Lemma reading_offset z i local :
  local_reading z i = local -> i = at_offset local (zone_offset z i).
Proof. unfold local_reading, at_offset. lia. Qed.

Lemma fold_min_spec l x :
  fold_left Z.min l x ∈ x :: l /\ forall y, y ∈ x :: l -> fold_left Z.min l x <= y.
Proof.
  revert x; induction l as [|a l IH]; intros x; simpl.
  - split; [left|]. intros y Hy. apply list_elem_of_singleton in Hy. lia.
  - destruct (IH (Z.min x a)) as [Hin Hle]. split.
    + apply elem_of_cons in Hin as [->|Hin]; [|right; by right].
      destruct (Z.min_spec x a) as [[_ ->]|[_ ->]]; [left|right; left].
    + assert (fold_left Z.min l (Z.min x a) <= Z.min x a) by (apply Hle; left).
      intros y Hy. apply elem_of_cons in Hy as [->|Hy]; [lia|].
      apply elem_of_cons in Hy as [->|Hy]; [lia|]. apply Hle. by right.
Qed.

(** A reading that some candidate offset gives is resolved to the first instant that has it. *)
Lemma resolve_first z local i :
  (forall j, local_reading z j = local -> zone_offset z j ∈ candidate_offsets z local) ->
  local_reading z i = local ->
  local_reading z (resolve_local z local) = local
  /\ forall j, local_reading z j = local -> resolve_local z local <= j.
Proof.
  intros Hnear Hi. unfold resolve_local.
  set (real := List.filter _ _).
  assert (Hreal : forall o, o ∈ real -> local_reading z (at_offset local o) = local).
  { intros o Ho. apply elem_of_filter_bool in Ho as [_ Ho]. apply local_reading_at_offset. lia. }
  assert (Hall : forall j, local_reading z j = local -> zone_offset z j ∈ real).
  { intros j Hj. apply elem_of_filter_bool. split; [by apply Hnear|].
    rewrite <- (reading_offset z j local Hj). lia. }
  destruct real as [|o rest] eqn:Er.
  { by apply Hall, not_elem_of_nil in Hi. }
  destruct (fold_min_spec (at_offset local <$> rest) (at_offset local o)) as [Hin Hle].
  assert (Hmin : local_reading z (fold_left Z.min (at_offset local <$> rest) (at_offset local o)) = local
    /\ forall j, local_reading z j = local -> fold_left Z.min (at_offset local <$> rest) (at_offset local o) <= j).
  { change (at_offset local o :: (at_offset local <$> rest)) with (at_offset local <$> (o :: rest)) in *. split.
    - apply list_elem_of_fmap in Hin as (o' & -> & Ho'). by apply Hreal.
    - intros j Hj. rewrite (reading_offset z j local Hj). apply Hle, list_elem_of_fmap. eauto. }
  destruct rest as [|o' rest]; exact Hmin.
Qed.

Lemma day_reading d a : 0 <= a < NANOS_PER_DAY ->
  date_of (d * NANOS_PER_DAY + a) = d /\ (d * NANOS_PER_DAY + a) mod NANOS_PER_DAY = a.
Proof.
  intros Ha. unfold date_of. rewrite Z.div_add_l, Z.div_small by (unfold NANOS_PER_DAY, NANOS_PER_MINUTE in *; lia).
  rewrite (Z.add_comm (_ * _) a), Z_mod_plus_full, Z.mod_small by lia. lia.
Qed.

Lemma split_reading r : r = date_of r * NANOS_PER_DAY + r mod NANOS_PER_DAY.
Proof. unfold date_of. pose proof (Z_div_mod_eq_full r NANOS_PER_DAY). lia. Qed.

Lemma search_days_spec c z a after n d :
  (forall k, d <= k < d + Z.of_nat n -> date_ok k = true) ->
  match search_days c z a after n d with
  | Some t => exists k, d <= k < d + Z.of_nat n /\ fires_on c k = true
      /\ t = resolve_local z (k * NANOS_PER_DAY + a) /\ after < t
      /\ forall k', d <= k' < k -> fires_on c k' = true -> resolve_local z (k' * NANOS_PER_DAY + a) <= after
  | None => forall k, d <= k < d + Z.of_nat n -> fires_on c k = true ->
      resolve_local z (k * NANOS_PER_DAY + a) <= after
  end.
Proof.
  revert d; induction n as [|n IH]; intros d Hok; simpl; [intros; lia|].
  rewrite (Hok d) by lia.
  specialize (IH (d + 1) ltac:(intros; apply Hok; lia)).
  assert (Hstep : (fires_on c d = true -> resolve_local z (d * NANOS_PER_DAY + a) <= after) ->
    forall k, d <= k -> fires_on c k = true -> k < d + 1 ->
      resolve_local z (k * NANOS_PER_DAY + a) <= after)
    by (intros H k ? ? ?; assert (k = d) as -> by lia; auto).
  assert (Hrest : (fires_on c d = true -> resolve_local z (d * NANOS_PER_DAY + a) <= after) ->
    match search_days c z a after n (d + 1) with
    | Some t => exists k, d <= k < d + Z.of_nat (S n) /\ fires_on c k = true
        /\ t = resolve_local z (k * NANOS_PER_DAY + a) /\ after < t
        /\ forall k', d <= k' < k -> fires_on c k' = true -> resolve_local z (k' * NANOS_PER_DAY + a) <= after
    | None => forall k, d <= k < d + Z.of_nat (S n) -> fires_on c k = true ->
        resolve_local z (k * NANOS_PER_DAY + a) <= after
    end).
  { intros Hd. destruct (search_days _ _ _ _ _ _) as [t|].
    - destruct IH as (k & ? & ? & ? & ? & Hk). exists k. split; [lia|]. do 3 (split; [done|]).
      intros k' ? ?. destruct (Z.ltb_spec k' (d + 1)); [by eapply Hstep; eauto; lia|apply Hk; auto; lia].
    - intros k ? ?. destruct (Z.ltb_spec k (d + 1)); [eapply Hstep; eauto; lia|apply IH; auto; lia]. }
  destruct (fires_on c d) eqn:Hf; [|by apply Hrest].
  destruct (Z.ltb_spec after (resolve_local z (d * NANOS_PER_DAY + a))); [|by apply Hrest].
  exists d. split; [lia|]. do 3 (split; [done|]). intros; lia.
Qed.

(** What the zone and the calendar are relied on for: the samples of a reading hold the offset in
    force at it, and the clock is never set back across a midnight; in the days searched, dates
    are representable, weekdays cycle, and a month has at least twenty-eight days. *)
Definition samples_enough (z : zone) : Prop :=
  forall i, zone_offset z i ∈ candidate_offsets z (local_reading z i).
Definition dates_go_forward (z : zone) : Prop :=
  forall i j, i <= j -> date_of (local_reading z i) <= date_of (local_reading z j).
Definition day_follows (d : Z) : bool :=
  date_ok d && (cal_weekday d <? 7)%N && (cal_weekday (d + 1) =? (cal_weekday d + 1) mod 7)%N
  && (1 <=? cal_day d)%N && (cal_day d <=? 31)%N
  && ((cal_day (d + 1) =? cal_day d + 1)%N || (28 <=? cal_day d)%N && (cal_day (d + 1) =? 1)%N).
Definition search_window (z : zone) (after : Z) : list Z :=
  (fun k => date_of (local_reading z after) + Z.of_nat k) <$> seq 0 MAX_LOOKAHEAD_DAYS.

(** The checks of the schema on a schedule. *)
Definition schema_schedule (s : backup_schedule) : bool :=
  let frequency := bs_frequency s in
  existsb (str_eqb frequency) [s!"hourly"; s!"daily"; s!"weekly"; s!"monthly"]
  && match bs_day_of_week s with Some d => (0 <=? d) && (d <=? 6) | None => true end
  && match bs_day_of_month s with Some d => (1 <=? d) && (d <=? 28) | None => true end
  && Bool.eqb (str_eqb frequency s!"weekly") (is_given (bs_day_of_week s))
  && Bool.eqb (str_eqb frequency s!"monthly") (is_given (bs_day_of_month s))
  && (str_eqb frequency s!"hourly" || is_given (bs_at_time s)).

Lemma window_day z after k :
  forallb day_follows (search_window z after) = true ->
  date_of (local_reading z after) <= k < date_of (local_reading z after) + Z.of_nat MAX_LOOKAHEAD_DAYS ->
  day_follows k = true.
Proof.
  intros H Hk. apply (proj1 (forallb_elem _ _) H), list_elem_of_fmap.
  exists (Z.to_nat (k - date_of (local_reading z after))). split; [lia|].
  apply elem_of_seq. unfold MAX_LOOKAHEAD_DAYS in *. lia.
Qed.

Lemma day_follows_spec d : day_follows d = true ->
  date_ok d = true /\ (cal_weekday d < 7)%N /\ cal_weekday (d + 1) = ((cal_weekday d + 1) mod 7)%N
  /\ (1 <= cal_day d <= 31)%N /\ (cal_day (d + 1) = (cal_day d + 1)%N \/ (28 <= cal_day d)%N /\ cal_day (d + 1) = 1%N).
Proof. unfold day_follows. intros H. bool_prop. tauto. Qed.

Lemma weekday_reached (d : Z) (n : nat) (w : N) :
  (forall k, d <= k < d + Z.of_nat n -> day_follows k = true) -> (7 <= n)%nat -> (w < 7)%N ->
  exists k, d <= k < d + 7 /\ cal_weekday k = w.
Proof.
  intros H Hn Hw.
  assert (Hd : forall j, (j < 7)%nat -> cal_weekday (d + Z.of_nat j) = ((cal_weekday d + N.of_nat j) mod 7)%N).
  { induction j as [|j IH]; intros Hj.
    - destruct (day_follows_spec d) as (_ & ? & _); [apply H; lia|].
      rewrite Z.add_0_r, N.add_0_r, N.mod_small; lia.
    - destruct (day_follows_spec (d + Z.of_nat j)) as (_ & _ & E & _); [apply H; lia|].
      replace (d + Z.of_nat (S j)) with (d + Z.of_nat j + 1) by lia.
      rewrite E, IH by lia. rewrite N.Div0.add_mod_idemp_l. f_equal. lia. }
  destruct (day_follows_spec d) as (_ & ? & _); [apply H; lia|].
  set (j := ((w + 7 - cal_weekday d) mod 7)%N).
  assert (j < 7)%N by (apply N.mod_lt; lia).
  exists (d + Z.of_nat (N.to_nat j)). split; [lia|]. rewrite Hd by lia.
  rewrite N2Nat.id. subst j. rewrite N.Div0.add_mod_idemp_r.
  replace (cal_weekday d + (w + 7 - cal_weekday d))%N with (w + 1 * 7)%N by lia.
  rewrite N.Div0.mod_add. by apply N.mod_small.
Qed.

Lemma day_reached (d : Z) (n : nat) (m : N) :
  (forall k, d <= k < d + Z.of_nat n -> day_follows k = true) -> (31 < n)%nat -> (1 <= m <= 28)%N ->
  exists k, d <= k < d + 31 /\ cal_day k = m.
Proof.
  intros H Hn Hm.
  assert (Hup : forall j, (cal_day d <= m)%N -> (N.of_nat j <= m - cal_day d)%N ->
    cal_day (d + Z.of_nat j) = (cal_day d + N.of_nat j)%N).
  { induction j as [|j IH]; intros ? ?; [rewrite Z.add_0_r; lia|].
    destruct (day_follows_spec (d + Z.of_nat j)) as (_ & _ & _ & ? & E); [apply H; lia|].
    replace (d + Z.of_nat (S j)) with (d + Z.of_nat j + 1) by lia.
    rewrite IH in * by lia. lia. }
  destruct (N.le_gt_cases (cal_day d) m) as [Hle|Hgt].
  { exists (d + Z.of_N (m - cal_day d)). destruct (day_follows_spec d) as (_ & _ & _ & ? & _); [apply H; lia|].
    split; [lia|]. replace (Z.of_N (m - cal_day d)) with (Z.of_nat (N.to_nat (m - cal_day d))) by lia.
    rewrite Hup; lia. }
  (* past it: some day within the month's end starts the next month *)
  assert (Hreset : exists r, (r <= N.to_nat (32 - cal_day d))%nat /\ (0 < r)%nat /\ cal_day (d + Z.of_nat r) = 1%N).
  { destruct (day_follows_spec d) as (_ & _ & _ & Hd & _); [apply H; lia|].
    assert (Hgo : forall j, (j <= N.to_nat (32 - cal_day d))%nat ->
      (exists r, (r <= j)%nat /\ (0 < r)%nat /\ cal_day (d + Z.of_nat r) = 1%N)
      \/ cal_day (d + Z.of_nat j) = (cal_day d + N.of_nat j)%N).
    { induction j as [|j IH]; intros Hj; [right; rewrite Z.add_0_r; lia|].
      destruct IH as [(r & ? & ? & ?)|E]; [lia|left; exists r; split; [lia|done]|].
      destruct (day_follows_spec (d + Z.of_nat j)) as (_ & _ & _ & ? & [E'|[_ E']]); [apply H; lia| |].
      - right. replace (d + Z.of_nat (S j)) with (d + Z.of_nat j + 1) by lia. lia.
      - left. exists (S j). replace (d + Z.of_nat (S j)) with (d + Z.of_nat j + 1) by lia. lia. }
    destruct (Hgo (N.to_nat (32 - cal_day d))) as [|E]; [lia|done|].
    destruct (day_follows_spec (d + Z.of_nat (N.to_nat (32 - cal_day d)))) as (_ & _ & _ & ? & _); [apply H; lia|].
    lia. }
  destruct Hreset as (r & Hr & Hr0 & E1).
  assert (Hup' : forall j, (N.of_nat j < m)%N -> cal_day (d + Z.of_nat r + Z.of_nat j) = (1 + N.of_nat j)%N).
  { induction j as [|j IH]; intros ?; [rewrite Z.add_0_r; lia|].
    destruct (day_follows_spec (d + Z.of_nat r + Z.of_nat j)) as (_ & _ & _ & ? & E); [apply H; lia|].
    replace (d + Z.of_nat r + Z.of_nat (S j)) with (d + Z.of_nat r + Z.of_nat j + 1) by lia.
    rewrite IH in * by lia. lia. }
  exists (d + Z.of_nat r + Z.of_nat (N.to_nat m - 1)). split; [lia|]. rewrite Hup'; lia.
Qed.

Section Runs.
Context (c : cadence) (z : zone) (at_time : Z).
Hypothesis Hzone : zone_of c = Ok z.
Hypothesis Hfrequency : cd_frequency c <> s!"hourly".
Hypothesis Hat : cd_at_time c = Some at_time.
Hypothesis Hday : 0 <= at_time < NANOS_PER_DAY.
Hypothesis Hsamples : samples_enough z.
Hypothesis Hforward : dates_go_forward z.
Hypothesis Hreal : forall d, fires_on c d = true -> exists i, local_reading z i = d * NANOS_PER_DAY + at_time.

Lemma next_after_search after :
  next_after c after
  = ok_or (search_days c z at_time after MAX_LOOKAHEAD_DAYS (date_of (local_reading z after))) BackupInvalid.
Proof.
  unfold next_after. rewrite Hzone, Hat. cbn [result_bind ok_or].
  by rewrite (proj2 (str_eqb_neq _ _) Hfrequency).
Qed.

Lemma resolved_day d : fires_on c d = true ->
  let t := resolve_local z (d * NANOS_PER_DAY + at_time) in
  runs_at c z at_time t /\ date_of (local_reading z t) = d.
Proof.
  intros Hf. destruct (Hreal d Hf) as [i Hi].
  destruct (resolve_first z (d * NANOS_PER_DAY + at_time) i) as [Hr Hmin]; [|exact Hi|].
  { intros j Hj. rewrite <- Hj. apply Hsamples. }
  destruct (day_reading d at_time Hday) as [Hd Ha]. simpl. unfold runs_at. rewrite Hr, Hd, Ha.
  repeat split; auto.
Qed.

Lemma runs_at_resolved t : runs_at c z at_time t ->
  t = resolve_local z (date_of (local_reading z t) * NANOS_PER_DAY + at_time).
Proof.
  intros (Ha & Hf & Hmin).
  destruct (resolved_day _ Hf) as [(Ha' & _ & Hmin') Hd].
  set (t' := resolve_local _ _) in *.
  assert (local_reading z t' = local_reading z t)
    by (rewrite (split_reading (local_reading z t')), (split_reading (local_reading z t)); congruence).
  apply Z.le_antisymm; auto.
Qed.

Lemma next_after_least after t : forallb day_follows (search_window z after) = true ->
  next_after c after = Ok t ->
  after < t /\ runs_at c z at_time t
  /\ forall t', after < t' -> runs_at c z at_time t' -> t <= t'.
Proof.
  intros Hw. rewrite next_after_search.
  pose proof (search_days_spec c z at_time after MAX_LOOKAHEAD_DAYS (date_of (local_reading z after))) as Hs.
  destruct (search_days _ _ _ _ _ _) as [t0|]; [|done].
  intros [= ->]. destruct Hs as (k & Hk & Hf & -> & Hlt & Hprev).
  { intros k Hk. by destruct (day_follows_spec k (window_day z after k Hw Hk)). }
  destruct (resolved_day k Hf) as [Hruns Hdate]. split; [done|]. split; [done|].
  intros t' Ht' Hr'. rewrite (runs_at_resolved t' Hr') in Ht' |- *.
  pose proof Hr' as (_ & Hf' & _).
  pose proof (Hforward after t' ltac:(rewrite (runs_at_resolved t' Hr'); lia)) as Hge.
  set (d' := date_of (local_reading z t')) in *.
  destruct (Z.lt_trichotomy d' k) as [Hd|[->|Hd]]; [|lia|].
  - specialize (Hprev d' ltac:(lia) Hf'). lia.
  - destruct (resolved_day d' Hf') as [_ Hdate'].
    destruct (Z.le_gt_cases (resolve_local z (k * NANOS_PER_DAY + at_time)) (resolve_local z (d' * NANOS_PER_DAY + at_time)))
      as [|Hgt]; [done|].
    pose proof (Hforward _ _ (Z.lt_le_incl _ _ Hgt)). lia.
Qed.

Lemma next_after_dates after t t' : forallb day_follows (search_window z t) = true ->
  forallb day_follows (search_window z after) = true ->
  next_after c after = Ok t -> next_after c t = Ok t' ->
  date_of (local_reading z t) < date_of (local_reading z t').
Proof.
  intros Hw Hw' Ht Ht'.
  destruct (next_after_least _ _ Hw' Ht) as (_ & Hr & _).
  destruct (next_after_least _ _ Hw Ht') as (Hlt & Hr' & _).
  pose proof (Hforward t t' ltac:(lia)).
  destruct (Z.eq_dec (date_of (local_reading z t)) (date_of (local_reading z t'))) as [E|]; [|lia].
  apply runs_at_resolved in Hr, Hr'. rewrite Hr, Hr', E in Hlt. lia.
Qed.

Lemma next_after_answers after k :
  forallb day_follows (search_window z after) = true ->
  date_of (local_reading z after) < k < date_of (local_reading z after) + Z.of_nat MAX_LOOKAHEAD_DAYS ->
  fires_on c k = true -> exists t, next_after c after = Ok t.
Proof.
  intros Hw Hk Hf. rewrite next_after_search.
  pose proof (search_days_spec c z at_time after MAX_LOOKAHEAD_DAYS (date_of (local_reading z after))) as Hs.
  destruct (search_days _ _ _ _ _ _) as [t0|]; [by exists t0|].
  exfalso. specialize (Hs (fun d Hd => proj1 (day_follows_spec d (window_day z after d Hw Hd))) k ltac:(lia) Hf).
  destruct (resolved_day k Hf) as [_ Hdate].
  pose proof (Hforward _ _ Hs). lia.
Qed.
End Runs.

(** A daily, weekly or monthly schedule runs when it says: the next run is strictly after the
    given instant, is a reading of the schedule's time of day on a date it fires on, the first
    instant of a reading that happens twice, and no run lies in between; and two runs that follow
    each other are on different dates, so the hour the clocks repeat is taken once. *)
Theorem backup_runs_at_its_reading (c : cadence) (z : zone) (at_time after t : Z) :
  zone_of c = Ok z -> cd_frequency c <> s!"hourly" -> cd_at_time c = Some at_time -> 0 <= at_time < NANOS_PER_DAY ->
  samples_enough z -> dates_go_forward z ->
  (forall d, fires_on c d = true -> exists i, local_reading z i = d * NANOS_PER_DAY + at_time) ->
  forallb day_follows (search_window z after) = true -> next_after c after = Ok t ->
  after < t /\ runs_at c z at_time t
  /\ (forall t', after < t' -> runs_at c z at_time t' -> t <= t')
  /\ (forallb day_follows (search_window z t) = true -> forall t', next_after c t = Ok t' ->
      date_of (local_reading z t) < date_of (local_reading z t')).
Proof.
  intros Hz Hf Ha Hd Hs Hfw Hr Hw Hn.
  destruct (next_after_least c z at_time Hz Hf Ha Hd Hs Hfw Hr after t Hw Hn) as (Hlt & Hruns & Hmin).
  do 3 (split; [done|]). intros Hw' t' Ht'. exact (next_after_dates c z at_time Hz Hf Ha Hd Hs Hfw Hr after t t' Hw' Hw Hn Ht').
Qed.

Lemma from_schedule_fields s c : from_schedule s = Ok c ->
  cd_frequency c = bs_frequency s /\ cd_timezone c = bs_timezone s
  /\ cd_day_of_week c = weekday_of <$> bs_day_of_week s
  /\ cd_day_of_month c = (fun day => day mod 256) <$> bs_day_of_month s
  /\ (bs_frequency s <> s!"hourly" -> is_given (cd_at_time c) = true).
Proof.
  unfold from_schedule. intros H. apply result_bind_ok in H as (a & Ha & H). injection H as <-.
  cbn [cd_frequency cd_timezone cd_day_of_week cd_day_of_month cd_at_time]. do 4 (split; [reflexivity|]). intros Hf. rewrite (proj2 (str_eqb_neq _ _) Hf) in Ha.
  destruct (bs_at_time s); [|discriminate Ha].
  apply result_bind_ok in Ha as (x & _ & Ha). injection Ha as <-. reflexivity.
Qed.

Lemma schedule_fires s c d n :
  schema_schedule s = true -> from_schedule s = Ok c ->
  (forall k, d <= k < d + Z.of_nat n -> day_follows k = true) -> (31 < n)%nat ->
  exists k, d <= k < d + 31 /\ fires_on c k = true.
Proof.
  intros Hs Hc Hw Hn. destruct (from_schedule_fields s c Hc) as (Hf & _ & Hdow & Hdom & _).
  unfold schema_schedule in Hs. unfold fires_on. rewrite Hf, Hdow, Hdom.
  apply andb_true_iff in Hs as [Hs _]. apply andb_true_iff in Hs as [Hs Hm].
  apply andb_true_iff in Hs as [Hs Hk]. apply andb_true_iff in Hs as [Hs Hmr].
  apply andb_true_iff in Hs as [_ Hwr]. apply Bool.eqb_prop in Hm, Hk.
  destruct (str_eqb (bs_frequency s) s!"hourly"); [exists d; split; [lia|done]|].
  destruct (str_eqb (bs_frequency s) s!"daily"); [exists d; split; [lia|done]|].
  destruct (str_eqb (bs_frequency s) s!"weekly").
  { destruct (bs_day_of_week s) as [w|]; [|done].
    destruct (weekday_reached d n (weekday_of w) Hw ltac:(lia)) as (k & ? & ?).
    { unfold weekday_of. bool_prop. destruct ((0 <=? w) && (w <=? 5)) eqn:E; bool_prop; lia. }
    exists k. split; [lia|]. simpl. apply bool_decide_eq_true. congruence. }
  destruct (str_eqb (bs_frequency s) s!"monthly"); [|exists d; split; [lia|done]].
  destruct (bs_day_of_month s) as [m|]; [|done]. bool_prop.
  destruct (day_reached d n (Z.to_N m) Hw Hn ltac:(lia)) as (k & ? & ?).
  exists k. split; [lia|]. simpl. rewrite Z.mod_small by lia. bool_prop. lia.
Qed.

(** A schedule the table accepts never goes silent: whatever the instant it is asked at, a next
    run is found within the forty days searched; an hourly one within the hour, on the hour of UTC. *)
Theorem stored_schedule_always_runs_next (s : backup_schedule) (c : cadence) (z : zone) (after : Z) :
  schema_schedule s = true -> from_schedule s = Ok c -> zone_of c = Ok z ->
  (forall a, cd_at_time c = Some a -> 0 <= a < NANOS_PER_DAY) ->
  samples_enough z -> dates_go_forward z ->
  (forall d a, cd_at_time c = Some a -> fires_on c d = true -> exists i, local_reading z i = d * NANOS_PER_DAY + a) ->
  forallb day_follows (search_window z after) = true ->
  exists t, next_after c after = Ok t
    /\ (bs_frequency s = s!"hourly" -> after < t <= after + NANOS_PER_HOUR /\ t mod NANOS_PER_HOUR = 0).
Proof.
  intros Hs Hc Hz Ha Hsm Hfw Hr Hw. destruct (from_schedule_fields s c Hc) as (Hf & _ & _ & _ & Hat).
  destruct (decide (bs_frequency s = s!"hourly")) as [Hh|Hh].
  - exists (after - after mod NANOS_PER_HOUR + NANOS_PER_HOUR). unfold next_after. rewrite Hz, Hf, Hh. simpl.
    split; [done|]. intros _.
    assert (0 < NANOS_PER_HOUR) by (unfold NANOS_PER_HOUR, NANOS_PER_SECOND; lia).
    pose proof (Z.mod_pos_bound after NANOS_PER_HOUR ltac:(lia)). split; [lia|].
    replace (after - after mod NANOS_PER_HOUR + NANOS_PER_HOUR) with ((after / NANOS_PER_HOUR + 1) * NANOS_PER_HOUR)
      by (pose proof (Z_div_mod_eq_full after NANOS_PER_HOUR); lia).
    apply Z_mod_mult.
  - destruct (cd_at_time c) as [a|] eqn:Ea; [|by specialize (Hat Hh)].
    set (today := date_of (local_reading z after)).
    destruct (schedule_fires s c (today + 1) 39 Hs Hc) as (k & Hk & Hfk); [|lia|].
    { intros k Hk. apply (window_day z after); [done|]. unfold MAX_LOOKAHEAD_DAYS. lia. }
    rewrite <- Hf in Hh.
    destruct (next_after_answers c z a Hz Hh Ea (Ha a eq_refl) Hsm Hfw (fun d => Hr d a eq_refl) after k Hw)
      as [t Ht]; [unfold MAX_LOOKAHEAD_DAYS; lia|done|].
    exists t. split; [done|]. congruence.
Qed.
End Cadence.

(** ** Concrete zones and the witnesses *)

(** Instants from seconds, and a zone that is an hour ahead between two instants. *)
Definition seconds_since_epoch (s : Z) : Z := s * NANOS_PER_SECOND.
Definition hour_ahead (base first last : Z) (i : Z) : Z :=
  if (seconds_since_epoch first <=? i) && (i <? seconds_since_epoch last) then base + 3600 else base.

(** London in 2026: clocks go forward on March 29 and back on October 25, at 01:00 UTC. *)
Definition london : Z -> Z := hour_ahead 0 1774746000 1792890000.
(** New York: summer time ends on 2025-11-02, 06:00 UTC, begins on 2026-03-08, 07:00 UTC, and ends
    on 2026-11-01, 06:00 UTC. *)
Definition new_york (i : Z) : Z :=
  if i <? seconds_since_epoch 1762063200 then -14400 else hour_ahead (-18000) 1772953200 1793512800 i.

Definition sample_zone_by_name (name : str) : option (Z -> Z) :=
  if str_eqb name s!"UTC" then Some (fun _ => 0)
  else if str_eqb name s!"Europe/London" then Some london
  else if str_eqb name s!"America/New_York" then Some new_york
  else if str_eqb name s!"Asia/Kolkata" then Some (fun _ => 19800)
  else None.

Definition two_digits (text : str) : option Z :=
  if (length text =? 2)%nat then Z.of_N <$> parse_unsigned u8_max text else None.
Definition sample_clock (text : str) : option Z :=
  '(hour, minute) ← split_once c!":" text;
  h ← two_digits hour;
  m ← two_digits minute;
  if (h <? 24) && (m <? 60) then Some ((h * 60 + m) * NANOS_PER_MINUTE) else None.

#[export] Instance sample_zones : TimeZones := {|
  zone := Z -> Z;
  zone_by_name := sample_zone_by_name;
  zone_offset := fun z i => z i;
  utc_offset := fun s => if (-93600 <? s) && (s <? 93600) then Some s else None;
  date_ok := fun _ => true;
  clock_full := fun _ => None;
  clock_short := sample_clock
|}.

Definition nightly (frequency timezone : str) (at_time : option str) (day_of_month : option Z) : backup_schedule :=
  BackupSchedule 1 None s!"nightly" frequency at_time None day_of_month timezone [s!"database"] 7 s!"local" true
    None None None 0 0.

(** A reading the clocks skip is meant to run once they have jumped, at 03:30 for 02:30; the
    smallest candidate is an hour below the offset before the jump when a sample half a year away
    is in summer time, so a daily 02:30 in New York runs at 04:30 on 2026-03-08. *)
Theorem skipped_reading_runs_too_late :
  exists c, from_schedule (nightly s!"daily" s!"America/New_York" (Some s!"02:30") None) = Ok c
    /\ next_after c (seconds_since_epoch 1772884800) = Ok (seconds_since_epoch 1772958600)
    /\ local_reading new_york (seconds_since_epoch 1772958600) mod NANOS_PER_DAY = (4 * 60 + 30) * NANOS_PER_MINUTE.
Proof. eexists. split; [vm_compute; reflexivity|]. split; vm_compute; reflexivity. Qed.

(** An hourly schedule is on the hour of UTC, which is not an hour of the clock in every zone. *)
Theorem hourly_is_not_on_the_local_hour :
  exists c, from_schedule (nightly s!"hourly" s!"Asia/Kolkata" None None) = Ok c
    /\ next_after c (seconds_since_epoch 1772884801) = Ok (seconds_since_epoch 1772888400)
    /\ local_reading (fun _ => 19800) (seconds_since_epoch 1772888400) mod NANOS_PER_HOUR = 30 * NANOS_PER_MINUTE.
Proof. eexists. split; [vm_compute; reflexivity|]. split; vm_compute; reflexivity. Qed.

Lemma sample_candidates (z : Z -> Z) local x :
  (forall i, -50000 <= z i <= 50000) ->
  x ∈ [z (date_of local * NANOS_PER_DAY + local mod NANOS_PER_DAY);
       z (date_of local * NANOS_PER_DAY + local mod NANOS_PER_DAY) + 3600;
       z (date_of local * NANOS_PER_DAY + local mod NANOS_PER_DAY) - 3600] ->
  x ∈ candidate_offsets z local.
Proof.
  intros Hz Hx. unfold candidate_offsets. rewrite sort_by_perm.
  assert (Hadd : forall out s, -90000 <= s <= 90000 -> s ∈ push_candidate out s).
  { intros out s Hs. unfold push_candidate. simpl.
    replace ((-93600 <? s) && (s <? 93600)) with true by (symmetry; bool_prop; lia). simpl.
    destruct (existsb (Z.eqb s) out) eqn:E.
    - apply existsb_elem in E as (y & Hy & E). bool_prop. by subst.
    - apply elem_of_app. right. left. }
  assert (Hkeep : forall out s y, y ∈ out -> y ∈ push_candidate out s).
  { intros out s y Hy. unfold push_candidate. destruct (existsb _ out); [done|]. apply elem_of_app. by left. }
  assert (Hsample : forall out shift y, y ∈ out -> y ∈ sample_offsets z local out shift).
  { intros out shift y Hy. unfold sample_offsets. cbn [date_ok sample_zones fold_left].
    by do 3 apply Hkeep. }
  cbn [fold_left]. apply Hsample. unfold sample_offsets at 1. cbn [date_ok zone_offset sample_zones fold_left].
  rewrite Z.add_0_r. set (base := z _) in *. assert (-50000 <= base <= 50000) by apply Hz.
  apply elem_of_cons in Hx as [->|Hx]; [do 2 apply Hkeep; apply Hadd; lia|].
  apply elem_of_cons in Hx as [->|Hx]; [apply Hkeep; apply Hadd; lia|].
  apply list_elem_of_singleton in Hx as ->. apply Hadd; lia.
Qed.

Lemma london_samples : samples_enough london.
Proof.
  intros i. apply sample_candidates.
  - intros j. unfold london, hour_ahead. destruct (_ && _); lia.
  - cbn [zone_offset sample_zones]. unfold london, hour_ahead. set (a := _ && _). set (b := _ && _).
    destruct a, b; set_solver.
Qed.

Lemma london_forward : dates_go_forward london.
Proof.
  intros i j Hij. unfold local_reading, london, hour_ahead, seconds_since_epoch, NANOS_PER_SECOND,
    date_of, NANOS_PER_DAY, NANOS_PER_MINUTE. cbn [zone_offset sample_zones].
  destruct ((1774746000 * 1000000000 <=? i) && _) eqn:Ei; destruct ((1774746000 * 1000000000 <=? j) && _) eqn:Ej;
    bool_prop; try (apply Z.div_le_mono; lia).
  destruct Ej as [|]; [lia|].
  transitivity ((1792890000 * 1000000000) `div` (1440 * 60000000000)); [|apply Z.div_le_mono; lia].
  apply Z.lt_succ_r. apply Z.div_lt_upper_bound; [lia|].
  assert ((1792890000 * 1000000000) `div` (1440 * 60000000000) = 20751) as -> by reflexivity. lia.
Qed.

(** The 25th of each month at 01:30 in London: on 2026-10-25 that reading comes twice. *)
Definition monthly_london : backup_schedule := nightly s!"monthly" s!"Europe/London" (Some s!"01:30") (Some 25).
Definition monthly_cadence : cadence :=
  Cadence s!"monthly" (Some (90 * NANOS_PER_MINUTE)) None (Some 25) s!"Europe/London".

Lemma london_readings d : fires_on monthly_cadence d = true ->
  exists i, local_reading london i = d * NANOS_PER_DAY + 90 * NANOS_PER_MINUTE.
Proof.
  intros Hf. set (r := d * NANOS_PER_DAY + 90 * NANOS_PER_MINUTE).
  assert (Hd : d <> 20541) by (intros ->; vm_compute in Hf; discriminate).
  unfold local_reading, london, hour_ahead, seconds_since_epoch, NANOS_PER_SECOND. cbn [zone_offset sample_zones].
  assert (Hr : r = d * 86400000000000 + 5400000000000) by (unfold r, NANOS_PER_DAY, NANOS_PER_MINUTE; lia).
  destruct (Z.ltb_spec r (1774746000 * 1000000000)).
  - exists r. destruct ((_ <=? r) && _) eqn:E; bool_prop; lia.
  - destruct (Z.ltb_spec r (1792890000 * 1000000000 + 3600 * 1000000000)).
    + exists (r - 3600 * 1000000000). destruct (_ && _) eqn:E; bool_prop; lia.
    + exists r. destruct ((_ <=? r) && _) eqn:E; bool_prop; lia.
Qed.

Lemma backup_runs_at_its_reading_witness :
  next_after monthly_cadence (seconds_since_epoch 1792843200) = Ok (seconds_since_epoch 1792888200)
  /\ runs_at (TZ := sample_zones) monthly_cadence london (90 * NANOS_PER_MINUTE) (seconds_since_epoch 1792888200).
Proof.
  assert (Hn : next_after monthly_cadence (seconds_since_epoch 1792843200) = Ok (seconds_since_epoch 1792888200))
    by (vm_compute; reflexivity).
  split; [exact Hn|].
  refine (proj1 (proj2 (backup_runs_at_its_reading (TZ := sample_zones) monthly_cadence london (90 * NANOS_PER_MINUTE) _ _
    _ _ _ _ london_samples london_forward london_readings _ Hn))).
  - reflexivity.
  - intros [=].
  - reflexivity.
  - split; [discriminate|reflexivity].
  - vm_compute. reflexivity.
Defined.

Lemma stored_schedule_always_runs_next_witness :
  exists t, next_after monthly_cadence (seconds_since_epoch 1792888200) = Ok t.
Proof.
  destruct (stored_schedule_always_runs_next (TZ := sample_zones) monthly_london monthly_cadence london (seconds_since_epoch 1792888200))
    as (t & Ht & _).
  - vm_compute. reflexivity.
  - vm_compute. reflexivity.
  - reflexivity.
  - intros a [= <-]. split; [discriminate|reflexivity].
  - exact london_samples.
  - exact london_forward.
  - intros d a [= <-]. exact (london_readings d).
  - vm_compute. reflexivity.
  - exists t. exact Ht.
Defined.
