(* ===== verification/Backups.v ===== *)
(** * Backup runs: [crates/backup/src/part.rs], [restore.rs], [store.rs], [sweep.rs],
      [destination.rs], [purge.rs]

    The parts of a run and its terminal status, the manifest and its verification, the preview of
    a restore with its price, the rows of runs, and the retention sweep. The destination's files
    are a parameter, as are SHA-256 and the text of a JSON document. *)

From S2P Require Import Prelude Json Cadence.

Definition PARTS : list str := [s!"database"; s!"media"; s!"configuration"; s!"themes"; s!"plugins"].
Definition MAX_LABEL_LENGTH : nat := 80.
Definition MAX_ERROR_LENGTH : nat := 500.

Inductive part_status := PQueued | PRunning | PDone | PFailed.
Inductive run_status := RQueued | RRunning | RSucceeded | RPartial | RFailed.
#[export] Instance part_status_eq_dec : EqDecision part_status.
Proof. solve_decision. Defined.
#[export] Instance run_status_eq_dec : EqDecision run_status.
Proof. solve_decision. Defined.

Definition part_status_as_str (s : part_status) : str :=
  match s with PQueued => s!"queued" | PRunning => s!"running" | PDone => s!"done" | PFailed => s!"failed" end.
Definition part_status_parse (value : str) : result part_status backup_error :=
  if str_eqb value s!"queued" then Ok PQueued
  else if str_eqb value s!"running" then Ok PRunning
  else if str_eqb value s!"done" then Ok PDone
  else if str_eqb value s!"failed" then Ok PFailed
  else Err BackupInvalid.

Definition run_status_as_str (s : run_status) : str :=
  match s with
  | RQueued => s!"queued" | RRunning => s!"running" | RSucceeded => s!"succeeded" | RPartial => s!"partial"
  | RFailed => s!"failed"
  end.
Definition run_status_parse (value : str) : result run_status backup_error :=
  if str_eqb value s!"queued" then Ok RQueued
  else if str_eqb value s!"running" then Ok RRunning
  else if str_eqb value s!"succeeded" then Ok RSucceeded
  else if str_eqb value s!"partial" then Ok RPartial
  else if str_eqb value s!"failed" then Ok RFailed
  else Err BackupInvalid.

Record part := Part {
  p_part : str;
  p_status : part_status;
  p_item_count : Z;
  p_size_bytes : Z;
  p_checksum : option str;
  p_storage_path : option str;
  p_error : option str
}.

Definition truncate_error (message : str) : str :=
  if (length message <=? MAX_ERROR_LENGTH)%nat then message else take MAX_ERROR_LENGTH message ++ [8230%N].

Definition part_queued (name : str) : part := Part name PQueued 0 0 None None None.
Definition part_done (name : str) (item_count size_bytes : Z) (checksum storage_path : str) : part :=
  Part name PDone item_count size_bytes (Some checksum) (Some storage_path) None.
Definition part_failed (name error : str) : part := Part name PFailed 0 0 None None (Some (truncate_error error)).
Definition is_readable (p : part) : bool :=
  bool_decide (p_status p = PDone) && is_given (p_storage_path p) && is_given (p_checksum p).

(** ** What a run was asked for *)

Definition known_part (scope : str) : bool := existsb (str_eqb scope) PARTS.

Fixpoint has_duplicate (seen scopes : list str) : bool :=
  match scopes with
  | [] => false
  | scope :: rest => existsb (str_eqb scope) seen || has_duplicate (seen ++ [scope]) rest
  end.

Definition normalise_scopes (scopes : list str) : result (list str) backup_error :=
  refuse bool_decide (scopes = []) with BackupInvalid in
  refuse (length PARTS <? length scopes)%nat with BackupInvalid in
  refuse existsb (fun s => negb (known_part s)) scopes with BackupInvalid in
  refuse has_duplicate [] scopes with BackupInvalid in
  Ok (List.filter (fun p => existsb (str_eqb p) scopes) PARTS).

(** [char::is_control] *)
Definition is_control (c : char) : bool := (c <? 32)%N || in_range 127 159 c.
Definition validate_label (label : str) : result unit backup_error :=
  let trimmed := trim label in
  refuse (MAX_LABEL_LENGTH <? length trimmed)%nat with BackupInvalid in
  refuse existsb is_control trimmed with BackupInvalid in
  Ok tt.

(** ** The terminal status of a run *)

Definition has_part_status (s : part_status) (p : part) : bool := bool_decide (p_status p = s).

Definition summarise (parts : list part) : run_status :=
  let done := length (List.filter (has_part_status PDone) parts) in
  let failed := length (List.filter (has_part_status PFailed) parts) in
  if (failed =? 0)%nat && (done =? 0)%nat then RRunning
  else if (failed =? 0)%nat then RSucceeded
  else if (done =? 0)%nat then RFailed
  else RPartial.

(** [PARTS.iter().position(..).unwrap_or(usize::MAX)]: only the order of the keys matters. *)
Fixpoint position_in (name : str) (l : list str) : nat :=
  match l with [] => 0 | x :: l => if str_eqb x name then 0 else S (position_in name l) end.
Definition part_order (a b : part) : comparison :=
  Nat.compare (position_in (p_part a) PARTS) (position_in (p_part b) PARTS).

Definition summarise_failure (parts : list part) : option str :=
  let ordered := sort_by part_order (List.filter (has_part_status PFailed) parts) in
  let messages := List.filter (fun m => negb (str_eqb (trim m) [])) (omap p_error ordered) in
  match messages with [] => None | _ => Some (truncate_error (join s!"; " messages)) end.

(** ** The manifest *)

Definition MANIFEST_VERSION : Z := 1.
Record manifest := Manifest { m_backup_id : str; m_version : Z; m_parts : list part; m_created_at : str }.

Definition build_manifest (backup_id : str) (parts : list part) (created_at : str) : manifest :=
  Manifest backup_id MANIFEST_VERSION (sort_by part_order parts) created_at.

Record observed_part := ObservedPart { op_part : str; op_checksum : str; op_size_bytes : Z }.
Record verification := Verification {
  v_matched : list str;
  v_mismatched : list str;
  v_unreadable : list str;
  v_unexpected : list str
}.

Definition is_clean (v : verification) : bool :=
  bool_decide (v_mismatched v = []) && bool_decide (v_unreadable v = []) && bool_decide (v_unexpected v = []).

Definition find_observed (name : str) (observed : list observed_part) : option observed_part :=
  List.find (fun o => str_eqb (op_part o) name) observed.
Definition part_matches (p : part) (o : observed_part) : bool :=
  (p_size_bytes p =? op_size_bytes o) && bool_decide (p_checksum p = Some (op_checksum o)).

(** The loop over the manifest's parts: the names matched, mismatched and unreadable so far. *)
Definition verify_part (observed : list observed_part) (acc : list str * list str * list str) (p : part) :
  list str * list str * list str :=
  let '(matched, mismatched, unreadable) := acc in
  if negb (has_part_status PDone p) then acc
  else match find_observed (p_part p) observed with
       | None => (matched, mismatched, unreadable ++ [p_part p])
       | Some o => if part_matches p o then (matched ++ [p_part p], mismatched, unreadable)
                   else (matched, mismatched ++ [p_part p], unreadable)
       end.

Definition verify_manifest (m : manifest) (observed : list observed_part) : verification :=
  let unexpected := op_part <$> List.filter (fun o => negb (existsb (fun p => str_eqb (p_part p) (op_part o)) (m_parts m))) observed in
  let '(matched, mismatched, unreadable) := fold_left (verify_part observed) (m_parts m) ([], [], []) in
  Verification (sort_by str_cmp matched) (sort_by str_cmp mismatched) (sort_by str_cmp unreadable)
    (sort_by str_cmp unexpected).

Section Documents.
Context `{J : JsonNumber}.
(** [serde_json::Value]'s text and hex SHA-256, of a text and of bytes. *)
Context (json_text : value -> str) (sha256_text : str -> str) (sha256_bytes : list Z -> str).

Definition opt_string (o : option str) : value := match o with Some s => VString s | None => VNull end.
Definition part_json (p : part) : value :=
  VObject [(s!"checksum", opt_string (p_checksum p)); (s!"item_count", VNumber (number_of_Z (p_item_count p)));
           (s!"part", VString (p_part p)); (s!"size_bytes", VNumber (number_of_Z (p_size_bytes p)));
           (s!"status", VString (part_status_as_str (p_status p)));
           (s!"storage_path", opt_string (p_storage_path p))].
Definition part_name_order (a b : part) : comparison := str_cmp (p_part a) (p_part b).
Definition canonical_json (m : manifest) : str :=
  json_text (VObject [(s!"backup_id", VString (m_backup_id m)); (s!"created_at", VString (m_created_at m));
    (s!"parts", VArray (part_json <$> sort_by part_name_order (m_parts m)));
    (s!"version", VNumber (number_of_Z (m_version m)))]).

Definition manifest_checksum (m : manifest) : str := sha256_text (canonical_json m).
Definition bytes_checksum (bytes : list Z) : str := sha256_bytes bytes.

(** ** Reading a run back

    [read_file] is the destination, [is_sealed] and [open] the framing of an encrypted artifact
    and its opening with the passphrase of the process, when there is one. *)
Section Destination.
Context (read_file : str -> option (list Z)) (is_sealed : list Z -> bool) (open : list Z -> option (list Z)).

Definition observe_part (sealer : bool) (p : part) : option observed_part :=
  relative ← p_storage_path p;
  bytes ← read_file relative;
  plaintext ← (if sealer then match (if is_sealed bytes then open bytes else Some bytes) with
                              | Some opened => Some opened
                              | None => if is_sealed bytes then None else Some bytes
                              end
               else if is_sealed bytes then None else Some bytes);
  Some (ObservedPart (p_part p) (bytes_checksum plaintext) (Z.of_nat (length plaintext))).

Definition observe (sealer : bool) (m : manifest) : list observed_part := omap (observe_part sealer) (m_parts m).

Record live_counts := LiveCounts { lc_total : Z; lc_matching : Z }.
Record part_evidence := PartEvidence { pe_part : part; pe_artifact : result (str * Z) unit; pe_live : live_counts }.
Definition no_live : live_counts := LiveCounts 0 0.

Definition read_artifact (p : part) : part_evidence :=
  PartEvidence p
    match p_storage_path p with
    | Some relative =>
        match read_file relative with
        | Some bytes => Ok (bytes_checksum bytes, Z.of_nat (length bytes))
        | None => Err tt
        end
    | None => Err tt
    end no_live.
Definition read_artifacts (m : manifest) : list part_evidence := read_artifact <$> m_parts m.
End Destination.
End Documents.

(** ** The price of a restore *)

Definition STALE_AFTER_DAYS : Z := 7.
Inductive restore_mode := Replace | Merge | Advisory.
Inductive warning_severity := Notice | Caution | Danger.
Inductive restore_warning_code :=
| StaleArchive | NotTheNewest | DataLoss | PartUnavailable | RunIncomplete | ManifestVersion | PassphraseRequired.
#[export] Instance restore_warning_code_eq_dec : EqDecision restore_warning_code.
Proof. solve_decision. Defined.

Definition for_part (name : str) : restore_mode :=
  if str_eqb name s!"database" || str_eqb name s!"media" then Replace
  else if str_eqb name s!"themes" || str_eqb name s!"plugins" then Advisory
  else Merge.
Definition is_destructive (m : restore_mode) : bool := match m with Replace => true | _ => false end.

Record restorable_part := RestorablePart {
  rp_part : str;
  rp_available : bool;
  rp_item_count : Z;
  rp_size_bytes : Z;
  rp_checksum : option str;
  rp_live_matches : Z;
  rp_live_dropped : Z;
  rp_mode : restore_mode
}.
Record restore_warning := RestoreWarning { rw_severity : warning_severity; rw_code : restore_warning_code }.
Record restore_preview := RestorePreview {
  pv_backup_id : str;
  pv_label : str;
  pv_finished_at : option str;
  pv_age_days : Z;
  pv_parts : list restorable_part;
  pv_warnings : list restore_warning;
  pv_restorable_bytes : Z;
  pv_total_live_dropped : Z;
  pv_total_live_matches : Z;
  pv_confirm_phrase : str;
  pv_restorable : bool
}.

Definition severity_rank (s : warning_severity) : nat := match s with Notice => 0 | Caution => 1 | Danger => 2 end.
Definition more_severe (a b : warning_severity) : warning_severity :=
  if (severity_rank a <=? severity_rank b)%nat then b else a.
Definition worst (p : restore_preview) : option warning_severity :=
  match rw_severity <$> pv_warnings p with [] => None | s :: l => Some (fold_left more_severe l s) end.
Definition warns (p : restore_preview) (code : restore_warning_code) : bool :=
  existsb (fun w => bool_decide (rw_code w = code)) (pv_warnings p).
Definition accepts (p : restore_preview) (typed : str) : bool :=
  negb (str_eqb (pv_confirm_phrase p) []) && str_eqb typed (pv_confirm_phrase p).
Definition available_parts (p : restore_preview) : list str := rp_part <$> List.filter rp_available (pv_parts p).

Definition live_dropped (l : live_counts) : Z := Z.max 0 (lc_total l - lc_matching l).

(** RFC 3339 text to epoch seconds, read at fixed byte positions. *)
Definition byte_text (b : Z) : char := Z.to_N b.
(** [str::parse::<i64>] on at most four bytes. *)
Definition parse_i64 (s : str) : option Z :=
  match s with
  | [] => None
  | c :: digits =>
      if (c =? c!"-")%N then (fun n => - Z.of_N n) <$> (match digits with [] => None | _ => digits_value 0 digits end)
      else if (c =? c!"+")%N then Z.of_N <$> (match digits with [] => None | _ => digits_value 0 digits end)
      else Z.of_N <$> digits_value 0 s
  end.
Definition slice_number (bytes : list Z) (first last : nat) : option Z :=
  parse_i64 (byte_text <$> take (last - first) (drop first bytes)).

Definition days_from_civil (year month day : Z) : Z :=
  let year := if month <=? 2 then year - 1 else year in
  let era := Z.quot (if 0 <=? year then year else year - 399) 400 in
  let yoe := year - era * 400 in
  let mp := (month + 9) mod 12 in
  let doy := Z.quot (153 * mp + 2) 5 + day - 1 in
  let doe := yoe * 365 + Z.quot yoe 4 - Z.quot yoe 100 + doy in
  era * 146097 + doe - 719468.

Definition parse_epoch (text : str) : option Z :=
  let bytes := mjoin (utf8_bytes <$> text) in
  if (length bytes <? 19)%nat || negb (nth 4 bytes 0 =? 45) || negb (nth 7 bytes 0 =? 45)
     || negb (nth 13 bytes 0 =? 58) then None
  else
    year ← slice_number bytes 0 4;
    month ← slice_number bytes 5 7;
    day ← slice_number bytes 8 10;
    hour ← slice_number bytes 11 13;
    minute ← slice_number bytes 14 16;
    second ← slice_number bytes 17 19;
    if negb ((1 <=? month) && (month <=? 12)) || negb ((1 <=? day) && (day <=? 31)) then None
    else Some (days_from_civil year month day * 86400 + hour * 3600 + minute * 60 + second).

(** The running totals of [build_preview]'s loop. *)
Record preview_totals := PreviewTotals { pt_bytes : Z; pt_dropped : Z; pt_matches : Z }.

Section Preview.
(** Hex SHA-256 of a text. *)
Context (sha256_text : str -> str).

Definition confirm_phrase (backup_id : str) : str :=
  let trimmed := trim backup_id in
  if str_eqb trimmed [] || negb (forallb (fun c => is_ascii_hexdigit c || (c =? c!"-")%N) trimmed) then []
  else s!"RESTORE " ++ take 8 (sha256_text trimmed).

Definition find_evidence (name : str) (evidence : list part_evidence) : option part_evidence :=
  List.find (fun e => str_eqb (p_part (pe_part e)) name) evidence.

(** Whether a part is available, and the checksum of what was read. *)
Definition part_available (entry : part) (found : option part_evidence) : bool * option str :=
  match found with
  | None => (false, None)
  | Some item =>
      match pe_artifact item with
      | Ok (checksum, size) => if negb (size =? p_size_bytes entry) then (false, None) else (true, Some checksum)
      | Err _ => (false, None)
      end
  end.

Definition preview_part (evidence : list part_evidence) (entry : part) : restorable_part :=
  let found := find_evidence (p_part entry) evidence in
  let mode := for_part (p_part entry) in
  let live := match found with Some item => pe_live item | None => no_live end in
  let '(available, checksum) := part_available entry found in
  RestorablePart (p_part entry) available (p_item_count entry) (p_size_bytes entry) checksum
    (if is_destructive mode then Z.max 0 (lc_matching live) else 0)
    (if is_destructive mode then Z.max 0 (live_dropped live) else 0) mode.

Definition add_part (evidence : list part_evidence) (t : preview_totals) (entry : part) : preview_totals :=
  let found := find_evidence (p_part entry) evidence in
  let live := match found with Some item => pe_live item | None => no_live end in
  if fst (part_available entry found) then
    PreviewTotals (pt_bytes t + Z.max 0 (p_size_bytes entry))
      (pt_dropped t + Z.max 0 (if is_destructive (for_part (p_part entry)) then live_dropped live else 0))
      (pt_matches t + Z.max 0 (lc_matching live))
  else t.

Definition preview_age (finished_at : option str) (now : Z) : Z :=
  match finished_at ≫= parse_epoch with Some then_ => Z.max 0 (now - then_) `quot` 86400 | None => 0 end.

Definition preview_warnings (m : manifest) (parts : list restorable_part) (restorable : bool) (age dropped : Z) :
  list restore_warning :=
  (if negb (m_version m =? MANIFEST_VERSION) then [RestoreWarning Danger ManifestVersion] else [])
  ++ (if existsb (fun p => negb (rp_available p)) parts then [RestoreWarning Caution PartUnavailable] else [])
  ++ (if existsb (fun p => negb (has_part_status PDone p)) (m_parts m) then [RestoreWarning Caution RunIncomplete] else [])
  ++ (if restorable && (STALE_AFTER_DAYS <=? age) then [RestoreWarning Caution StaleArchive] else [])
  ++ (if 0 <? dropped then [RestoreWarning Danger DataLoss] else []).

Definition build_preview (backup_id label : str) (m : manifest) (evidence : list part_evidence)
  (finished_at : option str) (now : Z) : restore_preview :=
  let parts := preview_part evidence <$> m_parts m in
  let totals := fold_left (add_part evidence) (m_parts m) (PreviewTotals 0 0 0) in
  let restorable := existsb rp_available parts in
  let age_days := preview_age finished_at now in
  RestorePreview backup_id label finished_at age_days parts
    (preview_warnings m parts restorable age_days (pt_dropped totals))
    (pt_bytes totals) (pt_dropped totals) (pt_matches totals)
    (if restorable then confirm_phrase backup_id else []) restorable.
End Preview.

(** ** Directories of runs

    [Path::join] of a relative path is the concatenation with a separator. *)
Definition trim_slashes (s : str) : str := trim_end_by (N.eqb c!"/") (trim_start_by (N.eqb c!"/") s).

Definition storage_prefix (prefix : str) : str :=
  let trimmed := trim_slashes (trim prefix) in
  if str_eqb trimmed [] then [] else s!"/" ++ trimmed ++ s!"/".

Definition path_join (base relative : str) : str :=
  if ends_with base s!"/" then base ++ relative else base ++ s!"/" ++ relative.

Definition local_root_for (root prefix : str) : str :=
  let normalised := storage_prefix prefix in
  if str_eqb normalised [] then trim root else path_join (trim root) (trim_slashes normalised).

Definition local_path_for (root key : str) : str :=
  let trimmed_key := trim_start_by (N.eqb c!"/") key in
  if str_eqb trimmed_key [] then trim root else path_join (trim root) trimmed_key.

Definition PART_EXTENSIONS : list (str * str) :=
  [(s!"database", s!"sql"); (s!"media", s!"json"); (s!"configuration", s!"json"); (s!"themes", s!"json");
   (s!"plugins", s!"json")].
Definition storage_key (prefix name : str) : str :=
  let extension := match List.find (fun e => str_eqb (fst e) name) PART_EXTENSIONS with
                   | Some (_, ext) => ext | None => s!"json" end in
  prefix ++ name ++ s!"." ++ extension.
Definition manifest_key (prefix : str) : str := prefix ++ s!"manifest.json".

Definition run_directory (root prefix : str) : result str backup_error :=
  let trimmed_root := trim root in
  refuse str_eqb trimmed_root [] with BackupInvalid in
  refuse negb (starts_with trimmed_root s!"/") with BackupInvalid in
  let normalised := storage_prefix prefix in
  refuse str_eqb normalised [] with BackupInvalid in
  refuse existsb (fun segment => str_eqb segment s!"..") (split_on c!"/" normalised) with BackupInvalid in
  Ok (local_root_for trimmed_root normalised).

(** What the removal of a directory reports; the file system performs it. *)
Record purge_report := PurgeReport { pr_removed_entries : Z; pr_failed_entries : Z }.
Definition is_complete (r : purge_report) : bool := pr_failed_entries r =? 0.

(** ** The rows of runs *)

Record backup := Backup {
  bk_id : Z;
  bk_organization_id : option Z;
  bk_label : str;
  bk_kind : str;
  bk_schedule_id : option Z;
  bk_scopes : list str;
  bk_status : run_status;
  bk_size_bytes : Z;
  bk_destination : str;
  bk_storage_prefix : str;
  bk_manifest : option manifest;   (* [None] is the empty document a new row holds *)
  bk_checksum : option str;
  bk_protected : bool;
  bk_retain_until : option Z;
  bk_error : option str;
  bk_created_by : option Z;
  bk_created_at : Z;
  bk_started_at : option Z;
  bk_finished_at : option Z
}.
Record backup_part := BackupPart { bp_backup_id : Z; bp_part : part; bp_started_at : option Z; bp_finished_at : option Z }.
Record backup_store := BackupStore { st_backups : list backup; st_parts : list backup_part }.

Record new_backup := NewBackup {
  nb_organization_id : option Z;
  nb_label : str;
  nb_kind : str;
  nb_schedule_id : option Z;
  nb_scopes : list str;
  nb_destination : str;
  nb_storage_prefix : str;
  nb_protected : bool;
  nb_retain_until : option Z;
  nb_created_by : option Z
}.

Definition insert_backup (id now : Z) (new : new_backup) (st : backup_store) : result (backup * backup_store) backup_error :=
  let? scopes := normalise_scopes (nb_scopes new) in
  require existsb (str_eqb (nb_kind new)) [s!"manual"; s!"scheduled"] else BackupInvalid in
  require existsb (str_eqb (nb_destination new)) [s!"local"; s!"s3"] else BackupInvalid in
  let row := Backup id (nb_organization_id new) (trim (nb_label new)) (nb_kind new) (nb_schedule_id new) scopes
    RQueued 0 (nb_destination new) (nb_storage_prefix new) None None (nb_protected new) (nb_retain_until new) None
    (nb_created_by new) now None None in
  Ok (row, BackupStore (st_backups st ++ [row])
             (st_parts st ++ ((fun scope => BackupPart id (part_queued scope) None None) <$> scopes))).

Definition in_scope (id : Z) (organization : option Z) (b : backup) : bool :=
  (bk_id b =? id) && bool_decide (bk_organization_id b = organization).
Definition find_backup (id : Z) (organization : option Z) (st : backup_store) : result backup backup_error :=
  ok_or (List.find (in_scope id organization) (st_backups st)) BackupNotFound.

Definition part_row_order (a b : backup_part) : comparison := str_cmp (p_part (bp_part a)) (p_part (bp_part b)).
Definition list_parts (id : Z) (st : backup_store) : list part :=
  bp_part <$> sort_by part_row_order (List.filter (fun r => bp_backup_id r =? id) (st_parts st)).

(** [insert .. on conflict (backup_id, part) do update]. *)
Definition is_part_row (id : Z) (name : str) (r : backup_part) : bool :=
  (bp_backup_id r =? id) && str_eqb (p_part (bp_part r)) name.
Definition part_row_ok (p : part) : bool := known_part (p_part p) && (0 <=? p_size_bytes p) && (0 <=? p_item_count p).
Definition save_part (id now : Z) (p : part) (st : backup_store) : result backup_store backup_error :=
  let p := Part (p_part p) (p_status p) (p_item_count p) (p_size_bytes p) (p_checksum p) (p_storage_path p)
             (truncate_error <$> p_error p) in
  let started := if has_part_status PQueued p then None else Some now in
  let finished := if has_part_status PDone p || has_part_status PFailed p then Some now else None in
  require existsb (fun b => bk_id b =? id) (st_backups st) && part_row_ok p else BackupDatabase in
  Ok (BackupStore (st_backups st)
    (if existsb (is_part_row id (p_part p)) (st_parts st) then
       (fun r => if is_part_row id (p_part p) r
                 then BackupPart id p (match bp_started_at r with Some at_ => Some at_ | None => started end) finished
                 else r) <$> st_parts st
     else st_parts st ++ [BackupPart id p started finished])).

Definition update_backup (p : backup -> bool) (f : backup -> backup) (st : backup_store) : backup_store :=
  BackupStore ((fun b => if p b then f b else b) <$> st_backups st) (st_parts st).

Definition with_status (b : backup) (status : run_status) (size : Z) (m : option manifest) (checksum error : option str)
  (started finished : option Z) : backup :=
  Backup (bk_id b) (bk_organization_id b) (bk_label b) (bk_kind b) (bk_schedule_id b) (bk_scopes b) status size
    (bk_destination b) (bk_storage_prefix b) m checksum (bk_protected b) (bk_retain_until b) error (bk_created_by b)
    (bk_created_at b) started finished.
Definition coalesce {A} (a b : option A) : option A := match a with Some x => Some x | None => b end.

Definition start_run (id now : Z) (st : backup_store) : backup_store :=
  update_backup (fun b => (bk_id b =? id) && bool_decide (bk_status b = RQueued))
    (fun b => with_status b RRunning (bk_size_bytes b) (bk_manifest b) (bk_checksum b) (bk_error b)
                (coalesce (bk_started_at b) (Some now)) (bk_finished_at b)) st.

(** The statements below answer the row they updated. *)
Definition returning (id : Z) (f : backup -> backup) (st : backup_store) : result (backup * backup_store) backup_error :=
  match List.find (fun b => bk_id b =? id) (st_backups st) with
  | None => Err BackupDatabase
  | Some b => Ok (f b, update_backup (fun b => bk_id b =? id) f st)
  end.

Definition set_prefix (id : Z) (prefix : str) : backup_store -> result (backup * backup_store) backup_error :=
  returning id (fun b =>
    Backup (bk_id b) (bk_organization_id b) (bk_label b) (bk_kind b) (bk_schedule_id b) (bk_scopes b) (bk_status b)
      (bk_size_bytes b) (bk_destination b) prefix (bk_manifest b) (bk_checksum b) (bk_protected b) (bk_retain_until b)
      (bk_error b) (bk_created_by b) (bk_created_at b) (bk_started_at b) (bk_finished_at b)).

(** [manifest_sha256] is the manifest's checksum ([manifest_checksum]). *)
Definition finish_run (manifest_sha256 : manifest -> str) (id_text : str) (id now : Z) (parts : list part)
  (manifest_created_at : str) : backup_store -> result (backup * backup_store) backup_error :=
  let status := summarise parts in
  let m := build_manifest id_text parts manifest_created_at in
  let size := fold_right (fun p total => p_size_bytes p + total) 0 parts in
  let error := summarise_failure parts in
  returning id (fun b => with_status b status size (Some m) (Some (manifest_sha256 m)) error
                           (coalesce (bk_started_at b) (Some now)) (Some now)).

(** The manifest of a run, empty while it has none. *)
Definition manifest_of (id_text created_text : str) (b : backup) : manifest :=
  match bk_manifest b with Some m => m | None => Manifest id_text MANIFEST_VERSION [] created_text end.

Definition set_protected (id : Z) (organization : option Z) (flag : bool) (st : backup_store) :
  result backup_store backup_error :=
  require existsb (in_scope id organization) (st_backups st) else BackupNotFound in
  Ok (update_backup (in_scope id organization)
    (fun b => Backup (bk_id b) (bk_organization_id b) (bk_label b) (bk_kind b) (bk_schedule_id b) (bk_scopes b)
       (bk_status b) (bk_size_bytes b) (bk_destination b) (bk_storage_prefix b) (bk_manifest b) (bk_checksum b) flag
       (bk_retain_until b) (bk_error b) (bk_created_by b) (bk_created_at b) (bk_started_at b) (bk_finished_at b)) st).

(** The parts of a deleted run go with it ([on delete cascade]). *)
Definition delete_backup (id : Z) (organization : option Z) (st : backup_store) : result backup_store backup_error :=
  require existsb (in_scope id organization) (st_backups st) else BackupNotFound in
  Ok (BackupStore (List.filter (fun b => negb (in_scope id organization b)) (st_backups st))
        (List.filter (fun r => negb (bp_backup_id r =? id)) (st_parts st))).

(** ** Retention *)

(** [desc nulls last] of an optional instant. *)
Definition latest_first (a b : option Z) : comparison :=
  match a, b with
  | Some a, Some b => b ?= a
  | Some _, None => Lt
  | None, Some _ => Gt
  | None, None => Eq
  end.
#[export] Instance latest_first_laws : CmpLaws latest_first.
Proof.
  split.
  - intros [a|] [b|]; simpl; [apply Z.compare_antisym|done..].
  - intros [a|] [b|] [c|]; simpl; rewrite ?Z.compare_le_iff; try done. lia.
Qed.

Definition newest_order (a b : backup) : comparison :=
  then_with (latest_first (bk_finished_at a) (bk_finished_at b)) (bk_created_at b ?= bk_created_at a).
#[export] Instance newest_order_laws : CmpLaws newest_order :=
  then_with_laws (fun a b => latest_first (bk_finished_at a) (bk_finished_at b))
    (fun a b => bk_created_at b ?= bk_created_at a).

Definition is_org (organization : option Z) (b : backup) : bool := bool_decide (bk_organization_id b = organization).
Definition is_restore_point (organization : option Z) (b : backup) : bool :=
  is_org organization b && bool_decide (bk_status b = RSucceeded) && negb (bk_protected b).
(** The run the sweep spares: the subquery of [prune_candidates]. *)
Definition newest_restore_point (organization : option Z) (st : backup_store) : option backup :=
  head (sort_by newest_order (List.filter (is_restore_point organization) (st_backups st))).

(** A comparison with the null a missing run yields is never true. *)
Definition prunable (organization : option Z) (now : Z) (st : backup_store) (b : backup) : bool :=
  is_org organization b
  && negb (bool_decide (bk_status b = RFailed) || bool_decide (bk_status b = RRunning))
  && negb (bk_protected b)
  && match bk_retain_until b with Some until_ => until_ <=? now | None => false end
  && match newest_restore_point organization st with Some n => negb (bk_id b =? bk_id n) | None => false end.

Definition PRUNE_LIMIT : nat := 100.
Definition expired_first (a b : backup) : comparison := default 0 (bk_retain_until a) ?= default 0 (bk_retain_until b).
Definition expired_backups (organization : option Z) (now : Z) (st : backup_store) : list backup :=
  sort_by expired_first (List.filter (prunable organization now st) (st_backups st)).
#[export] Instance expired_first_laws : CmpLaws expired_first :=
  on_laws (fun b => default 0 (bk_retain_until b)) Z.compare.
Definition prune_candidates (organization : option Z) (now : Z) (st : backup_store) : list backup :=
  take PRUNE_LIMIT (expired_backups organization now st).

Record sweep_report := SweepReport {
  sw_walked : nat;
  sw_candidates : nat;
  sw_removed : nat;
  sw_partial : nat;
  sw_failed : nat;
  sw_stranded : list (Z * str)
}.
Definition empty_report : sweep_report := SweepReport 0 0 0 0 0 [].
Definition MAX_REPORTED_STRANDED : nat := 5.
Definition is_idle (r : sweep_report) : bool :=
  (sw_removed r =? 0)%nat && (sw_partial r =? 0)%nat && (sw_failed r =? 0)%nat.

Section Sweep.
(** Removing a directory of the destination. *)
Context (remove_directory : str -> purge_report).

Definition remove_run_artifacts (root prefix : str) : result purge_report backup_error :=
  let? directory := run_directory root prefix in Ok (remove_directory directory).

(** The loop over the candidates. *)
Definition sweep_run (organization : option Z) (root : str) (acc : sweep_report * backup_store) (run : backup) :
  sweep_report * backup_store :=
  let '(r, st) := acc in
  let '(partial, stranded) :=
    match remove_run_artifacts root (bk_storage_prefix run) with
    | Ok purge => (negb (is_complete purge), sw_stranded r)
    | Err _ => (true, sw_stranded r ++ [(bk_id run, bk_storage_prefix run)])
    end in
  match delete_backup (bk_id run) organization st with
  | Err _ => (SweepReport (sw_walked r) (sw_candidates r) (sw_removed r) (sw_partial r) (sw_failed r) stranded, st)
  | Ok st =>
      (if partial
       then SweepReport (sw_walked r) (sw_candidates r) (sw_removed r) (S (sw_partial r)) (sw_failed r) stranded
       else SweepReport (sw_walked r) (sw_candidates r) (S (sw_removed r)) (sw_partial r) (sw_failed r) stranded, st)
  end.

Definition sweep_organization (organization : option Z) (root : str) (now : Z) (st : backup_store) :
  sweep_report * backup_store :=
  let candidates := prune_candidates organization now st in
  let '(r, st) := fold_left (sweep_run organization root) candidates
                    (SweepReport 1 (length candidates) 0 0 0 [], st) in
  (SweepReport (sw_walked r) (sw_candidates r) (sw_removed r) (sw_partial r) (sw_failed r)
     (take MAX_REPORTED_STRANDED (sw_stranded r)), st).

(** [group by organization_id order by min(created_at)] *)
Definition first_created (st : backup_store) (o : option Z) : Z :=
  match bk_created_at <$> List.filter (is_org o) (st_backups st) with
  | [] => 0
  | at_ :: rest => fold_left Z.min rest at_
  end.
Definition organizations_with_backups (batch : Z) (st : backup_store) : list (option Z) :=
  take (Z.to_nat (Z.max 1 (Z.min batch 500)))
    (sort_by (fun a b => first_created st a ?= first_created st b) (remove_dups (bk_organization_id <$> st_backups st))).

Definition add_report (total r : sweep_report) : sweep_report :=
  SweepReport (sw_walked total + sw_walked r) (sw_candidates total + sw_candidates r) (sw_removed total + sw_removed r)
    (sw_partial total + sw_partial r) (sw_failed total)
    (take MAX_REPORTED_STRANDED (sw_stranded total ++ sw_stranded r)).
Definition sweep_all (root : str) (now max_tenants : Z) (st : backup_store) : sweep_report * backup_store :=
  fold_left (fun '(total, st) o =>
      let '(r, st) := sweep_organization o root now st in (add_report total r, st))
    (organizations_with_backups max_tenants st) (empty_report, st).
End Sweep.

(** ** The sweep *)

Definition not_among (gone : list backup) (id : Z) : bool := negb (existsb (Z.eqb id) (bk_id <$> gone)).

Lemma id_among l id : existsb (Z.eqb id) (bk_id <$> l) = true <-> exists b, b ∈ l /\ bk_id b = id.
Proof.
  rewrite existsb_elem. split.
  - intros (x & Hx & E). apply list_elem_of_fmap in Hx as (b & -> & Hb). exists b. split; [done|]. bool_prop. done.
  - intros (b & Hb & <-). exists (bk_id b). split; [apply list_elem_of_fmap; eauto|apply Z.eqb_refl].
Qed.

Lemma delete_present b o st : NoDup (bk_id <$> st_backups st) -> b ∈ st_backups st -> bk_organization_id b = o ->
  delete_backup (bk_id b) o st
  = Ok (BackupStore (List.filter (fun x => negb (bk_id x =? bk_id b)) (st_backups st))
          (List.filter (fun r => negb (bp_backup_id r =? bk_id b)) (st_parts st))).
Proof.
  intros Hn Hb Ho. unfold delete_backup.
  replace (existsb (in_scope (bk_id b) o) (st_backups st)) with true.
  - do 2 f_equal. apply filter_ext_elem. intros x Hx. unfold in_scope.
    destruct (Z.eqb_spec (bk_id x) (bk_id b)) as [E|]; [|done].
    assert (x = b) as -> by by eapply (NoDup_key_inj bk_id). by rewrite bool_decide_true.
  - symmetry. apply existsb_elem. exists b. split; [done|]. unfold in_scope. rewrite Z.eqb_refl. by rewrite bool_decide_true.
Qed.

Lemma sweep_runs remove o root l : forall r st,
  NoDup (bk_id <$> st_backups st) -> NoDup (bk_id <$> l) ->
  (forall b, b ∈ l -> b ∈ st_backups st /\ bk_organization_id b = o) ->
  exists r', fold_left (sweep_run remove o root) l (r, st)
    = (r', BackupStore (List.filter (fun b => not_among l (bk_id b)) (st_backups st))
             (List.filter (fun p => not_among l (bp_backup_id p)) (st_parts st)))
    /\ (sw_removed r' + sw_partial r' = sw_removed r + sw_partial r + length l)%nat
    /\ sw_candidates r' = sw_candidates r.
Proof.
  induction l as [|b l IH]; intros r st Hn Hl Hin; cbn [fold_left].
  { exists r. split; [|split; [simpl; lia|done]]. rewrite !forallb_filter_id by by apply forallb_elem.
    by destruct st. }
  destruct (Hin b ltac:(left)) as [Hb Ho].
  apply NoDup_cons in Hl as [Hfresh Hl].
  set (st1 := BackupStore (List.filter (fun x => negb (bk_id x =? bk_id b)) (st_backups st))
                (List.filter (fun p => negb (bp_backup_id p =? bk_id b)) (st_parts st))).
  assert (Hstep : exists r1, sweep_run remove o root (r, st) b = (r1, st1)
    /\ (sw_removed r1 + sw_partial r1 = S (sw_removed r + sw_partial r))%nat /\ sw_candidates r1 = sw_candidates r).
  { unfold sweep_run. rewrite (delete_present b o st Hn Hb Ho).
    destruct (remove_run_artifacts _ _ _) as [purge|]; [destruct (negb (is_complete purge))|];
      eexists; split_and!; try reflexivity; simpl; lia. }
  destruct Hstep as (r1 & -> & Hsum & Hc).
  destruct (IH r1 st1) as (r' & Hf & Hsum' & Hc'); [|done| |].
  - unfold st1. simpl. by apply NoDup_filter_keys.
  - intros x Hx. destruct (Hin x ltac:(by right)) as [Hx' Hox]. split; [|done].
    unfold st1. simpl. apply elem_of_filter_bool. split; [done|]. bool_prop. intros E. apply Hfresh.
    rewrite <- E. apply list_elem_of_fmap. eauto.
  - exists r'. rewrite Hf. split; [|split; [simpl; lia|congruence]].
    f_equal. unfold st1. simpl. rewrite !filter_filter_bool.
    f_equal; apply filter_ext_elem; intros x _; unfold not_among; simpl; by rewrite negb_orb.
Qed.

Lemma not_among_take n S : NoDup (bk_id <$> S) ->
  List.filter (fun b => not_among (take n S) (bk_id b)) S = drop n S.
Proof.
  intros Hn. transitivity (List.filter (fun b => not_among (take n S) (bk_id b)) (take n S ++ drop n S));
    [by rewrite take_drop|]. rewrite List.filter_app.
  assert (Hd : NoDup (bk_id <$> (take n S ++ drop n S))) by by rewrite take_drop.
  rewrite fmap_app, NoDup_app in Hd. destruct Hd as (_ & Hdis & _).
  assert (List.filter (fun b => not_among (take n S) (bk_id b)) (take n S) = []) as ->.
  { apply filter_none. intros b Hb. unfold not_among. apply negb_false_iff, id_among. eauto. }
  apply forallb_filter_id, forallb_elem. intros b Hb. unfold not_among.
  apply negb_true_iff, not_true_iff_false. rewrite id_among. intros (b' & Hb' & E).
  apply (Hdis (bk_id b')); [apply list_elem_of_fmap; eauto|]. rewrite E. apply list_elem_of_fmap. eauto.
Qed.

Lemma candidates_prunable o now st b : b ∈ prune_candidates o now st ->
  b ∈ st_backups st /\ prunable o now st b = true.
Proof.
  unfold prune_candidates, expired_backups. intros Hb.
  apply (sublist_subseteq _ _ (sublist_take _ _)) in Hb.
  rewrite sort_by_perm in Hb. by apply elem_of_filter_bool in Hb.
Qed.

Lemma prunable_spec o now st b : prunable o now st b = true ->
  bk_organization_id b = o /\ bk_status b <> RFailed /\ bk_status b <> RRunning /\ bk_protected b = false
  /\ (exists until_, bk_retain_until b = Some until_ /\ until_ <= now)
  /\ exists n, newest_restore_point o st = Some n /\ bk_id b <> bk_id n.
Proof.
  unfold prunable, is_org. intros H.
  apply andb_true_iff in H as [H Hnew]. apply andb_true_iff in H as [H Hret]. apply andb_true_iff in H as [H Hp].
  apply andb_true_iff in H as [Ho Hs]. bool_prop.
  destruct (bk_retain_until b) as [u|]; [|done]. destruct (newest_restore_point o st) as [n|]; [|done].
  bool_prop. split_and!; try tauto; eauto.
Qed.

Lemma newest_kept o st (p : backup -> bool) n :
  newest_restore_point o st = Some n -> p n = true ->
  newest_restore_point o (BackupStore (List.filter p (st_backups st)) (st_parts st)) = Some n.
Proof.
  unfold newest_restore_point. cbn [st_backups]. intros Hn Hp. rewrite filter_comm_bool, (sort_by_filter newest_order).
  destruct (sort_by _ _) as [|x l]; [done|]. injection Hn as ->. simpl. by rewrite Hp.
Qed.

(** A run an organization can go back to, the later of two, and one the sweep may remove. *)
Definition restore_point (o : option Z) (st : backup_store) (b : backup) : Prop :=
  b ∈ st_backups st /\ bk_organization_id b = o /\ bk_status b = RSucceeded /\ bk_protected b = false.
Definition finished_before (a b : backup) : Prop :=
  match bk_finished_at a, bk_finished_at b with
  | Some x, Some y => x < y \/ x = y /\ bk_created_at a < bk_created_at b
  | None, Some _ => True
  | None, None => bk_created_at a < bk_created_at b
  | Some _, None => False
  end.
Definition latest (o : option Z) (st : backup_store) (n : backup) : Prop :=
  restore_point o st n /\ forall b, restore_point o st b -> ~ finished_before n b.
Definition past_retention (o : option Z) (now : Z) (b : backup) : Prop :=
  bk_organization_id b = o /\ bk_protected b = false /\ bk_status b <> RRunning /\ bk_status b <> RFailed
  /\ exists until_, bk_retain_until b = Some until_ /\ until_ <= now.

Lemma finished_before_order a b : finished_before a b -> newest_order a b = Gt.
Proof.
  unfold finished_before, newest_order, then_with, latest_first. destruct (bk_finished_at a) as [x|], (bk_finished_at b) as [y|]; try done.
  - intros [H|[-> H]]; [by rewrite (proj2 (Z.compare_gt_iff y x) H)|]. rewrite Z.compare_refl. by apply Z.compare_gt_iff.
  - intros H. by apply Z.compare_gt_iff.
Qed.

Lemma restore_points_elem o st b : b ∈ List.filter (is_restore_point o) (st_backups st) <-> restore_point o st b.
Proof.
  rewrite elem_of_filter_bool. unfold is_restore_point, is_org, restore_point. rewrite !andb_true_iff, !bool_decide_eq_true, negb_true_iff. tauto.
Qed.

Lemma newest_latest o st n : newest_restore_point o st = Some n -> latest o st n.
Proof.
  unfold newest_restore_point. destruct (sort_by newest_order _) as [|x l] eqn:E; [done|]. intros [= ->].
  destruct (sort_by_head newest_order _ _ _ E) as [Hn Hle]. split; [by apply restore_points_elem|].
  intros b Hb%restore_points_elem Hlt%finished_before_order. by apply (Hle b Hb).
Qed.

Lemma newest_none o st : newest_restore_point o st = None -> forall b, ~ restore_point o st b.
Proof.
  unfold newest_restore_point. destruct (sort_by newest_order _) as [|x l] eqn:E; [|done]. intros _ b Hb%restore_points_elem.
  rewrite <- (sort_by_elem newest_order), E in Hb. by apply elem_of_nil in Hb.
Qed.

Lemma prunable_expired o now st b n : newest_restore_point o st = Some n ->
  prunable o now st b = true <-> past_retention o now b /\ bk_id b <> bk_id n.
Proof.
  intros En. unfold prunable, past_retention, is_org. rewrite En, !andb_true_iff, bool_decide_eq_true, !negb_true_iff, orb_false_iff, !bool_decide_eq_false, Z.eqb_neq.
  destruct (bk_retain_until b) as [u|]; [rewrite Z.leb_le|]; naive_solver.
Qed.

Lemma candidates_expired o now st b : b ∈ prune_candidates o now st -> b ∈ st_backups st /\ past_retention o now b.
Proof. intros [Hb (? & ? & ? & ? & ? & _)%prunable_spec]%candidates_prunable. by split_and!. Qed.

(** What a sweep leaves, when the newest run is still the newest. *)
Lemma spared_run o now st st' : NoDup (bk_id <$> st_backups st) ->
  (forall b, b ∈ st_backups st' -> b ∈ st_backups st /\ b ∉ prune_candidates o now st) ->
  newest_restore_point o st' = newest_restore_point o st ->
  ((forall b, ~ restore_point o st b) /\ prune_candidates o now st = [])
  \/ exists spared, latest o st spared /\ latest o st' spared
     /\ forall b, b ∈ st_backups st' -> past_retention o now b -> b = spared
          \/ length (prune_candidates o now st) = 100%nat
             /\ forall g, g ∈ prune_candidates o now st -> default 0 (bk_retain_until g) <= default 0 (bk_retain_until b).
Proof.
  intros Hn Hst' Hnew. destruct (newest_restore_point o st) as [n|] eqn:En.
  - right. pose proof (newest_latest o st n En) as Hl. exists n. split_and!; [done|by apply newest_latest|].
    intros b [Hb Hg]%Hst' He. destruct (decide (bk_id b = bk_id n)) as [E|E]; [left; by apply (NoDup_key_inj bk_id (st_backups st)); [done..|apply Hl|]|right].
    assert (b ∈ List.filter (prunable o now st) (st_backups st)) as Hp by (apply elem_of_filter_bool; split; [done|]; by apply (prunable_expired o now st b n)).
    unfold prune_candidates, expired_backups in *. split.
    + rewrite batch_length. destruct (le_lt_dec (length (List.filter (prunable o now st) (st_backups st))) PRUNE_LIMIT); [by destruct Hg; apply batch_all|].
      unfold PRUNE_LIMIT in *. lia.
    + intros g Hgg. pose proof (batch_first _ expired_first _ g b Hgg Hp Hg) as Hle. unfold expired_first in Hle. by apply Z.compare_le_iff.
  - left. split; [by apply newest_none|]. destruct (prune_candidates o now st) as [|b l] eqn:E; [done|].
    destruct (candidates_prunable o now st b) as [_ (_ & _ & _ & _ & _ & m & Hm & _)%prunable_spec]; [rewrite E; by left|]. congruence.
Qed.

(** C27. The retention sweep keeps what an operator can go back to. The runs it removes were all expired:
    of the organization, past their date, neither protected, running nor failed; the rows of the others
    and of their parts stay as they were. It spares the successful run, not protected, that finished
    last, and this is still the last afterwards; of the other expired runs it removes all, or a hundred
    that expired no later than those left. An organization without such a run keeps everything. What is
    left to remove is what was left out, so sweeping again goes on from there. *)
Theorem sweep_keeps_restore_points (remove : str -> purge_report) (o : option Z) (root : str) (now : Z) (st : backup_store) :
  NoDup (bk_id <$> st_backups st) ->
  let '(report, st') := sweep_organization remove o root now st in
  exists gone, NoDup (bk_id <$> gone)
  /\ st_backups st' = List.filter (fun b => not_among gone (bk_id b)) (st_backups st)
  /\ st_parts st' = List.filter (fun p => not_among gone (bp_backup_id p)) (st_parts st)
  /\ (forall b, b ∈ gone -> b ∈ st_backups st /\ past_retention o now b)
  /\ (((forall b, ~ restore_point o st b) /\ gone = [])
      \/ exists spared, latest o st spared /\ latest o st' spared
         /\ forall b, b ∈ st_backups st' -> past_retention o now b -> b = spared
              \/ length gone = 100%nat /\ forall g, g ∈ gone -> default 0 (bk_retain_until g) <= default 0 (bk_retain_until b))
  /\ expired_backups o now st' = drop PRUNE_LIMIT (expired_backups o now st)
  /\ (sw_removed report + sw_partial report = length gone)%nat.
Proof.
  intros Hn. unfold sweep_organization. set (gone := prune_candidates o now st).
  assert (Hin : forall b, b ∈ gone -> b ∈ st_backups st /\ bk_organization_id b = o).
  { intros b Hb. destruct (candidates_prunable _ _ _ _ Hb) as [? Hp]. apply prunable_spec in Hp as [? _]. done. }
  assert (HS : NoDup (bk_id <$> expired_backups o now st)).
  { unfold expired_backups. rewrite (sort_by_perm expired_first). by apply NoDup_filter_keys. }
  assert (Hg : NoDup (bk_id <$> gone)).
  { unfold gone, prune_candidates. eapply sublist_NoDup; [|apply fmap_sublist, sublist_take]. exact HS. }
  destruct (sweep_runs remove o root gone (SweepReport 1 (length gone) 0 0 0 []) st Hn Hg Hin) as (r & -> & Hsum & _).
  cbn [st_backups st_parts]. set (st' := BackupStore _ _).
  assert (Hnew : newest_restore_point o st' = newest_restore_point o st).
  { destruct (newest_restore_point o st) as [n|] eqn:E.
    - change (newest_restore_point o st') with (newest_restore_point o
        (BackupStore (List.filter (fun b => not_among gone (bk_id b)) (st_backups st)) (st_parts st))).
      apply newest_kept; [done|]. unfold not_among. apply negb_true_iff, not_true_iff_false. rewrite id_among.
      intros (b & Hb & Eid). destruct (candidates_prunable _ _ _ _ Hb) as [_ Hp].
      apply prunable_spec in Hp as (_ & _ & _ & _ & _ & n' & E' & ?). congruence.
    - assert (gone = []) as Hg0.
      { destruct gone as [|b gone'] eqn:Eg; [done|]. destruct (candidates_prunable o now st b) as [_ Hp].
        { fold gone. rewrite Eg. left. }
        apply prunable_spec in Hp as (_ & _ & _ & _ & _ & n' & E' & ?). congruence. }
      unfold st'. rewrite Hg0, forallb_filter_id by by apply forallb_elem. exact E. }
  exists gone. split_and!; [done..|intros b Hb; exact (candidates_expired o now st b Hb)|apply (spared_run o now st st' Hn); [|done]| |simpl in *; lia].
  { intros b [Hb Hkeep]%elem_of_filter_bool. split; [done|]. intros H. unfold not_among in Hkeep. apply negb_true_iff, not_true_iff_false in Hkeep. apply Hkeep, id_among. by exists b. }
  unfold expired_backups at 1. unfold st' at 2. cbn [st_backups]. rewrite filter_comm_bool, (sort_by_filter expired_first).
  rewrite (filter_ext_elem (prunable o now st') (prunable o now st)) by (intros b _; unfold prunable; by rewrite Hnew).
  by apply not_among_take.
Qed.

(** Nothing of an organization is ever pruned while it has no successful run that is not
    protected: the comparison with the missing run is never true, so partial runs pile up. *)
Theorem nothing_is_pruned_without_a_success (o : option Z) (now : Z) (st : backup_store) :
  (forall b, b ∈ st_backups st -> is_restore_point o b = false) -> prune_candidates o now st = [].
Proof.
  intros H. destruct (prune_candidates o now st) as [|b l] eqn:E; [done|].
  destruct (candidates_prunable o now st b) as [_ Hp]; [rewrite E; left|].
  apply prunable_spec in Hp as (_ & _ & _ & _ & _ & n & Hn & _). unfold newest_restore_point in Hn.
  destruct (sort_by newest_order _) as [|x l'] eqn:Es; [done|].
  destruct (sort_by_head _ _ _ _ Es) as [Hx _]. apply elem_of_filter_bool in Hx as [Hx Hr]. by rewrite H in Hr.
Qed.

(** ** Verification *)

(** The names of the parts a run produced that pass a test on what was read under their name. *)
Definition produced_names (observed : list observed_part) (m : list part) (f : part -> option observed_part -> bool) : list str :=
  p_part <$> List.filter (fun p => has_part_status PDone p && f p (find_observed (p_part p) observed)) m.
Definition agrees (p : part) (o : option observed_part) : bool := match o with Some o => part_matches p o | None => false end.
Definition disagrees (p : part) (o : option observed_part) : bool :=
  match o with Some o => negb (part_matches p o) | None => false end.
Definition is_absent (p : part) (o : option observed_part) : bool := negb (is_given o).

Lemma verify_parts observed l matched mismatched unreadable :
  fold_left (verify_part observed) l (matched, mismatched, unreadable)
  = (matched ++ produced_names observed l agrees, mismatched ++ produced_names observed l disagrees,
     unreadable ++ produced_names observed l is_absent).
Proof.
  unfold produced_names. revert matched mismatched unreadable.
  induction l as [|p l IH]; intros; cbn [fold_left List.filter]; [by rewrite !app_nil_r|].
  unfold verify_part at 2. destruct (has_part_status PDone p); cbn [negb andb]; [|apply IH].
  unfold agrees at 1, disagrees at 1, is_absent at 1.
  destruct (find_observed (p_part p) observed) as [ob|]; [destruct (part_matches p ob)|];
    cbn [negb is_given]; rewrite IH, !fmap_cons, <- ?(assoc_L (++)); reflexivity.
Qed.

Lemma produced_names_elem observed l f x : x ∈ produced_names observed l f <->
  exists p, (p ∈ l /\ p_status p = PDone) /\ p_part p = x /\ f p (find_observed x observed) = true.
Proof.
  unfold produced_names. rewrite list_elem_of_fmap. split.
  - intros (p & -> & Hp). apply elem_of_filter_bool in Hp as [? Hp]. apply andb_true_iff in Hp as [Hs ?].
    unfold has_part_status in Hs. bool_prop. exists p. tauto.
  - intros (p & [? Hs] & <- & ?). exists p. split; [done|]. apply elem_of_filter_bool. split; [done|].
    unfold has_part_status. by rewrite bool_decide_true.
Qed.

Lemma part_matches_spec p o :
  part_matches p o = true <-> p_size_bytes p = op_size_bytes o /\ p_checksum p = Some (op_checksum o).
Proof. unfold part_matches. bool_prop. tauto. Qed.

Lemma agrees_spec p o : agrees p o = true <->
  exists ob, o = Some ob /\ p_size_bytes p = op_size_bytes ob /\ p_checksum p = Some (op_checksum ob).
Proof.
  destruct o as [ob|]; simpl; [|split; [done|intros (? & ? & _); done]].
  rewrite part_matches_spec. split; [eauto|]. by intros (? & [= <-] & ?).
Qed.
Lemma disagrees_spec p o : disagrees p o = true <->
  exists ob, o = Some ob /\ (p_size_bytes p <> op_size_bytes ob \/ p_checksum p <> Some (op_checksum ob)).
Proof.
  destruct o as [ob|]; simpl; [|split; [done|intros (? & ? & _); done]].
  unfold part_matches. bool_prop. split; [eauto|]. by intros (? & [= <-] & ?).
Qed.

Lemma produced_names_nil observed l f :
  produced_names observed l f = [] <-> forall p, p ∈ l -> p_status p = PDone -> f p (find_observed (p_part p) observed) = false.
Proof.
  split.
  - intros H p Hp Hs. destruct (f _ _) eqn:E; [|done].
    assert (p_part p ∈ produced_names observed l f) as Hx by (apply produced_names_elem; eauto). rewrite H in Hx. by apply not_elem_of_nil in Hx.
  - intros H. destruct (produced_names observed l f) as [|x xs] eqn:E; [done|].
    assert (x ∈ produced_names observed l f) as Hx by (rewrite E; left).
    apply produced_names_elem in Hx as (p & [? ?] & <- & Hf). by rewrite H in Hf.
Qed.

Definition unexpected_names (observed : list observed_part) (l : list part) : list str :=
  op_part <$> List.filter (fun o => negb (existsb (fun p => str_eqb (p_part p) (op_part o)) l)) observed.

Lemma unexpected_names_nil observed l :
  unexpected_names observed l = [] <-> forall o, o ∈ observed -> exists p, p ∈ l /\ p_part p = op_part o.
Proof.
  unfold unexpected_names. split.
  - intros H o Ho. apply fmap_nil_inv in H. destruct (existsb (fun p => str_eqb (p_part p) (op_part o)) l) eqn:E.
    + apply existsb_elem in E as (p & ? & ?). bool_prop. eauto.
    + assert (o ∈ @nil observed_part) as []%not_elem_of_nil.
      rewrite <- H. apply elem_of_filter_bool. by rewrite E.
  - intros H. rewrite filter_none; [done|].
    intros o Ho. destruct (H o Ho) as (p & Hp & E). apply negb_false_iff, existsb_elem. exists p.
    split; [done|]. by apply str_eqb_eq.
Qed.

Lemma verify_manifest_lists m observed :
  verify_manifest m observed = Verification
    (sort_by str_cmp (produced_names observed (m_parts m) agrees))
    (sort_by str_cmp (produced_names observed (m_parts m) disagrees))
    (sort_by str_cmp (produced_names observed (m_parts m) is_absent))
    (sort_by str_cmp (unexpected_names observed (m_parts m))).
Proof. unfold verify_manifest. by rewrite verify_parts. Qed.

(** A part that the run produced, and what was read under its name agreeing with its record. *)
Definition produced_part (m : manifest) (p : part) : Prop := p ∈ m_parts m /\ p_status p = PDone.
Definition as_recorded (p : part) (o : observed_part) : Prop :=
  p_size_bytes p = op_size_bytes o /\ p_checksum p = Some (op_checksum o).

Lemma verify_matched m observed x : x ∈ v_matched (verify_manifest m observed) <->
  exists p, produced_part m p /\ p_part p = x /\ exists o, find_observed x observed = Some o /\ as_recorded p o.
Proof.
  rewrite verify_manifest_lists. cbn [v_matched]. rewrite (sort_by_perm str_cmp), produced_names_elem.
  by setoid_rewrite agrees_spec.
Qed.

Lemma verify_mismatched m observed x : x ∈ v_mismatched (verify_manifest m observed) <->
  exists p, produced_part m p /\ p_part p = x
    /\ exists o, find_observed x observed = Some o /\ (p_size_bytes p <> op_size_bytes o \/ p_checksum p <> Some (op_checksum o)).
Proof.
  rewrite verify_manifest_lists. cbn [v_mismatched]. rewrite (sort_by_perm str_cmp), produced_names_elem.
  by setoid_rewrite disagrees_spec.
Qed.

Lemma verify_clean m observed : is_clean (verify_manifest m observed) = true <->
  (forall p, produced_part m p -> exists o, find_observed (p_part p) observed = Some o /\ as_recorded p o)
  /\ forall o, o ∈ observed -> exists p, p ∈ m_parts m /\ p_part p = op_part o.
Proof.
  rewrite verify_manifest_lists. unfold is_clean. cbn [v_matched v_mismatched v_unreadable v_unexpected].
  rewrite !andb_true_iff, !bool_decide_eq_true, !(sort_by_nil str_cmp), !produced_names_nil, unexpected_names_nil.
  split; intros [H He]; (split; [|done]).
  - destruct H as [Hd Ha]. intros p [Hp Hs]. specialize (Hd p Hp Hs). specialize (Ha p Hp Hs). unfold is_absent in Ha.
    apply agrees_spec. unfold agrees. unfold disagrees in Hd. destruct (find_observed _ _); [by apply negb_false_iff|done].
  - split; intros p Hp Hs; destruct (H p (conj Hp Hs)) as (o & E & Hr); rewrite E; [|done].
    simpl. apply negb_false_iff, part_matches_spec, Hr.
Qed.

(** Verification classifies every part the run produced: it matches when the first thing read
    under its name has its size and its checksum, mismatches when it does not, and is unreadable
    when nothing was; and the verdict is clean exactly when every produced part matches and
    nothing else was found. *)
Theorem verify_manifest_classifies (m : manifest) (observed : list observed_part) :
  let v := verify_manifest m observed in
  (forall x, x ∈ v_matched v <-> exists p, produced_part m p /\ p_part p = x
      /\ exists o, find_observed x observed = Some o /\ as_recorded p o)
  /\ (forall x, x ∈ v_mismatched v <-> exists p, produced_part m p /\ p_part p = x
      /\ exists o, find_observed x observed = Some o /\ (p_size_bytes p <> op_size_bytes o \/ p_checksum p <> Some (op_checksum o)))
  /\ (forall x, x ∈ v_unreadable v <-> exists p, produced_part m p /\ p_part p = x /\ find_observed x observed = None)
  /\ (is_clean v = true <->
      (forall p, produced_part m p -> exists o, find_observed (p_part p) observed = Some o /\ as_recorded p o)
      /\ forall o, o ∈ observed -> exists p, p ∈ m_parts m /\ p_part p = op_part o).
Proof.
  cbv zeta. split_and!; [apply verify_matched|apply verify_mismatched| |apply verify_clean].
  - intros x. rewrite verify_manifest_lists. cbn [v_unreadable]. rewrite (sort_by_perm str_cmp), produced_names_elem. unfold is_absent.
    split; intros (p & ? & ? & E); exists p; [by destruct (find_observed _ _)|by rewrite E].
Qed.

(** ** Manifests of the same artifacts *)

Lemma sorted_names_unique (l l' : list part) :
  NoDup (p_part <$> l) -> l ≡ₚ l' -> sort_by part_name_order l = sort_by part_name_order l'.
Proof.
  intros Hn Hp. set (cmp := part_name_order).
  assert (CmpLaws cmp) by exact (on_laws p_part str_cmp).
  apply (StronglySorted_unique_strong (cmp_le cmp)); [|apply (sort_by_sorted cmp)..|by rewrite !(sort_by_perm cmp)].
  intros x y Hx Hy Hxy Hyx. rewrite (sort_by_perm cmp) in Hx, Hy. rewrite <- Hp in Hy.
  apply (NoDup_key_inj p_part l x y Hn Hx Hy). apply str_cmp_eq.
  unfold cmp_le, cmp, part_name_order in *. pose proof (cmp_flip str_cmp (p_part x) (p_part y)) as F.
  destruct (str_cmp (p_part x) (p_part y)); [done|rewrite F in Hyx; done|done].
Qed.

(** The checksum of a manifest is a matter of what the run produced: the order the parts arrived
    in plays no part in it. *)
Theorem manifest_checksum_ignores_order `{J : JsonNumber} (json_text : value -> str) (sha256_text : str -> str)
  (backup_id created_at : str) (parts parts' : list part) :
  NoDup (p_part <$> parts) -> parts ≡ₚ parts' ->
  manifest_checksum json_text sha256_text (build_manifest backup_id parts created_at)
  = manifest_checksum json_text sha256_text (build_manifest backup_id parts' created_at).
Proof.
  intros Hn Hp. unfold manifest_checksum, canonical_json, build_manifest. cbn [m_backup_id m_version m_parts m_created_at].
  rewrite (sorted_names_unique (sort_by part_order parts) (sort_by part_order parts')); [done| |].
  - by rewrite (sort_by_perm part_order).
  - by rewrite !(sort_by_perm part_order).
Qed.

(** ** Scopes and statuses *)

Lemma has_duplicate_spec l seen : NoDup seen ->
  (has_duplicate seen l = false <-> NoDup (seen ++ l)).
Proof.
  revert seen; induction l as [|x l IH]; intros seen Hs; simpl; [by rewrite app_nil_r|].
  rewrite orb_false_iff.
  assert (Hx : existsb (str_eqb x) seen = false <-> x ∉ seen).
  { rewrite <- not_true_iff_false, existsb_elem. split; intros H Hin.
    - apply H. exists x. by rewrite str_eqb_refl.
    - destruct Hin as (y & Hy & E). apply str_eqb_eq in E as ->. done. }
  rewrite Hx. split.
  - intros [Hni Hd]. rewrite IH, <- (assoc_L (++)) in Hd; [done|].
    apply NoDup_app. split; [done|]. split; [set_solver|]. apply NoDup_singleton.
  - intros H. assert (x ∉ seen) as Hni by (apply NoDup_app in H as (_ & H & _); set_solver).
    split; [done|]. rewrite IH; [by rewrite <- (assoc_L (++))|].
    apply NoDup_app. split; [done|]. split; [set_solver|]. apply NoDup_singleton.
Qed.

Lemma normalised_scopes scopes out : normalise_scopes scopes = Ok out -> out ≡ₚ scopes.
Proof.
  unfold normalise_scopes. destruct (bool_decide _); [done|]. destruct (_ <? _)%nat; [done|].
  destruct (existsb (fun s => negb (known_part s)) scopes) eqn:Hk; [done|].
  destruct (has_duplicate [] scopes) eqn:Hd; [done|]. set (kept := List.filter _ PARTS). intros H. ok_inv H. subst out kept.
  apply has_duplicate_spec in Hd; [|constructor].
  assert (HP : NoDup PARTS) by (apply (bool_decide_unpack _); vm_compute; exact I).
  apply NoDup_Permutation; [by eapply sublist_NoDup; [exact HP|apply sublist_filter]|done|].
  intros x. rewrite elem_of_filter_bool, existsb_elem. split.
  - intros (_ & y & Hy & E). by apply str_eqb_eq in E as ->.
  - intros Hx. split; [|exists x; by rewrite str_eqb_refl].
    destruct (known_part x) eqn:E.
    + apply existsb_elem in E as (y & Hy & E). by apply str_eqb_eq in E as ->.
    + apply not_true_iff_false in Hk. exfalso. apply Hk, existsb_elem. exists x. by rewrite E.
Qed.

(** A request is accepted exactly when it names at least one part, only known ones and none
    twice; the answer then names the same parts in the order a run executes them. *)
Theorem normalise_scopes_exact (scopes : list str) :
  (is_ok (normalise_scopes scopes) = true <-> scopes <> [] /\ NoDup scopes /\ forall s, s ∈ scopes -> s ∈ PARTS)
  /\ forall out, normalise_scopes scopes = Ok out -> out ≡ₚ scopes /\ sublist out PARTS.
Proof.
  assert (Hk : existsb (fun s => negb (known_part s)) scopes = false <-> forall s, s ∈ scopes -> s ∈ PARTS).
  { rewrite <- not_true_iff_false, existsb_elem. unfold known_part. split.
    - intros H s Hs. destruct (existsb (str_eqb s) PARTS) eqn:E; [|exfalso; apply H; exists s; by rewrite E].
      apply existsb_elem in E as (y & Hy & E). by apply str_eqb_eq in E as ->.
    - intros H (s & Hs & E). apply negb_true_iff, not_true_iff_false in E. apply E, existsb_elem. exists s.
      split; [auto|apply str_eqb_refl]. }
  assert (Hd : has_duplicate [] scopes = false <-> NoDup scopes) by (apply has_duplicate_spec; constructor).
  assert (HP : NoDup PARTS) by (apply (bool_decide_unpack _); vm_compute; exact I).
  assert (Hlen : NoDup scopes -> (forall s, s ∈ scopes -> s ∈ PARTS) -> (length scopes <= length PARTS)%nat)
    by (intros ? ?; apply submseteq_length, NoDup_submseteq; auto).
  unfold normalise_scopes. split.
  - rewrite <- Hd, <- Hk. destruct (bool_decide_reflect (scopes = [])); [simpl; naive_solver|].
    destruct (existsb (fun s => negb (known_part s)) scopes) eqn:Ek, (has_duplicate [] scopes) eqn:Ed;
      destruct (length PARTS <? length scopes)%nat eqn:El; simpl; try naive_solver.
    apply Nat.ltb_lt in El. specialize (Hlen (proj1 Hd eq_refl) (proj1 Hk eq_refl)). lia.
  - intros out H. split; [by apply normalised_scopes|]. set (kept := List.filter _ PARTS) in H. ok_inv H. subst out kept.
    apply sublist_filter.
Qed.

(** The status of a run is what its parts say: partial exactly when some part was produced and
    some failed, failed when parts failed and none was produced, still running when neither. *)
Theorem summarise_reads_the_parts (parts : list part) :
  let done := exists p, p ∈ parts /\ p_status p = PDone in
  let failed := exists p, p ∈ parts /\ p_status p = PFailed in
  (summarise parts = RPartial <-> done /\ failed) /\ (summarise parts = RFailed <-> failed /\ ~ done)
  /\ (summarise parts = RSucceeded <-> done /\ ~ failed) /\ (summarise parts = RRunning <-> ~ done /\ ~ failed).
Proof.
  assert (Hc : forall s, (length (List.filter (has_part_status s) parts) =? 0)%nat = false
    <-> exists p, p ∈ parts /\ p_status p = s).
  { intros s. rewrite Nat.eqb_neq. split.
    - destruct (List.filter (has_part_status s) parts) as [|p l] eqn:E; [done|]. intros _. exists p.
      assert (p ∈ List.filter (has_part_status s) parts) as Hp by (rewrite E; left).
      apply elem_of_filter_bool in Hp as [? Hp]. unfold has_part_status in Hp. by bool_prop.
    - intros (p & Hp & Hs) E. apply length_zero_iff_nil in E.
      assert (p ∈ List.filter (has_part_status s) parts) as Hin.
      { apply elem_of_filter_bool. split; [done|]. unfold has_part_status. by rewrite bool_decide_true. }
      rewrite E in Hin. by apply not_elem_of_nil in Hin. }
  cbv zeta. unfold summarise. rewrite <- !Hc.
  destruct (_ =? 0)%nat, (length (List.filter (has_part_status PDone) parts) =? 0)%nat; simpl;
    split_and!; (split; [intros ?|intros [? ?]]; try done; try (split; done); exfalso; auto).
Qed.

(** ** The preview of a restore *)

Definition sum_over {A} (f : A -> Z) (l : list A) : Z := fold_right (fun x s => f x + s) 0 l.

Lemma preview_totals_sum evidence l t :
  let avail := List.filter (fun p => fst (part_available p (find_evidence (p_part p) evidence))) l in
  pt_bytes (fold_left (add_part evidence) l t) = pt_bytes t + sum_over (fun p => Z.max 0 (p_size_bytes p)) avail
  /\ pt_dropped (fold_left (add_part evidence) l t)
     = pt_dropped t + sum_over (fun p => rp_live_dropped (preview_part evidence p)) avail.
Proof.
  cbv zeta. revert t; induction l as [|p l IH]; intros t; cbn [fold_left List.filter]; [simpl; lia|].
  destruct (IH (add_part evidence t p)) as [-> ->]. unfold add_part.
  destruct (fst (part_available p _)) eqn:E; [|done]. simpl.
  unfold preview_part. destruct (part_available p _) as [a c]. cbn [rp_live_dropped].
  destruct (is_destructive _); split; lia.
Qed.

Lemma preview_part_available evidence p :
  rp_available (preview_part evidence p) = fst (part_available p (find_evidence (p_part p) evidence)).
Proof. unfold preview_part. by destruct (part_available p _). Qed.

Lemma dropped_nonneg evidence p : 0 <= rp_live_dropped (preview_part evidence p).
Proof. unfold preview_part. destruct (part_available p _), (is_destructive _); simpl; lia. Qed.

Lemma sum_over_nonneg {A} (f : A -> Z) l : (forall x, x ∈ l -> 0 <= f x) -> 0 <= sum_over f l.
Proof.
  induction l as [|x l IH]; intros H; simpl; [lia|].
  assert (0 <= f x) by (apply H; left). specialize (IH ltac:(intros; apply H; by right)). lia.
Qed.

Lemma sum_over_pos {A} (f : A -> Z) l : (forall x, x ∈ l -> 0 <= f x) ->
  (0 < sum_over f l <-> exists x, x ∈ l /\ 0 < f x).
Proof.
  induction l as [|x l IH]; intros H; simpl.
  - split; [lia|]. intros (y & Hy & _). by apply not_elem_of_nil in Hy.
  - assert (0 <= f x) by (apply H; left).
    assert (Hl : forall y, y ∈ l -> 0 <= f y) by (intros; apply H; by right).
    pose proof (sum_over_nonneg f l Hl). destruct (Z.ltb_spec 0 (f x)).
    + split; [|lia]. intros _. exists x. split; [left|done].
    + transitivity (0 < sum_over f l); [lia|]. rewrite (IH Hl). split; intros (y & Hy & ?); exists y; split; try done.
      * by right.
      * apply elem_of_cons in Hy as [->|]; [lia|done].
Qed.

Lemma part_available_spec p e : fst (part_available p e) = true <->
  exists item checksum, e = Some item /\ pe_artifact item = Ok (checksum, p_size_bytes p).
Proof.
  unfold part_available. destruct e as [item|]; [|split; [done|by intros (? & ? & ? & _)]].
  destruct (pe_artifact item) as [[checksum size]|] eqn:Ea; [|split; [done|intros (? & ? & [= <-] & ?); congruence]].
  destruct (Z.eqb_spec size (p_size_bytes p)) as [->|]; simpl; (split; [intros|]); try done; [eauto|].
  intros (? & ? & [= <-] & E). congruence.
Qed.

Section Offered.
Context (sha256_text : str -> str) (backup_id label : str) (m : manifest) (evidence : list part_evidence)
  (finished_at : option str) (now : Z).
Let pv := build_preview sha256_text backup_id label m evidence finished_at now.

(** The parts of the manifest a preview offers. *)
Definition offered : list part := List.filter (fun p => rp_available (preview_part evidence p)) (m_parts m).

Lemma offered_elem p : p ∈ offered <-> p ∈ m_parts m /\ exists item checksum,
  find_evidence (p_part p) evidence = Some item /\ pe_artifact item = Ok (checksum, p_size_bytes p).
Proof. unfold offered. by rewrite elem_of_filter_bool, preview_part_available, part_available_spec. Qed.

Lemma offered_totals :
  pv_restorable_bytes pv = sum_over (fun p => Z.max 0 (p_size_bytes p)) offered
  /\ pv_total_live_dropped pv = sum_over (fun p => rp_live_dropped (preview_part evidence p)) offered.
Proof.
  destruct (preview_totals_sum evidence (m_parts m) (PreviewTotals 0 0 0)) as [Hb Hd].
  unfold offered. rewrite (filter_ext_elem (fun p => rp_available (preview_part evidence p)) _ _
    (fun p _ => preview_part_available evidence p)).
  split; [exact Hb|exact Hd].
Qed.

Lemma offered_restorable : pv_restorable pv = true <-> offered <> [].
Proof.
  unfold pv, build_preview, offered. cbn [pv_restorable].
  induction (m_parts m) as [|p l IH]; [done|]. simpl. by destruct (rp_available (preview_part evidence p)).
Qed.

Lemma offered_names : available_parts pv = p_part <$> offered.
Proof.
  unfold available_parts, pv, build_preview, offered. cbn [pv_parts].
  induction (m_parts m) as [|p l IH]; [done|]. cbn [fmap list_fmap List.filter].
  destruct (rp_available (preview_part evidence p)); [|exact IH].
  cbn [fmap list_fmap]. f_equal; [|exact IH]. unfold preview_part. by destruct (part_available p _).
Qed.

Lemma offered_loss :
  warns pv DataLoss = true <-> exists p, p ∈ offered /\ 0 < rp_live_dropped (preview_part evidence p).
Proof.
  rewrite <- (sum_over_pos (fun p => rp_live_dropped (preview_part evidence p)))
    by (intros; apply dropped_nonneg).
  rewrite <- (proj2 offered_totals).
  unfold warns, pv, build_preview, preview_warnings. cbn [pv_warnings pv_total_live_dropped].
  rewrite existsb_app, existsb_app, existsb_app, existsb_app.
  rewrite <- Z.ltb_lt. destruct (0 <? pt_dropped _); simpl; [by rewrite !orb_true_r|].
  rewrite !orb_false_r. split; [|done].
  repeat match goal with |- context [existsb _ (if ?b then _ else _)] => destruct b end; done.
Qed.

Lemma offered_accepts typed :
  accepts pv typed = true <-> offered <> [] /\ typed <> [] /\ typed = confirm_phrase sha256_text backup_id.
Proof.
  rewrite <- offered_restorable. unfold accepts, pv, build_preview. cbn [pv_confirm_phrase pv_restorable].
  destruct (existsb _ _); [|simpl; naive_solver].
  rewrite andb_true_iff, negb_true_iff, str_eqb_neq, str_eqb_eq. naive_solver.
Qed.
End Offered.

(** What a preview offers and what it costs. A part is offered exactly when what was re-read for
    it has the size the manifest recorded; the bytes and the loss it states are the sums over the
    offered parts, and it warns of a loss exactly when an offered part that replaces live data
    drops something; something is restorable exactly when a part is offered; and only then is
    there a phrase to type, which has to be typed exactly. *)
Theorem preview_prices_what_it_offers (sha256_text : str -> str) (backup_id label : str) (m : manifest)
  (evidence : list part_evidence) (finished_at : option str) (now : Z) :
  let pv := build_preview sha256_text backup_id label m evidence finished_at now in
  let offered := offered m evidence in
  (forall p, p ∈ offered <-> p ∈ m_parts m /\ exists item checksum,
     find_evidence (p_part p) evidence = Some item /\ pe_artifact item = Ok (checksum, p_size_bytes p))
  /\ available_parts pv = p_part <$> offered
  /\ pv_restorable_bytes pv = sum_over (fun p => Z.max 0 (p_size_bytes p)) offered
  /\ pv_total_live_dropped pv = sum_over (fun p => rp_live_dropped (preview_part evidence p)) offered
  /\ (warns pv DataLoss = true <-> exists p, p ∈ offered /\ 0 < rp_live_dropped (preview_part evidence p))
  /\ (pv_restorable pv = true <-> offered <> [])
  /\ (forall typed, accepts pv typed = true <-> offered <> [] /\ typed <> [] /\ typed = confirm_phrase sha256_text backup_id).
Proof.
  cbv zeta. split; [apply offered_elem|]. split; [apply offered_names|]. split; [apply offered_totals|].
  split; [apply offered_totals|]. split; [apply offered_loss|]. split; [apply offered_restorable|apply offered_accepts].
Qed.

(** ** Two readers of the same artifacts *)

Lemma find_observed_read (f : part -> option observed_part) l p o :
  NoDup (p_part <$> l) -> (forall q r, f q = Some r -> op_part r = p_part q) -> p ∈ l -> f p = Some o ->
  find_observed (p_part p) (omap f l) = Some o.
Proof.
  intros Hn Hf Hp Ho. unfold find_observed. induction l as [|q l IH]; [by apply not_elem_of_nil in Hp|].
  apply NoDup_cons in Hn as [Hq Hn]. apply elem_of_cons in Hp as [<-|Hp].
  - simpl. rewrite Ho. simpl. by rewrite (proj2 (str_eqb_eq _ _) (Hf p o Ho)).
  - specialize (IH Hn Hp). simpl. destruct (f q) as [r|] eqn:E; [|done]. simpl. rewrite (Hf q r E).
    destruct (str_eqb (p_part q) (p_part p)) eqn:Eq; [|done]. apply str_eqb_eq in Eq.
    exfalso. apply Hq. rewrite Eq. apply list_elem_of_fmap. eauto.
Qed.

Lemma find_evidence_read (f : part -> part_evidence) l p :
  NoDup (p_part <$> l) -> (forall q, pe_part (f q) = q) -> p ∈ l -> find_evidence (p_part p) (f <$> l) = Some (f p).
Proof.
  intros Hn Hf Hp. unfold find_evidence. induction l as [|q l IH]; [by apply not_elem_of_nil in Hp|].
  apply NoDup_cons in Hn as [Hq Hn]. simpl. rewrite Hf. apply elem_of_cons in Hp as [<-|Hp]; [by rewrite str_eqb_refl|].
  destruct (str_eqb (p_part q) (p_part p)) eqn:E; [|by apply IH].
  apply str_eqb_eq in E. exfalso. apply Hq. rewrite E. apply list_elem_of_fmap. eauto.
Qed.

Section Readers.
Context (sha256_text : str -> str) (sha256_bytes : list Z -> str) (read_file : str -> option (list Z))
  (is_sealed : list Z -> bool) (open : list Z -> option (list Z)) (sealer : bool).
Context (m : manifest) (p : part) (path : str) (bytes : list Z).
Hypothesis Hnames : NoDup (p_part <$> m_parts m).
Hypothesis Hpart : p ∈ m_parts m.
Hypothesis Hdone : p_status p = PDone.
Hypothesis Hpath : p_storage_path p = Some path.
Hypothesis Hread : read_file path = Some bytes.

Lemma offered_by_size backup_id label finished_at now :
  p_part p ∈ available_parts (build_preview sha256_text backup_id label m
    (read_artifacts sha256_bytes read_file m) finished_at now)
  <-> Z.of_nat (length bytes) = p_size_bytes p.
Proof.
  rewrite offered_names, list_elem_of_fmap. unfold read_artifacts.
  assert (Hf : forall q, q ∈ m_parts m -> find_evidence (p_part q) (read_artifact sha256_bytes read_file <$> m_parts m)
    = Some (read_artifact sha256_bytes read_file q)) by (intros; by apply find_evidence_read).
  split.
  - intros (q & E & Hq). apply offered_elem in Hq as (Hq & item & checksum & Hi & Ha).
    assert (q = p) as -> by (symmetry; by eapply (NoDup_key_inj p_part)).
    rewrite Hf in Hi by done. injection Hi as <-. unfold read_artifact in Ha. rewrite Hpath, Hread in Ha.
    simpl in Ha. congruence.
  - intros E. exists p. split; [done|]. apply offered_elem. split; [done|]. eexists _, _. rewrite Hf by done.
    split; [done|]. unfold read_artifact. rewrite Hpath, Hread. simpl. by rewrite E.
Qed.

Lemma observed_as plaintext :
  observe_part sha256_bytes read_file is_sealed open sealer p
    = Some (ObservedPart (p_part p) (sha256_bytes plaintext) (Z.of_nat (length plaintext))) ->
  find_observed (p_part p) (observe sha256_bytes read_file is_sealed open sealer m)
    = Some (ObservedPart (p_part p) (sha256_bytes plaintext) (Z.of_nat (length plaintext))).
Proof.
  intros Ho. apply find_observed_read; try done. intros q r. unfold observe_part.
  intros H. destruct (p_storage_path q) as [s|]; [|done]. simpl in H. destruct (read_file s) as [b|]; [|done].
  simpl in H. destruct (if sealer then _ else _) in H; [|done]. by injection H as <-.
Qed.
End Readers.

(** The preview trusts the length alone: bytes that were altered in place are offered for a
    restore although the verification of the same run reports them as different. *)
Theorem altered_artifact_is_offered (sha256_text : str -> str) (sha256_bytes : list Z -> str)
  (read_file : str -> option (list Z)) (is_sealed : list Z -> bool) (open : list Z -> option (list Z)) (sealer : bool)
  (m : manifest) (p : part) (path : str) (bytes : list Z) (backup_id label : str) (finished_at : option str) (now : Z) :
  NoDup (p_part <$> m_parts m) -> p ∈ m_parts m -> p_status p = PDone -> p_storage_path p = Some path ->
  read_file path = Some bytes -> is_sealed bytes = false ->
  Z.of_nat (length bytes) = p_size_bytes p -> p_checksum p <> Some (sha256_bytes bytes) ->
  p_part p ∈ v_mismatched (verify_manifest m (observe sha256_bytes read_file is_sealed open sealer m))
  /\ p_part p ∈ available_parts (build_preview sha256_text backup_id label m
       (read_artifacts sha256_bytes read_file m) finished_at now).
Proof.
  intros Hn Hp Hd Hpath Hr Hs Hlen Hc.
  split; [|by apply (offered_by_size sha256_text sha256_bytes read_file m p path bytes Hn Hp Hpath Hr)].
  apply verify_mismatched. exists p. split; [done|]. split; [done|].
  exists (ObservedPart (p_part p) (sha256_bytes bytes) (Z.of_nat (length bytes))). split; [|right; exact Hc].
  apply (observed_as sha256_bytes read_file is_sealed open sealer m p Hn Hp bytes).
  unfold observe_part. rewrite Hpath. simpl. rewrite Hr. simpl. rewrite Hs. by destruct sealer.
Qed.

(** The preview reads an encrypted artifact without opening it: its length is that of the frame,
    so a part the verification finds intact is never offered. *)
Theorem encrypted_artifact_is_not_offered (sha256_text : str -> str) (sha256_bytes : list Z -> str)
  (read_file : str -> option (list Z)) (is_sealed : list Z -> bool) (open : list Z -> option (list Z))
  (m : manifest) (p : part) (path : str) (bytes plaintext : list Z) (backup_id label : str)
  (finished_at : option str) (now : Z) :
  NoDup (p_part <$> m_parts m) -> p ∈ m_parts m -> p_status p = PDone -> p_storage_path p = Some path ->
  read_file path = Some bytes -> is_sealed bytes = true -> open bytes = Some plaintext ->
  (length plaintext < length bytes)%nat ->
  Z.of_nat (length plaintext) = p_size_bytes p -> p_checksum p = Some (sha256_bytes plaintext) ->
  p_part p ∈ v_matched (verify_manifest m (observe sha256_bytes read_file is_sealed open true m))
  /\ p_part p ∉ available_parts (build_preview sha256_text backup_id label m
       (read_artifacts sha256_bytes read_file m) finished_at now).
Proof.
  intros Hn Hp Hd Hpath Hr Hs Ho Hframe Hlen Hc. split.
  - apply verify_matched. exists p. split; [done|]. split; [done|].
    exists (ObservedPart (p_part p) (sha256_bytes plaintext) (Z.of_nat (length plaintext))). split; [|by split].
    apply (observed_as sha256_bytes read_file is_sealed open true m p Hn Hp plaintext).
    unfold observe_part. rewrite Hpath. simpl. rewrite Hr. simpl. by rewrite Hs, Ho.
  - rewrite (offered_by_size sha256_text sha256_bytes read_file m p path bytes Hn Hp Hpath Hr). lia.
Qed.

(** Three runs of an organization: an expired one, a protected one, and the newest success. *)
Definition sample_run_row (id finished : Z) (protected : bool) : backup :=
  Backup id (Some 5) [] s!"manual" None [s!"themes"] RSucceeded 2 s!"local" [] None None protected (Some 10) None None 0 (Some 0)
    (Some finished).
Definition sample_store : backup_store :=
  BackupStore [sample_run_row 1 1 false; sample_run_row 2 2 true; sample_run_row 3 3 false]
    [BackupPart 1 (part_queued s!"themes") None None; BackupPart 3 (part_queued s!"themes") None None].

Lemma sweep_keeps_restore_points_witness :
  let '(report, st') := sweep_organization (fun _ => PurgeReport 0 0) (Some 5) s!"/var/backups" 20 sample_store in
  bk_id <$> st_backups st' = [2; 3] /\ exists spared, bk_id spared = 3 /\ latest (Some 5) st' spared.
Proof.
  assert (Hn : NoDup (bk_id <$> st_backups sample_store)) by by_compute.
  pose proof (sweep_keeps_restore_points (fun _ => PurgeReport 0 0) (Some 5) s!"/var/backups" 20 sample_store Hn) as H.
  destruct (sweep_organization _ _ _ _ _) as [report st'] eqn:E. vm_compute in E. injection E as <- <-. split; [vm_compute; reflexivity|].
  destruct H as (gone & _ & _ & _ & _ & [[H _]|(spared & (Hs & Hl) & Hl' & _)] & _).
  - exfalso. apply (H (sample_run_row 1 1 false)). split_and!; [apply list_elem_of_here|reflexivity..].
  - exists spared. split; [|exact Hl']. destruct Hs as (Hs & _ & _ & Hp).
    apply elem_of_cons in Hs as [->|[->|[->|[]%elem_of_nil]%elem_of_cons]%elem_of_cons]; [|discriminate Hp|reflexivity].
    exfalso. apply (Hl (sample_run_row 3 3 false)); [split_and!; [vm_compute; do 2 right; left|reflexivity..]|]. vm_compute. left. reflexivity.
Defined.
