(* ===== verification/Sealing.v ===== *)
(** * Sealed artifacts: [crates/backup/src/crypto.rs]

    The framing of an encrypted artifact, its opening, and the resolution of the passphrase a
    reference names.  HKDF and AES-256-GCM are the interface [Aead]; the random salt and nonce
    are arguments. *)

From S2P Require Import Prelude.

(** ** The cipher *)

(** [derive] is [Hkdf<Sha256>] expanded with the fixed label, [encrypt] and [decrypt] AES-256-GCM
    under a key, a nonce and additional data. *)
Class Aead := {
  key : Type;
  derive : list Z -> list Z -> key;
  encrypt : key -> list Z -> list Z -> list Z -> option (list Z);
  decrypt : key -> list Z -> list Z -> list Z -> option (list Z)
}.

(** What was encrypted decrypts under the same key, nonce and additional data, and a ciphertext is
    its plaintext's length and a tag of sixteen bytes. *)
Class AeadLaws (A : Aead) : Prop := {
  decrypt_encrypt : forall k n aad m c, encrypt k n aad m = Some c -> decrypt k n aad c = Some m;
  encrypt_length : forall k n aad m c, encrypt k n aad m = Some c -> (length c = length m + 16)%nat
}.

Definition MAGIC : list Z := [79; 77; 78; 49].
Definition SALT_LEN : nat := 16.
Definition NONCE_LEN : nat := 12.
Definition OVERHEAD : nat := length MAGIC + SALT_LEN + NONCE_LEN.

Inductive crypto_error := NotEncrypted | NotADecryptedArchive | EmptyPassphrase | Undecryptable.
(** [Display]. *)
Definition crypto_text (e : crypto_error) : str :=
  match e with
  | NotEncrypted => s!"the artifact is stored unencrypted"
  | NotADecryptedArchive => s!"the artifact is not a readable archive"
  | EmptyPassphrase => s!"the passphrase is empty"
  | Undecryptable => s!"the passphrase is wrong, or the artifact was changed"
  end.
Inductive encryption_mode := ModeNone | ModePassphrase.

Definition mode_as_str (m : encryption_mode) : str :=
  match m with ModeNone => s!"none" | ModePassphrase => s!"passphrase" end.
Definition mode_parse (value : str) : result encryption_mode crypto_error :=
  if str_eqb value s!"none" then Ok ModeNone
  else if str_eqb value s!"passphrase" then Ok ModePassphrase
  else Err NotADecryptedArchive.

(** ** Sealing and opening *)

Section Sealing.
Context `{A : Aead}.

Definition seal (passphrase salt nonce plaintext : list Z) : result (list Z) crypto_error :=
  refuse bool_decide (passphrase = []) with EmptyPassphrase in
  let? ciphertext := ok_or (encrypt (derive passphrase salt) nonce MAGIC plaintext) Undecryptable in
  Ok (MAGIC ++ salt ++ nonce ++ ciphertext).

Definition has_magic (bytes : list Z) : bool := bool_decide (take (length MAGIC) bytes = MAGIC).

Definition is_sealed (bytes : list Z) : bool := (OVERHEAD <=? length bytes)%nat && has_magic bytes.

Definition open (passphrase bytes : list Z) : result (list Z) crypto_error :=
  if (length bytes <? OVERHEAD)%nat then
    Err (if (length MAGIC <=? length bytes)%nat && has_magic bytes then NotADecryptedArchive else NotEncrypted)
  else
    refuse negb (has_magic bytes) with NotEncrypted in
    let salt := take SALT_LEN (drop (length MAGIC) bytes) in
    let nonce := take NONCE_LEN (drop (length MAGIC + SALT_LEN) bytes) in
    ok_or (decrypt (derive passphrase salt) nonce MAGIC (drop OVERHEAD bytes)) Undecryptable.
End Sealing.

(** ** The passphrase a reference names *)

Definition resolve_passphrase (credential_ref : option str) (read : str -> option str) : result str crypto_error :=
  match trim <$> credential_ref with
  | Some ((_ :: _) as name) =>
      match trim <$> read name with
      | Some ((_ :: _) as value) => Ok value
      | _ => Err EmptyPassphrase
      end
  | _ => Err EmptyPassphrase
  end.

(** ** Properties *)

Section Properties.
Context `{A : Aead, L : !AeadLaws A}.

Lemma has_magic_prefix rest : has_magic (MAGIC ++ rest) = true.
Proof. by apply bool_decide_eq_true. Qed.
Lemma has_magic_length bytes : has_magic bytes = true -> (length MAGIC <= length bytes)%nat.
Proof. intros H%bool_decide_eq_true. apply (f_equal length) in H. rewrite length_take in H. lia. Qed.

Lemma has_magic_split bytes : has_magic bytes = true <-> exists rest, bytes = MAGIC ++ rest.
Proof.
  split; [|intros [rest ->]; apply has_magic_prefix]. intros H%bool_decide_eq_true.
  exists (drop (length MAGIC) bytes). rewrite <- H at 1. by rewrite take_drop.
Qed.

(** The three fields of a header and what follows it. *)
Definition framed (bytes salt nonce ciphertext : list Z) : Prop :=
  length salt = SALT_LEN /\ length nonce = NONCE_LEN /\ bytes = MAGIC ++ salt ++ nonce ++ ciphertext.

Lemma is_sealed_framed bytes : is_sealed bytes = true <-> exists salt nonce c, framed bytes salt nonce c.
Proof.
  unfold is_sealed. rewrite andb_true_iff, Nat.leb_le, has_magic_split. split.
  - intros (Hl & rest & ->). rewrite length_app in Hl. unfold OVERHEAD in Hl.
    exists (take SALT_LEN rest), (take NONCE_LEN (drop SALT_LEN rest)), (drop NONCE_LEN (drop SALT_LEN rest)). split_and!.
    + rewrite length_take. lia.
    + rewrite length_take, length_drop. lia.
    + by rewrite !take_drop.
  - intros (salt & nonce & c & Hs & Hn & ->). split; [rewrite !length_app; unfold OVERHEAD; lia|eauto].
Qed.

(** Past the framing it is the cipher that answers, over the fields where they are. *)
Lemma open_framed passphrase bytes salt nonce c : framed bytes salt nonce c ->
  open passphrase bytes = match decrypt (derive passphrase salt) nonce MAGIC c with Some text => Ok text | None => Err Undecryptable end.
Proof.
  intros (Hs & Hn & ->). unfold open. rewrite has_magic_prefix. cbn [negb]. cbv zeta.
  rewrite (proj2 (Nat.ltb_ge _ _)) by (rewrite !length_app; unfold OVERHEAD; lia).
  assert (Hd : forall rest, drop (length MAGIC) (MAGIC ++ rest) = rest) by done.
  assert (Hnonce : drop (length MAGIC + SALT_LEN) (MAGIC ++ salt ++ nonce ++ c) = nonce ++ c)
    by (rewrite <- drop_drop, Hd, <- Hs; apply drop_app_length).
  assert (Hc : drop OVERHEAD (MAGIC ++ salt ++ nonce ++ c) = c)
    by (unfold OVERHEAD; rewrite <- drop_drop, Hnonce, <- Hn; apply drop_app_length).
  rewrite Hd, Hnonce, Hc, <- Hs, take_app_length, <- Hn, take_app_length. by destruct (decrypt _ _ _ _).
Qed.

Lemma sealed_framed passphrase salt nonce plaintext artifact :
  length salt = SALT_LEN -> length nonce = NONCE_LEN -> seal passphrase salt nonce plaintext = Ok artifact ->
  exists c, encrypt (derive passphrase salt) nonce MAGIC plaintext = Some c
    /\ artifact = MAGIC ++ salt ++ nonce ++ c
    /\ length artifact = (length plaintext + OVERHEAD + 16)%nat.
Proof.
  intros Hs Hn H. unfold seal in H. destruct (bool_decide _); [done|].
  destruct (encrypt _ _ _ _) as [c|] eqn:E; [|done].
  assert (artifact = MAGIC ++ salt ++ nonce ++ c) as Ha by (symmetry; by apply (f_equal (fun r => match r with Ok x => x | Err _ => [] end)) in H).
  exists c. split; [done|]. split; [done|]. apply encrypt_length in E.
  rewrite Ha, !length_app, Hs, Hn, E. unfold OVERHEAD. lia.
Qed.

Lemma sealed_opens (passphrase salt nonce plaintext artifact : list Z) :
  length salt = SALT_LEN -> length nonce = NONCE_LEN -> seal passphrase salt nonce plaintext = Ok artifact ->
  is_sealed artifact = true
  /\ open passphrase artifact = Ok plaintext
  /\ length artifact = (length plaintext + OVERHEAD + 16)%nat.
Proof.
  intros Hs Hn H. destruct (sealed_framed _ _ _ _ _ Hs Hn H) as (c & E & -> & Hlen).
  assert (Hl : (OVERHEAD <= length (MAGIC ++ salt ++ nonce ++ c))%nat) by (rewrite Hlen; lia).
  split; [|split; [|done]].
  - unfold is_sealed. rewrite has_magic_prefix, andb_true_r. by apply Nat.leb_le.
  - rewrite (open_framed _ _ salt nonce c) by done. by rewrite (decrypt_encrypt _ _ _ _ _ E).
Qed.

(** A document sealed under a passphrase that is not empty carries the framing, is longer than its document by the
    framing and the tag, and opens under that passphrase to the document, whatever salt and nonce
    were drawn. *)
Theorem opening_inverts_sealing (passphrase salt nonce plaintext : list Z) :
  length salt = SALT_LEN -> length nonce = NONCE_LEN -> passphrase <> [] ->
  (forall k, is_Some (encrypt k nonce MAGIC plaintext)) ->
  exists artifact, seal passphrase salt nonce plaintext = Ok artifact
    /\ is_sealed artifact = true
    /\ open passphrase artifact = Ok plaintext
    /\ length artifact = (length plaintext + OVERHEAD + 16)%nat.
Proof.
  intros Hs Hn Hp He. destruct (He (derive passphrase salt)) as [c Hc].
  assert (H : seal passphrase salt nonce plaintext = Ok (MAGIC ++ salt ++ nonce ++ c))
    by (unfold seal; by rewrite bool_decide_eq_false_2, Hc by done).
  eexists. split; [exact H|]. exact (sealed_opens _ _ _ _ _ Hs Hn H).
Qed.

(** C40. [open] answers every artifact by what it is. Bytes that do not begin with the magic were never
    encrypted, and the magic without a whole salt and nonce is no archive, whatever the passphrase;
    past the header, the key derived from the passphrase and the sixteen bytes after the magic is
    asked, with the next twelve as nonce and the magic as associated data, for what follows them: its
    text is the answer, and its refusal the one that names the passphrase or the bytes. What [seal] gave
    opens to the document under the passphrase that sealed it. *)
Theorem open_names_the_problem (passphrase bytes : list Z) :
  (open passphrase bytes = Err NotEncrypted <-> forall rest, bytes <> MAGIC ++ rest)
  /\ (open passphrase bytes = Err NotADecryptedArchive <-> exists rest, bytes = MAGIC ++ rest /\ (length rest < SALT_LEN + NONCE_LEN)%nat)
  /\ (is_sealed bytes = true <-> exists salt nonce c, framed bytes salt nonce c)
  /\ (forall salt nonce c, framed bytes salt nonce c ->
        open passphrase bytes = match decrypt (derive passphrase salt) nonce MAGIC c with Some text => Ok text | None => Err Undecryptable end)
  /\ (forall salt nonce text, length salt = SALT_LEN -> length nonce = NONCE_LEN -> seal passphrase salt nonce text = Ok bytes ->
        open passphrase bytes = Ok text)
  /\ open passphrase bytes <> Err EmptyPassphrase.
Proof.
  assert (Hcases : (open passphrase bytes = Err NotEncrypted /\ has_magic bytes = false)
    \/ (open passphrase bytes = Err NotADecryptedArchive /\ has_magic bytes = true /\ (length bytes < OVERHEAD)%nat)
    \/ ((open passphrase bytes = Err Undecryptable \/ exists text, open passphrase bytes = Ok text) /\ is_sealed bytes = true)).
  { pose proof (has_magic_length bytes) as Hm. destruct (is_sealed bytes) eqn:Es.
    - pose proof (proj1 (is_sealed_framed bytes) Es) as (salt & nonce & c & Hf). rewrite (open_framed _ _ _ _ _ Hf).
      right. right. split; [|done]. destruct (decrypt _ _ _ _); eauto.
    - unfold is_sealed in Es. unfold open. destruct (has_magic bytes) eqn:E.
      + rewrite andb_true_r in Es. apply Nat.leb_gt in Es. rewrite (proj2 (Nat.ltb_lt _ _) Es), (proj2 (Nat.leb_le _ _) (Hm eq_refl)). auto.
      + rewrite andb_false_r. left. by destruct (_ <? _)%nat. }
  split_and!.
  - transitivity (has_magic bytes = false).
    + unfold is_sealed in Hcases. rewrite !andb_true_iff in Hcases.
      split; [intros Ho|intros Hm]; destruct Hcases as [[E ?]|[(E & ? & ?)|[[E|[t E]] [? ?]]]]; congruence.
    + rewrite <- not_true_iff_false, has_magic_split. naive_solver.
  - transitivity (has_magic bytes = true /\ (length bytes < OVERHEAD)%nat).
    + unfold is_sealed in Hcases. rewrite !andb_true_iff, Nat.leb_le in Hcases.
      split; [intros Ho|intros [Hm Hl]]; destruct Hcases as [[E ?]|[(E & ? & ?)|[[E|[t E]] [? ?]]]]; try congruence; auto; lia.
    + rewrite has_magic_split. unfold OVERHEAD. split.
      * intros ([rest ->] & Hl). exists rest. rewrite length_app in Hl. split; [done|lia].
      * intros (rest & -> & Hl). split; [eauto|]. rewrite length_app. lia.
  - apply is_sealed_framed.
  - intros salt nonce c. apply open_framed.
  - intros salt nonce text Hs Hn H. by apply (sealed_opens passphrase salt nonce).
  - destruct Hcases as [[-> _]|[(-> & _)|[[->|[t ->]] _]]]; done.
Qed.

(** A passphrase that was resolved is never the empty one, so sealing with it is not refused for
    it; a reference that is blank, unset or names a blank value resolves to nothing. *)
Theorem resolved_passphrase_seals (credential_ref : option str) (read : str -> option str) :
  (forall p salt nonce plaintext, resolve_passphrase credential_ref read = Ok p ->
     seal (mjoin (utf8_bytes <$> p)) salt nonce plaintext <> Err EmptyPassphrase)
  /\ (forall p, resolve_passphrase credential_ref read = Ok p <->
        p <> [] /\ exists name value, credential_ref = Some name /\ trim name <> []
          /\ read (trim name) = Some value /\ trim value = p).
Proof.
  assert (Hr : forall p, resolve_passphrase credential_ref read = Ok p <->
        p <> [] /\ exists name value, credential_ref = Some name /\ trim name <> []
          /\ read (trim name) = Some value /\ trim value = p).
  { intros p. unfold resolve_passphrase. destruct credential_ref as [name|]; simpl.
    - destruct (trim name) as [|c l] eqn:En.
      { split; [done|]. by intros (_ & name' & v & [= <-] & Hname & _). }
      destruct (read (c :: l)) as [value|] eqn:Ev; simpl.
      2: { split; [done|]. intros (_ & name' & v & [= <-] & _ & Hv & _). by rewrite En, Ev in Hv. }
      destruct (trim value) as [|d v] eqn:Eval.
      { split; [done|]. intros (Hp & name' & v & [= <-] & _ & Hv & Ht). rewrite En, Ev in Hv. injection Hv as <-. congruence. }
      split.
      + intros [= <-]. split; [done|]. exists name, value. rewrite En. by split_and!.
      + intros (_ & name' & value' & [= <-] & _ & Hv & Hp). rewrite En, Ev in Hv. injection Hv as <-. by rewrite <- Hp, Eval.
    - naive_solver. }
  split; [|done]. intros p salt nonce plaintext Hp. apply Hr in Hp as [Hp _]. unfold seal.
  destruct p as [|c p]; [done|]. rewrite bool_decide_eq_false_2.
  - destruct (encrypt _ _ _ _); done.
  - simpl. unfold utf8_bytes. by repeat case_match.
Qed.
End Properties.

(** ** A cipher to evaluate on *)

Definition tagging : Aead :=
  {| key := unit; derive _ _ := tt; encrypt _ _ _ m := Some (m ++ repeat 0 16);
     decrypt _ _ _ c := Some (take (length c - 16) c) |}.
#[export] Instance tagging_laws : AeadLaws tagging.
Proof.
  split; cbn [encrypt decrypt tagging]; intros k nonce aad m c [= <-]; rewrite length_app; cbn [length repeat]; [|done].
  f_equal. replace (length m + 16 - 16)%nat with (length m) by lia. by rewrite take_app_length.
Qed.

Lemma opening_inverts_sealing_witness :
  exists artifact, seal (A := tagging) [112; 119] (repeat 1 16) (repeat 2 12) [123; 125] = Ok artifact
    /\ is_sealed artifact = true
    /\ open (A := tagging) [112; 119] artifact = Ok [123; 125]
    /\ length artifact = (length [123; 125] + OVERHEAD + 16)%nat.
Proof.
  apply (opening_inverts_sealing (A := tagging) [112; 119] (repeat 1 16) (repeat 2 12) [123; 125]); done.
Defined.

(** A cipher whose tag is the beginning of its key and nonce: it refuses another passphrase. *)
Definition keyed : Aead :=
  let tag k nonce := take 16 (k ++ nonce ++ repeat 0 16) in
  {| key := list Z; derive p salt := p ++ salt; encrypt k nonce _ m := Some (m ++ tag k nonce);
     decrypt k nonce _ c := if bool_decide (drop (length c - 16) c = tag k nonce) then Some (take (length c - 16) c) else None |}.
#[export] Instance keyed_laws : AeadLaws keyed.
Proof.
  assert (forall k nonce : list Z, length (take 16 (k ++ nonce ++ repeat 0 16)) = 16%nat) as Ht
    by (intros k nonce; rewrite length_take, !length_app; cbn [length repeat]; lia).
  split; cbn [encrypt decrypt keyed]; intros k nonce aad m c [= <-]; rewrite length_app, Ht; [|done].
  replace (length m + 16 - 16)%nat with (length m) by lia. rewrite drop_app_length, take_app_length. by rewrite bool_decide_eq_true_2.
Qed.

Definition sealed_sample : list Z := match seal (A := keyed) [112; 119] (repeat 1 16) (repeat 2 12) [123; 125] with Ok b => b | Err _ => [] end.

(** Each answer happens: the document, another passphrase, a cut header, a file that was never sealed. *)
Example open_answers :
  open (A := keyed) [112; 119] sealed_sample = Ok [123; 125]
  /\ open (A := keyed) [112; 120] sealed_sample = Err Undecryptable
  /\ open (A := keyed) [112; 119] (take 31 sealed_sample) = Err NotADecryptedArchive
  /\ open (A := keyed) [112; 119] [123; 125] = Err NotEncrypted.
Proof. by vm_compute. Qed.

Lemma open_names_the_problem_witness : framed sealed_sample (repeat 1 16) (repeat 2 12) (drop 32 sealed_sample)
  /\ open (A := keyed) [112; 119] sealed_sample = Ok [123; 125] /\ open (A := keyed) [112; 120] sealed_sample = Err Undecryptable.
Proof.
  assert (framed sealed_sample (repeat 1 16) (repeat 2 12) (drop 32 sealed_sample)) as F by (split_and!; reflexivity).
  split; [exact F|]. split.
  - destruct (open_names_the_problem (A := keyed) [112; 119] sealed_sample) as (_ & _ & _ & _ & Hseal & _).
    apply (Hseal (repeat 1 16) (repeat 2 12)); reflexivity.
  - destruct (open_names_the_problem (A := keyed) [112; 120] sealed_sample) as (_ & _ & _ & Hopen & _).
    rewrite (Hopen _ _ _ F). reflexivity.
Defined.
