(* ===== verification/MediaArchive.v ===== *)
(** * The media part: [crates/backup/src/media.rs], [restore_objects.rs]

    The library's rows, their copy into a run's directory object by object, the index beside the
    objects, and the restore of an index into the live library.  The object store and the file
    system answer through refusals that are parameters; what they hold is state. *)

From S2P Require Import Prelude Json Cadence Backups.

(** ** Ids, the file system and the object store *)

(** [Display] of a [Uuid], a number of 128 bits. *)
Class Uuids := { uuid_text : Z -> str }.
Definition is_uuid (z : Z) : Prop := 0 <= z < 2 ^ 128.
Class UuidLaws (U : Uuids) : Prop := {
  uuid_text_length : forall z, length (uuid_text z) = 36%nat;
  uuid_text_chars : forall z, forallb (fun c => is_ascii_hexdigit c || (c =? c!"-")%N) (uuid_text z) = true;
  uuid_text_inj : forall a b, is_uuid a -> is_uuid b -> uuid_text a = uuid_text b -> a = b
}.

(** The files of the destination, by path.  A write that fails ([create_dir_all] or [fs::write])
    names the place and the system's words, and may leave a partial file. *)
Abbreviation disk := (gmap str (list Z)).
Record write_error := WriteError { we_where : str; we_error : str; we_left : option (list Z) }.
Class FileSystem := { write_refusal : str -> option write_error }.

Definition write_file `{FileSystem} (path : str) (bytes : list Z) (d : disk) : result unit str * disk :=
  match write_refusal path with
  | None => (Ok tt, <[path := bytes]> d)
  | Some e => (Err (we_where e ++ s!": " ++ we_error e),
               match we_left e with Some partial => <[path := partial]> d | None => d end)
  end.

(** [Storage::get] and [Storage::put] on the objects of the live library. *)
Abbreviation objects := (gmap str (list Z)).
Class ObjectStore := { get_refusal : str -> option str; put_refusal : str -> option str; missing_text : str -> str }.

Definition storage_get `{ObjectStore} (key : str) (live : objects) : result (list Z) str :=
  match get_refusal key with Some e => Err e | None => ok_or (live !! key) (missing_text key) end.
Definition storage_put `{ObjectStore} (key : str) (bytes : list Z) (live : objects) : result unit str * objects :=
  match put_refusal key with Some e => (Err e, live) | None => (Ok tt, <[key := bytes]> live) end.

(** ** The library's rows *)

Record media_object := MediaObject {
  mo_id : Z;
  mo_site_id : Z;
  mo_storage_key : str;
  mo_filename : str;
  mo_content_type : str;
  mo_size_bytes : Z;
  mo_checksum : str
}.
Record media_row := MediaRow {
  mr_object : media_object;
  mr_created_at : Z;
  mr_deleted_at : option Z;
  mr_purged_at : option Z
}.
Record media_site := MediaSite { ms_id : Z; ms_organization_id : option Z }.

Definition MAX_OBJECT_BYTES : Z := 256 * 1024 * 1024.
Definition OBJECTS_DIR : str := s!"objects".
Definition INDEX_FILENAME : str := s!"media-index.json".
Definition INDEX_VERSION : Z := 1.
Definition MAX_REPORTED_COPY_FAILURES : nat := 3.
Definition MAX_REPORTED_RESTORE_FAILURES : nat := 20.

Definition index_key (prefix : str) : str := storage_prefix prefix ++ INDEX_FILENAME.

(** [where deleted_at is null and purged_at is null .. order by site_id, created_at desc] *)
Definition row_order (a b : media_row) : comparison :=
  then_with (mo_site_id (mr_object a) ?= mo_site_id (mr_object b)) (mr_created_at b ?= mr_created_at a).
Definition row_is_live (r : media_row) : bool := negb (is_given (mr_deleted_at r)) && negb (is_given (mr_purged_at r)).

Definition pending_objects (site_id : option Z) (rows : list media_row) : list media_object :=
  mr_object <$> sort_by row_order
    (List.filter (fun r => row_is_live r
                           && match site_id with None => true | Some site => mo_site_id (mr_object r) =? site end) rows).

Definition site_in_organization (organization : option Z) (sites : list media_site) (site : Z) : bool :=
  existsb (fun s => (ms_id s =? site) && bool_decide (ms_organization_id s = organization)) sites.
Definition pending_objects_for_organization (organization : option Z) (sites : list media_site) (rows : list media_row) :
  list media_object :=
  mr_object <$> sort_by row_order
    (List.filter (fun r => row_is_live r && site_in_organization organization sites (mo_site_id (mr_object r))) rows).

(** ** Names inside the archive *)

Fixpoint safe_chars (previous_was_dot : bool) (name : str) : str :=
  match name with
  | [] => []
  | c :: rest =>
      if (c =? c!".")%N then
        if previous_was_dot then safe_chars true rest else c :: safe_chars true rest
      else (if is_ascii_alphanumeric c || (c =? c!"-")%N || (c =? c!"_")%N then c else c!"_") :: safe_chars false rest
  end.
Definition MAX_FILENAME : nat := 120.
Definition safe_filename (name : str) : str :=
  let trimmed := take MAX_FILENAME (trim_end_by (N.eqb c!".") (trim_start_by (N.eqb c!".") (safe_chars false name))) in
  match trimmed with [] => s!"file" | _ => trimmed end.

Definition object_key `{Uuids} (site_id id : Z) (filename : str) : str :=
  OBJECTS_DIR ++ s!"/" ++ uuid_text site_id ++ s!"/" ++ uuid_text id ++ s!"-" ++ filename.
Definition archive_key `{Uuids} (prefix : str) (o : media_object) : str :=
  storage_prefix prefix ++ object_key (mo_site_id o) (mo_id o) (safe_filename (mo_filename o)).

(** ** Copying the library *)

Record copied_object := CopiedObject {
  co_id : Z;
  co_site_id : Z;
  co_storage_key : str;
  co_filename : str;
  co_content_type : str;
  co_archive_key : str;
  co_size_bytes : Z;
  co_checksum : str
}.
Inductive copy_problem :=
| OverCap
| Unreadable (reason : str)
| SizeDiffers (actual : Z)
| ChecksumDiffers (actual : str)
| NotWritten (reason : str).
Record object_failure := ObjectFailure { of_id : Z; of_filename : str; of_reason : str }.
Definition em_dash : str := [8212%N].
Definition copy_reason (o : media_object) (p : copy_problem) : str :=
  match p with
  | OverCap => s!"the object is " ++ show_Z (mo_size_bytes o) ++ s!" bytes, over this part's " ++ show_Z MAX_OBJECT_BYTES
               ++ s!" byte cap " ++ em_dash ++ s!" it was not copied, not truncated"
  | Unreadable reason | NotWritten reason => reason
  | SizeDiffers actual => s!"the object is " ++ show_Z actual ++ s!" bytes but the library row records "
               ++ show_Z (mo_size_bytes o) ++ s!" " ++ em_dash
               ++ s!" the row and the store disagree, so neither can be trusted"
  | ChecksumDiffers actual => s!"the object's SHA-256 is " ++ actual ++ s!" but the library row records " ++ mo_checksum o
               ++ s!" " ++ em_dash ++ s!" the object has changed since it was uploaded"
  end.
Record site_count := SiteCount { sc_site_id : Z; sc_files : Z; sc_size_bytes : Z }.
Record copy_report := CopyReport {
  cr_objects_copied : Z;
  cr_bytes_copied : Z;
  cr_objects_failed : Z;
  cr_failures : list object_failure;
  cr_sites : list site_count;
  cr_objects : list copied_object
}.
Definition no_copies : copy_report := CopyReport 0 0 0 [] [] [].
Definition copy_is_complete (r : copy_report) : bool := cr_objects_failed r =? 0.

Definition failure_summary (r : copy_report) : str :=
  if copy_is_complete r then []
  else
    let named := Z.of_nat (length (cr_failures r)) in
    show_Z (cr_objects_failed r) ++ s!" of " ++ show_Z (cr_objects_copied r + cr_objects_failed r)
    ++ s!" objects could not be copied " ++ em_dash ++ s!" "
    ++ join s!"; " ((fun f => of_filename f ++ s!": " ++ of_reason f) <$> cr_failures r)
    ++ (if named <? cr_objects_failed r then s!" (and " ++ show_Z (cr_objects_failed r - named) ++ s!" more)" else []).

(** [BTreeMap::entry(..).or_insert_with(..)], the counters added to. *)
Fixpoint count_site (o : copied_object) (sites : list site_count) : list site_count :=
  match sites with
  | [] => [SiteCount (co_site_id o) 1 (co_size_bytes o)]
  | s :: rest =>
      match co_site_id o ?= sc_site_id s with
      | Lt => SiteCount (co_site_id o) 1 (co_size_bytes o) :: sites
      | Eq => SiteCount (sc_site_id s) (sc_files s + 1) (sc_size_bytes s + co_size_bytes o) :: rest
      | Gt => s :: count_site o rest
      end
  end.
Definition roll_up_sites (copied : list copied_object) : list site_count :=
  fold_left (fun sites o => count_site o sites) copied [].

Definition record_failure (o : media_object) (reason : copy_problem) (r : copy_report) : copy_report :=
  CopyReport (cr_objects_copied r) (cr_bytes_copied r) (cr_objects_failed r + 1)
    (if (length (cr_failures r) <? MAX_REPORTED_COPY_FAILURES)%nat
     then cr_failures r ++ [ObjectFailure (mo_id o) (mo_filename o) (copy_reason o reason)] else cr_failures r)
    (cr_sites r) (cr_objects r).
Definition record_copy (o : copied_object) (r : copy_report) : copy_report :=
  CopyReport (cr_objects_copied r + 1) (cr_bytes_copied r + co_size_bytes o) (cr_objects_failed r) (cr_failures r)
    (cr_sites r) (cr_objects r ++ [o]).

Section Archive.
Context `{U : Uuids, F : FileSystem, O : ObjectStore}.
Context (sha256_bytes : list Z -> str).

(** What of an object's bytes is fit to be copied. *)
Definition object_bytes (live : objects) (o : media_object) : result (list Z) copy_problem :=
  refuse MAX_OBJECT_BYTES <? mo_size_bytes o with OverCap in
  match storage_get (mo_storage_key o) live with
  | Err e => Err (Unreadable e)
  | Ok bytes =>
      refuse negb (Z.of_nat (length bytes) =? mo_size_bytes o) with SizeDiffers (Z.of_nat (length bytes)) in
      refuse negb (str_eqb (mo_checksum o) [])
             && negb (str_eqb (to_ascii_lowercase (sha256_bytes bytes)) (to_ascii_lowercase (mo_checksum o)))
        with ChecksumDiffers (sha256_bytes bytes) in
      Ok bytes
  end.

Definition copied (prefix : str) (o : media_object) (bytes : list Z) : copied_object :=
  CopiedObject (mo_id o) (mo_site_id o) (mo_storage_key o) (mo_filename o) (mo_content_type o)
    (archive_key prefix o) (Z.of_nat (length bytes)) (sha256_bytes bytes).

(** [write_media_object]: the root joined with the key. *)
Definition write_media_object (root key : str) (bytes : list Z) (d : disk) : result unit str * disk :=
  write_file (path_join (trim root) (trim_start_by (N.eqb c!"/") key)) bytes d.

Definition copy_object (live : objects) (root prefix : str) (acc : copy_report * disk) (o : media_object) :
  copy_report * disk :=
  let '(report, d) := acc in
  match object_bytes live o with
  | Err problem => (record_failure o problem report, d)
  | Ok bytes =>
      match write_media_object root (archive_key prefix o) bytes d with
      | (Err e, d) => (record_failure o (NotWritten e) report, d)
      | (Ok _, d) => (record_copy (copied prefix o bytes) report, d)
      end
  end.

Definition copy_objects (live : objects) (root prefix : str) (l : list media_object) (d : disk) : copy_report * disk :=
  let '(r, d) := fold_left (copy_object live root prefix) l (no_copies, d) in
  (CopyReport (cr_objects_copied r) (cr_bytes_copied r) (cr_objects_failed r) (cr_failures r)
     (roll_up_sites (cr_objects r)) (cr_objects r), d).

(** ** The index *)

Record media_index := MediaIndex { mx_version : Z; mx_prefix : str; mx_objects : list copied_object }.
Definition build_index (prefix : str) (l : list copied_object) : media_index :=
  MediaIndex INDEX_VERSION (storage_prefix prefix) l.

(** [from_slice] is [serde_json]'s reading of an index. *)
Definition read_index (from_slice : list Z -> option media_index) (bytes : list Z) : result media_index backup_error :=
  let? index := ok_or (from_slice bytes) BackupRejected in
  refuse negb (mx_version index =? INDEX_VERSION) with BackupRejected in
  Ok index.
Definition index_objects (from_slice : list Z -> option media_index) (bytes : list Z) :
  result (list copied_object) backup_error :=
  let? index := read_index from_slice bytes in Ok (mx_objects index).

Fixpoint archived_sites (l : list copied_object) (cap : nat) (sites : list str) : list str * bool :=
  match l with
  | [] => (sites, false)
  | o :: rest =>
      let id := uuid_text (co_site_id o) in
      if existsb (str_eqb id) sites then archived_sites rest cap sites
      else if (length sites =? cap)%nat then (sites, true)
      else archived_sites rest cap (sites ++ [id])
  end.
End Archive.

(** ** The restore of an index *)

Inductive restore_problem := ArchiveUnreadable | ArchiveCorrupt | StoreRefused (reason : str).
Record restore_failure := RestoreFailure { rf_storage_key : str; rf_archive_key : str; rf_reason : restore_problem }.
Record restore_report := RestoreReport {
  rr_objects_restored : Z;
  rr_rows_touched : Z;
  rr_bytes_restored : Z;
  rr_objects_failed : Z;
  rr_failures : list restore_failure;
  rr_dropped : Z
}.
Definition no_restores : restore_report := RestoreReport 0 0 0 0 [] 0.
Definition restore_is_complete (r : restore_report) : bool := rr_objects_failed r =? 0.

Definition count_failure (o : copied_object) (reason : restore_problem) (r : restore_report) : restore_report :=
  RestoreReport (rr_objects_restored r) (rr_rows_touched r) (rr_bytes_restored r) (rr_objects_failed r + 1)
    (if (length (rr_failures r) <? MAX_REPORTED_RESTORE_FAILURES)%nat
     then rr_failures r ++ [RestoreFailure (co_storage_key o) (co_archive_key o) reason] else rr_failures r)
    (rr_dropped r).
Definition count_restored (o : copied_object) (touched : bool) (r : restore_report) : restore_report :=
  RestoreReport (rr_objects_restored r + 1) (rr_rows_touched r + (if touched then 1 else 0))
    (rr_bytes_restored r + Z.max 0 (co_size_bytes o)) (rr_objects_failed r) (rr_failures r) (rr_dropped r).

(** The checks of the [media] table on the columns a restore writes. *)
Definition content_type_char (c : char) : bool :=
  is_ascii_lowercase c || is_ascii_digit c
  || existsb (N.eqb c) [c!"!"; c!"#"; c!"$"; c!"&"; c!"^"; c!"_"; c!"."; c!"+"; c!"-"].
Definition content_type_ok (s : str) : bool :=
  match split_on c!"/" s with
  | [a; b] => negb (str_eqb a []) && negb (str_eqb b []) && forallb content_type_char a && forallb content_type_char b
  | _ => false
  end.
Definition media_row_ok (o : copied_object) : bool :=
  (0 <? co_size_bytes o) && negb (forallb (N.eqb c!" ") (co_filename o)) && content_type_ok (co_content_type o)
  && (length (co_checksum o) =? 64)%nat
  && forallb (fun c => is_ascii_digit c || in_range 97 102 c) (co_checksum o).

(** [insert .. select .. from sites .. on conflict (storage_key) do update .. where ..]: a check
    or the primary key refuses the statement. *)
Definition row_of (now : Z) (o : copied_object) : media_row :=
  MediaRow (MediaObject (co_id o) (co_site_id o) (co_storage_key o) (co_filename o) (co_content_type o)
              (co_size_bytes o) (co_checksum o)) now None None.
Definition has_key (key : str) (r : media_row) : bool := str_eqb (mo_storage_key (mr_object r)) key.
Definition refreshed (o : copied_object) (r : media_row) : media_row :=
  MediaRow (MediaObject (mo_id (mr_object r)) (mo_site_id (mr_object r)) (mo_storage_key (mr_object r)) (co_filename o)
              (co_content_type o) (co_size_bytes o) (co_checksum o)) (mr_created_at r) None None.

Definition restore_row (organization : option Z) (sites : list media_site) (now : Z) (o : copied_object)
  (rows : list media_row) : result (bool * list media_row) backup_error :=
  if negb (site_in_organization organization sites (co_site_id o)) then Ok (false, rows)
  else
    require media_row_ok o else BackupDatabase in
    match List.find (has_key (co_storage_key o)) rows with
    | Some r =>
        if mo_site_id (mr_object r) =? co_site_id o
        then Ok (true, (fun r => if has_key (co_storage_key o) r && (mo_site_id (mr_object r) =? co_site_id o)
                                 then refreshed o r else r) <$> rows)
        else Ok (false, rows)
    | None =>
        refuse existsb (fun r => mo_id (mr_object r) =? co_id o) rows with BackupDatabase in
        Ok (true, rows ++ [row_of now o])
    end.

Section Restore.
Context `{O : ObjectStore}.
Context (sha256_bytes : list Z -> str).

Record library := Library { lb_objects : objects; lb_rows : list media_row }.

(** The reader of the restore: the destination's file under the archive key. *)
Definition read_archived (root : str) (d : disk) (o : copied_object) : option (list Z) :=
  d !! local_path_for root (co_archive_key o).

Definition restore_object (root : str) (d : disk) (organization : option Z) (sites : list media_site) (now : Z)
  (acc : restore_report * library) (o : copied_object) : restore_report * library :=
  let '(report, live) := acc in
  match read_archived root d o with
  | None => (count_failure o ArchiveUnreadable report, live)
  | Some bytes =>
      if negb (str_eqb (sha256_bytes bytes) (co_checksum o)) then (count_failure o ArchiveCorrupt report, live)
      else
        match storage_put (co_storage_key o) bytes (lb_objects live) with
        | (Err e, stored) => (count_failure o (StoreRefused e) report, Library stored (lb_rows live))
        | (Ok _, stored) =>
            let '(touched, rows) := match restore_row organization sites now o (lb_rows live) with
                                    | Ok (touched, rows) => (touched, rows)
                                    | Err _ => (false, lb_rows live)
                                    end in
            (count_restored o touched report, Library stored rows)
        end
  end.

Definition restore_objects (root : str) (d : disk) (organization : option Z) (sites : list media_site) (now : Z)
  (l : list copied_object) (live : library) : restore_report * library :=
  fold_left (restore_object root d organization sites now) l (no_restores, live).
End Restore.

(** ** Names inside the archive: properties *)

Definition segment_char (c : char) : bool :=
  is_ascii_alphanumeric c || (c =? c!"-")%N || (c =? c!"_")%N || (c =? c!".")%N.
Definition no_dotdot (s : str) : Prop := forall l r, s <> l ++ c!"." :: c!"." :: r.

Lemma no_dotdot_app_l a b : no_dotdot (a ++ b) -> no_dotdot a.
Proof. intros H l r ->. apply (H l (r ++ b)). by rewrite <- app_assoc. Qed.
Lemma no_dotdot_app_r a b : no_dotdot (a ++ b) -> no_dotdot b.
Proof. intros H l r ->. apply (H (a ++ l) r). by rewrite <- app_assoc. Qed.

Lemma safe_chars_segment name prev : forallb segment_char (safe_chars prev name) = true.
Proof.
  revert prev. induction name as [|c name IH]; intros prev; [done|]. cbn [safe_chars].
  destruct (c =? c!".")%N eqn:Ed.
  - destruct prev; [apply IH|]. cbn [forallb]. rewrite IH. unfold segment_char. by rewrite Ed, orb_true_r.
  - cbn [forallb]. rewrite IH, andb_true_r. destruct (is_ascii_alphanumeric c || (c =? c!"-")%N || (c =? c!"_")%N) eqn:E; [|done].
    unfold segment_char. by rewrite E.
Qed.

Lemma safe_chars_no_dotdot name prev :
  no_dotdot (safe_chars prev name) /\ (prev = true -> forall r, safe_chars prev name <> c!"." :: r).
Proof.
  revert prev. induction name as [|c name IH]; intros prev; cbn [safe_chars].
  { split; [intros l r H; by destruct l|done]. }
  destruct (c =? c!".")%N eqn:Ed.
  - destruct prev; [apply (IH true)|]. split; [|done]. destruct (IH true) as [Hn Hh].
    intros [|x l] r H; injection H as _ H; [by apply (Hh eq_refl r)|by apply (Hn l r)].
  - destruct (IH false) as [Hn _]. set (c' := if is_ascii_alphanumeric c || (c =? c!"-")%N || (c =? c!"_")%N then c else c!"_").
    assert (c' <> c!".") as Hc'.
    { unfold c'. apply N.eqb_neq. destruct (is_ascii_alphanumeric c || (c =? c!"-")%N || (c =? c!"_")%N); done. }
    split.
    + intros [|x l] r H; injection H as H1 H; [done|by apply (Hn l r)].
    + intros _ r H. by injection H as H _.
Qed.


(** The name an object gets in the archive is one path segment whatever was uploaded: at most 120
    characters, letters, digits, hyphens, underscores and dots only, never empty, never starting
    with a dot and never holding two dots in a row. *)
Theorem safe_filename_is_a_segment (name : str) :
  let out := safe_filename name in
  out <> [] /\ (length out <= MAX_FILENAME)%nat /\ forallb segment_char out = true /\ no_dotdot out
  /\ forall r, out <> c!"." :: r.
Proof.
  cbv zeta. unfold safe_filename. set (clean := safe_chars false name).
  destruct (trim_start_by_split (N.eqb c!".") clean) as [d1 H1].
  set (front := trim_start_by (N.eqb c!".") clean) in *.
  destruct (trim_end_by_split (N.eqb c!".") front) as [d2 H2].
  set (middle := trim_end_by (N.eqb c!".") front) in *.
  assert (Hs : forallb segment_char clean = true) by apply safe_chars_segment.
  assert (Hd : no_dotdot clean) by apply (safe_chars_no_dotdot name false).
  assert (Hh : forall r, middle <> c!"." :: r).
  { intros r Hm. destruct (trim_start_by_head (N.eqb c!".") clean) as [E|(c & s & E & Hc)]; fold front in E; rewrite E, Hm in H2;
      [done|]. injection H2 as Hcc _. rewrite Hcc in Hc. discriminate. }
  rewrite H1, H2 in Hs, Hd. apply forallb_app_inv in Hs as [_ Hs]. apply no_dotdot_app_r in Hd.
  rewrite <- (take_drop MAX_FILENAME middle) in Hs, Hd, Hh.
  apply forallb_app_inv in Hs as [Hs _]. apply forallb_app_inv in Hs as [Hs _].
  apply no_dotdot_app_l, no_dotdot_app_l in Hd.
  pose proof (firstn_le_length MAX_FILENAME middle) as Hlen.
  destruct (take MAX_FILENAME middle) as [|c out] eqn:Et.
  - split_and!; [done|by apply Nat.leb_le|done| |done]. intros l r H.
    assert (E : existsb (N.eqb c!".") s!"file" = true) by (rewrite H, existsb_app; apply orb_true_iff; by right).
    discriminate E.
  - split_and!; [done|done|done|done|]. intros r [= -> _]. by apply (Hh (out ++ drop MAX_FILENAME middle)).
Qed.

(** The truncation comes after the trimming, so a long name can still end in a dot. *)
Theorem truncated_name_ends_in_a_dot :
  exists name, length (safe_filename name) = MAX_FILENAME /\ List.last (safe_filename name) 0%N = c!".".
Proof. exists (repeat c!"a" 119 ++ s!".png"). split; vm_compute; reflexivity. Qed.

(** ** Paths of a run *)

Definition join_base (root : str) : str := if ends_with (trim root) s!"/" then trim root else trim root ++ s!"/".
Definition run_base (root prefix : str) : str :=
  join_base root ++ trim_start_by (N.eqb c!"/") (storage_prefix prefix).
(** A name that a key can end in. *)
Definition file_name (s : str) : Prop := s <> [] /\ forall r, s <> c!"/" :: r.

Lemma path_join_base root relative : path_join (trim root) relative = join_base root ++ relative.
Proof. unfold path_join, join_base. destruct (ends_with _ _); [done|]. by rewrite <- app_assoc. Qed.

Lemma trim_slashes_split s :
  trim_slashes s = [] \/ (exists c r, trim_slashes s = c :: r /\ N.eqb c!"/" c = false).
Proof.
  unfold trim_slashes. destruct (trim_end_by_split (N.eqb c!"/") (trim_start_by (N.eqb c!"/") s)) as [d Hd].
  destruct (trim_end_by _ _) as [|c r]; [by left|right]. exists c, r. split; [done|].
  destruct (trim_start_by_head (N.eqb c!"/") s) as [E|(c' & r' & E & Hc)]; rewrite E in Hd; [done|].
  by injection Hd as -> _.
Qed.

Lemma storage_prefix_split prefix :
  storage_prefix prefix = []
  \/ exists c r, storage_prefix prefix = c!"/" :: c :: r /\ N.eqb c!"/" c = false.
Proof.
  unfold storage_prefix. destruct (trim_slashes_split (trim prefix)) as [->|(c & r & -> & Hc)]; [by left|right].
  cbn [str_eqb]. exists c, (r ++ s!"/"). by split.
Qed.

Lemma trim_key prefix suffix : file_name suffix ->
  trim_start_by (N.eqb c!"/") (storage_prefix prefix ++ suffix)
    = trim_start_by (N.eqb c!"/") (storage_prefix prefix) ++ suffix.
Proof.
  intros [Hne Hns]. destruct (storage_prefix_split prefix) as [->|(c & r & -> & Hc)].
  - destruct suffix as [|c s]; [done|]. cbn [app trim_start_by].
    destruct (N.eqb_spec c!"/" c) as [<-|]; [by destruct (Hns s)|done].
  - cbn [app trim_start_by]. by rewrite N.eqb_refl, Hc.
Qed.

(** A key of a run names a file under the run's own base. *)
Lemma local_path_under root prefix suffix : file_name suffix ->
  local_path_for root (storage_prefix prefix ++ suffix) = run_base root prefix ++ suffix.
Proof.
  intros H. unfold local_path_for. rewrite trim_key by done.
  replace (str_eqb _ []) with false.
  - unfold run_base. by rewrite path_join_base, app_assoc.
  - symmetry. apply str_eqb_neq. destruct H as [Hne _]. by destruct (trim_start_by _ _), suffix.
Qed.

Section ArchivePaths.
Context `{U : Uuids, F : FileSystem, O : ObjectStore, L : !UuidLaws U}.

Lemma object_key_name site id name : file_name (object_key site id name).
Proof. split; [done|]. intros r H. unfold object_key in H. discriminate H. Qed.

Definition archive_path (root prefix : str) (o : media_object) : str := local_path_for root (archive_key prefix o).

Lemma archive_path_under root prefix o :
  archive_path root prefix o
    = run_base root prefix ++ object_key (mo_site_id o) (mo_id o) (safe_filename (mo_filename o)).
Proof. apply local_path_under, object_key_name. Qed.

Lemma written_path root prefix o :
  path_join (trim root) (trim_start_by (N.eqb c!"/") (archive_key prefix o)) = archive_path root prefix o.
Proof.
  rewrite archive_path_under. unfold archive_key. rewrite trim_key by apply object_key_name.
  by rewrite path_join_base, app_assoc.
Qed.

(** Two rows never share a path: the id leads the name and is as long as every other. *)
Lemma archive_path_inj root prefix o o' :
  is_uuid (mo_id o) -> is_uuid (mo_id o') -> archive_path root prefix o = archive_path root prefix o' -> mo_id o = mo_id o'.
Proof.
  intros H1 H2. rewrite !archive_path_under. intros E%app_inv_head. unfold object_key in E.
  apply app_inv_head, app_inv_head in E.
  apply app_inj_1 in E as [_ E]; [|by rewrite !uuid_text_length].
  apply app_inv_head in E. apply app_inj_1 in E as [E _]; [|by rewrite !uuid_text_length].
  by apply uuid_text_inj.
Qed.
End ArchivePaths.

(** ** What a copy leaves *)

Section CopyFacts.
Context `{U : Uuids, F : FileSystem, O : ObjectStore, L : !UuidLaws U}.
Context (sha256_bytes : list Z -> str) (live : objects) (root prefix : str).

Definition writable (path : str) : bool := negb (is_given (write_refusal path)).
(** The bytes of an object that lands in the archive. *)
Definition landed_bytes (o : media_object) : option (list Z) :=
  match object_bytes sha256_bytes live o with
  | Ok bytes => if writable (archive_path root prefix o) then Some bytes else None
  | Err _ => None
  end.
Definition landed (o : media_object) : option copied_object := copied sha256_bytes prefix o <$> landed_bytes o.

Lemma copy_object_spec r d o r' d' :
  copy_object sha256_bytes live root prefix (r, d) o = (r', d') ->
  cr_objects r' = cr_objects r ++ option_list (landed o)
  /\ cr_objects_copied r' = cr_objects_copied r + Z.b2z (is_given (landed_bytes o))
  /\ cr_objects_failed r' = cr_objects_failed r + Z.b2z (negb (is_given (landed_bytes o)))
  /\ cr_bytes_copied r' = cr_bytes_copied r + (match landed_bytes o with Some b => Z.of_nat (length b) | None => 0 end)
  /\ (forall path, path <> archive_path root prefix o -> d' !! path = d !! path)
  /\ (forall bytes, landed_bytes o = Some bytes -> d' !! archive_path root prefix o = Some bytes).
Proof.
  unfold copy_object, landed, landed_bytes. destruct (object_bytes _ live o) as [bytes|problem].
  - unfold write_media_object. rewrite written_path. unfold write_file, writable.
    destruct (write_refusal _) as [e|]; intros [= <- <-]; simpl.
    + rewrite app_nil_r. split_and!; [done|lia|lia|lia| |done].
      intros path Hp. destruct (we_left e); [by rewrite lookup_insert_ne|done].
    + split_and!; [done|lia|lia|done| |]; [intros path Hp; by rewrite lookup_insert_ne|].
      intros b [= ->]. apply lookup_insert_eq.
  - intros [= <- <-]. simpl. rewrite app_nil_r. by split_and!; try lia.
Qed.

Definition landed_count (l : list media_object) : nat := length (List.filter (fun o => is_given (landed_bytes o)) l).

Lemma copy_fold_spec l : forall r d r' d',
  fold_left (copy_object sha256_bytes live root prefix) l (r, d) = (r', d') ->
  cr_objects r' = cr_objects r ++ omap landed l
  /\ cr_objects_copied r' = cr_objects_copied r + Z.of_nat (landed_count l)
  /\ cr_objects_copied r' + cr_objects_failed r' = cr_objects_copied r + cr_objects_failed r + Z.of_nat (length l)
  /\ (forall path, (forall o, o ∈ l -> path <> archive_path root prefix o) -> d' !! path = d !! path).
Proof.
  induction l as [|o l IH]; intros r d r' d' H.
  - injection H as <- <-. unfold landed_count. simpl. rewrite app_nil_r. split_and!; try done; lia.
  - cbn [fold_left] in H. destruct (copy_object _ _ _ _ _ o) as [r1 d1] eqn:E1.
    apply copy_object_spec in E1 as (Ho & Hc & Hf & _ & Hd & _).
    apply IH in H as (Ho' & Hc' & Hf' & Hd'). unfold landed_count in *. cbn [List.filter omap list_omap length].
    rewrite Ho', Ho, <- app_assoc. split_and!.
    + unfold landed at 1 3. by destruct (landed_bytes o).
    + rewrite Hc', Hc. destruct (is_given (landed_bytes o)); cbn [length Z.b2z]; lia.
    + rewrite Hf', Hf, Hc. destruct (is_given (landed_bytes o)); cbn [negb Z.b2z]; lia.
    + intros path Hp. rewrite Hd' by (intros o' Ho''; apply Hp; by right). apply Hd, Hp. by left.
Qed.

(** The bytes of each row that landed stay where they were written. *)
Lemma copy_fold_files l : forall r d r' d',
  NoDup (mo_id <$> l) -> Forall (fun o => is_uuid (mo_id o)) l ->
  fold_left (copy_object sha256_bytes live root prefix) l (r, d) = (r', d') ->
  forall o bytes, o ∈ l -> landed_bytes o = Some bytes -> d' !! archive_path root prefix o = Some bytes.
Proof.
  induction l as [|o l IH]; intros r d r' d' Hn Hu H o' bytes Ho' Hb; [by apply elem_of_nil in Ho'|].
  cbn [fold_left] in H. destruct (copy_object _ _ _ _ _ o) as [r1 d1] eqn:E1.
  apply NoDup_cons in Hn as [Hnotin Hn]. apply Forall_cons in Hu as [Huo Hu].
  apply elem_of_cons in Ho' as [->|Ho']; [|by eapply (IH r1 d1 r' d')].
  apply copy_object_spec in E1 as (_ & _ & _ & _ & _ & Hd). apply copy_fold_spec in H as (_ & _ & _ & Hd').
  rewrite Hd'; [by apply Hd|]. intros o'' Ho'' E. apply Hnotin.
  rewrite Forall_forall in Hu. rewrite (archive_path_inj root prefix o o''); try done; [|by apply Hu].
  by apply list_elem_of_fmap_2.
Qed.

(** The report of a copy is exact: the objects it lists are, in order, the rows whose bytes were
    readable, within the cap, of the recorded size and checksum and writable; the counts add up
    to the rows; a complete report lists every row; and the file of each listed row holds the
    bytes of the store, while no file outside the rows' own paths has changed. *)
Lemma copy_report_exact (l : list media_object) (d : disk) :
  NoDup (mo_id <$> l) -> Forall (fun o => is_uuid (mo_id o)) l ->
  let '(r, d') := copy_objects sha256_bytes live root prefix l d in
  cr_objects r = omap landed l
  /\ cr_objects_copied r = Z.of_nat (length (cr_objects r))
  /\ cr_objects_copied r + cr_objects_failed r = Z.of_nat (length l)
  /\ (copy_is_complete r = true <-> forall o, o ∈ l -> is_Some (landed_bytes o))
  /\ (forall o bytes, o ∈ l -> landed_bytes o = Some bytes -> d' !! archive_path root prefix o = Some bytes)
  /\ (forall path, (forall o, o ∈ l -> path <> archive_path root prefix o) -> d' !! path = d !! path).
Proof.
  intros Hn Hu. unfold copy_objects. destruct (fold_left _ _ _) as [r d'] eqn:E. cbn.
  destruct (copy_fold_spec _ _ _ _ _ E) as (Ho & Hc & Hf & Hd). simpl in Ho, Hc, Hf.
  assert (Hlen : length (omap landed l) = landed_count l).
  { clear. unfold landed_count. induction l as [|o l IH]; [done|]. cbn [omap list_omap List.filter]. unfold landed at 1.
    destruct (landed_bytes o); simpl; by rewrite IH. }
  split_and!; [done|rewrite Ho, Hlen; lia|lia| |by eapply copy_fold_files|done].
  unfold copy_is_complete. cbn. rewrite Z.eqb_eq.
  assert (Hall : landed_count l = length l <-> forall o, o ∈ l -> is_Some (landed_bytes o)).
  { unfold landed_count. rewrite filter_all_length.
    split; intros H o Ho'; apply H in Ho'; destruct (landed_bytes o); try done; by destruct Ho'. }
  rewrite <- Hall. lia.
Qed.
End CopyFacts.

(** ** What a restore writes *)

Section RestoreFacts.
Context `{O : ObjectStore}.
Context (sha256_bytes : list Z -> str) (root : str) (d : disk).
Context (organization : option Z) (sites : list media_site) (now : Z).

(** The bytes a restore writes for an object: read back, hashed as the index says, accepted. *)
Definition restorable_bytes (o : copied_object) : option (list Z) :=
  match read_archived root d o with
  | Some bytes =>
      if str_eqb (sha256_bytes bytes) (co_checksum o) && negb (is_given (put_refusal (co_storage_key o)))
      then Some bytes else None
  | None => None
  end.

(** The rows of sites outside the organization. *)
Definition foreign (r : media_row) : bool := negb (site_in_organization organization sites (mo_site_id (mr_object r))).

Lemma restore_row_foreign o rows touched rows' :
  restore_row organization sites now o rows = Ok (touched, rows') ->
  List.filter foreign rows' = List.filter foreign rows.
Proof.
  unfold restore_row. destruct (site_in_organization organization sites (co_site_id o)) eqn:Eo; [|by intros [= _ <-]].
  cbn [negb]. destruct (media_row_ok o); [|done].
  destruct (List.find _ rows) as [r|].
  - destruct (_ =? _); intros [= _ <-]; [|done].
    induction rows as [|x rows IH]; [done|]. cbn [fmap list_fmap List.filter].
    destruct (has_key _ x && _) eqn:Ex; [|by destruct (foreign x); rewrite IH].
    apply andb_true_iff in Ex as [_ Ex%Z.eqb_eq].
    assert (Hx : foreign x = false) by (unfold foreign; by rewrite Ex, Eo).
    assert (Hr : foreign (refreshed o x) = false) by exact Hx.
    by rewrite Hx, Hr.
  - destruct (existsb _ rows); [done|]. intros [= _ <-]. rewrite List.filter_app.
    assert (Hr : foreign (row_of now o) = false) by (unfold foreign; simpl; by rewrite Eo).
    cbn [List.filter]. by rewrite Hr, app_nil_r.
Qed.

Lemma restore_object_spec r live o r' live' :
  restore_object sha256_bytes root d organization sites now (r, live) o = (r', live') ->
  lb_objects live' = match restorable_bytes o with
                     | Some bytes => <[co_storage_key o := bytes]> (lb_objects live)
                     | None => lb_objects live
                     end
  /\ rr_objects_restored r' = rr_objects_restored r + Z.b2z (is_given (restorable_bytes o))
  /\ rr_objects_failed r' = rr_objects_failed r + Z.b2z (negb (is_given (restorable_bytes o)))
  /\ rr_dropped r' = rr_dropped r
  /\ List.filter foreign (lb_rows live') = List.filter foreign (lb_rows live).
Proof.
  unfold restore_object, restorable_bytes. destruct (read_archived root d o) as [bytes|].
  2: { intros [= <- <-]. simpl. split_and!; try done; lia. }
  destruct (str_eqb (sha256_bytes bytes) (co_checksum o)); cbn [negb andb].
  2: { intros [= <- <-]. simpl. split_and!; try done; lia. }
  unfold storage_put. destruct (put_refusal (co_storage_key o)); cbn [is_given negb].
  { intros [= <- <-]. simpl. split_and!; try done; lia. }
  destruct (restore_row _ _ _ o (lb_rows live)) as [[touched rows]|] eqn:E; intros [= <- <-]; simpl;
    split_and!; try done; try lia.
  by apply restore_row_foreign in E.
Qed.

Lemma restore_fold_spec l : forall r live r' live',
  NoDup (co_storage_key <$> l) ->
  fold_left (restore_object sha256_bytes root d organization sites now) l (r, live) = (r', live') ->
  (forall o, o ∈ l -> lb_objects live' !! co_storage_key o
     = match restorable_bytes o with Some bytes => Some bytes | None => lb_objects live !! co_storage_key o end)
  /\ (forall key, key ∉ (co_storage_key <$> l) -> lb_objects live' !! key = lb_objects live !! key)
  /\ rr_objects_restored r' + rr_objects_failed r'
       = rr_objects_restored r + rr_objects_failed r + Z.of_nat (length l)
  /\ rr_objects_restored r'
       = rr_objects_restored r + Z.of_nat (length (List.filter (fun o => is_given (restorable_bytes o)) l))
  /\ rr_dropped r' = rr_dropped r
  /\ List.filter foreign (lb_rows live') = List.filter foreign (lb_rows live).
Proof.
  induction l as [|o l IH]; intros r live r' live' Hn H.
  { injection H as <- <-. simpl. split_and!; try done; try lia. by intros o ?%elem_of_nil. }
  cbn [fold_left] in H. destruct (restore_object _ _ _ _ _ _ _ o) as [r1 live1] eqn:E1.
  apply restore_object_spec in E1 as (Ho & Hc & Hf & Hdr & Hrows).
  apply NoDup_cons in Hn as [Hnotin Hn]. apply IH in H as (Ho' & Hk & Hs & Hc' & Hdr' & Hrows'); [|done].
  cbn [List.filter length fmap list_fmap].
  assert (Hother : forall key, key <> co_storage_key o -> lb_objects live1 !! key = lb_objects live !! key).
  { intros key Hne. rewrite Ho. destruct (restorable_bytes o); [by rewrite lookup_insert_ne|done]. }
  split_and!.
  - intros o' [->|Ho'']%elem_of_cons.
    + rewrite Hk by done. rewrite Ho. destruct (restorable_bytes o); [apply lookup_insert_eq|done].
    + rewrite Ho' by done. destruct (restorable_bytes o'); [done|]. apply Hother. intros E. apply Hnotin. rewrite <- E.
      by apply list_elem_of_fmap_2.
  - intros key [Hne Hnot]%not_elem_of_cons. rewrite Hk by done. by apply Hother.
  - rewrite Hs, Hc, Hf. destruct (is_given (restorable_bytes o)); cbn [negb Z.b2z]; lia.
  - rewrite Hc', Hc. destruct (is_given (restorable_bytes o)); cbn [length Z.b2z]; lia.
  - by rewrite Hdr', Hdr.
  - by rewrite Hrows', Hrows.
Qed.

(** A restore writes exactly the objects whose archived bytes were read back and hash to what the
    index recorded: an object that fails either, or that the store refuses, leaves its key as it
    was, and no key outside the index changes.  Nothing is dropped, the counts add up to the index,
    and no row of another organization's site is written or changed. *)
Theorem restore_writes_only_checked_bytes (l : list copied_object) (live : library) :
  NoDup (co_storage_key <$> l) ->
  let '(r, live') := restore_objects sha256_bytes root d organization sites now l live in
  (forall o, o ∈ l -> lb_objects live' !! co_storage_key o
     = match restorable_bytes o with Some bytes => Some bytes | None => lb_objects live !! co_storage_key o end)
  /\ (forall key, key ∉ (co_storage_key <$> l) -> lb_objects live' !! key = lb_objects live !! key)
  /\ rr_objects_restored r + rr_objects_failed r = Z.of_nat (length l)
  /\ (restore_is_complete r = true <-> forall o, o ∈ l -> is_Some (restorable_bytes o))
  /\ rr_dropped r = 0
  /\ List.filter foreign (lb_rows live') = List.filter foreign (lb_rows live).
Proof.
  intros Hn. destruct (restore_objects _ _ _ _ _ _ l live) as [r live'] eqn:E.
  apply (restore_fold_spec _ _ _ _ _ Hn) in E as (Ho & Hk & Hs & Hc & Hd & Hr). simpl in Hs, Hc, Hd.
  split_and!; try done; try lia.
  unfold restore_is_complete. rewrite Z.eqb_eq.
  pose proof (filter_all_length (fun o => is_given (restorable_bytes o)) l) as Hall.
  transitivity (forall o, o ∈ l -> is_given (restorable_bytes o) = true); [rewrite <- Hall; lia|].
  split; intros H o Hin; apply H in Hin; destruct (restorable_bytes o); try done; by destruct Hin.
Qed.
End RestoreFacts.

(** ** A copy and its restore *)

Section RoundTrip.
Context `{U : Uuids, F : FileSystem, O : ObjectStore, L : !UuidLaws U}.
Context (sha256_bytes : list Z -> str) (root prefix : str).

Lemma object_bytes_stored (stored : objects) o bytes :
  object_bytes sha256_bytes stored o = Ok bytes -> stored !! mo_storage_key o = Some bytes.
Proof.
  unfold object_bytes. destruct (_ <? _); [done|]. unfold storage_get.
  destruct (get_refusal _); [done|]. destruct (stored !! _) as [b|]; [|done]. simpl.
  destruct (negb (_ =? _)); [done|]. destruct (_ && _); [done|]. by intros [= ->].
Qed.

Lemma landed_bytes_stored stored o bytes :
  landed_bytes sha256_bytes stored root prefix o = Some bytes -> stored !! mo_storage_key o = Some bytes.
Proof.
  unfold landed_bytes. destruct (object_bytes _ stored o) eqn:E; [|done]. destruct (writable _); [|done].
  intros [= ->]. by apply object_bytes_stored.
Qed.

Lemma landed_bytes_size stored o bytes :
  landed_bytes sha256_bytes stored root prefix o = Some bytes -> Z.of_nat (length bytes) = mo_size_bytes o.
Proof.
  unfold landed_bytes, object_bytes. destruct (_ <? _); [done|]. destruct (storage_get _ _) as [b|]; [|done].
  destruct (Z.eqb_spec (Z.of_nat (length b)) (mo_size_bytes o)) as [E|]; cbn [negb]; [|done].
  destruct (_ && _); [done|]. destruct (writable _); [|done]. by intros [= <-].
Qed.

Lemma landed_keys stored l : (forall o, o ∈ l -> is_Some (landed_bytes sha256_bytes stored root prefix o)) ->
  co_storage_key <$> omap (landed sha256_bytes stored root prefix) l = mo_storage_key <$> l
  /\ length (omap (landed sha256_bytes stored root prefix) l) = length l
  /\ (forall o, o ∈ l -> exists bytes, landed_bytes sha256_bytes stored root prefix o = Some bytes
        /\ copied sha256_bytes prefix o bytes ∈ omap (landed sha256_bytes stored root prefix) l).
Proof.
  induction l as [|o l IH]; intros H; [split_and!; try done; by intros o ?%elem_of_nil|].
  destruct (H o ltac:(by left)) as [b Hb].
  destruct IH as (Hk & Hlen & Hin); [intros o' Ho'; apply H; by right|].
  assert (E : omap (landed sha256_bytes stored root prefix) (o :: l)
              = copied sha256_bytes prefix o b :: omap (landed sha256_bytes stored root prefix) l)
    by (simpl; unfold landed at 1; by rewrite Hb).
  rewrite E. cbn [fmap list_fmap length]. split_and!; [by rewrite <- Hk|by rewrite Hlen|].
  intros o' [->|Ho']%elem_of_cons; [exists b; split; [done|by left]|].
  destruct (Hin o' Ho') as (b' & Hb' & Hc). exists b'. split; [done|by right].
Qed.

(** A complete copy of the library restores to it: whatever happened to the live library since,
    restoring the copied objects from an archive that is as the copy left it brings every object
    back to the bytes it had when it was copied, touches no other object, and says so. *)
Theorem restored_objects_are_the_copied_ones (stored : objects) (l : list media_object) (d d1 d2 : disk) (report : copy_report)
  (organization : option Z) (sites : list media_site) (now : Z) (live : library) :
  NoDup (mo_id <$> l) -> Forall (fun o => is_uuid (mo_id o)) l -> NoDup (mo_storage_key <$> l) ->
  copy_objects sha256_bytes stored root prefix l d = (report, d1) -> copy_is_complete report = true ->
  (forall o, o ∈ l -> d2 !! archive_path root prefix o = d1 !! archive_path root prefix o) ->
  (forall o, o ∈ l -> put_refusal (mo_storage_key o) = None) ->
  let '(r, live') := restore_objects sha256_bytes root d2 organization sites now (cr_objects report) live in
  restore_is_complete r = true
  /\ rr_objects_restored r = Z.of_nat (length l)
  /\ (forall o, o ∈ l -> is_Some (stored !! mo_storage_key o)
        /\ lb_objects live' !! mo_storage_key o = stored !! mo_storage_key o)
  /\ (forall key, key ∉ (mo_storage_key <$> l) -> lb_objects live' !! key = lb_objects live !! key).
Proof.
  intros Hn Hu Hkeys Hcopy Hcomplete Hsame Hput.
  pose proof (copy_report_exact sha256_bytes stored root prefix l d Hn Hu) as H. rewrite Hcopy in H.
  destruct H as (Hobjects & _ & _ & Hc & Hfiles & _). rewrite Hc in Hcomplete.
  destruct (landed_keys stored l Hcomplete) as (Hk & Hlen & Hin). rewrite <- Hobjects in Hk, Hlen, Hin.
  pose proof (restore_writes_only_checked_bytes sha256_bytes root d2 organization sites now (cr_objects report) live) as R.
  rewrite Hk in R. specialize (R Hkeys). destruct (restore_objects _ _ _ _ _ _ _ live) as [r live'].
  destruct R as (Ho & Hother & Hcount & Hall & _).
  assert (Hbytes : forall o, o ∈ l -> exists bytes, landed_bytes sha256_bytes stored root prefix o = Some bytes
            /\ copied sha256_bytes prefix o bytes ∈ cr_objects report
            /\ restorable_bytes sha256_bytes root d2 (copied sha256_bytes prefix o bytes) = Some bytes).
  { intros o Hol. destruct (Hin o Hol) as (b & Hb & Hc'). exists b. split; [done|]. split; [done|].
    unfold restorable_bytes, read_archived. cbn [co_archive_key copied co_checksum co_storage_key].
    fold (archive_path root prefix o). rewrite (Hsame o Hol), (Hfiles o b Hol Hb), str_eqb_refl, (Hput o Hol). done. }
  assert (Hr : restore_is_complete r = true).
  { apply Hall. intros c Hcin. rewrite Hobjects in Hcin. apply list_elem_of_omap in Hcin as (o & Hol & Hland).
    destruct (Hbytes o Hol) as (b & Hb & _ & Hrb). unfold landed in Hland. rewrite Hb in Hland. injection Hland as <-.
    by rewrite Hrb. }
  split_and!; [done| | |done].
  - unfold restore_is_complete in Hr. apply Z.eqb_eq in Hr. rewrite Hlen in Hcount. lia.
  - intros o Hol. destruct (Hbytes o Hol) as (b & Hb & Hcin & Hrb). pose proof (landed_bytes_stored stored o b Hb) as Hs.
    split; [by rewrite Hs|]. rewrite Hs. specialize (Ho _ Hcin). rewrite Hrb in Ho. exact Ho.
Qed.
End RoundTrip.

(** ** Ids in hexadecimal *)

Definition hex_digit (z : Z) : char := Z.to_N (if z <? 10 then 48 + z else 87 + z).
Fixpoint hex_digits (n : nat) (z : Z) : str :=
  match n with O => [] | S n => hex_digits n (z / 16) ++ [hex_digit (z mod 16)] end.
Definition hyphenated (h : str) : str :=
  take 8 h ++ s!"-" ++ take 4 (drop 8 h) ++ s!"-" ++ take 4 (drop 4 (drop 8 h)) ++ s!"-"
  ++ take 4 (drop 4 (drop 4 (drop 8 h))) ++ s!"-" ++ drop 4 (drop 4 (drop 4 (drop 8 h))).
#[export] Instance hex_uuids : Uuids := {| uuid_text z := hyphenated (hex_digits 32 z) |}.

Lemma hex_digits_length n z : length (hex_digits n z) = n.
Proof. revert z. induction n as [|n IH]; intros z; [done|]. cbn [hex_digits]. rewrite length_app, IH. simpl. lia. Qed.

Lemma hex_digit_ok z : is_ascii_hexdigit (hex_digit (z mod 16)) = true.
Proof.
  pose proof (Z.mod_pos_bound z 16 ltac:(lia)) as H. unfold hex_digit.
  assert (Hc : z mod 16 ∈ Z.of_nat <$> seq 0 16).
  { apply list_elem_of_fmap. exists (Z.to_nat (z mod 16)). split; [lia|]. apply elem_of_seq. lia. }
  revert Hc. generalize (z mod 16). intros m Hm. simpl in Hm. set_unfold in Hm.
  repeat (destruct Hm as [->|Hm]; [reflexivity|]). done.
Qed.

Lemma hex_digit_inj a b : 0 <= a < 16 -> 0 <= b < 16 -> hex_digit a = hex_digit b -> a = b.
Proof.
  intros Ha Hb. unfold hex_digit.
  destruct (Z.ltb_spec a 10), (Z.ltb_spec b 10); intros E; apply (f_equal Z.of_N) in E; rewrite !Z2N.id in E; lia.
Qed.

Lemma hex_digits_ok n z : forallb is_ascii_hexdigit (hex_digits n z) = true.
Proof.
  revert z. induction n as [|n IH]; intros z; [done|]. cbn [hex_digits]. rewrite forallb_app, IH. simpl.
  by rewrite hex_digit_ok.
Qed.

Lemma hex_digits_inj n a b : 0 <= a < 16 ^ Z.of_nat n -> 0 <= b < 16 ^ Z.of_nat n ->
  hex_digits n a = hex_digits n b -> a = b.
Proof.
  revert a b. induction n as [|n IH]; intros a b Ha Hb H; [simpl in *; lia|].
  rewrite Nat2Z.inj_succ, Z.pow_succ_r in Ha, Hb by lia. cbn [hex_digits] in H.
  apply app_inj_tail in H as [H Hd].
  apply hex_digit_inj in Hd; [|apply Z.mod_pos_bound; lia..].
  apply IH in H; [|split; [apply Z.div_pos; lia|apply Z.div_lt_upper_bound; lia]..].
  rewrite (Z.div_mod a 16), (Z.div_mod b 16) by lia. by rewrite H, Hd.
Qed.

Definition dashless : str -> str := List.filter (fun c => negb (c =? c!"-")%N).
Lemma dashless_hex s : forallb is_ascii_hexdigit s = true -> dashless s = s.
Proof.
  induction s as [|c s IH]; [done|]. cbn [forallb]. intros [Hc Hs]%andb_true_iff. unfold dashless in *. cbn [List.filter].
  destruct (N.eqb_spec c c!"-") as [->|]; [done|]. cbn [negb]. by rewrite IH.
Qed.
Lemma dashless_hyphenated h : forallb is_ascii_hexdigit h = true -> dashless (hyphenated h) = h.
Proof.
  intros H. unfold hyphenated. set (h8 := drop 8 h). set (h12 := drop 4 h8). set (h16 := drop 4 h12).
  assert (E16 : take 4 h16 ++ drop 4 h16 = h16) by apply take_drop.
  assert (E12 : take 4 h12 ++ h16 = h12) by apply take_drop.
  assert (E8 : take 4 h8 ++ h12 = h8) by apply take_drop.
  assert (E0 : take 8 h ++ h8 = h) by apply take_drop.
  rewrite <- E0, <- E8, <- E12, <- E16 in H.
  apply forallb_app_inv in H as [H0 H]. apply forallb_app_inv in H as [H8 H]. apply forallb_app_inv in H as [H12 H].
  apply forallb_app_inv in H as [H16 H20].
  assert (D : forall a b, dashless (a ++ b) = dashless a ++ dashless b) by (intros; apply List.filter_app).
  rewrite !D. change (dashless s!"-") with (@nil char). cbn [app]. rewrite !dashless_hex by done. by rewrite E16, E12, E8, E0.
Qed.

#[export] Instance hex_uuid_laws : UuidLaws hex_uuids.
Proof.
  split.
  - intros z. cbn [uuid_text hex_uuids]. unfold hyphenated. pose proof (hex_digits_length 32 z) as H.
    rewrite !length_app, !length_take, !length_drop, H. reflexivity.
  - intros z. cbn [uuid_text hex_uuids]. unfold hyphenated. pose proof (hex_digits_ok 32 z) as H.
    set (f := fun c => is_ascii_hexdigit c || (c =? c!"-")%N).
    assert (Hf : forall s, forallb is_ascii_hexdigit s = true -> forallb f s = true).
    { intros s. rewrite !forallb_forall. intros Hs c Hc. unfold f. by rewrite (Hs c Hc). }
    assert (Ht : forall n s, forallb is_ascii_hexdigit s = true -> forallb is_ascii_hexdigit (take n s) = true
                   /\ forallb is_ascii_hexdigit (drop n s) = true).
    { intros n s Hs. rewrite <- (take_drop n s) in Hs. by apply forallb_app_inv. }
    rewrite !forallb_app. rewrite !andb_true_iff. pose proof (fun n => proj2 (Ht n _ H)) as H8. pose proof (fun n => proj2 (Ht 4%nat _ (H8 n))) as H12.
    pose proof (fun n => proj2 (Ht 4%nat _ (H12 n))) as H16.
    repeat apply conj; try reflexivity; apply Hf; try apply Ht; try done; apply H16.
  - intros a b Ha Hb E. cbn [uuid_text hex_uuids] in E. apply (f_equal dashless) in E.
    rewrite !dashless_hyphenated in E by apply hex_digits_ok.
    apply (hex_digits_inj 32); [exact Ha|exact Hb|exact E].
Qed.

(** ** A library to evaluate on *)

Definition plain_disk : FileSystem := {| write_refusal _ := None |}.
Definition plain_store : ObjectStore :=
  {| get_refusal _ := None; put_refusal _ := None; missing_text key := key ++ s!" is missing" |}.
Definition digest (bytes : list Z) : str := mjoin (show_Z <$> bytes).
Definition sample_objects : objects := <[s!"sites/1/a.png" := [1; 2; 3]]> (<[s!"sites/1/b.png" := [4]]> ∅).
Definition sample_media : list media_object :=
  [MediaObject 10 1 s!"sites/1/a.png" s!"logo.png" s!"image/png" 3 s!"123";
   MediaObject 11 1 s!"sites/1/b.png" s!"logo.png" s!"image/png" 1 []].
Definition sample_copy : copy_report * disk :=
  copy_objects (F := plain_disk) (O := plain_store) digest sample_objects s!"/var/backups" s!"/2026-01-01/run/" sample_media ∅.

Lemma restored_objects_are_the_copied_ones_witness :
  let '(r, live) := restore_objects (O := plain_store) digest s!"/var/backups" sample_copy.2 None [] 0
                      (cr_objects sample_copy.1) (Library ∅ []) in
  restore_is_complete r = true
  /\ rr_objects_restored r = Z.of_nat (length sample_media)
  /\ (forall o, o ∈ sample_media -> is_Some (sample_objects !! mo_storage_key o)
        /\ lb_objects live !! mo_storage_key o = sample_objects !! mo_storage_key o)
  /\ (forall key, key ∉ (mo_storage_key <$> sample_media) -> lb_objects live !! key = (∅ : objects) !! key).
Proof.
  apply (restored_objects_are_the_copied_ones (F := plain_disk) (O := plain_store) digest s!"/var/backups" s!"/2026-01-01/run/"
    sample_objects sample_media ∅ sample_copy.2 sample_copy.2 sample_copy.1 None [] 0 (Library ∅ [])).
  - by_compute.
  - repeat constructor; cbn; lia.
  - by_compute.
  - apply surjective_pairing.
  - vm_compute. reflexivity.
  - done.
  - done.
Defined.
