(* ===== verification/BackupRuns.v ===== *)
(** * Producing a run: [produce_all], [produce_media], [observe] and the creating routes of
      [apps/api/src/routes/backups.rs], the settings of [crates/backup/src/store.rs]

    How a run's parts are written to the destination and recorded, the run from its row to its
    terminal status, and the reading back of what it wrote.  The rows the documents are built from
    are inputs; hashing, the cipher, the text of a JSON document and the clock are parameters. *)

From S2P Require Import Prelude Json Cadence Backups Sealing MediaArchive.

(** ** Settings *)

Record backup_settings := BackupSettings {
  se_destination : str;
  se_local_root : str;
  se_s3_prefix : option str;
  se_credential_ref : option str;
  se_encryption : str;
  se_default_retention : Z;
  se_verify_after_backup : bool;
  se_updated_by : option Z
}.

Definition save_settings (new : backup_settings) : result backup_settings backup_error :=
  require existsb (str_eqb (se_destination new)) [s!"local"; s!"s3"] else BackupInvalid in
  require existsb (str_eqb (se_encryption new)) [s!"none"; s!"passphrase"] else BackupInvalid in
  require (1 <=? se_default_retention new) && (se_default_retention new <=? 365) else BackupInvalid in
  Ok (BackupSettings (se_destination new) (trim (se_local_root new)) (trim <$> se_s3_prefix new)
        (trim <$> se_credential_ref new) (se_encryption new) (se_default_retention new) (se_verify_after_backup new)
        (se_updated_by new)).

(** ** The sealer of a run *)

(** Why a run has no sealer. *)
Inductive sealer_problem := SettingsUnreadable (error : str) | PassphraseUnavailable | UnknownEncryption (mode : str).
Definition sealer_sentence (p : sealer_problem) : str :=
  match p with
  | SettingsUnreadable error => s!"the backup settings could not be read: " ++ error
  | PassphraseUnavailable =>
      s!"encryption is set to `passphrase` but the passphrase it references is not available in this process, so this run would be stored unencrypted. It was refused rather than written in plain text; set the variable or choose `none` in the backup settings."
  | UnknownEncryption mode =>
      s!"encryption is set to `" ++ mode ++ s!"`, which is neither `none` nor `passphrase`; this run was not written rather than written unencrypted"
  end.

Record artifact_sealer := ArtifactSealer { sl_passphrase : option str }.
Definition as_bytes (s : str) : list Z := mjoin (utf8_bytes <$> s).

Definition resolve_sealer (read_env : str -> option str) (settings : result backup_settings str) :
  result artifact_sealer sealer_problem :=
  match settings with
  | Err error => Err (SettingsUnreadable error)
  | Ok settings =>
      match mode_parse (se_encryption settings) with
      | Ok ModeNone => Ok (ArtifactSealer None)
      | Ok ModePassphrase =>
          match resolve_passphrase (Some (default [] (se_credential_ref settings))) read_env with
          | Ok passphrase => Ok (ArtifactSealer (Some passphrase))
          | Err _ => Err PassphraseUnavailable
          end
      | Err _ => Err (UnknownEncryption (se_encryption settings))
      end
  end.

Section Sealer.
Context `{A : Aead}.

Definition seal_artifact (s : artifact_sealer) (salt nonce plaintext : list Z) : result (list Z) crypto_error :=
  match sl_passphrase s with
  | None => Ok plaintext
  | Some passphrase => seal (as_bytes passphrase) salt nonce plaintext
  end.
(** [None] is the refusal's text: only that it refused is used. *)
Definition open_artifact (s : artifact_sealer) (bytes : list Z) : option (list Z) :=
  if negb (is_sealed bytes) then Some bytes
  else match sl_passphrase s with
       | None => None
       | Some passphrase => match open (as_bytes passphrase) bytes with Ok plaintext => Some plaintext | Err _ => None end
       end.
End Sealer.

(** ** The documents *)

Section Documents.
Context `{J : JsonNumber}.

Definition count_json (z : Z) : value := VNumber (number_of_Z z).
Definition rows_total (rows : list (str * Z)) : Z := fold_right (fun row total => snd row + total) 0 rows.
Definition table_json (row : str * Z) : value := VObject [(s!"rows", count_json (snd row)); (s!"table", VString (fst row))].

Definition document_database (tables : result (list (str * Z)) str) : result value str :=
  let? tables := tables in
  Ok (VObject [(s!"item_count", count_json (rows_total tables)); (s!"part", VString s!"database");
               (s!"tables", VArray (table_json <$> tables))]).
Definition document_configuration (tables : result (list (str * Z)) str) : result value str :=
  let? rows := tables in
  Ok (VObject [(s!"item_count", count_json (rows_total rows));
               (s!"note", VString s!"values are not exported; a configuration backup records the shape and size of each settings table");
               (s!"part", VString s!"configuration"); (s!"settings_tables", VArray (table_json <$> rows))]).
(** [.unwrap_or_default()], [.unwrap_or(0)]: these two do not fail. *)
Definition document_themes (themes : result (list str) str) : result value str :=
  let themes := match themes with Ok l => l | Err _ => [] end in
  Ok (VObject [(s!"item_count", count_json (Z.of_nat (length themes))); (s!"part", VString s!"themes");
               (s!"themes", VArray (VString <$> themes))]).
Definition document_plugins (components : result Z str) : result value str :=
  let components := match components with Ok n => n | Err _ => 0 end in
  Ok (VObject [(s!"components", count_json components); (s!"item_count", count_json 0);
               (s!"note", VString s!"no package installer is installed on this platform; this part is empty by design");
               (s!"part", VString s!"plugins")]).

(** What the queries answered. *)
Record platform := Platform {
  pf_tables : result (list (str * Z)) str;
  pf_settings_tables : result (list (str * Z)) str;
  pf_themes : result (list str) str;
  pf_components : result Z str;
  pf_sites : list media_site;
  pf_media : result (list media_row) str;
  pf_objects : objects
}.

Definition document (pf : platform) (name : str) : result value str :=
  if str_eqb name s!"database" then document_database (pf_tables pf)
  else if str_eqb name s!"configuration" then document_configuration (pf_settings_tables pf)
  else if str_eqb name s!"themes" then document_themes (pf_themes pf)
  else if str_eqb name s!"plugins" then document_plugins (pf_components pf)
  else Ok (VObject [(s!"part", VString name)]).

(** [value["item_count"].as_i64().unwrap_or(0) as i32] *)
Definition item_count (v : value) : Z := as_i32 (default 0 (get s!"item_count" v ≫= as_i64)).
End Documents.

(** ** Producing the parts *)

(** The moments at which the settings are read again. *)
Inductive reading := AtStart | AtPart (name : str) | AtIndex.

Section Produce.
Context `{J : JsonNumber, A : Aead, U : Uuids, F : FileSystem, O : ObjectStore}.
(** Hex SHA-256, the pretty text of a document and of an index, the environment. *)
Context (sha256_bytes : list Z -> str) (pretty : value -> list Z) (index_bytes : media_index -> list Z).
Context (read_env : str -> option str).
(** What a run meets: its settings at each reading, the salt and nonce drawn for a part, the
    instant a part is recorded at. *)
Context (settings_at : reading -> result backup_settings str) (drawn : str -> list Z * list Z) (now_at : str -> Z).

(** What a run changes. *)
Record destination := Destination { ds_store : backup_store; ds_disk : disk }.

(** [let _ = save_part(..)]: a refusal is dropped. *)
Definition keep_part (id : Z) (p : part) (w : destination) : destination :=
  match save_part id (now_at (p_part p)) p (ds_store w) with
  | Ok st => Destination st (ds_disk w)
  | Err _ => w
  end.
Definition record_part (id : Z) (p : part) (w : destination) : part * destination := (p, keep_part id p w).

Definition root_sentence (error : str) : str := s!"the destination root could not be read: " ++ error.

(** A part that is a document. *)
Definition produce_document (id : Z) (prefix : str) (sealer : artifact_sealer) (pf : platform) (name : str)
  (w : destination) : part * destination :=
  match document pf name with
  | Err error => record_part id (part_failed name error) w
  | Ok v =>
      let bytes := pretty v in
      let key := storage_key prefix name in
      match seal_artifact sealer (drawn name).1 (drawn name).2 bytes with
      | Err e => record_part id (part_failed name (name ++ s!" could not be encrypted: " ++ crypto_text e)) w
      | Ok artifact =>
          match settings_at (AtPart name) with
          | Err error => record_part id (part_failed name (root_sentence error)) w
          | Ok settings =>
              match write_file (local_path_for (se_local_root settings) key) artifact (ds_disk w) with
              | (Err error, d) => record_part id (part_failed name error) (Destination (ds_store w) d)
              | (Ok _, d) =>
                  record_part id (part_done name (item_count v) (Z.of_nat (length bytes)) (sha256_bytes bytes) key)
                    (Destination (ds_store w) d)
              end
          end
      end
  end.

Definition media_failed (id : Z) (reason : str) (w : destination) : part * destination :=
  record_part id (part_failed s!"media" reason) w.

(** [finish_media_part]: the index is written as it is, whatever the sealer of the run. *)
Definition finish_media_part (id : Z) (prefix : str) (report : copy_report) (w : destination) : part * destination :=
  let bytes := index_bytes (build_index prefix (cr_objects report)) in
  let key := storage_prefix prefix ++ INDEX_FILENAME in
  match settings_at AtIndex with
  | Err error => media_failed id (root_sentence error) w
  | Ok settings =>
      match write_file (local_path_for (se_local_root settings) key) bytes (ds_disk w) with
      | (Err error, d) => media_failed id error (Destination (ds_store w) d)
      | (Ok _, d) =>
          record_part id (part_done s!"media" (cr_objects_copied report) (Z.of_nat (length bytes)) (sha256_bytes bytes) key)
            (Destination (ds_store w) d)
      end
  end.

Definition produce_media (id : Z) (organization : option Z) (prefix : str) (pf : platform) (w : destination) :
  part * destination :=
  match settings_at (AtPart s!"media") with
  | Err error => media_failed id (root_sentence error) w
  | Ok settings =>
      match pf_media pf with
      | Err error => media_failed id (s!"the media library could not be listed: " ++ error) w
      | Ok rows =>
          match pending_objects_for_organization organization (pf_sites pf) rows with
          | [] => finish_media_part id prefix no_copies w
          | pending =>
              let '(report, d) := copy_objects sha256_bytes (pf_objects pf) (se_local_root settings) prefix pending (ds_disk w) in
              let w := Destination (ds_store w) d in
              if negb (copy_is_complete report) then media_failed id (failure_summary report) w
              else finish_media_part id prefix report w
          end
      end
  end.

Definition produce_part (b : backup) (sealer : artifact_sealer) (pf : platform) (name : str) (w : destination) :
  part * destination :=
  if str_eqb name s!"media"
  then produce_media (bk_id b) (bk_organization_id b) (bk_storage_prefix b) pf w
  else produce_document (bk_id b) (bk_storage_prefix b) sealer pf name w.

(** The parts a run asked for, each produced by [step], in order. *)
Fixpoint produce_each (step : str -> destination -> part * destination) (names : list str) (w : destination) :
  list part * destination :=
  match names with
  | [] => ([], w)
  | name :: rest =>
      let '(p, w) := step name w in
      let '(parts, w) := produce_each step rest w in
      (p :: parts, w)
  end.

Definition produce_all (b : backup) (pf : platform) (w : destination) : list part * destination :=
  match resolve_sealer read_env (settings_at AtStart) with
  | Err problem =>
      produce_each (fun name w => record_part (bk_id b) (part_failed name (sealer_sentence problem)) w)
        (List.filter known_part (bk_scopes b)) w
  | Ok sealer =>
      produce_each (produce_part b sealer pf) (List.filter (fun name => existsb (str_eqb name) (bk_scopes b)) PARTS) w
  end.

(** ** A run, from its row to its status

    [date_text] is the date of an instant, [finished_text] the manifest's own instant. *)
Context (json_text : value -> str) (sha256_text : str -> str) (date_text : Z -> str).

Definition run_prefix (created_at id : Z) : str := storage_prefix (date_text created_at ++ s!"/" ++ uuid_text id).

Definition take_backup (id now finished : Z) (finished_text : str) (new : new_backup) (pf : platform) (w : destination) :
  result (backup * list part * destination) backup_error :=
  match insert_backup id now new (ds_store w) with
  | Err e => Err e
  | Ok (row, st) =>
      match set_prefix id (run_prefix (bk_created_at row) id) st with
      | Err e => Err e
      | Ok (prefixed, st) =>
          let '(produced, w) := produce_all prefixed pf (Destination (start_run id now st) (ds_disk w)) in
          match finish_run (manifest_checksum json_text sha256_text) (uuid_text id) id finished
                  (list_parts id (ds_store w)) finished_text (ds_store w) with
          | Err e => Err e
          | Ok (row, st) => Ok (row, produced, Destination st (ds_disk w))
          end
      end
  end.

(** [POST /api/v1/backups]. *)
Record create_body := CreateBody {
  cb_label : str;
  cb_scopes : list str;
  cb_destination : option str;
  cb_protected : bool;
  cb_retain_days : option Z
}.
Definition days (n : Z) : Z := n * 86400 * NANOS_PER_SECOND.

Definition create_draft (organization actor : option Z) (now : Z) (settings : backup_settings) (body : create_body) : new_backup :=
  NewBackup organization (cb_label body) s!"manual" None
    (match cb_scopes body with [] => PARTS | scopes => scopes end)
    (match cb_destination body with
     | Some d => if str_eqb (trim d) [] then se_destination settings else d
     | None => se_destination settings
     end)
    [] (cb_protected body) ((fun n => now + days n) <$> cb_retain_days body) actor.

Definition create (organization actor : option Z) (id now finished : Z) (finished_text : str)
  (settings : result backup_settings backup_error) (body : create_body) (pf : platform) (w : destination) :
  result (backup * list part * destination) backup_error :=
  let? _ := validate_label (cb_label body) in
  let? settings := settings in
  take_backup id now finished finished_text (create_draft organization actor now settings body) pf w.

(** [take_safety_backup]: the source's own scopes, protected, never expiring. *)
Record safety_backup := SafetyBackup { sb_backup_id : Z; sb_complete : bool }.
Definition safety_draft (created_text : Z -> str) (organization : option Z) (actor : Z) (source : backup) : new_backup :=
  let title := if str_eqb (trim (bk_label source)) [] then created_text (bk_created_at source) else bk_label source in
  NewBackup organization (s!"Safety backup before restoring " ++ title) s!"manual" None (bk_scopes source)
    (bk_destination source) [] true None (Some actor).
Definition take_safety_backup (created_text : Z -> str) (organization : option Z) (actor : Z) (source : backup)
  (id now finished : Z) (finished_text : str) (pf : platform) (w : destination) :
  result (safety_backup * destination) backup_error :=
  match take_backup id now finished finished_text (safety_draft created_text organization actor source) pf w with
  | Err e => Err e
  | Ok (row, produced, w) =>
      Ok (SafetyBackup (bk_id row) (negb (existsb (has_part_status PFailed) produced)), w)
  end.

(** ** Reading a run back *)

(** [observe]: the artifacts of a run under the settings and the environment of the reader. *)
Definition observe_run (settings : result backup_settings str) (m : manifest) (d : disk) : list observed_part :=
  match settings with
  | Err _ => []
  | Ok s =>
      let sealer := resolve_sealer read_env settings in
      observe sha256_bytes (fun relative => d !! local_path_for (se_local_root s) relative) is_sealed
        (match sealer with Ok s => open_artifact s | Err _ => fun _ => None end)
        (match sealer with Ok _ => true | Err _ => false end) m
  end.
End Produce.

(** ** Prefixes *)

Lemma trim_slashes_last s : trim_slashes s = [] \/ exists c r, rev (trim_slashes s) = c :: r /\ N.eqb c!"/" c = false.
Proof.
  unfold trim_slashes, trim_end_by. rewrite rev_involutive.
  destruct (trim_start_by_head (N.eqb c!"/") (rev (trim_start_by (N.eqb c!"/") s))) as [->|H]; [by left|by right].
Qed.

Lemma trim_end_by_stop f c s : f c = false -> trim_end_by f (s ++ [c]) = s ++ [c].
Proof. intros H. unfold trim_end_by. rewrite rev_app_distr. cbn. rewrite H. cbn. by rewrite rev_involutive. Qed.
Lemma trim_end_by_go f c s : f c = true -> trim_end_by f (s ++ [c]) = trim_end_by f s.
Proof. intros H. unfold trim_end_by. rewrite rev_app_distr. cbn. by rewrite H. Qed.

Lemma trim_slashes_between c r : N.eqb c!"/" c = false ->
  (exists c' r', rev (c :: r) = c' :: r' /\ N.eqb c!"/" c' = false) ->
  trim_slashes (trim (c!"/" :: (c :: r) ++ [c!"/"])) = c :: r.
Proof.
  intros Hc (c' & r' & Hr & Hc').
  assert (E : trim (c!"/" :: (c :: r) ++ [c!"/"]) = c!"/" :: (c :: r) ++ [c!"/"]).
  { transitivity (trim_end_by is_whitespace ((c!"/" :: c :: r) ++ [c!"/"])); [reflexivity|by apply trim_end_by_stop]. }
  rewrite E. unfold trim_slashes. cbn [trim_start_by app]. rewrite N.eqb_refl, Hc.
  change (c :: r ++ [c!"/"]) with ((c :: r) ++ [c!"/"]). rewrite trim_end_by_go by apply N.eqb_refl.
  apply (f_equal (@rev N)) in Hr. rewrite rev_involutive in Hr. cbn [rev] in Hr. rewrite Hr. by apply trim_end_by_stop.
Qed.

Lemma storage_prefix_idem prefix : storage_prefix (storage_prefix prefix) = storage_prefix prefix.
Proof.
  unfold storage_prefix at 2 3. destruct (trim_slashes_split (trim prefix)) as [E|(c & r & E & Hc)]; [by rewrite E|].
  destruct (trim_slashes_last (trim prefix)) as [E'|H]; [by rewrite E in E'|]. rewrite E in H |- *.
  cbn [str_eqb]. unfold storage_prefix.
  change (s!"/" ++ (c :: r) ++ s!"/") with (c!"/" :: (c :: r) ++ [c!"/"]).
  change (str_eqb (c :: r) []) with false. cbv iota. by rewrite trim_slashes_between.
Qed.

(** The file of a part inside the directory of its run. *)
Definition part_file (name : str) : str := if str_eqb name s!"media" then INDEX_FILENAME else storage_key [] name.
(** What producing a part writes in that directory. *)
Definition writes (name suffix : str) : Prop :=
  suffix = part_file name \/ (name = s!"media" /\ exists rest, suffix = OBJECTS_DIR ++ rest).

Lemma part_file_name name : name ∈ PARTS -> file_name (part_file name).
Proof.
  intros H. unfold PARTS in H. set_unfold in H.
  repeat (destruct H as [->|H]; [split; [done|intros r E; discriminate E]|]). done.
Qed.

Lemma parts_write_apart name other : name ∈ PARTS -> other ∈ PARTS -> name <> other -> ~ writes name (part_file other).
Proof.
  intros H1 H2 Hne [E|[-> [rest E]]].
  - unfold PARTS in H1, H2. set_unfold in H1. set_unfold in H2.
    repeat (destruct H1 as [->|H1]; [repeat (destruct H2 as [->|H2]; [try done; by vm_compute in E|]); done|]). done.
  - unfold PARTS in H2. set_unfold in H2. repeat (destruct H2 as [->|H2]; [try done; discriminate E|]). done.
Qed.

Lemma storage_key_app prefix name : storage_key prefix name = prefix ++ storage_key [] name.
Proof. done. Qed.

(** ** The rows of a run's parts *)

Definition run_rows (id : Z) (st : backup_store) : list backup_part :=
  List.filter (fun r => bp_backup_id r =? id) (st_parts st).
Definition row_name (r : backup_part) : str := p_part (bp_part r).
Definition stored_part (p : part) : part :=
  Part (p_part p) (p_status p) (p_item_count p) (p_size_bytes p) (p_checksum p) (p_storage_path p) (truncate_error <$> p_error p).

Lemma save_part_rows id now p st st' :
  NoDup (row_name <$> run_rows id st) -> save_part id now p st = Ok st' ->
  NoDup (row_name <$> run_rows id st')
  /\ (forall r, r ∈ run_rows id st' -> (r ∈ run_rows id st /\ row_name r <> p_part p) \/ bp_part r = stored_part p)
  /\ p_part p ∈ PARTS
  /\ (exists r, r ∈ run_rows id st' /\ bp_part r = stored_part p).
Proof.
  intros Hn H. unfold save_part in H. destruct (existsb _ _ && part_row_ok _) eqn:Eok; [|done].
  apply andb_true_iff in Eok as [_ Hok]. unfold part_row_ok in Hok. cbn [p_part] in Hok.
  apply andb_true_iff in Hok as [[Hk _]%andb_true_iff _]. apply existsb_elem in Hk as (x & Hx & <-%str_eqb_eq).
  apply (f_equal (fun r => match r with Ok x => x | Err _ => st end)) in H. subst st'. cbn [p_part p_status].
  set (p' := Part _ _ _ _ _ _ _). set (t1 := if has_part_status PQueued p' then None else Some now).
  set (t2 := if has_part_status PDone p' || has_part_status PFailed p' then Some now else None).
  destruct (existsb (is_part_row id (p_part p)) (st_parts st)) eqn:Ee; unfold run_rows; cbn [st_parts].
  - set (f := fun r => if is_part_row id (p_part p) r then _ else r).
    assert (Hf : forall r, row_name (f r) = row_name r /\ (bp_backup_id (f r) =? id) = (bp_backup_id r =? id)).
    { intros r. unfold f. destruct (is_part_row id (p_part p) r) eqn:Er; [|by split]. unfold is_part_row in Er.
      apply andb_true_iff in Er as [Ei Er%str_eqb_eq]. unfold row_name. cbn. by rewrite Er, Ei, Z.eqb_refl; split. }
    assert (Hrows : List.filter (fun r => bp_backup_id r =? id) (f <$> st_parts st) = f <$> run_rows id st).
    { unfold run_rows. clear Hn Ee. induction (st_parts st) as [|r l IH]; [done|]. cbn [fmap list_fmap List.filter].
      rewrite (proj2 (Hf r)). destruct (bp_backup_id r =? id); [|apply IH]. cbn [fmap list_fmap]. f_equal. apply IH. }
    rewrite Hrows. split_and!.
    + rewrite <- list_fmap_compose. erewrite list_fmap_ext; [exact Hn|]. intros i r _. apply Hf.
    + intros r (r0 & -> & Hr0)%list_elem_of_fmap. unfold f. destruct (is_part_row id (p_part p) r0) eqn:Er.
      * by right.
      * left. split; [done|]. intros E. apply elem_of_filter_bool in Hr0 as [_ Hr0].
        assert (is_part_row id (p_part p) r0 = true); [|congruence]. unfold is_part_row.
        change (p_part (bp_part r0)) with (row_name r0). by rewrite E, Hr0, str_eqb_refl.
    + done.
    + apply existsb_elem in Ee as (r0 & Hr0 & Er). exists (f r0). split.
      * apply list_elem_of_fmap_2. apply elem_of_filter_bool. split; [done|]. unfold is_part_row in Er. by apply andb_true_iff in Er as [? _].
      * unfold f. by rewrite Er.
  - rewrite List.filter_app. cbn [List.filter]. cbn [bp_backup_id]. rewrite Z.eqb_refl. fold (run_rows id st).
    assert (Hfresh : forall r, r ∈ run_rows id st -> row_name r <> p_part p).
    { intros r Hr E. apply elem_of_filter_bool in Hr as [Hr Hid].
      assert (existsb (is_part_row id (p_part p)) (st_parts st) = true); [|congruence].
      apply existsb_elem. exists r. split; [done|]. unfold is_part_row.
      change (p_part (bp_part r)) with (row_name r). by rewrite E, Hid, str_eqb_refl. }
    split_and!.
    + rewrite fmap_app. apply NoDup_app. split; [done|]. split; [|apply NoDup_singleton].
      intros x (r & -> & Hr)%list_elem_of_fmap [E|E%elem_of_nil]%elem_of_cons; [|done]. by apply (Hfresh r Hr).
    + intros r [Hr|[->|E%elem_of_nil]%elem_of_cons]%elem_of_app; [|by right|done]. left. split; [done|by apply Hfresh].
    + done.
    + eexists. split; [apply elem_of_app; right; by left|done].
Qed.

(** ** What producing one part leaves *)

Section Producing.
Context `{J : JsonNumber, A : Aead, U : Uuids, F : FileSystem, O : ObjectStore}.
Context `{AL : !AeadLaws A, UL : !UuidLaws U}.
Context (sha256_bytes : list Z -> str) (pretty : value -> list Z) (index_bytes : media_index -> list Z).
Context (read_env : str -> option str).
Context (settings_at : reading -> result backup_settings str) (drawn : str -> list Z * list Z) (now_at : str -> Z).
Context (settings : backup_settings) (sealer : artifact_sealer) (prefix : str) (id : Z).
(** The settings do not change under the run, salts and nonces have their lengths, and neither a
    document nor an index starts with the magic of the framing. *)
Hypothesis Hsettings : forall r, settings_at r = Ok settings.
Hypothesis Hdrawn : forall name, length (drawn name).1 = SALT_LEN /\ length (drawn name).2 = NONCE_LEN.
Hypothesis Hpretty : forall v, has_magic (pretty v) = false.
Hypothesis Hindex : forall i, has_magic (index_bytes i) = false.

Definition part_path (name : str) : str := run_base (se_local_root settings) prefix ++ part_file name.

(** A done part describes the document its artifact opens to. *)
Definition readable (d : disk) (p : part) : Prop :=
  exists artifact document,
    p_storage_path p = Some (storage_prefix prefix ++ part_file (p_part p))
    /\ d !! part_path (p_part p) = Some artifact
    /\ open_artifact sealer artifact = Some document
    /\ p_size_bytes p = Z.of_nat (length document) /\ p_checksum p = Some (sha256_bytes document).

(** [p] and [w'] are what producing [name] from [w] may answer. *)
Record produced (name : str) (p : part) (w w' : destination) : Prop := {
  pr_name : p_part p = name;
  pr_store : ds_store w' = ds_store (keep_part now_at id p w);
  pr_frame : forall path, (forall suffix, writes name suffix -> path <> run_base (se_local_root settings) prefix ++ suffix) ->
               ds_disk w' !! path = ds_disk w !! path;
  pr_done : p_status p = PDone -> readable (ds_disk w') p
}.

Lemma unsealed_opens bytes : has_magic bytes = false -> open_artifact sealer bytes = Some bytes.
Proof. intros H. unfold open_artifact, is_sealed. by rewrite H, andb_false_r. Qed.

Lemma seal_opens name v artifact :
  seal_artifact sealer (drawn name).1 (drawn name).2 (pretty v) = Ok artifact ->
  open_artifact sealer artifact = Some (pretty v).
Proof.
  destruct (Hdrawn name) as [Hs Hn]. unfold seal_artifact, open_artifact. destruct (sl_passphrase sealer) as [pass|] eqn:E.
  - intros H. destruct (sealed_opens _ _ _ _ _ Hs Hn H) as (-> & -> & _). done.
  - intros [= <-]. unfold is_sealed. by rewrite Hpretty, andb_false_r.
Qed.

Lemma keep_disk p w : ds_disk (keep_part now_at id p w) = ds_disk w.
Proof. unfold keep_part. by destruct (save_part _ _ _ _). Qed.
Lemma keep_store p w d : ds_store (keep_part now_at id p (Destination (ds_store w) d)) = ds_store (keep_part now_at id p w).
Proof. unfold keep_part. simpl. by destruct (save_part _ _ _ _). Qed.

Lemma failed_produced name reason w d :
  (forall path, (forall suffix, writes name suffix -> path <> run_base (se_local_root settings) prefix ++ suffix) ->
     d !! path = ds_disk w !! path) ->
  let '(p, w') := record_part now_at id (part_failed name reason) (Destination (ds_store w) d) in produced name p w w'.
Proof. intros H. split; [done|apply keep_store| |done]. intros path Hp. rewrite keep_disk. by apply H. Qed.

Lemma write_file_frame path bytes d path' : path' <> path ->
  (write_file path bytes d).2 !! path' = d !! path'.
Proof.
  intros H. unfold write_file. destruct (write_refusal path) as [e|]; simpl; [destruct (we_left e)|]; try done;
    by rewrite lookup_insert_ne.
Qed.

Lemma document_produced pf name w : name ∈ PARTS -> name <> s!"media" -> 
  let '(p, w') := produce_document sha256_bytes pretty settings_at drawn now_at id (storage_prefix prefix) sealer pf name w in
  produced name p w w'.
Proof.
  intros Hname Hmedia. assert (Hfile : part_file name = storage_key [] name).
  { unfold part_file. by rewrite (proj2 (str_eqb_neq _ _) Hmedia). }
  assert (Hpath : local_path_for (se_local_root settings) (storage_key (storage_prefix prefix) name) = part_path name).
  { rewrite storage_key_app. unfold part_path. rewrite Hfile. apply local_path_under. rewrite <- Hfile.
    by apply part_file_name. }
  unfold produce_document. destruct w as [st d0]. destruct (document pf name) as [v|e]; [|by apply failed_produced].
  destruct (seal_artifact _ _ _ _) as [artifact|e] eqn:Es; [|by apply failed_produced].
  rewrite Hsettings, Hpath. cbn [ds_disk ds_store].
  pose proof (write_file_frame (part_path name) artifact d0) as Hframe.
  assert (Hout : forall path, (forall suffix, writes name suffix -> path <> run_base (se_local_root settings) prefix ++ suffix) ->
     (write_file (part_path name) artifact d0).2 !! path = d0 !! path).
  { intros path Hp. apply Hframe. apply (Hp (part_file name)). by left. }
  unfold write_file in *. destruct (write_refusal (part_path name)) as [e|] eqn:Ew.
  { by apply (failed_produced name _ (Destination st d0)). }
  split; [done|apply (keep_store _ (Destination st d0))| |].
  - intros path Hp. rewrite keep_disk. by apply Hout.
  - intros _. exists artifact, (pretty v). rewrite keep_disk. cbn [p_part part_done p_storage_path p_size_bytes p_checksum ds_disk].
    split_and!; [by rewrite storage_key_app, Hfile|by rewrite lookup_insert_eq|by eapply seal_opens|done|done].
Qed.

(** The index and the objects lie under the run's own base. *)
Lemma index_path root : local_path_for root (storage_prefix (storage_prefix prefix) ++ INDEX_FILENAME)
  = run_base root prefix ++ part_file s!"media".
Proof. rewrite storage_prefix_idem. apply local_path_under. by apply (part_file_name s!"media"); right; left. Qed.

Lemma object_path root o : exists rest, archive_path root (storage_prefix prefix) o = run_base root prefix ++ OBJECTS_DIR ++ rest.
Proof.
  rewrite archive_path_under. unfold run_base, object_key. rewrite storage_prefix_idem. by eexists.
Qed.

Lemma media_finished report w d0 :
  (forall path, (forall suffix, writes s!"media" suffix -> path <> run_base (se_local_root settings) prefix ++ suffix) ->
     ds_disk w !! path = d0 !! path) ->
  let '(p, w') := finish_media_part sha256_bytes index_bytes settings_at now_at id (storage_prefix prefix) report w in
  produced s!"media" p (Destination (ds_store w) d0) w'.
Proof.
  intros Hw. unfold finish_media_part. rewrite Hsettings, index_path. destruct w as [st d].
  set (bytes := index_bytes _). fold (part_path s!"media"). cbn [ds_disk ds_store] in *.
  assert (Hout : forall path, (forall suffix, writes s!"media" suffix -> path <> run_base (se_local_root settings) prefix ++ suffix) ->
     (write_file (part_path s!"media") bytes d).2 !! path = d0 !! path).
  { intros path Hp. rewrite write_file_frame; [by apply Hw|]. apply (Hp (part_file s!"media")). by left. }
  unfold write_file in *. destruct (write_refusal (part_path s!"media")) as [e|].
  { by apply (failed_produced s!"media" _ (Destination st d0)). }
  split; [done|apply (keep_store _ (Destination st d0))| |].
  - intros path Hp. rewrite keep_disk. by apply Hout.
  - intros _. exists bytes, bytes. rewrite keep_disk. cbn [p_part part_done p_storage_path p_size_bytes p_checksum ds_disk].
    split_and!; [by rewrite storage_prefix_idem|by rewrite lookup_insert_eq|apply unsealed_opens, Hindex|done|done].
Qed.

Lemma copy_frame live l d path :
  (forall rest, path <> run_base (se_local_root settings) prefix ++ OBJECTS_DIR ++ rest) ->
  (copy_objects sha256_bytes live (se_local_root settings) (storage_prefix prefix) l d).2 !! path = d !! path.
Proof.
  intros Hp. unfold copy_objects. destruct (fold_left _ _ _) as [r d'] eqn:E.
  apply copy_fold_spec in E as (_ & _ & _ & Hd). apply Hd. intros o _.
  destruct (object_path (se_local_root settings) o) as [rest ->]. apply Hp.
Qed.

Lemma media_produced organization pf w :
  let '(p, w') := produce_media sha256_bytes index_bytes settings_at now_at id organization (storage_prefix prefix) pf w in
  produced s!"media" p w w'.
Proof.
  unfold produce_media. rewrite Hsettings. destruct w as [st d]. cbn [ds_disk ds_store].
  destruct (pf_media pf) as [rows|e]; [|by apply (failed_produced s!"media" _ (Destination st d))].
  destruct (pending_objects_for_organization _ _ _) as [|o l] eqn:El.
  { by apply (media_finished no_copies (Destination st d) d). }
  rewrite <- El. destruct (copy_objects _ _ _ _ _ d) as [report d'] eqn:E.
  assert (Hd : forall path, (forall suffix, writes s!"media" suffix -> path <> run_base (se_local_root settings) prefix ++ suffix) ->
     d' !! path = d !! path).
  { intros path Hp. pose proof (copy_frame (pf_objects pf) (pending_objects_for_organization organization (pf_sites pf) rows) d path) as H.
    rewrite E in H. apply H. intros rest. apply (Hp (OBJECTS_DIR ++ rest)). right. split; [done|by exists rest]. }
  destruct (negb (copy_is_complete report)).
  - by apply (failed_produced s!"media" _ (Destination st d)).
  - by apply (media_finished report (Destination st d') d).
Qed.

(** *** The parts of a run, one after the other *)

(** Every done row describes a readable artifact, and only the parts in [finished] are done. *)
Record recorded (finished : list str) (w : destination) : Prop := {
  rc_names : NoDup (row_name <$> run_rows id (ds_store w));
  rc_done : forall r, r ∈ run_rows id (ds_store w) -> p_status (bp_part r) = PDone ->
              row_name r ∈ finished /\ row_name r ∈ PARTS /\ readable (ds_disk w) (bp_part r)
}.

Lemma readable_frame name d d' p : name ∈ PARTS -> p_part p ∈ PARTS -> p_part p <> name ->
  (forall path, (forall suffix, writes name suffix -> path <> run_base (se_local_root settings) prefix ++ suffix) ->
     d' !! path = d !! path) ->
  readable d p -> readable d' p.
Proof.
  intros Hn Hp Hne Hframe (artifact & doc & Hkey & Hd & Ho & Hs & Hc). exists artifact, doc. split_and!; try done.
  rewrite Hframe; [done|]. intros suffix Hw E%app_inv_head. subst suffix.
  by apply (parts_write_apart name (p_part p)) in Hw.
Qed.

Lemma recorded_step finished name p w w' : name ∈ PARTS -> name ∉ finished ->
  recorded finished w -> produced name p w w' -> recorded (name :: finished) w'.
Proof.
  intros Hname Hnot [Hn Hd] [Hp Hst Hframe Hdone].
  assert (Hold : forall r, r ∈ run_rows id (ds_store w) -> p_status (bp_part r) = PDone ->
            row_name r ∈ name :: finished /\ row_name r ∈ PARTS /\ readable (ds_disk w') (bp_part r)).
  { intros r Hr Hs. destruct (Hd r Hr Hs) as (Hf & Hparts & Hread). split; [by right|]. split; [done|].
    apply (readable_frame name (ds_disk w)); try done. intros E. apply Hnot. by rewrite <- E. }
  unfold keep_part in Hst. destruct (save_part id _ p (ds_store w)) as [st|e] eqn:Es.
  - cbn [ds_store] in Hst. rewrite <- Hst in Es. apply (save_part_rows id _ p (ds_store w)) in Es as (Hn' & Hrows & Hparts & _); [|done].
    split; [done|]. intros r Hr Hs. destruct (Hrows r Hr) as [[Hr' _]|Er]; [by apply Hold|].
    assert (Hrn : row_name r = name) by (unfold row_name; by rewrite Er).
    rewrite Hrn. split; [by left|]. split; [done|].
    rewrite Er in Hs |- *. destruct (Hdone Hs) as (artifact & doc & H). exists artifact, doc. exact H.
  - split; rewrite Hst; [done|exact Hold].
Qed.

Lemma produce_each_recorded (step : str -> destination -> part * destination) names : forall finished w,
  (forall name w, name ∈ names -> let '(p, w') := step name w in produced name p w w') ->
  NoDup names -> (forall name, name ∈ names -> name ∈ PARTS /\ name ∉ finished) ->
  recorded finished w ->
  exists finished', recorded finished' (produce_each step names w).2.
Proof.
  induction names as [|name names IH]; intros finished w Hstep Hn Hparts Hw; [by exists finished|].
  apply NoDup_cons in Hn as [Hnot Hn]. cbn [produce_each].
  pose proof (Hstep name w ltac:(by left)) as Hp. destruct (step name w) as [p w1].
  destruct (Hparts name ltac:(by left)) as [Hin Hf].
  destruct (IH (name :: finished) w1) as [finished' H'].
  - intros other w2 Ho. apply Hstep. by right.
  - done.
  - intros other Ho. destruct (Hparts other ltac:(by right)) as [? Ho']. split; [done|].
    intros [->|?]%elem_of_cons; [by apply Hnot|by apply Ho'].
  - by eapply recorded_step.
  - exists finished'. by destruct (produce_each step names w1).
Qed.

(** Whatever of the database or the media, a part of [PARTS] is produced so. *)
Lemma part_produced b pf name w : bk_id b = id -> bk_storage_prefix b = storage_prefix prefix -> name ∈ PARTS ->
  let '(p, w') := produce_part sha256_bytes pretty index_bytes settings_at drawn now_at b sealer pf name w in
  produced name p w w'.
Proof.
  intros Hid Hprefix Hname. unfold produce_part. rewrite Hid, Hprefix.
  destruct (str_eqb name s!"media") eqn:E.
  - apply str_eqb_eq in E as ->. apply media_produced.
  - apply document_produced; [done|by apply str_eqb_neq].
Qed.
End Producing.

(** ** A finished run *)

Lemma refused_parts_are_not_done now_at id (reason : str) names : forall w,
  NoDup (row_name <$> run_rows id (ds_store w)) ->
  (forall r, r ∈ run_rows id (ds_store w) -> p_status (bp_part r) <> PDone) ->
  let w' := (produce_each (fun name w => record_part now_at id (part_failed name reason) w) names w).2 in
  NoDup (row_name <$> run_rows id (ds_store w'))
  /\ forall r, r ∈ run_rows id (ds_store w') -> p_status (bp_part r) <> PDone.
Proof.
  induction names as [|name names IH]; intros w Hn Hd; [done|]. cbn [produce_each record_part].
  set (w1 := keep_part now_at id (part_failed name reason) w).
  assert (H1 : NoDup (row_name <$> run_rows id (ds_store w1))
               /\ forall r, r ∈ run_rows id (ds_store w1) -> p_status (bp_part r) <> PDone).
  { unfold w1, keep_part. destruct (save_part _ _ _ _) as [st|e] eqn:Es; [|done]. cbn [ds_store].
    apply save_part_rows in Es as (Hn' & Hrows & _); [|done]. split; [done|]. intros r Hr.
    destruct (Hrows r Hr) as [[Hr' _]|E]; [by apply Hd|]. by rewrite E. }
  destruct H1 as [Hn1 Hd1]. specialize (IH w1 Hn1 Hd1). by destruct (produce_each _ names w1).
Qed.

Lemma observed_parts_are_listed `{A : Aead} sha256_bytes read_file is_sealed open sealer m o :
  o ∈ observe sha256_bytes read_file is_sealed open sealer m -> exists p, p ∈ m_parts m /\ p_part p = op_part o.
Proof.
  unfold observe. intros (p & Hp & Ho)%list_elem_of_omap. exists p. split; [done|]. unfold observe_part in Ho.
  destruct (p_storage_path p) as [s|]; [|done]. simpl in Ho. destruct (read_file s) as [b|]; [|done]. simpl in Ho.
  destruct (if sealer then _ else _) in Ho; [|done]. by injection Ho as <-.
Qed.

Lemma readable_observed `{A : Aead} sha256_bytes settings sealer prefix d p : p_part p ∈ PARTS ->
  readable sha256_bytes settings sealer prefix d p ->
  exists o, observe_part sha256_bytes (fun relative => d !! local_path_for (se_local_root settings) relative) is_sealed
              (open_artifact sealer) true p = Some o
    /\ o = ObservedPart (p_part p) (op_checksum o) (op_size_bytes o) /\ as_recorded p o
    /\ exists document, o = ObservedPart (p_part p) (sha256_bytes document) (Z.of_nat (length document)).
Proof.
  intros Hp (artifact & doc & Hkey & Hd & Ho & Hs & Hc).
  exists (ObservedPart (p_part p) (sha256_bytes doc) (Z.of_nat (length doc))). unfold observe_part.
  rewrite Hkey. cbn [mbind option_bind]. rewrite local_path_under by by apply part_file_name.
  unfold part_path in Hd. rewrite Hd. cbn [mbind option_bind].
  assert (E : (if is_sealed artifact then open_artifact sealer artifact else Some artifact) = Some doc).
  { unfold open_artifact in Ho |- *. by destruct (is_sealed artifact). }
  rewrite E. split_and!; [done|done|by split|by exists doc].
Qed.

Section Finished.
Context `{J : JsonNumber, A : Aead, U : Uuids, F : FileSystem, O : ObjectStore}.
Context `{AL : !AeadLaws A, UL : !UuidLaws U}.
Context (sha256_bytes : list Z -> str) (pretty : value -> list Z) (index_bytes : media_index -> list Z).
Context (read_env : str -> option str).
Context (settings_at : reading -> result backup_settings str) (drawn : str -> list Z * list Z) (now_at : str -> Z).
Context (settings : backup_settings).
Hypothesis Hsettings : forall r, settings_at r = Ok settings.
Hypothesis Hdrawn : forall name, length (drawn name).1 = SALT_LEN /\ length (drawn name).2 = NONCE_LEN.
Hypothesis Hpretty : forall v, has_magic (pretty v) = false.
Hypothesis Hindex : forall i, has_magic (index_bytes i) = false.
Context (json_text : value -> str) (sha256_text : str -> str) (date_text : Z -> str).

(** The verdict on the parts of a run, as its rows stand. *)
Definition verdict (m : manifest) (d : disk) : verification :=
  verify_manifest m (observe_run sha256_bytes read_env (Ok settings) m d).

Lemma rows_verify_clean prefix id w m :
  m_parts m ≡ₚ bp_part <$> run_rows id (ds_store w) ->
  NoDup (row_name <$> run_rows id (ds_store w)) ->
  match resolve_sealer read_env (Ok settings) with
  | Ok sealer => exists finished, recorded sha256_bytes settings sealer prefix id finished w
  | Err _ => forall r, r ∈ run_rows id (ds_store w) -> p_status (bp_part r) <> PDone
  end ->
  is_clean (verdict m (ds_disk w)) = true
  /\ forall name, name ∈ v_matched (verdict m (ds_disk w)) <-> exists p, produced_part m p /\ p_part p = name.
Proof.
  intros Hm Hn Hrun.
  assert (Hnames : NoDup (p_part <$> m_parts m)) by (rewrite Hm, <- list_fmap_compose; exact Hn).
  assert (Hall : forall p, produced_part m p ->
    exists o, find_observed (p_part p) (observe_run sha256_bytes read_env (Ok settings) m (ds_disk w)) = Some o /\ as_recorded p o).
  { intros p [Hp Hs]. pose proof Hp as Hrow. rewrite Hm in Hrow. apply list_elem_of_fmap in Hrow as (r & -> & Hr).
    unfold observe_run. destruct (resolve_sealer read_env (Ok settings)) as [sealer|problem]; [|by destruct (Hrun r Hr)].
    destruct Hrun as [finished [_ Hd]]. destruct (Hd r Hr Hs) as (_ & Hparts & Hread).
    destruct (readable_observed _ _ _ _ _ _ Hparts Hread) as (o & Ho & _ & Hrec & doc & Eo).
    exists o. split; [|done]. rewrite Eo in Ho |- *. by apply (observed_as sha256_bytes _ _ _ _ m (bp_part r) Hnames Hp). }
  unfold verdict. split.
  - apply verify_clean. split; [done|]. intros o Ho. unfold observe_run in Ho. by eapply observed_parts_are_listed.
  - intros name. rewrite verify_matched. split.
    + intros (p & Hp & E & _). by exists p.
    + intros (p & Hp & <-). exists p. split; [done|]. split; [done|]. by apply Hall.
Qed.

(** The store when a run starts producing: its row, and its parts queued. *)
Lemma run_started id now new st row st1 prefix b st2 :
  (forall b, b ∈ st_backups st -> bk_id b <> id) -> (forall r, r ∈ st_parts st -> bp_backup_id r <> id) ->
  insert_backup id now new st = Ok (row, st1) -> set_prefix id prefix st1 = Ok (b, st2) ->
  bk_id b = id /\ bk_created_at row = now /\ bk_storage_prefix b = prefix
  /\ NoDup (bk_scopes b) /\ (forall scope, scope ∈ bk_scopes b -> scope ∈ PARTS)
  /\ run_rows id (start_run id now st2) = (fun scope => BackupPart id (part_queued scope) None None) <$> bk_scopes b.
Proof.
  intros Hfresh Hparts Hi Hp. unfold insert_backup in Hi.
  destruct (normalise_scopes (nb_scopes new)) as [scopes|] eqn:Es; [|done]. cbn [result_bind] in Hi.
  destruct (existsb (str_eqb (nb_kind new)) _); [|done]. destruct (existsb (str_eqb (nb_destination new)) _); [|done].
  assert (Hscopes : scopes = List.filter (fun p => existsb (str_eqb p) (nb_scopes new)) PARTS).
  { unfold normalise_scopes in Es. repeat (case_match; [done|]). by injection Es as <-. }
  injection Hi as <- <-. unfold set_prefix, returning in Hp. cbn [st_backups] in Hp. rewrite find_app in Hp.
  assert (Hnone : List.find (fun b => bk_id b =? id) (st_backups st) = None).
  { apply find_nothing. intros b' Hb'. apply Z.eqb_neq. by apply Hfresh. }
  rewrite Hnone in Hp. cbn [List.find bk_id] in Hp. rewrite Z.eqb_refl in Hp. injection Hp as <- <-.
  cbn [bk_id bk_created_at bk_storage_prefix bk_scopes]. split_and!; try done.
  - rewrite Hscopes, <- (list_fmap_id (List.filter _ _)). apply NoDup_filter_keys. rewrite list_fmap_id. by_compute.
  - intros scope Hs. rewrite Hscopes in Hs. by apply elem_of_filter_bool in Hs as [? _].
  - unfold run_rows, start_run, update_backup. cbn [st_parts]. rewrite List.filter_app.
    rewrite filter_none by (intros r Hr; apply Z.eqb_neq; by apply Hparts). cbn [app].
    clear. induction scopes as [|x l IH]; [done|]. cbn [fmap list_fmap List.filter bp_backup_id]. by rewrite Z.eqb_refl, IH.
Qed.

(** What a run has recorded when its last part was produced. *)
Lemma run_is_recorded prefix id b pf w produced w1 :
  bk_id b = id -> bk_storage_prefix b = storage_prefix prefix ->
  NoDup (row_name <$> run_rows id (ds_store w)) ->
  (forall r, r ∈ run_rows id (ds_store w) -> p_status (bp_part r) <> PDone) ->
  produce_all sha256_bytes pretty index_bytes read_env settings_at drawn now_at b pf w = (produced, w1) ->
  NoDup (row_name <$> run_rows id (ds_store w1))
  /\ match resolve_sealer read_env (Ok settings) with
     | Ok sealer => exists finished, recorded sha256_bytes settings sealer prefix id finished w1
     | Err _ => forall r, r ∈ run_rows id (ds_store w1) -> p_status (bp_part r) <> PDone
     end.
Proof.
  intros Hid Hprefix Hn Hd H. unfold produce_all in H. rewrite Hsettings in H.
  destruct (resolve_sealer read_env (Ok settings)) as [sealer|problem].
  - destruct (produce_each_recorded sha256_bytes now_at settings sealer prefix id
      (produce_part sha256_bytes pretty index_bytes settings_at drawn now_at b sealer pf)
      (List.filter (fun name => existsb (str_eqb name) (bk_scopes b)) PARTS) [] w) as [finished Hf].
    + intros name w2 Hname. apply part_produced; try done. by apply elem_of_filter_bool in Hname as [? _].
    + rewrite <- (list_fmap_id (List.filter _ _)). apply NoDup_filter_keys. rewrite list_fmap_id. by_compute.
    + intros name Hname. split; [by apply elem_of_filter_bool in Hname as [? _]|apply not_elem_of_nil].
    + split; [done|]. intros r Hr Hs. by destruct (Hd r Hr).
    + rewrite H in Hf. split; [apply Hf|by exists finished].
  - rewrite Hid in H. pose proof (refused_parts_are_not_done now_at id (sealer_sentence problem) (List.filter known_part (bk_scopes b)) w) as Hr.
    specialize (Hr Hn Hd). by rewrite H in Hr.
Qed.

Lemma succeeded_has_done parts : summarise parts = RSucceeded -> exists p, p ∈ parts /\ p_status p = PDone.
Proof.
  unfold summarise. destruct (List.filter (has_part_status PDone) parts) as [|p l] eqn:Ed.
  - cbn [length]. by destruct (length (List.filter (has_part_status PFailed) parts)).
  - intros _. exists p. assert (Hp : p ∈ List.filter (has_part_status PDone) parts) by (rewrite Ed; by left).
    apply elem_of_filter_bool in Hp as [Hp Hs]. split; [done|]. unfold has_part_status in Hs. by bool_prop.
Qed.

(** C16. A run verifies against what it wrote: whatever parts failed, were refused by the table or were
    never reached, reading a finished run back under the settings it was produced with finds every
    done part as recorded, nothing else, and matches exactly the done parts; a run that succeeded
    has at least one. *)
Theorem finished_run_verifies_clean (id now finished : Z) (finished_text created_text : str) (new : new_backup) (pf : platform)
  (w w' : destination) (row : backup) (parts : list part) :
  (forall b, b ∈ st_backups (ds_store w) -> bk_id b <> id) ->
  (forall r, r ∈ st_parts (ds_store w) -> bp_backup_id r <> id) ->
  take_backup sha256_bytes pretty index_bytes read_env settings_at drawn now_at json_text sha256_text date_text
    id now finished finished_text new pf w = Ok (row, parts, w') ->
  let m := manifest_of (uuid_text id) created_text row in
  is_clean (verdict m (ds_disk w')) = true
  /\ (forall name, name ∈ v_matched (verdict m (ds_disk w')) <-> exists p, produced_part m p /\ p_part p = name)
  /\ bk_status row = summarise (list_parts id (ds_store w'))
  /\ (bk_status row = RSucceeded -> exists name, name ∈ v_matched (verdict m (ds_disk w'))).
Proof.
  intros Hfresh Hparts H. unfold take_backup in H.
  destruct (insert_backup id now new (ds_store w)) as [[row0 st1]|] eqn:Ei; [|done].
  destruct (set_prefix id _ st1) as [[b st2]|] eqn:Ep; [|done].
  destruct (run_started _ _ _ _ _ _ _ _ _ Hfresh Hparts Ei Ep) as (Hid & Hat & Hprefix & Hscopes & Hknown & Hrows).
  rewrite Hat in Hprefix. unfold run_prefix in Hprefix. set (prefix := date_text now ++ _ ++ _) in Hprefix.
  destruct (produce_all _ _ _ _ _ _ _ b pf _) as [produced w1] eqn:Eall.
  set (w0 := Destination (start_run id now st2) (ds_disk w)) in Eall.
  assert (Hrows0 : forall r, r ∈ run_rows id (ds_store w0) -> p_status (bp_part r) <> PDone).
  { intros r Hr. unfold w0 in Hr. cbn [ds_store] in Hr. rewrite Hrows in Hr. by apply list_elem_of_fmap in Hr as (s & -> & _). }
  assert (Hnames0 : NoDup (row_name <$> run_rows id (ds_store w0))).
  { unfold w0. cbn [ds_store]. rewrite Hrows, <- list_fmap_compose. by rewrite list_fmap_id. }
  destruct (run_is_recorded prefix id b pf w0 produced w1 Hid Hprefix Hnames0 Hrows0 Eall) as [Hnames1 Hrun].
  destruct (finish_run _ _ id finished _ _ (ds_store w1)) as [[row' st3]|] eqn:Ef; [|done].
  injection H as <- <- <-. unfold finish_run, returning in Ef.
  destruct (List.find _ (st_backups (ds_store w1))) as [b1|]; [|done]. injection Ef as <- <-.
  cbn [manifest_of bk_manifest with_status bk_status ds_disk ds_store]. set (m := build_manifest _ _ _).
  assert (Hm : m_parts m ≡ₚ bp_part <$> run_rows id (ds_store w1)).
  { unfold m, build_manifest, list_parts. cbn [m_parts]. rewrite (sort_by_perm part_order).
    by rewrite (sort_by_perm part_row_order). }
  destruct (rows_verify_clean prefix id w1 m Hm Hnames1 Hrun) as [Hclean Hmatched].
  split_and!; [done|done|done|]. intros (p & Hp & Hs)%succeeded_has_done. exists (p_part p). apply Hmatched. exists p.
  split; [|done]. split; [|done]. unfold m, build_manifest. cbn [m_parts]. by rewrite (sort_by_perm part_order).
Qed.
End Finished.

(** ** Two runs *)

(** The dates a prefix starts with: digits and hyphens, at least one. *)
Definition date_char (c : char) : bool := is_ascii_digit c || (c =? c!"-")%N.

Lemma clean_char c : is_ascii_hexdigit c || (c =? c!"-")%N = true -> is_whitespace c = false /\ N.eqb c!"/" c = false.
Proof.
  unfold is_ascii_hexdigit, is_ascii_digit, in_range. change c!"-" with 45%N. change c!"/" with 47%N. intros H.
  split; apply not_true_is_false; unfold is_whitespace, in_range; intros H'; bool_prop; lia.
Qed.

Section Apart.
Context `{U : Uuids, UL : !UuidLaws U}.
Context (date_text : Z -> str).
Hypothesis Hdate : forall t, date_text t <> [] /\ forallb date_char (date_text t) = true.

Lemma date_clean t : forallb (fun c => is_ascii_hexdigit c || (c =? c!"-")%N) (date_text t) = true.
Proof.
  destruct (Hdate t) as [_ H]. rewrite forallb_elem in *. intros c Hc. specialize (H c Hc). unfold date_char in H.
  unfold is_ascii_hexdigit. by destruct (is_ascii_digit c), (c =? c!"-")%N; rewrite ?orb_true_r.
Qed.

Lemma run_prefix_text t id : run_prefix date_text t id = s!"/" ++ (date_text t ++ s!"/" ++ uuid_text id) ++ s!"/".
Proof.
  pose proof (date_clean t) as Hd. pose proof (uuid_text_chars id) as Hu. pose proof (uuid_text_length id) as Hl.
  unfold run_prefix, storage_prefix.
  assert (Htrim : trim (date_text t ++ s!"/" ++ uuid_text id) = date_text t ++ s!"/" ++ uuid_text id).
  { apply trim_id. rewrite !forallb_app. cbn [forallb]. rewrite !andb_true_iff. rewrite forallb_elem in Hd, Hu. split_and!; try done.
    - apply forallb_elem. intros c Hc. apply negb_true_iff. by apply clean_char, Hd.
    - apply forallb_elem. intros c Hc. apply negb_true_iff. by apply clean_char, Hu. }
  assert (Hslash : trim_slashes (date_text t ++ s!"/" ++ uuid_text id) = date_text t ++ s!"/" ++ uuid_text id).
  { destruct (Hdate t) as [Hne _]. destruct (date_text t) as [|c r] eqn:Ed; [done|]. cbn [forallb] in Hd.
    apply andb_true_iff in Hd as [Hc _]. apply clean_char in Hc as [_ Hc]. unfold trim_slashes. cbn [app trim_start_by]. rewrite Hc.
    destruct (uuid_text id) as [|c' l] using rev_ind; [done|]. rewrite forallb_app in Hu. cbn [forallb] in Hu.
    apply andb_true_iff in Hu as [_ [Hc' _]%andb_true_iff]. apply clean_char in Hc' as [_ Hc'].
    assert (E : c :: r ++ s!"/" ++ l ++ [c'] = (c :: r ++ s!"/" ++ l) ++ [c']) by (cbn [app]; by rewrite <- !app_assoc).
    rewrite E. by apply trim_end_by_stop. }
  rewrite Htrim, Hslash. destruct (str_eqb _ []) eqn:E; [|done]. apply str_eqb_eq in E.
  destruct (Hdate t) as [Hne _]. by destruct (date_text t).
Qed.

Lemma run_base_text root t id :
  run_base root (date_text t ++ s!"/" ++ uuid_text id) = join_base root ++ date_text t ++ s!"/" ++ uuid_text id ++ s!"/".
Proof.
  unfold run_base. fold (run_prefix date_text t id). rewrite run_prefix_text. f_equal.
  pose proof (date_clean t) as Hd. destruct (Hdate t) as [Hne _]. destruct (date_text t) as [|c r]; [done|].
  cbn [forallb] in Hd. apply andb_true_iff in Hd as [Hc _]. apply clean_char in Hc as [_ Hc].
  change (s!"/" ++ ((c :: r) ++ s!"/" ++ uuid_text id) ++ s!"/") with (c!"/" :: c :: ((r ++ s!"/" ++ uuid_text id) ++ s!"/")).
  cbn [trim_start_by]. rewrite N.eqb_refl, Hc. cbn [app]. by rewrite <- !app_assoc.
Qed.

Lemma first_slash (a b x y : str) : forallb date_char a = true -> forallb date_char b = true ->
  a ++ c!"/" :: x = b ++ c!"/" :: y -> x = y.
Proof.
  revert b. induction a as [|c a IH]; intros [|d b] Ha Hb H; cbn [app] in H.
  - by injection H.
  - injection H as <- _. cbn [forallb] in Hb. by apply andb_true_iff in Hb as [Hb _].
  - injection H as -> _. cbn [forallb] in Ha. by apply andb_true_iff in Ha as [Ha _].
  - injection H as _ H. cbn [forallb] in Ha, Hb. apply andb_true_iff in Ha as [_ Ha]. apply andb_true_iff in Hb as [_ Hb].
    by apply (IH b).
Qed.

Lemma bases_apart root t t' id id' suffix suffix' : is_uuid id -> is_uuid id' -> id <> id' ->
  run_base root (date_text t ++ s!"/" ++ uuid_text id) ++ suffix
    <> run_base root (date_text t' ++ s!"/" ++ uuid_text id') ++ suffix'.
Proof.
  intros Hu Hu' Hne. rewrite !run_base_text, <- !app_assoc. intros E%app_inv_head.
  apply first_slash in E; [|apply Hdate..]. apply app_inj_1 in E as [E _]; [|by rewrite !uuid_text_length].
  by apply Hne, uuid_text_inj.
Qed.
End Apart.

Section Later.
Context `{J : JsonNumber, A : Aead, U : Uuids, F : FileSystem, O : ObjectStore}.
Context `{AL : !AeadLaws A, UL : !UuidLaws U}.
Context (sha256_bytes : list Z -> str) (pretty : value -> list Z) (index_bytes : media_index -> list Z).
Context (read_env : str -> option str).
Context (settings_at : reading -> result backup_settings str) (drawn : str -> list Z * list Z) (now_at : str -> Z).
Context (settings : backup_settings).
Hypothesis Hsettings : forall r, settings_at r = Ok settings.
Hypothesis Hdrawn : forall name, length (drawn name).1 = SALT_LEN /\ length (drawn name).2 = NONCE_LEN.
Hypothesis Hpretty : forall v, has_magic (pretty v) = false.
Hypothesis Hindex : forall i, has_magic (index_bytes i) = false.
Context (date_text : Z -> str).
Hypothesis Hdate : forall t, date_text t <> [] /\ forallb date_char (date_text t) = true.

Lemma produce_each_frame (P : str -> Prop) (step : str -> destination -> part * destination) names : forall w,
  (forall name w path, name ∈ names -> P path -> ds_disk (step name w).2 !! path = ds_disk w !! path) ->
  forall path, P path -> ds_disk (produce_each step names w).2 !! path = ds_disk w !! path.
Proof.
  induction names as [|name names IH]; intros w Hstep path Hp; [done|]. cbn [produce_each].
  pose proof (Hstep name w path ltac:(by left) Hp) as H1. destruct (step name w) as [p w1]. cbn in H1.
  pose proof (IH w1 ltac:(intros; apply Hstep; [by right|done]) path Hp) as H2.
  destruct (produce_each step names w1) as [ps w2]. cbn in *. by rewrite H2.
Qed.

Lemma produce_all_frame b pf w prefix path : bk_storage_prefix b = storage_prefix prefix ->
  (forall suffix, path <> run_base (se_local_root settings) prefix ++ suffix) ->
  ds_disk (produce_all sha256_bytes pretty index_bytes read_env settings_at drawn now_at b pf w).2 !! path = ds_disk w !! path.
Proof.
  intros Hb Hp. unfold produce_all. rewrite Hsettings.
  destruct (resolve_sealer read_env (Ok settings)) as [sealer|problem];
    apply (produce_each_frame (fun path => forall suffix, path <> run_base (se_local_root settings) prefix ++ suffix)); [|done| |done].
  - intros name w1 path1 Hname Hp1.
    pose proof (part_produced sha256_bytes pretty index_bytes settings_at drawn now_at settings sealer prefix (bk_id b)
      Hsettings Hdrawn Hpretty Hindex b pf name w1 eq_refl Hb ltac:(by apply elem_of_filter_bool in Hname as [? _])) as H.
    destruct (produce_part _ _ _ _ _ _ b sealer pf name w1) as [p w2]. apply H. intros suffix _. apply Hp1.
  - intros name w1 path1 _ _. cbn [record_part snd]. by rewrite keep_disk.
Qed.

(** Runs write apart: producing a run leaves every file of every other run as it was, so an
    earlier run verifies after it exactly as it did before, whenever the two started. *)
Theorem later_run_leaves_others_verified (id id' t t' : Z) (b : backup) (pf : platform) (w : destination) (m : manifest) :
  is_uuid id -> is_uuid id' -> id <> id' ->
  bk_storage_prefix b = run_prefix date_text t id ->
  (forall p key, p ∈ m_parts m -> p_storage_path p = Some key ->
     exists file, key = run_prefix date_text t' id' ++ file /\ file_name file) ->
  let w' := (produce_all sha256_bytes pretty index_bytes read_env settings_at drawn now_at b pf w).2 in
  (forall suffix, ds_disk w' !! (run_base (se_local_root settings) (date_text t' ++ s!"/" ++ uuid_text id') ++ suffix)
     = ds_disk w !! (run_base (se_local_root settings) (date_text t' ++ s!"/" ++ uuid_text id') ++ suffix))
  /\ verdict sha256_bytes read_env settings m (ds_disk w') = verdict sha256_bytes read_env settings m (ds_disk w).
Proof.
  intros Hu Hu' Hne Hb Hm w'.
  assert (Hframe : forall suffix, ds_disk w' !! (run_base (se_local_root settings) (date_text t' ++ s!"/" ++ uuid_text id') ++ suffix)
     = ds_disk w !! (run_base (se_local_root settings) (date_text t' ++ s!"/" ++ uuid_text id') ++ suffix)).
  { intros suffix. apply (produce_all_frame b pf w (date_text t ++ s!"/" ++ uuid_text id)); [exact Hb|].
    intros suffix'. by apply bases_apart; [..|congruence]. }
  split; [exact Hframe|]. unfold verdict. f_equal. unfold observe_run, observe.
  apply omap_ext_elem. intros p Hp. unfold observe_part. destruct (p_storage_path p) as [key|] eqn:Ek; [|done].
  destruct (Hm p key Hp Ek) as (file & -> & Hfile). cbn [mbind option_bind]. unfold run_prefix.
  rewrite local_path_under by done. by rewrite Hframe.
Qed.
End Later.

(** ** Runs answer *)

Section Answers.
Context `{J : JsonNumber, A : Aead, U : Uuids, F : FileSystem, O : ObjectStore}.
Context (sha256_bytes : list Z -> str) (pretty : value -> list Z) (index_bytes : media_index -> list Z).
Context (read_env : str -> option str).
Context (settings_at : reading -> result backup_settings str) (drawn : str -> list Z * list Z) (now_at : str -> Z).
Context (json_text : value -> str) (sha256_text : str -> str) (date_text : Z -> str).

(** Producing parts leaves the rows of the runs as they are. *)
Lemma keep_runs id p w : st_backups (ds_store (keep_part now_at id p w)) = st_backups (ds_store w).
Proof. unfold keep_part, save_part. by destruct (existsb _ _ && _). Qed.

Lemma document_runs id prefix sealer pf name w :
  st_backups (ds_store (produce_document sha256_bytes pretty settings_at drawn now_at id prefix sealer pf name w).2) = st_backups (ds_store w).
Proof.
  unfold produce_document, record_part. destruct (document pf name); [|apply keep_runs].
  destruct (seal_artifact _ _ _ _); [|apply keep_runs]. destruct (settings_at _); [|apply keep_runs].
  destruct (write_file _ _ _) as [[|e] d]; cbn [snd]; rewrite keep_store; apply keep_runs.
Qed.

Lemma finish_media_runs id prefix report w :
  st_backups (ds_store (finish_media_part sha256_bytes index_bytes settings_at now_at id prefix report w).2) = st_backups (ds_store w).
Proof.
  unfold finish_media_part, media_failed, record_part. destruct (settings_at _); [|apply keep_runs].
  destruct (write_file _ _ _) as [[|e] d]; cbn [snd]; rewrite keep_store; apply keep_runs.
Qed.

Lemma media_runs id organization prefix pf w :
  st_backups (ds_store (produce_media sha256_bytes index_bytes settings_at now_at id organization prefix pf w).2) = st_backups (ds_store w).
Proof.
  unfold produce_media. destruct (settings_at _); [|apply keep_runs]. destruct (pf_media pf); [|apply keep_runs].
  destruct (pending_objects_for_organization _ _ _); [apply finish_media_runs|].
  destruct (copy_objects _ _ _ _ _ _) as [report d]. destruct (negb _).
  - unfold media_failed, record_part. cbn [snd]. rewrite keep_store. apply keep_runs.
  - apply (finish_media_runs id prefix report (Destination (ds_store w) d)).
Qed.

Lemma produce_each_runs (step : str -> destination -> part * destination) names : forall w,
  (forall name w, st_backups (ds_store (step name w).2) = st_backups (ds_store w)) ->
  st_backups (ds_store (produce_each step names w).2) = st_backups (ds_store w).
Proof.
  induction names as [|name names IH]; intros w H; [done|]. cbn [produce_each].
  pose proof (H name w) as H1. destruct (step name w) as [p w1]. specialize (IH w1 H).
  destruct (produce_each step names w1) as [ps w2]. exact (eq_trans IH H1).
Qed.

Lemma produce_all_runs b pf w :
  st_backups (ds_store (produce_all sha256_bytes pretty index_bytes read_env settings_at drawn now_at b pf w).2)
    = st_backups (ds_store w).
Proof.
  unfold produce_all. destruct (resolve_sealer _ _); apply produce_each_runs; intros name w1.
  - unfold produce_part. destruct (str_eqb name _); [apply media_runs|apply document_runs].
  - apply keep_runs.
Qed.

(** The rows of the newest run are the last ones. *)
Lemma update_last id f st l b : st_backups st = l ++ [b] -> (forall b, b ∈ l -> bk_id b <> id) -> bk_id b = id ->
  update_backup (fun b => bk_id b =? id) f st = BackupStore (l ++ [f b]) (st_parts st).
Proof.
  intros E Hl Hb. unfold update_backup. rewrite E, fmap_app. cbn [fmap list_fmap]. rewrite Hb, Z.eqb_refl. do 2 f_equal.
  rewrite <- (list_fmap_id l) at 2. apply list_fmap_ext. intros i x Hx.
  apply list_elem_of_lookup_2 in Hx. by rewrite (proj2 (Z.eqb_neq _ _) (Hl x Hx)).
Qed.
Lemma returning_last id f st l b : st_backups st = l ++ [b] -> (forall b, b ∈ l -> bk_id b <> id) -> bk_id b = id ->
  returning id f st = Ok (f b, BackupStore (l ++ [f b]) (st_parts st)).
Proof.
  intros E Hl Hb. unfold returning. rewrite E at 1. rewrite find_app, find_nothing
    by (intros x Hx; apply Z.eqb_neq; by apply Hl).
  cbn [List.find]. rewrite Hb, Z.eqb_refl. by rewrite (update_last id f st l b).
Qed.
Lemma start_last id now st l b : st_backups st = l ++ [b] -> (forall b, b ∈ l -> bk_id b <> id) -> bk_id b = id ->
  exists b', start_run id now st = BackupStore (l ++ [b']) (st_parts st) /\ bk_id b' = id
    /\ bk_schedule_id b' = bk_schedule_id b /\ bk_scopes b' = bk_scopes b
    /\ bk_organization_id b' = bk_organization_id b /\ bk_retain_until b' = bk_retain_until b
    /\ bk_protected b' = bk_protected b /\ bk_storage_prefix b' = bk_storage_prefix b.
Proof.
  intros E Hl Hb. unfold start_run, update_backup. rewrite E, fmap_app. cbn [fmap list_fmap].
  assert (El : forall f : backup -> backup, (fun b => if (bk_id b =? id) && bool_decide (bk_status b = RQueued) then f b else b) <$> l = l).
  { intros f. rewrite <- (list_fmap_id l) at 2. apply list_fmap_ext. intros i x Hx.
    apply list_elem_of_lookup_2 in Hx. by rewrite (proj2 (Z.eqb_neq _ _) (Hl x Hx)). }
  rewrite El. eexists. split; [reflexivity|]. destruct (_ && _); by split_and!.
Qed.

(** A run under a fresh id whose draft the validation accepts always answers: one row is added to
    the runs, with its id, its schedule and its scopes in order, and what it answers and leaves on
    the destination is what producing its parts does. *)
Lemma take_backup_answers id now finished finished_text new pf w scopes :
  (forall b, b ∈ st_backups (ds_store w) -> bk_id b <> id) ->
  normalise_scopes (nb_scopes new) = Ok scopes ->
  existsb (str_eqb (nb_kind new)) [s!"manual"; s!"scheduled"] = true ->
  existsb (str_eqb (nb_destination new)) [s!"local"; s!"s3"] = true ->
  exists row parts w', take_backup sha256_bytes pretty index_bytes read_env settings_at drawn now_at json_text sha256_text date_text
      id now finished finished_text new pf w = Ok (row, parts, w')
    /\ st_backups (ds_store w') = st_backups (ds_store w) ++ [row]
    /\ bk_id row = id /\ bk_schedule_id row = nb_schedule_id new /\ bk_scopes row = scopes
    /\ bk_organization_id row = nb_organization_id new /\ bk_retain_until row = nb_retain_until new
    /\ bk_protected row = nb_protected new /\ bk_storage_prefix row = run_prefix date_text now id
    /\ exists b w0, bk_id b = id /\ bk_organization_id b = nb_organization_id new /\ bk_scopes b = scopes
         /\ bk_storage_prefix b = run_prefix date_text now id /\ ds_disk w0 = ds_disk w
         /\ parts = (produce_all sha256_bytes pretty index_bytes read_env settings_at drawn now_at b pf w0).1
         /\ ds_disk w' = ds_disk (produce_all sha256_bytes pretty index_bytes read_env settings_at drawn now_at b pf w0).2.
Proof.
  intros Hfresh Hs Hk Hd. unfold take_backup, insert_backup. rewrite Hs. cbn [result_bind]. rewrite Hk, Hd.
  set (row0 := Backup id _ _ _ _ _ _ _ _ _ _ _ _ _ _ _ _ _ _). cbn [result_bind]. unfold set_prefix.
  erewrite returning_last; [|reflexivity|exact Hfresh|reflexivity]. cbn [st_parts].
  set (row1 := Backup _ _ _ _ _ _ _ _ _ _ _ _ _ _ _ _ _ _ _).
  edestruct (start_last id now) as (row2 & -> & Hid & Hsched & Hscopes & Horg & Hret & Hprot & Hpref); [reflexivity|exact Hfresh|reflexivity|].
  cbn [st_parts]. set (w0 := Destination _ _). fold row1.
  pose proof (produce_all_runs row1 pf w0) as Hb.
  destruct (produce_all _ _ _ _ _ _ _ row1 pf w0) as [produced w1] eqn:Eall. cbn [snd] in Hb. unfold finish_run.
  erewrite returning_last; [|exact Hb|exact Hfresh|exact Hid].
  eexists _, _, _. split; [reflexivity|]. cbn [bk_id with_status bk_schedule_id bk_scopes bk_organization_id bk_retain_until
    bk_protected bk_storage_prefix ds_store ds_disk st_backups].
  rewrite Hid, Hsched, Hscopes, Horg, Hret, Hprot, Hpref. do 8 (split; [done|]). exists row1, w0. by rewrite Eall.
Qed.
End Answers.

(** ** The media part *)

Section MediaPart.
Context `{U : Uuids, F : FileSystem, O : ObjectStore, UL : !UuidLaws U}.
Context (sha256_bytes : list Z -> str) (index_bytes : media_index -> list Z).
Context (settings_at : reading -> result backup_settings str) (now_at : str -> Z) (settings : backup_settings).
(** A reading of the settings may fail; whenever one succeeds, these are the settings. *)
Hypothesis Hsettings : forall r st, settings_at r = Ok st -> st = settings.

Lemma index_apart root prefix o : archive_path root prefix o <> run_base root prefix ++ INDEX_FILENAME.
Proof. rewrite archive_path_under. intros E%app_inv_head. discriminate E. Qed.

Lemma finished_media_keeps id prefix report w path :
  path <> run_base (se_local_root settings) prefix ++ INDEX_FILENAME ->
  ds_disk (finish_media_part sha256_bytes index_bytes settings_at now_at id prefix report w).2 !! path = ds_disk w !! path.
Proof.
  intros Hp. unfold finish_media_part. destruct (settings_at AtIndex) as [st|] eqn:Est;
    [rewrite (Hsettings _ _ Est)|apply (f_equal (fun d => d !! path)), keep_disk].
  change (storage_prefix prefix ++ INDEX_FILENAME) with (index_key prefix). unfold index_key.
  rewrite local_path_under by by split. set (bytes := index_bytes _).
  pose proof (write_file_frame (run_base (se_local_root settings) prefix ++ INDEX_FILENAME) bytes (ds_disk w) path Hp) as H.
  destruct (write_file _ _ _) as [[|e] d]; cbn [media_failed record_part snd]; rewrite keep_disk; exact H.
Qed.

(** A media part that is done holds the library: every live row of the organization's sites has
    its object in the run's directory, byte for byte what the object store served, of the size the
    row records.  No sealer takes part: an archive that is encrypted holds these bytes as they are. *)
Theorem done_media_part_holds_the_library (id : Z) (organization : option Z) (prefix : str) (pf : platform) (rows : list media_row)
  (w w' : destination) (p : part) :
  (forall listed, pf_media pf = Ok listed -> listed = rows) ->
  NoDup (mo_id <$> pending_objects_for_organization organization (pf_sites pf) rows) ->
  Forall (fun o => is_uuid (mo_id o)) (pending_objects_for_organization organization (pf_sites pf) rows) ->
  produce_media sha256_bytes index_bytes settings_at now_at id organization prefix pf w = (p, w') -> p_status p = PDone ->
  p_item_count p = Z.of_nat (length (pending_objects_for_organization organization (pf_sites pf) rows))
  /\ forall r, r ∈ rows -> row_is_live r = true -> site_in_organization organization (pf_sites pf) (mo_site_id (mr_object r)) = true ->
       exists bytes, pf_objects pf !! mo_storage_key (mr_object r) = Some bytes
         /\ ds_disk w' !! archive_path (se_local_root settings) prefix (mr_object r) = Some bytes
         /\ Z.of_nat (length bytes) = mo_size_bytes (mr_object r).
Proof.
  intros Hrows Hn Hu H Hdone.
  assert (Hpending : forall r, r ∈ rows -> row_is_live r = true ->
    site_in_organization organization (pf_sites pf) (mo_site_id (mr_object r)) = true ->
    mr_object r ∈ pending_objects_for_organization organization (pf_sites pf) rows).
  { intros r Hr Hl Hs. unfold pending_objects_for_organization. apply list_elem_of_fmap_2. rewrite (sort_by_perm row_order).
    apply elem_of_filter_bool. split; [done|]. by rewrite Hl, Hs. }
  unfold produce_media in H.
  destruct (settings_at (AtPart _)) as [st|] eqn:Est; [rewrite (Hsettings _ _ Est) in H|by injection H as <- _].
  destruct (pf_media pf) as [listed|]; [rewrite (Hrows _ eq_refl) in H|by injection H as <- _].
  set (pending := pending_objects_for_organization organization (pf_sites pf) rows) in *.
  assert (Hfin : forall report w0, finish_media_part sha256_bytes index_bytes settings_at now_at id prefix report w0 = (p, w') ->
    p_item_count p = cr_objects_copied report
    /\ forall o, ds_disk w' !! archive_path (se_local_root settings) prefix o = ds_disk w0 !! archive_path (se_local_root settings) prefix o).
  { intros report w0 Hf. split.
    - unfold finish_media_part in Hf. destruct (settings_at AtIndex); [|by injection Hf as <- _].
      destruct (write_file _ _ _) as [[|e] d]; injection Hf as <- _; done.
    - intros o. pose proof (finished_media_keeps id prefix report w0 _ (index_apart (se_local_root settings) prefix o)) as Hk.
      by rewrite Hf in Hk. }
  destruct pending as [|o1 l1] eqn:Ep.
  { apply Hfin in H as [H _]. split; [done|]. intros r Hr Hl Hs. pose proof (Hpending r Hr Hl Hs) as Hin. by apply elem_of_nil in Hin. }
  rewrite <- Ep in *. destruct (copy_objects _ _ _ _ pending (ds_disk w)) as [report d] eqn:Ec.
  pose proof (copy_report_exact sha256_bytes (pf_objects pf) (se_local_root settings) prefix pending (ds_disk w) Hn Hu) as Hexact.
  rewrite Ec in Hexact. destruct Hexact as (_ & Hcount & Hsum & Hcomplete & Hfiles & _).
  destruct (copy_is_complete report) eqn:Ecomp; cbn [negb] in H; [|by injection H as <- _].
  apply Hfin in H as [Hitems Hkeep]. split.
  - rewrite Hitems. unfold copy_is_complete in Ecomp. apply Z.eqb_eq in Ecomp. lia.
  - intros r Hr Hl Hs. pose proof (Hpending r Hr Hl Hs) as Hin.
    destruct (proj1 Hcomplete eq_refl _ Hin) as [bytes Hb]. exists bytes. rewrite Hkeep. cbn [ds_disk].
    split; [by eapply landed_bytes_stored|]. split; [by apply Hfiles|]. by eapply landed_bytes_size.
Qed.

Lemma media_done_or_failed id organization prefix pf w :
  p_status (produce_media sha256_bytes index_bytes settings_at now_at id organization prefix pf w).1 = PDone
  \/ p_status (produce_media sha256_bytes index_bytes settings_at now_at id organization prefix pf w).1 = PFailed.
Proof.
  assert (H : forall report w, p_status (finish_media_part sha256_bytes index_bytes settings_at now_at id prefix report w).1 = PDone
            \/ p_status (finish_media_part sha256_bytes index_bytes settings_at now_at id prefix report w).1 = PFailed).
  { intros report w0. unfold finish_media_part. destruct (settings_at AtIndex); [|by right].
    destruct (write_file _ _ _) as [[|e] d]; [by left|by right]. }
  unfold produce_media. destruct (settings_at _); [|by right]. destruct (pf_media pf); [|by right].
  destruct (pending_objects_for_organization _ _ _); [apply H|]. destruct (copy_objects _ _ _ _ _ _) as [report d].
  destruct (negb _); [by right|apply H].
Qed.
End MediaPart.

(** *** One part among the others of its run *)

Lemma produce_each_part (step : str -> destination -> part * destination) name names : forall w,
  name ∈ names -> NoDup names ->
  exists w1, (step name w1).1 ∈ (produce_each step names w).1
    /\ forall path, (forall other w, other ∈ names -> other <> name -> ds_disk (step other w).2 !! path = ds_disk w !! path) ->
         ds_disk (produce_each step names w).2 !! path = ds_disk (step name w1).2 !! path.
Proof.
  assert (Hkeep : forall names path, name ∉ names ->
            (forall other w, other ∈ names -> other <> name -> ds_disk (step other w).2 !! path = ds_disk w !! path) ->
            forall w, ds_disk (produce_each step names w).2 !! path = ds_disk w !! path).
  { clear names. induction names as [|other names IH]; intros path Hnot Hframe w; [done|]. cbn [produce_each].
    apply not_elem_of_cons in Hnot as [Hne Hnot]. pose proof (Hframe other w ltac:(by left) ltac:(done)) as H1.
    destruct (step other w) as [p w1]. cbn [snd] in H1. specialize (IH path Hnot ltac:(intros; apply Hframe; [by right|done]) w1).
    destruct (produce_each step names w1) as [ps w2]. cbn [snd] in *. by rewrite IH. }
  induction names as [|other names IH]; intros w Hin Hn; [by apply elem_of_nil in Hin|]. apply NoDup_cons in Hn as [Hnot Hn].
  cbn [produce_each]. destruct (decide (other = name)) as [->|Hne].
  - exists w. destruct (step name w) as [p w1] eqn:E. specialize (Hkeep names).
    destruct (produce_each step names w1) as [ps w2] eqn:Ep. split; [by left|]. intros path Hframe.
    pose proof (Hkeep path Hnot ltac:(intros; apply Hframe; [by right|done]) w1) as Hk. by rewrite Ep in Hk.
  - apply elem_of_cons in Hin as [->|Hin]; [done|]. destruct (step other w) as [p w1]. destruct (IH w1 Hin Hn) as (w2 & H2 & Hp).
    exists w2. destruct (produce_each step names w1) as [ps w3]. split; [by right|]. intros path Hframe. apply Hp.
    intros; apply Hframe; [by right|done].
Qed.

Section Whole.
Context `{J : JsonNumber, A : Aead, U : Uuids, F : FileSystem, O : ObjectStore, UL : !UuidLaws U}.
Context (sha256_bytes : list Z -> str) (pretty : value -> list Z) (index_bytes : media_index -> list Z).
Context (read_env : str -> option str).
Context (settings_at : reading -> result backup_settings str) (drawn : str -> list Z * list Z) (now_at : str -> Z).
Context (settings : backup_settings).
(** A reading of the settings may fail; whenever one succeeds, these are the settings. *)
Hypothesis Hsettings : forall r st, settings_at r = Ok st -> st = settings.

Lemma document_keeps id prefix sealer pf name w path : name ∈ PARTS -> name <> s!"media" ->
  path <> run_base (se_local_root settings) prefix ++ part_file name ->
  ds_disk (produce_document sha256_bytes pretty settings_at drawn now_at id (storage_prefix prefix) sealer pf name w).2 !! path
  = ds_disk w !! path.
Proof.
  intros Hname Hmedia Hp. assert (Hfile : part_file name = storage_key [] name).
  { unfold part_file. by rewrite (proj2 (str_eqb_neq _ _) Hmedia). }
  unfold produce_document, record_part. destruct (document pf name); [|apply (f_equal (fun d => d !! path)), keep_disk].
  destruct (seal_artifact _ _ _ _) as [artifact|]; [|apply (f_equal (fun d => d !! path)), keep_disk].
  destruct (settings_at (AtPart name)) as [st|] eqn:Est;
    [rewrite (Hsettings _ _ Est)|apply (f_equal (fun d => d !! path)), keep_disk].
  rewrite storage_key_app, local_path_under by (rewrite <- Hfile; by apply part_file_name). rewrite <- Hfile.
  pose proof (write_file_frame (run_base (se_local_root settings) prefix ++ part_file name) artifact (ds_disk w) path Hp) as H.
  destruct (write_file _ _ _) as [[|e] d]; cbn [snd] in *; rewrite keep_disk; exact H.
Qed.

(** Where the artifact of a part lies; the media's is its index. *)
Definition part_key (prefix name : str) : str := run_base (se_local_root settings) prefix ++ part_file name.

Lemma run_base_idem root prefix : run_base root (storage_prefix prefix) = run_base root prefix.
Proof. unfold run_base. by rewrite storage_prefix_idem. Qed.

Lemma media_keeps id organization prefix pf w path :
  (forall suffix, writes s!"media" suffix -> path <> run_base (se_local_root settings) prefix ++ suffix) ->
  ds_disk (produce_media sha256_bytes index_bytes settings_at now_at id organization (storage_prefix prefix) pf w).2 !! path
  = ds_disk w !! path.
Proof.
  intros Hp. assert (Hfin : forall report w0,
    ds_disk (finish_media_part sha256_bytes index_bytes settings_at now_at id (storage_prefix prefix) report w0).2 !! path
    = ds_disk w0 !! path).
  { intros report w0. apply (finished_media_keeps sha256_bytes index_bytes settings_at now_at settings Hsettings).
    rewrite run_base_idem. apply (Hp (part_file s!"media")). by left. }
  unfold produce_media. destruct (settings_at (AtPart _)) as [st|] eqn:Est;
    [rewrite (Hsettings _ _ Est)|apply (f_equal (fun d => d !! path)), keep_disk].
  destruct (pf_media pf); [|apply (f_equal (fun d => d !! path)), keep_disk].
  destruct (pending_objects_for_organization _ _ _) as [|o l]; [apply Hfin|].
  pose proof (copy_frame sha256_bytes settings prefix (pf_objects pf) (o :: l) (ds_disk w) path) as H.
  destruct (copy_objects _ _ _ _ _ _) as [report d]. cbn [snd] in H. assert (Hd : d !! path = ds_disk w !! path).
  { apply H. intros rest. apply (Hp (OBJECTS_DIR ++ rest)). right. split; [done|by exists rest]. }
  destruct (negb _); [unfold media_failed, record_part; cbn [snd]; by rewrite keep_disk|].
  rewrite Hfin. exact Hd.
Qed.

Lemma other_part_keeps b sealer pf prefix name other w : bk_storage_prefix b = storage_prefix prefix ->
  name ∈ PARTS -> other ∈ PARTS -> other <> name ->
  ds_disk (produce_part sha256_bytes pretty index_bytes settings_at drawn now_at b sealer pf other w).2 !! part_key prefix name
  = ds_disk w !! part_key prefix name.
Proof.
  intros Hb Hn Ho Hne. pose proof (parts_write_apart other name Ho Hn Hne) as Hw. unfold produce_part, part_key. rewrite Hb.
  assert (Hp : forall suffix, writes other suffix ->
    run_base (se_local_root settings) prefix ++ part_file name <> run_base (se_local_root settings) prefix ++ suffix).
  { intros suffix Hs E%app_inv_head. by rewrite E in Hw. }
  destruct (str_eqb other s!"media") eqn:E.
  - apply str_eqb_eq in E as ->. by apply media_keeps.
  - apply document_keeps; [done|by apply str_eqb_neq|]. apply Hp. by left.
Qed.

(** A part is done when its artifact was written, and failed otherwise. *)
Lemma part_done_or_failed b sealer pf prefix name w : bk_storage_prefix b = storage_prefix prefix -> name ∈ PARTS ->
  let '(p, w') := produce_part sha256_bytes pretty index_bytes settings_at drawn now_at b sealer pf name w in
  p_status p = PFailed \/ (p_status p = PDone /\ is_Some (ds_disk w' !! part_key prefix name)).
Proof.
  intros Hb Hname. unfold produce_part. rewrite Hb. destruct (str_eqb name s!"media") eqn:E.
  - apply str_eqb_eq in E as ->. unfold produce_media.
    assert (Hfin : forall report w0,
      let '(p, w') := finish_media_part sha256_bytes index_bytes settings_at now_at (bk_id b) (storage_prefix prefix) report w0 in
      p_status p = PFailed \/ (p_status p = PDone /\ is_Some (ds_disk w' !! part_key prefix s!"media"))).
    { intros report w0. unfold finish_media_part. destruct (settings_at AtIndex) as [st|] eqn:Est; [|by left].
      rewrite (Hsettings _ _ Est), storage_prefix_idem.
      change INDEX_FILENAME with (part_file s!"media"). rewrite local_path_under by by apply (part_file_name s!"media").
      unfold write_file. fold (part_key prefix s!"media"). destruct (write_refusal _); [by left|right]. split; [done|].
      cbn [record_part snd]. rewrite keep_disk. cbn [ds_disk]. rewrite lookup_insert_eq. by eexists. }
    destruct (settings_at (AtPart _)); [|by left]. destruct (pf_media pf); [|by left].
    destruct (pending_objects_for_organization _ _ _); [apply Hfin|]. destruct (copy_objects _ _ _ _ _ _) as [report d].
    destruct (negb _); [by left|apply Hfin].
  - apply str_eqb_neq in E. assert (Hfile : part_file name = storage_key [] name).
    { unfold part_file. by rewrite (proj2 (str_eqb_neq _ _) E). }
    unfold produce_document. destruct (document pf name); [|by left].
    destruct (seal_artifact _ _ _ _) as [artifact|]; [|by left].
    destruct (settings_at (AtPart name)) as [st|] eqn:Est; [|by left].
    rewrite (Hsettings _ _ Est), storage_key_app, local_path_under by (rewrite <- Hfile; by apply part_file_name).
    rewrite <- Hfile. unfold write_file. fold (part_key prefix name). destruct (write_refusal _); [by left|right]. split; [done|].
    cbn [record_part snd]. rewrite keep_disk. cbn [ds_disk]. rewrite lookup_insert_eq. by eexists.
Qed.

(** When no part of a run failed, the artifact of every part it was asked for stands. *)
Lemma complete_run_has_its_parts b pf w prefix :
  bk_storage_prefix b = storage_prefix prefix -> (forall name, name ∈ bk_scopes b -> name ∈ PARTS) ->
  let '(parts, w') := produce_all sha256_bytes pretty index_bytes read_env settings_at drawn now_at b pf w in
  existsb (has_part_status PFailed) parts = false ->
  forall name, name ∈ bk_scopes b -> is_Some (ds_disk w' !! part_key prefix name).
Proof.
  intros Hb Hknown. destruct (produce_all _ _ _ _ _ _ _ b pf w) as [parts w'] eqn:Eall. intros Hnone name Hname.
  unfold produce_all in Eall. destruct (resolve_sealer _ _) as [sealer|problem].
  - set (step := produce_part _ _ _ _ _ _ b sealer pf) in *. set (names := List.filter _ PARTS) in *.
    assert (Hnd : NoDup names).
    { eapply sublist_NoDup; [|apply sublist_filter]. apply (bool_decide_unpack _). by vm_compute. }
    assert (Hin : name ∈ names).
    { apply elem_of_filter_bool. split; [by apply Hknown|]. apply existsb_elem. eexists; split; [exact Hname|apply str_eqb_refl]. }
    destruct (produce_each_part step name names w Hin Hnd) as (w1 & Hp & Hframe). rewrite Eall in Hp, Hframe. cbn [fst snd] in Hp, Hframe.
    rewrite Hframe by (intros other w2 Ho Hne; apply elem_of_filter_bool in Ho as [Ho _]; apply other_part_keeps; [exact Hb|by apply Hknown|exact Ho|exact Hne]).
    pose proof (part_done_or_failed b sealer pf prefix name w1 Hb (Hknown _ Hname)) as H. fold step in H.
    destruct (step name w1) as [p w2]. cbn [fst snd] in *. destruct H as [Hf|[_ H]]; [|exact H]. exfalso.
    apply not_true_iff_false in Hnone. apply Hnone, existsb_elem. exists p. split; [exact Hp|]. unfold has_part_status. by rewrite Hf.
  - exfalso. apply not_true_iff_false in Hnone. apply Hnone.
    assert (Hm : name ∈ List.filter known_part (bk_scopes b)).
    { apply elem_of_filter_bool. split; [done|]. apply existsb_elem. eexists; split; [by apply Hknown|apply str_eqb_refl]. }
    destruct (List.filter known_part (bk_scopes b)) as [|n names]; [by apply elem_of_nil in Hm|].
    cbn [produce_each record_part] in Eall. destruct (produce_each _ names _) as [ps w3]. by injection Eall as <- _.
Qed.

Lemma normalised_known names scopes name : normalise_scopes names = Ok scopes -> name ∈ scopes -> name ∈ PARTS.
Proof.
  intros H Hn. assert (E : scopes = List.filter (fun p => existsb (str_eqb p) names) PARTS).
  { unfold normalise_scopes in H. repeat (case_match; [done|]). by injection H as <-. }
  rewrite E in Hn. by apply elem_of_filter_bool in Hn as [? _].
Qed.

(** When no part of a run failed, each of its parts stands and the media part holds the library. *)
Lemma complete_run_holds_the_library id now finished finished_text json_text sha256_text date_text new pf w scopes rows :
  (forall b, b ∈ st_backups (ds_store w) -> bk_id b <> id) ->
  normalise_scopes (nb_scopes new) = Ok scopes ->
  existsb (str_eqb (nb_kind new)) [s!"manual"; s!"scheduled"] = true ->
  existsb (str_eqb (nb_destination new)) [s!"local"; s!"s3"] = true ->
  (forall listed, pf_media pf = Ok listed -> listed = rows) -> NoDup (mo_id ∘ mr_object <$> rows) -> (forall r, r ∈ rows -> is_uuid (mo_id (mr_object r))) ->
  exists row parts w', take_backup sha256_bytes pretty index_bytes read_env settings_at drawn now_at json_text sha256_text date_text
      id now finished finished_text new pf w = Ok (row, parts, w')
    /\ st_backups (ds_store w') = st_backups (ds_store w) ++ [row]
    /\ bk_id row = id /\ bk_scopes row = scopes /\ bk_protected row = nb_protected new
    /\ bk_retain_until row = nb_retain_until new /\ bk_storage_prefix row = run_prefix date_text now id
    /\ (existsb (has_part_status PFailed) parts = false ->
        (forall name, name ∈ scopes -> is_Some (ds_disk w' !! part_key (bk_storage_prefix row) name))
        /\ (s!"media" ∈ scopes -> forall r, r ∈ rows -> row_is_live r = true ->
          site_in_organization (nb_organization_id new) (pf_sites pf) (mo_site_id (mr_object r)) = true ->
          exists bytes, pf_objects pf !! mo_storage_key (mr_object r) = Some bytes
            /\ ds_disk w' !! archive_path (se_local_root settings) (bk_storage_prefix row) (mr_object r) = Some bytes)).
Proof.
  intros Hfresh Hs Hk Hd Hrows Hn Hu.
  destruct (take_backup_answers sha256_bytes pretty index_bytes read_env settings_at drawn now_at json_text sha256_text date_text
    id now finished finished_text new pf w scopes Hfresh Hs Hk Hd)
    as (row & parts & w' & E & Hst & Hid & _ & Hsc & _ & Hret & Hprot & Hpre & b & w0 & Hb & Horg & Hbs & Hbp & _ & Hparts & Hdisk).
  exists row, parts, w'. do 7 (split; [done|]). intros Hnone. rewrite Hparts in Hnone. split.
  { intros name Hname. rewrite Hpre, Hdisk. unfold part_key, run_prefix. rewrite run_base_idem.
    pose proof (complete_run_has_its_parts b pf w0 (date_text now ++ s!"/" ++ uuid_text id) Hbp) as H. rewrite Hbs in H.
    specialize (H ltac:(intros x Hx; by eapply normalised_known)).
    destruct (produce_all _ _ _ _ _ _ _ b pf w0) as [ps w2]. by apply H. }
  intros Hmedia r Hr Hl Hsite. rewrite Hpre, Hdisk. clear E Hparts Hdisk. unfold produce_all in *. rewrite Hbs in *.
  assert (Hin : s!"media" ∈ List.filter (fun name => existsb (str_eqb name) scopes) PARTS).
  { apply elem_of_filter_bool. split; [by right; left|]. apply existsb_elem. eexists; split; [exact Hmedia|apply str_eqb_refl]. }
  destruct (resolve_sealer _ _) as [sealer|problem].
  - set (step := produce_part _ _ _ _ _ _ b sealer pf) in *. set (names := List.filter _ PARTS) in *.
    assert (Hnd : NoDup names).
    { eapply sublist_NoDup; [|apply sublist_filter]. apply (bool_decide_unpack _). by vm_compute. }
    destruct (produce_each_part step s!"media" names w0 Hin Hnd) as (w1 & Hp & Hframe).
    assert (Hstep : step s!"media" w1
              = produce_media sha256_bytes index_bytes settings_at now_at id (nb_organization_id new) (run_prefix date_text now id) pf w1).
    { unfold step, produce_part. rewrite str_eqb_refl. by rewrite Hb, Horg, Hbp. }
    rewrite Hstep in Hp, Hframe.
    destruct (produce_media _ _ _ _ _ _ _ _ w1) as [p w2] eqn:Em. cbn [fst snd] in Hp, Hframe.
    assert (Hdone : p_status p = PDone).
    { pose proof (media_done_or_failed sha256_bytes index_bytes settings_at now_at id (nb_organization_id new)
        (run_prefix date_text now id) pf w1) as H. rewrite Em in H. cbn [fst] in H. destruct H as [H|H]; [done|]. exfalso.
      apply not_true_iff_false in Hnone. apply Hnone, existsb_elem. exists p. split; [exact Hp|]. unfold has_part_status.
      by rewrite H. }
    destruct (done_media_part_holds_the_library sha256_bytes index_bytes settings_at now_at settings Hsettings id
      (nb_organization_id new) (run_prefix date_text now id) pf rows w1 w2 p Hrows) as [_ Hall]; [| |exact Em|exact Hdone|].
    { unfold pending_objects_for_organization. rewrite (sort_by_perm row_order). rewrite <- list_fmap_compose.
      eapply sublist_NoDup; [exact Hn|]. apply fmap_sublist, sublist_filter. }
    { apply Forall_forall. intros o Ho. unfold pending_objects_for_organization in Ho.
      apply list_elem_of_fmap in Ho as (x & -> & Hx). rewrite (sort_by_perm row_order) in Hx.
      apply elem_of_filter_bool in Hx as [Hx _]. by apply Hu. }
    destruct (Hall r Hr Hl Hsite) as (bytes & Hobj & Hfile & _). exists bytes. split; [done|]. rewrite Hframe; [done|].
    intros other w3 Ho Hne. unfold step, produce_part. rewrite (proj2 (str_eqb_neq _ _) Hne), Hbp, Hb.
    apply document_keeps; [by apply elem_of_filter_bool in Ho as [? _]|done|]. unfold run_prefix.
    rewrite archive_path_under. intros Ep. unfold run_base in Ep. rewrite storage_prefix_idem in Ep. apply app_inv_head in Ep.
    apply (parts_write_apart s!"media" other); [by right; left|by apply elem_of_filter_bool in Ho as [? _]|done|].
    rewrite <- Ep. right. split; [done|]. unfold object_key. by eexists.
  - exfalso. apply not_true_iff_false in Hnone. apply Hnone.
    set (names := List.filter known_part scopes) in *.
    assert (Hne : names <> []).
    { intros En. assert (Hm : s!"media" ∈ names) by (apply elem_of_filter_bool; by split). rewrite En in Hm. by apply elem_of_nil in Hm. }
    destruct names as [|n names]; [done|]. cbn [produce_each record_part].
    destruct (produce_each _ names _) as [ps w3]. cbn [fst existsb]. done.
Qed.
End Whole.

(** ** What a run can lose *)

(** The row count of a database is cast to 32 bits: a database of 2^31 to 2^32 rows is written to
    the destination as a done part whose row the table refuses, the refusal is dropped, and with
    its part still queued the run counts as succeeded on the parts that are left. *)
Theorem oversized_count_loses_the_part `{J : JsonNumber, A : Aead, F : FileSystem, JL : !JsonNumberLaws J}
  (sha256_bytes : list Z -> str) (pretty : value -> list Z) (settings_at : reading -> result backup_settings str)
  (drawn : str -> list Z * list Z) (now_at : str -> Z) (settings : backup_settings) (id : Z) (prefix : str) (pf : platform)
  (rows : list (str * Z)) (w : destination) (others : list part) :
  settings_at (AtPart s!"database") = Ok settings -> pf_tables pf = Ok rows ->
  2 ^ 31 <= rows_total rows < 2 ^ 32 ->
  write_refusal (local_path_for (se_local_root settings) (storage_key prefix s!"database")) = None ->
  (exists p, p ∈ others /\ p_status p = PDone) -> (forall p, p ∈ others -> p_status p = PDone) ->
  let '(p, w') := produce_document sha256_bytes pretty settings_at drawn now_at id prefix (ArtifactSealer None) pf s!"database" w in
  p_status p = PDone /\ ds_store w' = ds_store w
  /\ ds_disk w' !! local_path_for (se_local_root settings) (storage_key prefix s!"database") <> None
  /\ summarise (part_queued s!"database" :: others) = RSucceeded.
Proof.
  intros Hsettings Hrows Hsize Hwrite [p0 [Hp0 Hd0]] Hothers. unfold produce_document.
  assert (Hdoc : exists fields, document pf s!"database" = Ok (VObject ((s!"item_count", count_json (rows_total rows)) :: fields))).
  { unfold document. change (str_eqb s!"database" s!"database") with true. cbv iota. unfold document_database. rewrite Hrows.
    cbn [result_bind]. by eexists. }
  destruct Hdoc as [fields ->]. cbn [seal_artifact sl_passphrase]. rewrite Hsettings. unfold write_file. rewrite Hwrite.
  cbn [record_part part_done p_status ds_disk ds_store]. split; [done|].
  assert (Hcount : item_count (VObject ((s!"item_count", count_json (rows_total rows)) :: fields)) < 0).
  { unfold item_count. assert (E : get s!"item_count" (VObject ((s!"item_count", count_json (rows_total rows)) :: fields))
                               = Some (count_json (rows_total rows))) by reflexivity.
    rewrite E. cbn [mbind option_bind count_json as_i64]. rewrite number_as_i64_of_Z by (unfold in_i64; lia).
    change (as_i32 (rows_total rows) < 0). unfold as_i32.
    rewrite <- (Z.mod_unique (rows_total rows + 2 ^ 31) (2 ^ 32) 1 (rows_total rows - 2 ^ 31)); lia. }
  unfold keep_part, save_part. cbn [p_part ds_store].
  match goal with |- context [part_row_ok ?q] => assert (Hrow : part_row_ok q = false) end.
  { unfold part_row_ok. cbn [p_part p_size_bytes p_item_count]. apply andb_false_iff. right. apply Z.leb_gt. exact Hcount. }
  rewrite Hrow, andb_false_r. cbn [ds_store ds_disk]. split; [done|]. split; [by rewrite lookup_insert_eq|].
  unfold summarise. cbn [List.filter has_part_status part_queued p_status].
  assert (Hf : List.filter (has_part_status PFailed) others = []).
  { apply filter_none. intros p Hp. unfold has_part_status. by rewrite (Hothers p Hp). }
  assert (Hd : p0 ∈ List.filter (has_part_status PDone) others).
  { apply elem_of_filter_bool. split; [done|]. unfold has_part_status. by rewrite Hd0. }
  change (has_part_status PFailed (part_queued s!"database")) with false.
  change (has_part_status PDone (part_queued s!"database")) with false. cbv iota. rewrite Hf. cbn [length].
  destruct (List.filter (has_part_status PDone) others); [by apply elem_of_nil in Hd|done].
Qed.

(** ** A platform to evaluate on *)

Definition sample_settings : backup_settings :=
  BackupSettings s!"local" s!"/var/backups" None (Some s!"KEY") s!"passphrase" 7 true None.
Definition sample_env (name : str) : option str := if str_eqb name s!"KEY" then Some s!"secret" else None.
Definition sample_rows : list media_row := (fun o => MediaRow o 0 None None) <$> sample_media.
Definition sample_platform : platform :=
  Platform (Ok [(s!"users", 3)]) (Err s!"unavailable") (Ok [s!"plain"]) (Ok 0) [MediaSite 1 (Some 5)]
    (Ok sample_rows) sample_objects.
Definition sample_draft : new_backup :=
  NewBackup (Some 5) s!"nightly" s!"manual" None PARTS s!"local" [] false None None.
Definition empty_destination : destination := Destination (BackupStore [] []) ∅.
Definition sample_date (_ : Z) : str := s!"2026-01-01".
Definition braces {A} (_ : A) : list Z := [123; 125].
Definition sample_drawn (_ : str) : list Z * list Z := (repeat 1 16, repeat 2 12).
Definition sample_run : result (backup * list part * destination) backup_error :=
  take_backup (J := Z_number) (A := tagging) (F := plain_disk) (O := plain_store) digest braces braces sample_env
    (fun _ => Ok sample_settings) sample_drawn (fun _ => 1) (fun _ => []) (fun _ => []) sample_date 7 0 2
    s!"2026-01-01T00:00:02Z" sample_draft sample_platform empty_destination.

Lemma finished_run_verifies_clean_witness :
  exists row parts w', sample_run = Ok (row, parts, w')
  /\ let m := manifest_of (uuid_text 7) s!"" row in
     is_clean (verdict (A := tagging) digest sample_env sample_settings m (ds_disk w')) = true
     /\ (forall name, name ∈ v_matched (verdict (A := tagging) digest sample_env sample_settings m (ds_disk w'))
           <-> exists p, produced_part m p /\ p_part p = name)
     /\ bk_status row = summarise (list_parts 7 (ds_store w'))
     /\ (bk_status row = RSucceeded ->
           exists name, name ∈ v_matched (verdict (A := tagging) digest sample_env sample_settings m (ds_disk w'))).
Proof.
  assert (Hok : match sample_run with Ok _ => true | Err _ => false end = true) by (vm_compute; reflexivity).
  destruct sample_run as [[[row parts] w']|] eqn:E; [|discriminate Hok].
  exists row, parts, w'. split; [done|]. unfold sample_run in E.
  apply (finished_run_verifies_clean (A := tagging) (F := plain_disk) (O := plain_store) digest braces braces sample_env
    (fun _ => Ok sample_settings) sample_drawn (fun _ => 1) sample_settings ltac:(done) ltac:(done) ltac:(done) ltac:(done)
    (fun _ => []) (fun _ => []) sample_date 7 0 2 s!"2026-01-01T00:00:02Z" s!"" sample_draft sample_platform empty_destination
    w' row parts ltac:(by intros b ?%elem_of_nil) ltac:(by intros r ?%elem_of_nil) E).
Defined.

Definition sample_backup : backup :=
  Backup 8 (Some 5) [] s!"manual" None [s!"media"; s!"themes"] RRunning 0 s!"local" (run_prefix sample_date 0 8) None None false
    None None None 0 (Some 0) None.
Definition earlier_manifest : manifest :=
  Manifest (uuid_text 7) 1 [part_done s!"themes" 1 2 s!"123125" (run_prefix sample_date 0 7 ++ s!"themes.json")] [].

Lemma later_run_leaves_others_verified_witness :
  let w' := (produce_all (J := Z_number) (A := tagging) (F := plain_disk) (O := plain_store) digest braces braces sample_env
    (fun _ => Ok sample_settings) sample_drawn (fun _ => 1) sample_backup sample_platform empty_destination).2 in
  (forall suffix, ds_disk w' !! (run_base s!"/var/backups" (sample_date 0 ++ s!"/" ++ uuid_text 7) ++ suffix)
     = ds_disk empty_destination !! (run_base s!"/var/backups" (sample_date 0 ++ s!"/" ++ uuid_text 7) ++ suffix))
  /\ verdict (A := tagging) digest sample_env sample_settings earlier_manifest (ds_disk w')
     = verdict (A := tagging) digest sample_env sample_settings earlier_manifest (ds_disk empty_destination).
Proof.
  apply (later_run_leaves_others_verified (A := tagging) (F := plain_disk) (O := plain_store) digest braces braces sample_env
    (fun _ => Ok sample_settings) sample_drawn (fun _ => 1) sample_settings ltac:(done) ltac:(done) ltac:(done) ltac:(done)
    sample_date ltac:(intros t; split; [done|reflexivity]) 8 7 0 0 sample_backup sample_platform empty_destination earlier_manifest);
    [by split|by split|done|done|].
  intros p key Hp. apply list_elem_of_singleton in Hp as ->. intros [= <-]. exists s!"themes.json". split; [done|].
  split; [done|]. intros r H. discriminate H.
Defined.

Lemma done_media_part_holds_the_library_witness :
  exists p w', produce_media (F := plain_disk) (O := plain_store) digest braces (fun _ => Ok sample_settings) (fun _ => 1) 8 (Some 5)
      s!"run" sample_platform empty_destination = (p, w')
  /\ p_item_count p = Z.of_nat (length (pending_objects_for_organization (Some 5) (pf_sites sample_platform) sample_rows))
  /\ forall r, r ∈ sample_rows -> row_is_live r = true ->
       site_in_organization (Some 5) (pf_sites sample_platform) (mo_site_id (mr_object r)) = true ->
       exists bytes, pf_objects sample_platform !! mo_storage_key (mr_object r) = Some bytes
         /\ ds_disk w' !! archive_path s!"/var/backups" s!"run" (mr_object r) = Some bytes
         /\ Z.of_nat (length bytes) = mo_size_bytes (mr_object r).
Proof.
  destruct (produce_media (F := plain_disk) (O := plain_store) digest braces (fun _ => Ok sample_settings) (fun _ => 1) 8 (Some 5)
      s!"run" sample_platform empty_destination) as [p w'] eqn:E.
  exists p, w'. split; [done|].
  apply (done_media_part_holds_the_library (F := plain_disk) (O := plain_store) digest braces (fun _ => Ok sample_settings) (fun _ => 1)
    sample_settings ltac:(by intros ? ? [= <-]) 8 (Some 5) s!"run" sample_platform sample_rows
    empty_destination w' p); [by intros ? [= <-]|by_compute| |exact E|].
  - repeat constructor; cbn; lia.
  - apply (f_equal (fun r => p_status r.1)) in E. cbn [fst] in E. rewrite <- E. vm_compute. reflexivity.
Defined.
