(* ===== verification/BackupSchedules.v ===== *)
(** * Backup schedules and their worker: [crates/backup/src/store.rs],
      [apps/api/src/backup_schedule_runner.rs], the schedule routes of
      [apps/api/src/routes/backups.rs]

    The rows of schedules with the checks of their table, what the routes write, and the tick that
    takes a backup for each schedule whose time has come and arms it again.  Producing a backup is
    that of [BackupRuns], the next run that of [Cadence]. *)

From S2P Require Import Prelude Json Cron Cadence Backups Sealing MediaArchive BackupRuns.

(** ** Rows *)

Record new_schedule := NewSchedule {
  ns_organization_id : option Z;
  ns_name : str;
  ns_frequency : str;
  ns_at_time : option str;
  ns_day_of_week : option Z;
  ns_day_of_month : option Z;
  ns_timezone : str;
  ns_scopes : list str;
  ns_retention_count : Z;
  ns_destination : str;
  ns_enabled : bool;
  ns_created_by : option Z
}.

(** The checks of the row; [lower(btrim(name))] is the lower case of ASCII names. *)
Definition schedule_row_ok (s : backup_schedule) : bool :=
  schema_schedule s
  && existsb (str_eqb (bs_destination s)) [s!"local"; s!"s3"]
  && (1 <=? bs_retention_count s) && (bs_retention_count s <=? 365)
  && (1 <=? length (btrim (bs_name s)))%nat && (length (btrim (bs_name s)) <=? 64)%nat
  && (0 <? length (btrim (bs_timezone s)))%nat
  && (1 <=? length (bs_scopes s))%nat && (length (bs_scopes s) <=? 5)%nat
  && forallb known_part (bs_scopes s) && negb (has_duplicate [] (bs_scopes s)).

Definition same_name (s s' : backup_schedule) : bool :=
  bool_decide (bs_organization_id s = bs_organization_id s')
  && str_eqb (to_ascii_lowercase (btrim (bs_name s))) (to_ascii_lowercase (btrim (bs_name s'))).

(** The schedules, and what runs change. *)
Record centre := Centre { ct_schedules : list backup_schedule; ct_world : destination }.

Definition is_schedule (id : Z) (s : backup_schedule) : bool := bs_id s =? id.
Definition owned_schedule (id : Z) (organization : option Z) (s : backup_schedule) : bool :=
  is_schedule id s && bool_decide (bs_organization_id s = organization).

(** [as_time] is the cast to [time] and back to text. *)
Definition upsert_schedule (as_time : str -> option str) (fresh now : Z) (id : option Z) (new : new_schedule)
  (l : list backup_schedule) : result (backup_schedule * list backup_schedule) backup_error :=
  let? scopes := normalise_scopes (ns_scopes new) in
  let? at_time := match ns_at_time new with
                  | None => Ok None
                  | Some text => match as_time text with Some t => Ok (Some t) | None => Err BackupDatabase end
                  end in
  let row old_id last_run next_run last_backup created :=
    BackupSchedule old_id (ns_organization_id new) (trim (ns_name new)) (ns_frequency new) at_time (ns_day_of_week new)
      (ns_day_of_month new) (trim (ns_timezone new)) scopes (ns_retention_count new) (ns_destination new) (ns_enabled new)
      last_run next_run last_backup created now in
  match id with
  | Some id =>
      match List.find (owned_schedule id (ns_organization_id new)) l with
      | None => Err ScheduleNotFound
      | Some s =>
          let s' := row (bs_id s) (bs_last_run_at s) (bs_next_run_at s) (bs_last_backup_id s) (bs_created_at s) in
          require schedule_row_ok s' && negb (existsb (fun o => negb (bs_id o =? id) && same_name o s') l) else BackupDatabase in
          Ok (s', (fun o => if owned_schedule id (ns_organization_id new) o then s' else o) <$> l)
      end
  | None =>
      let s' := row fresh None None None now in
      require schedule_row_ok s' && negb (existsb (fun o => same_name o s') l) else BackupDatabase in
      Ok (s', l ++ [s'])
  end.

(** A deleted schedule takes its link off its runs ([on delete set null]). *)
Definition unlink (id : Z) (b : backup) : backup :=
  if bool_decide (bk_schedule_id b = Some id)
  then Backup (bk_id b) (bk_organization_id b) (bk_label b) (bk_kind b) None (bk_scopes b) (bk_status b) (bk_size_bytes b)
         (bk_destination b) (bk_storage_prefix b) (bk_manifest b) (bk_checksum b) (bk_protected b) (bk_retain_until b)
         (bk_error b) (bk_created_by b) (bk_created_at b) (bk_started_at b) (bk_finished_at b)
  else b.
Definition delete_schedule (id : Z) (organization : option Z) (c : centre) : result centre backup_error :=
  require existsb (owned_schedule id organization) (ct_schedules c) else ScheduleNotFound in
  Ok (Centre (List.filter (fun s => negb (owned_schedule id organization s)) (ct_schedules c))
        (Destination (BackupStore (unlink id <$> st_backups (ds_store (ct_world c))) (st_parts (ds_store (ct_world c))))
           (ds_disk (ct_world c)))).

Definition find_schedule (id : Z) (organization : option Z) (l : list backup_schedule) : result backup_schedule backup_error :=
  ok_or (List.find (owned_schedule id organization) l) ScheduleNotFound.

Definition update_schedules (id : Z) (f : backup_schedule -> backup_schedule) (l : list backup_schedule) : list backup_schedule :=
  (fun s => if is_schedule id s then f s else s) <$> l.
Definition with_run (s : backup_schedule) (enabled : bool) (last_run next_run last_backup : option Z) (now : Z) : backup_schedule :=
  BackupSchedule (bs_id s) (bs_organization_id s) (bs_name s) (bs_frequency s) (bs_at_time s) (bs_day_of_week s)
    (bs_day_of_month s) (bs_timezone s) (bs_scopes s) (bs_retention_count s) (bs_destination s) enabled last_run next_run
    last_backup (bs_created_at s) now.
Definition set_schedule_next_run (id now : Z) (next : option Z) : list backup_schedule -> list backup_schedule :=
  update_schedules id (fun s => with_run s (bs_enabled s) (bs_last_run_at s) next (bs_last_backup_id s) now).
Definition set_schedule_enabled (id now : Z) (enabled : bool) : list backup_schedule -> list backup_schedule :=
  update_schedules id (fun s => with_run s enabled (bs_last_run_at s) (bs_next_run_at s) (bs_last_backup_id s) now).
Definition record_schedule_run (id backup_id now : Z) (next : option Z) : list backup_schedule -> list backup_schedule :=
  update_schedules id (fun s => with_run s (bs_enabled s) (Some now) (coalesce next (bs_next_run_at s)) (Some backup_id) now).

(** [where enabled and next_run_at is not null and next_run_at <= $1 order by next_run_at limit 20] *)
Definition schedule_due (now : Z) (s : backup_schedule) : bool :=
  bs_enabled s && match bs_next_run_at s with Some t => t <=? now | None => false end.
Definition next_run_order (a b : backup_schedule) : comparison := default 0 (bs_next_run_at a) ?= default 0 (bs_next_run_at b).
Definition DUE_LIMIT : nat := 20.
Definition next_due_schedules (now : Z) (l : list backup_schedule) : list backup_schedule :=
  take DUE_LIMIT (sort_by next_run_order (List.filter (schedule_due now) l)).
Definition schedule_appears_due (id now : Z) (l : list backup_schedule) : bool :=
  match List.find (is_schedule id) l with Some s => schedule_due now s | None => false end.

(** ** The routes that write a schedule *)

Section Routes.
Context `{TZ : TimeZones, Cal : Calendar}.

Definition cadence_of (draft : new_schedule) : result cadence backup_error :=
  from_schedule (BackupSchedule 0 (ns_organization_id draft) (ns_name draft) (ns_frequency draft) (ns_at_time draft)
    (ns_day_of_week draft) (ns_day_of_month draft) (ns_timezone draft) (ns_scopes draft) (ns_retention_count draft)
    (ns_destination draft) (ns_enabled draft) None None None 0 0).

(** [draft.enabled.then(|| cadence.next_after(now)).transpose()?] *)
Definition first_run (draft : new_schedule) (now : Z) : result (option Z) backup_error :=
  let? c := cadence_of draft in
  if ns_enabled draft then let? t := next_after c now in Ok (Some t) else Ok None.

(** [create_schedule], and [update_schedule] when [id] is given. *)
Definition write_schedule (as_time : str -> option str) (fresh now : Z) (id : option Z) (draft : new_schedule)
  (l : list backup_schedule) : result (backup_schedule * list backup_schedule) backup_error :=
  let? next := first_run draft now in
  match upsert_schedule as_time fresh now id draft l with
  | Err e => Err e
  | Ok (row, l) => Ok (row, set_schedule_next_run (bs_id row) now next l)
  end.
End Routes.

(** ** The worker *)

(** What one run of the worker meets: the id of its backup, the instants at which it starts, ends
    and arms the schedule again, and the platform it copies. *)
Record occasion := Occasion {
  oc_backup_id : Z;
  oc_started : Z;
  oc_finished : Z;
  oc_finished_text : str;
  oc_rearmed : Z;
  oc_platform : platform
}.
Definition REARM_HORIZON_DAYS : Z := 32.

Section Worker.
Context `{J : JsonNumber, A : Aead, U : Uuids, F : FileSystem, O : ObjectStore, TZ : TimeZones, Cal : Calendar}.
Context (sha256_bytes : list Z -> str) (pretty : value -> list Z) (index_bytes : media_index -> list Z).
Context (read_env : str -> option str).
Context (settings_at : reading -> result backup_settings str) (drawn : str -> list Z * list Z) (now_at : str -> Z).
Context (json_text : value -> str) (sha256_text : str -> str) (date_text : Z -> str).

Definition run_backup (o : occasion) (new : new_backup) (w : destination) : result (backup * list part * destination) backup_error :=
  take_backup sha256_bytes pretty index_bytes read_env settings_at drawn now_at json_text sha256_text date_text
    (oc_backup_id o) (oc_started o) (oc_finished o) (oc_finished_text o) new (oc_platform o) w.

Definition schedule_draft (label : str) (actor : option Z) (organization : option Z) (now : Z) (s : backup_schedule)
  (scopes : list str) : new_backup :=
  NewBackup organization label s!"scheduled" (Some (bs_id s)) (match bs_scopes s with [] => PARTS | _ => scopes end)
    (bs_destination s) [] false (Some (now + days (Z.max 1 (bs_retention_count s)))) actor.

(** [run_one]: the schedule is read again, the scopes are those the tick had listed. *)
Definition run_one (o : occasion) (id : Z) (organization : option Z) (scopes : list str) (c : centre) :
  result (option Z * centre) backup_error :=
  match find_schedule id organization (ct_schedules c) with
  | Err ScheduleNotFound => Ok (None, c)
  | Err e => Err e
  | Ok s =>
      if negb (bs_enabled s) then Ok (None, c)
      else
        match run_backup o (schedule_draft (bs_name s) None organization (oc_started o) s scopes) (ct_world c) with
        | Err e => Err e
        | Ok (finished, _, w) =>
            match from_schedule s with
            | Ok cadence =>
                let next := match next_after cadence (oc_rearmed o) with
                            | Ok t => t
                            | Err _ => oc_rearmed o + days REARM_HORIZON_DAYS
                            end in
                Ok (Some (bk_id finished),
                    Centre (record_schedule_run (bs_id s) (bk_id finished) (oc_rearmed o) (Some next) (ct_schedules c)) w)
            | Err _ =>
                Ok (Some (bk_id finished), Centre (set_schedule_enabled (bs_id s) (oc_rearmed o) false (ct_schedules c)) w)
            end
        end
  end.

Fixpoint run_due (occasions : Z -> occasion) (due : list backup_schedule) (started : nat) (c : centre) : nat * centre :=
  match due with
  | [] => (started, c)
  | s :: rest =>
      match run_one (occasions (bs_id s)) (bs_id s) (bs_organization_id s) (bs_scopes s) c with
      | Ok (Some _, c) => run_due occasions rest (S started) c
      | Ok (None, c) => run_due occasions rest started c
      | Err _ => run_due occasions rest started c
      end
  end.
Definition tick (occasions : Z -> occasion) (now : Z) (c : centre) : nat * centre :=
  run_due occasions (next_due_schedules now (ct_schedules c)) 0 c.

(** [POST /api/v1/backup-schedules/{id}/run]: a run of the schedule that does not move it. *)
Definition run_schedule_now (o : occasion) (actor : Z) (organization : option Z)
  (settings : result backup_settings backup_error) (id : Z) (c : centre) : result (backup * centre) backup_error :=
  match find_schedule id organization (ct_schedules c), settings with
  | Err e, _ | _, Err e => Err e
  | Ok s, Ok _ =>
      match run_backup o (schedule_draft (bs_name s ++ s!" (run now)") (Some actor) organization (oc_started o) s (bs_scopes s))
              (ct_world c) with
      | Err e => Err e
      | Ok (finished, _, w) =>
          Ok (finished, Centre (record_schedule_run (bs_id s) (bk_id finished) (oc_finished o) None (ct_schedules c)) w)
      end
  end.
End Worker.

(** ** What a tick leaves *)

Lemma search_days_later `{TZ : TimeZones, Cal : Calendar} c z a after n : forall d t, search_days c z a after n d = Some t -> after < t.
Proof.
  induction n as [|n IH]; intros d t; cbn [search_days]; [done|]. destruct (date_ok d); [|done].
  destruct (fires_on c d); [|apply IH]. destruct (after <? _) eqn:E; [|apply IH]. intros [= <-]. by apply Z.ltb_lt.
Qed.

Lemma cadence_runs_later `{TZ : TimeZones, Cal : Calendar} c after t : next_after c after = Ok t -> after < t.
Proof.
  unfold next_after. destruct (zone_of c) as [z|]; [|done]. cbn [result_bind].
  destruct (str_eqb _ _).
  - intros [= <-]. assert (0 < NANOS_PER_HOUR) by (unfold NANOS_PER_HOUR, NANOS_PER_SECOND; lia).
    pose proof (Z.mod_pos_bound after NANOS_PER_HOUR ltac:(lia)). lia.
  - destruct (cd_at_time c) as [a|]; [|done]. cbn [result_bind ok_or].
    destruct (search_days _ _ _ _ _ _) as [t0|] eqn:E; [|done]. intros [= <-]. by eapply search_days_later.
Qed.

(** The checks of a row make its draft one that a run accepts. *)
Lemma row_scopes_accepted s : schedule_row_ok s = true -> exists scopes, normalise_scopes (bs_scopes s) = Ok scopes.
Proof.
  unfold schedule_row_ok, normalise_scopes. rewrite !andb_true_iff, !Nat.leb_le, !forallb_elem. intros [[[[_ H1] H2] H3] H4].
  apply negb_true_iff in H4. rewrite H4. replace (length PARTS <? length (bs_scopes s))%nat with false
    by (symmetry; by apply Nat.ltb_ge).
  rewrite bool_decide_false by (intros E; rewrite E in H1; simpl in H1; lia).
  replace (existsb (fun s => negb (known_part s)) (bs_scopes s)) with false; [by eexists|].
  symmetry. apply not_true_iff_false. intros (x & Hx & E)%existsb_elem. by rewrite (H3 x Hx) in E.
Qed.

(** The time of day of a row can be read: an hourly row needs none. *)
Definition readable `{TZ : TimeZones} (s : backup_schedule) : Prop :=
  bs_frequency s = s!"hourly" \/ exists text at_time, bs_at_time s = Some text /\ parse_time text = Ok at_time.
(** What the operator wrote of a schedule, which the worker never changes. *)
Definition written (s : backup_schedule) :=
  (bs_id s, bs_organization_id s, bs_name s, bs_frequency s, bs_at_time s, bs_day_of_week s, bs_day_of_month s, bs_timezone s, bs_scopes s,
   bs_retention_count s, bs_destination s, bs_created_at s).
(** The row [s] a run leaves of the row [d]: still enabled and armed for the next time of its cadence after
    the run, thirty-two days on when the search finds none; a row whose time cannot be read is disabled. *)
Definition rearmed `{TZ : TimeZones, Cal : Calendar} (o : occasion) (d s : backup_schedule) : Prop :=
  written s = written d
  /\ ((readable d /\ bs_enabled s = true /\ bs_last_run_at s = Some (oc_rearmed o) /\ bs_last_backup_id s = Some (oc_backup_id o)
       /\ exists c next, from_schedule d = Ok c /\ bs_next_run_at s = Some next /\ oc_rearmed o < next
           /\ (next_after c (oc_rearmed o) = Ok next
               \/ is_ok (next_after c (oc_rearmed o)) = false /\ next = oc_rearmed o + 32 * 86400 * NANOS_PER_SECOND))
      \/ ((~ readable d) /\ bs_enabled s = false)).
(** A schedule whose time has come. *)
Definition due_now (now : Z) (s : backup_schedule) : Prop := bs_enabled s = true /\ exists t, bs_next_run_at s = Some t /\ t <= now.

Lemma due_now_spec now s : schedule_due now s = true <-> due_now now s.
Proof.
  unfold schedule_due, due_now. rewrite andb_true_iff. destruct (bs_next_run_at s) as [t|]; [|naive_solver]. rewrite Z.leb_le. naive_solver.
Qed.

Lemma readable_spec `{TZ : TimeZones} s : is_ok (from_schedule s) = true <-> readable s.
Proof.
  unfold from_schedule, readable. destruct (str_eqb (bs_frequency s) s!"hourly") eqn:E; [apply str_eqb_eq in E; naive_solver|].
  apply str_eqb_neq in E. destruct (bs_at_time s) as [text|]; cbn; [|naive_solver].
  destruct (parse_time text) as [t|] eqn:Ep; cbn; (split; [intros H|intros [?|(? & ? & [= <-] & ?)]]); try done; try congruence. right. by exists text, t.
Qed.

Lemma rearmed_not_due `{TZ : TimeZones, Cal : Calendar} now o d s : now <= oc_rearmed o -> rearmed o d s -> ~ due_now now s.
Proof.
  intros Ht (_ & [(_ & _ & _ & _ & c & n & _ & En & Hn & _)|[_ E]]) [He (t & Et & Hle)]; [|congruence]. rewrite En in Et. injection Et as <-. lia.
Qed.

Lemma find_own_schedule (l : list backup_schedule) s :
  NoDup (bs_id <$> l) -> s ∈ l -> List.find (owned_schedule (bs_id s) (bs_organization_id s)) l = Some s.
Proof.
  induction l as [|x l IH]; [by intros _ ?%elem_of_nil|]. rewrite fmap_cons. intros [Hx Hl]%NoDup_cons Hs.
  unfold owned_schedule, is_schedule. cbn [List.find]. apply elem_of_cons in Hs as [->|Hs].
  - by rewrite Z.eqb_refl, bool_decide_true.
  - rewrite (proj2 (Z.eqb_neq _ _)); [by apply IH|]. intros E. apply Hx. rewrite E. by apply list_elem_of_fmap_2.
Qed.

Lemma update_schedules_ids id f l : (forall s, bs_id (f s) = bs_id s) -> bs_id <$> update_schedules id f l = bs_id <$> l.
Proof.
  intros Hf. unfold update_schedules. rewrite <- list_fmap_compose. apply list_fmap_ext. intros i x _. simpl.
  by destruct (is_schedule id x).
Qed.
Lemma elem_of_updated id f l s : s ∈ update_schedules id f l ->
  (s ∈ l /\ bs_id s <> id) \/ exists s0, s0 ∈ l /\ bs_id s0 = id /\ s = f s0.
Proof.
  intros (x & -> & Hx)%list_elem_of_fmap. unfold is_schedule. destruct (Z.eqb_spec (bs_id x) id); [right; by exists x|by left].
Qed.
Lemma kept_by_update id f l s : s ∈ l -> bs_id s <> id -> s ∈ update_schedules id f l.
Proof.
  intros Hs Hne. apply list_elem_of_fmap. exists s. unfold is_schedule. by rewrite (proj2 (Z.eqb_neq _ _) Hne).
Qed.

Section Ticks.
Context `{J : JsonNumber, A : Aead, U : Uuids, F : FileSystem, O : ObjectStore, TZ : TimeZones, Cal : Calendar}.
Context (sha256_bytes : list Z -> str) (pretty : value -> list Z) (index_bytes : media_index -> list Z).
Context (read_env : str -> option str).
Context (settings_at : reading -> result backup_settings str) (drawn : str -> list Z * list Z) (now_at : str -> Z).
Context (json_text : value -> str) (sha256_text : str -> str) (date_text : Z -> str).
Abbreviation runs_one := (run_one sha256_bytes pretty index_bytes read_env settings_at drawn now_at json_text sha256_text date_text).
Abbreviation runs_due := (run_due sha256_bytes pretty index_bytes read_env settings_at drawn now_at json_text sha256_text date_text).
Abbreviation ticks := (tick sha256_bytes pretty index_bytes read_env settings_at drawn now_at json_text sha256_text date_text).

Definition runs_of (c : centre) : list backup := st_backups (ds_store (ct_world c)).

(** A schedule that is due takes exactly one backup and is armed after it. *)
Lemma run_one_rearms o s c :
  NoDup (bs_id <$> ct_schedules c) -> s ∈ ct_schedules c -> bs_enabled s = true -> schedule_row_ok s = true ->
  (forall b, b ∈ runs_of c -> bk_id b <> oc_backup_id o) ->
  exists row c' f, runs_one o (bs_id s) (bs_organization_id s) (bs_scopes s) c = Ok (Some (bk_id row), c')
    /\ bk_id row = oc_backup_id o /\ bk_schedule_id row = Some (bs_id s) /\ runs_of c' = runs_of c ++ [row]
    /\ ct_schedules c' = update_schedules (bs_id s) f (ct_schedules c)
    /\ (forall x, bs_id (f x) = bs_id x) /\ rearmed o s (f s).
Proof.
  intros Hids Hs He Hok Hfresh. destruct (row_scopes_accepted s Hok) as [scopes Hsc].
  unfold run_one, find_schedule. rewrite (find_own_schedule _ s Hids Hs). cbn [ok_or]. rewrite He. cbn [negb].
  set (new := schedule_draft _ _ _ _ _ _).
  destruct (take_backup_answers sha256_bytes pretty index_bytes read_env settings_at drawn now_at json_text sha256_text date_text
              (oc_backup_id o) (oc_started o) (oc_finished o) (oc_finished_text o) new (oc_platform o) (ct_world c) scopes)
    as (row & parts & w & E & Hrows & Hid & Hsched & _); [done| |done| |].
  { cbn [nb_scopes new schedule_draft]. destruct (bs_scopes s); [discriminate Hsc|exact Hsc]. }
  { unfold schedule_row_ok in Hok. rewrite !andb_true_iff in Hok. apply Hok. }
  unfold run_backup. rewrite E. pose proof (readable_spec s) as Hread. unfold rearmed. destruct (from_schedule s) as [cad|e].
  - exists row. eexists _, _. split; [reflexivity|]. split; [done|]. split; [done|]. split; [done|]. split; [reflexivity|]. split; [done|].
    split; [reflexivity|]. left. split; [by apply Hread|]. split; [done|]. split; [reflexivity|]. split; [by rewrite Hid|].
    exists cad. eexists. split; [done|]. split; [reflexivity|]. destruct (next_after cad (oc_rearmed o)) as [t|] eqn:En.
    + split; [by eapply cadence_runs_later|by left].
    + split; [unfold days, REARM_HORIZON_DAYS, NANOS_PER_SECOND; lia|by right].
  - exists row. eexists _, _. split; [reflexivity|]. split; [done|]. split; [done|]. split; [done|]. split; [reflexivity|]. split; [done|].
    split; [reflexivity|]. right. split; [|done]. intros H. by apply Hread in H.
Qed.

(** What a tick promises of the schedules it listed: one backup each, and each armed later. *)
Record served (occasions : Z -> occasion) (due : list backup_schedule) (c c' : centre) : Prop := {
  sv_runs : exists rows, runs_of c' = runs_of c ++ rows
              /\ bk_schedule_id <$> rows = (fun s => Some (bs_id s)) <$> due
              /\ bk_id <$> rows = (fun s => oc_backup_id (occasions (bs_id s))) <$> due;
  sv_ids : bs_id <$> ct_schedules c' = bs_id <$> ct_schedules c;
  sv_rows : forall s, s ∈ ct_schedules c' ->
              (s ∈ ct_schedules c /\ bs_id s ∉ bs_id <$> due)
              \/ exists d, d ∈ due /\ rearmed (occasions (bs_id d)) d s
}.

Lemma run_due_serves occasions due : forall started c,
  NoDup (bs_id <$> ct_schedules c) -> NoDup (bs_id <$> due) ->
  (forall s, s ∈ due -> s ∈ ct_schedules c /\ bs_enabled s = true /\ schedule_row_ok s = true) ->
  NoDup ((fun s => oc_backup_id (occasions (bs_id s))) <$> due) ->
  (forall s b, s ∈ due -> b ∈ runs_of c -> bk_id b <> oc_backup_id (occasions (bs_id s))) ->
  (runs_due occasions due started c).1 = (started + length due)%nat
  /\ served occasions due c (runs_due occasions due started c).2.
Proof.
  induction due as [|d due IH]; intros started c Hids Hdue Hin Hfresh Hnew.
  - split; [simpl; lia|]. split; [exists []; by rewrite app_nil_r|done|]. intros s Hs. left. split; [done|by apply not_elem_of_nil].
  - rewrite fmap_cons in Hdue, Hfresh. apply NoDup_cons in Hdue as [Hd Hdue]. apply NoDup_cons in Hfresh as [Hd' Hfresh].
    destruct (Hin d) as (Hdin & Hen & Hok); [by left|].
    destruct (run_one_rearms (occasions (bs_id d)) d c) as (row & c1 & f & E & Hrow & Hsched & Hruns & Hupd & Hf & Harm); try done.
    { intros b. apply Hnew. by left. }
    cbn [run_due]. rewrite E.
    assert (Hids1 : bs_id <$> ct_schedules c1 = bs_id <$> ct_schedules c).
    { rewrite Hupd. apply update_schedules_ids. apply Hf. }
    destruct (IH (S started) c1) as [Hn [(rows & Hr & Hrs & Hri) Hi Hrest]]; [by rewrite Hids1|done| |done| |].
    { intros s Hs. destruct (Hin s) as (? & ? & ?); [by right|]. split; [|done]. rewrite Hupd. apply kept_by_update; [done|].
      intros Eid. apply Hd. rewrite <- Eid. by apply list_elem_of_fmap_2. }
    { intros s b Hs. rewrite Hruns. intros [Hb|Hb]%elem_of_app; [apply Hnew; [by right|done]|].
      apply list_elem_of_singleton in Hb as ->. rewrite Hrow. intros Eid. apply Hd'. rewrite Eid.
      by apply (list_elem_of_fmap_2 (fun s => oc_backup_id (occasions (bs_id s)))). }
    split; [rewrite Hn; simpl; lia|]. split.
    + exists (row :: rows). rewrite Hr, Hruns, <- app_assoc. split; [done|]. rewrite !fmap_cons. split; congruence.
    + by rewrite Hi.
    + intros s Hs. destruct (Hrest s Hs) as [[Hc Hnot]|(x & Hx & Hx')]; [|right; exists x; split; [by right|done]].
      rewrite Hupd in Hc. apply elem_of_updated in Hc as [[Hc Hne]|(s0 & Hs0 & Eid & ->)].
      * left. split; [done|]. rewrite fmap_cons. by intros [?|?]%elem_of_cons.
      * right. exists d. split; [by left|]. by rewrite (NoDup_key_inj bs_id _ s0 d Hids Hs0 Hdin Eid).
Qed.

Lemma due_listed now l s : s ∈ next_due_schedules now l -> s ∈ l /\ schedule_due now s = true.
Proof.
  unfold next_due_schedules. intros Hs. eapply elem_of_submseteq in Hs; [|apply sublist_submseteq, sublist_take].
  rewrite sort_by_perm in Hs. apply elem_of_filter_bool in Hs as [? ?]. by split.
Qed.
Lemma due_ids now l : NoDup (bs_id <$> l) -> NoDup (bs_id <$> next_due_schedules now l).
Proof.
  intros H. unfold next_due_schedules. eapply sublist_NoDup; [|apply fmap_sublist, sublist_take].
  rewrite sort_by_perm. eapply sublist_NoDup; [exact H|]. apply fmap_sublist, sublist_filter.
Qed.

(** What a tick lists: the schedules whose time has come, the soonest first, twenty at most. *)
Record listed (now : Z) (l due : list backup_schedule) : Prop := {
  ls_due : forall s, s ∈ due -> s ∈ l /\ due_now now s;
  ls_ids : NoDup (bs_id <$> due);
  ls_order : StronglySorted (fun a b => default 0 (bs_next_run_at a) <= default 0 (bs_next_run_at b)) due;
  ls_rest : forall s, s ∈ l -> due_now now s -> s ∈ due
    \/ length due = 20%nat /\ forall d, d ∈ due -> default 0 (bs_next_run_at d) <= default 0 (bs_next_run_at s)
}.

#[export] Instance backup_schedule_eq_dec : EqDecision backup_schedule.
Proof. solve_decision. Defined.
#[export] Instance next_run_order_laws : CmpLaws next_run_order.
Proof. exact (on_laws (fun s => default 0 (bs_next_run_at s)) Z.compare). Qed.

Lemma next_due_listed now l : NoDup (bs_id <$> l) -> listed now l (next_due_schedules now l).
Proof.
  intros Hids. split.
  - intros s [Hs Hd]%due_listed. split; [done|]. by apply due_now_spec.
  - by apply due_ids.
  - unfold next_due_schedules. eapply sorted_sublist; [apply sublist_take|]. eapply sorted_weaken; [|apply (sort_by_sorted next_run_order)].
    intros a b Hle. by apply Z.compare_le_iff.
  - intros s Hs Hd. apply due_now_spec in Hd. assert (s ∈ List.filter (schedule_due now) l) as Hin by (by apply elem_of_filter_bool).
    unfold next_due_schedules. destruct (decide (s ∈ take DUE_LIMIT (sort_by next_run_order (List.filter (schedule_due now) l)))) as [|Hn]; [by left|right]. split.
    + rewrite batch_length. destruct (le_lt_dec (length (List.filter (schedule_due now) l)) DUE_LIMIT); [by destruct Hn; apply batch_all|].
      unfold DUE_LIMIT in *. lia.
    + intros d Hd'. pose proof (batch_first _ next_run_order _ d s Hd' Hin Hn) as Hle. unfold next_run_order in Hle. by apply Z.compare_le_iff.
Qed.


(** A run asked for by hand is a run of the schedule, with the scopes the row has now, and moves
    neither its next run nor its switch; the worker's schedule is as it was. *)
Theorem run_now_keeps_the_schedule_armed (o : occasion) (actor : Z) (organization : option Z) (settings : backup_settings)
  (s : backup_schedule) (c : centre) :
  NoDup (bs_id <$> ct_schedules c) -> s ∈ ct_schedules c -> bs_organization_id s = organization ->
  schedule_row_ok s = true -> (forall b, b ∈ runs_of c -> bk_id b <> oc_backup_id o) ->
  exists row c', run_schedule_now sha256_bytes pretty index_bytes read_env settings_at drawn now_at json_text sha256_text date_text
      o actor organization (Ok settings) (bs_id s) c = Ok (row, c')
    /\ runs_of c' = runs_of c ++ [row] /\ bk_schedule_id row = Some (bs_id s) /\ bk_scopes row ≡ₚ bs_scopes s
    /\ bs_next_run_at <$> ct_schedules c' = bs_next_run_at <$> ct_schedules c
    /\ bs_enabled <$> ct_schedules c' = bs_enabled <$> ct_schedules c
    /\ exists s', s' ∈ ct_schedules c' /\ bs_id s' = bs_id s /\ bs_last_run_at s' = Some (oc_finished o)
        /\ bs_last_backup_id s' = Some (bk_id row).
Proof.
  intros Hids Hs <- Hok Hfresh. destruct (row_scopes_accepted s Hok) as [scopes Hsc].
  unfold run_schedule_now, find_schedule. rewrite (find_own_schedule _ s Hids Hs). cbn [ok_or].
  set (new := schedule_draft _ _ _ _ _ _).
  destruct (take_backup_answers sha256_bytes pretty index_bytes read_env settings_at drawn now_at json_text sha256_text date_text
              (oc_backup_id o) (oc_started o) (oc_finished o) (oc_finished_text o) new (oc_platform o) (ct_world c) scopes)
    as (row & parts & w & E & Hrows & Hid & Hsched & Hscopes & _); [done| |done| |].
  { cbn [nb_scopes new schedule_draft]. by destruct (bs_scopes s). }
  { unfold schedule_row_ok in Hok. rewrite !andb_true_iff in Hok. apply Hok. }
  unfold run_backup. rewrite E. eexists _, _. split; [reflexivity|]. cbn [ct_schedules].
  split; [done|]. split; [done|]. split; [rewrite Hscopes; by apply normalised_scopes|].
  unfold record_schedule_run, update_schedules. rewrite <- !list_fmap_compose.
  split; [|split].
  - apply list_fmap_ext. intros i x _. simpl. by destruct (is_schedule (bs_id s) x).
  - apply list_fmap_ext. intros i x _. simpl. by destruct (is_schedule (bs_id s) x).
  - eexists. split; [apply list_elem_of_fmap; exists s; split; [reflexivity|done]|]. unfold is_schedule.
    by rewrite Z.eqb_refl.
Qed.
End Ticks.

(** ** Schedules to evaluate on *)

Definition sample_schedule (id : Z) (timezone : str) (next : Z) : backup_schedule :=
  BackupSchedule id None (s!"nightly " ++ uuid_text id) s!"daily" (Some s!"02:00") None None timezone [s!"themes"] 7 s!"local"
    true None (Some next) None 0 0.
Definition sample_schedules : list backup_schedule :=
  [sample_schedule 1 s!"UTC" 20; sample_schedule 2 s!"Nowhere/Else" 10; sample_schedule 3 s!"UTC" 2000].
Definition sample_centre : centre := Centre sample_schedules empty_destination.
Definition sample_occasion (id : Z) : occasion := Occasion (100 + id) (1000 + id) (1010 + id) [] (1020 + id) sample_platform.
Definition sample_tick (now : Z) (c : centre) : nat * centre :=
  tick (J := Z_number) (A := tagging) (F := plain_disk) (O := plain_store) digest braces braces sample_env
    (fun _ => Ok sample_settings) sample_drawn (fun _ => 1) (fun _ => []) (fun _ => []) sample_date sample_occasion now c.


Lemma run_now_keeps_the_schedule_armed_witness :
  exists row c', run_schedule_now (J := Z_number) (A := tagging) (F := plain_disk) (O := plain_store) digest braces braces
      sample_env (fun _ => Ok sample_settings) sample_drawn (fun _ => 1) (fun _ => []) (fun _ => []) sample_date
      (sample_occasion 3) 77 None (Ok sample_settings) 3 sample_centre = Ok (row, c')
    /\ runs_of c' = [row] /\ bs_next_run_at <$> ct_schedules c' = [Some 20; Some 10; Some 2000].
Proof.
  destruct (run_now_keeps_the_schedule_armed (J := Z_number) (A := tagging) (F := plain_disk) (O := plain_store)
    digest braces braces sample_env (fun _ => Ok sample_settings) sample_drawn (fun _ => 1) (fun _ => []) (fun _ => []) sample_date
    (sample_occasion 3) 77 None sample_settings (sample_schedule 3 s!"UTC" 2000) sample_centre)
    as (row & c' & E & Hr & _ & _ & Hn & _).
  - by_compute.
  - do 2 apply list_elem_of_further. by left.
  - reflexivity.
  - by_compute.
  - intros b Hb. by apply elem_of_nil in Hb.
  - exists row, c'. split; [exact E|]. split; [exact Hr|exact Hn].
Defined.

(** ** What the worker does with what changes under it *)

(** The row is read again so that a run follows its latest form, but the scopes are the listed
    ones: a schedule edited from themes to plugins meanwhile still copies the themes. *)
Theorem run_uses_the_scopes_it_listed :
  let edited := BackupSchedule 1 None s!"nightly" s!"daily" (Some s!"02:00") None None s!"UTC" [s!"plugins"] 7 s!"local" true
                  None (Some 20) None 0 0 in
  match run_one (J := Z_number) (A := tagging) (F := plain_disk) (O := plain_store) digest braces braces
      sample_env (fun _ => Ok sample_settings) sample_drawn (fun _ => 1) (fun _ => []) (fun _ => []) sample_date
      (sample_occasion 1) 1 None [s!"themes"] (Centre [edited] empty_destination) with
  | Ok (Some _, c) => bk_scopes <$> runs_of c = [[s!"themes"]]
  | _ => False
  end.
Proof. vm_compute. reflexivity. Qed.

(** A zone the database does not know is met only once the run has been taken: the schedule is not
    disabled, it runs on every thirty-two days. *)
Theorem unknown_zone_runs_every_32_days :
  match List.find (is_schedule 2) (ct_schedules (sample_tick 1000 sample_centre).2) with
  | Some s => bs_enabled s = true /\ bs_next_run_at s = Some (oc_rearmed (sample_occasion 2) + days 32)
  | None => False
  end.
Proof. vm_compute. by split. Qed.
