(* ===== verification/RestorePlan.v ===== *)
(** * Restoring a run: [crates/backup/src/preview.rs], [crates/backup/src/apply.rs], the preview of
      [apps/api/src/routes/restore_jobs.rs] and the restore of [apps/api/src/routes/backups.rs]

    What a restore would cost against the live library, the plan that refuses before anything is
    written, and the restore itself: the safety backup first, then the objects.  The preview's
    arithmetic is that of [Backups], the safety backup that of [BackupRuns], the writing of objects
    that of [MediaArchive]. *)

From S2P Require Import Prelude Json Cadence Backups Sealing MediaArchive BackupRuns BackupSchedules.

(** ** The live side *)

Definition MAX_MATCHED_KEYS : nat := 5000.
Definition MAX_SELECTED_PARTS : nat := 5.
Definition MAX_REPORTED_SITES : nat := 10.

Record live_comparison := LiveComparison {
  lv_live_total : Z;
  lv_live_matches : Z;
  lv_live_only : Z;
  lv_truncated : bool;
  lv_scoped : bool
}.
Definition counts (c : live_comparison) : live_counts := LiveCounts (lv_live_total c) (lv_live_matches c).

(** What the database answers: the sites and rows of the library, unless the comparison fails,
    and the number of rows of every public table. *)
Record live_side := LiveSide {
  lq_sites : list media_site;
  lq_rows : result (list media_row) unit;
  lq_platform_rows : result Z unit
}.

Definition owned_rows (organization : option Z) (sites : list media_site) (rows : list media_row) : list media_row :=
  List.filter (fun r => row_is_live r && site_in_organization organization sites (mo_site_id (mr_object r))) rows.

Definition compare_media (organization : option Z) (keys : list str) (live : live_side) : result live_comparison unit :=
  let? rows := lq_rows live in
  let owned := owned_rows organization (lq_sites live) rows in
  let live_total := Z.of_nat (length owned) in
  let scoped := negb (is_given organization) in
  match keys with
  | [] => Ok (LiveComparison live_total 0 0 false scoped)
  | _ =>
      let capped := take MAX_MATCHED_KEYS keys in
      let live_matches := Z.of_nat (length (List.filter (fun r => existsb (fun key => has_key key r) capped) owned)) in
      Ok (LiveComparison live_total live_matches (Z.max 0 (live_total - live_matches))
            (MAX_MATCHED_KEYS <? length keys)%nat scoped)
  end.

Definition compare_database (archive_item_count : Z) (organization : option Z) (live : live_side) :
  result live_comparison unit :=
  let? live_total := lq_platform_rows live in
  Ok (LiveComparison live_total (Z.max 0 (Z.min archive_item_count live_total))
        (Z.max 0 (live_total - archive_item_count)) false (negb (is_given organization))).

(** ** The preview, rebuilt *)

Record priced_preview := PricedPreview {
  pp_preview : restore_preview;
  pp_live_comparison_failed : bool;
  pp_media_objects : option (list copied_object)
}.

Section Rebuild.
Context `{U : Uuids}.
Context (sha256_bytes : list Z -> str) (sha256_text : str -> str) (from_slice : list Z -> option media_index).
(** An instant as RFC 3339 text. *)
Context (instant_text : Z -> str).

Definition media_index_keys (row : backup) (root : str) (d : disk) : option (list copied_object) :=
  text ← d !! local_path_for root (index_key (bk_storage_prefix row));
  match index_objects from_slice text with Ok objects => Some objects | Err _ => None end.

Definition is_media (p : part) : bool := str_eqb (p_part p) s!"media".

(** The live counts of a part, and whether the comparison failed. *)
Definition live_of (organization : option Z) (keys : list str) (live : live_side) (p : part) : live_counts * bool :=
  if is_media p && negb (bool_decide (keys = [])) then
    match compare_media organization keys live with Ok c => (counts c, false) | Err _ => (no_live, true) end
  else if str_eqb (p_part p) s!"database" then
    match compare_database (p_item_count p) organization live with Ok c => (counts c, false) | Err _ => (no_live, false) end
  else (no_live, false).

Definition evidence_of (row : backup) (root : str) (d : disk) : list part_evidence :=
  read_artifacts sha256_bytes (fun relative => d !! local_path_for root relative)
    (manifest_of (uuid_text (bk_id row)) (instant_text (bk_created_at row)) row).

Definition archived_objects (row : backup) (root : str) (d : disk) : option (list copied_object) :=
  if existsb (fun e => is_media (pe_part e) && is_ok (pe_artifact e)) (evidence_of row root d)
  then media_index_keys row root d else None.

Definition rebuild_preview (row : backup) (settings : backup_settings) (now : Z) (d : disk) (live : live_side) : priced_preview :=
  let m := manifest_of (uuid_text (bk_id row)) (instant_text (bk_created_at row)) row in
  let evidence := evidence_of row (se_local_root settings) d in
  let media_objects := archived_objects row (se_local_root settings) d in
  let keys := match media_objects with Some l => co_storage_key <$> l | None => [] end in
  let compared := (fun e => live_of (bk_organization_id row) keys live (pe_part e)) <$> evidence in
  let evidence := zip_with (fun e l => PartEvidence (pe_part e) (pe_artifact e) (fst l)) evidence compared in
  PricedPreview
    (build_preview sha256_text (uuid_text (bk_id row)) (bk_label row) m evidence
       (instant_text <$> bk_finished_at row) now)
    (existsb snd compared) media_objects.
End Rebuild.

(** ** The plan *)

Inductive plan_refusal :=
  NothingRestorable | ConfirmationMismatch | UnknownPart | PartNotInArchive | EmptySelection | MediaIndexUnreadable.

Definition refusal_code (r : plan_refusal) : str :=
  match r with
  | NothingRestorable => s!"nothing_restorable"
  | ConfirmationMismatch => s!"confirmation_mismatch"
  | UnknownPart => s!"unknown_part"
  | PartNotInArchive => s!"part_not_in_archive"
  | EmptySelection => s!"empty_selection"
  | MediaIndexUnreadable => s!"media_index_unreadable"
  end.

Definition refusal_message (r : plan_refusal) (asked found : str) : str :=
  match r with
  | NothingRestorable => s!"nothing on this run can be restored: " ++ found
  | ConfirmationMismatch =>
      s!"the confirmation phrase does not match this restore point. The phrase for this run is " ++ asked ++ s!"."
  | UnknownPart => asked ++ s!" is not one of this platform's five backup parts"
  | PartNotInArchive => s!"this run does not hold " ++ asked ++ s!". On the destination: " ++ found
  | EmptySelection => s!"select at least one part. This run holds: " ++ found
  | MediaIndexUnreadable =>
      s!"the media part's index could not be read, so there is nothing to restore into. The run holds: " ++ found
  end.

Definition join_names (names : list str) : str := match names with [] => s!"nothing" | _ => join s!", " names end.

Record restore_request := RestoreRequest { rq_backup_id : str; rq_parts : list str; rq_confirmation : str }.
Record archive_facts := ArchiveFacts {
  af_preview_parts : list restorable_part;
  af_media_objects : option Z;
  af_media_bytes : Z;
  af_media_sites : list str;
  af_media_sites_truncated : bool
}.
Record restore_plan := RestorePlan {
  pl_backup_id : str;
  pl_parts : list str;
  pl_media_objects : Z;
  pl_media_bytes : Z;
  pl_media_sites : list str;
  pl_media_sites_truncated : bool;
  pl_live_dropped : Z;
  pl_restores_media : bool
}.
Definition plan_error : Type := plan_refusal * str.

Definition asks (names : list str) (name : str) : bool := existsb (str_eqb name) names.

Section Plan.
(** Hex SHA-256 of a text. *)
Context (sha256_text : str -> str).

Definition build_plan (request : restore_request) (facts : archive_facts) (live_dropped : Z) : result restore_plan plan_error :=
  let readable := rp_part <$> List.filter rp_available (af_preview_parts facts) in
  let held := rp_part <$> af_preview_parts facts in
  let refusal r asked found := (r, refusal_message r asked found) in
  let phrase := confirm_phrase sha256_text (rq_backup_id request) in
  refuse str_eqb phrase [] || negb (str_eqb phrase (rq_confirmation request)) with refusal ConfirmationMismatch phrase [] in
  refuse bool_decide (rq_parts request = []) with refusal EmptySelection [] (join_names held) in
  refuse (MAX_SELECTED_PARTS <? length (rq_parts request))%nat
    with refusal UnknownPart (show_Z (Z.of_nat (length (rq_parts request))) ++ s!" parts") (join_names held) in
  match List.find (fun name => negb (known_part name)) (rq_parts request) with
  | Some name => Err (refusal UnknownPart name (join_names held))
  | None =>
      match List.find (fun name => negb (asks held name)) (rq_parts request) with
      | Some name => Err (refusal PartNotInArchive name (join_names held))
      | None =>
          let parts := List.filter (asks (rq_parts request)) readable in
          refuse bool_decide (parts = []) with refusal NothingRestorable [] (join_names held) in
          let restores_media := asks parts s!"media" in
          let? media := (if restores_media then
                           match af_media_objects facts with
                           | None => Err (refusal MediaIndexUnreadable [] (join_names held))
                           | Some count => Ok (count, af_media_bytes facts)
                           end
                         else Ok (0, 0)) in
          Ok (RestorePlan (rq_backup_id request) parts (fst media) (snd media) (af_media_sites facts)
                (af_media_sites_truncated facts) live_dropped restores_media)
      end
  end.
End Plan.

(** ** The restore *)

Inductive restore_error :=
  | RowUnavailable (e : backup_error)
  | Unpriced
  | PlanRefused (e : plan_error)
  | DatabaseNotRestorable
  | SafetyRefused (e : backup_error)
  | SafetyIncomplete
  | IndexUnreadable
  | BusRefused.

Record restore_outcome := RestoreOutcome {
  ro_backup_id : Z;
  ro_parts : list str;
  ro_restored : list str;
  ro_media : restore_report;
  ro_safety_backup_id : Z;
  ro_live_dropped : Z;
  ro_live_matches : Z
}.

(** What a restore reads and writes: the destination of backups with their rows, the live library,
    and the events it announces. *)
Record site_state := SiteState { ss_world : destination; ss_library : library; ss_events : list restore_outcome }.

(** The platform a safety backup copies has the library of this moment. *)
Definition platform_now (pf : platform) (l : library) : platform :=
  Platform (pf_tables pf) (pf_settings_tables pf) (pf_themes pf) (pf_components pf) (pf_sites pf)
    (match pf_media pf with Ok _ => Ok (lb_rows l) | Err e => Err e end) (lb_objects l).
Definition live_now (pf : platform) (live : live_side) (l : library) : live_side :=
  LiveSide (pf_sites pf) (match lq_rows live with Ok _ => Ok (lb_rows l) | Err e => Err e end) (lq_platform_rows live).

Section Restoring.
Context `{J : JsonNumber, A : Aead, U : Uuids, F : FileSystem, O : ObjectStore}.
Context (sha256_bytes : list Z -> str) (pretty : value -> list Z) (index_bytes : media_index -> list Z).
Context (read_env : str -> option str).
Context (settings_at : reading -> result backup_settings str) (drawn : str -> list Z * list Z) (now_at : str -> Z).
Context (json_text : value -> str) (sha256_text : str -> str) (date_text : Z -> str).
Context (from_slice : list Z -> option media_index) (instant_text : Z -> str).

Definition safety_of (o : occasion) (organization : option Z) (actor : Z) (row : backup) (s : site_state) :
  result (safety_backup * destination) backup_error :=
  take_safety_backup sha256_bytes pretty index_bytes read_env settings_at drawn now_at json_text sha256_text date_text
    instant_text organization actor row (oc_backup_id o) (oc_started o) (oc_finished o) (oc_finished_text o)
    (platform_now (oc_platform o) (ss_library s)) (ss_world s).

Definition restore_media_part (row : backup) (settings : backup_settings) (organization : option Z) (sites : list media_site)
  (now : Z) (s : site_state) : result restore_report restore_error * site_state :=
  match media_index_keys from_slice row (se_local_root settings) (ds_disk (ss_world s)) with
  | None => (Err IndexUnreadable, s)
  | Some objects =>
      let '(report, l) := restore_objects sha256_bytes (trim (se_local_root settings)) (ds_disk (ss_world s)) organization
                            sites now objects (ss_library s) in
      (Ok report, SiteState (ss_world s) l (ss_events s))
  end.

(** [POST /api/v1/backups/{id}/restore]. *)
Definition facts_of (priced : priced_preview) : archive_facts :=
  let preview := pp_preview priced in
  let archived := pp_media_objects priced in
  let '(sites, truncated) := match archived with
                             | None => ([], false)
                             | Some objects => archived_sites objects MAX_REPORTED_SITES []
                             end in
  ArchiveFacts (pv_parts preview)
    (if existsb (fun p => str_eqb (rp_part p) s!"media" && rp_available p) (pv_parts preview)
     then (fun objects => Z.of_nat (length objects)) <$> archived else None)
    (match archived with None => 0 | Some objects => sum_over (fun o => Z.max 0 (co_size_bytes o)) objects end)
    sites truncated.

Definition restore (o : occasion) (organization : option Z) (actor : Z) (settings : result backup_settings backup_error)
  (live : live_side) (bus_is_up : bool) (id : Z) (parts : list str) (confirmation : str) (s : site_state) :
  result restore_outcome restore_error * site_state :=
  match find_backup id organization (ds_store (ss_world s)), settings with
  | Err e, _ | _, Err e => (Err (RowUnavailable e), s)
  | Ok row, Ok settings =>
      let priced := rebuild_preview sha256_bytes sha256_text from_slice instant_text row settings (oc_started o)
                      (ds_disk (ss_world s)) (live_now (oc_platform o) live (ss_library s)) in
      if pp_live_comparison_failed priced then (Err Unpriced, s)
      else
        let live_dropped := sum_over rp_live_dropped (pv_parts (pp_preview priced)) in
        let live_matches := sum_over rp_live_matches (pv_parts (pp_preview priced)) in
        match build_plan sha256_text (RestoreRequest (uuid_text (bk_id row)) parts confirmation) (facts_of priced) live_dropped with
        | Err e => (Err (PlanRefused e), s)
        | Ok plan =>
            if asks (pl_parts plan) s!"database" then (Err DatabaseNotRestorable, s)
            else
              match safety_of o organization actor row s with
              | Err e => (Err (SafetyRefused e), s)
              | Ok (safety, w) =>
                  let s := SiteState w (ss_library s) (ss_events s) in
                  if negb (sb_complete safety) then (Err SafetyIncomplete, s)
                  else
                    match (if pl_restores_media plan
                           then restore_media_part row settings organization (pf_sites (oc_platform o)) (oc_rearmed o) s
                           else (Ok no_restores, s)) with
                    | (Err e, s) => (Err e, s)
                    | (Ok media, s) =>
                        let outcome := RestoreOutcome (bk_id row) (pl_parts plan)
                          (List.filter (fun name => negb (str_eqb name s!"media")) (pl_parts plan)) media
                          (sb_backup_id safety) live_dropped live_matches in
                        if bus_is_up
                        then (Ok outcome, SiteState (ss_world s) (ss_library s) (ss_events s ++ [outcome]))
                        else (Err BusRefused, s)
                    end
              end
        end
  end.
End Restoring.

(** ** What a plan accepts *)

Lemma asks_elem names name : asks names name = true <-> name ∈ names.
Proof.
  unfold asks. rewrite existsb_elem. split.
  - intros (x & Hx & E). by apply str_eqb_eq in E as ->.
  - intros H. exists name. by rewrite str_eqb_refl.
Qed.

Lemma find_none_all {A} (f : A -> bool) l : List.find f l = None <-> forall x, x ∈ l -> f x = false.
Proof.
  split; [|apply find_nothing]. intros H x Hx. pose proof (find_exists f l) as E. rewrite H in E. simpl in E.
  symmetry in E. apply not_true_iff_false in E. apply not_true_iff_false. intros Hf. apply E, existsb_elem. by exists x.
Qed.

(** The conditions under which a restore is planned. *)
Record plannable (sha256_text : str -> str) (request : restore_request) (facts : archive_facts) : Prop := {
  pb_phrase : confirm_phrase sha256_text (rq_backup_id request) <> []
              /\ rq_confirmation request = confirm_phrase sha256_text (rq_backup_id request);
  pb_selection : rq_parts request <> [] /\ (length (rq_parts request) <= MAX_SELECTED_PARTS)%nat;
  pb_parts : forall name, name ∈ rq_parts request -> known_part name = true /\ name ∈ rp_part <$> af_preview_parts facts;
  pb_some : exists p, p ∈ af_preview_parts facts /\ rp_available p = true /\ rp_part p ∈ rq_parts request;
  pb_media : (exists p, p ∈ af_preview_parts facts /\ rp_available p = true /\ rp_part p = s!"media") ->
             s!"media" ∈ rq_parts request -> is_given (af_media_objects facts) = true
}.

(** A restore is planned exactly when the phrase of the run was typed, between one and five parts
    were asked for, all of them known and held, one at least readable, and the index of the media
    could be read if they are restored.  The plan then restores the readable parts among those asked
    for, in the order of the manifest, and counts objects only when the media is one of them. *)
Theorem build_plan_exact (sha256_text : str -> str) (request : restore_request) (facts : archive_facts) (live_dropped : Z) :
  (is_ok (build_plan sha256_text request facts live_dropped) = true <-> plannable sha256_text request facts)
  /\ forall plan, build_plan sha256_text request facts live_dropped = Ok plan ->
       pl_parts plan = List.filter (asks (rq_parts request)) (rp_part <$> List.filter rp_available (af_preview_parts facts))
       /\ pl_restores_media plan = asks (pl_parts plan) s!"media"
       /\ (pl_restores_media plan = false -> pl_media_objects plan = 0 /\ pl_media_bytes plan = 0)
       /\ (pl_restores_media plan = true -> af_media_objects facts = Some (pl_media_objects plan))
       /\ pl_live_dropped plan = live_dropped.
Proof.
  unfold build_plan. set (readable := rp_part <$> List.filter rp_available _). set (held := rp_part <$> af_preview_parts facts).
  set (phrase := confirm_phrase _ _). set (parts := List.filter _ readable).
  assert (Hparts : forall name, name ∈ parts <-> name ∈ rq_parts request
            /\ exists p, p ∈ af_preview_parts facts /\ rp_available p = true /\ rp_part p = name).
  { intros name. unfold parts, readable. rewrite elem_of_filter_bool, asks_elem, list_elem_of_fmap.
    setoid_rewrite elem_of_filter_bool. naive_solver. }
  split.
  - split.
    + destruct (str_eqb phrase [] || _) eqn:E1; [done|]. apply orb_false_iff in E1 as [E1 E1'].
      apply str_eqb_neq in E1. apply negb_false_iff, str_eqb_eq in E1'.
      destruct (bool_decide_reflect (rq_parts request = [])) as [|E2]; [done|].
      destruct (_ <? _)%nat eqn:E3; [done|]. apply Nat.ltb_ge in E3.
      destruct (List.find _ _) eqn:E4; [done|]. destruct (List.find (fun name => negb (asks held name)) _) eqn:E5; [done|].
      destruct (bool_decide_reflect (parts = [])) as [|E6]; [done|]. intros H. split; [done|done| | |].
      * intros name Hname. apply (proj1 (find_none_all _ _)) with (x := name) in E4, E5; [|done..].
        apply negb_false_iff in E4, E5. by apply asks_elem in E5.
      * destruct parts as [|name l] eqn:Ep; [done|]. destruct (proj1 (Hparts name)) as (Ha & p & Hp & Hav & <-); [by left|].
        by exists p.
      * intros (p & Hp) Ha. assert (Hm : asks parts s!"media" = true) by (apply asks_elem, Hparts; split; [done|by exists p]).
        rewrite Hm in H. by destruct (af_media_objects facts).
    + intros [[Hp1 Hp2] [Hs1 Hs2] Hall Hsome Hmedia]. fold phrase in Hp1, Hp2.
      rewrite (proj2 (str_eqb_neq _ _) Hp1), Hp2, str_eqb_refl. cbn [orb negb].
      rewrite bool_decide_false by done. rewrite (proj2 (Nat.ltb_ge _ _) Hs2).
      replace (List.find (fun name => negb (known_part name)) _) with (@None str)
        by (symmetry; apply find_none_all; intros x Hx; apply negb_false_iff; by apply Hall).
      replace (List.find (fun name => negb (asks held name)) _) with (@None str)
        by (symmetry; apply find_none_all; intros x Hx; apply negb_false_iff, asks_elem; by apply Hall).
      destruct Hsome as (p & Hp & Hav & Hask). rewrite bool_decide_false
        by (intros E; assert (Hin : rp_part p ∈ parts) by (apply Hparts; split; [done|by exists p]); rewrite E in Hin; by apply elem_of_nil in Hin).
      destruct (asks parts s!"media") eqn:Em; [|done]. apply asks_elem, Hparts in Em as [Hm (q & Hq)].
      destruct (af_media_objects facts); [done|]. by specialize (Hmedia ltac:(by exists q) Hm).
  - intros plan. destruct (str_eqb phrase [] || _); [done|]. destruct (bool_decide _); [done|]. destruct (_ <? _)%nat; [done|].
    destruct (List.find _ _); [done|]. destruct (List.find (fun name => negb (asks held name)) _); [done|].
    destruct (bool_decide (parts = [])); [done|]. destruct (asks parts s!"media") eqn:Em.
    + destruct (af_media_objects facts) as [n|]; [|done]. intros [= <-].
      cbn [pl_parts pl_restores_media pl_media_objects pl_media_bytes pl_live_dropped fst snd]. by split_and!.
    + intros [= <-]. cbn [pl_parts pl_restores_media pl_media_objects pl_media_bytes pl_live_dropped fst snd]. by split_and!.
Qed.

(** A part that was asked for and is held but cannot be read is left out of the plan without a
    word, where a part that is not held is refused by name. *)
Theorem unreadable_part_is_left_out :
  let part name available := RestorablePart name available 0 0 None 0 0 (for_part name) in
  let facts := ArchiveFacts [part s!"configuration" false; part s!"themes" true] None 0 [] false in
  exists plan, build_plan (fun _ => s!"a1b2c3d4") (RestoreRequest s!"1" [s!"configuration"; s!"themes"] s!"RESTORE a1b2c3d4") facts 0
      = Ok plan /\ pl_parts plan = [s!"themes"].
Proof. eexists. split; vm_compute; reflexivity. Qed.

(** ** The comparison is bounded, its counts are not marked *)

Lemma matched_keys_bounded (rows : list media_row) (keys : list str) :
  NoDup (mo_storage_key ∘ mr_object <$> rows) ->
  (length (List.filter (fun r => existsb (fun key => has_key key r) keys) rows) <= length keys)%nat.
Proof.
  intros Hn. set (matched := List.filter _ rows).
  rewrite <- (length_fmap (mo_storage_key ∘ mr_object) matched). apply submseteq_length, NoDup_submseteq.
  - eapply sublist_NoDup; [exact Hn|]. apply fmap_sublist, sublist_filter.
  - intros key (r & -> & Hr)%list_elem_of_fmap. apply elem_of_filter_bool in Hr as [_ Hr].
    apply existsb_elem in Hr as (key & Hkey & E). unfold has_key in E. apply str_eqb_eq in E. simpl. by rewrite E.
Qed.

(** The comparison looks for the first five thousand keys of an archive only, and the mark that
    says so is not among the counts a preview is built from: a library of more objects is priced as
    losing every object beyond the five thousand, although the archive holds it. *)
Theorem large_libraries_are_overpriced (organization : option Z) (keys : list str) (live : live_side) (rows : list media_row)
  (c : live_comparison) :
  lq_rows live = Ok rows -> NoDup (mo_storage_key ∘ mr_object <$> rows) -> keys <> [] ->
  compare_media organization keys live = Ok c ->
  live_dropped (counts c) >= Z.of_nat (length (owned_rows organization (lq_sites live) rows)) - Z.of_nat MAX_MATCHED_KEYS.
Proof.
  intros Hrows Hn Hkeys. unfold compare_media. rewrite Hrows. cbn [result_bind]. destruct keys as [|k keys]; [done|].
  intros Hc. apply (f_equal (fun r => match r with Ok c' => c' | Err _ => c end)) in Hc. subst c. unfold counts, live_dropped. cbn [lv_live_total lv_live_matches lc_total lc_matching].
  set (owned := owned_rows organization (lq_sites live) rows).
  assert (Hown : NoDup (mo_storage_key ∘ mr_object <$> owned)).
  { eapply sublist_NoDup; [exact Hn|]. apply fmap_sublist, sublist_filter. }
  pose proof (matched_keys_bounded owned (take MAX_MATCHED_KEYS (k :: keys)) Hown) as H.
  rewrite length_take in H. lia.
Qed.

(** ** A way back *)

Section WayBack.
Context `{J : JsonNumber, A : Aead, U : Uuids, F : FileSystem, O : ObjectStore, UL : !UuidLaws U}.
Context (sha256_bytes : list Z -> str) (pretty : value -> list Z) (index_bytes : media_index -> list Z).
Context (read_env : str -> option str).
Context (settings_at : reading -> result backup_settings str) (drawn : str -> list Z * list Z) (now_at : str -> Z).
Context (json_text : value -> str) (sha256_text : str -> str) (date_text : Z -> str).
Context (from_slice : list Z -> option media_index) (instant_text : Z -> str) (settings : backup_settings).
(** A reading of the settings may fail; whenever one succeeds, these are the settings. *)
Hypothesis Hsettings : forall r st, settings_at r = Ok st -> st = settings.

Abbreviation safety := (safety_of sha256_bytes pretty index_bytes read_env settings_at drawn now_at json_text sha256_text date_text instant_text).
Abbreviation restores := (restore sha256_bytes pretty index_bytes read_env settings_at drawn now_at json_text sha256_text date_text
  from_slice instant_text).

(** [b] is a run to go back to: no sweep takes it, it has the parts of [source], the artifact of each
    of them stands in its directory, and with the media among them its archive holds every object of
    the library [l] that the organization had, byte for byte. *)
Record way_back (source : backup) (organization : option Z) (sites : list media_site) (l : library) (d : disk) (b : backup) : Prop := {
  wb_kept : forall o now st, b ∉ prune_candidates o now st;
  wb_scopes : bk_scopes b ≡ₚ bk_scopes source;
  wb_parts : forall name, name ∈ bk_scopes source -> is_Some (d !! part_key settings (bk_storage_prefix b) name);
  wb_library : s!"media" ∈ bk_scopes source -> forall r, r ∈ owned_rows organization sites (lb_rows l) ->
    exists bytes, lb_objects l !! mo_storage_key (mr_object r) = Some bytes
      /\ d !! archive_path (se_local_root settings) (bk_storage_prefix b) (mr_object r) = Some bytes
}.

Lemma safety_spec o organization actor row s :
  (forall b, b ∈ st_backups (ds_store (ss_world s)) -> bk_id b <> oc_backup_id o) ->
  is_ok (normalise_scopes (bk_scopes row)) = true ->
  existsb (str_eqb (bk_destination row)) [s!"local"; s!"s3"] = true ->
  NoDup (mo_id ∘ mr_object <$> lb_rows (ss_library s)) ->
  (forall r, r ∈ lb_rows (ss_library s) -> is_uuid (mo_id (mr_object r))) ->
  exists taken w b, safety o organization actor row s = Ok (taken, w)
    /\ st_backups (ds_store w) = st_backups (ds_store (ss_world s)) ++ [b] /\ bk_id b = sb_backup_id taken
    /\ (sb_complete taken = true -> way_back row organization (pf_sites (oc_platform o)) (ss_library s) (ds_disk w) b).
Proof.
  intros Hfresh Hscopes Hdest Hn Hu. destruct (normalise_scopes (bk_scopes row)) as [scopes|] eqn:Es; [|done].
  unfold safety_of, take_safety_backup. set (new := safety_draft _ _ _ _).
  destruct (complete_run_holds_the_library sha256_bytes pretty index_bytes read_env settings_at drawn now_at settings Hsettings
    (oc_backup_id o) (oc_started o) (oc_finished o) (oc_finished_text o) json_text sha256_text date_text new
    (platform_now (oc_platform o) (ss_library s)) (ss_world s) scopes (lb_rows (ss_library s)))
    as (b & parts & w & E & Hst & Hid & Hsc & Hprot & Hret & Hpre & Hall); try done.
  { unfold platform_now. cbn. intros listed. by destruct (pf_media (oc_platform o)) as [|e]; intros [= <-]. }
  rewrite E. exists (SafetyBackup (bk_id b) (negb (existsb (has_part_status PFailed) parts))), w, b. do 3 (split; [done|]).
  cbn [sb_complete]. intros [Hparts Hlib]%negb_true_iff%Hall. pose proof (normalised_scopes _ _ Es) as Hperm. split.
  - intros org now st Hb. apply candidates_prunable in Hb as [_ Hp]. unfold prunable in Hp. by rewrite Hprot, andb_false_r in Hp.
  - by rewrite Hsc, Hperm.
  - intros name Hname. apply Hparts. by rewrite Hperm.
  - intros Hm r Hr. apply elem_of_filter_bool in Hr as [Hr [Hl Hsite]%andb_true_iff]. apply Hlib; try done. by rewrite Hperm.
Qed.

(** The checks of the table on the parts and the destination of a run. *)
Definition run_row_ok (b : backup) : bool :=
  is_ok (normalise_scopes (bk_scopes b)) && existsb (str_eqb (bk_destination b)) [s!"local"; s!"s3"].

(** [b] is among the runs after the restore and a way back for the run that was restored. *)
Definition back_to (organization : option Z) (sites : list media_site) (id : Z) (s s' : site_state) (b : backup) : Prop :=
  exists row, find_backup id organization (ds_store (ss_world s)) = Ok row
    /\ b ∈ st_backups (ds_store (ss_world s'))
    /\ way_back row organization sites (ss_library s) (ds_disk (ss_world s')) b.

(** What a restore leaves, by its answer: refused before its safety backup it has changed nothing,
    refused after it nothing but the runs; once it may have written to the library there is a run to
    go back to, which an accepted restore names, and it never restores the database. *)
Definition restore_answered (o : occasion) (organization : option Z) (id : Z) (s : site_state)
  (answer : result restore_outcome restore_error) (s' : site_state) : Prop :=
  let back := back_to organization (pf_sites (oc_platform o)) id s s' in
  match answer with
  | Ok outcome => (exists b, bk_id b = ro_safety_backup_id outcome /\ back b) /\ s!"database" ∉ ro_parts outcome
  | Err BusRefused => exists b, back b
  | Err SafetyIncomplete | Err IndexUnreadable =>
      ss_library s' = ss_library s /\ ss_events s' = ss_events s
      /\ exists b, st_backups (ds_store (ss_world s')) = st_backups (ds_store (ss_world s)) ++ [b]
  | Err _ => s' = s
  end.

Lemma restore_changes_after_a_way_back o organization actor read_settings live bus_is_up id parts confirmation s :
  (forall b, b ∈ st_backups (ds_store (ss_world s)) -> bk_id b <> oc_backup_id o /\ run_row_ok b = true) ->
  NoDup (mo_id ∘ mr_object <$> lb_rows (ss_library s)) ->
  (forall r, r ∈ lb_rows (ss_library s) -> is_uuid (mo_id (mr_object r))) ->
  let '(answer, s') := restores o organization actor read_settings live bus_is_up id parts confirmation s in
  restore_answered o organization id s answer s'.
Proof.
  intros Hrows Hn Hu. unfold restore.
  destruct (find_backup id organization _) as [row|e] eqn:Ef; [|done].
  destruct read_settings as [st|e]; [|done]. destruct (pp_live_comparison_failed _); [done|].
  set (priced := rebuild_preview _ _ _ _ _ _ _ _ _). destruct (build_plan _ _ _ _) as [plan|e]; [|done].
  destruct (asks (pl_parts plan) _) eqn:Edb; [done|].
  assert (Hrow : row ∈ st_backups (ds_store (ss_world s))).
  { unfold find_backup in Ef. destruct (List.find _ _) as [b|] eqn:E; [|done]. injection Ef as <-.
    apply List.find_some in E as [E _]. by apply list_elem_of_In. }
  apply Hrows in Hrow as [_ [Hscopes Hdest]%andb_true_iff].
  destruct (safety_spec o organization actor row s) as (taken & w & b & Es & Hst & Hid & Hback); try done.
  { intros x Hx. by apply Hrows. }
  rewrite Es. destruct (sb_complete taken) eqn:Ec; cbn [negb]; [|split_and!; [done|done|by exists b]]. specialize (Hback eq_refl).
  assert (Hin : b ∈ st_backups (ds_store w)) by (rewrite Hst; apply elem_of_app; right; by left).
  assert (Hdbn : s!"database" ∉ pl_parts plan) by (intros Hdb; apply asks_elem in Hdb; congruence).
  assert (Hb : forall l events, back_to organization (pf_sites (oc_platform o)) id s (SiteState w l events) b)
    by (intros l events; exists row; by split_and!).
  destruct (pl_restores_media plan); [unfold restore_media_part; destruct (media_index_keys _ _ _ _) as [objects|]|].
  - destruct (restore_objects _ _ _ _ _ _ _ _) as [report l]. destruct bus_is_up; [|exists b; apply Hb].
    split; [|done]. exists b. split; [done|apply Hb].
  - split_and!; [done|done|by exists b].
  - destruct bus_is_up; [|exists b; apply Hb]. split; [|done]. exists b. split; [done|apply Hb].
Qed.


(** The safety backup copies the library, so a library that has lost an object cannot be copied:
    no restore of a run with the media is accepted any more, not even the one that would put the
    object back, and nothing of the library changes. *)
Theorem lost_object_blocks_every_restore (o : occasion) (organization : option Z) (actor : Z)
  (read_settings : result backup_settings backup_error) (live : live_side) (bus_is_up : bool) (id : Z) (parts : list str)
  (confirmation : str) (s : site_state) (row : backup) (r : media_row) :
  (forall b, b ∈ st_backups (ds_store (ss_world s)) -> bk_id b <> oc_backup_id o /\ run_row_ok b = true) ->
  NoDup (mo_id ∘ mr_object <$> lb_rows (ss_library s)) ->
  (forall r, r ∈ lb_rows (ss_library s) -> is_uuid (mo_id (mr_object r))) ->
  find_backup id organization (ds_store (ss_world s)) = Ok row -> s!"media" ∈ bk_scopes row ->
  r ∈ owned_rows organization (pf_sites (oc_platform o)) (lb_rows (ss_library s)) ->
  lb_objects (ss_library s) !! mo_storage_key (mr_object r) = None ->
  let '(answer, s') := restores o organization actor read_settings live bus_is_up id parts confirmation s in
  is_ok answer = false /\ ss_library s' = ss_library s.
Proof.
  intros Hrows Hn Hu Hrow Hm Hr Hlost.
  pose proof (restore_changes_after_a_way_back o organization actor read_settings live bus_is_up id parts confirmation s
                Hrows Hn Hu) as H.
  destruct (restores _ _ _ _ _ _ _ _ _ _) as [answer s'].
  assert (Hno : forall b, ~ back_to organization (pf_sites (oc_platform o)) id s s' b).
  { intros b (row' & Hrow' & _ & Hb). rewrite Hrow in Hrow'. injection Hrow' as <-.
    destruct (wb_library _ _ _ _ _ _ Hb Hm r Hr) as (bytes & Hbytes & _). by rewrite Hlost in Hbytes. }
  unfold restore_answered in H. destruct answer as [outcome|e]; [destruct H as [(b & _ & Hb) _]; by apply Hno in Hb|].
  split; [done|]. destruct e; try (by rewrite H); try apply H. destruct H as [b Hb]. by apply Hno in Hb.
Qed.
End WayBack.

(** ** A restore to evaluate on

    A run of the two live objects is taken, one of them is lost, and the run is restored. *)

Definition plain_settings : backup_settings := BackupSettings s!"local" s!"/var/backups" None None s!"none" 7 true None.
Definition whole_platform : platform :=
  Platform (Ok [(s!"users", 3)]) (Ok []) (Ok [s!"plain"]) (Ok 0) [MediaSite 1 (Some 5)] (Ok sample_rows) sample_objects.
Definition sample_sha (_ : str) : str := s!"a1b2c3d4".
Definition source_draft : new_backup := NewBackup (Some 5) s!"nightly" s!"manual" None [s!"media"; s!"themes"] s!"local" [] false None None.
Definition source_world : destination :=
  match take_backup (J := Z_number) (A := tagging) (F := plain_disk) (O := plain_store) digest braces braces sample_env
          (fun _ => Ok plain_settings) sample_drawn (fun _ => 1) (fun _ => []) (fun _ => []) sample_date 7 0 2
          s!"2026-01-01T00:00:02Z" source_draft whole_platform empty_destination with
  | Ok (_, _, w) => w
  | Err _ => empty_destination
  end.
Definition source_index : media_index :=
  build_index s!"" (cr_objects (copy_objects (F := plain_disk) (O := plain_store) digest sample_objects s!"/var/backups"
    (run_prefix sample_date 0 7) sample_media ∅).1).
Definition damaged_library : library := Library (<[s!"sites/1/a.png" := [1; 2; 3]]> ∅) sample_rows.
Definition restore_occasion : occasion := Occasion 8 1000 1010 [] 1020 whole_platform.
Definition sample_live : live_side := LiveSide [] (Ok []) (Ok 3).
Definition damaged_site : site_state := SiteState source_world damaged_library [].
Definition sample_restore (parts : list str) (s : site_state) : result restore_outcome restore_error * site_state :=
  restore (J := Z_number) (A := tagging) (F := plain_disk) (O := plain_store) digest braces braces sample_env
    (fun _ => Ok plain_settings) sample_drawn (fun _ => 1) (fun _ => []) sample_sha sample_date
    (fun _ => Some source_index) show_Z restore_occasion (Some 5) 77 (Ok plain_settings) sample_live true 7 parts
    s!"RESTORE a1b2c3d4" s.
Definition whole_site : site_state := SiteState source_world (Library sample_objects sample_rows) [].


Example whole_restore_is_accepted : is_ok (sample_restore [s!"media"] whole_site).1 = true.
Proof. vm_compute. reflexivity. Qed.
Example damaged_restore_is_refused : (sample_restore [s!"media"] damaged_site).1 = Err SafetyIncomplete.
Proof. vm_compute. reflexivity. Qed.
(** A library that cannot be listed is not taken for an empty one. *)
Example unlisted_media_is_refused :
  let pf := Platform (pf_tables whole_platform) (pf_settings_tables whole_platform) (pf_themes whole_platform)
              (pf_components whole_platform) (pf_sites whole_platform) (Err s!"timeout") (pf_objects whole_platform) in
  (restore (J := Z_number) (A := tagging) (F := plain_disk) (O := plain_store) digest braces braces sample_env
    (fun _ => Ok plain_settings) sample_drawn (fun _ => 1) (fun _ => []) sample_sha sample_date
    (fun _ => Some source_index) show_Z (Occasion 8 1000 1010 [] 1020 pf) (Some 5) 77 (Ok plain_settings) sample_live true 7
    [s!"media"] s!"RESTORE a1b2c3d4" whole_site).1 = Err SafetyIncomplete.
Proof. vm_compute. reflexivity. Qed.

Lemma source_runs_ok b : b ∈ st_backups (ds_store source_world) -> bk_id b <> oc_backup_id restore_occasion /\ run_row_ok b = true.
Proof.
  assert (H : forallb (fun b => negb (bk_id b =? 8) && run_row_ok b) (st_backups (ds_store source_world)) = true) by by_compute.
  intros Hb. apply (proj1 (forallb_elem _ _) H) in Hb. apply andb_true_iff in Hb as [Hb1 Hb2]. split; [|exact Hb2].
  intros E. cbn [oc_backup_id restore_occasion] in E. rewrite E in Hb1. discriminate Hb1.
Qed.
Lemma sample_rows_uuids r : r ∈ sample_rows -> is_uuid (mo_id (mr_object r)).
Proof.
  assert (H : forallb (fun r => (0 <=? mo_id (mr_object r)) && (mo_id (mr_object r) <? 2 ^ 128)) sample_rows = true) by by_compute.
  intros Hr. apply (proj1 (forallb_elem _ _) H) in Hr. apply andb_true_iff in Hr as [H1 H2]. split; lia.
Qed.

