(* ===== verification/RestoreJobs.v ===== *)
(** * Queued restores: [crates/backup/src/restore_jobs.rs], [apps/api/src/restore_job_runner.rs], the
      routes of [apps/api/src/routes/restore_jobs.rs]

    A restore that waits for a worker and can be cancelled until then.  The rows with the checks of
    their table, every statement that changes them as one step, the compositions of statements the
    routes and the worker run, and the interleavings of those steps. *)

From S2P Require Import Prelude Json Cadence Backups Sealing MediaArchive BackupRuns BackupSchedules RestorePlan.

(** ** Rows *)

Inductive job_status := JQueued | JRunning | JSucceeded | JFailed | JAborted.
#[export] Instance job_status_eq_dec : EqDecision job_status.
Proof. solve_decision. Defined.

Definition job_status_as_str (s : job_status) : str :=
  match s with
  | JQueued => s!"queued" | JRunning => s!"running" | JSucceeded => s!"succeeded" | JFailed => s!"failed"
  | JAborted => s!"aborted"
  end.
Definition is_cancellable (s : job_status) : bool := match s with JQueued => true | _ => false end.
Definition is_live_job (s : job_status) : bool := match s with JQueued | JRunning => true | _ => false end.

(** What a worker records of a restore that ended. *)
Record job_outcome := JobOutcome {
  jo_backup_id : Z;
  jo_parts : list str;
  jo_restored : list str;
  jo_media : restore_report;
  jo_safety_backup_id : Z
}.

Record restore_job := RestoreJob {
  rj_id : Z;
  rj_organization_id : option Z;
  rj_backup_id : Z;
  rj_parts : list str;
  rj_confirmation : str;
  rj_status : job_status;
  rj_cancel_requested : bool;
  rj_started_at : option Z;
  rj_finished_at : option Z;
  rj_safety_backup_id : option Z;
  rj_live_dropped : Z;
  rj_live_matches : Z;
  rj_result : option job_outcome;
  rj_error : option str;
  rj_created_by : option Z;
  rj_created_at : Z
}.
Record new_restore_job := NewRestoreJob {
  nj_organization_id : option Z;
  nj_backup_id : Z;
  nj_parts : list str;
  nj_confirmation : str;
  nj_live_dropped : Z;
  nj_live_matches : Z;
  nj_created_by : option Z
}.

Inductive job_error :=
  | JobNotFound
  | JobNotCancellable (state : str)
  | JobAlreadyLive (state : str)
  | JobUnavailable.

(** The checks of [backup_restore_jobs]. *)
Definition job_shape_ok (j : restore_job) : bool :=
  match rj_status j with
  | JQueued => negb (is_given (rj_started_at j)) && negb (is_given (rj_finished_at j))
  | JRunning => is_given (rj_started_at j) && negb (is_given (rj_finished_at j))
  | JSucceeded => is_given (rj_started_at j) && is_given (rj_finished_at j)
                  && is_given (rj_result j) && is_given (rj_safety_backup_id j)
  | JFailed => is_given (rj_started_at j) && is_given (rj_finished_at j)
               && (0 <? length (btrim (default [] (rj_error j))))%nat
  | JAborted => is_given (rj_finished_at j) && negb (is_given (rj_started_at j)) && rj_cancel_requested j
  end.
Definition job_parts_ok (parts : list str) : bool :=
  (1 <=? length parts)%nat && (length parts <=? 5)%nat && forallb known_part parts && negb (has_duplicate [] parts).
Definition schema_job (j : restore_job) : bool := job_shape_ok j && job_parts_ok (rj_parts j).

Definition with_job (j : restore_job) (status : job_status) (cancel : bool) (started finished safety : option Z)
  (outcome : option job_outcome) (error : option str) : restore_job :=
  RestoreJob (rj_id j) (rj_organization_id j) (rj_backup_id j) (rj_parts j) (rj_confirmation j) status cancel started finished
    safety (rj_live_dropped j) (rj_live_matches j) outcome error (rj_created_by j) (rj_created_at j).

(** [update .. set .. where ..]: refused as a whole when a row would break a check; the number of
    rows it changed. *)
Definition update_jobs (p : restore_job -> bool) (f : restore_job -> restore_job) (l : list restore_job) :
  result (nat * list restore_job) backup_error :=
  require forallb (fun j => negb (p j) || schema_job (f j)) l else BackupDatabase in
  Ok (length (List.filter p l), (fun j => if p j then f j else j) <$> l).

Definition is_job (id : Z) (j : restore_job) : bool := rj_id j =? id.
Definition has_job_status (s : job_status) (j : restore_job) : bool := bool_decide (rj_status j = s).
Definition read_job (id : Z) (l : list restore_job) : option restore_job := List.find (is_job id) l.

(** ** Statements *)

(** [sort_by_key] by the position in [PARTS], then [dedup]. *)
Fixpoint dedup_adjacent (l : list str) : list str :=
  match l with
  | x :: ((y :: _) as rest) => if str_eqb x y then dedup_adjacent rest else x :: dedup_adjacent rest
  | _ => l
  end.
Definition name_order (a b : str) : comparison := Nat.compare (position_in a PARTS) (position_in b PARTS).
Definition job_parts (parts : list str) : list str := dedup_adjacent (sort_by name_order parts).

Definition live_job (backup_id : Z) (j : restore_job) : bool := (rj_backup_id j =? backup_id) && is_live_job (rj_status j).

(** The partial unique index answers with the state of the job it found. *)
Definition queue_restore (id now : Z) (new : new_restore_job) (l : list restore_job) :
  result (restore_job * list restore_job) job_error :=
  refuse bool_decide (nj_parts new = []) with JobNotCancellable s!"nothing was selected" in
  refuse existsb (fun p => negb (known_part p)) (nj_parts new)
    with JobNotCancellable s!"a selected part is not one of the five" in
  let j := RestoreJob id (nj_organization_id new) (nj_backup_id new) (job_parts (nj_parts new)) (nj_confirmation new)
             JQueued false None None None (nj_live_dropped new) (nj_live_matches new) None None (nj_created_by new) now in
  require schema_job j else JobUnavailable in
  match List.find (live_job (nj_backup_id new)) l with
  | Some other => Err (JobAlreadyLive (job_status_as_str (rj_status other)))
  | None => Ok (j, l ++ [j])
  end.

Definition owned_job (id : Z) (organization : option Z) (j : restore_job) : bool :=
  is_job id j && bool_decide (rj_organization_id j = organization).
Definition find_restore_job (id : Z) (organization : option Z) (l : list restore_job) : result restore_job backup_error :=
  ok_or (List.find (owned_job id organization) l) BackupRejected.

Definition newest_job_first (a b : restore_job) : comparison := rj_created_at b ?= rj_created_at a.
Definition oldest_job_first (a b : restore_job) : comparison := rj_created_at a ?= rj_created_at b.
Definition list_restore_jobs (backup_id : Z) (organization : option Z) (l : list restore_job) : list restore_job :=
  take 20 (sort_by newest_job_first
    (List.filter (fun j => (rj_backup_id j =? backup_id) && bool_decide (rj_organization_id j = organization)) l)).
Definition all_queued_restore_jobs (l : list restore_job) : list restore_job :=
  take 10 (sort_by oldest_job_first (List.filter (has_job_status JQueued) l)).
Definition queued_restore_jobs (organization : option Z) (l : list restore_job) : list restore_job :=
  take 10 (sort_by oldest_job_first
    (List.filter (fun j => has_job_status JQueued j && bool_decide (rj_organization_id j = organization)) l)).

Definition settle_restore_cancel (id now : Z) (reason : str) : list restore_job -> result (nat * list restore_job) backup_error :=
  update_jobs (fun j => is_job id j && has_job_status JQueued j && rj_cancel_requested j)
    (fun j => with_job j JAborted (rj_cancel_requested j) (rj_started_at j) (Some now) (rj_safety_backup_id j) (rj_result j)
                (Some reason)).
Definition request_restore_cancel (id : Z) : list restore_job -> result (nat * list restore_job) backup_error :=
  update_jobs (fun j => is_job id j && has_job_status JQueued j)
    (fun j => with_job j (rj_status j) true (rj_started_at j) (rj_finished_at j) (rj_safety_backup_id j) (rj_result j) (rj_error j)).
Definition abort_restore_job (id now : Z) (reason : str) : list restore_job -> result (nat * list restore_job) backup_error :=
  update_jobs (fun j => is_job id j && has_job_status JRunning j && rj_cancel_requested j)
    (fun j => with_job j JAborted (rj_cancel_requested j) None (Some now) (rj_safety_backup_id j) (rj_result j) (Some reason)).
Definition mark_running (id now : Z) : list restore_job -> result (nat * list restore_job) backup_error :=
  update_jobs (fun j => is_job id j && has_job_status JQueued j)
    (fun j => with_job j JRunning (rj_cancel_requested j) (Some now) (rj_finished_at j) (rj_safety_backup_id j) (rj_result j)
                (rj_error j)).
Definition finish_restore_job (id now : Z) (succeeded : bool) (safety : option Z) (outcome : option job_outcome)
  (error : option str) : list restore_job -> result (nat * list restore_job) backup_error :=
  update_jobs (fun j => is_job id j && has_job_status JRunning j)
    (fun j => with_job j (if succeeded then JSucceeded else JFailed) (rj_cancel_requested j) (rj_started_at j) (Some now) safety
                outcome error).
Definition cancel_was_requested (id : Z) (l : list restore_job) : bool :=
  match read_job id l with Some j => rj_cancel_requested j | None => false end.

(** The claim: one statement, and a second one when a cancel was recorded before it. *)
Definition claim_restore_job (id now : Z) (l : list restore_job) : result restore_job job_error * list restore_job :=
  match mark_running id now l with
  | Err _ => (Err JobNotFound, l)
  | Ok (O, l) => (Err JobNotFound, l)
  | Ok (S _, l) =>
      match read_job id l with
      | None => (Err JobNotFound, l)
      | Some j =>
          if rj_cancel_requested j then
            match abort_restore_job id now s!"cancelled before the first write" l with
            | Err _ => (Err JobUnavailable, l)
            | Ok (_, l) => (Err (JobNotCancellable s!"aborted"), l)
            end
          else (Ok j, l)
      end
  end.

(** *** The sweep of jobs that waited or ran for too long *)

Definition NANOS_PER_MINUTE : Z := 60 * NANOS_PER_SECOND.
Definition stale_job (max_age_minutes now : Z) (j : restore_job) : bool :=
  is_live_job (rj_status j)
  && (rj_created_at j <? now - Z.max 1 (Z.min max_age_minutes (2 ^ 31 - 1)) * NANOS_PER_MINUTE).
Definition stale_jobs (max_age_minutes now : Z) (l : list restore_job) : list restore_job :=
  take 20 (sort_by oldest_job_first (List.filter (stale_job max_age_minutes now) l)).

Definition stale_reason (running : bool) (minutes : Z) : str :=
  if running
  then s!"this restore was claimed " ++ show_Z minutes ++ s!" minutes ago and no worker has touched it since, so it is assumed to have been interrupted mid-flight. Whether it wrote anything is NOT known: the safety backup named below is the run to go back to. Verify the library before queueing another restore of this run."
  else s!"this restore waited " ++ show_Z minutes ++ s!" minutes for a worker and none claimed it, so the platform stopped it rather than leaving it to spin for ever. Nothing was written. Queue it again when you are ready.".

(** The second statement of the sweep: what it writes depends on what the first one had read. *)
Definition stop_stale (id now : Z) (was_running : bool) (minutes : Z) :
  list restore_job -> result (nat * list restore_job) backup_error :=
  update_jobs (fun j => is_job id j && is_live_job (rj_status j))
    (fun j => with_job j (if was_running then JFailed else JAborted) (negb was_running) (rj_started_at j) (Some now)
                (rj_safety_backup_id j) (rj_result j) (Some (stale_reason was_running minutes))).

Fixpoint stop_each (now minutes : Z) (stale : list restore_job) (l : list restore_job) :
  result unit backup_error * list restore_job :=
  match stale with
  | [] => (Ok tt, l)
  | j :: rest =>
      match stop_stale (rj_id j) now (has_job_status JRunning j) minutes l with
      | Err e => (Err e, l)
      | Ok (_, l) => stop_each now minutes rest l
      end
  end.
Definition fail_stale_restore_jobs (max_age_minutes now : Z) (l : list restore_job) : result nat backup_error * list restore_job :=
  let stale := stale_jobs max_age_minutes now l in
  match stop_each now max_age_minutes stale l with
  | (Ok _, l) => (Ok (length stale), l)
  | (Err e, l) => (Err e, l)
  end.

(** A deleted run takes its jobs with it, and its name off the jobs it was the safety backup of. *)
Definition forget_run (backup_id : Z) (l : list restore_job) : result (list restore_job) backup_error :=
  match update_jobs (fun j => bool_decide (rj_safety_backup_id j = Some backup_id))
          (fun j => with_job j (rj_status j) (rj_cancel_requested j) (rj_started_at j) (rj_finished_at j) None (rj_result j) (rj_error j))
          (List.filter (fun j => negb (rj_backup_id j =? backup_id)) l) with
  | Err e => Err e
  | Ok (_, l) => Ok l
  end.

(** ** The cancel route *)

Definition cancelled_reason : str := s!"cancelled before the first write " ++ em_dash ++ s!" nothing was changed".

Inductive cancel_error := CancelNotFound | CancelRefused (status : str) | CancelUnavailable (e : backup_error).
Definition cancel_job (id : Z) (organization : option Z) (now : Z) (l : list restore_job) :
  result restore_job cancel_error * list restore_job :=
  match find_restore_job id organization l with
  | Err _ => (Err CancelNotFound, l)
  | Ok j =>
      if negb (has_job_status JQueued j) then (Err (CancelRefused (job_status_as_str (rj_status j))), l)
      else
        match request_restore_cancel id l with
        | Err e => (Err (CancelUnavailable e), l)
        | Ok (O, l) => (match find_restore_job id organization l with Ok j => Ok j | Err _ => Err CancelNotFound end, l)
        | Ok (S _, l) =>
            match settle_restore_cancel id now cancelled_reason l with
            | Err e => (Err (CancelUnavailable e), l)
            | Ok (_, l) => (match find_restore_job id organization l with Ok j => Ok j | Err _ => Err CancelNotFound end, l)
            end
        end
  end.

(** ** Interleavings: statements of routes and workers in any order *)

Inductive job_event :=
  | EvQueue (id now : Z) (new : new_restore_job)
  | EvRequestCancel (id : Z)
  | EvSettleCancel (id now : Z) (reason : str)
  | EvMarkRunning (id now : Z)
  | EvAbort (id now : Z) (reason : str)
  | EvFinish (id now : Z) (succeeded : bool) (safety : option Z) (outcome : option job_outcome) (error : option str)
  | EvStopStale (id now : Z) (was_running : bool) (minutes : Z)
  | EvForgetRun (backup_id : Z).

Definition kept (l : list restore_job) (r : result (nat * list restore_job) backup_error) : list restore_job :=
  match r with Ok (_, l') => l' | Err _ => l end.
Definition job_step (e : job_event) (l : list restore_job) : list restore_job :=
  match e with
  | EvQueue id now new =>
      if existsb (is_job id) l then l
      else match queue_restore id now new l with Ok (_, l') => l' | Err _ => l end
  | EvRequestCancel id => kept l (request_restore_cancel id l)
  | EvSettleCancel id now reason => kept l (settle_restore_cancel id now reason l)
  | EvMarkRunning id now => kept l (mark_running id now l)
  | EvAbort id now reason => kept l (abort_restore_job id now reason l)
  | EvFinish id now succeeded safety outcome error => kept l (finish_restore_job id now succeeded safety outcome error l)
  | EvStopStale id now was_running minutes => kept l (stop_stale id now was_running minutes l)
  | EvForgetRun backup_id => match forget_run backup_id l with Ok l' => l' | Err _ => l end
  end.
Definition job_steps (events : list job_event) (l : list restore_job) : list restore_job :=
  fold_left (fun l e => job_step e l) events l.

(** The rows of a table that keeps its checks and its indexes. *)
Record jobs_ok (l : list restore_job) : Prop := {
  jk_ids : NoDup (rj_id <$> l);
  jk_rows : forall j, j ∈ l -> schema_job j = true;
  jk_live : NoDup (rj_backup_id <$> List.filter (fun j => is_live_job (rj_status j)) l)
}.

(** ** What a statement can do to a row *)

Definition is_terminal (s : job_status) : bool := negb (is_live_job s).

(** A closed row only loses the name of its safety backup; a running row without a recorded cancel
    gets none, and stays running until its outcome; no row comes back to life. *)
Record moved (j j' : restore_job) : Prop := {
  mv_same : rj_id j' = rj_id j /\ rj_backup_id j' = rj_backup_id j /\ rj_parts j' = rj_parts j;
  mv_closed : is_terminal (rj_status j) = true ->
    rj_status j' = rj_status j /\ rj_cancel_requested j' = rj_cancel_requested j /\ rj_started_at j' = rj_started_at j
    /\ rj_finished_at j' = rj_finished_at j /\ rj_result j' = rj_result j /\ rj_error j' = rj_error j;
  mv_running : rj_status j = JRunning -> rj_cancel_requested j = false ->
    (rj_status j' = JRunning \/ rj_status j' = JSucceeded \/ rj_status j' = JFailed)
    /\ rj_cancel_requested j' = false /\ rj_started_at j' = rj_started_at j;
  mv_live : is_live_job (rj_status j') = true -> is_live_job (rj_status j) = true
}.

Lemma moved_refl j : moved j j.
Proof. split; [by split_and!|intros; by split_and!|intros; split_and!; auto|done]. Qed.
Lemma moved_trans j1 j2 j3 : moved j1 j2 -> moved j2 j3 -> moved j1 j3.
Proof.
  intros [(? & ? & ?) C1 R1 L1] [(? & ? & ?) C2 R2 L2]. split; [split_and!; congruence| | |auto].
  - intros Ht. destruct (C1 Ht) as (Hs & ? & ? & ? & ? & ?). rewrite Hs in C2. destruct (C2 Ht) as (? & ? & ? & ? & ? & ?).
    split_and!; congruence.
  - intros Hr Hc. destruct (R1 Hr Hc) as (Hs & Hc' & Hst). destruct Hs as [Hs|[Hs|Hs]].
    + destruct (R2 Hs Hc') as (? & ? & ?). split_and!; [done|done|congruence].
    + rewrite Hs in C2. destruct (C2 eq_refl) as (? & ? & ? & _). split_and!; [auto|congruence|congruence].
    + rewrite Hs in C2. destruct (C2 eq_refl) as (? & ? & ? & _). split_and!; [auto|congruence|congruence].
Qed.

(** The rows of [l'] are those of [l], moved. *)
Definition moved_rows (l l' : list restore_job) : Prop := forall j', j' ∈ l' -> exists j, j ∈ l /\ moved j j'.

Lemma live_sublist (g : restore_job -> restore_job) l :
  (forall j, j ∈ l -> moved j (g j)) ->
  sublist (rj_backup_id <$> List.filter (fun j => is_live_job (rj_status j)) (g <$> l))
          (rj_backup_id <$> List.filter (fun j => is_live_job (rj_status j)) l).
Proof.
  induction l as [|j l IH]; intros H; [done|]. cbn [fmap list_fmap List.filter].
  destruct (H j ltac:(by left)) as [(_ & Eb & _) _ _ Hl]. specialize (IH ltac:(intros; apply H; by right)).
  destruct (is_live_job (rj_status (g j))).
  - rewrite Hl by done. cbn [fmap list_fmap]. rewrite Eb. by constructor.
  - destruct (is_live_job (rj_status j)); [by constructor|done].
Qed.

Lemma update_jobs_moves p f l n l' :
  (forall j, p j = true -> schema_job j = true -> schema_job (f j) = true -> moved j (f j)) ->
  jobs_ok l -> update_jobs p f l = Ok (n, l') -> jobs_ok l' /\ moved_rows l l'.
Proof.
  intros Hf [Hids Hrows Hlive] H. unfold update_jobs in H. destruct (forallb _ l) eqn:E; [|done]. injection H as <- <-.
  set (g := fun j => if p j then f j else j).
  assert (Hg : forall j, j ∈ l -> moved j (g j) /\ schema_job (g j) = true).
  { intros j Hj. unfold g. destruct (p j) eqn:Ep; [|split; [apply moved_refl|by apply Hrows]].
    assert (Hs : schema_job (f j) = true).
    { apply (proj1 (forallb_elem _ _)) with (x := j) in E; [|done]. by rewrite Ep in E. }
    split; [apply Hf; try done; by apply Hrows|done]. }
  split; [split|].
  - rewrite <- list_fmap_compose. erewrite list_fmap_ext; [exact Hids|]. intros i j Hj. apply list_elem_of_lookup_2 in Hj.
    destruct (Hg j Hj) as [[(Ei & _) _ _ _] _]. exact Ei.
  - intros j' (j & -> & Hj)%list_elem_of_fmap. by apply Hg.
  - eapply sublist_NoDup; [exact Hlive|]. apply live_sublist. intros j Hj. by apply Hg.
  - intros j' (j & -> & Hj)%list_elem_of_fmap. exists j. split; [done|]. by apply Hg.
Qed.

Lemma kept_moves p f l :
  (forall j, p j = true -> schema_job j = true -> schema_job (f j) = true -> moved j (f j)) ->
  jobs_ok l -> jobs_ok (kept l (update_jobs p f l)) /\ moved_rows l (kept l (update_jobs p f l)).
Proof.
  intros Hf Hl. destruct (update_jobs p f l) as [[n l']|e] eqn:E; cbn [kept]; [by eapply update_jobs_moves|].
  split; [done|]. intros j Hj. exists j. split; [done|apply moved_refl].
Qed.

(** Case analysis on the states and stamps of a row under the checks. *)
Ltac job_cases :=
  intros; unfold schema_job, job_shape_ok, is_job, has_job_status in *;
  repeat match goal with
    | H : (_ && _)%bool = true |- _ => apply andb_true_iff in H as [? ?]
    | H : bool_decide _ = true |- _ => apply bool_decide_eq_true in H
    end;
  repeat match goal with
    | j : restore_job |- _ => destruct j
    end; cbn in *; subst; cbn in *;
  repeat match goal with
    | H : (_ && _)%bool = true |- _ => apply andb_true_iff in H as [? ?]
    | H : context [match ?o with Some _ => _ | None => _ end] |- _ => is_var o; destruct o; cbn in *
    | H : context [match ?s with JQueued => _ | _ => _ end] |- _ => is_var s; destruct s; cbn in *
    | H : is_given ?o = true, H' : negb (is_given ?o) = true |- _ => by rewrite H in H'
    end; try discriminate;
  split; cbn; intros; try discriminate; subst; auto; try (by split_and!).

Lemma settle_moves id now reason l : jobs_ok l ->
  jobs_ok (kept l (settle_restore_cancel id now reason l)) /\ moved_rows l (kept l (settle_restore_cancel id now reason l)).
Proof. apply kept_moves. job_cases. Qed.
Lemma request_moves id l : jobs_ok l ->
  jobs_ok (kept l (request_restore_cancel id l)) /\ moved_rows l (kept l (request_restore_cancel id l)).
Proof. apply kept_moves. job_cases. Qed.
Lemma abort_moves id now reason l : jobs_ok l ->
  jobs_ok (kept l (abort_restore_job id now reason l)) /\ moved_rows l (kept l (abort_restore_job id now reason l)).
Proof. apply kept_moves. job_cases. Qed.
Lemma mark_moves id now l : jobs_ok l ->
  jobs_ok (kept l (mark_running id now l)) /\ moved_rows l (kept l (mark_running id now l)).
Proof. apply kept_moves. job_cases. Qed.
Lemma finish_moves id now succeeded safety outcome error l : jobs_ok l ->
  jobs_ok (kept l (finish_restore_job id now succeeded safety outcome error l))
  /\ moved_rows l (kept l (finish_restore_job id now succeeded safety outcome error l)).
Proof. apply kept_moves. destruct succeeded; job_cases. Qed.
Lemma stop_moves id now was_running minutes l : jobs_ok l ->
  jobs_ok (kept l (stop_stale id now was_running minutes l)) /\ moved_rows l (kept l (stop_stale id now was_running minutes l)).
Proof. apply kept_moves. destruct was_running; job_cases. Qed.

Lemma forget_moves id l l' : jobs_ok l -> forget_run id l = Ok l' -> jobs_ok l' /\ moved_rows l l'.
Proof.
  intros [Hids Hrows Hlive] H. unfold forget_run in H. set (l0 := List.filter _ l) in H.
  assert (Hl0 : jobs_ok l0).
  { split.
    - eapply sublist_NoDup; [exact Hids|]. apply fmap_sublist, sublist_filter.
    - intros j Hj. apply Hrows. by apply elem_of_filter_bool in Hj as [? _].
    - eapply sublist_NoDup; [exact Hlive|]. apply fmap_sublist. unfold l0. rewrite filter_comm_bool. apply sublist_filter. }
  destruct (update_jobs _ _ l0) as [[n l1]|e] eqn:E; [|done]. injection H as <-.
  apply update_jobs_moves in E as [Hok Hm]; [| |exact Hl0].
  2: intros j Hj _ _; split; [by split_and!|intros; by split_and!|intros; split_and!; auto|done].
  - split; [done|]. intros j' Hj'. destruct (Hm j' Hj') as (j & Hj & Hmv). exists j. split; [|done].
    by apply elem_of_filter_bool in Hj as [? _].
Qed.

(** A row queued under an id of its own is the only one of its kind. *)
Lemma queue_moves id now new l j l' : existsb (is_job id) l = false -> jobs_ok l -> queue_restore id now new l = Ok (j, l') ->
  jobs_ok l' /\ l' = l ++ [j] /\ rj_id j = id /\ rj_status j = JQueued /\ rj_cancel_requested j = false.
Proof.
  intros Hid [Hids Hrows Hlive] H. unfold queue_restore in H.
  destruct (bool_decide (nj_parts new = [])); [done|]. destruct (existsb (fun p => negb (known_part p)) _); [done|].
  set (j0 := RestoreJob _ _ _ _ _ _ _ _ _ _ _ _ _ _ _ _) in H. destruct (schema_job j0) eqn:Es; [|done].
  destruct (List.find _ l) eqn:Ef; [done|]. injection H as <- <-. split; [|done]. split.
  - rewrite fmap_app. apply NoDup_app. split; [done|]. split; [|apply NoDup_singleton].
    intros x (y & -> & Hy)%list_elem_of_fmap Hx. apply list_elem_of_singleton in Hx.
    apply not_true_iff_false in Hid. apply Hid, existsb_elem. exists y. split; [done|]. unfold is_job. by rewrite Hx, Z.eqb_refl.
  - intros y [Hy|Hy]%elem_of_app; [by apply Hrows|]. by apply list_elem_of_singleton in Hy as ->.
  - rewrite List.filter_app, fmap_app. apply NoDup_app. split; [done|]. split; [|apply NoDup_singleton].
    intros x (y & -> & Hy)%list_elem_of_fmap Hx. apply list_elem_of_singleton in Hx. apply elem_of_filter_bool in Hy as [Hy Hl].
    pose proof (find_exists (live_job (nj_backup_id new)) l) as E. rewrite Ef in E. simpl in E. symmetry in E.
    apply not_true_iff_false in E. apply E, existsb_elem. exists y. split; [done|]. unfold live_job.
    change (rj_backup_id j0) with (nj_backup_id new) in Hx. by rewrite Hx, Z.eqb_refl.
Qed.

(** The id an event gives to a new row. *)
Definition queued_id (e : job_event) : option Z := match e with EvQueue id _ _ => Some id | _ => None end.

Lemma step_moves e l : jobs_ok l ->
  jobs_ok (job_step e l)
  /\ forall j', j' ∈ job_step e l -> (exists j, j ∈ l /\ moved j j') \/ queued_id e = Some (rj_id j').
Proof.
  assert (Hleft : forall l', jobs_ok l' /\ moved_rows l l' -> jobs_ok l'
            /\ forall j', j' ∈ l' -> (exists j, j ∈ l /\ moved j j') \/ queued_id e = Some (rj_id j')).
  { intros l' [? Hm]. split; [done|]. intros j' Hj'. left. by apply Hm. }
  assert (Hstay : jobs_ok l -> jobs_ok l /\ moved_rows l l) by (intros H; split; [done|]; intros j Hj; exists j; split; [done|apply moved_refl]).
  intros Hl. destruct e as [id now new|id|id now reason|id now|id now reason|id now ok safety out err|id now wr mins|id];
    cbn [job_step].
  - destruct (existsb (is_job id) l) eqn:Ee; [by apply Hleft, Hstay|].
    destruct (queue_restore id now new l) as [[j l']|err] eqn:E; [|by apply Hleft, Hstay].
    apply queue_moves in E as (Hok & -> & Hid & _); [|done..]. split; [done|].
    intros j' [Hj'|Hj']%elem_of_app; [left; exists j'; split; [done|apply moved_refl]|].
    apply list_elem_of_singleton in Hj' as ->. right. by rewrite Hid.
  - by apply Hleft, request_moves.
  - by apply Hleft, settle_moves.
  - by apply Hleft, mark_moves.
  - by apply Hleft, abort_moves.
  - by apply Hleft, finish_moves.
  - by apply Hleft, stop_moves.
  - destruct (forget_run id l) as [l'|err] eqn:E; [|by apply Hleft, Hstay]. by apply Hleft, (forget_moves id).
Qed.

Lemma steps_move events : forall l, jobs_ok l ->
  jobs_ok (job_steps events l)
  /\ forall j', j' ∈ job_steps events l ->
       (exists j, j ∈ l /\ moved j j') \/ exists e, e ∈ events /\ queued_id e = Some (rj_id j').
Proof.
  induction events as [|e events IH]; intros l Hl.
  - split; [done|]. intros j Hj. left. exists j. split; [done|apply moved_refl].
  - destruct (step_moves e l Hl) as [Hl1 H1]. destruct (IH _ Hl1) as [Hl2 H2]. split; [done|]. intros j' Hj'.
    destruct (H2 j' Hj') as [(j1 & Hj1 & Hm)|(e' & He' & Hq)]; [|right; exists e'; split; [by right|done]].
    destruct (H1 j1 Hj1) as [(j & Hj & Hm1)|Hq]; [left; exists j; split; [done|by eapply moved_trans]|].
    right. exists e. split; [by left|]. destruct (mv_same _ _ Hm) as (-> & _). done.
Qed.

(** ** Claims and cancels *)

Lemma read_job_elem l j : NoDup (rj_id <$> l) -> j ∈ l -> read_job (rj_id j) l = Some j.
Proof.
  intros Hn Hj. unfold read_job. destruct (List.find _ l) as [x|] eqn:E.
  - apply List.find_some in E as [Hx E]. apply list_elem_of_In in Hx. f_equal. apply (NoDup_key_inj rj_id l); try done.
    unfold is_job in E. lia.
  - pose proof (find_exists (is_job (rj_id j)) l) as H. rewrite E in H. symmetry in H. apply not_true_iff_false in H.
    exfalso. apply H, existsb_elem. exists j. split; [done|]. unfold is_job. apply Z.eqb_refl.
Qed.
Lemma read_job_Some id l j : read_job id l = Some j -> j ∈ l /\ rj_id j = id.
Proof.
  unfold read_job. intros [Hj E]%List.find_some. split; [by apply list_elem_of_In|]. unfold is_job in E. lia.
Qed.

Lemma claim_spec id now l j l' : jobs_ok l -> claim_restore_job id now l = (Ok j, l') ->
  jobs_ok l' /\ j ∈ l' /\ rj_id j = id /\ rj_status j = JRunning /\ rj_cancel_requested j = false /\ rj_started_at j = Some now.
Proof.
  intros Hl H. pose proof (mark_moves id now l Hl) as [Hok _]. unfold claim_restore_job in H.
  destruct (mark_running id now l) as [[[|n] l1]|e] eqn:E; [done| |done]. cbn [kept] in Hok.
  destruct (read_job id l1) as [j1|] eqn:Er; [|done]. destruct (rj_cancel_requested j1) eqn:Ec.
  - destruct (abort_restore_job _ _ _ l1) as [[? ?]|]; done.
  - injection H as <- <-. apply read_job_Some in Er as [Hj1 Hid]. split; [done|]. split; [done|]. split; [done|].
    unfold mark_running, update_jobs in E. destruct (forallb _ l); [|done]. injection E as Elen <-.
    destruct (List.filter _ l) as [|r rest] eqn:Ef; [done|].
    assert (Hr : r ∈ r :: rest) by by left. rewrite <- Ef in Hr. apply elem_of_filter_bool in Hr as [Hr Hp].
    set (g := fun j => if _ && _ then _ else j) in Hj1, Hok.
    assert (Hgr : g r ∈ g <$> l) by by apply list_elem_of_fmap_2.
    assert (Eg : g r = with_job r JRunning (rj_cancel_requested r) (Some now) (rj_finished_at r) (rj_safety_backup_id r)
                         (rj_result r) (rj_error r)) by (unfold g; by rewrite Hp).
    apply andb_true_iff in Hp as [Hp _]. unfold is_job in Hp.
    assert (Ej : j1 = g r).
    { apply (NoDup_key_inj rj_id (g <$> l)); [apply Hok|done|done|]. rewrite Eg. cbn [with_job rj_id]. lia. }
    rewrite Ej, Eg in Ec |- *. by split_and!.
Qed.

Lemma claim_needs_a_queued_row id now l :
  (forall j, j ∈ l -> rj_id j = id -> rj_status j <> JQueued) -> is_ok (claim_restore_job id now l).1 = false.
Proof.
  intros H. unfold claim_restore_job, mark_running, update_jobs. destruct (forallb _ l); [|done].
  rewrite filter_none; [done|]. intros j Hj. apply andb_false_iff. unfold is_job, has_job_status.
  destruct (Z.eqb_spec (rj_id j) id); [right; by apply bool_decide_eq_false, H|by left].
Qed.


(** Whatever happens to the queue: the checks and indexes of the table hold, at most one restore of
    a run is waiting or running, and a closed row never changes again but for the name of a safety
    backup that is deleted. *)
Theorem closed_restores_are_final (before after : list job_event) :
  let l := job_steps before [] in
  jobs_ok l
  /\ forall j j', j ∈ l -> is_terminal (rj_status j) = true -> (forall e, e ∈ after -> queued_id e <> Some (rj_id j)) ->
       j' ∈ job_steps after l -> rj_id j' = rj_id j ->
       rj_status j' = rj_status j /\ rj_cancel_requested j' = rj_cancel_requested j /\ rj_started_at j' = rj_started_at j
       /\ rj_finished_at j' = rj_finished_at j /\ rj_result j' = rj_result j /\ rj_error j' = rj_error j.
Proof.
  assert (Hl : jobs_ok (job_steps before [])).
  { apply steps_move. split; [apply NoDup_nil_2|by intros j ?%elem_of_nil|apply NoDup_nil_2]. }
  cbv zeta. split; [done|]. intros j j' Hj Ht Hids Hj' Eid. destruct (steps_move after _ Hl) as [_ Hrows].
  destruct (Hrows j' Hj') as [(j0 & Hj0 & Hm)|(e & He & Hq)]; [|by destruct (Hids e He); rewrite Hq, Eid].
  replace j with j0 in Ht |- *; [by apply (mv_closed _ _ Hm)|]. destruct (mv_same _ _ Hm) as (Ei & _).
  apply (NoDup_key_inj rj_id (job_steps before [])); [apply Hl|done|done|congruence].
Qed.

(** ** The worker *)

Definition QUEUE_MAX_AGE_MINUTES : Z := 60.
Definition UNPRICED : str := s!"the live media library could not be compared with this archive, so the restore refuses to price itself. Nothing was changed.".

(** The queue and the site its restores write to. *)
Record queue_state := QueueState { qs_jobs : list restore_job; qs_site : site_state }.

Section Worker.
Context `{J : JsonNumber, A : Aead, U : Uuids, F : FileSystem, O : ObjectStore}.
Context (sha256_bytes : list Z -> str) (pretty : value -> list Z) (index_bytes : media_index -> list Z).
Context (read_env : str -> option str).
Context (settings_at : reading -> result backup_settings str) (drawn : str -> list Z * list Z) (now_at : str -> Z).
Context (json_text : value -> str) (sha256_text : str -> str) (date_text : Z -> str).
Context (from_slice : list Z -> option media_index) (instant_text : Z -> str).

Definition fail_job (id now : Z) (reason : str) (q : queue_state) : result unit backup_error * queue_state :=
  match finish_restore_job id now false None None (Some reason) (qs_jobs q) with
  | Err e => (Err e, q)
  | Ok (_, l) => (Ok tt, QueueState l (qs_site q))
  end.
Definition others (events : list job_event) (q : queue_state) : queue_state :=
  QueueState (job_steps events (qs_jobs q)) (qs_site q).

Definition phrase_reason (expected : str) : str :=
  s!"this run's confirmation phrase is " ++ expected
  ++ s!" and the queued restore carried a different one, so it was not run. Queue it again from the preview.".
Definition gone_reason : str :=
  s!"this run stopped being restorable while the restore was queued " ++ em_dash
  ++ s!" an artifact could not be re-read. Nothing was written.".

(** What happens once the plan stands: the safety backup, the objects, the outcome.  The texts of
    the errors are left out of the reasons. *)
Definition restore_claimed (o : occasion) (job : restore_job) (row : backup) (settings : backup_settings) (preview : restore_preview)
  (q : queue_state) : result unit backup_error * queue_state :=
  let id := rj_id job in
  match safety_of sha256_bytes pretty index_bytes read_env settings_at drawn now_at json_text sha256_text date_text instant_text
          o (rj_organization_id job) (default (default 0 (bk_created_by row)) (rj_created_by job)) row (qs_site q) with
  | Err _ => fail_job id (oc_rearmed o) s!"the safety backup could not be taken" q
  | Ok (safety, w) =>
      let s := SiteState w (ss_library (qs_site q)) (ss_events (qs_site q)) in
      let q := QueueState (qs_jobs q) s in
      if negb (sb_complete safety)
      then fail_job id (oc_rearmed o) s!"the safety backup could not be completed, so nothing was restored" q
      else
        match (if existsb (fun p => str_eqb (rp_part p) s!"media" && rp_available p) (pv_parts preview)
               then restore_media_part sha256_bytes from_slice row settings (rj_organization_id job) (pf_sites (oc_platform o))
                      (oc_rearmed o) s
               else (Ok no_restores, s)) with
        | (Err _, s) => fail_job id (oc_rearmed o) s!"the media part could not be restored" (QueueState (qs_jobs q) s)
        | (Ok media, s) =>
            let restored := rp_part <$> List.filter (fun p => rp_available p && negb (str_eqb (rp_part p) s!"media"))
                                          (pv_parts preview) in
            let outcome := JobOutcome (bk_id row) (rp_part <$> pv_parts preview) restored media (sb_backup_id safety) in
            match finish_restore_job id (oc_rearmed o) true (Some (sb_backup_id safety)) (Some outcome) None (qs_jobs q) with
            | Err e => (Err e, QueueState (qs_jobs q) s)
            | Ok (_, l) => (Ok tt, QueueState l s)
            end
        end
  end.

(** [run_one]: [early] and [late] are the statements of others on the queue between the claim and
    the check of the flag, and from there to the outcome. *)
Definition run_one (o : occasion) (read_settings : result backup_settings backup_error) (live : live_side)
  (early late : list job_event) (id : Z) (q : queue_state) : result unit backup_error * queue_state :=
  let '(claimed, l) := claim_restore_job id (oc_started o) (qs_jobs q) in
  let q := QueueState l (qs_site q) in
  match claimed with
  | Err JobUnavailable => fail_job id (oc_started o) s!"the restore could not be queued" q
  | Err _ => (Ok tt, q)
  | Ok job =>
      let q := others early q in
      if cancel_was_requested id (qs_jobs q) then
        match abort_restore_job id (oc_started o) cancelled_reason (qs_jobs q) with
        | Err e => (Err e, q)
        | Ok (_, l) => (Ok tt, QueueState l (qs_site q))
        end
      else
        let q := others late q in
        match find_backup (rj_backup_id job) (rj_organization_id job) (ds_store (ss_world (qs_site q))), read_settings with
        | Err e, _ | _, Err e => (Err e, q)
        | Ok row, Ok settings =>
            let expected := confirm_phrase sha256_text (uuid_text (bk_id row)) in
            if negb (str_eqb (rj_confirmation job) expected)
            then fail_job id (oc_started o) (phrase_reason expected) q
            else
              let priced := rebuild_preview sha256_bytes sha256_text from_slice instant_text row settings (oc_started o)
                              (ds_disk (ss_world (qs_site q)))
                              (live_now (oc_platform o) live (ss_library (qs_site q))) in
              if pp_live_comparison_failed priced then fail_job id (oc_started o) UNPRICED q
              else if negb (pv_restorable (pp_preview priced)) then fail_job id (oc_started o) gone_reason q
              else restore_claimed o job row settings (pp_preview priced) q
        end
  end.

(** [POST /api/v1/backups/{id}/restore-queue]. *)
Inductive queue_error :=
  | QueueRow (e : backup_error) | QueueUnpriced | NotRestorable | WrongPhrase | QueueUnknownPart (name : str)
  | PartNotInRun (name : str) | NothingSelected | QueueDatabase | QueueJob (e : job_error).
Definition queue_route (fresh now : Z) (organization : option Z) (actor : Z) (read_settings : result backup_settings backup_error)
  (live : live_side) (id : Z) (parts : list str) (confirmation : str) (q : queue_state) : result restore_job queue_error * queue_state :=
  match find_backup id organization (ds_store (ss_world (qs_site q))), read_settings with
  | Err e, _ | _, Err e => (Err (QueueRow e), q)
  | Ok row, Ok settings =>
      let priced := rebuild_preview sha256_bytes sha256_text from_slice instant_text row settings now
                      (ds_disk (ss_world (qs_site q))) live in
      let preview := pp_preview priced in
      let known := available_parts preview in
      if pp_live_comparison_failed priced then (Err QueueUnpriced, q)
      else if negb (pv_restorable preview) then (Err NotRestorable, q)
      else if negb (Backups.accepts preview confirmation) then (Err WrongPhrase, q)
      else
        match List.find (fun part => negb (known_part part && asks known part)) parts with
        | Some part => (Err (if negb (known_part part) then QueueUnknownPart part else PartNotInRun part), q)
        | None =>
            if bool_decide (parts = []) then (Err NothingSelected, q)
            else if asks parts s!"database" then (Err QueueDatabase, q)
            else
              match queue_restore fresh now
                      (NewRestoreJob organization id parts confirmation (pv_total_live_dropped preview)
                         (pv_total_live_matches preview) (Some actor)) (qs_jobs q) with
              | Err e => (Err (QueueJob e), q)
              | Ok (job, l) => (Ok job, QueueState l (qs_site q))
              end
        end
  end.

Fixpoint run_jobs (occasions : Z -> occasion) (read_settings : result backup_settings backup_error) (live : live_side)
  (jobs : list restore_job) (finished : nat) (q : queue_state) : nat * queue_state :=
  match jobs with
  | [] => (finished, q)
  | j :: rest =>
      let '(_, q) := run_one (occasions (rj_id j)) read_settings live [] [] (rj_id j) q in
      run_jobs occasions read_settings live rest (S finished) q
  end.
Definition tick (occasions : Z -> occasion) (read_settings : result backup_settings backup_error) (live : live_side) (now : Z)
  (q : queue_state) : result nat backup_error * queue_state :=
  let '(swept, l) := fail_stale_restore_jobs QUEUE_MAX_AGE_MINUTES now (qs_jobs q) in
  let q := QueueState l (qs_site q) in
  match swept with
  | Err e => (Err e, q)
  | Ok _ => let '(n, q) := run_jobs occasions read_settings live (all_queued_restore_jobs l) 0 q in (Ok n, q)
  end.
End Worker.

(** ** What a worker leaves *)

Lemma kept_row p f l j : p j = false -> j ∈ l -> j ∈ kept l (update_jobs p f l).
Proof.
  intros Hp Hj. unfold update_jobs. destruct (forallb _ l); [|done]. cbn [kept]. apply list_elem_of_fmap. exists j. by rewrite Hp.
Qed.

(** A statement that neither ends this job nor deletes a run. *)
Definition leaves_job (id : Z) (e : job_event) : bool :=
  match e with
  | EvFinish other _ _ _ _ _ | EvStopStale other _ _ _ => negb (other =? id)
  | EvForgetRun _ => false
  | _ => true
  end.

Lemma step_keeps e l j : rj_status j = JRunning -> rj_cancel_requested j = false -> leaves_job (rj_id j) e = true -> j ∈ l ->
  j ∈ job_step e l.
Proof.
  intros Hs Hc He Hj. destruct e as [id now new|id|id now reason|id now|id now reason|id now ok safety out err|id now wr mins|id];
    cbn [job_step leaves_job] in *;
    try (apply kept_row; [|done]; unfold is_job, has_job_status; rewrite Hs, ?Hc, ?andb_false_r; try done; lia); [|done].
  destruct (existsb _ l); [done|]. unfold queue_restore. destruct (bool_decide _); [done|]. destruct (existsb _ _); [done|].
  destruct (schema_job _); [|done]. destruct (List.find _ l); [done|]. apply elem_of_app. by left.
Qed.
Lemma steps_keep events : forall l j, rj_status j = JRunning -> rj_cancel_requested j = false ->
  forallb (leaves_job (rj_id j)) events = true -> j ∈ l -> j ∈ job_steps events l.
Proof.
  induction events as [|e events IH]; intros l j Hs Hc He Hj; [done|]. cbn [forallb] in He. apply andb_true_iff in He as [He Hes].
  apply IH; try done. by apply step_keeps.
Qed.

(** A reason that starts with a visible character is not blank. *)
Lemma visible_reason c r : N.eqb c!" " c = false -> (0 <? length (btrim (c :: r)))%nat = true.
Proof.
  unfold btrim. generalize (N.eqb c!" "). intros f Hc. cbn [trim_start_by]. rewrite Hc. unfold trim_end_by.
  rewrite length_rev. cbn [rev]. apply Nat.ltb_lt.
  assert (H : forall l, (0 < length (trim_start_by f (l ++ [c])))%nat); [|apply H].
  induction l as [|x l IH]; simpl; [rewrite Hc; simpl; lia|]. destruct (f x); [exact IH|simpl; lia].
Qed.

(** Ending a running job with an outcome or a reason is a statement the table accepts. *)
Lemma finish_row id now succeeded safety outcome error l j :
  jobs_ok l -> j ∈ l -> rj_id j = id -> rj_status j = JRunning ->
  (if succeeded : bool then is_given outcome && is_given safety else (0 <? length (btrim (default [] error)))%nat) = true ->
  exists n l', finish_restore_job id now succeeded safety outcome error l = Ok (n, l')
    /\ with_job j (if succeeded then JSucceeded else JFailed) (rj_cancel_requested j) (rj_started_at j) (Some now) safety outcome error
       ∈ l'.
Proof.
  intros Hl Hj Hid Hs Hok. unfold finish_restore_job, update_jobs.
  match goal with |- context [forallb ?t l] => assert (E : forallb t l = true) end.
  { apply forallb_elem. intros x Hx. unfold is_job, has_job_status.
    destruct (Z.eqb_spec (rj_id x) id) as [Ex|]; [|done]. destruct (bool_decide_reflect (rj_status x = JRunning)) as [Er|]; [|done].
    cbn [andb negb orb]. pose proof (jk_rows _ Hl x Hx) as Hsc. unfold schema_job, job_shape_ok in Hsc |- *. rewrite Er in Hsc.
    apply andb_true_iff in Hsc as [[Hst _]%andb_true_iff Hp]. cbn [rj_status with_job rj_parts]. rewrite Hp, andb_true_r.
    destruct succeeded; cbn [rj_started_at rj_finished_at rj_result rj_safety_backup_id rj_error with_job is_given];
      rewrite Hst; [by apply andb_true_iff in Hok as [-> ->]|done]. }
  rewrite E. eexists _, _. split; [reflexivity|]. apply list_elem_of_fmap. exists j. unfold is_job, has_job_status.
  by rewrite Hid, Hs, Z.eqb_refl, bool_decide_true.
Qed.

Section Settles.
Context `{J : JsonNumber, A : Aead, U : Uuids, F : FileSystem, O : ObjectStore, UL : !UuidLaws U}.
Context (sha256_bytes : list Z -> str) (pretty : value -> list Z) (index_bytes : media_index -> list Z).
Context (read_env : str -> option str).
Context (settings_at : reading -> result backup_settings str) (drawn : str -> list Z * list Z) (now_at : str -> Z).
Context (json_text : value -> str) (sha256_text : str -> str) (date_text : Z -> str).
Context (from_slice : list Z -> option media_index) (instant_text : Z -> str) (settings : backup_settings).
(** A reading of the settings may fail; whenever one succeeds, these are the settings. *)
Hypothesis Hsettings : forall r st, settings_at r = Ok st -> st = settings.
Abbreviation runs_one := (run_one sha256_bytes pretty index_bytes read_env settings_at drawn now_at json_text sha256_text date_text
  from_slice instant_text).
Abbreviation restores_claimed := (restore_claimed sha256_bytes pretty index_bytes read_env settings_at drawn now_at json_text
  sha256_text date_text from_slice instant_text).

(** How a job ends: failed with the library as it was, or succeeded and naming a way back. *)
Definition job_settled (o : occasion) (job : restore_job) (s : site_state) (q : queue_state) : Prop :=
  exists j, j ∈ qs_jobs q /\ rj_id j = rj_id job
    /\ ((rj_status j = JFailed /\ ss_library (qs_site q) = ss_library s)
        \/ (rj_status j = JSucceeded
            /\ exists b, rj_safety_backup_id j = Some (bk_id b)
                 /\ back_to settings (rj_organization_id job) (pf_sites (oc_platform o)) (rj_backup_id job) s (qs_site q) b)).

Lemma fail_settles o job id now reason q s : jobs_ok (qs_jobs q) -> job ∈ qs_jobs q -> rj_id job = id -> rj_status job = JRunning ->
  (0 <? length (btrim reason))%nat = true -> ss_library (qs_site q) = ss_library s ->
  exists q', fail_job id now reason q = (Ok tt, q') /\ job_settled o job s q'.
Proof.
  intros Hl Hj Hid Hs Hreason Hlib. unfold fail_job.
  destruct (finish_row id now false None None (Some reason) (qs_jobs q) job Hl Hj Hid Hs Hreason) as (n & l & -> & Hin).
  eexists. split; [reflexivity|]. eexists. split; [exact Hin|]. split; [done|]. by left.
Qed.

Lemma claimed_settles o job row preview q :
  jobs_ok (qs_jobs q) -> job ∈ qs_jobs q -> rj_status job = JRunning ->
  find_backup (rj_backup_id job) (rj_organization_id job) (ds_store (ss_world (qs_site q))) = Ok row ->
  (forall b, b ∈ st_backups (ds_store (ss_world (qs_site q))) -> bk_id b <> oc_backup_id o /\ run_row_ok b = true) ->
  NoDup (mo_id ∘ mr_object <$> lb_rows (ss_library (qs_site q))) ->
  (forall r, r ∈ lb_rows (ss_library (qs_site q)) -> is_uuid (mo_id (mr_object r))) ->
  exists q', restores_claimed o job row settings preview q = (Ok tt, q') /\ job_settled o job (qs_site q) q'.
Proof.
  intros Hl Hj Hs Ef Hrows Hn Hu. unfold restore_claimed.
  assert (Hrow : row ∈ st_backups (ds_store (ss_world (qs_site q)))).
  { unfold find_backup in Ef. destruct (List.find _ _) as [b|] eqn:E; [|done]. injection Ef as <-.
    apply List.find_some in E as [E _]. by apply list_elem_of_In. }
  apply Hrows in Hrow as [_ [Hscopes Hdest]%andb_true_iff].
  edestruct (safety_spec sha256_bytes pretty index_bytes read_env settings_at drawn now_at json_text sha256_text date_text
    instant_text settings Hsettings o (rj_organization_id job)) as (taken & w & b & -> & Hst & Hid & Hback); try done.
  { intros x Hx. by apply Hrows. }
  set (q1 := QueueState (qs_jobs q) (SiteState w _ _)).
  destruct (sb_complete taken); cbn [negb]; [|by apply fail_settles]. specialize (Hback eq_refl).
  assert (Hdone : forall outcome s', ss_world s' = w ->
    exists n l', finish_restore_job (rj_id job) (oc_rearmed o) true (Some (sb_backup_id taken)) (Some outcome) None (qs_jobs q1) = Ok (n, l')
      /\ job_settled o job (qs_site q) (QueueState l' s')).
  { intros outcome s' Hw. destruct (finish_row (rj_id job) (oc_rearmed o) true (Some (sb_backup_id taken)) (Some outcome) None
      (qs_jobs q) job Hl Hj eq_refl Hs eq_refl) as (n & l' & E & Hin). exists n, l'. split; [exact E|].
    eexists. split; [exact Hin|]. split; [done|]. right. split; [done|]. exists b. split; [cbn; by rewrite Hid|].
    exists row. cbn [qs_site]. rewrite Hw. split; [done|]. split; [|done]. rewrite Hst. apply elem_of_app. right. by left. }
  destruct (existsb (fun p => str_eqb (rp_part p) s!"media" && rp_available p) (pv_parts preview)).
  - unfold restore_media_part. destruct (media_index_keys _ _ _ _) as [objects|].
    + destruct (restore_objects _ _ _ _ _ _ _ _) as [report lib]. cbv zeta. cbn [ss_world ss_events].
      match goal with |- context [Some (JobOutcome ?a ?b0 ?c ?d ?e)] => 
        destruct (Hdone (JobOutcome a b0 c d e) (SiteState w lib (ss_events (qs_site q))) eq_refl) as (n & l' & -> & Hset) end.
      eexists. split; [reflexivity|exact Hset].
    + by apply fail_settles.
  - cbv zeta. match goal with |- context [Some (JobOutcome ?a ?b0 ?c ?d ?e)] => 
      destruct (Hdone (JobOutcome a b0 c d e) (SiteState w (ss_library (qs_site q)) (ss_events (qs_site q))) eq_refl)
        as (n & l' & -> & Hset) end.
    eexists. split; [reflexivity|exact Hset].
Qed.

(** C28. A queued restore that a worker claims, and whose run and settings the worker can look up, is
    brought to its end: it ends failed with the live library untouched, or succeeded and naming the
    protected run that takes the library back to what it was.  Between the claim and the outcome the
    routes and the other workers may do anything to the queue except sweep or finish this job or
    delete a run; the media may not be listed, an object or a part of the safety backup not be copied,
    a later reading of the settings fail.  Without the lookup the job is left running
    ([failed_lookup_leaves_the_job_running]); a sweep may end it under its worker
    ([running_restore_is_marked_failed]).  As in [restore_leaves_a_way_back] the safety run's id is
    fresh and the rows of the runs and of the library satisfy the checks of their tables. *)
Theorem queued_restore_settles (o : occasion) (live : live_side) (early late : list job_event) (id : Z) (q : queue_state)
  (job : restore_job) (row : backup) :
  jobs_ok (qs_jobs q) -> (claim_restore_job id (oc_started o) (qs_jobs q)).1 = Ok job ->
  forallb (leaves_job id) early = true -> forallb (leaves_job id) late = true ->
  find_backup (rj_backup_id job) (rj_organization_id job) (ds_store (ss_world (qs_site q))) = Ok row ->
  (forall b, b ∈ st_backups (ds_store (ss_world (qs_site q))) -> bk_id b <> oc_backup_id o /\ run_row_ok b = true) ->
  NoDup (mo_id ∘ mr_object <$> lb_rows (ss_library (qs_site q))) ->
  (forall r, r ∈ lb_rows (ss_library (qs_site q)) -> is_uuid (mo_id (mr_object r))) ->
  exists q', runs_one o (Ok settings) live early late id q = (Ok tt, q') /\ job_settled o job (qs_site q) q'.
Proof.
  intros Hl Hc Hearly Hlate Hfind Hrows Hn Hu. unfold run_one.
  destruct (claim_restore_job id (oc_started o) (qs_jobs q)) as [claimed l] eqn:Ec. cbn [fst] in Hc. subst claimed.
  destruct (claim_spec _ _ _ _ _ Hl Ec) as (Hl1 & Hj & Hid & Hs & Hcancel & _).
  assert (Hj2 : job ∈ job_steps early l) by (apply steps_keep; try done; by rewrite Hid).
  assert (Hj3 : job ∈ job_steps late (job_steps early l)) by (apply steps_keep; try done; by rewrite Hid).
  destruct (steps_move early l Hl1) as [Hl2 _]. destruct (steps_move late _ Hl2) as [Hl3 _].
  cbn [others qs_jobs qs_site]. unfold cancel_was_requested.
  pose proof (read_job_elem _ _ (jk_ids _ Hl2) Hj2) as Hread. rewrite Hid in Hread. rewrite Hread, Hcancel. cbv iota. rewrite Hfind.
  set (q3 := QueueState (job_steps late (job_steps early l)) (qs_site q)).
  assert (Hfail : forall reason, (0 <? length (btrim reason))%nat = true ->
            exists q', fail_job id (oc_started o) reason q3 = (Ok tt, q') /\ job_settled o job (qs_site q) q')
    by (intros reason Hr; by apply fail_settles).
  destruct (negb (str_eqb _ _)); [by apply Hfail, visible_reason|]. destruct (pp_live_comparison_failed _); [by apply Hfail|].
  destruct (negb (pv_restorable _)); [by apply Hfail|].
  by apply (claimed_settles o job row _ q3).
Qed.
End Settles.

(** ** The answer to a cancel *)

(** A statement that finds one row and keeps its checks changes that row. *)
Lemma update_own p f l j : jobs_ok l -> j ∈ l -> p j = true -> (forall x, x ∈ l -> p x = true -> x = j) ->
  schema_job (f j) = true ->
  exists n l', update_jobs p f l = Ok (S n, l') /\ f j ∈ l' /\ forall x, x ∈ l -> x <> j -> x ∈ l'.
Proof.
  intros Hl Hj Hp Hone Hs. unfold update_jobs.
  replace (forallb _ l) with true.
  - destruct (List.filter p l) as [|y r] eqn:Ef.
    { assert (H : j ∈ List.filter p l) by by apply elem_of_filter_bool. rewrite Ef in H. by apply elem_of_nil in H. }
    exists (length r). eexists. split; [reflexivity|]. split; [apply list_elem_of_fmap; exists j; by rewrite Hp|].
    intros x Hx Hne. apply list_elem_of_fmap. exists x. destruct (p x) eqn:E; [|done]. by destruct (Hne (Hone x Hx E)).
  - symmetry. apply forallb_elem. intros x Hx. destruct (p x) eqn:E; [|done]. by rewrite (Hone x Hx E).
Qed.

Lemma own_row l j x : jobs_ok l -> j ∈ l -> x ∈ l -> is_job (rj_id j) x = true -> x = j.
Proof. intros Hl Hj Hx E. apply (NoDup_key_inj rj_id l); [apply Hl|done|done|]. unfold is_job in E. lia. Qed.

Lemma find_owned_job l j : jobs_ok l -> j ∈ l -> find_restore_job (rj_id j) (rj_organization_id j) l = Ok j.
Proof.
  intros Hl Hj. unfold find_restore_job. destruct (List.find _ l) as [x|] eqn:E.
  - apply List.find_some in E as [Hx E]. apply list_elem_of_In in Hx. unfold owned_job in E. apply andb_true_iff in E as [E _].
    by rewrite (own_row l j x).
  - pose proof (find_exists (owned_job (rj_id j) (rj_organization_id j)) l) as H. rewrite E in H. symmetry in H.
    apply not_true_iff_false in H. exfalso. apply H, existsb_elem. exists j. split; [done|]. unfold owned_job, is_job.
    by rewrite Z.eqb_refl, bool_decide_true.
Qed.

(** A cancel is answered with what it did: a waiting job is aborted at once, with its row as the
    answer and no other row touched; any other job is refused by name and nothing changes. *)
Theorem cancel_answers_what_it_did (l : list restore_job) (j : restore_job) (now : Z) :
  jobs_ok l -> j ∈ l ->
  let '(answer, l') := cancel_job (rj_id j) (rj_organization_id j) now l in
  if is_cancellable (rj_status j) then
    exists j', answer = Ok j' /\ j' ∈ l' /\ rj_id j' = rj_id j /\ rj_status j' = JAborted /\ rj_started_at j' = None
      /\ rj_cancel_requested j' = true /\ rj_finished_at j' = Some now
      /\ forall x, x ∈ l -> rj_id x <> rj_id j -> x ∈ l'
  else answer = Err (CancelRefused (job_status_as_str (rj_status j))) /\ l' = l.
Proof.
  intros Hl Hj. unfold cancel_job. rewrite (find_owned_job l j Hl Hj). unfold has_job_status at 1.
  destruct (is_cancellable (rj_status j)) eqn:Es; [|by destruct (rj_status j)].
  assert (Eq : rj_status j = JQueued) by by destruct (rj_status j). rewrite Eq, bool_decide_true by done. cbn [negb].
  pose proof (jk_rows l Hl j Hj) as Hsc. unfold schema_job, job_shape_ok in Hsc. rewrite Eq in Hsc.
  apply andb_true_iff in Hsc as [[Hst Hfi]%andb_true_iff Hparts].
  set (f1 := fun j => with_job j (rj_status j) true (rj_started_at j) (rj_finished_at j) (rj_safety_backup_id j) (rj_result j) (rj_error j)).
  destruct (update_own (fun x => is_job (rj_id j) x && has_job_status JQueued x) f1 l j Hl Hj) as (n & l1 & E1 & Hj1 & Hx1).
  { unfold is_job, has_job_status. by rewrite Z.eqb_refl, bool_decide_true. }
  { intros x Hx [Ex _]%andb_true_iff. by apply (own_row l). }
  { unfold schema_job, job_shape_ok, f1. cbn. by rewrite Eq, Hst, Hfi, Hparts. }
  pose proof (request_moves (rj_id j) l Hl) as [Hl1 _]. unfold request_restore_cancel in Hl1 |- *. fold f1 in Hl1 |- *.
  rewrite E1 in Hl1 |- *. cbn [kept] in Hl1. unfold settle_restore_cancel.
  set (f2 := fun j => with_job j JAborted (rj_cancel_requested j) (rj_started_at j) (Some now) (rj_safety_backup_id j) (rj_result j)
                        (Some cancelled_reason)).
  destruct (update_own (fun x => is_job (rj_id j) x && has_job_status JQueued x && rj_cancel_requested x) f2 l1 (f1 j) Hl1 Hj1)
    as (n2 & l2 & E2 & Hj2 & Hx2).
  { unfold is_job, has_job_status, f1. cbn. by rewrite Eq, Z.eqb_refl, bool_decide_true. }
  { intros x Hx [[Ex _]%andb_true_iff _]%andb_true_iff. by apply (own_row l1). }
  { unfold schema_job, job_shape_ok, f2, f1. cbn. by rewrite Hst, Hparts. }
  rewrite E2. pose proof (settle_moves (rj_id j) now cancelled_reason l1 Hl1) as [Hl2 _]. unfold settle_restore_cancel in Hl2.
  fold f2 in Hl2. rewrite E2 in Hl2. cbn [kept] in Hl2.
  change (rj_id j) with (rj_id (f2 (f1 j))). change (rj_organization_id j) with (rj_organization_id (f2 (f1 j))).
  rewrite (find_owned_job l2 (f2 (f1 j)) Hl2 Hj2). exists (f2 (f1 j)). do 4 (split; [done|]).
  split; [cbn; by destruct (rj_started_at j)|]. do 2 (split; [done|]). intros x Hx Hne. apply Hx2.
  - apply Hx1; [done|]. intros ->. by apply Hne.
  - intros ->. by apply Hne.
Qed.

(** ** What the queue does not keep *)

(** The runs that succeeded restores name as their way back cannot be deleted: taking the name off
    the job would leave a succeeded one without it, which the table refuses, after the route has
    removed the files. *)
Theorem safety_run_cannot_be_deleted (l : list restore_job) (j : restore_job) (b : Z) :
  j ∈ l -> rj_status j = JSucceeded -> rj_safety_backup_id j = Some b -> rj_backup_id j <> b ->
  forget_run b l = Err BackupDatabase.
Proof.
  intros Hj Hs Hb Hne. unfold forget_run, update_jobs. destruct (forallb _ _) eqn:E; [|done]. exfalso.
  apply (proj1 (forallb_elem _ _)) with (x := j) in E.
  - rewrite Hb, bool_decide_true in E by done. unfold schema_job, job_shape_ok in E. cbn in E. rewrite Hs in E.
    by rewrite andb_false_r in E.
  - apply elem_of_filter_bool. split; [done|]. by rewrite (proj2 (Z.eqb_neq _ _) Hne).
Qed.

(** A job that was waiting when the sweep read it and is claimed before the sweep writes makes that
    write an error, which ends the tick of the worker. *)
Theorem late_claim_fails_the_sweep (l : list restore_job) (j : restore_job) (now minutes : Z) :
  jobs_ok l -> j ∈ l -> rj_status j = JRunning -> stop_stale (rj_id j) now false minutes l = Err BackupDatabase.
Proof.
  intros Hl Hj Hs. unfold stop_stale, update_jobs. destruct (forallb _ _) eqn:E; [|done]. exfalso.
  apply (proj1 (forallb_elem _ _)) with (x := j) in E; [|done]. unfold is_job in E. rewrite Hs, Z.eqb_refl in E.
  pose proof (jk_rows l Hl j Hj) as Hsc. unfold schema_job, job_shape_ok in E, Hsc. rewrite Hs in Hsc.
  apply andb_true_iff in Hsc as [[Hst _]%andb_true_iff _]. cbn in E. by rewrite Hst in E.
Qed.

(** ** A queue to evaluate on *)

Definition sample_queue (parts : list str) : list restore_job :=
  job_steps [EvQueue 21 500 (NewRestoreJob (Some 5) 7 parts s!"RESTORE a1b2c3d4" 0 2 (Some 77))] [].
Definition sample_run_one (read_settings : result backup_settings backup_error) (early late : list job_event) (q : queue_state) :
  result unit backup_error * queue_state :=
  run_one (J := Z_number) (A := tagging) (F := plain_disk) (O := plain_store) digest braces braces sample_env
    (fun _ => Ok plain_settings) sample_drawn (fun _ => 1) (fun _ => []) sample_sha sample_date
    (fun _ => Some source_index) show_Z restore_occasion read_settings sample_live early late 21 q.

Lemma sample_queue_ok parts : jobs_ok (sample_queue parts).
Proof. apply steps_move. split; [apply NoDup_nil_2|by intros j ?%elem_of_nil|apply NoDup_nil_2]. Qed.

(** The parts that were ticked are stored with the job and never read by the worker: a job queued
    for the themes restores the media, whose bytes it overwrites. *)
Theorem worker_ignores_the_selection :
  let q := QueueState (sample_queue [s!"themes"]) whole_site in
  match sample_run_one (Ok plain_settings) [] [] q with
  | (Ok _, q') => (fun j => (rj_parts j, rr_objects_restored <$> (jo_media <$> rj_result j))) <$> qs_jobs q'
                  = [([s!"themes"], Some 2)]
  | _ => False
  end.
Proof. vm_compute. reflexivity. Qed.

(** Settings that cannot be read leave a claimed job running, although every way out is said to
    write the row; only the sweep of an hour later ends it. *)
Theorem failed_lookup_leaves_the_job_running :
  let q := QueueState (sample_queue [s!"media"]) whole_site in
  match sample_run_one (Err BackupDatabase) [] [] q with
  | (Err _, q') => rj_status <$> qs_jobs q' = [JRunning]
  | _ => False
  end.
Proof. vm_compute. reflexivity. Qed.

(** The age of a running job counts from when it was queued: a restore claimed after fifty-nine
    minutes is marked failed two minutes later while its worker writes, and the run accepts a second
    restore at once. *)
Theorem running_restore_is_marked_failed :
  let minute := NANOS_PER_MINUTE in
  let l := job_steps [EvQueue 21 0 (NewRestoreJob (Some 5) 7 [s!"media"] [] 0 0 None); EvMarkRunning 21 (59 * minute)] [] in
  match fail_stale_restore_jobs QUEUE_MAX_AGE_MINUTES (61 * minute) l with
  | (Ok _, l') => rj_status <$> l' = [JFailed] /\ rj_safety_backup_id <$> l' = [None]
                  /\ rj_status <$> job_steps [EvQueue 22 (61 * minute) (NewRestoreJob (Some 5) 7 [s!"media"] [] 0 0 None)] l'
                     = [JFailed; JQueued]
  | _ => False
  end.
Proof. vm_compute. by split_and!. Qed.


Lemma cancel_answers_what_it_did_witness :
  let l := sample_queue [s!"media"] in
  exists j', (cancel_job 21 (Some 5) 60 l).1 = Ok j' /\ rj_status j' = JAborted.
Proof.
  destruct (sample_queue [s!"media"]) as [|j rest] eqn:E; [vm_compute in E; discriminate E|].
  assert (Hj : j ∈ sample_queue [s!"media"]) by (rewrite E; by left).
  pose proof (cancel_answers_what_it_did (sample_queue [s!"media"]) j 60 (sample_queue_ok _) Hj) as H.
  assert (Ej : match sample_queue [s!"media"] with j :: _ => (rj_id j, rj_organization_id j, rj_status j) | [] => (0, None, JFailed) end
               = (21, Some 5, JQueued)) by (vm_compute; reflexivity).
  rewrite E in Ej. injection Ej as E1 E2 E3. rewrite E1, E2, E3 in H. rewrite E in H.
  cbv zeta. destruct (cancel_job 21 (Some 5) 60 (j :: rest)) as [answer l']. destruct H as (j' & -> & _ & _ & Hs & _).
  exists j'. by split.
Defined.

Lemma queued_restore_settles_witness :
  exists job q', (claim_restore_job 21 1000 (sample_queue [s!"media"])).1 = Ok job
    /\ sample_run_one (Ok plain_settings) [EvRequestCancel 21] [EvMarkRunning 21 1001] (QueueState (sample_queue [s!"media"]) whole_site)
       = (Ok tt, q')
    /\ job_settled plain_settings restore_occasion job whole_site q'.
Proof.
  destruct (claim_restore_job 21 1000 (sample_queue [s!"media"])) as [claimed l'] eqn:E.
  assert (Hok : is_ok claimed = true).
  { apply (f_equal (fun r => is_ok r.1)) in E. cbn [fst] in E. rewrite <- E. vm_compute. reflexivity. }
  destruct claimed as [job|]; [|discriminate Hok]. exists job.
  assert (Hjob : match (claim_restore_job 21 1000 (sample_queue [s!"media"])).1 with
                 | Ok j => (rj_backup_id j, rj_organization_id j) | Err _ => (0, None) end = (7, Some 5)) by (vm_compute; reflexivity).
  rewrite E in Hjob. cbn [fst] in Hjob. injection Hjob as Hb Ho.
  destruct (find_backup 7 (Some 5) (ds_store source_world)) as [row|] eqn:Ef.
  - destruct (queued_restore_settles (J := Z_number) (A := tagging) (F := plain_disk) (O := plain_store) digest braces braces sample_env
      (fun _ => Ok plain_settings) sample_drawn (fun _ => 1) (fun _ => []) sample_sha sample_date (fun _ => Some source_index) show_Z
      plain_settings ltac:(by intros ? ? [= <-]) restore_occasion sample_live [EvRequestCancel 21] [EvMarkRunning 21 1001] 21
      (QueueState (sample_queue [s!"media"]) whole_site) job row) as (q' & Hq & Hset).
    + apply sample_queue_ok.
    + cbn [oc_started restore_occasion qs_jobs]. by rewrite E.
    + reflexivity.
    + reflexivity.
    + rewrite Hb, Ho. exact Ef.
    + exact source_runs_ok.
    + by_compute.
    + exact sample_rows_uuids.
    + exists q'. split; [reflexivity|]. split; [exact Hq|exact Hset].
  - exfalso. assert (Hf : is_ok (find_backup 7 (Some 5) (ds_store source_world)) = true) by (vm_compute; reflexivity).
    rewrite Ef in Hf. discriminate Hf.
Defined.

Lemma closed_restores_are_final_witness :
  let l := job_steps [EvQueue 21 500 (NewRestoreJob (Some 5) 7 [s!"media"] [] 0 0 None); EvRequestCancel 21;
                      EvSettleCancel 21 510 cancelled_reason] [] in
  jobs_ok l /\ rj_status <$> l = [JAborted] /\ rj_status <$> job_steps [EvMarkRunning 21 520] l = [JAborted].
Proof.
  split; [|split; vm_compute; reflexivity].
  apply (closed_restores_are_final [EvQueue 21 500 (NewRestoreJob (Some 5) 7 [s!"media"] [] 0 0 None); EvRequestCancel 21;
           EvSettleCancel 21 510 cancelled_reason] [EvMarkRunning 21 520]).
Defined.
