(* ===== verification/Validators.v ===== *)
(** * Conditional requests: [crates/media/src/validators.rs]

    Entity tags, the comparison of a caller's tags and dates with the current representation, and
    the three spellings of an HTTP date.  Instants are nanoseconds since the epoch; the dates are
    those of the [time] crate, through the calendar of [Cron] and [CivilDates]. *)

From S2P Require Import Prelude Cron.

(** ** Dates of the [time] crate

    [cd_from] is [Date::from_calendar_date]: nothing for a day the month does not have or a year
    out of range. *)
Class CivilDates := {
  cd_year : Z -> Z;
  cd_from : Z -> N -> N -> option Z
}.

Class CivilDatesLaws (C : Calendar) (D : CivilDates) : Prop := {
  cd_month_bounds d : (1 <= cal_month d <= 12)%N;
  cd_day_bounds d : (1 <= cal_day d <= 31)%N;
  cd_weekday_bounds d : (cal_weekday d <= 6)%N;
  cd_reads_back d : 0 <= cd_year d <= 9999 -> cd_from (cd_year d) (cal_month d) (cal_day d) = Some d
}.

Definition NANOS_PER_SECOND : Z := 1000000000.
(** [unix_timestamp], and the clock of an instant. *)
Definition unix_timestamp (i : Z) : Z := i / NANOS_PER_SECOND.
Definition second_of_day (i : Z) : Z := i mod NANOS_PER_DAY / NANOS_PER_SECOND.
Definition hour_of (i : Z) : N := Z.to_N (second_of_day i / 3600).
Definition minute_of (i : Z) : N := Z.to_N (second_of_day i / 60 mod 60).
Definition second_of (i : Z) : N := Z.to_N (second_of_day i mod 60).
(** [OffsetDateTime::new_utc(date, time)]. *)
Definition instant_at (date : Z) (hour minute second : N) : Z :=
  date * NANOS_PER_DAY + Z.of_N (hour * 3600 + minute * 60 + second) * NANOS_PER_SECOND.

(** ** Entity tags *)

Definition QUOTE : char := 34%N.
Definition WEAK : str := s!"W/".

Definition etag_of (checksum : str) : str := QUOTE :: checksum ++ [QUOTE].
Definition weak_etag_of (checksum : str) : str := WEAK ++ QUOTE :: checksum ++ [QUOTE].

Definition strip_suffix (s suffix : str) : option str :=
  if ends_with s suffix then Some (take (length s - length suffix) s) else None.

Definition tag_value (tag : str) : str :=
  let trimmed := trim tag in
  let without_prefix := default trimmed (strip_prefix trimmed WEAK) in
  default without_prefix
    (rest ← strip_prefix without_prefix [QUOTE]; strip_suffix rest [QUOTE]).

(** [header.map(str::trim).filter(|value| !value.is_empty())] *)
Definition given_text (header : option str) : option str :=
  raw ← trim <$> header; if bool_decide (raw = []) then None else Some raw.

Definition candidate_holds (current_raw candidate : str) : bool :=
  let candidate := trim candidate in
  if bool_decide (candidate = []) then false
  else if str_eqb candidate s!"*" then true
  else str_eqb (tag_value candidate) current_raw.

Definition if_none_match_holds (header : option str) (current : str) : bool :=
  match given_text header with
  | None => false
  | Some raw =>
      if str_eqb raw s!"*" then true
      else existsb (candidate_holds (tag_value current)) (split_on c!"," raw)
  end.

(** ** HTTP dates *)

Definition MONTH_ABBREVIATIONS : list str :=
  [s!"Jan"; s!"Feb"; s!"Mar"; s!"Apr"; s!"May"; s!"Jun"; s!"Jul"; s!"Aug"; s!"Sep"; s!"Oct"; s!"Nov"; s!"Dec"].
Definition WEEKDAY_ABBREVIATIONS : list str :=
  [s!"Sun"; s!"Mon"; s!"Tue"; s!"Wed"; s!"Thu"; s!"Fri"; s!"Sat"].

Definition windowed_year (two_digit : Z) : Z :=
  if 70 <=? two_digit then 1900 + two_digit else 2000 + two_digit.

Fixpoint position_from (n : N) (x : str) (l : list str) : option N :=
  match l with
  | [] => None
  | y :: rest => if str_eqb x y then Some n else position_from (n + 1)%N x rest
  end.
Definition month_of (month : str) : option N := position_from 1 (trim month) MONTH_ABBREVIATIONS.

(** [str::parse::<i32>]. *)
Definition parse_i32 (s : str) : option Z :=
  match s with
  | c :: digits =>
      if (c =? c!"-")%N then
        match digits with
        | [] => None
        | _ => n ← digits_value 0 digits; if Z.of_N n <=? 2 ^ 31 then Some (- Z.of_N n) else None
        end
      else Z.of_N <$> parse_unsigned (Z.to_N i32_max) s
  | [] => None
  end.

(** [field.matches(':').count()] *)
Definition count_char (c : char) (s : str) : nat := length (List.filter (N.eqb c) s).

Definition clock_of (raw : str) : option (N * N * N) :=
  token ← List.find (fun field => (count_char c!":" field =? 2)%nat) (split_whitespace raw);
  match split_on c!":" token with
  | hour :: minute :: second :: _ =>
      hour ← parse_unsigned u8_max hour;
      minute ← parse_unsigned u8_max minute;
      second ← parse_unsigned u8_max second;
      if (23 <? hour)%N || (59 <? minute)%N || (59 <? second)%N then None else Some (hour, minute, second)
  | _ => None
  end.

(** [s.split_once(sep)] for a separator of two characters. *)
Fixpoint split_once2 (a b : char) (s : str) : option (str * str) :=
  match s with
  | x :: ((y :: s') as rest) =>
      if (x =? a)%N && (y =? b)%N then Some ([], s')
      else match split_once2 a b rest with Some (l, r) => Some (x :: l, r) | None => None end
  | _ => None
  end.

(** [s.splitn(3, '-')] *)
Definition splitn3 (c : char) (s : str) : list str :=
  match split_once c s with
  | None => [s]
  | Some (a, rest) => match split_once c rest with None => [a; rest] | Some (b, tail) => [a; b; tail] end
  end.

Section Dates.
Context `{C : Calendar, D : CivilDates}.

Definition build (year : Z) (month : str) (day : N) (raw : str) : option Z :=
  month ← month_of month;
  clock ← clock_of raw;
  date ← cd_from year month day;
  Some (instant_at date (fst (fst clock)) (snd (fst clock)) (snd clock)).

Definition parse_http_date (raw : str) : option Z :=
  let raw := trim raw in
  if bool_decide (raw = []) then None
  else
    let '(has_comma, date_part) := match split_once2 c!"," c!" " raw with
                                   | Some (_, tail) => (true, tail)
                                   | None => (false, raw)
                                   end in
    match splitn3 c!"-" date_part with
    | [day; month; year] =>
        day ← parse_unsigned u8_max (trim day);
        token ← head (split_whitespace year);
        year ← parse_i32 token;
        build (if (0 <=? year) && (year <? 100) then windowed_year year else year) (trim month) day raw
    | _ =>
        let fields := split_whitespace date_part in
        if (has_comma : bool) then
          match fields with
          | day :: month :: year :: _ =>
              year ← parse_i32 year; day ← parse_unsigned u8_max (trim day); build year month day raw
          | _ => None
          end
        else
          match fields with
          | _ :: month :: day :: _ =>
              year ← fields !! 4%nat ≫= parse_i32; day ← parse_unsigned u8_max (trim day); build year month day raw
          | _ => None
          end
    end.

(** [{:02}] and [{:04}] of a number that is not negative. *)
Definition zero_padded (width : nat) (n : N) : str := replicate (width - length (show_N n)) c!"0" ++ show_N n.

Definition imf_fixdate (i : Z) : str :=
  let d := date_of i in
  nth (N.to_nat (cal_weekday d)) WEEKDAY_ABBREVIATIONS [] ++ s!", " ++ zero_padded 2 (cal_day d) ++ s!" "
  ++ nth (N.to_nat (cal_month d) - 1) MONTH_ABBREVIATIONS [] ++ s!" " ++ zero_padded 4 (Z.to_N (cd_year d)) ++ s!" "
  ++ zero_padded 2 (hour_of i) ++ s!":" ++ zero_padded 2 (minute_of i) ++ s!":" ++ zero_padded 2 (second_of i)
  ++ s!" GMT".

Definition if_modified_since_holds (header : option str) (last_modified : str) : bool :=
  match given_text header with
  | None => false
  | Some raw =>
      match parse_http_date last_modified, parse_http_date raw with
      | Some modified, Some since => unix_timestamp modified <=? unix_timestamp since
      | _, _ => false
      end
  end.

(** ** The decision *)

Inductive conditional := Send | NotModified.
#[export] Instance conditional_eq_dec : EqDecision conditional.
Proof. solve_decision. Defined.

Definition decide_conditional (if_none_match if_modified_since : option str) (etag : str) (last_modified : option str) :
  conditional :=
  if is_given (given_text if_none_match) then
    if if_none_match_holds if_none_match etag then NotModified else Send
  else
    match last_modified with
    | Some last_modified => if if_modified_since_holds if_modified_since last_modified then NotModified else Send
    | None => Send
    end.
End Dates.

(** ** Text lemmas *)

Definition word (s : str) : Prop := s <> [] /\ forallb (fun c => negb (is_whitespace c)) s = true.

Lemma word_app s t : word s -> forallb (fun c => negb (is_whitespace c)) t = true -> word (s ++ t).
Proof. intros [Hn Hs] Ht. split; [by destruct s|]. rewrite forallb_app. apply andb_true_iff. done. Qed.

Lemma split_whitespace_go_word cur w s :
  forallb (fun c => negb (is_whitespace c)) w = true ->
  split_whitespace_go cur (w ++ s) = split_whitespace_go (rev w ++ cur) s.
Proof.
  revert cur. induction w as [|c w IH]; intros cur H; [done|]. cbn [forallb] in H. apply andb_true_iff in H as [Hc H].
  cbn [app split_whitespace_go rev]. apply negb_true_iff in Hc. rewrite Hc, IH by done. by rewrite <- app_assoc.
Qed.

Lemma split_whitespace_word w rest : word w -> split_whitespace (w ++ c!" " :: rest) = w :: split_whitespace rest.
Proof.
  intros [Hn Hw]. unfold split_whitespace. rewrite split_whitespace_go_word by done. rewrite app_nil_r.
  cbn [split_whitespace_go]. change (is_whitespace c!" ") with true. cbn match.
  destruct (rev w) as [|x r] eqn:E; [by apply (f_equal (@rev char)) in E; rewrite rev_involutive in E|].
  by rewrite <- E, rev_involutive.
Qed.

Lemma split_whitespace_last w : word w -> split_whitespace w = [w].
Proof.
  intros [Hn Hw]. unfold split_whitespace. rewrite <- (app_nil_r w) at 1. rewrite split_whitespace_go_word by done.
  rewrite app_nil_r. cbn [split_whitespace_go].
  destruct (rev w) as [|x r] eqn:E; [by apply (f_equal (@rev char)) in E; rewrite rev_involutive in E|].
  by rewrite <- E, rev_involutive.
Qed.

Lemma split_once2_app a b s t : a ∉ s -> split_once2 a b (s ++ a :: b :: t) = Some (s, t).
Proof.
  induction s as [|x s IH]; intros H; [cbn; by rewrite !N.eqb_refl|].
  apply not_elem_of_cons in H as [Hx H].
  specialize (IH H). assert (exists y r, s ++ a :: b :: t = y :: r) as (y & r & E) by (destruct s; eauto).
  change ((x :: s) ++ a :: b :: t) with (x :: s ++ a :: b :: t). rewrite E in IH |- *.
  change (split_once2 a b (x :: y :: r)) with
    (if (x =? a)%N && (y =? b)%N then Some ([], r)
     else match split_once2 a b (y :: r) with Some (l, r) => Some (x :: l, r) | None => None end).
  rewrite IH. assert ((x =? a)%N = false) as -> by (apply N.eqb_neq; congruence). done.
Qed.

Lemma count_char_app c s t : count_char c (s ++ t) = (count_char c s + count_char c t)%nat.
Proof. unfold count_char. by rewrite List.filter_app, length_app. Qed.

Lemma count_char_same c s : count_char c (c :: s) = S (count_char c s).
Proof. unfold count_char. cbn [List.filter]. by rewrite N.eqb_refl. Qed.

Lemma count_char_none c s : c ∉ s -> count_char c s = 0%nat.
Proof.
  intros H. unfold count_char. rewrite filter_none; [done|]. intros x Hx. apply N.eqb_neq. intros ->. done.
Qed.

Ltac flatten_text := cbn [app lit]; repeat (rewrite <- app_assoc; cbn [app]).

(** Text of digits only: it is a word without any of the separators. *)
Definition digits (s : str) : Prop := s <> [] /\ forallb is_ascii_digit s = true.

Lemma digits_elem s c : digits s -> c ∈ s -> is_ascii_digit c = true.
Proof. intros [_ H]. rewrite forallb_elem in H. auto. Qed.

Lemma digit_not_white c : is_ascii_digit c = true -> is_whitespace c = false.
Proof.
  unfold is_ascii_digit, is_whitespace, in_range. intros H. apply andb_true_iff in H as [H1 H2].
  apply N.leb_le in H1, H2. repeat (rewrite orb_false_iff || rewrite andb_false_iff || rewrite N.leb_gt || rewrite N.eqb_neq).
  repeat split; lia.
Qed.

Lemma digits_word s : digits s -> word s.
Proof.
  intros H. split; [apply H|]. apply forallb_elem. intros c Hc. apply negb_true_iff, digit_not_white. by apply (digits_elem s).
Qed.

Lemma digits_without s c : digits s -> is_ascii_digit c = false -> c ∉ s.
Proof. intros H Hc E. by rewrite (digits_elem s c H E) in Hc. Qed.

Lemma digits_trim s : digits s -> trim s = s.
Proof. intros H. apply trim_id, (digits_word s H). Qed.

Lemma show_N_is_digits n : digits (show_N n).
Proof.
  split; [|apply forallb_elem; intros c; apply show_N_digits].
  intros E. pose proof (digits_value_show n) as H. destruct n; [done|]. rewrite E in H. cbn in H. congruence.
Qed.

Lemma zero_padded_digits w n : digits (zero_padded w n).
Proof.
  unfold zero_padded. destruct (show_N_is_digits n) as [Hn Hd]. split; [by destruct (replicate _ _)|].
  rewrite forallb_app. apply andb_true_iff. split; [|exact Hd]. apply forallb_elem. intros c [-> _]%elem_of_replicate. done.
Qed.

Lemma digits_value_zeros k s : digits_value 0 (replicate k c!"0" ++ s) = digits_value 0 s.
Proof. induction k as [|k IH]; [done|]. cbn [replicate app digits_value]. exact IH. Qed.

Lemma zero_padded_value w n : digits_value 0 (zero_padded w n) = Some n.
Proof. unfold zero_padded. by rewrite digits_value_zeros, digits_value_show. Qed.

Lemma parse_unsigned_digits max s n : digits s -> digits_value 0 s = Some n -> (n <= max)%N -> parse_unsigned max s = Some n.
Proof.
  intros [Hn Hd] Hv Hm. unfold parse_unsigned. destruct s as [|c s]; [done|].
  cbn [forallb] in Hd. apply andb_true_iff in Hd as [Hc _].
  assert ((c =? 43)%N = false) as ->.
  { apply N.eqb_neq. intros ->. done. }
  rewrite Hv. by apply N.leb_le in Hm as ->.
Qed.

Lemma parse_padded max w n : (n <= max)%N -> parse_unsigned max (zero_padded w n) = Some n.
Proof. intros H. by apply parse_unsigned_digits; [apply zero_padded_digits|apply zero_padded_value|]. Qed.

Lemma parse_i32_padded w n : Z.of_N n <= i32_max -> parse_i32 (zero_padded w n) = Some (Z.of_N n).
Proof.
  intros H. pose proof (zero_padded_digits w n) as [Hn Hd]. pose proof (parse_padded (Z.to_N i32_max) w n ltac:(lia)) as Hp.
  unfold parse_i32. destruct (zero_padded w n) as [|c s]; [done|]. cbn [forallb] in Hd. apply andb_true_iff in Hd as [Hc _].
  assert ((c =? c!"-")%N = false) as ->.
  { apply N.eqb_neq. intros ->. done. }
  by rewrite Hp.
Qed.

(** ** The Gregorian calendar has the laws *)

Ltac euclid := Z.to_euclidean_division_equations; lia.

Lemma year_of_era_bounds doe : 0 <= doe < 146097 ->
  let yoe := (doe - doe / 1460 + doe / 36524 - doe / 146096) / 365 in
  0 <= yoe < 400 /\ 0 <= doe - (365 * yoe + yoe / 4 - yoe / 100) <= 365.
Proof. cbn zeta. intros H. split; euclid. Qed.

Lemma month_bounds doy : 0 <= doy <= 365 ->
  let mp := (5 * doy + 2) / 153 in 0 <= mp <= 11 /\ 1 <= doy - (153 * mp + 2) / 5 + 1 <= 31.
Proof. cbn zeta. intros H. split; euclid. Qed.

Definition days_before (year month day : Z) : Z :=
  let y := if month <=? 2 then year - 1 else year in
  let era := y / 400 in
  let yoe := y - era * 400 in
  let mp := if month <=? 2 then month + 9 else month - 3 in
  let doe := 365 * yoe + yoe / 4 - yoe / 100 + ((153 * mp + 2) / 5 + day - 1) in
  era * 146097 + doe - 719468.

Lemma civil_exact z :
  let '(y, m, d) := civil z in 1 <= m <= 12 /\ 1 <= d <= 31 /\ days_before y m d = z.
Proof.
  unfold civil. cbn zeta. set (era := (z + 719468) / 146097). set (doe := z + 719468 - era * 146097).
  assert (0 <= doe < 146097) as Hdoe by (unfold doe, era; euclid).
  pose proof (year_of_era_bounds doe Hdoe) as [Hy Hd]. cbn zeta in Hy, Hd.
  set (yoe := (doe - doe / 1460 + doe / 36524 - doe / 146096) / 365) in *.
  set (doy := doe - (365 * yoe + yoe / 4 - yoe / 100)) in *.
  pose proof (month_bounds doy Hd) as [Hm Hday]. cbn zeta in Hm, Hday. set (mp := (5 * doy + 2) / 153) in *.
  unfold days_before.
  assert (((if mp <? 10 then mp + 3 else mp - 9) <=? 2) = negb (mp <? 10)) as E by (destruct (Z.ltb_spec mp 10); cbn; lia).
  rewrite E. split; [destruct (mp <? 10) eqn:E2; lia|]. split; [lia|].
  destruct (Z.ltb_spec mp 10); cbn [negb].
  - rewrite Z.add_0_r, Z.div_add, (Z.div_small yoe 400) by lia.
    replace (yoe + era * 400 - (0 + era) * 400) with yoe by lia. replace (mp + 3 - 3) with mp by lia. unfold doy, doe. lia.
  - replace (yoe + era * 400 + 1 - 1) with (yoe + era * 400) by lia. rewrite Z.div_add, (Z.div_small yoe 400) by lia.
    replace (yoe + era * 400 - (0 + era) * 400) with yoe by lia. replace (mp - 9 + 9) with mp by lia. unfold doy, doe. lia.
Qed.

#[export] Instance gregorian_dates : CivilDates := {|
  cd_year := fun d => fst (fst (civil d));
  cd_from := fun y m d =>
    let n := days_before y (Z.of_N m) (Z.of_N d) in
    if (-9999 <=? y) && (y <=? 9999) && bool_decide (civil n = (y, Z.of_N m, Z.of_N d)) then Some n else None
|}.

#[export] Instance gregorian_dates_laws : CivilDatesLaws gregorian gregorian_dates.
Proof.
  split; intros d; pose proof (civil_exact d) as H; cbn [cal_month cal_day cal_weekday cd_year cd_from gregorian gregorian_dates];
    destruct (civil d) as [[y m] dd] eqn:E; cbn [fst snd] in *; destruct H as (Hm & Hd & Hn); [lia|lia|euclid|].
  intros Hy. rewrite !Z2N.id, Hn, E by lia. cbn zeta. rewrite bool_decide_eq_true_2 by done.
  by rewrite (proj2 (Z.leb_le (-9999) y)), (proj2 (Z.leb_le y 9999)) by lia.
Qed.

(** ** Dates *)

Lemma month_abbreviation m : (1 <= m <= 12)%N ->
  let name := nth (N.to_nat m - 1) MONTH_ABBREVIATIONS [] in
  month_of name = Some m /\ word name /\ (c!"-" ∉ name) /\ count_char c!":" name = 0%nat.
Proof.
  intros H. assert (exists k, m = (N.of_nat k + 1)%N /\ (k < 12)%nat) as (k & -> & Hk)
    by (exists (N.to_nat (m - 1)); lia).
  do 12 (destruct k as [|k]; [repeat split; try (vm_compute; done); by apply (bool_decide_unpack _); vm_compute|]).
  lia.
Qed.

Lemma weekday_abbreviation d : (d <= 6)%N ->
  exists a b e, nth (N.to_nat d) WEEKDAY_ABBREVIATIONS [] = [a; b; e] /\ is_whitespace a = false
  /\ word ([a; b; e] ++ s!",") /\ (c!"," ∉ [a; b; e]) /\ count_char c!":" ([a; b; e] ++ s!",") = 0%nat.
Proof.
  intros H. assert (exists k, d = N.of_nat k /\ (k < 7)%nat) as (k & -> & Hk) by (exists (N.to_nat d); lia).
  do 7 (destruct k as [|k];
    [eexists _, _, _; split; [vm_compute; reflexivity|]; repeat split; try (vm_compute; done);
     by apply (bool_decide_unpack _); vm_compute|]).
  lia.
Qed.

Section Fixdate.
Context `{C : Calendar, D : CivilDates, L : !CivilDatesLaws C D}.

Lemma clock_bounds i : (hour_of i <= 23)%N /\ (minute_of i <= 59)%N /\ (second_of i <= 59)%N.
Proof.
  unfold hour_of, minute_of, second_of, second_of_day, NANOS_PER_DAY, NANOS_PER_MINUTE, NANOS_PER_SECOND.
  split_and!; zify; euclid.
Qed.

Lemma instant_reads_back i :
  instant_at (date_of i) (hour_of i) (minute_of i) (second_of i) = unix_timestamp i * NANOS_PER_SECOND.
Proof.
  unfold instant_at, hour_of, minute_of, second_of, second_of_day, unix_timestamp, date_of, NANOS_PER_DAY, NANOS_PER_MINUTE,
    NANOS_PER_SECOND.
  rewrite !N2Z.inj_add, !N2Z.inj_mul, !Z2N.id by euclid. euclid.
Qed.

Definition clock_text (i : Z) : str :=
  zero_padded 2 (hour_of i) ++ c!":" :: zero_padded 2 (minute_of i) ++ c!":" :: zero_padded 2 (second_of i).
Definition year_text (i : Z) : str := zero_padded 4 (Z.to_N (cd_year (date_of i))).
Definition day_text (i : Z) : str := zero_padded 2 (cal_day (date_of i)).
Definition month_text (i : Z) : str := nth (N.to_nat (cal_month (date_of i)) - 1) MONTH_ABBREVIATIONS [].

Lemma clock_text_facts i :
  word (clock_text i) /\ count_char c!":" (clock_text i) = 2%nat
  /\ split_on c!":" (clock_text i) = [zero_padded 2 (hour_of i); zero_padded 2 (minute_of i); zero_padded 2 (second_of i)]
  /\ c!"-" ∉ clock_text i.
Proof.
  unfold clock_text.
  pose proof (zero_padded_digits 2 (hour_of i)) as Hh. pose proof (zero_padded_digits 2 (minute_of i)) as Hm.
  pose proof (zero_padded_digits 2 (second_of i)) as Hs.
  split_and!.
  - apply word_app; [by apply digits_word|]. cbn [forallb]. rewrite !forallb_app. cbn [forallb].
    repeat (apply andb_true_iff; split); first [done|apply (digits_word _ Hm)|apply (digits_word _ Hs)].
  - rewrite count_char_app, count_char_same, count_char_app, count_char_same, (count_char_none _ _ (digits_without _ c!":" Hh eq_refl)),
      (count_char_none _ _ (digits_without _ c!":" Hm eq_refl)), (count_char_none _ _ (digits_without _ c!":" Hs eq_refl)). done.
  - rewrite (split_on_app _ _ _ (digits_without _ c!":" Hh eq_refl)), (split_on_app _ _ _ (digits_without _ c!":" Hm eq_refl)).
    by rewrite (split_on_none _ _ (digits_without _ c!":" Hs eq_refl)).
  - rewrite not_elem_of_app, not_elem_of_cons, not_elem_of_app, not_elem_of_cons.
    split_and!; first [by apply digits_without | discriminate].
Qed.

Definition date_tail (i : Z) : str :=
  day_text i ++ c!" " :: month_text i ++ c!" " :: year_text i ++ c!" " :: clock_text i ++ c!" " :: s!"GMT".

Lemma imf_fixdate_shape i : exists a b e,
  imf_fixdate i = [a; b; e] ++ c!"," :: c!" " :: date_tail i /\ is_whitespace a = false
  /\ word ([a; b; e] ++ s!",") /\ (c!"," ∉ [a; b; e]) /\ count_char c!":" ([a; b; e] ++ s!",") = 0%nat.
Proof.
  destruct (weekday_abbreviation (cal_weekday (date_of i)) (cd_weekday_bounds _)) as (a & b & e & E & H).
  exists a, b, e. split; [|exact H]. unfold imf_fixdate, date_tail, clock_text, year_text, day_text, month_text. rewrite E.
  by flatten_text.
Qed.

Lemma date_tail_words i :
  split_whitespace (date_tail i) = [day_text i; month_text i; year_text i; clock_text i; s!"GMT"] /\ c!"-" ∉ date_tail i.
Proof.
  destruct (month_abbreviation (cal_month (date_of i)) (cd_month_bounds _)) as (_ & Hm & Hdash & _).
  pose proof (zero_padded_digits 2 (cal_day (date_of i))) as Hd.
  pose proof (zero_padded_digits 4 (Z.to_N (cd_year (date_of i)))) as Hy.
  destruct (clock_text_facts i) as (Hc & _ & _ & Hcd). unfold date_tail, day_text, year_text. split.
  - rewrite !split_whitespace_word by (first [by apply digits_word | done]). by rewrite split_whitespace_last.
  - repeat (rewrite not_elem_of_app || rewrite not_elem_of_cons). split_and!; [|discriminate| |discriminate| |discriminate| |discriminate|].
    + by apply (digits_without _ _ Hd).
    + exact Hdash.
    + by apply (digits_without _ _ Hy).
    + exact Hcd.
    + by apply (bool_decide_unpack _); vm_compute.
Qed.

Lemma imf_fixdate_clock i : clock_of (imf_fixdate i) = Some (hour_of i, minute_of i, second_of i).
Proof.
  destruct (imf_fixdate_shape i) as (a & b & e & -> & _ & Hw & _ & Hn).
  destruct (month_abbreviation (cal_month (date_of i)) (cd_month_bounds _)) as (_ & _ & _ & Hm0).
  destruct (clock_text_facts i) as (_ & H2 & Hs & _). destruct (clock_bounds i) as (Bh & Bm & Bs).
  unfold clock_of. change ([a; b; e] ++ c!"," :: c!" " :: date_tail i) with (([a; b; e] ++ s!",") ++ c!" " :: date_tail i).
  rewrite split_whitespace_word, (proj1 (date_tail_words i)) by done. cbn [List.find]. rewrite Hn.
  unfold day_text, month_text, year_text. rewrite Hm0, !count_char_none by (apply digits_without; [apply zero_padded_digits|done]).
  rewrite H2. cbn [Nat.eqb mbind option_bind]. rewrite Hs. cbn [mbind option_bind]. rewrite !parse_padded by (unfold u8_max; lia). cbn.
  by rewrite (proj2 (N.ltb_ge 23 _)), (proj2 (N.ltb_ge 59 _)), (proj2 (N.ltb_ge 59 _)) by lia.
Qed.

Lemma imf_fixdate_ends i : exists h mid, imf_fixdate i = h :: mid ++ [c!"T"] /\ is_whitespace h = false.
Proof.
  destruct (imf_fixdate_shape i) as (a & b & e & -> & Ha & _). unfold date_tail.
  exists a, (b :: e :: c!"," :: c!" " :: day_text i ++ c!" " :: month_text i ++ c!" " :: year_text i ++ c!" " :: clock_text i
               ++ [c!" "; c!"G"; c!"M"]).
  split; [|done]. by flatten_text.
Qed.

(** An instant rendered as an HTTP date is read back as the same second. *)
Theorem http_date_roundtrip i :
  0 <= cd_year (date_of i) <= 9999 -> parse_http_date (imf_fixdate i) = Some (unix_timestamp i * NANOS_PER_SECOND).
Proof.
  intros Hy. pose proof (imf_fixdate_clock i) as Hclock. destruct (imf_fixdate_shape i) as (a & b & e & E & _ & _ & Hcomma & _).
  destruct (date_tail_words i) as [Hwords Hdash].
  destruct (month_abbreviation (cal_month (date_of i)) (cd_month_bounds _)) as (Hmonth & _).
  assert (trim (imf_fixdate i) = imf_fixdate i) as Htrim
    by (destruct (imf_fixdate_ends i) as (h & mid & -> & Hh); by apply trim_ends).
  unfold parse_http_date. rewrite Htrim. rewrite bool_decide_eq_false_2 by (by rewrite E). rewrite E at 1.
  rewrite split_once2_app by done. unfold splitn3. rewrite split_once_none, Hwords by done. cbn match.
  unfold year_text, day_text. rewrite parse_i32_padded by (unfold i32_max; lia).
  rewrite digits_trim by apply zero_padded_digits.
  rewrite parse_padded by (pose proof (cd_day_bounds (date_of i)); unfold u8_max; lia). cbn [mbind option_bind].
  unfold build, month_text. rewrite Hmonth, Hclock. cbn [mbind option_bind fst snd].
  rewrite Z2N.id, cd_reads_back by lia. cbn [mbind option_bind]. by rewrite instant_reads_back.
Qed.
End Fixdate.

(** ** Tags *)

Definition tag_text (tag : bool * str) : str := if fst tag then weak_etag_of (snd tag) else etag_of (snd tag).

Lemma strip_quotes c : strip_suffix (c ++ [QUOTE]) [QUOTE] = Some c.
Proof.
  unfold strip_suffix, ends_with. rewrite rev_app_distr.
  change (starts_with (rev [QUOTE] ++ rev c) (rev [QUOTE])) with (starts_with ([QUOTE] ++ rev c) [QUOTE]).
  by rewrite starts_with_app, length_app, Nat.add_sub, take_app_length.
Qed.

Lemma tag_text_shape tag : exists h mid, tag_text tag = h :: mid ++ [QUOTE] /\ is_whitespace h = false /\ h <> c!"*".
Proof.
  destruct tag as [[] c]; unfold tag_text, weak_etag_of, etag_of; cbn [fst snd].
  - by exists 87%N, (47%N :: QUOTE :: c).
  - by exists QUOTE, c.
Qed.

Lemma tag_text_trim tag : trim (tag_text tag) = tag_text tag.
Proof. destruct (tag_text_shape tag) as (h & mid & -> & Hh & _). by apply trim_ends. Qed.

Lemma given_text_ends h mid d : is_whitespace h = false -> is_whitespace d = false ->
  given_text (Some (h :: mid ++ [d])) = Some (h :: mid ++ [d]).
Proof.
  intros Hh Hd. unfold given_text. cbn [fmap option_fmap option_map mbind option_bind]. rewrite trim_ends by done.
  by rewrite bool_decide_eq_false_2.
Qed.

Lemma tag_value_text tag : tag_value (tag_text tag) = snd tag.
Proof.
  unfold tag_value. rewrite tag_text_trim. destruct tag as [[] c]; unfold tag_text, weak_etag_of, etag_of; cbn [fst snd].
  - rewrite strip_prefix_app. cbn [default from_option id]. change (QUOTE :: c ++ [QUOTE]) with ([QUOTE] ++ c ++ [QUOTE]).
    rewrite strip_prefix_app. cbn [mbind option_bind]. by rewrite strip_quotes.
  - change (strip_prefix (QUOTE :: c ++ [QUOTE]) WEAK) with (@None str). cbn [default from_option].
    change (QUOTE :: c ++ [QUOTE]) with ([QUOTE] ++ c ++ [QUOTE]).
    rewrite strip_prefix_app. cbn [mbind option_bind]. by rewrite strip_quotes.
Qed.

Lemma candidate_tag current tag pre :
  forallb is_whitespace pre = true -> candidate_holds current (pre ++ tag_text tag) = str_eqb (snd tag) current.
Proof.
  intros Hpre. unfold candidate_holds.
  assert (trim (pre ++ tag_text tag) = tag_text tag) as ->.
  { transitivity (trim (tag_text tag)); [|apply tag_text_trim]. unfold trim. f_equal.
    induction pre as [|c pre IH]; [done|]. cbn [forallb] in Hpre. apply andb_true_iff in Hpre as [Hc Hpre].
    cbn [app trim_start_by]. rewrite Hc. by apply IH. }
  rewrite tag_value_text. destruct (tag_text_shape tag) as (h & mid & -> & _ & Hstar).
  rewrite bool_decide_eq_false_2 by done.
  assert (str_eqb (h :: mid ++ [QUOTE]) s!"*" = false) as ->; [|done].
  apply str_eqb_neq. change (s!"*") with [c!"*"]. congruence.
Qed.

Lemma split_on_list l (p : str) : (forall q, q ∈ p :: l -> c!"," ∉ q) ->
  split_on c!"," (join s!", " (p :: l)) = p :: ((fun q => c!" " :: q) <$> l).
Proof.
  revert p. induction l as [|q l IH]; intros p H.
  - cbn [join fmap list_fmap]. apply split_on_none, H, list_elem_of_here.
  - change (join s!", " (p :: q :: l)) with (p ++ c!"," :: c!" " :: join s!", " (q :: l)).
    rewrite split_on_app by apply H, list_elem_of_here.
    assert (split_on c!"," (c!" " :: join s!", " (q :: l)) = (c!" " :: q) :: ((fun q => c!" " :: q) <$> l)) as ->; [|done].
    cbn [split_on]. change (c!" " =? c!",")%N with false. cbn match. rewrite IH; [done|].
    intros r Hr. apply H. by right.
Qed.

Lemma join_tags_shape t tags : exists h mid,
  join s!", " (tag_text <$> t :: tags) = h :: mid ++ [QUOTE] /\ is_whitespace h = false /\ h <> c!"*".
Proof.
  revert t. induction tags as [|u tags IH]; intros t; [apply tag_text_shape|].
  destruct (IH u) as (h & mid & E & _). destruct (tag_text_shape t) as (h' & mid' & E' & Hh & Hs).
  exists h', (mid' ++ QUOTE :: s!", " ++ h :: mid). split; [|done]. cbn [fmap list_fmap] in *.
  change (join s!", " (tag_text t :: tag_text u :: (tag_text <$> tags)))
    with (tag_text t ++ s!", " ++ join s!", " (tag_text u :: (tag_text <$> tags))).
  rewrite E, E'. by flatten_text.
Qed.

Section Revalidation.
Context `{C : Calendar, D : CivilDates, L : !CivilDatesLaws C D}.

Lemma listed_tags_hold tags checksum :
  tags <> [] -> (forall t, t ∈ tags -> c!"," ∉ snd t) ->
  if_none_match_holds (Some (join s!", " (tag_text <$> tags))) (weak_etag_of checksum) = existsb (fun t => str_eqb (snd t) checksum) tags
  /\ is_given (given_text (Some (join s!", " (tag_text <$> tags)))) = true.
Proof.
  intros Hne Hcomma. destruct tags as [|t tags]; [done|].
  destruct (join_tags_shape t tags) as (h & mid & E & Hh & Hstar).
  assert (given_text (Some (join s!", " (tag_text <$> t :: tags))) = Some (join s!", " (tag_text <$> t :: tags))) as Hg
    by (rewrite E; by apply given_text_ends).
  unfold if_none_match_holds. rewrite Hg. split; [|done].
  assert (str_eqb (join s!", " (tag_text <$> t :: tags)) s!"*" = false) as ->.
  { rewrite E. apply str_eqb_neq. change (s!"*") with [c!"*"]. congruence. }
  change (weak_etag_of checksum) with (tag_text (true, checksum)). rewrite tag_value_text.
  cbn [fmap list_fmap snd]. rewrite split_on_list.
  - cbn [existsb]. rewrite <- (app_nil_l (tag_text t)), candidate_tag by done. f_equal.
    clear. induction tags as [|u tags IH]; [done|]. cbn [fmap list_fmap existsb].
    rewrite IH. f_equal. by apply (candidate_tag checksum u [c!" "]).
  - assert (forall u, u ∈ t :: tags -> c!"," ∉ tag_text u) as Hu.
    { intros u Hu%Hcomma. destruct u as [[] c]; unfold tag_text, weak_etag_of, etag_of; cbn [fst snd] in *;
        repeat (rewrite not_elem_of_app || rewrite not_elem_of_cons); split_and?; try done;
        by apply (bool_decide_unpack _); vm_compute. }
    intros q Hq. apply (list_elem_of_fmap_1 tag_text (t :: tags)) in Hq as (u & -> & Hq). auto.
Qed.

Lemma dates_compare t m : 0 <= cd_year (date_of t) <= 9999 -> 0 <= cd_year (date_of m) <= 9999 ->
  if_modified_since_holds (Some (imf_fixdate t)) (imf_fixdate m) = (unix_timestamp m <=? unix_timestamp t).
Proof.
  intros Ht Hm. unfold if_modified_since_holds.
  assert (given_text (Some (imf_fixdate t)) = Some (imf_fixdate t)) as ->
    by (destruct (imf_fixdate_ends t) as (h & mid & -> & Hh); by apply given_text_ends).
  rewrite !http_date_roundtrip by done. unfold unix_timestamp. by rewrite !Z.div_mul.
Qed.

(** A caller that lists tags is told its copy is current exactly when one of them carries the
    checksum of the bytes, weak or strong, whatever date it sends; a caller that sends only the
    date it was given is told so exactly when the bytes have not changed after that second. *)
Theorem revalidation_exact (tags : list (bool * str)) (checksum : str) (since : option str) (t m : Z) :
  tags <> [] -> (forall tag, tag ∈ tags -> c!"," ∉ snd tag) ->
  0 <= cd_year (date_of t) <= 9999 -> 0 <= cd_year (date_of m) <= 9999 ->
  (decide_conditional (Some (join s!", " (tag_text <$> tags))) since (weak_etag_of checksum) (Some (imf_fixdate m)) = NotModified
     <-> checksum ∈ snd <$> tags)
  /\ (decide_conditional None (Some (imf_fixdate t)) (weak_etag_of checksum) (Some (imf_fixdate m)) = NotModified
     <-> unix_timestamp m <= unix_timestamp t).
Proof.
  intros Hne Hcomma Ht Hm. destruct (listed_tags_hold tags checksum Hne Hcomma) as [Hhold Hgiven]. split.
  - unfold decide_conditional. rewrite Hgiven, Hhold. transitivity (existsb (fun tag => str_eqb (snd tag) checksum) tags = true).
    + by destruct (existsb _ tags).
    + rewrite existsb_elem, list_elem_of_fmap. split; intros (tag & H1 & H2); exists tag.
      * by apply str_eqb_eq in H2 as ->.
      * split; [done|]. rewrite H1. apply str_eqb_refl.
  - unfold decide_conditional. cbn [given_text fmap option_fmap option_map mbind option_bind is_given]. rewrite dates_compare by done.
    rewrite <- Z.leb_le. by destruct (_ <=? _).
Qed.
End Revalidation.

(** 1994-11-06 08:49:37.2 and the instant half a second later. *)
Definition sample_modified : Z := 784111777200000000.

Lemma http_date_roundtrip_witness :
  imf_fixdate sample_modified = s!"Sun, 06 Nov 1994 08:49:37 GMT"
  /\ parse_http_date (imf_fixdate sample_modified) = Some 784111777000000000.
Proof.
  split; [vm_compute; reflexivity|]. exact (http_date_roundtrip sample_modified ltac:(vm_compute; split; discriminate)).
Defined.

Definition sample_tags : list (bool * str) := [(false, s!"ab12"); (true, s!"cd34")].

Lemma revalidation_exact_witness :
  decide_conditional (Some (join s!", " (tag_text <$> sample_tags))) None (weak_etag_of s!"cd34") (Some (imf_fixdate sample_modified))
    = NotModified
  /\ decide_conditional None (Some (imf_fixdate sample_modified)) (weak_etag_of s!"cd34") (Some (imf_fixdate sample_modified))
     = NotModified.
Proof.
  destruct (revalidation_exact sample_tags s!"cd34" None sample_modified sample_modified) as [H1 H2].
  - discriminate.
  - intros tag Htag. apply (bool_decide_unpack _). repeat (apply elem_of_cons in Htag as [->|Htag]; [vm_compute; exact I|]).
    by apply elem_of_nil in Htag.
  - vm_compute. split; discriminate.
  - vm_compute. split; discriminate.
  - split; [apply H1; apply (bool_decide_unpack _); vm_compute; exact I|apply H2; lia].
Defined.

(** *** Where the dates are coarser than the changes *)

(** Bytes replaced in the second in which the caller was handed its date are reported as
    unchanged. *)
Theorem same_second_change_is_not_noticed :
  let changed := sample_modified + 500000000 in
  sample_modified < changed
  /\ decide_conditional None (Some (imf_fixdate sample_modified)) (weak_etag_of s!"cd34") (Some (imf_fixdate changed)) = NotModified.
Proof. split; [lia|vm_compute; reflexivity]. Qed.

(** The year of two digits turns at 70, whatever the year it is read in: a date of 2068 in the
    obsolete form is read as one, although the last such year in the past is 1968. *)
Theorem two_digit_years_turn_at_70 :
  parse_http_date s!"Sunday, 06-Nov-94 08:49:37 GMT" = parse_http_date s!"Sun, 06 Nov 1994 08:49:37 GMT"
  /\ parse_http_date s!"Tuesday, 06-Nov-68 08:49:37 GMT" = parse_http_date s!"Tue, 06 Nov 2068 08:49:37 GMT"
  /\ parse_http_date s!"Sun Nov  6 08:49:37 1994" = parse_http_date s!"Sun, 06 Nov 1994 08:49:37 GMT"
  /\ is_given (parse_http_date s!"Sun, 06 Nov 1994 08:49:37 GMT") = true.
Proof. repeat split; vm_compute; reflexivity. Qed.
