(* ===== verification/Uploads.v ===== *)
(** * Objects and uploads: [crates/storage/src/keys.rs], [fs.rs], the answers of [s3.rs],
      [crates/media/src/validation.rs]

    The shape of an object key and why a key cannot leave the root it is joined onto, the driver
    that keeps objects in files, what the other driver makes of an HTTP answer, and the reduction
    of the names and content types an upload brings.  Directories, permissions and partial writes
    of the file system are not modelled. *)

From S2P Require Import Prelude Backups MediaArchive.

(** ** Keys *)

Definition MAX_KEY_LENGTH : nat := 512.

Inductive storage_error := StNotFound | StInvalid | StRange | StUnavailable | StProvider (status : Z) | StIo.
#[export] Instance storage_error_eq_dec : EqDecision storage_error.
Proof. solve_decision. Defined.

Definition key_char (c : char) : bool := is_ascii_alphanumeric c || existsb (N.eqb c) [c!"-"; c!"_"; c!"."].
Definition key_segment_ok (segment : str) : bool :=
  negb (bool_decide (segment = [])) && negb (str_eqb segment s!"." || str_eqb segment s!"..") && forallb key_char segment.

Definition validate_key (key : str) : result unit storage_error :=
  refuse bool_decide (key = []) with StInvalid in
  refuse (MAX_KEY_LENGTH <? utf8_len key)%nat with StInvalid in
  refuse starts_with key s!"/" || ends_with key s!"/" with StInvalid in
  require forallb key_segment_ok (split_on c!"/" key) else StInvalid in
  Ok tt.

(** ** The file-system driver: the files below its root, by key *)

Abbreviation stored_files := (gmap str (list Z)).
Record stored_object := StoredObject { so_size_bytes : Z; so_checksum : str }.

Section Fs.
Context (payload_hash : list Z -> str).

Definition fs_put (key : str) (body : list Z) (files : stored_files) : result (stored_object * stored_files) storage_error :=
  let? _ := validate_key key in
  Ok (StoredObject (Z.of_nat (length body)) (payload_hash body), <[key := body]> files).
End Fs.

Definition fs_get (files : stored_files) (key : str) : result (list Z) storage_error :=
  let? _ := validate_key key in ok_or (files !! key) StNotFound.

(** [bytes[start..=end]] *)
Definition slice (first last : Z) (bytes : list Z) : list Z :=
  take (Z.to_nat (last - first + 1)) (drop (Z.to_nat first) bytes).

Definition fs_get_range (files : stored_files) (key : str) (first last : Z) : result (list Z) storage_error :=
  let? bytes := fs_get files key in
  let total := Z.of_nat (length bytes) in
  refuse (total =? 0) || (total <=? first) || (last <? first) with StRange in
  Ok (slice first (Z.min last (total - 1)) bytes).

Definition fs_delete (key : str) (files : stored_files) : result (bool * stored_files) storage_error :=
  let? _ := validate_key key in
  Ok (is_given (files !! key), delete key files).

(** ** The S3 driver: what it makes of an answer *)

Record http_answer := HttpAnswer { ha_status : Z; ha_body : list Z }.
Definition is_success (status : Z) : bool := (200 <=? status) && (status <? 300).

Definition s3_get (key : str) (answer : http_answer) : result (list Z) storage_error :=
  let? _ := validate_key key in
  if is_success (ha_status answer) then Ok (ha_body answer)
  else if ha_status answer =? 404 then Err StNotFound
  else Err (StProvider (ha_status answer)).

Definition s3_get_range (key : str) (answer : http_answer) : result (list Z) storage_error :=
  let? _ := validate_key key in
  if is_success (ha_status answer) then Ok (ha_body answer)
  else if ha_status answer =? 404 then Err StNotFound
  else if ha_status answer =? 416 then Err StRange
  else Err (StProvider (ha_status answer)).

Definition s3_delete (key : str) (answer : http_answer) : result bool storage_error :=
  let? _ := validate_key key in
  if is_success (ha_status answer) then Ok true
  else if ha_status answer =? 404 then Ok false
  else Err (StProvider (ha_status answer)).

(** ** Names and content types of an upload *)

Definition MAX_FILENAME_LENGTH : nat := 200.

Inductive upload_error := InvalidFilename | InvalidContentType.

(** [raw.rsplit(['/', '\\']).next()] *)
Fixpoint last_segment (cur s : str) : str :=
  match s with
  | [] => cur
  | c :: s' => if (c =? c!"/")%N || (c =? 92)%N then last_segment s' s' else last_segment cur s'
  end.

Definition name_char (c : char) : bool := is_ascii_alphanumeric c || existsb (N.eqb c) [c!"."; c!"-"; c!"_"].
Fixpoint reduce_name (last_was_dash : bool) (s : str) : str :=
  match s with
  | [] => []
  | c :: s' =>
      if name_char c then c :: reduce_name false s'
      else if last_was_dash then reduce_name true s' else c!"-" :: reduce_name true s'
  end.

Definition split_extension (filename : str) : str * str :=
  match rsplit_once c!"." filename with
  | Some (stem, extension) =>
      if negb (bool_decide (stem = [])) && negb (bool_decide (extension = [])) then (stem, extension) else (filename, [])
  | None => (filename, [])
  end.

Definition outer_char (c : char) : bool := existsb (N.eqb c) [c!"-"; c!"."].

Definition reduced_name (raw : str) : str := trim_matches outer_char (reduce_name false (trim (last_segment raw raw))).
Definition sanitize_filename (raw : str) : result str upload_error :=
  let reduced := reduced_name raw in
  refuse bool_decide (reduced = []) with InvalidFilename in
  if (length reduced <=? MAX_FILENAME_LENGTH)%nat then Ok reduced
  else
    let '(stem, extension) := split_extension reduced in
    let keep := (MAX_FILENAME_LENGTH - (length extension + 1))%nat in
    Ok (take keep stem ++ s!"." ++ extension).

Definition token_char (c : char) : bool :=
  is_ascii_alphanumeric c
  || existsb (N.eqb c) [c!"!"; c!"#"; c!"$"; c!"&"; 39%N; c!"*"; c!"+"; c!"-"; c!"."; c!"^"; c!"_"; c!"`"; c!"|"; c!"~"].
Definition token_ok (s : str) : bool :=
  negb (bool_decide (s = [])) && (utf8_len s <=? 100)%nat && forallb token_char s.

(** Both halves are ASCII once they are tokens, so [to_lowercase] is the ASCII one. *)
Definition normalize_content_type (raw : str) : result str upload_error :=
  match split_once c!"/" (trim raw) with
  | None => Err InvalidContentType
  | Some (kind, subkind) =>
      require token_ok kind && token_ok subkind else InvalidContentType in
      Ok (to_ascii_lowercase (to_ascii_lowercase kind ++ s!"/" ++ subkind))
  end.

Definition INLINE_CONTENT_TYPES : list str :=
  [s!"image/png"; s!"image/jpeg"; s!"image/gif"; s!"image/webp"; s!"image/avif"; s!"video/mp4"; s!"video/webm";
   s!"audio/mpeg"; s!"audio/ogg"; s!"audio/wav"; s!"application/pdf"; s!"text/plain"].

Record serve_plan := ServePlan { sp_content_type : str; sp_disposition : str }.
Definition plan_of_type (stored : str) : serve_plan :=
  match List.find (fun candidate => str_eqb candidate stored) INLINE_CONTENT_TYPES with
  | Some allowed => ServePlan allowed s!"inline"
  | None => ServePlan s!"application/octet-stream" s!"attachment"
  end.

Definition extension_of (filename : str) : option str :=
  let extension := snd (split_extension filename) in
  if bool_decide (extension = []) || (8 <? utf8_len extension)%nat then None
  else if negb (forallb is_ascii_alphanumeric extension) then None
  else Some (to_ascii_lowercase extension).

Definition object_key `{Uuids} (site_id media_id : Z) (filename : str) : str :=
  match extension_of filename with
  | Some extension => s!"sites/" ++ uuid_text site_id ++ s!"/" ++ uuid_text media_id ++ s!"." ++ extension
  | None => s!"sites/" ++ uuid_text site_id ++ s!"/" ++ uuid_text media_id
  end.

(** ** Keys stay inside the root *)

(** The directories a path walks through, innermost first: what the system does with the segments
    of [root.join(key)]. *)
Definition enter (dirs : list str) (segment : str) : list str :=
  if bool_decide (segment = []) || str_eqb segment s!"." then dirs
  else if str_eqb segment s!".." then tail dirs
  else segment :: dirs.
Definition resolve_path (root : list str) (key : str) : list str := fold_left enter (split_on c!"/" key) root.

Lemma validate_key_ok key : validate_key key = Ok tt <->
  key <> [] /\ (utf8_len key <= MAX_KEY_LENGTH)%nat /\ starts_with key s!"/" = false /\ ends_with key s!"/" = false
  /\ forallb key_segment_ok (split_on c!"/" key) = true.
Proof.
  unfold validate_key.
  destruct (bool_decide_reflect (key = [])), (Nat.ltb_spec MAX_KEY_LENGTH (utf8_len key)), (starts_with key s!"/"), (ends_with key s!"/"),
    (forallb key_segment_ok _); cbn; split; first [done | intros (? & ? & ? & ? & ?); first [done | lia] | intros; split_and!; done].
Qed.

Lemma key_segment_enters segment dirs : key_segment_ok segment = true -> enter dirs segment = segment :: dirs.
Proof.
  unfold key_segment_ok, enter. intros H. apply andb_true_iff in H as [H _]. apply andb_true_iff in H as [Hn H].
  apply negb_true_iff in Hn, H. apply orb_false_iff in H as [H1 H2]. by rewrite Hn, H1, H2.
Qed.

Lemma resolve_segments segments root :
  forallb key_segment_ok segments = true -> fold_left enter segments root = rev segments ++ root.
Proof.
  revert root. induction segments as [|s l IH]; intros root H; [done|]. cbn [forallb] in H. apply andb_true_iff in H as [Hs H].
  cbn [fold_left rev]. rewrite key_segment_enters, IH by done. by rewrite <- app_assoc.
Qed.

(** An accepted key names a file below the root, one segment per directory, and no two keys
    name the same file. *)
Theorem keys_stay_inside (root : list str) (key : str) :
  validate_key key = Ok tt ->
  resolve_path root key = rev (split_on c!"/" key) ++ root
  /\ (forall other, validate_key other = Ok tt -> resolve_path root other = resolve_path root key -> other = key).
Proof.
  intros (_ & _ & _ & _ & H)%validate_key_ok. unfold resolve_path. rewrite resolve_segments by done. split; [done|].
  intros other (_ & _ & _ & _ & Ho)%validate_key_ok E. rewrite resolve_segments in E by done.
  apply app_inv_tail in E. apply (f_equal (@rev str)) in E. rewrite !rev_involutive in E. by apply split_on_inj in E.
Qed.

(** ** Names *)

Lemma name_char_cases c : name_char c = true -> (c = 45 \/ c = 46 \/ 48 <= c <= 57 \/ 65 <= c <= 90 \/ c = 95 \/ 97 <= c <= 122)%N.
Proof.
  unfold name_char, is_ascii_alphanumeric, is_ascii_alphabetic, is_ascii_lowercase, is_ascii_uppercase, is_ascii_digit, in_range.
  cbn [existsb]. change c!"." with 46%N. change c!"-" with 45%N. change c!"_" with 95%N.
  rewrite !orb_true_iff, !andb_true_iff, !N.leb_le, !N.eqb_eq. intuition (try discriminate; lia).
Qed.

Lemma name_char_plain c : name_char c = true -> is_whitespace c = false /\ (c =? c!"/")%N = false /\ (c =? 92)%N = false.
Proof.
  intros H%name_char_cases. change c!"/" with 47%N. split_and!; [|apply N.eqb_neq; lia|apply N.eqb_neq; lia].
  unfold is_whitespace, in_range. repeat rewrite orb_false_iff. repeat rewrite andb_false_iff. repeat rewrite N.leb_gt.
  repeat rewrite N.eqb_neq. repeat split; lia.
Qed.

Lemma reduce_name_chars b s : forallb name_char (reduce_name b s) = true.
Proof.
  revert b. induction s as [|c s IH]; intros b; [done|]. cbn [reduce_name].
  destruct (name_char c) eqn:E; [cbn [forallb]; by rewrite E, IH|]. destruct b; [apply IH|]. cbn [forallb]. by rewrite IH.
Qed.

Lemma reduce_name_id b s : forallb name_char s = true -> reduce_name b s = s.
Proof.
  revert b. induction s as [|c s IH]; intros b H; [done|]. cbn [forallb] in H. apply andb_true_iff in H as [Hc H].
  cbn [reduce_name]. by rewrite Hc, IH.
Qed.

Lemma last_segment_plain cur s : forallb name_char s = true -> last_segment cur s = cur.
Proof.
  induction s as [|c s IH]; intros H; [done|]. cbn [forallb] in H. apply andb_true_iff in H as [Hc H].
  cbn [last_segment]. destruct (name_char_plain c Hc) as (_ & -> & ->). cbn [orb]. exact (IH H).
Qed.

Lemma reduced_name_chars raw : forallb name_char (reduced_name raw) = true.
Proof. apply trim_matches_forallb, reduce_name_chars. Qed.

Lemma reduced_name_idem raw : reduced_name (reduced_name raw) = reduced_name raw.
Proof.
  pose proof (reduced_name_chars raw) as H. unfold reduced_name at 1. rewrite last_segment_plain by done.
  rewrite trim_id.
  - rewrite reduce_name_id by done. apply trim_matches_idem.
  - rewrite forallb_elem in H |- *. intros c Hc. apply negb_true_iff. apply (name_char_plain c (H c Hc)).
Qed.

Lemma split_extension_parts s stem ext : split_extension s = (stem, ext) ->
  (s = stem /\ ext = []) \/ (s = stem ++ s!"." ++ ext /\ stem <> [] /\ ext <> []).
Proof.
  unfold split_extension, rsplit_once. destruct (split_once c!"." (rev s)) as [[r l]|] eqn:E; [|intros [= -> ->]; by left].
  case_bool_decide as H1; [intros [= -> ->]; by left|]. case_bool_decide as H2; intros [= <- <-]; [by left|right].
  split; [|done]. assert (rev s = r ++ c!"." :: l) as Hs.
  { clear -E. revert r l E. generalize (rev s). intros u. induction u as [|x u IH]; intros r l E; [done|]. cbn [split_once] in E.
    destruct (N.eqb_spec x c!".") as [->|]; [injection E as <- <-; done|].
    destruct (split_once c!"." u) as [[a b]|]; [|done]. injection E as <- <-. by rewrite (IH a b). }
  apply (f_equal (@rev char)) in Hs. rewrite rev_involutive, rev_app_distr in Hs. rewrite Hs. cbn [rev]. by rewrite <- app_assoc.
Qed.

Lemma extension_length s : (length (snd (split_extension s)) <= length s)%nat.
Proof.
  destruct (split_extension s) as [stem ext] eqn:E. cbn [snd].
  destruct (split_extension_parts s stem ext E) as [[-> ->]|(-> & _ & _)]; [cbn; lia|]. rewrite !length_app. lia.
Qed.

(** An accepted file name carries letters, digits, dots, dashes and underscores only, so no
    separator and no control character.  Up to two hundred characters it is kept as reduced, and
    uploading a file under its stored name keeps that name; a longer one with a usable extension
    is cut to exactly two hundred characters and keeps the extension. *)
Theorem accepted_names_are_safe (raw name : str) :
  sanitize_filename raw = Ok name ->
  name <> [] /\ forallb name_char name = true
  /\ ((length (reduced_name raw) <= MAX_FILENAME_LENGTH)%nat -> name = reduced_name raw /\ sanitize_filename name = Ok name)
  /\ ((MAX_FILENAME_LENGTH < length (reduced_name raw))%nat ->
      forall stem extension, split_extension (reduced_name raw) = (stem, extension) ->
      (length extension < MAX_FILENAME_LENGTH)%nat ->
      length name = MAX_FILENAME_LENGTH /\ exists kept, name = kept ++ s!"." ++ extension).
Proof.
  unfold sanitize_filename. pose proof (reduced_name_chars raw) as Hc. pose proof (reduced_name_idem raw) as Hi.
  set (reduced := reduced_name raw) in *. case_bool_decide as Hne; [done|].
  destruct (Nat.leb_spec (length reduced) MAX_FILENAME_LENGTH) as [Hl|Hl].
  - intros [= <-]. split_and!; [done|done| |lia]. intros _. split; [done|]. rewrite Hi. rewrite bool_decide_eq_false_2 by done.
    by rewrite (proj2 (Nat.leb_le _ _)).
  - destruct (split_extension reduced) as [stem extension] eqn:E. cbv beta iota zeta.
    set (keep := (MAX_FILENAME_LENGTH - (length extension + 1))%nat). intros [= <-].
    split_and!; [by destruct (take _ _)| |lia|].
    + assert (forallb name_char stem = true /\ forallb name_char extension = true) as [Hs He].
      { destruct (split_extension_parts reduced stem extension E) as [[Hs ->]|(Hs & _ & _)]; rewrite Hs in Hc; [done|].
        apply forallb_app_inv in Hc as [? Hc]. split; [done|]. by apply (forallb_app_inv _ s!".") in Hc as [_ ?]. }
      rewrite !forallb_app. apply andb_true_iff; split; [|apply andb_true_iff; split; [done|exact He]].
      rewrite <- (take_drop keep stem) in Hs. by apply forallb_app_inv in Hs as [? _].
    + intros _ stem' extension' [= <- <-] He. split; [|eauto]. rewrite !length_app, length_take. cbn.
      assert (length reduced <= length stem + 1 + length extension)%nat.
      { destruct (split_extension_parts reduced stem extension E) as [[-> ->]|(-> & _ & _)]; [cbn; lia|]. rewrite !length_app. cbn. lia. }
      unfold keep, MAX_FILENAME_LENGTH in *. lia.
Qed.

(** *** The key of an upload *)

Lemma key_char_ascii c : key_char c = true -> utf8_width c = 1%nat.
Proof.
  intros H. assert (c < 128)%N as Hc.
  { assert (name_char c = true) as Hn%name_char_cases; [|lia]. unfold key_char, name_char in *. cbn [existsb] in *.
    rewrite !orb_true_iff in *. tauto. }
  unfold utf8_width. by apply N.ltb_lt in Hc as ->.
Qed.

Lemma key_utf8_len s : (forall c, c ∈ s -> utf8_width c = 1%nat) -> utf8_len s = length s.
Proof.
  unfold utf8_len. induction s as [|c s IH]; intros H; [done|]. cbn. rewrite H by apply list_elem_of_here.
  cbn. f_equal. apply IH. intros d Hd. apply H. by right.
Qed.

Lemma segment_intro s : (1 <= length s)%nat -> s <> s!"." -> s <> s!".." -> forallb key_char s = true -> key_segment_ok s = true.
Proof.
  intros Hl H1 H2 Hc. unfold key_segment_ok. rewrite Hc, (proj2 (str_eqb_neq s _) H1), (proj2 (str_eqb_neq s _) H2).
  by destruct s; [cbn in Hl; lia|].
Qed.

Lemma extension_of_chars filename ext : extension_of filename = Some ext ->
  forallb is_ascii_alphanumeric ext = true /\ (1 <= length ext <= 8)%nat.
Proof.
  unfold extension_of. set (e := snd (split_extension filename)). case_bool_decide as Hne; [done|].
  destruct (Nat.ltb_spec 8 (utf8_len e)) as [|Hl]; [done|]. destruct (forallb is_ascii_alphanumeric e) eqn:Ha; [|done].
  intros [= <-]. unfold to_ascii_lowercase. split.
  - rewrite forallb_elem in *. intros c (d & -> & Hd)%list_elem_of_fmap. specialize (Ha d Hd). clear -Ha.
    destruct (is_ascii_uppercase d) eqn:E; [|done].
    unfold is_ascii_alphanumeric, is_ascii_alphabetic, is_ascii_lowercase, is_ascii_uppercase, is_ascii_digit, in_range in *.
    rewrite !orb_true_iff, !andb_true_iff, !N.leb_le in *. lia.
  - rewrite length_fmap. rewrite key_utf8_len in Hl; [by destruct e; [|cbn in *; lia]|].
    intros c Hc. rewrite forallb_elem in Ha. apply key_char_ascii. unfold key_char. by rewrite Ha.
Qed.

Section Keys.
Context `{U : Uuids, L : !UuidLaws U}.

Lemma uuid_key_chars z : forallb key_char (uuid_text z) = true.
Proof.
  pose proof (uuid_text_chars z) as H. rewrite forallb_elem in *. intros c Hc%H. unfold key_char. apply orb_true_iff in Hc as [Hc|Hc].
  - apply orb_true_iff. left. unfold is_ascii_hexdigit, is_ascii_alphanumeric, is_ascii_alphabetic, is_ascii_lowercase, is_ascii_uppercase,
      is_ascii_digit, in_range in *. rewrite !orb_true_iff, !andb_true_iff, !N.leb_le in *. lia.
  - cbn [existsb]. rewrite Hc. by rewrite orb_true_r.
Qed.

Lemma uuid_no_slash z : c!"/" ∉ uuid_text z.
Proof.
  intros H. pose proof (uuid_key_chars z) as Hu. rewrite forallb_elem in Hu. specialize (Hu _ H). vm_compute in Hu. discriminate.
Qed.

(** The key of an upload is accepted by both drivers, whatever the name of the file, and is
    three segments deep: the sites, the site and the file. *)
Theorem upload_keys_are_accepted (site_id media_id : Z) (filename : str) :
  validate_key (object_key site_id media_id filename) = Ok tt
  /\ exists file, split_on c!"/" (object_key site_id media_id filename) = [s!"sites"; uuid_text site_id; file]
     /\ starts_with file (uuid_text media_id) = true.
Proof.
  set (file := uuid_text media_id ++ match extension_of filename with Some ext => s!"." ++ ext | None => [] end).
  assert (object_key site_id media_id filename = s!"sites" ++ c!"/" :: uuid_text site_id ++ c!"/" :: file) as E.
  { unfold object_key, file. destruct (extension_of filename); cbn [lit app]; [done|by rewrite app_nil_r]. }
  assert (forallb key_char file = true /\ (36 <= length file <= 45)%nat) as [Hchars Hlen].
  { unfold file. rewrite forallb_app, length_app, uuid_text_length, uuid_key_chars.
    destruct (extension_of filename) as [ext|] eqn:Ex; [|cbn; split; [done|lia]].
    apply extension_of_chars in Ex as [He Hl]. rewrite length_app. cbn [length lit]. split; [|lia].
    apply (forallb_elem key_char (s!"." ++ ext)). intros c [Hc|Hc]%elem_of_app.
    - change (s!".") with [c!"."] in Hc. by apply list_elem_of_singleton in Hc as ->.
    - rewrite forallb_elem in He. unfold key_char. by rewrite He. }
  assert (c!"/" ∉ file) as Hslash.
  { intros H. rewrite forallb_elem in Hchars. specialize (Hchars _ H). vm_compute in Hchars. discriminate. }
  assert (split_on c!"/" (object_key site_id media_id filename) = [s!"sites"; uuid_text site_id; file]) as Hsplit.
  { rewrite E, !split_on_app by (apply uuid_no_slash || by vm_compute; set_solver). by rewrite split_on_none. }
  split; [|exists file; split; [exact Hsplit|unfold file; apply starts_with_app]].
  assert (forall c, c ∈ object_key site_id media_id filename -> utf8_width c = 1%nat) as Hw.
  { rewrite E. intros c [Hc|[->|[Hc|[->|Hc]%elem_of_cons]%elem_of_app]%elem_of_cons]%elem_of_app; [| done | | done |].
    - apply key_char_ascii. revert c Hc. by apply forallb_elem.
    - apply key_char_ascii. revert c Hc. apply forallb_elem, uuid_key_chars.
    - apply key_char_ascii. revert c Hc. by apply forallb_elem. }
  apply validate_key_ok. split_and!.
  - rewrite E. done.
  - rewrite key_utf8_len by done. rewrite E, !length_app. cbn [length lit]. rewrite length_app, uuid_text_length. cbn [length].
    unfold MAX_KEY_LENGTH. cbn. lia.
  - by rewrite E.
  - unfold ends_with. rewrite E, rev_app_distr. cbn [rev]. rewrite rev_app_distr. cbn [rev]. rewrite <- !app_assoc.
    destruct (rev file) as [|c r] eqn:Er; [apply (f_equal length) in Er; rewrite length_rev in Er; cbn in Er; lia|].
    change (rev s!"/") with [c!"/"]. cbn [app starts_with]. destruct (N.eqb_spec c!"/" c) as [<-|]; [|done].
    destruct Hslash. rewrite <- (rev_involutive file), Er. cbn [rev]. apply elem_of_app. right. apply list_elem_of_here.
  - rewrite Hsplit. cbn [forallb]. rewrite !segment_intro; try done; try apply uuid_key_chars; try (rewrite ?uuid_text_length; cbn; lia);
      intros H; apply (f_equal length) in H; rewrite ?uuid_text_length in H; cbn in H; lia.
Qed.
End Keys.

(** ** The file-system driver against the plain store *)

(** What reading a window of an object promises: the bytes it names, those past the end left out,
    and a refusal when it names none. *)
Definition window_of (bytes : list Z) (first last : Z) : result (list Z) storage_error :=
  if (first <? Z.of_nat (length bytes)) && (first <=? last) then Ok (slice first last bytes) else Err StRange.

Lemma slice_length first last bytes : 0 <= first <= last -> last < Z.of_nat (length bytes) ->
  Z.of_nat (length (slice first last bytes)) = last - first + 1.
Proof. intros. unfold slice. rewrite length_take, length_drop. lia. Qed.

Lemma slice_past first last bytes : 0 <= first -> first < Z.of_nat (length bytes) ->
  slice first (Z.min last (Z.of_nat (length bytes) - 1)) bytes = slice first last bytes.
Proof.
  intros H1 H2. unfold slice. destruct (Z.le_gt_cases last (Z.of_nat (length bytes) - 1)); [by rewrite Z.min_l by lia|].
  rewrite Z.min_r by lia. rewrite !take_ge; [done| |]; rewrite length_drop; lia.
Qed.

Lemma fs_get_range_window files key bytes first last : 0 <= first ->
  fs_get files key = Ok bytes -> fs_get_range files key first last = window_of bytes first last.
Proof.
  intros H0 Hg. unfold fs_get_range, window_of. rewrite Hg. cbn [result_bind].
  destruct (Z.eqb_spec (Z.of_nat (length bytes)) 0), (Z.leb_spec (Z.of_nat (length bytes)) first), (Z.ltb_spec last first),
    (Z.ltb_spec first (Z.of_nat (length bytes))), (Z.leb_spec first last); cbn [orb andb]; try lia; try done.
  by rewrite slice_past.
Qed.

Lemma slice_elem first last bytes i : 0 <= first -> 0 <= i -> slice first last bytes !! Z.to_nat i
  = if i <=? last - first then bytes !! Z.to_nat (first + i) else None.
Proof.
  intros H0 Hi. unfold slice. destruct (Z.leb_spec i (last - first)).
  - rewrite lookup_take_lt by lia. rewrite lookup_drop. f_equal. lia.
  - apply lookup_take_ge. lia.
Qed.

(** An object written under an accepted key reads back as written, whole and by window: byte
    [i] of the window is byte [first + i] of the object; no other object is touched, and a delete
    leaves nothing to read. *)
Theorem objects_read_back (payload_hash : list Z -> str) (files : stored_files) (key : str) (body : list Z) :
  validate_key key = Ok tt ->
  exists stored files',
    fs_put payload_hash key body files = Ok (stored, files')
    /\ so_size_bytes stored = Z.of_nat (length body) /\ so_checksum stored = payload_hash body
    /\ fs_get files' key = Ok body
    /\ (forall first last, 0 <= first <= last -> first < Z.of_nat (length body) ->
        exists window, fs_get_range files' key first last = Ok window
          /\ forall i, 0 <= i -> window !! Z.to_nat i = if i <=? last - first then body !! Z.to_nat (first + i) else None)
    /\ (forall first last, Z.of_nat (length body) <= first -> fs_get_range files' key first last = Err StRange)
    /\ (forall other, other <> key -> fs_get files' other = fs_get files other)
    /\ exists files'', fs_delete key files' = Ok (true, files'') /\ fs_get files'' key = Err StNotFound.
Proof.
  intros Hk. exists (StoredObject (Z.of_nat (length body)) (payload_hash body)), (<[key := body]> files).
  assert (fs_get (<[key := body]> files) key = Ok body) as Hg.
  { unfold fs_get. rewrite Hk. cbn [result_bind]. by rewrite lookup_insert_eq. }
  split_and!; [by unfold fs_put; rewrite Hk|done|done|exact Hg| | | |].
  - intros first last H1 H2. exists (slice first last body). split.
    + rewrite (fs_get_range_window _ _ body) by (lia || done). unfold window_of.
      destruct (Z.ltb_spec first (Z.of_nat (length body))), (Z.leb_spec first last); [done|lia..].
    + intros i Hi. apply slice_elem; lia.
  - intros first last H. rewrite (fs_get_range_window _ _ body) by (lia || done). unfold window_of.
    by destruct (Z.ltb_spec first (Z.of_nat (length body))); [lia|].
  - intros other Ho. unfold fs_get. destruct (validate_key other); [|done]. cbn [result_bind]. by rewrite lookup_insert_ne.
  - exists (delete key (<[key := body]> files)). split.
    + unfold fs_delete. rewrite Hk. cbn [result_bind]. by rewrite lookup_insert_eq.
    + unfold fs_get. rewrite Hk. cbn [result_bind]. by rewrite lookup_delete_eq.
Qed.

Lemma objects_read_back_witness :
  validate_key s!"sites/a/one.bin" = Ok tt
  /\ exists files', fs_put (fun _ => s!"00") s!"sites/a/one.bin" [111; 109; 110; 105] ∅ = Ok (StoredObject 4 s!"00", files')
     /\ fs_get_range files' s!"sites/a/one.bin" 1 9 = Ok [109; 110; 105].
Proof.
  assert (validate_key s!"sites/a/one.bin" = Ok tt) as Hk by (vm_compute; reflexivity). split; [exact Hk|].
  destruct (objects_read_back (fun _ => s!"00") ∅ s!"sites/a/one.bin" [111; 109; 110; 105] Hk)
    as (stored & files' & Hp & _ & _ & Hg & _ & _ & _ & _).
  exists files'. split; [rewrite Hp; by injection Hp as <- <-|].
  rewrite (fs_get_range_window _ _ [111; 109; 110; 105]) by (lia || exact Hg). vm_compute. reflexivity.
Defined.

Lemma keys_stay_inside_witness :
  validate_key s!"sites/a/one.txt" = Ok tt
  /\ resolve_path [s!"data"; s!"var"] s!"sites/a/one.txt" = [s!"one.txt"; s!"a"; s!"sites"; s!"data"; s!"var"].
Proof.
  assert (validate_key s!"sites/a/one.txt" = Ok tt) as H by (vm_compute; reflexivity). split; [exact H|].
  destruct (keys_stay_inside [s!"data"; s!"var"] s!"sites/a/one.txt" H) as [E _]. rewrite E. vm_compute. reflexivity.
Defined.

Lemma accepted_names_are_safe_witness :
  sanitize_filename s!"C:/Users/ada/Holiday Photo (1).PNG" = Ok s!"Holiday-Photo-1-.PNG"
  /\ sanitize_filename s!"Holiday-Photo-1-.PNG" = Ok s!"Holiday-Photo-1-.PNG".
Proof.
  assert (sanitize_filename s!"C:/Users/ada/Holiday Photo (1).PNG" = Ok s!"Holiday-Photo-1-.PNG") as H by (vm_compute; reflexivity).
  split; [exact H|]. destruct (accepted_names_are_safe _ _ H) as (_ & _ & Hs & _). apply Hs. vm_compute. lia.
Defined.

(** *** Where the cap does not hold *)

(** A name whose extension is itself long escapes the cap of two hundred characters and comes out
    hidden, and one without an extension is cut to a name that ends in a dot. *)
Theorem long_extension_escapes_the_cap :
  (exists name, sanitize_filename (s!"a." ++ replicate 300 c!"b") = Ok name
     /\ length name = 301%nat /\ starts_with name s!"." = true)
  /\ (exists name, sanitize_filename (replicate 300 c!"a") = Ok name /\ length name = 200%nat /\ ends_with name s!"." = true).
Proof. split; eexists; (split; [vm_compute; reflexivity|split; vm_compute; reflexivity]). Qed.
