(* ===== verification/Serving.v ===== *)
(** * Serving the bytes of a file: [crates/media/src/ranges.rs], the serve path of
      [apps/api/src/routes/media.rs]

    Which bytes a [Range] header asks for, what the store is asked for and what the answer reports,
    together with the validators of [Validators] and the serve plan of [Uploads].  The object store
    is an interface that both drivers implement; a header value is accepted or refused by the HTTP
    library, which is a parameter.  Numbers are [u64]s that the code keeps below the object's
    length. *)

From S2P Require Import Prelude Cron Backups MediaArchive Validators Uploads.

(** ** The store, as the serve path uses it *)

Class ObjectReader := {
  read_object : str -> result (list Z) storage_error;
  read_object_window : str -> Z -> Z -> result (list Z) storage_error
}.

(** A window is the bytes it names, whatever the driver. *)
Class WindowReads (R : ObjectReader) : Prop := {
  window_read key bytes first last : 0 <= first -> read_object key = Ok bytes ->
    read_object_window key first last = window_of bytes first last;
  window_of_error key e first last : 0 <= first -> read_object key = Err e ->
    read_object_window key first last = Err e \/ read_object_window key first last = Err StRange
}.

Definition fs_reader (files : stored_files) : ObjectReader := {|
  read_object := fs_get files;
  read_object_window := fs_get_range files
|}.

(** The S3 driver over a server that answers a path and an optional [Range]. *)
Definition s3_reader (answer : str -> option (Z * Z) -> http_answer) : ObjectReader := {|
  read_object := fun key => s3_get key (answer key None);
  read_object_window := fun key first last => s3_get_range key (answer key (Some (first, last)))
|}.

(** ** The [Range] header *)

Record byte_window := ByteWindow { bw_start : Z; bw_end : Z }.
Definition window_len (w : byte_window) : Z := bw_end w - bw_start w + 1.

Inductive range_plan := Whole | Partial (window : byte_window) (total : Z) | Unsatisfiable (total : Z).
Inductive window_refusal := WindowMalformed | WindowUnsatisfiable.

Definition parse_u64 (s : str) : option Z := Z.of_N <$> parse_unsigned u64_max s.

Definition parse_window (spec : str) (total : Z) : result byte_window window_refusal :=
  let? halves := ok_or (split_once c!"-" spec) WindowMalformed in
  let '(first, last) := halves in
  if bool_decide (trim first = []) then
    let? suffix := ok_or (parse_u64 (trim last)) WindowMalformed in
    refuse suffix =? 0 with WindowUnsatisfiable in
    Ok (ByteWindow (Z.max 0 (total - suffix)) (total - 1))
  else
    let? start := ok_or (parse_u64 (trim first)) WindowMalformed in
    refuse total <=? start with WindowUnsatisfiable in
    let? last := (if bool_decide (trim last = []) then Ok (total - 1)
                  else let? last := ok_or (parse_u64 (trim last)) WindowMalformed in Ok (Z.min last (total - 1))) in
    refuse last <? start with WindowMalformed in
    Ok (ByteWindow start last).

Definition BYTES_UNIT : str := s!"bytes=".

Definition range_spec (raw : str) : option str :=
  match strip_prefix raw BYTES_UNIT with
  | Some spec => Some spec
  | None =>
      match strip_prefix raw s!"BYTES=" with
      | Some spec => Some spec
      | None => if str_eqb (to_ascii_lowercase (take 6 raw)) BYTES_UNIT then Some (drop 6 raw) else None
      end
  end.

Definition decide_range (header : option str) (total : Z) : range_plan :=
  if total =? 0 then Whole
  else
    match given_text header ≫= range_spec with
    | None => Whole
    | Some spec =>
        match trim <$> split_on c!"," spec with
        | [only] =>
            match parse_window only total with
            | Ok window => Partial window total
            | Err WindowUnsatisfiable => Unsatisfiable total
            | Err WindowMalformed => Whole
            end
        | _ => Whole
        end
    end.

Definition content_range (plan : range_plan) (served : Z) : option str :=
  match plan with
  | Whole => None
  | Unsatisfiable total => Some (s!"bytes */" ++ show_Z total)
  | Partial window total =>
      Some (s!"bytes " ++ show_Z (bw_start window) ++ s!"-" ++ show_Z (bw_start window + Z.max 0 (served - 1)) ++ s!"/"
            ++ show_Z total)
  end.

Definition plan_status (plan : range_plan) : Z :=
  match plan with Partial _ _ => 206 | Unsatisfiable _ => 416 | Whole => 200 end.

(** ** The answer *)

(** The columns of a stored file the serve path reads; [mr_modified] is the instant the handler
    passes on. *)
Record media_row := MediaRow {
  mr_storage_key : str;
  mr_filename : str;
  mr_content_type : str;
  mr_size_bytes : Z;
  mr_checksum : str;
  mr_modified : option Z
}.
Definition row_size (m : media_row) : Z := Z.max 0 (mr_size_bytes m).

Inductive serve_error := ServeStorage (e : storage_error) | ServeHeader.

Record conditional_answer := ConditionalAnswer { ca_verdict : conditional; ca_etag : str; ca_rendered : option str }.

Record response := Response { rs_status : Z; rs_headers : list (str * str); rs_body : list Z }.

Section Serving.
Context `{C : Calendar, D : CivilDates, R : ObjectReader} (header_ok : str -> bool).

Definition from_store {A} (r : result A storage_error) : result A serve_error :=
  match r with Ok a => Ok a | Err e => Err (ServeStorage e) end.

Definition read_window (key : str) (range : option str) (claimed_total : Z) : result (Z * list Z) serve_error :=
  match decide_range range claimed_total with
  | Whole => let? bytes := from_store (read_object key) in Ok (200, bytes)
  | Unsatisfiable _ => Ok (416, [])
  | Partial window _ =>
      match read_object_window key (bw_start window) (bw_end window) with
      | Ok [] | Err StRange => let? bytes := from_store (read_object key) in Ok (200, bytes)
      | Ok bytes => Ok (206, bytes)
      | Err e => Err (ServeStorage e)
      end
  end.

Definition range_header_values (range : option str) (claimed_total : Z) (served : list Z) : option str :=
  content_range (decide_range range claimed_total) (Z.of_nat (length served)).

Definition conditional_headers (if_none_match if_modified_since : option str) (checksum : str) (last_modified : option Z) :
  conditional_answer :=
  let etag := weak_etag_of checksum in
  let rendered := imf_fixdate <$> last_modified in
  ConditionalAnswer (decide_conditional if_none_match if_modified_since etag rendered) etag rendered.

(** [headers.insert(name, header_value(value)?)] *)
Definition put_header (name value : str) (headers : list (str * str)) : result (list (str * str)) serve_error :=
  require header_ok value else ServeHeader in Ok (headers ++ [(name, value)]).

Definition apply_range_headers (range : option str) (headers : list (str * str)) : result (list (str * str)) serve_error :=
  let? headers := put_header s!"accept-ranges" s!"bytes" headers in
  match range with Some value => put_header s!"content-range" value headers | None => Ok headers end.

Definition apply_validators (answer : conditional_answer) (headers : list (str * str)) : result (list (str * str)) serve_error :=
  let? headers := put_header s!"etag" (ca_etag answer) headers in
  match ca_rendered answer with Some value => put_header s!"last-modified" value headers | None => Ok headers end.

Definition not_modified (answer : conditional_answer) : result response serve_error :=
  let? headers := apply_validators answer [] in Ok (Response 304 headers []).

Definition disposition_of (plan : serve_plan) (filename : str) : str :=
  sp_disposition plan ++ s!"; filename=" ++ [QUOTE] ++ filename ++ [QUOTE].

Definition serve (m : media_row) (cache_control : str) (range : option str) (answer : conditional_answer) :
  result response serve_error :=
  if bool_decide (ca_verdict answer = NotModified) then not_modified answer
  else
    let plan := plan_of_type (mr_content_type m) in
    let? body := read_window (mr_storage_key m) range (row_size m) in
    let ranges := range_header_values range (row_size m) (snd body) in
    let? headers := put_header s!"content-type" (sp_content_type plan) [] in
    let? headers := put_header s!"content-disposition" (disposition_of plan (mr_filename m)) headers in
    let? headers := put_header s!"cache-control" cache_control headers in
    let? headers := put_header s!"x-content-type-options" s!"nosniff" headers in
    let? headers := apply_range_headers ranges headers in
    let? headers := apply_validators answer headers in
    Ok (Response (fst body) headers (snd body)).
End Serving.

(** ** Drivers *)

Lemma fs_get_range_error files key e first last : fs_get files key = Err e -> fs_get_range files key first last = Err e.
Proof. intros H. unfold fs_get_range. by rewrite H. Qed.

#[export] Instance fs_window_reads files : WindowReads (fs_reader files).
Proof.
  split; cbn.
  - intros key bytes first last H0 Hg. by apply fs_get_range_window.
  - intros key e first last _ H. left. by apply fs_get_range_error.
Qed.

(** What the S3 driver relies on: a server that honours [Range] over the object a plain request
    answers. *)
Definition honours_ranges (answer : str -> option (Z * Z) -> http_answer) : Prop :=
  forall key first last, 0 <= first ->
    let whole := answer key None in
    answer key (Some (first, last)) =
      if is_success (ha_status whole) then
        match window_of (ha_body whole) first last with Ok bytes => HttpAnswer 206 bytes | Err _ => HttpAnswer 416 [] end
      else whole.

#[export] Instance s3_window_reads answer (H : honours_ranges answer) : WindowReads (s3_reader answer).
Proof.
  split; cbn.
  - intros key bytes first last H0. unfold s3_get, s3_get_range. destruct (validate_key key); [cbn [result_bind]|done].
    rewrite (H key first last H0). cbv zeta. destruct (is_success (ha_status (answer key None))) eqn:E; [|by destruct (_ =? 404)].
    intros [= ->]. unfold window_of. by destruct (_ && _).
  - intros key e first last H0. unfold s3_get, s3_get_range. destruct (validate_key key); [cbn [result_bind]|intros; by left].
    rewrite (H key first last H0). cbv zeta. destruct (is_success (ha_status (answer key None))) eqn:E; [done|]. rewrite E.
    destruct (_ =? 404); [by left|]. destruct (_ =? 416); [by right|by left].
Qed.

(** ** The header *)

Lemma parse_window_bounds spec total w : 0 < total -> parse_window spec total = Ok w -> 0 <= bw_start w <= bw_end w /\ bw_end w < total.
Proof.
  intros Ht. unfold parse_window. destruct (split_once c!"-" spec) as [[first last]|]; [cbn [ok_or result_bind]|done].
  assert (forall s n, parse_u64 s = Some n -> 0 <= n) as Hpos
    by (intros s n; unfold parse_u64; destruct (parse_unsigned u64_max s); intros [= <-]; lia).
  case_bool_decide.
  - destruct (parse_u64 (trim last)) as [n|] eqn:E; [apply Hpos in E; cbn [ok_or result_bind]|done].
    destruct (Z.eqb_spec n 0); [done|]. intros [= <-]. cbn. lia.
  - destruct (parse_u64 (trim first)) as [a|] eqn:E; [apply Hpos in E; cbn [ok_or result_bind]|done].
    destruct (Z.leb_spec total a); [done|]. case_bool_decide; cbn [result_bind].
    + destruct (Z.ltb_spec (total - 1) a); [done|]. intros [= <-]. cbn. lia.
    + destruct (parse_u64 (trim last)) as [b|]; [cbn [ok_or result_bind]|done].
      destruct (Z.ltb_spec (Z.min b (total - 1)) a); [done|]. intros [= <-]. cbn. lia.
Qed.

Lemma decide_range_window header total w t : 0 <= total -> decide_range header total = Partial w t ->
  t = total /\ 0 <= bw_start w <= bw_end w /\ bw_end w < total.
Proof.
  intros Ht. unfold decide_range. destruct (Z.eqb_spec total 0); [done|]. destruct (given_text header ≫= range_spec); [|done].
  destruct (trim <$> _) as [|only []]; [done| |done].
  destruct (parse_window only total) eqn:E; [|by case_match]. intros [= <- <-]. split; [done|]. apply (parse_window_bounds only); [lia|done].
Qed.

Lemma decide_range_refused header total t : decide_range header total = Unsatisfiable t -> t = total.
Proof.
  unfold decide_range. repeat case_match; congruence.
Qed.

(** A number as a client writes it. *)
Definition is_u64 (n : Z) : Prop := 0 <= n <= Z.of_N u64_max.

Lemma show_Z_digits n : 0 <= n -> digits (show_Z n).
Proof. intros H. unfold show_Z. destruct (Z.ltb_spec n 0); [lia|]. apply show_N_is_digits. Qed.

Lemma parse_u64_show n : is_u64 n -> parse_u64 (trim (show_Z n)) = Some n.
Proof.
  intros [H0 H]. rewrite digits_trim by by apply show_Z_digits. unfold parse_u64.
  rewrite (parse_unsigned_digits _ _ (Z.to_N n)); [cbn; f_equal; lia|by apply show_Z_digits| |lia].
  unfold show_Z. destruct (Z.ltb_spec n 0); [lia|]. apply digits_value_show.
Qed.

Definition spec_char (c : char) : bool := negb (is_whitespace c) && negb (c =? c!",")%N.

Lemma unit_length unit : to_ascii_lowercase unit = BYTES_UNIT -> length unit = 6%nat.
Proof. intros H. apply (f_equal length) in H. unfold to_ascii_lowercase in H. by rewrite length_fmap in H. Qed.

Lemma range_spec_unit unit spec : to_ascii_lowercase unit = BYTES_UNIT -> range_spec (unit ++ spec) = Some spec.
Proof.
  intros H. pose proof (unit_length unit H) as Hl. unfold range_spec.
  assert (forall p r, length p = 6%nat -> strip_prefix (unit ++ spec) p = Some r -> r = spec) as Hp.
  { intros p r Hlp E%strip_prefix_some. apply app_inj_1 in E; [by destruct E|lia]. }
  destruct (strip_prefix _ BYTES_UNIT) eqn:E; [by f_equal; apply (Hp BYTES_UNIT)|].
  destruct (strip_prefix _ s!"BYTES=") eqn:E'; [by f_equal; apply (Hp s!"BYTES=")|].
  rewrite take_app_length', drop_app_length' by done. rewrite H. by rewrite str_eqb_refl.
Qed.

Lemma lower_white c : is_whitespace (if is_ascii_uppercase c then (c + 32)%N else c) = false -> is_whitespace c = false.
Proof.
  destruct (is_ascii_uppercase c) eqn:E; [|done]. intros _. unfold is_ascii_uppercase, is_whitespace, in_range in *.
  apply andb_true_iff in E as [H1%N.leb_le H2%N.leb_le].
  repeat (rewrite orb_false_iff || rewrite andb_false_iff || rewrite N.leb_gt || rewrite N.eqb_neq). repeat split; lia.
Qed.

Lemma unit_plain unit : to_ascii_lowercase unit = BYTES_UNIT -> forallb (fun c => negb (is_whitespace c)) unit = true.
Proof.
  intros H. apply forallb_elem. intros c Hc. apply negb_true_iff, lower_white.
  assert (forallb (fun c => negb (is_whitespace c)) BYTES_UNIT = true) as Hb by (vm_compute; reflexivity).
  rewrite <- H, forallb_elem in Hb. apply negb_true_iff, Hb. unfold to_ascii_lowercase. apply list_elem_of_fmap. by exists c.
Qed.

Lemma decide_range_spec unit spec total : to_ascii_lowercase unit = BYTES_UNIT -> forallb spec_char spec = true -> 0 < total ->
  decide_range (Some (unit ++ spec)) total =
    match parse_window spec total with
    | Ok window => Partial window total | Err WindowUnsatisfiable => Unsatisfiable total | Err WindowMalformed => Whole
    end.
Proof.
  intros Hu Hs Ht. pose proof (unit_length unit Hu) as Hl. rewrite forallb_elem in Hs.
  assert (forall c, c ∈ spec -> is_whitespace c = false /\ c <> c!",") as Hc.
  { intros c Hc%Hs. unfold spec_char in Hc. apply andb_true_iff in Hc as [H1%negb_true_iff H2%negb_true_iff%N.eqb_neq]. done. }
  assert (forallb (fun c => negb (is_whitespace c)) spec = true) as Hw by (apply forallb_elem; intros c [-> _]%Hc; done).
  unfold decide_range. destruct (Z.eqb_spec total 0); [lia|]. unfold given_text. cbn [fmap option_fmap option_map mbind option_bind].
  rewrite trim_id by (rewrite forallb_app, Hw; by rewrite unit_plain).
  rewrite bool_decide_eq_false_2 by (intros E; apply (f_equal length) in E; rewrite length_app, Hl in E; done).
  cbn [mbind option_bind]. rewrite range_spec_unit by done. rewrite split_on_none by by intros [_ H]%Hc.
  cbn [fmap list_fmap]. by rewrite trim_id.
Qed.

Lemma show_Z_spec n : 0 <= n -> forallb spec_char (show_Z n) = true.
Proof.
  intros H. pose proof (show_Z_digits n H) as Hd. apply forallb_elem. intros c Hc. unfold spec_char.
  pose proof (digits_elem _ _ Hd Hc) as Hg. rewrite digit_not_white by done. cbn. apply negb_true_iff, N.eqb_neq.
  intros ->. done.
Qed.

Lemma show_Z_dash n : 0 <= n -> c!"-" ∉ show_Z n.
Proof. intros H. apply digits_without; [by apply show_Z_digits|done]. Qed.

Lemma show_Z_nonempty n : 0 <= n -> trim (show_Z n) <> [].
Proof. intros H. pose proof (show_Z_digits n H) as Hd. rewrite digits_trim by done. apply Hd. Qed.

Lemma range_spec_comma raw spec : range_spec raw = Some spec -> c!"," ∈ raw -> c!"," ∈ spec.
Proof.
  unfold range_spec. intros H Hc. destruct (strip_prefix raw BYTES_UNIT) eqn:E.
  - injection H as <-. apply strip_prefix_some in E as ->. apply elem_of_app in Hc as [Hc|]; [|done]. by apply (bool_decide_eq_true_2 _) in Hc.
  - destruct (strip_prefix raw s!"BYTES=") eqn:E'.
    + injection H as <-. apply strip_prefix_some in E' as ->. apply elem_of_app in Hc as [Hc|]; [|done]. by apply (bool_decide_eq_true_2 _) in Hc.
    + destruct (str_eqb _ BYTES_UNIT) eqn:Hu; [|done]. injection H as <-. apply str_eqb_eq in Hu.
      rewrite <- (take_drop 6 raw) in Hc. apply elem_of_app in Hc as [Hc|]; [|done].
      assert (c!"," ∈ BYTES_UNIT) as Hb; [|by apply (bool_decide_eq_true_2 _) in Hb].
      rewrite <- Hu. unfold to_ascii_lowercase. apply list_elem_of_fmap. by exists c!",".
Qed.

Lemma decide_range_list raw total : c!"," ∈ raw -> decide_range (Some raw) total = Whole.
Proof.
  intros Hc. unfold decide_range. destruct (total =? 0); [done|]. unfold given_text. cbn [fmap option_fmap option_map mbind option_bind].
  case_bool_decide; [done|]. cbn [mbind option_bind]. destruct (range_spec (trim raw)) as [spec|] eqn:E; [|done].
  apply range_spec_comma in E; [|by apply trim_keeps]. apply split_on_comma in E.
  destruct (split_on _ spec) as [|x [|y l]]; [done|cbn in E; lia|done].
Qed.

(** A range header is read as it is written, in any case of its unit: [a-b] asks for the bytes
    [a] to [b] as far as the object goes, [a-] for the rest, [-n] for the last [n]; a window that
    starts past the object or counts nothing is refused, one that ends before it starts is ignored,
    and so is a list of windows.  Whatever the header, the window asked of the store lies inside
    the object. *)
Theorem ranges_are_read_as_written (unit : str) (total a b : Z) :
  to_ascii_lowercase unit = BYTES_UNIT -> 0 < total -> is_u64 a -> is_u64 b ->
  decide_range (Some (unit ++ show_Z a ++ s!"-" ++ show_Z b)) total
    = (if total <=? a then Unsatisfiable total
       else if b <? a then Whole else Partial (ByteWindow a (Z.min b (total - 1))) total)
  /\ decide_range (Some (unit ++ show_Z a ++ s!"-")) total
    = (if total <=? a then Unsatisfiable total else Partial (ByteWindow a (total - 1)) total)
  /\ decide_range (Some (unit ++ s!"-" ++ show_Z a)) total
    = (if a =? 0 then Unsatisfiable total else Partial (ByteWindow (Z.max 0 (total - a)) (total - 1)) total)
  /\ (forall s t, decide_range (Some (unit ++ s ++ s!"," ++ t)) total = Whole)
  /\ (forall header w t, decide_range header total = Partial w t ->
      t = total /\ 0 <= bw_start w <= bw_end w /\ bw_end w < total).
Proof.
  intros Hu Ht Ha Hb. pose proof (proj1 Ha) as Ha0. pose proof (proj1 Hb) as Hb0.
  split_and!.
  - rewrite decide_range_spec by (done || (rewrite !forallb_app, !show_Z_spec by done; done)). unfold parse_window.
    change (s!"-") with [c!"-"]. cbn [app]. rewrite split_once_app by by apply show_Z_dash. cbn [ok_or result_bind]. rewrite !bool_decide_eq_false_2 by by apply show_Z_nonempty.
    rewrite !parse_u64_show by done. cbn [ok_or result_bind].
    destruct (Z.leb_spec total a); [done|]. cbn [result_bind].
    destruct (Z.ltb_spec (Z.min b (total - 1)) a), (Z.ltb_spec b a); (lia || done).
  - rewrite decide_range_spec by (done || (rewrite !forallb_app, !show_Z_spec by done; done)). unfold parse_window.
    change (s!"-") with [c!"-"]. cbn [app]. rewrite split_once_app by by apply show_Z_dash. cbn [ok_or result_bind]. rewrite bool_decide_eq_false_2 by by apply show_Z_nonempty.
    rewrite parse_u64_show by done. cbn [ok_or result_bind].
    destruct (Z.leb_spec total a); [done|]. rewrite bool_decide_eq_true_2 by done. cbn [result_bind].
    destruct (Z.ltb_spec (total - 1) a); [lia|done].
  - rewrite decide_range_spec by (done || (rewrite !forallb_app, !show_Z_spec by done; done)). unfold parse_window.
    change (s!"-" ++ show_Z a) with ([] ++ c!"-" :: show_Z a) at 1. rewrite split_once_app by by apply not_elem_of_nil.
    cbn [ok_or result_bind]. rewrite bool_decide_eq_true_2 by done. rewrite parse_u64_show by done. cbn [ok_or result_bind].
    by destruct (Z.eqb_spec a 0).
  - intros s t. apply decide_range_list. rewrite !elem_of_app. right. right. left. apply list_elem_of_here.
  - intros header w t. apply decide_range_window. lia.
Qed.

(** ** The bytes *)

Section Served.
Context `{C : Calendar, D : CivilDates, R : ObjectReader, W : !WindowReads R}.

Lemma read_window_exact key bytes range total : 0 <= total -> read_object key = Ok bytes ->
  read_window key range total =
    match decide_range range total with
    | Whole => Ok (200, bytes)
    | Unsatisfiable _ => Ok (416, [])
    | Partial w _ => if bw_start w <? Z.of_nat (length bytes) then Ok (206, slice (bw_start w) (bw_end w) bytes) else Ok (200, bytes)
    end.
Proof.
  intros Ht Hr. unfold read_window. destruct (decide_range range total) as [|w t|t] eqn:E; [by rewrite Hr| |done].
  apply decide_range_window in E as (-> & Hw & Hend); [|done]. rewrite (window_read key bytes), Hr by (done || lia). unfold window_of.
  destruct (Z.ltb_spec (bw_start w) (Z.of_nat (length bytes))) as [Hin|]; [|done]. destruct (Z.leb_spec (bw_start w) (bw_end w)); [|lia].
  cbn [andb]. destruct (slice (bw_start w) (bw_end w) bytes) eqn:E; [|done]. exfalso.
  apply (f_equal length) in E. unfold slice in E. rewrite length_take, length_drop in E. cbn [length] in E. lia.
Qed.

(** C18. What is answered to a range, over any store that reads windows and whatever the row says
    about the length: the whole object, nothing but its length, or the window.  An answer [206]
    carries exactly the bytes from the first one asked for to the last one the object has of the
    window, and its [Content-Range] names those bytes, with the length the row records as the total;
    a window the object does not reach is answered with the whole object (and keeps the header, see
    [fallback_carries_a_content_range]).  A missing object is an error, except that a range the
    recorded length refuses is answered [416] without asking the store. *)
Theorem served_bytes_are_the_named_ones (key : str) (range : option str) (total : Z) :
  0 <= total ->
  (forall bytes, read_object key = Ok bytes ->
    match decide_range range total with
    | Whole => read_window key range total = Ok (200, bytes) /\ range_header_values range total bytes = None
    | Unsatisfiable t =>
        read_window key range total = Ok (416, []) /\ range_header_values range total [] = Some (s!"bytes */" ++ show_Z total)
    | Partial w t =>
        let last := Z.min (bw_end w) (Z.of_nat (length bytes) - 1) in
        if bw_start w <? Z.of_nat (length bytes) then
          exists body, read_window key range total = Ok (206, body)
            /\ Z.of_nat (length body) = last - bw_start w + 1
            /\ (forall i, 0 <= i -> body !! Z.to_nat i = if bw_start w + i <=? last then bytes !! Z.to_nat (bw_start w + i) else None)
            /\ range_header_values range total body
               = Some (s!"bytes " ++ show_Z (bw_start w) ++ s!"-" ++ show_Z last ++ s!"/" ++ show_Z total)
        else read_window key range total = Ok (200, bytes)
    end)
  /\ (forall e, read_object key = Err e ->
      read_window key range total
      = match decide_range range total with Unsatisfiable _ => Ok (416, []) | _ => Err (ServeStorage e) end).
Proof.
  intros Ht. split.
  - intros bytes Hr. pose proof (read_window_exact key bytes range total Ht Hr) as Hrw. unfold range_header_values.
    destruct (decide_range range total) as [|w t|t] eqn:E; [by split| |].
    + apply decide_range_window in E as (-> & Hw & Hend); [|done]. cbv zeta.
      destruct (Z.ltb_spec (bw_start w) (Z.of_nat (length bytes))) as [Hin|]; [|done].
      rewrite <- slice_past in Hrw by lia. set (last := Z.min (bw_end w) (Z.of_nat (length bytes) - 1)) in *.
      assert (Z.of_nat (length (slice (bw_start w) last bytes)) = last - bw_start w + 1) as Hl by (apply slice_length; lia).
      exists (slice (bw_start w) last bytes). split_and!; [done|done| |].
      * intros i Hi. rewrite slice_elem by lia. by destruct (Z.leb_spec i (last - bw_start w)), (Z.leb_spec (bw_start w + i) last); first [lia|done].
      * unfold content_range. rewrite Hl. repeat f_equal. lia.
    + apply decide_range_refused in E as ->. done.
  - intros e He. unfold read_window. destruct (decide_range range total) as [|w t|t] eqn:E; [by rewrite He| |done].
    apply decide_range_window in E as (-> & Hw & Hend); [|done]. rewrite He.
    by destruct (window_of_error key e (bw_start w) (bw_end w) (proj1 Hw) He) as [->| ->]; [destruct e|].
Qed.
End Served.

(** ** The whole answer *)

(** Text a header may carry whatever the library: printable ASCII. *)
Definition printable (s : str) : bool := forallb (in_range 32 126) s.

Lemma printable_app s t : printable (s ++ t) = printable s && printable t.
Proof. apply forallb_app. Qed.

Lemma name_printable name : forallb name_char name = true -> printable name = true.
Proof.
  unfold printable. rewrite !forallb_elem. intros Hn c Hin. apply Hn, name_char_cases in Hin. unfold in_range.
  rewrite andb_true_iff, !N.leb_le. lia.
Qed.
Lemma printable_nth n l : forallb printable l = true -> printable (nth n l []) = true.
Proof. revert n. induction l as [|s l IH]; intros [|n] H; cbn in *; try done; apply andb_true_iff in H as [? ?]; auto. Qed.

Lemma digits_printable s : digits s -> printable s = true.
Proof.
  intros [_ H]. unfold printable. rewrite forallb_elem in *. intros c Hc. specialize (H c Hc). unfold is_ascii_digit, in_range in *.
  rewrite andb_true_iff, !N.leb_le in *. lia.
Qed.

Lemma show_Z_printable n : printable (show_Z n) = true.
Proof.
  unfold show_Z. destruct (n <? 0); [change (printable (show_N (Z.to_N (- n))) = true)|]; apply digits_printable, show_N_is_digits.
Qed.

Lemma plan_of_type_cases stored :
  (plan_of_type stored = ServePlan stored s!"inline" /\ stored ∈ INLINE_CONTENT_TYPES)
  \/ (plan_of_type stored = ServePlan s!"application/octet-stream" s!"attachment" /\ stored ∉ INLINE_CONTENT_TYPES).
Proof.
  unfold plan_of_type. destruct (List.find _ _) as [allowed|] eqn:E; [left|right].
  - apply find_some in E as [Hin He%str_eqb_eq]. subst allowed. split; [done|]. by apply list_elem_of_In.
  - split; [done|]. intros Hin%list_elem_of_In. apply (find_none _ _ E) in Hin. by rewrite str_eqb_refl in Hin.
Qed.

Lemma plan_printable stored : printable (sp_content_type (plan_of_type stored)) = true /\ printable (sp_disposition (plan_of_type stored)) = true.
Proof.
  destruct (plan_of_type_cases stored) as [[-> H]|[-> _]]; [|done]. split; [|done].
  assert (forallb printable INLINE_CONTENT_TYPES = true) as Hp by (vm_compute; reflexivity). rewrite forallb_elem in Hp. auto.
Qed.

Section Answer.
Context `{C : Calendar, D : CivilDates, R : ObjectReader} (header_ok : str -> bool)
  (header_ok_printable : forall s, printable s = true -> header_ok s = true).

Lemma imf_fixdate_printable i : printable (imf_fixdate i) = true.
Proof.
  assert (forall w n, printable (zero_padded w n) = true) as Hz by (intros w n; apply digits_printable, zero_padded_digits).
  unfold imf_fixdate. rewrite !printable_app, !Hz, !printable_nth by reflexivity. reflexivity.
Qed.

Lemma content_range_printable plan served value : content_range plan served = Some value -> printable value = true.
Proof.
  destruct plan as [|w total|total]; [done| |]; unfold content_range; set (show := show_Z); intros H; apply (inj Some) in H as <-;
    rewrite !printable_app; unfold show; by rewrite !show_Z_printable.
Qed.

Lemma put_header_ok name value headers : printable value = true -> put_header header_ok name value headers = Ok (headers ++ [(name, value)]).
Proof. intros H. unfold put_header. by rewrite header_ok_printable. Qed.

Definition validators_of (answer : conditional_answer) : list (str * str) :=
  (s!"etag", ca_etag answer) :: match ca_rendered answer with Some value => [(s!"last-modified", value)] | None => [] end.

Lemma apply_validators_ok if_none_match if_modified_since checksum modified headers : printable checksum = true ->
  let answer := conditional_headers if_none_match if_modified_since checksum modified in
  apply_validators header_ok answer headers = Ok (headers ++ validators_of answer).
Proof.
  intros Hc answer. unfold apply_validators, validators_of, answer, conditional_headers. cbn [ca_etag ca_rendered].
  rewrite put_header_ok; cbn [result_bind].
  - destruct modified as [t|]; [|done]. cbn [fmap option_fmap option_map]. rewrite put_header_ok by apply imf_fixdate_printable.
    by rewrite <- app_assoc.
  - unfold weak_etag_of. change (QUOTE :: checksum ++ [QUOTE]) with ([QUOTE] ++ checksum ++ [QUOTE]). by rewrite !printable_app, Hc.
Qed.

(** The answer for a file under the name the library gave it: a caller that holds the bytes is
    told so with the validators alone and without a read of the store; any other gets the bytes
    [read_window] reads, never sniffed, as themselves only for the types a browser shows safely and
    as an opaque download for every other, with the unit of ranges and the validators on every
    answer; a failing store is the only error. *)
Theorem serve_answers (m : media_row) (cache_control : str) (range if_none_match if_modified_since : option str) :
  forallb name_char (mr_filename m) = true -> printable (mr_checksum m) = true -> printable cache_control = true ->
  let answer := conditional_headers if_none_match if_modified_since (mr_checksum m) (mr_modified m) in
  let plan := plan_of_type (mr_content_type m) in
  serve header_ok m cache_control range answer =
    match ca_verdict answer with
    | NotModified => Ok (Response 304 (validators_of answer) [])
    | Send =>
        match read_window (mr_storage_key m) range (row_size m) with
        | Err e => Err e
        | Ok (status, body) =>
            Ok (Response status
                  ([(s!"content-type", sp_content_type plan);
                    (s!"content-disposition", sp_disposition plan ++ s!"; filename=" ++ [QUOTE] ++ mr_filename m ++ [QUOTE]);
                    (s!"cache-control", cache_control); (s!"x-content-type-options", s!"nosniff"); (s!"accept-ranges", s!"bytes")]
                   ++ match range_header_values range (row_size m) body with
                      | Some value => [(s!"content-range", value)] | None => [] end
                   ++ validators_of answer) body)
        end
    end
  /\ (sp_content_type plan = mr_content_type m /\ sp_disposition plan = s!"inline" /\ mr_content_type m ∈ INLINE_CONTENT_TYPES
      \/ sp_content_type plan = s!"application/octet-stream" /\ sp_disposition plan = s!"attachment").
Proof.
  intros Hn Hc Hcc answer plan. split; cycle 1.
  { destruct (plan_of_type_cases (mr_content_type m)) as [[E H]|[E _]]; unfold plan; rewrite E; cbn; [by left|by right]. }
  pose proof (apply_validators_ok if_none_match if_modified_since (mr_checksum m) (mr_modified m)) as Hv. unfold serve.
  fold answer in Hv. destruct (ca_verdict answer); cycle 1.
  { rewrite bool_decide_eq_true_2 by done. unfold not_modified. by rewrite Hv. }
  rewrite bool_decide_eq_false_2 by done. destruct (read_window _ _ _) as [[status body]|]; [cbn [result_bind fst snd]|done].
  destruct (plan_printable (mr_content_type m)) as [Hp1 Hp2].
  pose proof (name_printable _ Hn) as Hf.
  rewrite put_header_ok by done. cbn [result_bind app].
  rewrite put_header_ok by (unfold disposition_of; rewrite !printable_app, Hp2, Hf; reflexivity). cbn [result_bind app].
  rewrite put_header_ok by done. cbn [result_bind app]. rewrite put_header_ok by done. cbn [result_bind app].
  unfold apply_range_headers. rewrite put_header_ok by done. cbn [result_bind app].
  destruct (range_header_values range (row_size m) body) as [value|] eqn:E.
  - rewrite put_header_ok by by apply content_range_printable in E. cbn [result_bind]. by rewrite Hv.
  - cbn [result_bind]. by rewrite Hv.
Qed.
End Answer.

(** *** Witnesses *)

Definition sample_row : media_row :=
  MediaRow s!"sites/a/clip.mp4" s!"clip.mp4" s!"video/mp4" 12 s!"cd34" (Some sample_modified).
Definition sample_store : stored_files := {[ s!"sites/a/clip.mp4" := [0; 1; 2; 3; 4; 5; 6; 7; 8; 9; 10; 11] ]}.

Lemma ranges_are_read_as_written_witness :
  to_ascii_lowercase s!"Bytes=" = BYTES_UNIT /\ is_u64 3 /\ is_u64 90
  /\ decide_range (Some (s!"Bytes=" ++ show_Z 3 ++ s!"-" ++ show_Z 90)) 12 = Partial (ByteWindow 3 11) 12.
Proof.
  assert (is_u64 3 /\ is_u64 90) as [Ha Hb] by (unfold is_u64; vm_compute; repeat split; discriminate).
  assert (to_ascii_lowercase s!"Bytes=" = BYTES_UNIT) as Hu by (vm_compute; reflexivity). split_and!; [done..|].
  destruct (ranges_are_read_as_written s!"Bytes=" 12 3 90 Hu ltac:(lia) Ha Hb) as [-> _]. vm_compute. reflexivity.
Defined.

Lemma served_bytes_are_the_named_ones_witness :
  exists body, @read_window (fs_reader sample_store) s!"sites/a/clip.mp4" (Some s!"bytes=9-") 12 = Ok (206, body) /\ body = [9; 10; 11].
Proof.
  destruct (@served_bytes_are_the_named_ones (fs_reader sample_store) _ s!"sites/a/clip.mp4" (Some s!"bytes=9-") 12 ltac:(lia)) as [H _].
  specialize (H [0; 1; 2; 3; 4; 5; 6; 7; 8; 9; 10; 11] ltac:(vm_compute; reflexivity)).
  change (decide_range (Some s!"bytes=9-") 12) with (Partial (ByteWindow 9 11) 12) in H. cbn in H.
  destruct H as (body & Hr & _). exists body. split; [exact Hr|]. revert Hr. vm_compute. congruence.
Defined.

Lemma serve_answers_witness :
  exists headers, @serve (fs_reader sample_store) printable sample_row s!"private, max-age=300" (Some s!"bytes=9-")
    (conditional_headers None None s!"cd34" (Some sample_modified)) = Ok (Response 206 headers [9; 10; 11]).
Proof.
  destruct (@serve_answers _ _ (fs_reader sample_store) printable (fun s H => H) sample_row s!"private, max-age=300" (Some s!"bytes=9-")
    None None ltac:(vm_compute; reflexivity) ltac:(vm_compute; reflexivity) ltac:(vm_compute; reflexivity)) as [H _].
  eexists. etransitivity; [exact H|]. vm_compute. reflexivity.
Defined.

(** *** Where an answer contradicts itself *)

(** A window the object does not reach is answered [200] with the whole object, and still with a
    [Content-Range], whose last byte is past the length it reports. *)
Theorem fallback_carries_a_content_range :
  exists headers body,
    @serve (fs_reader sample_store) printable (MediaRow s!"sites/a/clip.mp4" s!"clip.mp4" s!"video/mp4" 20 s!"cd34" None)
      s!"private, max-age=300" (Some s!"bytes=15-") (conditional_headers None None s!"cd34" None) = Ok (Response 200 headers body)
    /\ length body = 12%nat /\ (s!"content-range", s!"bytes 15-26/20") ∈ headers.
Proof. eexists _, _. split; [vm_compute; reflexivity|]. split; [done|]. apply (bool_decide_unpack _). vm_compute. exact I. Qed.

(** A server that ignores [Range] answers [200] with the whole object: the driver takes it for the
    window, and the answer is a [206] whose bytes are not the ones it names. *)
Theorem ignored_range_is_taken_for_the_window :
  let ignoring := fun (_ : str) (_ : option (Z * Z)) => HttpAnswer 200 [0; 1; 2; 3; 4; 5; 6; 7; 8; 9; 10; 11] in
  @read_window (s3_reader ignoring) s!"sites/a/clip.mp4" (Some s!"bytes=9-10") 12
    = Ok (206, [0; 1; 2; 3; 4; 5; 6; 7; 8; 9; 10; 11])
  /\ range_header_values (Some s!"bytes=9-10") 12 [0; 1; 2; 3; 4; 5; 6; 7; 8; 9; 10; 11] = Some s!"bytes 9-20/12".
Proof. split; vm_compute; reflexivity. Qed.

(** The total of a [Content-Range] is the length the row records, not the number of bytes that arrived
    nor the length of the object. *)
Theorem total_is_the_rows :
  @read_window (fs_reader sample_store) s!"sites/a/clip.mp4" (Some s!"bytes=9-") 20 = Ok (206, [9; 10; 11])
  /\ range_header_values (Some s!"bytes=9-") 20 [9; 10; 11] = Some s!"bytes 9-11/20".
Proof. split; vm_compute; reflexivity. Qed.
