(* ===== verification/Scanning.v ===== *)
(** * The scanning pipeline: [crates/media/src/scanning.rs], [apps/api/src/routes/media_scan.rs],
      the scan gate of [apps/api/src/routes/media.rs]

    What a scanner's answer becomes, a site's policy and its validation, the sweep over pending
    files, the quarantine and its release, the gate every read passes, and the statement of
    [versions.rs] that replaces a file's bytes.  Each statement is a step over the rows; a sweep
    claims in one transaction and writes each verdict in another, so sweeps interleave.  The
    scanner, the object store and the database's own failures are parameters. *)

From S2P Require Import Prelude Json Backups MediaArchive Uploads Validators Serving.

(** ** Verdicts *)

Inductive verdict :=
  | VClean (engine : str)
  | VFlagged (engine detail : str)
  | VError (detail : str)
  | VSkipped (limit_mb : Z).
#[export] Instance verdict_eq_dec : EqDecision verdict.
Proof. solve_decision. Defined.

Definition verdict_status (v : verdict) : str :=
  match v with VClean _ => s!"clean" | VFlagged _ _ => s!"flagged" | VError _ => s!"error" | VSkipped _ => s!"skipped" end.
Definition verdict_detail (v : verdict) : str :=
  match v with VClean _ => [] | VFlagged _ detail | VError detail => detail | VSkipped _ => [] end.
Definition verdict_engine (v : verdict) : str :=
  match v with VClean engine | VFlagged engine _ => engine | VError _ | VSkipped _ => [] end.
Definition servable (v : verdict) : bool := match v with VClean _ | VSkipped _ => true | _ => false end.
Definition is_flagged (v : verdict) : bool := match v with VFlagged _ _ => true | _ => false end.

Definition ENGINE_NAME_LIMIT : nat := 80.
Definition DETAIL_LIMIT : nat := 500.
Definition RELEASE_REASON_LIMIT : nat := 300.
Definition ELLIPSIS : char := 8230%N.
Definition EM_DASH : char := 8212%N.

Definition flatten_line (c : char) : char := if existsb (N.eqb c) [10; 13; 9]%N then c!" " else c.
Definition bounded_detail (raw fallback : str) : str :=
  let trimmed := trim (flatten_line <$> raw) in
  let text := if bool_decide (trimmed = []) then fallback else trimmed in
  if (length text <=? DETAIL_LIMIT)%nat then text else take (DETAIL_LIMIT - 1) text ++ [ELLIPSIS].

Record scan_response := ScanResponse { sc_status : str; sc_detail : str; sc_engine : str }.

(** [parse_response]: over the value [serde_json] reads, nothing when the body is not JSON. *)
Section Response.
Context `{JsonNumber}.

Definition text_field (key : str) (object : list (str * value)) : str :=
  default [] (obj_get key object ≫= as_str).

Definition parse_response (body : option value) : result scan_response str :=
  let? value := ok_or body s!"the scanner's answer is not JSON" in
  let? object := ok_or (as_object value) s!"the scanner's answer is not a JSON object" in
  let status := text_field s!"status" object in
  let status :=
    if bool_decide (status = []) then
      let alternative := text_field s!"result" object in
      if bool_decide (alternative = []) then text_field s!"verdict" object else alternative
    else status in
  Ok (ScanResponse status (text_field s!"detail" object) (text_field s!"engine" object)).
End Response.

Definition CLEAN_WORDS : list str := [s!"clean"; s!"ok"; s!"pass"; s!"safe"].
Definition FLAGGED_WORDS : list str := [s!"flagged"; s!"infected"; s!"malware"; s!"threat"; s!"found"; s!"suspicious"].
Definition SKIPPED_WORDS : list str := [s!"skipped"; s!"too_large"].
Definition ERROR_WORDS : list str := [s!"error"; s!"failed"].

Definition interpret (response : scan_response) (default_engine : str) : verdict :=
  let engine := if bool_decide (trim (sc_engine response) = []) then default_engine
                else take ENGINE_NAME_LIMIT (trim (sc_engine response)) in
  let word := to_ascii_lowercase (trim (sc_status response)) in
  if existsb (str_eqb word) CLEAN_WORDS then VClean engine
  else if existsb (str_eqb word) FLAGGED_WORDS then
    VFlagged engine (bounded_detail (sc_detail response) s!"the scanner flagged this file")
  else if existsb (str_eqb word) SKIPPED_WORDS then VSkipped 0
  else if existsb (str_eqb word) ERROR_WORDS then
    VError (bounded_detail (sc_detail response) s!"the scanner reported an error")
  else VError (s!"the scanner answered with an unrecognised status `" ++ bounded_detail (sc_status response) []
               ++ s!"` " ++ [EM_DASH] ++ s!" treated as a failure rather than a pass").

(** ** A site's policy *)

Definition MIN_TIMEOUT_SECONDS : Z := 1.
Definition MAX_TIMEOUT_SECONDS : Z := 120.
Definition MIN_SCAN_MB : Z := 1.
Definition MAX_SCAN_MB : Z := 1024.

Record site_scan := SiteScan {
  ss_site_id : Z;
  ss_enabled : bool;
  ss_endpoint : str;
  ss_secret_env : str;
  ss_timeout_seconds : Z;
  ss_on_error : str;
  ss_max_scan_mb : Z
}.
Record new_site_scan := NewSiteScan {
  ns_enabled : option bool;
  ns_endpoint : option str;
  ns_secret_env : option str;
  ns_timeout_seconds : option Z;
  ns_on_error : option str;
  ns_max_scan_mb : option Z
}.

Definition scan_defaults : new_site_scan :=
  NewSiteScan (Some false) (Some []) (Some []) (Some 30) (Some s!"hold") (Some 100).

(** The row of a complete policy, the columns that were left out at their defaults. *)
Definition row_of_policy (site_id : Z) (n : new_site_scan) : site_scan :=
  SiteScan site_id (default false (ns_enabled n)) (default [] (ns_endpoint n)) (default [] (ns_secret_env n))
    (default 30 (ns_timeout_seconds n)) (default s!"hold" (ns_on_error n)) (default 100 (ns_max_scan_mb n)).
Definition platform_defaults (site_id : Z) : site_scan := row_of_policy site_id scan_defaults.

Definition serves_on_error (p : site_scan) : bool := str_eqb (ss_on_error p) s!"serve".
Definition scans_size (p : site_scan) (size_bytes : Z) : bool :=
  size_bytes <=? Z.max 0 (Z.max (- 2 ^ 31) (Z.min i32_max (ss_max_scan_mb p * (1024 * 1024)))).

Inductive scan_error :=
  | InvalidScanSetting (field : str)
  | InvalidReleaseReason
  | ScanningDisabled
  | QuarantineNotFound
  | QuarantineAlreadyReleased
  | ScanDatabase.
#[export] Instance scan_error_eq_dec : EqDecision scan_error.
Proof. solve_decision. Defined.

Definition is_bare_origin (value : str) : bool :=
  match (match strip_prefix value s!"https://" with Some rest => Some rest | None => strip_prefix value s!"http://" end) with
  | None => false
  | Some rest =>
      negb (bool_decide (rest = [])) && negb (contains_char c!"/" rest) && negb (contains_char c!"?" rest)
      && negb (contains_char c!"#" rest)
  end.
Definition is_env_name (value : str) : bool :=
  match value with
  | first :: rest =>
      (is_ascii_alphabetic first || (first =? c!"_")%N)
      && forallb (fun c => is_ascii_alphanumeric c || (c =? c!"_")%N) rest
  | [] => false
  end.

Definition validate_scan_settings (n : new_site_scan) : result new_site_scan scan_error :=
  let enabled := default false (ns_enabled n) in
  let endpoint := trim (default [] (ns_endpoint n)) in
  let secret_env := trim (default [] (ns_secret_env n)) in
  refuse enabled && bool_decide (endpoint = []) with InvalidScanSetting s!"endpoint" in
  refuse negb (bool_decide (endpoint = [])) && negb (is_bare_origin endpoint) with InvalidScanSetting s!"endpoint" in
  refuse negb (bool_decide (secret_env = [])) && negb (is_env_name secret_env) with InvalidScanSetting s!"secret_env" in
  let timeout_seconds := default 30 (ns_timeout_seconds n) in
  require (MIN_TIMEOUT_SECONDS <=? timeout_seconds) && (timeout_seconds <=? MAX_TIMEOUT_SECONDS)
    else InvalidScanSetting s!"timeout_seconds" in
  let on_error := default s!"hold" (ns_on_error n) in
  refuse negb (str_eqb on_error s!"hold") && negb (str_eqb on_error s!"serve") with InvalidScanSetting s!"on_error" in
  let max_scan_mb := default 100 (ns_max_scan_mb n) in
  require (MIN_SCAN_MB <=? max_scan_mb) && (max_scan_mb <=? MAX_SCAN_MB) else InvalidScanSetting s!"max_scan_mb" in
  Ok (NewSiteScan (Some enabled) (Some endpoint) (Some secret_env) (Some timeout_seconds) (Some on_error) (Some max_scan_mb)).

(** [new.field.or(Some(current.field))], field by field. *)
Definition or_else {A} (o : option A) (a : A) : option A := match o with Some x => Some x | None => Some a end.
Definition merge_policy (n : new_site_scan) (current : site_scan) : new_site_scan :=
  NewSiteScan (or_else (ns_enabled n) (ss_enabled current)) (or_else (ns_endpoint n) (ss_endpoint current))
    (or_else (ns_secret_env n) (ss_secret_env current)) (or_else (ns_timeout_seconds n) (ss_timeout_seconds current))
    (or_else (ns_on_error n) (ss_on_error current)) (or_else (ns_max_scan_mb n) (ss_max_scan_mb current)).

(** ** Rows *)

(** The columns of [media] the pipeline reads and writes. *)
Record scan_file := ScanFile {
  sf_id : Z;
  sf_site_id : Z;
  sf_storage_key : str;
  sf_size_bytes : Z;
  sf_checksum : str;
  sf_scan_status : str;
  sf_scan_detail : str;
  sf_scan_engine : option str;
  sf_scanned_at : option Z;
  sf_deleted_at : option Z;
  sf_created_at : Z
}.
Record quarantine := Quarantine {
  q_id : Z;
  q_media_id : Z;
  q_site_id : Z;
  q_detail : str;
  q_run_id : option Z;
  q_quarantined_at : Z;
  q_quarantined_by : option Z;
  q_released_at : option Z;
  q_released_by : option Z;
  q_release_reason : str
}.
Record sweep_counts := SweepCounts { cn_scanned : Z; cn_flagged : Z; cn_errors : Z; cn_skipped : Z }.
Record scan_run := ScanRun {
  sn_id : Z;
  sn_site_id : Z;
  sn_kind : str;
  sn_outcome : str;
  sn_counts : sweep_counts;
  sn_endpoint : str;
  sn_engine : str;
  sn_actor_user_id : option Z;
  sn_started_at : Z;
  sn_finished_at : option Z
}.
Record scan_store := ScanStore {
  st_files : list scan_file;
  st_quarantines : list quarantine;
  st_runs : list scan_run;
  st_settings : list site_scan
}.

Definition with_files (f : list scan_file) (s : scan_store) := ScanStore f (st_quarantines s) (st_runs s) (st_settings s).
Definition with_quarantines (q : list quarantine) (s : scan_store) := ScanStore (st_files s) q (st_runs s) (st_settings s).
Definition with_runs (r : list scan_run) (s : scan_store) := ScanStore (st_files s) (st_quarantines s) r (st_settings s).
Definition with_settings (p : list site_scan) (s : scan_store) := ScanStore (st_files s) (st_quarantines s) (st_runs s) p.

Definition set_verdict (status detail : str) (engine : option str) (at_ : option Z) (f : scan_file) : scan_file :=
  ScanFile (sf_id f) (sf_site_id f) (sf_storage_key f) (sf_size_bytes f) (sf_checksum f) status detail engine at_
    (sf_deleted_at f) (sf_created_at f).

Definition is_file (id : Z) (f : scan_file) : bool := sf_id f =? id.
Definition update_file (id : Z) (g : scan_file -> scan_file) (l : list scan_file) : list scan_file :=
  (fun f => if is_file id f then g f else f) <$> l.
Definition find_scan_file (id : Z) (s : scan_store) : option scan_file := List.find (is_file id) (st_files s).

(** *** Settings *)

Definition read_scan_settings (site_id : Z) (s : scan_store) : site_scan :=
  default (platform_defaults site_id) (List.find (fun p => ss_site_id p =? site_id) (st_settings s)).

(** [insert … on conflict (site_id) do update]. *)
Definition upsert_policy (p : site_scan) (l : list site_scan) : list site_scan :=
  if existsb (fun x => ss_site_id x =? ss_site_id p) l then
    (fun x => if ss_site_id x =? ss_site_id p then p else x) <$> l
  else l ++ [p].

Definition write_scan_settings (site_id : Z) (n : new_site_scan) (s : scan_store) : result (site_scan * scan_store) scan_error :=
  let? merged := validate_scan_settings (merge_policy n (read_scan_settings site_id s)) in
  let row := row_of_policy site_id merged in
  Ok (row, with_settings (upsert_policy row (st_settings s)) s).

(** *** The claim *)

Definition SWEEP_BATCH : Z := 50.

Definition claimable (site_id : Z) (f : scan_file) : bool :=
  (sf_site_id f =? site_id) && str_eqb (sf_scan_status f) s!"pending" && negb (is_given (sf_deleted_at f)).
Definition claim_cmp (a b : scan_file) : comparison :=
  then_with (Z.compare (sf_created_at a) (sf_created_at b)) (Z.compare (sf_id a) (sf_id b)).

(** The rows the select locks; the transaction ends with the statement. *)
Definition claim_pending (site_id limit : Z) (s : scan_store) : list scan_file :=
  take (Z.to_nat (Z.max 1 (Z.min limit SWEEP_BATCH))) (sort_by claim_cmp (List.filter (claimable site_id) (st_files s))).

(** *** Quarantine *)

Definition q_open (q : quarantine) : bool := negb (is_given (q_released_at q)).
Definition holds (media_id : Z) (q : quarantine) : bool := (q_media_id q =? media_id) && q_open q.
Definition is_quarantined (media_id : Z) (s : scan_store) : bool := existsb (holds media_id) (st_quarantines s).

(** One transaction: the status of the file, and a quarantine row for a flag on a file that is not
    held.  The insert is refused for a file that is gone and for an empty detail. *)
Definition apply_verdict (now site_id qid : Z) (run_id actor : option Z) (scan : scan_file) (v : verdict) (s : scan_store) :
  result scan_store scan_error :=
  let s := with_files (update_file (sf_id scan)
             (set_verdict (verdict_status v) (verdict_detail v) (Some (verdict_engine v)) (Some now)) (st_files s)) s in
  if is_flagged v && negb (is_quarantined (sf_id scan) s) then
    refuse bool_decide (verdict_detail v = []) || negb (is_given (find_scan_file (sf_id scan) s)) with ScanDatabase in
    Ok (with_quarantines (st_quarantines s
          ++ [Quarantine qid (sf_id scan) site_id (verdict_detail v) run_id now actor None None []]) s)
  else Ok s.

Definition release_reason (raw : str) : result str scan_error :=
  let trimmed := trim raw in
  refuse bool_decide (trimmed = []) with InvalidReleaseReason in
  Ok (take RELEASE_REASON_LIMIT trimmed ++ (if (RELEASE_REASON_LIMIT <? length trimmed)%nat then [ELLIPSIS] else [])).

Definition close_row (now : Z) (actor : Z) (reason : str) (q : quarantine) : quarantine :=
  Quarantine (q_id q) (q_media_id q) (q_site_id q) (q_detail q) (q_run_id q) (q_quarantined_at q) (q_quarantined_by q)
    (Some now) (Some actor) reason.
Definition is_open_row (id : Z) (q : quarantine) : bool := (q_id q =? id) && q_open q.
Definition released_file (f : scan_file) : scan_file :=
  if str_eqb (sf_scan_status f) s!"flagged" then
    set_verdict s!"skipped" s!"released from quarantine without a further scan" (sf_scan_engine f) (sf_scanned_at f) f
  else f.

Definition close_quarantine (now id actor : Z) (reason : str) (s : scan_store) :
  result (option quarantine * scan_store) scan_error :=
  let? reason := release_reason reason in
  match List.find (is_open_row id) (st_quarantines s) with
  | None => Ok (None, s)
  | Some q =>
      let s := with_quarantines ((fun x => if is_open_row id x then close_row now actor reason x else x) <$> st_quarantines s) s in
      Ok (Some (close_row now actor reason q), with_files (update_file (q_media_id q) released_file (st_files s)) s)
  end.

(** The release route: a row of another organization is not there.  [site_organization] is the
    column of [sites]; a caller without an organization sees every site. *)
Definition find_quarantine_in_scope (site_organization : Z -> option Z) (caller : option Z) (id : Z) (s : scan_store) :
  option quarantine :=
  List.find (fun q => (q_id q =? id)
                      && (bool_decide (site_organization (q_site_id q) = caller) || negb (is_given caller))) (st_quarantines s).
Definition release (site_organization : Z -> option Z) (caller : option Z) (now id actor : Z) (reason : str) (s : scan_store) :
  result (quarantine * scan_store) scan_error :=
  let? _ := ok_or (find_quarantine_in_scope site_organization caller id s) QuarantineNotFound in
  let? closed := close_quarantine now id actor reason s in
  match closed with
  | (Some q, s) => Ok (q, s)
  | (None, _) => Err QuarantineAlreadyReleased
  end.

(** ** The sweep *)

Definition no_counts : sweep_counts := SweepCounts 0 0 0 0.
Definition sweep_outcome (c : sweep_counts) : str :=
  if 0 <? cn_errors c then s!"error" else if 0 <? cn_flagged c then s!"flagged" else s!"clean".

Definition RUN_KINDS : list str := [s!"scan"; s!"rescan"; s!"manual"].
Definition begin_run (now id site_id : Z) (kind endpoint engine : str) (actor : option Z) (s : scan_store) : scan_store :=
  let kind := if existsb (str_eqb kind) RUN_KINDS then kind else s!"scan" in
  with_runs (st_runs s ++ [ScanRun id site_id kind s!"clean" no_counts endpoint engine actor now None]) s.
Definition finish_run (now id : Z) (c : sweep_counts) (s : scan_store) : scan_store :=
  with_runs ((fun r => if sn_id r =? id then
                         ScanRun (sn_id r) (sn_site_id r) (sn_kind r) (sweep_outcome c) c (sn_endpoint r) (sn_engine r)
                           (sn_actor_user_id r) (sn_started_at r) (Some now)
                       else r) <$> st_runs s) s.

(** The run as the log shows it. *)
Definition run_summary (r : scan_run) : str :=
  let c := sn_counts r in
  if negb (is_given (sn_finished_at r)) then s!"still running"
  else if 0 <? cn_errors c then
    show_Z (cn_errors c) ++ s!" file(s) could not be scanned " ++ [EM_DASH] ++ s!" the scanner did not answer; "
    ++ show_Z (cn_flagged c) ++ s!" flagged"
  else if 0 <? cn_flagged c then show_Z (cn_flagged c) ++ s!" file(s) flagged and held"
  else if (cn_scanned c =? 0) && (0 <? cn_skipped c) then
    show_Z (cn_skipped c) ++ s!" file(s) above the scanner's size ceiling " ++ [EM_DASH] ++ s!" none of them were looked at"
  else show_Z (cn_scanned c) ++ s!" file(s) scanned, none flagged".

Definition truncate (text : str) (limit : nat) : str :=
  let trimmed := trim ((fun c => if is_control c then c!" " else c) <$> text) in
  if bool_decide (trimmed = []) then s!"no detail" else take limit trimmed.

(** What the HTTP client makes of the post: no client, no connection, no body, or a status with the
    body as text and as JSON. *)
Inductive scanner_answer `{JsonNumber} :=
  | ClientRefused (reason : str)
  | Unreachable (reason : str)
  | Unreadable (status : Z) (reason : str)
  | Answered (status : Z) (text : str) (body : option value).

Section Sweep.
Context `{J : JsonNumber, R : ObjectReader}.
Context (scanner : site_scan -> scan_file -> list Z -> scanner_answer) (storage_reason : storage_error -> str).

Definition post_scan (settings : site_scan) (file : scan_file) (bytes : list Z) : verdict :=
  if bool_decide (ss_endpoint settings = []) then VError s!"no scanner endpoint is configured for this site"
  else
    match scanner settings file bytes with
    | ClientRefused reason => VError (s!"the scanner client could not be built: " ++ reason)
    | Unreachable reason => VError (s!"the scanner could not be reached: " ++ reason)
    | Unreadable status reason =>
        if is_success status then VError (s!"the scanner's answer could not be read: " ++ reason)
        else VError (s!"the scanner answered " ++ show_Z status ++ s!": " ++ truncate [] 200)
    | Answered status text body =>
        if is_success status then
          match parse_response body with Ok parsed => interpret parsed [] | Err reason => VError reason end
        else VError (s!"the scanner answered " ++ show_Z status ++ s!": " ++ truncate text 200)
    end.

Definition scan_one (settings : site_scan) (file : scan_file) : verdict :=
  if negb (scans_size settings (Z.max 0 (sf_size_bytes file))) then VSkipped (ss_max_scan_mb settings)
  else
    match read_object (sf_storage_key file) with
    | Err e => VError (s!"the file's bytes could not be read from the object store: " ++ storage_reason e)
    | Ok bytes => post_scan settings file bytes
    end.

Definition count_verdict (v : verdict) (c : sweep_counts) : sweep_counts :=
  SweepCounts (cn_scanned c + match v with VClean _ | VFlagged _ _ => 1 | _ => 0 end)
    (cn_flagged c + if is_flagged v then 1 else 0)
    (cn_errors c + match v with VError _ => 1 | _ => 0 end)
    (cn_skipped c + match v with VSkipped _ => 1 | _ => 0 end).

(** One file of the batch: [written] is whether the database takes the verdict, [qid] the id it
    would give a quarantine. *)
Definition sweep_file (now site_id run_id actor : Z) (settings : site_scan) (written : Z -> bool) (qid : Z -> Z)
  (acc : scan_store * sweep_counts) (file : scan_file) : scan_store * sweep_counts :=
  let '(s, c) := acc in
  let v := scan_one settings file in
  let failed := (s, SweepCounts (cn_scanned c) (cn_flagged c) (cn_errors c + 1) (cn_skipped c)) in
  if written (sf_id file) then
    match apply_verdict now site_id (qid (sf_id file)) (Some run_id) (Some actor) file v s with
    | Ok s => (s, count_verdict v c)
    | Err _ => failed
    end
  else failed.

Definition run_now (now site_id run_id actor : Z) (written : Z -> bool) (qid : Z -> Z) (s : scan_store) :
  result (scan_store * sweep_counts) scan_error :=
  let settings := read_scan_settings site_id s in
  require ss_enabled settings else ScanningDisabled in
  let claimed := claim_pending site_id SWEEP_BATCH s in
  let s := begin_run now run_id site_id s!"manual" (ss_endpoint settings) [] (Some actor) s in
  let '(s, c) := fold_left (sweep_file now site_id run_id actor settings written qid) claimed (s, no_counts) in
  Ok (finish_run now run_id c s, c).
End Sweep.

(** ** The gate *)

Inductive serve_refusal := Trashed | Quarantined | NotScanned | ScanFailed.
#[export] Instance serve_refusal_eq_dec : EqDecision serve_refusal.
Proof. solve_decision. Defined.

Definition refusal_code (r : serve_refusal) : str :=
  match r with
  | Trashed => s!"file_trashed" | Quarantined => s!"file_quarantined" | NotScanned => s!"file_not_scanned"
  | ScanFailed => s!"file_scan_failed"
  end.

Definition may_serve (scan_status : str) (quarantined : bool) (policy : site_scan) : result unit serve_refusal :=
  refuse quarantined with Quarantined in
  if str_eqb scan_status s!"clean" || str_eqb scan_status s!"skipped" then Ok tt
  else if str_eqb scan_status s!"flagged" then Err Quarantined
  else if str_eqb scan_status s!"error" then
    if ss_enabled policy then if serves_on_error policy then Ok tt else Err ScanFailed
    else Ok tt
  else if ss_enabled policy then Err NotScanned else Ok tt.

(** The status of the answer and its code. *)
Definition ensure_scan_allows (f : scan_file) (s : scan_store) : result unit (Z * str) :=
  if str_eqb (sf_scan_status f) s!"clean" then Ok tt
  else
    match may_serve (sf_scan_status f) (is_quarantined (sf_id f) s) (read_scan_settings (sf_site_id f) s) with
    | Ok _ => Ok tt
    | Err refusal => Err (match refusal with Trashed => 404 | _ => 403 end, refusal_code refusal)
    end.

(** ** The other writes of a file: an upload, a replacement of its bytes, the trash, a purge *)

Definition insert_media (f : scan_file) (s : scan_store) : scan_store :=
  with_files (st_files s ++ [ScanFile (sf_id f) (sf_site_id f) (sf_storage_key f) (sf_size_bytes f) (sf_checksum f)
                               s!"pending" [] None None None (sf_created_at f)]) s.
(** The columns [append_version] moves to the new bytes; the scan columns are not among them. *)
Definition append_version (id : Z) (storage_key : str) (size_bytes : Z) (checksum : str) (s : scan_store) : scan_store :=
  with_files (update_file id (fun f => ScanFile (sf_id f) (sf_site_id f) storage_key size_bytes checksum (sf_scan_status f)
                (sf_scan_detail f) (sf_scan_engine f) (sf_scanned_at f) (sf_deleted_at f) (sf_created_at f)) (st_files s)) s.
Definition set_deleted_at (id : Z) (at_ : option Z) (s : scan_store) : scan_store :=
  with_files (update_file id (fun f => ScanFile (sf_id f) (sf_site_id f) (sf_storage_key f) (sf_size_bytes f) (sf_checksum f)
                (sf_scan_status f) (sf_scan_detail f) (sf_scan_engine f) (sf_scanned_at f) at_ (sf_created_at f)) (st_files s)) s.
(** [delete from media]: the quarantine rows go with the file. *)
Definition delete_row (id : Z) (s : scan_store) : scan_store :=
  with_quarantines (List.filter (fun q => negb (q_media_id q =? id)) (st_quarantines s))
    (with_files (List.filter (fun f => negb (is_file id f)) (st_files s)) s).

(** ** Sweeps, releases and the other writes, interleaved

    A sweep's claim is a step and each of its verdicts another; between them it holds the rows it
    read. *)

Record scan_state := ScanState { cs_store : scan_store; cs_claimed : list scan_file }.

Inductive scan_event :=
  | EUpload (f : scan_file)
  | EClaim (site_id limit : Z)
  | EVerdict (now site_id qid : Z) (run_id actor : option Z) (file : scan_file) (v : verdict)
  | ERelease (now id actor : Z) (reason : str)
  | EReplace (id : Z) (storage_key : str) (size_bytes : Z) (checksum : str)
  | ETrash (id : Z) (at_ : option Z)
  | EPurge (id : Z)
  | ESettings (site_id : Z) (n : new_site_scan).

Definition ok_store {A} (r : result A scan_error) (f : A -> scan_store) (s : scan_store) : scan_store :=
  match r with Ok a => f a | Err _ => s end.

(** One sweep is done with the file. *)
Fixpoint drop_claim (id : Z) (l : list scan_file) : list scan_file :=
  match l with
  | [] => []
  | f :: rest => if is_file id f then rest else f :: drop_claim id rest
  end.

Definition scan_step (e : scan_event) (st : scan_state) : scan_state :=
  let s := cs_store st in
  let on (s : scan_store) := ScanState s (cs_claimed st) in
  match e with
  | EUpload f => on (insert_media f s)
  | EClaim site_id limit => ScanState s (cs_claimed st ++ claim_pending site_id limit s)
  | EVerdict now site_id qid run_id actor file v =>
      if existsb (is_file (sf_id file)) (cs_claimed st) then
        ScanState (ok_store (apply_verdict now site_id qid run_id actor file v s) id s)
          (drop_claim (sf_id file) (cs_claimed st))
      else st
  | ERelease now id actor reason => on (ok_store (close_quarantine now id actor reason s) snd s)
  | EReplace id key size checksum => on (append_version id key size checksum s)
  | ETrash id at_ => on (set_deleted_at id at_ s)
  | EPurge id => on (delete_row id s)
  | ESettings site_id n => on (ok_store (write_scan_settings site_id n s) snd s)
  end.

(** What the database and the lease promise a step: new rows have new ids, and a claim takes no row
    another sweep still holds. *)
Definition leased (e : scan_event) (st : scan_state) : Prop :=
  match e with
  | EUpload f => (sf_id f ∉ sf_id <$> st_files (cs_store st)) /\ (sf_id f ∉ sf_id <$> cs_claimed st)
                 /\ (sf_id f ∉ q_media_id <$> st_quarantines (cs_store st))
  | EClaim site_id limit => forall f, f ∈ claim_pending site_id limit (cs_store st) -> sf_id f ∉ sf_id <$> cs_claimed st
  | EVerdict _ _ qid _ _ _ _ => qid ∉ q_id <$> st_quarantines (cs_store st)
  | _ => True
  end.

Inductive reached : scan_state -> Prop :=
  | reached_start settings : reached (ScanState (ScanStore [] [] [] settings) [])
  | reached_step e st : reached st -> leased e st -> reached (scan_step e st).

Record consistent (st : scan_state) : Prop := Consistent {
  co_files : NoDup (sf_id <$> st_files (cs_store st));
  co_quarantines : NoDup (q_id <$> st_quarantines (cs_store st));
  co_claimed : NoDup (sf_id <$> cs_claimed st);
  co_pending f : f ∈ st_files (cs_store st) -> sf_id f ∈ sf_id <$> cs_claimed st -> sf_scan_status f = s!"pending";
  co_held f : f ∈ st_files (cs_store st) -> (sf_scan_status f = s!"flagged" <-> is_quarantined (sf_id f) (cs_store st) = true);
  co_one q q' : q ∈ st_quarantines (cs_store st) -> q' ∈ st_quarantines (cs_store st) -> q_open q = true -> q_open q' = true ->
    q_media_id q = q_media_id q' -> q = q'
}.

(** *** Rows *)

Lemma update_file_elem id g l f : f ∈ update_file id g l <->
  exists f0, f0 ∈ l /\ f = if is_file id f0 then g f0 else f0.
Proof. unfold update_file. rewrite list_elem_of_fmap. split; intros (f0 & H1 & H2); eauto. Qed.

Lemma update_file_ids id g l : (forall f, sf_id (g f) = sf_id f) -> sf_id <$> update_file id g l = sf_id <$> l.
Proof.
  intros Hg. unfold update_file. rewrite <- list_fmap_compose. apply list_fmap_ext. intros i f _. cbn. by destruct (is_file id f).
Qed.

Lemma holds_iff id s : is_quarantined id s = true <-> exists q, q ∈ st_quarantines s /\ q_media_id q = id /\ q_open q = true.
Proof.
  unfold is_quarantined. rewrite existsb_elem. unfold holds.
  split; intros (q & Hq & H); exists q; [apply andb_true_iff in H as [H1%Z.eqb_eq H2]; done|].
  destruct H as [-> ->]. by rewrite Z.eqb_refl.
Qed.

Lemma claim_pending_spec site_id limit s f : f ∈ claim_pending site_id limit s ->
  f ∈ st_files s /\ sf_site_id f = site_id /\ sf_scan_status f = s!"pending" /\ sf_deleted_at f = None.
Proof.
  unfold claim_pending. intros (i & Hi & _)%elem_of_take. apply list_elem_of_lookup_2 in Hi. rewrite sort_by_perm in Hi.
  apply elem_of_filter_bool in Hi as [Hin H]. unfold claimable in H. apply andb_true_iff in H as [H Hd]. apply andb_true_iff in H as [Hs Hp].
  apply Z.eqb_eq in Hs. apply str_eqb_eq in Hp. by destruct (sf_deleted_at f).
Qed.

Lemma claim_pending_ids site_id limit s : NoDup (sf_id <$> st_files s) -> NoDup (sf_id <$> claim_pending site_id limit s).
Proof.
  intros H. unfold claim_pending. eapply sublist_NoDup; [|apply fmap_sublist, sublist_take].
  rewrite sort_by_perm. by apply NoDup_filter_keys.
Qed.

Lemma own_file l f f' : NoDup (sf_id <$> l) -> f ∈ l -> f' ∈ l -> sf_id f = sf_id f' -> f = f'.
Proof. intros H. by apply (NoDup_key_inj sf_id l). Qed.

(** *** The steps keep the rows consistent *)

Definition consistent_store (s : scan_store) (claimed : list scan_file) : Prop := consistent (ScanState s claimed).

Lemma consistent_fewer_claims s claimed claimed' : sublist claimed' claimed -> consistent_store s claimed -> consistent_store s claimed'.
Proof.
  intros Hsub [H1 H2 H3 H4 H5 H6]. cbn in *. split; cbn; try done.
  - eapply sublist_NoDup; [exact H3|by apply fmap_sublist].
  - intros f Hf Hc. apply H4; [done|]. apply list_elem_of_fmap in Hc as (c & -> & Hc). apply list_elem_of_fmap. exists c. split; [done|].
    by eapply elem_of_sublist.
Qed.

Lemma consistent_same_status s claimed id g :
  (forall f, sf_id (g f) = sf_id f /\ sf_scan_status (g f) = sf_scan_status f) ->
  consistent_store s claimed -> consistent_store (with_files (update_file id g (st_files s)) s) claimed.
Proof.
  intros Hg [H1 H2 H3 H4 H5 H6]. cbn in *. split; cbn; try done.
  - by rewrite update_file_ids by apply Hg.
  - intros f (f0 & Hf & ->)%update_file_elem. destruct (is_file id f0); [destruct (Hg f0) as [-> ->]|]; by apply H4.
  - intros f (f0 & Hf & ->)%update_file_elem. destruct (is_file id f0); [destruct (Hg f0) as [-> ->]|]; by apply H5.
Qed.

Lemma apply_verdict_consistent now site_id qid run_id actor file v s s' claimed :
  consistent_store s claimed -> file ∈ claimed -> qid ∉ q_id <$> st_quarantines s ->
  apply_verdict now site_id qid run_id actor file v s = Ok s' ->
  consistent_store s' (List.filter (fun f => negb (is_file (sf_id file) f)) claimed).
Proof.
  intros [H1 H2 H3 H4 H5 H6] Hc Hq. cbn in *. unfold apply_verdict.
  set (g := set_verdict _ _ _ _). set (s1 := with_files (update_file (sf_id file) g (st_files s)) s).
  assert (forall f, f ∈ st_files s -> sf_id f = sf_id file -> sf_scan_status f = s!"pending") as Hpend.
  { intros f Hf E. apply H4; [done|]. rewrite E. apply list_elem_of_fmap. by exists file. }
  assert (forall f, f ∈ List.filter (fun f => negb (is_file (sf_id file) f)) claimed -> sf_id f <> sf_id file) as Hother.
  { intros f [_ H%negb_true_iff%Z.eqb_neq]%elem_of_filter_bool. done. }
  assert (NoDup (sf_id <$> List.filter (fun f => negb (is_file (sf_id file) f)) claimed)) as Hnd
    by by apply NoDup_filter_keys.
  assert (forall f, f ∈ update_file (sf_id file) g (st_files s) ->
          sf_id f ∈ sf_id <$> List.filter (fun f => negb (is_file (sf_id file) f)) claimed -> sf_scan_status f = s!"pending") as Hp.
  { intros f (f0 & Hf & ->)%update_file_elem (c & E & Hin)%list_elem_of_fmap. pose proof (Hother c Hin) as Hne.
    apply elem_of_filter_bool in Hin as [Hin _]. unfold is_file in *. destruct (Z.eqb_spec (sf_id f0) (sf_id file)) as [E0|].
    - cbn in E. congruence.
    - apply H4; [done|]. rewrite E. apply list_elem_of_fmap. by exists c. }
  assert (is_quarantined (sf_id file) s = true -> forall f, f ∈ st_files s -> sf_id f <> sf_id file) as Hnq.
  { intros Hq' f Hf E. rewrite <- E in Hq'. apply (H5 f Hf) in Hq'. rewrite (Hpend f Hf E) in Hq'. discriminate. }
  change (is_quarantined (sf_id file) s1) with (is_quarantined (sf_id file) s).
  destruct (is_flagged v && negb (is_quarantined (sf_id file) s)) eqn:E.
  - apply andb_true_iff in E as [Hf E]. apply negb_true_iff in E. destruct (_ || _) eqn:Eg; [done|]. intros [= <-].
    split; cbn -[is_quarantined]; try done.
    + by rewrite update_file_ids.
    + rewrite fmap_app. apply NoDup_app. split_and!; [done| |apply NoDup_singleton]. intros x Hx ->%list_elem_of_singleton. done.
    + intros f (f0 & Hf0 & ->)%update_file_elem. unfold is_file. rewrite holds_iff. cbn.
      destruct (Z.eqb_spec (sf_id f0) (sf_id file)) as [E0|Hne].
      * cbn. split; [intros _|by destruct v]. eexists. split; [apply elem_of_app; right; apply list_elem_of_here|]. by cbn.
      * rewrite (H5 f0 Hf0). rewrite holds_iff. split; intros (q & Hin & Hm & Ho).
        -- exists q. split_and!; [apply elem_of_app; by left|done..].
        -- apply elem_of_app in Hin as [Hin| ->%list_elem_of_singleton]; [by exists q|cbn in Hm; congruence].
    + assert (forall q, q ∈ st_quarantines s -> q_open q = true -> q_media_id q <> sf_id file) as Hnone.
      { intros q Hin Ho Em. assert (is_quarantined (sf_id file) s = true) as Ht; [|congruence]. apply holds_iff. by exists q. }
      intros q q' [Hin| ->%list_elem_of_singleton]%elem_of_app [Hin'| ->%list_elem_of_singleton]%elem_of_app Ho Ho' Em; cbn in Em; auto.
      * by destruct (Hnone q Hin Ho).
      * by destruct (Hnone q' Hin' Ho').
  - intros [= <-]. split; cbn -[is_quarantined]; try done.
    + by rewrite update_file_ids.
    + intros f (f0 & Hf0 & ->)%update_file_elem. unfold is_file. rewrite holds_iff. cbn.
      destruct (Z.eqb_spec (sf_id f0) (sf_id file)) as [E0|Hne]; [|by rewrite (H5 f0 Hf0), holds_iff].
      rewrite <- holds_iff. cbn. rewrite E0.
      assert (is_quarantined (sf_id file) s = false) as Hnot.
      { destruct (is_quarantined (sf_id file) s) eqn:Eq; [|done]. by destruct (Hnq eq_refl f0 Hf0). }
      rewrite Hnot in *. rewrite andb_true_r in E. by destruct v.
Qed.

Lemma close_quarantine_consistent now id actor reason s r claimed :
  consistent_store s claimed -> close_quarantine now id actor reason s = Ok r -> consistent_store (snd r) claimed.
Proof.
  intros [H1 H2 H3 H4 H5 H6]. cbn in *. unfold close_quarantine. destruct (release_reason reason) as [text|]; [cbn [result_bind]|done].
  destruct (List.find _ _) as [q|] eqn:E; [|intros [= <-]; done]. apply find_some in E as [Hin%list_elem_of_In Hq].
  unfold is_open_row in Hq. apply andb_true_iff in Hq as [Hid%Z.eqb_eq Hopen]. intros [= <-]. cbn [snd].
  assert (forall x, x ∈ st_quarantines s -> is_open_row id x = true -> x = q) as Huniq.
  { intros x Hx [Hxid%Z.eqb_eq _]%andb_true_iff. apply (NoDup_key_inj q_id (st_quarantines s)); [done..|congruence]. }
  split; cbn -[is_quarantined]; try done.
  - rewrite update_file_ids; [done|]. intros f. unfold released_file. by destruct (str_eqb _ _).
  - rewrite <- list_fmap_compose. erewrite list_fmap_ext; [exact H2|]. intros i x _. cbn. by destruct (is_open_row id x).
  - intros f (f0 & Hf & ->)%update_file_elem Hc. unfold released_file in *. destruct (is_file _ f0); [|by apply H4].
    destruct (str_eqb_eq (sf_scan_status f0) s!"flagged") as [Hs _].
    destruct (str_eqb (sf_scan_status f0) s!"flagged"); [|by apply H4]. specialize (Hs eq_refl). cbn in Hc. rewrite (H4 f0 Hf Hc) in Hs. discriminate.
  - intros f (f0 & Hf & ->)%update_file_elem. unfold is_file.
    assert (sf_id f0 <> q_media_id q -> forall p, p ∈ st_quarantines s -> q_media_id p = sf_id f0 -> is_open_row id p = false) as Hkeep.
    { intros Hne p Hp Em. apply not_true_iff_false. intros Ho. apply (Huniq p Hp) in Ho as ->. congruence. }
    destruct (Z.eqb_spec (sf_id f0) (q_media_id q)) as [E0|Hne].
    + assert (sf_scan_status f0 = s!"flagged") as Hs.
      { apply H5; [done|]. apply holds_iff. by exists q. }
      unfold released_file. rewrite Hs, str_eqb_refl. cbn -[is_quarantined]. split; [done|]. rewrite holds_iff. cbn. intros (p & Hp & Em & Ho).
      apply list_elem_of_fmap in Hp as (p0 & -> & Hp). destruct (is_open_row id p0) eqn:Eo; [done|].
      assert (p0 = q) as ->; [apply H6; congruence|]. unfold is_open_row in Eo. by rewrite (proj2 (Z.eqb_eq _ _) Hid), Hopen in Eo.
    + rewrite (H5 f0 Hf), !holds_iff. cbn. split; intros (p & Hp & Em & Ho).
      * exists p. split_and!; [|done..]. apply list_elem_of_fmap. exists p. by rewrite (Hkeep Hne p Hp Em).
      * apply list_elem_of_fmap in Hp as (p0 & -> & Hp). destruct (is_open_row id p0) eqn:Eo; [done|]. by exists p0.
  - intros p p' (p0 & -> & Hp)%list_elem_of_fmap (p1 & -> & Hp')%list_elem_of_fmap.
    destruct (is_open_row id p0); [done|]. destruct (is_open_row id p1); [done|]. auto.
Qed.

Lemma delete_row_consistent id s claimed : consistent_store s claimed -> consistent_store (delete_row id s) claimed.
Proof.
  intros [H1 H2 H3 H4 H5 H6]. split; cbn -[is_quarantined] in *; try done.
  - by apply NoDup_filter_keys.
  - by apply NoDup_filter_keys.
  - intros f [Hf _]%elem_of_filter_bool. by apply H4.
  - intros f [Hf Hne%negb_true_iff%Z.eqb_neq]%elem_of_filter_bool. rewrite (H5 f Hf), !holds_iff. cbn.
    split; intros (q & Hq & Em & Ho); exists q; (split; [|done]).
    + apply elem_of_filter_bool. split; [done|]. apply negb_true_iff, Z.eqb_neq. congruence.
    + by apply elem_of_filter_bool in Hq as [? _].
  - intros q q' [Hq _]%elem_of_filter_bool [Hq' _]%elem_of_filter_bool. auto.
Qed.

Lemma insert_media_consistent f s claimed :
  (sf_id f ∉ sf_id <$> st_files s) -> (sf_id f ∉ sf_id <$> claimed) -> (sf_id f ∉ q_media_id <$> st_quarantines s) ->
  consistent_store s claimed -> consistent_store (insert_media f s) claimed.
Proof.
  intros Hf Hc Hq [H1 H2 H3 H4 H5 H6]. split; cbn -[is_quarantined] in *; try done.
  - rewrite fmap_app. apply NoDup_app. split_and!; [done| |apply NoDup_singleton]. intros x Hx ->%list_elem_of_singleton. done.
  - intros g [Hg| ->%list_elem_of_singleton]%elem_of_app; [by apply H4|done].
  - intros g [Hg| ->%list_elem_of_singleton]%elem_of_app; [by rewrite (H5 g Hg)|]. cbn -[is_quarantined]. split; [done|].
    rewrite holds_iff. cbn. intros (q & Hin & Em & _). destruct Hq. apply list_elem_of_fmap. by exists q.
Qed.

Lemma claim_consistent site_id limit s claimed : consistent_store s claimed ->
  (forall f, f ∈ claim_pending site_id limit s -> sf_id f ∉ sf_id <$> claimed) ->
  consistent_store s (claimed ++ claim_pending site_id limit s).
Proof.
  intros [H1 H2 H3 H4 H5 H6] Hl. split; cbn -[is_quarantined] in *; try done.
  - rewrite fmap_app. apply NoDup_app. split_and!; [done| |by apply claim_pending_ids].
    intros x Hx (f & -> & Hf)%list_elem_of_fmap. by apply (Hl f).
  - intros f Hf Hc. rewrite fmap_app in Hc. apply elem_of_app in Hc as [Hc|Hc]; [by apply H4|].
    apply list_elem_of_fmap in Hc as (c & E & Hc). apply claim_pending_spec in Hc as (Hc & _ & Hp & _).
    by rewrite (own_file (st_files s) f c).
Qed.

Lemma drop_claim_filter id l : NoDup (sf_id <$> l) -> drop_claim id l = List.filter (fun f => negb (is_file id f)) l.
Proof.
  induction l as [|f l IH]; [done|]. cbn [fmap list_fmap drop_claim List.filter]. intros [Hn Hnd]%NoDup_cons.
  destruct (is_file id f) eqn:E; cbn [negb]; [|by rewrite IH]. apply Z.eqb_eq in E.
  assert (forall g, g ∈ l -> negb (is_file id g) = true) as Hall.
  { intros g Hg. apply negb_true_iff, Z.eqb_neq. intros Eg. apply Hn. apply list_elem_of_fmap. exists g. split; [congruence|done]. }
  clear -Hall. induction l as [|g l IH]; [done|]. cbn [List.filter]. rewrite Hall by apply list_elem_of_here. f_equal. apply IH.
  intros h Hh. apply Hall. by apply list_elem_of_further.
Qed.

Lemma scan_step_consistent e st : consistent st -> leased e st -> consistent (scan_step e st).
Proof.
  destruct st as [s claimed]. intros H. destruct e as [f|site_id limit|now site_id qid run_id actor file v|now id actor reason|id key size checksum|id at_|id|site_id n];
    cbn [scan_step cs_store cs_claimed leased].
  - intros (Hf & Hc & Hq). by apply insert_media_consistent.
  - apply claim_consistent, H.
  - intros Hq. destruct (existsb _ claimed) eqn:E; [|done]. rewrite drop_claim_filter by apply H. apply existsb_elem in E as (c & Hc & Hid).
    destruct (apply_verdict _ _ _ _ _ _ _ _) as [s'|] eqn:Ev; cbn [ok_store].
    + unfold is_file in Hid. apply Z.eqb_eq in Hid. rewrite <- Hid.
      assert (apply_verdict now site_id qid run_id actor c v s = Ok s') as Ev' by (revert Ev; unfold apply_verdict; by rewrite Hid).
      by apply (apply_verdict_consistent now site_id qid run_id actor c v s).
    + eapply consistent_fewer_claims; [apply sublist_filter|exact H].
  - intros _. destruct (close_quarantine _ _ _ _ _) as [r|] eqn:E; cbn [ok_store]; [|done].
    by apply (close_quarantine_consistent now id actor reason s).
  - intros _. by apply consistent_same_status.
  - intros _. by apply consistent_same_status.
  - intros _. by apply delete_row_consistent.
  - intros _. unfold write_scan_settings. destruct (validate_scan_settings _) as [m|]; cbn [result_bind ok_store snd]; [|done].
    destruct H as [H1 H2 H3 H4 H5 H6]. by split.
Qed.

Lemma reached_consistent st : reached st -> consistent st.
Proof.
  induction 1 as [settings|e st Hr IH Hl]; [|by apply scan_step_consistent].
  split; cbn -[is_quarantined]; try apply NoDup_nil_2; [by intros f []%elem_of_nil..|by intros q q' []%elem_of_nil].
Qed.

(** *** What the gate answers *)

(** C4. As long as no sweep takes a file that another still holds, a file that a scanner flagged is
    held, a held file is flagged, at most one of its quarantines is open, and no read of it passes
    the gate, whatever the site's policy has become since: not before its release, after a
    replacement of its bytes or out of the trash. *)
Theorem held_files_are_refused (st : scan_state) (f : scan_file) :
  reached st -> f ∈ st_files (cs_store st) ->
  (sf_scan_status f = s!"flagged" <-> is_quarantined (sf_id f) (cs_store st) = true)
  /\ (is_quarantined (sf_id f) (cs_store st) = true -> ensure_scan_allows f (cs_store st) = Err (403, s!"file_quarantined"))
  /\ (length (List.filter (holds (sf_id f)) (st_quarantines (cs_store st))) <= 1)%nat.
Proof.
  intros Hr Hf. apply reached_consistent in Hr as [H1 H2 H3 H4 H5 H6]. split_and!; [by apply H5| |].
  - intros Hq. pose proof (proj2 (H5 f Hf) Hq) as Hs. unfold ensure_scan_allows, may_serve. by rewrite Hs, Hq.
  - assert (forall l, (forall q, q ∈ l -> q ∈ st_quarantines (cs_store st) /\ holds (sf_id f) q = true) -> NoDup l -> (length l <= 1)%nat) as Hl.
    { intros [|q [|q' l]] Hin Hnd; cbn; try lia. exfalso.
      destruct (Hin q) as [Hq Ho]; [apply list_elem_of_here|]. destruct (Hin q') as [Hq' Ho']; [apply list_elem_of_further, list_elem_of_here|].
      unfold holds in Ho, Ho'. apply andb_true_iff in Ho as [Hm%Z.eqb_eq Ho]. apply andb_true_iff in Ho' as [Hm'%Z.eqb_eq Ho'].
      assert (q = q') as <- by (apply H6; congruence). apply NoDup_cons in Hnd as [Hnd _]. by destruct Hnd; apply list_elem_of_here. }
    apply Hl; [intros q Hq%elem_of_filter_bool; done|]. apply (NoDup_fmap_1 q_id). by apply NoDup_filter_keys.
Qed.

(** *** What becomes of an answer *)

Lemma bounded_detail_bounds raw fallback : fallback <> [] -> (length fallback <= DETAIL_LIMIT)%nat ->
  bounded_detail raw fallback <> [] /\ (length (bounded_detail raw fallback) <= DETAIL_LIMIT)%nat.
Proof.
  intros Hf Hl. unfold bounded_detail. set (text := if bool_decide _ then _ else _).
  assert (text <> []) as Ht by (unfold text; case_bool_decide; done).
  destruct (Nat.leb_spec (length text) DETAIL_LIMIT); [done|]. split; [by destruct (take _ _)|].
  rewrite length_app, length_take. unfold DETAIL_LIMIT in *. cbn [length]. lia.
Qed.

Lemma interpret_flagged response engine e d : interpret response engine = VFlagged e d -> d <> [] /\ (length d <= DETAIL_LIMIT)%nat.
Proof.
  unfold interpret. destruct (existsb _ CLEAN_WORDS); [done|]. destruct (existsb _ FLAGGED_WORDS).
  - intros [= _ <-]. apply bounded_detail_bounds; vm_compute; [done|lia].
  - destruct (existsb _ SKIPPED_WORDS); [done|]. by destruct (existsb _ ERROR_WORDS).
Qed.

Section SweepTheorems.
Context `{J : JsonNumber, R : ObjectReader}.
Context (scanner : site_scan -> scan_file -> list Z -> scanner_answer) (storage_reason : storage_error -> str).

(** The word a scanner answered with, for a file whose bytes were read and posted. *)
Definition answered_word (settings : site_scan) (file : scan_file) (word : str) : Prop :=
  exists bytes status text body response,
    read_object (sf_storage_key file) = Ok bytes
    /\ scanner settings file bytes = Answered status text (Some body)
    /\ is_success status = true /\ is_object body = true /\ parse_response (Some body) = Ok response
    /\ word = to_ascii_lowercase (trim (sc_status response)).

Lemma scan_one_cases settings file v : scan_one scanner storage_reason settings file = v ->
  match v with
  | VClean _ => scans_size settings (Z.max 0 (sf_size_bytes file)) = true /\ exists word, answered_word settings file word /\ word ∈ CLEAN_WORDS
  | VFlagged _ detail => detail <> [] /\ (length detail <= DETAIL_LIMIT)%nat
      /\ exists word, answered_word settings file word /\ word ∈ FLAGGED_WORDS
  | VSkipped _ => scans_size settings (Z.max 0 (sf_size_bytes file)) = false
      \/ exists word, answered_word settings file word /\ word ∈ SKIPPED_WORDS
  | VError _ => True
  end.
Proof.
  intros <-. unfold scan_one. destruct (scans_size _ _) eqn:Es; cbn [negb]; [|by left].
  destruct (read_object _) as [bytes|] eqn:Eb; [|done]. unfold post_scan. case_bool_decide; [done|].
  destruct (scanner settings file bytes) as [reason|reason|status reason|status text body] eqn:Ea; [done|done|by destruct (is_success status)|].
  destruct (is_success status) eqn:Ec; [|done]. destruct (parse_response body) as [response|] eqn:Ep; [|done].
  destruct body as [body|]; [|done].
  assert (is_object body = true) as Ho by (unfold parse_response in Ep; by destruct body).
  assert (answered_word settings file (to_ascii_lowercase (trim (sc_status response)))) as Hw
    by (exists bytes, status, text, body, response; done).
  assert (forall l, existsb (str_eqb (to_ascii_lowercase (trim (sc_status response)))) l = true ->
          to_ascii_lowercase (trim (sc_status response)) ∈ l) as Hin.
  { intros l (x & Hx & ->%str_eqb_eq)%existsb_elem. done. }
  destruct (interpret response []) as [e|e d|d|mb] eqn:Ei.
  - split; [done|]. eexists. split; [exact Hw|]. apply Hin. unfold interpret in Ei.
    destruct (existsb _ CLEAN_WORDS); [done|]. destruct (existsb _ FLAGGED_WORDS); [done|]. destruct (existsb _ SKIPPED_WORDS); [done|].
    by destruct (existsb _ ERROR_WORDS).
  - destruct (interpret_flagged _ _ _ _ Ei) as [Hd Hl]. split; [done|]. split; [done|]. eexists. split; [exact Hw|]. apply Hin. unfold interpret in Ei.
    destruct (existsb _ CLEAN_WORDS); [done|]. destruct (existsb _ FLAGGED_WORDS); [done|]. destruct (existsb _ SKIPPED_WORDS); [done|].
    by destruct (existsb _ ERROR_WORDS).
  - done.
  - right. eexists. split; [exact Hw|]. apply Hin. unfold interpret in Ei.
    destruct (existsb _ CLEAN_WORDS); [done|]. destruct (existsb _ FLAGGED_WORDS); [done|]. destruct (existsb _ SKIPPED_WORDS); [done|].
    by destruct (existsb _ ERROR_WORDS).
Qed.

(** A verdict that lets a file be served has a ground: a clean one an answer in the two
    hundreds that is a JSON object whose word is one of those that mean clean, about the bytes read
    from the store and under the ceiling; a skipped one the ceiling, or such an answer saying so.
    Everything else holds the file: no client, no connection, no body, another status, no JSON, no
    word, a word of the wrong type or an unknown one. *)
Theorem only_answers_pass_a_file (settings : site_scan) (file : scan_file) :
  servable (scan_one scanner storage_reason settings file) = true ->
  (scans_size settings (Z.max 0 (sf_size_bytes file)) = false /\ scan_one scanner storage_reason settings file = VSkipped (ss_max_scan_mb settings))
  \/ (scans_size settings (Z.max 0 (sf_size_bytes file)) = true
      /\ exists word, answered_word settings file word /\ word ∈ CLEAN_WORDS ++ SKIPPED_WORDS).
Proof.
  pose proof (scan_one_cases settings file _ eq_refl) as H. intros Hs. destruct (scan_one _ _ settings file) as [e|e d|d|mb] eqn:E; try done.
  - right. destruct H as (H & word & Hw & Hin). split; [done|]. exists word. split; [done|]. apply elem_of_app. by left.
  - destruct (scans_size settings (Z.max 0 (sf_size_bytes file))) eqn:Ez.
    + destruct H as [|(word & Hw & Hin)]; [done|]. right. split; [done|]. exists word. split; [done|]. apply elem_of_app. by right.
    + left. split; [done|]. rewrite <- E. unfold scan_one. by rewrite Ez.
Qed.

(** *** A sweep *)

Definition counted (c : sweep_counts) : Z := cn_scanned c + cn_errors c + cn_skipped c.

Lemma sweep_step now site_id run_id actor settings written qid s c file :
  (written (sf_id file) = true) -> file ∈ st_files s ->
  let v := scan_one scanner storage_reason settings file in
  exists s', sweep_file scanner storage_reason now site_id run_id actor settings written qid (s, c) file = (s', count_verdict v c)
  /\ apply_verdict now site_id (qid (sf_id file)) (Some run_id) (Some actor) file v s = Ok s'.
Proof.
  intros Hw Hin v. unfold sweep_file. fold v. rewrite Hw. unfold apply_verdict.
  destruct (is_flagged v && _) eqn:E; [|eexists; split; reflexivity].
  assert (verdict_detail v <> []) as Hd.
  { pose proof (scan_one_cases settings file v eq_refl) as H. apply andb_true_iff in E as [E _].
    destruct v; try done. apply H. }
  rewrite bool_decide_eq_false_2 by done. cbn [orb].
  match goal with |- context [find_scan_file ?i ?x] => assert (is_given (find_scan_file i x) = true) as -> end.
  { unfold find_scan_file. rewrite find_exists. apply existsb_elem. cbn. eexists. split.
    - apply update_file_elem. exists file. split; [done|reflexivity].
    - unfold is_file. rewrite Z.eqb_refl. cbn. apply Z.eqb_refl. }
  eexists; split; reflexivity.
Qed.

Lemma apply_verdict_files now site_id qid run_id actor file v s s' :
  apply_verdict now site_id qid run_id actor file v s = Ok s' ->
  st_files s' = update_file (sf_id file) (set_verdict (verdict_status v) (verdict_detail v) (Some (verdict_engine v)) (Some now)) (st_files s)
  /\ st_settings s' = st_settings s
  /\ (forall q, q ∈ st_quarantines s -> q ∈ st_quarantines s')
  /\ (is_flagged v = true -> is_quarantined (sf_id file) s' = true).
Proof.
  unfold apply_verdict. change (is_quarantined (sf_id file) (with_files ?f s)) with (is_quarantined (sf_id file) s).
  destruct (is_flagged v && negb (is_quarantined (sf_id file) s)) eqn:E.
  - destruct (_ || _); [done|]. intros [= <-]. cbn -[is_quarantined]. split_and!; [done|done| |].
    + intros q Hq. apply elem_of_app. by left.
    + intros _. apply holds_iff. cbn. eexists. split; [apply elem_of_app; right; apply list_elem_of_here|done].
  - intros [= <-]. split_and!; [done..|]. intros Hf. rewrite Hf in E. cbn in E. by apply negb_false_iff in E.
Qed.

Definition judge (now : Z) (v : verdict) : scan_file -> scan_file :=
  set_verdict (verdict_status v) (verdict_detail v) (Some (verdict_engine v)) (Some now).

Lemma quarantined_kept id s s' : (forall q, q ∈ st_quarantines s -> q ∈ st_quarantines s') ->
  is_quarantined id s = true -> is_quarantined id s' = true.
Proof. intros H (q & Hq & Hr)%holds_iff. apply holds_iff. exists q. eauto. Qed.

Lemma sweep_fold now site_id run_id actor settings written qid l : forall s c,
  NoDup (sf_id <$> l) -> (forall f, f ∈ l -> f ∈ st_files s /\ written (sf_id f) = true) ->
  let result := fold_left (sweep_file scanner storage_reason now site_id run_id actor settings written qid) l (s, c) in
  let verdict_of := scan_one scanner storage_reason settings in
  (forall f, f ∈ st_files s -> sf_id f ∉ sf_id <$> l -> f ∈ st_files (fst result))
  /\ (forall f, f ∈ l -> judge now (verdict_of f) f ∈ st_files (fst result))
  /\ sf_id <$> st_files (fst result) = sf_id <$> st_files s
  /\ (forall q, q ∈ st_quarantines s -> q ∈ st_quarantines (fst result))
  /\ (forall f, f ∈ l -> is_flagged (verdict_of f) = true -> is_quarantined (sf_id f) (fst result) = true)
  /\ counted (snd result) = counted c + Z.of_nat (length l)
  /\ cn_flagged (snd result) = cn_flagged c + Z.of_nat (length (List.filter (fun f => is_flagged (verdict_of f)) l)).
Proof.
  induction l as [|file l IH]; intros s c Hnd Hl; cbn [fold_left].
  { cbn. split_and!; try done; try lia; by intros f []%elem_of_nil. }
  destruct (Hl file (list_elem_of_here _ _)) as [Hf Hw].
  destruct (sweep_step now site_id run_id actor settings written qid s c file Hw Hf) as (s' & -> & Ha).
  set (v := scan_one scanner storage_reason settings file) in *. destruct (apply_verdict_files _ _ _ _ _ _ _ _ _ Ha) as (Hfiles & _ & Hkeep & Hflag).
  rewrite fmap_cons in Hnd. apply NoDup_cons in Hnd as [Hnot Hnd].
  assert (forall f, f ∈ st_files s -> sf_id f <> sf_id file -> f ∈ st_files s') as Hother.
  { intros f Hin Hne. rewrite Hfiles. apply update_file_elem. exists f. split; [done|]. unfold is_file. by destruct (Z.eqb_spec (sf_id f) (sf_id file)). }
  destruct (IH s' (count_verdict v c) Hnd) as (H1 & H2 & H3 & H4 & H5 & H6 & H7).
  { intros f Hin. destruct (Hl f) as [? ?]; [by apply list_elem_of_further|]. split; [|done]. apply Hother; [done|]. intros E.
    apply Hnot. apply list_elem_of_fmap. by exists f. }
  split_and!.
  - intros f Hin Hne. rewrite fmap_cons in Hne. apply not_elem_of_cons in Hne as [Hne1 Hne2]. auto.
  - intros f [->|Hin]%elem_of_cons; [|auto]. apply H1; [|done]. rewrite Hfiles. apply update_file_elem. exists file.
    split; [done|]. unfold is_file. by rewrite Z.eqb_refl.
  - rewrite H3, Hfiles. by apply update_file_ids.
  - intros q Hq. by apply H4, Hkeep.
  - intros f [->|Hin]%elem_of_cons Hv; [|auto]. apply (quarantined_kept _ s'); [exact H4|auto].
  - rewrite H6. cbn [length]. unfold counted, count_verdict. cbn. destruct v; lia.
  - rewrite H7. cbn [List.filter]. fold v. unfold count_verdict. cbn. destruct (is_flagged v); cbn [length]; lia.
Qed.

(** The files of a site that wait for a verdict. *)
Definition waits (site_id : Z) (f : scan_file) : Prop := sf_site_id f = site_id /\ sf_scan_status f = s!"pending" /\ sf_deleted_at f = None.
Definition older (f g : scan_file) : Prop := sf_created_at f < sf_created_at g \/ sf_created_at f = sf_created_at g /\ sf_id f < sf_id g.

#[export] Instance claim_cmp_laws : CmpLaws claim_cmp.
Proof. exact (then_with_laws (fun a b => Z.compare (sf_created_at a) (sf_created_at b)) (fun a b => Z.compare (sf_id a) (sf_id b)) (CmpLaws0 := on_laws sf_created_at Z.compare) (CmpLaws1 := on_laws sf_id Z.compare)). Qed.

Lemma claim_pending_oldest site_id limit s f g : NoDup (sf_id <$> st_files s) ->
  f ∈ claim_pending site_id limit s -> g ∈ st_files s -> waits site_id g -> g ∉ claim_pending site_id limit s -> older f g.
Proof.
  intros Hnd Hf Hg (Hs & Hp & Hd) Hn. pose proof (claim_pending_spec _ _ _ _ Hf) as (Hfs & _).
  assert (f <> g) as Hne by (intros ->; contradiction).
  assert (g ∈ List.filter (claimable site_id) (st_files s)) as Hgw.
  { apply elem_of_filter_bool. split; [exact Hg|]. unfold claimable. by rewrite Hs, Hp, Hd, Z.eqb_refl, str_eqb_refl. }
  pose proof (batch_first _ claim_cmp _ f g Hf Hgw Hn) as Hle.
  unfold claim_cmp, then_with in Hle. unfold older. destruct (Z.compare_spec (sf_created_at f) (sf_created_at g)); [right|by left|done].
  split; [done|]. destruct (Z.compare_spec (sf_id f) (sf_id g)) as [E|E|E]; [|done..].
  destruct Hne. exact (NoDup_key_inj sf_id _ f g Hnd Hfs Hg E).
Qed.

(** C26. A sweep of an enabled site, when the database takes its verdicts, judges the pending files of
    the site that are not in the trash: all of them, or the fifty uploaded first (an id breaks a tie).
    Each gets exactly the verdict of its bytes, those a scanner flags are held, every other file stays
    as it is, and the counts of the run add up to the files judged.  On a site with scanning off it
    changes nothing. *)
Theorem sweep_judges_what_it_claimed (now site_id run_id actor : Z) (written : Z -> bool) (qid : Z -> Z) (s : scan_store) :
  NoDup (sf_id <$> st_files s) -> (forall id, written id = true) ->
  let settings := read_scan_settings site_id s in
  let verdict_of := scan_one scanner storage_reason settings in
  if ss_enabled settings then
    exists s' c waiting judged, run_now scanner storage_reason now site_id run_id actor written qid s = Ok (s', c)
    /\ NoDup waiting /\ (forall f, f ∈ waiting <-> f ∈ st_files s /\ waits site_id f)
    /\ NoDup judged /\ (forall f, f ∈ judged -> f ∈ waiting) /\ length judged = Nat.min 50 (length waiting)
    /\ (forall f g, f ∈ judged -> g ∈ waiting -> g ∉ judged -> older f g)
    /\ (forall f, f ∈ judged -> judge now (verdict_of f) f ∈ st_files s')
    /\ (forall f, f ∈ st_files s -> f ∉ judged -> f ∈ st_files s')
    /\ (forall f, f ∈ judged -> is_flagged (verdict_of f) = true -> is_quarantined (sf_id f) s' = true)
    /\ cn_scanned c + cn_errors c + cn_skipped c = Z.of_nat (length judged)
    /\ cn_flagged c = Z.of_nat (length (List.filter (fun f => is_flagged (verdict_of f)) judged))
  else run_now scanner storage_reason now site_id run_id actor written qid s = Err ScanningDisabled.
Proof.
  intros Hnd Hw settings verdict_of. unfold run_now. fold settings. set (claimed := claim_pending site_id SWEEP_BATCH s).
  destruct (ss_enabled settings); [|done].
  set (s0 := begin_run _ _ _ _ _ _ _ s).
  destruct (sweep_fold now site_id run_id actor settings written qid claimed s0 no_counts) as (H1 & H2 & H3 & H4 & H5 & H6 & H7).
  { by apply claim_pending_ids. }
  { intros f Hf. split; [|done]. by apply claim_pending_spec in Hf as [? _]. }
  assert (NoDup (st_files s)) as N by (by eapply NoDup_fmap_1).
  assert (forall f, f ∈ List.filter (claimable site_id) (st_files s) <-> f ∈ st_files s /\ waits site_id f) as Hwait.
  { intros f. rewrite elem_of_filter_bool. unfold claimable, waits. rewrite !andb_true_iff, Z.eqb_eq, str_eqb_eq. destruct (sf_deleted_at f); naive_solver. }
  destruct (fold_left _ claimed (s0, no_counts)) as [s' c]. cbn [fst snd] in *.
  exists (finish_run now run_id c s'), c, (List.filter (claimable site_id) (st_files s)), claimed. split_and!.
  - done.
  - eapply sublist_NoDup; [exact N|apply sublist_filter].
  - exact Hwait.
  - exact (batch_NoDup _ claim_cmp _ _ N).
  - intros f Hf. apply Hwait. exact (claim_pending_spec _ _ _ _ Hf).
  - unfold claimed, claim_pending. change (Z.to_nat (Z.max 1 (Z.min SWEEP_BATCH SWEEP_BATCH))) with 50%nat. apply batch_length.
  - intros f g Hf [Hg Hgw]%Hwait. exact (claim_pending_oldest site_id SWEEP_BATCH s f g Hnd Hf Hg Hgw).
  - exact H2.
  - intros f Hf Hne. apply H1; [done|]. intros (g & E & Hg)%list_elem_of_fmap. apply Hne.
    rewrite (own_file (st_files s) f g); [done..|by apply claim_pending_spec in Hg as [? _]|done].
  - exact H5.
  - change (counted c = Z.of_nat (length claimed)). rewrite H6. done.
  - by rewrite H7.
Qed.
End SweepTheorems.

(** ** A site's policy *)

(** The check constraints of [media_scan_settings] (migration 0044). *)
Definition origin_shape (value : str) : Prop :=
  exists rest, (value = s!"https://" ++ rest \/ value = s!"http://" ++ rest)
  /\ rest <> [] /\ forall c, c ∈ rest -> c ∉ [c!"/"; c!"?"; c!"#"].
Definition table_accepts (p : site_scan) : Prop :=
  (ss_endpoint p = [] \/ origin_shape (ss_endpoint p))
  /\ 1 <= ss_timeout_seconds p <= 120
  /\ (ss_on_error p = s!"hold" \/ ss_on_error p = s!"serve")
  /\ 1 <= ss_max_scan_mb p <= 1024
  /\ (ss_enabled p = true -> ss_endpoint p <> []).

Definition trimmed_policy (n : new_site_scan) : new_site_scan :=
  NewSiteScan (Some (default false (ns_enabled n))) (Some (trim (default [] (ns_endpoint n)))) (Some (trim (default [] (ns_secret_env n))))
    (Some (default 30 (ns_timeout_seconds n))) (Some (default s!"hold" (ns_on_error n))) (Some (default 100 (ns_max_scan_mb n))).

Lemma is_bare_origin_shape value : is_bare_origin value = true <-> origin_shape value.
Proof.
  assert (forall rest, negb (bool_decide (rest = [])) && negb (contains_char c!"/" rest) && negb (contains_char c!"?" rest)
                       && negb (contains_char c!"#" rest) = true <-> rest <> [] /\ forall c, c ∈ rest -> c ∉ [c!"/"; c!"?"; c!"#"]) as Hrest.
  { intros rest. rewrite !andb_true_iff, !negb_true_iff, bool_decide_eq_false, <- !not_true_iff_false, !contains_char_elem.
    split.
    - intros [[[H1 H2] H3] H4]. split; [done|]. intros c Hc Hin. rewrite !elem_of_cons in Hin. destruct Hin as [->|[->|[->|[]%elem_of_nil]]]; done.
    - intros [H1 H2]. split_and!; [done|..]; intros Hc%H2; apply Hc; apply (bool_decide_unpack _); vm_compute; exact I. }
  unfold is_bare_origin, origin_shape. destruct (strip_prefix value s!"https://") as [rest|] eqn:E1.
  - apply strip_prefix_some in E1 as ->. rewrite Hrest. split; [intros H; exists rest; split; [by left|exact H]|].
    intros (r & [E|E] & H); [by apply app_inv_head in E as ->|]. discriminate.
  - destruct (strip_prefix value s!"http://") as [rest|] eqn:E2.
    + apply strip_prefix_some in E2 as ->. rewrite Hrest. split; [intros H; exists rest; split; [by right|exact H]|].
      intros (r & [E|E] & H); [|by apply app_inv_head in E as ->]. by destruct (strip_prefix_none _ _ E1 r).
    + split; [done|]. intros (r & [E|E] & _); [by destruct (strip_prefix_none _ _ E1 r)|by destruct (strip_prefix_none _ _ E2 r)].
Qed.

Lemma validate_scan_settings_ok site_id n m :
  validate_scan_settings n = Ok m <->
  m = trimmed_policy n /\ table_accepts (row_of_policy site_id (trimmed_policy n))
  /\ (ss_secret_env (row_of_policy site_id (trimmed_policy n)) = [] \/ is_env_name (ss_secret_env (row_of_policy site_id (trimmed_policy n))) = true).
Proof.
  unfold validate_scan_settings, table_accepts, trimmed_policy. cbn [row_of_policy trimmed_policy ns_enabled ns_endpoint ns_secret_env ns_timeout_seconds
    ns_on_error ns_max_scan_mb ss_enabled ss_endpoint ss_secret_env ss_timeout_seconds ss_on_error ss_max_scan_mb].
  rewrite <- is_bare_origin_shape. unfold MIN_TIMEOUT_SECONDS, MAX_TIMEOUT_SECONDS, MIN_SCAN_MB, MAX_SCAN_MB.
  generalize (default false (ns_enabled n)), (trim (default [] (ns_endpoint n))), (trim (default [] (ns_secret_env n))),
    (default 30 (ns_timeout_seconds n)), (default s!"hold" (ns_on_error n)), (default 100 (ns_max_scan_mb n)).
  intros enabled endpoint secret timeout on_error mb. cbn [from_option]. unfold id.
  rewrite !refuse_ok, require_ok, refuse_ok, require_ok. rewrite !andb_false_iff, !andb_true_iff, !negb_false_iff, !bool_decide_eq_false,
    !bool_decide_eq_true, !Z.leb_le, !str_eqb_eq.
  assert (forall a b : new_site_scan, Ok a = @Ok _ scan_error b <-> b = a) as -> by (intros a b; split; [by intros [= ->]|by intros ->]).
  destruct enabled; intuition congruence.
Qed.

Lemma read_upserted p l site_id : List.find (fun x => ss_site_id x =? site_id) (upsert_policy p l)
  = if ss_site_id p =? site_id then Some p else List.find (fun x => ss_site_id x =? site_id) l.
Proof.
  unfold upsert_policy. destruct (existsb _ l) eqn:E.
  - revert E. induction l as [|x l IH]; [done|]. cbn [existsb fmap list_fmap List.find]. intros E.
    destruct (Z.eqb_spec (ss_site_id x) (ss_site_id p)) as [Ex|Ex].
    + destruct (Z.eqb_spec (ss_site_id p) site_id) as [->|]; [done|].
      destruct (Z.eqb_spec (ss_site_id x) site_id); [congruence|].
      clear -n. induction l as [|y l IH]; [done|]. cbn [fmap list_fmap List.find].
      destruct (Z.eqb_spec (ss_site_id y) (ss_site_id p)) as [Ey|Ey].
      * destruct (Z.eqb_spec (ss_site_id p) site_id), (Z.eqb_spec (ss_site_id y) site_id); (congruence || exact IH).
      * by destruct (ss_site_id y =? site_id).
    + cbn [orb] in E. specialize (IH E). destruct (Z.eqb_spec (ss_site_id x) site_id) as [Es|]; [|exact IH].
      destruct (Z.eqb_spec (ss_site_id p) site_id); [congruence|done].
  - rewrite find_app. destruct (List.find _ l) as [x|] eqn:Ef; cbn.
    + destruct (Z.eqb_spec (ss_site_id p) site_id) as [Ep|]; [|done]. apply find_some in Ef as [Hin Hx]. exfalso.
      assert (existsb (fun x => ss_site_id x =? ss_site_id p) l = true) as Ht; [|congruence].
      apply existsb_elem. exists x. split; [by apply list_elem_of_In|]. by rewrite Ep.
    + by destruct (_ =? _).
Qed.

(** A policy is accepted exactly when its trimmed values pass the constraints of the table and
    the secret is named, not given; an accepted body changes the fields it carries and keeps the
    others, for that site alone, and reading the policy back answers the row written. *)
Theorem policies_are_stored_as_accepted (site_id : Z) (n : new_site_scan) (s : scan_store) :
  let current := read_scan_settings site_id s in
  let merged := trimmed_policy (merge_policy n current) in
  let row := row_of_policy site_id merged in
  (table_accepts row /\ (ss_secret_env row = [] \/ is_env_name (ss_secret_env row) = true)
   <-> exists s', write_scan_settings site_id n s = Ok (row, s'))
  /\ forall row' s', write_scan_settings site_id n s = Ok (row', s') ->
     row' = row
     /\ ss_enabled row = default (ss_enabled current) (ns_enabled n)
     /\ ss_endpoint row = trim (default (ss_endpoint current) (ns_endpoint n))
     /\ ss_secret_env row = trim (default (ss_secret_env current) (ns_secret_env n))
     /\ ss_timeout_seconds row = default (ss_timeout_seconds current) (ns_timeout_seconds n)
     /\ ss_on_error row = default (ss_on_error current) (ns_on_error n)
     /\ ss_max_scan_mb row = default (ss_max_scan_mb current) (ns_max_scan_mb n)
     /\ read_scan_settings site_id s' = row
     /\ (forall other, other <> site_id -> read_scan_settings other s' = read_scan_settings other s)
     /\ st_files s' = st_files s /\ st_quarantines s' = st_quarantines s.
Proof.
  intros current merged row. pose proof (validate_scan_settings_ok site_id (merge_policy n current)) as Hv. unfold write_scan_settings.
  fold current. split.
  - split.
    + intros [Ht He]. rewrite (proj2 (Hv merged)) by done. cbn [result_bind]. eauto.
    + intros (s' & E). destruct (validate_scan_settings _) as [m|]; [|done]. destruct (proj1 (Hv m) eq_refl) as (-> & Ht & He). done.
  - intros row' s'. destruct (validate_scan_settings _) as [m|]; [|done]. destruct (proj1 (Hv m) eq_refl) as (-> & _ & _). cbn [result_bind].
    intros [= <- <-].
    assert (forall {A} (o : option A) (a d : A), default d (or_else o a) = default a o) as Hor by (intros A o a d; by destruct o).
    unfold row, merged. cbn [row_of_policy trimmed_policy merge_policy ns_enabled ns_endpoint ns_secret_env ns_timeout_seconds ns_on_error
      ns_max_scan_mb ss_enabled ss_endpoint ss_secret_env ss_timeout_seconds ss_on_error ss_max_scan_mb].
    rewrite !Hor. split_and!; try done.
    + unfold read_scan_settings. cbn [st_settings with_settings]. rewrite read_upserted. cbn [ss_site_id row_of_policy]. by rewrite Z.eqb_refl.
    + intros other Ho. unfold read_scan_settings. cbn [st_settings with_settings]. rewrite read_upserted. cbn [ss_site_id row_of_policy].
      by destruct (Z.eqb_spec site_id other); [congruence|].
Qed.

(** ** Releases *)

Lemma find_by_id {A} (key : A -> Z) (p : A -> bool) l x : NoDup (key <$> l) -> x ∈ l -> p x = true ->
  List.find (fun y => (key y =? key x) && p y) l = Some x.
Proof.
  intros Hnd Hin Hp. destruct (List.find _ l) as [y|] eqn:E.
  - apply find_some in E as [Hy%list_elem_of_In [Hk%Z.eqb_eq _]%andb_true_iff]. f_equal. by apply (NoDup_key_inj key l).
  - apply list_elem_of_In in Hin. apply (find_none _ _ E) in Hin. rewrite Z.eqb_refl, Hp in Hin. discriminate.
Qed.

(** A release needs a quarantine of the caller's organization, a reason and an open row, in
    that order of refusals; a row of another organization is answered as one that does not exist.
    It closes the row with its reason and never removes one, and the file, still in the library, is
    served from then on as skipped: never as clean, and never with a row still open. *)
Theorem release_is_recorded (st : scan_state) (q : quarantine) (site_organization : Z -> option Z) (caller : option Z)
    (now actor : Z) (reason : str) :
  reached st -> q ∈ st_quarantines (cs_store st) ->
  let visible := bool_decide (site_organization (q_site_id q) = caller) || negb (is_given caller) in
  let answer := release site_organization caller now (q_id q) actor reason (cs_store st) in
  (visible = false -> answer = Err QuarantineNotFound)
  /\ (visible = true -> trim reason = [] -> answer = Err InvalidReleaseReason)
  /\ (visible = true -> trim reason <> [] -> q_open q = false -> answer = Err QuarantineAlreadyReleased)
  /\ (visible = true -> trim reason <> [] -> q_open q = true ->
      exists closed s', answer = Ok (closed, s')
      /\ q_id closed = q_id q /\ q_released_by closed = Some actor /\ q_open closed = false /\ q_release_reason closed <> []
      /\ closed ∈ st_quarantines s' /\ q_id <$> st_quarantines s' = q_id <$> st_quarantines (cs_store st)
      /\ forall f, f ∈ st_files s' -> sf_id f = q_media_id q ->
         sf_scan_status f = s!"skipped" /\ is_quarantined (sf_id f) s' = false /\ ensure_scan_allows f s' = Ok tt).
Proof.
  intros Hr Hq visible answer. pose proof (reached_consistent st Hr) as Hco. pose proof Hco as [H1 H2 H3 H4 H5 H6].
  set (s := cs_store st) in *.
  assert (visible = true -> find_quarantine_in_scope site_organization caller (q_id q) s = Some q) as Hfind.
  { intros Hv. unfold find_quarantine_in_scope.
    by apply (find_by_id q_id (fun q => bool_decide (site_organization (q_site_id q) = caller) || negb (is_given caller))). }
  split_and!.
  - intros Hv. unfold answer, release. unfold find_quarantine_in_scope. rewrite find_nothing; [done|].
    intros x Hx. destruct (Z.eqb_spec (q_id x) (q_id q)) as [E|]; [|done]. by rewrite (NoDup_key_inj q_id _ x q H2 Hx Hq E).
  - intros Hv Ht. unfold answer, release. rewrite Hfind by done. cbn [ok_or result_bind]. unfold close_quarantine, release_reason.
    by rewrite bool_decide_eq_true_2.
  - intros Hv Ht Ho. unfold answer, release. rewrite Hfind by done. cbn [ok_or result_bind]. unfold close_quarantine, release_reason.
    rewrite bool_decide_eq_false_2 by done. cbn [result_bind]. rewrite find_nothing; [done|].
    intros x Hx. unfold is_open_row. destruct (Z.eqb_spec (q_id x) (q_id q)) as [E|]; [|done]. by rewrite (NoDup_key_inj q_id _ x q H2 Hx Hq E).
  - intros Hv Ht Ho. set (text := take RELEASE_REASON_LIMIT (trim reason)
      ++ (if (RELEASE_REASON_LIMIT <? length (trim reason))%nat then [ELLIPSIS] else [])).
    assert (text <> []) as Hne by (unfold text; by destruct (trim reason)).
    assert (close_quarantine now (q_id q) actor reason s
            = Ok (Some (close_row now actor text q),
                  with_files (update_file (q_media_id q) released_file (st_files s))
                    (with_quarantines ((fun x => if is_open_row (q_id q) x then close_row now actor text x else x) <$> st_quarantines s) s))) as Hclose.
    { unfold close_quarantine, release_reason. rewrite bool_decide_eq_false_2 by done. cbn [result_bind]. unfold is_open_row at 1.
      by rewrite (find_by_id q_id q_open _ q). }
    eexists (close_row now actor text q), _. split.
    { unfold answer, release. rewrite Hfind by done. cbn [ok_or result_bind]. rewrite Hclose. reflexivity. }
    pose proof (close_quarantine_consistent now (q_id q) actor reason s _ (cs_claimed st) ltac:(by destruct st) Hclose) as [_ _ _ _ H5' _].
    cbn [snd cs_store] in H5'. split_and!; [done|done|done|done| | |].
    + cbn. apply list_elem_of_fmap. exists q. split; [|done]. unfold is_open_row. by rewrite Z.eqb_refl, Ho.
    + cbn. rewrite <- list_fmap_compose. apply list_fmap_ext. intros i x _. cbn. by destruct (is_open_row _ x).
    + intros f Hf Hid. pose proof (H5' f Hf) as Hheld. cbn [st_files with_files] in Hf. apply update_file_elem in Hf as (f0 & Hf0 & E).
      assert (sf_id f0 = q_media_id q) as Hid0.
      { subst f. unfold is_file in Hid. destruct (Z.eqb_spec (sf_id f0) (q_media_id q)); done. }
      assert (sf_scan_status f0 = s!"flagged") as Hflag by (apply H5; [done|apply holds_iff; by exists q]).
      assert (sf_scan_status f = s!"skipped") as Hs.
      { subst f. unfold is_file, released_file. by rewrite Hid0, Z.eqb_refl, Hflag. }
      assert (is_quarantined (sf_id f) (with_files (update_file (q_media_id q) released_file (st_files s))
        (with_quarantines ((fun x => if is_open_row (q_id q) x then close_row now actor text x else x) <$> st_quarantines s) s)) = false) as Hnq.
      { apply not_true_iff_false. intros Ht'%Hheld. rewrite Hs in Ht'. discriminate. }
      split_and!; [done|done|]. unfold ensure_scan_allows, may_serve. by rewrite Hs, Hnq.
Qed.

(** ** Where the pipeline does less than it says *)

(** No read is refused for being in the trash: the gate does not look, and no answer of
    [may_serve] is [Trashed]. *)
Theorem gate_ignores_the_trash (f : scan_file) (s : scan_store) (at_ : option Z) :
  ensure_scan_allows (ScanFile (sf_id f) (sf_site_id f) (sf_storage_key f) (sf_size_bytes f) (sf_checksum f) (sf_scan_status f)
    (sf_scan_detail f) (sf_scan_engine f) (sf_scanned_at f) at_ (sf_created_at f)) s = ensure_scan_allows f s
  /\ ensure_scan_allows f s <> Err (404, s!"file_trashed").
Proof.
  split; [done|]. unfold ensure_scan_allows, may_serve. destruct (str_eqb _ _); [done|]. repeat (case_match; try done).
Qed.

(** Nothing makes a file pending again: a scan that failed is never repeated, not by a sweep and
    not after a replacement of the bytes. *)
Theorem failed_scans_are_final (e : scan_event) (st : scan_state) (f f' : scan_file) :
  reached st -> f ∈ st_files (cs_store st) -> sf_scan_status f = s!"error" ->
  leased e st -> f' ∈ st_files (cs_store (scan_step e st)) -> sf_id f' = sf_id f -> sf_scan_status f' = s!"error".
Proof.
  intros Hr Hf Hs Hl Hf' Hid. pose proof (reached_consistent st Hr) as [H1 _ _ H4 _ _]. destruct st as [s claimed].
  assert (forall g, g ∈ st_files s -> sf_id g = sf_id f -> sf_scan_status g = s!"error") as Hsame.
  { intros g Hg E. by rewrite (own_file (st_files s) g f). }
  assert (forall id g, (forall x, sf_id (g x) = sf_id x /\ sf_scan_status (g x) = sf_scan_status x) ->
          f' ∈ update_file id g (st_files s) -> sf_scan_status f' = s!"error") as Hup.
  { intros id g Hg (g0 & Hg0 & ->)%update_file_elem. destruct (is_file id g0); [destruct (Hg g0) as [E1 E2]; rewrite E2|]; apply Hsame; congruence. }
  destruct e as [u|site_id limit|now site_id qid run_id actor file v|now id actor reason|id key size checksum|id at_|id|site_id n];
    cbn [scan_step cs_store cs_claimed leased] in *.
  - apply elem_of_app in Hf' as [Hf'| ->%list_elem_of_singleton]; [by apply Hsame|]. cbn in Hid. destruct Hl as [Hl _]. destruct Hl.
    apply list_elem_of_fmap. by exists f.
  - by apply Hsame.
  - destruct (existsb _ claimed) eqn:E; [|by apply Hsame]. cbn [cs_store] in Hf'.
    destruct (apply_verdict _ _ _ _ _ _ _ _) as [s'|] eqn:Ev; cbn [ok_store] in Hf'; [|by apply Hsame].
    apply apply_verdict_files in Ev as (Hfiles & _). unfold id in Hf'. rewrite Hfiles in Hf'. apply update_file_elem in Hf' as (g0 & Hg0 & ->).
    unfold is_file in *. destruct (Z.eqb_spec (sf_id g0) (sf_id file)) as [Eg|]; [|by apply Hsame]. exfalso. cbn in Hid.
    apply existsb_elem in E as (c & Hc & Ec%Z.eqb_eq). rewrite (H4 f Hf) in Hs; [discriminate|]. apply list_elem_of_fmap. exists c. split; [congruence|done].
  - destruct (close_quarantine _ _ _ _ _) as [r|] eqn:E; cbn [ok_store] in Hf'; [|by apply Hsame]. unfold close_quarantine in E.
    destruct (release_reason reason); [cbn [result_bind] in E|done]. destruct (List.find _ _); injection E as <-; [|by apply Hsame].
    cbn [snd with_files st_files] in Hf'. apply update_file_elem in Hf' as (g0 & Hg0 & ->). destruct (is_file _ g0); [|by apply Hsame].
    assert (sf_id g0 = sf_id f) as Eg by (unfold released_file in Hid; by destruct (str_eqb _ _)).
    unfold released_file. pose proof (Hsame g0 Hg0 Eg) as Hg. rewrite Hg. exact Hg.
  - by eapply Hup; [|exact Hf'].
  - by eapply Hup; [|exact Hf'].
  - apply elem_of_filter_bool in Hf' as [Hf' _]. by apply Hsame.
  - destruct (write_scan_settings _ _ _) as [[row s']|] eqn:E; cbn [ok_store snd] in Hf'; [|by apply Hsame].
    unfold write_scan_settings in E. destruct (validate_scan_settings _); [|done]. injection E as _ <-. by apply Hsame.
Qed.

Definition sample_policy : site_scan := SiteScan 1 true s!"https://scanner.internal:3310" [] 30 s!"hold" 100.
Definition sample_file : scan_file := ScanFile 7 1 s!"sites/a/clip.mp4" 12 s!"cd34" s!"pending" [] None None None 0.
Definition sample_start : scan_state := ScanState (ScanStore [] [] [] [sample_policy]) [].
Definition steps (l : list scan_event) (st : scan_state) : scan_state := fold_left (fun st e => scan_step e st) l st.

(** Two sweeps read the same pending rows, because the claim's locks end with its transaction: one
    of them holds the file, the other writes it clean, and the gate, which asks a clean file
    nothing, serves a file with an open quarantine. *)
Theorem overlapping_sweeps_serve_a_held_file :
  let st := steps [EUpload sample_file; EClaim 1 50; EClaim 1 50;
                   EVerdict 1 1 100 None None sample_file (VFlagged s!"clam" s!"Eicar");
                   EVerdict 2 1 101 None None sample_file (VClean s!"clam")] sample_start in
  exists f, st_files (cs_store st) = [f] /\ is_quarantined (sf_id f) (cs_store st) = true
     /\ sf_scan_status f = s!"clean" /\ ensure_scan_allows f (cs_store st) = Ok tt.
Proof. eexists. repeat split; vm_compute; reflexivity. Qed.

(** The bytes of a clean file are replaced by ones no scanner has seen: the file stays clean, no
    sweep takes it again, and it is served.  A verdict on its way lands on the new bytes. *)
Theorem replaced_bytes_keep_the_verdict :
  let clean := steps [EUpload sample_file; EClaim 1 50; EVerdict 1 1 100 None None sample_file (VClean s!"clam");
                      EReplace 7 s!"sites/a/v2.mp4" 13 s!"ef56"] sample_start in
  let raced := steps [EUpload sample_file; EClaim 1 50; EReplace 7 s!"sites/a/v2.mp4" 13 s!"ef56";
                      EVerdict 1 1 100 None None sample_file (VClean s!"clam")] sample_start in
  reached clean /\ reached raced
  /\ claim_pending 1 50 (cs_store clean) = []
  /\ (exists f, st_files (cs_store clean) = [f] /\ sf_checksum f = s!"ef56" /\ ensure_scan_allows f (cs_store clean) = Ok tt)
  /\ (exists f, st_files (cs_store raced) = [f] /\ sf_checksum f = s!"ef56" /\ ensure_scan_allows f (cs_store raced) = Ok tt).
Proof.
  assert (reached sample_start) as H0 by apply reached_start.
  assert (forall e st, reached st -> leased e st -> reached (scan_step e st)) as Hs by apply reached_step.
  split_and!.
  - unfold steps. cbn [fold_left]. apply Hs; [apply Hs; [apply Hs; [apply Hs; [exact H0|]|]|]|exact I]; cbn; try (split_and!); try apply not_elem_of_nil.
    intros f _. apply not_elem_of_nil.
  - unfold steps. cbn [fold_left]. apply Hs; [apply Hs; [apply Hs; [apply Hs; [exact H0|]|]|exact I]|]; cbn; try (split_and!); try apply not_elem_of_nil.
    intros f _. apply not_elem_of_nil.
  - vm_compute. reflexivity.
  - eexists. repeat split; vm_compute; reflexivity.
  - eexists. repeat split; vm_compute; reflexivity.
Qed.

(** A scanner that names its engine on every answer leaves a run that names none. *)
Definition sample_scanner (word : string) : site_scan -> scan_file -> list Z -> @scanner_answer Z_number :=
  fun _ _ _ => Answered 200 [] (Some (VObject [(s!"status", VString (lit word)); (s!"engine", VString s!"clam"); (s!"detail", VString s!"Eicar")])).

Theorem runs_name_no_engine :
  exists s c, @run_now Z_number (fs_reader sample_store) (sample_scanner "clean") (fun _ => []) 5 1 9 3 (fun _ => true) (fun id => id)
      (cs_store (scan_step (EUpload sample_file) sample_start)) = Ok (s, c)
    /\ sf_scan_engine <$> st_files s = [Some s!"clam"] /\ sn_engine <$> st_runs s = [[]].
Proof. eexists _, _. repeat split; vm_compute; reflexivity. Qed.

(** *** Witnesses *)

Definition sample_flagged : scan_state :=
  steps [EUpload sample_file; EClaim 1 50; EVerdict 1 1 100 None None sample_file (VFlagged s!"clam" s!"Eicar")] sample_start.
Lemma sample_flagged_reached : reached sample_flagged.
Proof.
  unfold sample_flagged, steps. cbn [fold_left]. apply reached_step; [apply reached_step; [apply reached_step; [apply reached_start|]|]|]; cbn;
    try split_and!; try apply not_elem_of_nil. intros f _. apply not_elem_of_nil.
Qed.

Lemma held_files_are_refused_witness :
  exists f, f ∈ st_files (cs_store sample_flagged) /\ ensure_scan_allows f (cs_store sample_flagged) = Err (403, s!"file_quarantined").
Proof.
  eexists (judge 1 (VFlagged s!"clam" s!"Eicar") sample_file).
  assert (judge 1 (VFlagged s!"clam" s!"Eicar") sample_file ∈ st_files (cs_store sample_flagged)) as Hin by apply list_elem_of_here.
  split; [exact Hin|]. apply (held_files_are_refused sample_flagged _ sample_flagged_reached Hin). vm_compute. reflexivity.
Defined.

Lemma only_answers_pass_a_file_witness :
  scans_size sample_policy 12 = true
  /\ exists word, @answered_word Z_number (fs_reader sample_store) (sample_scanner "Clean") sample_policy sample_file word
     /\ word ∈ CLEAN_WORDS ++ SKIPPED_WORDS.
Proof.
  destruct (@only_answers_pass_a_file Z_number (fs_reader sample_store) (sample_scanner "Clean") (fun _ => []) sample_policy sample_file
    ltac:(vm_compute; reflexivity)) as [[H _]|[H Hw]]; [vm_compute in H; discriminate H|]. split; [exact H|exact Hw].
Defined.

Lemma sweep_judges_what_it_claimed_witness :
  exists s c, @run_now Z_number (fs_reader sample_store) (sample_scanner "infected") (fun _ => []) 5 1 9 3 (fun _ => true) (fun id => id)
      (cs_store (scan_step (EUpload sample_file) sample_start)) = Ok (s, c)
    /\ cn_scanned c + cn_errors c + cn_skipped c = 1 /\ is_quarantined 7 s = true.
Proof.
  destruct (@sweep_judges_what_it_claimed Z_number (fs_reader sample_store) (sample_scanner "infected") (fun _ => []) 5 1 9 3 (fun _ => true)
    (fun id => id) (cs_store (scan_step (EUpload sample_file) sample_start)) ltac:(apply NoDup_singleton) (fun _ => eq_refl))
    as (s & c & waiting & judged & Hr & Hnw & Hw & Hnj & Hj & Hlen & _ & _ & _ & Hq & Hc & _).
  assert (waiting = [sample_file]) as ->.
  { apply Permutation_singleton_r, NoDup_Permutation; [done|apply NoDup_singleton|]. intros f. rewrite Hw, list_elem_of_singleton.
    split; [intros [H _]; by apply list_elem_of_singleton in H|]. intros ->. split; [by apply list_elem_of_singleton|done]. }
  exists s, c. split; [exact Hr|]. split; [rewrite Hc, Hlen; reflexivity|].
  apply (Hq sample_file); [|vm_compute; reflexivity].
  destruct judged as [|f judged]; [discriminate Hlen|]. specialize (Hj f (list_elem_of_here _ _)) as E%list_elem_of_singleton. rewrite E. apply list_elem_of_here.
Defined.

Lemma release_is_recorded_witness :
  exists closed s', release (fun _ => Some 4) (Some 4) 9 100 3 s!"reviewed" (cs_store sample_flagged) = Ok (closed, s') /\ q_open closed = false.
Proof.
  destruct (release_is_recorded sample_flagged (Quarantine 100 7 1 s!"Eicar" None 1 None None None []) (fun _ => Some 4) (Some 4) 9 3 s!"reviewed"
    sample_flagged_reached ltac:(apply list_elem_of_here)) as (_ & _ & _ & H).
  destruct (H ltac:(vm_compute; reflexivity) ltac:(vm_compute; discriminate) ltac:(vm_compute; reflexivity)) as (closed & s' & Ha & _ & _ & Ho & _).
  exists closed, s'. split; [exact Ha|exact Ho].
Defined.
