(* ===== verification/Folders.v ===== *)
(** * Folders of a library: [crates/media/src/folders.rs], [folder_store.rs], the folder routes of
      [apps/api/src/routes/media_files.rs], the tables of migration 0025

    A tree of rows with parent links and a materialised path.  Each route is the composition of its
    statements with the constraints of the table; a statement that fails one leaves the rows as they
    were.
    Paths are matched by SQL's [like], modelled with its wildcards.  Events and audit entries are
    not modelled. *)

From S2P Require Import Prelude.

Definition MAX_FOLDER_NAME_LENGTH : nat := 120.
Definition MAX_FOLDER_PATH_LENGTH : nat := 1024.
Definition ROOT_FOLDER_NAME : str := s!"Media".

Record folder := Folder {
  fo_id : Z;
  fo_site_id : Z;
  fo_parent_id : option Z;
  fo_name : str;
  fo_path : str;
  fo_created_by : option Z;
  fo_created_at : Z;
  fo_updated_at : Z
}.
#[export] Instance folder_eq_dec : EqDecision folder.
Proof. solve_decision. Defined.

(** The columns of a file its folder's deletion reads. *)
Record filed := Filed { fd_id : Z; fd_folder_id : option Z; fd_deleted_at : option Z }.

Inductive folder_error :=
  | FolderNotFound
  | InvalidFolderName
  | FolderNameTaken
  | FolderSiteMismatch
  | FolderCycle (path : str)
  | RootFolderProtected
  | FolderNotEmpty (what : str) (count : Z)
  | FolderDatabase.
#[export] Instance folder_error_eq_dec : EqDecision folder_error.
Proof. solve_decision. Defined.

Definition is_root (f : folder) : bool := negb (is_given (fo_parent_id f)).
Definition segments (f : folder) : list str := List.filter (fun part => negb (bool_decide (part = []))) (split_on c!"/" (fo_path f)).

(** ** Names and paths *)

Definition folder_name_char (c : char) : char := if (c =? c!"/")%N || (c =? 92)%N then c!"-" else c.
Definition sanitize_folder_name (raw : str) : str :=
  trim_matches (N.eqb c!".") (trim (folder_name_char <$> List.filter (fun c => negb (is_control c)) (trim raw))).

Definition validate_folder_name (name : str) : result unit folder_error :=
  refuse bool_decide (name = []) with InvalidFolderName in
  refuse (MAX_FOLDER_NAME_LENGTH <? utf8_len name)%nat with InvalidFolderName in
  refuse str_eqb name s!"." || str_eqb name s!".." with InvalidFolderName in
  Ok tt.

Definition trim_slashes (s : str) : str := trim_matches (N.eqb c!"/") s.

Definition child_path (parent_path name : str) : result str folder_error :=
  let? _ := validate_folder_name name in
  let path := if bool_decide (trim_slashes parent_path = []) then name else trim_slashes parent_path ++ s!"/" ++ name in
  refuse (MAX_FOLDER_PATH_LENGTH <? utf8_len path)%nat with InvalidFolderName in
  Ok path.

Definition subtree_pattern (path : str) : str := trim_slashes path ++ s!"/%".

(** [s like pattern]: [%] any text, [_] any character, a backslash escapes. *)
Fixpoint like (pattern : str) : str -> bool :=
  match pattern with
  | [] => fun s => bool_decide (s = [])
  | p :: pattern' =>
      if (p =? c!"%")%N then
        fix any s := like pattern' s || match s with [] => false | _ :: s' => any s' end
      else if (p =? c!"_")%N then fun s => match s with [] => false | _ :: s' => like pattern' s' end
      else if (p =? 92)%N then
        match pattern' with
        | [] => fun _ => false
        | q :: pattern'' => fun s => match s with [] => false | c :: s' => (c =? q)%N && like pattern'' s' end
        end
      else fun s => match s with [] => false | c :: s' => (c =? p)%N && like pattern' s' end
  end.

(** ** The table *)

Definition is_folder (id : Z) (f : folder) : bool := fo_id f =? id.
Definition find_folder (id : Z) (l : list folder) : option folder := List.find (is_folder id) l.

(** The constraints a row keeps against the others: its name and path are not blank, it is not its
    own parent, its parent exists, it is the only root of its site and the only child of its name. *)
Definition same_place (f g : folder) : bool :=
  (fo_site_id f =? fo_site_id g)
  && match fo_parent_id f, fo_parent_id g with
     | None, None => true
     | Some p, Some q => (p =? q) && str_eqb (fo_name f) (fo_name g)
     | _, _ => false
     end.
Definition not_blank (f : folder) : bool :=
  negb (bool_decide (btrim (fo_name f) = [])) && negb (bool_decide (btrim (fo_path f) = [])).
Definition parent_ok (f : folder) (l : list folder) : bool :=
  match fo_parent_id f with None => true | Some p => negb (p =? fo_id f) && is_given (find_folder p l) end.

Definition list_folders (site_id : Z) (l : list folder) : list folder :=
  sort_by (fun f g => then_with (str_cmp (fo_path f) (fo_path g)) (str_cmp (fo_name f) (fo_name g)))
    (List.filter (fun f => fo_site_id f =? site_id) l).

Definition root_of (site_id : Z) (l : list folder) : option folder :=
  List.find (fun f => (fo_site_id f =? site_id) && is_root f) l.

(** [root_folder]: get or create; the insert does nothing on a conflict. *)
Definition root_folder (id now site_id : Z) (l : list folder) : result (folder * list folder) folder_error :=
  match root_of site_id l with
  | Some existing => Ok (existing, l)
  | None =>
      let row := Folder id site_id None ROOT_FOLDER_NAME ROOT_FOLDER_NAME None now now in
      if is_given (find_folder id l) then Err FolderNotFound else Ok (row, l ++ [row])
  end.

(** [NewFolder.parent_path] carries the path of the new folder itself. *)
Record new_folder := NewFolder { nf_site_id : Z; nf_parent_id : Z; nf_name : str; nf_parent_path : str; nf_created_by : option Z }.

Definition insert_folder (id now : Z) (new : new_folder) (l : list folder) : result (folder * list folder) folder_error :=
  let row := Folder id (nf_site_id new) (Some (nf_parent_id new)) (nf_name new) (nf_parent_path new) (nf_created_by new) now now in
  require not_blank row && parent_ok row l else FolderDatabase in
  refuse is_given (find_folder id l) || existsb (same_place row) l with FolderNameTaken in
  Ok (row, l ++ [row]).

Record folder_move := FolderMove { fm_name : str; fm_parent_path : str }.

Definition with_path (path : str) (now : Z) (f : folder) : folder :=
  Folder (fo_id f) (fo_site_id f) (fo_parent_id f) (fo_name f) path (fo_created_by f) (fo_created_at f) now.
Definition with_place (parent_id : option Z) (name path : str) (now : Z) (f : folder) : folder :=
  Folder (fo_id f) (fo_site_id f) parent_id name path (fo_created_by f) (fo_created_at f) now.

(** The rows the subtree statement rewrites. *)
Definition in_rewritten_set (current : folder) (f : folder) : bool :=
  (fo_site_id f =? fo_site_id current) && (str_eqb (fo_path f) (fo_path current) || like (subtree_pattern (fo_path current)) (fo_path f))
  && negb (fo_id f =? fo_id current).
Definition rewrite_path (old_path new_path path : str) : str := new_path ++ drop (length old_path) path.
Definition rewrite_subtree (now : Z) (current : folder) (new_path : str) (l : list folder) : list folder :=
  (fun f => if in_rewritten_set current f then with_path (rewrite_path (fo_path current) new_path (fo_path f)) now f else f) <$> l.

(** The scalar subquery: nothing when no row has the path, an error when two have. *)
Definition folder_at (site_id : Z) (path : str) (l : list folder) : result (option Z) folder_error :=
  match List.filter (fun f => (fo_site_id f =? site_id) && str_eqb (fo_path f) path) l with
  | [] => Ok None
  | [f] => Ok (Some (fo_id f))
  | _ => Err FolderDatabase
  end.

Definition move_folder (now id : Z) (target : folder_move) (l : list folder) : result (folder * list folder) folder_error :=
  let? current := ok_or (find_folder id l) FolderNotFound in
  let? new_path := child_path (fm_parent_path target) (fm_name target) in
  if bool_decide (new_path = fo_path current) then Ok (current, l)
  else
    refuse starts_with new_path (fo_path current ++ s!"/") || starts_with (fo_path current) (new_path ++ s!"/")
      with FolderCycle new_path in
    let l := rewrite_subtree now current new_path l in
    let? parent_id := folder_at (fo_site_id current) (fm_parent_path target) l in
    let moved := with_place parent_id (fm_name target) new_path now current in
    require forallb not_blank (moved :: l) && parent_ok moved l else FolderDatabase in
    refuse existsb (fun f => same_place moved f && negb (fo_id f =? id)) l with FolderDatabase in
    Ok (moved, (fun f => if is_folder id f then moved else f) <$> l).

Definition count_if {A} (p : A -> bool) (l : list A) : Z := Z.of_nat (length (List.filter p l)).

Definition delete_empty_folder (id : Z) (files : list filed) (l : list folder) : result (list folder) folder_error :=
  let? folder := ok_or (find_folder id l) FolderNotFound in
  refuse is_root folder with RootFolderProtected in
  let children := count_if (fun f => bool_decide (fo_parent_id f = Some id)) l in
  refuse 0 <? children with FolderNotEmpty s!"folders" children in
  let live := count_if (fun f => bool_decide (fd_folder_id f = Some id) && negb (is_given (fd_deleted_at f))) files in
  refuse 0 <? live with FolderNotEmpty s!"files" live in
  Ok (List.filter (fun f => negb (is_folder id f)) l).

(** [on delete set null]. *)
Definition unfile (id : Z) (files : list filed) : list filed :=
  (fun f => if bool_decide (fd_folder_id f = Some id) then Filed (fd_id f) None (fd_deleted_at f) else f) <$> files.

(** ** The routes, past the check that the site is the caller's *)

Definition folder_in_scope (id site_id : Z) (l : list folder) : result folder folder_error :=
  let? folder := ok_or (find_folder id l) FolderNotFound in
  require fo_site_id folder =? site_id else FolderSiteMismatch in Ok folder.

(** The root stays when the insert after it is refused. *)
Definition create_folder (root_id id now site_id : Z) (parent_id : option Z) (raw_name : str) (created_by : option Z) (l : list folder) :
  result folder folder_error * list folder :=
  match (match parent_id with
         | Some p => let? f := folder_in_scope p site_id l in Ok (f, l)
         | None => root_folder root_id now site_id l
         end) with
  | Err e => (Err e, l)
  | Ok (parent, l) =>
      let name := sanitize_folder_name raw_name in
      let created := (let? _ := validate_folder_name name in
                      let? path := child_path (fo_path parent) name in
                      insert_folder id now (NewFolder site_id (fo_id parent) name path created_by) l) in
      match created with Ok (f, l) => (Ok f, l) | Err e => (Err e, l) end
  end.

Definition rename_or_move (root_id now folder_id : Z) (parent_id : option Z) (raw_name : option str) (l : list folder) :
  result (folder * list folder) folder_error :=
  let? existing := ok_or (find_folder folder_id l) FolderNotFound in
  let? parent := match parent_id with
                 | Some p => let? f := folder_in_scope p (fo_site_id existing) l in Ok (f, l)
                 | None =>
                     match fo_parent_id existing with
                     | Some p => let? f := folder_in_scope p (fo_site_id existing) l in Ok (f, l)
                     | None => root_folder root_id now (fo_site_id existing) l
                     end
                 end in
  let '(parent, l) := parent in
  let? name := match raw_name with
               | Some raw => let name := sanitize_folder_name raw in let? _ := validate_folder_name name in Ok name
               | None => Ok (fo_name existing)
               end in
  move_folder now folder_id (FolderMove name (fo_path parent)) l.

(** ** Paths *)

Definition slash_free (s : str) : Prop := c!"/" ∉ s.
Definition below (path prefix : str) : bool := starts_with path (prefix ++ s!"/").

Lemma below_iff path prefix : below path prefix = true <-> exists r, path = prefix ++ c!"/" :: r.
Proof. unfold below. rewrite starts_with_iff. split; intros (r & ->); exists r; by rewrite <- app_assoc. Qed.

Lemma child_split a n b r : slash_free n -> a ++ c!"/" :: n = b ++ c!"/" :: r -> (a = b /\ n = r) \/ exists k, a = b ++ c!"/" :: k.
Proof.
  intros Hn E. apply app_eq_app in E as (k & [[-> E]|[-> E]]).
  - destruct k as [|x k]; [left; rewrite app_nil_r; by injection E as <-|]. injection E as <- E. right. by exists k.
  - destruct k as [|x k]; [left; rewrite app_nil_r; by injection E as <-|]. injection E as <- E. exfalso. apply Hn. rewrite E.
    apply elem_of_app. right. apply list_elem_of_here.
Qed.

Lemma below_child a n b : slash_free n -> below (a ++ c!"/" :: n) b = true <-> a = b \/ below a b = true.
Proof.
  intros Hn. rewrite !below_iff. split.
  - intros (r & E). destruct (child_split a n b r Hn E) as [[-> _]|(k & ->)]; [by left|right; by exists k].
  - intros [->|(k & ->)]; [by exists n|]. exists (k ++ c!"/" :: n). by rewrite <- app_assoc.
Qed.

Lemma child_inj a n b m : slash_free n -> slash_free m -> a ++ c!"/" :: n = b ++ c!"/" :: m -> a = b /\ n = m.
Proof.
  intros Hn Hm E. destruct (child_split a n b m Hn E) as [|(k & ->)]; [done|]. exfalso. rewrite <- app_assoc in E. apply app_inv_head in E.
  injection E as E. apply Hm. rewrite <- E. apply elem_of_app. right. apply list_elem_of_here.
Qed.

Lemma below_irrefl a : below a a = false.
Proof.
  apply not_true_iff_false. rewrite below_iff. intros (r & E). apply (f_equal length) in E. rewrite length_app in E. cbn in E. lia.
Qed.

Lemma below_trans a b c : below a b = true -> below b c = true -> below a c = true.
Proof. rewrite !below_iff. intros (r & ->) (r' & ->). exists (r' ++ c!"/" :: r). by rewrite <- app_assoc. Qed.

(** Text without the wildcards and the escape of [like]. *)
Definition wild_char (c : char) : bool := (c =? c!"%")%N || (c =? c!"_")%N || (c =? 92)%N.
Definition plain (s : str) : bool := forallb (fun c => negb (wild_char c)) s.

Lemma like_anything s : like [c!"%"] s = true.
Proof. induction s as [|d s IH]; [done|]. change ((like [] (d :: s) || like [c!"%"] s) = true). by rewrite IH, orb_true_r. Qed.

Lemma like_subtree prefix s : plain prefix = true -> like (prefix ++ s!"/%") s = below s prefix.
Proof.
  unfold below. revert s. induction prefix as [|c prefix IH]; intros s H.
  - change (like [c!"/"; c!"%"] s = starts_with s [c!"/"]). destruct s as [|d s]; [done|].
    change (((d =? c!"/")%N && like [c!"%"] s) = ((c!"/" =? d)%N && starts_with s [])). rewrite (N.eqb_sym d), like_anything.
    by destruct s.
  - cbn [plain forallb] in H. apply andb_true_iff in H as [Hc H]. unfold wild_char in Hc. apply negb_true_iff in Hc.
    apply orb_false_iff in Hc as [Hc H3]. apply orb_false_iff in Hc as [H1 H2]. cbn [app like]. rewrite H1, H2, H3.
    destruct s as [|d s]; [done|]. cbn [starts_with]. rewrite (N.eqb_sym d), IH; [|exact H].
    done.
Qed.

(** Text that neither starts nor ends with a slash. *)
Definition edged (s : str) : Prop := (exists c r, s = c :: r /\ c <> c!"/") /\ (exists r c, s = r ++ [c] /\ c <> c!"/").

Lemma edged_trim s : edged s -> trim_slashes s = s.
Proof.
  intros [(c & r & E & Hc) (r' & d & E' & Hd)]. unfold trim_slashes, trim_matches, trim_end_by.
  assert (trim_start_by (N.eqb c!"/") s = s) as ->.
  { rewrite E. cbn [trim_start_by]. by destruct (N.eqb_spec c!"/" c); [congruence|]. }
  rewrite E', rev_app_distr. cbn [rev app trim_start_by]. destruct (N.eqb_spec c!"/" d); [congruence|]. cbn. by rewrite rev_involutive.
Qed.

Lemma edged_name n : n <> [] -> slash_free n -> edged n.
Proof.
  intros Hn Hs. split.
  - destruct n as [|c r]; [done|]. exists c, r. split; [done|]. intros ->. apply Hs, list_elem_of_here.
  - destruct (exists_last Hn) as (r & c & ->). exists r, c. split; [done|]. intros ->. apply Hs, elem_of_app. right. apply list_elem_of_here.
Qed.

Lemma edged_child a n : edged a -> n <> [] -> slash_free n -> edged (a ++ c!"/" :: n).
Proof.
  intros [(c & r & -> & Hc) _] Hn Hs. split; [by exists c, (r ++ c!"/" :: n)|].
  destruct (edged_name n Hn Hs) as [_ (r' & d & -> & Hd)]. exists ((c :: r) ++ c!"/" :: r'), d. split; [|done]. by rewrite <- app_assoc.
Qed.

(** ** The invariant of the table

    One root per site, named and placed as such; every other row lies in its parent, in the same
    site, and its path is its parent's followed by its name; names hold no slash and no two children
    of a parent share one. *)
Record tree_ok (l : list folder) : Prop := TreeOk {
  to_ids : NoDup (fo_id <$> l);
  to_root f : f ∈ l -> fo_parent_id f = None -> fo_name f = ROOT_FOLDER_NAME /\ fo_path f = ROOT_FOLDER_NAME;
  to_child f p : f ∈ l -> fo_parent_id f = Some p ->
    exists g, g ∈ l /\ fo_id g = p /\ fo_site_id g = fo_site_id f /\ fo_path f = fo_path g ++ c!"/" :: fo_name f;
  to_name f : f ∈ l -> btrim (fo_name f) <> [] /\ slash_free (fo_name f);
  to_places f g : f ∈ l -> g ∈ l -> same_place f g = true -> f = g
}.

Lemma btrim_nonempty s : btrim s <> [] -> s <> [].
Proof. by intros H ->. Qed.

Lemma btrim_keeps s c : c ∈ s -> c <> c!" " -> btrim s <> [].
Proof.
  intros Hc Hne E. assert (c ∈ btrim s) as Hin; [|by rewrite E in Hin; apply elem_of_nil in Hin].
  unfold btrim, trim_end_by. apply elem_of_rev, trim_start_keeps; [|by apply N.eqb_neq]. apply elem_of_rev, trim_start_keeps; [done|by apply N.eqb_neq].
Qed.

Section Tree.
Context (l : list folder) (T : tree_ok l).

Lemma name_ok f : f ∈ l -> fo_name f <> [] /\ slash_free (fo_name f).
Proof. intros Hf. destruct (to_name l T f Hf) as [Hb Hs]. split; [by apply btrim_nonempty|done]. Qed.

Lemma own_folder f g : f ∈ l -> g ∈ l -> fo_id f = fo_id g -> f = g.
Proof. apply (NoDup_key_inj fo_id l), T. Qed.

Lemma find_folder_elem f : f ∈ l -> find_folder (fo_id f) l = Some f.
Proof.
  intros Hf. unfold find_folder. destruct (List.find _ l) as [g|] eqn:E.
  - apply find_some in E as [Hg%list_elem_of_In Hid%Z.eqb_eq]. f_equal. by apply own_folder.
  - apply list_elem_of_In in Hf. apply (find_none _ _ E) in Hf. unfold is_folder in Hf. by rewrite Z.eqb_refl in Hf.
Qed.

Lemma find_folder_Some id f : find_folder id l = Some f -> f ∈ l /\ fo_id f = id.
Proof. intros [Hf%list_elem_of_In Hid%Z.eqb_eq]%find_some. done. Qed.

Lemma path_edged f : f ∈ l -> edged (fo_path f).
Proof.
  remember (length (fo_path f)) as n eqn:En. revert f En. induction n as [n IH] using lt_wf_ind. intros f En Hf.
  destruct (fo_parent_id f) as [p|] eqn:Ep.
  - destruct (to_child l T f p Hf Ep) as (g & Hg & _ & _ & E). rewrite E. apply edged_child; [|apply name_ok, Hf..].
    apply (IH (length (fo_path g))); [|done|done]. rewrite En, E, length_app. cbn. lia.
  - destruct (to_root l T f Hf Ep) as [_ ->]. split; [exists c!"M", s!"edia"|exists s!"Medi", c!"a"]; done.
Qed.

Lemma path_trim f : f ∈ l -> trim_slashes (fo_path f) = fo_path f.
Proof. intros Hf. by apply edged_trim, path_edged. Qed.

Lemma path_inj f g : f ∈ l -> g ∈ l -> fo_site_id f = fo_site_id g -> fo_path f = fo_path g -> f = g.
Proof.
  remember (length (fo_path f)) as n eqn:En. revert f g En. induction n as [n IH] using lt_wf_ind. intros f g En Hf Hg Es Ep.
  assert (forall h p, h ∈ l -> fo_parent_id h = Some p -> fo_path h <> ROOT_FOLDER_NAME) as Hnr.
  { intros h p Hh Eh E. destruct (to_child l T h p Hh Eh) as (q & _ & _ & _ & Eq). rewrite Eq in E.
    assert (c!"/" ∈ ROOT_FOLDER_NAME) as Hin; [|by apply (bool_decide_eq_true_2 _) in Hin].
    rewrite <- E. apply elem_of_app. right. apply list_elem_of_here. }
  destruct (fo_parent_id f) as [p|] eqn:Ef, (fo_parent_id g) as [q|] eqn:Eg.
  - destruct (to_child l T f p Hf Ef) as (f0 & Hf0 & Hp & Sf & Pf), (to_child l T g q Hg Eg) as (g0 & Hg0 & Hq & Sg & Pg).
    rewrite Pf, Pg in Ep. apply child_inj in Ep as [E1 E2]; [|apply name_ok, Hf|apply name_ok, Hg].
    assert (f0 = g0) as ->; [|].
    { apply (IH (length (fo_path f0))); try done; [|congruence]. rewrite En, Pf, length_app. cbn. lia. }
    apply (to_places l T f g Hf Hg). unfold same_place. rewrite Es, Z.eqb_refl, Ef, Eg, E2, str_eqb_refl. cbn.
    rewrite andb_true_r. apply Z.eqb_eq. congruence.
  - exfalso. apply (Hnr f p Hf Ef). rewrite Ep. by apply (to_root l T g).
  - exfalso. apply (Hnr g q Hg Eg). rewrite <- Ep. by apply (to_root l T f).
  - apply (to_places l T f g Hf Hg). unfold same_place. by rewrite Es, Z.eqb_refl, Ef, Eg.
Qed.

Lemma one_root f g : f ∈ l -> g ∈ l -> fo_site_id f = fo_site_id g -> fo_parent_id f = None -> fo_parent_id g = None -> f = g.
Proof. intros Hf Hg Es Ef Eg. apply (to_places l T f g Hf Hg). unfold same_place. by rewrite Es, Z.eqb_refl, Ef, Eg. Qed.
End Tree.

(** *** Names a route lets through *)

Lemma trim_slash_free s : slash_free s -> slash_free (trim s).
Proof.
  intros H Hc. destruct (trim_start_by_split is_whitespace s) as [d E]. unfold trim in Hc.
  destruct (trim_end_by_split is_whitespace (trim_start_by is_whitespace s)) as [d' E'].
  apply H. rewrite E, E'. apply elem_of_app. right. apply elem_of_app. by left.
Qed.

Lemma sanitized_slash_free raw : slash_free (sanitize_folder_name raw).
Proof.
  assert (forallb (fun c => negb (c =? c!"/")%N) (sanitize_folder_name raw) = true) as H.
  { apply trim_matches_forallb. change trim with (trim_matches is_whitespace). apply trim_matches_forallb. apply forallb_elem.
    intros c (d & -> & _)%list_elem_of_fmap. unfold folder_name_char. destruct (d =? c!"/")%N eqn:E; [done|].
    destruct (d =? 92)%N; [done|]. cbn [orb]. by rewrite E. }
  intros Hc. rewrite forallb_elem in H. specialize (H _ Hc). by rewrite N.eqb_refl in H.
Qed.

Lemma validated_nonempty name : validate_folder_name name = Ok tt -> name <> [].
Proof. intros H ->. done. Qed.

Lemma child_path_ok parent_path name path : edged parent_path -> child_path parent_path name = Ok path ->
  path = parent_path ++ c!"/" :: name /\ name <> [] /\ (utf8_len path <= MAX_FOLDER_PATH_LENGTH)%nat.
Proof.
  intros He. unfold child_path. destruct (validate_folder_name name) as [[]|] eqn:Hv; [cbn [result_bind]|done].
  rewrite edged_trim by done. rewrite bool_decide_eq_false_2 by by destruct He as [(c & r & -> & _) _].
  destruct (Nat.ltb_spec MAX_FOLDER_PATH_LENGTH (utf8_len (parent_path ++ s!"/" ++ name))); [done|]. intros [= <-].
  split_and!; [done|by apply validated_nonempty|done].
Qed.

(** ** A move *)

(** The subtree statement of a move finds the folders below [current] and no others: the [like] pattern
    of its path, in which [%], [_] and a backslash have their meanings, matches exactly those of the
    site. *)
Definition catches_own (current : folder) (l : list folder) : Prop := forall f, f ∈ l -> fo_site_id f = fo_site_id current ->
  like (subtree_pattern (fo_path current)) (fo_path f) = below (fo_path f) (fo_path current).

(** A path without wildcards does. *)
Lemma plain_catches_own l current : tree_ok l -> current ∈ l -> plain (fo_path current) = true -> catches_own current l.
Proof. intros T Hc Hp f Hf Hs. unfold subtree_pattern. rewrite (path_trim l T current Hc). by apply like_subtree. Qed.

Definition relocate (now : Z) (current moved : folder) (f : folder) : folder :=
  if is_folder (fo_id current) f then moved
  else if (fo_site_id f =? fo_site_id current) && below (fo_path f) (fo_path current)
       then with_path (rewrite_path (fo_path current) (fo_path moved) (fo_path f)) now f
       else f.

Lemma rewrite_path_below old_path new_path r : rewrite_path old_path new_path (old_path ++ r) = new_path ++ r.
Proof. unfold rewrite_path. by rewrite drop_app_length. Qed.

Section Move.
Context (l : list folder) (T : tree_ok l) (current parent : folder) (name : str) (now : Z).
Context (Hcur : current ∈ l) (Hpar : parent ∈ l) (Hsite : fo_site_id parent = fo_site_id current).
Context (Hname : slash_free name) (Hown : catches_own current l).

Let old_path := fo_path current.
Let new_path := fo_path parent ++ c!"/" :: name.
Let moved := with_place (Some (fo_id parent)) name new_path now current.

Lemma rewritten_iff f : f ∈ l -> in_rewritten_set current f = (fo_site_id f =? fo_site_id current) && below (fo_path f) old_path.
Proof.
  intros Hf. unfold in_rewritten_set.
  destruct (Z.eqb_spec (fo_site_id f) (fo_site_id current)) as [Es|]; [cbn [andb]|done]. rewrite Hown by done. fold old_path.
  destruct (str_eqb (fo_path f) old_path) eqn:Ep.
  - apply str_eqb_eq in Ep. rewrite (path_inj l T f current) by done. rewrite Z.eqb_refl. cbn. symmetry. apply below_irrefl.
  - cbn [orb]. destruct (below (fo_path f) old_path) eqn:Eb; [cbn [andb]|done]. apply negb_true_iff, Z.eqb_neq. intros Ei.
    rewrite (own_folder l T f current) in Eb by done. unfold old_path in Eb. by rewrite below_irrefl in Eb.
Qed.

(** The destination is neither the folder itself nor below it. *)
Context (Hout : below new_path old_path = false).

Lemma parent_outside : fo_path parent <> old_path /\ below (fo_path parent) old_path = false /\ fo_id parent <> fo_id current.
Proof.
  assert (fo_path parent <> old_path /\ below (fo_path parent) old_path = false) as [H1 H2].
  { split.
    - intros E. assert (below new_path old_path = true); [|congruence]. apply below_child; [done|by left].
    - apply not_true_iff_false. intros E. assert (below new_path old_path = true); [|congruence]. apply below_child; [done|by right]. }
  split_and!; [done..|]. intros E. apply H1. by rewrite (own_folder l T parent current).
Qed.

Lemma rewrite_elem f : f ∈ rewrite_subtree now current new_path l <->
  exists f0, f0 ∈ l /\ f = if (fo_site_id f0 =? fo_site_id current) && below (fo_path f0) old_path
                         then with_path (rewrite_path old_path new_path (fo_path f0)) now f0 else f0.
Proof.
  unfold rewrite_subtree. rewrite list_elem_of_fmap. split; intros (f0 & H1 & H2).
  - exists f0. split; [done|]. by rewrite <- rewritten_iff.
  - exists f0. split; [|done]. by rewrite rewritten_iff.
Qed.

Lemma rewrite_ids : fo_id <$> rewrite_subtree now current new_path l = fo_id <$> l.
Proof. unfold rewrite_subtree. rewrite <- list_fmap_compose. apply list_fmap_ext. intros i f _. cbn. by destruct (in_rewritten_set current f). Qed.

Lemma parent_stays : parent ∈ rewrite_subtree now current new_path l.
Proof.
  apply rewrite_elem. exists parent. split; [done|]. destruct parent_outside as (_ & E & _). by rewrite E, andb_false_r.
Qed.

Lemma new_parent : folder_at (fo_site_id current) (fo_path parent) (rewrite_subtree now current new_path l) = Ok (Some (fo_id parent)).
Proof.
  unfold folder_at. set (p := fun f : folder => _). set (l1 := rewrite_subtree now current new_path l).
  assert (forall f, f ∈ List.filter p l1 -> f = parent) as Hall.
  { intros f [(f0 & Hf0 & ->)%rewrite_elem H]%elem_of_filter_bool. unfold p in H. apply andb_true_iff in H as [Hs%Z.eqb_eq Hp%str_eqb_eq].
    destruct ((fo_site_id f0 =? fo_site_id current) && below (fo_path f0) old_path) eqn:E.
    - exfalso. apply andb_true_iff in E as [_ (r & E)%below_iff]. cbn in Hp. rewrite E, rewrite_path_below in Hp. unfold new_path in Hp.
      apply (f_equal length) in Hp. rewrite !length_app in Hp. cbn in Hp. lia.
    - apply (path_inj l T); [done..|congruence|done]. }
  assert (parent ∈ List.filter p l1) as Hin.
  { apply elem_of_filter_bool. split; [apply parent_stays|]. unfold p. by rewrite Hsite, Z.eqb_refl, str_eqb_refl. }
  assert (NoDup (fo_id <$> List.filter p l1)) as Hnd by (apply NoDup_filter_keys; unfold l1; rewrite rewrite_ids; apply T).
  destruct (List.filter p l1) as [|f [|g rest]]; [by apply elem_of_nil in Hin| |].
  - by rewrite (Hall f (list_elem_of_here _ _)).
  - exfalso. rewrite (Hall f (list_elem_of_here _ _)) in Hnd. rewrite (Hall g) in Hnd by (apply list_elem_of_further, list_elem_of_here).
    cbn in Hnd. apply NoDup_cons in Hnd as [Hnd _]. apply Hnd, list_elem_of_here.
Qed.

Lemma relocated : (fun f => if is_folder (fo_id current) f then moved else f) <$> rewrite_subtree now current new_path l
  = relocate now current moved <$> l.
Proof.
  unfold rewrite_subtree. rewrite <- list_fmap_compose. apply list_fmap_ext. intros i f Hf%list_elem_of_lookup_2. cbn.
  rewrite (rewritten_iff f Hf). unfold relocate. unfold is_folder. fold old_path.
  destruct (_ && below _ _); cbn; by destruct (Z.eqb_spec (fo_id f) (fo_id current)).
Qed.

Lemma relocate_cases f : f ∈ l ->
  (f = current /\ relocate now current moved f = moved)
  \/ (f <> current /\ fo_id f <> fo_id current /\ fo_site_id f = fo_site_id current
      /\ exists r, fo_path f = old_path ++ c!"/" :: r /\ relocate now current moved f = with_path (new_path ++ c!"/" :: r) now f)
  \/ (f <> current /\ fo_id f <> fo_id current /\ (fo_site_id f = fo_site_id current -> below (fo_path f) old_path = false)
      /\ relocate now current moved f = f).
Proof.
  intros Hf. unfold relocate, is_folder. fold old_path. destruct (Z.eqb_spec (fo_id f) (fo_id current)) as [E|E].
  - left. split; [by apply (own_folder l T)|done].
  - right. assert (f <> current) by congruence. destruct (Z.eqb_spec (fo_site_id f) (fo_site_id current)) as [Es|Es]; cbn [andb].
    + destruct (below (fo_path f) old_path) eqn:Eb; [left|right; done]. apply below_iff in Eb as (r & Er). split_and!; [done..|].
      exists r. split; [done|]. rewrite Er, rewrite_path_below. done.
    + right. done.
Qed.

Lemma moved_places f : f ∈ l -> fo_id f <> fo_id current ->
  same_place moved (relocate now current moved f) = same_place moved f.
Proof.
  intros Hf Hne. destruct (relocate_cases f Hf) as [[-> _]|[(_ & _ & _ & r & _ & ->)|(_ & _ & _ & ->)]]; done.
Qed.

Lemma blank_rows : btrim name <> [] -> forallb not_blank (moved :: rewrite_subtree now current new_path l) = true.
Proof.
  assert (forall s r, btrim (s ++ c!"/" :: r) <> []) as Hslash.
  { intros s r. apply (btrim_keeps _ c!"/"); [|done]. apply elem_of_app. right. apply list_elem_of_here. }
  assert (forall f, f ∈ l -> btrim (fo_path f) <> []) as Hp.
  { intros f Hf. destruct (fo_parent_id f) as [p|] eqn:E.
    - destruct (to_child l T f p Hf E) as (g & _ & _ & _ & ->). apply Hslash.
    - destruct (to_root l T f Hf E) as [_ ->]. by apply (bool_decide_unpack _). }
  intros Hb. apply forallb_elem. intros f [->|Hf]%elem_of_cons.
  - unfold not_blank. cbn [moved with_place fo_name fo_path]. unfold new_path. rewrite !bool_decide_eq_false_2; [done|apply Hslash|done].
  - apply rewrite_elem in Hf as (f0 & Hf0 & ->). destruct (to_name l T f0 Hf0) as [Hn _].
    destruct ((fo_site_id f0 =? _) && _) eqn:E; unfold not_blank; rewrite !bool_decide_eq_false_2; try done; try by apply Hp.
    cbn [with_path fo_path]. apply andb_true_iff in E as [_ (r & ->)%below_iff]. rewrite rewrite_path_below. apply Hslash.
Qed.

Lemma tree_ok_moved : name <> [] -> btrim name <> [] ->
  existsb (fun f => same_place moved f && negb (fo_id f =? fo_id current)) l = false -> tree_ok (relocate now current moved <$> l).
Proof.
  intros Hn Hb Hfree. destruct parent_outside as (Hp1 & Hp2 & Hp3).
  assert (forall f, f ∈ l -> fo_id f <> fo_id current -> same_place moved f = false) as Hplace.
  { intros f Hf Hne. destruct (same_place moved f) eqn:E; [|done].
    assert (existsb (fun f => same_place moved f && negb (fo_id f =? fo_id current)) l = true); [|congruence].
    apply existsb_elem. exists f. split; [done|]. rewrite E. apply negb_true_iff. by apply Z.eqb_neq. }
  assert (forall f, f ∈ l -> fo_id (relocate now current moved f) = fo_id f /\ fo_site_id (relocate now current moved f) = fo_site_id f) as Hid.
  { intros f Hf. by destruct (relocate_cases f Hf) as [[-> ->]|[(_ & _ & _ & r & _ & ->)|(_ & _ & _ & ->)]]. }
  assert (parent ∈ relocate now current moved <$> l) as Hparent.
  { apply list_elem_of_fmap. exists parent. split; [|done]. destruct (relocate_cases parent Hpar) as [[-> _]|[(_ & _ & _ & r & E & _)|(_ & _ & _ & ->)]]; [done| |done].
    exfalso. assert (below (fo_path parent) old_path = true); [|congruence]. apply below_iff. by exists r. }
  split.
  - rewrite <- list_fmap_compose. erewrite list_fmap_ext; [apply T|]. intros i f Hf%list_elem_of_lookup_2. by apply Hid.
  - intros f' (f & -> & Hf)%list_elem_of_fmap. destruct (relocate_cases f Hf) as [[-> ->]|[(_ & _ & _ & r & E & ->)|(_ & _ & _ & ->)]]; cbn; [done| |by apply T].
    intros Er. exfalso. destruct (to_root l T f Hf Er) as [_ Ep]. rewrite E in Ep.
    assert (c!"/" ∈ ROOT_FOLDER_NAME) as Hin; [|by apply (bool_decide_eq_true_2 _) in Hin].
    rewrite <- Ep. apply elem_of_app. right. apply list_elem_of_here.
  - intros f' p (f & -> & Hf)%list_elem_of_fmap Ep. destruct (relocate_cases f Hf) as [[-> E]|[(Hne & Hi & Hs & r & E & Er)|(Hne & Hi & Ho & Er)]].
    + rewrite E in Ep |- *. cbn in Ep. injection Ep as <-. exists parent. split_and!; [done|done|done|done].
    + rewrite Er in Ep |- *. cbn in Ep |- *. destruct (to_child l T f p Hf Ep) as (g & Hg & Hgi & Hgs & Hgp).
      exists (relocate now current moved g). destruct (Hid g Hg) as [I1 I2]. split_and!; [apply list_elem_of_fmap; by exists g|congruence|congruence|].
      assert (below (fo_path g ++ c!"/" :: fo_name f) old_path = true) as Hb' by (rewrite <- Hgp, E; apply below_iff; by exists r).
      apply below_child in Hb'; [|by apply (name_ok l T)]. destruct Hb' as [Hb'|Hb'].
      * assert (g = current) as -> by (apply (path_inj l T); [done..|congruence|done]).
        destruct (relocate_cases current Hcur) as [[_ ->]|[(? & _)|(? & _)]]; [|done..]. cbn.
        rewrite E in Hgp. fold old_path in Hgp. apply app_inv_head in Hgp. injection Hgp as ->. done.
      * destruct (relocate_cases g Hg) as [[-> _]|[(_ & _ & _ & r' & E' & ->)|(_ & _ & Ho & _)]].
        -- unfold old_path in Hb'. by rewrite below_irrefl in Hb'.
        -- cbn. rewrite E, E' in Hgp. rewrite <- app_assoc in Hgp. apply app_inv_head in Hgp. injection Hgp as ->. by rewrite <- app_assoc.
        -- rewrite Ho in Hb'; [done|congruence].
    + rewrite Er in Ep |- *. destruct (to_child l T f p Hf Ep) as (g & Hg & Hgi & Hgs & Hgp).
      exists (relocate now current moved g). destruct (Hid g Hg) as [I1 I2]. split_and!; [apply list_elem_of_fmap; by exists g|congruence|congruence|].
      rewrite Hgp. f_equal. assert (fo_site_id f = fo_site_id current -> ~ (fo_path g = old_path \/ below (fo_path g) old_path = true)) as Hnb.
      { intros Hs Hb'. assert (below (fo_path f) old_path = true) as Hb''; [|rewrite Ho in Hb''; [done|exact Hs]].
        rewrite Hgp. apply below_child; [by apply (name_ok l T)|done]. }
      destruct (relocate_cases g Hg) as [[-> _]|[(_ & _ & Hs & r' & E' & _)|(_ & _ & _ & ->)]]; [| |done].
      * exfalso. apply Hnb; [congruence|by left].
      * exfalso. apply Hnb; [congruence|]. right. apply below_iff. by exists r'.
  - intros f' (f & -> & Hf)%list_elem_of_fmap. destruct (relocate_cases f Hf) as [[-> ->]|[(_ & _ & _ & r & E & ->)|(_ & _ & _ & ->)]]; cbn; [done|by apply T..].
  - intros f' g' (f & -> & Hf)%list_elem_of_fmap (g & -> & Hg)%list_elem_of_fmap Hsame.
    assert (forall f g, same_place f g = same_place g f) as Hsym.
    { intros a b. unfold same_place. rewrite (Z.eqb_sym (fo_site_id a)). f_equal. destruct (fo_parent_id a), (fo_parent_id b); try done.
      rewrite Z.eqb_sym. f_equal. unfold str_eqb. by apply bool_decide_ext. }
    destruct (decide (f = current)) as [->|Hfc], (decide (g = current)) as [->|Hgc]; [done| | |].
    + assert (fo_id g <> fo_id current) as Hne by (intros E; apply Hgc; by apply (own_folder l T)).
      destruct (relocate_cases current Hcur) as [[_ E]|[(? & _)|(? & _)]]; [|done..]. rewrite E, moved_places, Hplace in Hsame by done. done.
    + assert (fo_id f <> fo_id current) as Hne by (intros E; apply Hfc; by apply (own_folder l T)).
      destruct (relocate_cases current Hcur) as [[_ E]|[(? & _)|(? & _)]]; [|done..]. rewrite Hsym, E, moved_places, Hplace in Hsame by done. done.
    + f_equal. apply (to_places l T); [done..|].
      destruct (relocate_cases f Hf) as [[? _]|[(_ & _ & _ & r & _ & E)|(_ & _ & _ & E)]]; [done| |]; rewrite E in Hsame;
        (destruct (relocate_cases g Hg) as [[? _]|[(_ & _ & _ & r' & _ & E')|(_ & _ & _ & E')]]; [done| |]; rewrite E' in Hsame; done).
Qed.
End Move.

Definition taken (parent : folder) (name : str) (id : Z) (l : list folder) : bool :=
  existsb (fun f => (fo_site_id parent =? fo_site_id f) && bool_decide (fo_parent_id f = Some (fo_id parent)) && str_eqb name (fo_name f)
                    && negb (fo_id f =? id)) l.

Lemma existsb_ext_elem {A} (p q : A -> bool) (l : list A) : (forall x, x ∈ l -> p x = q x) -> existsb p l = existsb q l.
Proof.
  induction l as [|x l IH]; intros H; [done|]. cbn. rewrite H by apply list_elem_of_here. f_equal. apply IH. intros y Hy.
  apply H. by apply list_elem_of_further.
Qed.

Lemma existsb_fmap {A B} (f : A -> B) (p : B -> bool) (l : list A) : existsb p (f <$> l) = existsb (fun x => p (f x)) l.
Proof. induction l as [|x l IH]; [done|]. cbn. by rewrite IH. Qed.

Lemma same_place_at parent_id name path now current f :
  same_place (with_place (Some parent_id) name path now current) f
  = (fo_site_id current =? fo_site_id f) && bool_decide (fo_parent_id f = Some parent_id) && str_eqb name (fo_name f).
Proof.
  unfold same_place. cbn. destruct (fo_parent_id f) as [q|]; [|rewrite bool_decide_eq_false_2 by done; by rewrite !andb_false_r]. rewrite <- andb_assoc. f_equal. f_equal.
  apply eq_true_iff_eq. rewrite Z.eqb_eq, bool_decide_eq_true. split; congruence.
Qed.

(** What [move_folder] answers, on every branch. *)
Lemma move_folder_exact l current parent name now :
  tree_ok l -> current ∈ l -> parent ∈ l -> fo_site_id parent = fo_site_id current -> slash_free name -> catches_own current l ->
  move_folder now (fo_id current) (FolderMove name (fo_path parent)) l =
    let new_path := fo_path parent ++ c!"/" :: name in
    let moved := with_place (Some (fo_id parent)) name new_path now current in
    let? _ := child_path (fo_path parent) name in
    if bool_decide (new_path = fo_path current) then Ok (current, l)
    else if below new_path (fo_path current) || below (fo_path current) new_path then Err (FolderCycle new_path)
    else if bool_decide (btrim name = []) || taken parent name (fo_id current) l then Err FolderDatabase
    else Ok (moved, relocate now current moved <$> l).
Proof.
  intros T Hc Hp Hs Hn Hpl. unfold move_folder. rewrite (find_folder_elem l T current Hc). cbn [ok_or result_bind fm_name fm_parent_path].
  destruct (child_path (fo_path parent) name) as [np|] eqn:Ecp; [cbn [result_bind]|done].
  apply child_path_ok in Ecp as (-> & Hne & _); [|by apply (path_edged l T)]. cbv zeta.
  set (new_path := fo_path parent ++ c!"/" :: name). case_bool_decide as Hsame; [by rewrite bool_decide_eq_true_2|].
  rewrite bool_decide_eq_false_2 by done. fold (below new_path (fo_path current)).
  fold (below (fo_path current) new_path). destruct (below new_path (fo_path current)) eqn:Eb; [done|]. cbn [orb].
  destruct (below (fo_path current) new_path); [done|].
  pose proof (new_parent l T current parent name now Hc Hp Hs Hn Hpl Eb) as Hnp. fold new_path in Hnp. rewrite Hnp. cbn [result_bind].
  set (moved := with_place _ _ _ _ _).
  assert (parent_ok moved (rewrite_subtree now current new_path l) = true) as Hpo.
  { unfold parent_ok. cbn [moved with_place fo_parent_id fo_id]. destruct (parent_outside l T current parent name Hc Hp Hn Eb) as (_ & _ & Hne').
    apply Z.eqb_neq in Hne'. rewrite Hne'. cbn. unfold find_folder. rewrite find_exists. apply existsb_elem. exists parent. split.
    - by apply (parent_stays l T current parent name now).
    - apply Z.eqb_refl. }
  assert (existsb (fun f => same_place moved f && negb (fo_id f =? fo_id current)) (rewrite_subtree now current new_path l)
          = taken parent name (fo_id current) l) as ->.
  { unfold taken, rewrite_subtree. rewrite existsb_fmap. apply existsb_ext_elem. intros f Hf. unfold moved. rewrite same_place_at, Hs.
    by destruct (in_rewritten_set current f). }
  case_bool_decide as Hb.
  - assert (forallb not_blank (moved :: rewrite_subtree now current new_path l) = false) as ->; [|done].
    cbn [forallb]. unfold not_blank at 1. cbn [moved with_place fo_name]. by rewrite bool_decide_eq_true_2.
  - pose proof (blank_rows l T current parent name now Hc Hpl Hb) as Hblank. fold new_path moved in Hblank. rewrite Hpo, Hblank. cbn [andb orb].
    destruct (taken parent name (fo_id current) l); [done|]. do 2 f_equal.
    by apply (relocated l T current parent name now).
Qed.

(** ** The other statements *)

Lemma tree_ok_snoc l row :
  tree_ok l -> fo_id row ∉ fo_id <$> l -> btrim (fo_name row) <> [] -> slash_free (fo_name row) ->
  existsb (same_place row) l = false ->
  match fo_parent_id row with
  | None => fo_name row = ROOT_FOLDER_NAME /\ fo_path row = ROOT_FOLDER_NAME
  | Some p => exists g, g ∈ l /\ fo_id g = p /\ fo_site_id g = fo_site_id row /\ fo_path row = fo_path g ++ c!"/" :: fo_name row
  end -> tree_ok (l ++ [row]).
Proof.
  intros T Hid Hb Hs Hfree Hplace.
  assert (forall f, f ∈ l -> same_place row f = false /\ same_place f row = false) as Hno.
  { intros f Hf. assert (same_place row f = false) as E.
    { destruct (same_place row f) eqn:E; [|done]. assert (existsb (same_place row) l = true); [|congruence]. apply existsb_elem. by exists f. }
    split; [done|]. rewrite <- E. unfold same_place. rewrite (Z.eqb_sym (fo_site_id f)). f_equal.
    destruct (fo_parent_id f), (fo_parent_id row); try done. rewrite Z.eqb_sym. f_equal. unfold str_eqb. by apply bool_decide_ext. }
  split.
  - rewrite fmap_app. apply NoDup_app. split_and!; [apply T| |apply NoDup_singleton]. intros x Hx ->%list_elem_of_singleton. done.
  - intros f [Hf| ->%list_elem_of_singleton]%elem_of_app E; [by apply T|]. by rewrite E in Hplace.
  - intros f p [Hf| ->%list_elem_of_singleton]%elem_of_app E.
    + destruct (to_child l T f p Hf E) as (g & Hg & H). exists g. split; [apply elem_of_app; by left|done].
    + rewrite E in Hplace. destruct Hplace as (g & Hg & H). exists g. split; [apply elem_of_app; by left|done].
  - intros f [Hf| ->%list_elem_of_singleton]%elem_of_app; [by apply T|done].
  - intros f g [Hf| ->%list_elem_of_singleton]%elem_of_app [Hg| ->%list_elem_of_singleton]%elem_of_app E; [by apply T| | |done].
    + by rewrite (proj2 (Hno f Hf)) in E.
    + by rewrite (proj1 (Hno g Hg)) in E.
Qed.

Lemma unknown_id id l : is_given (find_folder id l) = false -> id ∉ fo_id <$> l.
Proof.
  unfold find_folder. rewrite find_exists. intros E (f & -> & Hf)%list_elem_of_fmap.
  assert (existsb (is_folder (fo_id f)) l = true); [|congruence]. apply existsb_elem. exists f. split; [done|]. apply Z.eqb_refl.
Qed.

Lemma root_folder_tree id now site_id l f l' : tree_ok l -> root_folder id now site_id l = Ok (f, l') ->
  tree_ok l' /\ f ∈ l' /\ fo_site_id f = site_id.
Proof.
  intros T. unfold root_folder, root_of. destruct (List.find _ l) as [g|] eqn:E.
  - intros [= <- <-]. apply find_some in E as [Hg%list_elem_of_In [Hs%Z.eqb_eq _]%andb_true_iff]. done.
  - destruct (is_given (find_folder id l)) eqn:Ei; [done|]. intros [= <- <-]. split_and!; [|apply elem_of_app; right; apply list_elem_of_here|done].
    apply tree_ok_snoc; [done|by apply unknown_id|by apply (bool_decide_unpack _)|by apply (bool_decide_unpack _)| |done].
    apply not_true_iff_false. intros (g & Hg & Hp)%existsb_elem. apply list_elem_of_In in Hg. apply (find_none _ _ E) in Hg.
    unfold same_place in Hp. cbn in Hp. unfold is_root in Hg. destruct (fo_parent_id g); [by rewrite andb_false_r in Hp|].
    rewrite (Z.eqb_sym site_id) in Hp. cbn in Hg. by rewrite Hp in Hg.
Qed.

Lemma insert_folder_tree id now new l f l' parent :
  tree_ok l -> parent ∈ l -> nf_parent_id new = fo_id parent -> nf_site_id new = fo_site_id parent ->
  nf_parent_path new = fo_path parent ++ c!"/" :: nf_name new -> slash_free (nf_name new) ->
  insert_folder id now new l = Ok (f, l') -> tree_ok l' /\ l' = l ++ [f].
Proof.
  intros T Hp Hid Hs Hpath Hn. unfold insert_folder. set (row := Folder _ _ _ _ _ _ _ _).
  destruct (not_blank row && parent_ok row l) eqn:Ec; [|done]. destruct (is_given (find_folder id l)) eqn:Ei; [done|].
  cbn [orb]. destruct (existsb (same_place row) l) eqn:Es; [done|]. intros [= <- <-]. split; [|done].
  apply andb_true_iff in Ec as [Hb _]. unfold not_blank in Hb. apply andb_true_iff in Hb as [Hb%negb_true_iff%bool_decide_eq_false _].
  apply tree_ok_snoc; [done|by apply unknown_id|done|done|done|]. cbn. exists parent. done.
Qed.

Lemma folder_in_scope_ok id site_id l f : folder_in_scope id site_id l = Ok f -> f ∈ l /\ fo_id f = id /\ fo_site_id f = site_id.
Proof.
  unfold folder_in_scope. destruct (find_folder id l) as [g|] eqn:E; [cbn [ok_or result_bind]|done].
  destruct (Z.eqb_spec (fo_site_id g) site_id); [|done]. intros [= <-]. by apply find_folder_Some in E as [? ?].
Qed.

Lemma create_folder_tree root_id id now site_id parent_id raw_name created_by l : tree_ok l ->
  tree_ok (snd (create_folder root_id id now site_id parent_id raw_name created_by l)).
Proof.
  intros T. unfold create_folder. set (found := match parent_id with Some p => _ | None => _ end).
  assert (forall parent l1, found = Ok (parent, l1) -> tree_ok l1 /\ parent ∈ l1 /\ fo_site_id parent = site_id) as Hfound.
  { intros parent l1. unfold found. destruct parent_id as [p|]; [|by apply root_folder_tree].
    destruct (folder_in_scope p site_id l) as [g|] eqn:E; [|done]. intros [= <- <-]. apply folder_in_scope_ok in E as (? & _ & ?). done. }
  destruct found as [[parent l1]|e]; [|done]. destruct (Hfound parent l1 eq_refl) as (T1 & Hp & Hs). cbv zeta.
  destruct (validate_folder_name _) as [[]|]; [cbn [result_bind]|done]. destruct (child_path _ _) as [path|] eqn:Ec; [cbn [result_bind]|done].
  apply child_path_ok in Ec as (-> & _ & _); [|by apply (path_edged l1)].
  destruct (insert_folder _ _ _ _) as [[f l2]|] eqn:Ei; [|done].
  apply (insert_folder_tree id now _ l1 f l2 parent) in Ei as [T2 _]; [done..|apply sanitized_slash_free].
Qed.

Lemma delete_empty_folder_tree id files l l' : tree_ok l -> delete_empty_folder id files l = Ok l' ->
  tree_ok l' /\ (forall f, f ∈ l' <-> f ∈ l /\ fo_id f <> id).
Proof.
  intros T. unfold delete_empty_folder. destruct (find_folder id l) as [d|]; [cbn [ok_or result_bind]|done].
  destruct (is_root d); [done|]. destruct (Z.ltb_spec 0 (count_if (fun f => bool_decide (fo_parent_id f = Some id)) l)) as [|Hc]; [done|].
  destruct (0 <? _); [done|]. intros [= <-].
  assert (forall f, f ∈ List.filter (fun f => negb (is_folder id f)) l <-> f ∈ l /\ fo_id f <> id) as Hin.
  { intros f. rewrite elem_of_filter_bool. unfold is_folder. by rewrite negb_true_iff, Z.eqb_neq. }
  split; [|exact Hin].
  assert (forall f, f ∈ l -> fo_parent_id f <> Some id) as Hnc.
  { intros f Hf E. assert (f ∈ List.filter (fun f => bool_decide (fo_parent_id f = Some id)) l) as Hf'
      by (apply elem_of_filter_bool; split; [done|by apply bool_decide_eq_true_2]).
    unfold count_if in Hc. destruct (List.filter _ l); [by apply elem_of_nil in Hf'|]. cbn in Hc. lia. }
  split.
  - by apply NoDup_filter_keys, T.
  - intros f [Hf _]%Hin. by apply T.
  - intros f p [Hf _]%Hin E. destruct (to_child l T f p Hf E) as (g & Hg & Ep & H). exists g. split; [|done]. apply Hin. split; [done|].
    intros Eg. apply (Hnc f Hf). congruence.
  - intros f [Hf _]%Hin. by apply T.
  - intros f g [Hf _]%Hin [Hg _]%Hin. by apply T.
Qed.

Lemma move_tree root_id now id parent_id raw_name l f l' : tree_ok l ->
  (forall current, find_folder id l = Some current -> catches_own current l) ->
  rename_or_move root_id now id parent_id raw_name l = Ok (f, l') -> tree_ok l'.
Proof.
  intros T Hpl. unfold rename_or_move. destruct (find_folder id l) as [current|] eqn:Ec; [cbn [ok_or result_bind]|done].
  specialize (Hpl current eq_refl). apply find_folder_Some in Ec as [Hcur <-].
  set (found := match parent_id with Some p => _ | None => _ end).
  assert (forall parent l1, found = Ok (parent, l1) -> l1 = l /\ parent ∈ l /\ fo_site_id parent = fo_site_id current) as Hfound.
  { intros parent l1. unfold found. destruct parent_id as [p|].
    - destruct (folder_in_scope p _ l) as [g|] eqn:E; [|done]. intros [= <- <-]. by apply folder_in_scope_ok in E as (? & _ & ?).
    - destruct (fo_parent_id current) as [p|] eqn:Epar.
      + destruct (folder_in_scope p _ l) as [g|] eqn:E; [|done]. intros [= <- <-]. by apply folder_in_scope_ok in E as (? & _ & ?).
      + unfold root_folder, root_of. destruct (List.find _ l) as [g|] eqn:E.
        * intros [= <- <-]. by apply find_some in E as [Hg%list_elem_of_In [Hs%Z.eqb_eq _]%andb_true_iff].
        * exfalso. apply list_elem_of_In in Hcur. apply (find_none _ _ E) in Hcur. unfold is_root in Hcur. by rewrite Z.eqb_refl, Epar in Hcur. }
  destruct found as [[parent l1]|]; [cbn [result_bind]|done]. destruct (Hfound parent l1 eq_refl) as (-> & Hp & Hs).
  set (named := match raw_name with Some raw => _ | None => _ end).
  assert (forall name, named = Ok name -> slash_free name) as Hnamed.
  { intros name. unfold named. destruct raw_name as [raw|]; [|intros [= <-]; by apply T].
    destruct (validate_folder_name _); [|done]. intros [= <-]. apply sanitized_slash_free. }
  destruct named as [name|]; [cbn [result_bind]|done]. specialize (Hnamed name eq_refl).
  rewrite move_folder_exact by done. cbv zeta. destruct (child_path _ _) as [np|] eqn:Ecp; [cbn [result_bind]|done].
  apply child_path_ok in Ecp as (_ & Hne & _); [|by apply (path_edged l)].
  case_bool_decide; [by intros [= _ <-]|]. destruct (below (fo_path parent ++ _) (fo_path current)) eqn:Eb; [done|]. cbn [orb].
  destruct (below (fo_path current) (fo_path parent ++ _)); [done|].
  case_bool_decide as Hb; cbn [orb]; [done|]. destruct (taken parent name (fo_id current) l) eqn:Et; [done|]. intros [= _ <-].
  apply tree_ok_moved; try done. rewrite <- Et. unfold taken. apply existsb_ext_elem. intros g Hg. by rewrite same_place_at, Hs.
Qed.

(** ** Chains of folders *)

(** The folders from [cursor] to the root, the nearest first, at most [fuel] of them. *)
Fixpoint chain_up (fuel : nat) (cursor : option Z) (l : list folder) : list folder :=
  match fuel, cursor with
  | S fuel, Some id =>
      match find_folder id l with Some f => f :: chain_up fuel (fo_parent_id f) l | None => [] end
  | _, _ => []
  end.

Inductive ancestry (l : list folder) : folder -> list folder -> Prop :=
  | ancestry_root f : f ∈ l -> fo_parent_id f = None -> ancestry l f [f]
  | ancestry_child f g chain : f ∈ l -> fo_parent_id f = Some (fo_id g) -> fo_site_id g = fo_site_id f ->
      fo_path f = fo_path g ++ c!"/" :: fo_name f -> ancestry l g chain -> ancestry l f (f :: chain).

Section Chains.
Context (l : list folder) (T : tree_ok l).

Lemma ancestry_exists f : f ∈ l -> exists chain, ancestry l f chain.
Proof.
  remember (length (fo_path f)) as n eqn:En. revert f En. induction n as [n IH] using lt_wf_ind. intros f En Hf.
  destruct (fo_parent_id f) as [p|] eqn:Ep; [|exists [f]; by constructor].
  destruct (to_child l T f p Hf Ep) as (g & Hg & Hid & Hs & E).
  destruct (IH (length (fo_path g))) with (f := g) as (chain & Hc); [rewrite En, E, length_app; cbn; lia|done|done|].
  exists (f :: chain). apply (ancestry_child l f g); (done || congruence).
Qed.

Lemma ancestry_elem f chain : ancestry l f chain ->
  f ∈ l /\ (forall g, g ∈ chain -> g ∈ l /\ fo_site_id g = fo_site_id f /\ (g = f \/ below (fo_path f) (fo_path g) = true)).
Proof.
  induction 1 as [f Hf Ep|f g chain Hf Ep Hs E _ [Hg IH]]; (split; [done|]).
  - intros h ->%list_elem_of_singleton. split_and!; [done|done|by left].
  - intros h [->|Hh]%elem_of_cons; [split_and!; [done|done|by left]|]. destruct (IH h Hh) as (H1 & H2 & H3). split_and!; [done|congruence|right].
    assert (below (fo_path f) (fo_path g) = true) as Hb by (apply below_iff; by exists (fo_name f)).
    destruct H3 as [->|H3]; [done|by apply (below_trans _ (fo_path g))].
Qed.

Lemma ancestry_NoDup f chain : ancestry l f chain -> NoDup chain.
Proof.
  induction 1 as [f Hf Ep|f g chain Hf Ep Hs E Ha IH]; [apply NoDup_singleton|]. apply NoDup_cons. split; [|done].
  intros Hin. destruct (ancestry_elem g chain Ha) as [_ H]. destruct (H f Hin) as (_ & _ & [->|Hb]).
  - apply (f_equal length) in E. rewrite length_app in E. cbn in E. lia.
  - assert (below (fo_path f) (fo_path g) = true) as Hb' by (apply below_iff; by exists (fo_name f)).
    pose proof (below_trans _ _ _ Hb Hb') as Hirr. by rewrite below_irrefl in Hirr.
Qed.

Lemma ancestry_short f chain : ancestry l f chain -> (length chain <= length l)%nat.
Proof.
  intros H. apply submseteq_length, NoDup_submseteq; [by apply (ancestry_NoDup f)|]. intros g Hg. by apply (ancestry_elem f chain H).
Qed.

Lemma chain_up_ancestry f chain n : ancestry l f chain -> chain_up n (Some (fo_id f)) l = take n chain.
Proof.
  intros H. revert n. induction H as [f Hf Ep|f g chain Hf Ep Hs E Ha IH]; intros [|n]; try done; cbn [chain_up].
  - rewrite (find_folder_elem l T f Hf), Ep. cbn. by destruct n.
  - rewrite (find_folder_elem l T f Hf), Ep. cbn. by rewrite IH.
Qed.

Lemma ancestry_path f chain : ancestry l f chain -> fo_path f = join s!"/" (rev (fo_name <$> chain)).
Proof.
  induction 1 as [f Hf Ep|f g chain Hf Ep Hs E Ha IH].
  - destruct (to_root l T f Hf Ep) as [E1 E2]. cbn. congruence.
  - rewrite E, IH. cbn [fmap list_fmap rev].
    assert (forall (names : list str) (n : str), names <> [] -> join s!"/" (names ++ [n]) = join s!"/" names ++ c!"/" :: n) as Hj.
    { intros names n Hne. induction names as [|x [|y names] IHn]; [done|done|]. cbn [app join] in *. rewrite IHn by done. by rewrite <- !app_assoc. }
    rewrite Hj; [done|]. intros Hnil. apply (f_equal length) in Hnil. rewrite length_rev, length_fmap in Hnil. by destruct Ha.
Qed.

Lemma ancestry_last f chain : ancestry l f chain -> exists root, last chain = Some root /\ root ∈ l /\ fo_parent_id root = None /\ fo_site_id root = fo_site_id f.
Proof.
  induction 1 as [f Hf Ep|f g chain Hf Ep Hs E Ha (root & Hl & H1 & H2 & H3)]; [by exists f|].
  exists root. split_and!; [|done|done|congruence]. by destruct Ha.
Qed.
End Chains.

(** ** What the routes build *)

Inductive folder_op :=
  | OpRoot (id now site_id : Z)
  | OpCreate (root_id id now site_id : Z) (parent_id : option Z) (raw_name : str) (created_by : option Z)
  | OpMove (root_id now id : Z) (parent_id : option Z) (raw_name : option str)
  | OpDelete (id : Z) (files : list filed).

Definition apply_op (op : folder_op) (l : list folder) : list folder :=
  match op with
  | OpRoot id now site_id => match root_folder id now site_id l with Ok (_, l) => l | Err _ => l end
  | OpCreate root_id id now site_id parent_id raw_name created_by => snd (create_folder root_id id now site_id parent_id raw_name created_by l)
  | OpMove root_id now id parent_id raw_name => match rename_or_move root_id now id parent_id raw_name l with Ok (_, l) => l | Err _ => l end
  | OpDelete id files => match delete_empty_folder id files l with Ok l => l | Err _ => l end
  end.

(** A move or a renaming whose statement finds the folder's own subtree. *)
Definition finds_its_own (op : folder_op) (l : list folder) : Prop :=
  match op with OpMove _ _ id _ _ => forall f, find_folder id l = Some f -> catches_own f l | _ => True end.

Inductive grown : list folder -> Prop :=
  | grown_nothing : grown []
  | grown_op op l : grown l -> finds_its_own op l -> grown (apply_op op l).

Lemma grown_tree l : grown l -> tree_ok l.
Proof.
  induction 1 as [|op l Hg T Hp].
  { split; try apply NoDup_nil_2; (by intros f []%elem_of_nil) || by intros f g []%elem_of_nil. }
  destruct op as [id now site_id|root_id id now site_id parent_id raw created_by|root_id now id parent_id raw|id files]; cbn [apply_op finds_its_own] in *.
  - destruct (root_folder id now site_id l) as [[f l']|] eqn:E; [|done]. by apply (root_folder_tree id now site_id l f l') in E as (? & _).
  - by apply create_folder_tree.
  - destruct (rename_or_move _ _ _ _ _ l) as [[f l']|] eqn:E; [|done]. by apply (move_tree root_id now id parent_id raw l f l').
  - destruct (delete_empty_folder id files l) as [l'|] eqn:E; [|done]. by apply (delete_empty_folder_tree id files l l') in E as (? & _).
Qed.

(** C15. A library built by any sequence of creations, moves, renames and deletions is a tree, provided
    the pattern a move or a rename matches paths with finds the folders below the moved one and no
    others: so it is when its path has no percent sign, underscore or backslash
    ([plain_catches_own]), and also with them when no other folder of the site happens to match;
    otherwise a move can break the tree ([wildcard_name_moves_a_stranger]).  From every folder the
    parent links lead, without a repetition and within the number of folders, to the one root of its
    site; its materialised path is the chain of names on the way; and no two folders of a site have
    the same path. *)
Theorem folders_stay_a_tree (l : list folder) (f : folder) :
  grown l -> f ∈ l ->
  (exists chain root,
     (forall fuel, (length l <= fuel)%nat -> chain_up fuel (Some (fo_id f)) l = chain)
     /\ NoDup chain /\ last chain = Some root /\ root ∈ l /\ fo_parent_id root = None /\ fo_path root = ROOT_FOLDER_NAME
     /\ (forall g, g ∈ chain -> g ∈ l /\ fo_site_id g = fo_site_id f)
     /\ fo_path f = join s!"/" (rev (fo_name <$> chain)))
  /\ (forall g, g ∈ l -> fo_site_id g = fo_site_id f -> fo_path g = fo_path f -> g = f)
  /\ (forall g, g ∈ l -> fo_site_id g = fo_site_id f -> fo_parent_id g = None -> fo_parent_id f = None -> g = f).
Proof.
  intros Hg Hf. pose proof (grown_tree l Hg) as T. split_and!.
  - destruct (ancestry_exists l T f Hf) as (chain & Ha). destruct (ancestry_last l f chain Ha) as (root & Hl & Hr & Hp & _).
    exists chain, root. split_and!; try done.
    + intros fuel Hfuel. rewrite (chain_up_ancestry l T f chain) by done. apply take_ge. pose proof (ancestry_short l f chain Ha). lia.
    + by apply (ancestry_NoDup l f).
    + by apply T.
    + intros g Hin. by destruct (proj2 (ancestry_elem l f chain Ha) g Hin) as (? & ? & _).
    + by apply (ancestry_path l T).
  - intros g Hg' Hs Hpath. by apply (path_inj l T).
  - intros g Hg' Hs Hp1 Hp2. by apply (one_root l T).
Qed.

(** Moving or renaming a folder of such a tree under a folder of its site answers, in this
    order: a name it cannot have or a path past the limit; the folder itself when it is there
    already; a cycle when the destination is the folder or lies below it, or is named as a folder
    above it; a refusal of the table for a blank name or one a sibling has.  Otherwise the folder
    takes its new place, each folder below it keeps its parent and its name and follows by path
    alone, and no other row changes. *)
Theorem move_takes_its_subtree (l : list folder) (current parent : folder) (name : str) (now : Z) :
  grown l -> current ∈ l -> parent ∈ l -> fo_site_id parent = fo_site_id current -> slash_free name -> catches_own current l ->
  let new_path := fo_path parent ++ c!"/" :: name in
  let answer := move_folder now (fo_id current) (FolderMove name (fo_path parent)) l in
  match child_path (fo_path parent) name with
  | Err e => answer = Err e
  | Ok _ =>
      if bool_decide (new_path = fo_path current) then answer = Ok (current, l)
      else if bool_decide (parent = current) || below (fo_path parent) (fo_path current) || below (fo_path current) new_path
           then answer = Err (FolderCycle new_path)
      else if bool_decide (btrim name = []) || taken parent name (fo_id current) l then answer = Err FolderDatabase
      else exists moved l', answer = Ok (moved, l')
        /\ fo_id moved = fo_id current /\ fo_parent_id moved = Some (fo_id parent) /\ fo_name moved = name /\ fo_path moved = new_path
        /\ fo_id <$> l' = fo_id <$> l
        /\ forall f, f ∈ l -> exists f', f' ∈ l' /\ fo_id f' = fo_id f
           /\ (f = current -> f' = moved)
           /\ (fo_site_id f = fo_site_id current -> forall r, fo_path f = fo_path current ++ c!"/" :: r ->
               fo_path f' = new_path ++ c!"/" :: r /\ fo_parent_id f' = fo_parent_id f /\ fo_name f' = fo_name f)
           /\ (f <> current -> (fo_site_id f = fo_site_id current -> below (fo_path f) (fo_path current) = false) -> f' = f)
  end.
Proof.
  intros Hg Hc Hp Hs Hn Hpl new_path answer. pose proof (grown_tree l Hg) as T.
  pose proof (move_folder_exact l current parent name now T Hc Hp Hs Hn Hpl) as E. fold answer in E. cbv zeta in E.
  destruct (child_path (fo_path parent) name) as [np|e]; [cbn [result_bind] in E|exact E]. fold new_path in E.
  destruct (bool_decide (new_path = fo_path current)); [exact E|].
  assert (below new_path (fo_path current) = bool_decide (parent = current) || below (fo_path parent) (fo_path current)) as Hb.
  { apply eq_true_iff_eq. rewrite orb_true_iff, bool_decide_eq_true. unfold new_path. rewrite below_child by done. split; (intros [H|H]; [left|by right]).
    - by apply (path_inj l T).
    - congruence. }
  rewrite Hb in E. destruct ((bool_decide (parent = current) || below (fo_path parent) (fo_path current)) || below (fo_path current) new_path); [exact E|].
  destruct (bool_decide (btrim name = []) || taken parent name (fo_id current) l); [exact E|].
  set (moved := with_place (Some (fo_id parent)) name new_path now current) in *.
  exists moved, (relocate now current moved <$> l). split; [exact E|]. split_and!; [done|done|done|done| |].
  - rewrite <- list_fmap_compose. apply list_fmap_ext. intros i f _. cbn. unfold relocate, is_folder.
    destruct (Z.eqb_spec (fo_id f) (fo_id current)); [done|]. by destruct (_ && _).
  - intros f Hf. exists (relocate now current moved f). split; [apply list_elem_of_fmap; by exists f|].
    assert ((f = current /\ relocate now current moved f = moved)
      \/ (f <> current /\ fo_id f <> fo_id current /\ fo_site_id f = fo_site_id current
          /\ exists r, fo_path f = fo_path current ++ c!"/" :: r /\ relocate now current moved f = with_path (new_path ++ c!"/" :: r) now f)
      \/ (f <> current /\ fo_id f <> fo_id current /\ (fo_site_id f = fo_site_id current -> below (fo_path f) (fo_path current) = false)
          /\ relocate now current moved f = f)) as Hcases by exact (relocate_cases l T current parent name now Hc f Hf).
    destruct Hcases as [[-> E']|[(Hne & Hi & Hsf & r & Er & E')|(Hne & Hi & Ho & E')]]; rewrite E'.
    + split_and!; [done|done| |done]. intros _ r Er. exfalso. assert (below (fo_path current) (fo_path current) = true) as Hirr
        by (apply below_iff; by exists r). by rewrite below_irrefl in Hirr.
    + split_and!; [done|done| |].
      * intros _ r' Er'. rewrite Er in Er'. apply app_inv_head in Er'. injection Er' as ->. done.
      * intros _ H. rewrite <- (H Hsf). exfalso. assert (below (fo_path f) (fo_path current) = true) as Ht; [apply below_iff; by exists r|].
        rewrite (H Hsf) in Ht. done.
    + split_and!; [done|done| |done]. intros Hsf r Er. exfalso. assert (below (fo_path f) (fo_path current) = true) as Ht; [apply below_iff; by exists r|].
      by rewrite (Ho Hsf) in Ht.
Qed.

(** A deletion names what stands in its way, in this order: no such folder, the root, how many
    folders or how many live files are in it.  Otherwise the folder is the one row that goes, the
    others stay a tree, and a trashed file that lay in it stays, outside any folder. *)
Theorem only_empty_folders_are_deleted (l : list folder) (f : folder) (files : list filed) :
  grown l -> f ∈ l ->
  let children := count_if (fun g => bool_decide (fo_parent_id g = Some (fo_id f))) l in
  let live := count_if (fun m => bool_decide (fd_folder_id m = Some (fo_id f)) && negb (is_given (fd_deleted_at m))) files in
  (forall id, id ∉ fo_id <$> l -> delete_empty_folder id files l = Err FolderNotFound)
  /\ (delete_empty_folder (fo_id f) files l =
      if is_root f then Err RootFolderProtected
      else if 0 <? children then Err (FolderNotEmpty s!"folders" children)
      else if 0 <? live then Err (FolderNotEmpty s!"files" live)
      else Ok (List.filter (fun g => negb (is_folder (fo_id f) g)) l))
  /\ (forall l', delete_empty_folder (fo_id f) files l = Ok l' -> grown l' /\ (forall g, g ∈ l' <-> g ∈ l /\ g <> f))
  /\ (forall m, m ∈ unfile (fo_id f) files -> fd_folder_id m <> Some (fo_id f))
  /\ fd_id <$> unfile (fo_id f) files = fd_id <$> files.
Proof.
  intros Hg Hf children live. pose proof (grown_tree l Hg) as T. split_and!.
  - intros id Hid. unfold delete_empty_folder. destruct (find_folder id l) as [g|] eqn:E; [|done].
    apply find_folder_Some in E as [Hin <-]. destruct Hid. apply list_elem_of_fmap. by exists g.
  - unfold delete_empty_folder. by rewrite (find_folder_elem l T f Hf).
  - intros l' E. split.
    + pose proof (grown_op (OpDelete (fo_id f) files) l Hg I) as Hg'. cbn in Hg'. by rewrite E in Hg'.
    + intros g. destruct (delete_empty_folder_tree _ _ _ _ T E) as [_ ->]. split; (intros [H1 H2]; split; [done|]).
      * by intros ->.
      * intros Ei. apply H2. by apply (own_folder l T).
  - intros m (m0 & -> & _)%list_elem_of_fmap. by case_bool_decide.
  - unfold unfile. rewrite <- list_fmap_compose. apply list_fmap_ext. intros i m _. cbn. by case_bool_decide.
Qed.

(** ** Where the tree and its paths part *)

Definition sample_tree : list folder :=
  fold_left (fun l op => apply_op op l)
    [OpCreate 1 2 0 9 None s!"a_b" None; OpCreate 1 3 0 9 None s!"axb" None; OpCreate 1 4 0 9 (Some 3) s!"c" None] [].
(** A name with a wildcard is renamed safely where nothing else matches it. *)
Lemma wildcard_name_may_be_alone : exists l, grown l /\ fo_path <$> l = [s!"Media"; s!"Media/z"; s!"Media/z/c"].
Proof.
  assert (Hg : grown (fold_left (fun l op => apply_op op l)
    [OpCreate 1 2 0 9 None s!"a_b" None; OpCreate 1 4 0 9 (Some 2) s!"c" None] [])).
  { cbn [fold_left]. repeat (apply grown_op; [|exact I]). apply grown_nothing. }
  eexists. split; [apply (grown_op (OpMove 1 5 2 None (Some s!"z")) _ Hg)|vm_compute; reflexivity].
  intros f Hf. vm_compute in Hf. injection Hf as <-. intros g Hg' _. vm_compute in Hg'.
  repeat (apply elem_of_cons in Hg' as [->|Hg']; [vm_compute; reflexivity|]). by apply elem_of_nil in Hg'.
Qed.

Lemma sample_tree_grown : grown sample_tree.
Proof. unfold sample_tree. cbn [fold_left]. repeat (apply grown_op; [|exact I]). apply grown_nothing. Qed.

(** Renaming a folder whose name holds a wildcard takes along the children of a sibling that the
    pattern also matches: they stay in their parent, under a path that says otherwise. *)
Theorem wildcard_name_moves_a_stranger :
  exists moved l',
    rename_or_move 1 5 2 None (Some s!"z") sample_tree = Ok (moved, l')
    /\ (fun f => (fo_id f, fo_parent_id f, fo_path f)) <$> l'
       = [(1, None, s!"Media"); (2, Some 1, s!"Media/z"); (3, Some 1, s!"Media/axb"); (4, Some 3, s!"Media/z/c")]
    /\ ~ tree_ok l'.
Proof.
  eexists _, _. split; [vm_compute; reflexivity|]. split; [vm_compute; reflexivity|]. intros T.
  match type of T with tree_ok [_; _; ?three; ?four] =>
    destruct (to_child _ T four 3 ltac:(apply (bool_decide_unpack _); vm_compute; exact I) eq_refl) as (g & Hg & Hid & _ & Hp) end.
  repeat (apply elem_of_cons in Hg as [->|Hg]; [first [discriminate Hid|discriminate Hp]|]). by apply elem_of_nil in Hg.
Qed.

(** A name of dots around spaces passes the route's checks, and the table refuses it. *)
Theorem blank_name_reaches_the_table :
  sanitize_folder_name s!".  ." = s!"  " /\ validate_folder_name s!"  " = Ok tt
  /\ fst (create_folder 1 5 0 9 (Some 3) s!".  ." None sample_tree) = Err FolderDatabase.
Proof. repeat split; vm_compute; reflexivity. Qed.

(** A taken name is a collision to a creation and a failure of the database to a rename. *)
Theorem taken_name_fails_a_rename :
  fst (create_folder 1 5 0 9 None s!"axb" None sample_tree) = Err FolderNameTaken
  /\ rename_or_move 1 5 2 None (Some s!"axb") sample_tree = Err FolderDatabase.
Proof. split; vm_compute; reflexivity. Qed.

(** The limit of a path holds for the folder that moves, not for those below it. *)
Definition long_name : str := replicate 120 c!"n".
Definition deep_tree : list folder :=
  fold_left (fun l op => apply_op op l)
    ((fun i => OpCreate 1 (i + 1) 0 9 (Some i) long_name None) <$> [2; 3; 4; 5; 6; 7; 8])
    (fold_left (fun l op => apply_op op l) [OpCreate 1 2 0 9 None s!"a" None; OpCreate 1 20 0 9 None long_name None] []).

Theorem move_outgrows_the_path_limit :
  forallb (fun f => (utf8_len (fo_path f) <=? MAX_FOLDER_PATH_LENGTH)%nat) deep_tree = true
  /\ exists moved l', rename_or_move 1 5 2 (Some 20) (Some long_name) deep_tree = Ok (moved, l')
     /\ existsb (fun f => (MAX_FOLDER_PATH_LENGTH <? utf8_len (fo_path f))%nat) l' = true.
Proof. split; [vm_compute; reflexivity|]. eexists _, _. split; [vm_compute; reflexivity|]. vm_compute. reflexivity. Qed.

(** *** Witnesses *)

Definition sample_row (n : nat) : folder := nth n sample_tree (Folder 0 0 None [] [] None 0 0).
Lemma sample_row_elem n : (n < length sample_tree)%nat -> sample_row n ∈ sample_tree.
Proof. intros H. apply list_elem_of_In, nth_In, H. Qed.

Lemma folders_stay_a_tree_witness :
  exists chain root, chain_up 4 (Some 4) sample_tree = chain /\ last chain = Some root /\ fo_path root = ROOT_FOLDER_NAME.
Proof.
  destruct (folders_stay_a_tree sample_tree (sample_row 3) sample_tree_grown (sample_row_elem 3 ltac:(vm_compute; lia)))
    as [(chain & root & Hc & _ & Hl & _ & _ & Hp & _) _].
  exists chain, root. split; [exact (Hc 4%nat ltac:(vm_compute; lia))|split; [exact Hl|exact Hp]].
Defined.

Lemma move_takes_its_subtree_witness :
  exists moved l', move_folder 5 3 (FolderMove s!"axb" s!"Media/a_b") sample_tree = Ok (moved, l') /\ fo_path moved = s!"Media/a_b/axb"
    /\ exists f', f' ∈ l' /\ fo_id f' = 4 /\ fo_path f' = s!"Media/a_b/axb/c".
Proof.
  assert (Hown : catches_own (sample_row 2) sample_tree) by
    (apply plain_catches_own; [exact (grown_tree _ sample_tree_grown)|apply sample_row_elem; vm_compute; lia|vm_compute; reflexivity]).
  pose proof (move_takes_its_subtree sample_tree (sample_row 2) (sample_row 1) s!"axb" 5 sample_tree_grown
    (sample_row_elem 2 ltac:(vm_compute; lia)) (sample_row_elem 1 ltac:(vm_compute; lia)) eq_refl
    ltac:(apply (bool_decide_unpack _); vm_compute; exact I) Hown) as H.
  cbv zeta in H.
  destruct (child_path (fo_path (sample_row 1)) s!"axb") as [p|] eqn:E; [|vm_compute in E; discriminate E].
  replace (bool_decide (fo_path (sample_row 1) ++ c!"/" :: s!"axb" = fo_path (sample_row 2))) with false in H by (vm_compute; reflexivity).
  replace (bool_decide (sample_row 1 = sample_row 2) || below (fo_path (sample_row 1)) (fo_path (sample_row 2))
           || below (fo_path (sample_row 2)) (fo_path (sample_row 1) ++ c!"/" :: s!"axb")) with false in H by (vm_compute; reflexivity).
  replace (bool_decide (btrim s!"axb" = []) || taken (sample_row 1) s!"axb" (fo_id (sample_row 2)) sample_tree) with false in H
    by (vm_compute; reflexivity).
  destruct H as (moved & l' & Ha & _ & _ & _ & Hp & _ & Hsub). exists moved, l'. split; [exact Ha|]. split; [exact Hp|].
  destruct (Hsub (sample_row 3) (sample_row_elem 3 ltac:(vm_compute; lia))) as (f' & Hin & Hid & _ & Hbelow & _).
  exists f'. split; [exact Hin|]. split; [exact Hid|]. exact (proj1 (Hbelow eq_refl s!"c" eq_refl)).
Defined.

Lemma only_empty_folders_are_deleted_witness :
  delete_empty_folder 3 [] sample_tree = Err (FolderNotEmpty s!"folders" 1)
  /\ exists l', delete_empty_folder 4 [Filed 7 (Some 4) (Some 1)] sample_tree = Ok l' /\ grown l'.
Proof.
  destruct (only_empty_folders_are_deleted sample_tree (sample_row 2) [] sample_tree_grown (sample_row_elem 2 ltac:(vm_compute; lia)))
    as (_ & H & _).
  destruct (only_empty_folders_are_deleted sample_tree (sample_row 3) [Filed 7 (Some 4) (Some 1)] sample_tree_grown
    (sample_row_elem 3 ltac:(vm_compute; lia))) as (_ & _ & H' & _).
  split; [exact H|]. eexists. split; [vm_compute; reflexivity|]. apply H'. vm_compute. reflexivity.
Defined.
