(* ===== verification/Grants.v ===== *)
(** * Grants on folders and files: [crates/media/src/grants.rs],
      [apps/api/src/routes/media_grants.rs], the grant gate of [apps/api/src/routes/media.rs] and of
      [media_shares.rs], the table of migration 0047

    Rows that allow or deny four capabilities to a user, a group or a role on a folder or a file;
    the chain of a file through the tree of [Folders]; the resolution of a caller against it; and
    the gates that ask.  Audit entries, events and the labels of the screens are not modelled. *)

From S2P Require Import Prelude Folders.

Definition SUBJECT_KINDS : list str := [s!"user"; s!"group"; s!"role"].

(** ** Capabilities *)

Record capabilities := Capabilities { cap_read : bool; cap_write : bool; cap_delete : bool; cap_share : bool }.
#[export] Instance capabilities_eq_dec : EqDecision capabilities.
Proof. solve_decision. Defined.

Definition ALL : capabilities := Capabilities true true true true.
Definition NONE : capabilities := Capabilities false false false false.

(** A capability set as the function of its four bits. *)
Definition zip_caps (f : bool -> bool -> bool) (a b : capabilities) : capabilities :=
  Capabilities (f (cap_read a) (cap_read b)) (f (cap_write a) (cap_write b)) (f (cap_delete a) (cap_delete b)) (f (cap_share a) (cap_share b)).
Definition minus (a b : capabilities) : capabilities := zip_caps (fun x y => x && negb y) a b.
Definition union_caps (a b : capabilities) : capabilities := zip_caps orb a b.
Definition inter_caps (a b : capabilities) : capabilities := zip_caps andb a b.
Definition is_empty (a : capabilities) : bool := bool_decide (a = NONE).
Definition cap_labels (a : capabilities) : list str :=
  (if cap_read a then [s!"read"] else []) ++ (if cap_write a then [s!"write"] else [])
  ++ (if cap_delete a then [s!"delete"] else []) ++ (if cap_share a then [s!"share"] else []).

(** ** Rows *)

Inductive grant_target := TargetFolder (id : Z) | TargetFile (id : Z).
#[export] Instance grant_target_eq_dec : EqDecision grant_target.
Proof. solve_decision. Defined.
Definition target_columns (t : grant_target) : option Z * option Z :=
  match t with TargetFolder id => (Some id, None) | TargetFile id => (None, Some id) end.

Record grant := Grant {
  gr_id : Z;
  gr_folder_id : option Z;
  gr_media_id : option Z;
  gr_subject_kind : str;
  gr_subject_id : Z;
  gr_capabilities : capabilities;
  gr_effect : str;
  gr_created_by : option Z;
  gr_created_at : Z
}.
Definition is_deny (g : grant) : bool := str_eqb (gr_effect g) s!"deny".
Definition target_of (g : grant) : option grant_target :=
  match gr_folder_id g, gr_media_id g with
  | Some id, None => Some (TargetFolder id)
  | None, Some id => Some (TargetFile id)
  | _, _ => None
  end.

Record new_grant := NewGrant {
  ng_target : grant_target;
  ng_subject_kind : str;
  ng_subject_id : Z;
  ng_capabilities : capabilities;
  ng_effect : str;
  ng_created_by : option Z
}.

Definition on_target (t : grant_target) (g : grant) : bool :=
  bool_decide (gr_folder_id g = fst (target_columns t)) && bool_decide (gr_media_id g = snd (target_columns t)).
Definition grant_cmp (a b : grant) : comparison := then_with (Z.compare (gr_created_at a) (gr_created_at b)) (Z.compare (gr_id a) (gr_id b)).
Definition list_grants (t : grant_target) (l : list grant) : list grant := sort_by grant_cmp (List.filter (on_target t) l).

(** The constraints of a row, and the unique index, in which an absent node is the nil id. *)
Definition grant_row_ok (g : grant) : bool :=
  is_given (target_of g) && existsb (str_eqb (gr_subject_kind g)) SUBJECT_KINDS
  && (str_eqb (gr_effect g) s!"allow" || is_deny g) && (str_eqb (gr_effect g) s!"allow" || negb (is_empty (gr_capabilities g))).
Definition same_subject (a b : grant) : bool :=
  (default 0 (gr_folder_id a) =? default 0 (gr_folder_id b)) && (default 0 (gr_media_id a) =? default 0 (gr_media_id b))
  && str_eqb (gr_subject_kind a) (gr_subject_kind b) && (gr_subject_id a =? gr_subject_id b).

Inductive grant_error := GrantSubjectKind | GrantEffect | GrantNotFound | GrantDenied | GrantDatabase.
#[export] Instance grant_error_eq_dec : EqDecision grant_error.
Proof. solve_decision. Defined.

Definition rewrite_row (row : grant) (g : grant) : grant :=
  Grant (gr_id g) (gr_folder_id g) (gr_media_id g) (gr_subject_kind g) (gr_subject_id g) (gr_capabilities row) (gr_effect row)
    (gr_created_by row) (gr_created_at g).

(** [insert … on conflict … do update]; [exists_] is the foreign key of the node. *)
Definition put_grant (id now : Z) (exists_ : bool) (new : new_grant) (l : list grant) : result (grant * list grant) grant_error :=
  let effect := if bool_decide (ng_effect new = []) then s!"allow" else ng_effect new in
  let row := Grant id (fst (target_columns (ng_target new))) (snd (target_columns (ng_target new))) (ng_subject_kind new) (ng_subject_id new)
               (ng_capabilities new) effect (ng_created_by new) now in
  require grant_row_ok row && exists_ else GrantDatabase in
  match List.find (same_subject row) l with
  | Some g => Ok (rewrite_row row g, (fun x => if same_subject row x then rewrite_row row x else x) <$> l)
  | None => refuse existsb (fun g => gr_id g =? id) l with GrantDatabase in Ok (row, l ++ [row])
  end.

Definition delete_grant (id : Z) (l : list grant) : bool * list grant :=
  (existsb (fun g => gr_id g =? id) l, List.filter (fun g => negb (gr_id g =? id)) l).

(** [group_members]: the pairs of a group and a user. *)
Definition group_ids_of (user_id : Z) (members : list (Z * Z)) : list Z :=
  fst <$> List.filter (fun m => snd m =? user_id) members.

(** ** The chain of a file *)

Record chain_node := ChainNode { cn_folder : folder; cn_grants : list grant }.
Record chain := Chain { ch_file : list grant; ch_nodes : list chain_node }.

Definition MAX_CHAIN_DEPTH : nat := 64.

Fixpoint load_nodes (hops : nat) (cursor : option Z) (folders : list folder) (l : list grant) : list chain_node :=
  match hops, cursor with
  | S hops, Some id =>
      match find_folder id folders with
      | Some f => ChainNode f (list_grants (TargetFolder (fo_id f)) l) :: load_nodes hops (fo_parent_id f) folders l
      | None => []
      end
  | _, _ => []
  end.
Definition load_chain (media_id : Z) (folder_id : option Z) (folders : list folder) (l : list grant) : chain :=
  Chain (list_grants (TargetFile media_id) l) (load_nodes MAX_CHAIN_DEPTH folder_id folders l).

(** ** Resolution *)

Record decision := Decision { de_effective : capabilities; de_applied : list Z; de_reason : str; de_touched : bool }.
Definition untouched : decision := Decision NONE [] s!"no grant names this subject on this file's chain" false.

Inductive depth := DepthFile | DepthOwnFolder | DepthAncestor.
Definition depth_label (d : depth) : str :=
  match d with DepthFile => s!"the file" | DepthOwnFolder => s!"its folder" | DepthAncestor => s!"an ancestor folder" end.

Fixpoint phrase (places : list str) : str :=
  match places with
  | [] => s!"this file's chain"
  | [one] => one
  | one :: rest => one ++ s!" and " ++ phrase rest
  end.

Definition named (subject_kind : str) (subject_id : Z) (group_ids : list Z) (g : grant) : bool :=
  (str_eqb (gr_subject_kind g) subject_kind && (gr_subject_id g =? subject_id))
  || (str_eqb (gr_subject_kind g) s!"group" && existsb (Z.eqb (gr_subject_id g)) group_ids).

Definition collected (c : chain) (p : grant -> bool) : list (grant * depth) :=
  ((fun g => (g, DepthFile)) <$> List.filter p (ch_file c))
  ++ concat (imap (fun index node =>
       (fun g => (g, match index with O => DepthOwnFolder | _ => DepthAncestor end)) <$> List.filter p (cn_grants node)) (ch_nodes c)).

Record tally := Tally { ta_denied : capabilities; ta_granted : capabilities; ta_denied_at : list str; ta_allow_count : nat }.
Definition tally_grant (t : tally) (found : grant * depth) : tally :=
  let '(g, d) := found in
  let bits := gr_capabilities g in
  if is_deny g then
    Tally (union_caps (ta_denied t) bits) (ta_granted t)
      (if negb (is_empty bits) && negb (existsb (str_eqb (depth_label d)) (ta_denied_at t)) then ta_denied_at t ++ [depth_label d]
       else ta_denied_at t) (ta_allow_count t)
  else Tally (ta_denied t) (union_caps (ta_granted t) bits) (ta_denied_at t) (S (ta_allow_count t)).

Definition resolve (c : chain) (subject_kind : str) (subject_id : Z) (group_ids : list Z) : decision :=
  let found := collected c (named subject_kind subject_id group_ids) in
  if bool_decide (length found = 0%nat) then untouched
  else
    let t := fold_left tally_grant found (Tally NONE NONE [] 0) in
    let applied := (fun x => gr_id (fst x)) <$> found in
    let plural := if (ta_allow_count t =? 1)%nat then [] else s!"s" in
    if (ta_allow_count t =? 0)%nat then
      Decision NONE applied (s!"a deny on " ++ phrase (ta_denied_at t) ++ s!" removes every capability this subject had here") true
    else
      Decision (minus (ta_granted t) (ta_denied t)) applied
        (if bool_decide (ta_denied_at t = []) then
           show_N (N.of_nat (ta_allow_count t)) ++ s!" allow" ++ plural ++ s!" naming this subject on the chain"
         else s!"a deny on " ++ phrase (ta_denied_at t) ++ s!" overrides the allow" ++ plural ++ s!" on this chain") true.

Definition require_capability (d : decision) (catalogue : capabilities) : capabilities :=
  if negb (de_touched d) then catalogue else inter_caps catalogue (de_effective d).

(** ** The gates and the routes *)

(** What a caller may do with a file, past the route's own permission. *)
Definition caller_decision (user_id media_id : Z) (folder_id : option Z) (folders : list folder) (members : list (Z * Z)) (l : list grant) :
  decision :=
  resolve (load_chain media_id folder_id folders l) s!"user" user_id (group_ids_of user_id members).

Definition ensure_grant_allows (user_id media_id : Z) (folder_id : option Z) (folders : list folder) (members : list (Z * Z))
    (l : list grant) : result unit grant_error :=
  let d := caller_decision user_id media_id folder_id folders members l in
  if negb (de_touched d) then Ok tt
  else if cap_read (require_capability d ALL) then Ok tt else Err GrantDenied.

(** The check of [media_shares::create] before it makes a link. *)
Definition ensure_share_allowed (user_id media_id : Z) (folder_id : option Z) (folders : list folder) (members : list (Z * Z))
    (l : list grant) : result unit grant_error :=
  if cap_share (require_capability (caller_decision user_id media_id folder_id folders members l) ALL) then Ok tt else Err GrantDenied.

(** The three lists [effective] answers: the catalogue, what the chain removed, what is left. *)
Definition effective (user_id media_id : Z) (folder_id : option Z) (folders : list folder) (members : list (Z * Z)) (l : list grant) :
  list str * list str * list str :=
  let left := require_capability (caller_decision user_id media_id folder_id folders members l) ALL in
  (cap_labels ALL, cap_labels (minus ALL left), cap_labels left).

Definition validate_subject_kind (kind : str) : result str grant_error :=
  ok_or (List.find (fun known => str_eqb known (trim kind)) SUBJECT_KINDS) GrantSubjectKind.
Definition validate_effect_and_bits (effect : str) (bits : capabilities) : result str grant_error :=
  let effect := if bool_decide (effect = []) then s!"allow" else effect in
  refuse negb (str_eqb effect s!"allow") && negb (str_eqb effect s!"deny") with GrantEffect in
  refuse str_eqb effect s!"deny" && is_empty bits with GrantEffect in
  Ok effect.

Record grant_body := GrantBody { gb_subject_kind : str; gb_subject_id : Z; gb_capabilities : capabilities; gb_effect : str }.

Definition write_grant (id now caller : Z) (exists_ : bool) (target : grant_target) (body : grant_body) (l : list grant) :
  result (grant * list grant) grant_error :=
  let? subject_kind := validate_subject_kind (gb_subject_kind body) in
  let? effect := validate_effect_and_bits (trim (gb_effect body)) (gb_capabilities body) in
  put_grant id now exists_ (NewGrant target subject_kind (gb_subject_id body) (gb_capabilities body) effect (Some caller)) l.

(** [delete_one]: the row is looked up together with the organization of its site; [node_site] is
    the site of a node that exists, [site_organization] a column that is never null. *)
Definition delete_one (node_site : grant_target -> option Z) (site_organization : Z -> Z) (caller_organization : option Z) (id : Z)
    (l : list grant) : result (list grant) grant_error :=
  let visible g := match target_of g ≫= node_site with
                   | Some site => bool_decide (Some (site_organization site) = caller_organization)
                   | None => false
                   end in
  let? g := ok_or (List.find (fun g => (gr_id g =? id) && visible g) l) GrantNotFound in
  match delete_grant id l with (true, l) => Ok l | (false, _) => Err GrantNotFound end.

(** ** Sets of capabilities, bit by bit *)

Inductive capability := CanRead | CanWrite | CanDelete | CanShare.
Definition has (k : capability) (c : capabilities) : bool :=
  match k with CanRead => cap_read c | CanWrite => cap_write c | CanDelete => cap_delete c | CanShare => cap_share c end.

Lemma caps_ext a b : (forall k, has k a = has k b) -> a = b.
Proof. destruct a, b. intros H. f_equal; [exact (H CanRead)|exact (H CanWrite)|exact (H CanDelete)|exact (H CanShare)]. Qed.

Lemma has_zip k f a b : has k (zip_caps f a b) = f (has k a) (has k b).
Proof. by destruct k. Qed.
Lemma has_none k : has k NONE = false.
Proof. by destruct k. Qed.

(** ** What resolution concludes *)

Definition on_chain (c : chain) : list grant := ch_file c ++ concat (cn_grants <$> ch_nodes c).

Lemma filter_concat {A} (p : A -> bool) (l : list (list A)) : List.filter p (concat l) = concat (List.filter p <$> l).
Proof. induction l as [|x l IH]; [done|]. cbn. by rewrite List.filter_app, IH. Qed.

Lemma collected_grants c p : fst <$> collected c p = List.filter p (on_chain c).
Proof.
  unfold collected, on_chain. rewrite fmap_app, List.filter_app. f_equal.
  - rewrite <- list_fmap_compose. apply list_fmap_id.
  - rewrite filter_concat, <- list_fmap_compose.
    assert (forall (nodes : list chain_node) (F : nat -> chain_node -> list (grant * depth)),
            (forall i n, fst <$> F i n = List.filter p (cn_grants n)) ->
            fst <$> concat (imap F nodes) = concat ((List.filter p ∘ cn_grants) <$> nodes)) as H.
    { induction nodes as [|n nodes IH]; intros F HF; [done|]. cbn [imap fmap list_fmap concat]. rewrite fmap_app, HF. f_equal. apply IH.
      intros i m. apply HF. }
    apply H. intros i n. rewrite <- list_fmap_compose. apply list_fmap_id.
Qed.

Definition denies (k : capability) (g : grant) : bool := is_deny g && has k (gr_capabilities g).
Definition allows (k : capability) (g : grant) : bool := negb (is_deny g) && has k (gr_capabilities g).

Lemma tally_spec found : forall t,
  let t' := fold_left tally_grant found t in
  (forall k, has k (ta_denied t') = has k (ta_denied t) || existsb (fun x => denies k (fst x)) found)
  /\ (forall k, has k (ta_granted t') = has k (ta_granted t) || existsb (fun x => allows k (fst x)) found)
  /\ ta_allow_count t' = (ta_allow_count t + length (List.filter (fun x => negb (is_deny (fst x))) found))%nat.
Proof.
  induction found as [|[g d] found IH]; intros t; cbn [fold_left existsb List.filter fst].
  { split_and!; intros; rewrite ?orb_false_r; (done || cbn; lia). }
  destruct (IH (tally_grant t (g, d))) as (H1 & H2 & H3). unfold denies, allows in *. unfold tally_grant in *.
  destruct (is_deny g); cbn [ta_denied ta_granted ta_allow_count negb andb orb] in *; split_and!; intros.
  - rewrite H1. unfold union_caps. by rewrite has_zip, orb_assoc.
  - by rewrite H2.
  - rewrite H3. cbn. lia.
  - by rewrite H1.
  - rewrite H2. unfold union_caps. by rewrite has_zip, orb_assoc.
  - rewrite H3. cbn. lia.
Qed.

Lemma existsb_fst {A B} (p : A -> bool) (l : list (A * B)) : existsb (fun x => p (fst x)) l = existsb p (fst <$> l).
Proof. by rewrite existsb_fmap. Qed.

Lemma existsb_filter {A} (p q : A -> bool) (l : list A) : existsb p (List.filter q l) = existsb (fun x => q x && p x) l.
Proof. induction l as [|x l IH]; [done|]. cbn. destruct (q x); cbn; by rewrite IH. Qed.

Section Resolve.
Context (c : chain) (kind : str) (id : Z) (groups : list Z).
Let names := named kind id groups.

Lemma resolve_exact :
  let d := resolve c kind id groups in
  de_touched d = existsb names (on_chain c)
  /\ de_applied d = gr_id <$> List.filter names (on_chain c)
  /\ forall k, has k (de_effective d)
       = existsb (fun g => names g && allows k g) (on_chain c) && negb (existsb (fun g => names g && denies k g) (on_chain c)).
Proof.
  unfold resolve. fold names. pose proof (collected_grants c names) as Hc. set (found := collected c names) in *.
  assert (existsb names (on_chain c) = negb (bool_decide (length found = 0%nat))) as Ht.
  { rewrite <- (length_fmap fst found), Hc. destruct (List.filter names (on_chain c)) as [|g rest] eqn:E; cbn.
    - apply not_true_iff_false. intros (g & Hg & Hn)%existsb_elem.
      assert (g ∈ List.filter names (on_chain c)) as Hin by by apply elem_of_filter_bool. rewrite E in Hin. by apply elem_of_nil in Hin.
    - apply existsb_elem. exists g. apply elem_of_filter_bool. rewrite E. apply list_elem_of_here. }
  assert (forall p, existsb (fun g => names g && p g) (on_chain c) = existsb (fun x : grant * depth => p (fst x)) found) as Hex.
  { intros p. by rewrite existsb_fst, Hc, existsb_filter. }
  destruct (tally_spec found (Tally NONE NONE [] 0)) as (Hd & Hg & Hn). cbn [ta_denied ta_granted ta_allow_count] in Hd, Hg, Hn.
  case_bool_decide as E; cbn [negb] in Ht.
  - apply length_zero_iff_nil in E. split_and!; [done| |].
    + by rewrite <- Hc, E.
    + intros k. rewrite !Hex, E. apply has_none.
  - assert (gr_id <$> List.filter names (on_chain c) = (fun x => gr_id (fst x)) <$> found) as Ha
      by (rewrite <- Hc; by rewrite <- list_fmap_compose).
    set (t := fold_left tally_grant found (Tally NONE NONE [] 0)) in *. rewrite Ht, Ha.
    destruct (Nat.eqb_spec (ta_allow_count t) 0) as [E0|E0]; cbn [de_touched de_applied de_effective]; (split_and!; [done|done|]).
    + intros k. rewrite !Hex, has_none. symmetry. apply andb_false_iff. left. apply not_true_iff_false. intros (x & Hx & Hax)%existsb_elem.
      rewrite E0 in Hn. assert (x ∈ List.filter (fun x => negb (is_deny (fst x))) found) as Hin.
      { apply elem_of_filter_bool. split; [done|]. by apply andb_true_iff in Hax as [? _]. }
      destruct (List.filter _ found); [by apply elem_of_nil in Hin|cbn in Hn; lia].
    + intros k. unfold minus. rewrite has_zip, Hd, Hg, has_none, !Hex. done.
Qed.
End Resolve.

Lemma existsb_permutation {A} (p : A -> bool) (l l' : list A) : l ≡ₚ l' -> existsb p l = existsb p l'.
Proof.
  intros H. apply eq_true_iff_eq. rewrite !existsb_elem. split; intros (x & Hx & Hp); exists x; by rewrite ?H in * || rewrite <- ?H in *.
Qed.

(** *** The rules *)

Definition cap_le (a b : capabilities) : Prop := forall k, has k a = true -> has k b = true.

(** A caller has a capability on a chain that names them exactly when a row that names them
    allows it and none that names them denies it, wherever on the chain either stands: the answer
    is the same for every order of the rows and every distribution of them over the file and its
    folders, and it lists each row that was read. *)
Theorem deny_wins_at_any_depth (c : chain) (kind : str) (id : Z) (groups : list Z) :
  let names := named kind id groups in
  let d := resolve c kind id groups in
  (de_touched d = true <-> exists g, g ∈ on_chain c /\ names g = true)
  /\ de_applied d = gr_id <$> List.filter names (on_chain c)
  /\ (forall k, has k (de_effective d) = true <->
      (exists g, g ∈ on_chain c /\ names g = true /\ is_deny g = false /\ has k (gr_capabilities g) = true)
      /\ ~ exists g, g ∈ on_chain c /\ names g = true /\ is_deny g = true /\ has k (gr_capabilities g) = true)
  /\ (forall c', on_chain c' ≡ₚ on_chain c ->
      de_effective (resolve c' kind id groups) = de_effective d /\ de_touched (resolve c' kind id groups) = de_touched d).
Proof.
  intros names d. destruct (resolve_exact c kind id groups) as (Ht & Ha & He). fold names d in Ht, Ha, He. split_and!.
  - rewrite Ht. apply existsb_elem.
  - exact Ha.
  - intros k. rewrite He, andb_true_iff, negb_true_iff, <- not_true_iff_false, !existsb_elem. unfold allows, denies.
    split; intros [H1 H2]; split.
    + destruct H1 as (g & Hg & H). exists g. rewrite !andb_true_iff, negb_true_iff in H. tauto.
    + intros (g & Hg & Hn & Hd & Hk). apply H2. exists g. by rewrite Hn, Hd, Hk.
    + destruct H1 as (g & Hg & Hn & Hd & Hk). exists g. by rewrite Hn, Hd, Hk.
    + intros (g & Hg & H). apply H2. exists g. rewrite !andb_true_iff in H. tauto.
  - intros c' Hp. destruct (resolve_exact c' kind id groups) as (Ht' & _ & He'). fold names in Ht', He'. split.
    + apply caps_ext. intros k. rewrite He, He'. f_equal; [|f_equal]; by apply existsb_permutation.
    + rewrite Ht, Ht'. by apply existsb_permutation.
Qed.

Definition more_rows (c c' : chain) (g : grant) : Prop := on_chain c' ≡ₚ g :: on_chain c.

(** Resolution only narrows what the catalogue gives: it gives nothing the catalogue refuses,
    leaves it as it is when no row names the caller, and one more denying row, anywhere, never
    gives anybody more. *)
Theorem grants_only_narrow (c : chain) (id : Z) (groups : list Z) (catalogue : capabilities) :
  let answer c := require_capability (resolve c s!"user" id groups) catalogue in
  cap_le (answer c) catalogue
  /\ ((forall g, g ∈ on_chain c -> named s!"user" id groups g = false) -> answer c = catalogue)
  /\ (forall c' g, more_rows c c' g -> is_deny g = true -> cap_le (answer c') (answer c)).
Proof.
  intros answer. set (names := named s!"user" id groups).
  assert (forall c, answer c = if existsb names (on_chain c) then inter_caps catalogue (de_effective (resolve c s!"user" id groups)) else catalogue) as Ha.
  { intros x. unfold answer, require_capability. destruct (resolve_exact x s!"user" id groups) as (-> & _). fold names. by destruct (existsb names _). }
  assert (cap_le (answer c) catalogue) as Hle.
  { intros k. rewrite Ha. destruct (existsb names (on_chain c)); [|done]. unfold inter_caps. rewrite has_zip. by intros [? _]%andb_true_iff. }
  split_and!; [exact Hle| |].
  - intros Hn. rewrite Ha. destruct (existsb names (on_chain c)) eqn:E; [|done]. apply existsb_elem in E as (g & Hg & E). unfold names in E. by rewrite Hn in E.
  - intros c' g Hm Hd k. rewrite !Ha.
    destruct (resolve_exact c s!"user" id groups) as (_ & _ & He), (resolve_exact c' s!"user" id groups) as (_ & _ & He'). fold names in He, He'.
    unfold more_rows in Hm. rewrite (existsb_permutation names _ _ Hm). cbn [existsb].
    assert (has k (de_effective (resolve c' s!"user" id groups)) = true -> has k (de_effective (resolve c s!"user" id groups)) = true) as Hmono.
    { rewrite He, He', !(existsb_permutation _ _ _ Hm). cbn [existsb]. unfold allows, denies. rewrite Hd. cbn [negb andb orb]. rewrite andb_false_r.
      cbn [orb]. rewrite !andb_true_iff, !negb_true_iff, !orb_false_iff. tauto. }
    destruct (existsb names (on_chain c)) eqn:E.
    + rewrite orb_true_r. unfold inter_caps. rewrite !has_zip, !andb_true_iff. tauto.
    + rewrite orb_false_r. destruct (names g); [|done]. unfold inter_caps. rewrite has_zip. by intros [? _]%andb_true_iff.
Qed.

(** ** The chain and the gate *)

Lemma load_nodes_chain n cursor folders l :
  load_nodes n cursor folders l = (fun f => ChainNode f (list_grants (TargetFolder (fo_id f)) l)) <$> chain_up n cursor folders.
Proof.
  revert cursor. induction n as [|n IH]; intros [id|]; try done. cbn [load_nodes chain_up].
  destruct (find_folder id folders) as [f|]; [|done]. cbn. by rewrite IH.
Qed.

Lemma list_grants_elem t l g : g ∈ list_grants t l <-> g ∈ l /\ target_of g = Some t.
Proof.
  unfold list_grants. rewrite (sort_by_perm grant_cmp), elem_of_filter_bool. unfold on_target, target_of.
  rewrite andb_true_iff, !bool_decide_eq_true.
  destruct t as [id|id], (gr_folder_id g) as [f|], (gr_media_id g) as [m|]; cbn; naive_solver.
Qed.

(** The rows on the file or on one of the folders [above] it. *)
Definition reaches (media_id : Z) (above : list folder) (g : grant) : Prop :=
  target_of g = Some (TargetFile media_id) \/ exists h, h ∈ above /\ target_of g = Some (TargetFolder (fo_id h)).

Lemma on_chain_elem media_id folder_id folders l g :
  g ∈ on_chain (load_chain media_id folder_id folders l)
  <-> g ∈ l /\ reaches media_id (chain_up MAX_CHAIN_DEPTH folder_id folders) g.
Proof.
  unfold on_chain, load_chain, reaches. cbn [ch_file ch_nodes]. rewrite load_nodes_chain, elem_of_app, list_grants_elem, <- list_fmap_compose.
  assert (g ∈ concat ((cn_grants ∘ (fun f => ChainNode f (list_grants (TargetFolder (fo_id f)) l))) <$> chain_up MAX_CHAIN_DEPTH folder_id folders)
          <-> exists h, h ∈ chain_up MAX_CHAIN_DEPTH folder_id folders /\ g ∈ l /\ target_of g = Some (TargetFolder (fo_id h))) as ->.
  { rewrite list_elem_of_In, in_concat. setoid_rewrite <- list_elem_of_In. split.
    - intros (x & (h & -> & Hh)%list_elem_of_fmap & Hg). exists h. split; [done|]. by apply list_grants_elem.
    - intros (h & Hh & Hg). exists (list_grants (TargetFolder (fo_id h)) l). split; [|by apply list_grants_elem].
      apply list_elem_of_fmap. by exists h. }
  naive_solver.
Qed.

(** C11. In a library the routes built, a file at most sixty-four folders deep is refused to a
    caller exactly when a row on the file or on any folder of its path names them or a group of
    theirs, and either none of those rows allows reading or one of them denies it; the same rows
    decide a link over the file by their share bits. *)
Theorem gate_reads_the_whole_path (folders : list folder) (members : list (Z * Z)) (l : list grant) (user media_id : Z) (f : folder)
    (above : list folder) :
  grown folders -> f ∈ folders -> ancestry folders f above -> (length above <= MAX_CHAIN_DEPTH)%nat ->
  let names g := named s!"user" user (group_ids_of user members) g = true in
  let rows g := g ∈ l /\ reaches media_id above g /\ names g in
  let refused k := (exists g, rows g)
    /\ ((~ exists g, rows g /\ is_deny g = false /\ has k (gr_capabilities g) = true)
        \/ exists g, rows g /\ is_deny g = true /\ has k (gr_capabilities g) = true) in
  (ensure_grant_allows user media_id (Some (fo_id f)) folders members l = Err GrantDenied <-> refused CanRead)
  /\ (ensure_share_allowed user media_id (Some (fo_id f)) folders members l = Err GrantDenied <-> refused CanShare).
Proof.
  intros Hgr Hf Ha Hlen names rows refused. pose proof (grown_tree folders Hgr) as T.
  assert (chain_up MAX_CHAIN_DEPTH (Some (fo_id f)) folders = above) as Hch
    by (rewrite (chain_up_ancestry folders T f above) by done; by apply take_ge).
  set (c := load_chain media_id (Some (fo_id f)) folders l).
  assert (forall g, g ∈ on_chain c /\ names g <-> rows g) as Hrows.
  { intros g. unfold c, rows. rewrite on_chain_elem, Hch. tauto. }
  destruct (resolve_exact c s!"user" user (group_ids_of user members)) as (Ht & _ & He).
  assert (existsb (named s!"user" user (group_ids_of user members)) (on_chain c) = true <-> exists g, rows g) as Htouched.
  { rewrite existsb_elem. split; intros (g & H); exists g; by apply Hrows. }
  assert (forall k, has k (de_effective (resolve c s!"user" user (group_ids_of user members))) = true <->
    (exists g, rows g /\ is_deny g = false /\ has k (gr_capabilities g) = true)
    /\ ~ exists g, rows g /\ is_deny g = true /\ has k (gr_capabilities g) = true) as Hhas.
  { intros k. rewrite He, andb_true_iff, negb_true_iff, <- not_true_iff_false, !existsb_elem. unfold allows, denies.
    assert (forall b, (exists g, g ∈ on_chain c /\ named s!"user" user (group_ids_of user members) g && b g = true) <-> exists g, rows g /\ b g = true) as Hb.
    { intros b. split; intros (g & H); exists g; [|rewrite <- Hrows in H; destruct H as [[H1 H2] H3]; split; [done|]; unfold names in H2; by rewrite H2, H3].
      destruct H as [H1 [H2 H3]%andb_true_iff]. rewrite <- Hrows. done. }
    rewrite !Hb. split; intros [H1 H2]; split.
    - destruct H1 as (g & Hg & [H3%negb_true_iff H4]%andb_true_iff). by exists g.
    - intros (g & Hg & H3 & H4). apply H2. exists g. by rewrite H3, H4.
    - destruct H1 as (g & Hg & H3 & H4). exists g. by rewrite H3, H4.
    - intros (g & Hg & [H3 H4]%andb_true_iff). apply H2. by exists g. }
  assert (forall k, (exists g, rows g) -> has k (inter_caps ALL (de_effective (resolve c s!"user" user (group_ids_of user members)))) = false <-> refused k) as Hk.
  { intros k Hex. unfold inter_caps. rewrite has_zip. assert (has k ALL = true) as -> by by destruct k. cbn [andb].
    rewrite <- not_true_iff_false, Hhas. unfold refused. split; [|tauto]. intros H. split; [done|].
    destruct (existsb (fun g => named s!"user" user (group_ids_of user members) g && denies k g) (on_chain c)) eqn:E.
    - right. apply existsb_elem in E as (g & Hg & [H1 [H2 H3]%andb_true_iff]%andb_true_iff). exists g. split; [|done]. apply Hrows. done.
    - left. intros Hall. apply H. split; [done|]. intros (g & Hg & H2 & H3). apply Hrows in Hg as [Hg Hn].
      assert (existsb (fun g => named s!"user" user (group_ids_of user members) g && denies k g) (on_chain c) = true); [|congruence].
      apply existsb_elem. exists g. split; [done|]. unfold names in Hn. unfold denies. by rewrite Hn, H2, H3. }
  unfold ensure_grant_allows, ensure_share_allowed, caller_decision, require_capability. fold c. rewrite Ht.
  destruct (existsb _ (on_chain c)) eqn:E; cbn [negb].
  - pose proof (proj1 Htouched eq_refl) as Hex. rewrite <- !(Hk _ Hex). cbn [has]. split.
    + by destruct (cap_read _).
    + by destruct (cap_share _).
  - assert (~ exists g, rows g) as Hno by (intros H%Htouched; congruence). unfold refused. cbn. split; (split; [done|tauto]).
Qed.

(** ** Writing rows *)

Record grants_ok (l : list grant) : Prop := GrantsOk {
  go_ids : NoDup (gr_id <$> l);
  go_rows g : g ∈ l -> grant_row_ok g = true;
  go_keys a b : a ∈ l -> b ∈ l -> same_subject a b = true -> a = b
}.

Lemma same_subject_iff a b : same_subject a b = true <->
  default 0 (gr_folder_id a) = default 0 (gr_folder_id b) /\ default 0 (gr_media_id a) = default 0 (gr_media_id b)
  /\ gr_subject_kind a = gr_subject_kind b /\ gr_subject_id a = gr_subject_id b.
Proof. unfold same_subject. rewrite !andb_true_iff, !Z.eqb_eq, str_eqb_eq. tauto. Qed.

Definition known_kind (kind : str) : Prop := kind ∈ SUBJECT_KINDS.

Lemma validate_subject_kind_ok kind known : validate_subject_kind kind = Ok known <-> known = trim kind /\ known_kind known.
Proof.
  unfold validate_subject_kind, known_kind. destruct (List.find _ SUBJECT_KINDS) as [x|] eqn:E; cbn [ok_or].
  - apply find_some in E as [Hx%list_elem_of_In Ex%str_eqb_eq]. split; [intros [= <-]; done|intros [-> _]; by rewrite Ex].
  - split; [done|]. intros [-> Hk]. apply list_elem_of_In in Hk. apply (find_none _ _ E) in Hk. by rewrite str_eqb_refl in Hk.
Qed.

Lemma validate_effect_ok effect bits e : validate_effect_and_bits effect bits = Ok e <->
  e = (if bool_decide (effect = []) then s!"allow" else effect) /\ (e = s!"allow" \/ e = s!"deny" /\ bits <> NONE).
Proof.
  unfold validate_effect_and_bits. set (x := if bool_decide _ then _ else _). rewrite !refuse_ok, !andb_false_iff, !negb_false_iff, str_eqb_eq.
  unfold is_empty. rewrite bool_decide_eq_false.
  destruct (str_eqb_eq x s!"deny") as [Hd1 Hd2], (str_eqb_neq x s!"deny") as [Hn1 Hn2].
  split.
  - intros ([Ha|Hd] & Hb & [= <-]); (split; [done|]); [by left|right]. split; [by apply Hd1|]. destruct Hb as [Hb|Hb]; [congruence|done].
  - intros [-> [Ha|[Hd Hb]]]; split_and!; try done; [by left| |right; by apply Hd2|by right]. left. rewrite Ha. reflexivity.
Qed.

Lemma put_grant_spec id now exists_ new l g l' : grants_ok l -> put_grant id now exists_ new l = Ok (g, l') ->
  grants_ok l' /\ g ∈ l'
  /\ gr_capabilities g = ng_capabilities new /\ gr_effect g = (if bool_decide (ng_effect new = []) then s!"allow" else ng_effect new)
  /\ gr_subject_kind g = ng_subject_kind new /\ gr_subject_id g = ng_subject_id new
  /\ default 0 (gr_folder_id g) = default 0 (fst (target_columns (ng_target new)))
  /\ default 0 (gr_media_id g) = default 0 (snd (target_columns (ng_target new)))
  /\ (forall x, same_subject g x = false -> x ∈ l' <-> x ∈ l)
  /\ (forall x, x ∈ l' -> same_subject g x = true -> x = g)
  /\ (forall x, x ∈ l -> same_subject g x = true -> gr_id g = gr_id x /\ gr_created_at g = gr_created_at x).
Proof.
  intros G. unfold put_grant. set (row := Grant _ _ _ _ _ _ _ _ _). destruct (grant_row_ok row && exists_) eqn:Er; [|done].
  apply andb_true_iff in Er as [Er _]. destruct (List.find (same_subject row) l) as [old|] eqn:Ef.
  - intros [= <- <-]. apply find_some in Ef as [Hold%list_elem_of_In Hs].
    assert (forall x, x ∈ l -> same_subject row x = true -> x = old) as Huniq.
    { intros x Hx Hsx. apply (go_keys l G); [done|done|]. apply same_subject_iff. apply same_subject_iff in Hs, Hsx. intuition congruence. }
    assert (forall x, same_subject (rewrite_row row old) x = same_subject row x) as Hsame.
    { intros x. apply same_subject_iff in Hs as (H1 & H2 & H3 & H4). unfold same_subject. cbn [rewrite_row gr_folder_id gr_media_id gr_subject_kind gr_subject_id].
      by rewrite H1, H2, H3, H4. }
    assert (forall x, x ∈ (fun x => if same_subject row x then rewrite_row row x else x) <$> l <->
            x = rewrite_row row old \/ x ∈ l /\ same_subject row x = false) as Hin.
    { intros x. rewrite list_elem_of_fmap. split.
      - intros (y & -> & Hy). destruct (same_subject row y) eqn:E; [left; by rewrite (Huniq y Hy E)|by right].
      - intros [->|[Hx E]]; [exists old; by rewrite Hs|exists x; by rewrite E]. }
    assert (target_of (rewrite_row row old) = target_of old) as Htarget by done.
    split_and!.
    + split.
      * rewrite <- list_fmap_compose. erewrite list_fmap_ext; [apply G|]. intros i x _. cbn. by destruct (same_subject row x).
      * intros x [->|[Hx _]]%Hin; [|by apply G]. pose proof (go_rows l G old Hold) as Ho. unfold grant_row_ok in *.
        apply andb_true_iff in Er as [Er Er4]. apply andb_true_iff in Er as [Er Er3]. apply andb_true_iff in Ho as [Ho _]. apply andb_true_iff in Ho as [Ho _].
        rewrite Htarget. cbn [rewrite_row gr_subject_kind]. rewrite Ho. cbn [andb]. rewrite andb_true_iff. split; [exact Er3|exact Er4].
      * intros a b [->|[Ha Ea]]%Hin [->|[Hb Eb]]%Hin E; [done| | |by apply G].
        -- by rewrite Hsame, Eb in E.
        -- assert (same_subject row a = true) as Ht; [|congruence]. rewrite <- Hsame. apply same_subject_iff. apply same_subject_iff in E. intuition congruence.
    + apply Hin. by left.
    + done.
    + done.
    + by apply same_subject_iff in Hs as (_ & _ & ? & _).
    + by apply same_subject_iff in Hs as (_ & _ & _ & ?).
    + by apply same_subject_iff in Hs as (? & _).
    + by apply same_subject_iff in Hs as (_ & ? & _).
    + intros x Hx. rewrite Hsame in Hx. rewrite Hin. split; [intros [->|[? _]]; [|done]|by right]. rewrite <- Hsame in Hx.
      assert (same_subject (rewrite_row row old) (rewrite_row row old) = true) as Hrefl by by apply same_subject_iff. congruence.
    + intros x [->|[_ Hx]]%Hin E; [done|]. by rewrite Hsame, Hx in E.
    + intros x Hx E. rewrite Hsame in E. by rewrite (Huniq x Hx E).
  - destruct (existsb _ l) eqn:Ei; [done|]. intros [= <- <-].
    assert (forall x, x ∈ l -> same_subject row x = false) as Hno by (intros x Hx%list_elem_of_In; by apply (find_none _ _ Ef)).
    split_and!; try done.
    + split.
      * rewrite fmap_app. apply NoDup_app. split_and!; [apply G| |apply NoDup_singleton]. intros x (g & -> & Hg)%list_elem_of_fmap Eid%list_elem_of_singleton.
        assert (existsb (fun g => gr_id g =? gr_id row) l = true) as Hex; [|change (existsb (fun g => gr_id g =? gr_id row) l = false) in Ei; congruence].
        apply existsb_elem. exists g. split; [done|by apply Z.eqb_eq].
      * intros x [Hx| ->%list_elem_of_singleton]%elem_of_app; [by apply G|done].
      * intros a b [Ha| ->%list_elem_of_singleton]%elem_of_app [Hb| ->%list_elem_of_singleton]%elem_of_app E; [by apply G| | |done].
        -- assert (same_subject row a = true) as Ht; [|by rewrite Hno in Ht]. apply same_subject_iff. apply same_subject_iff in E. intuition congruence.
        -- by rewrite Hno in E.
    + apply elem_of_app. right. apply list_elem_of_here.
    + intros x Hx. rewrite elem_of_app, list_elem_of_singleton. split; [intros [?| ->]; [done|]|by left].
      assert (same_subject row row = true) as Hrefl by by apply same_subject_iff. congruence.
    + intros x [Hx| ->%list_elem_of_singleton]%elem_of_app E; [by rewrite Hno in E|done].
    + intros x Hx E. by rewrite Hno in E.
Qed.

(** A grant is written exactly when its trimmed kind is a user, a group or a role, its effect is
    empty, allow or deny, a deny takes something away and the node exists.  Writing it twice edits
    one row: each subject has at most one on a node, the row keeps its id and its date, no row of
    another subject or node changes, and the constraints of the table hold. *)
Theorem grants_are_written_once (l : list grant) (id now caller : Z) (exists_ : bool) (target : grant_target) (body : grant_body) :
  grants_ok l -> id ∉ gr_id <$> l ->
  let kind := trim (gb_subject_kind body) in
  let effect := if bool_decide (trim (gb_effect body) = []) then s!"allow" else trim (gb_effect body) in
  (known_kind kind /\ (effect = s!"allow" \/ effect = s!"deny" /\ gb_capabilities body <> NONE) /\ exists_ = true
   <-> exists g l', write_grant id now caller exists_ target body l = Ok (g, l'))
  /\ forall g l', write_grant id now caller exists_ target body l = Ok (g, l') ->
     grants_ok l' /\ g ∈ l' /\ gr_capabilities g = gb_capabilities body /\ gr_effect g = effect
     /\ gr_subject_kind g = kind /\ gr_subject_id g = gb_subject_id body
     /\ (forall x, same_subject g x = false -> x ∈ l' <-> x ∈ l)
     /\ (forall x, x ∈ l' -> same_subject g x = true -> x = g)
     /\ (forall x, x ∈ l -> same_subject g x = true -> gr_id g = gr_id x /\ gr_created_at g = gr_created_at x).
Proof.
  intros G Hid kind effect. unfold write_grant. split.
  - split.
    + intros (Hk & He & ->). rewrite (proj2 (validate_subject_kind_ok (gb_subject_kind body) kind)) by done. cbn [result_bind].
      rewrite (proj2 (validate_effect_ok (trim (gb_effect body)) (gb_capabilities body) effect)) by done. cbn [result_bind].
      unfold put_grant. cbn [ng_effect ng_target ng_subject_kind ng_subject_id ng_capabilities ng_created_by].
      assert (effect <> []) as Hne by by destruct He as [->|[-> _]]. rewrite bool_decide_eq_false_2 by done.
      set (row := Grant _ _ _ _ _ _ _ _ _).
      assert (grant_row_ok row = true) as ->.
      { unfold grant_row_ok. cbn [row gr_subject_kind gr_effect gr_capabilities]. assert (existsb (str_eqb kind) SUBJECT_KINDS = true) as ->.
        { apply existsb_elem. exists kind. split; [exact Hk|apply str_eqb_refl]. }
        assert (is_given (target_of row) = true) as -> by by destruct target.
        cbn [andb]. unfold is_deny. cbn [gr_effect row]. destruct He as [->|[-> Hb]]; [done|]. unfold is_empty. by rewrite bool_decide_eq_false_2. }
      cbn [andb]. destruct (List.find (same_subject row) l); [eauto|]. destruct (existsb _ l) eqn:E; [|eauto]. exfalso.
      apply existsb_elem in E as (g & Hg & Eg%Z.eqb_eq). apply Hid. apply list_elem_of_fmap. by exists g.
    + intros (g & l' & E). destruct (validate_subject_kind _) as [k|] eqn:Ek; [cbn [result_bind] in E|done]. apply validate_subject_kind_ok in Ek as (-> & Hk).
      destruct (validate_effect_and_bits _ _) as [e|] eqn:Ee; [cbn [result_bind] in E|done]. apply validate_effect_ok in Ee as (-> & He).
      split_and!; [done|exact He|]. unfold put_grant in E. destruct exists_; [done|]. by rewrite andb_false_r in E.
  - intros g l' E. destruct (validate_subject_kind _) as [k|] eqn:Ek; [cbn [result_bind] in E|done]. apply validate_subject_kind_ok in Ek as (-> & Hk).
    destruct (validate_effect_and_bits _ _) as [e|] eqn:Ee; [cbn [result_bind] in E|done]. apply validate_effect_ok in Ee as (-> & He).
    apply put_grant_spec in E as (H1 & H2 & H3 & H4 & H5 & H6 & _ & _ & H7 & H8 & H9); [|done].
    cbn [ng_effect ng_target ng_subject_kind ng_subject_id ng_capabilities ng_created_by] in *. split_and!; try done.
    rewrite H4. fold effect. destruct (bool_decide_reflect (effect = [])) as [E|]; [|done]. fold effect in He. by destruct He as [He|[He _]]; rewrite E in He.
Qed.

(** ** Where grants do less, or more, than they say *)

(** A grant to a role is accepted and listed, and reaches nobody. *)
Theorem role_grants_reach_nobody (user media_id : Z) (folder_id : option Z) (folders : list folder) (members : list (Z * Z)) (l : list grant) :
  (forall g, g ∈ l -> gr_subject_kind g = s!"role") ->
  ensure_grant_allows user media_id folder_id folders members l = Ok tt
  /\ ensure_share_allowed user media_id folder_id folders members l = Ok tt.
Proof.
  intros Hr. unfold ensure_grant_allows, ensure_share_allowed, caller_decision, require_capability.
  set (c := load_chain media_id folder_id folders l). destruct (resolve_exact c s!"user" user (group_ids_of user members)) as (Ht & _).
  assert (de_touched (resolve c s!"user" user (group_ids_of user members)) = false) as ->; [|done].
  rewrite Ht. apply not_true_iff_false. intros (g & Hg & Hn)%existsb_elem. apply on_chain_elem in Hg as [Hg _].
  unfold named in Hn. by rewrite (Hr g Hg) in Hn.
Qed.

(** An account of no organization, which may work in every site, removes no grant of any. *)
Theorem platform_account_removes_no_grant (node_site : grant_target -> option Z) (site_organization : Z -> Z) (id : Z) (l : list grant) :
  delete_one node_site site_organization None id l = Err GrantNotFound.
Proof.
  unfold delete_one. rewrite find_nothing; [done|]. intros g _. destruct (target_of g ≫= node_site); [|by rewrite andb_false_r].
  rewrite bool_decide_eq_false_2 by done. by rewrite andb_false_r.
Qed.

(** The routes build a tree of sixty-six folders, and a deny on its first is not read from its
    last. *)
Definition nested_tree : list folder :=
  fold_left (fun l op => apply_op op l)
    ((fun i : nat => OpCreate 1 (Z.of_nat i + 2) 0 9 (match i with O => None | S j => Some (Z.of_nat j + 2) end) s!"d" None) <$> seq 0 65) [].
Lemma nested_tree_grown : grown nested_tree.
Proof.
  unfold nested_tree. generalize grown_nothing. generalize ([] : list folder).
  generalize (seq 0 65). intros ops. induction ops as [|i ops IH]; intros l Hl; [done|]. cbn [fmap list_fmap fold_left].
  apply IH. apply grown_op; [done|exact I].
Qed.

Theorem honest_tree_outgrows_the_chain :
  let deny := Grant 1 (Some 1) None s!"user" 7 ALL s!"deny" None 0 in
  grown nested_tree
  /\ is_given (find_folder 66 nested_tree) = true /\ length (chain_up 100 (Some 66) nested_tree) = 66%nat
  /\ ensure_grant_allows 7 50 (Some 66) nested_tree [] [deny] = Ok tt
  /\ ensure_grant_allows 7 50 (Some 64) nested_tree [] [deny] = Err GrantDenied.
Proof. split; [exact nested_tree_grown|]. repeat split; vm_compute; reflexivity. Qed.

(** A caller whom a grant refuses the file, and whom the same row allows to share it, makes a link
    to it. *)
Theorem share_needs_no_read :
  let row := Grant 1 None (Some 50) s!"user" 7 (Capabilities false false false true) s!"allow" None 0 in
  ensure_grant_allows 7 50 None [] [] [row] = Err GrantDenied /\ ensure_share_allowed 7 50 None [] [] [row] = Ok tt.
Proof. split; vm_compute; reflexivity. Qed.

(** *** Witnesses *)

Definition sample_grants : list grant :=
  [Grant 1 (Some 3) None s!"group" 20 ALL s!"allow" None 0; Grant 2 (Some 1) None s!"user" 7 (Capabilities true false false false) s!"deny" None 1].

Lemma grants_only_narrow_witness :
  is_deny (Grant 2 (Some 1) None s!"user" 7 (Capabilities true false false false) s!"deny" None 1) = true
  /\ cap_le (require_capability (resolve (load_chain 50 (Some 4) sample_tree sample_grants) s!"user" 7 [20]) ALL)
            (require_capability (resolve (load_chain 50 (Some 4) sample_tree (take 1 sample_grants)) s!"user" 7 [20]) ALL).
Proof.
  split; [reflexivity|].
  destruct (grants_only_narrow (load_chain 50 (Some 4) sample_tree (take 1 sample_grants)) 7 [20] ALL) as (_ & _ & H).
  apply (H _ (Grant 2 (Some 1) None s!"user" 7 (Capabilities true false false false) s!"deny" None 1)); [|reflexivity].
  unfold more_rows. vm_compute. apply Permutation_swap.
Defined.

Lemma gate_reads_the_whole_path_witness :
  ensure_grant_allows 7 50 (Some 4) sample_tree [(20, 7)] sample_grants = Err GrantDenied.
Proof.
  assert (ancestry sample_tree (sample_row 3) (chain_up 4 (Some 4) sample_tree)) as Ha.
  { destruct (ancestry_exists sample_tree (grown_tree _ sample_tree_grown) (sample_row 3) (sample_row_elem 3 ltac:(vm_compute; lia))) as (ch & Ha).
    replace (chain_up 4 (Some 4) sample_tree) with ch; [exact Ha|].
    change (Some 4) with (Some (fo_id (sample_row 3))). rewrite (chain_up_ancestry _ (grown_tree _ sample_tree_grown) _ ch) by exact Ha.
    rewrite take_ge; [reflexivity|]. exact (ancestry_short _ _ _ Ha). }
  apply (gate_reads_the_whole_path sample_tree [(20, 7)] sample_grants 7 50 (sample_row 3) _ sample_tree_grown
    (sample_row_elem 3 ltac:(vm_compute; lia)) Ha ltac:(vm_compute; lia)).
  assert (forall n g, nth_error sample_grants n = Some g -> g ∈ sample_grants) as Hin by (intros n g H; apply list_elem_of_In, (nth_error_In _ _ H)).
  split.
  - exists (Grant 1 (Some 3) None s!"group" 20 ALL s!"allow" None 0). split_and!; [by apply (Hin 0%nat)| |by vm_compute].
    right. exists (sample_row 2). split; [apply (bool_decide_unpack _); vm_compute; exact I|reflexivity].
  - right. exists (Grant 2 (Some 1) None s!"user" 7 (Capabilities true false false false) s!"deny" None 1).
    split; [|split; reflexivity]. split_and!; [by apply (Hin 1%nat)| |by vm_compute].
    right. exists (sample_row 0). split; [apply (bool_decide_unpack _); vm_compute; exact I|reflexivity].
Defined.

Lemma grants_are_written_once_witness :
  exists g l', write_grant 5 9 3 true (TargetFolder 3) (GrantBody s!" group " 20 (Capabilities true true false false) []) sample_grants = Ok (g, l')
    /\ grants_ok l' /\ gr_id g = 1.
Proof.
  assert (grants_ok sample_grants) as G.
  { split.
    - apply (bool_decide_unpack _). vm_compute. exact I.
    - intros g Hg. repeat (apply elem_of_cons in Hg as [->|Hg]; [vm_compute; reflexivity|]). by apply elem_of_nil in Hg.
    - intros a b Ha Hb. repeat (apply elem_of_cons in Ha as [->|Ha]; [|]); [| |by apply elem_of_nil in Ha];
        (repeat (apply elem_of_cons in Hb as [->|Hb]; [vm_compute; congruence|])); by apply elem_of_nil in Hb. }
  destruct (grants_are_written_once sample_grants 5 9 3 true (TargetFolder 3) (GrantBody s!" group " 20 (Capabilities true true false false) [])
    G ltac:(apply (bool_decide_unpack _); vm_compute; exact I)) as [H1 H2].
  destruct (proj1 H1) as (g & l' & E).
  { split; [apply (bool_decide_unpack _); vm_compute; exact I|]. split; [left; reflexivity|reflexivity]. }
  exists g, l'. split; [exact E|]. destruct (H2 g l' E) as (Hok & _). split; [exact Hok|].
  assert (write_grant 5 9 3 true (TargetFolder 3) (GrantBody s!" group " 20 (Capabilities true true false false) []) sample_grants = Ok (g, l')) as E' by exact E.
  vm_compute in E'. injection E' as <- _. reflexivity.
Defined.
