(* ===== verification/Sessions.v ===== *)
(** * Sessions and devices: [crates/identity/src/sessions.rs], [devices.rs], the cookies and the
      extractor of [apps/api/src/auth.rs], the session routes of [routes/iam_security.rs],
      [auth.rs] and [me.rs]

    The rows behind a sign-in: how one begins, who a token stands for, the three lifetimes, the
    ways a session ends, the devices it is attributed to, and the mark of a second proof.
    Instants are microseconds, as in [SignIn]; SHA-256 as hex text is a parameter.  Addresses,
    audit rows, events and the lists of the screens are not modelled. *)

From S2P Require Import Prelude Networks RateLimit AccountPolicy SignIn.

Definition SESSION_TTL_DAYS : Z := 30.
Definition SESSION_TTL_SECONDS : Z := SESSION_TTL_DAYS * 24 * 60 * 60.
Definition STEP_UP_WINDOW_MINUTES : Z := 10.
Definition TOKEN_BYTES : nat := 32.
Definition MAX_USER_AGENT_LENGTH : nat := 512.
Definition MAX_REASON_LENGTH : nat := 120.

Definition days (n : Z) : Z := n * 86400000000.

(** ** Rows *)

Record session := Session {
  se_id : Z;
  se_user_id : Z;
  se_token_hash : str;
  se_user_agent : option str;
  se_created_at : Z;
  se_expires_at : Z;
  se_last_seen_at : option Z;
  se_absolute_expires_at : option Z;
  se_device_id : option Z;
  se_auth_methods : list str;
  se_revoked_at : option Z;
  se_revoked_by : option Z;
  se_revoke_reason : option str;
  se_step_up_at : option Z
}.

#[export] Instance session_eq_dec : EqDecision session.
Proof. solve_decision. Defined.

Record device := Device {
  dv_id : Z;
  dv_user_id : Z;
  dv_fingerprint : str;
  dv_label : str;
  dv_platform : str;
  dv_browser : str;
  dv_last_seen_at : Z;
  dv_trusted_until : option Z;
  dv_revoked_at : option Z
}.

Record new_session := NewSession {
  nw_user_agent : option str;
  nw_device_id : option Z;
  nw_auth_methods : list str
}.

Inductive session_error := SessionDatabase | SessionNotFound | DeviceNotFound | CrossOrganization | StepUpRequired
  | BadTrustWindow | Unauthenticated | InvalidSession | InvalidToken.
#[export] Instance session_error_eq_dec : EqDecision session_error.
Proof. solve_decision. Defined.

Definition is_session (id : Z) (s : session) : bool := se_id s =? id.
Definition unrevoked (s : session) : bool := negb (is_given (se_revoked_at s)).

(** [revoked_at = now(), revoked_by, revoke_reason]. *)
Definition end_session (now : Z) (by_ : option Z) (reason : str) (s : session) : session :=
  Session (se_id s) (se_user_id s) (se_token_hash s) (se_user_agent s) (se_created_at s) (se_expires_at s) (se_last_seen_at s)
    (se_absolute_expires_at s) (se_device_id s) (se_auth_methods s) (Some now) by_ (Some reason) (se_step_up_at s).
Definition set_last_seen (now : Z) (s : session) : session :=
  Session (se_id s) (se_user_id s) (se_token_hash s) (se_user_agent s) (se_created_at s) (se_expires_at s) (Some now)
    (se_absolute_expires_at s) (se_device_id s) (se_auth_methods s) (se_revoked_at s) (se_revoked_by s) (se_revoke_reason s) (se_step_up_at s).
Definition set_step_up (now : Z) (s : session) : session :=
  Session (se_id s) (se_user_id s) (se_token_hash s) (se_user_agent s) (se_created_at s) (se_expires_at s) (se_last_seen_at s)
    (se_absolute_expires_at s) (se_device_id s) (se_auth_methods s) (se_revoked_at s) (se_revoked_by s) (se_revoke_reason s) (Some now).

(** ** The crate *)

Section Sessions.
Context (sha256_hex : str -> str).

Definition hash_token (token : str) : str := sha256_hex token.

(** The row a sign-in inserts. *)
Definition insert_session (id now user_id : Z) (token : str) (new : new_session) (absolute_days_ : Z) (l : list session) :
  result (session * list session) session_error :=
  let end_ := now + days absolute_days_ in
  let row := Session id user_id (hash_token token) (take MAX_USER_AGENT_LENGTH <$> nw_user_agent new) now end_ None (Some end_)
               (nw_device_id new) (nw_auth_methods new) None None None None in
  refuse existsb (fun s => is_session id s || str_eqb (se_token_hash s) (hash_token token)) l with SessionDatabase in
  Ok (row, l ++ [row]).

(** The sessions the cap counts against the new one: live, of the same account, the newest first. *)
Definition counted_others (user_id id now : Z) (l : list session) : list session :=
  sort_by (fun a b => Z.compare (se_created_at b) (se_created_at a))
    (List.filter (fun s => (se_user_id s =? user_id) && unrevoked s && (now <? se_expires_at s) && negb (is_session id s)) l).
Definition retire_over_cap (user_id id now concurrent_max_ : Z) (l : list session) : list session :=
  let keep := Z.max concurrent_max_ 1 - 1 in
  let retired := drop (Z.to_nat keep) (counted_others user_id id now l) in
  update_where (fun s => existsb (is_session (se_id s)) retired)
    (fun s => end_session now (se_revoked_by s) s!"concurrent_cap" s) l.

Definition create_session_with_policy (id now user_id : Z) (token : str) (new : new_session) (policy : session_policy) (l : list session) :
  result (session * list session) session_error :=
  let? inserted := insert_session id now user_id token new (absolute_days policy) l in
  let '(row, l) := inserted in
  Ok (row, retire_over_cap user_id id now (concurrent_max policy) l).

Definition create_session (id now user_id : Z) (token : str) (user_agent : option str) (l : list session) :
  result (session * list session) session_error :=
  create_session_with_policy id now user_id token (NewSession user_agent None [s!"password"]) session_policy_default l.

(** The idle window of the organization of an account, in minutes. *)
Definition idle_minutes_for_organization (policies : list security_policy) (organization : option Z) : Z :=
  default DEFAULT_IDLE_MINUTES (sp_session_idle_minutes <$> (organization ≫= get_policy policies)).

Definition resolves (now : Z) (h : str) (policies : list security_policy) (a : account) (s : session) : bool :=
  str_eqb (se_token_hash s) h && unrevoked s && (now <? se_expires_at s)
  && match se_absolute_expires_at s with None => true | Some end_ => now <? end_ end
  && (now - minutes (idle_minutes_for_organization policies (a_organization_id a)) <? default (se_created_at s) (se_last_seen_at s))
  && is_active a.

Definition resolve_session (now : Z) (token : str) (accounts : list account) (policies : list security_policy) (l : list session) :
  option (session * account) :=
  s ← List.find (fun s => match List.find (fun a => a_id a =? se_user_id s) accounts with
                          | Some a => resolves now (hash_token token) policies a s
                          | None => false
                          end) l;
  a ← List.find (fun a => a_id a =? se_user_id s) accounts;
  Some (s, a).

Definition touch_session (id now : Z) (l : list session) : list session :=
  update_where (fun s => is_session id s && match se_last_seen_at s with None => true | Some seen => seen <? now - minutes 1 end)
    (set_last_seen now) l.

(** A reason already there is kept. *)
Definition revoke_session (token : str) (now : Z) (l : list session) : bool * list session :=
  let p s := str_eqb (se_token_hash s) (hash_token token) && unrevoked s in
  (existsb p l, update_where p (fun s => end_session now (se_revoked_by s) (default s!"logout" (se_revoke_reason s)) s) l).

Definition revoke_session_by_id (id now : Z) (by_ : option Z) (reason : str) (l : list session) : option session * list session :=
  let p s := is_session id s && unrevoked s in
  let f := end_session now by_ (take MAX_REASON_LENGTH reason) in
  (f <$> List.find p l, update_where p f l).

Definition sign_out_all (user_id now : Z) (by_ : option Z) (reason : str) (l : list session) : list Z * list session :=
  let p s := (se_user_id s =? user_id) && unrevoked s in
  (se_id <$> List.filter p l, update_where p (end_session now by_ (take MAX_REASON_LENGTH reason)) l).

Definition revoke_sessions_for_user (user_id now : Z) (l : list session) : Z * list session :=
  let '(ids, l) := sign_out_all user_id now None s!"password_reset" l in (Z.of_nat (length ids), l).

Definition mark_step_up (id now : Z) (l : list session) : list session := update_where (is_session id) (set_step_up now) l.
Definition step_up_is_fresh (s : session) (now window_minutes : Z) : bool :=
  match se_step_up_at s with Some at_ => now - minutes window_minutes <=? at_ | None => false end.

Definition state_of (s : session) (now idle : Z) : str :=
  if is_given (se_revoked_at s) then s!"revoked"
  else if (se_expires_at s <=? now) || match se_absolute_expires_at s with Some end_ => end_ <=? now | None => false end then s!"expired"
  else if default (se_created_at s) (se_last_seen_at s) <=? now - minutes idle then s!"idle"
  else s!"live".

Definition validate_token_shape (token : str) : result unit session_error :=
  require (utf8_len token =? TOKEN_BYTES * 2)%nat && forallb is_ascii_hexdigit token else InvalidToken in Ok tt.
End Sessions.

(** ** The cookie *)

Definition secure_suffix (secure : bool) : str := if secure then s!"; Secure" else [].
Definition session_cookie (token : str) (max_age_seconds : Z) (secure : bool) : str :=
  SESSION_COOKIE ++ s!"=" ++ token ++ s!"; Path=/; HttpOnly; SameSite=Lax; Max-Age=" ++ show_Z max_age_seconds ++ secure_suffix secure.
Definition cleared_session_cookie (secure : bool) : str :=
  SESSION_COOKIE ++ s!"=; Path=/; HttpOnly; SameSite=Lax; Max-Age=0" ++ secure_suffix secure.

(** ** Devices *)

Definition MAX_AGENT_LENGTH : nat := 400.

Definition normalize_agent (user_agent : option str) : str :=
  take MAX_AGENT_LENGTH (join s!" " (split_whitespace (default [] user_agent))).

Definition platform_of (agent : str) : str :=
  if contains_sub agent s!"Android" then s!"Android"
  else if contains_sub agent s!"iPhone" || contains_sub agent s!"iPad" then s!"iOS"
  else if contains_sub agent s!"Windows" then s!"Windows"
  else if contains_sub agent s!"Macintosh" || contains_sub agent s!"Mac OS X" then s!"macOS"
  else if contains_sub agent s!"Linux" then s!"Linux"
  else s!"Unknown".
Definition browser_of (agent : str) : str :=
  if contains_sub agent s!"Edg/" then s!"Edge"
  else if contains_sub agent s!"OPR/" || contains_sub agent s!"Opera" then s!"Opera"
  else if contains_sub agent s!"Firefox/" then s!"Firefox"
  else if contains_sub agent s!"Chrome/" && negb (contains_sub agent s!"Chromium/") then s!"Chrome"
  else if contains_sub agent s!"Chromium/" then s!"Chromium"
  else if contains_sub agent s!"Safari/" then s!"Safari"
  else if contains_sub agent s!"curl/" then s!"curl"
  else s!"Unknown".
Definition label_of (platform browser : str) : str :=
  if str_eqb platform s!"Unknown" && str_eqb browser s!"Unknown" then s!"Unidentified device"
  else if str_eqb browser s!"Unknown" then platform ++ s!" device"
  else if str_eqb platform s!"Unknown" then browser ++ s!" client"
  else browser ++ s!" on " ++ platform.
(** Label, platform and browser. *)
Definition describe (user_agent : option str) : str * str * str :=
  let agent := normalize_agent user_agent in
  (label_of (platform_of agent) (browser_of agent), platform_of agent, browser_of agent).

Section Devices.
Context (sha256_hex : str -> str).

Definition fingerprint (user_agent : option str) : str := sha256_hex (s!"omnion.device.v1" ++ normalize_agent user_agent).

Definition same_device (user_id : Z) (fp : str) (d : device) : bool := (dv_user_id d =? user_id) && str_eqb (dv_fingerprint d) fp.

(** [insert … on conflict do update]: a trust there already is kept, and the device is known again. *)
Definition seen_again (now : Z) (new : device) (d : device) : device :=
  Device (dv_id d) (dv_user_id d) (dv_fingerprint d) (dv_label new) (dv_platform new) (dv_browser new) now
    (match dv_trusted_until d with Some until => Some until | None => dv_trusted_until new end) None.
Definition upsert_device (id now user_id : Z) (user_agent : option str) (trust_days : Z) (l : list device) : device * list device :=
  let fp := fingerprint user_agent in
  let '(label, platform, browser) := describe user_agent in
  let trusted_until := if 0 <? trust_days then Some (now + days trust_days) else None in
  let row := Device id user_id fp label platform browser now trusted_until None in
  match List.find (same_device user_id fp) l with
  | Some d => (seen_again now row d, update_where (same_device user_id fp) (seen_again now row) l)
  | None => (row, l ++ [row])
  end.
End Devices.

Definition is_device (id : Z) (d : device) : bool := dv_id d =? id.
Definition find_device (id : Z) (l : list device) : option device := List.find (is_device id) l.
Definition with_trust (until : option Z) (d : device) : device :=
  Device (dv_id d) (dv_user_id d) (dv_fingerprint d) (dv_label d) (dv_platform d) (dv_browser d) (dv_last_seen_at d) until (dv_revoked_at d).
Definition set_trust (id : Z) (until : option Z) (l : list device) : option device * list device :=
  (with_trust until <$> find_device id l, update_where (is_device id) (with_trust until) l).
Definition with_revoked (now : Z) (d : device) : device :=
  Device (dv_id d) (dv_user_id d) (dv_fingerprint d) (dv_label d) (dv_platform d) (dv_browser d) (dv_last_seen_at d)
    (dv_trusted_until d) (Some now).
Definition forget (id now : Z) (l : list device) : option device * list device :=
  (with_revoked now <$> find_device id l, update_where (is_device id) (with_revoked now) l).

(** ** The routes *)

Record session_tables := SessionTables {
  sb_accounts : list account;
  sb_policies : list security_policy;
  sb_sessions : list session;
  sb_devices : list device
}.
Definition with_sessions (l : list session) (t : session_tables) : session_tables :=
  SessionTables (sb_accounts t) (sb_policies t) l (sb_devices t).
Definition with_devices (l : list device) (t : session_tables) : session_tables :=
  SessionTables (sb_accounts t) (sb_policies t) (sb_sessions t) l.

Definition organization_of (user_id : Z) (accounts : list account) : option Z :=
  List.find (fun a => a_id a =? user_id) accounts ≫= a_organization_id.

Definition with_policies (l : list security_policy) (t : session_tables) : session_tables :=
  SessionTables (sb_accounts t) l (sb_sessions t) (sb_devices t).

(** The policy of an organization, its default row inserted when there is none; the organization of
    an account exists. *)
Definition policy_ensured (now : Z) (organization : option Z) (t : session_tables) : session_tables * option security_policy :=
  match policy_for_account (fun _ => true) (sb_policies t) organization now with
  | Ok (policies, p) => (with_policies policies t, p)
  | Err _ => (t, None)
  end.
Definition trust_days_of (p : option security_policy) : Z := match p with Some p => sp_device_trust_days p | None => 30 end.

(** [scope::ensure_same_organization]: only two different organizations are refused. *)
Definition ensure_same_organization (caller target : option Z) : result unit session_error :=
  match caller, target with
  | Some own, Some target => refuse negb (own =? target) with CrossOrganization in Ok tt
  | _, _ => Ok tt
  end.

Section Routes.
Context (sha256_hex : str -> str).

Record current_session := CurrentSession { cu_account : account; cu_session : session; cu_token : str }.

(** [CurrentSession::resolve]. *)
Definition resolve_current (now : Z) (hs : headers) (t : session_tables) : result current_session session_error :=
  let? token := ok_or (session_token hs) Unauthenticated in
  let? found := ok_or (resolve_session sha256_hex now token (sb_accounts t) (sb_policies t) (sb_sessions t)) InvalidSession in
  Ok (CurrentSession (snd found) (fst found) token).

(** The tail of every sign-in: the device, then the session under the policy of the organization. *)
Definition start_session (device_id id now : Z) (user : account) (token : str) (user_agent : option str) (methods : list str)
    (t : session_tables) : result session session_error * session_tables :=
  let '(t, policy) := policy_ensured now (a_organization_id user) t in
  let trust_days := trust_days_of policy in
  let policy := match policy with Some p => session_policy_from p | None => session_policy_default end in
  let '(d, devices) := upsert_device sha256_hex device_id now (a_id user) user_agent trust_days (sb_devices t) in
  let t := with_devices devices t in
  match create_session_with_policy sha256_hex id now (a_id user) token (NewSession user_agent (Some (dv_id d)) methods) policy (sb_sessions t) with
  | Ok (s, l) => (Ok s, with_sessions l t)
  | Err e => (Err e, t)
  end.

Definition logout (now : Z) (hs : headers) (t : session_tables) : session_tables :=
  match session_token hs with
  | Some token => with_sessions (snd (revoke_session sha256_hex token now (sb_sessions t))) t
  | None => t
  end.

Definition me (now : Z) (current : current_session) (t : session_tables) : session_tables :=
  with_sessions (touch_session (se_id (cu_session current)) now (sb_sessions t)) t.

(** [iam_security::revoke_session]. *)
Definition revoke_one (now id : Z) (current : current_session) (t : session_tables) : result session session_error * session_tables :=
  let caller := cu_account current in
  let '(revoked, l) := revoke_session_by_id id now (Some (a_id caller)) s!"admin_revoke" (sb_sessions t) in
  let t := with_sessions l t in
  match revoked with
  | None => (Err SessionNotFound, t)
  | Some s =>
      if is_given (a_organization_id caller) && negb (bool_decide (organization_of (se_user_id s) (sb_accounts t) = a_organization_id caller))
      then (Err CrossOrganization, t) else (Ok s, t)
  end.

(** [iam_security::sign_out_all]; the account of [user_id] exists. *)
Definition sign_out_account (now user_id : Z) (current : current_session) (t : session_tables) :
  result (list Z) session_error * session_tables :=
  let caller := cu_account current in
  let target := organization_of user_id (sb_accounts t) in
  match ensure_same_organization (a_organization_id caller) target with
  | Err e => (Err e, t)
  | Ok _ =>
      if is_given (a_organization_id caller) && negb (is_given target) then (Err SessionNotFound, t)
      else
        let '(ids, l) := sign_out_all user_id now (Some (a_id caller)) s!"sign_out_all" (sb_sessions t) in
        (Ok ids, with_sessions l t)
  end.

Definition forget_device (now id : Z) (current : current_session) (t : session_tables) : result (list Z) session_error * session_tables :=
  match find_device id (sb_devices t) with
  | None => (Err DeviceNotFound, t)
  | Some d =>
      match ensure_same_organization (a_organization_id (cu_account current)) (organization_of (dv_user_id d) (sb_accounts t)) with
      | Err e => (Err e, t)
      | Ok _ =>
          let p s := bool_decide (se_device_id s = Some id) && unrevoked s in
          let t := with_devices (snd (forget id now (sb_devices t))) t in
          (Ok (se_id <$> List.filter p (sb_sessions t)),
           with_sessions (update_where p (end_session now (Some (a_id (cu_account current))) s!"device_forgotten") (sb_sessions t)) t)
      end
  end.

(** A trust in days, or to an instant read from its text, or the days of the owner's policy. *)
Definition trust_window (now : Z) (days_ : option Z) (until : option (option Z)) (owner : option Z) (t : session_tables) :
  session_tables * result (option Z) session_error :=
  match days_, until with
  | Some n, _ => (t, if n <=? 0 then Ok None else refuse 3650 <? n with BadTrustWindow in Ok (Some (now + days n)))
  | None, Some at_ => (t, match at_ with Some at_ => Ok (Some at_) | None => Err BadTrustWindow end)
  | None, None =>
      let '(t, policy) := policy_ensured now owner t in
      (t, Ok (if 0 <? trust_days_of policy then Some (now + days (trust_days_of policy)) else None))
  end.
Definition trust_device (now id : Z) (days_ : option Z) (until : option (option Z)) (current : current_session) (t : session_tables) :
  result device session_error * session_tables :=
  match find_device id (sb_devices t) with
  | None => (Err DeviceNotFound, t)
  | Some d =>
      let owner := organization_of (dv_user_id d) (sb_accounts t) in
      match ensure_same_organization (a_organization_id (cu_account current)) owner with
      | Err e => (Err e, t)
      | Ok _ =>
          match trust_window now days_ until owner t with
          | (t, Err e) => (Err e, t)
          | (t, Ok window) =>
              match set_trust id window (sb_devices t) with
              | (Some d, l) => (Ok d, with_devices l t)
              | (None, _) => (Err DeviceNotFound, t)
              end
          end
      end
  end.

Definition require_step_up (now : Z) (current : current_session) : result unit session_error :=
  require step_up_is_fresh (cu_session current) now STEP_UP_WINDOW_MINUTES else StepUpRequired in Ok tt.
End Routes.

(** ** Everything that happens to the tables *)

Section Events.
Context (sha256_hex : str -> str).

Inductive session_event :=
  | SignedIn (device_id id now : Z) (user : account) (token : str) (user_agent : option str) (methods : list str)
  | FirstSignedIn (id now user_id : Z) (token : str) (user_agent : option str)
  | LoggedOut (now : Z) (hs : headers)
  | Seen (now : Z) (current : current_session)
  | RevokedOne (now id : Z) (current : current_session)
  | SignedOutAccount (now user_id : Z) (current : current_session)
  | PasswordReset (now user_id : Z)
  | ForgotDevice (now id : Z) (current : current_session)
  | TrustedDevice (now id : Z) (days_ : option Z) (until : option (option Z)) (current : current_session)
  | SteppedUp (now id : Z)
  | AccountsChanged (l : list account)
  | PoliciesChanged (l : list security_policy).

Definition session_step (t : session_tables) (e : session_event) : session_tables :=
  match e with
  | SignedIn device_id id now user token agent methods => snd (start_session sha256_hex device_id id now user token agent methods t)
  | FirstSignedIn id now user_id token agent =>
      match create_session sha256_hex id now user_id token agent (sb_sessions t) with Ok (_, l) => with_sessions l t | Err _ => t end
  | LoggedOut now hs => logout sha256_hex now hs t
  | Seen now current => me now current t
  | RevokedOne now id current => snd (revoke_one now id current t)
  | SignedOutAccount now user_id current => snd (sign_out_account now user_id current t)
  | PasswordReset now user_id => with_sessions (snd (revoke_sessions_for_user user_id now (sb_sessions t))) t
  | ForgotDevice now id current => snd (forget_device now id current t)
  | TrustedDevice now id days_ until current => snd (trust_device now id days_ until current t)
  | SteppedUp now id => with_sessions (mark_step_up id now (sb_sessions t)) t
  | AccountsChanged l => SessionTables l (sb_policies t) (sb_sessions t) (sb_devices t)
  | PoliciesChanged l => with_policies l t
  end.
Definition session_steps (t : session_tables) (es : list session_event) : session_tables := foldl session_step t es.

(** ** Rows only end

    What later statements leave of a row: who it is, when it ends, and how it ended once it has. *)
Definition later (s s' : session) : Prop :=
  se_id s' = se_id s /\ se_user_id s' = se_user_id s /\ se_token_hash s' = se_token_hash s
  /\ se_expires_at s' = se_expires_at s /\ se_absolute_expires_at s' = se_absolute_expires_at s
  /\ (is_given (se_revoked_at s) = true ->
      se_revoked_at s' = se_revoked_at s /\ se_revoked_by s' = se_revoked_by s /\ se_revoke_reason s' = se_revoke_reason s).

#[local] Instance later_preorder : PreOrder later.
Proof.
  split; [intros s; repeat split|]. intros a b c (H1 & H2 & H3 & H4 & H5 & H6) (K1 & K2 & K3 & K4 & K5 & K6).
  repeat split; try congruence; destruct (H6 ltac:(assumption)) as (E1 & E2 & E3);
    destruct (K6 ltac:(congruence)) as (F1 & F2 & F3); congruence.
Qed.

Definition rows_ok (l : list session) : Prop := NoDup (se_id <$> l) /\ NoDup (se_token_hash <$> l).
Abbreviation grows := (grows rows_ok later).

Lemma grows_rows p f l :
  (forall s, se_id (f s) = se_id s /\ se_token_hash (f s) = se_token_hash s) -> (forall s, s ∈ l -> rows_ok l -> p s = true -> later s (f s)) ->
  grows l (update_where p f l).
Proof.
  intros Hf H. apply grows_update; [exact _| |done]. unfold rows_ok. rewrite !update_where_fmap; [done|intros; by destruct (Hf x)..].
Qed.

Lemma later_end now by_ reason s : unrevoked s = true -> later s (end_session now by_ reason s).
Proof. unfold unrevoked. intros H. repeat split; cbn in *; by destruct (se_revoked_at s). Qed.

Lemma grows_end p now f r l :
  (forall s, p s = true -> unrevoked s = true) -> grows l (update_where p (fun s => end_session now (f s) (r s) s) l).
Proof. intros H. apply grows_rows; [done|]. intros s _ _ Hs. apply later_end. auto. Qed.

Lemma counted_others_elem user_id id now l s :
  s ∈ counted_others user_id id now l <->
  s ∈ l /\ se_user_id s = user_id /\ unrevoked s = true /\ now < se_expires_at s /\ se_id s <> id.
Proof.
  unfold counted_others. rewrite sort_by_perm, elem_of_filter_bool, !andb_true_iff, negb_true_iff, Z.eqb_eq, Z.ltb_lt.
  unfold is_session. rewrite Z.eqb_neq. tauto.
Qed.

Lemma grows_retire user_id id now cap l : grows l (retire_over_cap user_id id now cap l).
Proof.
  apply grows_rows; [done|]. intros s Hs [N _] (s' & Hs' & E%Z.eqb_eq)%existsb_elem. apply later_end.
  apply subseteq_drop, counted_others_elem in Hs' as (Hs' & _ & Hu & _). by rewrite (NoDup_key_inj se_id l s s' N Hs Hs').
Qed.

Lemma insert_session_ok id now user_id token new days_ l row l' :
  insert_session sha256_hex id now user_id token new days_ l = Ok (row, l') ->
  l' = l ++ [row] /\ se_id row = id /\ se_user_id row = user_id /\ se_token_hash row = sha256_hex token /\ se_created_at row = now
  /\ se_expires_at row = now + days days_ /\ se_absolute_expires_at row = Some (now + days days_) /\ se_revoked_at row = None
  /\ se_last_seen_at row = None
  /\ (forall s, s ∈ l -> se_id s <> id /\ se_token_hash s <> sha256_hex token).
Proof.
  intros [E [= <- <-]]%refuse_ok. split_and!; try done. intros s Hs.
  by apply (proj1 (existsb_none _ l) E), orb_false_iff in Hs as [?%Z.eqb_neq ?%str_eqb_neq].
Qed.

Lemma grows_insert id now user_id token new days_ l row l' :
  insert_session sha256_hex id now user_id token new days_ l = Ok (row, l') -> grows l l'.
Proof.
  intros (-> & H1 & _ & H3 & _ & _ & _ & _ & _ & Hn)%insert_session_ok. apply grows_app; [exact _|].
  intros [N1 N2]. split; rewrite fmap_app; (apply NoDup_snoc; [done|]); intros (s & E & Hs)%list_elem_of_fmap; destruct (Hn s Hs); congruence.
Qed.

Lemma grows_create id now user_id token new policy l row l' :
  create_session_with_policy sha256_hex id now user_id token new policy l = Ok (row, l') -> grows l l'.
Proof.
  unfold create_session_with_policy. intros H. apply result_bind_ok in H as ([row' l1] & Hi & [= <- <-]).
  etrans; [by eapply grows_insert|apply grows_retire].
Qed.

Lemma policy_ensured_keeps now o t t' p : policy_ensured now o t = (t', p) ->
  sb_sessions t' = sb_sessions t /\ sb_devices t' = sb_devices t /\ sb_accounts t' = sb_accounts t.
Proof. unfold policy_ensured. destruct (policy_for_account _ _ _ _) as [[l q]|]; intros [= <- <-]; done. Qed.

Lemma trust_device_keeps now id d u current t : sb_sessions (snd (trust_device now id d u current t)) = sb_sessions t.
Proof.
  unfold trust_device. destruct (find_device _ _) as [dv|]; [|done]. destruct (ensure_same_organization _ _); [|done].
  destruct (trust_window _ _ _ _ _) as [t' r] eqn:E. assert (sb_sessions t' = sb_sessions t) as Hs.
  { unfold trust_window in E. destruct d, u; try (by injection E as <- _). destruct (policy_ensured _ _ _) as [t2 p] eqn:Ep.
    injection E as <- _. by apply policy_ensured_keeps in Ep as (? & _). }
  destruct r; [|done]. by destruct (set_trust _ _ _) as [[?|] ?].
Qed.

Lemma step_grows t e : grows (sb_sessions t) (sb_sessions (session_step t e)).
Proof.
  destruct e as [device_id id now user token agent methods|id now user_id token agent|now hs|now current|now id current
                |now user_id current|now user_id|now id current|now id d u current|now id|l|l]; cbn [session_step].
  - unfold start_session. destruct (policy_ensured _ _ _) as [t1 p] eqn:Ep. apply policy_ensured_keeps in Ep as (<- & _).
    destruct (upsert_device _ _ _ _ _ _ _) as [d ds]. cbn [sb_sessions with_devices].
    destruct (create_session_with_policy _ _ _ _ _ _ _ _) as [[s l]|] eqn:E; [by eapply grows_create|reflexivity].
  - destruct (create_session _ _ _ _ _ _ _) as [[s l]|] eqn:E; [by eapply grows_create|reflexivity].
  - unfold logout. destruct (session_token hs) as [token|]; [|reflexivity]. apply (grows_end _ now se_revoked_by).
    by intros s [_ ?]%andb_true_iff.
  - apply grows_rows; [done|]. intros s _ _ _. by repeat split.
  - unfold revoke_one, revoke_session_by_id. destruct (List.find _ _) as [s|]; cbn [fmap option_fmap option_map];
      [destruct (_ && _)|]; (apply (grows_end _ now (fun _ => Some _) (fun _ => take MAX_REASON_LENGTH s!"admin_revoke"))); by intros x [_ ?]%andb_true_iff.
  - unfold sign_out_account, sign_out_all. destruct (ensure_same_organization _ _); [|reflexivity]. destruct (_ && _); [reflexivity|].
    apply (grows_end _ now (fun _ => Some _) (fun _ => take MAX_REASON_LENGTH s!"sign_out_all")). by intros x [_ ?]%andb_true_iff.
  - apply (grows_end _ now (fun _ => None) (fun _ => take MAX_REASON_LENGTH s!"password_reset")). by intros x [_ ?]%andb_true_iff.
  - unfold forget_device. destruct (find_device _ _) as [d|]; [|reflexivity]. destruct (ensure_same_organization _ _); [|reflexivity].
    apply (grows_end _ now (fun _ => Some _) (fun _ => s!"device_forgotten")). by intros x [_ ?]%andb_true_iff.
  - by rewrite trust_device_keeps.
  - apply grows_rows; [done|]. intros s _ _ _. by repeat split.
  - reflexivity.
  - reflexivity.
Qed.

Lemma steps_grow es t : grows (sb_sessions t) (sb_sessions (session_steps t es)).
Proof.
  revert t. induction es as [|e es IH]; intros t; [reflexivity|]. cbn [session_steps foldl]. etrans; [apply step_grows|apply IH].
Qed.

(** ** What a token resolves to *)

Definition ended (now : Z) (s : session) : bool :=
  is_given (se_revoked_at s) || (se_expires_at s <=? now) || match se_absolute_expires_at s with Some end_ => end_ <=? now | None => false end.

Lemma ended_later now now' s s' : ended now s = true -> later s s' -> now <= now' -> ended now' s' = true.
Proof.
  unfold ended. intros H (_ & _ & _ & -> & -> & Hr) Hn. rewrite !orb_true_iff in *. destruct H as [[H|H]|H].
  - left; left. by destruct (Hr H) as (-> & _).
  - left; right. lia.
  - right. destruct (se_absolute_expires_at s); [lia|done].
Qed.

Lemma own_hash l s s' : rows_ok l -> s ∈ l -> s' ∈ l -> se_token_hash s' = se_token_hash s -> s' = s.
Proof. intros [_ N] Hs Hs' E. by apply (NoDup_key_inj se_token_hash l s' s N). Qed.

(** Resolution, read off the one row that has the hash of the token. *)
Lemma resolve_session_row now token accounts policies l s :
  rows_ok l -> s ∈ l -> se_token_hash s = sha256_hex token ->
  resolve_session sha256_hex now token accounts policies l =
    match List.find (fun a => a_id a =? se_user_id s) accounts with
    | Some a => if resolves now (se_token_hash s) policies a s then Some (s, a) else None
    | None => None
    end.
Proof.
  intros R Hs Hh. unfold resolve_session, hash_token. rewrite <- Hh.
  set (p := fun x : session => match List.find (fun a => a_id a =? se_user_id x) accounts with
                     | Some a => resolves now (se_token_hash s) policies a x | None => false end).
  assert (forall x, x ∈ l -> p x = true -> x = s) as Hp.
  { intros x Hx. unfold p. destruct (List.find _ accounts) as [a|]; [|done]. unfold resolves. rewrite !andb_true_iff, str_eqb_eq.
    intros [[[[[E _] _] _] _] _]. by apply (own_hash l). }
  destruct (p s) eqn:E.
  - rewrite (find_unique p l s) by auto. cbn. unfold p in E. destruct (List.find _ accounts) as [a|]; [|done]. cbn. by rewrite E.
  - rewrite find_nothing.
    + cbn. unfold p in E. destruct (List.find _ accounts) as [a|]; [by rewrite E|done].
    + intros x Hx. apply not_true_iff_false. intros Hpx. rewrite (Hp x Hx Hpx) in Hpx. congruence.
Qed.

Lemma ended_not_resolved now token accounts policies l s :
  rows_ok l -> s ∈ l -> se_token_hash s = sha256_hex token -> ended now s = true ->
  resolve_session sha256_hex now token accounts policies l = None.
Proof.
  intros R Hs Hh He. rewrite (resolve_session_row _ _ _ _ l s) by done. destruct (List.find _ accounts) as [a|]; [|done].
  enough (resolves now (se_token_hash s) policies a s = false) as ->; [done|]. apply not_true_iff_false. unfold resolves.
  rewrite !andb_true_iff. intros [[[[[_ Hu] Hx] Ha] _] _]. unfold ended, unrevoked in *. rewrite !orb_true_iff in He.
  destruct He as [[He|He]|He]; [by destruct (se_revoked_at s)|lia|destruct (se_absolute_expires_at s); [lia|done]].
Qed.

(** C5. A session that was revoked or has run out stands for nobody ever after: whatever sign-ins,
    sign-outs, visits, second proofs and changes of accounts and policies follow, in whatever
    order, its token resolves to nothing, and when, by whom and why it was revoked stays as it was
    written. *)
Theorem ended_sessions_never_return (t : session_tables) (es : list session_event) (s : session) (token : str) (now now' : Z) :
  rows_ok (sb_sessions t) -> s ∈ sb_sessions t -> se_token_hash s = sha256_hex token -> ended now s = true -> now <= now' ->
  let t' := session_steps t es in
  resolve_session sha256_hex now' token (sb_accounts t') (sb_policies t') (sb_sessions t') = None
  /\ exists s', s' ∈ sb_sessions t' /\ se_id s' = se_id s
     /\ (is_given (se_revoked_at s) = true ->
         se_revoked_at s' = se_revoked_at s /\ se_revoked_by s' = se_revoked_by s /\ se_revoke_reason s' = se_revoke_reason s).
Proof.
  intros R Hs Hh He Hn t'. destruct (steps_grow es t R) as [R' G]. destruct (G s Hs) as (s' & Hs' & L). split.
  - apply (ended_not_resolved _ _ _ _ _ s'); [done|done| |by apply (ended_later now now' s)]. destruct L as (_ & _ & -> & _). done.
  - exists s'. split; [done|]. split; [by destruct L|]. by destruct L as (_ & _ & _ & _ & _ & ?).
Qed.

(** The ways out: after each of them the sessions it names are over. *)
Lemma ended_by_update p now f r l s :
  s ∈ l -> (p s = true \/ unrevoked s = false) ->
  exists s', s' ∈ update_where p (fun s => end_session now (f s) (r s) s) l /\ se_id s' = se_id s /\ forall now', ended now' s' = true.
Proof.
  intros Hs Hp. exists (if p s then end_session now (f s) (r s) s else s). split; [apply update_where_elem; eauto|].
  destruct (p s); [done|]. split; [done|]. destruct Hp as [|Hu]; [done|]. intros now'. unfold ended, unrevoked in *.
  by destruct (se_revoked_at s).
Qed.

(** Signing an account out, resetting its password, forgetting a device and logging out end
    every session they name, at once: the account's, the device's, the one of the cookie. *)
Theorem sign_outs_reach_every_session (t : session_tables) (s : session) (now : Z) (current : current_session) :
  s ∈ sb_sessions t ->
  let over (t' : session_tables) := exists s', s' ∈ sb_sessions t' /\ se_id s' = se_id s /\ forall now', ended now' s' = true in
  (forall ids t', sign_out_account now (se_user_id s) current t = (Ok ids, t') -> over t' /\ (unrevoked s = true -> se_id s ∈ ids))
  /\ over (session_step t (PasswordReset now (se_user_id s)))
  /\ (forall id ids t', forget_device now id current t = (Ok ids, t') -> se_device_id s = Some id -> over t' /\ (unrevoked s = true -> se_id s ∈ ids))
  /\ (forall hs token, session_token hs = Some token -> se_token_hash s = sha256_hex token -> over (logout sha256_hex now hs t)).
Proof.
  intros Hs over. assert (forall (q : session -> bool), q s = true -> s ∈ List.filter q (sb_sessions t)) as Hin by (intros q Hq; by apply elem_of_filter_bool).
  split_and!.
  - intros ids t'. unfold sign_out_account, sign_out_all. destruct (ensure_same_organization _ _); [|done]. destruct (_ && _); [done|].
    intros [= <- <-]. split.
    + apply (ended_by_update _ now (fun _ => Some _) (fun _ => _)); [done|]. rewrite Z.eqb_refl. destruct (unrevoked s); auto.
    + intros Hu. apply list_elem_of_fmap_2, Hin. by rewrite Z.eqb_refl, Hu.
  - apply (ended_by_update _ now (fun _ => None) (fun _ => _)); [done|]. rewrite Z.eqb_refl. destruct (unrevoked s); auto.
  - intros id ids t'. unfold forget_device. destruct (find_device _ _) as [d|]; [|done]. destruct (ensure_same_organization _ _); [|done].
    intros [= <- <-] Hd. split.
    + apply (ended_by_update _ now (fun _ => Some _) (fun _ => _)); [done|]. rewrite bool_decide_eq_true_2 by done. destruct (unrevoked s); auto.
    + intros Hu. apply list_elem_of_fmap_2, Hin. by rewrite bool_decide_eq_true_2, Hu.
  - intros hs token Hc Hh. unfold logout. rewrite Hc. apply (ended_by_update _ now se_revoked_by (fun s => _)); [done|].
    unfold hash_token. rewrite Hh, str_eqb_refl. destruct (unrevoked s); auto.
Qed.

(** The state the list shows is the one a request meets: judged by the idle window of the
    account's own organization, a session of an active account is shown as live exactly when its
    token resolves to it, and one of an account that is not active resolves to nothing. *)
Theorem states_are_what_requests_meet (now : Z) (token : str) (accounts : list account) (policies : list security_policy)
    (l : list session) (s : session) (a : account) :
  rows_ok l -> s ∈ l -> se_token_hash s = sha256_hex token -> List.find (fun a => a_id a =? se_user_id s) accounts = Some a ->
  let answer := resolve_session sha256_hex now token accounts policies l in
  (is_active a = true ->
   (answer = Some (s, a) <-> state_of s now (idle_minutes_for_organization policies (a_organization_id a)) = s!"live"))
  /\ (is_active a = false -> answer = None).
Proof.
  intros R Hs Hh Ha answer. unfold answer. rewrite (resolve_session_row _ _ _ _ l s), Ha by done.
  unfold resolves, state_of. rewrite str_eqb_refl. set (idle := idle_minutes_for_organization _ _). cbn [andb].
  assert (forall b : bool, (if b then Some (s, a) else None) = Some (s, a) <-> b = true) as Hif by (intros []; done).
  split; intros Hact; rewrite Hact.
  - rewrite andb_true_r, Hif, !andb_true_iff. unfold unrevoked. destruct (se_revoked_at s); cbn [is_given negb]; [by split; [intros [[[? _] _] _]|]|].
    rewrite (Z.leb_antisym now (se_expires_at s)). destruct (now <? se_expires_at s); cbn [negb orb]; [|by split; [intros [[[_ ?] _] _]|]].
    destruct (se_absolute_expires_at s) as [e|]; [rewrite (Z.leb_antisym now e); destruct (now <? e); cbn [negb]; [|by split; [intros [[_ ?] _]|]]|];
      rewrite Z.leb_antisym; destruct (_ <? default _ _); cbn [negb]; by (split; [intros [_ ?]|repeat split]).
  - by rewrite andb_false_r.
Qed.
End Events.

(** ** The cap *)

Section Cap.
Context (sha256_hex : str -> str).

Definition live_of (user_id now : Z) (s : session) : bool := (se_user_id s =? user_id) && unrevoked s && (now <? se_expires_at s).

Lemma retired_after_kept n user_id id now l a b :
  a ∈ take n (counted_others user_id id now l) -> b ∈ drop n (counted_others user_id id now l) -> se_created_at b <= se_created_at a.
Proof.
  unfold counted_others. set (cmp := fun a b => se_created_at b ?= se_created_at a).
  assert (CmpLaws cmp) as C.
  { split; unfold cmp; [intros; apply Z.compare_antisym|]. intros x y z. rewrite !Z.compare_ngt_iff. lia. }
  intros Ha Hb. pose proof (sort_by_sorted cmp (List.filter (fun s => live_of user_id now s && negb (is_session id s)) l)) as S.
  rewrite <- (take_drop n (sort_by cmp _)) in S. apply StronglySorted_app in S as (H & _ & _).
  specialize (H a b Ha Hb). unfold cmp_le, cmp in H. cbn beta in H. apply Z.compare_ngt_iff in H. lia.
Qed.

Lemma filter_update_where {A} (q p : A -> bool) f (l : list A) :
  (forall x, x ∈ l -> p x = true -> q (f x) = false) ->
  List.filter q (update_where p f l) = List.filter (fun x => q x && negb (p x)) l.
Proof.
  intros H. induction l as [|x l IH]; [done|]. cbn [update_where fmap list_fmap List.filter].
  rewrite <- IH by (intros y Hy; apply H; by right). destruct (p x) eqn:E.
  - rewrite (H x) by (done || by left). cbn. by rewrite andb_false_r.
  - by rewrite andb_true_r.
Qed.

Lemma filter_take_sort {A} (q : A -> bool) (kept dropped : list A) :
  (forall x, x ∈ kept -> q x = true) -> (forall x, x ∈ dropped -> q x = false) -> List.filter q (kept ++ dropped) = kept.
Proof.
  intros H1 H2. rewrite List.filter_app, (filter_none q dropped) by done. rewrite app_nil_r.
  induction kept as [|x l IH]; [done|]. cbn. rewrite H1 by by left. f_equal. apply IH. intros y Hy. apply H1. by right.
Qed.

(** A sign-in past the cap is not refused: it is live at once, and of the account's other live
    sessions exactly the newest stay, so that no more than the cap are live; the ones that end are
    each no newer than any that stays, name the cap as their reason, and no session of another
    account and none that was over already changes. *)
Theorem sign_in_keeps_the_cap (id now user_id : Z) (token : str) (new : new_session) (policy : session_policy) (l l' : list session) (s : session) :
  rows_ok l -> create_session_with_policy sha256_hex id now user_id token new policy l = Ok (s, l') -> 0 < absolute_days policy ->
  s ∈ l' /\ live_of user_id now s = true /\ se_token_hash s = sha256_hex token
  /\ (length (List.filter (live_of user_id now) l') <= Z.to_nat (Z.max (concurrent_max policy) 1))%nat
  /\ (forall x, x ∈ l -> live_of user_id now x = false -> x ∈ l')
  /\ (forall x, x ∈ l -> live_of user_id now x = true -> x ∈ l' \/ end_session now (se_revoked_by x) s!"concurrent_cap" x ∈ l')
  /\ (forall a b, a ∈ l -> b ∈ l -> live_of user_id now a = true -> a ∈ l' ->
      live_of user_id now b = true -> b ∉ l' -> se_created_at b <= se_created_at a)
  /\ length l' = S (length l).
Proof.
  intros R H Hd. unfold create_session_with_policy in H. apply result_bind_ok in H as ([row l1] & Hi & [= <- <-]).
  pose proof (proj1 (grows_insert _ _ _ _ _ _ _ _ _ _ Hi R)) as [N1 _].
  apply insert_session_ok in Hi as (-> & Hid & Huser & Hhash & _ & Hexp & _ & Hrev & _ & Hfresh).
  assert (live_of user_id now row = true) as Hlive.
  { unfold live_of, unrevoked. rewrite Huser, Hrev, Z.eqb_refl, Hexp. cbn. unfold days. lia. }
  unfold retire_over_cap. set (keep := Z.to_nat (Z.max (concurrent_max policy) 1 - 1)). set (others := counted_others user_id id now (l ++ [row])).
  set (p := fun s => existsb (is_session (se_id s)) (drop keep others)). set (f := fun s => end_session now (se_revoked_by s) s!"concurrent_cap" s).
  assert (forall x, x ∈ others <-> x ∈ l /\ live_of user_id now x = true) as Ho.
  { intros x. unfold others. rewrite counted_others_elem, elem_of_app, list_elem_of_singleton. unfold live_of.
    rewrite !andb_true_iff, Z.eqb_eq, Z.ltb_lt. split; [|intros (Hx & [Hu Hv] & He); split_and!; auto; by destruct (Hfresh x Hx)].
    intros ([Hx|Hx] & Hu & Hv & He & Hne); [done|congruence]. }
  assert (NoDup (se_id <$> others)) as No.
  { unfold others, counted_others. rewrite sort_by_perm. by apply NoDup_filter_keys. }
  assert (forall x, x ∈ l ++ [row] -> p x = true <-> x ∈ drop keep others) as Hp.
  { intros x Hx. unfold p. rewrite existsb_elem. split; [|intros Hd'; exists x; split; [done|apply Z.eqb_refl]].
    intros (y & Hy & E%Z.eqb_eq). replace x with y; [done|]. apply (NoDup_key_inj se_id (l ++ [row]) y x N1); [|done|congruence].
    apply elem_of_app. left. by apply subseteq_drop, Ho in Hy as [? _]. }
  assert (forall x, x ∈ take keep others -> p x = false) as Hk.
  { intros x Hx. apply not_true_iff_false. intros (y & Hy & E%Z.eqb_eq)%existsb_elem. rewrite <- (take_drop keep others), fmap_app in No.
    apply NoDup_app in No as (_ & No & _). apply (No (se_id x)); [by apply list_elem_of_fmap_2|]. rewrite <- E. by apply list_elem_of_fmap_2. }
  assert (p row = false) as Hrow.
  { apply not_true_iff_false. intros (y & Hy & E%Z.eqb_eq)%existsb_elem. apply subseteq_drop, Ho in Hy as [Hy _]. destruct (Hfresh y Hy). congruence. }
  split_and!.
  - apply update_where_elem. exists row. rewrite Hrow. split; [apply elem_of_app; right; apply list_elem_of_here|done].
  - done.
  - done.
  - rewrite filter_update_where by (intros x _ _; unfold live_of, unrevoked; cbn; by rewrite andb_false_r).
    assert (List.filter (fun x => live_of user_id now x && negb (p x)) (l ++ [row]) ≡ₚ row :: take keep others) as ->.
    { rewrite List.filter_app. cbn [List.filter]. rewrite Hlive, Hrow. cbn [andb negb]. rewrite Permutation_app_comm. cbn [app]. constructor.
      transitivity (List.filter (fun x => negb (p x)) others).
      - rewrite <- (filter_filter_bool (fun x => negb (p x)) (live_of user_id now)). apply filter_perm.
        unfold others, counted_others. rewrite sort_by_perm, List.filter_app. cbn [List.filter]. unfold is_session at 2. rewrite Hid, Z.eqb_refl.
        rewrite andb_false_r, app_nil_r. erewrite filter_ext_elem; [done|]. intros x Hx. unfold live_of, is_session.
        destruct (Hfresh x Hx) as [?%Z.eqb_neq _]. by rewrite H, andb_true_r.
      - rewrite <- (take_drop keep others) at 1. rewrite filter_take_sort; [done|intros x Hx; by rewrite Hk|].
        intros x Hx. apply negb_false_iff. apply Hp; [|done]. apply elem_of_app. left. by apply subseteq_drop, Ho in Hx as [? _]. }
    cbn [length]. rewrite length_take. lia.
  - intros x Hx Hl. apply update_where_elem. exists x. split; [apply elem_of_app; by left|].
    destruct (p x) eqn:E; [|done]. apply Hp in E; [|apply elem_of_app; by left]. apply subseteq_drop, Ho in E as [_ E]. congruence.
  - intros x Hx Hl. destruct (p x) eqn:E; [right|left]; apply update_where_elem; exists x; (split; [apply elem_of_app; by left|by rewrite E]).
  - intros a b Ha Hb Hla Ha' Hlb Hb'. apply (retired_after_kept keep user_id id now (l ++ [row])).
    + assert (a ∈ others) as Hin by by apply Ho. rewrite <- (take_drop keep others) in Hin. apply elem_of_app in Hin as [?|Hin]; [done|].
      exfalso. apply update_where_elem in Ha' as (y & Hy & E). destruct (p y) eqn:Epy.
      * apply (f_equal unrevoked) in E. unfold live_of in Hla. rewrite E in Hla. cbn in Hla. by rewrite andb_false_r in Hla.
      * subst y. rewrite (proj2 (Hp a Hy) Hin) in Epy. done.
    + assert (b ∈ others) as Hin by by apply Ho. rewrite <- (take_drop keep others) in Hin. apply elem_of_app in Hin as [Hin|?]; [|done].
      exfalso. apply Hb', update_where_elem. exists b. rewrite (Hk b Hin). split; [apply elem_of_app; by left|done].
  - unfold update_where. rewrite length_fmap, length_app. cbn. lia.
Qed.
End Cap.

(** ** From the cookie back to the account *)

Lemma find_map_app {A B} (f : A -> option B) (l l' : list A) :
  (forall x, x ∈ l -> f x = None) -> find_map f (l ++ l') = find_map f l'.
Proof. induction l as [|x l IH]; intros H; [done|]. cbn. rewrite (H x) by by left. apply IH. intros y Hy. apply H. by right. Qed.

(** What a generated token is made of. *)
Definition token_text (token : str) : Prop := token <> [] /\ forallb is_ascii_hexdigit token = true.

Lemma hex_plain c : is_ascii_hexdigit c = true -> is_whitespace c = false /\ c <> c!";" /\ c <> c!"=".
Proof.
  intros H. split; [|split; intros ->; done]. apply not_true_is_false. unfold is_whitespace, is_ascii_hexdigit, is_ascii_digit, in_range in *.
  intros H'. bool_prop. lia.
Qed.

Lemma token_plain token c : token_text token -> c = c!";" \/ c = c!"=" -> c ∉ token.
Proof. intros [_ H] Hc Hin. apply forallb_elem with (x := c) in H; [|done]. apply hex_plain in H as (_ & ? & ?). by destruct Hc. Qed.

Lemma trim_token token : token_text token -> trim token = token.
Proof.
  intros [_ H]. apply trim_id. rewrite forallb_forall in *. intros c Hc. apply H, hex_plain in Hc as [-> _]. done.
Qed.

Lemma session_pair_token token : token_text token -> session_pair (SESSION_COOKIE ++ s!"=" ++ token) = Some token.
Proof.
  intros H. unfold session_pair. change (s!"=" ++ token) with (c!"=" :: token). rewrite split_once_app by (apply (bool_decide_unpack _); vm_compute; exact I).
  replace (str_eqb (trim SESSION_COOKIE) SESSION_COOKIE) with true by (vm_compute; reflexivity). cbn [negb]. rewrite trim_token by done.
  cbv zeta. destruct H as [?%str_eqb_neq _]. by rewrite H.
Qed.


Lemma session_pair_space pair : session_pair (c!" " :: pair) = session_pair pair.
Proof. unfold session_pair. cbn [split_once]. by destruct (split_once c!"=" pair) as [[n v]|]. Qed.

Lemma first_pair_space t : find_map session_pair (split_on c!";" (c!" " :: t)) = find_map session_pair (split_on c!";" t).
Proof.
  change (split_on c!";" (c!" " :: t)) with (match split_on c!";" t with [] => [[c!" "]] | p :: ps => (c!" " :: p) :: ps end).
  destruct (split_on c!";" t) as [|p ps]; [vm_compute; reflexivity|]. cbn [find_map]. by rewrite session_pair_space.
Qed.

Lemma split_cookies pairs : Forall (fun p => c!";" ∉ p) pairs ->
  find_map session_pair (split_on c!";" (join s!"; " pairs)) = find_map session_pair pairs.
Proof.
  intros H. destruct pairs as [|p rest]; [done|]. revert p H. induction rest as [|q rest IH]; intros p H; apply Forall_cons in H as [Hp H].
  - cbn [join]. by rewrite split_on_none.
  - cbn [join]. change (s!"; " ++ ?x) with (c!";" :: c!" " :: x). rewrite split_on_app by done. cbn [find_map].
    destruct (session_pair p); [done|].
    rewrite first_pair_space. by apply IH.
Qed.

(** A request with these [Cookie] headers and nothing else. *)
Definition cookies (l : list (option str)) : headers := fun name => if str_eqb name s!"cookie" then l else [].

(** A browser's [Cookie] header, the session's pair among others. *)
Definition cookie_header (before after : list str) (token : str) : str :=
  join s!"; " (before ++ [(SESSION_COOKIE ++ s!"=" ++ token)%list] ++ after).

Lemma session_token_found before after token :
  token_text token -> Forall (fun p => (c!";" ∉ p) /\ session_pair p = None) before -> Forall (fun p => c!";" ∉ p) after ->
  session_token (cookies [Some (cookie_header before after token)]) = Some token.
Proof.
  intros Ht Hb Ha. unfold session_token, cookie_header. change (cookies ?l s!"cookie") with l. cbn [omap list_omap fmap list_fmap id]. rewrite (app_nil_r (split_on _ _) : mjoin [_] = _), split_cookies.
  - rewrite find_map_app; [cbn [app find_map]; by rewrite session_pair_token|]. intros p Hp. rewrite Forall_forall in Hb. by apply Hb.
  - apply Forall_app. split; [by eapply Forall_impl; [apply Hb|intros ? []]|]. apply Forall_cons. split; [|done].
    rewrite !elem_of_app. intros [H|[H|H]].
    + revert H. apply (bool_decide_unpack _). vm_compute. exact I.
    + revert H. apply (bool_decide_unpack _). vm_compute. exact I.
    + by apply (token_plain token c!";") in H; [|done|left].
Qed.

(** ** A sign-in and the requests after it *)

Section Requests.
Context (sha256_hex : str -> str).

Lemma created_row id now user_id token new policy l s l' :
  create_session_with_policy sha256_hex id now user_id token new policy l = Ok (s, l') ->
  s ∈ l' /\ se_user_id s = user_id /\ se_token_hash s = sha256_hex token /\ se_created_at s = now /\ se_last_seen_at s = None
  /\ se_revoked_at s = None /\ se_expires_at s = now + days (absolute_days policy)
  /\ se_absolute_expires_at s = Some (now + days (absolute_days policy)).
Proof.
  unfold create_session_with_policy. intros H. apply result_bind_ok in H as ([row l1] & Hi & [= <- <-]).
  apply insert_session_ok in Hi as (-> & Hid & Hu & Hh & Hc & He & Ha & Hr & Hl & _). split_and!; try done.
  apply update_where_elem. exists row. split; [apply elem_of_app; right; apply list_elem_of_here|].
  destruct (existsb _ _) eqn:E; [|done]. exfalso.
  apply existsb_elem in E as (y & Hy & E%Z.eqb_eq). apply subseteq_drop, counted_others_elem in Hy as (_ & _ & _ & _ & Hne). congruence.
Qed.

(** The policy a sign-in of the account is made under. *)
Definition policy_of_sign_in (now : Z) (user : account) (t : session_tables) : session_policy :=
  match snd (policy_ensured now (a_organization_id user) t) with Some p => session_policy_from p | None => session_policy_default end.

(** Not before the sign-in, before its absolute end, and inside the idle window of the organization. *)
Definition within_lifetimes (now then_ : Z) (policy : session_policy) (idle : Z) : Prop :=
  now <= then_ /\ then_ < now + days (absolute_days policy) /\ then_ - minutes idle < now.

(** C7. What a sign-in hands out is what a later request is known by: the token in the browser's
    cookie header, among whatever other cookies, resolves to the session just begun and to its
    account, for as long as the three lifetimes last and the account is active, and from the end of
    any of them on the same request is refused as an invalid session. *)
Theorem cookie_brings_the_account_back (device_id id now then_ : Z) (user : account) (token : str) (agent : option str)
    (methods before after : list str) (t t' : session_tables) (s : session) :
  rows_ok (sb_sessions t) -> start_session sha256_hex device_id id now user token agent methods t = (Ok s, t') ->
  List.find (fun a => a_id a =? a_id user) (sb_accounts t) = Some user -> is_active user = true ->
  token_text token -> Forall (fun p => (c!";" ∉ p) /\ session_pair p = None) before -> Forall (fun p => c!";" ∉ p) after -> now <= then_ ->
  let idle := idle_minutes_for_organization (sb_policies t') (a_organization_id user) in
  let request := resolve_current sha256_hex then_ (cookies [Some (cookie_header before after token)]) t' in
  (within_lifetimes now then_ (policy_of_sign_in now user t) idle -> request = Ok (CurrentSession user s token))
  /\ (~ within_lifetimes now then_ (policy_of_sign_in now user t) idle -> request = Err InvalidSession).
Proof.
  intros R H Hu Hact Htok Hb Ha Hn idle request. unfold start_session, policy_of_sign_in in *.
  destruct (policy_ensured now (a_organization_id user) t) as [t1 p] eqn:Ep. apply policy_ensured_keeps in Ep as (Es & _ & Eacc).
  destruct (upsert_device _ _ _ _ _ _ _) as [d ds]. cbn [snd].
  set (pol := match p with Some p => session_policy_from p | None => session_policy_default end) in *. cbn [sb_sessions with_devices] in H.
  destruct (create_session_with_policy _ _ _ _ _ _ _ _) as [[s0 l]|] eqn:E; [|done]. injection H as <- <-. rewrite Es in E.
  destruct (grows_create _ _ _ _ _ _ _ _ _ _ E R) as [R' _].
  apply created_row in E as (Hin & Huser & Hh & Hc & Hl & Hr & He & Hab). cbn [sb_policies sb_sessions sb_accounts with_sessions with_devices] in *.
  unfold request, resolve_current. rewrite session_token_found by done. cbn [ok_or result_bind].
  cbn [sb_policies sb_sessions sb_accounts with_sessions with_devices]. rewrite (resolve_session_row _ _ _ _ _ l s0), Huser, Eacc, Hu by done.
  unfold resolves, unrevoked, within_lifetimes. rewrite str_eqb_refl, Hr, Hab, He, Hc, Hl, Hact. fold idle. cbn [is_given negb default andb].
  split; intros Hw.
  - replace (then_ <? now + days (absolute_days pol)) with true by lia. cbn [andb]. replace (then_ - minutes idle <? now) with true by lia. done.
  - destruct (then_ <? now + days (absolute_days pol)) eqn:E1; [|done]. destruct (then_ - minutes idle <? now) eqn:E2; [|done]. lia.
Qed.
End Requests.

(** ** What the routes let through *)

(** The refusal comes after the fact: when an account of an organization revokes a live session
    of an account outside it, the answer is that the target is in another organization, and the
    session is over all the same. *)
Theorem refused_revocation_still_revokes (now : Z) (current : current_session) (t : session_tables) (s : session) (own : Z) :
  rows_ok (sb_sessions t) -> s ∈ sb_sessions t -> unrevoked s = true ->
  a_organization_id (cu_account current) = Some own -> organization_of (se_user_id s) (sb_accounts t) <> Some own ->
  fst (revoke_one now (se_id s) current t) = Err CrossOrganization
  /\ exists s', s' ∈ sb_sessions (snd (revoke_one now (se_id s) current t)) /\ se_id s' = se_id s /\ forall now', ended now' s' = true.
Proof.
  intros [N _] Hs Hu Ho Ht. unfold revoke_one, revoke_session_by_id.
  assert (List.find (fun x => is_session (se_id s) x && unrevoked x) (sb_sessions t) = Some s) as ->.
  { apply find_unique; [done|unfold is_session; by rewrite Z.eqb_refl, Hu|].
    intros y Hy [E%Z.eqb_eq _]%andb_true_iff. by apply (NoDup_key_inj se_id (sb_sessions t)). }
  cbn [fmap option_fmap option_map sb_accounts with_sessions se_user_id end_session]. rewrite Ho. cbn [is_given andb].
  rewrite bool_decide_eq_false_2 by done. cbn [negb fst snd]. split; [done|].
  apply (ended_by_update _ now (fun _ => Some _) (fun _ => _)); [done|left]. unfold is_session. by rewrite Z.eqb_refl, Hu.
Qed.

(** The device routes compare organizations only when both sides have one: an account of an
    organization is let through to a device of an account that has none, to forget it with all its
    sessions and to trust it for as long as it likes. *)
Theorem platform_devices_are_within_reach (now n : Z) (current : current_session) (t : session_tables) (d : device) :
  find_device (dv_id d) (sb_devices t) = Some d -> organization_of (dv_user_id d) (sb_accounts t) = None -> 0 < n <= 3650 ->
  (exists ids, fst (forget_device now (dv_id d) current t) = Ok ids
   /\ forall s, s ∈ sb_sessions t -> se_device_id s = Some (dv_id d) -> unrevoked s = true -> se_id s ∈ ids)
  /\ fst (trust_device now (dv_id d) (Some n) None current t) = Ok (with_trust (Some (now + days n)) d).
Proof.
  intros Hd Ho Hn. unfold forget_device, trust_device. rewrite Hd, Ho. cbn [fst].
  assert (forall o, ensure_same_organization o None = Ok tt) as He by by intros [].
  rewrite He. cbn [fst trust_window]. replace (n <=? 0) with false by lia. replace (3650 <? n) with false by lia. split.
  - eexists. split; [done|]. intros s Hs Hsd Hu. apply list_elem_of_fmap_2, elem_of_filter_bool. by rewrite bool_decide_eq_true_2, Hu.
  - unfold set_trust. by rewrite Hd.
Qed.

(** A trust once given is never given again by signing in: the second sign-in of a browser on a
    device keeps the trust it had, though it has long run out, and takes the device's being
    forgotten back. *)
Theorem signing_in_does_not_renew_trust (id now user_id trust_days until : Z) (agent : option str) (sha256_hex : str -> str)
    (l : list device) (d : device) :
  List.find (same_device user_id (fingerprint sha256_hex agent)) l = Some d -> dv_trusted_until d = Some until ->
  let d' := fst (upsert_device sha256_hex id now user_id agent trust_days l) in
  dv_id d' = dv_id d /\ dv_trusted_until d' = Some until /\ dv_revoked_at d' = None.
Proof.
  intros Hf Hu. unfold upsert_device. rewrite Hf. destruct (describe agent) as [[label platform] browser]. cbn. by rewrite Hu.
Qed.

(** ** Witnesses *)

Definition minute_0 : Z := 1700000000000000.
Definition plain_hash (s : str) : str := s!"sha256:" ++ s.
Definition ada : account := Account 1 (Some 7) s!"ada@example.org" s!"active" None None 0 None.
Definition grace : account := Account 2 None s!"grace@example.org" s!"active" None None 0 None.
Definition empty_tables : session_tables := SessionTables [ada; grace] [] [] [].
Definition after_sign_ins : session_tables :=
  session_steps plain_hash empty_tables
    [SignedIn 100 11 minute_0 ada s!"aaaa" (Some s!"curl/8") [s!"password"];
     SignedIn 101 12 (minute_0 + 5) grace s!"bbbb" (Some s!"Firefox/1") [s!"password"]].
Definition the_session (id : Z) (t : session_tables) : session :=
  default (Session 0 0 [] None 0 0 None None None [] None None None None) (List.find (is_session id) (sb_sessions t)).
Definition ada_here : current_session := CurrentSession ada (the_session 11 after_sign_ins) s!"aaaa".

Lemma witness_rows : rows_ok (sb_sessions after_sign_ins).
Proof. split; apply (bool_decide_unpack _); vm_compute; exact I. Qed.
Lemma witness_in id : id = 11 \/ id = 12 -> the_session id after_sign_ins ∈ sb_sessions after_sign_ins.
Proof. intros [->| ->]; apply (bool_decide_unpack _); vm_compute; exact I. Qed.

Lemma ended_sessions_never_return_witness :
  let t := session_step plain_hash after_sign_ins (LoggedOut (minute_0 + 9) (cookies [Some s!"omnion_session=aaaa"])) in
  let t' := session_steps plain_hash t [SteppedUp (minute_0 + 10) 11; Seen (minute_0 + 11) ada_here] in
  resolve_session plain_hash (minute_0 + 12) s!"aaaa" (sb_accounts t') (sb_policies t') (sb_sessions t') = None.
Proof.
  intros t t'. refine (proj1 (ended_sessions_never_return plain_hash t _ (the_session 11 t) s!"aaaa" (minute_0 + 9) (minute_0 + 12) _ _ _ _ _)).
  - split; apply (bool_decide_unpack _); vm_compute; exact I.
  - apply (bool_decide_unpack _). vm_compute. exact I.
  - vm_compute. reflexivity.
  - vm_compute. reflexivity.
  - lia.
Defined.

Lemma sign_outs_reach_every_session_witness :
  exists s', s' ∈ sb_sessions (session_step plain_hash after_sign_ins (PasswordReset minute_0 1)) /\ se_id s' = 11
  /\ forall now', ended now' s' = true.
Proof.
  exact (proj1 (proj2 (sign_outs_reach_every_session plain_hash after_sign_ins (the_session 11 after_sign_ins) minute_0 ada_here
    (witness_in 11 (or_introl eq_refl))))).
Defined.

Lemma states_are_what_requests_meet_witness :
  resolve_session plain_hash (minute_0 + minutes 119) s!"aaaa" [ada; grace] (sb_policies after_sign_ins) (sb_sessions after_sign_ins)
    = Some (the_session 11 after_sign_ins, ada).
Proof.
  refine (proj2 (proj1 (states_are_what_requests_meet plain_hash (minute_0 + minutes 119) s!"aaaa" [ada; grace] (sb_policies after_sign_ins)
    (sb_sessions after_sign_ins) (the_session 11 after_sign_ins) ada witness_rows (witness_in 11 (or_introl eq_refl)) _ _) _) _);
    vm_compute; reflexivity.
Defined.

Lemma sign_in_keeps_the_cap_witness :
  exists s l', create_session_with_policy plain_hash 13 (minute_0 + 9) 1 s!"cccc" (NewSession None None []) (SessionPolicy 120 30 1)
    (sb_sessions after_sign_ins) = Ok (s, l') /\ (length (List.filter (live_of 1 (minute_0 + 9)) l') <= 1)%nat.
Proof.
  destruct (create_session_with_policy plain_hash 13 (minute_0 + 9) 1 s!"cccc" (NewSession None None []) (SessionPolicy 120 30 1)
    (sb_sessions after_sign_ins)) as [[s l']|] eqn:E; [|vm_compute in E; discriminate].
  exists s, l'. split; [reflexivity|].
  exact (proj1 (proj2 (proj2 (proj2 (sign_in_keeps_the_cap plain_hash _ _ _ _ _ (SessionPolicy 120 30 1) _ _ _ witness_rows E ltac:(cbn; lia)))))).
Defined.

Lemma cookie_brings_the_account_back_witness :
  exists s t', start_session plain_hash 102 13 (minute_0 + 9) ada s!"cccc" None [] after_sign_ins = (Ok s, t')
  /\ resolve_current plain_hash (minute_0 + minutes 60) (cookies [Some s!"theme=dark; omnion_session=cccc; lang=en"]) t' = Ok (CurrentSession ada s s!"cccc").
Proof.
  destruct (start_session plain_hash 102 13 (minute_0 + 9) ada s!"cccc" None [] after_sign_ins) as [[s|e] t'] eqn:E; [|vm_compute in E; discriminate].
  exists s, t'. split; [reflexivity|].
  refine (proj1 (cookie_brings_the_account_back plain_hash 102 13 (minute_0 + 9) (minute_0 + minutes 60) ada s!"cccc" None [] [s!"theme=dark"]
    [s!"lang=en"] after_sign_ins t' s witness_rows E _ _ _ _ _ _) _).
  - vm_compute. reflexivity.
  - vm_compute. reflexivity.
  - split; [discriminate|vm_compute; reflexivity].
  - apply Forall_cons. split; [split; [apply (bool_decide_unpack _); vm_compute; exact I|vm_compute; reflexivity]|apply Forall_nil; exact I].
  - apply Forall_cons. split; [apply (bool_decide_unpack _); vm_compute; exact I|apply Forall_nil; exact I].
  - unfold minutes. lia.
  - apply (f_equal (fun r => sb_policies (snd r))) in E. cbn [snd] in E. rewrite <- E. vm_compute. split; [|split]; congruence || reflexivity.
Defined.

Lemma refused_revocation_still_revokes_witness :
  fst (revoke_one minute_0 (se_id (the_session 12 after_sign_ins)) ada_here after_sign_ins) = Err CrossOrganization.
Proof.
  refine (proj1 (refused_revocation_still_revokes minute_0 ada_here after_sign_ins (the_session 12 after_sign_ins) 7
    witness_rows (witness_in 12 (or_intror eq_refl)) _ _ _)); vm_compute; congruence || reflexivity.
Defined.

Lemma platform_devices_are_within_reach_witness :
  exists d, find_device 101 (sb_devices after_sign_ins) = Some d
  /\ fst (trust_device minute_0 (dv_id d) (Some 3650) None ada_here after_sign_ins) = Ok (with_trust (Some (minute_0 + days 3650)) d).
Proof.
  destruct (find_device 101 (sb_devices after_sign_ins)) as [d|] eqn:E; [|vm_compute in E; discriminate]. exists d. split; [reflexivity|].
  assert (dv_id d = 101 /\ organization_of (dv_user_id d) (sb_accounts after_sign_ins) = None) as [Hid Ho].
  { vm_compute in E. injection E as <-. vm_compute. split; reflexivity. }
  refine (proj2 (platform_devices_are_within_reach minute_0 3650 ada_here after_sign_ins d _ Ho _)); [by rewrite Hid|lia].
Defined.

Lemma signing_in_does_not_renew_trust_witness :
  exists d, List.find (same_device 1 (fingerprint plain_hash (Some s!"curl/8"))) (sb_devices after_sign_ins) = Some d
  /\ dv_trusted_until (fst (upsert_device plain_hash 200 (minute_0 + days 40) 1 (Some s!"curl/8") 30 (sb_devices after_sign_ins)))
     = Some (minute_0 + days 30).
Proof.
  destruct (List.find (same_device 1 (fingerprint plain_hash (Some s!"curl/8"))) (sb_devices after_sign_ins)) as [d|] eqn:E;
    [|vm_compute in E; discriminate]. exists d. split; [reflexivity|].
  assert (dv_trusted_until d = Some (minute_0 + days 30)) as Hu by (vm_compute in E; injection E as <-; vm_compute; reflexivity).
  exact (proj1 (proj2 (signing_in_does_not_renew_trust 200 (minute_0 + days 40) 1 30 _ (Some s!"curl/8") plain_hash _ d E Hu))).
Defined.
