(* ===== verification/ApiKeys.v ===== *)
(** * Keys for machines: [crates/developer/src/keys.rs], [keys_store.rs], the key routes of
      [apps/api/src/routes/developer.rs], and [crates/permissions/src/service_accounts.rs]

    Two tables of credentials: developer keys, which carry the scopes they were delegated, and the
    keys of service accounts, which are subjects of role bindings.  Random bytes are arguments,
    SHA-256 as hex text and [lower] of the database are parameters.  Audit rows, events, the usage
    chart and the list of accounts are not modelled. *)

From S2P Require Import Prelude Json Roles Bindings Hierarchy Catalogue PolicyEngine Policies.

Definition KEY_NAMESPACE : str := s!"omndev".
Definition PREFIX_LENGTH : nat := 10.
Definition SECRET_LENGTH : nat := 32.
Definition ENVIRONMENT_LIVE : str := s!"live".
Definition ENVIRONMENT_SANDBOX : str := s!"sandbox".
Definition ENVIRONMENTS : list str := [ENVIRONMENT_LIVE; ENVIRONMENT_SANDBOX].
Definition MIN_NAME_LENGTH : nat := 3.
Definition MAX_NAME_LENGTH : nat := 64.
Definition MAX_SCOPES : nat := 64.
Definition ALPHABET : str := s!"abcdefghijklmnopqrstuvwxyz0123456789".

Record api_key := ApiKey {
  ak_id : uuid;
  ak_organization_id : uuid;
  ak_name : str;
  ak_environment : str;
  ak_key_prefix : str;
  ak_key_hash : str;
  ak_scopes : list str;
  ak_created_by : option uuid;
  ak_created_by_name : str;
  ak_last_used_at : option instant;
  ak_expires_at : option instant;
  ak_revoked_at : option instant;
  ak_rotated_from : option uuid;
  ak_created_at : instant
}.
#[export] Instance api_key_eq_dec : EqDecision api_key.
Proof. solve_decision. Defined.

Record new_key := NewKey {
  nk_organization_id : uuid;
  nk_name : str;
  nk_environment : str;
  nk_scopes : list str;
  nk_expires_at : option instant;
  nk_created_by : option uuid;
  nk_created_by_name : str
}.

Record secret := Secret { st_token : str; st_prefix : str; st_hash : str }.

Inductive developer_error := UnknownEnvironment (environment : str) | BlankName | NameLength (got : nat) | NoScope | TooManyScopes (got : nat)
  | PastExpiry | UnknownScope (scope : str) | ScopeNotHeld (scope : str) | NameTaken | KeyAlreadyRevoked | KeyNotFound
  | DeveloperDatabase | OrganizationRequired | ResolutionFailed.
#[export] Instance developer_error_eq_dec : EqDecision developer_error.
Proof. solve_decision. Defined.

Inductive key_status := KeyActive | KeyExpired | KeyRevoked.
#[export] Instance key_status_eq_dec : EqDecision key_status.
Proof. solve_decision. Defined.

Definition status_at (k : api_key) (now : instant) : key_status :=
  if is_given (ak_revoked_at k) then KeyRevoked
  else if match ak_expires_at k with Some expires => expires <=? now | None => false end then KeyExpired
  else KeyActive.
Definition key_is_active_at (k : api_key) (now : instant) : bool := bool_decide (status_at k now = KeyActive).

(** ** What a key may be *)

Definition dedupe_scopes (scopes : list str) : list str :=
  dedup_by str_eqb (sort_by str_cmp (List.filter (fun s => negb (str_eqb s [])) (trim <$> scopes))).

Definition parse_environment (environment : str) : result str developer_error :=
  ok_or (List.find (fun candidate => str_eqb candidate environment) ENVIRONMENTS) (UnknownEnvironment environment).

(** The length is one of bytes, the number in the refusal one of characters. *)
Definition validated (k : new_key) (now : instant) : result unit developer_error :=
  let? _ := parse_environment (nk_environment k) in
  let name := trim (nk_name k) in
  refuse str_eqb name [] with BlankName in
  refuse (utf8_len name <? MIN_NAME_LENGTH)%nat || (MAX_NAME_LENGTH <? utf8_len name)%nat with NameLength (length name) in
  let scopes := dedupe_scopes (nk_scopes k) in
  refuse bool_decide (scopes = []) with NoScope in
  refuse (MAX_SCOPES <? length scopes)%nat with TooManyScopes (length scopes) in
  refuse match nk_expires_at k with Some expires => expires <=? now | None => false end with PastExpiry in
  Ok tt.

Definition scope_names_valid (scopes catalogue : list str) : result unit developer_error :=
  match List.find (fun s => negb (existsb (str_eqb s) catalogue)) (dedupe_scopes scopes) with
  | Some s => Err (UnknownScope s)
  | None => Ok tt
  end.

Definition mintable_from (requested held : list str) : result (list str) developer_error :=
  let scopes := dedupe_scopes requested in
  match List.find (fun s => negb (existsb (str_eqb s) held)) scopes with
  | Some s => Err (ScopeNotHeld s)
  | None => Ok scopes
  end.

Definition alphabet_char (byte : N) : char := nth (N.to_nat (byte mod 36)) ALPHABET 0%N.

Section Keys.
Context (sha256_hex lower : str -> str).

Definition hash_key (token : str) : str := sha256_hex token.

(** The bytes are drawn by the caller: [PREFIX_LENGTH] of them and [SECRET_LENGTH]. *)
Definition issue (environment : str) (prefix_bytes secret_bytes : list N) : secret :=
  let environment := match parse_environment environment with Ok e => e | Err _ => ENVIRONMENT_SANDBOX end in
  let prefix := KEY_NAMESPACE ++ s!"_" ++ environment ++ s!"_" ++ (alphabet_char <$> prefix_bytes) in
  let token := prefix ++ s!"_" ++ (alphabet_char <$> secret_bytes) in
  Secret token prefix (hash_key token).

Definition verify_secret (presented stored_hash : str) : bool :=
  let candidate := hash_key presented in
  (utf8_len candidate =? utf8_len stored_hash)%nat && bool_decide (mjoin (utf8_bytes <$> candidate) = mjoin (utf8_bytes <$> stored_hash)).

(** ** The table *)

Definition key_row_ok (k : api_key) : bool :=
  existsb (str_eqb (ak_environment k)) ENVIRONMENTS
  && (3 <=? length (btrim (ak_name k)))%nat && (length (btrim (ak_name k)) <=? 64)%nat
  && (1 <=? length (ak_scopes k))%nat && (length (ak_scopes k) <=? 64)%nat.
Definition key_unrevoked (k : api_key) : bool := negb (is_given (ak_revoked_at k)).
(** [api_keys_name_uk]. *)
Definition same_name (k k' : api_key) : bool :=
  key_unrevoked k' && (ak_organization_id k =? ak_organization_id k')%N && str_eqb (lower (ak_name k)) (lower (ak_name k'))
  && str_eqb (ak_environment k) (ak_environment k').
Definition insert_key (k : api_key) (l : list api_key) : result (list api_key) developer_error :=
  require key_row_ok k else DeveloperDatabase in
  refuse existsb (fun k' => (ak_id k' =? ak_id k)%N || str_eqb (ak_key_hash k') (ak_key_hash k) || same_name k k') l with DeveloperDatabase in
  Ok (l ++ [k]).

Definition find_live_by_name (organization : uuid) (name environment : str) (l : list api_key) : option api_key :=
  List.find (fun k => (ak_organization_id k =? organization)%N && str_eqb (lower (ak_name k)) (lower name)
                      && str_eqb (ak_environment k) environment && key_unrevoked k) l.

(** [keys_store::create]. *)
Definition create_api_key (id : uuid) (new : new_key) (now : instant) (prefix_bytes secret_bytes : list N) (l : list api_key) :
  result (api_key * secret * list api_key) developer_error :=
  let? _ := validated new now in
  let scopes := dedupe_scopes (nk_scopes new) in
  refuse is_given (find_live_by_name (nk_organization_id new) (trim (nk_name new)) (nk_environment new) l) with NameTaken in
  let s := issue (nk_environment new) prefix_bytes secret_bytes in
  let row := ApiKey id (nk_organization_id new) (trim (nk_name new)) (nk_environment new) (st_prefix s) (st_hash s) scopes
               (nk_created_by new) (nk_created_by_name new) None (nk_expires_at new) None None now in
  let? l := insert_key row l in
  Ok (row, s, l).

Definition find_key (organization id : uuid) (l : list api_key) : option api_key :=
  List.find (fun k => (ak_id k =? id)%N && (ak_organization_id k =? organization)%N) l.

Definition key_used (now : instant) (k : api_key) : api_key :=
  ApiKey (ak_id k) (ak_organization_id k) (ak_name k) (ak_environment k) (ak_key_prefix k) (ak_key_hash k) (ak_scopes k)
    (ak_created_by k) (ak_created_by_name k) (Some now) (ak_expires_at k) (ak_revoked_at k) (ak_rotated_from k) (ak_created_at k).
Definition key_revoked (now : instant) (k : api_key) : api_key :=
  ApiKey (ak_id k) (ak_organization_id k) (ak_name k) (ak_environment k) (ak_key_prefix k) (ak_key_hash k) (ak_scopes k)
    (ak_created_by k) (ak_created_by_name k) (ak_last_used_at k) (ak_expires_at k) (Some now) (ak_rotated_from k) (ak_created_at k).
Definition touch_last_used (id : uuid) (now : instant) (l : list api_key) : list api_key :=
  update_where (fun k => ak_id k =? id)%N (key_used now) l.

(** The row is the first the lookup by prefix meets. *)
Definition authenticate (token : str) (now : instant) (l : list api_key) : option api_key * list api_key :=
  match rsplit_once c!"_" token with
  | None => (None, l)
  | Some (prefix, secret) =>
      if bool_decide (secret = []) || negb (existsb (N.eqb c!"_") prefix) then (None, l)
      else
        match List.find (fun k => str_eqb (ak_key_prefix k) prefix) l with
        | None => (None, l)
        | Some row =>
            if key_is_active_at row now && verify_secret token (ak_key_hash row)
            then (Some row, touch_last_used (ak_id row) now l)
            else (None, l)
        end
  end.

Definition rotate (id new_id organization : uuid) (now : instant) (prefix_bytes secret_bytes : list N) (l : list api_key) :
  result (api_key * secret * list api_key) developer_error :=
  let? previous := ok_or (find_key organization id l) KeyNotFound in
  refuse is_given (ak_revoked_at previous) with KeyAlreadyRevoked in
  let s := issue (ak_environment previous) prefix_bytes secret_bytes in
  let row := ApiKey new_id (ak_organization_id previous) (ak_name previous ++ s!" (rotated)") (ak_environment previous) (st_prefix s) (st_hash s)
               (ak_scopes previous) (ak_created_by previous) (ak_created_by_name previous) None (ak_expires_at previous) None
               (Some (ak_id previous)) now in
  let? l := insert_key row l in
  Ok (row, s, update_where (fun k => ak_id k =? ak_id previous)%N (key_revoked now) l).

Definition revoke_api_key (organization id : uuid) (now : instant) (l : list api_key) : result bool developer_error * list api_key :=
  let p k := (ak_id k =? id)%N && (ak_organization_id k =? organization)%N && key_unrevoked k in
  if existsb p l then (Ok true, update_where p (key_revoked now) l)
  else if is_given (find_key organization id l) then (Ok false, l)
  else (Err KeyNotFound, l).

(** ** The routes *)

(** [scope::resolve_organization] with nothing requested. *)
Definition own_organization (organization : option uuid) : result uuid developer_error := ok_or organization OrganizationRequired.

Definition granted_keys (e : effective_permissions) : list str :=
  List.filter (fun key => negb (is_some (denials e !! key))) (sort_by str_cmp ((map_to_list (grants e)).*1)).

(** [routes/developer.rs], [create_key]. *)
Definition create_key `{J : JsonNumber} (iam : iam_db) (user : uuid) (organization : option uuid) (id : uuid) (name environment : str) (scopes : list str)
    (expires_at : option instant) (user_name : str) (now : instant) (prefix_bytes secret_bytes : list N) (l : list api_key) :
  result (api_key * secret * list api_key) developer_error :=
  let? organization := own_organization organization in
  let? _ := scope_names_valid scopes catalogue_keys in
  let? e := match effective_permissions_for iam now (User user) (context_from_scope (Organization organization)) with
            | Ok e => Ok e | Err _ => Err ResolutionFailed end in
  let? scopes := mintable_from scopes (granted_keys e) in
  create_api_key id (NewKey organization name environment scopes expires_at (Some user) user_name) now prefix_bytes secret_bytes l.

Definition rotate_key (organization : option uuid) (id new_id : uuid) (now : instant) (prefix_bytes secret_bytes : list N) (l : list api_key) :
  result (api_key * secret * list api_key) developer_error :=
  let? organization := own_organization organization in
  rotate id new_id organization now prefix_bytes secret_bytes l.

Definition revoke_key (organization : option uuid) (id : uuid) (now : instant) (l : list api_key) : result bool developer_error * list api_key :=
  match own_organization organization with
  | Err e => (Err e, l)
  | Ok organization =>
      match find_key organization id l with None => (Err KeyNotFound, l) | Some _ => revoke_api_key organization id now l end
  end.

(** ** Everything that happens to the table *)

Inductive key_event :=
  | KeyCreated (id : uuid) (new : new_key) (now : instant) (prefix_bytes secret_bytes : list N)
  | KeyRotated (id new_id organization : uuid) (now : instant) (prefix_bytes secret_bytes : list N)
  | KeyWithdrawn (organization id : uuid) (now : instant)
  | KeyPresented (token : str) (now : instant).

Definition key_step (l : list api_key) (e : key_event) : list api_key :=
  match e with
  | KeyCreated id new now pb sb => match create_api_key id new now pb sb l with Ok (_, l) => l | Err _ => l end
  | KeyRotated id new_id organization now pb sb => match rotate id new_id organization now pb sb l with Ok (_, l) => l | Err _ => l end
  | KeyWithdrawn organization id now => snd (revoke_api_key organization id now l)
  | KeyPresented token now => snd (authenticate token now l)
  end.
Definition key_steps (l : list api_key) (es : list key_event) : list api_key := foldl key_step l es.
End Keys.

(** ** Rows of keys *)

Definition key_later (k k' : api_key) : Prop :=
  ak_id k' = ak_id k /\ ak_organization_id k' = ak_organization_id k /\ ak_key_prefix k' = ak_key_prefix k
  /\ ak_key_hash k' = ak_key_hash k /\ ak_scopes k' = ak_scopes k /\ ak_expires_at k' = ak_expires_at k
  /\ ak_environment k' = ak_environment k /\ (is_given (ak_revoked_at k) = true -> ak_revoked_at k' = ak_revoked_at k).
#[export] Instance key_later_preorder : PreOrder key_later.
Proof.
  split; [intros k; by repeat split|]. intros a b c (H1 & H2 & H3 & H4 & H5 & H6 & H7 & H8) (K1 & K2 & K3 & K4 & K5 & K6 & K7 & K8).
  unfold key_later. split_and!; try congruence. intros Hr. rewrite K8; [auto|]. by rewrite H8.
Qed.

Definition keys_ok (l : list api_key) : Prop := NoDup (ak_id <$> l) /\ NoDup (ak_key_hash <$> l).

Section Rows.
Context (sha256_hex lower : str -> str).

Lemma keys_ok_update p f l :
  (forall k, ak_id (f k) = ak_id k /\ ak_key_hash (f k) = ak_key_hash k) -> keys_ok l -> keys_ok (update_where p f l).
Proof. intros Hf [H1 H2]. split; rewrite update_where_fmap; done || (intros; by destruct (Hf x)). Qed.

Lemma insert_key_ok k l l' : insert_key lower k l = Ok l' ->
  l' = l ++ [k] /\ key_row_ok k = true /\ forall k', k' ∈ l -> ak_id k' <> ak_id k /\ ak_key_hash k' <> ak_key_hash k.
Proof.
  intros [Hk [E [= <-]]%refuse_ok]%require_ok. split_and!; [done..|]. intros k' Hk'.
  by apply (proj1 (existsb_none _ l) E), orb_false_iff in Hk' as [[?%N.eqb_neq ?%str_eqb_neq]%orb_false_iff _].
Qed.

Lemma grows_insert_key k l l' : insert_key lower k l = Ok l' -> grows keys_ok key_later l l'.
Proof.
  intros (-> & _ & Hn)%insert_key_ok. apply grows_app; [exact _|].
  intros [N1 N2]. split; rewrite fmap_app; (apply NoDup_snoc; [done|]); intros (s & E & Hs)%list_elem_of_fmap; destruct (Hn s Hs); congruence.
Qed.

Lemma grows_revoked_key p now l :
  (forall k, k ∈ l -> keys_ok l -> p k = true -> key_unrevoked k = true) -> grows keys_ok key_later l (update_where p (key_revoked now) l).
Proof.
  intros H. apply grows_update; [exact _|by apply keys_ok_update|]. intros k Hk Hl Hp. specialize (H k Hk Hl Hp). unfold key_unrevoked in H.
  repeat split; cbn. by destruct (ak_revoked_at k).
Qed.

Lemma create_api_key_ok id new now pb sb l row s l' :
  create_api_key sha256_hex lower id new now pb sb l = Ok (row, s, l') ->
  insert_key lower row l = Ok l' /\ validated new now = Ok tt /\ s = issue sha256_hex (nk_environment new) pb sb
  /\ ak_id row = id /\ ak_scopes row = dedupe_scopes (nk_scopes new) /\ ak_key_hash row = st_hash s /\ ak_key_prefix row = st_prefix s
  /\ ak_revoked_at row = None /\ ak_expires_at row = nk_expires_at new /\ ak_organization_id row = nk_organization_id new
  /\ ak_environment row = nk_environment new.
Proof.
  unfold create_api_key. intros H. apply result_bind_ok in H as ([] & Hv & H). apply refuse_ok in H as [_ H].
  apply result_bind_ok in H as (l1 & Hi & [= <- <- <-]). done.
Qed.

Lemma rotate_ok id new_id organization now pb sb l row s l' :
  rotate sha256_hex lower id new_id organization now pb sb l = Ok (row, s, l') ->
  exists previous l1, find_key organization id l = Some previous /\ ak_revoked_at previous = None
  /\ insert_key lower row l = Ok l1 /\ l' = update_where (fun k => ak_id k =? ak_id previous)%N (key_revoked now) l1
  /\ s = issue sha256_hex (ak_environment previous) pb sb /\ ak_id row = new_id
  /\ ak_scopes row = ak_scopes previous /\ ak_key_hash row = st_hash s /\ ak_key_prefix row = st_prefix s
  /\ ak_revoked_at row = None /\ ak_expires_at row = ak_expires_at previous /\ ak_organization_id row = ak_organization_id previous
  /\ ak_environment row = ak_environment previous /\ ak_rotated_from row = Some (ak_id previous).
Proof.
  unfold rotate. intros H. apply result_bind_ok in H as (previous & Hp%ok_or_ok & H). apply refuse_ok in H as [Hr H].
  apply result_bind_ok in H as (l1 & Hi & [= <- <- <-]). exists previous, l1. split_and!; try done. by destruct (ak_revoked_at previous).
Qed.

Lemma find_key_elem organization id l k : find_key organization id l = Some k -> k ∈ l /\ ak_id k = id /\ ak_organization_id k = organization.
Proof. intros [Hk%list_elem_of_In [?%N.eqb_eq ?%N.eqb_eq]%andb_true_iff]%find_some. done. Qed.

Lemma key_step_grows l e : grows keys_ok key_later l (key_step sha256_hex lower l e).
Proof.
  destruct e as [id new now pb sb|id new_id organization now pb sb|organization id now|token now]; cbn [key_step].
  - destruct (create_api_key _ _ _ _ _ _ _ _) as [[[row s] l']|] eqn:E; [|reflexivity].
    apply create_api_key_ok in E as (E & _). by eapply grows_insert_key.
  - destruct (rotate _ _ _ _ _ _ _ _ _) as [[[row s] l']|] eqn:E; [|reflexivity].
    apply rotate_ok in E as (previous & l1 & Hp & Hr & Hi & -> & _). etrans; [by eapply grows_insert_key|].
    apply grows_revoked_key. intros k Hk [N _] E%N.eqb_eq. apply find_key_elem in Hp as (Hp & _).
    replace k with previous; [unfold key_unrevoked; by rewrite Hr|]. apply (NoDup_key_inj ak_id l1 previous k N); [|done|done].
    apply insert_key_ok in Hi as (-> & _). apply elem_of_app. by left.
  - unfold revoke_api_key. destruct (existsb _ _); [|by destruct (is_given _)]. cbn [snd].
    apply grows_revoked_key. by intros k _ _ [_ ?]%andb_true_iff.
  - unfold authenticate. destruct (rsplit_once _ _) as [[prefix secret]|]; [|reflexivity]. destruct (_ || _); [reflexivity|].
    destruct (List.find _ _) as [row|]; [|reflexivity]. destruct (_ && _); [|reflexivity].
    apply grows_update; [exact _|by apply keys_ok_update|]. intros k _ _ _. by repeat split.
Qed.

Lemma key_steps_grow es l : grows keys_ok key_later l (key_steps sha256_hex lower l es).
Proof. revert l. induction es as [|e es IH]; intros l; [reflexivity|]. cbn. etrans; [apply key_step_grows|apply IH]. Qed.

Lemma inactive_later k k' now now' :
  key_is_active_at k now = false -> key_later k k' -> now <= now' -> key_is_active_at k' now' = false.
Proof.
  unfold key_is_active_at, status_at. intros H (_ & _ & _ & _ & _ & -> & _ & Hr) Hn. rewrite bool_decide_eq_false in *.
  destruct (ak_revoked_at k); cbn [is_given] in *; [by rewrite (Hr eq_refl)|].
  destruct (ak_revoked_at k'); [done|]. cbn [is_given]. destruct (ak_expires_at k) as [e|]; [|done].
  destruct (e <=? now) eqn:E; [|done]. by replace (e <=? now') with true by lia.
Qed.
End Rows.

(** ** Who a token is *)

Section Tokens.
Context (sha256_hex lower : str -> str).
(** A digest as hex text is ASCII. *)
Context (hex_ascii : forall s, Forall (fun c => (c < 128)%N) (sha256_hex s)).

Lemma verify_secret_eq token h : verify_secret sha256_hex token h = true <-> sha256_hex token = h.
Proof.
  unfold verify_secret, hash_key. rewrite andb_true_iff, bool_decide_eq_true. split; [|intros <-; by rewrite Nat.eqb_refl].
  intros [_ H]. by apply utf8_ascii_inj.
Qed.

Lemma authenticate_some token now l k :
  fst (authenticate sha256_hex token now l) = Some k -> k ∈ l /\ key_is_active_at k now = true /\ ak_key_hash k = sha256_hex token.
Proof.
  unfold authenticate. destruct (rsplit_once _ _) as [[prefix secret]|]; [|done]. destruct (_ || _); [done|].
  destruct (List.find _ _) as [row|] eqn:E; [|done]. destruct (_ && _) eqn:Ev; [|done]. intros [= <-].
  apply find_some in E as [Hin%list_elem_of_In _]. by apply andb_true_iff in Ev as [? ?%verify_secret_eq].
Qed.

Lemma alphabet_plain b : alphabet_char b <> c!"_".
Proof.
  unfold alphabet_char. assert (forallb (fun c => negb (c =? c!"_")%N) ALPHABET = true) as H by (vm_compute; reflexivity).
  rewrite forallb_forall in H. assert ((N.to_nat (b mod 36) < 36)%nat) as Hb by (pose proof (N.mod_upper_bound b 36); lia).
  specialize (H (nth (N.to_nat (b mod 36)) ALPHABET 0%N) (nth_In ALPHABET 0%N (Hb : (_ < length ALPHABET)%nat))). by apply negb_true_iff, N.eqb_neq in H.
Qed.

(** The token of a key is looked up under the prefix the row was given. *)
Lemma issue_split environment pb sb :
  sb <> [] -> let s := issue sha256_hex environment pb sb in
  rsplit_once c!"_" (st_token s) = Some (st_prefix s, alphabet_char <$> sb)
  /\ alphabet_char <$> sb <> [] /\ existsb (N.eqb c!"_") (st_prefix s) = true /\ st_hash s = sha256_hex (st_token s).
Proof.
  intros Hsb s. unfold s, issue. cbn [st_token st_prefix st_hash]. split_and!; [|by destruct sb|by apply existsb_elem; exists c!"_"; split; [rewrite elem_of_app; right; left|]|done].
  change (s!"_" ++ (alphabet_char <$> sb)) with (c!"_" :: (alphabet_char <$> sb)). apply rsplit_once_app.
  intros (b & E & _)%list_elem_of_fmap. by apply (alphabet_plain b).
Qed.

Lemma authenticate_row environment pb sb l k now :
  sb <> [] -> let s := issue sha256_hex environment pb sb in
  NoDup (ak_key_prefix <$> l) -> k ∈ l -> ak_key_prefix k = st_prefix s -> ak_key_hash k = st_hash s ->
  fst (authenticate sha256_hex (st_token s) now l) = if key_is_active_at k now then Some k else None.
Proof.
  intros Hsb s N Hk Hp Hh. destruct (issue_split environment pb sb Hsb) as (Hsplit & Hne & Hu & Hhash).
  unfold authenticate. fold s in Hsplit, Hu, Hhash. rewrite Hsplit. rewrite bool_decide_eq_false_2 by done. rewrite Hu. cbn [negb orb].
  rewrite (find_unique _ l k); [|done|rewrite Hp; apply str_eqb_refl|].
  - rewrite (proj2 (verify_secret_eq _ _)) by congruence. rewrite andb_true_r. by destruct (key_is_active_at k now).
  - intros y Hy E%str_eqb_eq. apply (NoDup_key_inj ak_key_prefix l y k N); [done|done|congruence].
Qed.

(** A key that was revoked or has run out authenticates nobody ever after, whatever keys are made,
    rotated, revoked and presented in whatever order, even under the same prefix. *)
Theorem dead_keys_stay_dead (l : list api_key) (es : list key_event) (k : api_key) (token : str) (now now' : instant) :
  keys_ok l -> k ∈ l -> ak_key_hash k = sha256_hex token -> key_is_active_at k now = false -> now <= now' ->
  fst (authenticate sha256_hex token now' (key_steps sha256_hex lower l es)) = None.
Proof.
  intros R Hk Hh Hd Hn. destruct (key_steps_grow sha256_hex lower es l R) as [[_ N] G]. destruct (G k Hk) as (k' & Hk' & L).
  destruct (fst _) as [k2|] eqn:E; [|done]. apply authenticate_some in E as (Hk2 & Ha & Hh2).
  replace k2 with k' in Ha; [by rewrite (inactive_later k k' now now') in Ha|].
  apply (NoDup_key_inj ak_key_hash _ k' k2 N); [done|done|]. destruct L as (_ & _ & _ & -> & _). congruence.
Qed.

(** The token handed out with a key is the key: as long as no two keys drew the same prefix, and
    whatever happens to the table, presenting it authenticates the row that was made, with the scopes
    and the organization it was made with, exactly while that row is neither revoked nor run out. *)
Theorem issued_key_authenticates (id : uuid) (new : new_key) (now : instant) (pb sb : list N) (l l' : list api_key) (row : api_key) (s : secret)
    (es : list key_event) :
  keys_ok l -> create_api_key sha256_hex lower id new now pb sb l = Ok (row, s, l') -> sb <> [] ->
  let final := key_steps sha256_hex lower l' es in
  NoDup (ak_key_prefix <$> final) ->
  exists k, k ∈ final /\ ak_id k = id /\ ak_organization_id k = nk_organization_id new /\ ak_scopes k = dedupe_scopes (nk_scopes new)
  /\ forall now', fst (authenticate sha256_hex (st_token s) now' final) = if key_is_active_at k now' then Some k else None.
Proof.
  intros R H Hsb final N. apply create_api_key_ok in H as (Hi & _ & -> & Hid & Hsc & Hh & Hp & _ & _ & Ho & _).
  destruct (grows_insert_key _ _ _ _ Hi R) as [R' _]. apply insert_key_ok in Hi as (-> & _).
  destruct (key_steps_grow sha256_hex lower es _ R') as [_ G]. destruct (G row) as (k & Hk & L); [apply elem_of_app; right; apply list_elem_of_here|].
  exists k. destruct L as (L1 & L2 & L3 & L4 & L5 & _). split_and!; [done|congruence..|]. intros now'.
  apply (authenticate_row (nk_environment new)); [done|done|done|congruence|congruence].
Qed.

(** Rotating a key replaces it: the old token is dead at once and for good, and the new row has the
    scopes, the environment, the organization and the expiry of the old one and names it. *)
Theorem rotation_replaces_the_key (id new_id organization : uuid) (now : instant) (pb sb : list N) (l l' : list api_key) (row : api_key)
    (s : secret) (k : api_key) (token : str) :
  keys_ok l -> rotate sha256_hex lower id new_id organization now pb sb l = Ok (row, s, l') ->
  k ∈ l -> ak_id k = id -> ak_key_hash k = sha256_hex token ->
  (forall es now', fst (authenticate sha256_hex token now' (key_steps sha256_hex lower l' es)) = None)
  /\ row ∈ l' /\ ak_rotated_from row = Some id /\ ak_revoked_at row = None
  /\ ak_scopes row = ak_scopes k /\ ak_environment row = ak_environment k /\ ak_organization_id row = ak_organization_id k
  /\ ak_expires_at row = ak_expires_at k.
Proof.
  intros R H Hk Hid Hh. pose proof (key_step_grows sha256_hex lower l (KeyRotated id new_id organization now pb sb) R) as [R' _].
  cbn in R'. rewrite H in R'.
  apply rotate_ok in H as (previous & l1 & Hf & Hr & Hi & -> & Hs & Hrid & Hsc & Hrh & Hrp & Hrr & Hre & Hro & Hrv & Hrf).
  apply find_key_elem in Hf as (Hprev & Hpid & _). replace previous with k in * by (apply (NoDup_key_inj ak_id l k previous (proj1 R)); congruence).
  apply insert_key_ok in Hi as (-> & _ & Hn). clear Hpid. split_and!; [|..|congruence|done|done|done|done|done].
  - intros es now'. destruct (key_steps_grow sha256_hex lower es _ R') as [[_ N] G].
    destruct (G (key_revoked now k)) as (k' & Hk' & L).
    { apply update_where_elem. exists k. split; [apply elem_of_app; by left|]. by rewrite N.eqb_refl. }
    destruct (fst _) as [k2|] eqn:E; [|done]. apply authenticate_some in E as (Hk2 & Ha & Hh2).
    replace k2 with k' in Ha by (apply (NoDup_key_inj ak_key_hash _ k' k2 N); [done|done|]; destruct L as (_ & _ & _ & -> & _); cbn; congruence).
    destruct L as (_ & _ & _ & _ & _ & _ & _ & L). unfold key_is_active_at, status_at in Ha. by rewrite (L eq_refl) in Ha.
  - apply update_where_elem. exists row. split; [apply elem_of_app; right; apply list_elem_of_here|].
    destruct (ak_id row =? ak_id k)%N eqn:E; [|done]. apply N.eqb_eq in E. destruct (Hn k Hk). congruence.
Qed.
End Tokens.

(** ** What a key may do *)

Lemma dedup_by_increasing (l : list str) :
  StronglySorted (cmp_le str_cmp) l -> StronglySorted (fun a b => str_cmp a b = Lt) (dedup_by str_eqb l).
Proof.
  induction 1 as [|x l Hs IH Hall]; [constructor|]. cbn [dedup_by]. destruct l as [|y l]; [repeat constructor|].
  destruct (str_eqb x y) eqn:E; [done|]. apply str_eqb_neq in E. constructor; [done|]. apply Forall_forall. intros z Hz. apply (dedup_by_elem (y :: l)) in Hz.
  rewrite Forall_forall in Hall. pose proof (Hall y ltac:(left)) as Hxy. pose proof (Hall z Hz) as Hxz.
  unfold cmp_le in *. destruct (str_cmp x z) eqn:Ez; [exfalso|done|done]. apply str_cmp_eq in Ez as <-. apply E, str_cmp_eq.
  apply elem_of_cons in Hz as [<-|Hz]; [by apply str_cmp_eq|]. apply StronglySorted_inv in Hs as [_ Hy]. rewrite Forall_forall in Hy.
  specialize (Hy x Hz). cbn in Hy. rewrite (cmp_flip str_cmp) in Hy. by destruct (str_cmp x y).
Qed.

Lemma dedupe_scopes_elem s l : s ∈ dedupe_scopes l <-> s <> [] /\ exists raw, raw ∈ l /\ trim raw = s.
Proof.
  unfold dedupe_scopes. rewrite dedup_by_elem, sort_by_perm, elem_of_filter_bool, negb_true_iff, str_eqb_neq, list_elem_of_fmap.
  split; intros [H1 H2]; [destruct H1 as (r & -> & Hr)|destruct H2 as (r & Hr & <-)]; eauto.
Qed.

Lemma mintable_from_ok requested held l : mintable_from requested held = Ok l -> l = dedupe_scopes requested /\ forall s, s ∈ l -> s ∈ held.
Proof.
  unfold mintable_from. destruct (List.find _ _) as [s|] eqn:E; [done|]. intros [= <-]. split; [done|]. intros s Hs.
  apply list_elem_of_In in Hs. pose proof (find_none _ _ E s Hs) as H%negb_false_iff. by apply existsb_elem in H as (x & Hx & ->%str_eqb_eq).
Qed.

Lemma scope_names_valid_ok scopes catalogue :
  scope_names_valid scopes catalogue = Ok tt <-> forall s, s ∈ dedupe_scopes scopes -> s ∈ catalogue.
Proof.
  unfold scope_names_valid. destruct (List.find _ _) as [s|] eqn:E.
  - split; [done|]. intros H. apply find_some in E as [Hs%list_elem_of_In Hn%negb_true_iff]. exfalso.
    apply not_true_iff_false in Hn. apply Hn, existsb_elem. exists s. split; [by apply H|apply str_eqb_refl].
  - split; [|done]. intros _ s Hs%list_elem_of_In. pose proof (find_none _ _ E s Hs) as H%negb_false_iff.
    by apply existsb_elem in H as (x & Hx & ->%str_eqb_eq).
Qed.

Lemma granted_keys_elem e key : key ∈ granted_keys e <-> allows e key = true.
Proof.
  unfold granted_keys, allows. rewrite elem_of_filter_bool, sort_by_perm, andb_true_iff, list_elem_of_fmap.
  assert ((exists y, key = y.1 /\ y ∈ map_to_list (grants e)) <-> is_some (grants e !! key) = true) as ->; [|tauto].
  split.
  - intros ([k g] & -> & H%elem_of_map_to_list). cbn. by rewrite H.
  - destruct (grants e !! key) as [g|] eqn:E; [|done]. intros _. exists (key, g). split; [done|by apply elem_of_map_to_list].
Qed.

Section Delegation.
Context `{J : JsonNumber} (sha256_hex lower : str -> str).

(** Delegation only narrows: every scope of a key made through the route is a permission of the
    catalogue that the role bindings of its maker allow in their organization at that moment, the
    scopes are kept sorted and without repetition, there is at least one and there are at most
    sixty-four, and the key belongs to the organization of its maker. *)
Theorem key_scopes_are_held (iam : iam_db) (user : uuid) (organization : option uuid) (id : uuid) (name environment : str) (scopes : list str)
    (expires_at : option instant) (user_name : str) (now : instant) (pb sb : list N) (l l' : list api_key) (row : api_key) (s : secret) :
  create_key sha256_hex lower iam user organization id name environment scopes expires_at user_name now pb sb l = Ok (row, s, l') ->
  exists o e, organization = Some o /\ effective_permissions_for iam now (User user) (context_from_scope (Organization o)) = Ok e
  /\ (forall x, x ∈ ak_scopes row -> x ∈ catalogue_keys /\ allows e x = true)
  /\ StronglySorted (fun a b => str_cmp a b = Lt) (ak_scopes row) /\ (1 <= length (ak_scopes row) <= 64)%nat
  /\ ak_organization_id row = o /\ row ∈ l'.
Proof.
  unfold create_key. intros H. apply result_bind_ok in H as (o & Ho%ok_or_ok & H). apply result_bind_ok in H as ([] & Hc & H).
  apply result_bind_ok in H as (e & He & H). apply result_bind_ok in H as (minted & Hm & H).
  destruct (effective_permissions_for _ _ _ _) as [e'|] eqn:Ee; [injection He as ->|done].
  apply create_api_key_ok in H as (Hi & Hv & _ & _ & Hs & _ & _ & _ & _ & Horg & _). cbn [nk_scopes nk_organization_id] in *.
  apply mintable_from_ok in Hm as [-> Hheld]. rewrite scope_names_valid_ok in Hc.
  apply insert_key_ok in Hi as (-> & Hk & _). exists o, e.
  assert (1 <= length (ak_scopes row) <= 64)%nat as [? ?] by (unfold key_row_ok in Hk; rewrite !andb_true_iff, !Nat.leb_le in Hk; tauto).
  split_and!; try done.
  - intros x Hx. rewrite Hs in Hx. apply dedupe_scopes_elem in Hx as (Hne & raw & Hraw & <-).
    assert (trim raw = raw) as Ht by (apply dedupe_scopes_elem in Hraw as (_ & r & _ & <-); apply trim_trim).
    rewrite Ht. split; [by apply Hc|]. by apply granted_keys_elem, Hheld.
  - rewrite Hs. by apply dedup_by_increasing, (sort_by_sorted str_cmp).
  - apply elem_of_app. right. apply list_elem_of_here.
Qed.

(** A key keeps what it was made with: in whatever table the requests lead to, the scopes of every
    row are those of a row that was there at the start or those some creation asked for, and a row made
    by rotation has those of the row it names. *)
Theorem scopes_come_from_creations (P : list str -> Prop) (l : list api_key) (es : list key_event) :
  (forall k, k ∈ l -> P (ak_scopes k)) ->
  (forall id new now pb sb, KeyCreated id new now pb sb ∈ es -> P (dedupe_scopes (nk_scopes new))) ->
  forall k, k ∈ key_steps sha256_hex lower l es -> P (ak_scopes k).
Proof.
  revert l. induction es as [|e es IH]; intros l Hl He; [done|]. cbn. apply IH; [|by intros; eapply He; right].
  assert (forall p f l0, (forall k, k ∈ l0 -> P (ak_scopes k)) -> (forall k, ak_scopes (f k) = ak_scopes k) ->
    forall k, k ∈ update_where p f l0 -> P (ak_scopes k)) as Hup.
  { intros p f l0 H Hf k (y & Hy & ->)%update_where_elem. destruct (p y); rewrite ?Hf; auto. }
  assert (forall row l1, insert_key lower row l = Ok l1 -> P (ak_scopes row) -> forall k, k ∈ l1 -> P (ak_scopes k)) as Hin.
  { intros row l1 (-> & _)%insert_key_ok Hr k [Hk| ->%list_elem_of_singleton]%elem_of_app; auto. }
  destruct e as [id new now pb sb|id new_id organization now pb sb|organization id now|token now]; cbn [key_step].
  - destruct (create_api_key _ _ _ _ _ _ _ _) as [[[row s] l']|] eqn:E; [|done].
    apply create_api_key_ok in E as (E & _ & _ & _ & Hs & _). eapply Hin; [done|]. rewrite Hs. eapply He. left.
  - destruct (rotate _ _ _ _ _ _ _ _ _) as [[[row s] l']|] eqn:E; [|done].
    apply rotate_ok in E as (previous & l1 & Hp & _ & Hi & -> & _ & _ & Hs & _). apply Hup; [|done].
    eapply Hin; [done|]. rewrite Hs. apply find_key_elem in Hp as (Hp & _). auto.
  - unfold revoke_api_key. destruct (existsb _ _); [by apply Hup|by destruct (is_given _)].
  - unfold authenticate. destruct (rsplit_once _ _) as [[prefix secret]|]; [|done]. destruct (_ || _); [done|].
    destruct (List.find _ _) as [row|]; [|done]. destruct (_ && _); [|done]. by apply Hup.
Qed.
End Delegation.

(** ** Where the rules fall short *)

Lemma trim_start_by_app_nonempty f a b : trim_start_by f a <> [] -> trim_start_by f (a ++ b) = trim_start_by f a ++ b.
Proof. induction a as [|c a IH]; [done|]. cbn. destruct (f c); [exact IH|done]. Qed.

Lemma btrim_suffixed name : btrim name <> [] -> (length (btrim name) + 10 <= length (btrim (name ++ s!" (rotated)")))%nat.
Proof.
  intros H. assert (trim_start_by (N.eqb c!" ") name <> []) as Hs by (intros E; apply H; unfold btrim; by rewrite E).
  unfold btrim at 2. rewrite trim_start_by_app_nonempty by done.
  change s!" (rotated)" with (s!" (rotated" ++ [c!")"]). rewrite app_assoc.
  destruct (trim_end_by_split (N.eqb c!" ") (trim_start_by (N.eqb c!" ") name)) as [d E]. apply (f_equal length) in E. rewrite length_app in E.
  assert (forall s c, N.eqb c!" " c = false -> trim_end_by (N.eqb c!" ") (s ++ [c]) = s ++ [c]) as Hstop.
  { intros s c Hc. unfold trim_end_by. rewrite rev_app_distr. cbn [rev app trim_start_by]. rewrite Hc. cbn [rev]. by rewrite rev_involutive. }
  rewrite Hstop by done. rewrite !length_app. unfold btrim in *. change (length s!" (rotated") with 9%nat. cbn [length]. lia.
Qed.

Section Gaps.
Context (sha256_hex lower : str -> str).

(** Rotation adds ten characters to the name and the table takes sixty-four: a live key whose name
    is longer than fifty-four, as a few rotations make it, can not be rotated any more; the answer is
    an error of the database. *)
Theorem long_names_do_not_rotate (id new_id organization : uuid) (now : instant) (pb sb : list N) (l : list api_key) (k : api_key) :
  find_key organization id l = Some k -> ak_revoked_at k = None -> (54 < length (btrim (ak_name k)))%nat ->
  rotate sha256_hex lower id new_id organization now pb sb l = Err DeveloperDatabase.
Proof.
  intros Hf Hr Hn. unfold rotate. rewrite Hf. cbn [ok_or result_bind]. rewrite Hr. cbn [is_given].
  assert (btrim (ak_name k) <> []) as Hne by (intros E; rewrite E in Hn; cbn in Hn; lia).
  apply btrim_suffixed in Hne. unfold insert_key. set (row := ApiKey _ _ _ _ _ _ _ _ _ _ _ _ _ _).
  enough (key_row_ok row = false) as ->; [done|]. unfold key_row_ok. unfold row at 3. cbn [ak_name].
  replace (length (btrim (ak_name k ++ s!" (rotated)")) <=? 64)%nat with false by (symmetry; apply Nat.leb_gt; lia).
  by rewrite !andb_false_r.
Qed.

(** A key that has run out can be rotated, and what comes out has run out too: the expiry is taken
    over, so the token that is handed out authenticates nobody. *)
Theorem expired_key_rotates_into_a_dead_one (id new_id organization : uuid) (now : instant) (pb sb : list N) (l l' : list api_key)
    (row k : api_key) (s : secret) :
  find_key organization id l = Some k -> status_at k now = KeyExpired ->
  rotate sha256_hex lower id new_id organization now pb sb l = Ok (row, s, l') -> forall now', now <= now' -> key_is_active_at row now' = false.
Proof.
  intros Hf Hs H now' Hn. apply rotate_ok in H as (k' & l1 & Hf' & Hr & _ & _ & _ & _ & _ & _ & _ & Hrr & Hre & _).
  replace k' with k in * by congruence. unfold key_is_active_at, status_at in *. apply bool_decide_eq_false. rewrite Hrr, Hre. rewrite Hr in Hs.
  cbn [is_given] in *. destruct (ak_expires_at k) as [e|]; [|done]. destruct (e <=? now) eqn:E; [|done].
  by replace (e <=? now') with true by lia.
Qed.
End Gaps.

(** ** Witnesses *)

Definition plain_hex (s : str) : str := List.filter (fun c => (c <? 128)%N) s.
Lemma plain_hex_ascii s : Forall (fun c => (c < 128)%N) (plain_hex s).
Proof. apply Forall_forall. intros c [_ H%N.ltb_lt]%elem_of_filter_bool. done. Qed.

Definition ci_key : new_key := NewKey 7 s!" ci-1 " s!"live" [s!"content.pages.read"; s!" content.pages.read"] (Some 1000) (Some 2%N) s!"Ada".
Definition ci_made : result (api_key * secret * list api_key) developer_error :=
  create_api_key plain_hex to_ascii_lowercase 1 ci_key 10 [1; 2]%N [3; 4]%N [].
Definition ci_row : api_key :=
  ApiKey 1 7 s!"ci-1" s!"live" s!"omndev_live_bc" s!"omndev_live_bc_de" [s!"content.pages.read"] (Some 2%N) s!"Ada" None (Some 1000) None None 10.
Lemma ci_made_eq : ci_made = Ok (ci_row, Secret s!"omndev_live_bc_de" s!"omndev_live_bc" s!"omndev_live_bc_de", [ci_row]).
Proof. vm_compute. reflexivity. Qed.
Lemma ci_rows_ok : keys_ok [ci_row].
Proof. split; apply NoDup_singleton. Qed.

Lemma dead_keys_stay_dead_witness :
  fst (authenticate plain_hex s!"omndev_live_bc_de" 1001 (key_steps plain_hex to_ascii_lowercase [ci_row] [KeyPresented s!"omndev_live_bc_de" 20])) = None.
Proof.
  apply (dead_keys_stay_dead plain_hex to_ascii_lowercase plain_hex_ascii [ci_row] _ ci_row s!"omndev_live_bc_de" 1000 1001 ci_rows_ok);
    [left|vm_compute; reflexivity|vm_compute; reflexivity|lia].
Defined.

Lemma issued_key_authenticates_witness :
  exists k, fst (authenticate plain_hex s!"omndev_live_bc_de" 30 [ci_row]) = Some k /\ ak_scopes k = [s!"content.pages.read"].
Proof.
  destruct (issued_key_authenticates plain_hex to_ascii_lowercase plain_hex_ascii 1 ci_key 10 [1; 2]%N [3; 4]%N [] [ci_row] ci_row
    (Secret s!"omndev_live_bc_de" s!"omndev_live_bc" s!"omndev_live_bc_de") []) as (k & Hk & _ & _ & Hs & H);
    [split; apply NoDup_nil; exact I|exact ci_made_eq|discriminate|apply NoDup_singleton|].
  exists k. assert (k = ci_row) as -> by (by apply list_elem_of_singleton in Hk). split; [exact (H 30)|vm_compute; reflexivity].
Defined.

Lemma rotation_replaces_the_key_witness :
  exists row s l', rotate plain_hex to_ascii_lowercase 1 2 7 50 [5; 6]%N [7; 8]%N [ci_row] = Ok (row, s, l')
  /\ fst (authenticate plain_hex s!"omndev_live_bc_de" 60 l') = None.
Proof.
  destruct (rotate plain_hex to_ascii_lowercase 1 2 7 50 [5; 6]%N [7; 8]%N [ci_row]) as [[[row s] l']|] eqn:E; [|vm_compute in E; discriminate].
  exists row, s, l'. split; [reflexivity|].
  apply (proj1 (rotation_replaces_the_key plain_hex to_ascii_lowercase plain_hex_ascii 1 2 7 50 [5; 6]%N [7; 8]%N [ci_row] l' row s ci_row
    s!"omndev_live_bc_de" ci_rows_ok E ltac:(left) eq_refl eq_refl) [] 60).
Defined.

Lemma scopes_come_from_creations_witness :
  forall k, k ∈ key_steps plain_hex to_ascii_lowercase [] [KeyCreated 1 ci_key 10 [1; 2]%N [3; 4]%N] -> ak_scopes k = [s!"content.pages.read"].
Proof.
  apply (scopes_come_from_creations plain_hex to_ascii_lowercase (fun scopes => scopes = [s!"content.pages.read"])).
  - intros k H. apply elem_of_nil in H. contradiction.
  - intros id new now pb sb H. apply list_elem_of_singleton in H. injection H as _ -> _ _ _. vm_compute. reflexivity.
Defined.

Lemma long_names_do_not_rotate_witness :
  let k := ApiKey 1 7 (repeat c!"a" 55) s!"live" [] [] [s!"content.pages.read"] None [] None None None None 10 in
  rotate plain_hex to_ascii_lowercase 1 2 7 50 [5]%N [7]%N [k] = Err DeveloperDatabase.
Proof. intros k. apply (long_names_do_not_rotate plain_hex to_ascii_lowercase 1 2 7 50 [5]%N [7]%N [k] k); vm_compute; reflexivity || lia. Defined.

Lemma expired_key_rotates_into_a_dead_one_witness :
  exists row s l', rotate plain_hex to_ascii_lowercase 1 2 7 2000 [5; 6]%N [7; 8]%N [ci_row] = Ok (row, s, l')
  /\ key_is_active_at row 2000 = false.
Proof.
  destruct (rotate plain_hex to_ascii_lowercase 1 2 7 2000 [5; 6]%N [7; 8]%N [ci_row]) as [[[row s] l']|] eqn:E; [|vm_compute in E; discriminate].
  exists row, s, l'. split; [reflexivity|].
  apply (expired_key_rotates_into_a_dead_one plain_hex to_ascii_lowercase 1 2 7 2000 [5; 6]%N [7; 8]%N [ci_row] l' row ci_row s eq_refl eq_refl E). lia.
Defined.

(** An organization whose policy denies all of the content, and its owner. *)
Section Denied.
#[local] Existing Instance Z_number.

Definition deny_content : policy_draft := PolicyDraft s!"Freeze" [] PDeny 700 condition_empty [s!"content.*"] true.
Definition frozen_db : iam_db :=
  IamDb (db_roles sample_db) (db_bindings sample_db) [] (fst (create_policy (PolicyStore [] []) 3 7 2 0 deny_content)) (fun _ => None).

Lemma key_scopes_are_held_witness :
  exists row s l', create_key plain_hex to_ascii_lowercase frozen_db 2 (Some 7%N) 1 s!"reader" s!"live" [s!"content.pages.read"] None s!"Ada" 10
    [1; 2]%N [3; 4]%N [] = Ok (row, s, l') /\ ak_organization_id row = 7%N.
Proof.
  destruct (create_key plain_hex to_ascii_lowercase frozen_db 2 (Some 7%N) 1 s!"reader" s!"live" [s!"content.pages.read"] None s!"Ada" 10
    [1; 2]%N [3; 4]%N []) as [[[row s] l']|] eqn:E; [|vm_compute in E; discriminate].
  exists row, s, l'. split; [reflexivity|].
  destruct (key_scopes_are_held plain_hex to_ascii_lowercase frozen_db 2 (Some 7%N) 1 s!"reader" s!"live" [s!"content.pages.read"] None s!"Ada" 10
    [1; 2]%N [3; 4]%N [] l' row s E) as (o & e & Ho & _ & _ & _ & _ & Horg & _). injection Ho as <-. exact Horg.
Defined.

(** What may be delegated is read off the role bindings alone: an account whom a policy of its
    organization denies a permission on every request mints a key that carries it. *)
Theorem delegation_ignores_policies :
  (exists d, authorize_subject show_N frozen_db 10 (User 2) (context_from_scope (Organization 7)) s!"content.pages.read" = Ok d /\ is_allowed d = false)
  /\ exists row s l', create_key plain_hex to_ascii_lowercase frozen_db 2 (Some 7%N) 1 s!"reader" s!"live" [s!"content.pages.read"] None s!"Ada" 10
       [1; 2]%N [3; 4]%N [] = Ok (row, s, l') /\ s!"content.pages.read" ∈ ak_scopes row.
Proof.
  split; [eexists; split; reflexivity|]. eexists _, _, _. split; [vm_compute; reflexivity|]. vm_compute. left.
Qed.

(** The rules of a name count bytes and the check of the table counts characters: a name of one
    character of three bytes passes the former and fails the latter, as an error of the database. *)
Theorem wide_name_reaches_the_table :
  let new := NewKey 7 [8364%N] s!"live" [s!"content.pages.read"] None None [] in
  validated new 10 = Ok tt /\ create_api_key plain_hex to_ascii_lowercase 1 new 10 [1]%N [2]%N [] = Err DeveloperDatabase.
Proof. split; vm_compute; reflexivity. Qed.
End Denied.
