(* ===== verification/ServiceAccounts.v ===== *)
(** * Service accounts: [crates/permissions/src/service_accounts.rs] and their routes in
      [apps/api/src/routes/iam_subjects.rs]

    Identities roles bind to, the keys they authenticate with, the text of a token, and the routes
    that make, equip and delete them.  Random bytes are arguments; the alphabet they are spelled in is
    that of [ApiKeys].  Audit rows and the lists of the screen are not modelled. *)

From S2P Require Import Prelude Json Roles Bindings Hierarchy ApiKeys.

Definition MAX_ACCOUNT_NAME_LENGTH : nat := 80.
Definition TOKEN_NAMESPACE : str := s!"omsa".

Record service_account := MachineAccount {
  sa_id : uuid;
  sa_organization_id : uuid;
  sa_name : str;
  sa_description : str;
  sa_prefix : str;
  sa_created_by : option uuid;
  sa_last_used_at : option instant;
  sa_expires_at : option instant;
  sa_disabled_at : option instant;
  sa_created_at : instant
}.

Record service_account_key := MachineKey {
  mk_id : uuid;
  mk_account_id : uuid;
  mk_prefix : str;
  mk_secret_hash : str;
  mk_label : str;
  mk_expires_at : option instant;
  mk_last_used_at : option instant;
  mk_revoked_at : option instant;
  mk_created_at : instant
}.

Inductive machine_error := InvalidServiceAccountName (name : str) | ServiceAccountNameTaken | ServiceAccountNotFound | MachineDatabase
  | MachineCrossOrganization | MachineStepUpRequired | MachineKeyAlreadyRevoked | MachineRole (e : permissions_error).

Definition not_past (now : instant) (expires : option instant) : bool := match expires with None => true | Some e => now <? e end.
Definition account_is_active_at (a : service_account) (now : instant) : bool :=
  negb (is_given (sa_disabled_at a)) && not_past now (sa_expires_at a).
Definition machine_key_is_active_at (k : service_account_key) (now : instant) : bool :=
  negb (is_given (mk_revoked_at k)) && not_past now (mk_expires_at k).

Record machine_tables := MachineTables {
  mt_accounts : list service_account;
  mt_keys : list service_account_key;
  mt_bindings : rows
}.
Definition with_machine_keys (l : list service_account_key) (t : machine_tables) : machine_tables := MachineTables (mt_accounts t) l (mt_bindings t).
Definition with_bindings (l : rows) (t : machine_tables) : machine_tables := MachineTables (mt_accounts t) (mt_keys t) l.

Definition random_chars (bytes : list N) : str := alphabet_char <$> bytes.

Definition validate_account_name (name : str) : result str machine_error :=
  let name := trim name in
  refuse str_eqb name [] || (MAX_ACCOUNT_NAME_LENGTH <? length name)%nat with InvalidServiceAccountName name in Ok name.

(** A run of lowercase letters and digits. *)
Definition token_half (s : str) : bool := forallb (fun c => is_ascii_lowercase c || is_ascii_digit c) s.
Definition split_token (token : str) : option (str * str) :=
  rest ← strip_prefix token (TOKEN_NAMESPACE ++ s!"_");
  halves ← split_once c!"_" rest;
  let '(prefix, secret) := halves in
  if negb (utf8_len prefix =? PREFIX_LENGTH)%nat || negb (utf8_len secret =? SECRET_LENGTH)%nat then None
  else if negb (token_half prefix) then None
  else if negb (token_half secret) then None
  else Some (prefix, secret).

Fixpoint differences (diff : Z) (l r : list Z) : Z :=
  match l, r with a :: l, b :: r => differences (Z.lor diff (Z.lxor a b)) l r | _, _ => diff end.
Definition constant_time_eq (l r : str) : bool :=
  let l := mjoin (utf8_bytes <$> l) in
  let r := mjoin (utf8_bytes <$> r) in
  if negb (length l =? length r)%nat then false else differences 0 l r =? 0.

Section Machines.
Context `{J : JsonNumber} (sha256_hex lower : str -> str).

Definition hash_secret (secret : str) : str := sha256_hex secret.

(** A prefix drawn twice and a name used twice are the same violation. *)
Definition create_account (id organization : uuid) (name description : str) (created_by : option uuid) (prefix_bytes : list N) (now : instant)
    (t : machine_tables) : result (service_account * machine_tables) machine_error :=
  let? name := validate_account_name name in
  let a := MachineAccount id organization name (trim description) (random_chars prefix_bytes) created_by None None None now in
  refuse existsb (fun b => (sa_id b =? id)%N) (mt_accounts t) with MachineDatabase in
  refuse existsb (fun b => (sa_organization_id b =? organization)%N && str_eqb (lower (sa_name b)) (lower name) || str_eqb (sa_prefix b) (sa_prefix a))
    (mt_accounts t) with ServiceAccountNameTaken in
  Ok (a, MachineTables (mt_accounts t ++ [a]) (mt_keys t) (mt_bindings t)).

Definition find_account (id : uuid) (t : machine_tables) : option service_account := List.find (fun a => sa_id a =? id)%N (mt_accounts t).

(** The revocation of the bindings and the deletion commit together; the keys follow the row. *)
Definition delete_account (id : uuid) (now : instant) (t : machine_tables) : bool * machine_tables :=
  (existsb (fun a => sa_id a =? id)%N (mt_accounts t),
   MachineTables (List.filter (fun a => negb (sa_id a =? id)%N) (mt_accounts t))
     (List.filter (fun k => negb (mk_account_id k =? id)%N) (mt_keys t))
     (revoke_where (fun r => of_subject (ServiceAccount id) r && unrevoked r) now (mt_bindings t))).

Definition issue_machine_key (id account : uuid) (label : str) (expires_at : option instant) (prefix_bytes secret_bytes : list N) (now : instant)
    (t : machine_tables) : result (service_account_key * str * machine_tables) machine_error :=
  let? a := ok_or (find_account account t) ServiceAccountNotFound in
  let prefix := random_chars prefix_bytes in
  let secret := random_chars secret_bytes in
  let token := TOKEN_NAMESPACE ++ s!"_" ++ prefix ++ s!"_" ++ secret in
  let k := MachineKey id (sa_id a) prefix (hash_secret secret) (trim label) expires_at None None now in
  refuse existsb (fun k' => (mk_id k' =? id)%N || str_eqb (mk_prefix k') prefix) (mt_keys t) with MachineDatabase in
  Ok (k, token, with_machine_keys (mt_keys t ++ [k]) t).

Definition machine_key_revoked (now : instant) (k : service_account_key) : service_account_key :=
  MachineKey (mk_id k) (mk_account_id k) (mk_prefix k) (mk_secret_hash k) (mk_label k) (mk_expires_at k) (mk_last_used_at k) (Some now) (mk_created_at k).
Definition revoke_machine_key (account id : uuid) (now : instant) (t : machine_tables) : bool * machine_tables :=
  let p k := (mk_id k =? id)%N && (mk_account_id k =? account)%N && negb (is_given (mk_revoked_at k)) in
  (existsb p (mt_keys t), with_machine_keys (update_where p (machine_key_revoked now) (mt_keys t)) t).

(** The join of a key with its account; the two writes of [last_used_at] are not modelled. *)
Definition machine_authenticate (token : str) (now : instant) (t : machine_tables) : option (service_account * service_account_key) :=
  halves ← split_token token;
  let '(prefix, secret) := halves in
  k ← List.find (fun k => str_eqb (mk_prefix k) prefix && is_given (find_account (mk_account_id k) t)) (mt_keys t);
  a ← find_account (mk_account_id k) t;
  if negb (constant_time_eq (hash_secret secret) (mk_secret_hash k)) then None
  else if negb (account_is_active_at a now) || negb (machine_key_is_active_at k now) then None
  else Some (a, k).

(** ** The routes *)

(** [bindings::validate_subject] for an account just made and the scope of its organization. *)
Definition validate_machine_role (roles : role_store) (role organization : uuid) : result unit machine_error :=
  let? r := ok_or (find_role roles role) (MachineRole RoleNotFound) in
  refuse match Roles.organization_id r with Some o => negb (o =? organization)%N | None => false end with MachineRole InvalidBinding in
  Ok tt.

(** The role the account is made with, when the request names one. *)
Definition grant_first_role (roles : role_store) (caller organization id binding_id : uuid) (role : option uuid) (now : instant)
    (t : machine_tables) : result unit machine_error * machine_tables :=
  match role with
  | None => (Ok tt, t)
  | Some role =>
      match validate_machine_role roles role organization with
      | Err e => (Err e, t)
      | Ok _ =>
          let new := NewSubjectBinding role (ServiceAccount id) (Organization organization) (Some caller) None in
          match grant_subject (fun _ => true) binding_id now new (mt_bindings t) with
          | (bindings, Ok _) => (Ok tt, with_bindings bindings t)
          | (bindings, Err e) => (Err (MachineRole e), with_bindings bindings t)
          end
      end
  end.

(** The organization is resolved before; each statement commits on its own. *)
Definition create_service_account (roles : role_store) (caller organization : uuid) (id key_id binding_id : uuid) (name description : str)
    (key_label : option str) (role : option uuid) (account_bytes prefix_bytes secret_bytes : list N) (now : instant) (t : machine_tables) :
  result (service_account * option str) machine_error * machine_tables :=
  match create_account id organization name description (Some caller) account_bytes now t with
  | Err e => (Err e, t)
  | Ok (a, t) =>
      match match key_label with
            | Some label => match issue_machine_key key_id id label None prefix_bytes secret_bytes now t with
                            | Ok (_, token, t) => Ok (Some token, t) | Err e => Err e end
            | None => Ok (None, t)
            end with
      | Err e => (Err e, t)
      | Ok (token, t) =>
          match grant_first_role roles caller organization id binding_id role now t with
          | (Ok _, t) => (Ok (a, token), t)
          | (Err e, t) => (Err e, t)
          end
      end
  end.

Definition same_organization (caller target : option uuid) : bool :=
  match caller, target with Some own, Some target => (own =? target)%N | _, _ => true end.

(** [fresh] is [require_step_up] of the session. *)
Definition issue_service_account_key (organization : option uuid) (fresh : bool) (id account : uuid) (label : str) (expires_at : option instant)
    (prefix_bytes secret_bytes : list N) (now : instant) (t : machine_tables) : result (service_account_key * str * machine_tables) machine_error :=
  let? a := ok_or (find_account account t) ServiceAccountNotFound in
  require same_organization organization (Some (sa_organization_id a)) else MachineCrossOrganization in
  require fresh else MachineStepUpRequired in
  issue_machine_key id account label expires_at prefix_bytes secret_bytes now t.

Definition delete_service_account (organization : option uuid) (account : uuid) (now : instant) (t : machine_tables) :
  result nat machine_error * machine_tables :=
  match find_account account t with
  | None => (Err ServiceAccountNotFound, t)
  | Some a =>
      if negb (same_organization organization (Some (sa_organization_id a))) then (Err MachineCrossOrganization, t)
      else
        let '(bindings, revoked) := revoke_for_subject (ServiceAccount account) now (mt_bindings t) in
        let '(deleted, t) := delete_account account now (with_bindings bindings t) in
        (if deleted then Ok revoked else Err ServiceAccountNotFound, t)
  end.

Definition revoke_service_account_key (organization : option uuid) (account id : uuid) (now : instant) (t : machine_tables) :
  result unit machine_error * machine_tables :=
  match find_account account t with
  | None => (Err ServiceAccountNotFound, t)
  | Some a =>
      if negb (same_organization organization (Some (sa_organization_id a))) then (Err MachineCrossOrganization, t)
      else let '(revoked, t) := revoke_machine_key account id now t in (if revoked then Ok tt else Err MachineKeyAlreadyRevoked, t)
  end.
End Machines.

(** ** Tokens and digests *)

Lemma token_half_ascii s : token_half s = true -> Forall (fun c => (c < 128)%N) s /\ c!"_" ∉ s.
Proof.
  unfold token_half. rewrite forallb_forall. intros H. split.
  - apply Forall_forall. intros c Hc%list_elem_of_In%H. unfold is_ascii_lowercase, is_ascii_digit, in_range in Hc. bool_prop. lia.
  - intros Hc%list_elem_of_In%H. by vm_compute in Hc.
Qed.

Lemma utf8_len_ascii s : Forall (fun c => (c < 128)%N) s -> utf8_len s = length s.
Proof.
  unfold utf8_len. induction 1 as [|c s Hc _ IH]; [done|]. cbn. rewrite IH. unfold utf8_width. by rewrite (proj2 (N.ltb_lt c 128) Hc).
Qed.

Lemma split_token_parts prefix secret :
  length prefix = PREFIX_LENGTH -> length secret = SECRET_LENGTH -> token_half prefix = true -> token_half secret = true ->
  split_token (TOKEN_NAMESPACE ++ s!"_" ++ prefix ++ s!"_" ++ secret) = Some (prefix, secret).
Proof.
  intros Hp Hs Hph Hsh. unfold split_token. rewrite (app_assoc TOKEN_NAMESPACE), strip_prefix_app. cbn [mbind option_bind].
  destruct (token_half_ascii prefix Hph) as [Ap Up], (token_half_ascii secret Hsh) as [As _].
  change (s!"_" ++ secret) with (c!"_" :: secret). rewrite split_once_app by done. cbn [mbind option_bind].
  assert (utf8_len prefix = PREFIX_LENGTH) as -> by by rewrite utf8_len_ascii.
  assert (utf8_len secret = SECRET_LENGTH) as -> by by rewrite utf8_len_ascii. by rewrite !Nat.eqb_refl, Hph, Hsh.
Qed.

(** The two halves of a machine token are found exactly: a text splits into a prefix and a secret if
    and only if it is the namespace, the prefix and the secret joined by underscores, ten and thirty-two
    lowercase letters and digits. *)
Theorem split_token_exact (token prefix secret : str) :
  split_token token = Some (prefix, secret)
  <-> token = TOKEN_NAMESPACE ++ s!"_" ++ prefix ++ s!"_" ++ secret
      /\ length prefix = PREFIX_LENGTH /\ length secret = SECRET_LENGTH /\ token_half prefix = true /\ token_half secret = true.
Proof.
  unfold split_token. split.
  - destruct (strip_prefix token _) as [rest|] eqn:Er; [|done]. cbn [mbind option_bind]. apply strip_prefix_some in Er as ->.
    destruct (split_once c!"_" rest) as [[p s]|] eqn:Es; [|done]. cbn [mbind option_bind].
    destruct (_ || _) eqn:El; [done|]. destruct (token_half p) eqn:Hp, (token_half s) eqn:Hs; cbn [negb]; try done. intros [= <- <-].
    apply orb_false_iff in El as [El1%negb_false_iff%Nat.eqb_eq El2%negb_false_iff%Nat.eqb_eq].
    rewrite utf8_len_ascii in El1, El2 by by apply token_half_ascii. split_and!; try done.
    apply split_once_inv in Es as ->. by rewrite <- !app_assoc.
  - intros (-> & ? & ? & ? & ?). by apply split_token_parts.
Qed.

Lemma differences_zero d l r : length l = length r -> differences d l r = 0 <-> d = 0 /\ l = r.
Proof.
  revert d r. induction l as [|a l IH]; intros d [|b r] H; try done; [cbn; tauto|]. cbn [differences]. injection H as H.
  rewrite IH, Z.lor_eq_0_iff, Z.lxor_eq_0_iff by done. intuition congruence.
Qed.

Lemma constant_time_bytes l r : constant_time_eq l r = true <-> mjoin (utf8_bytes <$> l) = mjoin (utf8_bytes <$> r).
Proof.
  unfold constant_time_eq. destruct (length _ =? length _)%nat eqn:E; cbn [negb].
  - apply Nat.eqb_eq in E. rewrite Z.eqb_eq, differences_zero by done. tauto.
  - split; [done|]. intros H. by rewrite H, Nat.eqb_refl in E.
Qed.

(** The comparison that does not stop at the first difference is equality: of the bytes of any two
    texts, and of the texts themselves when one of them is a digest. *)
Theorem constant_time_eq_exact (l r : str) :
  (constant_time_eq l r = true <-> mjoin (utf8_bytes <$> l) = mjoin (utf8_bytes <$> r))
  /\ (Forall (fun c => (c < 128)%N) l -> constant_time_eq l r = true <-> l = r).
Proof.
  split; [apply constant_time_bytes|]. intros Hl. rewrite constant_time_bytes. split; [by apply utf8_ascii_inj|by intros ->].
Qed.

(** ** Who authenticates *)

Record machines_ok (t : machine_tables) : Prop := MachinesOk {
  mo_accounts : NoDup (sa_id <$> mt_accounts t);
  mo_prefixes : NoDup (mk_prefix <$> mt_keys t);
  mo_owned : forall k, k ∈ mt_keys t -> exists a, find_account (mk_account_id k) t = Some a
}.

Section Authenticated.
Context (sha256_hex lower : str -> str) (hex_ascii : forall s, Forall (fun c => (c < 128)%N) (sha256_hex s)).

Lemma digest_eq s h : constant_time_eq (hash_secret sha256_hex s) h = true <-> sha256_hex s = h.
Proof. unfold hash_secret. rewrite constant_time_bytes. split; [apply utf8_ascii_inj, hex_ascii|by intros <-]. Qed.

Lemma machine_authenticate_some token now t a k :
  machine_authenticate sha256_hex token now t = Some (a, k) ->
  k ∈ mt_keys t /\ find_account (mk_account_id k) t = Some a
  /\ account_is_active_at a now = true /\ machine_key_is_active_at k now = true
  /\ exists secret, split_token token = Some (mk_prefix k, secret) /\ mk_secret_hash k = sha256_hex secret.
Proof.
  unfold machine_authenticate. destruct (split_token token) as [[prefix secret]|]; [|done]. cbn [mbind option_bind].
  destruct (List.find _ (mt_keys t)) as [k'|] eqn:Ek; [|done]. cbn [mbind option_bind].
  destruct (find_account (mk_account_id k') t) as [a'|] eqn:Ea; [|done]. cbn [mbind option_bind].
  destruct (constant_time_eq _ _) eqn:Ec; [|done]. destruct (account_is_active_at a' now) eqn:E1; [|done].
  destruct (machine_key_is_active_at k' now) eqn:E2; [|done]. intros [= <- <-].
  apply find_some in Ek as [Hk%list_elem_of_In [Hp%str_eqb_eq _]%andb_true_iff]. apply digest_eq in Ec.
  split_and!; try done. exists secret. by rewrite Hp.
Qed.

Lemma machine_authenticate_row token now t a k secret :
  machines_ok t -> k ∈ mt_keys t -> find_account (mk_account_id k) t = Some a ->
  split_token token = Some (mk_prefix k, secret) -> mk_secret_hash k = sha256_hex secret ->
  machine_authenticate sha256_hex token now t = if account_is_active_at a now && machine_key_is_active_at k now then Some (a, k) else None.
Proof.
  intros [_ N _] Hk Ha Hs Hh. unfold machine_authenticate. rewrite Hs. cbn [mbind option_bind].
  rewrite (find_unique _ _ k); [|done|by rewrite str_eqb_refl, Ha|].
  - cbn [mbind option_bind]. rewrite Ha. cbn [mbind option_bind]. rewrite (proj2 (digest_eq secret (mk_secret_hash k))) by done. cbn [negb].
    by destruct (account_is_active_at a now), (machine_key_is_active_at k now).
  - intros y Hy [E%str_eqb_eq _]%andb_true_iff. by apply (NoDup_key_inj mk_prefix (mt_keys t)).
Qed.

Lemma issue_machine_key_ok id account label expires pb sb now t k token t' :
  issue_machine_key sha256_hex id account label expires pb sb now t = Ok (k, token, t') ->
  exists a, find_account account t = Some a /\ mk_account_id k = sa_id a /\ mk_prefix k = random_chars pb /\ mk_secret_hash k = sha256_hex (random_chars sb)
  /\ mk_expires_at k = expires /\ mk_revoked_at k = None /\ t' = with_machine_keys (mt_keys t ++ [k]) t
  /\ token = TOKEN_NAMESPACE ++ s!"_" ++ random_chars pb ++ s!"_" ++ random_chars sb
  /\ (forall k', k' ∈ mt_keys t -> mk_prefix k' <> mk_prefix k).
Proof.
  unfold issue_machine_key. intros H. apply result_bind_ok in H as (a & Ha%ok_or_ok & H). apply refuse_ok in H as [E [= <- <- <-]].
  exists a. split_and!; try done. intros k' Hk'. cbn. by apply (proj1 (existsb_none _ _) E), orb_false_iff in Hk' as [_ ?%str_eqb_neq].
Qed.

Lemma find_account_id id t a : find_account id t = Some a -> sa_id a = id /\ a ∈ mt_accounts t.
Proof. intros [H%list_elem_of_In E%N.eqb_eq]%find_some. done. Qed.

Lemma random_half bytes : token_half (random_chars bytes) = true.
Proof.
  unfold token_half, random_chars. rewrite forallb_forall. intros c (b & -> & _)%list_elem_of_In%list_elem_of_fmap. unfold alphabet_char.
  assert (forallb (fun c => is_ascii_lowercase c || is_ascii_digit c) ALPHABET = true) as H by (vm_compute; reflexivity).
  rewrite forallb_forall in H. apply H. apply nth_In. change (length ALPHABET) with 36%nat. pose proof (N.mod_upper_bound b 36). lia.
Qed.

Lemma issued_token_splits pb sb : length pb = PREFIX_LENGTH -> length sb = SECRET_LENGTH ->
  split_token (TOKEN_NAMESPACE ++ s!"_" ++ random_chars pb ++ s!"_" ++ random_chars sb) = Some (random_chars pb, random_chars sb).
Proof.
  intros Hp Hs. apply split_token_parts; unfold random_chars; rewrite ?length_fmap; auto using random_half.
Qed.

(** A machine key works as it was issued: the token that is handed out once authenticates the account
    it was made for and the row that was stored, exactly while the account is neither disabled nor run
    out and the key has not run out. *)
Theorem issued_machine_key_authenticates (id account : uuid) (label : str) (expires : option instant) (pb sb : list N) (now now' : instant)
    (t t' : machine_tables) (k : service_account_key) (token : str) :
  machines_ok t -> length pb = PREFIX_LENGTH -> length sb = SECRET_LENGTH ->
  issue_machine_key sha256_hex id account label expires pb sb now t = Ok (k, token, t') ->
  exists a, find_account account t = Some a /\ mk_account_id k = account
  /\ machine_authenticate sha256_hex token now' t' = if account_is_active_at a now' && not_past now' expires then Some (a, k) else None.
Proof.
  intros [Na Np Ho] Hpb Hsb H. apply issue_machine_key_ok in H as (a & Ha & Hacc & Hp & Hh & He & Hr & -> & -> & Hn). exists a.
  pose proof (find_account_id _ _ _ Ha) as [Hid _]. split_and!; [done|congruence|].
  rewrite (machine_authenticate_row _ _ _ a k (random_chars sb)).
  - unfold machine_key_is_active_at. by rewrite Hr, He.
  - split; cbn [mt_accounts mt_keys with_machine_keys]; [done| |].
    + rewrite fmap_app. apply NoDup_snoc; [done|]. intros (k' & E & Hk')%list_elem_of_fmap. by destruct (Hn k' Hk').
    + intros k' [Hk'| ->%list_elem_of_singleton]%elem_of_app; [by apply Ho|]. exists a. by rewrite Hacc, Hid.
  - apply elem_of_app. right. apply list_elem_of_here.
  - by rewrite Hacc, Hid.
  - rewrite Hp. by apply issued_token_splits.
  - done.
Qed.

(** A deleted machine is gone: after the deletion no token whatever authenticates as it, every live
    binding of it is revoked, and the accounts, keys and bindings of everybody else are as they were. *)
Theorem deleted_machine_is_gone (organization : option uuid) (account : uuid) (now : instant) (t t' : machine_tables) (n : nat) :
  delete_service_account organization account now t = (Ok n, t') ->
  (forall token now' a k, machine_authenticate sha256_hex token now' t' = Some (a, k) -> sa_id a <> account)
  /\ (forall r, r ∈ mt_bindings t' -> of_subject (ServiceAccount account) r = true -> unrevoked r = false)
  /\ (forall a, a ∈ mt_accounts t -> sa_id a <> account -> a ∈ mt_accounts t')
  /\ (forall k, k ∈ mt_keys t -> mk_account_id k <> account -> k ∈ mt_keys t')
  /\ (forall r, r ∈ mt_bindings t -> of_subject (ServiceAccount account) r = false -> r ∈ mt_bindings t').
Proof.
  unfold delete_service_account. destruct (find_account account t) as [a|] eqn:Ha; [|done]. destruct (negb _); [done|].
  unfold revoke_for_subject, delete_account. cbn [with_bindings mt_accounts mt_keys mt_bindings].
  destruct (existsb _ _); [|done]. intros [= _ <-]. cbn [mt_accounts mt_keys mt_bindings]. split_and!.
  - intros token now' b k H. apply machine_authenticate_some in H as (_ & Hb & _). apply find_account_id in Hb as [_ Hb].
    cbn [mt_accounts] in Hb. apply elem_of_filter_bool in Hb as [_ Hb%negb_true_iff%N.eqb_neq]. done.
  - unfold revoke_where. intros r (r1 & -> & (r2 & -> & _)%list_elem_of_fmap)%list_elem_of_fmap Hs. cbn beta in *.
    destruct (_ && _) eqn:E1; [done|]. by rewrite Hs in E1.
  - intros b Hb Hne. apply elem_of_filter_bool. split; [done|]. by apply negb_true_iff, N.eqb_neq.
  - intros k Hk Hne. apply elem_of_filter_bool. split; [done|]. by apply negb_true_iff, N.eqb_neq.
  - intros r Hr Hs. unfold revoke_where. apply list_elem_of_fmap. exists r. rewrite Hs. split; [done|].
    apply list_elem_of_fmap. exists r. by rewrite Hs.
Qed.
End Authenticated.

(** ** What the routes let through *)

Section Gaps.
Context `{J : JsonNumber} (sha256_hex lower : str -> str) (hex_ascii : forall s, Forall (fun c => (c < 128)%N) (sha256_hex s)).

Lemma create_account_ok id organization name description by_ pb now t a t' :
  create_account lower id organization name description by_ pb now t = Ok (a, t') ->
  t' = MachineTables (mt_accounts t ++ [a]) (mt_keys t) (mt_bindings t) /\ sa_id a = id /\ sa_organization_id a = organization
  /\ sa_disabled_at a = None /\ sa_expires_at a = None /\ forall b, b ∈ mt_accounts t -> sa_id b <> id.
Proof.
  unfold create_account. intros H. apply result_bind_ok in H as (name' & _ & H). apply refuse_ok in H as [E H]. apply refuse_ok in H as [_ [= <- <-]].
  split_and!; try done. intros b Hb. by apply (proj1 (existsb_none _ _) E), N.eqb_neq in Hb.
Qed.

(** Issuing a key asks for a fresh second proof, and making an account with its first key does not:
    the token that comes with a new account authenticates at once, while the route of keys refuses a
    second key of the same account to the same session. *)
Theorem first_key_needs_no_step_up (roles : role_store) (caller organization id key_id binding_id : uuid) (name description label : str)
    (ab pb sb : list N) (now : instant) (t t' : machine_tables) (a : service_account) (token : option str) :
  machines_ok t -> length pb = PREFIX_LENGTH -> length sb = SECRET_LENGTH ->
  create_service_account sha256_hex lower roles caller organization id key_id binding_id name description (Some label) None ab pb sb now t
    = (Ok (a, token), t') ->
  (exists tok k, token = Some tok /\ forall now', machine_authenticate sha256_hex tok now' t' = Some (a, k))
  /\ forall key_id' label' expires pb' sb',
       issue_service_account_key sha256_hex (Some organization) false key_id' id label' expires pb' sb' now t' = Err MachineStepUpRequired.
Proof.
  intros [Na Np Ho] Hpb Hsb. unfold create_service_account.
  destruct (create_account _ _ _ _ _ _ _ _ _) as [[a1 t1]|] eqn:Ec; [|done]. apply create_account_ok in Ec as (-> & Hid & Horg & Hd & He & Hn).
  destruct (issue_machine_key _ _ _ _ _ _ _ _ _) as [[[k tok] t2]|] eqn:Ei; [|done]. intros [= <- <- <-].
  apply issue_machine_key_ok in Ei as (a & Ha & Hacc & Hp & Hh & Hex & Hr & -> & -> & Hk).
  assert (forall i b, find_account i t = Some b -> find_account i (MachineTables (mt_accounts t ++ [a1]) (mt_keys t) (mt_bindings t)) = Some b) as Hold.
  { intros i b Hb. unfold find_account in *. cbn [mt_accounts]. by rewrite find_app, Hb. }
  assert (find_account id (MachineTables (mt_accounts t ++ [a1]) (mt_keys t) (mt_bindings t)) = Some a1) as Hfind.
  { apply find_unique; [apply elem_of_app; right; apply list_elem_of_here|by apply N.eqb_eq|].
    intros y [Hy| ->%list_elem_of_singleton]%elem_of_app E%N.eqb_eq; [by destruct (Hn y Hy)|done]. }
  rewrite Hfind in Ha. injection Ha as <-. split.
  - eexists _, k. split; [done|]. intros now'. rewrite (machine_authenticate_row sha256_hex hex_ascii _ _ _ a1 k (random_chars sb)).
    + unfold account_is_active_at, machine_key_is_active_at. by rewrite Hd, He, Hr, Hex.
    + split; cbn [mt_accounts mt_keys with_machine_keys]; rewrite ?fmap_app.
      * apply NoDup_snoc; [done|]. intros (b & E & Hb)%list_elem_of_fmap. destruct (Hn b Hb). congruence.
      * apply NoDup_snoc; [done|]. intros (k' & E & Hk')%list_elem_of_fmap. by destruct (Hk k' Hk').
      * intros k' [Hk'| ->%list_elem_of_singleton]%elem_of_app; [destruct (Ho k' Hk') as [b Hb]; exists b; by apply Hold|].
        exists a1. by rewrite Hacc, Hid.
    + apply elem_of_app. right. apply list_elem_of_here.
    + by rewrite Hacc, Hid.
    + rewrite Hp. by apply issued_token_splits.
    + done.
  - intros key_id' label' expires pb' sb'. unfold issue_service_account_key. unfold find_account in *. cbn [mt_accounts with_machine_keys] in *.
    rewrite Hfind. cbn [ok_or result_bind]. rewrite Horg. unfold same_organization. by rewrite N.eqb_refl.
Qed.

Lemma grant_first_role_keeps roles caller organization id binding_id role now t :
  let t' := snd (grant_first_role roles caller organization id binding_id role now t) in
  mt_accounts t' = mt_accounts t /\ mt_keys t' = mt_keys t.
Proof.
  unfold grant_first_role. destruct role as [role|]; [|done]. destruct (validate_machine_role _ _ _); [|done].
  by destruct (grant_subject _ _ _ _ _) as [bindings [b|e]].
Qed.

(** The statements of the route that makes an account commit one by one: when the role it asks for is
    refused, the account stays, and so does the key whose token the caller was never shown. *)
Theorem refused_role_leaves_the_account (roles : role_store) (caller organization id key_id binding_id : uuid) (name description : str)
    (label : option str) (role : option uuid) (ab pb sb : list N) (now : instant) (t t' : machine_tables) (e : permissions_error) :
  create_service_account sha256_hex lower roles caller organization id key_id binding_id name description label role ab pb sb now t
    = (Err (MachineRole e), t') ->
  (exists a, a ∈ mt_accounts t' /\ sa_id a = id)
  /\ (label <> None -> exists k, k ∈ mt_keys t' /\ mk_account_id k = id /\ mk_revoked_at k = None).
Proof.
  unfold create_service_account. destruct (create_account _ _ _ _ _ _ _ _ _) as [[a t1]|e1] eqn:Ec.
  - apply create_account_ok in Ec as (-> & Hid & _). set (t1 := MachineTables _ _ _).
    assert (a ∈ mt_accounts t1) as Ha by (apply elem_of_app; right; apply list_elem_of_here).
    assert (forall (tok : option str) t2, (exists x, x ∈ mt_accounts t2 /\ sa_id x = id) ->
      (label <> None -> exists k, k ∈ mt_keys t2 /\ mk_account_id k = id /\ mk_revoked_at k = None) ->
      match grant_first_role roles caller organization id binding_id role now t2 with (Ok _, t) => (Ok (a, tok), t) | (Err e, t) => (Err e, t) end
        = (Err (MachineRole e), t') ->
      (exists a, a ∈ mt_accounts t' /\ sa_id a = id)
      /\ (label <> None -> exists k, k ∈ mt_keys t' /\ mk_account_id k = id /\ mk_revoked_at k = None)) as Hrest.
    { intros tok t2 H1 H2 H. pose proof (grant_first_role_keeps roles caller organization id binding_id role now t2) as [Hk1 Hk2].
      destruct (grant_first_role _ _ _ _ _ _ _ _) as [[[]|e1] t3]; [done|]. injection H as _ <-. cbn [snd] in *. by rewrite Hk1, Hk2. }
    destruct label as [label|].
    + destruct (issue_machine_key _ _ _ _ _ _ _ _ _) as [[[k tok] t2]|e1] eqn:Ei.
      * apply issue_machine_key_ok in Ei as (a' & Hf & Hacc & _ & _ & _ & Hr & -> & _). apply Hrest; [by exists a|].
        intros _. exists k. split; [apply elem_of_app; right; apply list_elem_of_here|]. apply find_account_id in Hf as [Hf _]. split; [congruence|done].
      * intros [= ->  _]. unfold issue_machine_key in Ei. destruct (find_account _ _); [|done]. cbn in Ei. by destruct (existsb _ _).
    + apply Hrest; [by exists a|done].
  - intros [= -> _]. unfold create_account in Ec. destruct (validate_account_name _) as [n|e2] eqn:Ev; cbn in Ec.
    + destruct (existsb _ _) in Ec; [done|]. by destruct (existsb _ _) in Ec.
    + injection Ec as ->. unfold validate_account_name in Ev. by destruct (_ || _) in Ev.
Qed.
End Gaps.

(** ** Witnesses *)

Definition robot : service_account := MachineAccount 5 7 s!"backup" [] s!"prefixofit" (Some 2%N) None None None 10.
Definition robot_tables : machine_tables := MachineTables [robot] [] [].
Definition ten : list N := N.of_nat <$> seq 0 10.
Definition thirty_two : list N := N.of_nat <$> seq 0 32.
Lemma robot_ok : machines_ok robot_tables.
Proof. split; [apply NoDup_singleton|apply NoDup_nil; exact I|intros k H; by apply elem_of_nil in H]. Qed.

Lemma issued_machine_key_authenticates_witness :
  exists k token t', issue_machine_key plain_hex 9 5 s!"ci" (Some 1000) ten thirty_two 20 robot_tables = Ok (k, token, t')
  /\ machine_authenticate plain_hex token 999 t' = Some (robot, k) /\ machine_authenticate plain_hex token 1000 t' = None.
Proof.
  destruct (issue_machine_key plain_hex 9 5 s!"ci" (Some 1000) ten thirty_two 20 robot_tables) as [[[k token] t']|] eqn:E; [|vm_compute in E; discriminate].
  exists k, token, t'. split; [reflexivity|].
  destruct (issued_machine_key_authenticates plain_hex plain_hex_ascii 9 5 s!"ci" (Some 1000) ten thirty_two 20 999 robot_tables t' k token
    robot_ok eq_refl eq_refl E) as (a & Ha & _ & H1).
  destruct (issued_machine_key_authenticates plain_hex plain_hex_ascii 9 5 s!"ci" (Some 1000) ten thirty_two 20 1000 robot_tables t' k token
    robot_ok eq_refl eq_refl E) as (b & Hb & _ & H2).
  injection Ha as <-. injection Hb as <-. split; [exact H1|exact H2].
Defined.

Lemma deleted_machine_is_gone_witness :
  forall token now' a k, machine_authenticate plain_hex token now' (snd (delete_service_account (Some 7%N) 5 30 robot_tables)) = Some (a, k) -> sa_id a <> 5%N.
Proof.
  destruct (delete_service_account (Some 7%N) 5 30 robot_tables) as [[n|e] t'] eqn:E; [|vm_compute in E; discriminate].
  exact (proj1 (deleted_machine_is_gone plain_hex plain_hex_ascii (Some 7%N) 5 30 robot_tables t' n E)).
Defined.

Section JsonWitnesses.
#[local] Existing Instance Z_number.

Lemma first_key_needs_no_step_up_witness :
  exists a token t', create_service_account plain_hex to_ascii_lowercase (RoleStore ∅ ∅ ∅) 2 7 6 9 1 s!"ci" [] (Some s!"first") None [1]%N ten thirty_two 20
    robot_tables = (Ok (a, token), t')
  /\ issue_service_account_key plain_hex (Some 7%N) false 10 6 s!"second" None ten thirty_two 20 t' = Err MachineStepUpRequired.
Proof.
  destruct (create_service_account plain_hex to_ascii_lowercase (RoleStore ∅ ∅ ∅) 2 7 6 9 1 s!"ci" [] (Some s!"first") None [1]%N ten thirty_two 20
    robot_tables) as [[[a token]|e] t'] eqn:E; [|vm_compute in E; discriminate].
  exists a, token, t'. split; [reflexivity|].
  exact (proj2 (first_key_needs_no_step_up plain_hex to_ascii_lowercase plain_hex_ascii (RoleStore ∅ ∅ ∅) 2 7 6 9 1 s!"ci" [] s!"first" [1]%N ten
    thirty_two 20 robot_tables t' a token robot_ok eq_refl eq_refl E) 10%N s!"second" None ten thirty_two).
Defined.

Lemma refused_role_leaves_the_account_witness :
  exists a, a ∈ mt_accounts (snd (create_service_account plain_hex to_ascii_lowercase (RoleStore ∅ ∅ ∅) 2 7 6 9 1 s!"ci" [] None (Some 3%N) [1]%N ten thirty_two
    20 robot_tables)) /\ sa_id a = 6%N.
Proof.
  destruct (create_service_account plain_hex to_ascii_lowercase (RoleStore ∅ ∅ ∅) 2 7 6 9 1 s!"ci" [] None (Some 3%N) [1]%N ten thirty_two
    20 robot_tables) as [r t'] eqn:E.
  assert (r = Err (MachineRole RoleNotFound)) as -> by (apply (f_equal fst) in E; vm_compute in E; symmetry; exact E).
  exact (proj1 (refused_role_leaves_the_account plain_hex to_ascii_lowercase (RoleStore ∅ ∅ ∅) 2 7 6 9 1 s!"ci" [] None (Some 3%N) [1]%N ten thirty_two
    20 robot_tables t' RoleNotFound E)).
Defined.
End JsonWitnesses.
