(* ===== verification/Guards.v ===== *)
(** * Route guards: [apps/api/src/guards.rs]

    The layer in front of a guarded route: which of the three credentials a request is judged by, the
    permission it is asked for, the caller the handler is given, and the caller a refusal is filed
    under.  Ids of accounts are integers in [Sessions] and numbers in the permission tables.  The text of
    a refusal, the name shown in the log and the writing of the log are not modelled. *)

From S2P Require Import Prelude Json Networks RateLimit AccountPolicy SignIn Sessions Roles Bindings Hierarchy PolicyEngine Policies ApiKeys ServiceAccounts.

Inductive guard_kind := SessionOnly | SessionOrMachine | SessionOrDeveloperKey.

Record machine_principal := MachinePrincipal {
  mp_account : subject;
  mp_organization_id : uuid;
  mp_key_id : uuid;
  mp_key_prefix : option str
}.
Inductive caller := CallerSession (session : current_session) | CallerMachine (machine : machine_principal).

Record resolved_principal := ResolvedPrincipal {
  rp_user_id : option uuid;
  rp_api_key_id : option uuid;
  rp_api_key_prefix : option str;
  rp_organization_id : option uuid;
  rp_permission : option str
}.

Inductive guard_error := SessionRefused (e : session_error) | PermissionDenied | ScopeMissing | InvalidMachineKey | Unauthenticated_ | GuardStore (e : permissions_error).

Section Guards.
Context `{J : JsonNumber} (sha256_hex : str -> str) (show_uuid : uuid -> str).

(** The tables a guard reads; the bindings are those the machine routes write. *)
Record world := World {
  w_sessions : session_tables;
  w_keys : list api_key;
  w_machines : machine_tables;
  w_roles : role_store;
  w_members : list (uuid * uuid);
  w_policies : policy_store;
  w_attributes : uuid -> option value
}.
Definition iam_of (w : world) : iam_db := IamDb (w_roles w) (mt_bindings (w_machines w)) (w_members w) (w_policies w) (w_attributes w).
Definition with_keys (l : list api_key) (w : world) : world :=
  World (w_sessions w) l (w_machines w) (w_roles w) (w_members w) (w_policies w) (w_attributes w).

Definition uuid_of (id : Z) : uuid := Z.to_N id.
Definition scope_of (a : account) : scope := match a_organization_id a with Some o => Organization (uuid_of o) | None => Global end.

Definition nobody (permission : str) : resolved_principal := ResolvedPrincipal None None None None (Some permission).
Definition session_principal (c : current_session) (permission : str) : resolved_principal :=
  ResolvedPrincipal (Some (uuid_of (a_id (cu_account c)))) None None (uuid_of <$> a_organization_id (cu_account c)) (Some permission).
Definition machine_principal_of (m : machine_principal) (permission : str) : resolved_principal :=
  ResolvedPrincipal None (Some (mp_key_id m)) (mp_key_prefix m) (Some (mp_organization_id m)) (Some permission).

Definition answer : Type := result caller (guard_error * option resolved_principal).

(** The branch of a session: no other credential of the request is read. *)
Definition check_session (now : Z) (h : headers) (permission : str) (w : world) : answer :=
  match resolve_current sha256_hex now h (w_sessions w) with
  | Err e => Err (SessionRefused e, Some (nobody permission))
  | Ok c =>
      match authorize_subject show_uuid (iam_of w) now (User (uuid_of (a_id (cu_account c)))) (context_from_scope (scope_of (cu_account c))) permission with
      | Err e => Err (GuardStore e, None)
      | Ok (Allowed _) => Ok (CallerSession c)
      | Ok (Denied _ _) => Err (PermissionDenied, Some (session_principal c permission))
      end
  end.

Definition developer_principal (k : api_key) : machine_principal :=
  MachinePrincipal (User (default 0%N (ak_created_by k))) (ak_organization_id k) (ak_id k) (Some (ak_key_prefix k)).
Definition check_developer_key (now : Z) (bearer permission : str) (w : world) : option answer * world :=
  match authenticate sha256_hex bearer now (w_keys w) with
  | (None, l) => (None, with_keys l w)
  | (Some k, l) =>
      (Some (if existsb (fun scope => str_eqb scope permission) (ak_scopes k) then Ok (CallerMachine (developer_principal k))
             else Err (ScopeMissing, Some (machine_principal_of (developer_principal k) permission))), with_keys l w)
  end.

Definition machine_caller (a : service_account) (k : service_account_key) : machine_principal :=
  MachinePrincipal (ServiceAccount (sa_id a)) (sa_organization_id a) (mk_id k) (Some (mk_prefix k)).
Definition check_machine (now : Z) (bearer permission : str) (w : world) : answer :=
  match machine_authenticate sha256_hex bearer now (w_machines w) with
  | None => Err (InvalidMachineKey, None)
  | Some (a, k) =>
      let context := context_from_scope (Organization (sa_organization_id a)) in
      match authorize_subject show_uuid (iam_of w) now (ServiceAccount (sa_id a)) context permission with
      | Ok (Allowed _) => Ok (CallerMachine (machine_caller a k))
      | Ok (Denied _ _) => Err (PermissionDenied, Some (machine_principal_of (machine_caller a k) permission))
      | Err e => Err (GuardStore e, Some (machine_principal_of (machine_caller a k) permission))
      end
  end.

(** [check_kind_reporting]. *)
Definition check_kind (now : Z) (h : headers) (permission : str) (kind : guard_kind) (w : world) : answer * world :=
  if is_given (session_token h) then (check_session now h permission w, w)
  else
    let refused := Err (Unauthenticated_, Some (nobody permission)) in
    match kind, bearer_token h with
    | SessionOrDeveloperKey, Some bearer =>
        let '(found, w) := check_developer_key now bearer permission w in (default refused found, w)
    | SessionOrMachine, Some bearer => (check_machine now bearer permission w, w)
    | _, _ => (refused, w)
    end.

(** What the layer files a request under. *)
Definition principal_of (a : answer) (permission : str) : resolved_principal :=
  match a with
  | Ok (CallerSession c) => session_principal c permission
  | Ok (CallerMachine m) => machine_principal_of m permission
  | Err (_, Some p) => p
  | Err (_, None) => nobody permission
  end.
End Guards.

(** ** Who gets through *)

Section Entitled.
Context `{J : JsonNumber} (sha256_hex : str -> str) (show_uuid : uuid -> str).
Context (hex_ascii : forall s, Forall (fun c => (c < 128)%N) (sha256_hex s)).

Definition permitted (now : Z) (s : subject) (scope : scope) (permission : str) (w : world) : Prop :=
  exists g, authorize_subject show_uuid (iam_of w) now s (context_from_scope scope) permission = Ok (Allowed g).

(** What each kind of caller stands on. *)
Inductive entitled (now : Z) (h : headers) (permission : str) (w : world) : guard_kind -> caller -> Prop :=
| entitled_session kind c :
    session_token h = Some (cu_token c) -> cu_session c ∈ sb_sessions (w_sessions w) -> cu_account c ∈ sb_accounts (w_sessions w) ->
    se_token_hash (cu_session c) = sha256_hex (cu_token c) -> se_user_id (cu_session c) = a_id (cu_account c) ->
    ended now (cu_session c) = false -> is_active (cu_account c) = true ->
    permitted now (User (uuid_of (a_id (cu_account c)))) (scope_of (cu_account c)) permission w ->
    entitled now h permission w kind (CallerSession c)
| entitled_developer_key k bearer :
    session_token h = None -> bearer_token h = Some bearer -> k ∈ w_keys w -> ak_key_hash k = sha256_hex bearer ->
    key_is_active_at k now = true -> permission ∈ ak_scopes k ->
    entitled now h permission w SessionOrDeveloperKey (CallerMachine (developer_principal k))
| entitled_machine a k bearer secret :
    session_token h = None -> bearer_token h = Some bearer -> k ∈ mt_keys (w_machines w) -> a ∈ mt_accounts (w_machines w) ->
    mk_account_id k = sa_id a -> split_token bearer = Some (mk_prefix k, secret) -> mk_secret_hash k = sha256_hex secret ->
    account_is_active_at a now = true -> machine_key_is_active_at k now = true ->
    permitted now (ServiceAccount (sa_id a)) (Organization (sa_organization_id a)) permission w ->
    entitled now h permission w SessionOrMachine (CallerMachine (machine_caller a k)).

Lemma resolve_session_some now token accounts policies l s a :
  resolve_session sha256_hex now token accounts policies l = Some (s, a) ->
  s ∈ l /\ a ∈ accounts /\ se_user_id s = a_id a /\ resolves now (sha256_hex token) policies a s = true.
Proof.
  unfold resolve_session, hash_token. destruct (List.find _ l) as [s'|] eqn:Es; [|done]. cbn [mbind option_bind].
  destruct (List.find _ accounts) as [a'|] eqn:Ea; [|done]. intros [= <- <-]. apply find_some in Es as [Hs%list_elem_of_In H].
  rewrite Ea in H. apply find_some in Ea as [Ha%list_elem_of_In E%Z.eqb_eq]. done.
Qed.

Lemma resolves_not_ended now h policies a s : resolves now h policies a s = true -> ended now s = false /\ is_active a = true /\ se_token_hash s = h.
Proof.
  unfold resolves, ended, unrevoked. rewrite !andb_true_iff, str_eqb_eq. intros [[[[[Hh Hu] Hx] Ha] _] Hact]. split_and!; [|done|done].
  apply negb_true_iff in Hu. rewrite Hu. cbn [orb]. replace (se_expires_at s <=? now) with false by lia. cbn [orb].
  destruct (se_absolute_expires_at s); [lia|done].
Qed.

(** C3. A guarded handler runs for the entitled and for nobody else: for a session that has not ended of
    an account that is active and allowed, for a live developer key that carries the permission where
    such keys are taken, for a live key of a live service account that is allowed where those are
    taken, and, when there is a session cookie, for its session alone. *)
Theorem guard_admits_only_the_entitled (now : Z) (h : headers) (permission : str) (kind : guard_kind) (w : world) (c : caller) :
  fst (check_kind sha256_hex show_uuid now h permission kind w) = Ok c -> entitled now h permission w kind c.
Proof.
  unfold check_kind. destruct (session_token h) as [token|] eqn:Et; cbn [is_given].
  - cbn [fst]. unfold check_session, resolve_current. rewrite Et. cbn [ok_or result_bind].
    destruct (resolve_session _ _ _ _ _ _) as [[s a]|] eqn:Er; cbn [ok_or result_bind]; [|done]. cbn [fst snd cu_account].
    apply resolve_session_some in Er as (Hs & Ha & Hu & (He & Hact & Hh)%resolves_not_ended).
    destruct (authorize_subject _ _ _ _ _ _) as [[g|r src]|e] eqn:Ed; [|done|done]. intros [= <-].
    apply entitled_session; cbn; try done. by exists g.
  - destruct kind; [done| |]; (destruct (bearer_token h) as [bearer|] eqn:Eb; [|done]).
    + cbn [fst]. unfold check_machine. destruct (machine_authenticate _ _ _ _) as [[a k]|] eqn:Em; [|done].
      apply machine_authenticate_some in Em as (Hk & Ha & H1 & H2 & secret & Hs & Hh); [|done].
      apply find_account_id in Ha as [Hid Ha]. destruct (authorize_subject _ _ _ _ _ _) as [[g|r src]|e] eqn:Ed; [|done|done].
      intros [= <-]. eapply entitled_machine; try done. by exists g.
    + unfold check_developer_key. destruct (authenticate _ _ _ _) as [[k|] l] eqn:Ea; [|done]. cbn [fst default].
      pose proof (f_equal fst Ea) as Hk. cbn [fst] in Hk. apply authenticate_some in Hk as (Hk & Hact & Hh); [|done].
      destruct (existsb _ _) eqn:Ex; [|done]. intros [= <-]. apply existsb_elem in Ex as (x & Hx & <-%str_eqb_eq).
      by eapply entitled_developer_key.
Qed.

(** A cookie decides: with a session token in the request, no bearer token changes the answer, and
    neither does the kind of the guard. *)
Theorem cookie_decides (now : Z) (h h' : headers) (permission : str) (kind : guard_kind) (w : world) (token : str) :
  session_token h = Some token -> session_token h' = Some token ->
  check_kind sha256_hex show_uuid now h' permission kind w = check_kind sha256_hex show_uuid now h permission SessionOnly w.
Proof.
  intros H H'. unfold check_kind. rewrite H, H'. cbn [is_given]. f_equal. unfold check_session, resolve_current. by rewrite H, H'.
Qed.

(** A session that has ended opens nothing: whatever happens to the tables afterwards, a request
    with its cookie is refused by every guard, for every permission, whatever else it carries. *)
Theorem ended_session_opens_nothing (t : session_tables) (es : list session_event) (s : session) (token : str) (now now' : Z) (h : headers)
    (permission : str) (kind : guard_kind) (w : world) :
  rows_ok (sb_sessions t) -> s ∈ sb_sessions t -> se_token_hash s = sha256_hex token -> ended now s = true -> now <= now' ->
  w_sessions w = session_steps sha256_hex t es -> session_token h = Some token ->
  fst (check_kind sha256_hex show_uuid now' h permission kind w) = Err (SessionRefused InvalidSession, Some (nobody permission)).
Proof.
  intros R Hs Hh He Hn Hw Ht. unfold check_kind. rewrite Ht. cbn [is_given fst]. unfold check_session, resolve_current. rewrite Ht, Hw.
  cbn [ok_or result_bind]. destruct (steps_grow sha256_hex es t R) as [R' G]. destruct (G s Hs) as (s' & Hs' & L).
  rewrite (ended_not_resolved sha256_hex now' token _ _ _ s'); [done|done|done| |by apply (ended_later now now' s)].
  destruct L as (_ & _ & -> & _). done.
Qed.

(** Every refusal of a caller that is known names it: the account or the key, with the organization of
    the key, and the permission that was asked for. *)
Theorem refusals_name_the_caller (now : Z) (h : headers) (permission : str) (kind : guard_kind) (w : world) (e : guard_error)
    (p : option resolved_principal) :
  fst (check_kind sha256_hex show_uuid now h permission kind w) = Err (e, p) -> e = PermissionDenied \/ e = ScopeMissing ->
  exists who, p = Some who /\ rp_permission who = Some permission
  /\ (is_given (rp_user_id who) = true \/ is_given (rp_api_key_id who) = true /\ is_given (rp_organization_id who) = true).
Proof.
  unfold check_kind. destruct (session_token h) as [token|] eqn:Et; cbn [is_given].
  - cbn [fst]. unfold check_session. destruct (resolve_current _ _ _ _) as [c|]; [|intros [= <- <-]; by intros [?|?]].
    destruct (authorize_subject _ _ _ _ _ _) as [[g|r src]|e']; [done| |intros [= <- <-]; by intros [?|?]].
    intros [= <- <-] _. eexists. split; [done|]. split; [done|by left].
  - destruct kind; [intros [= <- <-]; by intros [?|?]| |]; (destruct (bearer_token h) as [bearer|]; [|intros [= <- <-]; by intros [?|?]]).
    + cbn [fst]. unfold check_machine. destruct (machine_authenticate _ _ _ _) as [[a k]|]; [|intros [= <- <-]; by intros [?|?]].
      destruct (authorize_subject _ _ _ _ _ _) as [[g|r src]|e']; [done| |]; intros [= <- <-] _; eexists; split; [done| |done|]; (split; [done|by right]).
    + unfold check_developer_key. destruct (authenticate _ _ _ _) as [[k|] l]; cbn [fst default]; [|intros [= <- <-]; by intros [?|?]].
      destruct (existsb _ _); [done|]. intros [= <- <-] _. eexists. split; [done|]. split; [done|by right].
Qed.
End Entitled.

(** ** From the making of a key to the routes it opens *)

Section Delegated.
Context `{J : JsonNumber} (sha256_hex lower : str -> str) (show_uuid : uuid -> str).
Context (hex_ascii : forall s, Forall (fun c => (c < 128)%N) (sha256_hex s)).

(** C6. A minted key opens exactly what was delegated: as long as no two keys drew the same prefix, and
    whatever happens to the table of keys, a request with the token and no session cookie is let
    through a guard for developer keys if and only if the row is neither revoked nor run out and the
    permission is one of its scopes, and each scope is a permission of the catalogue that the bindings
    of the maker allowed when the key was made. *)
Theorem minted_key_opens_what_was_delegated (iam : iam_db) (user : uuid) (organization : option uuid) (id : uuid) (name environment : str)
    (scopes : list str) (expires_at : option instant) (user_name : str) (made now : instant) (pb sb : list N) (l l' : list api_key) (row : api_key)
    (s : secret) (es : list key_event) (h : headers) (permission : str) (w : world) :
  keys_ok l -> sb <> [] ->
  create_key sha256_hex lower iam user organization id name environment scopes expires_at user_name made pb sb l = Ok (row, s, l') ->
  w_keys w = key_steps sha256_hex lower l' es -> NoDup (ak_key_prefix <$> w_keys w) ->
  session_token h = None -> bearer_token h = Some (st_token s) ->
  (exists k, k ∈ w_keys w /\ ak_id k = ak_id row
   /\ ((exists c, fst (check_kind sha256_hex show_uuid now h permission SessionOrDeveloperKey w) = Ok c)
       <-> key_is_active_at k now = true /\ permission ∈ ak_scopes row))
  /\ (forall x, x ∈ ak_scopes row -> x ∈ Catalogue.catalogue_keys /\
      exists o e, organization = Some o /\ effective_permissions_for iam made (User user) (context_from_scope (Organization o)) = Ok e /\ allows e x = true).
Proof.
  intros R Hsb H Hw N Ht Hb. unfold create_key in H. apply result_bind_ok in H as (o & Ho%ok_or_ok & H). apply result_bind_ok in H as ([] & Hc & H).
  apply result_bind_ok in H as (e & He & H). apply result_bind_ok in H as (minted & Hm & H).
  destruct (effective_permissions_for _ _ _ _) as [e'|] eqn:Ee; [injection He as ->|done].
  apply mintable_from_ok in Hm as [-> Hheld]. rewrite scope_names_valid_ok in Hc.
  apply create_api_key_ok in H as (Hi & _ & Hsec & Hid & Hsc & Hh & Hp & _). cbn [nk_scopes nk_environment] in *. split.
  - destruct (grows_insert_key _ _ _ _ Hi R) as [R' _]. apply insert_key_ok in Hi as (-> & _).
    destruct (key_steps_grow sha256_hex lower es _ R') as [_ G]. destruct (G row) as (k & Hk & L); [apply elem_of_app; right; apply list_elem_of_here|].
    exists k. rewrite <- Hw in Hk. destruct L as (L1 & L2 & L3 & L4 & L5 & _). split_and!; [done|done|].
    unfold check_kind. rewrite Ht, Hb. cbn [is_given]. unfold check_developer_key.
    assert (fst (authenticate sha256_hex (st_token s) now (w_keys w)) = if key_is_active_at k now then Some k else None) as Ha.
    { subst s. apply (authenticate_row sha256_hex hex_ascii environment pb sb); [done|done|done|congruence|congruence]. }
    destruct (authenticate _ _ _ _) as [found l2]. cbn [fst] in Ha. subst found. rewrite <- L5.
    destruct (key_is_active_at k now); cbn [fst default]; [|by split; [intros [c E]|intros [? _]]].
    destruct (existsb _ _) eqn:Ex.
    + split; [intros _|by eexists]. split; [done|]. by apply existsb_elem in Ex as (x & Hx & <-%str_eqb_eq).
    + split; [by intros [c E]|]. intros [_ Hin]. exfalso. apply not_true_iff_false in Ex. apply Ex, existsb_elem. exists permission.
      split; [done|apply str_eqb_refl].
  - intros x Hx. rewrite Hsc in Hx. apply dedupe_scopes_elem in Hx as (Hne & raw & Hraw & <-).
    assert (trim raw = raw) as -> by (apply dedupe_scopes_elem in Hraw as (_ & r & _ & <-); apply trim_trim).
    split; [by apply Hc|]. exists o, e. split_and!; [done|done|]. by apply granted_keys_elem, Hheld.
Qed.

(** The rights of the maker are read when a key is made and never again: the answer to a request with
    a developer key is the same whatever the roles, the bindings, the policies and the sessions have
    become since. *)
Theorem key_outlives_the_rights_of_its_maker (now : Z) (h : headers) (permission : str) (w w' : world) :
  session_token h = None -> w_keys w' = w_keys w ->
  fst (check_kind sha256_hex show_uuid now h permission SessionOrDeveloperKey w')
  = fst (check_kind sha256_hex show_uuid now h permission SessionOrDeveloperKey w).
Proof.
  intros Ht Hk. unfold check_kind. rewrite Ht. cbn [is_given]. destruct (bearer_token h) as [bearer|]; [|done].
  unfold check_developer_key. rewrite Hk. by destruct (authenticate _ _ _ _) as [[k|] l].
Qed.

(** A guard for developer keys does not fall through: a live key of a service account, for a permission
    it is allowed, is answered there as though nothing had been sent. *)
Theorem machine_key_is_not_tried_for_a_developer_route (now : Z) (h : headers) (permission bearer : str) (w : world) :
  session_token h = None -> bearer_token h = Some bearer -> (forall k, k ∈ w_keys w -> ak_key_hash k <> sha256_hex bearer) ->
  fst (check_kind sha256_hex show_uuid now h permission SessionOrDeveloperKey w) = Err (Unauthenticated_, Some (nobody permission)).
Proof.
  intros Ht Hb Hk. unfold check_kind. rewrite Ht, Hb. cbn [is_given]. unfold check_developer_key.
  destruct (authenticate _ _ _ _) as [[k|] l] eqn:E; [|done]. apply (f_equal fst) in E. cbn [fst] in E.
  apply authenticate_some in E as (Hin & _ & Hh); [|done]. by destruct (Hk k Hin).
Qed.
End Delegated.

(** ** Witnesses *)

Section Witnesses.
#[local] Existing Instance Z_number.

Definition bearer_of (token : str) : headers := fun name => if str_eqb name s!"authorization" then [Some (s!"Bearer " ++ token)] else [].
Definition signed_in : session_tables :=
  session_steps plain_hex empty_tables [SignedIn 100 11 minute_0 ada s!"aaaa" (Some s!"curl/8") [s!"password"]].
Definition some_world : world :=
  World signed_in [ci_row] (MachineTables [robot] [MachineKey 9 5 (random_chars ten) (plain_hex (random_chars thirty_two)) [] None None None 20]
    [owner_row 1 1; BindingRow 2 1 s!"service_account" 5 None s!"organization" (Some 7%N) None None None None None None 0])
    (db_roles sample_db) [] (PolicyStore [] []) (fun _ => None).
Definition machine_token : str := TOKEN_NAMESPACE ++ s!"_" ++ random_chars ten ++ s!"_" ++ random_chars thirty_two.

Lemma guard_admits_only_the_entitled_witness :
  exists c, fst (check_kind plain_hex show_N 20 (bearer_of s!"omndev_live_bc_de") s!"content.pages.read" SessionOrDeveloperKey some_world) = Ok c
  /\ entitled plain_hex show_N 20 (bearer_of s!"omndev_live_bc_de") s!"content.pages.read" some_world SessionOrDeveloperKey c.
Proof.
  destruct (fst (check_kind plain_hex show_N 20 (bearer_of s!"omndev_live_bc_de") s!"content.pages.read" SessionOrDeveloperKey some_world)) as [c|] eqn:E;
    [|vm_compute in E; discriminate].
  exists c. split; [reflexivity|].
  exact (guard_admits_only_the_entitled plain_hex show_N plain_hex_ascii 20 _ _ SessionOrDeveloperKey some_world c E).
Defined.

(** The other two ways in, on the same tables. *)
Example machine_gets_in :
  is_ok (fst (check_kind plain_hex show_N 20 (bearer_of machine_token) s!"content.pages.read" SessionOrMachine some_world)) = true.
Proof. vm_compute. reflexivity. Qed.
Example session_gets_in :
  is_ok (fst (check_kind plain_hex show_N (minute_0 + 9) (cookies [Some s!"omnion_session=aaaa"]) s!"content.pages.read" SessionOnly some_world)) = true.
Proof. vm_compute. reflexivity. Qed.

Lemma cookie_decides_witness :
  check_kind plain_hex show_N (minute_0 + 9) (cookies [Some s!"omnion_session=aaaa"]) s!"content.pages.read" SessionOrMachine some_world
  = check_kind plain_hex show_N (minute_0 + 9) (cookies [Some s!"omnion_session=aaaa"]) s!"content.pages.read" SessionOnly some_world.
Proof. apply (cookie_decides plain_hex show_N _ _ _ _ SessionOrMachine some_world s!"aaaa"); vm_compute; reflexivity. Defined.

Lemma ended_session_opens_nothing_witness :
  let t := session_step plain_hex signed_in (PasswordReset (minute_0 + 9) 1) in
  fst (check_kind plain_hex show_N (minute_0 + 10) (cookies [Some s!"omnion_session=aaaa"]) s!"content.pages.read" SessionOrMachine
    (World t [] (MachineTables [] [] []) (RoleStore ∅ ∅ ∅) [] (PolicyStore [] []) (fun _ => None)))
  = Err (SessionRefused InvalidSession, Some (nobody s!"content.pages.read")).
Proof.
  intros t. apply (ended_session_opens_nothing plain_hex show_N t [] (the_session 11 t) s!"aaaa" (minute_0 + 9) (minute_0 + 10)).
  - split; apply (bool_decide_unpack _); vm_compute; exact I.
  - apply (bool_decide_unpack _). vm_compute. exact I.
  - vm_compute. reflexivity.
  - vm_compute. reflexivity.
  - lia.
  - reflexivity.
  - vm_compute. reflexivity.
Defined.

Lemma refusals_name_the_caller_witness :
  exists who, fst (check_kind plain_hex show_N 20 (bearer_of s!"omndev_live_bc_de") s!"content.pages.manage" SessionOrDeveloperKey some_world)
    = Err (ScopeMissing, Some who) /\ rp_permission who = Some s!"content.pages.manage".
Proof.
  destruct (fst (check_kind plain_hex show_N 20 (bearer_of s!"omndev_live_bc_de") s!"content.pages.manage" SessionOrDeveloperKey some_world)) as [c|[e p]] eqn:E;
    [vm_compute in E; discriminate|].
  assert (e = ScopeMissing) as -> by (vm_compute in E; injection E as <- _; reflexivity).
  destruct (refusals_name_the_caller plain_hex show_N 20 _ _ _ some_world ScopeMissing p E (or_intror eq_refl)) as (who & -> & Hp & _).
  exists who. split; [reflexivity|exact Hp].
Defined.

Lemma key_outlives_the_rights_of_its_maker_witness :
  is_ok (fst (check_kind plain_hex show_N 20 (bearer_of s!"omndev_live_bc_de") s!"content.pages.read" SessionOrDeveloperKey
    (World empty_tables [ci_row] (MachineTables [] [] []) (RoleStore ∅ ∅ ∅) [] (PolicyStore [] []) (fun _ => None)))) = true.
Proof.
  rewrite (key_outlives_the_rights_of_its_maker plain_hex show_N 20 (bearer_of s!"omndev_live_bc_de") s!"content.pages.read" some_world
    (World empty_tables [ci_row] (MachineTables [] [] []) (RoleStore ∅ ∅ ∅) [] (PolicyStore [] []) (fun _ => None)) eq_refl eq_refl).
  vm_compute. reflexivity.
Defined.

Lemma machine_key_is_not_tried_for_a_developer_route_witness :
  fst (check_kind plain_hex show_N 20 (bearer_of machine_token) s!"content.pages.read" SessionOrDeveloperKey some_world)
  = Err (Unauthenticated_, Some (nobody s!"content.pages.read")).
Proof.
  apply (machine_key_is_not_tried_for_a_developer_route plain_hex show_N plain_hex_ascii 20 _ _ machine_token); [vm_compute; reflexivity..|].
  intros k Hk%list_elem_of_singleton. subst k. vm_compute. discriminate.
Defined.

Lemma minted_key_opens_what_was_delegated_witness :
  exists row s l', create_key plain_hex to_ascii_lowercase frozen_db 2 (Some 7%N) 1 s!"reader" s!"live" [s!"content.pages.read"] None s!"Ada" 10
    [1; 2]%N [3; 4]%N [] = Ok (row, s, l')
  /\ exists k, k ∈ l' /\ ((exists c, fst (check_kind plain_hex show_N 30 (bearer_of (st_token s)) s!"content.pages.read" SessionOrDeveloperKey
         (with_keys l' some_world)) = Ok c) <-> key_is_active_at k 30 = true /\ s!"content.pages.read" ∈ ak_scopes row).
Proof.
  destruct (create_key plain_hex to_ascii_lowercase frozen_db 2 (Some 7%N) 1 s!"reader" s!"live" [s!"content.pages.read"] None s!"Ada" 10
    [1; 2]%N [3; 4]%N []) as [[[row s] l']|] eqn:E; [|vm_compute in E; discriminate].
  exists row, s, l'. split; [reflexivity|].
  destruct (minted_key_opens_what_was_delegated plain_hex to_ascii_lowercase show_N plain_hex_ascii frozen_db 2 (Some 7%N) 1 s!"reader" s!"live"
    [s!"content.pages.read"] None s!"Ada" 10 30 [1; 2]%N [3; 4]%N [] l' row s [] (bearer_of (st_token s)) s!"content.pages.read" (with_keys l' some_world))
    as [(k & Hk & _ & Hiff) _].
  - split; apply NoDup_nil; exact I.
  - discriminate.
  - exact E.
  - reflexivity.
  - vm_compute in E. injection E as <- <- <-. apply NoDup_singleton.
  - vm_compute. reflexivity.
  - vm_compute in E. injection E as <- <- <-. vm_compute. reflexivity.
  - exists k. split; [exact Hk|exact Hiff].
Defined.
End Witnesses.
