(* ===== verification/Approvals.v ===== *)
(** * Permission requests and the windows an approval grants: [crates/permissions/src/approvals.rs] and
      [apps/api/src/routes/iam_approvals.rs]

    Asking, deciding and lapsing, the generated role of a permission, and the binding an approval
    writes.  The check and the transaction of a decision are two steps here, since two approvers may be
    between them at once.  Instants are microseconds; generated ids are arguments.  Audit rows, events
    and the counts of the inbox are not modelled. *)

From S2P Require Import Prelude Json Roles Hierarchy Bindings Catalogue.

Definition MIN_GRANT_MINUTES : Z := 5.
Definition MAX_GRANT_MINUTES : Z := 43200.
Definition GRANT_ROLE_PRIORITY : Z := 100.
Definition window (m : Z) : Z := m * 60000000.

Inductive request_status := Pending | Approved | Rejected | Lapsed.
#[export] Instance request_status_eq_dec : EqDecision request_status.
Proof. solve_decision. Defined.
Definition request_status_str (s : request_status) : str :=
  match s with Pending => s!"pending" | Approved => s!"approved" | Rejected => s!"rejected" | Lapsed => s!"expired" end.

Record permission_request := PermissionRequest {
  rq_id : uuid;
  rq_organization_id : uuid;
  rq_requester_id : uuid;
  rq_permission_key : str;
  rq_resource_type : option str;
  rq_resource_id : option str;
  rq_justification : str;
  rq_status : request_status;
  rq_decided_by : option uuid;
  rq_decided_at : option instant;
  rq_decision_note : option str;
  rq_grant_minutes : option Z;
  rq_binding_id : option uuid;
  rq_created_at : instant
}.
#[export] Instance permission_request_eq_dec : EqDecision permission_request.
Proof. solve_decision. Defined.

Record new_request := NewRequest { nq_permission_key : str; nq_resource_type : option str; nq_resource_id : option str; nq_justification : str }.
Record approval_decision := ApprovalDecision { ad_approve : bool; ad_grant_minutes : option Z; ad_note : str }.

Inductive approval_error := UnknownKey (key : str) | LongJustification | UnknownResource (kind : str) | HalfResource | NoWindow | WindowRange
  | RequestNotFound | RequestAlreadyDecided | UnknownStatus | InvalidDecision | ApprovalCrossOrganization | ApprovalDatabase
  | ApprovalRole (e : permissions_error).

(** ** Asking *)

Definition resource_of (new : new_request) : result (option str * option str) approval_error :=
  match trim <$> nq_resource_type new, trim <$> nq_resource_id new with
  | Some kind, Some pattern =>
      if negb (str_eqb kind []) && negb (str_eqb pattern [])
      then refuse negb (str_eqb kind s!"path") with UnknownResource kind in Ok (Some kind, Some pattern)
      else Err HalfResource
  | None, None => Ok (None, None)
  | _, _ => Err HalfResource
  end.
Definition request (id organization requester : uuid) (now : instant) (new : new_request) (l : list permission_request) :
  result (permission_request * list permission_request) approval_error :=
  let key := trim (nq_permission_key new) in
  require is_known key else UnknownKey key in
  let justification := trim (nq_justification new) in
  refuse (500 <? length justification)%nat with LongJustification in
  let? resource := resource_of new in
  let r := PermissionRequest id organization requester key (fst resource) (snd resource) justification Pending None None None None None now in
  refuse existsb (fun r => rq_id r =? id)%N l with ApprovalDatabase in
  Ok (r, l ++ [r]).

(** ** The role of a permission *)

(** [last_dash] holds right after a separator. *)
Fixpoint sanitized (last_dash : bool) (s : str) : str :=
  match s with
  | [] => []
  | c :: s =>
      if is_ascii_lowercase c || is_ascii_digit c then c :: sanitized false s
      else if last_dash then sanitized true s else c!"-" :: sanitized true s
  end.
Definition grant_role_key (permission_key : str) : str := trim_end_by (N.eqb c!"-") (s!"grant-" ++ sanitized true permission_key).

Section Approvals.
Context `{J : JsonNumber} (to_lowercase : str -> str).

Definition find_role_by_key (st : role_store) (organization : option uuid) (key : str) : option role :=
  List.find (fun r => str_eqb (role_key r) key && bool_decide (organization_id r = organization)) (snd <$> map_to_list (st_roles st)).

Definition set_role_permissions (st : role_store) (id : uuid) (now : instant) (entries : list role_permission) : result role_store permissions_error :=
  let? r := ok_or (find_role st id) RoleNotFound in
  refuse is_system r with SystemRole in
  match List.find (fun e => negb (is_known (rp_key e))) entries with
  | Some e => Err (UnknownPermission (rp_key e))
  | None =>
      let validated : gmap str entry_effect := foldl (fun m e => <[rp_key e := rp_effect e]> m) ∅ entries in
      let rows := (fun kv => RolePermission (fst kv) (snd kv)) <$> sort_by (fun a b => str_cmp (fst a) (fst b)) (map_to_list validated) in
      let r' := Role (role_id r) (organization_id r) (role_key r) (role_name r) (description r) (role_priority r) (inherits_role_id r)
                  (inherit_permissions r) (is_system r) (role_created_at r) now in
      Ok (RoleStore (<[id := r']> (st_roles st)) (<[id := rows]> (st_entries st)) (st_versions st))
  end.

Definition ensure_grant_role (stand_in role : uuid) (now : instant) (organization : uuid) (key : str) (st : role_store) :
  role_store * result uuid permissions_error :=
  match find_role_by_key st (Some organization) (grant_role_key key) with
  | Some r => (st, Ok (role_id r))
  | None =>
      let new := NewRole organization (grant_role_key key) (s!"Time-boxed: " ++ key)
                   s!"Generated by an approved permission request; bound only for the approved window." GRANT_ROLE_PRIORITY None in
      match create_role to_lowercase st stand_in role now new with
      | Ok (st, r) =>
          match set_role_permissions st (role_id r) now [RolePermission key Allow] with
          | Ok st => (st, Ok (role_id r))
          | Err e => (st, Err e)
          end
      | Err RoleKeyTaken => (st, match find_role_by_key st (Some organization) (grant_role_key key) with Some r => Ok (role_id r) | None => Err RoleNotFound end)
      | Err e => (st, Err e)
      end
  end.

(** ** Deciding *)

Record approvals := Approvals { at_requests : list permission_request; at_roles : role_store; at_bindings : rows }.
Definition with_requests (l : list permission_request) (t : approvals) : approvals := Approvals l (at_roles t) (at_bindings t).

Definition find_request (id : uuid) (l : list permission_request) : option permission_request := List.find (fun r => rq_id r =? id)%N l.

Definition decided_minutes (d : approval_decision) : result (option Z) approval_error :=
  if ad_approve d then
    let? minutes := ok_or (ad_grant_minutes d) NoWindow in
    require (MIN_GRANT_MINUTES <=? minutes) && (minutes <=? MAX_GRANT_MINUTES) else WindowRange in
    Ok (Some minutes)
  else Ok None.

(** What a decision carries from its checks to its transaction. *)
Record prepared := Prepared {
  pp_request : permission_request;
  pp_decider : uuid;
  pp_note : str;
  pp_minutes : option Z;
  pp_role : option uuid
}.

Definition prepare (stand_in role : uuid) (now : instant) (id decider : uuid) (d : approval_decision) (t : approvals) :
  result prepared approval_error * approvals :=
  match decided_minutes d with
  | Err e => (Err e, t)
  | Ok minutes =>
      match find_request id (at_requests t) with
      | None => (Err RequestNotFound, t)
      | Some r =>
          if negb (bool_decide (rq_status r = Pending)) then (Err RequestAlreadyDecided, t)
          else if ad_approve d then
            match ensure_grant_role stand_in role now (rq_organization_id r) (rq_permission_key r) (at_roles t) with
            | (roles, Ok role) => (Ok (Prepared r decider (trim (ad_note d)) minutes (Some role)), Approvals (at_requests t) roles (at_bindings t))
            | (roles, Err e) => (Err (ApprovalRole e), Approvals (at_requests t) roles (at_bindings t))
            end
          else (Ok (Prepared r decider (trim (ad_note d)) minutes None), t)
      end
  end.

Definition grant_scope (r : permission_request) : scope :=
  match rq_resource_type r, rq_resource_id r with
  | Some kind, Some pattern => Resource (Some (rq_organization_id r)) None kind pattern
  | _, _ => Organization (rq_organization_id r)
  end.

Definition decided (status : request_status) (now : instant) (p : prepared) (binding : option uuid) (r : permission_request) : permission_request :=
  PermissionRequest (rq_id r) (rq_organization_id r) (rq_requester_id r) (rq_permission_key r) (rq_resource_type r) (rq_resource_id r)
    (rq_justification r) status (Some (pp_decider p)) (Some now) (Some (pp_note p)) (pp_minutes p) binding (rq_created_at r).

(** The binding, with the primary key, the foreign key to the role and the index of live rows. *)
Definition insert_binding (id : uuid) (now : instant) (new : new_subject_binding) (roles : role_store) (t : rows) : option rows :=
  let row := new_row id now new in
  if existsb (fun r => (br_id r =? id)%N || unrevoked r && bool_decide (index_key r = index_key row)) t
     || negb (is_some (find_role roles (nb_role_id new))) then None
  else Some (t ++ [row]).

(** The bindings of the role and the account that have run out. *)
Definition retire_windows (role requester : uuid) (now : instant) (t : rows) : rows :=
  revoke_where (fun b => (br_role_id b =? role)%N && str_eqb (br_subject_type b) s!"user" && (br_subject_id b =? requester)%N && ran_out now b) now t.

(** The transaction: all of it or nothing. *)
Definition commit (binding : uuid) (now : instant) (p : prepared) (t : approvals) : result unit approval_error * approvals :=
  let r := pp_request p in
  match find_request (rq_id r) (at_requests t) with
  | None => (Err RequestNotFound, t)
  | Some stored =>
      if negb (bool_decide (rq_status stored = Pending)) then (Err RequestAlreadyDecided, t)
      else
        let close status b := update_where (fun x => rq_id x =? rq_id r)%N (decided status now p b) (at_requests t) in
        match pp_role p, pp_minutes p with
        | Some role, Some minutes =>
            let new := NewSubjectBinding role (User (rq_requester_id r)) (grant_scope r) (Some (pp_decider p)) (Some (now + window minutes)) in
            match insert_binding binding now new (at_roles t) (retire_windows role (rq_requester_id r) now (at_bindings t)) with
            | None => (Err ApprovalDatabase, t)
            | Some bindings => (Ok tt, Approvals (close Approved (Some binding)) (at_roles t) bindings)
            end
        | _, _ => (Ok tt, with_requests (close Rejected None) t)
        end
  end.

Definition decide_request (stand_in role binding : uuid) (now : instant) (id decider : uuid) (d : approval_decision) (t : approvals) :
  result unit approval_error * approvals :=
  match prepare stand_in role now id decider d t with
  | (Ok p, t) => commit binding now p t
  | (Err e, t) => (Err e, t)
  end.

(** [routes/iam_approvals.rs], [decide_approval]. *)
Definition decide_approval (organization : option uuid) (decision : str) (stand_in role binding : uuid) (now : instant) (id decider : uuid)
    (minutes : option Z) (note : str) (t : approvals) : result unit approval_error * approvals :=
  match find_request id (at_requests t) with
  | None => (Err RequestNotFound, t)
  | Some r =>
      if match organization with Some own => negb (own =? rq_organization_id r)%N | None => false end then (Err ApprovalCrossOrganization, t)
      else if str_eqb (trim decision) s!"approve" then decide_request stand_in role binding now id decider (ApprovalDecision true minutes note) t
      else if str_eqb (trim decision) s!"reject" then decide_request stand_in role binding now id decider (ApprovalDecision false minutes note) t
      else (Err InvalidDecision, t)
  end.

(** ** Lapsing and listing *)

Definition lapsed (r : permission_request) : permission_request :=
  PermissionRequest (rq_id r) (rq_organization_id r) (rq_requester_id r) (rq_permission_key r) (rq_resource_type r) (rq_resource_id r)
    (rq_justification r) Lapsed (rq_decided_by r) (rq_decided_at r) (rq_decision_note r) (rq_grant_minutes r) (rq_binding_id r) (rq_created_at r).
Definition has_lapsed (organization : uuid) (now : instant) (bindings : rows) (r : permission_request) : bool :=
  (rq_organization_id r =? organization)%N && bool_decide (rq_status r = Approved)
  && match rq_binding_id r with
     | Some b => existsb (fun row => (br_id row =? b)%N && match br_expires_at row with Some e => e <=? now | None => false end) bindings
     | None => false
     end.
Definition expire_lapsed (organization : uuid) (now : instant) (t : approvals) : approvals :=
  with_requests (update_where (has_lapsed organization now (at_bindings t)) lapsed (at_requests t)) t.

Definition status_filter (status : option str) : result (option request_status) approval_error :=
  match status with
  | None => Ok None
  | Some s =>
      if str_eqb s s!"all" then Ok None
      else match List.find (fun k => str_eqb (request_status_str k) s) [Pending; Approved; Rejected; Lapsed] with
           | Some k => Ok (Some k)
           | None => Err UnknownStatus
           end
  end.
Definition list_requests (organization : uuid) (status : option str) (requester : option uuid) (now : instant) (t : approvals) :
  result (list permission_request) approval_error * approvals :=
  let t := expire_lapsed organization now t in
  match status_filter status with
  | Err e => (Err e, t)
  | Ok k =>
      (Ok (take 200 (sort_by (fun a b => Z.compare (rq_created_at b) (rq_created_at a))
         (List.filter (fun r => (rq_organization_id r =? organization)%N
            && match k with Some k => bool_decide (rq_status r = k) | None => true end
            && match requester with Some u => (rq_requester_id r =? u)%N | None => true end) (at_requests t)))), t)
  end.

(** A role is deleted, and its bindings and the links to them with it. *)
Definition unlinked (gone : rows) (r : permission_request) : permission_request :=
  PermissionRequest (rq_id r) (rq_organization_id r) (rq_requester_id r) (rq_permission_key r) (rq_resource_type r) (rq_resource_id r)
    (rq_justification r) (rq_status r) (rq_decided_by r) (rq_decided_at r) (rq_decision_note r) (rq_grant_minutes r)
    (match rq_binding_id r with Some b => if existsb (fun row => br_id row =? b)%N gone then None else Some b | None => None end) (rq_created_at r).
Definition role_deleted (role : uuid) (now : instant) (t : approvals) : approvals :=
  match delete_role (at_roles t) role (count_live_for_role now role (at_bindings t)) with
  | Ok roles =>
      let gone := List.filter (fun b => br_role_id b =? role)%N (at_bindings t) in
      Approvals (unlinked gone <$> at_requests t) roles (List.filter (fun b => negb (br_role_id b =? role)%N) (at_bindings t))
  | Err _ => t
  end.
End Approvals.

(** ** Everything that happens, in any order

    [pool] holds the decisions that passed their checks; a commit takes one of them. *)

#[export] Instance prepared_eq_dec : EqDecision prepared.
Proof. solve_decision. Defined.

Inductive approval_event :=
  | Asked (id organization requester : uuid) (now : instant) (new : new_request)
  | Checked (stand_in role : uuid) (now : instant) (id decider : uuid) (d : approval_decision)
  | Committed (binding : uuid) (now : instant) (p : prepared)
  | InboxRead (organization : uuid) (now : instant)
  | BindingRevoked (id : uuid) (now : instant)
  | RoleDeleted (role : uuid) (now : instant).

Section Events.
Context `{J : JsonNumber} (to_lowercase : str -> str).

Definition approval_step (s : approvals * list prepared) (e : approval_event) : approvals * list prepared :=
  let '(t, pool) := s in
  match e with
  | Asked id organization requester now new =>
      match request id organization requester now new (at_requests t) with Ok (_, l) => (with_requests l t, pool) | Err _ => s end
  | Checked stand_in role now id decider d =>
      match prepare to_lowercase stand_in role now id decider d t with (Ok p, t) => (t, pool ++ [p]) | (Err _, t) => (t, pool) end
  | Committed binding now p => if bool_decide (p ∈ pool) then (snd (commit binding now p t), pool) else s
  | InboxRead organization now => (expire_lapsed organization now t, pool)
  | BindingRevoked id now => (Approvals (at_requests t) (at_roles t) (fst (revoke id now (at_bindings t))), pool)
  | RoleDeleted role now => (role_deleted role now t, pool)
  end.
Definition approval_steps (s : approvals * list prepared) (es : list approval_event) : approvals * list prepared := foldl approval_step s es.

(** What later statements leave of a request. *)
Definition same_ask (r r' : permission_request) : Prop :=
  rq_id r' = rq_id r /\ rq_organization_id r' = rq_organization_id r /\ rq_requester_id r' = rq_requester_id r
  /\ rq_permission_key r' = rq_permission_key r /\ rq_resource_type r' = rq_resource_type r /\ rq_resource_id r' = rq_resource_id r.
Definition request_later (r r' : permission_request) : Prop :=
  same_ask r r'
  /\ (rq_status r <> Pending ->
      rq_decided_by r' = rq_decided_by r /\ rq_decided_at r' = rq_decided_at r /\ rq_decision_note r' = rq_decision_note r
      /\ rq_grant_minutes r' = rq_grant_minutes r
      /\ (rq_status r' = rq_status r \/ rq_status r = Approved /\ rq_status r' = Lapsed)
      /\ (rq_binding_id r' = rq_binding_id r \/ rq_binding_id r' = None)).
#[local] Instance request_later_preorder : PreOrder request_later.
Proof.
  split; [intros r; split; [by repeat split|]; intros _; split_and!; auto|].
  intros a b c [(A1 & A2 & A3 & A4 & A5 & A6) A7] [(B1 & B2 & B3 & B4 & B5 & B6) B7]. split; [repeat split; congruence|]. intros Ha.
  destruct (A7 Ha) as (C1 & C2 & C3 & C4 & C5 & C6). assert (rq_status b <> Pending) as Hb by (destruct C5 as [->|[_ ->]]; done).
  destruct (B7 Hb) as (D1 & D2 & D3 & D4 & D5 & D6). split_and!; [congruence..| |].
  - destruct C5 as [E|[? E]]; rewrite E in D5; [done|]. right. split; [done|]. by destruct D5 as [?|[? ?]].
  - destruct D6 as [->|?]; auto.
Qed.

Definition request_ids (l : list permission_request) : Prop := NoDup (rq_id <$> l).

Lemma grows_requests p f l :
  (forall r, rq_id (f r) = rq_id r) -> (forall r, r ∈ l -> request_ids l -> p r = true -> request_later r (f r)) ->
  grows request_ids request_later l (update_where p f l).
Proof. intros Hf H. apply grows_update; [exact _| |done]. unfold request_ids. by rewrite update_where_fmap. Qed.

Lemma find_request_elem id l r : find_request id l = Some r -> r ∈ l /\ rq_id r = id.
Proof. by intros [H%list_elem_of_In E%N.eqb_eq]%find_some. Qed.

Lemma prepare_requests stand_in role now id decider d t :
  at_requests (snd (prepare to_lowercase stand_in role now id decider d t)) = at_requests t
  /\ at_bindings (snd (prepare to_lowercase stand_in role now id decider d t)) = at_bindings t.
Proof.
  unfold prepare. destruct (decided_minutes d); [|done]. destruct (find_request _ _); [|done]. destruct (negb _); [done|].
  destruct (ad_approve d); [|done]. by destruct (ensure_grant_role _ _ _ _ _ _ _) as [? [?|?]].
Qed.

Lemma request_ok id organization requester now new l r l' :
  request id organization requester now new l = Ok (r, l') ->
  l' = l ++ [r] /\ rq_id r = id /\ rq_status r = Pending /\ rq_decided_by r = None /\ rq_binding_id r = None /\ rq_grant_minutes r = None
  /\ is_known (rq_permission_key r) = true /\ rq_requester_id r = requester /\ rq_organization_id r = organization /\ (forall x, x ∈ l -> rq_id x <> id).
Proof.
  unfold request. intros [Hk H]%require_ok. apply refuse_ok in H as [_ H]. apply result_bind_ok in H as (res & _ & H).
  apply refuse_ok in H as [E [= <- <-]]. split_and!; try done. intros x Hx. by apply (proj1 (existsb_none _ _) E), N.eqb_neq in Hx.
Qed.

(** A commit closes the request it is about, and does nothing else to the requests. *)
Lemma commit_requests binding now p t :
  at_requests (snd (commit binding now p t)) = at_requests t
  \/ exists stored status b, find_request (rq_id (pp_request p)) (at_requests t) = Some stored /\ rq_status stored = Pending
     /\ at_requests (snd (commit binding now p t)) = update_where (fun x => rq_id x =? rq_id (pp_request p))%N (decided status now p b) (at_requests t).
Proof.
  unfold commit. destruct (find_request _ _) as [stored|] eqn:E; [|by left]. destruct (bool_decide (rq_status stored = Pending)) eqn:Es; cbn [negb]; [|by left].
  apply bool_decide_eq_true in Es. destruct (pp_role p) as [role|], (pp_minutes p) as [minutes|]; try (right; by eexists stored, Rejected, None).
  destruct (insert_binding _ _ _ _ _); [|by left]. right. by eexists stored, Approved, (Some binding).
Qed.

Lemma approval_step_grows s e : grows request_ids request_later (at_requests (fst s)) (at_requests (fst (approval_step s e))).
Proof.
  destruct s as [t pool], e as [id organization requester now new|stand_in role now id decider d|binding now p|organization now|id now|role now];
    cbn [approval_step fst].
  - destruct (request _ _ _ _ _ _) as [[r l]|] eqn:E; [|reflexivity]. apply request_ok in E as (-> & Hid & _ & _ & _ & _ & _ & _ & _ & Hn).
    apply grows_app; [exact _|]. unfold request_ids. intros N. rewrite fmap_app. apply NoDup_snoc; [done|].
    intros (x & E & Hx)%list_elem_of_fmap. destruct (Hn x Hx). congruence.
  - pose proof (prepare_requests stand_in role now id decider d t) as [E _]. destruct (prepare _ _ _ _ _ _ _ _) as [[p|] t']; cbn in *; by rewrite E.
  - destruct (bool_decide _); [|reflexivity]. cbn [fst].
    destruct (commit_requests binding now p t) as [->|(stored & status & b & Hf & Hs & ->)]; [reflexivity|].
    apply grows_requests; [done|]. intros r Hr N E%N.eqb_eq. apply find_request_elem in Hf as [Hst Hid].
    replace r with stored by (apply (NoDup_key_inj rq_id (at_requests t) stored r N); congruence). split; [by repeat split|by rewrite Hs].
  - apply grows_requests; [done|]. intros r _ _ H. unfold has_lapsed in H. apply andb_true_iff in H as [[_ H%bool_decide_eq_true]%andb_true_iff _].
    split; [by repeat split|]. intros _. split_and!; auto.
  - reflexivity.
  - unfold role_deleted. destruct (delete_role _ _ _); [|reflexivity]. cbn [at_requests]. intros N. split.
    + unfold request_ids in *. rewrite <- list_fmap_compose. done.
    + intros r Hr. exists (unlinked (List.filter (fun b => (br_role_id b =? role)%N) (at_bindings t)) r). split; [by apply list_elem_of_fmap_2|].
      split; [by repeat split|]. intros _. split_and!; try done; [by left|]. cbn. destruct (rq_binding_id r); [destruct (existsb _ _)|]; auto.
Qed.

Lemma approval_steps_grow es s : grows request_ids request_later (at_requests (fst s)) (at_requests (fst (approval_steps s es))).
Proof. revert s. induction es as [|e es IH]; intros s; [reflexivity|]. cbn. etrans; [apply approval_step_grows|apply IH]. Qed.

(** A request is decided once: from its decision on, who decided, when, with which note and for how
    long never change, an approval becomes nothing but a lapsed one, a refusal stays, and no other
    binding is ever put in the place of the one it granted, whatever approvers are between their
    checks and their writes. *)
Theorem decision_is_final (s : approvals * list prepared) (es : list approval_event) (r : permission_request) :
  request_ids (at_requests (fst s)) -> r ∈ at_requests (fst s) -> rq_status r <> Pending ->
  exists r', r' ∈ at_requests (fst (approval_steps s es)) /\ rq_id r' = rq_id r
  /\ rq_decided_by r' = rq_decided_by r /\ rq_decided_at r' = rq_decided_at r /\ rq_decision_note r' = rq_decision_note r
  /\ rq_grant_minutes r' = rq_grant_minutes r /\ (rq_status r' = rq_status r \/ rq_status r = Approved /\ rq_status r' = Lapsed)
  /\ (rq_binding_id r' = rq_binding_id r \/ rq_binding_id r' = None).
Proof.
  intros N Hr Hs. destruct (approval_steps_grow es s N) as [_ G]. destruct (G r Hr) as (r' & Hr' & (Hid & _) & H). exists r'.
  split; [done|]. split; [done|]. by apply H.
Qed.
End Events.

Section GrantRole.
Context `{J : JsonNumber} (to_lowercase : str -> str).

(** ** What the generated role carries *)

(** Distinct permissions have distinct generated roles. *)
Lemma grant_role_keys_distinct : NoDup (grant_role_key <$> catalogue_keys).
Proof. apply (bool_decide_eq_true_1 _). vm_cast_no_check (eq_refl true). Qed.
Lemma grant_role_key_inj key key' : is_known key = true -> is_known key' = true -> grant_role_key key = grant_role_key key' -> key = key'.
Proof.
  rewrite !is_known_keys. intros H H' E. by apply (NoDup_key_inj grant_role_key catalogue_keys key key' grant_role_keys_distinct).
Qed.

Definition plain_grant_key (key : str) : bool :=
  str_eqb (trim (grant_role_key key)) (grant_role_key key) && is_ok (validate_role_key (fun s => s) (grant_role_key key))
  && is_ok (validate_role_name (s!"Time-boxed: " ++ key)).
Lemma grant_keys_plain key : is_known key = true -> plain_grant_key key = true.
Proof. rewrite is_known_keys. revert key. apply forallb_elem. by vm_compute. Qed.

Lemma find_role_by_key_sound st organization key r :
  find_role_by_key st organization key = Some r -> exists id, st_roles st !! id = Some r /\ role_key r = key /\ organization_id r = organization.
Proof.
  intros [H%list_elem_of_In [E%str_eqb_eq Eo%bool_decide_eq_true]%andb_true_iff]%find_some.
  apply list_elem_of_fmap in H as ([id r'] & -> & Hin%elem_of_map_to_list). by exists id.
Qed.

(** What an approval hands out is the permission that was asked for and nothing else: for every key
    of the catalogue, an organization whose generated role does not exist gets one that is new, that
    belongs to the organization, that inherits from nothing and whose only entry allows that key, and
    two different permissions never share a generated role. *)
Theorem fresh_grant_carries_one_key (stand_in role : uuid) (now : instant) (organization : uuid) (key : str) (st : role_store) :
  (forall s, to_lowercase (grant_role_key s) = grant_role_key s) ->
  is_known key = true -> st_roles st !! role = None -> find_role_by_key st (Some organization) (grant_role_key key) = None ->
  exists st' r, ensure_grant_role to_lowercase stand_in role now organization key st = (st', Ok role)
  /\ st_roles st' = <[role := r]> (st_roles st) /\ role_id r = role /\ organization_id r = Some organization /\ role_key r = grant_role_key key /\ inherits_role_id r = None
  /\ st_entries st' = <[role := [RolePermission key Allow]]> (st_entries st)
  /\ (forall key', is_known key' = true -> grant_role_key key' = grant_role_key key -> key' = key).
Proof.
  intros Hlow Hk Hfresh Hnone. pose proof (grant_keys_plain key Hk) as Hp. unfold plain_grant_key in Hp.
  destruct (validate_role_name (s!"Time-boxed: " ++ key)) as [name|] eqn:En; [|by rewrite andb_false_r in Hp].
  apply andb_true_iff in Hp as [[Et%str_eqb_eq Hp]%andb_true_iff _].
  assert (validate_role_key to_lowercase (grant_role_key key) = Ok (grant_role_key key)) as Ek.
  { unfold validate_role_key in *. rewrite Et, Hlow in *. by destruct (_ && _ && _ && _ && _). }
  unfold ensure_grant_role. rewrite Hnone. unfold create_role. cbn [nr_key nr_name nr_priority nr_inherits_role_id nr_organization_id nr_description].
  rewrite Ek. cbn [result_bind]. rewrite En. cbn [result_bind]. change (validate_priority GRANT_ROLE_PRIORITY) with (@Ok _ permissions_error GRANT_ROLE_PRIORITY).
  cbn [result_bind]. set (r := Role _ _ _ _ _ _ _ _ _ _ _). unfold insert_role.
  rewrite (proj2 (existsb_none _ _)).
  2:{ intros [id x] Hx. cbn [snd organization_id role_key]. apply (List.find_none _ _) with (x := x) in Hnone; [by rewrite andb_comm|].
      apply list_elem_of_In, list_elem_of_fmap. by exists (id, x). }
  cbn [result_bind]. unfold set_role_permissions, find_role. cbn [st_roles role_id r]. rewrite lookup_insert_eq. cbn [ok_or result_bind is_system].
  cbn [List.find rp_key]. rewrite Hk. cbn [negb foldl rp_effect]. rewrite insert_empty, map_to_list_singleton. cbn [sort_by fmap list_fmap fst snd].
  do 2 eexists. split; [reflexivity|]. cbn [st_roles st_entries]. rewrite insert_insert_eq. split_and!; try done.
  intros key' Hk' E. by apply grant_role_key_inj.
Qed.

End GrantRole.

(** ** Every approval has its grant *)

(** A binding as it was before anything revoked it. *)
Definition unrevoke (r : binding_row) : binding_row :=
  BindingRow (br_id r) (br_role_id r) (br_subject_type r) (br_subject_id r) (br_user_id r) (br_scope_type r) (br_organization_id r)
    (br_site_id r) (br_resource_type r) (br_resource_id r) (br_granted_by r) (br_expires_at r) None (br_created_at r).
Lemma unrevoke_where p now t row : row ∈ t -> exists row', row' ∈ revoke_where p now t /\ br_id row' = br_id row /\ unrevoke row' = unrevoke row.
Proof. intros H. exists (if p row then set_revoked now row else row). split; [apply elem_of_revoke_where; eauto|by destruct (p row)]. Qed.
Lemma revoke_where_ids p now t : br_id <$> revoke_where p now t = br_id <$> t.
Proof. unfold revoke_where. rewrite <- list_fmap_compose. apply list_fmap_ext. intros i r _. cbn. by destruct (p r). Qed.

Definition granted_binding (role binding decider : uuid) (at_ : instant) (m : Z) (r : permission_request) : binding_row :=
  new_row binding at_ (NewSubjectBinding role (User (rq_requester_id r)) (grant_scope r) (Some decider) (Some (at_ + window m))).

(** The role [x] is the one generated for the permission and the organization of the request. *)
Definition grant_role_of (r : permission_request) (x : role) : Prop :=
  role_key x = grant_role_key (rq_permission_key r) /\ organization_id x = Some (rq_organization_id r).

Section Grant.
Context `{J : JsonNumber}.

(** An approved request has its decider, its instant and its window, and a binding of the role of its
    permission as the decision promised it; only a request whose role is among the deleted ones, [gone],
    has none. *)
Definition has_its_grant (gone : list role) (t : approvals) (r : permission_request) : Prop :=
  exists d at_ m, rq_decided_by r = Some d /\ rq_decided_at r = Some at_ /\ rq_grant_minutes r = Some m /\ MIN_GRANT_MINUTES <= m <= MAX_GRANT_MINUTES
  /\ match rq_binding_id r with
     | Some b => exists row x, row ∈ at_bindings t /\ unrevoke row = granted_binding (role_id x) b d at_ m r
                  /\ st_roles (at_roles t) !! role_id x = Some x /\ grant_role_of r x
     | None => exists x, x ∈ gone /\ grant_role_of r x
     end.

Definition state_ok (gone : list role) (t : approvals) (r : permission_request) : Prop :=
  match rq_status r with
  | Pending => rq_decided_by r = None /\ rq_binding_id r = None
  | Rejected => rq_grant_minutes r = None /\ rq_binding_id r = None
  | Approved | Lapsed => has_its_grant gone t r
  end.
(** What a decision between its check and its write carries: its request, and for an approval the role
    of the permission, which may have been deleted meanwhile. *)
Definition prepared_ok (gone : list role) (t : approvals) (p : prepared) : Prop :=
  (exists r, r ∈ at_requests t /\ same_ask (pp_request p) r)
  /\ match pp_role p, pp_minutes p with
     | Some role, Some m =>
         MIN_GRANT_MINUTES <= m <= MAX_GRANT_MINUTES
         /\ exists x, role_id x = role /\ grant_role_of (pp_request p) x /\ (st_roles (at_roles t) !! role = Some x \/ x ∈ gone)
     | None, None => True
     | _, _ => False
     end.

(** The roles of a store keep their keys and organizations. *)
Definition keyed (st : role_store) : Prop := forall id r, st_roles st !! id = Some r -> role_id r = id.
Definition keeps_roles (st st' : role_store) : Prop := forall id x, st_roles st !! id = Some x ->
  exists x', st_roles st' !! id = Some x' /\ role_id x' = role_id x /\ role_key x' = role_key x /\ organization_id x' = organization_id x.
Definition keeps_rows (l l' : rows) : Prop := forall row, row ∈ l -> exists row', row' ∈ l' /\ unrevoke row' = unrevoke row.
End Grant.

Section Granted.
Context `{J : JsonNumber} (to_lowercase : str -> str).
(** Lower-casing leaves a text of lower-case letters, digits and hyphens as it is. *)
Hypothesis Hlow : forall s, to_lowercase (grant_role_key s) = grant_role_key s.

Record approvals_ok (gone : list role) (s : approvals * list prepared) : Prop := ApprovalsOk {
  ao_ids : request_ids (at_requests (fst s));
  ao_bindings : NoDup (br_id <$> at_bindings (fst s));
  ao_states : forall r, r ∈ at_requests (fst s) -> state_ok gone (fst s) r;
  ao_own : forall r r' b, r ∈ at_requests (fst s) -> r' ∈ at_requests (fst s) -> rq_binding_id r = Some b -> rq_binding_id r' = Some b -> r = r';
  ao_pool : forall p, p ∈ snd s -> prepared_ok gone (fst s) p;
  ao_known : forall r, r ∈ at_requests (fst s) -> is_known (rq_permission_key r) = true;
  ao_keyed : keyed (at_roles (fst s));
  ao_gone : forall x, x ∈ gone -> st_roles (at_roles (fst s)) !! role_id x = None
}.

Lemma keeps_roles_refl st : keeps_roles st st.
Proof. intros id x H. by exists x. Qed.
Lemma keeps_rows_refl l : keeps_rows l l.
Proof. intros row H. by exists row. Qed.

Lemma grant_role_of_same r r' x x' : rq_permission_key r' = rq_permission_key r -> rq_organization_id r' = rq_organization_id r ->
  role_key x' = role_key x -> organization_id x' = organization_id x -> grant_role_of r x -> grant_role_of r' x'.
Proof. unfold grant_role_of. intros -> -> -> ->. done. Qed.

Lemma state_ok_mono gone gone' t t' r : keeps_rows (at_bindings t) (at_bindings t') -> keeps_roles (at_roles t) (at_roles t') ->
  gone ⊆ gone' -> state_ok gone t r -> state_ok gone' t' r.
Proof.
  intros Hrows Hroles Hgone. assert (has_its_grant gone t r -> has_its_grant gone' t' r) as H.
  { intros (d & at_ & m & H1 & H2 & H3 & H4 & H5). exists d, at_, m. do 4 (split; [done|]). destruct (rq_binding_id r) as [b|].
    - destruct H5 as (row & x & Hr & E & Hx & Hg). destruct (Hrows row Hr) as (row' & Hr' & E').
      destruct (Hroles _ _ Hx) as (x' & Hx' & Hid & Hk & Ho). exists row', x'. rewrite Hid. split_and!; [done|congruence|done|].
      by apply (grant_role_of_same r r x x').
    - destruct H5 as (x & Hx & Hg). exists x. split; [by apply Hgone|done]. }
  unfold state_ok. destruct (rq_status r); auto.
Qed.

Lemma state_binding_exists gone t r b : state_ok gone t r -> rq_binding_id r = Some b -> exists row, row ∈ at_bindings t /\ br_id row = b.
Proof.
  unfold state_ok. intros H Hb.
  assert (has_its_grant gone t r) as (d & at_ & m & _ & _ & _ & _ & Hg) by (destruct (rq_status r); try done; by destruct H; congruence).
  rewrite Hb in Hg. destruct Hg as (row & x & Hr & E & _). exists row. split; [done|]. by apply (f_equal br_id) in E.
Qed.

Lemma prepared_ok_grows gone gone' t t' p : request_ids (at_requests t) ->
  grows request_ids request_later (at_requests t) (at_requests t') ->
  (forall id x, st_roles (at_roles t) !! id = Some x -> (exists x', st_roles (at_roles t') !! id = Some x' /\ role_id x' = role_id x
     /\ role_key x' = role_key x /\ organization_id x' = organization_id x) \/ x ∈ gone') ->
  gone ⊆ gone' -> prepared_ok gone t p -> prepared_ok gone' t' p.
Proof.
  intros N G Hroles Hgone [(r & Hr & Hs) Hm]. split.
  - destruct (G N) as [_ G']. destruct (G' r Hr) as (r' & Hr' & Hl & _). exists r'. split; [done|].
    destruct Hs as (?&?&?&?&?&?), Hl as (?&?&?&?&?&?). repeat split; congruence.
  - destruct (pp_role p) as [role|], (pp_minutes p) as [m|]; try done. destruct Hm as (Hm & x & Hid & Hg & Hx). split; [done|].
    destruct Hx as [Hx|Hx]; [|exists x; split_and!; [done..|right; by apply Hgone]].
    destruct (Hroles _ _ Hx) as [(x' & Hx' & Hid' & Hk & Ho)|Hx']; [|exists x; split_and!; [done..|by right]].
    exists x'. split_and!; [congruence|by apply (grant_role_of_same (pp_request p) (pp_request p) x x')|by left].
Qed.

Lemma same_ask_scope r r' : same_ask r r' -> grant_scope r' = grant_scope r /\ rq_requester_id r' = rq_requester_id r.
Proof. intros (_ & Ho & Hr & _ & Ht & Hi). unfold grant_scope. by rewrite Ho, Ht, Hi. Qed.

Lemma decided_minutes_ok d m : decided_minutes d = Ok m ->
  match m with Some m => ad_approve d = true /\ MIN_GRANT_MINUTES <= m <= MAX_GRANT_MINUTES | None => ad_approve d = false end.
Proof.
  unfold decided_minutes. destruct (ad_approve d); [|by intros [= <-]]. intros H. apply result_bind_ok in H as (k & _ & H).
  apply require_ok in H as [[H1%Z.leb_le H2%Z.leb_le]%andb_true_iff [= <-]]. done.
Qed.

Lemma find_grant_role st organization key x : keyed st ->
  find_role_by_key st (Some organization) (grant_role_key key) = Some x ->
  st_roles st !! role_id x = Some x /\ role_key x = grant_role_key key /\ organization_id x = Some organization.
Proof. intros K (id & H & Hk & Ho)%find_role_by_key_sound. pose proof (K _ _ H) as E. by rewrite E. Qed.

(** The role of a permission, found or generated; nothing of the other roles changes. *)
Lemma ensure_grant_role_ok stand_in role now organization key st st' res : keyed st -> is_known key = true -> st_roles st !! role = None ->
  ensure_grant_role to_lowercase stand_in role now organization key st = (st', res) ->
  keeps_roles st st' /\ keyed st' /\ (forall id, id <> role -> st_roles st !! id = None -> st_roles st' !! id = None)
  /\ forall g, res = Ok g -> exists x, st_roles st' !! g = Some x /\ role_id x = g /\ role_key x = grant_role_key key
       /\ organization_id x = Some organization.
Proof.
  intros K Hk Hf H. destruct (find_role_by_key st (Some organization) (grant_role_key key)) as [x|] eqn:Ef.
  - pose proof (find_grant_role _ _ _ _ K Ef) as (Hx & Hxk & Hxo). unfold ensure_grant_role in H. rewrite Ef in H. injection H as <- <-.
    split; [apply keeps_roles_refl|]. split; [done|]. split; [done|]. intros g [= <-]. by exists x.
  - destruct (fresh_grant_carries_one_key to_lowercase stand_in role now organization key st Hlow Hk Hf Ef)
      as (st1 & x & E & Er & Hid & Ho & Hxk & _). rewrite E in H. injection H as <- <-. split_and!.
    + intros id y Hy. rewrite Er. exists y. rewrite lookup_insert_ne; [done|]. intros ->. congruence.
    + intros id y. rewrite Er, lookup_insert_Some. intros [[<- <-]|[_ Hy]]; [done|by apply K].
    + intros id Hne Hn. by rewrite Er, lookup_insert_ne.
    + intros g [= <-]. exists x. by rewrite Er, lookup_insert_eq.
Qed.

(** What a check hands to its write, and what it does to the roles. *)
Lemma prepare_ok stand_in role now id decider d t res t' : keyed (at_roles t) -> st_roles (at_roles t) !! role = None ->
  (forall r, r ∈ at_requests t -> is_known (rq_permission_key r) = true) ->
  prepare to_lowercase stand_in role now id decider d t = (res, t') ->
  keeps_roles (at_roles t) (at_roles t') /\ keyed (at_roles t')
  /\ (forall id, id <> role -> st_roles (at_roles t) !! id = None -> st_roles (at_roles t') !! id = None)
  /\ forall p, res = Ok p -> pp_request p ∈ at_requests t
       /\ match pp_role p, pp_minutes p with
          | Some role, Some m => MIN_GRANT_MINUTES <= m <= MAX_GRANT_MINUTES
              /\ exists x, role_id x = role /\ grant_role_of (pp_request p) x /\ st_roles (at_roles t') !! role = Some x
          | None, None => True
          | _, _ => False
          end.
Proof.
  intros K Hf Hknown. unfold prepare.
  assert (Hsame : keeps_roles (at_roles t) (at_roles t) /\ keyed (at_roles t)
            /\ (forall id, id <> role -> st_roles (at_roles t) !! id = None -> st_roles (at_roles t) !! id = None))
    by (split; [apply keeps_roles_refl|by split]).
  destruct (decided_minutes d) as [m|] eqn:Em; [|intros [= <- <-]; by split_and!; try apply Hsame].
  apply decided_minutes_ok in Em.
  destruct (find_request _ _) as [r|] eqn:Er; [|intros [= <- <-]; by split_and!; try apply Hsame].
  apply find_request_elem in Er as [Hr _]. destruct (negb _); [intros [= <- <-]; by split_and!; try apply Hsame|].
  destruct (ad_approve d) eqn:Ea.
  - destruct (ensure_grant_role _ _ _ _ _ _ _) as [roles res'] eqn:Ee.
    destruct (ensure_grant_role_ok _ _ _ _ _ _ _ _ K (Hknown r Hr) Hf Ee) as (H1 & H2 & H3 & H4).
    destruct res' as [g|e]; intros [= <- <-]; cbn [at_roles]; split_and!; try done. intros p [= <-]. cbn. split; [done|].
    destruct m as [m|]; [|done]. split; [tauto|]. destruct (H4 g eq_refl) as (x & Hx & Hid & Hk & Ho). by exists x.
  - intros [= <- <-]. split_and!; try apply Hsame. intros p [= <-]. cbn. split; [done|]. destruct m; [|done]. destruct Em; congruence.
Qed.

Lemma insert_binding_ok id now new roles t t' : insert_binding id now new roles t = Some t' ->
  t' = t ++ [new_row id now new] /\ (forall r, r ∈ t -> br_id r <> id) /\ is_Some (st_roles roles !! nb_role_id new).
Proof.
  unfold insert_binding. destruct (_ || _) eqn:E; [done|]. intros [= <-]. apply orb_false_iff in E as [E Ef]. split; [done|]. split.
  - intros r Hr. by apply (proj1 (existsb_none _ _) E), orb_false_iff in Hr as [?%N.eqb_neq _].
  - unfold find_role in Ef. destruct (st_roles roles !! nb_role_id new); [by eexists|done].
Qed.

Lemma commit_ok_invariant gone binding now p t pool :
  approvals_ok gone (t, pool) -> p ∈ pool -> approvals_ok gone (snd (commit binding now p t), pool).
Proof.
  intros I Hp. destruct (ao_pool _ _ I p Hp) as [(r0 & Hr0 & Hsame) Hrange]. pose proof (ao_ids _ _ I) as N. cbn [fst snd] in *.
  pose proof (approval_step_grows to_lowercase (t, pool) (Committed binding now p)) as G. cbn in G. rewrite bool_decide_eq_true_2 in G by done. cbn in G.
  unfold commit in *. destruct (find_request _ _) as [stored|] eqn:Ef; [|done]. destruct (negb _) eqn:Es; [done|].
  apply negb_false_iff, bool_decide_eq_true in Es. apply find_request_elem in Ef as [Hst Hid].
  assert (r0 = stored) as -> by (apply (NoDup_key_inj rq_id (at_requests t) r0 stored N); [done|done|]; destruct Hsame as (-> & _); done).
  pose proof Hsame as (_ & Horg & _ & Hkey & _). apply same_ask_scope in Hsame as [Hscope Hreq].
  assert (rq_binding_id stored = None) as Hnone by (pose proof (ao_states _ _ I stored Hst) as H; unfold state_ok in H; rewrite Es in H; apply H).
  assert (forall x, x ∈ at_requests t -> (rq_id x =? rq_id (pp_request p))%N = true -> x = stored) as Hsel.
  { intros x Hx E%N.eqb_eq. apply (NoDup_key_inj rq_id (at_requests t) x stored N); congruence. }
  destruct (pp_role p) as [role|] eqn:Erole, (pp_minutes p) as [m|] eqn:Em; try done.
  - destruct Hrange as [Hrange Hgrant]. destruct (insert_binding _ _ _ _ _) as [bindings|] eqn:Ei; [|done]. cbn [snd] in *. apply insert_binding_ok in Ei as (-> & Hfresh & [x0 Hx0]). cbn [nb_role_id] in Hx0.
    set (new := new_row _ _ _). set (retired := retire_windows _ _ _ _) in *.
    assert (forall row, row ∈ at_bindings t -> exists row', row' ∈ retired /\ br_id row' = br_id row /\ unrevoke row' = unrevoke row) as Hkept
      by (intros row; apply unrevoke_where).
    assert (keeps_rows (at_bindings t) (retired ++ [new])) as Hmono
      by (intros row (row' & ? & _ & ?)%Hkept; exists row'; split; [apply elem_of_app; by left|done]).
    assert (forall x b, x ∈ at_requests t -> rq_binding_id x = Some b -> b <> binding) as Hnew.
    { intros x b Hx Hb ->. destruct (state_binding_exists gone t x binding (ao_states _ _ I x Hx) Hb) as (row & Hrow & E).
      destruct (Hkept row Hrow) as (row' & H1 & H2 & _). apply (Hfresh row' H1). congruence. }
    constructor; cbn [fst snd at_requests at_bindings].
    + by apply G.
    + rewrite fmap_app. apply NoDup_snoc; [unfold retired, retire_windows; rewrite revoke_where_ids; apply (ao_bindings _ _ I)|].
      intros (row & E & Hrow)%list_elem_of_fmap. by apply (Hfresh row Hrow).
    + intros x (y & Hy & ->)%update_where_elem. destruct (rq_id y =? _)%N eqn:E; [|by eapply state_ok_mono; [apply Hmono|apply keeps_roles_refl|done|apply (ao_states _ _ I)]].
      apply Hsel in E as ->; [|done]. exists (pp_decider p), now, m. do 3 (split; [done|]). split; [done|]. cbn [decided rq_binding_id].
      destruct Hgrant as (x & Hidx & Hg & Hx). assert (x0 = x) as ->.
      { destruct Hx as [Hx|Hx]; [congruence|]. pose proof (ao_gone _ _ I x Hx) as Hn. cbn [fst] in Hn. congruence. }
      eexists _, x. rewrite Hidx. split; [apply elem_of_app; right; apply list_elem_of_here|]. split; [|split; [done|by apply (grant_role_of_same (pp_request p) _ x x)]].
      unfold granted_binding.
      assert (grant_scope (decided Approved now p (Some binding) stored) = grant_scope stored) as -> by done.
      cbn [rq_requester_id decided]. rewrite Hscope, Hreq. done.
    + intros x x' b (y & Hy & ->)%update_where_elem (y' & Hy' & ->)%update_where_elem Hx Hx'.
      destruct (rq_id y =? _)%N eqn:E, (rq_id y' =? _)%N eqn:E'.
      * by rewrite (Hsel y Hy E), (Hsel y' Hy' E').
      * injection Hx as <-. by destruct (Hnew y' binding Hy' Hx').
      * injection Hx' as <-. by destruct (Hnew y binding Hy Hx).
      * by apply (ao_own _ _ I y y' b).
    + intros q Hq. eapply prepared_ok_grows; [exact N|exact G|intros id y Hy; left; by exists y|done|by apply (ao_pool _ _ I)].
    + intros x (y & Hy & ->)%update_where_elem. destruct (rq_id y =? _)%N eqn:E; [|by apply (ao_known _ _ I)]. apply Hsel in E as ->; [|done].
      exact (ao_known _ _ I stored Hy).
    + apply (ao_keyed _ _ I).
    + apply (ao_gone _ _ I).
  - cbn [snd] in *. constructor; cbn [fst snd at_requests at_bindings with_requests].
    + by apply G.
    + apply (ao_bindings _ _ I).
    + intros x (y & Hy & ->)%update_where_elem. destruct (rq_id y =? _)%N; [|by apply (ao_states _ _ I)]. by split.
    + intros x x' b (y & Hy & ->)%update_where_elem (y' & Hy' & ->)%update_where_elem Hx Hx'.
      destruct (rq_id y =? _)%N, (rq_id y' =? _)%N; try done. by apply (ao_own _ _ I y y' b).
    + intros q Hq. eapply prepared_ok_grows; [exact N|exact G|intros id y Hy; left; by exists y|done|by apply (ao_pool _ _ I)].
    + intros x (y & Hy & ->)%update_where_elem. destruct (rq_id y =? _)%N eqn:E; [|by apply (ao_known _ _ I)]. apply Hsel in E as ->; [|done].
      exact (ao_known _ _ I stored Hy).
    + apply (ao_keyed _ _ I).
    + apply (ao_gone _ _ I).
Qed.

(** The roles a step deletes, and whether the id it generates for a role is fresh. *)
Definition deleted_by (s : approvals * list prepared) (e : approval_event) : list role :=
  match e with
  | RoleDeleted role now =>
      match find_role (at_roles (fst s)) role, find_role (at_roles (fst (approval_step to_lowercase s e))) role with
      | Some x, None => [x]
      | _, _ => []
      end
  | _ => []
  end.
Definition fresh_role (gone : list role) (s : approvals * list prepared) (e : approval_event) : Prop :=
  match e with
  | Checked _ role _ _ _ _ => find_role (at_roles (fst s)) role = None /\ forall x, x ∈ gone -> role_id x <> role
  | _ => True
  end.

(** The states that the requests of one table reach, from one without any, with the roles that were
    deleted on the way. *)
Inductive approvals_reached : list role -> approvals * list prepared -> Prop :=
| reached_start roles bindings : NoDup (br_id <$> bindings) -> keyed roles -> approvals_reached [] (Approvals [] roles bindings, [])
| reached_step gone s e : approvals_reached gone s -> fresh_role gone s e ->
    approvals_reached (gone ++ deleted_by s e) (approval_step to_lowercase s e).

Lemma invariant_requests gone gone' t t' pool :
  approvals_ok gone (t, pool) -> grows request_ids request_later (at_requests t) (at_requests t') -> NoDup (br_id <$> at_bindings t') ->
  (forall r, r ∈ at_requests t' -> state_ok gone' t' r /\ is_known (rq_permission_key r) = true) ->
  (forall r r' b, r ∈ at_requests t' -> r' ∈ at_requests t' -> rq_binding_id r = Some b -> rq_binding_id r' = Some b -> r = r') ->
  (forall id x, st_roles (at_roles t) !! id = Some x -> (exists x', st_roles (at_roles t') !! id = Some x' /\ role_id x' = role_id x
     /\ role_key x' = role_key x /\ organization_id x' = organization_id x) \/ x ∈ gone') ->
  gone ⊆ gone' -> keyed (at_roles t') -> (forall x, x ∈ gone' -> st_roles (at_roles t') !! role_id x = None) ->
  approvals_ok gone' (t', pool).
Proof.
  intros I G Hb Hs Ho Hroles Hgone K Hn. constructor; cbn [fst snd]; try done.
  - by apply G, (ao_ids _ _ I).
  - intros r Hr. by apply Hs.
  - intros p Hp. eapply prepared_ok_grows; [apply (ao_ids _ _ I)|exact G|exact Hroles|done|by apply (ao_pool _ _ I)].
  - intros r Hr. by apply Hs.
Qed.
Lemma invariant_same_roles gone t t' pool :
  approvals_ok gone (t, pool) -> grows request_ids request_later (at_requests t) (at_requests t') -> NoDup (br_id <$> at_bindings t') ->
  (forall r, r ∈ at_requests t' -> state_ok gone t' r /\ is_known (rq_permission_key r) = true) ->
  (forall r r' b, r ∈ at_requests t' -> r' ∈ at_requests t' -> rq_binding_id r = Some b -> rq_binding_id r' = Some b -> r = r') ->
  at_roles t' = at_roles t -> approvals_ok gone (t', pool).
Proof.
  intros I G Hb Hs Ho E. apply (invariant_requests gone gone t t' pool I G Hb Hs Ho); rewrite ?E; [|done|apply (ao_keyed _ _ I)|apply (ao_gone _ _ I)].
  intros id x Hx. left. by exists x.
Qed.

(** Deleting a role takes the bindings of the role and the links to them. *)
Lemma role_deleted_invariant gone role now t pool : approvals_ok gone (t, pool) ->
  approvals_ok (gone ++ deleted_by (t, pool) (RoleDeleted role now)) (role_deleted role now t, pool).
Proof.
  intros I. pose proof (approval_step_grows to_lowercase (t, pool) (RoleDeleted role now)) as G. cbn [approval_step fst] in G.
  unfold deleted_by. cbn [approval_step fst]. unfold role_deleted in *. unfold delete_role in *. unfold find_role in *.
  destruct (st_roles (at_roles t) !! role) as [x|] eqn:Ex; cbn [ok_or result_bind] in *; [|by rewrite ?Ex, app_nil_r].
  destruct (is_system x); [by rewrite ?Ex, app_nil_r|]. destruct (0 <? _); [by rewrite ?Ex, app_nil_r|]. cbn [fst at_roles st_roles] in *.
  rewrite lookup_fmap, lookup_delete_eq. cbn [fmap option_fmap option_map].
  pose proof (ao_keyed _ _ I role x Ex) as Hidx.
  set (st' := RoleStore _ _ _) in *. set (cut := List.filter (fun b => br_role_id b =? role)%N (at_bindings t)) in *.
  assert (Hroles : forall id y, st_roles (at_roles t) !! id = Some y -> id <> role ->
            exists y', st_roles st' !! id = Some y' /\ role_id y' = role_id y /\ role_key y' = role_key y /\ organization_id y' = organization_id y).
  { intros id y Hy Hne. exists (unlink role y). unfold st'. cbn [st_roles]. rewrite lookup_fmap, lookup_delete_ne by done. rewrite Hy.
    split; [done|]. unfold unlink. destruct (bool_decide _); by split_and!. }
  assert (Hcut : forall r b row, r ∈ at_requests t -> rq_binding_id r = Some b -> row ∈ at_bindings t -> br_id row = b ->
            existsb (fun g => br_id g =? b)%N cut = (br_role_id row =? role)%N).
  { intros r b row _ _ Hrow <-. destruct (br_role_id row =? role)%N eqn:Er.
    - apply existsb_elem. exists row. split; [by apply elem_of_filter_bool|apply N.eqb_refl].
    - apply existsb_none. intros g [Hg Hgr]%elem_of_filter_bool. apply N.eqb_neq. intros E.
      rewrite (NoDup_key_inj br_id (at_bindings t) g row (ao_bindings _ _ I) Hg Hrow E) in Hgr. congruence. }
  apply (invariant_requests gone _ t); [done|done|..]; cbn [at_requests at_bindings at_roles].
  - apply NoDup_filter_keys, (ao_bindings _ _ I).
  - intros r (r0 & -> & Hr0)%list_elem_of_fmap. split; [|apply (ao_known _ _ I r0 Hr0)].
    pose proof (ao_states _ _ I r0 Hr0) as H. unfold state_ok in *. cbn [fst unlinked rq_status rq_decided_by rq_grant_minutes rq_binding_id] in *.
    assert (has_its_grant gone t r0 -> has_its_grant (gone ++ [x]) (Approvals (unlinked cut <$> at_requests t) st'
              (List.filter (fun b => negb (br_role_id b =? role)%N) (at_bindings t))) (unlinked cut r0)) as Hg.
    { intros (d & at_ & m & H1 & H2 & H3 & H4 & H5). exists d, at_, m. do 4 (split; [done|]). cbn [unlinked rq_binding_id].
      destruct (rq_binding_id r0) as [b|] eqn:Eb.
      - destruct H5 as (row & y & Hrow & E & Hy & Hgr). pose proof (f_equal br_id E) as Eid. cbn in Eid.
        rewrite (Hcut r0 b row Hr0 Eb Hrow Eid). pose proof (f_equal br_role_id E) as Erole. cbn in Erole. rewrite Erole.
        destruct (N.eqb_spec (role_id y) role) as [Ey|Hne].
        + exists x. split; [apply elem_of_app; right; by left|]. rewrite Ey in Hy. by replace x with y by congruence.
        + destruct (Hroles _ _ Hy Hne) as (y' & Hy' & Hid & Hk & Ho). exists row, y'. rewrite Hid. split; [|split; [done|split; [done|]]].
          * apply elem_of_filter_bool. split; [done|]. rewrite Erole. by apply negb_true_iff, N.eqb_neq.
          * by apply (grant_role_of_same r0 _ y y').
      - destruct H5 as (y & Hy & Hgr). exists y. split; [apply elem_of_app; by left|done]. }
    destruct (rq_status r0); auto; destruct H as [H1 H2]; rewrite H2; auto.
  - intros r r' b (y & -> & Hy)%list_elem_of_fmap (y' & -> & Hy')%list_elem_of_fmap Hx Hx'. f_equal. cbn in Hx, Hx'.
    destruct (rq_binding_id y) as [c|] eqn:Ec; [|done]. destruct (existsb _ cut); [done|]. injection Hx as ->.
    destruct (rq_binding_id y') as [c'|] eqn:Ec'; [|done]. destruct (existsb _ cut); [done|]. injection Hx' as ->. by apply (ao_own _ _ I y y' b).
  - intros id y Hy. destruct (decide (id = role)) as [->|Hne]; [right|left; by apply Hroles].
    replace y with x by congruence. apply elem_of_app. right. by left.
  - intros y Hy. apply elem_of_app. by left.
  - intros id y. unfold st'. cbn [st_roles]. rewrite lookup_fmap, fmap_Some. intros (y0 & [Hne Hy0]%lookup_delete_Some & ->).
    pose proof (ao_keyed _ _ I _ _ Hy0) as Hid. unfold unlink. by destruct (bool_decide _).
  - intros y [Hy| ->%list_elem_of_singleton]%elem_of_app; unfold st'; cbn [st_roles]; rewrite lookup_fmap, fmap_None.
    + apply lookup_delete_None. right. by apply (ao_gone _ _ I).
    + rewrite Hidx. apply lookup_delete_eq.
Qed.

Lemma approval_step_invariant gone s e : approvals_ok gone s -> fresh_role gone s e ->
  approvals_ok (gone ++ deleted_by s e) (approval_step to_lowercase s e).
Proof.
  destruct s as [t pool]. intros I Hfresh. pose proof (approval_step_grows to_lowercase (t, pool) e) as G.
  destruct e as [id organization requester now new|stand_in role now id decider d|binding now p|organization now|id now|role now];
    [| | | | |by apply role_deleted_invariant]; cbn [deleted_by]; rewrite app_nil_r; cbn [approval_step fst] in *.
  - destruct (request _ _ _ _ _ _) as [[r l]|] eqn:E; [|done]. cbn [fst] in G. apply request_ok in E as (-> & Hid & Hp & Hd & Hb & _ & Hk & _).
    apply (invariant_same_roles gone t); cbn [at_requests at_bindings with_requests]; [done|done|apply (ao_bindings _ _ I)| | |done].
    + intros x [Hx| ->%list_elem_of_singleton]%elem_of_app; [|by unfold state_ok; rewrite Hp].
      split; [apply (ao_states _ _ I x Hx)|by apply (ao_known _ _ I)].
    + intros x y b [Hx| ->%list_elem_of_singleton]%elem_of_app [Hy| ->%list_elem_of_singleton]%elem_of_app E1 E2; try congruence.
      by apply (ao_own _ _ I x y b).
  - pose proof (prepare_requests to_lowercase stand_in role now id decider d t) as [E1 E2]. destruct Hfresh as [Hf Hfg].
    destruct (prepare _ _ _ _ _ _ _ _) as [res t'] eqn:Ep; cbn [fst snd] in *.
    destruct (prepare_ok _ _ _ _ _ _ _ _ _ (ao_keyed _ _ I) Hf (ao_known _ _ I) Ep) as (Hroles & K & Hnone & Hp).
    assert (approvals_ok gone (t', pool)) as I'.
    { apply (invariant_requests gone gone t); rewrite ?E1, ?E2; try done.
      - destruct res; cbn [fst] in G; by rewrite E1 in G.
      - apply (ao_bindings _ _ I).
      - intros r Hr. split; [|by apply (ao_known _ _ I)].
        apply (state_ok_mono gone gone t); [rewrite E2; apply keeps_rows_refl|done|done|by apply (ao_states _ _ I)].
      - apply (ao_own _ _ I).
      - intros x y Hy. left. by apply Hroles.
      - intros x Hx. apply Hnone; [by apply Hfg|by apply (ao_gone _ _ I)]. }
    destruct res as [p|]; [|done]. destruct (Hp p eq_refl) as [Hr Hm].
    destruct I' as [A1 A2 A3 A4 A5 A6 A7 A8]. constructor; cbn [fst snd] in *; try done.
    intros q [Hq| ->%list_elem_of_singleton]%elem_of_app; [by apply A5|].
    split; [exists (pp_request p); rewrite E1; split; [done|by repeat split]|].
    destruct (pp_role p), (pp_minutes p); try done. destruct Hm as (Hm & x & Hid & Hg & Hx). split; [done|]. exists x. split_and!; [done..|by left].
  - destruct (bool_decide (p ∈ pool)) eqn:E; [|done]. apply bool_decide_eq_true in E. by apply commit_ok_invariant.
  - apply (invariant_same_roles gone t); [done|done|apply (ao_bindings _ _ I)|..|done]; cbn [expire_lapsed at_requests at_bindings with_requests].
    + intros x (y & Hy & ->)%update_where_elem. pose proof (ao_states _ _ I y Hy) as H. pose proof (ao_known _ _ I y Hy) as Hk.
      destruct (has_lapsed _ _ _ y) eqn:E; [|done]. split; [|done].
      unfold has_lapsed in E. apply andb_true_iff in E as [[_ E%bool_decide_eq_true]%andb_true_iff _]. unfold state_ok in *. cbn [fst] in H. by rewrite E in H.
    + intros x x' b (y & Hy & ->)%update_where_elem (y' & Hy' & ->)%update_where_elem Hx Hx'.
      assert (y = y') as ->; [|done]. apply (ao_own _ _ I y y' b); try done.
      * by destruct (has_lapsed _ _ _ y).
      * by destruct (has_lapsed _ _ _ y').
  - apply (invariant_same_roles gone t); [done|done|..|done]; cbn [at_requests at_bindings revoke fst].
    + rewrite revoke_where_ids. apply (ao_bindings _ _ I).
    + intros r Hr. split; [|by apply (ao_known _ _ I)].
      apply (state_ok_mono gone gone t); [|apply keeps_roles_refl|done|by apply (ao_states _ _ I)].
      intros row Hrow. edestruct unrevoke_where as (row' & ? & _ & ?); [exact Hrow|]. eauto.
    + apply (ao_own _ _ I).
Qed.

Lemma reached_invariant gone s : approvals_reached gone s -> approvals_ok gone s.
Proof.
  induction 1 as [roles bindings N K|gone s e _ IH Hf]; [|by apply approval_step_invariant].
  constructor; cbn [fst snd at_requests at_bindings at_roles]; [apply NoDup_nil; exact I|done|..]; intros; try done;
    match goal with H : _ ∈ [] |- _ => by apply elem_of_nil in H end.
Qed.

(** C13. An approval is a grant: in every state that requests, checks, commits, readings of the inbox,
    revocations and deletions of roles lead to, in any order and with any number of approvers between
    their checks and their writes, an approved or lapsed request names its decider, its instant and a
    window in the range, and a binding, which is the one the approval promised: of the role generated
    for the permission and the organization that were asked for, to the requester, for the scope that
    was asked, until the window after the decision.  Only a request whose generated role has been
    deleted since names none.  No two requests name the same binding, and a pending or refused one
    names none.  The ids generated for roles are fresh; what an existing role with the generated key
    allows is its own ([fresh_grant_carries_one_key] is about the one that is made). *)
Theorem approvals_have_their_grants (gone : list role) (s : approvals * list prepared) (r : permission_request) :
  approvals_reached gone s -> r ∈ at_requests (fst s) ->
  state_ok gone (fst s) r
  /\ (forall r' b, r' ∈ at_requests (fst s) -> rq_binding_id r = Some b -> rq_binding_id r' = Some b -> r' = r).
Proof.
  intros H%reached_invariant Hr. split; [by apply (ao_states _ _ H)|]. intros r' b Hr' E E'. by apply (ao_own _ _ H r' r b).
Qed.

Lemma granted_into role binding d at_ m r :
  into_binding (granted_binding role binding d at_ m r)
  = Ok (RoleBinding binding role (User (rq_requester_id r)) (Some (rq_requester_id r)) (grant_scope r) (Some d) (Some (at_ + window m)) None at_).
Proof. unfold granted_binding, into_binding, grant_scope. by destruct (rq_resource_type r), (rq_resource_id r). Qed.

(** The window ends by itself: the binding that an approval writes counts for the requester, in the
    contexts that the scope of the request covers, from the decision until the minutes are over, and
    not an instant longer, with nothing having to be revoked. *)
Theorem window_ends_by_itself (binding : uuid) (now now' : instant) (p : prepared) (t t' : approvals) (role : uuid) (m : Z)
    (members : list (uuid * uuid)) (ctx : resource_context) (bs : list role_binding) :
  NoDup (br_id <$> at_bindings t) -> pp_role p = Some role -> pp_minutes p = Some m -> commit binding now p t = (Ok tt, t') ->
  active_for_context now' members (at_bindings t') (User (rq_requester_id (pp_request p))) ctx = Ok bs ->
  (exists b, b ∈ bs /\ rb_id b = binding) <-> now' < now + m * 60 * 1000000 /\ applies_to (grant_scope (pp_request p)) ctx = true.
Proof.
  replace (m * 60 * 1000000) with (window m) by (unfold window; lia).
  intros N Hrole Hm. unfold commit. rewrite Hrole, Hm. destruct (find_request _ _) as [stored|]; [|done]. destruct (negb _); [done|].
  destruct (insert_binding _ _ _ _ _) as [bindings|] eqn:Ei; [|done]. intros [= <-] Ha. cbn [at_bindings] in Ha.
  apply insert_binding_ok in Ei as (-> & Hfresh & _). set (r := pp_request p) in *.
  change (new_row _ _ _) with (granted_binding role binding (pp_decider p) now m r) in Ha.
  pose proof (granted_into role binding (pp_decider p) now m r) as Hinto. set (row := granted_binding _ _ _ _ _ _) in *.
  pose proof (into_binding_live row _ now' Hinto) as Hlive. unfold is_active_at in Hlive. cbn [rb_revoked_at rb_expires_at is_some negb andb] in Hlive.
  split.
  - intros (b & Hb & E). apply (active_for_context_members _ _ _ _ _ _ Ha) in Hb as ((x & Hx & _ & Hl & Hi) & Happ).
    assert (br_id x = binding) as Ex.
    { revert Hi. unfold into_binding. rewrite !result_bind_ok. intros (sc & _ & Hi). revert Hi. rewrite result_bind_ok. intros (su & _ & [= <-]). done. }
    apply elem_of_app in Hx as [Hx|Hx%list_elem_of_singleton]; [by destruct (Hfresh x Hx)|]. subst x. rewrite Hinto in Hi. injection Hi as <-.
    split; [|done]. rewrite Hlive in Hl. lia.
  - intros [Hn Happ]. eexists. split; [apply (active_for_context_members _ _ _ _ _ _ Ha); split; [exists row; split_and!|]|].
    + apply elem_of_app. right. apply list_elem_of_here.
    + left. unfold of_subject, row, granted_binding, new_row. cbn. by rewrite N.eqb_refl.
    + rewrite Hlive. lia.
    + exact Hinto.
    + done.
    + done.
Qed.

(** Nobody is asked who decides: every account that reaches the decision gets the same answer, the
    requester of the permission among them. *)
Theorem anyone_may_decide (stand_in role binding : uuid) (now : instant) (id decider decider' : uuid) (d : approval_decision) (t : approvals) :
  fst (decide_request to_lowercase stand_in role binding now id decider d t)
  = fst (decide_request to_lowercase stand_in role binding now id decider' d t).
Proof.
  unfold decide_request, prepare. destruct (decided_minutes d) as [minutes|]; [|done]. destruct (find_request id _) as [r|]; [|done].
  destruct (negb _); [done|].
  assert (forall ro t, fst (commit binding now (Prepared r decider (trim (ad_note d)) minutes ro) t)
                       = fst (commit binding now (Prepared r decider' (trim (ad_note d)) minutes ro) t)) as H.
  { intros ro t'. unfold commit. cbn [pp_request pp_role pp_minutes pp_decider]. destruct (find_request _ _); [|done]. destruct (negb _); [done|].
    destruct ro as [u|], minutes as [z|]; try done. unfold insert_binding. cbn [nb_role_id].
    change (index_key (new_row binding now (NewSubjectBinding u (User (rq_requester_id r)) (grant_scope r) (Some decider) (Some (now + window z)))))
      with (index_key (new_row binding now (NewSubjectBinding u (User (rq_requester_id r)) (grant_scope r) (Some decider') (Some (now + window z))))).
    by destruct (_ || _). }
  destruct (ad_approve d); [|apply H]. by destruct (ensure_grant_role _ _ _ _ _ _ _) as [? [?|?]].
Qed.

(** A second window over the first is refused by the index of live bindings: while the account holds
    an unrevoked, unexpired binding of the generated role at the scope that is asked for, an approval fails
    in the database and the request stays pending. *)
Theorem overlapping_window_fails (binding role : uuid) (now : instant) (m : Z) (p : prepared) (t : approvals) (row : binding_row) (stored : permission_request) :
  find_request (rq_id (pp_request p)) (at_requests t) = Some stored -> rq_status stored = Pending ->
  pp_role p = Some role -> pp_minutes p = Some m ->
  row ∈ at_bindings t -> unrevoked row = true -> ran_out now row = false ->
  index_key row = index_key (granted_binding role binding (pp_decider p) now m (pp_request p)) ->
  commit binding now p t = (Err ApprovalDatabase, t).
Proof.
  intros Hf Hs Hr Hm Hrow Hu Ho Hi. unfold commit. rewrite Hf, Hs, Hr, Hm. cbn [negb]. rewrite bool_decide_true by done. cbn [negb].
  unfold insert_binding. replace (existsb _ _) with true; [done|]. symmetry. apply existsb_elem. exists row. split.
  - apply elem_of_revoke_where. exists row. split; [done|]. by rewrite Ho, !andb_false_r.
  - apply orb_true_iff. right. rewrite Hu. cbn [andb]. by apply bool_decide_eq_true.
Qed.

(** An approval that has lost its binding never lapses: its role can be deleted as soon as the window
    is over, and the request then reads approved in every later inbox. *)
Theorem orphaned_approval_stays_approved (role : uuid) (later : instant) (t : approvals) (r : permission_request) (row : binding_row) :
  NoDup (br_id <$> at_bindings t) -> r ∈ at_requests t -> rq_status r = Approved -> rq_binding_id r = Some (br_id row) ->
  row ∈ at_bindings t -> br_role_id row = role ->
  (exists st, delete_role (at_roles t) role (count_live_for_role later role (at_bindings t)) = Ok st) ->
  forall organization now',
  exists r', r' ∈ at_requests (expire_lapsed organization now' (role_deleted role later t)) /\ rq_id r' = rq_id r /\ rq_status r' = Approved.
Proof.
  intros N Hr Hs Hb Hrow Hrole [st Hst] organization now'. unfold role_deleted. rewrite Hst. cbn [expire_lapsed at_requests with_requests].
  set (gone := List.filter _ _). assert (rq_binding_id (unlinked gone r) = None) as E.
  { cbn. rewrite Hb. replace (existsb _ gone) with true; [done|]. symmetry. apply existsb_elem. exists row. split; [|apply N.eqb_refl].
    apply elem_of_filter_bool. split; [done|]. by apply N.eqb_eq. }
  exists (unlinked gone r). split; [|done]. apply update_where_elem. exists (unlinked gone r). split; [by apply list_elem_of_fmap_2|].
  unfold has_lapsed. by rewrite E, andb_false_r.
Qed.
End Granted.

(** ** Witnesses *)

Definition sample_ask : new_request := NewRequest s!"users.read" (Some s!"path") (Some s!"/blog/*") s!" for the audit ".
Definition sample_start : approvals * list prepared := (Approvals [] empty_store [], []).
Definition sample_checked : approvals * list prepared :=
  approval_steps id sample_start [Asked 1 9 5 0 sample_ask; Checked 70 50 10 1 6 (ApprovalDecision true (Some 5) [])].
Definition sample_prepared : prepared :=
  Prepared (PermissionRequest 1 9 5 s!"users.read" (Some s!"path") (Some s!"/blog/*") s!"for the audit" Pending None None None None None 0) 6 [] (Some 5) (Some 50%N).
Definition sample_granted : approvals * list prepared := approval_step id sample_checked (Committed 80 20 sample_prepared).

Example sample_is_prepared : snd sample_checked = [sample_prepared].
Proof. by vm_compute. Qed.
(** The second of two approvers loses, and the window lapses by itself. *)
Example second_approver_loses :
  fst (commit 81 21 sample_prepared (fst sample_granted)) = Err RequestAlreadyDecided
  /\ (rq_status <$> at_requests (expire_lapsed 9 (20 + window 5 - 1) (fst sample_granted))) = [Approved]
  /\ (rq_status <$> at_requests (expire_lapsed 9 (20 + window 5) (fst sample_granted))) = [Lapsed].
Proof. by vm_compute. Qed.

Definition sample_decided : permission_request := decided Approved 20 sample_prepared (Some 80%N) (pp_request sample_prepared).
Lemma approvals_have_their_grants_witness :
  state_ok [] (fst sample_granted) sample_decided /\ has_its_grant [] (fst sample_granted) sample_decided.
Proof.
  assert (sample_decided ∈ at_requests (fst sample_granted)) as H by (vm_compute; left).
  assert (state_ok [] (fst sample_granted) sample_decided) as Hok; [|split; [exact Hok|exact Hok]].
  refine (proj1 (approvals_have_their_grants id (fun s => eq_refl) [] sample_granted sample_decided _ H)).
  apply (reached_step id [] sample_checked (Committed 80 20 sample_prepared)); [|exact I].
  apply (reached_step id [] (approval_steps id sample_start [Asked 1 9 5 0 sample_ask])
           (Checked 70 50 10 1 6 (ApprovalDecision true (Some 5) []))).
  - apply (reached_step id [] sample_start (Asked 1 9 5 0 sample_ask)); [|exact I]. apply reached_start; [apply NoDup_nil_2|].
    intros x y Hxy. vm_compute in Hxy. discriminate Hxy.
  - split; [vm_compute; reflexivity|]. intros x Hx. by apply elem_of_nil in Hx.
Defined.

Lemma decision_is_final_witness :
  exists r', r' ∈ at_requests (fst (approval_steps id sample_granted [InboxRead 9 (20 + window 5); Checked 71 51 30 1 7 (ApprovalDecision false None [])]))
  /\ rq_decided_by r' = Some 6%N.
Proof.
  destruct (decision_is_final id sample_granted [InboxRead 9 (20 + window 5); Checked 71 51 30 1 7 (ApprovalDecision false None [])]
    (decided Approved 20 sample_prepared (Some 80%N) (pp_request sample_prepared))) as (r' & Hr' & _ & Hd & _).
  - vm_compute. apply NoDup_singleton.
  - vm_compute. left.
  - done.
  - by exists r'.
Defined.

Definition sample_binding : role_binding := RoleBinding 80 50 (User 5) (Some 5%N) (Resource (Some 9%N) None s!"path" s!"/blog/*") (Some 6%N) (Some (20 + window 5)) None 20.
Definition sample_post : resource_context := ResourceContext (Some 9%N) None None None (Some s!"/blog/post").
Lemma window_ends_by_itself_witness : exists b, b ∈ [sample_binding] /\ rb_id b = 80%N.
Proof.
  assert (NoDup (br_id <$> at_bindings (fst sample_checked))) as H1 by apply NoDup_nil_2.
  assert (commit 80 20 sample_prepared (fst sample_checked) = (Ok tt, fst sample_granted)) as H2
    by (vm_cast_no_check (eq_refl (@Ok unit approval_error tt, fst sample_granted))).
  assert (active_for_context (20 + window 5 - 1) [] (at_bindings (fst sample_granted)) (User 5) sample_post = Ok [sample_binding]) as H3
    by (vm_compute; reflexivity).
  destruct (window_ends_by_itself 80 20 (20 + window 5 - 1) sample_prepared _ _ 50 5 [] sample_post [sample_binding] H1 eq_refl eq_refl H2 H3) as [_ H].
  apply H. split; [unfold window; lia|vm_compute; reflexivity].
Defined.

Lemma fresh_grant_carries_one_key_witness :
  exists st', ensure_grant_role id 70 50 0 9 s!"users.read" empty_store = (st', Ok 50%N).
Proof.
  destruct (fresh_grant_carries_one_key id 70 50 0 9 s!"users.read" empty_store) as (st' & r & H & _); [done|by vm_compute..|]. by exists st'.
Defined.

Lemma overlapping_window_fails_witness :
  exists p, commit 90 40 p (fst (approval_steps id sample_granted [Asked 2 9 5 30 sample_ask; Checked 71 51 35 2 7 (ApprovalDecision true (Some 60) [])])) 
  = (Err ApprovalDatabase, fst (approval_steps id sample_granted [Asked 2 9 5 30 sample_ask; Checked 71 51 35 2 7 (ApprovalDecision true (Some 60) [])])).
Proof.
  set (r2 := PermissionRequest 2 9 5 s!"users.read" (Some s!"path") (Some s!"/blog/*") s!"for the audit" Pending None None None None None 30).
  exists (Prepared r2 7 [] (Some 60) (Some 50%N)).
  eapply (overlapping_window_fails _ 50 _ 60 _ _ (granted_binding 50 80 6 20 5 r2) r2); try reflexivity.
  apply list_elem_of_singleton. reflexivity.
Defined.
