(* ===== verification/Preferences.v ===== *)
(** * What reaches a reader: [crates/notifications/src/vocabulary.rs], [preferences.rs] and
      [preference_store.rs]

    The closed lists, the matrix of categories and channels, quiet hours and the digest, their
    validation, and the two tables.  Instants are microseconds, clocks minutes of the day.  How the
    server reads the text of a time is the parameter [cast_time]. *)

From S2P Require Import Prelude Roles Cron Validators.

(** ** Vocabulary *)

Definition CATEGORIES : list str := [s!"approval"; s!"security"; s!"update"; s!"ticket"; s!"system"; s!"mention"].
Definition PRIORITIES : list str := [s!"low"; s!"normal"; s!"high"; s!"critical"].
Definition CHANNELS : list str := [s!"in_app"; s!"email"; s!"web_push"; s!"webhook"; s!"chat"].
Definition MAX_PAGE : Z := 100.
Definition MAX_BULK_IDS : nat := 200.
Definition EMIT_BUDGET_PER_MINUTE : Z := 60.
Definition PRIORITY_UNKNOWN : Z := -1.
Definition IN_APP : str := s!"in_app".
Definition WEB_PUSH : str := s!"web_push".

Definition is_category (v : str) : bool := existsb (str_eqb v) CATEGORIES.
Definition is_priority (v : str) : bool := existsb (str_eqb v) PRIORITIES.
Definition is_channel (v : str) : bool := existsb (str_eqb v) CHANNELS.

Fixpoint position (v : str) (l : list str) : option Z :=
  match l with
  | [] => None
  | x :: l => if str_eqb x v then Some 0 else Z.succ <$> position v l
  end.
Definition priority_rank (v : str) : Z := default PRIORITY_UNKNOWN (position v PRIORITIES).

Inductive notification_error := BadDefinition (why : str) | BudgetExhausted | NotificationDatabase.

(** ** Clocks *)

Definition parse_clock (v : option str) : option Z :=
  raw ← trim <$> v;
  '(hour, minute) ← split_once c!":" raw;
  hour ← parse_i32 (trim hour);
  first ← head (split_on c!":" (trim minute));
  minute ← parse_i32 (trim first);
  if (0 <=? hour) && (hour <? 24) && ((0 <=? minute) && (minute <? 60)) then Some (hour * 60 + minute) else None.
Definition format_clock (m : Z) : str := zero_padded 2 (Z.to_N (m / 60)) ++ s!":" ++ zero_padded 2 (Z.to_N (m mod 60)).

Definition in_window (now start end_ : Z) : bool :=
  if start =? end_ then true
  else if start <? end_ then (start <=? now) && (now <? end_) else (start <=? now) || (now <? end_).

(** The reading of a local clock, and the date it shows. *)
Definition hour_minute (local : Z) : Z := (local / 60000000) mod 1440.
Definition local_date (local : Z) : Z := local / 86400000000.
Definition weekday_of `{Calendar} (date : Z) : Z := Z.of_N ((cal_weekday date + 6) mod 7).

Definition fixed_offset_seconds (zone : str) : Z :=
  let zone := trim zone in
  if str_eqb zone s!"Europe/Istanbul" then 3 * 3600
  else if existsb (str_eqb zone) [s!"Europe/Berlin"; s!"Europe/Paris"; s!"Europe/Madrid"; s!"Europe/Rome"; s!"Europe/Amsterdam"] then 2 * 3600
  else if str_eqb zone s!"Europe/London" then 0
  else if str_eqb zone s!"America/New_York" then -5 * 3600
  else if str_eqb zone s!"America/Los_Angeles" then -8 * 3600
  else if str_eqb zone s!"America/Sao_Paulo" then -3 * 3600
  else if str_eqb zone s!"Asia/Dubai" then 4 * 3600
  else if str_eqb zone s!"Asia/Kolkata" then 5 * 3600 + 1800
  else if str_eqb zone s!"Asia/Tokyo" then 9 * 3600
  else if str_eqb zone s!"Australia/Sydney" then 10 * 3600
  else 0.

(** ** Settings *)

Definition DIGEST_CADENCES : list str := [s!"off"; s!"daily"; s!"weekly"].
Definition DIGEST_HOUR_MIN : Z := 0.
Definition DIGEST_HOUR_MAX : Z := 23.
Definition MIN_AWAKE_HOURS : Z := 1.

Record settings := Settings {
  st_user_id : uuid;
  st_quiet_hours_start : option str;
  st_quiet_hours_end : option str;
  st_timezone : str;
  st_digest_cadence : str;
  st_digest_weekday : option Z;
  st_digest_hour : Z
}.
Definition default_settings (user : uuid) : settings := Settings user None None s!"UTC" s!"off" None 8.

Definition zone_offset (s : settings) : Z := fixed_offset_seconds (st_timezone s).
Definition local_now (s : settings) (now : instant) : Z := now + zone_offset s * 1000000.
Definition in_quiet_hours (s : settings) (now : instant) : bool :=
  match parse_clock (st_quiet_hours_start s), parse_clock (st_quiet_hours_end s) with
  | Some start, Some end_ => in_window (hour_minute (local_now s now)) start end_
  | _, _ => false
  end.
Definition digest_due `{Calendar} (s : settings) (now : instant) : bool :=
  if str_eqb (st_digest_cadence s) s!"daily" then true
  else if str_eqb (st_digest_cadence s) s!"weekly" then weekday_of (local_date (local_now s now)) =? default 0 (st_digest_weekday s)
  else false.

Definition validate_quiet_hours (start end_ : option str) : result unit notification_error :=
  match start, end_ with
  | None, None => Ok tt
  | Some _, None | None, Some _ => Err (BadDefinition s!"half a quiet window is not a window")
  | Some _, Some _ =>
      match parse_clock start, parse_clock end_ with
      | Some s, Some e =>
          let covered := (e - s) mod (24 * 60) in
          refuse (covered =? 0) || (24 * 60 - covered <? MIN_AWAKE_HOURS * 60) with BadDefinition s!"no waking hours" in Ok tt
      | _, _ => Err (BadDefinition s!"must both be HH:MM")
      end
  end.

Definition validate_settings (s : settings) : result unit notification_error :=
  require existsb (str_eqb (st_digest_cadence s)) DIGEST_CADENCES else BadDefinition s!"digest_cadence" in
  require (DIGEST_HOUR_MIN <=? st_digest_hour s) && (st_digest_hour s <=? DIGEST_HOUR_MAX) else BadDefinition s!"digest_hour" in
  refuse match st_digest_weekday s with Some w => negb ((0 <=? w) && (w <=? 6)) | None => false end with BadDefinition s!"digest_weekday" in
  refuse str_eqb (st_digest_cadence s) s!"weekly" && negb (is_given (st_digest_weekday s)) with BadDefinition s!"a weekly digest needs a weekday" in
  let? _ := validate_quiet_hours (st_quiet_hours_start s) (st_quiet_hours_end s) in
  refuse str_eqb (trim (st_timezone s)) [] with BadDefinition s!"timezone" in
  Ok tt.

(** ** The matrix *)

Record preference_cell := PreferenceCell { pc_category : str; pc_channel : str; pc_enabled : bool }.
Record preferences := Preferences { pf_user_id : uuid; pf_matrix : list preference_cell; pf_settings : settings }.
Definition is_cell (category channel : str) (c : preference_cell) : bool := str_eqb (pc_category c) category && str_eqb (pc_channel c) channel.

Definition default_matrix : list preference_cell :=
  c ← CATEGORIES; (fun channel => PreferenceCell c channel true) <$> CHANNELS.
Definition default_preferences (user : uuid) : preferences := Preferences user default_matrix (default_settings user).
Definition enabled (p : preferences) (category channel : str) : bool :=
  match List.find (is_cell category channel) (pf_matrix p) with Some c => pc_enabled c | None => true end.
Definition allows_channel (p : preferences) (category channel : str) : bool :=
  if str_eqb channel IN_APP then true else enabled p category channel.

Fixpoint validate_cells (seen : list (str * str)) (cells : list preference_cell) : result unit notification_error :=
  match cells with
  | [] => Ok tt
  | c :: cells =>
      require is_category (pc_category c) else BadDefinition s!"category" in
      require is_channel (pc_channel c) else BadDefinition s!"channel" in
      refuse str_eqb (pc_channel c) IN_APP && negb (pc_enabled c) with BadDefinition s!"in-app notifications cannot be turned off" in
      refuse bool_decide ((pc_category c, pc_channel c) ∈ seen) with BadDefinition s!"appears twice" in
      validate_cells ((pc_category c, pc_channel c) :: seen) cells
  end.
Definition validate_stated (cells : list preference_cell) : result (list preference_cell) notification_error :=
  let? _ := validate_cells [] cells in Ok cells.

(** ** The tables *)

(** A row of [notification_settings]; of a time the minutes are read back. *)
Record settings_row := SettingsRow {
  sr_quiet_start : option Z;
  sr_quiet_end : option Z;
  sr_timezone : str;
  sr_digest_cadence : str;
  sr_digest_weekday : option Z;
  sr_digest_hour : Z
}.
(** The rows of [notification_preferences] by reader, then by category and channel. *)
Record preference_store := PreferenceStore {
  ps_cells : gmap uuid (gmap (str * str) bool);
  ps_settings : gmap uuid settings_row
}.
Definition cells_of (user : uuid) (st : preference_store) : gmap (str * str) bool := default ∅ (ps_cells st !! user).

Fixpoint set_cell (category channel : str) (on : bool) (matrix : list preference_cell) : list preference_cell :=
  match matrix with
  | [] => []
  | c :: m => if is_cell category channel c then PreferenceCell (pc_category c) (pc_channel c) on :: m else c :: set_cell category channel on m
  end.
Definition read_settings (user : uuid) (st : preference_store) : settings :=
  match ps_settings st !! user with
  | None => default_settings user
  | Some r => Settings user (format_clock <$> sr_quiet_start r) (format_clock <$> sr_quiet_end r) (sr_timezone r) (sr_digest_cadence r) (sr_digest_weekday r) (sr_digest_hour r)
  end.
Definition read_preferences (user : uuid) (st : preference_store) : preferences :=
  Preferences user (foldl (fun m kv => set_cell (fst (fst kv)) (snd (fst kv)) (snd kv) m) default_matrix (map_to_list (cells_of user st))) (read_settings user st).

(** One upsert, and whether a row changed. *)
Definition write_cell (c : preference_cell) (m : gmap (str * str) bool) : nat * gmap (str * str) bool :=
  let on := pc_enabled c || str_eqb (pc_channel c) IN_APP in
  let k := (pc_category c, pc_channel c) in
  if bool_decide (m !! k = Some on) then (0%nat, m) else (1%nat, <[k := on]> m).
Fixpoint write_cells (cells : list preference_cell) (m : gmap (str * str) bool) : nat * gmap (str * str) bool :=
  match cells with
  | [] => (0%nat, m)
  | c :: cells => let '(n, m) := write_cell c m in let '(k, m) := write_cells cells m in ((n + k)%nat, m)
  end.

Definition split_channels (p : preferences) (category : str) : list str * list str :=
  (List.filter (allows_channel p category) CHANNELS, List.filter (fun ch => negb (allows_channel p category ch)) CHANNELS).
Definition allowed_channels (user : uuid) (category : str) (st : preference_store) : list str := fst (split_channels (read_preferences user st) category).
Definition disabled_channels (user : uuid) (category : str) (st : preference_store) : list str := snd (split_channels (read_preferences user st) category).

Definition reset_preferences (user : uuid) (st : preference_store) : nat * preference_store :=
  (size (cells_of user st), PreferenceStore (delete user (ps_cells st)) (ps_settings st)).

Section Store.
Variable cast_time : str -> option Z.

(** [$n::time] of a text that may be null. *)
Definition cast_clock (text : option str) : option (option Z) :=
  match text with None => Some None | Some t => Some <$> cast_time t end.
Definition schema_settings (r : settings_row) : bool :=
  existsb (str_eqb (sr_digest_cadence r)) DIGEST_CADENCES
  && match sr_digest_weekday r with Some w => (0 <=? w) && (w <=? 6) | None => true end
  && (0 <=? sr_digest_hour r) && (sr_digest_hour r <=? 23).
Definition write_settings (user : uuid) (s : settings) (st : preference_store) : result preference_store notification_error :=
  match cast_clock (st_quiet_hours_start s), cast_clock (st_quiet_hours_end s) with
  | Some start, Some end_ =>
      let r := SettingsRow start end_ (st_timezone s) (st_digest_cadence s) (st_digest_weekday s) (st_digest_hour s) in
      require schema_settings r else NotificationDatabase in
      Ok (PreferenceStore (ps_cells st) (<[user := r]> (ps_settings st)))
  | _, _ => Err NotificationDatabase
  end.

(** The statements are separate: what ran before a refused one stays. *)
Definition write_preferences (user : uuid) (cells : list preference_cell) (s : settings) (st : preference_store) :
  result nat notification_error * preference_store :=
  match validate_stated cells, validate_settings s with
  | Err e, _ | _, Err e => (Err e, st)
  | Ok _, Ok _ =>
      let '(changed, m) := write_cells cells (cells_of user st) in
      let st := match cells with [] => st | _ => PreferenceStore (<[user := m]> (ps_cells st)) (ps_settings st) end in
      match write_settings user s st with
      | Ok st => (Ok changed, st)
      | Err e => (Err e, st)
      end
  end.
End Store.

(** ** Clocks: lemmas *)

Lemma parse_format_clock m : 0 <= m < 1440 -> parse_clock (Some (format_clock m)) = Some m.
Proof.
  intros H. assert (forallb (fun m => bool_decide (parse_clock (Some (format_clock m)) = Some m)) (seqZ 0 1440) = true) as E by (vm_compute; reflexivity).
  apply (bool_decide_eq_true_1 _). apply (proj1 (forallb_elem _ _) E). apply elem_of_seqZ. lia.
Qed.
Lemma parse_clock_range t m : parse_clock t = Some m -> 0 <= m < 1440.
Proof.
  unfold parse_clock. intros (raw & _ & ((h & x) & _ & (hour & _ & (first & _ & (minute & _ & H)%bind_Some)%bind_Some)%bind_Some)%bind_Some)%bind_Some.
  destruct ((0 <=? hour) && _ && _) eqn:E; [|done]. injection H as <-. bool_prop. lia.
Qed.
Lemma mod_day x : -1440 < x < 1440 -> x mod 1440 = if x <? 0 then x + 1440 else x.
Proof.
  intros H. destruct (Z.ltb_spec x 0); [|apply Z.mod_small; lia].
  symmetry. apply (Z.mod_unique x 1440 (-1)); lia.
Qed.

(** A window is what follows its start, around the clock. *)
Lemma in_window_cyclic now start end_ :
  0 <= now < 1440 -> 0 <= start < 1440 -> 0 <= end_ < 1440 -> start <> end_ ->
  in_window now start end_ = ((now - start) mod 1440 <? (end_ - start) mod 1440).
Proof.
  intros Hn Hs He Hne. unfold in_window. rewrite (proj2 (Z.eqb_neq _ _) Hne), !mod_day by lia.
  apply eq_true_iff_eq. rewrite Z.ltb_lt.
  destruct (Z.ltb_spec start end_), (Z.ltb_spec (end_ - start) 0), (Z.ltb_spec (now - start) 0); try lia; bool_prop; lia.
Qed.
Lemma hour_minute_range local : 0 <= hour_minute local < 1440.
Proof. apply Z.mod_pos_bound. lia. Qed.

Lemma validate_quiet_ok a b :
  validate_quiet_hours (Some a) (Some b) = Ok tt ->
  exists s e, parse_clock (Some a) = Some s /\ parse_clock (Some b) = Some e /\ 0 <= s < 1440 /\ 0 <= e < 1440 /\ s <> e /\ 0 < (e - s) mod 1440 <= 1380.
Proof.
  unfold validate_quiet_hours. destruct (parse_clock (Some a)) as [s|] eqn:Es, (parse_clock (Some b)) as [e|] eqn:Ee; try done.
  pose proof (parse_clock_range _ _ Es). pose proof (parse_clock_range _ _ Ee). change (24 * 60) with 1440. intros [E _]%refuse_ok.
  exists s, e. pose proof (Z.mod_pos_bound (e - s) 1440 ltac:(lia)). unfold MIN_AWAKE_HOURS in E. bool_prop. split_and!; try done; try lia.
  intros ->. rewrite Z.sub_diag, Z.mod_0_l in * by lia. lia.
Qed.

(** Quiet hours are the stretch of the day that was set: for every window that the validation
    lets through, a reader is in quiet hours exactly when the clock of the zone shows less than the
    length of the window after its start, around midnight too, and the hour after its end is always
    awake. *)
Theorem quiet_hours_follow_the_clock (s : settings) (start end_ : str) :
  st_quiet_hours_start s = Some start -> st_quiet_hours_end s = Some end_ -> validate_settings s = Ok tt ->
  exists a b, parse_clock (Some start) = Some a /\ parse_clock (Some end_) = Some b /\ 0 < (b - a) mod 1440 <= 1380
  /\ forall now, (in_quiet_hours s now = true <-> (hour_minute (local_now s now) - a) mod 1440 < (b - a) mod 1440)
                 /\ forall i, 0 <= i < 60 -> hour_minute (local_now s now) = (b + i) mod 1440 -> in_quiet_hours s now = false.
Proof.
  intros Es Ee. unfold validate_settings. intros [_ H]%require_ok. apply require_ok in H as [_ H]. apply refuse_ok in H as [_ H]. apply refuse_ok in H as [_ H].
  apply result_bind_ok in H as ([] & H & _). rewrite Es, Ee in H. apply validate_quiet_ok in H as (a & b & Ea & Eb & Ha & Hb & Hne & Hl).
  exists a, b. split_and!; try done; try lia. intros now. unfold in_quiet_hours. rewrite Es, Ee, Ea, Eb.
  rewrite in_window_cyclic by (auto using hour_minute_range). split; [apply Z.ltb_lt|]. intros i Hi ->. apply Z.ltb_ge.
  rewrite Zminus_mod_idemp_l. replace (b + i - a) with ((b - a) + i) by lia. rewrite <- Zplus_mod_idemp_l. rewrite (Z.mod_small (_ + _)); lia.
Qed.

(** ** The matrix: lemmas *)

Lemma is_cell_eq cat ch c : is_cell cat ch c = true <-> pc_category c = cat /\ pc_channel c = ch.
Proof. unfold is_cell. by rewrite andb_true_iff, !str_eqb_eq. Qed.

Definition value_in (matrix : list preference_cell) (cat ch : str) : option bool := pc_enabled <$> List.find (is_cell cat ch) matrix.
Lemma enabled_value p cat ch : enabled p cat ch = default true (value_in (pf_matrix p) cat ch).
Proof. unfold enabled, value_in. by destruct (List.find _ _). Qed.

Lemma value_set_cell cat ch cat' ch' on m :
  value_in (set_cell cat' ch' on m) cat ch
  = (if bool_decide ((cat, ch) = (cat', ch')) then (fun _ => on) <$> value_in m cat ch else value_in m cat ch).
Proof.
  unfold value_in. induction m as [|c m IH]; cbn [set_cell List.find]; [by case_bool_decide|].
  destruct (is_cell cat' ch' c) eqn:E'; cbn [List.find].
  - change (is_cell cat ch (PreferenceCell (pc_category c) (pc_channel c) on)) with (is_cell cat ch c). apply is_cell_eq in E' as [<- <-].
    destruct (is_cell cat ch c) eqn:E; [apply is_cell_eq in E as [<- <-]; by rewrite bool_decide_true|].
    rewrite bool_decide_false; [done|]. intros [= -> ->]. by rewrite (proj2 (is_cell_eq _ _ c) (conj eq_refl eq_refl)) in E.
  - destruct (is_cell cat ch c) eqn:E; [|apply IH]. case_bool_decide as Eq; [injection Eq as -> ->; congruence|done].
Qed.

Lemma value_fold cat ch (l : list (str * str * bool)) m :
  NoDup l.*1 ->
  value_in (foldl (fun m kv => set_cell (fst (fst kv)) (snd (fst kv)) (snd kv) m) m l) cat ch
  = old ← value_in m cat ch; Some (default old ((list_to_map l : gmap (str * str) bool) !! (cat, ch))).
Proof.
  revert m. induction l as [|[[cat' ch'] on] l IH]; intros m N; cbn [foldl fst snd list_to_map foldr].
  - rewrite lookup_empty. by destruct (value_in m cat ch).
  - cbn [fmap list_fmap fst] in N. apply NoDup_cons in N as [Hn N]. rewrite IH, value_set_cell by done. case_bool_decide as E.
    + injection E as -> ->. cbn. rewrite (not_elem_of_list_to_map_1 l) by done. rewrite lookup_insert_eq. by destruct (value_in m cat' ch').
    + cbn. rewrite lookup_insert_ne by congruence. done.
Qed.

Lemma elem_of_existsb_str v (l : list str) : existsb (str_eqb v) l = true <-> v ∈ l.
Proof. rewrite existsb_elem. split; [intros (x & Hx & ->%str_eqb_eq); done|intros H; exists v; by rewrite str_eqb_refl]. Qed.

Lemma default_matrix_complete cat ch : is_category cat = true -> is_channel ch = true -> value_in default_matrix cat ch = Some true.
Proof.
  unfold is_category, is_channel. rewrite !elem_of_existsb_str. intros Hc Hh.
  assert (forallb (fun c => forallb (fun h => bool_decide (value_in default_matrix c h = Some true)) CHANNELS) CATEGORIES = true) as E by (vm_compute; reflexivity).
  pose proof (proj1 (forallb_elem _ _) E cat Hc) as E'. apply (bool_decide_eq_true_1 _). by apply (proj1 (forallb_elem _ _) E' ch Hh).
Qed.

(** What is stored decides, and what is not is on. *)
Lemma read_enabled user st cat ch :
  is_category cat = true -> is_channel ch = true -> enabled (read_preferences user st) cat ch = default true (cells_of user st !! (cat, ch)).
Proof.
  intros Hc Hh. rewrite enabled_value. unfold read_preferences. cbn [pf_matrix]. rewrite value_fold by apply NoDup_fst_map_to_list.
  rewrite default_matrix_complete by done. cbn. by rewrite list_to_map_to_list.
Qed.

(** ** Saving *)

Definition stated (cells : list preference_cell) (cat ch : str) : option preference_cell := List.find (is_cell cat ch) cells.

Lemma validate_cells_ok seen cells :
  validate_cells seen cells = Ok tt ->
  NoDup ((fun c => (pc_category c, pc_channel c)) <$> cells)
  /\ (forall c, c ∈ cells -> ((pc_category c, pc_channel c) ∉ seen) /\ is_category (pc_category c) = true /\ is_channel (pc_channel c) = true
                             /\ (pc_channel c = IN_APP -> pc_enabled c = true)).
Proof.
  revert seen. induction cells as [|c cells IH]; intros seen H; cbn [validate_cells] in H.
  - split; [apply NoDup_nil_2|]. by intros c Hc%elem_of_nil.
  - apply require_ok in H as [Hc H]. apply require_ok in H as [Hh H]. apply refuse_ok in H as [Hi H]. apply refuse_ok in H as [Hs H].
    apply bool_decide_eq_false in Hs. destruct (IH _ H) as [N G]. split.
    + cbn. apply NoDup_cons. split; [|done]. intros (x & E & Hx)%list_elem_of_fmap. destruct (G x Hx) as [Hn _]. rewrite <- E in Hn. apply Hn, list_elem_of_here.
    + intros x [->|Hx]%elem_of_cons.
      * split_and!; try done. intros E. rewrite E in Hi. destruct (pc_enabled c); done.
      * destruct (G x Hx) as (Hn & ? & ? & ?). split_and!; try done. intros Hin. apply Hn. by apply list_elem_of_further.
Qed.

Lemma write_cell_lookup c m k :
  snd (write_cell c m) !! k = if bool_decide (k = (pc_category c, pc_channel c)) then Some (pc_enabled c || str_eqb (pc_channel c) IN_APP) else m !! k.
Proof.
  unfold write_cell. destruct (bool_decide (m !! _ = _)) eqn:E; cbn [snd].
  - apply bool_decide_eq_true in E. case_bool_decide as Ek; [by subst|done].
  - clear E. case_bool_decide as Ek; [rewrite Ek; apply lookup_insert_eq|by apply lookup_insert_ne].
Qed.

Lemma write_cells_lookup cells m cat ch :
  NoDup ((fun c => (pc_category c, pc_channel c)) <$> cells) ->
  snd (write_cells cells m) !! (cat, ch)
  = match stated cells cat ch with Some c => Some (pc_enabled c || str_eqb (pc_channel c) IN_APP) | None => m !! (cat, ch) end.
Proof.
  revert m. induction cells as [|c cells IH]; intros m N; [done|]. cbn [fmap list_fmap] in N. apply NoDup_cons in N as [Hn N].
  cbn [write_cells]. destruct (write_cell c m) as [n m'] eqn:E. destruct (write_cells cells m') as [k m''] eqn:E'. cbn [snd].
  specialize (IH m' N). rewrite E' in IH. cbn [snd] in IH. rewrite IH. clear IH. pose proof (write_cell_lookup c m (cat, ch)) as W. rewrite E in W. cbn [snd] in W.
  unfold stated in *. cbn [List.find]. destruct (is_cell cat ch c) eqn:Ec.
  - apply is_cell_eq in Ec as [<- <-]. destruct (List.find _ cells) as [x|] eqn:Ex.
    + apply find_some in Ex as [Hx%list_elem_of_In [E1 E2]%is_cell_eq]. destruct Hn. apply list_elem_of_fmap. exists x. by rewrite E1, E2.
    + rewrite W. by rewrite bool_decide_true.
  - destruct (List.find _ cells); [done|]. rewrite W, bool_decide_false; [done|]. intros [= -> ->]. by rewrite (proj2 (is_cell_eq _ _ c) (conj eq_refl eq_refl)) in Ec.
Qed.

Lemma stated_elem cells cat ch c : stated cells cat ch = Some c -> c ∈ cells /\ pc_category c = cat /\ pc_channel c = ch.
Proof. by intros [H%list_elem_of_In E%is_cell_eq]%find_some. Qed.

Section Saving.
Context (cast_time : str -> option Z).

(** The server reads a clock in text as the crate does. *)
Definition read_alike (text : option str) : Prop := forall t, text = Some t -> cast_time t = parse_clock (Some t).

Lemma cast_clock_reads text m : read_alike text -> cast_clock cast_time text = Some m -> parse_clock (format_clock <$> m) = parse_clock text.
Proof.
  intros H. destruct text as [t|]; cbn [cast_clock]; [|by intros [= <-]]. rewrite (H t eq_refl). destruct (parse_clock (Some t)) as [x|] eqn:E; [|done].
  intros [= <-]. cbn. by apply parse_format_clock, (parse_clock_range (Some t)).
Qed.

Lemma write_settings_ok user s st st' :
  write_settings cast_time user s st = Ok st' ->
  ps_cells st' = ps_cells st /\ (forall u, u <> user -> ps_settings st' !! u = ps_settings st !! u)
  /\ exists a b, cast_clock cast_time (st_quiet_hours_start s) = Some a /\ cast_clock cast_time (st_quiet_hours_end s) = Some b
     /\ read_settings user st' = Settings user (format_clock <$> a) (format_clock <$> b) (st_timezone s) (st_digest_cadence s) (st_digest_weekday s) (st_digest_hour s).
Proof.
  unfold write_settings. destruct (cast_clock _ _) as [a|] eqn:Ea; [|done]. destruct (cast_clock _ (st_quiet_hours_end s)) as [b|] eqn:Eb; [|done].
  intros [_ [= <-]]%require_ok. split; [done|]. split.
  - intros u Hu. cbn. by rewrite lookup_insert_ne.
  - exists a, b. split_and!; try done. unfold read_settings. cbn. by rewrite lookup_insert_eq.
Qed.

(** A saved form is the form that is read: after a save every cell that was named has the value
    it was given, every other keeps the one it had, the bell is on whatever was sent, the digest is
    as sent, quiet hours hold at the same instants, if the server reads the two clocks as the crate
    does, and nobody else's configuration changes. *)
Theorem saved_preferences_are_read (user : uuid) (cells : list preference_cell) (s : settings) (st st' : preference_store) (changed : nat) :
  write_preferences cast_time user cells s st = (Ok changed, st') ->
  (forall category channel, is_category category = true -> is_channel channel = true ->
     allows_channel (read_preferences user st') category channel
     = match stated cells category channel with Some c => pc_enabled c | None => allows_channel (read_preferences user st) category channel end)
  /\ (read_alike (st_quiet_hours_start s) -> read_alike (st_quiet_hours_end s) ->
      forall now, in_quiet_hours (read_settings user st') now = in_quiet_hours s now)
  /\ (forall `{Calendar} now, digest_due (read_settings user st') now = digest_due s now)
  /\ (forall other, other <> user -> read_preferences other st' = read_preferences other st).
Proof.
  unfold write_preferences, validate_stated. destruct (validate_cells [] cells) as [[]|] eqn:Ev; [|done]. cbn [result_bind].
  destruct (validate_settings s) as [[]|] eqn:Es; [|done]. apply validate_cells_ok in Ev as [N G].
  destruct (write_cells cells (cells_of user st)) as [n m] eqn:Em. set (st1 := match cells with [] => st | _ => _ end).
  destruct (write_settings cast_time user s st1) as [st2|] eqn:Ew; [|done]. intros [= <- <-].
  apply write_settings_ok in Ew as (Hc & Ho & a & b & Ea & Eb & Er).
  assert (cells_of user st2 = m) as Ecells.
  { unfold cells_of. rewrite Hc. unfold st1. destruct cells as [|c l]; [|cbn [ps_cells]; by rewrite lookup_insert_eq].
    cbn in Em. injection Em as _ <-. done. }
  split_and!.
  - intros cat ch Hcat Hch. unfold allows_channel. destruct (str_eqb ch IN_APP) eqn:Eh.
    + destruct (stated cells cat ch) as [c|] eqn:Ec; [|done]. apply stated_elem in Ec as (Hin & _ & Hh). symmetry. apply str_eqb_eq in Eh.
      apply (G c Hin). congruence.
    + rewrite !read_enabled, Ecells by done. replace m with (snd (write_cells cells (cells_of user st))) by by rewrite Em. rewrite write_cells_lookup by done.
      destruct (stated cells cat ch) as [c|] eqn:Ec; [|done]. apply stated_elem in Ec as (_ & _ & ->). by rewrite Eh, orb_false_r.
  - intros Ha Hb now. unfold in_quiet_hours. rewrite Er. cbn [st_quiet_hours_start st_quiet_hours_end].
    rewrite (cast_clock_reads _ a Ha Ea), (cast_clock_reads _ b Hb Eb). done.
  - intros C now. by rewrite Er.
  - intros other Hne. unfold read_preferences, cells_of, read_settings. rewrite Hc, Ho by done. unfold st1. destruct cells; [done|].
    cbn [ps_cells ps_settings]. by rewrite lookup_insert_ne.
Qed.

(** The cells are written before the settings are: when the server cannot read a clock that the crate
    reads, the answer is an error and the cells stay saved. *)
Lemma failed_save_keeps_the_cells :
  exists user cells s st, fst (write_preferences (fun t => if str_eqb t s!"22:00" then Some 1320 else None) user cells s st) = Err NotificationDatabase
  /\ validate_settings s = Ok tt
  /\ allows_channel (read_preferences user st) s!"ticket" s!"email" = true
  /\ allows_channel (read_preferences user (snd (write_preferences (fun t => if str_eqb t s!"22:00" then Some 1320 else None) user cells s st)))
       s!"ticket" s!"email" = false.
Proof.
  exists 5%N, [PreferenceCell s!"ticket" s!"email" false], (Settings 5 (Some s!"22:00") (Some s!"+7:00:am") s!"UTC" s!"off" None 8), (PreferenceStore ∅ ∅).
  by vm_compute.
Qed.
End Saving.

(** ** Witnesses *)

Definition night : settings := Settings 5 (Some s!"22:00") (Some s!" 07:00:00 ") s!"Europe/Istanbul" s!"off" None 8.
Lemma quiet_hours_follow_the_clock_witness :
  exists a b, parse_clock (st_quiet_hours_start night) = Some a /\ parse_clock (st_quiet_hours_end night) = Some b /\ 0 < (b - a) mod 1440 <= 1380.
Proof.
  destruct (quiet_hours_follow_the_clock night s!"22:00" s!" 07:00:00 ") as (a & b & Ea & Eb & H & _); try reflexivity. by exists a, b.
Defined.

Lemma saved_preferences_are_read_witness :
  exists st', write_preferences (fun t => parse_clock (Some t)) 5 [PreferenceCell s!"ticket" s!"email" false] night (PreferenceStore ∅ ∅) = (Ok 1%nat, st')
  /\ allows_channel (read_preferences 5 st') s!"ticket" s!"email" = false
  /\ forall now, in_quiet_hours (read_settings 5 st') now = in_quiet_hours night now.
Proof.
  eexists. split; [vm_compute; reflexivity|].
  match goal with |- context [read_preferences 5 ?st] => set (st' := st) end.
  destruct (saved_preferences_are_read (fun t => parse_clock (Some t)) 5 [PreferenceCell s!"ticket" s!"email" false] night (PreferenceStore ∅ ∅) st' 1) as (H1 & H2 & _).
  - vm_compute. reflexivity.
  - split; [by rewrite (H1 s!"ticket" s!"email")|]. apply H2; by intros t _.
Defined.
