(* ===== verification/Inbox.v ===== *)
(** * The inbox: [crates/notifications/src/model.rs], [store.rs], the producer side of [delivery.rs]
      and [apps/api/src/routes/notifications.rs]

    Notifications with their constraints, the rows that queue them on every channel, the reads and
    the changes of their reader, and the route that emits them.  Ids are arguments; instants are
    microseconds.  Parsing of the query string and events are not modelled. *)

From S2P Require Import Prelude Json Roles Preferences.

Section Inbox.
Context `{J : JsonNumber}.

(** ** Rows *)

Record notification := Notification {
  nt_id : uuid;
  nt_organization_id : option uuid;
  nt_user_id : uuid;
  nt_category : str;
  nt_priority : str;
  nt_title : str;
  nt_body : str;
  nt_url : option str;
  nt_source_type : option str;
  nt_source_id : option str;
  nt_payload : value;
  nt_emitted_by : option uuid;
  nt_dedupe_key : option str;
  nt_read_at : option instant;
  nt_archived_at : option instant;
  nt_created_at : instant
}.
Definition is_unread (n : notification) : bool := negb (is_given (nt_read_at n)).

Record new_notification := NewNotification {
  nn_user_id : uuid;
  nn_category : str;
  nn_priority : str;
  nn_title : str;
  nn_body : str;
  nn_url : option str;
  nn_source_type : option str;
  nn_source_id : option str;
  nn_payload : value;
  nn_dedupe_key : option str
}.
Definition notification_to (user : uuid) (category title : str) : new_notification :=
  NewNotification user category s!"normal" title [] None None None (VObject []) None.

Definition build (n : new_notification) : result new_notification notification_error :=
  require is_category (nn_category n) else BadDefinition s!"category" in
  require is_priority (nn_priority n) else BadDefinition s!"priority" in
  refuse str_eqb (trim (nn_title n)) [] with BadDefinition s!"a notification needs a title" in
  Ok n.

Inductive delivery_status := Pending | Sent | Failed | Skipped.
#[export] Instance delivery_status_eq_dec : EqDecision delivery_status.
Proof. solve_decision. Defined.
Record delivery_row := DeliveryRow {
  dv_id : uuid;
  dv_notification_id : uuid;
  dv_channel : str;
  dv_status : delivery_status;
  dv_attempts : Z;
  dv_max_attempts : Z;
  dv_next_attempt_at : instant;
  dv_response_status : option Z;
  dv_error : option str;
  dv_sent_at : option instant;
  dv_created_at : instant;
  dv_claimed_at : option instant
}.

(** What the queries read of an account. *)
Record account := Account { ac_id : uuid; ac_email : option str; ac_organization_id : option uuid; ac_active : bool }.

Record inbox := Inbox {
  ib_accounts : list account;
  ib_preferences : preference_store;
  ib_notifications : list notification;
  ib_deliveries : list delivery_row
}.
Definition with_notifications (l : list notification) (st : inbox) : inbox := Inbox (ib_accounts st) (ib_preferences st) l (ib_deliveries st).
Definition with_delivery_rows (l : list delivery_row) (st : inbox) : inbox := Inbox (ib_accounts st) (ib_preferences st) (ib_notifications st) l.

(** ** Queueing *)

Definition READER_SWITCHED_IT_OFF : str := s!"the reader has this channel switched off".
Definition NO_TRANSPORT_YET : str := s!"this channel has no transport installed on this installation".
Definition QUEUEABLE : list str := [s!"email"; s!"web_push"; s!"webhook"].
Definition MAX_ATTEMPTS : Z := 3.

Definition channels_without_transport : list str :=
  List.filter (fun ch => negb (str_eqb ch IN_APP) && negb (existsb (str_eqb ch) QUEUEABLE)) CHANNELS.
Definition remote_channels : list str := List.filter (fun ch => negb (str_eqb ch IN_APP)) CHANNELS.

Record enqueue_report := EnqueueReport { en_queued : nat; en_skipped : nat }.
Definition enqueue_total (r : enqueue_report) : nat := en_queued r + en_skipped r.

Definition queued_row (now : instant) (id notification : uuid) (channel : str) (status : delivery_status) (why : option str) : delivery_row :=
  DeliveryRow id notification channel status 0 MAX_ATTEMPTS now None why None now None.
Definition insert_delivery (now : instant) (id notification : uuid) (channel : str) (status : delivery_status) (why : option str)
    (l : list delivery_row) : bool * list delivery_row :=
  if existsb (fun d => (dv_notification_id d =? notification)%N && str_eqb (dv_channel d) channel) l then (false, l)
  else (true, l ++ [queued_row now id notification channel status why]).

(** One insert for every channel of a list, and how many rows there are more. *)
Fixpoint insert_each (now : instant) (fresh : str -> uuid) (notification : uuid) (status : delivery_status) (why : option str)
    (channels : list str) (l : list delivery_row) : nat * list delivery_row :=
  match channels with
  | [] => (0%nat, l)
  | ch :: channels =>
      let '(new, l) := insert_delivery now (fresh ch) notification ch status why l in
      let '(n, l) := insert_each now fresh notification status why channels l in
      ((if new then S n else n), l)
  end.
Definition queueable (ch : str) : bool := is_channel ch && negb (str_eqb ch IN_APP) && existsb (str_eqb ch) QUEUEABLE.
Definition enqueue (now : instant) (fresh : str -> uuid) (notification : uuid) (enabled disabled : list str) (l : list delivery_row) :
  enqueue_report * list delivery_row :=
  let '(a, l) := insert_each now fresh notification Pending None (List.filter queueable enabled) l in
  let '(b, l) := insert_each now fresh notification Skipped (Some READER_SWITCHED_IT_OFF) (List.filter queueable disabled) l in
  let '(c, l) := insert_each now fresh notification Pending None [IN_APP] l in
  let '(d, l) := insert_each now fresh notification Skipped (Some NO_TRANSPORT_YET) channels_without_transport l in
  (EnqueueReport (a + c) (b + d), l).

(** ** Recording *)

Definition new_row (id : uuid) (now : instant) (organization emitted_by : option uuid) (n : new_notification) : notification :=
  Notification id organization (nn_user_id n) (nn_category n) (nn_priority n) (nn_title n) (nn_body n) (nn_url n) (nn_source_type n) (nn_source_id n)
    (nn_payload n) emitted_by (nn_dedupe_key n) None None now.
Definition same_fact (user : uuid) (key : option str) (n : notification) : bool :=
  is_given key && (nt_user_id n =? user)%N && bool_decide (nt_dedupe_key n = key).
Definition has_account (user : uuid) (st : inbox) : bool := existsb (fun a => (ac_id a =? user)%N) (ib_accounts st).

(** The insert: nothing where the index of dedupe keys has the fact, refused where the reader or the sender is no account. *)
Definition insert_notification (id : uuid) (now : instant) (organization emitted_by : option uuid) (n : new_notification) (st : inbox) :
  result (option uuid) notification_error * inbox :=
  if existsb (same_fact (nn_user_id n) (nn_dedupe_key n)) (ib_notifications st) then (Ok None, st)
  else if negb (has_account (nn_user_id n) st && match emitted_by with Some sender => has_account sender st | None => true end)
  then (Err NotificationDatabase, st)
  else (Ok (Some id), with_notifications (ib_notifications st ++ [new_row id now organization emitted_by n]) st).

Definition record (id : uuid) (now : instant) (organization emitted_by : option uuid) (n : new_notification) (st : inbox) :
  result bool notification_error * inbox :=
  match build n with
  | Err e => (Err e, st)
  | Ok n => match insert_notification id now organization emitted_by n st with
            | (Ok new, st) => (Ok (is_given new), st)
            | (Err e, st) => (Err e, st)
            end
  end.

Definition record_with_deliveries (id : uuid) (fresh : str -> uuid) (now : instant) (organization emitted_by : option uuid) (n : new_notification)
    (st : inbox) : result (option (uuid * enqueue_report)) notification_error * inbox :=
  match build n with
  | Err e => (Err e, st)
  | Ok n =>
      match insert_notification id now organization emitted_by n st with
      | (Err e, st) => (Err e, st)
      | (Ok None, st) => (Ok None, st)
      | (Ok (Some id), st) =>
          let allowed := allowed_channels (nn_user_id n) (nn_category n) (ib_preferences st) in
          let disabled := disabled_channels (nn_user_id n) (nn_category n) (ib_preferences st) in
          let '(report, l) := enqueue now fresh id allowed disabled (ib_deliveries st) in
          (Ok (Some (id, report)), with_delivery_rows l st)
      end
  end.

(** Drafts in order, each with its generated ids; the first failure ends the loop and what was written stays. *)
Fixpoint record_many (nid : nat -> uuid) (k : nat) (now : instant) (organization emitted_by : option uuid) (drafts : list new_notification) (st : inbox) :
  result nat notification_error * inbox :=
  match drafts with
  | [] => (Ok 0%nat, st)
  | n :: drafts =>
      match record (nid k) now organization emitted_by n st with
      | (Err e, st) => (Err e, st)
      | (Ok new, st) =>
          match record_many nid (S k) now organization emitted_by drafts st with
          | (Ok created, st) => (Ok (if new then S created else created), st)
          | (Err e, st) => (Err e, st)
          end
      end
  end.

Record bulk_record := BulkRecord { br_created : nat; br_deduped : nat; br_queued : nat; br_skipped : nat }.
Definition add_recorded (outcome : option (uuid * enqueue_report)) (r : bulk_record) : bulk_record :=
  match outcome with
  | Some (_, e) => BulkRecord (S (br_created r)) (br_deduped r) (br_queued r + en_queued e) (br_skipped r + en_skipped e)
  | None => BulkRecord (br_created r) (S (br_deduped r)) (br_queued r) (br_skipped r)
  end.
Fixpoint record_many_with_deliveries (nid : nat -> uuid) (did : nat -> str -> uuid) (k : nat) (now : instant) (organization emitted_by : option uuid)
    (drafts : list new_notification) (report : bulk_record) (st : inbox) : result bulk_record notification_error * inbox :=
  match drafts with
  | [] => (Ok report, st)
  | n :: drafts =>
      match record_with_deliveries (nid k) (did k) now organization emitted_by n st with
      | (Err e, st) => (Err e, st)
      | (Ok outcome, st) => record_many_with_deliveries nid did (S k) now organization emitted_by drafts (add_recorded outcome report) st
      end
  end.

(** ** Reading *)

Record list_query := ListQuery {
  lq_categories : list str;
  lq_unread : option bool;
  lq_priorities : list str;
  lq_channel : option str;
  lq_include_archived : bool;
  lq_include_read : bool;
  lq_before : option instant;
  lq_limit : Z
}.
Definition of_reader (user : uuid) (n : notification) : bool := (nt_user_id n =? user)%N.
Definition push_filters (user : uuid) (q : list_query) (deliveries : list delivery_row) (n : notification) : bool :=
  of_reader user n
  && (lq_include_archived q || negb (is_given (nt_archived_at n)))
  && match lq_unread q with
     | Some true => is_unread n
     | Some false => negb (is_unread n)
     | None => lq_include_read q || is_unread n
     end
  && forallb (fun c => str_eqb (nt_category n) c) (lq_categories q)
  && forallb (fun p => str_eqb (nt_priority n) p) (lq_priorities q)
  && match lq_channel q with
     | Some ch => existsb (fun d => (dv_notification_id d =? nt_id n)%N && str_eqb (dv_channel d) ch) deliveries
     | None => true
     end
  && match lq_before q with
     | Some before => (nt_created_at n <? before) || (nt_created_at n =? before) && (nt_id n <? 0)%N
     | None => true
     end.
Definition newest_first (a b : notification) : comparison := then_with (Z.compare (nt_created_at b) (nt_created_at a)) (N.compare (nt_id b) (nt_id a)).

Record notification_page := NotificationPage { np_notifications : list notification; np_has_more : bool }.
Definition list_notifications (user : uuid) (q : list_query) (st : inbox) : notification_page :=
  let limit := Z.to_nat (Z.min (Z.max (lq_limit q) 1) MAX_PAGE) in
  let rows := take (S limit) (sort_by newest_first (List.filter (push_filters user q (ib_deliveries st)) (ib_notifications st))) in
  NotificationPage (take limit rows) (limit <? length rows)%nat.

Definition on_the_badge (user : uuid) (n : notification) : bool := of_reader user n && is_unread n && negb (is_given (nt_archived_at n)).
Record inbox_summary := Summary { sm_unread : Z; sm_by_category : list (str * Z) }.
(** The rows of the grouped statement. *)
Definition category_counts (user : uuid) (st : inbox) : list (str * Z) :=
  let badge := List.filter (on_the_badge user) (ib_notifications st) in
  (fun c => (c, Z.of_nat (length (List.filter (fun n => str_eqb (nt_category n) c) badge)))) <$> remove_dups (nt_category <$> badge).
Definition summary (user : uuid) (st : inbox) : inbox_summary :=
  let rows := category_counts user st in
  Summary (foldr (fun r n => snd r + n) 0 rows)
    ((fun c => (c, match List.find (fun r => str_eqb (fst r) c) rows with Some r => snd r | None => 0 end)) <$> CATEGORIES).

Definition is_mine (user id : uuid) (n : notification) : bool := (nt_id n =? id)%N && of_reader user n.
Definition find_notification (user id : uuid) (st : inbox) : option notification := List.find (is_mine user id) (ib_notifications st).
Definition find_by_dedupe_key (user : uuid) (key : str) (st : inbox) : option notification :=
  List.find (fun n => of_reader user n && bool_decide (nt_dedupe_key n = Some key)) (ib_notifications st).
Definition delivery_order (a b : delivery_row) : comparison := then_with (Z.compare (dv_created_at a) (dv_created_at b)) (str_cmp (dv_channel a) (dv_channel b)).
Definition deliveries_of (notification : uuid) (st : inbox) : list delivery_row :=
  sort_by delivery_order (List.filter (fun d => (dv_notification_id d =? notification)%N) (ib_deliveries st)).

(** ** Changing *)

Definition set_read_at (t : option instant) (n : notification) : notification :=
  Notification (nt_id n) (nt_organization_id n) (nt_user_id n) (nt_category n) (nt_priority n) (nt_title n) (nt_body n) (nt_url n) (nt_source_type n)
    (nt_source_id n) (nt_payload n) (nt_emitted_by n) (nt_dedupe_key n) t (nt_archived_at n) (nt_created_at n).
Definition set_archived_at (t : option instant) (n : notification) : notification :=
  Notification (nt_id n) (nt_organization_id n) (nt_user_id n) (nt_category n) (nt_priority n) (nt_title n) (nt_body n) (nt_url n) (nt_source_type n)
    (nt_source_id n) (nt_payload n) (nt_emitted_by n) (nt_dedupe_key n) (nt_read_at n) t (nt_created_at n).
Definition selected (user : uuid) (ids : list uuid) (n : notification) : bool := existsb (fun id => (nt_id n =? id)%N) ids && of_reader user n.

(** An update of the rows of a condition, with the rows it touched. *)
Definition change (p : notification -> bool) (f : notification -> notification) (st : inbox) : nat * inbox :=
  (length (List.filter p (ib_notifications st)), with_notifications (update_where p f (ib_notifications st)) st).

Definition set_read_many (user : uuid) (ids : list uuid) (read : bool) (now : instant) (st : inbox) : nat * inbox :=
  change (selected user ids) (fun n => set_read_at (if read then Some (default now (nt_read_at n)) else None) n) st.
Definition set_read (user id : uuid) (read : bool) (now : instant) (st : inbox) : nat * inbox := set_read_many user [id] read now st.
Definition mark_all_read (user : uuid) (now : instant) (st : inbox) : nat * inbox :=
  change (on_the_badge user) (set_read_at (Some now)) st.
Definition archive (user : uuid) (ids : list uuid) (now : instant) (st : inbox) : nat * inbox :=
  change (fun n => selected user ids n && negb (is_given (nt_archived_at n))) (set_archived_at (Some now)) st.
(** The delivery rows go with their notification. *)
Definition delete_notifications (user : uuid) (ids : list uuid) (st : inbox) : nat * inbox :=
  let gone := List.filter (selected user ids) (ib_notifications st) in
  (length gone,
   Inbox (ib_accounts st) (ib_preferences st) (List.filter (fun n => negb (selected user ids n)) (ib_notifications st))
     (List.filter (fun d => negb (existsb (fun n => (nt_id n =? dv_notification_id d)%N) gone)) (ib_deliveries st))).

(** ** The routes *)

Inductive inbox_refusal := TooManyIds | UnknownAction | NotificationNotFound | StoreRefused (e : notification_error) | NoRecipient
  | EmitRateLimited | UnknownRecipient (unknown : list uuid).

Definition bulk (user : uuid) (action : str) (ids : list uuid) (now : instant) (st : inbox) : result (nat * Z) inbox_refusal * inbox :=
  if (MAX_BULK_IDS <? length ids)%nat then (Err TooManyIds, st)
  else
    let answer r := (Ok (fst r, sm_unread (summary user (snd r))), snd r) in
    if str_eqb action s!"read" then answer (set_read_many user ids true now st)
    else if str_eqb action s!"unread" then answer (set_read_many user ids false now st)
    else if str_eqb action s!"archive" then answer (archive user ids now st)
    else if str_eqb action s!"delete" then answer (delete_notifications user ids st)
    else (Err UnknownAction, st).
Definition set_read_route (user id : uuid) (read : bool) (now : instant) (st : inbox) : result inbox_summary inbox_refusal * inbox :=
  let '(changed, st) := set_read user id read now st in
  if (changed =? 0)%nat && negb (is_given (find_notification user id st)) then (Err NotificationNotFound, st) else (Ok (summary user st), st).
Definition delete_route (user id : uuid) (st : inbox) : result unit inbox_refusal * inbox :=
  let '(changed, st) := delete_notifications user [id] st in
  ((if (changed =? 0)%nat then Err NotificationNotFound else Ok tt), st).
Definition get_route (user id : uuid) (st : inbox) : result (notification * list delivery_row) inbox_refusal :=
  let? n := ok_or (find_notification user id st) NotificationNotFound in Ok (n, deliveries_of (nt_id n) st).

Definition emits_in_the_last_minute (emitted_by : uuid) (now : instant) (st : inbox) : Z :=
  Z.of_nat (length (List.filter (fun n => bool_decide (nt_emitted_by n = Some emitted_by) && (now - 60000000 <? nt_created_at n)) (ib_notifications st))).
Definition within_emit_budget (emitted_by : uuid) (now : instant) (st : inbox) : bool := emits_in_the_last_minute emitted_by now st <? EMIT_BUDGET_PER_MINUTE.
Definition existing_users (ids : list uuid) (st : inbox) : list uuid := ac_id <$> List.filter (fun a => existsb (N.eqb (ac_id a)) ids) (ib_accounts st).

Record emit_body := EmitBody {
  em_category : str;
  em_priority : option str;
  em_title : str;
  em_body : option str;
  em_url : option str;
  em_source_type : option str;
  em_source_id : option str;
  em_payload : option value;
  em_dedupe_key : option str;
  em_user_ids : list uuid
}.
Definition draft_of (b : emit_body) (user : uuid) : new_notification :=
  let sourced := is_given (em_source_type b) && is_given (em_source_id b) in
  NewNotification user (em_category b) (default s!"normal" (em_priority b)) (em_title b) (default [] (em_body b)) (em_url b)
    (if sourced then em_source_type b else None) (if sourced then em_source_id b else None) (default (VObject []) (em_payload b)) (em_dedupe_key b).

Definition emit (nid : nat -> uuid) (did : nat -> str -> uuid) (now : instant) (sender : uuid) (organization : option uuid) (b : emit_body) (st : inbox) :
  result (nat * nat) inbox_refusal * inbox :=
  if negb (is_category (em_category b)) then (Err (StoreRefused (BadDefinition s!"category")), st)
  else if match em_priority b with Some p => negb (is_priority p) | None => false end then (Err (StoreRefused (BadDefinition s!"priority")), st)
  else if str_eqb (trim (em_title b)) [] then (Err (StoreRefused (BadDefinition s!"a notification needs a title")), st)
  else if match em_user_ids b with [] => true | _ => false end then (Err NoRecipient, st)
  else if negb (within_emit_budget sender now st) then (Err EmitRateLimited, st)
  else
    let known := existing_users (em_user_ids b) st in
    if negb (length known =? length (em_user_ids b))%nat
    then (Err (UnknownRecipient (List.filter (fun id => negb (existsb (N.eqb id) known)) (em_user_ids b))), st)
    else
      match record_many_with_deliveries nid did 0 now organization (Some sender) (draft_of b <$> em_user_ids b) (BulkRecord 0 0 0 0) st with
      | (Ok r, st) => (Ok (br_created r, br_deduped r), st)
      | (Err e, st) => (Err (StoreRefused e), st)
      end.
End Inbox.

(** ** Queueing: lemmas *)

Lemma filter_complement {A} (p : A -> bool) l : List.filter p l ++ List.filter (fun x => negb (p x)) l ≡ₚ l.
Proof.
  induction l as [|x l IH]; [done|]. cbn [List.filter]. destruct (p x); cbn [negb].
  - by rewrite <- app_comm_cons, IH.
  - by rewrite <- Permutation_middle, IH.
Qed.

Section Queueing.
Context `{J : JsonNumber}.

Definition fresh_rows (now : instant) (fresh : str -> uuid) (n : uuid) (status : delivery_status) (why : option str) (channels : list str) : list delivery_row :=
  (fun ch => queued_row now (fresh ch) n ch status why) <$> channels.

Lemma insert_each_new now fresh n status why channels l :
  NoDup channels -> (forall d, d ∈ l -> dv_notification_id d = n -> dv_channel d ∉ channels) ->
  insert_each now fresh n status why channels l = (length channels, l ++ fresh_rows now fresh n status why channels).
Proof.
  revert l. induction channels as [|ch channels IH]; intros l N H; [by rewrite app_nil_r|].
  apply NoDup_cons in N as [Hn N]. cbn [insert_each]. unfold insert_delivery. rewrite (proj2 (existsb_none _ _)).
  - rewrite IH; [by rewrite <- app_assoc|done|]. intros d [Hd| ->%list_elem_of_singleton]%elem_of_app E; [|done].
    intros Hin. apply (H d Hd E). by apply list_elem_of_further.
  - intros d Hd. destruct ((dv_notification_id d =? n)%N) eqn:E; [|done]. apply N.eqb_eq in E. apply str_eqb_neq. intros Ec.
    apply (H d Hd E). rewrite Ec. apply list_elem_of_here.
Qed.

Lemma fresh_rows_elem now fresh n status why channels d :
  d ∈ fresh_rows now fresh n status why channels -> exists ch, ch ∈ channels /\ d = queued_row now (fresh ch) n ch status why.
Proof. intros (ch & -> & H)%list_elem_of_fmap. eauto. Qed.

(** Four lists without a channel in common are queued one after the other. *)
Lemma enqueue_new now fresh n enabled disabled l :
  let a := List.filter queueable enabled in let b := List.filter queueable disabled in
  NoDup (a ++ b ++ [IN_APP] ++ channels_without_transport) -> (forall d, d ∈ l -> dv_notification_id d <> n) ->
  enqueue now fresh n enabled disabled l
  = (EnqueueReport (length a + 1) (length b + length channels_without_transport),
     l ++ fresh_rows now fresh n Pending None a ++ fresh_rows now fresh n Skipped (Some READER_SWITCHED_IT_OFF) b
       ++ fresh_rows now fresh n Pending None [IN_APP] ++ fresh_rows now fresh n Skipped (Some NO_TRANSPORT_YET) channels_without_transport).
Proof.
  intros a b N Hl. apply NoDup_app in N as (Na & Da & N). apply NoDup_app in N as (Nb & Db & N). apply NoDup_app in N as (Nc & Dc & Nd).
  unfold enqueue. rewrite insert_each_new; [|done|intros d Hd E; by destruct (Hl d Hd)].
  rewrite insert_each_new; [|done|].
  2:{ intros d [Hd|(ch & Hch & ->)%fresh_rows_elem]%elem_of_app E; [by destruct (Hl d Hd)|]. intros Hb. apply (Da ch Hch). apply elem_of_app. by left. }
  rewrite insert_each_new; [|done|].
  2:{ intros d [[Hd|(ch & Hch & ->)%fresh_rows_elem]%elem_of_app|(ch & Hch & ->)%fresh_rows_elem]%elem_of_app E; [by destruct (Hl d Hd)|..]; intros Hb.
      - apply (Da ch Hch). apply elem_of_app. right. apply elem_of_app. by left.
      - apply (Db ch Hch). apply elem_of_app. by left. }
  rewrite insert_each_new; [|done|].
  2:{ intros d [[[Hd|(ch & Hch & ->)%fresh_rows_elem]%elem_of_app|(ch & Hch & ->)%fresh_rows_elem]%elem_of_app|(ch & Hch & ->)%fresh_rows_elem]%elem_of_app E;
        [by destruct (Hl d Hd)|..]; intros Hb.
      - apply (Da ch Hch). apply elem_of_app. right. apply elem_of_app. by right.
      - apply (Db ch Hch). apply elem_of_app. by right.
      - by apply (Dc ch Hch). }
  by rewrite <- !app_assoc.
Qed.

Lemma fresh_rows_channels now fresh n status why channels : dv_channel <$> fresh_rows now fresh n status why channels = channels.
Proof. unfold fresh_rows. rewrite <- list_fmap_compose. by apply list_fmap_id. Qed.

Definition expected (p : preferences) (category ch : str) : delivery_status * option str :=
  if str_eqb ch IN_APP then (Pending, None)
  else if negb (existsb (str_eqb ch) QUEUEABLE) then (Skipped, Some NO_TRANSPORT_YET)
  else if allows_channel p category ch then (Pending, None) else (Skipped, Some READER_SWITCHED_IT_OFF).

Lemma channels_split p category :
  List.filter queueable (fst (split_channels p category)) ++ List.filter queueable (snd (split_channels p category)) ++ [IN_APP] ++ channels_without_transport ≡ₚ CHANNELS.
Proof.
  unfold split_channels. cbn [fst snd]. rewrite app_assoc, (filter_comm_bool queueable), (filter_comm_bool queueable), filter_complement.
  change (List.filter queueable CHANNELS ++ [IN_APP] ++ channels_without_transport) with [s!"email"; s!"web_push"; s!"webhook"; s!"in_app"; s!"chat"].
  unfold CHANNELS. change [s!"email"; s!"web_push"; s!"webhook"; s!"in_app"; s!"chat"] with ([s!"email"; s!"web_push"; s!"webhook"] ++ [s!"in_app"] ++ [s!"chat"]).
  by rewrite app_assoc, (Permutation_app_comm _ [s!"in_app"]).
Qed.
Lemma channels_NoDup : NoDup CHANNELS.
Proof. apply (bool_decide_eq_true_1 _). vm_compute. reflexivity. Qed.

Lemma insert_notification_ok id now organization by_ n st new st' :
  insert_notification id now organization by_ n st = (Ok (Some new), st') ->
  new = id /\ st' = with_notifications (ib_notifications st ++ [new_row id now organization by_ n]) st
  /\ existsb (same_fact (nn_user_id n) (nn_dedupe_key n)) (ib_notifications st) = false /\ has_account (nn_user_id n) st = true.
Proof.
  unfold insert_notification. destruct (existsb _ _) eqn:E; [done|]. destruct (has_account _ _) eqn:Ea; [|done]. cbn [andb]. destruct (negb _); [done|]. by intros [= <- <-].
Qed.

Lemma build_ok n n' : build n = Ok n' -> n' = n /\ is_category (nn_category n) = true /\ is_priority (nn_priority n) = true.
Proof. unfold build. intros [Hc H]%require_ok. apply require_ok in H as [Hp H]. by apply refuse_ok in H as [_ [= <-]]. Qed.

Definition switched_on (p : preferences) (category : str) : list str := List.filter queueable (fst (split_channels p category)).
Definition switched_off (p : preferences) (category : str) : list str := List.filter queueable (snd (split_channels p category)).
Definition new_rows (now : instant) (fresh : str -> uuid) (id : uuid) (p : preferences) (category : str) : list delivery_row :=
  fresh_rows now fresh id Pending None (switched_on p category)
  ++ fresh_rows now fresh id Skipped (Some READER_SWITCHED_IT_OFF) (switched_off p category)
  ++ fresh_rows now fresh id Pending None [IN_APP] ++ fresh_rows now fresh id Skipped (Some NO_TRANSPORT_YET) channels_without_transport.

Lemma new_rows_channels now fresh id p category : dv_channel <$> new_rows now fresh id p category ≡ₚ CHANNELS.
Proof. unfold new_rows. rewrite !fmap_app, !fresh_rows_channels. apply channels_split. Qed.

Lemma new_rows_elem now fresh id p category d :
  d ∈ new_rows now fresh id p category ->
  exists ch, d = queued_row now (fresh ch) id ch (fst (expected p category ch)) (snd (expected p category ch)).
Proof.
  intros Hd. apply elem_of_app in Hd as [(ch & Hch & ->)%fresh_rows_elem|Hd]; [|apply elem_of_app in Hd as [(ch & Hch & ->)%fresh_rows_elem|Hd];
    [|apply elem_of_app in Hd as [(ch & Hch & ->)%fresh_rows_elem|(ch & Hch & ->)%fresh_rows_elem]]]; exists ch; unfold expected.
  - apply elem_of_filter_bool in Hch as [[_ Ha]%elem_of_filter_bool [[_ Hi]%andb_true_iff Hq]%andb_true_iff]. by rewrite (proj1 (negb_true_iff _) Hi), Hq, Ha.
  - apply elem_of_filter_bool in Hch as [[_ Ha]%elem_of_filter_bool [[_ Hi]%andb_true_iff Hq]%andb_true_iff].
    by rewrite (proj1 (negb_true_iff _) Hi), Hq, (proj1 (negb_true_iff _) Ha).
  - by apply list_elem_of_singleton in Hch as ->.
  - apply elem_of_filter_bool in Hch as [_ [Hi Hq]%andb_true_iff]. by rewrite (proj1 (negb_true_iff _) Hi), Hq.
Qed.

Lemma record_enqueues id fresh now organization by_ n st st' answer :
  (forall d, d ∈ ib_deliveries st -> dv_notification_id d <> id) ->
  record_with_deliveries id fresh now organization by_ n st = (Ok answer, st') ->
  match answer with
  | None => st' = st
  | Some (id', report) =>
      id' = id /\ ib_notifications st' = ib_notifications st ++ [new_row id now organization by_ n]
      /\ ib_deliveries st' = ib_deliveries st ++ new_rows now fresh id (read_preferences (nn_user_id n) (ib_preferences st)) (nn_category n)
      /\ enqueue_total report = 5%nat
  end.
Proof.
  intros Hfresh. unfold record_with_deliveries. destruct (build n) as [n'|] eqn:Eb; [|done]. apply build_ok in Eb as (-> & _ & _).
  destruct (insert_notification _ _ _ _ _ _) as [[[new|]|] st1] eqn:Ei; [|intros [= <- <-]|done].
  - apply insert_notification_ok in Ei as (-> & -> & _ & _). cbn [ib_deliveries ib_preferences with_notifications]. unfold allowed_channels, disabled_channels.
    set (p := read_preferences _ _). pose proof (channels_split p (nn_category n)) as Hsplit.
    assert (enqueue_total (EnqueueReport (length (switched_on p (nn_category n)) + 1)
      (length (switched_off p (nn_category n)) + length channels_without_transport)) = 5%nat) as Htotal.
    { pose proof (Permutation_length Hsplit) as Hl. rewrite !length_app in Hl. change (length CHANNELS) with 5%nat in Hl.
      change (length [IN_APP]) with 1%nat in Hl. unfold enqueue_total, switched_on, switched_off. cbn [en_queued en_skipped]. lia. }
    rewrite enqueue_new; [|rewrite Hsplit; apply channels_NoDup|exact Hfresh]. intros [= <- <-]. split_and!; try done.
  - revert Ei. unfold insert_notification. destruct (existsb _ _); [by intros [= ->]|by destruct (negb _)].
Qed.

(** C34. A recorded notification is queued on every channel, once: with the row come five delivery
    rows, one for each channel of the closed list; the bell's waits for the runner whatever the reader
    switched off, the three that have a transport wait where the reader allows them and are skipped,
    with the reason, where not, and the one without a transport is skipped as such. *)
Theorem recorded_on_every_channel (id id' : uuid) (fresh : str -> uuid) (now : instant) (organization by_ : option uuid) (n : new_notification)
    (st st' : inbox) (report : enqueue_report) :
  (forall d, d ∈ ib_deliveries st -> dv_notification_id d <> id) ->
  record_with_deliveries id fresh now organization by_ n st = (Ok (Some (id', report)), st') ->
  id' = id /\ ib_notifications st' = ib_notifications st ++ [new_row id now organization by_ n]
  /\ exists rows, ib_deliveries st' = ib_deliveries st ++ rows
     /\ dv_channel <$> rows ≡ₚ CHANNELS
     /\ (forall d, d ∈ rows -> dv_notification_id d = id /\ dv_attempts d = 0 /\ dv_next_attempt_at d = now /\ dv_claimed_at d = None
           /\ (dv_status d, dv_error d) = expected (read_preferences (nn_user_id n) (ib_preferences st)) (nn_category n) (dv_channel d))
     /\ enqueue_total report = 5%nat.
Proof.
  intros Hfresh H. apply record_enqueues in H as (-> & En & Ed & Et); [|exact Hfresh]. split; [done|]. split; [exact En|].
  eexists. split; [exact Ed|]. split_and!; [apply new_rows_channels| |exact Et].
  intros d (ch & ->)%new_rows_elem. cbn [dv_status dv_error dv_channel queued_row]. split_and!; try done. by destruct (expected _ _ _).
Qed.

(** ** One fact, one row *)

Definition fact_of (n : notification) : option (uuid * str) := k ← nt_dedupe_key n; Some (nt_user_id n, k).
Definition facts_once (l : list notification) : Prop := NoDup (omap fact_of l).

Lemma same_fact_elem user key l : existsb (same_fact user (Some key)) l = true <-> (user, key) ∈ omap fact_of l.
Proof.
  rewrite existsb_elem, list_elem_of_omap. unfold same_fact, fact_of. split.
  - intros (n & Hn & [[_ <-%N.eqb_eq]%andb_true_iff E%bool_decide_eq_true]%andb_true_iff). exists n. by rewrite E.
  - intros (n & Hn & (k & E & [= <- <-])%bind_Some). exists n. split; [done|]. cbn. by rewrite N.eqb_refl, E, bool_decide_true.
Qed.

(** The same fact is one row: whatever two emits say, when they carry one key for one reader the
    second is collapsed, no row and no delivery is added by it, and the keys of a table stay distinct. *)
Theorem same_fact_is_one_row (id id2 : uuid) (fresh fresh2 : str -> uuid) (now now2 : instant) (organization by_ organization2 by2 : option uuid)
    (n n2 : new_notification) (key : str) (st st' : inbox) (answer : option (uuid * enqueue_report)) :
  nn_dedupe_key n = Some key -> nn_dedupe_key n2 = Some key -> nn_user_id n2 = nn_user_id n -> build n2 = Ok n2 ->
  record_with_deliveries id fresh now organization by_ n st = (Ok answer, st') ->
  record_with_deliveries id2 fresh2 now2 organization2 by2 n2 st' = (Ok None, st')
  /\ (facts_once (ib_notifications st) -> facts_once (ib_notifications st')).
Proof.
  intros Ek Ek2 Eu Eb2 H.
  assert ((nn_user_id n, key) ∈ omap fact_of (ib_notifications st') /\ (facts_once (ib_notifications st) -> facts_once (ib_notifications st'))) as [Hin Hf].
  { revert H. unfold record_with_deliveries. destruct (build n) as [n'|] eqn:Eb; [|done]. apply build_ok in Eb as (-> & _ & _).
    destruct (insert_notification _ _ _ _ _ _) as [[[new|]|] st1] eqn:Ei; [|intros [= <- <-]|done].
    - apply insert_notification_ok in Ei as (-> & -> & Hs & _). destruct (enqueue _ _ _ _ _ _) as [r l]. intros [= <- <-].
      cbn [ib_notifications with_notifications with_delivery_rows]. unfold facts_once. rewrite omap_app.
      assert (omap fact_of [new_row id now organization by_ n] = [(nn_user_id n, key)]) as -> by (cbn; by rewrite Ek).
      split; [apply elem_of_app; right; apply list_elem_of_here|]. intros N. apply NoDup_snoc; [done|].
      rewrite Ek in Hs. intros Hin%same_fact_elem. congruence.
    - revert Ei. unfold insert_notification. destruct (existsb _ _) eqn:E; [|by destruct (negb _)]. intros [= <-]. rewrite Ek in E.
      apply same_fact_elem in E. done. }
  split; [|exact Hf]. unfold record_with_deliveries. rewrite Eb2. unfold insert_notification. rewrite Ek2, Eu, (proj2 (same_fact_elem _ _ _) Hin). done.
Qed.

(** A process that ends between the two statements leaves a row that no later emit of the fact queues. *)
Lemma interrupted_record_is_never_queued id id2 fresh2 now now2 organization by_ organization2 by2 n n2 key st st' :
  nn_dedupe_key n = Some key -> nn_dedupe_key n2 = Some key -> nn_user_id n2 = nn_user_id n -> build n2 = Ok n2 ->
  insert_notification id now organization by_ n st = (Ok (Some id), st') ->
  snd (record_with_deliveries id2 fresh2 now2 organization2 by2 n2 st') = st' /\ ib_deliveries st' = ib_deliveries st.
Proof.
  intros Ek Ek2 Eu Eb2 (_ & -> & _)%insert_notification_ok. split; [|done]. unfold record_with_deliveries. rewrite Eb2. unfold insert_notification.
  rewrite Ek2, Eu, (proj2 (same_fact_elem _ _ _)); [done|]. cbn [ib_notifications with_notifications]. rewrite omap_app. apply elem_of_app. right.
  cbn. rewrite Ek. apply list_elem_of_here.
Qed.
End Queueing.

(** ** The reader's changes *)

Section Reader.
Context `{J : JsonNumber}.

Inductive reader_change :=
  | ReadRows (ids : list uuid) (read : bool)
  | ReadAll
  | ArchiveRows (ids : list uuid)
  | DeleteRows (ids : list uuid)
  | BulkRequest (action : str) (ids : list uuid)
  | ReadRoute (id : uuid) (read : bool)
  | DeleteRoute (id : uuid).
Definition apply_change (user : uuid) (now : instant) (c : reader_change) (st : inbox) : inbox :=
  match c with
  | ReadRows ids read => snd (set_read_many user ids read now st)
  | ReadAll => snd (mark_all_read user now st)
  | ArchiveRows ids => snd (archive user ids now st)
  | DeleteRows ids => snd (delete_notifications user ids st)
  | BulkRequest action ids => snd (bulk user action ids now st)
  | ReadRoute id read => snd (set_read_route user id read now st)
  | DeleteRoute id => snd (delete_route user id st)
  end.

(** Nothing of another reader has moved. *)
Record others_kept (user : uuid) (st st' : inbox) : Prop := OthersKept {
  ok_rows : List.filter (fun n => negb (of_reader user n)) (ib_notifications st') = List.filter (fun n => negb (of_reader user n)) (ib_notifications st);
  ok_queue : forall d, d ∈ ib_deliveries st -> (forall n, n ∈ ib_notifications st -> nt_id n = dv_notification_id d -> of_reader user n = false) -> d ∈ ib_deliveries st';
  ok_new : forall d, d ∈ ib_deliveries st' -> d ∈ ib_deliveries st;
  ok_rest : ib_accounts st' = ib_accounts st /\ ib_preferences st' = ib_preferences st
}.

Lemma change_keeps_others user p f st :
  (forall n, p n = true -> of_reader user n = true) -> (forall n, of_reader user (f n) = of_reader user n) ->
  others_kept user st (snd (change p f st)).
Proof.
  intros Hp Hf. split; try done. cbn [change snd ib_notifications with_notifications]. unfold update_where.
  induction (ib_notifications st) as [|n l IH]; [done|]. cbn [fmap list_fmap List.filter]. rewrite IH. destruct (p n) eqn:E; [|done].
  by rewrite Hf, (Hp n E).
Qed.

Lemma selected_mine user ids n : selected user ids n = true -> of_reader user n = true.
Proof. by intros [_ H]%andb_true_iff. Qed.

Lemma filter_others user ids l :
  List.filter (fun n => negb (of_reader user n)) (List.filter (fun n => negb (selected user ids n)) l) = List.filter (fun n => negb (of_reader user n)) l.
Proof.
  induction l as [|n l IH]; [done|]. cbn [List.filter]. destruct (selected user ids n) eqn:E; cbn [negb List.filter]; rewrite IH; [|done].
  by rewrite (selected_mine _ _ _ E).
Qed.

Lemma delete_keeps_others user ids st : others_kept user st (snd (delete_notifications user ids st)).
Proof.
  split; cbn [delete_notifications snd ib_notifications ib_deliveries]; [apply filter_others| |by intros d [? _]%elem_of_filter_bool|done].
  intros d Hd H. apply elem_of_filter_bool. split; [done|]. apply negb_true_iff, existsb_none.
  intros n [Hn Hs]%elem_of_filter_bool. apply N.eqb_neq. intros E. specialize (H n Hn E). by rewrite (selected_mine _ _ _ Hs) in H.
Qed.

Lemma others_kept_refl user st : others_kept user st st.
Proof. by split. Qed.

(** An inbox belongs to its reader: whatever a reader asks for, with whatever ids, no notification of
    somebody else is changed, no delivery of one is removed, and nothing is added. *)
Theorem changes_stay_in_the_inbox (user : uuid) (now : instant) (c : reader_change) (st : inbox) :
  others_kept user st (apply_change user now c st).
Proof.
  assert (forall ids read, others_kept user st (snd (set_read_many user ids read now st))) as Hread.
  { intros ids read. by apply change_keeps_others; [apply selected_mine|]. }
  assert (forall ids, others_kept user st (snd (archive user ids now st))) as Harchive.
  { intros ids. apply change_keeps_others; [by intros n [H _]%andb_true_iff; apply (selected_mine user ids)|done]. }
  destruct c as [ids read| |ids|ids|action ids|id read|id]; cbn [apply_change]; auto using delete_keeps_others.
  - apply change_keeps_others; [|done]. unfold on_the_badge. by intros n [[H _]%andb_true_iff _]%andb_true_iff.
  - unfold bulk. destruct (_ <? _)%nat; [apply others_kept_refl|]. destruct (str_eqb action s!"read"); [apply Hread|].
    destruct (str_eqb action s!"unread"); [apply Hread|]. destruct (str_eqb action s!"archive"); [apply Harchive|].
    destruct (str_eqb action s!"delete"); [apply delete_keeps_others|apply others_kept_refl].
  - unfold set_read_route, set_read. specialize (Hread [id] read). destruct (set_read_many _ _ _ _ _) as [changed st']. by destruct (_ && _).
  - unfold delete_route. pose proof (delete_keeps_others user [id] st) as H. by destruct (delete_notifications _ _ _) as [changed st'].
Qed.

(** Of the queue a reader only removes. *)
Definition removes_rows (c : reader_change) : bool :=
  match c with DeleteRows _ | DeleteRoute _ => true | BulkRequest action _ => str_eqb action s!"delete" | _ => false end.
Lemma kept_queue user now c st : removes_rows c = false -> ib_deliveries (apply_change user now c st) = ib_deliveries st.
Proof.
  destruct c as [ids read| |ids|ids|action ids|id read|id]; cbn [apply_change removes_rows]; try done.
  - intros E. unfold bulk. destruct (_ <? _)%nat; [done|]. rewrite E. by repeat destruct (str_eqb action _).
  - intros _. unfold set_read_route, set_read. assert (ib_deliveries (snd (set_read_many user [id] read now st)) = ib_deliveries st) as H by done.
    destruct (set_read_many _ _ _ _ _) as [changed st']. by destruct (_ && _).
Qed.
Lemma filtered_queue user now c st : exists p, ib_deliveries (apply_change user now c st) = List.filter p (ib_deliveries st).
Proof.
  destruct (removes_rows c) eqn:E; [|exists (fun _ => true); by rewrite kept_queue, filter_all].
  assert (forall ids, exists p, ib_deliveries (snd (delete_notifications user ids st)) = List.filter p (ib_deliveries st)) as Hdel by (intros ids; by eexists).
  destruct c as [ids read| |ids|ids|action ids|id read|id]; cbn [apply_change removes_rows] in *; try done.
  - unfold bulk. destruct (_ <? _)%nat; [exists (fun _ => true); by rewrite filter_all|].
    apply str_eqb_eq in E as ->. apply Hdel.
  - unfold delete_route. destruct (Hdel [id]) as (p & Hp). exists p. by destruct (delete_notifications _ _ _).
Qed.

(** ** Counting *)

Definition total (l : list (str * Z)) : Z := foldr (fun r n => snd r + n) 0 l.
Definition count_of (badge : list notification) (c : str) : Z := Z.of_nat (length (List.filter (fun n => str_eqb (nt_category n) c) badge)).

Lemma count_cons x l c : count_of (x :: l) c = (if str_eqb (nt_category x) c then 1 else 0) + count_of l c.
Proof. unfold count_of. cbn [List.filter]. destruct (str_eqb _ c); [rewrite length_cons; lia|lia]. Qed.

Lemma total_indicator x l (cs : list str) :
  NoDup cs -> nt_category x ∈ cs -> total ((fun c => (c, count_of (x :: l) c)) <$> cs) = 1 + total ((fun c => (c, count_of l c)) <$> cs).
Proof.
  intros N H. assert (forall cs, nt_category x ∉ cs -> total ((fun c => (c, count_of (x :: l) c)) <$> cs) = total ((fun c => (c, count_of l c)) <$> cs)) as H0.
  { clear. induction cs as [|c cs IH]; [done|]. intros [Hne Hn]%not_elem_of_cons. cbn [fmap list_fmap total foldr snd]. unfold total in IH. rewrite IH by done.
    rewrite count_cons. replace (str_eqb (nt_category x) c) with false; [done|]. symmetry. by apply str_eqb_neq. }
  induction cs as [|c cs IH]; [by apply elem_of_nil in H|]. apply NoDup_cons in N as [Hn N]. cbn [fmap list_fmap total foldr snd]. rewrite count_cons.
  destruct (str_eqb (nt_category x) c) eqn:E.
  - apply str_eqb_eq in E as E'. subst c. pose proof (H0 cs Hn) as H1. unfold total in H1. rewrite H1. lia.
  - apply str_eqb_neq in E. apply elem_of_cons in H as [?|H]; [done|]. pose proof (IH N H) as H1. unfold total in H1. rewrite H1. lia.
Qed.

(** Counting by category counts every row once. *)
Lemma total_counts l (cs : list str) :
  NoDup cs -> (forall n, n ∈ l -> nt_category n ∈ cs) -> total ((fun c => (c, count_of l c)) <$> cs) = Z.of_nat (length l).
Proof.
  intros N. induction l as [|x l IH]; intros H.
  - clear. induction cs as [|c cs IH]; [done|]. cbn in *. unfold total in IH. by rewrite IH.
  - rewrite total_indicator by (try done; apply H, list_elem_of_here). rewrite IH; [rewrite length_cons; lia|]. intros n Hn. by apply H, list_elem_of_further.
Qed.

Lemma find_count badge c (cs : list str) :
  match List.find (fun r => str_eqb (fst r) c) ((fun c => (c, count_of badge c)) <$> cs) with Some r => snd r | None => 0 end
  = if bool_decide (c ∈ cs) then count_of badge c else 0.
Proof.
  induction cs as [|x cs IH]; [done|]. cbn [fmap list_fmap List.find fst]. destruct (str_eqb x c) eqn:E.
  - apply str_eqb_eq in E as ->. rewrite bool_decide_true by apply list_elem_of_here. done.
  - rewrite IH. apply str_eqb_neq in E. replace (bool_decide (c ∈ x :: cs)) with (bool_decide (c ∈ cs)); [done|].
    apply bool_decide_ext. rewrite elem_of_cons. split; [by right|]. by intros [->|].
Qed.

(** What the unread filter of the list asks for. *)
Definition unread_query (limit : Z) : list_query := ListQuery [] (Some true) [] None false true None limit.

(** The badge counts the list: the number on the bell is the number of rows that the reader's list has
    under its unread filter, and the lines under the bell add up to it, one line for every category of
    the closed list. *)
Theorem badge_counts_the_list (user : uuid) (st : inbox) (limit : Z) :
  (forall n, n ∈ ib_notifications st -> is_category (nt_category n) = true) ->
  sm_unread (summary user st) = Z.of_nat (length (List.filter (push_filters user (unread_query limit) (ib_deliveries st)) (ib_notifications st)))
  /\ total (sm_by_category (summary user st)) = sm_unread (summary user st)
  /\ (sm_by_category (summary user st)).*1 = CATEGORIES.
Proof.
  intros Hc. set (badge := List.filter (on_the_badge user) (ib_notifications st)).
  assert (List.filter (push_filters user (unread_query limit) (ib_deliveries st)) (ib_notifications st) = badge) as ->.
  { apply List.filter_ext. intros n. unfold push_filters, on_the_badge, unread_query. cbn [lq_categories lq_unread lq_priorities lq_channel lq_include_archived lq_include_read lq_before forallb orb].
    rewrite !andb_true_r. by rewrite <- !andb_assoc, (andb_comm (is_unread n)). }
  assert (category_counts user st = (fun c => (c, count_of badge c)) <$> remove_dups (nt_category <$> badge)) as Erows by done.
  assert (total (category_counts user st) = Z.of_nat (length badge)) as Htotal.
  { rewrite Erows. apply total_counts; [apply NoDup_remove_dups|]. intros n Hn. apply elem_of_remove_dups. by apply list_elem_of_fmap_2. }
  split; [exact Htotal|]. split; [|unfold summary; cbn [sm_by_category]; rewrite <- list_fmap_compose; apply list_fmap_id].
  change (sm_unread (summary user st)) with (total (category_counts user st)). rewrite Htotal.
  replace (sm_by_category (summary user st)) with ((fun c => (c, count_of badge c)) <$> CATEGORIES).
  - apply total_counts; [apply (bool_decide_eq_true_1 _); vm_compute; reflexivity|]. intros n [Hn _]%elem_of_filter_bool. by apply elem_of_existsb_str, Hc.
  - unfold summary. cbn [sm_by_category]. rewrite Erows. apply list_fmap_ext. intros i c _. f_equal. rewrite find_count. case_bool_decide as Hin; [done|].
    unfold count_of. rewrite filter_none; [done|]. intros n Hn. apply str_eqb_neq. intros <-. apply Hin, elem_of_remove_dups. by apply list_elem_of_fmap_2.
Qed.
End Reader.

(** ** Pages, and the route that emits *)

Section Emitting.
Context `{J : JsonNumber}.

(** Two categories are asked for at once, and no row has both. *)
Theorem several_categories_list_nothing (user : uuid) (q : list_query) (st : inbox) (a b : str) :
  a ∈ lq_categories q -> b ∈ lq_categories q -> a <> b -> np_notifications (list_notifications user q st) = [].
Proof.
  intros Ha Hb Hne. unfold list_notifications. cbn [np_notifications]. rewrite filter_none; [by destruct (Z.to_nat _)|].
  intros n _. unfold push_filters. replace (forallb (fun c => str_eqb (nt_category n) c) (lq_categories q)) with false; [by rewrite !andb_false_r|].
  symmetry. apply not_true_iff_false. intros H. rewrite forallb_elem in H. pose proof (H a Ha) as <-%str_eqb_eq. by pose proof (H b Hb) as <-%str_eqb_eq.
Qed.

(** The cursor is an instant: rows that share the last one of a page are on no later page. *)
Theorem cursor_skips_equal_instants (user : uuid) (q : list_query) (st : inbox) (n : notification) (before : instant) :
  lq_before q = Some before -> n ∈ np_notifications (list_notifications user q st) -> nt_created_at n <> before.
Proof.
  intros Hb. unfold list_notifications. cbn [np_notifications]. intros Hn E.
  assert (n ∈ List.filter (push_filters user q (ib_deliveries st)) (ib_notifications st)) as [_ H]%elem_of_filter_bool.
  { apply elem_of_take in Hn as (i & Hn%list_elem_of_lookup_2 & _). apply elem_of_take in Hn as (j & Hn%list_elem_of_lookup_2 & _).
    by rewrite sort_by_perm in Hn. }
  unfold push_filters in H. apply andb_true_iff in H as [_ H]. rewrite Hb, E, Z.ltb_irrefl, Z.eqb_refl in H. cbn in H. apply N.ltb_lt in H. lia.
Qed.

(** A recipient who is named twice is refused, and the refusal names nobody. *)
Theorem repeated_recipient_is_refused nid did now sender organization (b : emit_body) (st : inbox) (known : uuid) :
  is_category (em_category b) = true -> match em_priority b with Some p => is_priority p = true | None => True end ->
  str_eqb (trim (em_title b)) [] = false -> within_emit_budget sender now st = true ->
  em_user_ids b = [known; known] -> ac_id <$> List.filter (fun a => (ac_id a =? known)%N) (ib_accounts st) = [known] ->
  emit nid did now sender organization b st = (Err (UnknownRecipient []), st).
Proof.
  intros Hc Hp Ht Hb Hu Ha. unfold emit. rewrite Hc, Ht, Hb, Hu. cbn [negb].
  replace (match em_priority b with Some p => negb (is_priority p) | None => false end) with false by (destruct (em_priority b); by rewrite ?Hp).
  assert (existing_users [known; known] st = [known]) as ->.
  { etrans; [|exact Ha]. unfold existing_users. f_equal. apply List.filter_ext. intros a. cbn [existsb]. by destruct (ac_id a =? known)%N. }
  cbn. by rewrite N.eqb_refl.
Qed.

Lemma record_with_deliveries_emits id fresh now organization sender n st st' outcome :
  record_with_deliveries id fresh now organization (Some sender) n st = (Ok outcome, st') ->
  emits_in_the_last_minute sender now st' = emits_in_the_last_minute sender now st + (if is_given outcome then 1 else 0).
Proof.
  unfold record_with_deliveries. destruct (build n) as [n'|] eqn:Eb; [|done]. apply build_ok in Eb as (-> & _ & _).
  destruct (insert_notification _ _ _ _ _ _) as [[[new|]|] st1] eqn:Ei; [|intros [= <- <-]|done].
  - apply insert_notification_ok in Ei as (-> & -> & _ & _). destruct (enqueue _ _ _ _ _ _) as [r l]. intros [= <- <-].
    unfold emits_in_the_last_minute. cbn [ib_notifications with_notifications with_delivery_rows]. rewrite List.filter_app, length_app.
    cbn [List.filter]. rewrite bool_decide_true by done. cbn [nt_created_at new_row]. rewrite (proj2 (Z.ltb_lt _ _)) by lia. cbn. lia.
  - revert Ei. unfold insert_notification. destruct (existsb _ _); [intros [= ->]; cbn [is_given]; lia|by destruct (negb _)].
Qed.

Lemma record_many_emits nid did k now organization sender drafts report st st' r :
  record_many_with_deliveries nid did k now organization (Some sender) drafts report st = (Ok r, st') ->
  emits_in_the_last_minute sender now st' = emits_in_the_last_minute sender now st + (Z.of_nat (br_created r) - Z.of_nat (br_created report))
  /\ (br_created r + br_deduped r = br_created report + br_deduped report + length drafts)%nat.
Proof.
  revert k report st. induction drafts as [|n drafts IH]; intros k report st; cbn [record_many_with_deliveries].
  - intros [= <- <-]. cbn. lia.
  - destruct (record_with_deliveries _ _ _ _ _ _ _) as [[outcome|] st1] eqn:E; [|done]. intros H. apply IH in H as [H1 H2].
    apply record_with_deliveries_emits in E. rewrite H1, E, length_cons. destruct outcome as [[? ?]|]; cbn [add_recorded br_created br_deduped is_given] in *; lia.
Qed.

(** The budget is spent by the row: an emit answers for every recipient it names, each as created or
    as collapsed, it adds exactly the created ones to what its sender has spent in the minute, whatever
    was spent before, and a sender whose rows have reached the budget is refused until a minute has
    passed over enough of them. *)
Theorem emit_spends_by_the_row nid did (now : instant) (sender : uuid) (organization : option uuid) (b : emit_body) (st st' : inbox) (created deduped : nat) :
  emit nid did now sender organization b st = (Ok (created, deduped), st') ->
  emits_in_the_last_minute sender now st < EMIT_BUDGET_PER_MINUTE
  /\ emits_in_the_last_minute sender now st' = emits_in_the_last_minute sender now st + Z.of_nat created
  /\ (created + deduped = length (em_user_ids b))%nat
  /\ (forall nid2 did2 now2 organization2 b2, EMIT_BUDGET_PER_MINUTE <= emits_in_the_last_minute sender now2 st' ->
        exists e, emit nid2 did2 now2 sender organization2 b2 st' = (Err e, st')).
Proof.
  intros H. split_and!.
  1-3: revert H; unfold emit; destruct (negb (is_category _)); [done|]; destruct (match em_priority b with Some p => _ | None => _ end); [done|];
    destruct (str_eqb _ _); [done|]; destruct (match em_user_ids b with [] => true | _ => false end); [done|];
    destruct (within_emit_budget sender now st) eqn:Ew; [|done]; cbn [negb]; destruct (negb _); [done|];
    destruct (record_many_with_deliveries _ _ _ _ _ _ _ _ _) as [[r|] st1] eqn:E; [|done]; intros [= <- <- <-];
    apply record_many_emits in E as [E1 E2]; cbn [br_created br_deduped] in *; rewrite length_fmap in E2; apply Z.ltb_lt in Ew; lia.
  intros nid2 did2 now2 organization2 b2 Hb. unfold emit. destruct (negb (is_category _)); [by eexists|]. destruct (match em_priority b2 with Some p => _ | None => _ end); [by eexists|].
  destruct (str_eqb _ _); [by eexists|]. destruct (match em_user_ids b2 with [] => true | _ => false end); [by eexists|].
  unfold within_emit_budget. rewrite (proj2 (Z.ltb_ge _ _)) by done. by eexists.
Qed.
End Emitting.

(** ** Witnesses *)

Definition sample_inbox : inbox := Inbox [Account 5 (Some s!"a@b.c") (Some 9%N) true; Account 6 None (Some 9%N) true; Account 7 None (Some 9%N) true]
  (PreferenceStore {[ 5%N := {[ (s!"ticket", s!"email") := false ]} ]} ∅) [] [].
Definition sample_draft (user : uuid) : new_notification := NewNotification user s!"ticket" s!"normal" s!"opened" [] None None None (VObject []) (Some s!"event:1").
Definition sample_ids (ch : str) : uuid := match position ch CHANNELS with Some k => (100 + Z.to_N k)%N | None => 0%N end.
Definition recorded := record_with_deliveries 1 sample_ids 0 (Some 9%N) None (sample_draft 5) sample_inbox.

Lemma recorded_on_every_channel_witness :
  exists rows, ib_deliveries (snd recorded) = rows /\ dv_channel <$> rows ≡ₚ CHANNELS.
Proof.
  assert (record_with_deliveries 1 sample_ids 0 (Some 9%N) None (sample_draft 5) sample_inbox = (Ok (Some (1%N, EnqueueReport 3 2)), snd recorded)) as E by (vm_cast_no_check (eq_refl recorded)).
  assert (forall d, d ∈ ib_deliveries sample_inbox -> dv_notification_id d <> 1%N) as H by (intros d Hd; apply elem_of_nil in Hd; destruct Hd).
  pose proof (recorded_on_every_channel 1 1 sample_ids 0 (Some 9%N) None (sample_draft 5) sample_inbox (snd recorded) (EnqueueReport 3 2) H) as Hr.
  specialize (Hr E). destruct Hr as (_ & _ & rows & Er & Hp & _). exists rows. split; [exact Er|exact Hp].
Defined.

Lemma same_fact_is_one_row_witness :
  record_with_deliveries 2 sample_ids 8 None None (sample_draft 5) (snd recorded) = (Ok None, snd recorded).
Proof.
  assert (record_with_deliveries 1 sample_ids 0 (Some 9%N) None (sample_draft 5) sample_inbox = (Ok (Some (1%N, EnqueueReport 3 2)), snd recorded)) as E by (vm_cast_no_check (eq_refl recorded)).
  by destruct (same_fact_is_one_row 1 2 sample_ids sample_ids 0 8 (Some 9%N) None None None (sample_draft 5) (sample_draft 5) s!"event:1" sample_inbox
    (snd recorded) (Some (1%N, EnqueueReport 3 2)) eq_refl eq_refl eq_refl eq_refl E) as [H _].
Defined.

Lemma badge_counts_the_list_witness : sm_unread (summary 5 (snd recorded)) = 1.
Proof.
  assert (ib_notifications (snd recorded) = [new_row 1 0 (Some 9%N) None (sample_draft 5)]) as E by (vm_cast_no_check (eq_refl (ib_notifications (snd recorded)))).
  assert (forall n, n ∈ ib_notifications (snd recorded) -> is_category (nt_category n) = true) as H.
  { intros n Hn. rewrite E in Hn. apply list_elem_of_singleton in Hn. rewrite Hn. reflexivity. }
  rewrite (proj1 (badge_counts_the_list 5 (snd recorded) 50 H)). vm_compute. reflexivity.
Defined.

Definition sample_emit : emit_body := EmitBody s!"ticket" None s!"opened" None None None None None (Some s!"event:2") [5%N; 6%N].
Definition emitted := emit (fun k => N.of_nat (10 + k)) (fun k ch => (sample_ids ch + 10 * N.of_nat k)%N) 0 7 (Some 9%N) sample_emit sample_inbox.
Lemma emit_spends_by_the_row_witness : emits_in_the_last_minute 7 0 (snd emitted) = 2.
Proof.
  assert (emit (fun k => N.of_nat (10 + k)) (fun k ch => (sample_ids ch + 10 * N.of_nat k)%N) 0 7 (Some 9%N) sample_emit sample_inbox = (Ok (2%nat, 0%nat), snd emitted)) as E by (vm_cast_no_check (eq_refl emitted)).
  destruct (emit_spends_by_the_row _ _ 0 7 (Some 9%N) sample_emit sample_inbox (snd emitted) 2 0 E) as (_ & H & _). rewrite H. vm_compute. reflexivity.
Defined.
