(* ===== verification/Outbox.v ===== *)
(** * The delivery queue: [crates/notifications/src/delivery.rs], [push.rs], the runner of
      [apps/api/src/notification_runner.rs] and the outbox routes of [notifications_admin.rs]

    Claims with their lease, attempts and backoff, the four transports, the devices of a reader and
    their pruning, the retry and the retention of the log, as statements that runners interleave.
    Sending mail, HTTP, encryption and signatures are parameters; instants are microseconds. *)

From S2P Require Import Prelude Json Roles Preferences Inbox.

Section Outbox.
Context `{J : JsonNumber}.

(** ** Rows *)

Record channel_row := ChannelRow {
  ch_organization_id : uuid;
  ch_channel : str;
  ch_enabled : bool;
  ch_config : value;
  ch_endpoint_id : option uuid;
  ch_endpoint_url : option str
}.
(** What the claim reads of [webhook_endpoints]. *)
Record endpoint_row := EndpointRow { ep_id : uuid; ep_url : str; ep_enabled : bool }.
Record push_subscription := PushSubscription {
  ps_id : uuid;
  ps_user_id : uuid;
  ps_endpoint : str;
  ps_p256dh : str;
  ps_auth : str;
  ps_user_agent : option str;
  ps_created_at : instant;
  ps_last_seen_at : instant
}.
Record outbox := Outbox {
  ob_inbox : inbox;
  ob_channels : list channel_row;
  ob_endpoints : list endpoint_row;
  ob_subscriptions : list push_subscription
}.
Definition rows_of (st : outbox) : list delivery_row := ib_deliveries (ob_inbox st).
Definition with_rows (l : list delivery_row) (st : outbox) : outbox :=
  Outbox (with_delivery_rows l (ob_inbox st)) (ob_channels st) (ob_endpoints st) (ob_subscriptions st).
Definition with_subscriptions (l : list push_subscription) (st : outbox) : outbox := Outbox (ob_inbox st) (ob_channels st) (ob_endpoints st) l.

(** ** The knobs and the backoff, in milliseconds *)

Record delivery_config := DeliveryConfig { dc_batch : nat; dc_lease_seconds : Z; dc_retry_base : Z; dc_retry_max : Z; dc_request_timeout : Z }.
Definition default_delivery_config : delivery_config := DeliveryConfig 50 30 15000 600000 10000.
Definition retry_delay (attempt base max : Z) : Z :=
  let shift := Z.min (Z.max attempt 1) 16 - 1 in
  let base := Z.max base 1 in
  Z.min (Z.min (base * 2 ^ shift) i64_max) (Z.max max base).

(** ** The queue *)

Record push_target := PushTarget { pt_id : uuid; pt_endpoint : str; pt_p256dh : str; pt_auth : str }.
Record delivery_job := DeliveryJob {
  dj_id : uuid;
  dj_notification_id : uuid;
  dj_user_id : uuid;
  dj_channel : str;
  dj_attempts : Z;
  dj_max_attempts : Z;
  dj_title : str;
  dj_body : str;
  dj_url : option str;
  dj_user_email : option str;
  dj_webhook_endpoint : option str;
  dj_push_targets : list push_target
}.

Definition notification_of (st : outbox) (d : delivery_row) : option notification :=
  List.find (fun n => (nt_id n =? dv_notification_id d)%N) (ib_notifications (ob_inbox st)).
Definition is_pending (d : delivery_row) : bool := bool_decide (dv_status d = Pending).
Definition unclaimed (now lease : Z) (d : delivery_row) : bool := match dv_claimed_at d with None => true | Some t => t <=? now - lease * 1000000 end.

Definition channel_on (st : outbox) (n : notification) (channel : str) : bool :=
  existsb (fun c => str_eqb (ch_channel c) channel && ch_enabled c
                    && match nt_organization_id n with None => true | Some o => (ch_organization_id c =? o)%N end) (ob_channels st).
Definition NOT_SWITCHED_ON : str := s!"no organization on this platform has this channel switched on".
Definition not_ready (now lease : Z) (st : outbox) (d : delivery_row) : bool :=
  is_pending d && negb (str_eqb (dv_channel d) IN_APP) && unclaimed now lease d
  && match notification_of st d with Some n => negb (channel_on st n (dv_channel d)) | None => false end.
Definition set_skipped (why : str) (d : delivery_row) : delivery_row :=
  DeliveryRow (dv_id d) (dv_notification_id d) (dv_channel d) Skipped (dv_attempts d) (dv_max_attempts d) (dv_next_attempt_at d) (dv_response_status d)
    (Some why) (dv_sent_at d) (dv_created_at d) None.
Definition settle_not_ready (now lease : Z) (st : outbox) : nat * outbox :=
  (length (List.filter (not_ready now lease st) (rows_of st)), with_rows (update_where (not_ready now lease st) (set_skipped NOT_SWITCHED_ON) (rows_of st)) st).

Definition is_due (now lease : Z) (d : delivery_row) : bool := is_pending d && (dv_next_attempt_at d <=? now) && unclaimed now lease d.
Definition due_order (a b : delivery_row) : comparison :=
  then_with (Z.compare (dv_next_attempt_at a) (dv_next_attempt_at b)) (Z.compare (dv_created_at a) (dv_created_at b)).
(** [locked] rows belong to the transaction of another runner and are skipped. *)
Definition due_rows (now : Z) (batch : nat) (lease : Z) (locked : uuid -> bool) (st : outbox) : list delivery_row :=
  take batch (sort_by due_order (List.filter (fun d => is_due now lease d && negb (locked (dv_id d))) (rows_of st))).
Definition set_claimed (now : Z) (d : delivery_row) : delivery_row :=
  DeliveryRow (dv_id d) (dv_notification_id d) (dv_channel d) (dv_status d) (dv_attempts d + 1) (dv_max_attempts d) (dv_next_attempt_at d)
    (dv_response_status d) (dv_error d) (dv_sent_at d) (dv_created_at d) (Some now).

Definition targets_of (st : outbox) (user : uuid) : list push_target :=
  (fun s => PushTarget (ps_id s) (ps_endpoint s) (ps_p256dh s) (ps_auth s))
  <$> sort_by (fun a b => then_with (Z.compare (ps_last_seen_at b) (ps_last_seen_at a)) (Z.compare (ps_created_at b) (ps_created_at a)))
        (List.filter (fun s => (ps_user_id s =? user)%N) (ob_subscriptions st)).
Definition webhook_destination (st : outbox) (n : notification) : option str :=
  c ← List.find (fun c => bool_decide (nt_organization_id n = Some (ch_organization_id c)) && str_eqb (ch_channel c) s!"webhook" && ch_enabled c) (ob_channels st);
  match ch_endpoint_url c with
  | Some url => Some url
  | None => id ← ch_endpoint_id c; ep_url <$> List.find (fun w => (ep_id w =? id)%N && ep_enabled w) (ob_endpoints st)
  end.
Definition job_of (st : outbox) (d : delivery_row) : option delivery_job :=
  n ← notification_of st d;
  Some (DeliveryJob (dv_id d) (dv_notification_id d) (nt_user_id n) (dv_channel d) (dv_attempts d) (dv_max_attempts d) (nt_title n) (nt_body n) (nt_url n)
    (a ← List.find (fun a => (ac_id a =? nt_user_id n)%N) (ib_accounts (ob_inbox st)); ac_email a)
    (webhook_destination st n)
    (if str_eqb (dv_channel d) WEB_PUSH then targets_of st (nt_user_id n) else [])).
Definition claim_due (now : Z) (batch : nat) (lease : Z) (locked : uuid -> bool) (st : outbox) : list delivery_job * outbox :=
  let ids := dv_id <$> due_rows now batch lease locked st in
  let st := with_rows (update_where (fun d => bool_decide (dv_id d ∈ ids)) (set_claimed now) (rows_of st)) st in
  (omap (job_of st) (sort_by due_order (List.filter (fun d => bool_decide (dv_id d ∈ ids)) (rows_of st))), st).

(** Every settling statement is guarded by the row being pending. *)
Definition settle (id : uuid) (f : delivery_row -> delivery_row) (st : outbox) : outbox :=
  with_rows (update_where (fun d => (dv_id d =? id)%N && is_pending d) f (rows_of st)) st.
Definition set_sent (now : Z) (response : option Z) (d : delivery_row) : delivery_row :=
  DeliveryRow (dv_id d) (dv_notification_id d) (dv_channel d) Sent (dv_attempts d) (dv_max_attempts d) (dv_next_attempt_at d) response None (Some now)
    (dv_created_at d) None.
Definition set_retry (response : option Z) (error : str) (next : Z) (d : delivery_row) : delivery_row :=
  DeliveryRow (dv_id d) (dv_notification_id d) (dv_channel d) Pending (dv_attempts d) (dv_max_attempts d) next response (Some error) (dv_sent_at d)
    (dv_created_at d) None.
Definition set_failed (response : option Z) (error : str) (d : delivery_row) : delivery_row :=
  DeliveryRow (dv_id d) (dv_notification_id d) (dv_channel d) Failed (dv_attempts d) (dv_max_attempts d) (dv_next_attempt_at d) response (Some error)
    (dv_sent_at d) (dv_created_at d) None.
Definition mark_sent (now : Z) (id : uuid) (response : option Z) (st : outbox) : outbox := settle id (set_sent now response) st.
Definition mark_retry (id : uuid) (response : option Z) (error : str) (next : Z) (st : outbox) : outbox := settle id (set_retry response error next) st.
Definition mark_failed (id : uuid) (response : option Z) (error : str) (st : outbox) : outbox := settle id (set_failed response error) st.

(** ** What a transport answers *)

Record pruned_subscription := PrunedSubscription { pr_id : uuid; pr_endpoint : str; pr_status : Z }.
Inductive transport_outcome :=
  | Accepted (status : option Z) (gone : list pruned_subscription)
  | Refused (status : option Z) (reason : str) (gone : list pruned_subscription).
Definition accepted (status : option Z) : transport_outcome := Accepted status [].
Definition failed (status : option Z) (reason : str) : transport_outcome := Refused status reason [].
Definition pruned (o : transport_outcome) : list pruned_subscription := match o with Accepted _ gone | Refused _ _ gone => gone end.
Definition is_accepted (o : transport_outcome) : bool := match o with Accepted _ _ => true | Refused _ _ _ => false end.

Definition MAX_ERROR_CHARS : nat := 500.
Definition trim_error (message : str) : str :=
  let trimmed := trim message in
  if (length trimmed <=? MAX_ERROR_CHARS)%nat then trimmed else take MAX_ERROR_CHARS trimmed ++ [8230%N].

Definition prune_endpoints (gone : list pruned_subscription) (l : list push_subscription) : list push_subscription :=
  foldl (fun l p => List.filter (fun s => negb (str_eqb (ps_endpoint s) (pr_endpoint p))) l) l gone.

(** ** The runner *)

Record run_report := RunReport { rr_claimed : nat; rr_sent : nat; rr_retried : nat; rr_failed : nat; rr_skipped : nat }.
Definition run_report_is_idle (r : run_report) : bool := (rr_claimed r =? 0)%nat && (rr_skipped r =? 0)%nat.
Definition NO_TRANSPORT : str := s!"no transport is installed for this channel".
Definition transport : Type := delivery_job -> transport_outcome.
Definition transport_for (transports : list (str * transport)) (channel : str) : option transport := snd <$> List.find (fun t => str_eqb (fst t) channel) transports.

Definition next_attempt (cfg : delivery_config) (now attempts : Z) : Z := now + 1000 * retry_delay attempts (dc_retry_base cfg) (dc_retry_max cfg).
(** One claimed job: sent to its transport, and its answer at [now] written down. *)
Definition answer (cfg : delivery_config) (now : Z) (job : delivery_job) (o : transport_outcome) (st : outbox) : outbox :=
  let st := match pruned o with [] => st | gone => with_subscriptions (prune_endpoints gone (ob_subscriptions st)) st end in
  match o with
  | Accepted status _ => mark_sent now (dj_id job) status st
  | Refused status reason _ =>
      if dj_attempts job <? dj_max_attempts job
      then mark_retry (dj_id job) status (trim_error reason) (next_attempt cfg now (dj_attempts job)) st
      else mark_failed (dj_id job) status (trim_error reason) st
  end.
Definition deliver_one (cfg : delivery_config) (transports : list (str * transport)) (now : Z) (job : delivery_job) (st : outbox) : outbox :=
  match transport_for transports (dj_channel job) with
  | None => mark_retry (dj_id job) None NO_TRANSPORT (next_attempt cfg now (dj_attempts job)) st
  | Some deliver => answer cfg now job (deliver job) st
  end.
Definition count_answer (transports : list (str * transport)) (r : run_report) (job : delivery_job) : run_report :=
  match transport_for transports (dj_channel job) with
  | None => RunReport (rr_claimed r) (rr_sent r) (S (rr_retried r)) (rr_failed r) (rr_skipped r)
  | Some deliver =>
      if is_accepted (deliver job) then RunReport (rr_claimed r) (S (rr_sent r)) (rr_retried r) (rr_failed r) (rr_skipped r)
      else if dj_attempts job <? dj_max_attempts job then RunReport (rr_claimed r) (rr_sent r) (S (rr_retried r)) (rr_failed r) (rr_skipped r)
      else RunReport (rr_claimed r) (rr_sent r) (rr_retried r) (S (rr_failed r)) (rr_skipped r)
  end.
(** [clock k] is when the [k]-th job is answered. *)
Fixpoint deliver_all (cfg : delivery_config) (transports : list (str * transport)) (clock : nat -> Z) (k : nat) (jobs : list delivery_job) (st : outbox) : outbox :=
  match jobs with
  | [] => st
  | job :: jobs => deliver_all cfg transports clock (S k) jobs (deliver_one cfg transports (clock k) job st)
  end.
Definition run_due (cfg : delivery_config) (transports : list (str * transport)) (locked : uuid -> bool) (now : Z) (clock : nat -> Z) (st : outbox) : run_report * outbox :=
  let '(skipped, st) := settle_not_ready now (dc_lease_seconds cfg) st in
  let '(jobs, st) := claim_due now (dc_batch cfg) (dc_lease_seconds cfg) locked st in
  (foldl (count_answer transports) (RunReport (length jobs) 0 0 0 skipped) jobs, deliver_all cfg transports clock 0 jobs st).

(** ** The transports *)

Definition in_app_transport : transport := fun _ => accepted None.

Section Transports.
Variable mail_send : str -> str -> str -> result unit str.
Definition email_address (job : delivery_job) : option str :=
  a ← trim <$> dj_user_email job; if str_eqb a [] then None else Some a.
Definition email_body (job : delivery_job) : str :=
  match u ← trim <$> dj_url job; if str_eqb u [] then None else Some u with
  | Some url => dj_body job ++ [10%N; 10%N] ++ url
  | None => dj_body job
  end.
Definition email_transport : transport := fun job =>
  match email_address job with
  | None => failed None s!"this reader has no e-mail address to send to"
  | Some address => match mail_send address (dj_title job) (email_body job) with Ok _ => accepted None | Err e => failed None e end
  end.

Variable uuid_text : uuid -> str.
Definition optional_text (o : option str) : value := match o with Some s => VString s | None => VNull end.
Definition webhook_payload (job : delivery_job) : value :=
  VObject [(s!"category", VString s!"notification"); (s!"channel", VString (dj_channel job)); (s!"notification_id", VString (uuid_text (dj_notification_id job)));
           (s!"title", VString (dj_title job)); (s!"url", optional_text (dj_url job)); (s!"user_id", VString (uuid_text (dj_user_id job)))].
Definition NO_DESTINATION : str := s!"this organization's webhook channel has no destination " ++ [8212%N] ++ s!" set one on the notification settings".
Definition destination (job : delivery_job) : result str str :=
  match trim <$> dj_webhook_endpoint job with
  | Some url => if str_eqb url [] then Err NO_DESTINATION else Ok url
  | None => Err NO_DESTINATION
  end.
(** [http_post] answers with the status, or with why there was none. *)
Variable http_post : str -> value -> result Z str.
Definition is_success (status : Z) : bool := (200 <=? status) && (status <? 300).
Definition webhook_transport : transport := fun job =>
  match destination job with
  | Err reason => failed None reason
  | Ok url =>
      match http_post url (webhook_payload job) with
      | Ok status => if is_success status then accepted (Some status) else failed (Some status) (s!"the endpoint answered " ++ show_Z status)
      | Err e => failed None (s!"the endpoint could not be reached: " ++ e)
      end
  end.

Definition push_payload (job : delivery_job) : value :=
  VObject [(s!"notification_id", VString (uuid_text (dj_notification_id job))); (s!"title", VString (dj_title job)); (s!"url", optional_text (dj_url job))].
(** Sealing for one device, the signed header of its service, and the request; the payload is in the closure. *)
Variable seal : push_target -> value -> result (list Z) str.
Variable authorization : str -> option str.
Variable push_post : str -> str -> list Z -> result Z str.

Record push_progress := PushProgress { pp_delivered : nat; pp_gone : list pruned_subscription; pp_status : option Z; pp_reason : option str }.
Definition noted (reason : str) (p : push_progress) : option str := match pp_reason p with Some r => Some r | None => Some reason end.
Definition push_one (job : delivery_job) (p : push_progress) (t : push_target) : push_progress :=
  match seal t (push_payload job) with
  | Err e => PushProgress (pp_delivered p) (pp_gone p) (pp_status p) (noted e p)
  | Ok body =>
      match authorization (pt_endpoint t) with
      | None => PushProgress (pp_delivered p) (pp_gone p) (pp_status p) (noted s!"the push service endpoint is not an absolute http(s) URL" p)
      | Some header =>
          match push_post (pt_endpoint t) header body with
          | Err e => PushProgress (pp_delivered p) (pp_gone p) (pp_status p) (noted (s!"a registered browser could not be reached: " ++ e) p)
          | Ok code =>
              if is_success code then PushProgress (S (pp_delivered p)) (pp_gone p) (Some code) (pp_reason p)
              else if (code =? 404) || (code =? 410)
              then PushProgress (pp_delivered p) (pp_gone p ++ [PrunedSubscription (pt_id t) (pt_endpoint t) code]) (Some code)
                     (noted (s!"a registered browser answered " ++ show_Z code ++ s!" and was removed") p)
              else PushProgress (pp_delivered p) (pp_gone p) (Some code) (noted (s!"a device answered " ++ show_Z code) p)
          end
      end
  end.
Definition NO_BROWSER : str := s!"this reader has no registered browser for push " ++ [8212%N] ++ s!" turn on push for this browser on the notification settings".
Definition push_transport : transport := fun job =>
  match dj_push_targets job with
  | [] => failed None NO_BROWSER
  | targets =>
      let p := foldl (push_one job) (PushProgress 0 [] None None) targets in
      if (0 <? pp_delivered p)%nat then Accepted (pp_status p) (pp_gone p)
      else Refused (pp_status p) (default s!"no registered browser could be reached" (pp_reason p)) (pp_gone p)
  end.
End Transports.

(** ** Devices *)

Inductive register_outcome := Created | Refreshed | Reassigned | ReKeyed.
Definition validate_endpoint (endpoint p256dh auth : str) : result unit notification_error :=
  refuse str_eqb (trim endpoint) [] with BadDefinition s!"a push subscription needs an endpoint" in
  require starts_with endpoint s!"https://" else BadDefinition (s!"a push endpoint must be an https URL " ++ [8212%N] ++ s!" the browser will not register anything else") in
  refuse str_eqb (trim p256dh) [] || str_eqb (trim auth) [] with BadDefinition s!"a push subscription needs both signature keys; without them every send answers 400" in
  Ok tt.
Definition register (id : uuid) (now : instant) (user : uuid) (endpoint p256dh auth : str) (agent : option str) (st : outbox) :
  result (uuid * register_outcome) notification_error * outbox :=
  match validate_endpoint endpoint p256dh auth with
  | Err e => (Err e, st)
  | Ok _ =>
      match List.find (fun s => str_eqb (ps_endpoint s) endpoint) (ob_subscriptions st) with
      | None => (Ok (id, Created), with_subscriptions (ob_subscriptions st ++ [PushSubscription id user endpoint p256dh auth agent now now]) st)
      | Some old =>
          let keys_changed := negb (str_eqb (ps_p256dh old) p256dh) || negb (str_eqb (ps_auth old) auth) in
          let outcome := if negb (ps_user_id old =? user)%N then Reassigned else if keys_changed then ReKeyed else Refreshed in
          let moved s := PushSubscription (ps_id s) user (ps_endpoint s) p256dh auth (match agent with Some a => Some a | None => ps_user_agent s end) (ps_created_at s) now in
          (Ok (ps_id old, outcome), with_subscriptions (update_where (fun s => (ps_id s =? ps_id old)%N) moved (ob_subscriptions st)) st)
      end
  end.
Definition remove_device (user id : uuid) (st : outbox) : bool * outbox :=
  let mine s := (ps_id s =? id)%N && (ps_user_id s =? user)%N in
  (existsb mine (ob_subscriptions st), with_subscriptions (List.filter (fun s => negb (mine s)) (ob_subscriptions st)) st).
Definition SUBSCRIPTION_STALE_DAYS : Z := 30.
Definition prune_stale (now : instant) (st : outbox) : outbox :=
  with_subscriptions (List.filter (fun s => negb (ps_last_seen_at s <? now - SUBSCRIPTION_STALE_DAYS * 86400000000)) (ob_subscriptions st)) st.
Definition endpoint_hint (s : push_subscription) : str :=
  let tail := match last (split_on c!"/" (ps_endpoint s)) with Some (_ :: _ as t) => t | _ => s!"endpoint" end in
  8230%N :: take 8 tail.

(** ** The outbox *)

Definition OUTBOX_RETENTION_DAYS : Z := 60.
Definition MAX_OUTBOX_PAGE : Z := 100.
Definition delivery_status_str (s : delivery_status) : str :=
  match s with Pending => s!"pending" | Sent => s!"sent" | Failed => s!"failed" | Skipped => s!"skipped" end.
Record outbox_query := OutboxQuery { oq_statuses : list str; oq_channel : option str; oq_notification_id : option uuid; oq_limit : Z }.
Definition in_scope (organization : option uuid) (st : outbox) (d : delivery_row) : bool :=
  match notification_of st d with Some n => bool_decide (nt_organization_id n = organization) | None => false end.
Definition status_rank (s : delivery_status) : Z := match s with Failed => 0 | Pending => 1 | Skipped => 2 | Sent => 3 end.
Definition outbox_order (a b : delivery_row) : comparison :=
  then_with (Z.compare (status_rank (dv_status a)) (status_rank (dv_status b)))
    (then_with (Z.compare (dv_created_at b) (dv_created_at a)) (N.compare (dv_id b) (dv_id a))).
Definition list_outbox (organization : option uuid) (q : outbox_query) (st : outbox) : list delivery_row :=
  take (Z.to_nat (Z.min (Z.max (oq_limit q) 1) MAX_OUTBOX_PAGE))
    (sort_by outbox_order (List.filter (fun d =>
       in_scope organization st d
       && match oq_statuses q with [] => true | l => existsb (str_eqb (delivery_status_str (dv_status d))) l end
       && match oq_channel q with Some ch => negb (is_channel ch) || str_eqb (dv_channel d) ch | None => true end
       && match oq_notification_id q with Some id => (dv_notification_id d =? id)%N | None => true end) (rows_of st))).
Definition outbox_count (organization : option uuid) (s : delivery_status) (st : outbox) : nat :=
  length (List.filter (fun d => in_scope organization st d && bool_decide (dv_status d = s)) (rows_of st)).

Definition set_requeued (now : Z) (d : delivery_row) : delivery_row :=
  DeliveryRow (dv_id d) (dv_notification_id d) (dv_channel d) Pending 0 (dv_max_attempts d) now None None (dv_sent_at d) (dv_created_at d) (dv_claimed_at d).
Definition is_failed (id : uuid) (d : delivery_row) : bool := (dv_id d =? id)%N && bool_decide (dv_status d = Failed).
Definition retry_delivery (now : Z) (id : uuid) (st : outbox) : bool * outbox :=
  (existsb (is_failed id) (rows_of st), with_rows (update_where (is_failed id) (set_requeued now) (rows_of st)) st).
(** The route: the organization of the session is not looked at. *)
Definition retry_outbox (organization : option uuid) (now : Z) (id : uuid) (st : outbox) : bool * outbox := retry_delivery now id st.
Definition outlived (now : Z) (d : delivery_row) : bool :=
  (bool_decide (dv_status d = Sent) || bool_decide (dv_status d = Skipped)) && (dv_created_at d <? now - OUTBOX_RETENTION_DAYS * 86400000000).
Definition prune_deliveries (now : Z) (st : outbox) : nat * outbox :=
  (length (List.filter (outlived now) (rows_of st)), with_rows (List.filter (fun d => negb (outlived now d)) (rows_of st)) st).

(** ** Readiness *)

Definition text_at (key : str) (v : value) : str := default [] (get key v ≫= as_str).
Definition has_destination (config : value) : bool :=
  existsb (fun key => negb (str_eqb (trim (text_at key config)) [])) [s!"endpoint_url"; s!"endpoint_id"; s!"endpointId"; s!"endpointUrl"].
Definition ready_for (configured : list channel_row) (channel : str) : bool :=
  let row := List.find (fun c => str_eqb (ch_channel c) channel) configured in
  let on := match row with Some c => ch_enabled c | None => false end in
  let config := match row with Some c => ch_config c | None => VNull end in
  if str_eqb channel IN_APP then true
  else if str_eqb channel s!"email" then on && negb (str_eqb (text_at s!"from_address" config) [])
  else if str_eqb channel WEB_PUSH then on && negb (str_eqb (text_at s!"public_key" config) [])
  else if str_eqb channel s!"webhook" then on && has_destination config
  else false.
(** Every row of every organization is read. *)
Definition channel_readiness (st : outbox) : list (str * bool) := (fun ch => (ch, ready_for (ob_channels st) ch)) <$> CHANNELS.
End Outbox.

(** ** Everything that happens to the queue *)

Section Queue.
Context `{J : JsonNumber}.

Inductive outbox_event :=
  | NotReady (now lease : Z)
  | Claimed (now : Z) (batch : nat) (lease : Z) (locked : uuid -> bool)
  | Answered (cfg : delivery_config) (now : Z) (job : delivery_job) (o : transport_outcome)
  | Untransported (cfg : delivery_config) (now : Z) (job : delivery_job)
  | Retried (now : Z) (id : uuid)
  | Swept (now : Z)
  | Recorded (id : uuid) (fresh : str -> uuid) (now : instant) (organization by_ : option uuid) (n : new_notification)
  | Changed (user : uuid) (now : instant) (c : reader_change).

(** Generated ids are new. *)
Definition unused (id : uuid) (fresh : str -> uuid) (l : list delivery_row) : bool :=
  forallb (fun d => negb (dv_notification_id d =? id)%N) l
  && bool_decide (NoDup (fresh <$> CHANNELS)) && forallb (fun ch => negb (existsb (fun d => (dv_id d =? fresh ch)%N) l)) CHANNELS.
Definition with_inbox (i : inbox) (st : outbox) : outbox := Outbox i (ob_channels st) (ob_endpoints st) (ob_subscriptions st).
(** An answer comes from any runner, for a job of any claim, however old. *)
Definition outbox_step (st : outbox) (e : outbox_event) : outbox :=
  match e with
  | NotReady now lease => snd (settle_not_ready now lease st)
  | Claimed now batch lease locked => snd (claim_due now batch lease locked st)
  | Answered cfg now job o => answer cfg now job o st
  | Untransported cfg now job => mark_retry (dj_id job) None NO_TRANSPORT (next_attempt cfg now (dj_attempts job)) st
  | Retried now id => snd (retry_delivery now id st)
  | Swept now => snd (prune_deliveries now st)
  | Recorded id fresh now organization by_ n =>
      if unused id fresh (rows_of st) then with_inbox (snd (record_with_deliveries id fresh now organization by_ n (ob_inbox st))) st else st
  | Changed user now c => with_inbox (apply_change user now c (ob_inbox st)) st
  end.
Definition outbox_steps (st : outbox) (es : list outbox_event) : outbox := foldl outbox_step st es.

Definition rows_ok (l : list delivery_row) : Prop := NoDup (dv_id <$> l).
Definition closed (d : delivery_row) : Prop := dv_status d = Sent \/ dv_status d = Skipped.

(** What later statements leave of a row. *)
Definition row_later (d d' : delivery_row) : Prop :=
  dv_id d' = dv_id d /\ dv_notification_id d' = dv_notification_id d /\ dv_channel d' = dv_channel d /\ dv_max_attempts d' = dv_max_attempts d
  /\ dv_created_at d' = dv_created_at d /\ (closed d -> d' = d).
#[local] Instance row_later_preorder : PreOrder row_later.
Proof.
  split; [intros d; by repeat split|]. intros a b c (A1 & A2 & A3 & A4 & A5 & A6) (B1 & B2 & B3 & B4 & B5 & B6). repeat split; try congruence.
  intros Ha. pose proof (A6 Ha) as ->. by apply B6.
Qed.

Lemma settle_rows id f st : rows_of (settle id f st) = update_where (fun d => (dv_id d =? id)%N && is_pending d) f (rows_of st).
Proof. done. Qed.
Lemma rows_with_subscriptions l st : rows_of (with_subscriptions l st) = rows_of st.
Proof. done. Qed.

(** The row a settled job leaves, whatever the transport answered. *)
Definition answered_row (cfg : delivery_config) (now : Z) (job : delivery_job) (o : option transport_outcome) (d : delivery_row) : delivery_row :=
  match o with
  | None => set_retry None NO_TRANSPORT (next_attempt cfg now (dj_attempts job)) d
  | Some (Accepted status _) => set_sent now status d
  | Some (Refused status reason _) =>
      if dj_attempts job <? dj_max_attempts job then set_retry status (trim_error reason) (next_attempt cfg now (dj_attempts job)) d
      else set_failed status (trim_error reason) d
  end.
Definition pending_of (id : uuid) (d : delivery_row) : bool := (dv_id d =? id)%N && is_pending d.

Lemma answer_rows cfg now job o st : rows_of (answer cfg now job o st) = update_where (pending_of (dj_id job)) (answered_row cfg now job (Some o)) (rows_of st).
Proof. unfold answer. destruct o as [status [|g gone]|status reason [|g gone]]; try done; unfold answered_row; cbn [pruned]; by destruct (_ <? _). Qed.
Lemma deliver_one_rows cfg transports now job st :
  rows_of (deliver_one cfg transports now job st)
  = update_where (pending_of (dj_id job)) (answered_row cfg now job ((fun t : transport => t job) <$> transport_for transports (dj_channel job))) (rows_of st).
Proof. unfold deliver_one. destruct (transport_for _ _); [apply answer_rows|done]. Qed.

Lemma answered_row_same cfg now job o d :
  dv_id (answered_row cfg now job o d) = dv_id d /\ dv_notification_id (answered_row cfg now job o d) = dv_notification_id d
  /\ dv_channel (answered_row cfg now job o d) = dv_channel d /\ dv_max_attempts (answered_row cfg now job o d) = dv_max_attempts d
  /\ dv_created_at (answered_row cfg now job o d) = dv_created_at d /\ dv_attempts (answered_row cfg now job o d) = dv_attempts d.
Proof. destruct o as [[|]|]; cbn [answered_row]; try done. by destruct (_ <? _). Qed.

Lemma pending_not_closed d : is_pending d = true -> ~ closed d.
Proof. intros E%bool_decide_eq_true [H|H]; congruence. Qed.
Lemma is_pending_eq d : is_pending d = true <-> dv_status d = Pending.
Proof. apply bool_decide_eq_true. Qed.

(** Every row after a step is a row before it, later, or one that was recorded. *)
Definition comes_from (l l' : list delivery_row) (new : delivery_row -> Prop) : Prop :=
  rows_ok l -> rows_ok l' /\ forall d', d' ∈ l' -> (exists d, d ∈ l /\ row_later d d') \/ new d'.

Lemma comes_from_update p f l new :
  (forall d, dv_id (f d) = dv_id d) -> (forall d, rows_ok l -> d ∈ l -> p d = true -> row_later d (f d)) -> comes_from l (update_where p f l) new.
Proof.
  intros Hf H N. split; [unfold rows_ok; by rewrite update_where_fmap|]. intros d' (d & Hd & ->)%update_where_elem. left. exists d. split; [done|].
  destruct (p d) eqn:E; [by apply H|reflexivity].
Qed.
Lemma comes_from_filter p l new : comes_from l (List.filter p l) new.
Proof. intros N. split; [by apply NoDup_filter_keys|]. intros d [Hd _]%elem_of_filter_bool. left. by exists d. Qed.
Lemma comes_from_refl l new : comes_from l l new.
Proof. intros N. split; [done|]. intros d Hd. left. by exists d. Qed.

Lemma due_row_pending now batch lease locked st d : rows_ok (rows_of st) -> d ∈ rows_of st ->
  dv_id d ∈ dv_id <$> due_rows now batch lease locked st -> is_due now lease d = true /\ locked (dv_id d) = false.
Proof.
  intros N Hd (x & E & Hx)%list_elem_of_fmap. unfold due_rows in Hx. apply elem_of_take in Hx as (i & Hx%list_elem_of_lookup_2 & _). rewrite sort_by_perm in Hx.
  apply elem_of_filter_bool in Hx as [Hx [H1 H2%negb_true_iff]%andb_true_iff]. rewrite (NoDup_key_inj dv_id _ d x N Hd Hx E). done.
Qed.

Lemma due_is_pending now lease d : is_due now lease d = true -> is_pending d = true.
Proof. by intros [[H _]%andb_true_iff _]%andb_true_iff. Qed.

Lemma recorded_rows id fresh now organization by_ n (i : inbox) :
  unused id fresh (ib_deliveries i) = true -> comes_from (ib_deliveries i) (ib_deliveries (snd (record_with_deliveries id fresh now organization by_ n i)))
    (fun d => exists ch, dv_id d = fresh ch).
Proof.
  unfold unused. intros [[Hn Hd]%andb_true_iff Hu]%andb_true_iff. apply bool_decide_eq_true in Hd. pose proof (proj1 (forallb_elem _ _) Hn) as Hn'. pose proof (proj1 (forallb_elem _ _) Hu) as Hu'.
  clear Hn Hu. rename Hn' into Hn, Hu' into Hu. cbn beta in Hn, Hu.
  destruct (record_with_deliveries _ _ _ _ _ _ _) as [[answer|e] i'] eqn:E; cbn [snd].
  - apply record_enqueues in E; [|intros d Hin; by apply N.eqb_neq, negb_true_iff, Hn]. destruct answer as [[id' report]|]; [|subst i'; apply comes_from_refl].
    destruct E as (-> & _ & -> & _). set (new := new_rows _ _ _ _ _). intros N.
    assert (forall d, d ∈ new -> dv_id d = fresh (dv_channel d) /\ dv_channel d ∈ CHANNELS) as Hnew.
    { intros d Hin. split; [by apply new_rows_elem in Hin as (ch & ->)|]. rewrite <- (new_rows_channels now fresh id (read_preferences (nn_user_id n) (ib_preferences i)) (nn_category n)).
      by apply list_elem_of_fmap_2. }
    split.
    + unfold rows_ok. rewrite fmap_app. apply NoDup_app. split_and!; [exact N| |].
      * intros x (d & -> & Hin)%list_elem_of_fmap (d' & Ed & Hin')%list_elem_of_fmap. destruct (Hnew d' Hin') as [Ef Hch].
        pose proof (Hu _ Hch) as Hx. apply negb_true_iff in Hx. pose proof (proj1 (existsb_none _ _) Hx d Hin) as Hne. apply N.eqb_neq in Hne. congruence.
      * replace (dv_id <$> new) with (fresh <$> (dv_channel <$> new)).
        -- unfold new. by rewrite new_rows_channels.
        -- rewrite <- list_fmap_compose. apply list_fmap_ext. intros k d Hk. symmetry. apply Hnew. by apply list_elem_of_lookup_2 in Hk.
    + intros d' [Hin|Hin]%elem_of_app; [left; by exists d'|right]. exists (dv_channel d'). by apply Hnew.
  - revert E. unfold record_with_deliveries. destruct (build n) as [n'|]; [|intros [= _ <-]; apply comes_from_refl].
    unfold insert_notification. destruct (existsb _ _); [done|]. destruct (negb _); [intros [= _ <-]; apply comes_from_refl|]. by destruct (enqueue _ _ _ _ _ _).
Qed.

Definition not_reused (id : uuid) (e : outbox_event) : Prop := match e with Recorded _ fresh _ _ _ _ => forall ch, fresh ch <> id | _ => True end.

Lemma outbox_step_rows s e :
  comes_from (rows_of s) (rows_of (outbox_step s e)) (fun d => ~ not_reused (dv_id d) e).
Proof.
  rename s into st. destruct e as [now lease|now batch lease locked|cfg now job o|cfg now job|now id|now|id fresh now organization by_ n|user now c];
    cbn [outbox_step].
  - apply comes_from_update; [done|]. intros d _ _ H. unfold not_ready in H. apply andb_true_iff in H as [[[H _]%andb_true_iff _]%andb_true_iff _].
    repeat split; try done. intros Hc. by destruct (pending_not_closed d H).
  - unfold claim_due. cbn [snd]. apply comes_from_update; [done|]. intros d N Hd H%bool_decide_eq_true.
    destruct (due_row_pending _ _ _ _ _ _ N Hd H) as [Hdue _]. repeat split; try done. intros Hc. by destruct (pending_not_closed d (due_is_pending _ _ _ Hdue)).
  - rewrite answer_rows. apply comes_from_update; [intros d; apply answered_row_same|]. intros d _ _ [_ H]%andb_true_iff.
    destruct (answered_row_same cfg now job (Some o) d) as (? & ? & ? & ? & ? & _). repeat split; try done. intros Hc. by destruct (pending_not_closed d H).
  - apply comes_from_update; [done|]. intros d _ _ [_ H]%andb_true_iff. repeat split; try done. intros Hc. by destruct (pending_not_closed d H).
  - apply comes_from_update; [done|]. intros d _ _ [_ H%bool_decide_eq_true]%andb_true_iff. repeat split; try done. intros [Hc|Hc]; congruence.
  - apply comes_from_filter.
  - destruct (unused id fresh (rows_of st)) eqn:E; [|apply comes_from_refl]. cbn [rows_of ob_inbox with_inbox]. intros N.
    destruct (recorded_rows id fresh now organization by_ n (ob_inbox st) E N) as [N' H]. split; [done|]. intros d' Hd'.
    destruct (H d' Hd') as [?|(ch & Ech)]; [by left|]. right. intros Hn. by apply (Hn ch).
  - destruct (filtered_queue user now c (ob_inbox st)) as (p & Hp). unfold rows_of. cbn [ob_inbox with_inbox]. rewrite Hp.
    apply comes_from_filter.
Qed.

Lemma outbox_steps_rows s es d d' :
  rows_ok (rows_of s) -> d ∈ rows_of s -> (forall e, e ∈ es -> not_reused (dv_id d) e) ->
  d' ∈ rows_of (outbox_steps s es) -> dv_id d' = dv_id d -> row_later d d'.
Proof.
  (* a row of the end that has the id comes from a row of the start that has it *)
  assert (forall es s, rows_ok (rows_of s) -> (forall e, e ∈ es -> not_reused (dv_id d') e) -> d' ∈ rows_of (outbox_steps s es) ->
            exists x, x ∈ rows_of s /\ row_later x d') as H.
  { clear s es. induction es as [|e es IH]; intros s N He Hd'; [exists d'; split; [done|reflexivity]|].
    cbn [outbox_steps foldl] in Hd'. destruct (outbox_step_rows s e N) as [N' Hs].
    destruct (IH (outbox_step s e) N') as (x & Hx & Hl); [by intros y Hy; apply He, list_elem_of_further|exact Hd'|].
    destruct (Hs x Hx) as [(y & Hy & Hyx)|Hnew]; [exists y; split; [done|by etrans]|]. destruct Hl as (Eid & _). destruct Hnew. rewrite <- Eid.
    apply He, list_elem_of_here. }
  intros N Hd He Hd' E. destruct (H es s N) as (x & Hx & Hl); [by rewrite E|done|]. pose proof (proj1 Hl) as Eid.
  replace d with x; [done|]. apply (NoDup_key_inj dv_id _ x d N Hx Hd). congruence.
Qed.

(** What went out stays as it was written: a delivery that was sent or skipped is never claimed,
    sent, retried or rewritten again, whatever claims, late answers, retries, sweeps, new notifications
    and changes of readers follow, in any order and from any number of runners. *)
Theorem closed_deliveries_are_frozen (s : outbox) (es : list outbox_event) (d d' : delivery_row) :
  rows_ok (rows_of s) -> d ∈ rows_of s -> closed d -> (forall e, e ∈ es -> not_reused (dv_id d) e) ->
  d' ∈ rows_of (outbox_steps s es) -> dv_id d' = dv_id d -> d' = d.
Proof. intros N Hd Hc He Hd' E. by apply (outbox_steps_rows s es d d' N Hd He Hd' E). Qed.

(** ** The lease *)

(** Clocks of a claim at [t] that is fresh, the answers for a delivery (any runner's, of any claim, however
    old), and the requests of readers that name its notification for deletion. *)
Definition within_lease (t : Z) (e : outbox_event) : Prop :=
  match e with NotReady now lease | Claimed now _ lease _ => now < t + lease * 1000000 | _ => True end.
Definition answers (id : uuid) (e : outbox_event) : Prop :=
  match e with Answered _ _ job _ | Untransported _ _ job => dj_id job = id | _ => False end.
Definition deletes (notification : uuid) (e : outbox_event) : Prop :=
  match e with
  | Changed _ _ (DeleteRows ids) => notification ∈ ids
  | Changed _ _ (BulkRequest action ids) => action = s!"delete" /\ notification ∈ ids
  | Changed _ _ (DeleteRoute id) => id = notification
  | _ => False
  end.
Definition held (t : Z) (d : delivery_row) : Prop := dv_status d = Pending /\ dv_claimed_at d = Some t.

Lemma held_is_claimed t now lease d : held t d -> now < t + lease * 1000000 -> unclaimed now lease d = false.
Proof. intros [_ E] H. unfold unclaimed. rewrite E. apply Z.leb_gt. lia. Qed.
Lemma kept_delivery user ids st d : d ∈ ib_deliveries st -> dv_notification_id d ∉ ids -> d ∈ ib_deliveries (snd (delete_notifications user ids st)).
Proof.
  intros Hd Hn. apply elem_of_filter_bool. split; [done|]. apply negb_true_iff, existsb_none.
  intros n [_ Hs]%elem_of_filter_bool. apply N.eqb_neq. intros E. unfold selected in Hs. apply andb_true_iff in Hs as [(x & Hx & Ex)%existsb_elem _].
  apply N.eqb_eq in Ex. congruence.
Qed.
Lemma changed_keeps user now c st d : d ∈ ib_deliveries st -> ~ deletes (dv_notification_id d) (Changed user now c) -> d ∈ ib_deliveries (apply_change user now c st).
Proof.
  intros Hd Hn. destruct (removes_rows c) eqn:E; [|by rewrite kept_queue].
  destruct c as [ids read| |ids|ids|action ids|id read|id]; try discriminate E; cbn [apply_change deletes removes_rows] in *.
  - by apply kept_delivery.
  - apply str_eqb_eq in E as ->. unfold bulk. destruct (_ <? _)%nat; [done|]. apply (kept_delivery user ids); [done|naive_solver].
  - pose proof (kept_delivery user [id] st d Hd) as H. unfold delete_route. destruct (delete_notifications _ _ _). apply H. intros Ei%list_elem_of_singleton. by apply Hn.
Qed.
Lemma held_row_step s e d t :
  rows_ok (rows_of s) -> d ∈ rows_of s -> held t d -> within_lease t e -> ~ answers (dv_id d) e -> ~ deletes (dv_notification_id d) e ->
  d ∈ rows_of (outbox_step s e).
Proof.
  rename s into st. intros N Hd Hh He Ha Hdel.
  destruct e as [now lease|now batch lease locked|cfg now job o|cfg now job|now id|now|id fresh now organization by_ n|user now c]; cbn [outbox_step within_lease answers] in *.
  - apply update_where_keeps; [done|]. unfold not_ready. by rewrite (held_is_claimed t now lease d Hh He), andb_false_r.
  - unfold claim_due. cbn [snd]. apply update_where_keeps; [done|]. apply bool_decide_eq_false. intros H.
    destruct (due_row_pending _ _ _ _ _ _ N Hd H) as [[_ Hu]%andb_true_iff _]. rewrite (held_is_claimed t now lease d Hh He) in Hu. done.
  - rewrite answer_rows. apply update_where_keeps; [done|]. unfold pending_of. rewrite (proj2 (N.eqb_neq _ _)); [done|congruence].
  - unfold mark_retry. rewrite settle_rows. apply update_where_keeps; [done|]. rewrite (proj2 (N.eqb_neq _ _)); [done|congruence].
  - apply update_where_keeps; [done|]. unfold is_failed. destruct Hh as [-> _]. by rewrite andb_false_r.
  - apply elem_of_filter_bool. split; [done|]. unfold outlived. by destruct Hh as [-> _].
  - destruct (unused id fresh (rows_of st)) eqn:E; [|done]. unfold rows_of in *. cbn [ob_inbox with_inbox].
    destruct (record_with_deliveries _ _ _ _ _ _ _) as [[answer|e] i'] eqn:Er; cbn [snd].
    + apply record_enqueues in Er; [|intros x Hin; unfold unused in E; rewrite !andb_true_iff in E; destruct E as [[E _] _];
        by apply N.eqb_neq, negb_true_iff, (proj1 (forallb_elem _ _) E)].
      destruct answer as [[id' report]|]; [|by subst i']. destruct Er as (_ & _ & -> & _). apply elem_of_app. by left.
    + revert Er. unfold record_with_deliveries. destruct (build n) as [n'|]; [|by intros [= _ <-]].
      unfold insert_notification. destruct (existsb _ _); [done|]. destruct (negb _); [by intros [= _ <-]|]. by destruct (enqueue _ _ _ _ _ _).
  - unfold rows_of in *. cbn [ob_inbox with_inbox]. by apply changed_keeps.
Qed.

Lemma answered_or_not id (l : list outbox_event) : (exists e, e ∈ l /\ answers id e) \/ forall e, e ∈ l -> ~ answers id e.
Proof.
  induction l as [|e l IH]; [right; by intros e ?%elem_of_nil|]. assert (answers id e \/ ~ answers id e) as [H|H].
  { destruct e as [| |cfg now job o|cfg now job| | | |]; cbn; try (right; by intros []); destruct (decide (dj_id job = id)); tauto. }
  - left. exists e. split; [by left|done].
  - destruct IH as [(x & Hx & Ha)|IH]; [left; exists x; split; [by right|done]|]. right. intros y [->|Hy]%elem_of_cons; auto.
Qed.
Lemma deleted_or_not n (l : list outbox_event) : (exists e, e ∈ l /\ deletes n e) \/ forall e, e ∈ l -> ~ deletes n e.
Proof.
  induction l as [|e l IH]; [right; by intros e ?%elem_of_nil|]. assert (deletes n e \/ ~ deletes n e) as [H|H].
  { destruct e as [| | | | | | |user now c]; cbn; try (right; by intros []). destruct c; cbn; try (right; by intros []); [destruct (decide (n ∈ ids))|destruct (decide (action = s!"delete" /\ n ∈ ids))|destruct (decide (id = n))]; tauto. }
  - left. exists e. split; [by left|done].
  - destruct IH as [(x & Hx & Ha)|IH]; [left; exists x; split; [by right|done]|]. right. intros y [->|Hy]%elem_of_cons; auto.
Qed.

(** C30. A claim is exclusive for its lease: while less than the lease has passed since a runner claimed a
    row, the row stays exactly as the claim left it and no claim of another runner gives it out, however
    claims, sweeps, retries, recordings and requests of readers interleave, unless in the meantime a runner
    answered that delivery (this one or one that held it before: answers go by id alone) or a reader asked
    to delete its notification, with which the row goes. *)
Theorem claimed_delivery_is_left_alone (s : outbox) (es : list outbox_event) (d : delivery_row) (t : Z) :
  rows_ok (rows_of s) -> d ∈ rows_of s -> held t d -> (forall e, e ∈ es -> within_lease t e) ->
  (d ∈ rows_of (outbox_steps s es)
   /\ forall now batch lease locked, now < t + lease * 1000000 ->
        dv_id d ∉ dj_id <$> fst (claim_due now batch lease locked (outbox_steps s es)))
  \/ (exists e, e ∈ es /\ answers (dv_id d) e) \/ (exists e, e ∈ es /\ deletes (dv_notification_id d) e).
Proof.
  intros N Hd Hh He. destruct (answered_or_not (dv_id d) es) as [Ha|Ha]; [by right; left|].
  destruct (deleted_or_not (dv_notification_id d) es) as [Hdel|Hdel]; [by right; right|]. left.
  assert (d ∈ rows_of (outbox_steps s es) /\ rows_ok (rows_of (outbox_steps s es))) as [Hd' N'].
  { revert s N Hd. induction es as [|e es IH]; intros s N Hd; [done|]. cbn [outbox_steps foldl]. apply IH.
    - intros y Hy. by apply He, list_elem_of_further.
    - intros y Hy. by apply Ha, list_elem_of_further.
    - intros y Hy. by apply Hdel, list_elem_of_further.
    - by apply outbox_step_rows.
    - eapply held_row_step; [done|done|done|apply He|apply Ha|apply Hdel]; apply list_elem_of_here. }
  split; [done|]. intros now batch lease locked Hn (job & Ej & Hj)%list_elem_of_fmap. unfold claim_due in Hj. cbn [fst] in Hj.
  apply list_elem_of_omap in Hj as (x & Hx & Ex). rewrite sort_by_perm in Hx. apply elem_of_filter_bool in Hx as [_ Hx%bool_decide_eq_true].
  assert (dj_id job = dv_id x) as E by (unfold job_of in Ex; destruct (notification_of _ x); [|done]; by injection Ex as <-). rewrite <- E, <- Ej in Hx.
  destruct (due_row_pending _ _ _ _ _ _ N' Hd' Hx) as [[_ Hu]%andb_true_iff _]. rewrite (held_is_claimed t now lease d Hh Hn) in Hu. done.
Qed.

(** ** A runner's tick *)

Definition outcome_of (transports : list (str * transport)) (job : delivery_job) : option transport_outcome :=
  (fun t : transport => t job) <$> transport_for transports (dj_channel job).

Lemma deliver_all_rows_ok cfg transports clock k jobs st : rows_ok (rows_of st) -> rows_ok (rows_of (deliver_all cfg transports clock k jobs st)).
Proof.
  revert k st. induction jobs as [|job jobs IH]; intros k st N; [done|]. cbn [deliver_all]. apply IH. rewrite deliver_one_rows. unfold rows_ok.
  rewrite update_where_fmap; [done|]. intros d. apply answered_row_same.
Qed.

(** A row is touched by its own job only. *)
Lemma deliver_all_others cfg transports clock k jobs st d :
  dv_id d ∉ dj_id <$> jobs -> d ∈ rows_of st -> d ∈ rows_of (deliver_all cfg transports clock k jobs st).
Proof.
  revert k st. induction jobs as [|job jobs IH]; intros k st Hn Hd; [done|]. cbn [fmap list_fmap] in Hn. apply not_elem_of_cons in Hn as [Hne Hn].
  cbn [deliver_all]. apply IH; [done|]. rewrite deliver_one_rows. apply update_where_keeps; [done|]. unfold pending_of.
  by rewrite (proj2 (N.eqb_neq _ _)).
Qed.
Lemma deliver_all_own cfg transports clock k jobs st d job :
  NoDup (dj_id <$> jobs) -> job ∈ jobs -> dj_id job = dv_id d -> is_pending d = true -> d ∈ rows_of st ->
  exists i, (k <= i < k + length jobs)%nat
            /\ answered_row cfg (clock i) job (outcome_of transports job) d ∈ rows_of (deliver_all cfg transports clock k jobs st).
Proof.
  revert k st. induction jobs as [|j jobs IH]; intros k st N Hj E Hp Hd; [by apply elem_of_nil in Hj|]. cbn [fmap list_fmap] in N. apply NoDup_cons in N as [Hn N].
  cbn [deliver_all]. apply elem_of_cons in Hj as [->|Hj].
  - exists k. split; [rewrite length_cons; lia|]. apply deliver_all_others.
    + destruct (answered_row_same cfg (clock k) j (outcome_of transports j) d) as [-> _]. by rewrite <- E.
    + rewrite deliver_one_rows. apply update_where_elem. exists d. split; [done|]. unfold pending_of. by rewrite <- E, N.eqb_refl, Hp.
  - destruct (IH (S k) (deliver_one cfg transports (clock k) j st) N Hj E Hp) as (i & Hi & H).
    + rewrite deliver_one_rows. apply update_where_keeps; [done|]. unfold pending_of. rewrite (proj2 (N.eqb_neq _ _)); [done|].
      intros E'. apply Hn. rewrite <- E', <- E. by apply list_elem_of_fmap_2.
    + exists i. split; [rewrite length_cons; lia|done].
Qed.

(** The tick reaches the row: due, of a notification that is there, on a channel that is on, with room in the batch. *)
Record within_reach (cfg : delivery_config) (locked : uuid -> bool) (now : Z) (st : outbox) (d : delivery_row) : Prop := WithinReach {
  wr_due : is_due now (dc_lease_seconds cfg) d = true;
  wr_free : locked (dv_id d) = false;
  wr_notification : is_given (notification_of st d) = true;
  wr_channel : dv_channel d = IN_APP \/ forall n, notification_of st d = Some n -> channel_on st n (dv_channel d) = true;
  wr_room : (length (List.filter (fun x => is_due now (dc_lease_seconds cfg) x && negb (locked (dv_id x))) (rows_of st)) <= dc_batch cfg)%nat
}.

Lemma settled_not_due now lease d : is_due now lease (set_skipped NOT_SWITCHED_ON d) = false.
Proof. done. Qed.

(** The job of a row that was just claimed. *)
Definition claimed_job (d : delivery_row) (job : delivery_job) : Prop :=
  dj_id job = dv_id d /\ dj_channel job = dv_channel d /\ dj_attempts job = dv_attempts d + 1 /\ dj_max_attempts job = dv_max_attempts d.

Lemma claim_gives now batch lease locked st d :
  rows_ok (rows_of st) -> d ∈ rows_of st -> is_due now lease d = true -> locked (dv_id d) = false -> is_given (notification_of st d) = true ->
  (length (List.filter (fun x => is_due now lease x && negb (locked (dv_id x))) (rows_of st)) <= batch)%nat ->
  let '(jobs, st') := claim_due now batch lease locked st in
  set_claimed now d ∈ rows_of st' /\ rows_ok (rows_of st') /\ NoDup (dj_id <$> jobs) /\ exists job, job ∈ jobs /\ claimed_job d job.
Proof.
  intros N Hd Hdue Hl Hn Hroom. unfold claim_due. set (ids := dv_id <$> due_rows now batch lease locked st). set (st' := with_rows _ st).
  assert (dv_id d ∈ ids) as Hid.
  { apply list_elem_of_fmap_2. unfold due_rows. rewrite take_ge; [|rewrite sort_by_perm; done]. rewrite sort_by_perm. apply elem_of_filter_bool.
    by rewrite Hdue, Hl. }
  assert (rows_ok (rows_of st')) as N' by (unfold st', rows_ok; cbn [rows_of]; unfold rows_of; cbn; by rewrite update_where_fmap).
  assert (set_claimed now d ∈ rows_of st') as Hd'.
  { unfold st', rows_of. cbn. apply update_where_elem. exists d. split; [done|]. by rewrite bool_decide_true. }
  split; [done|]. split; [done|].
  assert (forall l : list delivery_row, NoDup (dv_id <$> l) -> NoDup (dj_id <$> omap (job_of st') l)) as Hnodup.
  { assert (forall x job, job_of st' x = Some job -> dj_id job = dv_id x) as Hj.
    { intros x job. unfold job_of. destruct (notification_of _ x); [|done]. by intros [= <-]. }
    induction l as [|x l IH]; [intros _; apply NoDup_nil_2|]. cbn [fmap list_fmap omap list_omap]. intros [Hx Hnd]%NoDup_cons.
    destruct (job_of st' x) as [job|] eqn:Ej; [|by apply IH]. cbn [fmap list_fmap]. apply NoDup_cons. split; [|by apply IH].
    intros (job' & E & (y & Hy & Ey)%list_elem_of_omap)%list_elem_of_fmap. apply Hx. rewrite <- (Hj _ _ Ej), E, (Hj _ _ Ey). by apply list_elem_of_fmap_2. }
  split.
  - apply Hnodup. unfold rows_ok in N'. rewrite sort_by_perm. by apply NoDup_filter_keys.
  - assert (notification_of st' (set_claimed now d) = notification_of st d) as En by done.
    destruct (notification_of st d) as [n|] eqn:E; [|done]. eexists. split.
    + apply list_elem_of_omap. exists (set_claimed now d). split; [rewrite sort_by_perm; apply elem_of_filter_bool; split; [done|]; by apply bool_decide_true|].
      unfold job_of. rewrite En. reflexivity.
    + by repeat split.
Qed.

(** A row within reach is claimed with one attempt more and leaves the tick as its transport answered it. *)
Lemma tick_row (cfg : delivery_config) (transports : list (str * transport)) (locked : uuid -> bool) (now : Z) (clock : nat -> Z)
    (st : outbox) (d : delivery_row) :
  rows_ok (rows_of st) -> d ∈ rows_of st -> within_reach cfg locked now st d ->
  rows_ok (rows_of (snd (run_due cfg transports locked now clock st)))
  /\ exists job i, claimed_job d job
     /\ answered_row cfg (clock i) job (outcome_of transports job) (set_claimed now d) ∈ rows_of (snd (run_due cfg transports locked now clock st)).
Proof.
  intros N Hd [Hdue Hl Hn Hc Hroom]. unfold run_due. destruct (settle_not_ready now (dc_lease_seconds cfg) st) as [skipped st1] eqn:E1.
  assert (st1 = with_rows (update_where (not_ready now (dc_lease_seconds cfg) st) (set_skipped NOT_SWITCHED_ON) (rows_of st)) st) as Est by by injection E1.
  assert (rows_of st1 = update_where (not_ready now (dc_lease_seconds cfg) st) (set_skipped NOT_SWITCHED_ON) (rows_of st)) as Erows by by rewrite Est.
  assert (d ∈ rows_of st1) as Hd1.
  { rewrite Erows. apply update_where_keeps; [done|]. unfold not_ready. destruct Hc as [->|Hc]; [by rewrite str_eqb_refl, !andb_false_r|].
    destruct (notification_of st d) as [n|]; [|by rewrite andb_false_r]. by rewrite (Hc n eq_refl), !andb_false_r. }
  assert (rows_ok (rows_of st1)) as N1 by (unfold rows_ok; by rewrite Erows, update_where_fmap).
  assert (length (List.filter (fun x => is_due now (dc_lease_seconds cfg) x && negb (locked (dv_id x))) (rows_of st1)) <= dc_batch cfg)%nat as Hroom1.
  { etrans; [|exact Hroom]. rewrite Erows. clear. induction (rows_of st) as [|x l IH]; [done|]. unfold update_where in *. cbn [fmap list_fmap List.filter].
    destruct (not_ready _ _ st x).
    - rewrite settled_not_due. cbn [andb]. destruct (_ && _); cbn [length]; lia.
    - destruct (_ && _); cbn [length]; lia. }
  assert (is_given (notification_of st1 d) = true) as Hn1 by by rewrite Est.
  pose proof (claim_gives now (dc_batch cfg) (dc_lease_seconds cfg) locked st1 d N1 Hd1 Hdue Hl Hn1 Hroom1) as Hclaim.
  destruct (claim_due _ _ _ _ st1) as [jobs st2]. destruct Hclaim as (Hd2 & N2 & Hj & job & Hjob & Hcj). cbn [snd].
  split; [by apply deliver_all_rows_ok|].
  destruct (deliver_all_own cfg transports clock 0 jobs st2 (set_claimed now d) job Hj Hjob (proj1 Hcj)) as (i & _ & Hi); [by apply (due_is_pending now (dc_lease_seconds cfg) d)|done|].
  exists job, i. split; [exact Hcj|exact Hi].
Qed.

Lemma run_due_keeps cfg transports locked now clock st d :
  rows_ok (rows_of st) -> d ∈ rows_of st -> is_pending d = false ->
  d ∈ rows_of (snd (run_due cfg transports locked now clock st)) /\ rows_ok (rows_of (snd (run_due cfg transports locked now clock st))).
Proof.
  intros N Hd Hp. unfold run_due. destruct (settle_not_ready now (dc_lease_seconds cfg) st) as [skipped st1] eqn:E1.
  assert (rows_of st1 = update_where (not_ready now (dc_lease_seconds cfg) st) (set_skipped NOT_SWITCHED_ON) (rows_of st)) as Erows by (by injection E1 as <- <-).
  assert (d ∈ rows_of st1) as Hd1 by (rewrite Erows; apply update_where_keeps; [done|]; unfold not_ready; by rewrite Hp).
  assert (rows_ok (rows_of st1)) as N1 by (unfold rows_ok; by rewrite Erows, update_where_fmap).
  unfold claim_due. set (ids := dv_id <$> _). set (st2 := with_rows _ st1). set (jobs := omap _ _). cbn [snd].
  assert (d ∈ rows_of st2) as Hd2.
  { apply update_where_keeps; [done|]. apply bool_decide_eq_false. intros H. destruct (due_row_pending _ _ _ _ _ _ N1 Hd1 H) as [H' _].
    apply due_is_pending in H'. congruence. }
  assert (rows_ok (rows_of st2)) as N2 by (unfold st2, rows_ok, rows_of; cbn; by rewrite update_where_fmap).
  split; [|by apply deliver_all_rows_ok]. generalize 0%nat. clearbody st2 jobs. clear -Hp Hd2. revert st2 Hd2.
  induction jobs as [|job jobs IH]; intros st2 Hd k; [done|]. cbn [deliver_all]. apply IH. rewrite deliver_one_rows. apply update_where_keeps; [done|].
  unfold pending_of. by rewrite Hp, andb_false_r.
Qed.

Record tick := Tick { tk_now : Z; tk_clock : nat -> Z; tk_locked : uuid -> bool; tk_transports : list (str * transport) }.
Definition after_tick (cfg : delivery_config) (st : outbox) (t : tick) : outbox := snd (run_due cfg (tk_transports t) (tk_locked t) (tk_now t) (tk_clock t) st).
(** Every tick finds the row within its reach, with a transport or without, for as long as it waits. *)
Fixpoint reached (cfg : delivery_config) (has_transport : bool) (id : uuid) (ts : list tick) (st : outbox) : Prop :=
  match ts with
  | [] => True
  | t :: ts =>
      (forall d, d ∈ rows_of st -> dv_id d = id -> is_pending d = true ->
         within_reach cfg (tk_locked t) (tk_now t) st d /\ is_given (transport_for (tk_transports t) (dv_channel d)) = has_transport)
      /\ reached cfg has_transport id ts (after_tick cfg st t)
  end.

Lemma closed_stays cfg ts st d :
  rows_ok (rows_of st) -> d ∈ rows_of st -> is_pending d = false -> d ∈ rows_of (foldl (after_tick cfg) st ts).
Proof.
  revert st. induction ts as [|t ts IH]; intros st N Hd Hp; [done|]. cbn [foldl].
  destruct (run_due_keeps cfg (tk_transports t) (tk_locked t) (tk_now t) (tk_clock t) st d N Hd Hp). by apply IH.
Qed.

(** Every delivery comes to an end: a runner that reaches a row, and has a transport for its channel,
    settles it within the attempts that are left, whatever the transport answers and whatever else is
    in the queue. *)
Theorem reached_delivery_is_settled (cfg : delivery_config) (ts : list tick) (st : outbox) (d : delivery_row) :
  rows_ok (rows_of st) -> d ∈ rows_of st -> reached cfg true (dv_id d) ts st ->
  Z.max 1 (dv_max_attempts d - dv_attempts d) <= Z.of_nat (length ts) ->
  exists d', d' ∈ rows_of (foldl (after_tick cfg) st ts) /\ dv_id d' = dv_id d /\ is_pending d' = false.
Proof.
  revert st d. induction ts as [|t ts IH]; intros st d N Hd Hr Hlen; [cbn in Hlen; lia|].
  destruct (is_pending d) eqn:Hp; [|exists d; split; [by apply closed_stays|done]].
  destruct Hr as [Hr Hrest]. destruct (Hr d Hd eq_refl Hp) as [Hreach Ht]. cbn [foldl].
  destruct (tick_row cfg (tk_transports t) (tk_locked t) (tk_now t) (tk_clock t) st d N Hd Hreach) as (N' & job & i & (Ej & Ech & Ea & Em) & Hin).
  fold (after_tick cfg st t) in N', Hin. set (d1 := answered_row _ _ _ _ _) in Hin.
  destruct (answered_row_same cfg (tk_clock t i) job (outcome_of (tk_transports t) job) (set_claimed (tk_now t) d)) as (E1 & _ & _ & E4 & _ & E6).
  fold d1 in E1, E4, E6. cbn [dv_id dv_max_attempts dv_attempts set_claimed] in E1, E4, E6.
  destruct (is_pending d1) eqn:Hp1; [|exists d1; split_and!; [by apply closed_stays|congruence|done]].
  assert (dv_attempts d + 1 < dv_max_attempts d) as Hlt.
  { revert Hp1. unfold d1, outcome_of. rewrite Ech. destruct (transport_for _ _) as [tr|]; [|done]. cbn [fmap option_fmap option_map answered_row].
    destruct (tr job) as [|]; [done|]. destruct (Z.ltb_spec (dj_attempts job) (dj_max_attempts job)); [lia|done]. }
  destruct (IH (after_tick cfg st t) d1 N' Hin) as (d' & Hd' & Ed' & Hp'); [by rewrite E1|rewrite E4, E6; rewrite length_cons in Hlen; lia|].
  exists d'. split_and!; [done|congruence|done].
Qed.

(** Without a transport the attempts are counted and the cap is never looked at. *)
Theorem untransported_delivery_never_settles (cfg : delivery_config) (ts : list tick) (st : outbox) (d : delivery_row) :
  rows_ok (rows_of st) -> d ∈ rows_of st -> is_pending d = true -> reached cfg false (dv_id d) ts st ->
  exists d', d' ∈ rows_of (foldl (after_tick cfg) st ts) /\ dv_id d' = dv_id d /\ is_pending d' = true
             /\ dv_attempts d' = dv_attempts d + Z.of_nat (length ts) /\ dv_max_attempts d' = dv_max_attempts d.
Proof.
  revert st d. induction ts as [|t ts IH]; intros st d N Hd Hp Hr; [exists d; cbn; split_and!; try done; lia|].
  destruct Hr as [Hr Hrest]. destruct (Hr d Hd eq_refl Hp) as [Hreach Ht]. cbn [foldl].
  destruct (tick_row cfg (tk_transports t) (tk_locked t) (tk_now t) (tk_clock t) st d N Hd Hreach) as (N' & job & i & (Ej & Ech & Ea & Em) & Hin).
  fold (after_tick cfg st t) in N', Hin. unfold outcome_of in Hin. rewrite Ech in Hin. destruct (transport_for _ _); [done|]. cbn [fmap option_fmap option_map answered_row] in Hin.
  destruct (IH (after_tick cfg st t) _ N' Hin) as (d' & Hd' & Ed' & Hp' & Ha & Hm); [done|done|].
  exists d'. split_and!; try done. cbn [dv_attempts set_retry set_claimed] in Ha. rewrite Ha, length_cons. lia.
Qed.

(** ** Quiet hours *)

Definition with_preferences (p : preference_store) (st : outbox) : outbox :=
  with_inbox (Inbox (ib_accounts (ob_inbox st)) p (ib_notifications (ob_inbox st)) (ib_deliveries (ob_inbox st))) st.

(** What a tick does is the same whatever the readers set: neither their quiet hours nor their digest
    holds a delivery back. *)
Theorem quiet_hours_hold_nothing_back (cfg : delivery_config) (transports : list (str * transport)) (locked : uuid -> bool) (now : Z) (clock : nat -> Z)
    (p : preference_store) (st : outbox) :
  fst (run_due cfg transports locked now clock (with_preferences p st)) = fst (run_due cfg transports locked now clock st)
  /\ rows_of (snd (run_due cfg transports locked now clock (with_preferences p st))) = rows_of (snd (run_due cfg transports locked now clock st)).
Proof.
  assert (forall job o now st, answer cfg now job o (with_preferences p st) = with_preferences p (answer cfg now job o st)) as Ha.
  { intros job o now' st'. unfold answer. destruct o as [status [|g gone]|status reason [|g gone]]; try done; cbn [pruned]; by destruct (_ <? _). }
  assert (forall jobs k st, deliver_all cfg transports clock k jobs (with_preferences p st) = with_preferences p (deliver_all cfg transports clock k jobs st)) as H.
  { induction jobs as [|job jobs IH]; intros k st'; [done|]. cbn [deliver_all]. rewrite <- IH. f_equal. unfold deliver_one. destruct (transport_for _ _); [apply Ha|done]. }
  assert (forall st, settle_not_ready now (dc_lease_seconds cfg) (with_preferences p st)
            = let '(n, st) := settle_not_ready now (dc_lease_seconds cfg) st in (n, with_preferences p st)) as Hs by done.
  assert (forall st, claim_due now (dc_batch cfg) (dc_lease_seconds cfg) locked (with_preferences p st)
            = let '(jobs, st) := claim_due now (dc_batch cfg) (dc_lease_seconds cfg) locked st in (jobs, with_preferences p st)) as Hc by done.
  unfold run_due. rewrite Hs. destruct (settle_not_ready _ _ _) as [n st1]. rewrite Hc. destruct (claim_due _ _ _ _ _) as [jobs st2].
  split; [done|]. cbn [snd]. by rewrite H.
Qed.
End Queue.

(** ** Push *)

Section Push.
Context `{J : JsonNumber}.
Variables (uuid_text : uuid -> str) (seal : push_target -> value -> result (list Z) str) (authorization : str -> option str) (push_post : str -> str -> list Z -> result Z str).

(** What the service of one device answered, if it was reached. *)
Definition device_answer (job : delivery_job) (t : push_target) : option Z :=
  match seal t (push_payload uuid_text job), authorization (pt_endpoint t) with
  | Ok body, Some header => match push_post (pt_endpoint t) header body with Ok code => Some code | Err _ => None end
  | _, _ => None
  end.
Definition device_reached (job : delivery_job) (t : push_target) : bool := match device_answer job t with Some code => is_success code | None => false end.
Definition device_gone (job : delivery_job) (t : push_target) : bool := match device_answer job t with Some code => (code =? 404) || (code =? 410) | None => false end.

Lemma push_one_counts job p t :
  let p' := push_one uuid_text seal authorization push_post job p t in
  pp_delivered p' = ((if device_reached job t then 1 else 0) + pp_delivered p)%nat
  /\ exists code, pp_gone p' = pp_gone p ++ (if device_gone job t then [PrunedSubscription (pt_id t) (pt_endpoint t) code] else []).
Proof.
  unfold push_one, device_reached, device_gone, device_answer. destruct (seal _ _) as [body|]; [|split; [done|exists 0; by rewrite app_nil_r]].
  destruct (authorization _) as [header|]; [|split; [done|exists 0; by rewrite app_nil_r]].
  destruct (push_post _ _ _) as [code|]; [|split; [done|exists 0; by rewrite app_nil_r]].
  destruct (is_success code) eqn:E.
  - split; [done|]. exists 0. unfold is_success in E. replace ((code =? 404) || (code =? 410)) with false by lia. by rewrite app_nil_r.
  - destruct (_ || _); [split; [done|by exists code]|]. split; [done|]. exists 0. by rewrite app_nil_r.
Qed.

Lemma prune_endpoints_filter gone l :
  prune_endpoints gone l = List.filter (fun s => negb (existsb (fun g => str_eqb (ps_endpoint s) (pr_endpoint g)) gone)) l.
Proof.
  revert l. induction gone as [|g gone IH]; intros l; [symmetry; by apply filter_all|]. unfold prune_endpoints in *. cbn [foldl]. rewrite IH.
  rewrite filter_filter_bool. apply filter_ext. intros s. cbn [existsb]. by rewrite negb_orb.
Qed.

Lemma push_loop job targets p :
  let p' := foldl (push_one uuid_text seal authorization push_post job) p targets in
  (0 <? pp_delivered p')%nat = (0 <? pp_delivered p)%nat || existsb (device_reached job) targets
  /\ forall e, existsb (fun g => str_eqb e (pr_endpoint g)) (pp_gone p')
               = existsb (fun g => str_eqb e (pr_endpoint g)) (pp_gone p) || existsb (fun t => str_eqb e (pt_endpoint t) && device_gone job t) targets.
Proof.
  revert p. induction targets as [|t targets IH]; intros p; cbn [foldl existsb]; [split; [|intros e]; by rewrite orb_false_r|].
  destruct (IH (push_one uuid_text seal authorization push_post job p t)) as [H1 H2]. destruct (push_one_counts job p t) as [E1 (code & E2)]. split.
  - rewrite H1, E1. by destruct (device_reached job t), (pp_delivered p).
  - intros e. rewrite H2, E2, existsb_app, <- orb_assoc. f_equal. destruct (device_gone job t); cbn [existsb pr_endpoint]; by rewrite ?orb_false_r, ?andb_true_r, ?andb_false_r.
Qed.

(** A push is delivered when one device took it, and exactly the devices whose service says they are
    gone are forgotten; a device that could not be reached, or answered anything else, is kept. *)
Theorem push_forgets_the_gone (cfg : delivery_config) (now : Z) (job : delivery_job) (st : outbox) :
  let o := push_transport uuid_text seal authorization push_post job in
  is_accepted o = existsb (device_reached job) (dj_push_targets job)
  /\ ob_subscriptions (answer cfg now job o st)
     = List.filter (fun s => negb (existsb (fun t => str_eqb (ps_endpoint s) (pt_endpoint t) && device_gone job t) (dj_push_targets job))) (ob_subscriptions st).
Proof.
  assert (forall o, ob_subscriptions (answer cfg now job o st) = prune_endpoints (pruned o) (ob_subscriptions st)) as Ha.
  { intros [status [|g gone]|status reason [|g gone]]; unfold answer; cbn [pruned]; try done; by destruct (_ <? _). }
  cbn zeta. rewrite Ha, prune_endpoints_filter. clear Ha. unfold push_transport. destruct (dj_push_targets job) as [|t ts']; [by split|].
  pose proof (push_loop job (t :: ts') (PushProgress 0 [] None None)) as [H1 H2]. cbn zeta in *. cbn [pp_delivered pp_gone] in H1, H2.
  destruct (0 <? _)%nat; cbn [is_accepted pruned]; (split; [exact H1|]); apply filter_ext; intros s; by rewrite H2.
Qed.
End Push.

(** ** Examples and witnesses *)

Definition waiting (attempts : Z) (next : instant) (claim : option instant) : delivery_row :=
  DeliveryRow 100 1 s!"email" Pending attempts 2 next None None None 0 claim.
Definition sample_outbox (rows : list delivery_row) : outbox :=
  Outbox (Inbox (ib_accounts sample_inbox) (ib_preferences sample_inbox) [new_row 1 0 (Some 9%N) None (sample_draft 5)] rows)
    [ChannelRow 9 s!"email" true VNull None None] [] [].
Definition down : transport := fun _ => failed None s!"down".
Definition sample_tick (now : Z) : tick := Tick now (fun k => now + 1000000) (fun _ => false) [(s!"email", down)].

Lemma within_reach_sample (attempts next now : Z) (claim : option instant) :
  is_due now 30 (waiting attempts next claim) = true -> within_reach default_delivery_config (fun _ => false) now (sample_outbox [waiting attempts next claim]) (waiting attempts next claim).
Proof.
  intros E. split; [exact E|reflexivity|reflexivity| |].
  - right. intros n Hn. injection Hn as <-. reflexivity.
  - cbn [rows_of ob_inbox sample_outbox ib_deliveries List.filter]. destruct (_ && _); cbn; lia.
Qed.

(** The second failure of a row that may be tried twice is its last. *)
Lemma reached_delivery_is_settled_witness :
  exists d, d ∈ rows_of (foldl (after_tick default_delivery_config) (sample_outbox [waiting 0 0 None]) [sample_tick 0; sample_tick 60000000]) /\ is_pending d = false.
Proof.
  assert (rows_ok (rows_of (sample_outbox [waiting 0 0 None]))) as N by (apply (bool_decide_eq_true_1 _); reflexivity).
  assert (reached default_delivery_config true 100 [sample_tick 0; sample_tick 60000000] (sample_outbox [waiting 0 0 None])) as R.
  { cbn [reached]. split.
    - intros d Hd _ _. apply list_elem_of_singleton in Hd as ->. split; [apply within_reach_sample; reflexivity|reflexivity].
    - split; [|exact I].
      set (back := DeliveryRow 100 1 s!"email" Pending 1 2 16000000 None (Some s!"down") None 0 None).
      assert (after_tick default_delivery_config (sample_outbox [waiting 0 0 None]) (sample_tick 0) = sample_outbox [back]) as ->
        by (vm_cast_no_check (eq_refl (sample_outbox [back]))).
      intros d Hd _ _. apply list_elem_of_singleton in Hd as ->. split; [|reflexivity]. split; try reflexivity.
      + right. intros n Hn. injection Hn as <-. reflexivity.
      + apply Nat.leb_le. vm_compute. reflexivity. }
  destruct (reached_delivery_is_settled default_delivery_config [sample_tick 0; sample_tick 60000000] (sample_outbox [waiting 0 0 None]) (waiting 0 0 None) N
    (list_elem_of_here _ _) R ltac:(apply Z.leb_le; reflexivity)) as (d & Hd & _ & Hp).
  exists d. split; [exact Hd|exact Hp].
Defined.

(** Two runners: while the first sends, the second claims, sweeps and retries around its row. *)
Definition busy_queue : list outbox_event :=
  [NotReady 5000000 30; Claimed 29999999 50 30 (fun _ => false); Retried 6000000 100; Swept 7000000; Changed 5 8000000 (ReadRows [1%N] true)].
Lemma claimed_delivery_is_left_alone_witness :
  waiting 1 0 (Some 0) ∈ rows_of (outbox_steps (sample_outbox [waiting 1 0 (Some 0)]) busy_queue).
Proof.
  destruct (claimed_delivery_is_left_alone (sample_outbox [waiting 1 0 (Some 0)]) busy_queue (waiting 1 0 (Some 0)) 0) as [[H _]|[(e & He & H)|(e & He & H)]].
  - apply (bool_decide_eq_true_1 _). reflexivity.
  - apply list_elem_of_here.
  - split; reflexivity.
  - intros e He. unfold busy_queue in He. rewrite !elem_of_cons in He. destruct He as [->|[->|[->|[->|[->|He]]]]]; cbn; try lia; try done. by apply elem_of_nil in He.
  - exact H.
  - exfalso. unfold busy_queue in He. rewrite !elem_of_cons in He. destruct He as [->|[->|[->|[->|[->|He]]]]]; [exact H..|by apply elem_of_nil in He].
  - exfalso. unfold busy_queue in He. rewrite !elem_of_cons in He. destruct He as [->|[->|[->|[->|[->|He]]]]]; [exact H..|by apply elem_of_nil in He].
Defined.

Definition went_out : delivery_row := DeliveryRow 100 1 s!"email" Sent 1 2 0 None None (Some 5) 0 None.
Lemma closed_deliveries_are_frozen_witness :
  forall d, d ∈ rows_of (outbox_steps (sample_outbox [went_out]) busy_queue) -> dv_id d = 100%N -> d = went_out.
Proof.
  intros d Hd E. refine (closed_deliveries_are_frozen (sample_outbox [went_out]) busy_queue went_out d _ (list_elem_of_here _ _) (or_introl eq_refl) _ Hd E).
  - apply (bool_decide_eq_true_1 _). reflexivity.
  - intros e He. unfold busy_queue in He. rewrite !elem_of_cons in He. destruct He as [->|[->|[->|[->|[->|He]]]]]; try done. by apply elem_of_nil in He.
Defined.

(** A lease that ran out before its runner answered: the second claim fails the delivery for good, and the
    mail that the first runner did send is not written down. *)
Definition first_job (attempts : Z) : delivery_job := DeliveryJob 100 1 5 s!"email" attempts 2 s!"opened" [] None None None [].
Example slow_runner_is_overruled :
  (fun d => (dv_status d, dv_attempts d)) <$> rows_of (outbox_steps (sample_outbox [waiting 0 0 None])
     [Claimed 0 50 30 (fun _ => false); Claimed 31000000 50 30 (fun _ => false); Answered default_delivery_config 32000000 (first_job 2) (failed None s!"down");
      Answered default_delivery_config 33000000 (first_job 1) (accepted None)])
  = [(Failed, 2)].
Proof. vm_compute. reflexivity. Qed.

(** A runner that dies after each claim takes the row past its cap: nothing but an answer compares the two. *)
Example crashes_pass_the_cap :
  (fun d => (dv_status d, dv_attempts d, dv_max_attempts d)) <$> rows_of (outbox_steps (sample_outbox [waiting 0 0 None])
     ((fun k => Claimed (k * 31000000) 50 30 (fun _ => false)) <$> [0; 1; 2; 3; 4]))
  = [(Pending, 5, 2)].
Proof. vm_compute. reflexivity. Qed.
