(* ===== verification/Routes.v ===== *)
(** * The notification router: [crates/notifications/src/router.rs] and the rule routes of
      [apps/api/src/routes/notifications_admin.rs]

    Rules as rows of a table with its constraints, their recipients and templates, and the pass that
    turns an event of the bus into notifications.  Printing and parsing of identifiers are parameters;
    the event a pass emits is not modelled. *)

From S2P Require Import Prelude Json Roles Bindings Hierarchy PolicyEngine Policies Preferences Inbox.

(** ** Recipients *)

Inductive recipient_rule := Actor | Permission (key : str) | WithRole (key : str) | PayloadUser (field : str).
#[export] Instance recipient_rule_eq_dec : EqDecision recipient_rule.
Proof. solve_decision. Defined.

Definition encode (r : recipient_rule) : str :=
  match r with
  | Actor => s!"actor"
  | Permission key => s!"permission:" ++ key
  | WithRole key => s!"role:" ++ key
  | PayloadUser field => s!"payload_user:" ++ field
  end.
Definition decode (raw : str) : option recipient_rule :=
  if str_eqb raw s!"actor" then Some Actor
  else
    '(prefix, target) ← split_once c!":" raw;
    if str_eqb prefix s!"permission" then Some (Permission target)
    else if str_eqb prefix s!"role" then Some (WithRole target)
    else if str_eqb prefix s!"payload_user" then Some (PayloadUser target)
    else None.
Definition is_well_formed (r : recipient_rule) : bool :=
  match r with Actor => true | Permission key | WithRole key | PayloadUser key => negb (str_eqb (trim key) []) end.

(** ** Rules *)

Record route_rule := RouteRule {
  ru_id : uuid;
  ru_event_name : str;
  ru_category : str;
  ru_priority : str;
  ru_recipient : recipient_rule;
  ru_title_template : str;
  ru_url_template : option str;
  ru_enabled : bool;
  ru_created_by : option uuid;
  ru_created_at : instant
}.
Definition is_valid (r : route_rule) : bool :=
  is_category (ru_category r) && is_priority (ru_priority r) && is_well_formed (ru_recipient r) && negb (str_eqb (trim (ru_event_name r)) []).

(** A row of [notification_routes]: the recipient is text. *)
Record route_row := RouteRow {
  rw_id : uuid;
  rw_event_name : str;
  rw_category : str;
  rw_priority : str;
  rw_recipient : str;
  rw_title_template : str;
  rw_url_template : option str;
  rw_enabled : bool;
  rw_created_by : option uuid;
  rw_created_at : instant
}.
(** [from_row]: a recipient this build does not know is a decoding failure of the query. *)
Definition from_row (r : route_row) : result route_rule notification_error :=
  match decode (rw_recipient r) with
  | Some recipient =>
      Ok (RouteRule (rw_id r) (rw_event_name r) (rw_category r) (rw_priority r) recipient (rw_title_template r) (rw_url_template r) (rw_enabled r)
            (rw_created_by r) (rw_created_at r))
  | None => Err NotificationDatabase
  end.
Definition rule_order (a b : route_row) : comparison := then_with (Z.compare (rw_created_at a) (rw_created_at b)) (N.compare (rw_id a) (rw_id b)).
Definition rules_for_event (name : str) (t : list route_row) : result (list route_rule) notification_error :=
  collect (from_row <$> sort_by rule_order (List.filter (fun r => str_eqb (rw_event_name r) name && rw_enabled r) t)).
Definition list_rules (t : list route_row) : result (list route_rule) notification_error := collect (from_row <$> sort_by rule_order t).

(** The constraints of the table; [split_part] answers the text between the first two colons. *)
Definition split_part_2 (s : str) : str := default [] (split_on c!":" s !! 1%nat).
Definition check_row (r : route_row) : bool :=
  is_category (rw_category r) && is_priority (rw_priority r)
  && (str_eqb (rw_recipient r) s!"actor"
      || existsb (starts_with (rw_recipient r)) [s!"permission:"; s!"role:"; s!"payload_user:"])
  && (str_eqb (rw_recipient r) s!"actor" || negb (str_eqb (split_part_2 (rw_recipient r)) []))
  && negb (str_eqb (btrim (rw_title_template r)) []).
Definition unique_key (r : route_row) : str * str * str := (rw_event_name r, rw_category r, rw_recipient r).
Definition ALREADY_EXISTS : str := s!"a rule for this event, category and recipient already exists".

(** [id] and [now] are the defaults of the row; the author of a rule is the account of the session. *)
Definition row_to_write (id : uuid) (now : instant) (r : route_rule) : route_row :=
  RouteRow id (ru_event_name r) (ru_category r) (ru_priority r) (encode (ru_recipient r)) (ru_title_template r) (ru_url_template r) (ru_enabled r)
    (ru_created_by r) now.
Definition create_rule (id : uuid) (now : instant) (r : route_rule) (t : list route_row) : result route_rule notification_error * list route_row :=
  let row := row_to_write id now r in
  if negb (check_row row) then (Err NotificationDatabase, t)
  else if existsb (fun x => bool_decide (unique_key x = unique_key row)) t then (Err (BadDefinition ALREADY_EXISTS), t)
  else (from_row row, t ++ [row]).
Definition delete_rule (id : uuid) (t : list route_row) : bool * list route_row :=
  (existsb (fun r => (rw_id r =? id)%N) t, List.filter (fun r => negb (rw_id r =? id)%N) t).

(** The route: the body's recipient is parsed, everything else is the rule's. *)
Record create_route_body := CreateRouteBody {
  cb_event_name : str;
  cb_category : str;
  cb_priority : option str;
  cb_recipient : str;
  cb_title_template : str;
  cb_url_template : option str
}.
Definition create_route (id : uuid) (now : instant) (session : uuid) (b : create_route_body) (t : list route_row) :
  result route_rule notification_error * list route_row :=
  match decode (cb_recipient b) with
  | None => (Err (BadDefinition s!"invalid_route"), t)
  | Some recipient =>
      if negb (is_well_formed recipient) then (Err (BadDefinition s!"invalid_route"), t)
      else
        let rule := RouteRule 0 (cb_event_name b) (cb_category b) (default s!"normal" (cb_priority b)) recipient (cb_title_template b) (cb_url_template b)
                      true (Some session) 0 in
        if negb (is_valid rule) then (Err (BadDefinition s!"invalid_route"), t) else create_rule id now rule t
  end.

(** ** Routing *)

(** [str::replace] for a pattern that is not empty: left to right, never inside what was put in. *)
Fixpoint replace_from (pat by_ : str) (skip : nat) (s : str) : str :=
  match s with
  | [] => []
  | c :: rest =>
      match skip with
      | S skip => replace_from pat by_ skip rest
      | O => if starts_with s pat then by_ ++ replace_from pat by_ (length pat - 1) rest else c :: replace_from pat by_ 0 rest
      end
  end.
Definition replace (pat by_ s : str) : str := replace_from pat by_ 0 s.

Section Routing.
Context `{J : JsonNumber} (show_uuid : uuid -> str) (parse_uuid : str -> option uuid).

Record routed_event := RoutedEvent {
  re_id : uuid;
  re_name : str;
  re_actor_user_id : option uuid;
  re_organization_id : option uuid;
  re_payload : value
}.
Definition short_id (id : uuid) : str := take 8 (show_uuid id).
Definition render (template : str) (e : routed_event) : str :=
  let subject := default s!"an update" ((match get s!"title" (re_payload e) with Some v => Some v | None => get s!"name" (re_payload e) end) ≫= as_str) in
  let actor := default s!"the platform" (short_id <$> re_actor_user_id e) in
  trim (replace s!"{subject}" subject (replace s!"{actor}" actor template)).
Definition dedupe_key (e : routed_event) (recipient : uuid) : str := s!"event:" ++ show_uuid (re_id e) ++ s!":" ++ show_uuid recipient.

(** What a pass reads besides the rules and the inbox it writes. *)
Definition event_context (e : routed_event) : resource_context :=
  context_from_scope (match re_organization_id e with Some o => Organization o | None => Global end).
Definition candidates (accounts : list account) (e : routed_event) : list uuid :=
  ac_id <$> List.filter (fun a => ac_active a && match re_organization_id e with Some o => bool_decide (ac_organization_id a = Some o) | None => true end) accounts.
Definition CANNOT_RESOLVE : str := s!"cannot resolve the permission rule".
Fixpoint holders (db : iam_db) (now : instant) (ctx : resource_context) (key : str) (l : list uuid) : result (list uuid) notification_error :=
  match l with
  | [] => Ok []
  | candidate :: l =>
      match effective_permissions_for db now (User candidate) ctx with
      | Err _ => Err (BadDefinition CANNOT_RESOLVE)
      | Ok e => let? rest := holders db now ctx key l in Ok (if allows e key then candidate :: rest else rest)
      end
  end.
Definition is_active_account (accounts : list account) (user : uuid) : bool := existsb (fun a => (ac_id a =? user)%N && ac_active a) accounts.
Definition binding_counts (db : iam_db) (now : instant) (organization : option uuid) (key : str) (b : binding_row) : bool :=
  match st_roles (db_roles db) !! br_role_id b with Some r => str_eqb (role_key r) key | None => false end
  && live now b
  && match organization, br_organization_id b with Some o, Some bound => (bound =? o)%N | _, _ => true end.
Definition with_role (db : iam_db) (accounts : list account) (now : instant) (organization : option uuid) (key : str) : list uuid :=
  remove_dups (List.filter (is_active_account accounts) (omap br_user_id (List.filter (binding_counts db now organization key) (db_bindings db)))).
Definition resolve_recipients (db : iam_db) (accounts : list account) (now : instant) (rule : recipient_rule) (e : routed_event) :
  result (list uuid) notification_error :=
  match rule with
  | Actor => Ok (match re_actor_user_id e with Some actor => [actor] | None => [] end)
  | Permission key => holders db now (event_context e) key (candidates accounts e)
  | WithRole key => Ok (with_role db accounts now (re_organization_id e) key)
  | PayloadUser field => Ok (match (v ← get field (re_payload e); raw ← as_str v; parse_uuid raw) with Some user => [user] | None => [] end)
  end.

Definition event_payload (e : routed_event) : value :=
  let base := [(s!"event_id", VString (show_uuid (re_id e))); (s!"event_name", VString (re_name e))] in
  VObject (match re_actor_user_id e with Some actor => (s!"actor", VString (show_uuid actor)) :: base | None => base end).
Definition routed_draft (e : routed_event) (rule : route_rule) (recipient : uuid) : new_notification :=
  NewNotification recipient (ru_category rule) (ru_priority rule) (render (ru_title_template rule) e) []
    ((fun template => render template e) <$> ru_url_template rule) (Some s!"event") (Some (re_name e)) (event_payload e) (Some (dedupe_key e recipient)).

Record route_report := RouteReport { rt_created : nat; rt_deduped : nat; rt_unmatched_rules : nat; rt_unknown_event : bool }.
Definition add_outcome (new : bool) (r : route_report) : route_report :=
  RouteReport (if new then S (rt_created r) else rt_created r) (if new then rt_deduped r else S (rt_deduped r)) (rt_unmatched_rules r) (rt_unknown_event r).

(** [nid k] and [did k] are the ids the [k]-th write generates; the count of writes is threaded. *)
Fixpoint notify_each (nid : nat -> uuid) (did : nat -> str -> uuid) (now : instant) (e : routed_event) (rule : route_rule) (recipients : list uuid)
    (acc : nat * route_report) (st : inbox) : result (nat * route_report) notification_error * inbox :=
  match recipients with
  | [] => (Ok acc, st)
  | recipient :: recipients =>
      let '(k, r) := acc in
      match record_with_deliveries (nid k) (did k) now (re_organization_id e) (re_actor_user_id e) (routed_draft e rule recipient) st with
      | (Err error, st) => (Err error, st)
      | (Ok outcome, st) => notify_each nid did now e rule recipients (S k, add_outcome (is_given outcome) r) st
      end
  end.
Definition no_recipients (r : route_report) : route_report := RouteReport (rt_created r) (rt_deduped r) (S (rt_unmatched_rules r)) (rt_unknown_event r).
Fixpoint apply_rules (nid : nat -> uuid) (did : nat -> str -> uuid) (db : iam_db) (now : instant) (e : routed_event) (rules : list route_rule)
    (acc : nat * route_report) (st : inbox) : result route_report notification_error * inbox :=
  match rules with
  | [] => (Ok (snd acc), st)
  | rule :: rules =>
      match resolve_recipients db (ib_accounts st) now (ru_recipient rule) e with
      | Err error => (Err error, st)
      | Ok [] => apply_rules nid did db now e rules (fst acc, no_recipients (snd acc)) st
      | Ok recipients =>
          match notify_each nid did now e rule recipients acc st with
          | (Err error, st) => (Err error, st)
          | (Ok acc, st) => apply_rules nid did db now e rules acc st
          end
      end
  end.
Definition route (nid : nat -> uuid) (did : nat -> str -> uuid) (db : iam_db) (now : instant) (t : list route_row) (e : routed_event) (st : inbox) :
  result route_report notification_error * inbox :=
  match rules_for_event (re_name e) t with
  | Err error => (Err error, st)
  | Ok [] => (Ok (RouteReport 0 0 0 true), st)
  | Ok rules => apply_rules nid did db now e rules (0%nat, RouteReport 0 0 0 false) st
  end.
End Routing.

(** ** Recipients in their column *)

(** A recipient survives its column, and nothing else is taken for one, colons of the target included. *)
Lemma recipient_text (raw : str) (r : recipient_rule) : decode raw = Some r <-> encode r = raw.
Proof.
  split.
  - unfold decode. destruct (str_eqb raw s!"actor") eqn:Ea; [intros [= <-]; symmetry; by apply str_eqb_eq|].
    destruct (split_once c!":" raw) as [[prefix target]|] eqn:E; [|done]. apply split_once_inv in E as ->. cbn [mbind option_bind].
    destruct (str_eqb prefix s!"permission") eqn:E1; [intros [= <-]; by apply str_eqb_eq in E1 as ->|].
    destruct (str_eqb prefix s!"role") eqn:E2; [intros [= <-]; by apply str_eqb_eq in E2 as ->|].
    destruct (str_eqb prefix s!"payload_user") eqn:E3; [intros [= <-]; by apply str_eqb_eq in E3 as ->|done].
  - intros <-. by destruct r.
Qed.


(** ** The table of rules *)

Definition rules_ok (t : list route_row) : Prop := Forall (fun r => check_row r = true) t /\ NoDup (unique_key <$> t).

Lemma prefixed (raw p : str) : starts_with raw p = true -> exists rest, raw = p ++ rest.
Proof.
  intros E. assert (strip_prefix raw p = Some (drop (length p) raw)) as H by (unfold strip_prefix; by rewrite E). by apply strip_prefix_some in H as ->; eexists.
Qed.
(** The constraint on the column admits no text that this build cannot read. *)
Lemma checked_row_reads r : check_row r = true -> exists rule, from_row r = Ok rule.
Proof.
  unfold check_row, from_row. intros [[[_ H]%andb_true_iff _]%andb_true_iff _]%andb_true_iff. cbn [existsb] in H. rewrite !orb_true_iff in H.
  destruct H as [->%str_eqb_eq|[(k & ->)%prefixed|[(k & ->)%prefixed|[(k & ->)%prefixed|H]]]]; [by eexists|by eexists|by eexists|by eexists|done].
Qed.
Lemma collect_from_rows (l : list route_row) :
  (forall r, r ∈ l -> check_row r = true) -> exists rules, collect (from_row <$> l) = Ok rules /\ length rules = length l.
Proof.
  induction l as [|r l IH]; intros H; [by exists []|]. destruct (checked_row_reads r) as [rule E]; [by apply H, list_elem_of_here|].
  destruct IH as (rules & Er & El); [intros x Hx; by apply H, list_elem_of_further|]. exists (rule :: rules). cbn [fmap list_fmap collect]. rewrite E, Er. cbn. by rewrite El.
Qed.

Inductive rule_request := WriteRule (id : uuid) (now : instant) (session : uuid) (b : create_route_body) | RemoveRule (id : uuid).
Definition rule_step (t : list route_row) (q : rule_request) : list route_row :=
  match q with WriteRule id now session b => snd (create_route id now session b t) | RemoveRule id => snd (delete_rule id t) end.

Lemma create_route_ok id now session b t rule t' :
  create_route id now session b t = (Ok rule, t') ->
  exists recipient, decode (cb_recipient b) = Some recipient
    /\ (let row := RouteRow id (cb_event_name b) (cb_category b) (default s!"normal" (cb_priority b)) (cb_recipient b) (cb_title_template b) (cb_url_template b) true (Some session) now in
       check_row row = true /\ (unique_key row ∉ (unique_key <$> t)) /\ from_row row = Ok rule /\ t' = t ++ [row]).
Proof.
  unfold create_route. destruct (decode _) as [recipient|] eqn:Ed; [|done]. destruct (negb _); [done|]. destruct (negb _); [done|].
  unfold create_rule, row_to_write. cbn [ru_event_name ru_category ru_priority ru_recipient ru_title_template ru_url_template ru_enabled ru_created_by].
  rewrite (proj1 (recipient_text _ _) Ed). set (row := RouteRow _ _ _ _ _ _ _ _ _ _). destruct (check_row row) eqn:Ec; [|done]. cbn [negb].
  destruct (existsb _ _) eqn:Ex; [done|]. intros [= Er <-]. exists recipient. split_and!; try done.
  intros (x & E & Hx)%list_elem_of_fmap. pose proof (proj1 (existsb_none _ _) Ex x Hx) as H. cbn beta in H. by rewrite bool_decide_true in H.
Qed.
Lemma create_route_keeps id now session b t : snd (create_route id now session b t) = t \/ exists rule, fst (create_route id now session b t) = Ok rule.
Proof.
  unfold create_route. destruct (decode _) as [recipient|]; [|by left]. destruct (negb _); [by left|]. destruct (negb _); [by left|].
  unfold create_rule. destruct (check_row _) eqn:Ec; [|by left]. cbn [negb]. destruct (existsb _ _); [by left|]. right.
  destruct (checked_row_reads _ Ec) as [rule E]. exists rule. exact E.
Qed.

Lemma rule_step_ok t q : rules_ok t -> rules_ok (rule_step t q).
Proof.
  intros [Hc N]. destruct q as [id now session b|id]; cbn [rule_step].
  - destruct (create_route_keeps id now session b t) as [->|[rule E]]; [done|]. destruct (create_route _ _ _ _ _) as [r t'] eqn:Er. cbn in E. subst r.
    apply create_route_ok in Er as (recipient & _ & Hrow & Hk & _ & ->). split; [by apply Forall_app; split; [|constructor]|].
    cbn [snd]. rewrite fmap_app. by apply NoDup_snoc.
  - split; [|by apply NoDup_filter_keys]. rewrite Forall_forall in *. intros r [Hr _]%elem_of_filter_bool. by apply Hc.
Qed.

(** The table of rules stays readable and without doubles: whatever rules are written and removed, in
    any order, every row of the table is read, so that the rules of an event are always found, and no
    two rows say the same of one event, category and recipient. *)
Theorem rules_stay_readable (qs : list rule_request) (name : str) :
  let t := foldl rule_step [] qs in
  NoDup (unique_key <$> t) /\ is_ok (list_rules t) = true
  /\ exists rules, rules_for_event name t = Ok rules /\ length rules = length (List.filter (fun r => str_eqb (rw_event_name r) name && rw_enabled r) t).
Proof.
  cbn zeta. assert (rules_ok (foldl rule_step [] qs)) as H.
  { assert (rules_ok []) as H0 by (split; [constructor|apply NoDup_nil_2]). revert H0. generalize (@nil route_row).
    induction qs as [|q qs IH]; intros t Ht; [done|]. cbn [foldl]. by apply IH, rule_step_ok. }
  split; [apply H|]. destruct H as [Hc _]. pose proof (proj1 (Forall_forall _ _) Hc) as Hc'. split.
  - destruct (collect_from_rows (sort_by rule_order (foldl rule_step [] qs))) as (rules & E & _); [intros r; rewrite sort_by_perm; apply Hc'|]. unfold list_rules. by rewrite E.
  - set (l := List.filter _ _). destruct (collect_from_rows (sort_by rule_order l)) as (rules & E & El).
    + intros r. rewrite sort_by_perm. intros [Hr _]%elem_of_filter_bool. by apply Hc'.
    + exists rules. split; [exact E|]. rewrite El. by rewrite sort_by_perm.
Qed.

(** What the route answered is what the pass reads, under the text that was asked for. *)
Lemma created_rule_is_live id now session b t t' rule :
  rules_ok t -> create_route id now session b t = (Ok rule, t') ->
  exists rules, rules_for_event (cb_event_name b) t' = Ok rules /\ rule ∈ rules /\ encode (ru_recipient rule) = cb_recipient b.
Proof.
  intros H E. pose proof (rule_step_ok t (WriteRule id now session b) H) as H'. cbn [rule_step] in H'. rewrite E in H'. cbn [snd] in H'.
  apply create_route_ok in E as (recipient & Ed & _ & _ & Er & ->). destruct H' as [Hc _].
  destruct (collect_from_rows (sort_by rule_order (List.filter (fun r => str_eqb (rw_event_name r) (cb_event_name b) && rw_enabled r) (t ++
    [RouteRow id (cb_event_name b) (cb_category b) (default s!"normal" (cb_priority b)) (cb_recipient b) (cb_title_template b) (cb_url_template b) true (Some session) now]))))
    as (rules & E & _).
  - intros r. rewrite sort_by_perm. intros [Hr _]%elem_of_filter_bool. by apply (proj1 (Forall_forall _ _) Hc).
  - exists rules. split; [exact E|]. split.
    + apply collect_ok in E. assert (Ok rule ∈ (Ok <$> rules : list (result route_rule notification_error))) as (x & [= ->] & Hx)%list_elem_of_fmap; [|exact Hx]. rewrite <- E.
      apply list_elem_of_fmap. eexists. split; [symmetry; exact Er|]. rewrite sort_by_perm. apply elem_of_filter_bool.
      split; [apply elem_of_app; right; apply list_elem_of_here|]. cbn. by rewrite str_eqb_refl.
    + unfold from_row in Er. cbn [rw_recipient] in Er. rewrite Ed in Er. injection Er as <-. by apply recipient_text.
Qed.

(** ** A pass *)

Section Pass.
Context `{J : JsonNumber} (show_uuid : uuid -> str) (parse_uuid : str -> option uuid).

(** A draft with a key is written once: what it answers says whether the fact was there. *)
Lemma record_keyed id fresh now organization by_ n key st st' answer :
  nn_dedupe_key n = Some key -> record_with_deliveries id fresh now organization by_ n st = (Ok answer, st') ->
  build n = Ok n /\ ib_accounts st' = ib_accounts st
  /\ ib_notifications st' = ib_notifications st ++ (if is_given answer then [new_row id now organization by_ n] else [])
  /\ (is_given answer = false <-> (nn_user_id n, key) ∈ omap fact_of (ib_notifications st)) /\ (is_given answer = false -> st' = st).
Proof.
  intros Ek. unfold record_with_deliveries. destruct (build n) as [n'|] eqn:Eb; [|done]. pose proof (build_ok _ _ Eb) as (-> & _).
  destruct (insert_notification _ _ _ _ _ _) as [[[new|]|] st1] eqn:Ei; [| |done].
  - apply insert_notification_ok in Ei as (-> & -> & Hs & _). destruct (enqueue _ _ _ _ _ _) as [r l]. intros [= <- <-].
    split_and!; try done. rewrite Ek in Hs. cbn [is_given]. split; [done|]. intros H. apply same_fact_elem in H. by rewrite H in Hs.
  - intros [= <- <-]. revert Ei. unfold insert_notification. destruct (existsb _ _) eqn:Es; [|by destruct (negb _)]. intros [= <-]. rewrite Ek in Es.
    split_and!; try done; [by rewrite app_nil_r|]. split; [intros _; by apply same_fact_elem|done].
Qed.
(** A fact that is there is not written again. *)
Lemma record_known id fresh now organization by_ n key st :
  nn_dedupe_key n = Some key -> build n = Ok n -> (nn_user_id n, key) ∈ omap fact_of (ib_notifications st) ->
  record_with_deliveries id fresh now organization by_ n st = (Ok None, st).
Proof. intros Ek Eb H. unfold record_with_deliveries, insert_notification. rewrite Eb, Ek. by rewrite (proj2 (same_fact_elem _ _ _) H). Qed.

Abbreviation key_of e := (dedupe_key show_uuid e).
Definition told (e : routed_event) (st : inbox) (user : uuid) : Prop := (user, key_of e user) ∈ omap fact_of (ib_notifications st).
Definition routed (e : routed_event) (rules : list route_rule) (now : instant) (n : notification) : Prop :=
  exists rule id, rule ∈ rules /\ n = new_row id now (re_organization_id e) (re_actor_user_id e) (routed_draft show_uuid e rule (nt_user_id n)).

Lemma told_cons e user (l : list notification) (n : notification) :
  nt_dedupe_key n = Some (key_of e (nt_user_id n)) -> (user, key_of e user) ∈ omap fact_of (l ++ [n]) <-> (user, key_of e user) ∈ omap fact_of l \/ user = nt_user_id n.
Proof.
  intros Ek. rewrite omap_app, elem_of_app. replace (omap fact_of [n]) with [(nt_user_id n, key_of e (nt_user_id n))] by (cbn; unfold fact_of; by rewrite Ek).
  rewrite list_elem_of_singleton. split; (intros [H|H]; [by left|right]); [by injection H|by rewrite H].
Qed.

(** The recipients of one rule: who was told, who is new, and the count of both. *)
Lemma notify_each_ok nid did now e rule recipients k r st k' r' st' :
  notify_each show_uuid nid did now e rule recipients (k, r) st = (Ok (k', r'), st') ->
  ib_accounts st' = ib_accounts st
  /\ (forall user, told e st' user <-> told e st user \/ user ∈ recipients)
  /\ (exists new, ib_notifications st' = ib_notifications st ++ new /\ rt_created r' = (rt_created r + length new)%nat
        /\ forall n, n ∈ new -> routed e [rule] now n /\ nt_user_id n ∈ recipients /\ ~ told e st (nt_user_id n))
  /\ (rt_created r' + rt_deduped r' = rt_created r + rt_deduped r + length recipients)%nat
  /\ rt_unmatched_rules r' = rt_unmatched_rules r
  /\ (forall user, user ∈ recipients -> build (routed_draft show_uuid e rule user) = Ok (routed_draft show_uuid e rule user)).
Proof.
  revert k r st. induction recipients as [|recipient recipients IH]; intros k r st; cbn [notify_each].
  - intros [= <- <- <-]. split_and!; try done.
    + intros user. split; [by left|]. intros [H|H]; [done|by apply elem_of_nil in H].
    + exists []. rewrite app_nil_r. split_and!; [done|by rewrite Nat.add_0_r|]. intros n Hn. by apply elem_of_nil in Hn.
    + intros user Hu. by apply elem_of_nil in Hu.
  - destruct (record_with_deliveries _ _ _ _ _ _ _) as [[outcome|] st1] eqn:E; [|done]. apply record_keyed with (key := key_of e recipient) in E as (Eb & Ea & En & Eg & _); [|done].
    intros H. apply IH in H as (Ha & Ht & (new & Hn & Hc & Hnew) & Hs & Hu & Hb). clear IH. cbn [add_outcome rt_created rt_deduped rt_unmatched_rules] in *.
    assert (forall user, told e st1 user <-> told e st user \/ user = recipient) as Ht1.
    { intros user. unfold told. rewrite En. destruct (is_given outcome).
      - by rewrite told_cons.
      - rewrite app_nil_r. split; [by left|]. intros [Hin| ->]; [done|]. by apply Eg. }
    split_and!; [congruence| | | |done|].
    + intros user. rewrite Ht, Ht1, elem_of_cons. tauto.
    + exists ((if is_given outcome then [new_row (nid k) now (re_organization_id e) (re_actor_user_id e) (routed_draft show_uuid e rule recipient)] else []) ++ new).
      split_and!; [by rewrite Hn, En, <- app_assoc|rewrite Hc, length_app; destruct (is_given outcome); cbn; lia|].
      intros n [Hin|Hin]%elem_of_app.
      * destruct (is_given outcome) eqn:Eo; [|by apply elem_of_nil in Hin]. apply list_elem_of_singleton in Hin as ->. split_and!.
        -- exists rule, (nid k). split; [apply list_elem_of_here|done].
        -- apply list_elem_of_here.
        -- intros Hx. apply Eg in Hx. done.
      * destruct (Hnew n Hin) as (H1 & H2 & H3). split_and!; [done|by apply list_elem_of_further|]. intros Hx. apply H3, Ht1. by left.
    + rewrite length_cons. destruct (is_given outcome); lia.
    + intros user [->|Hin]%elem_of_cons; [done|by apply Hb].
Qed.
Lemma notify_each_again nid did now e rule recipients k r st :
  (forall user, user ∈ recipients -> told e st user /\ build (routed_draft show_uuid e rule user) = Ok (routed_draft show_uuid e rule user)) ->
  exists k' r', notify_each show_uuid nid did now e rule recipients (k, r) st = (Ok (k', r'), st) /\ rt_created r' = rt_created r.
Proof.
  revert k r. induction recipients as [|recipient recipients IH]; intros k r H; [by eexists _, _|]. cbn [notify_each].
  destruct (H recipient (list_elem_of_here _ _)) as [Ht Hb]. rewrite (record_known _ _ _ _ _ (routed_draft show_uuid e rule recipient) (key_of e recipient) st eq_refl Hb Ht).
  destruct (IH (S k) (add_outcome (is_given (@None (uuid * enqueue_report))) r)) as (k' & r' & E & Ec); [intros user Hu; by apply H, list_elem_of_further|].
  exists k', r'. split; [exact E|exact Ec].
Qed.

Abbreviation resolve db accounts now e rule := (resolve_recipients parse_uuid db accounts now (ru_recipient rule) e).
(** Somebody whom some rule of a list names. *)
Definition named (db : iam_db) (accounts : list account) (now : instant) (e : routed_event) (rules : list route_rule) (user : uuid) : Prop :=
  exists rule l, rule ∈ rules /\ resolve db accounts now e rule = Ok l /\ user ∈ l.

Lemma named_cons db accounts now e rule rules l user :
  resolve db accounts now e rule = Ok l -> named db accounts now e (rule :: rules) user <-> user ∈ l \/ named db accounts now e rules user.
Proof.
  intros E. split.
  - intros (x & l' & [->|Hx]%elem_of_cons & El & Hu); [left; congruence|right; by exists x, l'].
  - intros [H|(x & l' & Hx & El & Hu)]; [exists rule, l; split; [apply list_elem_of_here|done]|exists x, l'; split; [by apply list_elem_of_further|done]].
Qed.
Lemma routed_more e rules rules' now n : rules ⊆ rules' -> routed e rules now n -> routed e rules' now n.
Proof. intros H (rule & id & Hr & E). exists rule, id. split; [by apply H|exact E]. Qed.

(** The first rule of a pass, and what is left of it. *)
Lemma apply_rules_first nid did db now e rule rules acc st r' st' l :
  resolve db (ib_accounts st) now e rule = Ok l ->
  apply_rules show_uuid parse_uuid nid did db now e (rule :: rules) acc st = (Ok r', st') ->
  exists acc1 st1, apply_rules show_uuid parse_uuid nid did db now e rules acc1 st1 = (Ok r', st') /\ ib_accounts st1 = ib_accounts st
    /\ (forall user, told e st1 user <-> told e st user \/ user ∈ l)
    /\ (exists new, ib_notifications st1 = ib_notifications st ++ new /\ rt_created (snd acc1) = (rt_created (snd acc) + length new)%nat
          /\ forall n, n ∈ new -> routed e [rule] now n /\ ~ told e st (nt_user_id n))
    /\ (forall user, user ∈ l -> build (routed_draft show_uuid e rule user) = Ok (routed_draft show_uuid e rule user)).
Proof.
  intros Er. cbn [apply_rules]. rewrite Er. destruct l as [|user l].
  - intros H. exists (fst acc, no_recipients (snd acc)), st. split_and!; try done.
    + intros user. split; [by left|]. intros [Hu|Hu]; [done|by apply elem_of_nil in Hu].
    + exists []. rewrite app_nil_r. split_and!; [done|cbn; lia|]. intros n Hn. by apply elem_of_nil in Hn.
    + intros user Hu. by apply elem_of_nil in Hu.
  - destruct acc as [k r]. destruct (notify_each _ _ _ _ _ _ _ _ _) as [[[k1 r1]|] st1] eqn:E; [|done]. intros H.
    apply notify_each_ok in E as (Ea & Ht & (new & En & Ec & Hnew) & _ & _ & Hb). exists (k1, r1), st1. split_and!; try done.
    exists new. split_and!; try done. intros n Hn. by destruct (Hnew n Hn) as (? & _ & ?).
Qed.
Lemma apply_rules_ok nid did db now e rules acc st r' st' :
  apply_rules show_uuid parse_uuid nid did db now e rules acc st = (Ok r', st') ->
  ib_accounts st' = ib_accounts st
  /\ (forall user, told e st' user <-> told e st user \/ named db (ib_accounts st) now e rules user)
  /\ (exists new, ib_notifications st' = ib_notifications st ++ new /\ rt_created r' = (rt_created (snd acc) + length new)%nat
        /\ forall n, n ∈ new -> routed e rules now n /\ ~ told e st (nt_user_id n))
  /\ (forall rule, rule ∈ rules -> exists l, resolve db (ib_accounts st) now e rule = Ok l
        /\ forall user, user ∈ l -> build (routed_draft show_uuid e rule user) = Ok (routed_draft show_uuid e rule user)).
Proof.
  revert acc st. induction rules as [|rule rules IH]; intros acc st.
  - intros [= <- <-]. split_and!; try done.
    + intros user. split; [by left|]. intros [H|(x & l & Hx & _)]; [done|by apply elem_of_nil in Hx].
    + exists []. rewrite app_nil_r. split_and!; [done|cbn; lia|]. intros n Hn. by apply elem_of_nil in Hn.
    + intros x Hx. by apply elem_of_nil in Hx.
  - intros H. destruct (resolve db (ib_accounts st) now e rule) as [l|] eqn:Er; [|cbn [apply_rules] in H; by rewrite Er in H].
    destruct (apply_rules_first _ _ _ _ _ _ _ _ _ _ _ l Er H) as (acc1 & st1 & H' & Ea & Ht1 & (new1 & En1 & Ec1 & Hnew1) & Hb1). apply IH in H' as (Ea' & Ht & (new & En & Ec & Hnew) & Hb). clear IH. rewrite Ea in *.
    split_and!; [congruence| | |].
    + intros user. rewrite Ht, Ht1, (named_cons _ _ _ _ _ _ _ _ Er). tauto.
    + exists (new1 ++ new). split_and!; [by rewrite En, En1, app_assoc|rewrite Ec, Ec1, length_app; lia|]. intros n [Hn|Hn]%elem_of_app.
      * destruct (Hnew1 n Hn) as [H1 H2]. split; [|done]. eapply routed_more; [|exact H1]. by intros x ->%list_elem_of_singleton; apply list_elem_of_here.
      * destruct (Hnew n Hn) as [H1 H2]. split; [eapply routed_more; [|exact H1]; intros x Hx; by apply list_elem_of_further|]. intros Hx. apply H2, Ht1. by left.
    + intros x [->|Hx]%elem_of_cons; [by exists l|by apply Hb].
Qed.

Lemma apply_rules_again nid did db2 now2 e rules acc st :
  (forall rule, rule ∈ rules -> exists l, resolve db2 (ib_accounts st) now2 e rule = Ok l
     /\ forall user, user ∈ l -> told e st user /\ build (routed_draft show_uuid e rule user) = Ok (routed_draft show_uuid e rule user)) ->
  exists r, apply_rules show_uuid parse_uuid nid did db2 now2 e rules acc st = (Ok r, st) /\ rt_created r = rt_created (snd acc).
Proof.
  revert acc. induction rules as [|rule rules IH]; intros acc H; [by eexists|]. cbn [apply_rules].
  destruct (H rule (list_elem_of_here _ _)) as (l & Er & Hl). rewrite Er.
  assert (forall acc, exists r, apply_rules show_uuid parse_uuid nid did db2 now2 e rules acc st = (Ok r, st) /\ rt_created r = rt_created (snd acc)) as IH'
    by (intros acc'; apply IH; intros x Hx; by apply H, list_elem_of_further).
  destruct l as [|user l]; [destruct (IH' (fst acc, no_recipients (snd acc))) as (r & E & Ec); by exists r|]. destruct acc as [k r].
  destruct (notify_each_again nid did now2 e rule (user :: l) k r st Hl) as (k' & r1 & E & Ec). rewrite E.
  destruct (IH' (k', r1)) as (r2 & E2 & Ec2). exists r2. split; [exact E2|]. rewrite Ec2. exact Ec.
Qed.

Lemma route_ok nid did db now t e st r st' :
  route show_uuid parse_uuid nid did db now t e st = (Ok r, st') ->
  exists rules, rules_for_event (re_name e) t = Ok rules
    /\ (rules = [] /\ st' = st /\ r = RouteReport 0 0 0 true
        \/ apply_rules show_uuid parse_uuid nid did db now e rules (0%nat, RouteReport 0 0 0 false) st = (Ok r, st')).
Proof.
  unfold route. destruct (rules_for_event _ _) as [[|rule rules]|] eqn:E; [| |done].
  - intros [= <- <-]. exists []. split; [done|by left].
  - intros H. exists (rule :: rules). split; [done|by right].
Qed.

(** One event, one notification for everybody whom its rules name: after a pass the people who were
    told of the event are those whom a live rule of the event names, besides those who were told
    before; every row it added says what such a rule says, to somebody who had not been told; nothing
    that was there is touched, and the answer counts the rows. *)
Theorem pass_tells_the_named (nid : nat -> uuid) (did : nat -> str -> uuid) (db : iam_db) (now : instant) (t : list route_row) (e : routed_event)
    (st st' : inbox) (r : route_report) :
  route show_uuid parse_uuid nid did db now t e st = (Ok r, st') ->
  exists rules, rules_for_event (re_name e) t = Ok rules
    /\ (forall user, told e st' user <-> told e st user \/ named db (ib_accounts st) now e rules user)
    /\ exists new, ib_notifications st' = ib_notifications st ++ new /\ rt_created r = length new
         /\ forall n, n ∈ new -> routed e rules now n /\ ~ told e st (nt_user_id n).
Proof.
  intros (rules & E & [(-> & -> & ->)|H])%route_ok.
  - exists []. split; [done|]. split.
    + intros user. split; [by left|]. intros [Hu|(x & l & Hx & _)]; [done|by apply elem_of_nil in Hx].
    + exists []. rewrite app_nil_r. split_and!; [done|done|]. intros n Hn. by apply elem_of_nil in Hn.
  - exists rules. split; [done|]. apply apply_rules_ok in H as (_ & Ht & (new & En & Ec & Hnew) & _). split; [done|]. by exists new.
Qed.

(** C36. An event that comes again writes nothing: a pass that was completed can be repeated, later, by
    another worker and against other tables, and as long as the rules name nobody new it answers
    without an error, adds no row and leaves the inbox as it is. *)
Theorem repeated_event_writes_nothing (nid nid2 : nat -> uuid) (did did2 : nat -> str -> uuid) (db db2 : iam_db) (now now2 : instant)
    (t : list route_row) (e : routed_event) (st st' : inbox) (r : route_report) :
  route show_uuid parse_uuid nid did db now t e st = (Ok r, st') ->
  (forall rules rule l, rules_for_event (re_name e) t = Ok rules -> rule ∈ rules -> resolve db (ib_accounts st) now e rule = Ok l ->
     exists l2, resolve db2 (ib_accounts st) now2 e rule = Ok l2 /\ l2 ⊆ l) ->
  exists r2, route show_uuid parse_uuid nid2 did2 db2 now2 t e st' = (Ok r2, st') /\ rt_created r2 = 0%nat.
Proof.
  intros (rules & E & H)%route_ok Hsub. unfold route. rewrite E. destruct H as [(-> & -> & ->)|H]; [by eexists|].
  apply apply_rules_ok in H as (Ea & Ht & _ & Hb). destruct rules as [|rule rules]; [by eexists|].
  destruct (apply_rules_again nid2 did2 db2 now2 e (rule :: rules) (0%nat, RouteReport 0 0 0 false) st') as (r2 & E2 & Ec); [|by exists r2].
  intros x Hx. destruct (Hb x Hx) as (l & El & Hl). destruct (Hsub _ x l E Hx El) as (l2 & El2 & Hs). exists l2. rewrite Ea. split; [done|].
  intros user Hu. apply Hs in Hu. split; [|by apply Hl]. apply Ht. right. by exists x, l.
Qed.

(** A name that is no account ends the pass: the rows of the rules before stay and the rules after are not reached. *)
Theorem unknown_reader_ends_the_pass nid did db now e rule rules acc st user :
  resolve db (ib_accounts st) now e rule = Ok [user] -> has_account user st = false -> ~ told e st user ->
  exists error, apply_rules show_uuid parse_uuid nid did db now e (rule :: rules) acc st = (Err error, st).
Proof.
  intros Er Ha Ht. cbn [apply_rules]. rewrite Er. destruct acc as [k r]. cbn [notify_each]. unfold record_with_deliveries.
  destruct (build _) as [n|error] eqn:Eb; [|by eexists]. apply build_ok in Eb as (-> & _). unfold insert_notification. cbn [nn_user_id nn_dedupe_key routed_draft].
  destruct (existsb _ _) eqn:Es; [apply same_fact_elem in Es; done|]. rewrite Ha. by eexists.
Qed.
End Pass.

(** ** Who is named *)

Section Named.
Context `{J : JsonNumber} (parse_uuid : str -> option uuid).

Lemma holders_ok db now ctx key l holders_ :
  holders db now ctx key l = Ok holders_ ->
  forall user, user ∈ holders_ <-> user ∈ l /\ exists e, effective_permissions_for db now (User user) ctx = Ok e /\ allows e key = true.
Proof.
  revert holders_. induction l as [|c l IH]; intros hs; cbn [holders].
  - intros [= <-] user. split; [intros H; by apply elem_of_nil in H|]. intros [H _]. by apply elem_of_nil in H.
  - destruct (effective_permissions_for db now (User c) ctx) as [e|] eqn:Ee; [|done]. intros (rest & Er & [= <-])%result_bind_ok user.
    pose proof (IH rest Er user) as Hr. rewrite elem_of_cons. destruct (allows e key) eqn:Ea.
    + rewrite elem_of_cons, Hr. split; [intros [->|[? ?]]; [split; [by left|by exists e]|tauto]|]. intros [[->|?] ?]; tauto.
    + rewrite Hr. split; [tauto|]. intros [[->|?] (e' & Ee' & Ha)]; [congruence|]. split; [done|by exists e'].
Qed.

Lemma active_account accounts user :
  is_active_account accounts user = true <-> exists a, a ∈ accounts /\ ac_id a = user /\ ac_active a = true.
Proof.
  unfold is_active_account. rewrite existsb_elem. split.
  - intros (a & Ha & [E%N.eqb_eq Hact]%andb_true_iff). by exists a.
  - intros (a & Ha & <- & Hact). exists a. by rewrite N.eqb_refl, Hact.
Qed.

(** What the event's organization lets an account be. *)
Definition inside (e : routed_event) (a : account) : Prop := match re_organization_id e with Some o => ac_organization_id a = Some o | None => True end.

(** A rule for a permission names exactly the active accounts of the event's organization to whom
    the resolver grants it, inheritance, scopes, expiry and denials included, and a rule for a role
    exactly the active accounts that hold a live binding of a role of that name, bound to no
    organization or to the event's. *)
Theorem rules_name_the_entitled (db : iam_db) (accounts : list account) (now : instant) (e : routed_event) (key : str) (user : uuid) :
  (forall l, resolve_recipients parse_uuid db accounts now (Permission key) e = Ok l ->
     user ∈ l <-> (exists a, a ∈ accounts /\ ac_id a = user /\ ac_active a = true /\ inside e a)
                 /\ exists granted, effective_permissions_for db now (User user) (event_context e) = Ok granted /\ allows granted key = true)
  /\ exists l, resolve_recipients parse_uuid db accounts now (WithRole key) e = Ok l /\ NoDup l
     /\ (user ∈ l <-> (exists a, a ∈ accounts /\ ac_id a = user /\ ac_active a = true)
                     /\ exists b role, b ∈ db_bindings db /\ br_user_id b = Some user /\ live now b = true
                        /\ st_roles (db_roles db) !! br_role_id b = Some role /\ role_key role = key
                        /\ match re_organization_id e, br_organization_id b with Some o, Some bound => bound = o | _, _ => True end).
Proof.
  split.
  - intros l H. rewrite (holders_ok _ _ _ _ _ _ H user). unfold candidates. rewrite list_elem_of_fmap. setoid_rewrite elem_of_filter_bool. unfold inside.
    split; intros [(a & Ha) Hg]; (split; [|exact Hg]); exists a.
    + destruct Ha as (-> & Hin & [H1 H2]%andb_true_iff). split_and!; try done. destruct (re_organization_id e); [by apply bool_decide_eq_true in H2|done].
    + destruct Ha as (Hin & E & H1 & H2). split; [done|]. split; [done|]. rewrite H1. cbn [andb]. destruct (re_organization_id e); [by apply bool_decide_eq_true|done].
  - eexists. split; [reflexivity|]. unfold with_role. split; [apply NoDup_remove_dups|]. rewrite elem_of_remove_dups, elem_of_filter_bool, list_elem_of_omap.
    rewrite active_account. setoid_rewrite elem_of_filter_bool. unfold binding_counts.
    split.
    + intros [(b & [Hb [[H1 H2]%andb_true_iff H3]%andb_true_iff] & Eu) (a & Ha & E & Hact)]. split; [by exists a|]. destruct (st_roles _ !! _) as [role|] eqn:Er; [|done].
      exists b, role. apply str_eqb_eq in H1. split; [done|]. split; [done|]. split; [exact H2|]. split; [done|]. split; [done|]. destruct (re_organization_id e), (br_organization_id b); try done. by apply N.eqb_eq.
    + intros [(a & Ha & E & Hact) (b & role & Hb & Eu & Hl & Er & Ek & Ho)]. split; [|by exists a]. exists b. split; [|done]. split; [done|].
      rewrite Er, Hl, Ek, str_eqb_refl. cbn [andb]. destruct (re_organization_id e), (br_organization_id b); try done. by apply N.eqb_eq.
Qed.

(** The policies of an organization, which every guard asks, are not asked here. *)
Theorem policies_do_not_quiet_a_rule (db : iam_db) (p : policy_store) (accounts : list account) (now : instant) (rule : recipient_rule) (e : routed_event) :
  resolve_recipients parse_uuid (IamDb (db_roles db) (db_bindings db) (db_members db) p (db_attributes db)) accounts now rule e
  = resolve_recipients parse_uuid db accounts now rule e.
Proof.
  destruct rule as [|key|key|field]; [done| |done|done]. cbn [resolve_recipients]. induction (candidates accounts e) as [|c l IH]; [done|]. cbn [holders].
  rewrite IH. reflexivity.
Qed.

(** A field of the payload names anybody: neither the organization nor the status of the account is asked. *)
Theorem payload_names_anybody (db : iam_db) (accounts : list account) (now : instant) (field raw : str) (user : uuid) (e : routed_event) :
  get field (re_payload e) = Some (VString raw) -> parse_uuid raw = Some user ->
  resolve_recipients parse_uuid db accounts now (PayloadUser field) e = Ok [user].
Proof. intros E Eu. cbn [resolve_recipients]. rewrite E. cbn [mbind option_bind as_str]. by rewrite Eu. Qed.
End Named.

(** ** Witnesses *)

Definition parse_id (s : str) : option uuid := parse_unsigned u32_max s.
Definition sample_event : routed_event := RoutedEvent 1 s!"ticket.created" (Some 7%N) (Some 9%N) (VObject [(s!"title", VString s!"Printer {actor}")]).
Definition sample_body (recipient : str) : create_route_body :=
  CreateRouteBody s!"ticket.created" s!"ticket" None recipient s!" {actor} opened {subject} " (Some s!"/tickets").
Definition sample_rules : list route_row :=
  snd (create_route 2 1 7 (sample_body s!"payload_user:assignee") (snd (create_route 1 0 7 (sample_body s!"actor") []))).
Definition empty_iam : iam_db := IamDb (RoleStore ∅ ∅ ∅) [] [] (PolicyStore [] []) (fun _ => None).
Definition first_pass := route show_N parse_id (fun k => N.of_nat (40 + k)) (fun k ch => (sample_ids ch + 10 * N.of_nat k)%N) empty_iam 5 sample_rules sample_event sample_inbox.

(** The subject is put in last, and what it says is not expanded. *)
Example title_of_the_event : render show_N s!" {actor} opened {subject} {who}" sample_event = s!"7 opened Printer {actor} {who}".
Proof. vm_compute. reflexivity. Qed.
Example empty_target_is_refused : fst (create_route 3 0 7 (sample_body s!"role: ") []) = Err (BadDefinition s!"invalid_route").
Proof. vm_compute. reflexivity. Qed.
(** The route lets this one through, and the constraint of the table does not. *)
Example target_of_a_colon : fst (create_route 3 0 7 (sample_body s!"permission::x") []) = Err NotificationDatabase.
Proof. vm_compute. reflexivity. Qed.

Lemma first_pass_ok : route show_N parse_id (fun k => N.of_nat (40 + k)) (fun k ch => (sample_ids ch + 10 * N.of_nat k)%N) empty_iam 5 sample_rules sample_event sample_inbox
  = (Ok (RouteReport 1 0 1 false), snd first_pass).
Proof. vm_cast_no_check (eq_refl first_pass). Qed.

Lemma pass_tells_the_named_witness : told show_N sample_event (snd first_pass) 7.
Proof.
  destruct (pass_tells_the_named show_N parse_id _ _ empty_iam 5 sample_rules sample_event sample_inbox (snd first_pass) _ first_pass_ok) as (rules & E & Ht & _).
  apply Ht. right. assert (rules_for_event (re_name sample_event) sample_rules = Ok rules) as E' by exact E. vm_compute in E. injection E as E. rewrite <- E.
  eexists _, [7%N]. split; [apply list_elem_of_here|]. split; [reflexivity|apply list_elem_of_here].
Defined.

Lemma repeated_event_writes_nothing_witness :
  exists r, route show_N parse_id N.of_nat (fun k ch => sample_ids ch) empty_iam 99 sample_rules sample_event (snd first_pass) = (Ok r, snd first_pass) /\ rt_created r = 0%nat.
Proof.
  apply (repeated_event_writes_nothing show_N parse_id _ N.of_nat _ (fun k ch => sample_ids ch) empty_iam empty_iam 5 99 sample_rules sample_event sample_inbox (snd first_pass) _ first_pass_ok).
  intros rules rule l E Hr Hl. vm_compute in E. injection E as E. rewrite <- E in Hr. exists l. split; [|done].
  apply elem_of_cons in Hr as [->|Hr]; [exact Hl|]. apply list_elem_of_singleton in Hr as ->. exact Hl.
Defined.

(** Account 2 owns the installation. *)
Definition owner_event : routed_event := RoutedEvent 1 s!"ticket.created" None (Some 7%N) VNull.
Definition owners : list account := [Account 2 None (Some 9%N) true; Account 3 None (Some 9%N) true].
Lemma rules_name_the_entitled_witness :
  exists l, resolve_recipients parse_id sample_db owners 5 (WithRole s!"owner") owner_event = Ok l /\ 2%N ∈ l.
Proof.
  destruct (rules_name_the_entitled parse_id sample_db owners 5 owner_event s!"owner" 2) as [_ (l & E & _ & Hl)]. exists l. split; [exact E|]. apply Hl. split.
  - exists (Account 2 None (Some 9%N) true). split; [apply list_elem_of_here|repeat split].
  - exists (owner_row 1 2), sample_owner. split; [apply list_elem_of_here|]. split_and!; reflexivity.
Defined.
