(* ===== verification/Incidents.v ===== *)
(** * The health centre: [crates/health/src/vocabulary.rs], [incidents.rs], the policy of
      [registry.rs] and the routes of [apps/api/src/routes/health_incidents.rs]

    Threshold pairs over binary64, the settings and their validated copy, incidents opened and closed
    by the transitions of a run, maintenance windows and the ledger of breaches.  The probes and the
    samples they write are not modelled: a run is its reports and readings.  Instants are microseconds;
    texts of refusals are shortened. *)

From S2P Require Import Prelude Json Roles.

(** ** Vocabulary *)

Definition SERVICES : list str := [s!"api"; s!"postgres"; s!"redis"; s!"s3"; s!"workers"; s!"queue"; s!"search"].
Definition HOST_SERVICE : str := s!"host".
Definition all_services : list str := SERVICES ++ [HOST_SERVICE].
Definition rank (state : str) : Z :=
  if str_eqb state s!"healthy" then 0 else if str_eqb state s!"unknown" then 1 else if str_eqb state s!"degraded" then 2
  else if str_eqb state s!"down" then 3 else 1.
Definition canonical_state (state : str) : str :=
  if str_eqb state s!"healthy" then s!"healthy" else if str_eqb state s!"degraded" then s!"degraded"
  else if str_eqb state s!"down" then s!"down" else s!"unknown".
(** The worst of a set, the first of equals. *)
Fixpoint worst_of (best : option (Z * str * str)) (states : list (str * str)) : option (Z * str * str) :=
  match states with
  | [] => best
  | (service, state) :: states =>
      let better := match best with None => true | Some (score, _, _) => score <? rank state end in
      worst_of (if better then Some (rank state, canonical_state state, service) else best) states
  end.
Definition worst (states : list (str * str)) : option (str * str) := (fun b => (snd (fst b), snd b)) <$> worst_of None states.

(** ** binary64 *)

Definition f64 := spec_float.
Definition f64_of (z : Z) : f64 := binary_normalize 53 1024 z 0 false.
Definition f64_ltb (a b : f64) : bool := SFltb a b.
Definition f64_leb (a b : f64) : bool := SFleb a b.
Definition f64_is_finite (a : f64) : bool := match a with S754_zero _ | S754_finite _ _ _ => true | _ => false end.
Definition MAX_ABS_VALUE : f64 := f64_of 1000000000000000.
Definition is_finite (v : f64) : bool := f64_is_finite v && f64_leb (SFabs v) MAX_ABS_VALUE.

Inductive health_error := HealthInvalid (why : str) | HealthDatabase | HealthNotFound.

(** ** Thresholds *)

Record threshold := Threshold { th_metric : str; th_warn : f64; th_crit : f64; th_direction : str }.
Definition threshold_new (metric : str) (warn crit : f64) (direction : str) : result threshold health_error :=
  let metric := trim metric in
  refuse str_eqb metric [] || (64 <? length metric)%nat with HealthInvalid s!"a threshold needs a metric name of 1 to 64 characters" in
  refuse negb (is_finite warn) || negb (is_finite crit) with HealthInvalid s!"the limits must be real numbers" in
  refuse f64_ltb warn (f64_of 0) || f64_ltb crit (f64_of 0) with HealthInvalid s!"limits cannot be negative" in
  require (if str_eqb direction s!"below" then f64_ltb crit warn else f64_ltb warn crit) else HealthInvalid s!"the limits are in the wrong order" in
  require str_eqb direction s!"above" || str_eqb direction s!"below" else HealthInvalid s!"direction must be above or below" in
  Ok (Threshold metric warn crit direction).
Definition classify (t : threshold) (v : f64) : option str :=
  if negb (f64_is_finite v) then None
  else if str_eqb (th_direction t) s!"below" then
    if f64_leb v (th_crit t) then Some s!"down" else if f64_leb v (th_warn t) then Some s!"degraded" else None
  else
    if f64_leb (th_crit t) v then Some s!"down" else if f64_leb (th_warn t) v then Some s!"degraded" else None.
Abbreviation thresholds_map := (gmap str threshold).
Definition THRESHOLD_METRICS : list str :=
  [s!"disk_percent"; s!"memory_percent"; s!"cpu_percent"; s!"probe_latency_ms"; s!"queue_depth"; s!"db_connections"; s!"load_average_1m"].
Definition suggested_thresholds : thresholds_map :=
  list_to_map (omap (fun s : str * Z * Z => let '(metric, warn, crit) := s in
    match threshold_new metric (f64_of warn) (f64_of crit) s!"above" with Ok t => Some (metric, t) | Err _ => None end)
    [(s!"disk_percent", 80, 90); (s!"memory_percent", 80, 92); (s!"cpu_percent", 85, 95); (s!"probe_latency_ms", 250, 1000);
     (s!"queue_depth", 100, 500); (s!"db_connections", 80, 95); (s!"load_average_1m", 8, 16)]).

(** ** Settings *)

Definition MIN_CHECK_INTERVAL_SECONDS : Z := 5.
Definition MAX_CHECK_INTERVAL_SECONDS : Z := 600.
Definition MIN_WORKER_STALE_SECONDS : Z := 30.
Definition MAX_WORKER_STALE_SECONDS : Z := 3600.
Definition DEFAULT_CHECK_INTERVAL_SECONDS : Z := 60.
Definition DEFAULT_WORKER_STALE_SECONDS : Z := 120.
Definition BREACH_WINDOW_SECONDS : Z := 900.

(** The limits are documents of numbers: [number_of_f64] is how [serde_json] writes a double. *)
Section Incidents.
Context `{J : JsonNumber} (number_of_f64 : f64 -> number).

Record health_settings := HealthSettings {
  hs_check_interval_seconds : Z;
  hs_worker_stale_seconds : Z;
  hs_thresholds : value;
  hs_notifications : value;
  hs_updated_by : option uuid;
  hs_updated_at : instant
}.
Record settings_update := SettingsUpdate {
  su_check_interval_seconds : option Z;
  su_worker_stale_seconds : option Z;
  su_thresholds : option thresholds_map;
  su_notifications : option value;
  su_updated_by : option uuid
}.
Definition default_health_settings (now : instant) : health_settings :=
  HealthSettings DEFAULT_CHECK_INTERVAL_SECONDS DEFAULT_WORKER_STALE_SECONDS (VObject []) (VObject []) None now.

(** [to_value] of the map: keys in order, the metric only as the key. *)
Definition limit_value (x : f64) : value := if f64_is_finite x then VNumber (number_of_f64 x) else VNull.
Definition pair_value (t : threshold) : value :=
  VObject [(s!"crit", limit_value (th_crit t)); (s!"direction", VString (th_direction t)); (s!"warn", limit_value (th_warn t))].
Definition thresholds_value (m : thresholds_map) : value := VObject (map_fold (fun k t o => obj_insert k (pair_value t) o) [] m).
Definition read_limit (limits : list (str * value)) (key : str) : result f64 health_error :=
  let? raw := ok_or (obj_get key limits) (HealthInvalid s!"the limit is missing") in
  ok_or (as_f64 raw) (HealthInvalid s!"the limit must be a number").
Definition parse_pair (metric : str) (v : value) : result threshold health_error :=
  let? limits := ok_or (as_object v) (HealthInvalid s!"the limits must be an object") in
  let? warn := read_limit limits s!"warn" in
  let? crit := read_limit limits s!"crit" in
  threshold_new metric warn crit (default s!"above" (obj_get s!"direction" limits ≫= as_str)).
Fixpoint parse_pairs (object : list (str * value)) (parsed : thresholds_map) : result thresholds_map health_error :=
  match object with
  | [] => Ok parsed
  | (metric, v) :: object => let? t := parse_pair metric v in parse_pairs object (<[metric := t]> parsed)
  end.
Definition parse_thresholds (document : value) : result thresholds_map health_error :=
  match as_object document with
  | Some object => parse_pairs object ∅
  | None => if is_null document then Ok ∅ else Err (HealthInvalid s!"the thresholds must be an object keyed by metric")
  end.
Definition parsed_thresholds (s : health_settings) : thresholds_map := match parse_thresholds (hs_thresholds s) with Ok m => m | Err _ => ∅ end.
Definition notifies (s : health_settings) (toggle : str) : bool := match get toggle (hs_notifications s) with Some (VBool b) => b | _ => false end.

(** ** Tables *)

Record incident := Incident {
  in_id : uuid;
  in_service : str;
  in_from_state : str;
  in_to_state : str;
  in_summary : str;
  in_detail : value;
  in_started_at : instant;
  in_resolved_at : option instant;
  in_suppressed : bool;
  in_acknowledged_by : option uuid;
  in_acknowledged_at : option instant;
  in_note : option str
}.
Record maintenance_window := MaintenanceWindow { mw_id : uuid; mw_starts_at : instant; mw_ends_at : instant; mw_services : list str; mw_note : str; mw_created_by : option uuid; mw_created_at : instant }.
Record breach := Breach { bc_value : f64; bc_crit_limit : f64; bc_observations : Z; bc_last_seen_at : instant; bc_resolved_at : option instant }.
Record health := Health {
  hl_settings : option health_settings;
  hl_thresholds : gmap str threshold;
  hl_breaches : gmap (str * instant) breach;
  hl_incidents : list incident;
  hl_windows : list maintenance_window
}.
Definition with_incidents (l : list incident) (h : health) : health := Health (hl_settings h) (hl_thresholds h) (hl_breaches h) l (hl_windows h).
Definition with_breaches (m : gmap (str * instant) breach) (h : health) : health := Health (hl_settings h) (hl_thresholds h) m (hl_incidents h) (hl_windows h).
Definition with_windows (l : list maintenance_window) (h : health) : health := Health (hl_settings h) (hl_thresholds h) (hl_breaches h) (hl_incidents h) l.

(** ** Saving the settings *)

Definition load_settings (now : instant) (h : health) : health_settings * health :=
  match hl_settings h with
  | Some s => (s, h)
  | None => let s := default_health_settings now in (s, Health (Some s) (hl_thresholds h) (hl_breaches h) (hl_incidents h) (hl_windows h))
  end.
(** The constraints of [health_thresholds]; the bound is open where the constructor's is closed. *)
Definition check_threshold (t : threshold) : bool :=
  f64_ltb (th_warn t) MAX_ABS_VALUE && f64_ltb (th_crit t) MAX_ABS_VALUE
  && f64_leb (f64_of 0) (th_warn t) && f64_leb (f64_of 0) (th_crit t)
  && (if str_eqb (th_direction t) s!"above" then f64_ltb (th_warn t) (th_crit t)
      else str_eqb (th_direction t) s!"below" && f64_ltb (th_crit t) (th_warn t))
  && (1 <=? length (btrim (th_metric t)))%nat && (length (btrim (th_metric t)) <=? 64)%nat.
Fixpoint insert_thresholds (l : list threshold) (m : gmap str threshold) : option (gmap str threshold) :=
  match l with
  | [] => Some m
  | t :: l => if check_threshold t && negb (is_given (m !! th_metric t)) then insert_thresholds l (<[th_metric t := t]> m) else None
  end.
Definition save_settings (now : instant) (u : settings_update) (h : health) : result health_settings health_error * health :=
  let '(current, h) := load_settings now h in
  let interval := default (hs_check_interval_seconds current) (su_check_interval_seconds u) in
  let stale := default (hs_worker_stale_seconds current) (su_worker_stale_seconds u) in
  if negb ((MIN_CHECK_INTERVAL_SECONDS <=? interval) && (interval <=? MAX_CHECK_INTERVAL_SECONDS)) then (Err (HealthInvalid s!"check interval"), h)
  else if negb ((MIN_WORKER_STALE_SECONDS <=? stale) && (stale <=? MAX_WORKER_STALE_SECONDS)) then (Err (HealthInvalid s!"worker stale"), h)
  else
    let document := match su_thresholds u with Some m => thresholds_value m | None => hs_thresholds current end in
    match match su_thresholds u with Some m => parse_thresholds (thresholds_value m) | None => Ok ∅ end with
    | Err e => (Err e, h)
    | Ok _ =>
        let notifications := default (hs_notifications current) (su_notifications u) in
        let saved := HealthSettings interval stale document notifications (su_updated_by u) now in
        (* the transaction *)
        if negb (is_object document && is_object notifications) then (Err HealthDatabase, h)
        else
          match su_thresholds u with
          | None => (Ok saved, Health (Some saved) (hl_thresholds h) (hl_breaches h) (hl_incidents h) (hl_windows h))
          | Some m =>
              (* deleting a limit deletes its breaches *)
              match insert_thresholds (map_to_list m).*2 ∅ with
              | None => (Err HealthDatabase, h)
              | Some stored => (Ok saved, Health (Some saved) stored ∅ (hl_incidents h) (hl_windows h))
              end
          end
    end.
(** The stored limits, through the constructor again. *)
Definition thresholds (h : health) : result thresholds_map health_error :=
  map_fold (fun metric t acc => let? m := acc in let? t := threshold_new metric (th_warn t) (th_crit t) (th_direction t) in Ok (<[metric := t]> m)) (Ok ∅) (hl_thresholds h).

(** The body of the route: every pair through the constructor, under the name that was sent. *)
Record threshold_body := ThresholdBody { tb_metric : str; tb_warn : f64; tb_crit : f64; tb_direction : str }.
Fixpoint collect_pairs (rows : list threshold_body) (m : thresholds_map) : result thresholds_map health_error :=
  match rows with
  | [] => Ok m
  | r :: rows => let? t := threshold_new (tb_metric r) (tb_warn r) (tb_crit r) (tb_direction r) in collect_pairs rows (<[tb_metric r := t]> m)
  end.
Definition put_settings (now : instant) (session : uuid) (interval stale : option Z) (pairs : option (list threshold_body)) (notifications : option value) (h : health) :
  result health_settings health_error * health :=
  match match pairs with None => Ok None | Some rows => let? m := collect_pairs rows ∅ in Ok (Some m) end with
  | Err e => (Err e, h)
  | Ok m => save_settings now (SettingsUpdate interval stale m notifications (Some session)) h
  end.

(** ** Incidents *)

Definition is_open (i : incident) : bool := negb (is_given (in_resolved_at i)).
Definition duration_seconds (i : incident) : option Z := (fun ended => Z.quot (ended - in_started_at i) 1000000) <$> in_resolved_at i.
Definition newest_incident (a b : incident) : comparison := then_with (Z.compare (in_started_at b) (in_started_at a)) (N.compare (in_id b) (in_id a)).
Definition open_of (service : str) (i : incident) : bool := str_eqb (in_service i) service && is_open i.
Definition open_incident (service : str) (h : health) : option incident := head (sort_by newest_incident (List.filter (open_of service) (hl_incidents h))).

Record incident_filter := IncidentFilter {
  if_service : option str;
  if_state : option str;
  if_from : option instant;
  if_to : option instant;
  if_limit : Z;
  if_offset : Z
}.
Definition MAX_LIMIT : Z := 200.
Definition validated (f : incident_filter) : result incident_filter health_error :=
  refuse match if_state f with Some state => negb (str_eqb state s!"open" || str_eqb state s!"resolved") | None => false end
    with HealthInvalid s!"the incident state filter must be open or resolved" in
  refuse match if_service f with Some service => negb (existsb (str_eqb service) all_services) | None => false end
    with HealthInvalid s!"not a service this platform probes" in
  Ok (IncidentFilter (if_service f) (if_state f) (if_from f) (if_to f) (Z.min (Z.max (if_limit f) 1) MAX_LIMIT) (Z.max (if_offset f) 0)).
Definition matches_filter (f : incident_filter) (i : incident) : bool :=
  match if_service f with Some service => str_eqb (in_service i) service | None => true end
  && match if_state f with Some state => (str_eqb state s!"open" && is_open i) || (str_eqb state s!"resolved" && negb (is_open i)) | None => true end
  && match if_from f with Some t => t <=? in_started_at i | None => true end
  && match if_to f with Some t => in_started_at i <=? t | None => true end.
Record incident_page := IncidentPage { ip_incidents : list incident; ip_total : Z }.
Definition list_incidents (f : incident_filter) (h : health) : result incident_page health_error :=
  let? f := validated f in
  let rows := List.filter (matches_filter f) (hl_incidents h) in
  Ok (IncidentPage (take (Z.to_nat (if_limit f)) (drop (Z.to_nat (if_offset f)) (sort_by newest_incident rows))) (Z.of_nat (length rows))).

Definition the_incident (id : uuid) (h : health) : result incident health_error := ok_or (List.find (fun i => (in_id i =? id)%N) (hl_incidents h)) HealthNotFound.
Definition find_incident (id : uuid) (h : health) : option incident := List.find (fun i => (in_id i =? id)%N) (hl_incidents h).
Definition set_acknowledged (actor : uuid) (now : instant) (note : str) (i : incident) : incident :=
  Incident (in_id i) (in_service i) (in_from_state i) (in_to_state i) (in_summary i) (in_detail i) (in_started_at i) (in_resolved_at i) (in_suppressed i)
    (Some actor) (Some now) (Some (trim note)).
Definition acknowledge (id actor : uuid) (now : instant) (note : str) (h : health) : result incident health_error * health :=
  match find_incident id h with
  | Some i => (Ok (set_acknowledged actor now note i), with_incidents (update_where (fun x => (in_id x =? id)%N) (set_acknowledged actor now note) (hl_incidents h)) h)
  | None => (Err (HealthInvalid s!"this incident does not exist"), h)
  end.
Definition set_resolved (now : instant) (i : incident) : incident :=
  Incident (in_id i) (in_service i) (in_from_state i) s!"healthy" (in_summary i) (in_detail i) (in_started_at i) (Some now) (in_suppressed i)
    (in_acknowledged_by i) (in_acknowledged_at i) (in_note i).
Definition resolve (id : uuid) (now : instant) (h : health) : result incident health_error * health :=
  let p i := (in_id i =? id)%N && is_open i in
  match List.find p (hl_incidents h) with
  | Some i => (Ok (set_resolved now i), with_incidents (update_where p (set_resolved now) (hl_incidents h)) h)
  | None => (Err (HealthInvalid s!"this incident does not exist, or it is already resolved"), h)
  end.
Definition patch_incident (id session : uuid) (now : instant) (action : str) (note : option str) (h : health) : result incident health_error * health :=
  if str_eqb action s!"acknowledge" then acknowledge id session now (default [] note) h
  else if str_eqb action s!"resolve" then resolve id now h
  else (Err (HealthInvalid s!"unknown_incident_action"), h).

(** What a probe concluded about a service, and the transition that is. *)
Record service_report := ServiceReport { sr_service : str; sr_state : str; sr_message : str; sr_detail : value }.
Record transition := Transition { tn_service : str; tn_from_state : str; tn_to_state : str; tn_summary : str; tn_detail : value }.
Definition is_event (t : transition) : bool := negb (str_eqb (tn_from_state t) (tn_to_state t)) && negb (str_eqb (tn_to_state t) s!"unknown").
Definition is_recovery (t : transition) : bool := str_eqb (tn_to_state t) s!"healthy" && (rank s!"healthy" <? rank (tn_from_state t)).
Definition detect (report : service_report) (h : health) : option transition :=
  let from_state := default s!"healthy" (in_to_state <$> open_incident (sr_service report) h) in
  let t := Transition (sr_service report) (canonical_state from_state) (canonical_state (sr_state report)) (sr_message report) (sr_detail report) in
  if is_event t then Some t else None.

Inductive incident_outcome := Opened (i : incident) | Resolved (i : incident) | Nothing.
Definition outcome_incident (o : incident_outcome) : option incident := match o with Opened i | Resolved i => Some i | Nothing => None end.
(** The constraints of an inserted row: an open row is not healthy, and one open row a service, the suppressed ones apart. *)
Definition insert_incident (i : incident) (h : health) : option health :=
  if str_eqb (in_to_state i) s!"healthy" || (negb (in_suppressed i) && existsb (fun x => open_of (in_service i) x && negb (in_suppressed x)) (hl_incidents h))
  then None else Some (with_incidents (hl_incidents h ++ [i]) h).
Definition apply_transition (id : uuid) (now : instant) (t : transition) (suppressed : bool) (h : health) : result incident_outcome health_error * health :=
  if is_recovery t then
    (Ok (match List.find (open_of (tn_service t)) (hl_incidents h) with Some i => Resolved (set_resolved now i) | None => Nothing end),
     with_incidents (update_where (open_of (tn_service t)) (set_resolved now) (hl_incidents h)) h)
  else
    let row := Incident id (tn_service t) (tn_from_state t) (tn_to_state t) (tn_summary t) (tn_detail t) now None suppressed None None None in
    match insert_incident row h with Some h => (Ok (Opened row), h) | None => (Err HealthDatabase, h) end.

Definition covers (service : str) (at_ : instant) (w : maintenance_window) : bool :=
  (mw_starts_at w <=? at_) && (at_ <? mw_ends_at w) && (match mw_services w with [] => true | l => existsb (str_eqb service) l end).
Definition is_suppressed (service : str) (at_ : instant) (h : health) : bool := existsb (covers service at_) (hl_windows h).
Definition create_window (id session : uuid) (now starts_at ends_at : instant) (services : list str) (note : str) (h : health) : result maintenance_window health_error * health :=
  if ends_at <=? starts_at then (Err (HealthInvalid s!"the window has to end after it starts"), h)
  else if existsb (fun service => negb (existsb (str_eqb service) all_services)) services then (Err (HealthInvalid s!"unknown_service"), h)
  else let w := MaintenanceWindow id starts_at ends_at services (trim note) (Some session) now in (Ok w, with_windows (hl_windows h ++ [w]) h).
Definition delete_window (id : uuid) (h : health) : result unit health_error * health :=
  (if existsb (fun w => (mw_id w =? id)%N) (hl_windows h) then Ok tt else Err HealthNotFound,
   with_windows (List.filter (fun w => negb (mw_id w =? id)%N) (hl_windows h)) h).

(** ** The ledger of breaches *)

Definition breach_window (at_ : instant) : instant := at_ / 1000000 / BREACH_WINDOW_SECONDS * BREACH_WINDOW_SECONDS * 1000000.
Record breach_check := BreachCheck { bk_metric : str; bk_value : f64; bk_crit_limit : f64; bk_observations : Z }.
Definition should_announce (c : breach_check) : bool := bk_observations c <=? 1.
(** [at_] picks the window, [now] is the statement's clock; a value outside the constraint is refused. *)
Definition record_breach (metric : str) (v : f64) (at_ now : instant) (h : health) : result breach_check health_error * health :=
  match hl_thresholds h !! metric with
  | None => (Err (HealthInvalid s!"no threshold pair"), h)
  | Some t =>
      if negb (is_finite v) then (Err HealthDatabase, h)
      else
        let key := (metric, breach_window at_) in
        let row := match hl_breaches h !! key with
                   | Some b => Breach v (bc_crit_limit b) (bc_observations b + 1) now None
                   | None => Breach v (th_crit t) 1 now None
                   end in
        (Ok (BreachCheck metric v (th_crit t) (bc_observations row)), with_breaches (<[key := row]> (hl_breaches h)) h)
  end.
Definition set_cleared (now : instant) (b : breach) : breach :=
  match bc_resolved_at b with
  | None => Breach (bc_value b) (bc_crit_limit b) (bc_observations b) (bc_last_seen_at b) (Some now)
  | Some _ => b
  end.
Definition clear_breach (metric : str) (at_ now : instant) (h : health) : health :=
  with_breaches (alter (set_cleared now) (metric, breach_window at_) (hl_breaches h)) h.

Definition breach_count (h : health) : nat := size (hl_breaches h).

(** ** A run *)

Record sample := Sample { sm_service : str; sm_metric : str; sm_value : f64 }.
Record service_transition := ServiceTransition { se_service : str; se_transition : transition; se_outcome : incident_outcome; se_suppressed : bool }.
Record policy_outcome := PolicyOutcome { po_transitions : list service_transition; po_breaches : list (str * breach_check); po_samples : Z }.
Definition announcements (p : policy_outcome) : nat :=
  (length (List.filter (fun e => is_given (outcome_incident (se_outcome e))) (po_transitions p))
   + length (List.filter (fun b => should_announce (snd b)) (po_breaches p)))%nat.

(** One report: the transition it is, and what the tables make of it.  [at_] is the run's instant. *)
Definition observe (id : uuid) (at_ now : instant) (report : service_report) (h : health) : result (option service_transition) health_error * health :=
  match detect report h with
  | None => (Ok None, h)
  | Some t =>
      let suppressed := is_suppressed (sr_service report) at_ h in
      match apply_transition id now t suppressed h with
      | (Ok outcome, h) => (Ok (Some (ServiceTransition (tn_service t) t outcome suppressed)), h)
      | (Err e, h) => (Err e, h)
      end
  end.
Definition add_transition (t : option service_transition) (l : list service_transition) : list service_transition := match t with Some t => l ++ [t] | None => l end.
(** [ids k] and [clock k] belong to the [k]-th statement. *)
Fixpoint observe_all (ids : nat -> uuid) (at_ : instant) (clock : nat -> instant) (k : nat) (reports : list service_report) (seen : list service_transition) (h : health) :
  result (list service_transition) health_error * health :=
  match reports with
  | [] => (Ok seen, h)
  | report :: reports =>
      if str_eqb (sr_service report) HOST_SERVICE then observe_all ids at_ clock (S k) reports seen h
      else
        match observe (ids k) at_ (clock k) report h with
        | (Ok t, h) => observe_all ids at_ clock (S k) reports (add_transition t seen) h
        | (Err e, h) => (Err e, h)
        end
  end.
Fixpoint measure_all (stored : thresholds_map) (at_ : instant) (clock : nat -> instant) (k : nat) (samples : list sample) (seen : list (str * breach_check)) (h : health) :
  result (list (str * breach_check)) health_error * health :=
  match samples with
  | [] => (Ok seen, h)
  | s :: samples =>
      match stored !! sm_metric s with
      | None => measure_all stored at_ clock (S k) samples seen h
      | Some t =>
          if bool_decide (classify t (sm_value s) = Some s!"down") then
            match record_breach (sm_metric s) (sm_value s) at_ (clock k) h with
            | (Ok c, h) => measure_all stored at_ clock (S k) samples (seen ++ [(sm_service s, c)]) h
            | (Err e, h) => (Err e, h)
            end
          else measure_all stored at_ clock (S k) samples seen (clear_breach (sm_metric s) at_ (clock k) h)
      end
  end.
Definition apply_policy (ids : nat -> uuid) (at_ : instant) (clock : nat -> instant) (reports : list service_report) (samples : list sample) (h : health) :
  result policy_outcome health_error * health :=
  match observe_all ids at_ clock 0 reports [] h with
  | (Err e, h) => (Err e, h)
  | (Ok transitions, h) =>
      match thresholds h with
      | Err e => (Err e, h)
      | Ok stored =>
          match measure_all stored at_ clock (length reports) samples [] h with
          | (Err e, h) => (Err e, h)
          | (Ok breaches, h) => (Ok (PolicyOutcome transitions breaches (Z.of_nat (length samples))), h)
          end
      end
  end.
(** The policy part of [run_and_record]: a failure is logged and announces nothing. *)
Definition run_policy (ids : nat -> uuid) (at_ : instant) (clock : nat -> instant) (reports : list service_report) (samples : list sample) (h : health) : policy_outcome * health :=
  match apply_policy ids at_ clock reports samples h with
  | (Ok p, h) => (p, h)
  | (Err _, h) => (PolicyOutcome [] [] 0, h)
  end.
End Incidents.

(** ** Incidents keep their shape *)

Section Shape.
Context `{J : JsonNumber} (number_of_f64 : f64 -> number).

Inductive health_event :=
  | Ran (ids : nat -> uuid) (at_ : instant) (clock : nat -> instant) (reports : list service_report) (samples : list sample)
  | Patched (id session : uuid) (now : instant) (action : str) (note : option str)
  | SettingsSent (now : instant) (session : uuid) (interval stale : option Z) (pairs : option (list threshold_body)) (notifications : option value)
  | WindowMade (id session : uuid) (now starts_at ends_at : instant) (services : list str) (note : str)
  | WindowRemoved (id : uuid).
Definition health_step (h : health) (e : health_event) : health :=
  match e with
  | Ran ids at_ clock reports samples => snd (run_policy ids at_ clock reports samples h)
  | Patched id session now action note => snd (patch_incident id session now action note h)
  | SettingsSent now session interval stale pairs notifications => snd (put_settings number_of_f64 now session interval stale pairs notifications h)
  | WindowMade id session now starts_at ends_at services note => snd (create_window id session now starts_at ends_at services note h)
  | WindowRemoved id => snd (delete_window id h)
  end.
Definition no_tables : health := Health None ∅ ∅ [] [].

Definition announced (service : str) (i : incident) : bool := open_of service i && negb (in_suppressed i).
Record incidents_ok (l : list incident) : Prop := IncidentsOk {
  io_shape : forall i, i ∈ l -> is_open i = negb (str_eqb (in_to_state i) s!"healthy");
  io_acknowledged : forall i, i ∈ l -> is_given (in_acknowledged_by i) = is_given (in_acknowledged_at i);
  io_one : forall service, (length (List.filter (announced service) l) <= 1)%nat
}.

Lemma filter_update_length {A} (q p : A -> bool) f (l : list A) :
  (forall x, x ∈ l -> p x = true -> q (f x) = true -> q x = true) -> (length (List.filter q (update_where p f l)) <= length (List.filter q l))%nat.
Proof.
  induction l as [|x l IH]; intros H; [done|]. unfold update_where in *. cbn [fmap list_fmap List.filter].
  assert (length (List.filter q ((fun x => if p x then f x else x) <$> l)) <= length (List.filter q l))%nat as H' by (apply IH; intros y Hy; by apply H, list_elem_of_further).
  pose proof (H x (list_elem_of_here _ _)) as Hx. destruct (p x).
  - destruct (q (f x)); [rewrite (Hx eq_refl eq_refl)|destruct (q x)]; cbn [length]; lia.
  - destruct (q x); cbn [length]; lia.
Qed.
Lemma incidents_ok_update p f l :
  (forall i, i ∈ l -> p i = true -> is_open (f i) = negb (str_eqb (in_to_state (f i)) s!"healthy")) ->
  (forall i, i ∈ l -> p i = true -> is_given (in_acknowledged_by (f i)) = is_given (in_acknowledged_at (f i))) ->
  (forall i service, announced service (f i) = true -> announced service i = true) -> incidents_ok l -> incidents_ok (update_where p f l).
Proof.
  intros Hs Ha Hc [H1 H2 H3]. split.
  - intros i (x & Hx & ->)%update_where_elem. destruct (p x) eqn:E; [by apply Hs|by apply H1].
  - intros i (x & Hx & ->)%update_where_elem. destruct (p x) eqn:E; [by apply Ha|by apply H2].
  - intros service. etrans; [|apply (H3 service)]. apply filter_update_length. intros x _ _. apply Hc.
Qed.
Lemma set_resolved_closed service now i : announced service (set_resolved now i) = true -> announced service i = true.
Proof. unfold announced, open_of, is_open. cbn. by rewrite andb_false_r. Qed.
Lemma incidents_ok_resolved p now l : (forall i, p i = true -> is_open i = true) -> incidents_ok l -> incidents_ok (update_where p (set_resolved now) l).
Proof. intros Hp H. apply incidents_ok_update; [done|intros i Hi _; exact (io_acknowledged l H i Hi)|intros i service; apply set_resolved_closed|done]. Qed.

Lemma apply_transition_ok id now t suppressed h : incidents_ok (hl_incidents h) -> incidents_ok (hl_incidents (snd (apply_transition id now t suppressed h))).
Proof.
  intros H. unfold apply_transition. destruct (is_recovery t); [apply incidents_ok_resolved; [by intros i [_ ?]%andb_true_iff|done]|].
  unfold insert_incident. cbn [in_to_state in_suppressed in_service]. destruct (_ || _) eqn:E; [done|]. apply orb_false_iff in E as [E1 E2]. cbn [snd hl_incidents with_incidents].
  destruct H as [H1 H2 H3]. split.
  - intros i [Hi|Hi%list_elem_of_singleton]%elem_of_app; [by apply H1|]. subst i. unfold is_open. cbn [in_resolved_at in_to_state is_given negb]. by rewrite E1.
  - intros i [Hi|Hi%list_elem_of_singleton]%elem_of_app; [by apply H2|by subst i].
  - intros service. rewrite List.filter_app, length_app. specialize (H3 service). cbn [List.filter]. destruct (announced _ _) eqn:En; cbn [length]; [|lia].
    unfold announced, open_of in En. cbn in En. rewrite !andb_true_iff, negb_true_iff in En. destruct En as [[Ev _] Es]. apply str_eqb_eq in Ev as <-. rewrite Es in E2. cbn in E2.
    rewrite filter_none; [done|]. intros x Hx. by apply (proj1 (existsb_none _ _) E2).
Qed.
Lemma observe_ok id at_ now report h : incidents_ok (hl_incidents h) -> incidents_ok (hl_incidents (snd (observe id at_ now report h))).
Proof.
  intros H. unfold observe. destruct (detect report h) as [t|]; [|done].
  pose proof (apply_transition_ok id now t (is_suppressed (sr_service report) at_ h) h H) as H'. by destruct (apply_transition _ _ _ _ _) as [[?|?] h'].
Qed.
Lemma observe_all_ok ids at_ clock k reports seen h : incidents_ok (hl_incidents h) -> incidents_ok (hl_incidents (snd (observe_all ids at_ clock k reports seen h))).
Proof.
  revert k seen h. induction reports as [|report reports IH]; intros k seen h H; [done|]. cbn [observe_all]. destruct (str_eqb _ _); [by apply IH|].
  pose proof (observe_ok (ids k) at_ (clock k) report h H) as H'. destruct (observe _ _ _ _ _) as [[?|?] h']; [by apply IH|done].
Qed.
Lemma measure_all_incidents stored at_ clock k samples seen h : hl_incidents (snd (measure_all stored at_ clock k samples seen h)) = hl_incidents h.
Proof.
  revert k seen h. induction samples as [|s samples IH]; intros k seen h; [done|]. cbn [measure_all]. destruct (stored !! _) as [t|]; [|apply IH].
  destruct (bool_decide _); [|by rewrite IH].
  assert (hl_incidents (snd (record_breach (sm_metric s) (sm_value s) at_ (clock k) h)) = hl_incidents h) as E
    by (unfold record_breach; destruct (hl_thresholds h !! _); [|done]; by destruct (negb _)).
  destruct (record_breach _ _ _ _ _) as [[c|e] h']; cbn [snd] in *; by rewrite ?IH.
Qed.
Lemma run_policy_incidents_ok ids at_ clock reports samples h : incidents_ok (hl_incidents h) -> incidents_ok (hl_incidents (snd (run_policy ids at_ clock reports samples h))).
Proof.
  intros H. unfold run_policy, apply_policy. pose proof (observe_all_ok ids at_ clock 0 reports [] h H) as H'.
  destruct (observe_all _ _ _ _ _ _ _) as [[ts|e] h']; [|done]. destruct (thresholds h') as [stored|]; [|done].
  pose proof (measure_all_incidents stored at_ clock (length reports) samples [] h') as E. destruct (measure_all _ _ _ _ _ _ _) as [[bs|e] h'']; cbn [snd] in *; by rewrite E.
Qed.
Lemma save_settings_incidents now u h : hl_incidents (snd (save_settings number_of_f64 now u h)) = hl_incidents h.
Proof.
  unfold save_settings. destruct (load_settings now h) as [current h'] eqn:E. assert (hl_incidents h' = hl_incidents h) as <- by (unfold load_settings in E; destruct (hl_settings h); inversion E; done).
  destruct (negb _); [done|]. destruct (negb _); [done|]. destruct (match su_thresholds u with Some m => _ | None => _ end); [|done]. destruct (negb _); [done|].
  destruct (su_thresholds u); [|done]. by destruct (insert_thresholds _ _).
Qed.

(** The history of incidents keeps its shape: whatever runs, acknowledgements, manual closings, settings
    and maintenance windows follow, an incident is open exactly as long as its service is not back to
    healthy, who acknowledged it is known exactly when the time is, and no service has two open incidents
    that were announced. *)
Theorem incidents_stay_well_formed (es : list health_event) : incidents_ok (hl_incidents (foldl health_step no_tables es)).
Proof.
  assert (incidents_ok (hl_incidents no_tables)) as H0.
  { split; [intros i Hi; by apply elem_of_nil in Hi|intros i Hi; by apply elem_of_nil in Hi|intros service; cbn; lia]. }
  revert H0. generalize no_tables. induction es as [|e es IH]; intros h H; [done|]. cbn [foldl]. apply IH. clear IH.
  destruct e as [ids at_ clock reports samples|id session now action note|now session interval stale pairs notifications|id session now starts_at ends_at services note|id]; cbn [health_step].
  - by apply run_policy_incidents_ok.
  - unfold patch_incident, acknowledge, resolve. destruct (str_eqb action _).
    + destruct (find_incident id h) as [i|]; [|done]. apply incidents_ok_update; [|done|done|done]. intros x Hx _. exact (io_shape _ H x Hx).
    + destruct (str_eqb action _); [|done]. destruct (List.find _ _); [|done]. apply incidents_ok_resolved; [by intros x [_ ?]%andb_true_iff|done].
  - unfold put_settings. destruct (match pairs with Some rows => _ | None => _ end); [|done]. by rewrite save_settings_incidents.
  - unfold create_window. destruct (_ <=? _); [done|]. by destruct (existsb _ _).
  - done.
Qed.
End Shape.

(** ** Outages *)

Definition shown (report : service_report) : str := canonical_state (sr_state report).
(** One report on one service, at its instant. *)
Record sighting := Sighting { sg_id : uuid; sg_at : instant; sg_now : instant; sg_report : service_report }.
Definition sight (h : health) (s : sighting) : health := snd (observe (sg_id s) (sg_at s) (sg_now s) (sg_report s) h).
Definition outage_row (h : health) (s : sighting) : incident :=
  Incident (sg_id s) (sr_service (sg_report s)) s!"healthy" (shown (sg_report s)) (sr_message (sg_report s)) (sr_detail (sg_report s)) (sg_now s) None
    (is_suppressed (sr_service (sg_report s)) (sg_at s) h) None None None.

Lemma canonical_idem state : canonical_state (canonical_state state) = canonical_state state.
Proof. unfold canonical_state. by repeat (case_match; try done). Qed.
Lemma canonical_cases state : canonical_state state ∈ [s!"healthy"; s!"degraded"; s!"down"; s!"unknown"].
Proof. unfold canonical_state. repeat case_match; set_solver. Qed.

Lemma bad_words state : state ∈ [s!"degraded"; s!"down"] -> str_eqb state s!"healthy" = false /\ str_eqb state s!"unknown" = false.
Proof. by intros [<- | [<- | []]]%list_elem_of_In. Qed.

Lemma open_incident_none service h : open_incident service h = None <-> existsb (open_of service) (hl_incidents h) = false.
Proof.
  unfold open_incident. rewrite existsb_none. split.
  - intros H. apply head_None in H. intros i Hi. destruct (open_of service i) eqn:E; [|done].
    assert (i ∈ sort_by newest_incident (List.filter (open_of service) (hl_incidents h))) as Hs; [|rewrite H in Hs; by apply elem_of_nil in Hs].
    rewrite sort_by_perm. by apply elem_of_filter_bool.
  - intros H. by rewrite filter_none.
Qed.
Lemma open_incident_one service i l h : existsb (open_of service) l = false -> hl_incidents h = l ++ [i] -> open_of service i = true -> open_incident service h = Some i.
Proof.
  intros Hl E Hi. unfold open_incident. rewrite E, List.filter_app, (filter_none _ _ (proj1 (existsb_none _ _) Hl)). cbn. by rewrite Hi.
Qed.

(** An open unsuppressed incident: whatever else the service shows, short of its own word and recovery, is refused. *)
Lemma observe_refused id at_ now report i h :
  open_incident (sr_service report) h = Some i -> in_suppressed i = false -> is_suppressed (sr_service report) at_ h = false ->
  shown report ∈ [s!"degraded"; s!"down"] -> shown report <> canonical_state (in_to_state i) -> observe id at_ now report h = (Err HealthDatabase, h).
Proof.
  intros Hi Hs Hw Hb Hd. unfold observe, detect. rewrite Hi. change (default s!"healthy" (in_to_state <$> Some i)) with (in_to_state i). change (canonical_state (sr_state report)) with (shown report).
  unfold is_event. cbn [tn_from_state tn_to_state].
  assert (str_eqb (canonical_state (in_to_state i)) (shown report) = false) as -> by (apply str_eqb_neq; congruence).
  destruct (bad_words _ Hb) as [E1 E2]. rewrite E2. cbn [negb andb]. rewrite Hw. unfold apply_transition, is_recovery. cbn [tn_to_state tn_from_state tn_service].
  rewrite E1. cbn [andb]. unfold insert_incident. cbn [in_to_state in_suppressed in_service]. rewrite E1. cbn [orb negb andb].
  assert (existsb (fun x => open_of (sr_service report) x && negb (in_suppressed x)) (hl_incidents h) = true) as ->; [|done].
  apply existsb_elem. exists i. unfold open_incident in Hi. apply head_Some_elem_of in Hi. rewrite sort_by_perm in Hi. apply elem_of_filter_bool in Hi as [Hi Ho]. by rewrite Ho, Hs.
Qed.

Lemma observe_opens id at_ now report h :
  existsb (open_of (sr_service report)) (hl_incidents h) = false -> shown report ∈ [s!"degraded"; s!"down"] ->
  sight h (Sighting id at_ now report) = with_incidents (hl_incidents h ++ [outage_row h (Sighting id at_ now report)]) h.
Proof.
  intros Hn Hb. destruct (bad_words _ Hb) as [E1 E2]. unfold sight, observe, detect. cbn [sg_id sg_at sg_now sg_report].
  rewrite (proj2 (open_incident_none _ _) Hn). change (canonical_state (sr_state report)) with (shown report).
  change (canonical_state (default s!"healthy" (in_to_state <$> None))) with s!"healthy".
  unfold is_event. cbn [tn_from_state tn_to_state]. rewrite E2.
  assert (str_eqb s!"healthy" (shown report) = false) as -> by (apply str_eqb_neq; intros E; rewrite <- E in E1; done).
  cbn [negb andb]. unfold apply_transition, is_recovery. cbn [tn_to_state tn_from_state tn_service]. rewrite E1. cbn [andb].
  unfold insert_incident. cbn [in_to_state in_suppressed in_service]. rewrite E1. cbn [orb].
  assert (existsb (fun x => open_of (sr_service report) x && negb (in_suppressed x)) (hl_incidents h) = false) as ->.
  { apply existsb_none. intros x Hx. by rewrite (proj1 (existsb_none _ _) Hn x Hx). }
  by rewrite andb_false_r.
Qed.
Lemma observe_same id at_ now report i h :
  open_incident (sr_service report) h = Some i -> shown report = in_to_state i \/ shown report = s!"unknown" -> sight h (Sighting id at_ now report) = h.
Proof.
  intros Hi Hs. unfold sight, observe, detect. cbn [sg_id sg_at sg_now sg_report]. rewrite Hi.
  change (default s!"healthy" (in_to_state <$> Some i)) with (in_to_state i). change (canonical_state (sr_state report)) with (shown report).
  unfold is_event. cbn [tn_from_state tn_to_state]. destruct Hs as [Hs | ->]; [|by rewrite andb_false_r].
  rewrite <- Hs. unfold shown at 1. rewrite canonical_idem. change (canonical_state (sr_state report)) with (shown report). by rewrite str_eqb_refl.
Qed.
Lemma observe_recovers id at_ now report l i h :
  existsb (open_of (sr_service report)) l = false -> hl_incidents h = l ++ [i] -> open_of (sr_service report) i = true ->
  in_to_state i ∈ [s!"degraded"; s!"down"] -> shown report = s!"healthy" ->
  hl_incidents (sight h (Sighting id at_ now report)) = l ++ [set_resolved now i].
Proof.
  intros Hl Hh Hi Hb Hs. unfold sight, observe, detect. cbn [sg_id sg_at sg_now sg_report]. rewrite (open_incident_one _ _ _ _ Hl Hh Hi).
  change (default s!"healthy" (in_to_state <$> Some i)) with (in_to_state i). change (canonical_state (sr_state report)) with (shown report). rewrite Hs.
  assert (canonical_state (in_to_state i) = in_to_state i /\ (0 <? rank (in_to_state i)) = true) as [-> Hr] by (by apply list_elem_of_In in Hb as [<- | [<- | []]]).
  destruct (bad_words _ Hb) as [E1 E2]. unfold is_event. cbn [tn_from_state tn_to_state]. rewrite E1. change (str_eqb s!"healthy" s!"unknown") with false. cbn [negb andb].
  unfold apply_transition, is_recovery. cbn [tn_to_state tn_from_state tn_service]. change (rank s!"healthy") with 0. rewrite Hr. change (str_eqb s!"healthy" s!"healthy") with true. cbn [andb].
  change (hl_incidents (with_incidents (update_where (open_of (sr_service report)) (set_resolved now) (hl_incidents h)) h) = l ++ [set_resolved now i]).
  cbn [with_incidents hl_incidents]. rewrite Hh. unfold update_where. rewrite fmap_app. cbn. rewrite Hi. f_equal.
  rewrite <- (list_fmap_id l) at 2. apply list_fmap_ext. intros k x Hx. cbn. by rewrite (proj1 (existsb_none _ _) Hl x (list_elem_of_lookup_2 _ _ _ Hx)).
Qed.

(** An outage is one row: however often a service with no open incident is seen in the same bad state,
    unknown readings between them, the history gains one incident, from healthy, at the first sighting; and
    the first healthy report closes that row and opens none. *)
Theorem outage_is_one_incident (first : sighting) (rest : list sighting) (recovery : sighting) (h : health)
  (Hquiet : existsb (open_of (sr_service (sg_report first))) (hl_incidents h) = false)
  (Hbad : shown (sg_report first) ∈ [s!"degraded"; s!"down"])
  (Hrest : forall s, s ∈ rest -> sr_service (sg_report s) = sr_service (sg_report first) /\
     (shown (sg_report s) = shown (sg_report first) \/ shown (sg_report s) = s!"unknown"))
  (Hservice : sr_service (sg_report recovery) = sr_service (sg_report first))
  (Hhealthy : shown (sg_report recovery) = s!"healthy") :
  hl_incidents (foldl sight h (first :: rest)) = hl_incidents h ++ [outage_row h first] /\
  hl_incidents (sight (foldl sight h (first :: rest)) recovery) = hl_incidents h ++ [set_resolved (sg_now recovery) (outage_row h first)].
Proof.
  destruct first as [id at_ now report]. cbn [sg_report] in *. cbn [foldl]. rewrite (observe_opens id at_ now report h Hquiet Hbad).
  set (row := outage_row h (Sighting id at_ now report)). set (opened := with_incidents _ h).
  assert (open_of (sr_service report) row = true) as Ho by (unfold open_of; cbn; by rewrite str_eqb_refl).
  assert (foldl sight opened rest = opened) as ->.
  { clear Hbad. induction rest as [|[id' at' now' report'] rest IH]; [done|]. destruct (Hrest _ (list_elem_of_here _ _)) as [Es Et]. cbn [sg_report] in *. cbn [foldl].
    rewrite (observe_same id' at' now' report' row); [apply IH; intros s Hs; by apply Hrest, list_elem_of_further| |done].
    rewrite Es. by apply (open_incident_one _ _ (hl_incidents h)). }
  split; [done|]. destruct recovery as [id' at' now' report']. cbn [sg_report sg_now] in *. apply observe_recovers; [by rewrite Hservice|done|by rewrite Hservice|done|done].
Qed.

(** While an announced incident is open, a report of another bad state ends the run it is in: the table
    refuses the second row, and no later service, recovery or breach of that run is recorded. *)
Theorem worsening_is_refused (ids : nat -> uuid) (at_ : instant) (clock : nat -> instant) (report : service_report) (reports : list service_report)
  (samples : list sample) (i : incident) (h : health)
  (Hservice : sr_service report <> HOST_SERVICE)
  (Hopen : open_incident (sr_service report) h = Some i)
  (Hannounced : in_suppressed i = false)
  (Hwindow : is_suppressed (sr_service report) at_ h = false)
  (Hbad : shown report ∈ [s!"degraded"; s!"down"])
  (Hother : shown report <> canonical_state (in_to_state i)) :
  run_policy ids at_ clock (report :: reports) samples h = (PolicyOutcome [] [] 0, h).
Proof.
  unfold run_policy, apply_policy. cbn [observe_all]. rewrite (proj2 (str_eqb_neq _ _) Hservice). by rewrite (observe_refused _ _ _ _ i).
Qed.

(** ** Limits *)

(** The pairs of a collection went through the constructor under their names. *)
Definition pairs_ok (m : thresholds_map) : Prop := forall k t, m !! k = Some t -> threshold_new k (th_warn t) (th_crit t) (th_direction t) = Ok t.

Record limits (metric : str) (t : threshold) : Prop := Limits {
  lm_metric : th_metric t = trim metric;
  lm_named : trim metric <> [];
  lm_short : (length (trim metric) <= 64)%nat;
  lm_finite : f64_is_finite (th_warn t) = true /\ f64_is_finite (th_crit t) = true;
  lm_nonnegative : f64_ltb (th_warn t) (f64_of 0) = false /\ f64_ltb (th_crit t) (f64_of 0) = false;
  lm_order : (if str_eqb (th_direction t) s!"below" then f64_ltb (th_crit t) (th_warn t) else f64_ltb (th_warn t) (th_crit t)) = true;
  lm_direction : th_direction t = s!"above" \/ th_direction t = s!"below"
}.
Lemma threshold_new_ok metric warn crit direction t :
  threshold_new metric warn crit direction = Ok t -> t = Threshold (trim metric) warn crit direction /\ limits metric t.
Proof.
  unfold threshold_new. intros [[E1 E2]%orb_false_iff H]%refuse_ok. apply refuse_ok in H as [[F1 F2]%orb_false_iff H]. apply refuse_ok in H as [[N1 N2]%orb_false_iff H].
  apply require_ok in H as [Ho H]. apply require_ok in H as [Hd [= <-]]. split; [done|]. apply negb_false_iff, andb_true_iff in F1 as [F1 _], F2 as [F2 _].
  split; cbn; [done|by apply str_eqb_neq|apply Nat.ltb_ge in E2; lia|done|done|done|].
  apply orb_true_iff in Hd as [Hd%str_eqb_eq|Hd%str_eqb_eq]; auto.
Qed.
Lemma collect_pairs_ok rows m m' : collect_pairs rows m = Ok m' -> pairs_ok m -> pairs_ok m'.
Proof.
  revert m. induction rows as [|r rows IH]; intros m H Hm; [by injection H as <-|]. cbn [collect_pairs] in H. apply result_bind_ok in H as (t & Ht & H).
  apply (IH _ H). intros k x. destruct (decide (k = tb_metric r)) as [->|Hk]; [|rewrite lookup_insert_ne by done; apply Hm].
  rewrite lookup_insert_eq. intros [= <-]. destruct (threshold_new_ok _ _ _ _ _ Ht) as [E _]. by rewrite E in Ht |- *.
Qed.
Lemma collect_pairs_comes_from rows m m' k t : collect_pairs rows m = Ok m' -> m' !! k = Some t ->
  m !! k = Some t \/ exists r, r ∈ rows /\ k = tb_metric r /\ th_warn t = tb_warn r /\ th_crit t = tb_crit r.
Proof.
  revert m. induction rows as [|r rows IH]; intros m H Hk; [injection H as <-; by left|]. cbn [collect_pairs] in H. apply result_bind_ok in H as (x & Hx & H).
  destruct (IH _ H Hk) as [Hi|(r' & Hr & H')]; [|right; exists r'; split; [by right|done]].
  destruct (decide (k = tb_metric r)) as [->|Hn]; [|rewrite lookup_insert_ne in Hi by done; by left].
  rewrite lookup_insert_eq in Hi. injection Hi as ->. destruct (threshold_new_ok _ _ _ _ _ Hx) as [-> _]. right. exists r. split; [left|done].
Qed.

(** *** The document reads back *)

Section ReadBack.
Context `{J : JsonNumber} (number_of_f64 : f64 -> number).

Lemma obj_insert_fresh k v (o : list (str * value)) : k ∉ o.*1 -> obj_insert k v o ≡ₚ (k, v) :: o.
Proof.
  induction o as [|[k' v'] o IH]; intros Hk; [done|]. cbn [fmap list_fmap fst] in Hk. apply not_elem_of_cons in Hk as [Hn Hk]. cbn [obj_insert].
  destruct (str_cmp k k') eqn:E; [by apply str_cmp_eq in E|done|]. rewrite (IH Hk). by rewrite (Permutation_swap (k, v)).
Qed.
Lemma thresholds_value_elem m k v :
  (k, v) ∈ default [] (as_object (thresholds_value number_of_f64 m)) <-> exists t, m !! k = Some t /\ v = pair_value number_of_f64 t.
Proof.
  cbn [thresholds_value as_object default]. revert k v.
  apply (map_fold_weak_ind (fun o (m : thresholds_map) => forall k v, (k, v) ∈ o <-> exists t, m !! k = Some t /\ v = pair_value number_of_f64 t)).
  - intros k v. split; [by intros ?%elem_of_nil|intros (t & Ht & _); by rewrite lookup_empty in Ht].
  - intros k t m' o Hk IH j v. rewrite obj_insert_fresh.
    + rewrite elem_of_cons, IH. split.
      * intros [[= -> ->]|(x & Hx & ->)]; [exists t; by rewrite lookup_insert_eq|]. exists x. split; [|done]. rewrite lookup_insert_ne; [done|]. intros <-. by rewrite Hk in Hx.
      * intros (x & Hx & ->). destruct (decide (k = j)) as [<-|Hn]; [rewrite lookup_insert_eq in Hx; injection Hx as <-; by left|].
        rewrite lookup_insert_ne in Hx by done. right. by exists x.
    + intros ([k' v'] & E & H)%list_elem_of_fmap. cbn in E. subst k'. apply IH in H as (x & Hx & _). by rewrite Hk in Hx.
Qed.
Lemma parse_pairs_reads (m : thresholds_map) object parsed :
  (forall k v, (k, v) ∈ object -> exists t, m !! k = Some t /\ parse_pair k v = Ok t) ->
  exists m', parse_pairs object parsed = Ok m' /\ forall k, m' !! k = (if decide (k ∈ object.*1) then m !! k else parsed !! k).
Proof.
  revert parsed. induction object as [|[k v] object IH]; intros parsed H; [by exists parsed|]. destruct (H k v (list_elem_of_here _ _)) as (t & Ht & Hp).
  destruct (IH (<[k := t]> parsed)) as (m' & E & Hm); [intros j w Hj; by apply H, list_elem_of_further|]. exists m'. cbn [parse_pairs]. rewrite Hp. cbn [result_bind]. split; [done|].
  intros j. rewrite Hm. cbn [fmap list_fmap fst]. destruct (decide (j ∈ object.*1)) as [Hj|Hj]; [by rewrite decide_True by by right|].
  destruct (decide (j = k)) as [->|Hn]; [by rewrite lookup_insert_eq, decide_True by left|]. rewrite lookup_insert_ne by done.
  rewrite decide_False; [done|]. by apply not_elem_of_cons.
Qed.

(** [as_f64] of a number made of a finite double is that double. *)
Definition reads_back : Prop := forall x, f64_is_finite x = true -> number_as_f64 (number_of_f64 x) = Some x.
Lemma parse_pair_value (Hlaw : reads_back) k t :
  threshold_new k (th_warn t) (th_crit t) (th_direction t) = Ok t -> parse_pair k (pair_value number_of_f64 t) = Ok t.
Proof.
  intros H. destruct (threshold_new_ok _ _ _ _ _ H) as [_ L]. destruct (lm_finite _ _ L) as [Fw Fc]. unfold pair_value, limit_value. rewrite Fw, Fc.
  unfold parse_pair. cbn [as_object ok_or result_bind]. set (o := [_; _; _]).
  assert (read_limit o s!"warn" = Ok (th_warn t)) as ->
    by (change (ok_or (number_as_f64 (number_of_f64 (th_warn t))) (HealthInvalid s!"the limit must be a number") = Ok (th_warn t)); by rewrite Hlaw).
  assert (read_limit o s!"crit" = Ok (th_crit t)) as ->
    by (change (ok_or (number_as_f64 (number_of_f64 (th_crit t))) (HealthInvalid s!"the limit must be a number") = Ok (th_crit t)); by rewrite Hlaw).
  exact H.
Qed.
Lemma thresholds_value_parses (Hlaw : reads_back) m : pairs_ok m -> parse_thresholds (thresholds_value number_of_f64 m) = Ok m.
Proof.
  intros Hm. pose proof (thresholds_value_elem m) as He. cbn [thresholds_value as_object default] in He. unfold parse_thresholds, thresholds_value. cbn [as_object].
  destruct (parse_pairs_reads m (map_fold (fun k t o => obj_insert k (pair_value number_of_f64 t) o) [] m) ∅) as (m' & -> & H).
  - intros k v (t & Ht & ->)%He. exists t. split; [done|]. by apply parse_pair_value, Hm.
  - f_equal. apply map_eq. intros k. rewrite H. destruct (decide _) as [_|Hk]; [done|]. rewrite lookup_empty. symmetry. apply eq_None_not_Some. intros [t Ht].
    apply Hk, list_elem_of_fmap. exists (k, pair_value number_of_f64 t). split; [done|]. apply He. by exists t.
Qed.

(** *** The table takes them *)

Lemma insert_thresholds_all l m :
  (forall t, t ∈ l -> check_threshold t = true) -> NoDup (th_metric <$> l) -> (forall t, t ∈ l -> m !! th_metric t = None) ->
  insert_thresholds l m = Some (list_to_map ((fun t => (th_metric t, t)) <$> l) ∪ m).
Proof.
  revert m. induction l as [|t l IH]; intros m Hc Hn Hm; [cbn; by rewrite (left_id_L ∅ (∪))|]. cbn [fmap list_fmap] in Hn. apply NoDup_cons in Hn as [Ht Hn].
  cbn [insert_thresholds]. rewrite (Hc t (list_elem_of_here _ _)), (Hm t (list_elem_of_here _ _)). cbn [is_given negb andb]. rewrite IH.
  - f_equal. change (list_to_map ((fun t => (th_metric t, t)) <$> t :: l)) with (<[th_metric t := t]> (list_to_map ((fun t => (th_metric t, t)) <$> l) : gmap str threshold)).
    rewrite <- insert_union_l. symmetry. apply insert_union_r, not_elem_of_list_to_map_1. by rewrite <- list_fmap_compose.
  - intros x Hx. by apply Hc, list_elem_of_further.
  - done.
  - intros x Hx. rewrite lookup_insert_ne; [by apply Hm, list_elem_of_further|]. intros E. apply Ht. rewrite E. by apply list_elem_of_fmap_2.
Qed.

Lemma trim_start_by_weaken f g (s : str) : (forall c, g c = true -> f c = true) -> trim_start_by f s = s -> trim_start_by g s = s.
Proof.
  destruct s as [|c s]; [done|]. intros Hg H. cbn [trim_start_by] in *. destruct (g c) eqn:E; [|done]. rewrite (Hg c E) in H.
  destruct (trim_start_by_split f s) as [d Hd]. rewrite H in Hd. apply (f_equal length) in Hd. rewrite length_app in Hd. cbn in Hd. lia.
Qed.
Lemma trimmed_btrim (s : str) : trim s = s -> btrim s = s.
Proof.
  intros H. assert (forall c, N.eqb c!" " c = true -> is_whitespace c = true) as Hg by (by intros c <-%N.eqb_eq).
  assert (trim_start_by is_whitespace s = s) as E.
  { destruct (trim_start_by_split is_whitespace s) as [d Hd], (trim_end_by_split is_whitespace (trim_start_by is_whitespace s)) as [d' Hd'].
    change (trim_end_by is_whitespace (trim_start_by is_whitespace s)) with (trim s) in Hd'. rewrite H in Hd'.
    rewrite Hd' in Hd. apply (f_equal length) in Hd as Hl. rewrite !length_app in Hl. destruct d; [|cbn in Hl; lia]. destruct d'; [|cbn in Hl; lia]. by rewrite Hd', app_nil_r. }
  unfold btrim. rewrite (trim_start_by_weaken _ _ _ Hg E). unfold trim, trim_end_by in *. rewrite E in H. rewrite (trim_start_by_weaken _ _ (rev s) Hg).
  - apply rev_involutive.
  - by rewrite <- H at 2; rewrite rev_involutive.
Qed.

Lemma nonnegative_leb x : f64_is_finite x = true -> f64_ltb x (f64_of 0) = false -> f64_leb (f64_of 0) x = true.
Proof. by destruct x as [[]|[]| |[] ? ?]. Qed.
Lemma limits_check k t : limits k t -> trim k = k -> f64_ltb (th_warn t) MAX_ABS_VALUE && f64_ltb (th_crit t) MAX_ABS_VALUE = true -> check_threshold t = true.
Proof.
  intros [Em En Es [Fw Fc] [Nw Nc] Ho Hd] Hk Hb. unfold check_threshold. rewrite Hb, Em, Hk, (trimmed_btrim k Hk). rewrite Hk in En, Es.
  rewrite (nonnegative_leb _ Fw Nw), (nonnegative_leb _ Fc Nc). cbn [andb].
  assert ((1 <=? length k)%nat = true) as -> by (apply Nat.leb_le; destruct k; [done|cbn; lia]). rewrite (proj2 (Nat.leb_le _ _) Es), !andb_true_r.
  destruct Hd as [E|E]; rewrite E in Ho |- *; exact Ho.
Qed.
Lemma thresholds_of m h : pairs_ok m -> hl_thresholds h = m -> thresholds h = Ok m.
Proof.
  intros Hm <-. unfold thresholds. revert Hm. generalize (hl_thresholds h). clear h. intros m. 
  apply (map_fold_weak_ind (fun r (m : thresholds_map) => pairs_ok m -> r = Ok m)); [done|].
  intros k t m' r Hk IH Hm. rewrite IH.
  - cbn [result_bind]. rewrite (Hm k t (lookup_insert_eq _ _ _)). done.
  - intros j x Hj. apply Hm. rewrite lookup_insert_ne; [done|]. intros <-. by rewrite Hk in Hj.
Qed.

Definition kept_interval (now : instant) (interval : option Z) (h : health) : Z := default (hs_check_interval_seconds (fst (load_settings now h))) interval.
Definition kept_stale (now : instant) (stale : option Z) (h : health) : Z := default (hs_worker_stale_seconds (fst (load_settings now h))) stale.
Definition kept_notifications (now : instant) (n : option value) (h : health) : value := default (hs_notifications (fst (load_settings now h))) n.

(** Limits survive their save: pairs the constructor takes, under trimmed names and below the table's
    bound, are never refused by the save's own re-reading; the next run measures against exactly these
    limits, and the settings document reads back as them. *)
Theorem saved_limits_are_the_limits (now : instant) (session : uuid) (interval stale : option Z) (rows : list threshold_body) (notifications : option value)
  (m : thresholds_map) (h : health)
  (Hlaw : reads_back)
  (Hm : collect_pairs rows ∅ = Ok m)
  (Hnames : forall r, r ∈ rows -> trim (tb_metric r) = tb_metric r)
  (Hbelow : forall r, r ∈ rows -> f64_ltb (tb_warn r) MAX_ABS_VALUE && f64_ltb (tb_crit r) MAX_ABS_VALUE = true)
  (Hinterval : MIN_CHECK_INTERVAL_SECONDS <= kept_interval now interval h <= MAX_CHECK_INTERVAL_SECONDS)
  (Hstale : MIN_WORKER_STALE_SECONDS <= kept_stale now stale h <= MAX_WORKER_STALE_SECONDS)
  (Hobject : is_object (kept_notifications now notifications h) = true) :
  exists saved h', put_settings number_of_f64 now session interval stale (Some rows) notifications h = (Ok saved, h')
  /\ hl_settings h' = Some saved /\ thresholds h' = Ok m /\ parsed_thresholds saved = m.
Proof.
  assert (pairs_ok m) as Hok by (apply (collect_pairs_ok rows ∅); [done|intros k t Ht; by rewrite lookup_empty in Ht]).
  assert (forall k t, m !! k = Some t -> trim k = k /\ th_metric t = k /\ check_threshold t = true) as Hk.
  { intros k t Ht. destruct (collect_pairs_comes_from rows ∅ m k t Hm Ht) as [He|(r & Hr & -> & Ew & Ec)]; [by rewrite lookup_empty in He|].
    destruct (threshold_new_ok _ _ _ _ _ (Hok _ _ Ht)) as [_ L]. pose proof (Hnames r Hr) as En. split; [done|]. split; [by rewrite (lm_metric _ _ L)|].
    apply (limits_check _ _ L En). rewrite Ew, Ec. by apply Hbelow. }
  assert ((fun t => (th_metric t, t)) <$> (map_to_list m).*2 = map_to_list m) as El.
  { rewrite <- list_fmap_compose. rewrite <- (list_fmap_id (map_to_list m)) at 2. apply list_fmap_ext. intros i [k t] Hi. cbn. f_equal.
    apply (Hk k t), elem_of_map_to_list. by apply list_elem_of_lookup_2 in Hi. }
  assert (insert_thresholds (map_to_list m).*2 ∅ = Some m) as Ei.
  { rewrite insert_thresholds_all.
    - f_equal. rewrite El, (right_id_L ∅ (∪)). apply list_to_map_to_list.
    - intros t ([k x] & -> & Hx)%list_elem_of_fmap. by apply (Hk k x), elem_of_map_to_list.
    - assert (th_metric <$> (map_to_list m).*2 = (map_to_list m).*1) as ->; [|apply NoDup_fst_map_to_list].
      transitivity (((fun t => (th_metric t, t)) <$> (map_to_list m).*2).*1); [by rewrite <- (list_fmap_compose (fun t => (th_metric t, t)) fst)|by rewrite El].
    - intros t _. apply lookup_empty. }
  unfold put_settings. rewrite Hm. cbn [result_bind]. unfold save_settings. unfold kept_interval, kept_stale, kept_notifications in *.
  destruct (load_settings now h) as [current h']. cbn [su_check_interval_seconds su_worker_stale_seconds su_thresholds su_notifications su_updated_by fst] in *.
  rewrite !(proj2 (andb_true_iff _ _)) by (rewrite !Z.leb_le; lia). cbn [negb]. rewrite (thresholds_value_parses Hlaw m Hok), Hobject, andb_true_r. cbn [is_object thresholds_value negb].
  rewrite Ei. do 2 eexists. split; [reflexivity|]. split; [done|]. split; [by apply thresholds_of|].
  unfold parsed_thresholds. cbn [hs_thresholds]. by rewrite (thresholds_value_parses Hlaw m Hok).
Qed.
(** A save that fails leaves the tables as they were, the settings' first row apart. *)
Lemma refused_settings_change_nothing now session interval stale pairs notifications h e h' :
  put_settings number_of_f64 now session interval stale pairs notifications h = (Err e, h') -> h' = h \/ h' = snd (load_settings now h).
Proof.
  unfold put_settings. destruct (match pairs with Some rows => _ | None => _ end) as [m|]; [|intros [= _ <-]; by left]. unfold save_settings.
  destruct (load_settings now h) as [current h1]. cbn [snd]. intros H. right. repeat (case_match; try (by injection H as _ <-); try done).
Qed.
(** Saving limits empties the ledger of breaches, and keeps the history of incidents. *)
Lemma saving_limits_forgets_breaches now session interval stale rows notifications h saved h' :
  put_settings number_of_f64 now session interval stale (Some rows) notifications h = (Ok saved, h') -> hl_breaches h' = ∅ /\ hl_incidents h' = hl_incidents h.
Proof.
  intros H. split; [|].
  - unfold put_settings in H. destruct (collect_pairs rows ∅) as [m|]; [|done]. cbn [result_bind] in H. unfold save_settings in H. destruct (load_settings now h) as [current h1].
    cbn [su_thresholds] in H. repeat (case_match; try done). by injection H as _ <-.
  - pose proof (f_equal (fun r => hl_incidents (snd r)) H) as E. cbn [snd] in E. rewrite <- E. unfold put_settings. destruct (collect_pairs rows ∅); [|done].
    apply save_settings_incidents.
Qed.
End ReadBack.

(** ** One announcement a window *)

Inductive ledger_op :=
  | Recorded (metric : str) (v : f64) (at_ now : instant)
  | Cleared (metric : str) (at_ now : instant).
Definition ledger_step (h : health) (op : ledger_op) : option breach_check * health :=
  match op with
  | Recorded metric v at_ now => match record_breach metric v at_ now h with (Ok c, h) => (Some c, h) | (Err _, h) => (None, h) end
  | Cleared metric at_ now => (None, clear_breach metric at_ now h)
  end.
(** The critical readings of a metric's window that the table takes. *)
Definition reaches (metric : str) (window : instant) (h : health) (op : ledger_op) : bool :=
  match op with
  | Recorded m v at_ _ => str_eqb m metric && (breach_window at_ =? window) && is_given (hl_thresholds h !! m) && is_finite v
  | Cleared _ _ _ => false
  end.
(** How often a metric is announced for a window. *)
Fixpoint announced_in (metric : str) (window : instant) (ops : list ledger_op) (h : health) : nat :=
  match ops with
  | [] => 0
  | op :: ops =>
      let '(c, h') := ledger_step h op in
      ((if match c with Some c => reaches metric window h op && should_announce c | None => false end then 1 else 0) + announced_in metric window ops h')%nat
  end.

Lemma ledger_step_thresholds h op : hl_thresholds (snd (ledger_step h op)) = hl_thresholds h.
Proof.
  destruct op as [metric v at_ now|metric at_ now]; cbn; [|done]. unfold record_breach. destruct (hl_thresholds h !! metric); [|done]. by destruct (negb _).
Qed.
Lemma reaches_thresholds metric window h h' op : hl_thresholds h' = hl_thresholds h -> reaches metric window h' op = reaches metric window h op.
Proof. intros E. destruct op; cbn; [by rewrite E|done]. Qed.
Lemma reaches_all metric window h h' ops : hl_thresholds h' = hl_thresholds h -> existsb (reaches metric window h') ops = existsb (reaches metric window h) ops.
Proof. intros E. induction ops as [|op ops IH]; [done|]. cbn [existsb]. by rewrite IH, (reaches_thresholds _ _ _ _ op E). Qed.
(** A step either reaches the row, or leaves it there with as many observations. *)
Lemma ledger_step_row metric window h op :
  let observed h := bc_observations <$> hl_breaches h !! (metric, window) in
  if reaches metric window h op
  then exists c, fst (ledger_step h op) = Some c /\ bk_observations c = default 0 (observed h) + 1 /\ observed (snd (ledger_step h op)) = Some (bk_observations c)
  else observed (snd (ledger_step h op)) = observed h.
Proof.
  destruct op as [m v at_ now|m at_ now]; cbn [reaches ledger_step].
  - unfold record_breach. destruct (hl_thresholds h !! m) as [t|]; [|by rewrite andb_false_r]. rewrite andb_true_r. destruct (is_finite v); [|by rewrite andb_false_r]. rewrite andb_true_r. cbn [negb].
    destruct (str_eqb m metric && _) eqn:E.
    + apply andb_true_iff in E as [->%str_eqb_eq <-%Z.eqb_eq]. cbn [fst snd with_breaches hl_breaches bk_observations]. eexists. split; [done|]. rewrite lookup_insert_eq. by destruct (hl_breaches h !! _).
    + cbn [snd with_breaches hl_breaches]. rewrite lookup_insert_ne; [done|]. intros [= Em Ew]. by rewrite Em, Ew, str_eqb_refl, Z.eqb_refl in E.
  - cbn [snd clear_breach with_breaches hl_breaches]. unfold clear_breach, with_breaches. cbn [hl_breaches]. destruct (decide ((m, breach_window at_) = (metric, window))) as [<-|Hn].
    + rewrite lookup_alter_eq. destruct (hl_breaches h !! _) as [b|]; [|done]. cbn. unfold set_cleared. by destruct (bc_resolved_at b).
    + by rewrite lookup_alter_ne.
Qed.
Lemma announced_again metric window ops h n : bc_observations <$> hl_breaches h !! (metric, window) = Some n -> 1 <= n -> announced_in metric window ops h = 0%nat.
Proof.
  revert h n. induction ops as [|op ops IH]; intros h n Hn Hp; [done|]. cbn [announced_in]. pose proof (ledger_step_row metric window h op) as H. cbv beta zeta in H.
  destruct (ledger_step h op) as [c h'] eqn:E. cbn [fst snd] in H. destruct (reaches metric window h op).
  - destruct H as (x & -> & Hx & Hr). rewrite Hn in Hx. change (default 0 (Some n)) with n in Hx. rewrite (IH h' _ Hr) by lia. unfold should_announce. by rewrite (proj2 (Z.leb_gt _ _)) by lia.
  - rewrite (IH h' n) by (congruence || done). by destruct c.
Qed.

(** C38. A breach is announced once a window: however many critical readings of a metric fall in a window that
    has none yet, and whatever recoveries and other metrics come between them, exactly one announcement is
    made, and none when no reading reaches the ledger. *)
Theorem breach_is_announced_once (metric : str) (window : instant) (ops : list ledger_op) (h : health)
  (Hnew : hl_breaches h !! (metric, window) = None) :
  announced_in metric window ops h = (if existsb (reaches metric window h) ops then 1 else 0)%nat.
Proof.
  revert h Hnew. induction ops as [|op ops IH]; intros h Hnew; [done|]. cbn [announced_in existsb]. pose proof (ledger_step_row metric window h op) as H. cbv beta zeta in H. rewrite Hnew in H.
  pose proof (ledger_step_thresholds h op) as Ht. destruct (ledger_step h op) as [c h'] eqn:E. cbn [fst snd] in *. destruct (reaches metric window h op).
  - destruct H as (x & -> & Hx & Hr). cbn in Hx. rewrite (announced_again metric window ops h' _ Hr) by lia. unfold should_announce. by rewrite Hx.
  - assert (hl_breaches h' !! (metric, window) = None) as Hn by (by destruct (hl_breaches h' !! _)). rewrite (IH h' Hn), (reaches_all metric window h h' ops Ht). by destruct c.
Qed.

(** ** Inputs *)

(** Numbers that are doubles. *)
Definition double_number : JsonNumber :=
  {| number := f64; number_eqb := fun a b => SFeqb a b; number_as_f64 := Some; number_as_i64 := fun _ => None; number_show := fun _ => s!"0"; number_of_Z := f64_of |}.
Definition seen_at (now : instant) (service state : str) : sighting := Sighting (Z.to_N now) now now (ServiceReport service state s!"probe" VNull).
Definition reported (service state : str) : service_report := ServiceReport service state s!"probe" VNull.
Definition disk_limit : threshold := Threshold s!"disk_percent" (f64_of 80) (f64_of 90) s!"above".
Definition measured : health := Health None (<[s!"disk_percent" := disk_limit]> ∅) ∅ [] [].
Definition slow_redis : health := sight measured (seen_at 10 s!"redis" s!"degraded").
Definition expected_outage : health := with_windows [MaintenanceWindow 3 0 100 [s!"redis"] [] (Some 1%N) 0] measured.

(** The suggested limits are all built: a machine at its warn line is degraded, at its crit line down. *)
Example suggested_limits_are_built :
  length (map_to_list suggested_thresholds) = length THRESHOLD_METRICS
  /\ forallb (fun metric => match suggested_thresholds !! metric with
       Some t => bool_decide (classify t (th_warn t) = Some s!"degraded") && bool_decide (classify t (th_crit t) = Some s!"down") && bool_decide (classify t S754_nan = None)
       | None => false end) THRESHOLD_METRICS = true.
Proof. by vm_compute. Qed.
(** A recovery in the next window leaves the breach of this one open. *)
Example late_recovery_leaves_the_breach :
  bc_resolved_at <$> hl_breaches (snd (ledger_step (snd (ledger_step measured (Recorded s!"disk_percent" (f64_of 95) 0 0))) (Cleared s!"disk_percent" 900000000 900000000))) !! (s!"disk_percent", 0)
  = Some None.
Proof. by vm_compute. Qed.
(** The constructor takes a limit the table does not. *)
Example widest_limit_reaches_the_table :
  match threshold_new s!"latency_ms" (f64_of 0) MAX_ABS_VALUE s!"above" with Ok t => check_threshold t | Err _ => true end = false.
Proof. by vm_compute. Qed.
(** An outage that begins inside a maintenance window is not announced when the window ends. *)
Example expected_outage_is_never_announced :
  let '(p1, h1) := run_policy (fun k => N.of_nat k) 10 (fun _ => 10) [reported s!"redis" s!"down"] [] expected_outage in
  let '(p2, h2) := run_policy (fun k => N.of_nat k) 200 (fun _ => 200) [reported s!"redis" s!"down"] [] h1 in
  se_suppressed <$> po_transitions p1 = [true] /\ announcements p2 = 0%nat.
Proof. by vm_compute. Qed.

(** A takeover writes over the first note. *)
Example takeover_drops_the_first_note :
  match patch_incident 10 6 60 s!"acknowledge" (Some s!"mine now") (snd (patch_incident 10 5 50 s!"acknowledge" (Some s!"looking") slow_redis)) with
  | (Ok i, _) => in_note i = Some s!"mine now" /\ in_acknowledged_by i = Some 6%N
  | _ => False
  end.
Proof. by vm_compute. Qed.

Lemma outage_is_one_incident_witness :
  hl_incidents (foldl sight measured [seen_at 10 s!"redis" s!"degraded"; seen_at 20 s!"redis" s!"unknown"; seen_at 30 s!"redis" s!"degraded"])
  = [outage_row measured (seen_at 10 s!"redis" s!"degraded")].
Proof.
  refine (proj1 (outage_is_one_incident (seen_at 10 s!"redis" s!"degraded") [seen_at 20 s!"redis" s!"unknown"; seen_at 30 s!"redis" s!"degraded"]
    (seen_at 40 s!"redis" s!"healthy") measured eq_refl _ _ eq_refl eq_refl)).
  - apply list_elem_of_here.
  - intros s [<- | [<- | []]]%list_elem_of_In; (split; [done|]); [right|left]; done.
Defined.
Lemma worsening_is_refused_witness :
  run_policy (fun k => N.of_nat k) 20 (fun _ => 20) [reported s!"redis" s!"down"; reported s!"postgres" s!"down"] [Sample s!"host" s!"disk_percent" (f64_of 95)] slow_redis
  = (PolicyOutcome [] [] 0, slow_redis).
Proof.
  apply (worsening_is_refused _ _ _ (reported s!"redis" s!"down") _ _ (outage_row measured (seen_at 10 s!"redis" s!"degraded"))); try done.
  apply list_elem_of_further, list_elem_of_here.
Defined.
Lemma breach_is_announced_once_witness :
  announced_in s!"disk_percent" 0 [Recorded s!"disk_percent" (f64_of 95) 1 1; Cleared s!"disk_percent" 2 2; Recorded s!"disk_percent" (f64_of 96) 3 3] measured = 1%nat.
Proof. refine (eq_trans (breach_is_announced_once _ _ _ _ _) _); by vm_compute. Defined.
Definition disk_rows : list threshold_body := [ThresholdBody s!"disk_percent" (f64_of 80) (f64_of 90) s!"above"].
Lemma saved_limits_are_the_limits_witness :
  exists saved h', @put_settings double_number id 5 1 None None (Some disk_rows) None no_tables = (Ok saved, h') /\ thresholds h' = Ok (<[s!"disk_percent" := disk_limit]> ∅).
Proof.
  destruct (@saved_limits_are_the_limits double_number id 5 1 None None disk_rows None (<[s!"disk_percent" := disk_limit]> ∅) no_tables) as (saved & h' & H & _ & Ht & _).
  - done.
  - vm_compute; reflexivity.
  - by intros r ->%list_elem_of_singleton.
  - by intros r ->%list_elem_of_singleton.
  - split; vm_compute; discriminate.
  - split; vm_compute; discriminate.
  - done.
  - exists saved, h'. exact (conj H Ht).
Defined.
