(* ===== verification/Shares.v ===== *)
(** * Share links: [crates/media/src/shares.rs], [apps/api/src/routes/media_shares.rs], the table of
      migration 0036

    A link hands one file to somebody who cannot sign in: rows that know the hash of a token, the
    routes that make, list and revoke them, and the public route that serves the bytes, counted.  The
    file's own state comes from [Scanning], the grants from [Grants], the store and the headers from
    [Serving].  SHA-256 as text and Argon2 are parameters; an opening is one step.  Instants are
    microseconds.  Events, audit entries and the wording of refusals are not modelled. *)

From S2P Require Import Prelude Folders Grants MediaArchive Validators Uploads Serving Scanning.

Definition MAX_EXPIRY_DAYS : Z := 3650.
Definition MIN_EXPIRY_MINUTES : Z := 5.
Definition TOKEN_BYTES : nat := 32.
Definition DAY_MICROS : Z := 86400000000.

(** ** Rows *)

Record share := Share {
  lk_id : Z;
  lk_media_id : Z;
  lk_token_hash : str;
  lk_password_hash : option str;
  lk_expires_at : option Z;
  lk_download_count : Z;
  lk_created_by : option Z;
  lk_created_at : Z;
  lk_revoked_at : option Z;
  lk_revoked_reason : str
}.

Inductive share_refusal := LinkUnknown | LinkRevoked | LinkExpired | LinkPassword | LinkFile.
#[export] Instance share_refusal_eq_dec : EqDecision share_refusal.
Proof. solve_decision. Defined.
Definition refusal_str (r : share_refusal) : str :=
  match r with
  | LinkUnknown => s!"unknown_token" | LinkRevoked => s!"revoked" | LinkExpired => s!"expired"
  | LinkPassword => s!"password_required" | LinkFile => s!"file_unavailable"
  end.
Definition refusal_status (r : share_refusal) : Z := match r with LinkUnknown | LinkRevoked | LinkExpired => 410 | LinkPassword | LinkFile => 403 end.

Definition expired (now : Z) (s : share) : bool := match lk_expires_at s with Some t => t - now <=? 0 | None => false end.
Definition servable (s : share) (now : Z) : result unit share_refusal :=
  refuse is_given (lk_revoked_at s) with LinkRevoked in
  refuse expired now s with LinkExpired in
  Ok tt.
Definition is_password_protected (s : share) : bool := is_given (lk_password_hash s).

(** The token: random bytes as lower-case hex. *)
Definition mint_token (bytes : list Z) : str := concat ((fun b => [hex_digit (b / 16); hex_digit (b mod 16)]) <$> bytes).

(** ** The world of a link

    The columns of a file the pipeline keeps are [Scanning]'s; the others the routes read are beside
    them, by the file's id. *)

Record file_details := FileDetails { fd_filename : str; fd_content_type : str; fd_folder_id : option Z }.
Record link_world := LinkWorld { lw_scan : scan_state; lw_details : gmap Z file_details; lw_shares : list share }.
Definition with_shares (l : list share) (w : link_world) : link_world := LinkWorld (lw_scan w) (lw_details w) l.
Definition files_of (w : link_world) : scan_store := cs_store (lw_scan w).
Definition find_file_any_state (id : Z) (w : link_world) : option (scan_file * file_details) :=
  match find_scan_file id (files_of w), lw_details w !! id with Some f, Some d => Some (f, d) | _, _ => None end.

Inductive share_error :=
  | LinkRefused (r : share_refusal)
  | ShareRefused (status : Z) (code : str)
  | ShareServe (e : serve_error)
  | ShareDatabase.
Definition error_status (e : share_error) : Z := match e with LinkRefused r => refusal_status r | ShareRefused status _ => status | _ => 500 end.
Definition media_not_found : share_error := ShareRefused 404 s!"media_not_found".
Definition share_not_found : share_error := ShareRefused 404 s!"share_not_found".

Section Shares.
Context (sha256_hex : str -> str) (hash_password : str -> option str) (verify_password : str -> str -> bool)
  (site_organization : Z -> option Z).

Definition hash_token (token : str) : str := sha256_hex token.
Definition has_token (token : str) (s : share) : bool := str_eqb (lk_token_hash s) (hash_token token).
Definition is_share (id : Z) (s : share) : bool := lk_id s =? id.
Definition find_share (id : Z) (w : link_world) : option share := List.find (is_share id) (lw_shares w).
Definition find_by_token (token : str) (w : link_world) : option share := List.find (has_token token) (lw_shares w).
Definition newest_share (a b : share) : comparison := Z.compare (lk_created_at b) (lk_created_at a).
Definition list_shares (media_id : Z) (w : link_world) : list share :=
  sort_by newest_share (List.filter (fun s => lk_media_id s =? media_id) (lw_shares w)).

(** The constraints of an inserted row. *)
Definition share_row_ok (s : share) : bool :=
  negb (str_eqb (lk_token_hash s) []) && match lk_expires_at s with Some t => lk_created_at s <? t | None => true end && (0 <=? lk_download_count s).
Definition create_share (id now media_id : Z) (expires_at : option Z) (token : str) (password_hash : option str) (created_by : option Z) (w : link_world) :
  result (share * str * link_world) share_error :=
  let row := Share id media_id (hash_token token) password_hash expires_at 0 created_by now None [] in
  require share_row_ok row && is_given (find_scan_file media_id (files_of w)) else ShareDatabase in
  refuse existsb (fun s => is_share id s || has_token token s) (lw_shares w) with ShareDatabase in
  Ok (row, token, with_shares (lw_shares w ++ [row]) w).

Definition set_revoked (now : Z) (reason : str) (s : share) : share :=
  Share (lk_id s) (lk_media_id s) (lk_token_hash s) (lk_password_hash s) (lk_expires_at s) (lk_download_count s) (lk_created_by s) (lk_created_at s) (Some now) reason.
Definition live_row (s : share) : bool := negb (is_given (lk_revoked_at s)).
Definition revoke_share (id now : Z) (reason : str) (w : link_world) : option share * link_world :=
  let p s := is_share id s && live_row s in
  (set_revoked now reason <$> List.find p (lw_shares w), with_shares (update_where p (set_revoked now reason) (lw_shares w)) w).
Definition revoke_for_media (media_id now : Z) (reason : str) (w : link_world) : nat * link_world :=
  let p s := (lk_media_id s =? media_id) && live_row s in
  (length (List.filter p (lw_shares w)), with_shares (update_where p (set_revoked now reason) (lw_shares w)) w).
Definition set_counted (s : share) : share :=
  Share (lk_id s) (lk_media_id s) (lk_token_hash s) (lk_password_hash s) (lk_expires_at s) (lk_download_count s + 1) (lk_created_by s) (lk_created_at s) (lk_revoked_at s) (lk_revoked_reason s).
(** The counter is an [integer]. *)
Definition count_download (id : Z) (w : link_world) : result link_world share_error :=
  refuse existsb (fun s => is_share id s && (i32_max <=? lk_download_count s)) (lw_shares w) with ShareDatabase in
  Ok (with_shares (update_where (is_share id) set_counted (lw_shares w)) w).

(** ** The routes of the panel *)

Record caller := Caller { cl_id : Z; cl_organization : option Z }.
Definition ensure_same_organization (c : caller) (organization : option Z) : result unit share_error :=
  match cl_organization c, organization with
  | Some own, Some target => refuse negb (own =? target) with ShareRefused 403 s!"cross_organization" in Ok tt
  | _, _ => Ok tt
  end.
Definition media_site_in_scope (c : caller) (media_id : Z) (w : link_world) : result (scan_file * file_details) share_error :=
  let? media := ok_or (find_file_any_state media_id w) media_not_found in
  let? organization := ok_or (site_organization (sf_site_id (fst media))) (ShareRefused 404 s!"site_not_found") in
  let? _ := ensure_same_organization c (Some organization) in
  Ok media.

Record share_body := ShareBody {
  sb_id : Z;
  sb_media_id : Z;
  sb_expires_at : option Z;
  sb_has_password : bool;
  sb_download_count : Z;
  sb_created_at : Z;
  sb_revoked_at : option Z;
  sb_revoked_reason : str;
  sb_state : str
}.
Definition body_in (state : str) (s : share) : share_body :=
  ShareBody (lk_id s) (lk_media_id s) (lk_expires_at s) (is_password_protected s) (lk_download_count s) (lk_created_at s) (lk_revoked_at s) (lk_revoked_reason s) state.
Definition build (s : share) (now : Z) : share_body :=
  body_in (match servable s now with Ok _ => s!"live" | Err LinkRevoked => s!"revoked" | Err LinkExpired => s!"expired" | Err _ => s!"live" end) s.
Definition fresh (s : share) : share_body := body_in s!"live" s.
Definition list_route (c : caller) (now media_id : Z) (w : link_world) : result (list share_body) share_error :=
  let? _ := media_site_in_scope c media_id w in
  Ok ((fun s => build s now) <$> list_shares media_id w).

Definition expiry_from (now days : Z) : result Z share_error :=
  refuse days <? 1 with ShareRefused 400 s!"expires_in_days" in
  refuse MAX_EXPIRY_DAYS <? days with ShareRefused 400 s!"expires_in_days" in
  Ok (now + days * DAY_MICROS).

(** What the grant tables hold when the route reads them. *)
Record grant_tables := GrantTables { gt_folders : list folder; gt_members : list (Z * Z); gt_grants : list grant }.
Record create_input := CreateInput { ci_expires_in_days : option Z; ci_password : option str }.
Definition create (gt : grant_tables) (id asked now : Z) (bytes : list Z) (c : caller) (media_id : Z) (input : create_input) (w : link_world) :
  result (share * str * link_world) share_error :=
  let? media := media_site_in_scope c media_id w in
  match ensure_share_allowed (cl_id c) media_id (fd_folder_id (snd media)) (gt_folders gt) (gt_members gt) (gt_grants gt) with
  | Err _ => Err (ShareRefused 403 s!"media_grant_denied")
  | Ok _ =>
      refuse is_given (sf_deleted_at (fst media)) with ShareRefused 409 s!"file_in_trash" in
      let? expires_at := match ci_expires_in_days input with None => Ok None | Some days => let? t := expiry_from asked days in Ok (Some t) end in
      let? password_hash := match ci_password input with
                            | None => Ok None
                            | Some password => let? h := ok_or (hash_password password) (ShareRefused 400 s!"password_rejected") in Ok (Some h)
                            end in
      create_share id now media_id expires_at (mint_token bytes) password_hash (Some (cl_id c)) w
  end.

Definition normalize_reason (reason : str) : str := flatten_line <$> take 200 (trim reason).
Definition revoke (c : caller) (now media_id share_id : Z) (reason : str) (w : link_world) : result (option share) share_error * link_world :=
  match (let? _ := media_site_in_scope c media_id w in
         let? s := ok_or (find_share share_id w) share_not_found in
         refuse negb (lk_media_id s =? media_id) with share_not_found in Ok tt) with
  | Err e => (Err e, w)
  | Ok _ => let '(revoked, w) := revoke_share share_id now (normalize_reason reason) w in (Ok revoked, w)
  end.
Definition revoke_all (c : caller) (now media_id : Z) (w : link_world) : result nat share_error * link_world :=
  match media_site_in_scope c media_id w with
  | Err e => (Err e, w)
  | Ok _ => let '(closed, w) := revoke_for_media media_id now s!"revoked for the whole file" w in (Ok closed, w)
  end.

(** The URL that is handed over. *)
Definition share_url (base : option str) (token : str) : str :=
  match base with
  | Some value => if str_eqb (trim value) [] then s!"/api/v1/public/media/shared/" ++ token
                  else trim_end_by (N.eqb c!"/") value ++ s!"/api/v1/public/media/shared/" ++ token
  | None => s!"/api/v1/public/media/shared/" ++ token
  end.

(** ** The public route *)

Section Public.
Context `{R : ObjectReader} (header_ok : str -> bool).

Definition serve_shared (f : scan_file) (d : file_details) : result response serve_error :=
  let? bytes := from_store (read_object (sf_storage_key f)) in
  let? headers := put_header header_ok s!"content-type" (sp_content_type (plan_of_type (fd_content_type d))) [] in
  let? headers := put_header header_ok s!"content-disposition" (s!"attachment; filename=" ++ [QUOTE] ++ fd_filename d ++ [QUOTE]) headers in
  let? headers := put_header header_ok s!"cache-control" s!"no-store" headers in
  let? headers := put_header header_ok s!"x-content-type-options" s!"nosniff" headers in
  Ok (Response 200 headers bytes).

Definition password_ok (password : option str) (s : share) : bool :=
  match lk_password_hash s with Some hash => verify_password (default [] password) hash | None => true end.
(** The file of a link, past everything that is asked before its bytes are. *)
Definition admitted (now : Z) (token : str) (password : option str) (w : link_world) : result (share * scan_file * file_details) share_refusal :=
  let? s := ok_or (find_by_token token w) LinkUnknown in
  let? _ := servable s now in
  require password_ok password s else LinkPassword in
  let? media := ok_or (find_file_any_state (lk_media_id s) w) LinkFile in
  refuse is_given (sf_deleted_at (fst media)) with LinkFile in
  match ensure_scan_allows (fst media) (files_of w) with
  | Err _ => Err LinkFile
  | Ok _ => Ok (s, fst media, snd media)
  end.
Definition public_shared (now : Z) (token : str) (password : option str) (w : link_world) : result response share_error * link_world :=
  match admitted now token password w with
  | Err r => (Err (LinkRefused r), w)
  | Ok (s, f, d) =>
      match serve_shared f d with
      | Err e => (Err (ShareServe e), w)
      | Ok answer => match count_download (lk_id s) w with Ok w => (Ok answer, w) | Err e => (Err e, w) end
      end
  end.

(** ** Links among everything else that happens to their files *)

Inductive link_event :=
  | LMade (gt : grant_tables) (id asked now : Z) (bytes : list Z) (c : caller) (media_id : Z) (input : create_input)
  | LRevoked (c : caller) (now media_id share_id : Z) (reason : str)
  | LRevokedAll (c : caller) (now media_id : Z)
  | LOpened (now : Z) (token : str) (password : option str)
  | LDescribed (media_id : Z) (d : file_details)
  | LFile (e : scan_event).
(** Deleting a file deletes its links. *)
Definition cascade (e : scan_event) (l : list share) : list share :=
  match e with EPurge id => List.filter (fun s => negb (lk_media_id s =? id)) l | _ => l end.
Definition link_step (e : link_event) (w : link_world) : option (str * result response share_error) * link_world :=
  match e with
  | LMade gt id asked now bytes c media_id input => (None, match create gt id asked now bytes c media_id input w with Ok (_, _, w) => w | Err _ => w end)
  | LRevoked c now media_id share_id reason => (None, snd (revoke c now media_id share_id reason w))
  | LRevokedAll c now media_id => (None, snd (revoke_all c now media_id w))
  | LOpened now token password => let '(answer, w) := public_shared now token password w in (Some (token, answer), w)
  | LDescribed media_id d => (None, LinkWorld (lw_scan w) (<[media_id := d]> (lw_details w)) (lw_shares w))
  | LFile e => (None, LinkWorld (scan_step e (lw_scan w)) (lw_details w) (cascade e (lw_shares w)))
  end.
Fixpoint link_run (es : list link_event) (w : link_world) : list (str * result response share_error) * link_world :=
  match es with
  | [] => ([], w)
  | e :: es => let '(o, w) := link_step e w in let '(os, w) := link_run es w in (option_list o ++ os, w)
  end.
End Public.
End Shares.

(** ** What happens to a link *)

Section LinkTheorems.
Context (sha256_hex : str -> str) (hash_password : str -> option str) (verify_password : str -> str -> bool) (site_organization : Z -> option Z)
  `{R : ObjectReader} (header_ok : str -> bool).
Notation step := (link_step sha256_hex hash_password verify_password site_organization header_ok).
Notation run := (link_run sha256_hex hash_password verify_password site_organization header_ok).
Notation opened := (public_shared sha256_hex verify_password header_ok).

Record links_ok (l : list share) : Prop := LinksOk { lo_ids : NoDup (lk_id <$> l); lo_hashes : NoDup (lk_token_hash <$> l) }.

(** How many of the answers are bytes for a token with this hash. *)
Definition is_served (h : str) (o : str * result response share_error) : bool := str_eqb h (sha256_hex (fst o)) && match snd o with Ok _ => true | Err _ => false end.
Definition served (h : str) (os : list (str * result response share_error)) : Z := Z.of_nat (length (List.filter (is_served h) os)).
(** A row and what it is after these answers. *)
Record later (os : list (str * result response share_error)) (s s' : share) : Prop := Later {
  lt_id : lk_id s' = lk_id s;
  lt_media : lk_media_id s' = lk_media_id s;
  lt_hash : lk_token_hash s' = lk_token_hash s;
  lt_password : lk_password_hash s' = lk_password_hash s;
  lt_expiry : lk_expires_at s' = lk_expires_at s;
  lt_count : lk_download_count s' = lk_download_count s + served (lk_token_hash s) os;
  lt_revoked : is_given (lk_revoked_at s) = true -> lk_revoked_at s' = lk_revoked_at s
}.
(** The file of the link is not purged. *)
Definition spares (media_id : Z) (e : link_event) : Prop := match e with LFile (EPurge id) => id <> media_id | _ => True end.
(** The event is not one that revokes the link. *)
Definition leaves (s : share) (e : link_event) : Prop :=
  match e with
  | LRevoked _ _ _ share_id _ => share_id <> lk_id s
  | LRevokedAll _ _ media_id => media_id <> lk_media_id s
  | _ => True
  end.

Lemma later_refl s : later [] s s.
Proof. split; try done. unfold served. cbn. lia. Qed.
Lemma served_app h os os' : served h (os ++ os') = served h os + served h os'.
Proof. unfold served. rewrite List.filter_app, length_app. lia. Qed.
Lemma later_trans os os' s s' s'' : later os s s' -> later os' s' s'' -> later (os ++ os') s s''.
Proof.
  intros [A1 A2 A3 A4 A5 A6 A7] [B1 B2 B3 B4 B5 B6 B7]. split; try congruence.
  - rewrite B6, A6, A3, served_app. lia.
  - intros Hr. rewrite B7, A7; [done|done|]. by rewrite (A7 Hr).
Qed.

Lemma links_ok_update p f l : (forall s, lk_id (f s) = lk_id s /\ lk_token_hash (f s) = lk_token_hash s) -> links_ok l -> links_ok (update_where p f l).
Proof.
  intros Hf [H1 H2]. split.
  - by rewrite update_where_fmap by (intros x; apply Hf).
  - by rewrite update_where_fmap by (intros x; apply Hf).
Qed.
Lemma links_ok_filter p l : links_ok l -> links_ok (List.filter p l).
Proof. intros [H1 H2]. split; by apply NoDup_filter_keys. Qed.
Lemma create_share_ok id now media_id expires_at token ph cb w row t w' :
  create_share sha256_hex id now media_id expires_at token ph cb w = Ok (row, t, w') ->
  t = token /\ w' = with_shares (lw_shares w ++ [row]) w /\ row = Share id media_id (sha256_hex token) ph expires_at 0 cb now None []
  /\ (forall s, s ∈ lw_shares w -> lk_id s <> id /\ lk_token_hash s <> sha256_hex token).
Proof.
  unfold create_share. intros [_ H]%require_ok. apply refuse_ok in H as [E [= <- <- <-]]. split_and!; [done..|].
  intros s Hs. pose proof (proj1 (existsb_none _ _) E s Hs) as [E1 E2]%orb_false_iff. split; [by apply Z.eqb_neq|by apply str_eqb_neq].
Qed.
Lemma create_made gt id asked now bytes c media_id input w row t w' :
  create sha256_hex hash_password site_organization gt id asked now bytes c media_id input w = Ok (row, t, w') ->
  exists ph ex, create_share sha256_hex id now media_id ex (mint_token bytes) ph (Some (cl_id c)) w = Ok (row, t, w')
    /\ match ci_password input with None => ph = None | Some p => exists h, hash_password p = Some h /\ ph = Some h end
    /\ match ci_expires_in_days input with None => ex = None | Some d => ex = Some (asked + d * DAY_MICROS) /\ 1 <= d <= MAX_EXPIRY_DAYS end
    /\ exists f d, find_file_any_state media_id w = Some (f, d) /\ sf_deleted_at f = None.
Proof.
  unfold create. intros H. apply result_bind_ok in H as ([f d] & Hm & H). destruct (ensure_share_allowed _ _ _ _ _ _); [|done]. apply refuse_ok in H as [Ht H].
  apply result_bind_ok in H as (ex & He & H). apply result_bind_ok in H as (ph & Hp & H). exists ph, ex. split; [done|]. split; [|split].
  - destruct (ci_password input) as [p|]; [|by injection Hp as <-]. apply result_bind_ok in Hp as (h & Hh%ok_or_ok & [= <-]). by exists h.
  - destruct (ci_expires_in_days input) as [n|]; [|by injection He as <-]. apply result_bind_ok in He as (x & Hx & [= <-]). unfold expiry_from in Hx.
    apply refuse_ok in Hx as [L1 Hx]. apply refuse_ok in Hx as [L2 [= <-]]. split; [done|]. lia.
  - unfold media_site_in_scope in Hm. apply result_bind_ok in Hm as (m & Hf%ok_or_ok & Hm). apply result_bind_ok in Hm as (? & _ & Hm). apply result_bind_ok in Hm as (? & _ & [= ->]).
    exists f, d. split; [done|]. cbn [fst] in Ht. by destruct (sf_deleted_at f).
Qed.

Lemma admitted_row now token password w s f d : admitted sha256_hex verify_password now token password w = Ok (s, f, d) ->
  s ∈ lw_shares w /\ lk_token_hash s = sha256_hex token /\ lk_revoked_at s = None /\ expired now s = false /\ password_ok verify_password password s = true
  /\ find_file_any_state (lk_media_id s) w = Some (f, d) /\ sf_deleted_at f = None /\ ensure_scan_allows f (files_of w) = Ok tt.
Proof.
  unfold admitted. intros H. apply result_bind_ok in H as (s' & Hs%ok_or_ok & H). apply result_bind_ok in H as ([] & Hv & H).
  apply require_ok in H as [Hp H]. apply result_bind_ok in H as ([f' d'] & Hf%ok_or_ok & H). apply refuse_ok in H as [Ht H]. cbn [fst snd] in *.
  destruct (ensure_scan_allows f' (files_of w)) as [[]|] eqn:Eg; [|done]. injection H as -> -> ->.
  apply find_some in Hs as [Hs%list_elem_of_In Hh%str_eqb_eq]. unfold servable in Hv. apply refuse_ok in Hv as [Hr Hv]. apply refuse_ok in Hv as [He _].
  split_and!; try done; [by destruct (lk_revoked_at s)|by destruct (sf_deleted_at f)].
Qed.
Lemma opened_ok now token password w answer w' : opened now token password w = (Ok answer, w') ->
  exists s f d, admitted sha256_hex verify_password now token password w = Ok (s, f, d) /\ serve_shared header_ok f d = Ok answer
  /\ count_download (lk_id s) w = Ok w'.
Proof.
  unfold public_shared. destruct (admitted _ _ _ _ _ _) as [[[s f] d]|]; [|done]. destruct (serve_shared header_ok f d) as [a|] eqn:Es; [|done].
  destruct (count_download _ w) as [w1|] eqn:Ec; [|done]. intros [= -> ->]. by exists s, f, d.
Qed.
Lemma opened_err now token password w e w' : opened now token password w = (Err e, w') -> w' = w.
Proof.
  unfold public_shared. destruct (admitted _ _ _ _ _ _) as [[[s f] d]|]; [|by intros [= _ <-]]. destruct (serve_shared header_ok f d); [|by intros [= _ <-]].
  unfold count_download. destruct (existsb _ _); [by intros [= _ <-]|done].
Qed.
Lemma counted_rows id w w' : count_download id w = Ok w' -> lw_shares w' = update_where (is_share id) set_counted (lw_shares w).
Proof. unfold count_download. by intros [_ [= <-]]%refuse_ok. Qed.

Lemma revoked_later now reason s : lk_revoked_at s = None -> later [] s (set_revoked now reason s).
Proof. intros E. split; try done; cbn; [unfold served; cbn; lia|by rewrite E]. Qed.
(** A table whose rows some statement revokes. *)
Lemma revoking_keeps p now reason l s : s ∈ l -> (forall x, p x = true -> live_row x = true) ->
  exists s', s' ∈ update_where p (set_revoked now reason) l /\ later [] s s' /\ (p s = false -> s' = s).
Proof.
  intros Hs Hp. exists (if p s then set_revoked now reason s else s). split; [apply update_where_elem; by exists s|]. destruct (p s) eqn:E; [|split; [apply later_refl|done]].
  split; [|done]. apply revoked_later. apply Hp in E. unfold live_row in E. by destruct (lk_revoked_at s).
Qed.
Lemma revoked_rows c now media_id share_id reason w :
  let w' := snd (revoke site_organization c now media_id share_id reason w) in
  w' = w \/ w' = with_shares (update_where (fun s => is_share share_id s && live_row s) (set_revoked now (normalize_reason reason)) (lw_shares w)) w.
Proof. unfold revoke. destruct (result_bind _ _); [by right|by left]. Qed.
Lemma revoked_all_rows c now media_id w :
  let w' := snd (revoke_all site_organization c now media_id w) in
  w' = w \/ w' = with_shares (update_where (fun s => (lk_media_id s =? media_id) && live_row s) (set_revoked now s!"revoked for the whole file") (lw_shares w)) w.
Proof. unfold revoke_all. destruct (media_site_in_scope _ _ _ _); [by right|by left]. Qed.

Lemma step_links_ok e w : links_ok (lw_shares w) -> links_ok (lw_shares (snd (step e w))).
Proof.
  intros H. destruct e as [gt id asked now bytes c media_id input|c now media_id share_id reason|c now media_id|now token password|media_id d|e]; cbn [link_step snd].
  - destruct (create _ _ _ _ _ _ _ _ _ _ _ _) as [[[row t] w']|] eqn:E; [|done]. apply create_made in E as (ph & ex & E & _). apply create_share_ok in E as (_ & -> & -> & Hn).
    cbn. destruct H as [H1 H2]. split; rewrite fmap_app; apply NoDup_snoc; try done; intros (x & E & Hx)%list_elem_of_fmap; cbn in E; by destruct (Hn x Hx).
  - destruct (revoked_rows c now media_id share_id reason w) as [-> | ->]; [done|]. by apply links_ok_update.
  - destruct (revoked_all_rows c now media_id w) as [-> | ->]; [done|]. by apply links_ok_update.
  - destruct (opened now token password w) as [[a|e] w'] eqn:E; cbn [snd]; [|by rewrite (opened_err _ _ _ _ _ _ E)].
    apply opened_ok in E as (s & f & d & _ & _ & Ec). rewrite (counted_rows _ _ _ Ec). by apply links_ok_update.
  - done.
  - destruct e; cbn [cascade]; try done. by apply links_ok_filter.
Qed.
Lemma opened_later now token password w s : links_ok (lw_shares w) -> s ∈ lw_shares w ->
  let '(a, w') := opened now token password w in exists s', s' ∈ lw_shares w' /\ later [(token, a)] s s' /\ lk_revoked_at s' = lk_revoked_at s.
Proof.
  intros H Hs. destruct (opened now token password w) as [[a|e] w'] eqn:E.
  - apply opened_ok in E as (x & f & d & Ha & _ & Ec). apply admitted_row in Ha as (Hx & Hh & _). rewrite (counted_rows _ _ _ Ec).
    exists (if is_share (lk_id x) s then set_counted s else s). split; [apply update_where_elem; by exists s|].
    assert (is_served (lk_token_hash s) (token, Ok a) = is_share (lk_id x) s) as Es.
    { unfold is_served, is_share. cbn [fst snd]. rewrite andb_true_r, <- Hh. apply eq_true_iff_eq. rewrite str_eqb_eq, Z.eqb_eq. split; intros E.
      - by rewrite (NoDup_key_inj lk_token_hash _ s x (lo_hashes _ H) Hs Hx E).
      - by rewrite (NoDup_key_inj lk_id _ s x (lo_ids _ H) Hs Hx E). }
    destruct (is_share (lk_id x) s) eqn:Ei; (split; [split; try done|done]); unfold served; cbn [List.filter length]; rewrite Es; cbn; lia.
  - rewrite (opened_err _ _ _ _ _ _ E). exists s. split; [done|]. split; [|done]. split; try done. unfold served. cbn. unfold is_served. cbn. rewrite andb_false_r. cbn. lia.
Qed.
Lemma step_later e w s : links_ok (lw_shares w) -> s ∈ lw_shares w -> spares (lk_media_id s) e ->
  let '(o, w') := step e w in exists s', s' ∈ lw_shares w' /\ later (option_list o) s s' /\ (leaves s e -> lk_revoked_at s' = lk_revoked_at s).
Proof.
  intros H Hs Hp. destruct e as [gt id asked now bytes c media_id input|c now media_id share_id reason|c now media_id|now token password|media_id d|e]; cbn [link_step option_list].
  - exists s. split; [|split; [apply later_refl|done]]. destruct (create _ _ _ _ _ _ _ _ _ _ _ _) as [[[row t] w']|] eqn:E; [|done].
    apply create_made in E as (ph & ex & E & _). apply create_share_ok in E as (_ & -> & _). cbn. by apply elem_of_app; left.
  - destruct (revoked_rows c now media_id share_id reason w) as [-> | ->]; [exists s; split; [done|]; split; [apply later_refl|done]|].
    destruct (revoking_keeps (fun x => is_share share_id x && live_row x) now (normalize_reason reason) _ _ Hs) as (s' & Hi & Hl & Hn); [by intros x [_ ?]%andb_true_iff|].
    exists s'. split; [done|]. split; [done|]. cbn [leaves]. intros Hne. rewrite Hn; [done|]. unfold is_share. by rewrite (proj2 (Z.eqb_neq _ _)) by congruence.
  - destruct (revoked_all_rows c now media_id w) as [-> | ->]; [exists s; split; [done|]; split; [apply later_refl|done]|].
    destruct (revoking_keeps (fun x => (lk_media_id x =? media_id) && live_row x) now s!"revoked for the whole file" _ _ Hs) as (s' & Hi & Hl & Hn); [by intros x [_ ?]%andb_true_iff|].
    exists s'. split; [done|]. split; [done|]. cbn [leaves]. intros Hne. rewrite Hn; [done|]. by rewrite (proj2 (Z.eqb_neq _ _)) by congruence.
  - pose proof (opened_later now token password w s H Hs) as Ho. destruct (opened now token password w) as [a w']. destruct Ho as (s' & Hi & Hl & Hr). exists s'. cbn [option_list]. auto.
  - exists s. split; [done|]. split; [apply later_refl|done].
  - exists s. split; [|split; [apply later_refl|done]]. cbn [lw_shares]. destruct e; cbn [cascade]; try done. apply elem_of_filter_bool. split; [done|]. cbn in Hp. by rewrite negb_true_iff, Z.eqb_neq.
Qed.
Lemma run_later es w s : links_ok (lw_shares w) -> s ∈ lw_shares w -> Forall (spares (lk_media_id s)) es ->
  let '(os, w') := run es w in links_ok (lw_shares w') /\ exists s', s' ∈ lw_shares w' /\ later os s s' /\ (Forall (leaves s) es -> lk_revoked_at s' = lk_revoked_at s).
Proof.
  revert w s. induction es as [|e es IH]; intros w s H Hs Hf; [split; [done|]; exists s; split; [done|]; split; [apply later_refl|done]|].
  apply Forall_cons in Hf as [He Hf]. cbn [link_run]. pose proof (step_links_ok e w H) as H1. pose proof (step_later e w s H Hs He) as Hl.
  destruct (step e w) as [o w1]. cbn [snd] in H1. destruct Hl as (s1 & Hs1 & Hl1 & Hr1).
  specialize (IH w1 s1 H1 Hs1). rewrite (lt_media _ _ _ Hl1) in IH. specialize (IH Hf). destruct (run es w1) as [os w2]. destruct IH as (H2 & s2 & Hs2 & Hl2 & Hr2).
  split; [done|]. exists s2. split; [done|]. split; [by eapply later_trans|]. intros [Hq Hqs]%Forall_cons. rewrite Hr2; [by apply Hr1|].
  eapply Forall_impl; [exact Hqs|]. intros x. unfold leaves. by rewrite (lt_id _ _ _ Hl1), (lt_media _ _ _ Hl1).
Qed.

Definition shared_headers (d : file_details) : list (str * str) :=
  [(s!"content-type", sp_content_type (plan_of_type (fd_content_type d))); (s!"content-disposition", s!"attachment; filename=" ++ [QUOTE] ++ fd_filename d ++ [QUOTE]);
   (s!"cache-control", s!"no-store"); (s!"x-content-type-options", s!"nosniff")].
Lemma put_header_inv name value headers l : put_header header_ok name value headers = Ok l -> l = headers ++ [(name, value)].
Proof. unfold put_header. by intros [_ [= <-]]%require_ok. Qed.
Lemma serve_shared_ok f d answer : serve_shared header_ok f d = Ok answer ->
  read_object (sf_storage_key f) = Ok (rs_body answer) /\ rs_status answer = 200 /\ rs_headers answer = shared_headers d.
Proof.
  unfold serve_shared. intros H. apply result_bind_ok in H as (bytes & Hb & H). do 4 (apply result_bind_ok in H as (? & ->%put_header_inv & H)). injection H as <-.
  unfold from_store in Hb. destruct (read_object _); [|done]. by injection Hb as ->.
Qed.
Lemma serve_shared_serves f d bytes : (forall s, printable s = true -> header_ok s = true) -> forallb name_char (fd_filename d) = true ->
  read_object (sf_storage_key f) = Ok bytes -> serve_shared header_ok f d = Ok (Response 200 (shared_headers d) bytes).
Proof.
  intros Hlaw Hn Hb. unfold serve_shared. rewrite Hb. cbn [from_store result_bind]. destruct (plan_printable (fd_content_type d)) as [Hp _].
  assert (printable (fd_filename d) = true) as Hf by (apply name_printable, Hn).
  unfold put_header. rewrite !Hlaw by (done || by rewrite !printable_app, Hf). done.
Qed.

(** A link serves its file and nothing else: whoever gets bytes through a token holds the token of a row
    that is neither revoked nor past its end, and the password where it has one; the file exists, is not in
    the trash and passes the scan gate; the bytes are the stored object's, as an uncached, unsniffed
    attachment, and one download is counted on that row alone. *)
Theorem link_serves_only_what_it_names (now : Z) (token : str) (password : option str) (w w' : link_world) (answer : response)
  (H : opened now token password w = (Ok answer, w')) :
  exists s f d, s ∈ lw_shares w /\ lk_token_hash s = sha256_hex token /\ lk_revoked_at s = None
  /\ (forall t, lk_expires_at s = Some t -> now < t)
  /\ (forall h, lk_password_hash s = Some h -> verify_password (default [] password) h = true)
  /\ find_file_any_state (lk_media_id s) w = Some (f, d) /\ sf_deleted_at f = None /\ ensure_scan_allows f (files_of w) = Ok tt
  /\ read_object (sf_storage_key f) = Ok (rs_body answer) /\ rs_status answer = 200 /\ rs_headers answer = shared_headers d
  /\ w' = with_shares (update_where (is_share (lk_id s)) set_counted (lw_shares w)) w.
Proof.
  apply opened_ok in H as (s & f & d & Ha & Hs & Hc). apply admitted_row in Ha as (Hi & Hh & Hr & He & Hp & Hf & Ht & Hg). destruct (serve_shared_ok _ _ _ Hs) as (Hb & Hst & Hhd).
  exists s, f, d. split_and!; try done.
  - intros t Et. unfold expired in He. rewrite Et in He. apply Z.leb_gt in He. lia.
  - intros h Eh. unfold password_ok in Hp. by rewrite Eh in Hp.
  - unfold count_download in Hc. by apply refuse_ok in Hc as [_ [= <-]].
Qed.

Lemma find_own token l s : links_ok l -> s ∈ l -> lk_token_hash s = sha256_hex token -> List.find (has_token sha256_hex token) l = Some s.
Proof.
  intros H Hs Hh. apply find_unique; [done|unfold has_token, hash_token; rewrite Hh; apply str_eqb_refl|]. intros y Hy E%str_eqb_eq.
  apply (NoDup_key_inj lk_token_hash l y s (lo_hashes _ H) Hy Hs). by rewrite E.
Qed.
Lemma revoked_refuses now token password w s : links_ok (lw_shares w) -> s ∈ lw_shares w -> lk_token_hash s = sha256_hex token -> is_given (lk_revoked_at s) = true ->
  opened now token password w = (Err (LinkRefused LinkRevoked), w).
Proof.
  intros H Hs Hh Hr. unfold public_shared, admitted, find_by_token. rewrite (find_own token _ s H Hs Hh). cbn [ok_or result_bind]. unfold servable. by rewrite Hr.
Qed.

Lemma nothing_served es w s : links_ok (lw_shares w) -> s ∈ lw_shares w -> is_given (lk_revoked_at s) = true -> Forall (spares (lk_media_id s)) es ->
  served (lk_token_hash s) (fst (run es w)) = 0.
Proof.
  revert w s. induction es as [|e es IH]; intros w s Hw Hs Hr Hes; [done|]. apply Forall_cons in Hes as [He Hes]. cbn [link_run].
  pose proof (step_links_ok e w Hw) as H1. pose proof (step_later e w s Hw Hs He) as Hl.
  assert (served (lk_token_hash s) (option_list (fst (step e w))) = 0) as H0.
  { destruct e; try done. cbn [link_step]. destruct (opened now token password w) as [a w1] eqn:E. change (served (lk_token_hash s) [(token, a)] = 0). unfold served. cbn [List.filter]. unfold is_served. cbn [fst snd].
    destruct (str_eqb (lk_token_hash s) (sha256_hex token)) eqn:Eh; [|done]. apply str_eqb_eq in Eh. rewrite (revoked_refuses now token password w s Hw Hs Eh Hr) in E. by injection E as <- _. }
  destruct (step e w) as [o w1]. cbn [fst snd] in *. destruct Hl as (s1 & Hs1 & Hl & _).
  specialize (IH w1 s1 H1 Hs1). rewrite (lt_media _ _ _ Hl), (lt_hash _ _ _ Hl), (lt_revoked _ _ _ Hl Hr) in IH. specialize (IH Hr Hes).
  destruct (run es w1) as [os w2]. cbn [fst] in *. rewrite served_app. lia.
Qed.

(** C37. A revoked link never serves again: whatever is made, revoked, opened, described, scanned, trashed,
    restored or released after the revocation, as long as the row stands every opening with its token is
    refused as revoked, and its instant of revocation and its count stay as they were. *)
Theorem revoked_link_never_serves (es : list link_event) (w : link_world) (s : share)
  (Hw : links_ok (lw_shares w)) (Hs : s ∈ lw_shares w) (Hr : is_given (lk_revoked_at s) = true) (Hes : Forall (spares (lk_media_id s)) es) :
  let '(os, w') := run es w in
  (forall now token password, sha256_hex token = lk_token_hash s -> opened now token password w' = (Err (LinkRefused LinkRevoked), w'))
  /\ exists s', s' ∈ lw_shares w' /\ lk_id s' = lk_id s /\ lk_revoked_at s' = lk_revoked_at s /\ lk_download_count s' = lk_download_count s.
Proof.
  pose proof (run_later es w s Hw Hs Hes) as Hl. pose proof (nothing_served es w s Hw Hs Hr Hes) as Hz. destruct (run es w) as [os w']. cbn [fst] in Hz.
  destruct Hl as (Hw' & s' & Hs' & Hl & _). pose proof (lt_revoked _ _ _ Hl Hr) as Hr'. split.
  - intros now token password Ht. apply (revoked_refuses now token password w' s' Hw' Hs'); [by rewrite (lt_hash _ _ _ Hl)|by rewrite Hr'].
  - exists s'. split_and!; [done|apply (lt_id _ _ _ Hl)|done|]. rewrite (lt_count _ _ _ Hl), Hz. lia.
Qed.

(** The counter counts the bytes that were served: over any history in which its file is not purged, a
    link's count grows by exactly the number of openings of its token that answered with bytes. *)
Theorem counter_counts_what_was_served (es : list link_event) (w : link_world) (s : share)
  (Hw : links_ok (lw_shares w)) (Hs : s ∈ lw_shares w) (Hes : Forall (spares (lk_media_id s)) es) :
  let '(os, w') := run es w in
  forall s', s' ∈ lw_shares w' -> lk_id s' = lk_id s -> lk_download_count s' = lk_download_count s + served (lk_token_hash s) os.
Proof.
  pose proof (run_later es w s Hw Hs Hes) as Hl. destruct (run es w) as [os w']. destruct Hl as (Hw' & x & Hx & Hl & _). intros s' Hs' E.
  rewrite (NoDup_key_inj lk_id _ s' x (lo_ids _ Hw') Hs' Hx) by (by rewrite E, (lt_id _ _ _ Hl)). apply (lt_count _ _ _ Hl).
Qed.

(** A link that was handed out works: until its end, and unless it is revoked or its file purged, whatever
    else happens its token, with the password it was made with, gets the bytes of its file, whenever the
    file is out of the trash, passes the scan gate and is in the store. *)
Theorem handed_link_serves (gt : grant_tables) (id asked made now : Z) (bytes content : list Z) (c : caller) (media_id : Z) (input : create_input)
  (es : list link_event) (w w1 : link_world) (row : share) (token : str) (f : scan_file) (d : file_details)
  (Hlaw : forall s, printable s = true -> header_ok s = true)
  (Hargon : forall p h, hash_password p = Some h -> verify_password p h = true)
  (Hw : links_ok (lw_shares w))
  (Hmade : create sha256_hex hash_password site_organization gt id asked made bytes c media_id input w = Ok (row, token, w1))
  (Hes : Forall (fun e => spares media_id e /\ leaves row e) es)
  (Hend : forall n, ci_expires_in_days input = Some n -> now < asked + n * DAY_MICROS)
  (Hfile : find_file_any_state media_id (snd (run es w1)) = Some (f, d))
  (Htrash : sf_deleted_at f = None)
  (Hgate : ensure_scan_allows f (files_of (snd (run es w1))) = Ok tt)
  (Hname : forallb name_char (fd_filename d) = true)
  (Hstored : read_object (sf_storage_key f) = Ok content)
  (Hcount : served (sha256_hex token) (fst (run es w1)) < i32_max) :
  fst (opened now token (ci_password input) (snd (run es w1))) = Ok (Response 200 (shared_headers d) content).
Proof.
  pose proof (step_links_ok (LMade gt id asked made bytes c media_id input) w Hw) as Hw1. cbn [link_step snd] in Hw1. rewrite Hmade in Hw1.
  apply create_made in Hmade as (ph & ex & Hc & Hph & Hex & _). apply create_share_ok in Hc as (-> & -> & -> & _). set (row := Share _ _ _ _ _ _ _ _ _ _) in *.
  assert (row ∈ lw_shares (with_shares (lw_shares w ++ [row]) w)) as Hin by (apply elem_of_app; right; by apply list_elem_of_singleton).
  pose proof (run_later es _ row Hw1 Hin) as Hl. destruct (run es (with_shares (lw_shares w ++ [row]) w)) as [os w2]. cbn [fst snd] in *.
  apply Forall_and in Hes as [He1 He2]. destruct (Hl He1) as (Hw2 & s & Hs & [L1 L2 L3 L4 L5 L6 _] & Hr). specialize (Hr He2). cbn in L1, L2, L3, L4, L5, L6, Hr.
  assert (admitted sha256_hex verify_password now (mint_token bytes) (ci_password input) w2 = Ok (s, f, d)) as Ha.
  { unfold admitted, find_by_token. rewrite (find_own (mint_token bytes) _ s Hw2 Hs L3). cbn [ok_or result_bind]. unfold servable. rewrite Hr.
    assert (expired now s = false) as ->.
    { unfold expired. rewrite L5. destruct (ci_expires_in_days input) as [n|]; [|by subst ex]. destruct Hex as [-> _]. apply Z.leb_gt. specialize (Hend n eq_refl). lia. }
    cbn [is_given result_bind]. assert (password_ok verify_password (ci_password input) s = true) as ->.
    { unfold password_ok. rewrite L4. destruct (ci_password input) as [p|]; [|by subst ph]. destruct Hph as (h & Hh & ->). by apply Hargon. }
    rewrite L2, Hfile. cbn [ok_or result_bind fst snd]. rewrite Htrash. cbn [is_given]. by rewrite Hgate. }
  unfold public_shared. rewrite Ha, (serve_shared_serves f d content Hlaw Hname Hstored). unfold count_download.
  assert (existsb (fun x => is_share (lk_id s) x && (i32_max <=? lk_download_count x)) (lw_shares w2) = false) as ->; [|done].
  apply existsb_none. intros x Hx. destruct (is_share (lk_id s) x) eqn:E; [|done]. apply Z.eqb_eq in E. rewrite (NoDup_key_inj lk_id _ x s (lo_ids _ Hw2) Hx Hs E), L6.
  cbn [andb]. apply Z.leb_gt. lia.
Qed.
End LinkTheorems.

(** ** Inputs *)

Definition sample_sha (token : str) : str := c!"#" :: token.
Definition sample_hash (p : str) : option str := if (length p <? 8)%nat then None else Some p.
Definition sample_sites (site : Z) : option Z := Some 9.
Definition clean_clip : scan_file := ScanFile 7 1 s!"sites/a/clip.mp4" 12 s!"cd34" s!"clean" [] None (Some 5) None 0.
Definition clip_details : file_details := FileDetails s!"clip.mp4" s!"video/mp4" None.
Definition clip_world (f : scan_file) : link_world := LinkWorld (ScanState (ScanStore [f] [] [] [sample_policy]) []) (<[7 := clip_details]> ∅) [].
Definition no_grants : grant_tables := GrantTables [] [] [].
Definition ada : caller := Caller 4 (Some 9).
Definition for_two_days : create_input := CreateInput (Some 2) (Some s!"correct horse").
Definition sample_bytes : list Z := [10; 255].
Definition made : link_event := LMade no_grants 3 100 101 sample_bytes ada 7 for_two_days.
Definition sample_run (es : list link_event) (w : link_world) : list (str * result response share_error) * link_world :=
  @link_run sample_sha sample_hash str_eqb sample_sites (fs_reader sample_store) printable es w.
Definition opening (now : Z) : link_event := LOpened now s!"0aff" (Some s!"correct horse").
Definition linked : link_world := snd (sample_run [made] (clip_world clean_clip)).
Definition clip_link : share := Share 3 7 s!"#0aff" (Some s!"correct horse") (Some (100 + 2 * DAY_MICROS)) 0 (Some 4) 101 None [].
Definition closed : link_world := snd (sample_run [LRevoked ada 200 7 3 s!"leaked"] linked).
Definition closed_link : share := set_revoked 200 s!"leaked" clip_link.
Definition statuses (os : list (str * result response share_error)) : list Z := (fun o => match snd o with Ok a => rs_status a | Err e => error_status e end) <$> os.

(** Nothing revokes the links of a file that is trashed: restored, it is served through them again. *)
Example restored_file_revives_its_links :
  statuses (fst (sample_run [opening 150; LFile (ETrash 7 (Some 160)); opening 170; LFile (ETrash 7 None); opening 180] linked)) = [200; 403; 200].
Proof. by vm_compute. Qed.
(** A link is made over a file the scan gate holds; its token reaches nothing. *)
Example held_file_gets_a_link :
  let w := clip_world (set_verdict s!"flagged" s!"eicar" None (Some 5) clean_clip) in
  length (lw_shares (snd (sample_run [made] w))) = 1%nat /\ statuses (fst (sample_run [made; opening 150] w)) = [403].
Proof. by vm_compute. Qed.
(** A token that never existed is gone, like one that was revoked. *)
Example unknown_token_is_gone : statuses (fst (sample_run [LOpened 150 s!"0afe" None; LRevoked ada 160 7 3 []; opening 170] linked)) = [410; 410].
Proof. by vm_compute. Qed.
(** The instant of the end is past it, and a wrong password reads like none. *)
Example end_is_past_the_link :
  statuses (fst (sample_run [opening (100 + 2 * DAY_MICROS - 1); opening (100 + 2 * DAY_MICROS); LOpened 150 s!"0aff" (Some s!"wrong"); LOpened 150 s!"0aff" None] linked)) = [200; 410; 403; 403].
Proof. by vm_compute. Qed.

Lemma linked_rows : lw_shares linked = [clip_link].
Proof. by vm_compute. Qed.
Lemma closed_rows : lw_shares closed = [closed_link].
Proof. by vm_compute. Qed.
Lemma one_link_ok s : links_ok [s].
Proof. split; apply NoDup_singleton. Qed.

Lemma link_serves_only_what_it_names_witness :
  exists answer, fst (@public_shared sample_sha str_eqb (fs_reader sample_store) printable 150 s!"0aff" (Some s!"correct horse") linked) = Ok answer /\ rs_status answer = 200.
Proof.
  destruct (@public_shared sample_sha str_eqb (fs_reader sample_store) printable 150 s!"0aff" (Some s!"correct horse") linked) as [[a|e] w'] eqn:E; [|by vm_compute in E].
  destruct (@link_serves_only_what_it_names sample_sha str_eqb (fs_reader sample_store) printable 150 s!"0aff" (Some s!"correct horse") linked w' a E)
    as (s & f & d & _ & _ & _ & _ & _ & _ & _ & _ & _ & Hs & _). by exists a.
Defined.
Lemma revoked_link_never_serves_witness :
  exists s', s' ∈ lw_shares (snd (sample_run [opening 210; LFile (ETrash 7 None); made] closed)) /\ lk_revoked_at s' = Some 200 /\ lk_download_count s' = 0.
Proof.
  assert (closed_link ∈ lw_shares closed) as Hi by (rewrite closed_rows; apply list_elem_of_here).
  assert (links_ok (lw_shares closed)) as Ho by (rewrite closed_rows; apply one_link_ok).
  pose proof (@revoked_link_never_serves sample_sha sample_hash str_eqb sample_sites (fs_reader sample_store) printable
    [opening 210; LFile (ETrash 7 None); made] closed closed_link Ho Hi eq_refl ltac:(by repeat constructor)) as H.
  unfold sample_run. destruct (link_run _ _ _ _ _ _ closed) as [os w']. destruct H as (_ & s' & Hs & _ & Hr & Hc). by exists s'.
Defined.
Lemma counter_counts_what_was_served_witness :
  forallb (fun s => negb (lk_id s =? 3) || (lk_download_count s =? 2)) (lw_shares (snd (sample_run [opening 110; opening 120; LOpened 130 s!"0aff" None] linked))) = true.
Proof.
  assert (clip_link ∈ lw_shares linked) as Hi by (rewrite linked_rows; apply list_elem_of_here).
  assert (links_ok (lw_shares linked)) as Ho by (rewrite linked_rows; apply one_link_ok).
  pose proof (@counter_counts_what_was_served sample_sha sample_hash str_eqb sample_sites (fs_reader sample_store) printable
    [opening 110; opening 120; LOpened 130 s!"0aff" None] linked clip_link Ho Hi ltac:(by repeat constructor)) as H.
  assert (served sample_sha s!"#0aff" (fst (sample_run [opening 110; opening 120; LOpened 130 s!"0aff" None] linked)) = 2) as E by (vm_compute; reflexivity).
  unfold sample_run in *. destruct (link_run _ _ _ _ _ _ linked) as [os w']. apply forallb_elem. intros s Hs. destruct (lk_id s =? 3) eqn:Ei; [|done].
  apply Z.eqb_eq in Ei. rewrite (H s Hs Ei). cbn [fst] in E. change (lk_token_hash clip_link) with (s!"#0aff"). by rewrite E.
Defined.
Lemma handed_link_serves_witness :
  exists answer, fst (@public_shared sample_sha str_eqb (fs_reader sample_store) printable 190 s!"0aff" (Some s!"correct horse")
    (snd (sample_run [LFile (ETrash 7 (Some 160)); opening 170; LFile (ETrash 7 None); LRevoked ada 180 7 8 []] linked))) = Ok answer /\ rs_body answer = [0; 1; 2; 3; 4; 5; 6; 7; 8; 9; 10; 11].
Proof.
  eexists. split.
  - unshelve eapply (@handed_link_serves sample_sha sample_hash str_eqb sample_sites (fs_reader sample_store) printable no_grants 3 100 101 190 sample_bytes [0; 1; 2; 3; 4; 5; 6; 7; 8; 9; 10; 11] ada 7 for_two_days
      [LFile (ETrash 7 (Some 160)); opening 170; LFile (ETrash 7 None); LRevoked ada 180 7 8 []] (clip_world clean_clip) linked clip_link s!"0aff" clean_clip clip_details).
    + done.
    + intros p h. unfold sample_hash. destruct (_ <? _)%nat; [done|]. intros [= <-]. apply str_eqb_refl.
    + split; apply NoDup_nil_2.
    + vm_compute; reflexivity.
    + repeat constructor; cbn; lia.
    + intros n [= <-]. unfold DAY_MICROS. lia.
    + vm_compute; reflexivity.
    + done.
    + vm_compute; reflexivity.
    + vm_compute; reflexivity.
    + vm_compute; reflexivity.
    + vm_compute; reflexivity.
  - reflexivity.
Defined.
