(* ===== verification/MediaRetention.v ===== *)
(** * Media retention: [crates/media/src/retention.rs], [apps/api/src/routes/media_retention.rs], the
      history of [versions.rs], the trash and the purges of [browser.rs] and [media_files.rs], the tables
      of migrations 0026, 0038 and 0049

    The policies of a site, the passes that act on one, and every other statement that writes, trashes,
    restores, replaces or purges a file, over the rows and the objects of the bucket.  A pass is one
    step, whether it finishes or the database ends it after some of its statements; what may happen
    between its statements is shown at the end, with the other surprises.
    Objects are known by their keys, instants are microseconds, the hash of a derivative is given.
    Geometry, events, audit entries and the sentences of the screens are not modelled. *)

From S2P Require Import Prelude MediaArchive Uploads.

Definition MAX_POLICY_NAME_LENGTH : nat := 120.
Definition MIN_WINDOW_DAYS : Z := 1.
Definition DEFAULT_TRASH_DAYS : Z := 30.
Definition DEFAULT_PURGE_DAYS : Z := 90.
Definition DEFAULT_KEEP_VERSIONS_DAYS : Z := 365.
Definition MAX_WINDOW_DAYS : Z := 3650.
Definition RETENTION_SWEEP_BATCH : nat := 200.
Definition days (n : Z) : Z := n * 86400000000.

(** ** Rows *)

Record retention_policy := RetentionPolicy {
  rp_id : Z;
  rp_site_id : Z;
  rp_name : str;
  rp_folder_id : option Z;
  rp_keep_versions_days : Z;
  rp_trash_days : Z;
  rp_purge_after_days : Z;
  rp_legal_hold : bool;
  rp_enabled : bool;
  rp_created_at : Z;
  rp_updated_at : Z
}.
Record new_retention_policy := NewRetentionPolicy {
  nr_name : option str;
  nr_folder_id : option (option Z);
  nr_keep_versions_days : option Z;
  nr_trash_days : option Z;
  nr_purge_after_days : option Z;
  nr_legal_hold : option bool;
  nr_enabled : option bool
}.
Record library_file := LibraryFile {
  lf_id : Z;
  lf_site_id : Z;
  lf_folder_id : option Z;
  lf_filename : str;
  lf_storage_key : str;
  lf_size_bytes : Z;
  lf_legal_hold : bool;
  lf_deleted_at : option Z
}.
Record file_version := FileVersion {
  fv_id : Z;
  fv_media_id : Z;
  fv_version : Z;
  fv_storage_key : str;
  fv_size_bytes : Z;
  fv_content_type : str;
  fv_created_at : Z
}.
#[export] Instance library_file_eq_dec : EqDecision library_file.
Proof. solve_decision. Defined.
#[export] Instance file_version_eq_dec : EqDecision file_version.
Proof. solve_decision. Defined.
Record reference := Reference { rf_id : Z; rf_media_id : Z; rf_resource_kind : str; rf_resource_id : str; rf_field : str; rf_created_at : Z }.
Record derivative := Derivative { dr_media_id : Z; dr_cache_key : str; dr_storage_key : str }.
Record run_totals := RunTotals { rt_versions_removed : Z; rt_versions_bytes : Z; rt_purged : Z; rt_purged_bytes : Z; rt_refused : Z; rt_held_back : Z }.
Record retention_run := RetentionRun {
  ru_id : Z;
  ru_site_id : option Z;
  ru_policy_id : option Z;
  ru_kind : str;
  ru_totals : run_totals;
  ru_error : str;
  ru_actor_user_id : option Z;
  ru_started_at : Z;
  ru_finished_at : option Z
}.
Record library := Library {
  lb_files : list library_file;
  lb_versions : list file_version;
  lb_references : list reference;
  lb_derivatives : list derivative;
  lb_policies : list retention_policy;
  lb_runs : list retention_run;
  lb_pages : list str;
  lb_objects : gset str
}.
Definition with_files (l : list library_file) (b : library) : library := Library l (lb_versions b) (lb_references b) (lb_derivatives b) (lb_policies b) (lb_runs b) (lb_pages b) (lb_objects b).
Definition with_versions (l : list file_version) (b : library) : library := Library (lb_files b) l (lb_references b) (lb_derivatives b) (lb_policies b) (lb_runs b) (lb_pages b) (lb_objects b).
Definition with_references (l : list reference) (b : library) : library := Library (lb_files b) (lb_versions b) l (lb_derivatives b) (lb_policies b) (lb_runs b) (lb_pages b) (lb_objects b).
Definition with_derivatives (l : list derivative) (b : library) : library := Library (lb_files b) (lb_versions b) (lb_references b) l (lb_policies b) (lb_runs b) (lb_pages b) (lb_objects b).
Definition with_policies (l : list retention_policy) (b : library) : library := Library (lb_files b) (lb_versions b) (lb_references b) (lb_derivatives b) l (lb_runs b) (lb_pages b) (lb_objects b).
Definition with_runs (l : list retention_run) (b : library) : library := Library (lb_files b) (lb_versions b) (lb_references b) (lb_derivatives b) (lb_policies b) l (lb_pages b) (lb_objects b).
Definition with_pages (l : list str) (b : library) : library := Library (lb_files b) (lb_versions b) (lb_references b) (lb_derivatives b) (lb_policies b) (lb_runs b) l (lb_objects b).
Definition with_objects (o : gset str) (b : library) : library := Library (lb_files b) (lb_versions b) (lb_references b) (lb_derivatives b) (lb_policies b) (lb_runs b) (lb_pages b) o.

Inductive retention_error := RetentionSetting (field : str) | PolicyNameTaken (name : str) | RetentionPolicyNotFound | FileNotFound | FileNotTrashed | HoldReasonRequired | VersionNotFound | EmptyFile | PayloadTooLarge | ObjectMissing | ObjectRefused | RetentionDatabase.
#[export] Instance retention_error_eq_dec : EqDecision retention_error.
Proof. solve_decision. Defined.

(** ** Policies *)

Definition STANDARD : str := s!"Standard retention".
Definition by_scope_and_name (a b : retention_policy) : comparison :=
  then_with (Z.compare (Z.b2z (is_given (rp_folder_id a))) (Z.b2z (is_given (rp_folder_id b)))) (str_cmp (rp_name a) (rp_name b)).
Definition list_policies (site_id : Z) (b : library) : list retention_policy :=
  sort_by by_scope_and_name (List.filter (fun p => rp_site_id p =? site_id) (lb_policies b)).
Definition enabled_policies (site_id : Z) (b : library) : list retention_policy :=
  sort_by by_scope_and_name (List.filter (fun p => (rp_site_id p =? site_id) && rp_enabled p) (lb_policies b)).
Definition is_policy (site_id policy_id : Z) (p : retention_policy) : bool := (rp_id p =? policy_id) && (rp_site_id p =? site_id).
Definition find_policy (site_id policy_id : Z) (b : library) : option retention_policy := List.find (is_policy site_id policy_id) (lb_policies b).
Definition by_age (a b : retention_policy) : comparison := Z.compare (rp_created_at a) (rp_created_at b).
Definition is_named (site_id : Z) (name : str) (p : retention_policy) : bool := (rp_site_id p =? site_id) && str_eqb (rp_name p) name.
(** A new site starts with the standard rule. *)
Definition standard_policy (id now site_id : Z) : retention_policy :=
  RetentionPolicy id site_id STANDARD None DEFAULT_KEEP_VERSIONS_DAYS DEFAULT_TRASH_DAYS DEFAULT_PURGE_DAYS false true now now.
Definition seed_policy (id now site_id : Z) (b : library) : library :=
  if existsb (is_named site_id STANDARD) (lb_policies b) then b else with_policies (lb_policies b ++ [standard_policy id now site_id]) b.
(** The rule of the whole site; a site that has none gets the standard one, or whichever rule has its name. *)
Definition site_policy (id now site_id : Z) (b : library) : retention_policy * library :=
  match head (sort_by by_age (List.filter (fun p => (rp_site_id p =? site_id) && negb (is_given (rp_folder_id p))) (lb_policies b))) with
  | Some p => (p, b)
  | None =>
      match List.find (is_named site_id STANDARD) (lb_policies b) with
      | Some p => (p, b)
      | None =>
          let p := standard_policy id now site_id in
          (p, with_policies (lb_policies b ++ [p]) b)
      end
  end.

Definition window_field (field : str) (v : option Z) : result unit retention_error :=
  match v with
  | Some n => require (MIN_WINDOW_DAYS <=? n) && (n <=? MAX_WINDOW_DAYS) else RetentionSetting field in Ok tt
  | None => Ok tt
  end.
Definition validate_new (new : new_retention_policy) : result new_retention_policy retention_error :=
  refuse match nr_name new with Some name => str_eqb (trim name) [] || (MAX_POLICY_NAME_LENGTH <? length (trim name))%nat | None => false end with RetentionSetting s!"name" in
  let? _ := window_field s!"keep_versions_days" (nr_keep_versions_days new) in
  let? _ := window_field s!"trash_days" (nr_trash_days new) in
  let? _ := window_field s!"purge_after_days" (nr_purge_after_days new) in
  refuse match nr_purge_after_days new with Some purge => purge <? default DEFAULT_TRASH_DAYS (nr_trash_days new) | None => false end with RetentionSetting s!"purge_after_days" in
  Ok (NewRetentionPolicy (trim <$> nr_name new) (nr_folder_id new) (nr_keep_versions_days new) (nr_trash_days new) (nr_purge_after_days new) (nr_legal_hold new) (nr_enabled new)).

(** The constraints of a row of [media_retention_policies]; [folder_exists] is the reference. *)
Definition policy_row_ok (folder_exists : Z -> bool) (p : retention_policy) : bool :=
  (0 <? length (btrim (rp_name p)))%nat && (length (rp_name p) <=? 120)%nat
  && (1 <=? rp_keep_versions_days p) && (1 <=? rp_trash_days p) && (1 <=? rp_purge_after_days p) && (rp_trash_days p <=? rp_purge_after_days p)
  && match rp_folder_id p with Some f => folder_exists f | None => true end.
Definition name_taken (p : retention_policy) (l : list retention_policy) : bool := existsb (fun x => is_named (rp_site_id p) (rp_name p) x && negb (rp_id x =? rp_id p)) l.
Definition create_policy (folder_exists : Z -> bool) (id now site_id : Z) (new : new_retention_policy) (b : library) : result (retention_policy * library) retention_error :=
  let? name := ok_or (nr_name new) (RetentionSetting s!"name") in
  let? new := validate_new new in
  let p := RetentionPolicy id site_id name (default None (nr_folder_id new)) (default DEFAULT_KEEP_VERSIONS_DAYS (nr_keep_versions_days new))
             (default DEFAULT_TRASH_DAYS (nr_trash_days new)) (default DEFAULT_PURGE_DAYS (nr_purge_after_days new)) (default false (nr_legal_hold new)) (default true (nr_enabled new)) now now in
  require policy_row_ok folder_exists p else RetentionDatabase in
  refuse name_taken p (lb_policies b) with PolicyNameTaken name in
  Ok (p, with_policies (lb_policies b ++ [p]) b).
(** The route validates before it creates. *)
Definition create (folder_exists : Z -> bool) (id now site_id : Z) (new : new_retention_policy) (b : library) : result (retention_policy * library) retention_error :=
  let? new := validate_new new in create_policy folder_exists id now site_id new b.

Definition rewritten (now : Z) (new : new_retention_policy) (p : retention_policy) : retention_policy :=
  RetentionPolicy (rp_id p) (rp_site_id p) (default (rp_name p) (nr_name new)) (default (rp_folder_id p) (nr_folder_id new))
    (default (rp_keep_versions_days p) (nr_keep_versions_days new)) (default (rp_trash_days p) (nr_trash_days new)) (default (rp_purge_after_days p) (nr_purge_after_days new))
    (default (rp_legal_hold p) (nr_legal_hold new)) (default (rp_enabled p) (nr_enabled new)) (rp_created_at p) now.
Definition changed_fields (new : new_retention_policy) (before after : retention_policy) : list str :=
  (if is_given (nr_name new) && negb (str_eqb (rp_name before) (rp_name after)) then [s!"name"] else [])
  ++ (if is_given (nr_folder_id new) && negb (bool_decide (rp_folder_id before = rp_folder_id after)) then [s!"folder_id"] else [])
  ++ (if is_given (nr_keep_versions_days new) && negb (rp_keep_versions_days before =? rp_keep_versions_days after) then [s!"keep_versions_days"] else [])
  ++ (if is_given (nr_trash_days new) && negb (rp_trash_days before =? rp_trash_days after) then [s!"trash_days"] else [])
  ++ (if is_given (nr_purge_after_days new) && negb (rp_purge_after_days before =? rp_purge_after_days after) then [s!"purge_after_days"] else [])
  ++ (if is_given (nr_legal_hold new) && negb (bool_decide (rp_legal_hold before = rp_legal_hold after)) then [s!"legal_hold"] else [])
  ++ (if is_given (nr_enabled new) && negb (bool_decide (rp_enabled before = rp_enabled after)) then [s!"enabled"] else []).
Definition update_policy (folder_exists : Z -> bool) (now site_id policy_id : Z) (new : new_retention_policy) (b : library) :
  result (retention_policy * list str * library) retention_error :=
  let? before := ok_or (find_policy site_id policy_id b) RetentionPolicyNotFound in
  let? new := validate_new new in
  refuse default (rp_purge_after_days before) (nr_purge_after_days new) <? default (rp_trash_days before) (nr_trash_days new) with RetentionSetting s!"purge_after_days" in
  let after := rewritten now new before in
  require policy_row_ok folder_exists after else RetentionDatabase in
  refuse name_taken after (lb_policies b) with PolicyNameTaken (default [] (nr_name new)) in
  Ok (after, changed_fields new before after, with_policies (update_where (is_policy site_id policy_id) (rewritten now new) (lb_policies b)) b).
Definition delete_policy (site_id policy_id : Z) (b : library) : result library retention_error :=
  require existsb (is_policy site_id policy_id) (lb_policies b) else RetentionPolicyNotFound in
  Ok (with_policies (List.filter (fun p => negb (is_policy site_id policy_id p)) (lb_policies b)) b).

Record window := Window { wi_keep_versions_days : Z; wi_trash_days : Z; wi_purge_after_days : Z }.
Definition policy_window (p : retention_policy) : window := Window (rp_keep_versions_days p) (rp_trash_days p) (rp_purge_after_days p).
Definition purge_at (w : window) (deleted_at : Z) : Z := deleted_at + days (wi_purge_after_days w).
Definition restore_until (w : window) (deleted_at : Z) : Z := deleted_at + days (wi_trash_days w).
(** The narrowest rule that covers a file; no sweep asks it. *)
Definition governing_window (id now site_id : Z) (folder_id : option Z) (b : library) : window * library :=
  match folder_id ≫= (fun f => List.find (fun p => (rp_site_id p =? site_id) && bool_decide (rp_folder_id p = Some f) && rp_enabled p) (lb_policies b)) with
  | Some p => (policy_window p, b)
  | None => let '(p, b) := site_policy id now site_id b in (policy_window p, b)
  end.

(** ** Files, their history and their trash *)

Definition is_media (id : Z) (f : library_file) : bool := lf_id f =? id.
Definition find_file_any_state (id : Z) (b : library) : option library_file := List.find (is_media id) (lb_files b).
Definition among_ids (ids : list Z) (id : Z) : bool := existsb (Z.eqb id) ids.
Definition set_deleted (at_ : option Z) (f : library_file) : library_file :=
  LibraryFile (lf_id f) (lf_site_id f) (lf_folder_id f) (lf_filename f) (lf_storage_key f) (lf_size_bytes f) (lf_legal_hold f) at_.
Definition is_trashed (f : library_file) : bool := is_given (lf_deleted_at f).
Definition trash_files (now : Z) (ids : list Z) (b : library) : library :=
  with_files (update_where (fun f => among_ids ids (lf_id f) && negb (is_trashed f)) (set_deleted (Some now)) (lb_files b)) b.
Definition restore_files (ids : list Z) (b : library) : library :=
  with_files (update_where (fun f => among_ids ids (lf_id f) && is_trashed f) (set_deleted None) (lb_files b)) b.
(** The columns of a patch that this model has. *)
Definition patched (filename : option str) (folder_id : option (option Z)) (f : library_file) : library_file :=
  LibraryFile (lf_id f) (lf_site_id f) (default (lf_folder_id f) folder_id) (default (lf_filename f) filename) (lf_storage_key f) (lf_size_bytes f) (lf_legal_hold f) (lf_deleted_at f).
Definition update_file (id : Z) (filename : option str) (folder_id : option (option Z)) (b : library) : library :=
  with_files (update_where (fun f => is_media id f && negb (is_trashed f)) (patched filename folder_id) (lb_files b)) b.
Definition with_hold (hold : bool) (f : library_file) : library_file :=
  LibraryFile (lf_id f) (lf_site_id f) (lf_folder_id f) (lf_filename f) (lf_storage_key f) (lf_size_bytes f) hold (lf_deleted_at f).
Definition set_hold (site_id media_id : Z) (hold : bool) (b : library) : bool * library :=
  let p f := is_media media_id f && (lf_site_id f =? site_id) && negb (Bool.eqb (lf_legal_hold f) hold) in
  (existsb p (lb_files b), with_files (update_where p (with_hold hold) (lb_files b)) b).
(** The route asks for a reason. *)
Definition set_file_hold (media_id : Z) (hold : bool) (reason : str) (b : library) : result (bool * library) retention_error :=
  let? f := ok_or (find_file_any_state media_id b) FileNotFound in
  refuse str_eqb (trim reason) [] with HoldReasonRequired in
  Ok (set_hold (lf_site_id f) media_id hold b).

Definition of_media (id : Z) (v : file_version) : bool := fv_media_id v =? id.
(** [max(version)] of a file, at least one; [next_version] counts from none. *)
Definition newest_number (id : Z) (b : library) : Z := foldr (fun v n => Z.max (fv_version v) n) 0 (List.filter (of_media id) (lb_versions b)).
Definition next_version (id : Z) (b : library) : Z := newest_number id b + 1.
Definition set_current (key : str) (size : Z) (f : library_file) : library_file :=
  LibraryFile (lf_id f) (lf_site_id f) (lf_folder_id f) (lf_filename f) key size (lf_legal_hold f) (lf_deleted_at f).
Definition append_version (vid now media_id : Z) (key content_type : str) (size : Z) (b : library) : library :=
  let v := FileVersion vid media_id (next_version media_id b) key size content_type now in
  with_files (update_where (is_media media_id) (set_current key size) (lb_files b)) (with_versions (lb_versions b ++ [v]) b).
Definition put_object (key : str) (b : library) : library := with_objects ({[ key ]} ∪ lb_objects b) b.

(** *** What writes bytes

    The name of an object is computed as the code does; a random id is an argument. *)

Definition version_extension (filename : str) : option str :=
  match rsplit_once c!"." filename with
  | Some (_, extension) =>
      if str_eqb extension [] || (8 <? utf8_len extension)%nat || negb (forallb is_ascii_alphanumeric extension) then None
      else Some (to_ascii_lowercase extension)
  | None => None
  end.
Definition EXTENSION_OF_TYPE : list (str * str) :=
  [(s!"image/png", s!"png"); (s!"image/jpeg", s!"jpg"); (s!"image/gif", s!"gif"); (s!"image/webp", s!"webp"); (s!"image/avif", s!"avif");
   (s!"video/mp4", s!"mp4"); (s!"video/webm", s!"webm"); (s!"audio/mpeg", s!"mp3"); (s!"audio/ogg", s!"ogg"); (s!"audio/wav", s!"wav");
   (s!"application/pdf", s!"pdf"); (s!"text/plain", s!"txt")].
Definition extension_of_type (content_type : str) : option str := snd <$> List.find (fun p => str_eqb (fst p) content_type) EXTENSION_OF_TYPE.
Definition MAX_UPLOAD_BYTES : Z := 26214400.

Section Keys.
Context `{U : Uuids}.
Definition version_key (site_id media_id version : Z) (filename content_type : str) : str :=
  let base := s!"sites/" ++ uuid_text site_id ++ s!"/" ++ uuid_text media_id ++ s!"/v" ++ show_Z version in
  match match version_extension filename with Some e => Some e | None => extension_of_type content_type end with
  | Some e => base ++ s!"." ++ e
  | None => base
  end.
(** An upload: the object, the row, its first version.  The key is made of an id of its own. *)
Definition upload_file (key_id vid now : Z) (content_type : str) (f : library_file) (b : library) : library :=
  let key := Uploads.object_key (lf_site_id f) key_id (lf_filename f) in
  let f := set_current key (lf_size_bytes f) f in
  put_object key
    (with_files (lb_files b ++ [f]) (with_versions (lb_versions b ++ [FileVersion vid (lf_id f) 1 key (lf_size_bytes f) content_type now]) b)).
Definition find_file (id : Z) (b : library) : option library_file := List.find (fun f => is_media id f && negb (is_trashed f)) (lb_files b).
Definition create_version (vid now id : Z) (filename content_type : str) (size : Z) (b : library) : result library retention_error :=
  let? f := ok_or (find_file id b) FileNotFound in
  refuse size =? 0 with EmptyFile in
  refuse MAX_UPLOAD_BYTES <? size with PayloadTooLarge in
  let key := version_key (lf_site_id f) id (next_version id b) filename content_type in
  Ok (append_version vid now id key content_type size (put_object key b)).
Definition find_version (id number : Z) (b : library) : option file_version := List.find (fun v => of_media id v && (fv_version v =? number)) (lb_versions b).
Definition restore_version (vid now id number : Z) (b : library) : result library retention_error :=
  let? f := ok_or (find_file id b) FileNotFound in
  let? wanted := ok_or (find_version id number b) VersionNotFound in
  let key := version_key (lf_site_id f) id (next_version id b) (lf_filename f) (fv_content_type wanted) in
  require bool_decide (fv_storage_key wanted ∈ lb_objects b) else ObjectMissing in
  Ok (append_version vid now id key (fv_content_type wanted) (fv_size_bytes wanted) (put_object key b)).
(** What a preset made of a file; the cache key is a hash of both. *)
Definition derivative_key (site_id : Z) (cache_key extension : str) : str :=
  s!"sites/" ++ uuid_text site_id ++ s!"/derivatives/" ++ cache_key ++ s!"." ++ extension.
Definition insert_derivative (site_id media_id : Z) (cache_key extension : str) (b : library) : library :=
  let key := derivative_key site_id cache_key extension in
  put_object key
    (if existsb (fun d => str_eqb (dr_cache_key d) cache_key) (lb_derivatives b) then b
     else with_derivatives (lb_derivatives b ++ [Derivative media_id cache_key key]) b).
End Keys.

(** Every object a set of files owns. *)
Definition owned_object_keys (ids : list Z) (b : library) : list str :=
  dedup_by str_eqb (sort_by str_cmp
    ((lf_storage_key <$> List.filter (fun f => among_ids ids (lf_id f)) (lb_files b))
     ++ (fv_storage_key <$> List.filter (fun v => among_ids ids (fv_media_id v)) (lb_versions b))
     ++ (dr_storage_key <$> List.filter (fun d => among_ids ids (dr_media_id d)) (lb_derivatives b)))).
(** [delete from media]: versions, derivatives and references go with the row. *)
Definition delete_files (p : library_file -> bool) (b : library) : library :=
  let gone := lf_id <$> List.filter p (lb_files b) in
  with_files (List.filter (fun f => negb (p f)) (lb_files b))
    (with_versions (List.filter (fun v => negb (among_ids gone (fv_media_id v))) (lb_versions b))
       (with_derivatives (List.filter (fun d => negb (among_ids gone (dr_media_id d))) (lb_derivatives b))
          (with_references (List.filter (fun r => negb (among_ids gone (rf_media_id r))) (lb_references b)) b))).
Definition purge_files (ids : list Z) (b : library) : Z * library :=
  let p f := among_ids ids (lf_id f) && is_trashed f in
  (Z.of_nat (length (List.filter p (lb_files b))), delete_files p b).

(** The bucket, which may refuse a key. *)
Definition delete_objects (refuses : str -> bool) (keys : list str) (b : library) : library :=
  with_objects (lb_objects b ∖ list_to_set (List.filter (fun k => negb (refuses k)) keys)) b.
(** Up to the first refusal. *)
Fixpoint delete_until (refuses : str -> bool) (keys : list str) (b : library) : result unit retention_error * library :=
  match keys with
  | [] => (Ok tt, b)
  | k :: keys => if refuses k then (Err ObjectRefused, b) else delete_until refuses keys (with_objects (lb_objects b ∖ {[ k ]}) b)
  end.

(** ** The purges of a person *)

Definition purge_file (refuses : str -> bool) (id : Z) (b : library) : result unit retention_error * library :=
  match find_file_any_state id b with
  | None => (Err FileNotFound, b)
  | Some f =>
      if negb (is_trashed f) then (Err FileNotTrashed, b)
      else
        match delete_until refuses (owned_object_keys [id] b) b with
        | (Err e, b) => (Err e, b)
        | (Ok _, b) => let '(n, b) := purge_files [id] b in (if n =? 0 then Err FileNotFound else Ok tt, b)
        end
  end.
Definition by_deletion (a b : library_file) : comparison := then_with (Z.compare (default 0 (lf_deleted_at a)) (default 0 (lf_deleted_at b))) (Z.compare (lf_id a) (lf_id b)).
Definition trashed_ids (site_id : Z) (b : library) : list Z :=
  lf_id <$> sort_by by_deletion (List.filter (fun f => (lf_site_id f =? site_id) && is_trashed f) (lb_files b)).
Definition purge_selection (refuses : str -> bool) (ids : list Z) (b : library) : Z * library :=
  purge_files ids (delete_objects refuses (owned_object_keys ids b) b).
Definition empty_trash (refuses : str -> bool) (site_id : Z) (b : library) : Z * library := purge_selection refuses (trashed_ids site_id b) b.
(** The purge of a selection: the files of the site, trashed or not. *)
Definition bulk_purge (refuses : str -> bool) (site_id : Z) (ids : list Z) (b : library) : Z * library :=
  let eligible := List.filter (fun id => match find_file_any_state id b with Some f => lf_site_id f =? site_id | None => false end) ids in
  purge_selection refuses eligible b.

(** ** The sweeps *)

Definition file_of (v : file_version) (b : library) : option library_file := find_file_any_state (fv_media_id v) b.
Definition superseded (site_id cutoff : Z) (hold : bool) (b : library) (v : file_version) : bool :=
  match file_of v b with
  | Some f => (lf_site_id f =? site_id) && Bool.eqb (lf_legal_hold f) hold && negb (is_trashed f) && (fv_version v <? newest_number (fv_media_id v) b) && (fv_created_at v <? cutoff)
  | None => false
  end.
Definition by_creation (a b : file_version) : comparison := Z.compare (fv_created_at a) (fv_created_at b).
Definition claim_versions (now site_id : Z) (w : window) (batch : nat) (b : library) : list file_version :=
  take batch (sort_by by_creation (List.filter (superseded site_id (now - days (wi_keep_versions_days w)) false b) (lb_versions b))).
Definition delete_versions (ids : list Z) (b : library) : library := with_versions (List.filter (fun v => negb (among_ids ids (fv_id v))) (lb_versions b)) b.
Record version_sweep := VersionSweep { vs_removed : Z; vs_bytes : Z; vs_held_back : Z; vs_storage_keys : list str }.
Definition sum_Z {A} (f : A -> Z) (l : list A) : Z := foldr (fun x n => f x + n) 0 l.
Definition sweep_versions (now site_id : Z) (w : window) (batch : nat) (b : library) : version_sweep * library :=
  let claimed := claim_versions now site_id w batch b in
  let held := Z.of_nat (length (List.filter (superseded site_id (now - days (wi_keep_versions_days w)) true b) (lb_versions b))) in
  (VersionSweep (Z.of_nat (length claimed)) (sum_Z fv_size_bytes claimed) held (fv_storage_key <$> claimed), delete_versions (fv_id <$> claimed) b).

Definition past (now site_id : Z) (w : window) (f : library_file) : bool :=
  (lf_site_id f =? site_id) && match lf_deleted_at f with Some t => t <? now - days (wi_purge_after_days w) | None => false end.
Definition is_referenced (id : Z) (b : library) : bool := existsb (fun r => rf_media_id r =? id) (lb_references b).
Record purge_refusal := PurgeRefusal { pr_media_id : Z; pr_filename : str; pr_resource_kind : str; pr_resource_id : str; pr_field : str }.
(** The rows of the join in the order of the files; that of one file's references is the table's. *)
Definition refusals_of (b : library) (f : library_file) : list purge_refusal :=
  (fun r => PurgeRefusal (lf_id f) (lf_filename f) (rf_resource_kind r) (rf_resource_id r) (rf_field r))
    <$> List.filter (fun r => (rf_media_id r =? lf_id f) && negb (str_eqb (rf_resource_kind r) [])) (lb_references b).
Definition purge_candidates (now site_id : Z) (w : window) (batch : nat) (b : library) : list purge_refusal * Z * Z :=
  let refused := take batch (concat (refusals_of b <$> sort_by by_deletion (List.filter (fun f => past now site_id w f && negb (lf_legal_hold f)) (lb_files b)))) in
  (refused, Z.of_nat (length (remove_dups (pr_media_id <$> refused))), Z.of_nat (length (List.filter (fun f => past now site_id w f && lf_legal_hold f) (lb_files b)))).
Definition by_trashing (a b : library_file) : comparison := Z.compare (default 0 (lf_deleted_at a)) (default 0 (lf_deleted_at b)).
Definition claim_purge (now site_id : Z) (w : window) (batch : nat) (b : library) : list library_file :=
  take batch (sort_by by_trashing (List.filter (fun f => past now site_id w f && negb (lf_legal_hold f) && negb (is_referenced (lf_id f) b)) (lb_files b))).
Record purge_outcome := PurgeOutcome { po_purged : Z; po_purged_bytes : Z; po_storage_keys : list str }.
Definition purge_eligible (now site_id : Z) (w : window) (batch : nat) (b : library) : purge_outcome * library :=
  let claimed := claim_purge now site_id w batch b in
  let ids := lf_id <$> claimed in
  let keys := owned_object_keys ids b in
  let '(purged, b) := purge_files ids b in
  (PurgeOutcome purged (sum_Z lf_size_bytes claimed) keys, b).
Definition past_restore_window (now site_id : Z) (w : window) (b : library) : Z * Z :=
  let l := List.filter (fun f => (lf_site_id f =? site_id) && match lf_deleted_at f with Some t => t <? now - days (wi_trash_days w) | None => false end) (lb_files b) in
  (Z.of_nat (length l), sum_Z lf_size_bytes l).
Definition trash_summary (site_id : Z) (b : library) : Z * Z :=
  let l := List.filter (fun f => (lf_site_id f =? site_id) && is_trashed f) (lb_files b) in (Z.of_nat (length l), sum_Z lf_size_bytes l).

(** *** The run log *)

Definition no_totals : run_totals := RunTotals 0 0 0 0 0 0.
Definition absorb (v : version_sweep) (p : purge_outcome) (t : run_totals) : run_totals :=
  RunTotals (rt_versions_removed t + vs_removed v) (rt_versions_bytes t + vs_bytes v) (rt_purged t + po_purged p) (rt_purged_bytes t + po_purged_bytes p) (rt_refused t)
    (rt_held_back t + vs_held_back v).
Definition begin_run (id now : Z) (site_id policy_id : option Z) (kind : str) (actor : option Z) (b : library) : library :=
  with_runs (lb_runs b ++ [RetentionRun id site_id policy_id kind no_totals [] actor now None]) b.
Definition finish_run (now id : Z) (t : run_totals) (error : str) (b : library) : library :=
  with_runs (update_where (fun r => ru_id r =? id)
    (fun r => RetentionRun (ru_id r) (ru_site_id r) (ru_policy_id r) (ru_kind r) t error (ru_actor_user_id r) (ru_started_at r) (Some now)) (lb_runs b)) b.
Definition newest_run (a b : retention_run) : comparison := then_with (Z.compare (ru_started_at b) (ru_started_at a)) (Z.compare (ru_id b) (ru_id a)).
Definition list_runs (site_id : Z) (limit : nat) (b : library) : list retention_run :=
  take limit (sort_by newest_run (List.filter (fun r => bool_decide (ru_site_id r = Some site_id)) (lb_runs b))).
Definition last_run (site_id : Z) (b : library) : option retention_run :=
  head (sort_by newest_run (List.filter (fun r => bool_decide (ru_site_id r = Some site_id) && is_given (ru_finished_at r)) (lb_runs b))).
Definition bytes_reclaimed (t : run_totals) : Z := rt_versions_bytes t + rt_purged_bytes t.

(** One pass over a site, whoever asks for it. *)
Definition run_once (refuses : str -> bool) (policy_id run_id now site_id : Z) (actor : option Z) (b : library) : run_totals * list purge_refusal * library :=
  let '(rule, b) := site_policy policy_id now site_id b in
  let w := policy_window rule in
  let b := begin_run run_id now (Some site_id) (Some (rp_id rule)) s!"manual" actor b in
  let '(versions, b) := sweep_versions now site_id w RETENTION_SWEEP_BATCH b in
  let '(purge, b) := purge_eligible now site_id w RETENTION_SWEEP_BATCH b in
  let '(refusals, refused, held) := purge_candidates now site_id w RETENTION_SWEEP_BATCH b in
  let t := absorb versions purge no_totals in
  let t := RunTotals (rt_versions_removed t) (rt_versions_bytes t) (rt_purged t) (rt_purged_bytes t) refused (rt_held_back t + held) in
  let b := delete_objects refuses (vs_storage_keys versions ++ po_storage_keys purge) b in
  (t, refusals, finish_run now run_id t [] b).

(** A pass the database ends: what its first statements, [stage] of them, have written. *)
Definition run_until (stage : nat) (refuses : str -> bool) (policy_id run_id now site_id : Z) (actor : option Z) (b : library) : library :=
  let '(rule, ruled) := site_policy policy_id now site_id b in
  let w := policy_window rule in
  let begun := begin_run run_id now (Some site_id) (Some (rp_id rule)) s!"manual" actor ruled in
  let '(versions, thinned) := sweep_versions now site_id w RETENTION_SWEEP_BATCH begun in
  let '(purge, purged) := purge_eligible now site_id w RETENTION_SWEEP_BATCH thinned in
  match stage with
  | 0%nat => b
  | 1%nat => ruled
  | 2%nat => begun
  | 3%nat => thinned
  | 4%nat => purged
  | _ => delete_objects refuses (vs_storage_keys versions ++ po_storage_keys purge) purged
  end.

(** *** References whose page is gone *)

Definition dangling (b : library) (r : reference) : bool := str_eqb (rf_resource_kind r) s!"page" && negb (existsb (str_eqb (rf_resource_id r)) (lb_pages b)).
Definition by_reference_age (a b : reference) : comparison := Z.compare (rf_created_at a) (rf_created_at b).
Definition dangling_references (limit : nat) (b : library) : list reference := take limit (sort_by by_reference_age (List.filter (dangling b) (lb_references b))).
Definition repair_references (limit : nat) (b : library) : Z * library :=
  let gone := dangling_references limit b in
  (Z.of_nat (length gone), with_references (List.filter (fun r => negb (among_ids (rf_id <$> gone) (rf_id r))) (lb_references b)) b).

(** *** The worker *)

Definition sites_with_media (b : library) : list Z := remove_dups (lf_site_id <$> lb_files b).
Definition REPAIR_BATCH : nat := 500.
Record tick_report := TickReport { tk_sites : nat; tk_purged : Z; tk_versions : Z; tk_repaired : Z; tk_failed : nat }.
Definition is_idle (r : tick_report) : bool := (tk_purged r =? 0) && (tk_versions r =? 0) && (tk_repaired r =? 0).
(** [stops] says of a site where the database ends its pass, if it does; the next site is swept all the same. *)
Fixpoint sweep_sites (stops : Z -> option nat) (refuses : str -> bool) (fresh : nat -> Z * Z) (now : Z) (k : nat) (sites : list Z) (purged versions : Z) (failed : nat) (b : library) :
  Z * Z * nat * library :=
  match sites with
  | [] => (purged, versions, failed, b)
  | site :: sites =>
      match stops site with
      | None =>
          let '(t, _, b) := run_once refuses (fst (fresh k)) (snd (fresh k)) now site None b in
          sweep_sites stops refuses fresh now (S k) sites (purged + rt_purged t) (versions + rt_versions_removed t) failed b
      | Some stage => sweep_sites stops refuses fresh now (S k) sites purged versions (S failed) (run_until stage refuses (fst (fresh k)) (snd (fresh k)) now site None b)
      end
  end.
Definition tick (stops : Z -> option nat) (refuses : str -> bool) (fresh : nat -> Z * Z) (now max_sites : Z) (b : library) : tick_report * library :=
  let '(repaired, b) := repair_references REPAIR_BATCH b in
  let batch := take (Z.to_nat (Z.max max_sites 1)) (sites_with_media b) in
  let '(purged, versions, failed, b) := sweep_sites stops refuses fresh now 0 batch 0 0 0 b in
  (TickReport (length batch) purged versions repaired failed, b).

(** ** What the library keeps *)

(** The rows fit together. *)
Record fits `{U : Uuids} (files : list library_file) (versions : list file_version) (derivatives : list derivative) : Prop := Fits {
  ft_ids : NoDup (lf_id <$> files);
  ft_uuids : forall f, f ∈ files -> is_uuid (lf_id f);
  ft_version_ids : NoDup (fv_id <$> versions);
  ft_keys : NoDup (fv_storage_key <$> versions);
  ft_origin : forall v, v ∈ versions ->
    (exists site key_id name, fv_storage_key v = Uploads.object_key site key_id name)
    \/ (exists site name ct, fv_storage_key v = version_key site (fv_media_id v) (fv_version v) name ct);
  ft_derived : forall d, d ∈ derivatives -> exists site cache e, dr_storage_key d = derivative_key site cache e;
  ft_numbers : forall v, v ∈ versions -> 1 <= fv_version v;
  ft_file : forall v, v ∈ versions -> fv_media_id v ∈ lf_id <$> files;
  ft_current : forall f, f ∈ files -> exists v, v ∈ versions /\ fv_media_id v = lf_id f /\ fv_storage_key v = lf_storage_key f
    /\ forall v', v' ∈ versions -> fv_media_id v' = lf_id f -> fv_version v' <= fv_version v
}.
Definition kept `{U : Uuids} (b : library) : Prop := fits (lb_files b) (lb_versions b) (lb_derivatives b).
(** No version is without its bytes. *)
Definition whole (b : library) : Prop := forall v, v ∈ lb_versions b -> fv_storage_key v ∈ lb_objects b.

Lemma among_ids_elem ids id : among_ids ids id = true <-> id ∈ ids.
Proof. unfold among_ids. rewrite existsb_elem. split; [intros (x & Hx & ->%Z.eqb_eq); done|]. intros H. exists id. by rewrite Z.eqb_refl. Qed.
Lemma among_ids_none ids id : among_ids ids id = false <-> id ∉ ids.
Proof. by rewrite <- among_ids_elem, not_true_iff_false. Qed.

Section KeyNames.
Context `{U : Uuids, L : !UuidLaws U}.

Lemma uuid_segment z : (c!"/" ∉ uuid_text z) /\ length (uuid_text z) = 36%nat.
Proof. split; [apply uuid_no_slash|apply uuid_text_length]. Qed.

(** The name of the object of a version after its directory. *)
Lemma version_key_shape site id n name ct :
  exists tail, version_key site id n name ct = s!"sites/" ++ uuid_text site ++ s!"/" ++ uuid_text id ++ s!"/v" ++ show_Z n ++ tail
    /\ (tail = [] \/ exists e, tail = c!"." :: e).
Proof.
  unfold version_key. destruct (match version_extension name with Some e => Some e | None => extension_of_type ct end) as [e|].
  - exists (s!"." ++ e). split; [by rewrite <- !app_assoc|right; by exists e].
  - exists []. split; [by rewrite app_nil_r|by left].
Qed.

Lemma show_Z_no_dot n : c!"." ∉ show_Z n.
Proof.
  unfold show_Z. intros H. destruct (n <? 0).
  - apply elem_of_cons in H as [H|H]; [by vm_compute in H|]. apply show_N_digits in H. by vm_compute in H.
  - apply show_N_digits in H. by vm_compute in H.
Qed.

Lemma number_of_tail n n' (t t' : str) :
  (t = [] \/ exists e, t = c!"." :: e) -> (t' = [] \/ exists e, t' = c!"." :: e) -> show_Z n ++ t = show_Z n' ++ t' -> n = n'.
Proof.
  intros Ht Ht' E. apply show_Z_inj. pose proof (f_equal (split_once c!".") E) as S.
  destruct Ht as [->|[e ->]], Ht' as [->|[e' ->]]; rewrite ?app_nil_r in *; [done|..];
    rewrite ?split_once_app, ?split_once_none in S by apply show_Z_no_dot; congruence.
Qed.

Lemma version_key_inj site id n name ct site' id' n' name' ct' :
  is_uuid id -> is_uuid id' -> version_key site id n name ct = version_key site' id' n' name' ct' -> id = id' /\ n = n'.
Proof.
  intros Hi Hi'. destruct (version_key_shape site id n name ct) as (t & -> & Ht), (version_key_shape site' id' n' name' ct') as (t' & -> & Ht').
  intros E%app_inv_head. apply app_inj_1 in E as [_ E%app_inv_head]; [|by rewrite !uuid_text_length].
  apply app_inj_1 in E as [Ei E%app_inv_head]; [|by rewrite !uuid_text_length]. split; [by apply uuid_text_inj|exact (number_of_tail _ _ _ _ Ht Ht' E)].
Qed.

Lemma version_key_object site id n name ct site' key_id name' : version_key site id n name ct <> Uploads.object_key site' key_id name'.
Proof.
  destruct (version_key_shape site id n name ct) as (t & -> & _). unfold Uploads.object_key.
  destruct (Uploads.extension_of name'); intros E%app_inv_head; apply app_inj_1 in E as [_ E%app_inv_head]; try (by rewrite !uuid_text_length).
  - apply app_inj_1 in E as [_ E]; [|by rewrite !uuid_text_length]. discriminate E.
  - apply (f_equal length) in E. rewrite !length_app, !uuid_text_length in E. cbn in E. lia.
Qed.

Lemma derivative_key_version site id n name ct site' cache e : version_key site id n name ct <> derivative_key site' cache e.
Proof.
  destruct (version_key_shape site id n name ct) as (t & -> & _). unfold derivative_key. intros E%app_inv_head.
  apply app_inj_1 in E as [_ E]; [|by rewrite !uuid_text_length].
  apply (app_inv_head s!"/" _ (s!"derivatives" ++ s!"/" ++ cache ++ s!"." ++ e)) in E.
  change (uuid_text id ++ s!"/v" ++ show_Z n ++ t) with (uuid_text id ++ c!"/" :: (s!"v" ++ show_Z n ++ t)) in E.
  apply (f_equal (split_once c!"/")) in E. rewrite split_once_app in E by apply uuid_segment.
  change (s!"derivatives" ++ s!"/" ++ cache ++ s!"." ++ e) with (s!"derivatives" ++ c!"/" :: (cache ++ s!"." ++ e)) in E.
  rewrite split_once_app in E by (vm_compute; set_solver). injection E as E _.
  apply (f_equal length) in E. by rewrite uuid_text_length in E.
Qed.

Lemma derivative_key_object site key_id name site' cache e : Uploads.object_key site key_id name <> derivative_key site' cache e.
Proof.
  intros E. destruct (upload_keys_are_accepted site key_id name) as [_ (file & S & _)]. rewrite E in S.
  unfold derivative_key in S.
  change (s!"sites/" ++ uuid_text site' ++ s!"/derivatives/" ++ cache ++ s!"." ++ e)
    with (s!"sites" ++ c!"/" :: (uuid_text site' ++ c!"/" :: (s!"derivatives" ++ c!"/" :: (cache ++ s!"." ++ e)))) in S.
  rewrite split_on_app in S by (vm_compute; set_solver). rewrite split_on_app in S by apply uuid_segment.
  rewrite split_on_app in S by (vm_compute; set_solver).
  pose proof (split_on_length c!"/" (cache ++ s!"." ++ e)). apply (f_equal length) in S. cbn [length] in S. lia.
Qed.
End KeyNames.

(** *** Each table under its statements *)

Section Fits.
Context `{U : Uuids, L : !UuidLaws U}.
Implicit Types (b : library) (f : library_file) (v : file_version).

Lemma version_of_key F V D v v' : fits F V D -> v ∈ V -> v' ∈ V -> fv_storage_key v = fv_storage_key v' -> v = v'.
Proof. intros K. apply NoDup_key_inj, (ft_keys _ _ _ K). Qed.

Lemma file_by_id F V D f f' : fits F V D -> f ∈ F -> f' ∈ F -> lf_id f = lf_id f' -> f = f'.
Proof. intros K. apply NoDup_key_inj, (ft_ids _ _ _ K). Qed.

(** A derivative never has the name of a version. *)
Lemma derived_key F V D d v : fits F V D -> d ∈ D -> v ∈ V -> dr_storage_key d <> fv_storage_key v.
Proof.
  intros K Hd Hv. destruct (ft_derived _ _ _ K d Hd) as (s & c & e & ->).
  destruct (ft_origin _ _ _ K v Hv) as [(s' & k & n & ->)|(s' & n & ct & ->)] ; intros E; symmetry in E; revert E;
    [apply derivative_key_object|apply derivative_key_version].
Qed.

(** Rows may go when no file loses its current version and no version its file or its bytes. *)
Lemma fits_shrink F V D D' (qf : library_file -> bool) (qv : file_version -> bool) :
  fits F V D ->
  (forall v f, v ∈ V -> f ∈ F -> qv v = true -> lf_id f = fv_media_id v -> qf f = true) ->
  (forall f v, f ∈ F -> v ∈ V -> qf f = true -> fv_media_id v = lf_id f ->
     (forall v', v' ∈ V -> fv_media_id v' = lf_id f -> fv_version v' <= fv_version v) -> qv v = true) ->
  (forall d, d ∈ D' -> d ∈ D) ->
  fits (List.filter qf F) (List.filter qv V) D'.
Proof.
  intros [] Hfile Hcur HD. split.
  - by apply NoDup_filter_keys.
  - intros f [Hf _]%elem_of_filter_bool. auto.
  - by apply NoDup_filter_keys.
  - by apply NoDup_filter_keys.
  - intros v [Hv _]%elem_of_filter_bool. auto.
  - auto.
  - intros v [Hv _]%elem_of_filter_bool. auto.
  - intros v [Hv Q]%elem_of_filter_bool. pose proof (ft_file0 v Hv) as (f & E & Hf)%list_elem_of_fmap.
    rewrite E. apply list_elem_of_fmap_2, elem_of_filter_bool. split; [done|]. by apply (Hfile v f).
  - intros f [Hf Q]%elem_of_filter_bool. destruct (ft_current0 f Hf) as (v & Hv & Em & Ek & Hmax). exists v.
    split_and!; try done.
    + apply elem_of_filter_bool. split; [done|]. by apply (Hcur f).
    + intros v' [Hv' _]%elem_of_filter_bool. by apply Hmax.
Qed.

(** A file may change as long as its id and its bytes stay. *)
Lemma fits_update F V D p g :
  (forall f, lf_id (g f) = lf_id f) -> (forall f, lf_storage_key (g f) = lf_storage_key f) -> fits F V D -> fits (update_where p g F) V D.
Proof.
  intros Hi Hk []. split; rewrite ?(update_where_fmap lf_id) by done; try done.
  - intros f (x & Hx & ->)%update_where_elem. destruct (p x); rewrite ?Hi; auto.
  - intros f (x & Hx & ->)%update_where_elem. destruct (ft_current0 x Hx) as (v & H). exists v. destruct (p x); rewrite ?Hi, ?Hk; done.
Qed.

Lemma newest_number_ge b v : v ∈ lb_versions b -> fv_version v <= newest_number (fv_media_id v) b.
Proof.
  unfold newest_number. induction (lb_versions b) as [|x l IH]; [by intros ?%elem_of_nil|].
  intros [->|H]%elem_of_cons; cbn [List.filter].
  - unfold of_media. rewrite Z.eqb_refl. cbn. lia.
  - specialize (IH H). destruct (of_media _ x); cbn; lia.
Qed.

Lemma newest_number_nonneg id b : 0 <= newest_number id b.
Proof. unfold newest_number. induction (List.filter _ _) as [|y l IH]; cbn; lia. Qed.

Lemma newest_number_le id b n : 0 <= n -> (forall v, v ∈ lb_versions b -> fv_media_id v = id -> fv_version v <= n) -> newest_number id b <= n.
Proof.
  intros Hn. unfold newest_number. induction (lb_versions b) as [|x l IH]; [done|]. intros H. cbn [List.filter].
  destruct (of_media id x) eqn:E; [|apply IH; intros v Hv; apply H; by right]. unfold of_media in E. bool_prop. cbn. apply Z.max_lub.
  - apply H; [by left|done].
  - apply IH. intros v Hv. apply H. by right.
Qed.

(** A new current version, of a number none has and under a name none has. *)
Lemma fits_append b vid now id site name ct ct' size :
  kept b -> id ∈ lf_id <$> lb_files b -> vid ∉ fv_id <$> lb_versions b ->
  kept (append_version vid now id (version_key site id (next_version id b) name ct) ct' size (put_object (version_key site id (next_version id b) name ct) b)).
Proof.
  intros K Hid Hvid. set (key := version_key _ _ _ _ _). pose proof K as K'. destruct K'.
  assert (is_uuid id) as Hu by (apply list_elem_of_fmap in Hid as (f & -> & Hf); auto).
  unfold kept, append_version, put_object. cbn -[update_where].
  set (v := FileVersion _ _ _ _ _ _ _).
  split; rewrite ?(update_where_fmap lf_id) by done; try done.
  - intros f (x & Hx & ->)%update_where_elem. destruct (is_media id x); cbn; auto.
  - rewrite fmap_app. by apply NoDup_snoc.
  - rewrite fmap_app. apply NoDup_snoc; [done|]. intros (x & E & Hx)%list_elem_of_fmap. cbn in E.
    destruct (ft_origin0 x Hx) as [(s & k & n & E')|(s & n & c & E')]; rewrite E' in E; [by apply version_key_object in E|].
    apply version_key_inj in E as [E1 E2]; [|done|].
    + apply newest_number_ge in Hx. rewrite <- E1 in Hx. unfold next_version in E2. lia.
    + apply ft_file0, list_elem_of_fmap in Hx as (f & -> & Hf). auto.
  - intros x [Hx| ->%list_elem_of_singleton]%elem_of_app; [auto|]. right. by eexists _, _, _.
  - intros x [Hx| ->%list_elem_of_singleton]%elem_of_app; [auto|]. cbn. unfold next_version.
    pose proof (newest_number_nonneg id b) as H0. unfold newest_number in *. cbn. lia.
  - intros x [Hx| ->%list_elem_of_singleton]%elem_of_app; [auto|done].
  - intros f (x & Hx & ->)%update_where_elem. unfold is_media. destruct (Z.eqb_spec (lf_id x) id) as [E|E].
    + exists v. split_and!; [apply elem_of_app; right; by apply list_elem_of_singleton|cbn; by rewrite E|done|].
      intros v' [Hv'| ->%list_elem_of_singleton]%elem_of_app Em; [|done]. apply newest_number_ge in Hv'.
      rewrite Em in Hv'. cbn [set_current lf_id] in Hv'. rewrite E in Hv'. unfold newest_number in *. cbn. unfold next_version, newest_number. cbn. lia.
    + destruct (ft_current0 x Hx) as (y & Hy & Em & Ek & Hmax). exists y. split_and!; try done; [apply elem_of_app; by left|].
      intros v' [Hv'| ->%list_elem_of_singleton]%elem_of_app Em'; [by apply Hmax|]. by destruct E.
Qed.

Lemma fits_upload b key_id vid now ct f :
  kept b -> is_uuid (lf_id f) -> lf_id f ∉ lf_id <$> lb_files b -> vid ∉ fv_id <$> lb_versions b ->
  Uploads.object_key (lf_site_id f) key_id (lf_filename f) ∉ fv_storage_key <$> lb_versions b ->
  kept (upload_file key_id vid now ct f b).
Proof.
  intros [] Hu Hid Hvid Hkey. unfold kept, upload_file, put_object. cbn. split.
  - rewrite fmap_app. by apply NoDup_snoc.
  - intros x [Hx| ->%list_elem_of_singleton]%elem_of_app; [auto|done].
  - rewrite fmap_app. by apply NoDup_snoc.
  - rewrite fmap_app. by apply NoDup_snoc.
  - intros x [Hx| ->%list_elem_of_singleton]%elem_of_app; [auto|]. left. by eexists _, _, _.
  - done.
  - intros x [Hx| ->%list_elem_of_singleton]%elem_of_app; [auto|done].
  - intros x [Hx| ->%list_elem_of_singleton]%elem_of_app; rewrite fmap_app; set_solver.
  - intros x [Hx| ->%list_elem_of_singleton]%elem_of_app.
    + destruct (ft_current0 x Hx) as (v & Hv & Em & Ek & Hmax). exists v. split_and!; try done; [apply elem_of_app; by left|].
      intros v' [Hv'| ->%list_elem_of_singleton]%elem_of_app Em'; [by apply Hmax|]. destruct Hid. cbn in Em'. rewrite Em'. by apply list_elem_of_fmap_2.
    + eexists. split_and!; [apply elem_of_app; right; by apply list_elem_of_singleton|done..|].
      intros v' [Hv'| ->%list_elem_of_singleton]%elem_of_app Em'; [|done]. destruct Hid. cbn in Em'. rewrite <- Em'. by apply ft_file0.
Qed.
End Fits.

Section Sweeps.
Context `{U : Uuids, L : !UuidLaws U}.
Implicit Types (b : library) (f : library_file) (v : file_version).

Lemma owned_elem ids b k : k ∈ owned_object_keys ids b <->
  (exists f, f ∈ lb_files b /\ lf_id f ∈ ids /\ k = lf_storage_key f)
  \/ (exists v, v ∈ lb_versions b /\ fv_media_id v ∈ ids /\ k = fv_storage_key v)
  \/ (exists d, d ∈ lb_derivatives b /\ dr_media_id d ∈ ids /\ k = dr_storage_key d).
Proof.
  unfold owned_object_keys. rewrite dedup_by_elem, sort_by_elem, !elem_of_app, !list_elem_of_fmap.
  setoid_rewrite elem_of_filter_bool. setoid_rewrite among_ids_elem. naive_solver.
Qed.

(** What a set of files owns is nobody else's. *)
Lemma owned_spares ids b v : kept b -> v ∈ lb_versions b -> fv_media_id v ∉ ids -> fv_storage_key v ∉ owned_object_keys ids b.
Proof.
  intros K Hv Hm [(f & Hf & Hi & E)|[(v' & Hv' & Hi & E)|(d & Hd & _ & E)]]%owned_elem.
  - destruct (ft_current _ _ _ K f Hf) as (v' & Hv' & Em & Ek & _). rewrite <- Ek in E.
    apply (version_of_key _ _ _ _ _ K) in E as ->; [|done..]. congruence.
  - by apply (version_of_key _ _ _ _ _ K) in E as ->.
  - symmetry in E. revert E. by eapply derived_key.
Qed.

Definition gone_ids (p : library_file -> bool) b : list Z := lf_id <$> List.filter p (lb_files b).

Lemma gone_elem p b f : kept b -> f ∈ lb_files b -> lf_id f ∈ gone_ids p b <-> p f = true.
Proof.
  intros K Hf. unfold gone_ids. rewrite list_elem_of_fmap. setoid_rewrite elem_of_filter_bool. split; [|naive_solver].
  intros (x & E & Hx & Px). by rewrite (file_by_id _ _ _ _ _ K Hf Hx E).
Qed.

Lemma delete_files_fits p b : kept b -> kept (delete_files p b).
Proof.
  intros K. unfold kept, delete_files. cbn. fold (gone_ids p b). apply (fits_shrink _ _ (lb_derivatives b)); [done|..].
  - intros v f Hv Hf Q E. apply negb_true_iff, among_ids_none in Q. rewrite <- E, (gone_elem p b f K Hf) in Q. by apply negb_true_iff, not_true_iff_false.
  - intros f v Hf Hv Q E _. apply negb_true_iff, among_ids_none. rewrite E, (gone_elem p b f K Hf). by apply not_true_iff_false, negb_true_iff.
  - intros d [Hd _]%elem_of_filter_bool. done.
Qed.

Lemma delete_objects_elem refuses keys b k : k ∈ lb_objects (delete_objects refuses keys b) <-> k ∈ lb_objects b /\ (k ∈ keys -> refuses k = true).
Proof.
  unfold delete_objects. cbn. rewrite elem_of_difference, elem_of_list_to_set, elem_of_filter_bool, negb_true_iff.
  destruct (refuses k); naive_solver.
Qed.

(** *** The history *)

Lemma claim_versions_elem now site w n b v : v ∈ claim_versions now site w n b ->
  v ∈ lb_versions b /\ superseded site (now - days (wi_keep_versions_days w)) false b v = true.
Proof.
  intros (i & H%list_elem_of_lookup_2 & _)%elem_of_take. by rewrite sort_by_elem, elem_of_filter_bool in H.
Qed.

Lemma kept_version now site w n b v : kept b -> v ∈ lb_versions (snd (sweep_versions now site w n b)) <->
  v ∈ lb_versions b /\ v ∉ claim_versions now site w n b.
Proof.
  intros K. cbn. rewrite elem_of_filter_bool, negb_true_iff, among_ids_none, list_elem_of_fmap. split; intros [Hv H]; (split; [done|]).
  - intros Hc. apply H. by exists v.
  - intros (x & E & Hx). apply claim_versions_elem in Hx as Hx'.
    by rewrite (NoDup_key_inj fv_id _ v x (ft_version_ids _ _ _ K) Hv (proj1 Hx') E) in H.
Qed.

Lemma file_of_own b f v : kept b -> f ∈ lb_files b -> fv_media_id v = lf_id f -> file_of v b = Some f.
Proof.
  intros K Hf E. unfold file_of, find_file_any_state. apply find_unique; [done|unfold is_media; bool_prop; done|].
  intros y Hy E'. unfold is_media in E'. bool_prop. apply (file_by_id _ _ _ _ _ K); [done..|congruence].
Qed.

Lemma sweep_versions_fits now site w n b : kept b -> kept (snd (sweep_versions now site w n b)).
Proof.
  intros K. unfold kept. cbn. rewrite <- (filter_all (fun _ => true) (lb_files b)) by done.
  apply (fits_shrink _ _ (lb_derivatives b)); try done.
  - intros f v Hf Hv _ Em Hmax. apply negb_true_iff, among_ids_none. rewrite list_elem_of_fmap. intros (x & E & Hx).
    apply claim_versions_elem in Hx as [Hx Hs]. rewrite (NoDup_key_inj fv_id _ v x (ft_version_ids _ _ _ K) Hv Hx E) in *.
    unfold superseded in Hs. rewrite (file_of_own b f x K Hf Em) in Hs. bool_prop.
    pose proof (newest_number_le (lf_id f) b (fv_version x)) as Hn. pose proof (ft_numbers _ _ _ K x Hx).
    rewrite Em in Hs. specialize (Hn ltac:(lia) Hmax). lia.
Qed.

(** *** The trash *)

Lemma claim_purge_elem now site w n b f : f ∈ claim_purge now site w n b ->
  f ∈ lb_files b /\ past now site w f = true /\ lf_legal_hold f = false /\ is_referenced (lf_id f) b = false.
Proof.
  intros (i & H%list_elem_of_lookup_2 & _)%elem_of_take. rewrite sort_by_elem, elem_of_filter_bool in H. bool_prop. naive_solver.
Qed.

Lemma past_trashed now site w f : past now site w f = true -> is_trashed f = true.
Proof. unfold past, is_trashed. rewrite andb_true_iff. intros [_ H]. by destruct (lf_deleted_at f). Qed.

Lemma claim_gone now site w n b f : kept b -> f ∈ lb_files b ->
  among_ids (lf_id <$> claim_purge now site w n b) (lf_id f) && is_trashed f = true <-> f ∈ claim_purge now site w n b.
Proof.
  intros K Hf. rewrite andb_true_iff, among_ids_elem, list_elem_of_fmap. split.
  - intros [(x & E & Hx) _]. apply claim_purge_elem in Hx as Hx'. by rewrite (file_by_id _ _ _ _ _ K Hf (proj1 Hx') E).
  - intros H. split; [by exists f|]. apply claim_purge_elem in H as (_ & Hp & _). by eapply past_trashed.
Qed.

Lemma gone_claimed now site w n b id : kept b ->
  id ∈ gone_ids (fun f => among_ids (lf_id <$> claim_purge now site w n b) (lf_id f) && is_trashed f) b <-> id ∈ lf_id <$> claim_purge now site w n b.
Proof.
  intros K. unfold gone_ids. rewrite !list_elem_of_fmap. setoid_rewrite elem_of_filter_bool. split; intros (f & -> & H); exists f; (split; [done|]).
  - destruct H as [Hf H]. by apply (claim_gone now site w n b f K Hf).
  - apply claim_purge_elem in H as Hc. split; [apply Hc|]. apply claim_gone; [done|apply Hc|done].
Qed.

Lemma purge_eligible_fits now site w n b : kept b -> kept (snd (purge_eligible now site w n b)).
Proof. intros K. by apply (delete_files_fits _ b). Qed.

Lemma kept_file now site w n b f : kept b -> f ∈ lb_files (snd (purge_eligible now site w n b)) <-> f ∈ lb_files b /\ f ∉ claim_purge now site w n b.
Proof.
  intros K. cbn. rewrite elem_of_filter_bool, negb_true_iff. split; intros [Hf H]; (split; [done|]).
  - by rewrite <- (claim_gone now site w n b f K Hf), H.
  - by rewrite <- not_true_iff_false, (claim_gone now site w n b f K Hf).
Qed.

Lemma kept_history now site w n b v : kept b -> v ∈ lb_versions (snd (purge_eligible now site w n b)) <->
  v ∈ lb_versions b /\ fv_media_id v ∉ lf_id <$> claim_purge now site w n b.
Proof.
  intros K. cbn. rewrite elem_of_filter_bool, negb_true_iff, among_ids_none. by setoid_rewrite (gone_claimed now site w n b _ K).
Qed.
End Sweeps.

(** ** A pass over a site *)

Section Runs.
Context `{U : Uuids, L : !UuidLaws U}.
Implicit Types (b : library) (f : library_file) (v : file_version).

(** What the sweeps leave of the rows, and the objects they hand to the bucket. *)
Definition swept (now site_id : Z) (w : window) (b : library) : library :=
  snd (purge_eligible now site_id w RETENTION_SWEEP_BATCH (snd (sweep_versions now site_id w RETENTION_SWEEP_BATCH b))).
Definition dropped (now site_id : Z) (w : window) (b : library) : list str :=
  (fv_storage_key <$> claim_versions now site_id w RETENTION_SWEEP_BATCH b)
  ++ owned_object_keys (lf_id <$> claim_purge now site_id w RETENTION_SWEEP_BATCH b) (snd (sweep_versions now site_id w RETENTION_SWEEP_BATCH b)).
Definition site_window (id now site_id : Z) (b : library) : window := policy_window (fst (site_policy id now site_id b)).

Lemma site_policy_rows id now site b : exists l, snd (site_policy id now site b) = with_policies l b.
Proof.
  unfold site_policy. destruct (head _) as [p|]; [exists (lb_policies b); by destruct b|].
  destruct (List.find _ _); [exists (lb_policies b); by destruct b|by eexists].
Qed.

(** The library after a pass, but for its policies and its runs. *)
Definition after_run (refuses : str -> bool) (now site_id : Z) (w : window) (b : library) : library :=
  delete_objects refuses (dropped now site_id w b) (swept now site_id w b).

Lemma run_once_rows refuses pid rid now site actor b :
  let b' := snd (run_once refuses pid rid now site actor b) in
  let r := after_run refuses now site (site_window pid now site b) b in
  lb_files b' = lb_files r /\ lb_versions b' = lb_versions r /\ lb_derivatives b' = lb_derivatives r
  /\ lb_objects b' = lb_objects r /\ lb_policies b' = lb_policies (snd (site_policy pid now site b)).
Proof.
  unfold run_once, site_window. destruct (site_policy_rows pid now site b) as (l & El).
  destruct (site_policy pid now site b) as [rule b0]. cbn [snd fst] in *. subst b0. destruct b. done.
Qed.

Lemma swept_fits now site w b : kept b -> kept (swept now site w b).
Proof. intros K. by apply purge_eligible_fits, sweep_versions_fits. Qed.

Lemma swept_versions now site w b v : kept b -> v ∈ lb_versions (swept now site w b) <->
  v ∈ lb_versions b /\ (v ∉ claim_versions now site w RETENTION_SWEEP_BATCH b) /\ fv_media_id v ∉ lf_id <$> claim_purge now site w RETENTION_SWEEP_BATCH b.
Proof.
  intros K. unfold swept. rewrite kept_history by by apply sweep_versions_fits. rewrite kept_version by done. tauto.
Qed.

Lemma swept_files now site w b f : kept b -> f ∈ lb_files (swept now site w b) <-> f ∈ lb_files b /\ f ∉ claim_purge now site w RETENTION_SWEEP_BATCH b.
Proof. intros K. unfold swept. by rewrite kept_file by by apply sweep_versions_fits. Qed.

Lemma dropped_spares now site w b v : kept b -> v ∈ lb_versions (swept now site w b) -> fv_storage_key v ∉ dropped now site w b.
Proof.
  intros K Hv. apply swept_versions in Hv as (Hv & Hc & Hp); [|done]. intros [H|H]%elem_of_app.
  - apply list_elem_of_fmap in H as (x & E & Hx). apply claim_versions_elem in Hx as Hx'.
    apply (version_of_key _ _ _ _ _ K) in E as ->; [done..|apply Hx'].
  - revert H. apply owned_spares; [by apply sweep_versions_fits| |done]. by apply kept_version.
Qed.

Lemma after_run_versions refuses now site w b v : kept b -> v ∈ lb_versions (after_run refuses now site w b) <->
  v ∈ lb_versions b /\ (v ∉ claim_versions now site w RETENTION_SWEEP_BATCH b) /\ fv_media_id v ∉ lf_id <$> claim_purge now site w RETENTION_SWEEP_BATCH b.
Proof. exact (swept_versions now site w b v). Qed.

Lemma after_run_files refuses now site w b f : kept b -> f ∈ lb_files (after_run refuses now site w b) <->
  f ∈ lb_files b /\ f ∉ claim_purge now site w RETENTION_SWEEP_BATCH b.
Proof. exact (swept_files now site w b f). Qed.

Lemma after_run_fits refuses now site w b : kept b -> kept (after_run refuses now site w b).
Proof. intros K. by apply (swept_fits now site w b). Qed.

(** What a pass may have left of the rows, wherever it stopped. *)
Definition same_rows (b r : library) : Prop :=
  lb_files b = lb_files r /\ lb_versions b = lb_versions r /\ lb_derivatives b = lb_derivatives r /\ lb_objects b = lb_objects r /\ lb_references b = lb_references r.
Definition passed (refuses : str -> bool) (id now site_id : Z) (b b' : library) : Prop :=
  let w := site_window id now site_id b in
  (same_rows b' b \/ same_rows b' (snd (sweep_versions now site_id w RETENTION_SWEEP_BATCH b)) \/ same_rows b' (swept now site_id w b) \/ same_rows b' (after_run refuses now site_id w b))
  /\ (lb_policies b' = lb_policies b \/ lb_policies b' = lb_policies (snd (site_policy id now site_id b))).

Lemma run_once_passed refuses pid rid now site actor b : passed refuses pid now site b (snd (run_once refuses pid rid now site actor b)).
Proof.
  unfold passed, run_once, site_window. destruct (site_policy_rows pid now site b) as (l & El).
  destruct (site_policy pid now site b) as [rule b0]. cbn [snd fst] in *. subst b0. destruct b. split; [by do 3 right|by right].
Qed.

Lemma run_until_passed stage refuses pid rid now site actor b : passed refuses pid now site b (run_until stage refuses pid rid now site actor b).
Proof.
  unfold passed, run_until, site_window. destruct (site_policy_rows pid now site b) as (l & El).
  destruct (site_policy pid now site b) as [rule b0]. cbn [snd fst] in *. subst b0. destruct b.
  destruct stage as [|[|[|[|[|stage]]]]]; (split; [|first [by left|by right]]).
  - by left.
  - by left.
  - by left.
  - by right; left.
  - by do 2 right; left.
  - by do 3 right.
Qed.

Lemma passed_fits refuses id now site b b' : kept b -> passed refuses id now site b b' -> kept b'.
Proof.
  intros K [[(Ef & Ev & Ed & _)|[(Ef & Ev & Ed & _)|[(Ef & Ev & Ed & _)|(Ef & Ev & Ed & _)]]] _]; unfold kept; rewrite Ef, Ev, Ed;
    [exact K|by apply sweep_versions_fits|by apply swept_fits|by apply (after_run_fits refuses)].
Qed.

Lemma run_once_fits refuses pid rid now site actor b : kept b -> kept (snd (run_once refuses pid rid now site actor b)).
Proof. intros K. exact (passed_fits _ _ _ _ _ _ K (run_once_passed refuses pid rid now site actor b)). Qed.

Lemma passed_versions refuses id now site b b' v : kept b -> passed refuses id now site b b' ->
  v ∈ lb_versions b' -> v ∈ lb_versions b /\ (fv_storage_key v ∈ lb_objects b -> fv_storage_key v ∈ lb_objects b').
Proof.
  intros K [[(_ & -> & _ & -> & _)|[(_ & -> & _ & -> & _)|[(_ & -> & _ & -> & _)|(_ & -> & _ & -> & _)]]] _] Hv; [done|by apply kept_version in Hv as [Hv _]|by apply swept_versions in Hv as [Hv _]|].
  split; [by apply after_run_versions in Hv as [Hv _]|]. intros Ho. apply delete_objects_elem. split; [exact Ho|]. intros Hd. by destruct (dropped_spares now site (site_window id now site b) b v K Hv Hd).
Qed.

(** A pass keeps the object of every version it leaves. *)
Lemma run_once_bytes refuses pid rid now site actor b v : kept b ->
  v ∈ lb_versions (snd (run_once refuses pid rid now site actor b)) -> fv_storage_key v ∈ lb_objects b ->
  fv_storage_key v ∈ lb_objects (snd (run_once refuses pid rid now site actor b)).
Proof. intros K Hv. by apply (passed_versions refuses pid now site b _ v K (run_once_passed refuses pid rid now site actor b)). Qed.
End Runs.

(** ** Purges of a person *)

Section Purges.
Context `{U : Uuids, L : !UuidLaws U}.
Implicit Types (b : library) (f : library_file) (v : file_version).

(** Deleting trashed files and objects that only they own leaves no version without its bytes. *)
Lemma purge_rows_whole ids b O' : kept b -> whole b ->
  (forall f, f ∈ lb_files b -> lf_id f ∈ ids -> is_trashed f = true) ->
  (forall k, k ∈ lb_objects b -> k ∉ owned_object_keys ids b -> k ∈ O') ->
  whole (with_objects O' (snd (purge_files ids b))).
Proof.
  intros K W Ht HO v Hv. cbn in Hv. apply elem_of_filter_bool in Hv as [Hv Q]. apply HO; [by apply W|].
  apply owned_spares; [done..|]. intros Hi. apply negb_true_iff, among_ids_none in Q. apply Q.
  pose proof (ft_file _ _ _ K v Hv) as (f & E & Hf)%list_elem_of_fmap. rewrite E in *.
  apply (gone_elem (fun f => among_ids ids (lf_id f) && is_trashed f)); [done..|].
  by rewrite (proj2 (among_ids_elem _ _) Hi), (Ht f Hf Hi).
Qed.

Lemma purge_selection_fits refuses ids b : kept b -> kept (snd (purge_selection refuses ids b)).
Proof. intros K. by apply (delete_files_fits _ (delete_objects refuses (owned_object_keys ids b) b)). Qed.

Lemma purge_selection_whole refuses ids b : kept b -> whole b -> (forall f, f ∈ lb_files b -> lf_id f ∈ ids -> is_trashed f = true) ->
  whole (snd (purge_selection refuses ids b)).
Proof.
  intros K W Ht. apply (purge_rows_whole ids b (lb_objects (delete_objects refuses (owned_object_keys ids b) b)) K W Ht).
  intros k Hk Hn. apply delete_objects_elem. done.
Qed.

Lemma trashed_ids_trashed site b f : kept b -> f ∈ lb_files b -> lf_id f ∈ trashed_ids site b -> is_trashed f = true.
Proof.
  intros K Hf (x & E & Hx)%list_elem_of_fmap. rewrite sort_by_elem, elem_of_filter_bool in Hx. destruct Hx as [Hx Q].
  rewrite (file_by_id _ _ _ _ _ K Hf Hx E). bool_prop. apply Q.
Qed.

Lemma delete_until_ok refuses keys b b' : delete_until refuses keys b = (Ok tt, b') ->
  exists O', b' = with_objects O' b /\ O' ⊆ lb_objects b /\ (forall k, k ∈ lb_objects b -> k ∉ keys -> k ∈ O') /\ forall k, k ∈ keys -> k ∉ O'.
Proof.
  revert b. induction keys as [|k keys IH]; intros b H; cbn in H.
  - injection H as <-. exists (lb_objects b). split_and!; [by destruct b|done..|by intros k ?%elem_of_nil].
  - destruct (refuses k); [done|]. apply IH in H as (O' & -> & Hsub & Hin & Hout). cbn in *. exists O'. split_and!; [done|set_solver|set_solver|].
    intros x [->|Hx]%elem_of_cons; [set_solver|by apply Hout].
Qed.

Lemma purge_file_ok refuses id b b' : kept b -> purge_file refuses id b = (Ok tt, b') ->
  exists O', b' = with_objects O' (snd (purge_files [id] b)) /\ (forall f, f ∈ lb_files b -> lf_id f = id -> is_trashed f = true)
    /\ (forall k, k ∈ lb_objects b -> k ∉ owned_object_keys [id] b -> k ∈ O') /\ forall k, k ∈ owned_object_keys [id] b -> k ∉ O'.
Proof.
  intros K. unfold purge_file. destruct (find_file_any_state id b) as [f|] eqn:Ef; [|done]. destruct (is_trashed f) eqn:Et; [|done]. cbn [negb].
  destruct (delete_until _ _ _) as [[[]|e] b1] eqn:Ed; [|done]. apply delete_until_ok in Ed as (O' & -> & _ & Hin & Hout).
  destruct (purge_files _ _) as [n b2] eqn:Ep. destruct (n =? 0); [done|]. injection 1 as <-. exists O'. split_and!; try done.
  - apply (f_equal snd) in Ep. cbn in Ep. by rewrite <- Ep.
  - intros x Hx Ei. apply List.find_some in Ef as [Hf E]. unfold is_media in E. bool_prop.
    rewrite (file_by_id _ _ _ x f K); [done..|by apply list_elem_of_In|congruence].
Qed.

Lemma delete_until_objects refuses keys b : exists O', snd (delete_until refuses keys b) = with_objects O' b.
Proof.
  revert b. induction keys as [|k keys IH]; intros b; cbn; [exists (lb_objects b); by destruct b|].
  destruct (refuses k); [exists (lb_objects b); by destruct b|]. destruct (IH (with_objects (lb_objects b ∖ {[k]}) b)) as (O' & ->). by exists O'.
Qed.

(** Whatever a purge of one file answers, it leaves the rows or deletes that file's. *)
Lemma purge_file_rows refuses id b : exists O', snd (purge_file refuses id b) = with_objects O' b
  \/ snd (purge_file refuses id b) = with_objects O' (snd (purge_files [id] b)).
Proof.
  unfold purge_file. destruct (find_file_any_state id b) as [f|]; [|exists (lb_objects b); left; by destruct b].
  destruct (negb _); [exists (lb_objects b); left; by destruct b|].
  destruct (delete_until_objects refuses (owned_object_keys [id] b) b) as (O' & E).
  destruct (delete_until _ _ _) as [[u|e] b1]; cbn [snd] in E; subst b1; exists O'; [right|by left].
  destruct (purge_files [id] (with_objects O' b)) as [n b2] eqn:Ep. apply (f_equal snd) in Ep. cbn in Ep. by rewrite <- Ep.
Qed.
Lemma purge_file_fits refuses id b : kept b -> kept (snd (purge_file refuses id b)).
Proof. intros K. destruct (purge_file_rows refuses id b) as (O' & [->| ->]); [exact K|]. by apply (delete_files_fits _ b). Qed.

Lemma purge_file_whole refuses id b b' : kept b -> whole b -> purge_file refuses id b = (Ok tt, b') -> whole b'.
Proof.
  intros K W (O' & -> & Ht & Hin & _)%purge_file_ok; [|done]. apply purge_rows_whole; [done..| |done].
  intros f Hf E%list_elem_of_singleton. by apply Ht.
Qed.
End Purges.

(** ** Every statement that writes

    A purge by hand may name files that are not in the trash, and the bucket may refuse an object in the
    middle of one; [careful_step] is every statement but those two. *)

Inductive careful_step `{U : Uuids} : library -> library -> Prop :=
  | step_upload b key_id vid now ct f :
      is_uuid (lf_id f) -> lf_id f ∉ lf_id <$> lb_files b -> vid ∉ fv_id <$> lb_versions b ->
      Uploads.object_key (lf_site_id f) key_id (lf_filename f) ∉ fv_storage_key <$> lb_versions b ->
      careful_step b (upload_file key_id vid now ct f b)
  | step_create_version b vid now id name ct size b' :
      vid ∉ fv_id <$> lb_versions b -> create_version vid now id name ct size b = Ok b' -> careful_step b b'
  | step_restore_version b vid now id number b' :
      vid ∉ fv_id <$> lb_versions b -> restore_version vid now id number b = Ok b' -> careful_step b b'
  | step_update b id name folder : careful_step b (update_file id name folder b)
  | step_trash b now ids : careful_step b (trash_files now ids b)
  | step_restore b ids : careful_step b (restore_files ids b)
  | step_hold b site id hold : careful_step b (snd (set_hold site id hold b))
  | step_derivative b site id cache e : careful_step b (insert_derivative site id cache e b)
  | step_references b references : careful_step b (with_references references b)
  | step_pages b pages : careful_step b (with_pages pages b)
  | step_repair b limit : careful_step b (snd (repair_references limit b))
  | step_seed b id now site : id ∉ rp_id <$> lb_policies b -> careful_step b (seed_policy id now site b)
  | step_create_policy b folder_exists id now site new p b' :
      id ∉ rp_id <$> lb_policies b -> create folder_exists id now site new b = Ok (p, b') -> careful_step b b'
  | step_update_policy b folder_exists now site id new p fields b' :
      update_policy folder_exists now site id new b = Ok (p, fields, b') -> careful_step b b'
  | step_delete_policy b site id b' : delete_policy site id b = Ok b' -> careful_step b b'
  | step_purge_file b refuses id b' : purge_file refuses id b = (Ok tt, b') -> careful_step b b'
  | step_empty_trash b refuses site : careful_step b (snd (empty_trash refuses site b))
  | step_bulk_purge b refuses site ids :
      (forall f, f ∈ lb_files b -> lf_id f ∈ ids -> is_trashed f = true) -> careful_step b (snd (bulk_purge refuses site ids b))
  | step_run b refuses pid rid now site actor :
      pid ∉ rp_id <$> lb_policies b -> careful_step b (snd (run_once refuses pid rid now site actor b))
  | step_stopped_run b stage refuses pid rid now site actor :
      pid ∉ rp_id <$> lb_policies b -> careful_step b (run_until stage refuses pid rid now site actor b).
Inductive library_step `{U : Uuids} : library -> library -> Prop :=
  | step_careful b b' : careful_step b b' -> library_step b b'
  | step_any_purge b refuses id : library_step b (snd (purge_file refuses id b))
  | step_any_bulk_purge b refuses site ids : library_step b (snd (bulk_purge refuses site ids b)).
Definition empty_library : library := Library [] [] [] [] [] [] [] ∅.
Definition library_run `{U : Uuids} : library -> Prop := rtc library_step empty_library.
Definition careful_run `{U : Uuids} : library -> Prop := rtc careful_step empty_library.

Section Reachable.
Context `{U : Uuids, L : !UuidLaws U}.

Lemma found_file id b f : find_file id b = Some f -> id ∈ lf_id <$> lb_files b.
Proof.
  intros [Hf E]%List.find_some. unfold is_media in E. bool_prop. destruct E as [<- _]. by apply list_elem_of_fmap_2, list_elem_of_In.
Qed.

Lemma insert_derivative_fits site id cache e b : kept b -> kept (insert_derivative site id cache e b).
Proof.
  intros K. unfold insert_derivative, put_object. destruct (existsb _ _); [exact K|].
  destruct K. split; try done. intros d [Hd| ->%list_elem_of_singleton]%elem_of_app; [auto|]. by eexists _, _, _.
Qed.

Lemma careful_fits b b' : careful_step b b' -> kept b -> kept b'.
Proof.
  intros H K. destruct H.
  - by apply fits_upload.
  - unfold create_version in *. ok_inv H0. subst. apply ok_or_ok in Ha. apply fits_append; [done|by eapply found_file|done].
  - unfold restore_version in *. ok_inv H0. subst. apply ok_or_ok in Ha. apply fits_append; [done|by eapply found_file|done].
  - by apply fits_update.
  - by apply fits_update.
  - by apply fits_update.
  - by apply fits_update.
  - by apply insert_derivative_fits.
  - done.
  - done.
  - done.
  - unfold seed_policy. by destruct (existsb _ _).
  - unfold create, create_policy in *. ok_inv H0. by subst.
  - unfold update_policy in *. ok_inv H. by subst.
  - unfold delete_policy in *. ok_inv H. by subst.
  - pose proof (purge_file_fits refuses id b K) as H'. by rewrite H in H'.
  - by apply purge_selection_fits.
  - by apply purge_selection_fits.
  - by apply run_once_fits.
  - exact (passed_fits _ _ _ _ _ _ K (run_until_passed stage refuses pid rid now site actor b)).
Qed.

Lemma step_fits b b' : library_step b b' -> kept b -> kept b'.
Proof.
  destruct 1 as [b b' H|b refuses id|b refuses site ids]; intros K; [by eapply careful_fits|by apply purge_file_fits|by apply purge_selection_fits].
Qed.

Lemma put_whole k b v : whole b -> v ∈ lb_versions b \/ fv_storage_key v = k -> fv_storage_key v ∈ ({[k]} ∪ lb_objects b : gset str).
Proof. intros W [Hv|<-]; [apply elem_of_union_r; by apply W|set_solver]. Qed.

Lemma passed_whole refuses id now site b b' : kept b -> passed refuses id now site b b' -> whole b -> whole b'.
Proof. intros K P W v Hv. apply (passed_versions _ _ _ _ _ _ v K P) in Hv as [Hv H]. by apply H, W. Qed.

Lemma careful_whole b b' : careful_step b b' -> kept b -> whole b -> whole b'.
Proof.
  intros H K W. destruct H; try exact W.
  - intros v [Hv| ->%list_elem_of_singleton]%elem_of_app; apply (put_whole _ _ _ W); [by left|by right].
  - unfold create_version in *. ok_inv H0. subst. intros v [Hv| ->%list_elem_of_singleton]%elem_of_app; apply (put_whole _ _ _ W); [by left|by right].
  - unfold restore_version in *. ok_inv H0. subst. intros v [Hv| ->%list_elem_of_singleton]%elem_of_app; apply (put_whole _ _ _ W); [by left|by right].
  - unfold insert_derivative. intros v Hv. destruct (existsb _ _); apply (put_whole _ _ _ W); by left.
  - unfold seed_policy. by destruct (existsb _ _).
  - unfold create, create_policy in *. ok_inv H0. by subst.
  - unfold update_policy in *. ok_inv H. by subst.
  - unfold delete_policy in *. ok_inv H. by subst.
  - by eapply purge_file_whole.
  - apply purge_selection_whole; [done..|]. intros f Hf. by apply trashed_ids_trashed.
  - apply purge_selection_whole; [done..|]. intros f Hf [Hi _]%elem_of_filter_bool. auto.
  - by apply (passed_whole _ _ _ _ _ _ K (run_once_passed refuses pid rid now site actor b)).
  - by apply (passed_whole _ _ _ _ _ _ K (run_until_passed stage refuses pid rid now site actor b)).
Qed.

Lemma run_fits b : library_run b -> kept b.
Proof.
  revert b. apply (rtc_ind_r kept); [|intros b b' _ H IH; by eapply step_fits].
  unfold kept. cbn. split; try apply NoDup_nil_2; by intros ? ?%elem_of_nil.
Qed.

Lemma careful_run_whole b : careful_run b -> library_run b /\ whole b.
Proof.
  revert b. apply (rtc_ind_r (fun b => library_run b /\ whole b)).
  - split; [apply rtc_refl|]. by intros v ?%elem_of_nil.
  - intros b b' _ H [R W]. split; [eapply rtc_r; [exact R|by apply step_careful]|]. eapply careful_whole; [exact H|by apply run_fits|done].
Qed.
End Reachable.

(** ** Policies that make sense *)

Definition sane_policy (p : retention_policy) : Prop :=
  trim (rp_name p) <> [] /\ (length (rp_name p) <= MAX_POLICY_NAME_LENGTH)%nat
  /\ MIN_WINDOW_DAYS <= rp_keep_versions_days p <= MAX_WINDOW_DAYS
  /\ MIN_WINDOW_DAYS <= rp_trash_days p <= rp_purge_after_days p /\ rp_purge_after_days p <= MAX_WINDOW_DAYS.
Record sane_policies (l : list retention_policy) : Prop := SanePolicies {
  sn_ids : NoDup (rp_id <$> l);
  sn_each : forall p, p ∈ l -> sane_policy p;
  sn_names : forall p q, p ∈ l -> q ∈ l -> rp_site_id p = rp_site_id q -> rp_name p = rp_name q -> p = q
}.

Lemma standard_is_sane id now site : sane_policy (standard_policy id now site).
Proof. unfold sane_policy. cbn. split_and!; try (vm_compute; lia); by vm_compute. Qed.

Lemma sane_snoc l p : sane_policies l -> sane_policy p -> rp_id p ∉ rp_id <$> l ->
  (forall q, q ∈ l -> rp_site_id q = rp_site_id p -> rp_name q = rp_name p -> False) -> sane_policies (l ++ [p]).
Proof.
  intros [] Hp Hid Hn. split.
  - rewrite fmap_app. by apply NoDup_snoc.
  - intros q [Hq| ->%list_elem_of_singleton]%elem_of_app; auto.
  - intros q r [Hq| ->%list_elem_of_singleton]%elem_of_app [Hr| ->%list_elem_of_singleton]%elem_of_app Es En; [auto|..|done].
    + by destruct (Hn q).
    + by destruct (Hn r).
Qed.

Lemma is_named_none site name l : existsb (is_named site name) l = false -> forall q, q ∈ l -> rp_site_id q = site -> rp_name q = name -> False.
Proof.
  intros H q Hq Es En. rewrite existsb_none in H. specialize (H q Hq). unfold is_named in H. by rewrite Es, En, Z.eqb_refl, str_eqb_refl in H.
Qed.

Lemma site_policy_sane id now site b : sane_policies (lb_policies b) -> id ∉ rp_id <$> lb_policies b ->
  sane_policies (lb_policies (snd (site_policy id now site b))) /\ sane_policy (fst (site_policy id now site b)).
Proof.
  intros S Hid. unfold site_policy. destruct (head _) as [p|] eqn:Eh.
  - split; [done|]. destruct (sort_by _ _) as [|x l] eqn:E; [done|]. injection Eh as ->.
    apply (sn_each _ S). apply (sort_by_head by_age) in E as [Hp _]. by apply elem_of_filter_bool in Hp as [Hp _].
  - destruct (List.find _ _) as [p|] eqn:Ef.
    + split; [done|]. apply List.find_some in Ef as [Hp _]. apply (sn_each _ S). by apply list_elem_of_In.
    + split; [|apply standard_is_sane]. cbn. apply sane_snoc; [done|apply standard_is_sane|done|].
      apply (is_named_none site STANDARD). by rewrite <- find_exists, Ef.
Qed.

Lemma window_field_ok field v u : window_field field v = Ok u -> forall n, v = Some n -> MIN_WINDOW_DAYS <= n <= MAX_WINDOW_DAYS.
Proof. unfold window_field. intros H n ->. destruct (_ && _) eqn:E; [|done]. bool_prop. done. Qed.

(** What validation leaves. *)
Lemma validate_new_ok new new' : validate_new new = Ok new' ->
  (forall n, nr_name new' = Some n -> trim n = n /\ n <> [] /\ (length n <= MAX_POLICY_NAME_LENGTH)%nat)
  /\ (forall n, nr_keep_versions_days new' = Some n -> MIN_WINDOW_DAYS <= n <= MAX_WINDOW_DAYS)
  /\ (forall n, nr_trash_days new' = Some n -> MIN_WINDOW_DAYS <= n <= MAX_WINDOW_DAYS)
  /\ (forall n, nr_purge_after_days new' = Some n -> MIN_WINDOW_DAYS <= n <= MAX_WINDOW_DAYS).
Proof.
  unfold validate_new. intros H. destruct (match nr_name new with Some _ => _ | None => _ end) eqn:En; [done|]. ok_inv H. subst new'. cbn. split_and!.
  - intros n (m & Em & ->)%fmap_Some. rewrite Em in *. bool_prop. rewrite trim_trim. split_and!; [done|naive_solver|naive_solver].
  - by eapply window_field_ok.
  - by eapply window_field_ok.
  - by eapply window_field_ok.
Qed.

Lemma create_sane folder_exists id now site new p b b' : sane_policies (lb_policies b) -> id ∉ rp_id <$> lb_policies b ->
  create folder_exists id now site new b = Ok (p, b') -> sane_policies (lb_policies b').
Proof.
  intros S Hid H. unfold create in H. ok_inv H. unfold create_policy in H. ok_inv H. apply ok_or_ok in Ha0.
  apply validate_new_ok in Ha as (Hn & _). apply validate_new_ok in Ha1 as (_ & Hk & Ht & Hp). subst. cbn [lb_policies with_policies].
  destruct (Hn _ Ha0) as (En & Hne & Hlen). unfold policy_row_ok in *. cbn in *. bool_prop.
  apply sane_snoc; [done| |done|].
  - unfold sane_policy. cbn [rp_name rp_keep_versions_days rp_trash_days rp_purge_after_days]. rewrite En. unfold MIN_WINDOW_DAYS, MAX_WINDOW_DAYS, DEFAULT_KEEP_VERSIONS_DAYS, DEFAULT_TRASH_DAYS, DEFAULT_PURGE_DAYS in *.
    destruct (nr_keep_versions_days _), (nr_trash_days _), (nr_purge_after_days _); cbn in *;
      repeat match goal with H : forall n, Some ?z = Some n -> _ |- _ => specialize (H z eq_refl) end; split_and!; try done; lia.
  - intros q Hq Es Eq. unfold name_taken in *. rewrite existsb_none in *. cbn in *.
    match goal with H : forall x, x ∈ lb_policies b -> _ |- _ => specialize (H q Hq) end. unfold is_named in *. rewrite Es, Eq, Z.eqb_refl, str_eqb_refl in *. bool_prop.
    apply Hid. apply list_elem_of_fmap. exists q. naive_solver.
Qed.

Lemma update_sane folder_exists now site pid new p fields b b' : sane_policies (lb_policies b) ->
  update_policy folder_exists now site pid new b = Ok (p, fields, b') -> sane_policies (lb_policies b').
Proof.
  intros S H. unfold update_policy in H. ok_inv H. apply ok_or_ok in Ha. subst. cbn [lb_policies with_policies].
  apply List.find_some in Ha as [Hb%list_elem_of_In Eb]. apply validate_new_ok in Ha0 as (Hn & Hk & Ht & Hp).
  assert (forall x, x ∈ lb_policies b -> is_policy site pid x = true -> x = a) as Hone.
  { intros x Hx Ex. unfold is_policy in *. bool_prop. apply (NoDup_key_inj rp_id _ _ _ (sn_ids _ S)); [done..|naive_solver]. }
  pose proof (sn_each _ S a Hb) as (S1 & S2 & S3 & S4 & S5). split.
  - rewrite update_where_fmap by done. apply S.
  - intros x (y & Hy & ->)%update_where_elem. destruct (is_policy site pid y) eqn:Ey; [|by apply (sn_each _ S)].
    rewrite (Hone y Hy Ey). unfold policy_row_ok in *. bool_prop. unfold sane_policy.
    cbn [rewritten rp_name rp_keep_versions_days rp_trash_days rp_purge_after_days] in *.
    destruct (nr_name a0) as [n|], (nr_keep_versions_days a0), (nr_trash_days a0), (nr_purge_after_days a0);
      repeat match goal with H : forall n, Some ?z = Some n -> _ |- _ => specialize (H z eq_refl) end;
      cbn [from_option id] in *; try (destruct Hn as (En & Hne & Hlen); rewrite En); split_and!; try done; lia.
  - assert (forall x, x ∈ lb_policies b -> rp_site_id x = rp_site_id a -> rp_name x = rp_name (rewritten now a0 a) -> x = a) as Hname.
    { intros x Hx Es En. unfold name_taken in *. rewrite existsb_none in *.
      match goal with H : forall x, x ∈ lb_policies b -> _ = false |- _ => specialize (H x Hx); unfold is_named in H; rewrite Es, En in H end.
      cbn [rewritten rp_site_id] in *. rewrite Z.eqb_refl, str_eqb_refl in *. bool_prop.
      apply (NoDup_key_inj rp_id _ _ _ (sn_ids _ S)); [done..|naive_solver]. }
    intros x x' (y & Hy & ->)%update_where_elem (y' & Hy' & ->)%update_where_elem.
    destruct (is_policy site pid y) eqn:Ey, (is_policy site pid y') eqn:Ey'; intros Es En.
    + by rewrite (Hone y Hy Ey), (Hone y' Hy' Ey').
    + rewrite (Hone y Hy Ey) in *. rewrite (Hname y' Hy') in Ey' by done. congruence.
    + rewrite (Hone y' Hy' Ey') in *. rewrite (Hname y Hy) in Ey by done. congruence.
    + by apply (sn_names _ S).
Qed.

Lemma filter_sane (q : retention_policy -> bool) l : sane_policies l -> sane_policies (List.filter q l).
Proof.
  intros []. split; [by apply NoDup_filter_keys|intros p [Hp _]%elem_of_filter_bool; auto|].
  intros p r [Hp _]%elem_of_filter_bool [Hr _]%elem_of_filter_bool. auto.
Qed.

Section Sane.
Context `{U : Uuids, L : !UuidLaws U}.

Lemma purge_file_policies refuses id b : lb_policies (snd (purge_file refuses id b)) = lb_policies b.
Proof. by destruct (purge_file_rows refuses id b) as (O' & [->| ->]). Qed.

Lemma passed_sane refuses id now site b b' : passed refuses id now site b b' -> id ∉ rp_id <$> lb_policies b ->
  sane_policies (lb_policies b) -> sane_policies (lb_policies b').
Proof. intros [_ [->| ->]] Hid S; [done|]. by apply site_policy_sane. Qed.

Lemma careful_sane b b' : careful_step b b' -> sane_policies (lb_policies b) -> sane_policies (lb_policies b').
Proof.
  intros H S. destruct H; try exact S.
  - unfold create_version in *. ok_inv H0. by subst.
  - unfold restore_version in *. ok_inv H0. by subst.
  - unfold insert_derivative. by destruct (existsb _ _).
  - unfold seed_policy. destruct (existsb _ _) eqn:E; [done|]. apply sane_snoc; [done|apply standard_is_sane|done|].
    by apply (is_named_none site STANDARD).
  - by eapply create_sane.
  - by eapply update_sane.
  - unfold delete_policy in *. ok_inv H. subst. by apply filter_sane.
  - pose proof (purge_file_policies refuses id b) as E. rewrite H in E. cbn [snd] in E. by rewrite E.
  - by apply (passed_sane _ _ _ _ _ _ (run_once_passed refuses pid rid now site actor b)).
  - by apply (passed_sane _ _ _ _ _ _ (run_until_passed stage refuses pid rid now site actor b)).
Qed.

Lemma step_sane b b' : library_step b b' -> sane_policies (lb_policies b) -> sane_policies (lb_policies b').
Proof. destruct 1 as [b b' H|b refuses id|b refuses site ids]; [by apply careful_sane|by rewrite purge_file_policies|done]. Qed.

Lemma run_sane b : library_run b -> sane_policies (lb_policies b).
Proof.
  revert b. apply (rtc_ind_r (fun b => sane_policies (lb_policies b))); [|intros b b' _ H IH; by eapply step_sane].
  split; cbn; [constructor|by intros ? ?%elem_of_nil|by intros ? ? ?%elem_of_nil].
Qed.
End Sane.

(** ** What a pass may take and what it must *)

Section Theorems.
Context `{U : Uuids, L : !UuidLaws U}.
Implicit Types (b : library) (f : library_file) (v : file_version).

(** Whatever is uploaded, replaced, moved, trashed, restored, held, purged, swept or configured, as
    long as purges are of trashed files and end well: every version has its bytes in the bucket, every
    file serves the bytes of its newest version, no two versions share an object and no version is
    without its file. *)
Theorem library_keeps_its_bytes b : careful_run b ->
  (forall v, v ∈ lb_versions b -> fv_storage_key v ∈ lb_objects b /\ fv_media_id v ∈ lf_id <$> lb_files b)
  /\ NoDup (fv_storage_key <$> lb_versions b)
  /\ forall f, f ∈ lb_files b -> lf_storage_key f ∈ lb_objects b
       /\ exists v, v ∈ lb_versions b /\ fv_media_id v = lf_id f /\ fv_storage_key v = lf_storage_key f /\ fv_version v = newest_number (lf_id f) b.
Proof.
  intros [K%run_fits W]%careful_run_whole. split_and!.
  - intros v Hv. split; [by apply W|by apply (ft_file _ _ _ K)].
  - apply K.
  - intros f Hf. destruct (ft_current _ _ _ K f Hf) as (v & Hv & Em & Ek & Hmax). split; [rewrite <- Ek; by apply W|].
    exists v. split_and!; try done. pose proof (newest_number_ge b v Hv) as H1. rewrite Em in H1.
    pose proof (ft_numbers _ _ _ K v Hv). pose proof (newest_number_le (lf_id f) b (fv_version v) ltac:(lia) Hmax). lia.
Qed.

Lemma past_due now site w f : past now site w f = true ->
  lf_site_id f = site /\ exists t, lf_deleted_at f = Some t /\ purge_at w t < now.
Proof. unfold past, purge_at. destruct (lf_deleted_at f) as [t|]; intros H; bool_prop; [|naive_solver]. split; [naive_solver|]. exists t. split; [done|lia]. Qed.

Lemma superseded_due site cutoff hold b v f : kept b -> f ∈ lb_files b -> fv_media_id v = lf_id f ->
  superseded site cutoff hold b v = true <->
    lf_site_id f = site /\ lf_legal_hold f = hold /\ lf_deleted_at f = None /\ fv_version v < newest_number (lf_id f) b /\ fv_created_at v < cutoff.
Proof.
  intros K Hf Em. unfold superseded. rewrite (file_of_own b f v K Hf Em), Em, !andb_true_iff, Z.eqb_eq, !Z.ltb_lt, negb_true_iff, eqb_true_iff.
  unfold is_trashed. destruct (lf_deleted_at f); cbn; naive_solver.
Qed.

(** C19. A pass leaves alone every file of another site, under a hold, not in the trash, in it for no longer
    than the window, or referenced; of the files it leaves, every version that is the newest, young
    enough or of a file held or in the trash; and it deletes no object of a file or a version it leaves.
    The library is any that [library_step] builds: purges of files that are not in the trash and purges
    the bucket refuses half way are among its steps, and may have cost a row its object before; what was
    there stays.  A pass is one step ([restored_between_claim_and_delete]). *)
Theorem sweep_spares_what_it_must refuses pid rid now site actor b : library_run b ->
  let b' := snd (run_once refuses pid rid now site actor b) in
  let w := site_window pid now site b in
  (forall f, f ∈ lb_files b ->
     lf_site_id f <> site \/ lf_legal_hold f = true \/ lf_deleted_at f = None \/ (exists t, lf_deleted_at f = Some t /\ now <= purge_at w t)
     \/ is_referenced (lf_id f) b = true -> f ∈ lb_files b')
  /\ (forall v f, v ∈ lb_versions b -> f ∈ lb_files b' -> fv_media_id v = lf_id f ->
     lf_site_id f <> site \/ lf_legal_hold f = true \/ is_given (lf_deleted_at f) = true \/ now <= fv_created_at v + days (wi_keep_versions_days w)
     \/ fv_version v = newest_number (lf_id f) b -> v ∈ lb_versions b')
  /\ (forall f, f ∈ lb_files b' -> f ∈ lb_files b /\ (lf_storage_key f ∈ lb_objects b -> lf_storage_key f ∈ lb_objects b'))
  /\ forall v, v ∈ lb_versions b' -> v ∈ lb_versions b /\ (fv_storage_key v ∈ lb_objects b -> fv_storage_key v ∈ lb_objects b').
Proof.
  intros K%run_fits. pose proof (run_once_fits refuses pid rid now site actor b K) as K'.
  destruct (run_once_rows refuses pid rid now site actor b) as (Ef & Ev & _). cbn zeta. set (w := site_window pid now site b) in *. clearbody w.
  assert (forall f, f ∈ lb_files (snd (run_once refuses pid rid now site actor b)) <-> f ∈ lb_files b /\ f ∉ claim_purge now site w RETENTION_SWEEP_BATCH b) as Hf
    by (intros f; rewrite Ef; by apply after_run_files).
  assert (forall v, v ∈ lb_versions (snd (run_once refuses pid rid now site actor b)) <->
    v ∈ lb_versions b /\ (v ∉ claim_versions now site w RETENTION_SWEEP_BATCH b) /\ fv_media_id v ∉ lf_id <$> claim_purge now site w RETENTION_SWEEP_BATCH b) as Hv
    by (intros v; rewrite Ev; by apply after_run_versions).
  clear Ef Ev. split_and!.
  - intros f Hb H. apply Hf. split; [done|]. intros (_ & (Es & t & Et & Ht)%past_due & Eh & Er)%claim_purge_elem.
    destruct H as [H|[H|[H|[(t' & Et' & H)|H]]]]; try congruence. rewrite Et in Et'. injection Et' as <-. lia.
  - intros v f Hvb [Hfb Hc]%Hf Em H. apply Hv. split_and!; [done|..].
    + intros (_ & Hs)%claim_versions_elem. apply (superseded_due _ _ _ b v f K Hfb Em) in Hs as (Es & Eh & Ed & Hn & Ht).
      destruct H as [H|[H|[H|[H|H]]]]; try congruence; try lia. by rewrite Ed in H.
    + rewrite Em, list_elem_of_fmap. intros (x & E & Hx). apply claim_purge_elem in Hx as Hxb. by rewrite (file_by_id _ _ _ f x K Hfb (proj1 Hxb) E) in Hc.
  - intros f Hfb. split; [by apply Hf|]. destruct (ft_current _ _ _ K' f Hfb) as (v & Hvb & _ & <- & _). by apply run_once_bytes.
  - intros v Hvb. split; [by apply Hv|by apply run_once_bytes].
Qed.

Lemma run_once_totals refuses pid rid now site actor b :
  let t := fst (fst (run_once refuses pid rid now site actor b)) in
  let w := site_window pid now site b in
  let claimed := claim_purge now site w RETENTION_SWEEP_BATCH b in
  let history := claim_versions now site w RETENTION_SWEEP_BATCH b in
  rt_purged t = Z.of_nat (length (List.filter (fun f => among_ids (lf_id <$> claimed) (lf_id f) && is_trashed f) (lb_files b)))
  /\ rt_purged_bytes t = sum_Z lf_size_bytes claimed
  /\ rt_versions_removed t = Z.of_nat (length history) /\ rt_versions_bytes t = sum_Z fv_size_bytes history.
Proof.
  unfold run_once, site_window. destruct (site_policy_rows pid now site b) as (l & El).
  destruct (site_policy pid now site b) as [rule b0]. cbn [snd fst] in *. subst b0. destruct b. done.
Qed.

Lemma run_once_references refuses pid rid now site actor b :
  let w := site_window pid now site b in
  lb_references (snd (run_once refuses pid rid now site actor b))
  = List.filter (fun r => negb (among_ids (gone_ids (fun f => among_ids (lf_id <$> claim_purge now site w RETENTION_SWEEP_BATCH b) (lf_id f) && is_trashed f) b) (rf_media_id r)))
      (lb_references b).
Proof.
  unfold run_once, site_window. destruct (site_policy_rows pid now site b) as (l & El).
  destruct (site_policy pid now site b) as [rule b0]. cbn [snd fst] in *. subst b0. destruct b. done.
Qed.

Lemma claimed_count now site w n b : kept b ->
  List.filter (fun f => among_ids (lf_id <$> claim_purge now site w n b) (lf_id f) && is_trashed f) (lb_files b) ≡ₚ claim_purge now site w n b.
Proof.
  intros K. assert (NoDup (lb_files b)) as N by (by eapply NoDup_fmap_1, (ft_ids _ _ _ K)).
  apply NoDup_Permutation.
  - eapply sublist_NoDup; [exact N|]. apply sublist_filter.
  - by apply batch_NoDup.
  - intros f. rewrite elem_of_filter_bool. split; [intros [Hf H]; by apply (claim_gone now site w n b f K Hf)|].
    intros H. apply claim_purge_elem in H as Hc. split; [apply Hc|]. apply claim_gone; [done|apply Hc|done].
Qed.

Lemma site_window_sane id now site b : sane_policies (lb_policies b) -> id ∉ rp_id <$> lb_policies b ->
  1 <= wi_keep_versions_days (site_window id now site b) /\ 1 <= wi_trash_days (site_window id now site b) <= wi_purge_after_days (site_window id now site b).
Proof.
  intros S Hid. destruct (site_policy_sane id now site b S Hid) as [_ (_ & _ & Hk & Ht & _)].
  unfold site_window, policy_window, MIN_WINDOW_DAYS in *. cbn. lia.
Qed.

(** What a pass may purge. *)
Definition purgeable (now site_id : Z) (w : window) b f : bool :=
  past now site_id w f && negb (lf_legal_hold f) && negb (is_referenced (lf_id f) b).

#[export] Instance by_trashing_laws : CmpLaws by_trashing.
Proof. exact (on_laws (fun f => default 0 (lf_deleted_at f)) Z.compare). Qed.
#[export] Instance by_creation_laws : CmpLaws by_creation.
Proof. exact (on_laws fv_created_at Z.compare). Qed.

(** The objects of a file that is not in the library any more. *)
Lemma purged_objects refuses now site w b f k : kept b -> f ∈ claim_purge now site w RETENTION_SWEEP_BATCH b ->
  k ∈ owned_object_keys [lf_id f] b -> k ∈ lb_objects (after_run refuses now site w b) -> refuses k = true.
Proof.
  intros K Hc Hk [_ H]%delete_objects_elem. apply H. apply elem_of_app. right.
  assert (lf_id f ∈ lf_id <$> claim_purge now site w RETENTION_SWEEP_BATCH b) as Hin by (by apply list_elem_of_fmap_2).
  apply claim_purge_elem in Hc as (Hf & Hp & _). apply past_trashed in Hp. apply owned_elem in Hk as [(g & Hg & Hi & E)|[(v & Hv & Hi & E)|(d & Hd & Hi & E)]];
    apply list_elem_of_singleton in Hi; apply owned_elem.
  - left. exists g. by rewrite Hi.
  - right. left. exists v. rewrite Hi. split_and!; [|done..]. apply kept_version; [done|]. split; [done|]. intros (_ & Hs)%claim_versions_elem.
    apply (superseded_due _ _ _ b v f K Hf Hi) in Hs as (_ & _ & Hd & _). unfold is_trashed in Hp. by rewrite Hd in Hp.
  - right. right. exists d. by rewrite Hi.
Qed.

(** A pass purges the files of the site that are past the window, not held and not referenced: all of
    them, or the two hundred longest in the trash; it counts them and their bytes; each had outlived its
    restore window, leaves no version and no derivative behind and no object the bucket did not refuse
    to delete. *)
Theorem sweep_takes_what_is_due refuses pid rid now site actor b : library_run b -> pid ∉ rp_id <$> lb_policies b ->
  let '(t, _, b') := run_once refuses pid rid now site actor b in
  let w := site_window pid now site b in
  let due := List.filter (purgeable now site w b) (lb_files b) in
  exists gone, NoDup gone /\ (forall f, f ∈ gone <-> f ∈ lb_files b /\ f ∉ lb_files b')
    /\ length gone = Nat.min RETENTION_SWEEP_BATCH (length due)
    /\ rt_purged t = Z.of_nat (length gone) /\ rt_purged_bytes t = sum_Z lf_size_bytes gone
    /\ (forall f, f ∈ gone -> f ∈ due /\ (exists at_, lf_deleted_at f = Some at_ /\ restore_until w at_ < now)
         /\ (forall v, v ∈ lb_versions b' -> fv_media_id v <> lf_id f) /\ (forall d, d ∈ lb_derivatives b' -> dr_media_id d <> lf_id f)
         /\ forall k, k ∈ owned_object_keys [lf_id f] b -> k ∈ lb_objects b' -> refuses k = true)
    /\ (forall f g, f ∈ gone -> g ∈ due -> g ∈ lb_files b' -> default 0 (lf_deleted_at f) <= default 0 (lf_deleted_at g)).
Proof.
  intros R Hpid. pose proof (run_fits b R) as K. pose proof (run_sane b R) as S.
  destruct (run_once_rows refuses pid rid now site actor b) as (Ef & Ev & Ed & Eo & _).
  destruct (run_once_totals refuses pid rid now site actor b) as (Et & Etb & _).
  pose proof (site_window_sane pid now site b S Hpid) as (_ & Hw).
  destruct (run_once refuses pid rid now site actor b) as [[t rs] b']. cbn [fst snd] in *. cbn zeta.
  set (w := site_window pid now site b) in *. clearbody w. exists (claim_purge now site w RETENTION_SWEEP_BATCH b).
  assert (forall f, f ∈ lb_files b' <-> f ∈ lb_files b /\ f ∉ claim_purge now site w RETENTION_SWEEP_BATCH b) as Hf
    by (intros f; rewrite Ef; by apply after_run_files).
  split_and!.
  - apply batch_NoDup. by eapply NoDup_fmap_1, (ft_ids _ _ _ K).
  - intros f. rewrite Hf. split; [intros H; split; [by apply claim_purge_elem in H as [? _]|naive_solver]|].
    intros [Hfb H]. destruct (decide (f ∈ claim_purge now site w RETENTION_SWEEP_BATCH b)); naive_solver.
  - apply batch_length.
  - by rewrite Et, (claimed_count _ _ _ _ _ K).
  - done.
  - intros f H. apply claim_purge_elem in H as Hc. destruct Hc as (Hfb & Hp & Hh & Hr). split_and!.
    + apply elem_of_filter_bool. unfold purgeable. by rewrite Hp, Hh, Hr.
    + apply past_due in Hp as (_ & at_ & E & Ha). exists at_. split; [done|]. unfold purge_at, restore_until, days in *. lia.
    + intros v Hv E. rewrite Ev in Hv. apply after_run_versions in Hv as (_ & _ & Hv); [|done]. apply Hv. rewrite E. by apply list_elem_of_fmap_2.
    + intros d Hd E. rewrite Ed in Hd. apply elem_of_filter_bool in Hd as [_ Hd]. apply negb_true_iff, among_ids_none in Hd. apply Hd. rewrite E.
      apply (gone_claimed now site w RETENTION_SWEEP_BATCH b (lf_id f) K). by apply list_elem_of_fmap_2.
    + intros k Hk Ho. rewrite Eo in Ho. by eapply purged_objects.
  - intros f g Hg [Hgb Hd]%elem_of_filter_bool [_ Hn]%Hf. pose proof (batch_first _ by_trashing _ f g Hg) as Hle. unfold by_trashing in Hle.
    rewrite Z.compare_gt_iff in Hle. apply Z.nlt_ge, Hle; [by apply elem_of_filter_bool|done].
Qed.

(** Of the history a pass removes the versions that are superseded and older than the window, of the
    files of the site neither held nor in the trash: all of them, or the two hundred oldest; it counts
    them and their bytes, and leaves no object of theirs the bucket did not refuse to delete. *)
Theorem history_is_thinned refuses pid rid now site actor b : library_run b ->
  let '(t, _, b') := run_once refuses pid rid now site actor b in
  let w := site_window pid now site b in
  let due := List.filter (superseded site (now - days (wi_keep_versions_days w)) false b) (lb_versions b) in
  exists gone, NoDup gone
    /\ (forall v, v ∈ gone <-> v ∈ lb_versions b /\ (v ∉ lb_versions b') /\ fv_media_id v ∈ lf_id <$> lb_files b')
    /\ length gone = Nat.min RETENTION_SWEEP_BATCH (length due)
    /\ rt_versions_removed t = Z.of_nat (length gone) /\ rt_versions_bytes t = sum_Z fv_size_bytes gone
    /\ (forall v, v ∈ gone -> v ∈ due /\ (fv_storage_key v ∈ lb_objects b' -> refuses (fv_storage_key v) = true))
    /\ (forall v v', v ∈ gone -> v' ∈ due -> v' ∈ lb_versions b' -> fv_created_at v <= fv_created_at v').
Proof.
  intros K%run_fits. destruct (run_once_rows refuses pid rid now site actor b) as (Ef & Ev & _ & Eo & _).
  destruct (run_once_totals refuses pid rid now site actor b) as (_ & _ & Et & Etb).
  destruct (run_once refuses pid rid now site actor b) as [[t rs] b']. cbn [fst snd] in *. cbn zeta.
  set (w := site_window pid now site b) in *. clearbody w. exists (claim_versions now site w RETENTION_SWEEP_BATCH b).
  assert (forall v, v ∈ lb_versions b' <-> v ∈ lb_versions b /\ (v ∉ claim_versions now site w RETENTION_SWEEP_BATCH b)
    /\ fv_media_id v ∉ lf_id <$> claim_purge now site w RETENTION_SWEEP_BATCH b) as Hv by (intros v; rewrite Ev; by apply after_run_versions).
  assert (forall f, f ∈ lb_files b' <-> f ∈ lb_files b /\ f ∉ claim_purge now site w RETENTION_SWEEP_BATCH b) as Hf
    by (intros f; rewrite Ef; by apply after_run_files).
  split_and!.
  - apply batch_NoDup. by eapply NoDup_fmap_1, (ft_keys _ _ _ K).
  - intros v. rewrite Hv. split.
    + intros H. apply claim_versions_elem in H as Hc. destruct Hc as [Hvb Hs]. split_and!; [done|naive_solver|].
      pose proof (ft_file _ _ _ K v Hvb) as (f & E & Hfb)%list_elem_of_fmap. apply (superseded_due _ _ _ b v f K Hfb E), proj2, proj2, proj1 in Hs.
      rewrite E. apply list_elem_of_fmap_2, Hf. split; [done|]. intros (_ & Hp & _)%claim_purge_elem. apply past_trashed in Hp. unfold is_trashed in Hp. by rewrite Hs in Hp.
    + intros (Hvb & Hn & Hm). apply list_elem_of_fmap in Hm as (f & E & Hm). apply Hf in Hm as [Hfb Hc]. destruct (decide (v ∈ claim_versions now site w RETENTION_SWEEP_BATCH b)) as [|Hnc]; [done|].
      destruct Hn. split_and!; [done..|]. rewrite E, list_elem_of_fmap. intros (x & Ex & Hx). apply claim_purge_elem in Hx as Hxb.
      by rewrite (file_by_id _ _ _ f x K Hfb (proj1 Hxb) Ex) in Hc.
  - apply batch_length.
  - done.
  - done.
  - intros v H. apply claim_versions_elem in H as Hc. split; [by apply elem_of_filter_bool|]. rewrite Eo. intros [_ Ho]%delete_objects_elem.
    apply Ho, elem_of_app. left. by apply list_elem_of_fmap_2.
  - intros v v' Hg [Hvb Hd]%elem_of_filter_bool [_ [Hn _]]%Hv. pose proof (batch_first _ by_creation _ v v' Hg) as Hle. unfold by_creation in Hle.
    rewrite Z.compare_gt_iff in Hle. apply Z.nlt_ge, Hle; [by apply elem_of_filter_bool|done].
Qed.

(** Whatever creates, rewrites and removes policies, each has a name of its own in its site and windows
    within the limits: no purge comes before the end of the restore window. *)
Theorem windows_stay_sane b : library_run b ->
  NoDup (rp_id <$> lb_policies b)
  /\ (forall p q, p ∈ lb_policies b -> q ∈ lb_policies b -> rp_site_id p = rp_site_id q -> rp_name p = rp_name q -> p = q)
  /\ forall p, p ∈ lb_policies b -> sane_policy p /\ forall at_, restore_until (policy_window p) at_ <= purge_at (policy_window p) at_.
Proof.
  intros S%run_sane. split_and!; [apply S|apply S|]. intros p Hp. pose proof (sn_each _ S p Hp) as Hs. split; [done|].
  intros at_. destruct Hs as (_ & _ & _ & Ht & _). unfold restore_until, purge_at, days. cbn. lia.
Qed.

(** *** The worker *)

Lemma site_window_policies id id' now now' site b b' : lb_policies b' = lb_policies b -> site_window id' now' site b' = site_window id now site b.
Proof. intros E. unfold site_window, site_policy. rewrite E. destruct (head _); [done|]. by destruct (List.find _ _). Qed.

(** A pass over another site leaves the window of this one. *)
Lemma site_window_passed refuses pid now other b b' id id' site : other <> site -> passed refuses pid now other b b' ->
  site_window id' now site b' = site_window id now site b.
Proof.
  intros Hne [_ [Ep|Ep]]; [by apply site_window_policies|].
  rewrite (site_window_policies id id' now now site (snd (site_policy pid now other b)) _ Ep). clear Ep.
  unfold site_policy at 1. destruct (head _) as [p|]; [by apply site_window_policies|]. destruct (List.find _ _); [by apply site_window_policies|].
  cbn [snd]. unfold site_window, site_policy. cbn [lb_policies with_policies].
  rewrite List.filter_app, find_app. cbn [List.filter List.find standard_policy rp_site_id rp_folder_id is_given negb].
  rewrite (proj2 (Z.eqb_neq other site) Hne). cbn [andb]. rewrite app_nil_r. destruct (head _); [done|].
  destruct (List.find _ (lb_policies b)); [done|]. unfold is_named at 1. cbn [rp_site_id standard_policy]. by rewrite (proj2 (Z.eqb_neq other site) Hne).
Qed.

(** The files a pass leaves: all of them, or all but those it claimed, whose references go with them. *)
Lemma passed_files refuses pid now site b b' : kept b -> passed refuses pid now site b b' ->
  let claimed := claim_purge now site (site_window pid now site b) RETENTION_SWEEP_BATCH b in
  let gone := gone_ids (fun f => among_ids (lf_id <$> claimed) (lf_id f) && is_trashed f) b in
  (lb_files b' = lb_files b /\ lb_references b' = lb_references b)
  \/ ((forall f, f ∈ lb_files b' <-> f ∈ lb_files b /\ f ∉ claimed)
      /\ lb_references b' = List.filter (fun r => negb (among_ids gone (rf_media_id r))) (lb_references b)).
Proof.
  intros K [[(Ef & _ & _ & _ & Er)|[(Ef & _ & _ & _ & Er)|[(Ef & _ & _ & _ & Er)|(Ef & _ & _ & _ & Er)]]] _]; cbn zeta; [by left|by left|right..];
    (split; [|exact Er]); intros f; rewrite Ef; [by apply swept_files|by apply after_run_files].
Qed.

Lemma passed_shrink refuses pid now site b b' f : kept b -> passed refuses pid now site b b' -> f ∈ lb_files b' -> f ∈ lb_files b.
Proof. intros K [[-> _]|[H _]]%passed_files; [done| |done]. by intros [? _]%H. Qed.

Lemma passed_references refuses pid now site b b' f : kept b -> passed refuses pid now site b b' -> f ∈ lb_files b' ->
  is_referenced (lf_id f) b' = is_referenced (lf_id f) b.
Proof.
  intros K P Hf. destruct (passed_files _ _ _ _ _ _ K P) as [[_ Er]|[H Er]]; unfold is_referenced; [by rewrite Er|].
  apply H in Hf as [Hf Hc]. apply eq_true_iff_eq. rewrite !existsb_elem, Er. setoid_rewrite elem_of_filter_bool. split; [naive_solver|].
  intros (r & Hr & E). exists r. split_and!; [done| |done]. apply negb_true_iff, among_ids_none. bool_prop. rewrite E.
  rewrite (gone_claimed now site (site_window pid now site b) RETENTION_SWEEP_BATCH b _ K), list_elem_of_fmap. intros (x & Ex & Hx).
  apply claim_purge_elem in Hx as Hxb. by rewrite (file_by_id _ _ _ f x K Hf (proj1 Hxb) Ex) in Hc.
Qed.

Definition due_count (now site : Z) (w : window) b : nat := length (List.filter (purgeable now site w b) (lb_files b)).

Lemma run_takes refuses pid rid now site actor b f : kept b -> f ∈ lb_files b -> purgeable now site (site_window pid now site b) b f = true ->
  (due_count now site (site_window pid now site b) b <= RETENTION_SWEEP_BATCH)%nat -> f ∉ lb_files (snd (run_once refuses pid rid now site actor b)).
Proof.
  intros K Hf Hp Hn. destruct (run_once_rows refuses pid rid now site actor b) as (-> & _). intros [_ H]%after_run_files; [|done]. apply H.
  apply batch_all; [exact Hn|]. by apply elem_of_filter_bool.
Qed.

Lemma passed_leaves refuses pid now other b b' site w : kept b -> other <> site -> passed refuses pid now other b b' ->
  (forall f, f ∈ lb_files b -> purgeable now site w b f = true -> f ∈ lb_files b' /\ purgeable now site w b' f = true)
  /\ (due_count now site w b' <= due_count now site w b)%nat.
Proof.
  intros K Hne P. assert (forall f, f ∈ lb_files b -> purgeable now site w b f = true -> f ∈ lb_files b') as H1.
  { intros f Hf Hp. destruct (passed_files _ _ _ _ _ _ K P) as [[-> _]|[H _]]; [done|]. apply H. split; [done|].
    intros (_ & (Ho & _)%past_due & _)%claim_purge_elem. unfold purgeable in Hp. rewrite !andb_true_iff in Hp. destruct Hp as [[(Hs & _)%past_due _] _]. congruence. }
  assert (forall f, f ∈ lb_files b' -> purgeable now site w b' f = purgeable now site w b f) as H2
    by (intros f Hf; unfold purgeable; by rewrite (passed_references _ _ _ _ _ _ f K P Hf)).
  split; [intros f Hf Hp; specialize (H1 f Hf Hp); split; [done|by rewrite H2]|].
  unfold due_count. apply submseteq_length, NoDup_submseteq.
  - eapply sublist_NoDup; [|apply sublist_filter]. eapply NoDup_fmap_1, (ft_ids _ _ _ (passed_fits _ _ _ _ _ _ K P)).
  - intros f [Hf Hp]%elem_of_filter_bool. apply elem_of_filter_bool. split; [by eapply passed_shrink|]. by rewrite <- H2.
Qed.

(** The sites of a tick, one pass after another, finished or stopped. *)
Inductive passes (stops : Z -> option nat) (refuses : str -> bool) (now : Z) : list Z -> library -> library -> Prop :=
  | passes_none b : passes stops refuses now [] b b
  | passes_one site sites b b' b'' pid rid :
      passed refuses pid now site b b' -> (stops site = None -> b' = snd (run_once refuses pid rid now site None b)) ->
      passes stops refuses now sites b' b'' -> passes stops refuses now (site :: sites) b b''.

Lemma sweep_sites_passes stops refuses fresh now sites : forall k purged versions failed b,
  passes stops refuses now sites b (snd (sweep_sites stops refuses fresh now k sites purged versions failed b)).
Proof.
  induction sites as [|s l IH]; intros k purged versions failed b; cbn [sweep_sites]; [by constructor|].
  destruct (stops s) as [stage|] eqn:Es.
  - apply (passes_one _ _ _ _ _ _ _ _ (fst (fresh k)) (snd (fresh k)) (run_until_passed stage _ _ (snd (fresh k)) _ _ None b)); [by rewrite Es|apply IH].
  - pose proof (run_once_passed refuses (fst (fresh k)) (snd (fresh k)) now s None b) as P.
    destruct (run_once _ _ _ _ _ _ _) as [[t rs] b'] eqn:Er. apply (passes_one _ _ _ _ _ _ _ _ (fst (fresh k)) (snd (fresh k)) P); [by rewrite Er|apply IH].
Qed.

Lemma passes_gone stops refuses now sites b b' f : passes stops refuses now sites b b' -> kept b -> f ∉ lb_files b -> f ∉ lb_files b'.
Proof.
  induction 1 as [|site sites b b' b'' pid rid P _ _ IH]; intros K Hf; [done|]. apply IH; [by eapply passed_fits|].
  intros H. by apply (passed_shrink _ _ _ _ _ _ f K P) in H.
Qed.

Lemma passes_purge stops refuses now site f sites b b' : passes stops refuses now sites b b' ->
  kept b -> stops site = None -> f ∈ lb_files b -> site ∈ sites -> purgeable now site (site_window 0 now site b) b f = true ->
  (due_count now site (site_window 0 now site b) b <= RETENTION_SWEEP_BATCH)%nat -> f ∉ lb_files b'.
Proof.
  induction 1 as [b|s sites b b' b'' pid rid P Hrun Hs IH]; intros K Hok Hf Hin Hp Hn; [by apply elem_of_nil in Hin|].
  pose proof (passed_fits _ _ _ _ _ _ K P) as K'. destruct (decide (s = site)) as [->|Hne].
  - apply (passes_gone _ _ _ _ _ _ _ Hs); [done|]. rewrite (Hrun Hok).
    rewrite (site_window_policies pid 0 now now site b b eq_refl) in Hp, Hn. by apply run_takes.
  - apply elem_of_cons in Hin as [->|Hin]; [done|].
    destruct (passed_leaves _ _ _ _ _ _ site (site_window 0 now site b) K Hne P) as [H1 H2]. destruct (H1 f Hf Hp) as [Hf' Hp'].
    pose proof (site_window_passed _ _ _ _ _ _ 0 0 site Hne P) as Ew. apply IH; rewrite ?Ew; try done. lia.
Qed.

(** A reference that is kept names something the platform cannot say is gone. *)
Lemma repair_keeps limit b r : NoDup (rf_id <$> lb_references b) -> (length (List.filter (dangling b) (lb_references b)) <= limit)%nat ->
  r ∈ lb_references (snd (repair_references limit b)) <-> r ∈ lb_references b /\ dangling b r = false.
Proof.
  intros N Hn. cbn. rewrite elem_of_filter_bool, negb_true_iff, among_ids_none, list_elem_of_fmap. unfold dangling_references.
  split; intros [Hr H]; (split; [done|]).
  - apply not_true_iff_false. intros Hd. apply H. exists r. split; [done|]. apply batch_all; [exact Hn|]. by apply elem_of_filter_bool.
  - intros (x & E & (i & Hx%list_elem_of_lookup_2 & _)%elem_of_take). rewrite sort_by_elem, elem_of_filter_bool in Hx.
    rewrite (NoDup_key_inj rf_id _ r x N Hr (proj1 Hx) E) in H. destruct Hx as [_ Hx]. congruence.
Qed.

(** C24. A tick first forgets the references of pages that are gone, and then purges every file of a site it
    reaches that is past its window, not held and referenced by nothing else, when the site has no more
    of them than a batch holds and the database does not end its pass: wherever it ends those of others. *)
Theorem tick_purges_what_is_due stops refuses fresh now max_sites b f : library_run b -> stops (lf_site_id f) = None -> NoDup (rf_id <$> lb_references b) ->
  (length (List.filter (dangling b) (lb_references b)) <= REPAIR_BATCH)%nat ->
  f ∈ lb_files b -> lf_site_id f ∈ take (Z.to_nat (Z.max max_sites 1)) (sites_with_media b) ->
  let w := site_window 0 now (lf_site_id f) b in
  past now (lf_site_id f) w f = true -> lf_legal_hold f = false ->
  (forall r, r ∈ lb_references b -> rf_media_id r = lf_id f -> dangling b r = true) ->
  (length (List.filter (fun g => past now (lf_site_id f) w g && negb (lf_legal_hold g)) (lb_files b)) <= RETENTION_SWEEP_BATCH)%nat ->
  f ∉ lb_files (snd (tick stops refuses fresh now max_sites b)).
Proof.
  intros K%run_fits Hok N Hd Hf Hs w Hp Hh Hr Hn. unfold tick.
  pose proof (repair_keeps REPAIR_BATCH b) as Hrep.
  assert (lb_files (snd (repair_references REPAIR_BATCH b)) = lb_files b) as Efiles by done.
  assert (kept (snd (repair_references REPAIR_BATCH b))) as K' by done.
  assert (lb_policies (snd (repair_references REPAIR_BATCH b)) = lb_policies b) as Epol by done.
  destruct (repair_references REPAIR_BATCH b) as [n b1]. cbn [fst snd] in *. unfold sites_with_media. rewrite Efiles. fold (sites_with_media b).
  pose proof (site_window_policies 0 0 now now (lf_site_id f) b b1 Epol) as Ew.
  assert (purgeable now (lf_site_id f) (site_window 0 now (lf_site_id f) b1) b1 f = true) as Hpf.
  { rewrite Ew. fold w. unfold purgeable. rewrite Hp, Hh. cbn [negb andb]. apply negb_true_iff. unfold is_referenced. apply existsb_none.
    intros r Hrb. apply Z.eqb_neq. intros E. apply Hrep in Hrb as [Hrb Hnd]; [|done..]. by rewrite (Hr r Hrb E) in Hnd. }
  assert ((due_count now (lf_site_id f) (site_window 0 now (lf_site_id f) b1) b1 <= RETENTION_SWEEP_BATCH)%nat) as Hc.
  { etrans; [|exact Hn]. unfold due_count. rewrite Ew, Efiles. fold w. clear. induction (lb_files b) as [|x l IH]; [done|]. cbn [List.filter].
    unfold purgeable at 1. destruct (past now (lf_site_id f) w x && negb (lf_legal_hold x)); cbn [andb]; [|exact IH].
    destruct (negb (is_referenced (lf_id x) b1)); cbn [length]; lia. }
  pose proof (sweep_sites_passes stops refuses fresh now (take (Z.to_nat (Z.max max_sites 1)) (sites_with_media b)) 0 0 0 0 b1) as H.
  destruct (sweep_sites _ _ _ _ _ _ _ _ _ _) as [[[p v] e] b2]. apply (passes_purge _ _ _ (lf_site_id f) f _ _ _ H); by rewrite ?Efiles.
Qed.
End Theorems.

(** ** Concrete libraries *)

Section Samples.
Local Existing Instance hex_uuids.

Definition get_ok {A E} (d : A) (r : result A E) : A := match r with Ok a => a | Err _ => d end.
Definition photo : library_file := LibraryFile 10 1 None s!"photo.png" [] 5 false None.
Definition report : library_file := LibraryFile 11 1 (Some 5) s!"report.pdf" [] 7 false None.
Definition seeded : library := seed_policy 7 0 1 empty_library.
Definition uploaded : library := upload_file 101 201 0 s!"application/pdf" report (upload_file 100 200 0 s!"image/png" photo seeded).
Definition replaced : library := get_ok empty_library (create_version 202 (days 1) 10 s!"better.webp" s!"image/webp" 6 uploaded).
(** The photo has two versions; the report is in the trash since the second day. *)
Definition sample : library := trash_files (days 2) [11] replaced.
Definition swept_sample : library := snd (run_once (fun _ => false) 8 300 (days 400) 1 None sample).
Definition ids_of (b : library) : list Z := lf_id <$> lb_files b.
(** Whether a file of the library is without its bytes. *)
Definition lost (b : library) : list Z := lf_id <$> List.filter (fun f => negb (bool_decide (lf_storage_key f ∈ lb_objects b))) (lb_files b).

Lemma hex_is_uuid z : 0 <= z < 1000 -> is_uuid z.
Proof. unfold is_uuid. lia. Qed.

Lemma get_ok_ok {A E} (d : A) (r : result A E) : is_ok r = true -> r = Ok (get_ok d r).
Proof. by destruct r. Qed.

Lemma seeded_run : careful_run seeded.
Proof. apply rtc_once, step_seed. by_compute. Qed.
Lemma uploaded_run : careful_run uploaded.
Proof.
  eapply rtc_r; [eapply rtc_r; [exact seeded_run|]|].
  - apply (step_upload seeded 100 200 0 s!"image/png" photo); [apply hex_is_uuid; cbn; lia|by_compute..].
  - apply (step_upload _ 101 201 0 s!"application/pdf" report); [apply hex_is_uuid; cbn; lia|by_compute..].
Qed.
Lemma replaced_run : careful_run replaced.
Proof.
  eapply rtc_r; [exact uploaded_run|]. eapply step_create_version; [|apply (get_ok_ok empty_library); by_compute]. by_compute.
Qed.
Lemma sample_careful : careful_run sample.
Proof. eapply rtc_r; [exact replaced_run|]. apply step_trash. Qed.
Lemma sample_run : library_run sample.
Proof. exact (proj1 (careful_run_whole sample sample_careful)). Qed.

Example keys_of_sample :
  fv_storage_key <$> lb_versions sample =
    [s!"sites/00000000-0000-0000-0000-000000000001/00000000-0000-0000-0000-000000000064.png";
     s!"sites/00000000-0000-0000-0000-000000000001/00000000-0000-0000-0000-000000000065.pdf";
     s!"sites/00000000-0000-0000-0000-000000000001/00000000-0000-0000-0000-00000000000a/v2.webp"].
Proof. vm_compute. reflexivity. Qed.

(** A year later the report is gone with its object, and the first version of the photo. *)
Example a_pass_over_the_sample :
  ids_of swept_sample = [10] /\ fv_id <$> lb_versions swept_sample = [202] /\ lost swept_sample = [] /\ size (lb_objects swept_sample) = 1%nat
  /\ fst (fst (run_once (fun _ => false) 8 300 (days 400) 1 None sample)) = RunTotals 1 5 1 7 0 0.
Proof. vm_compute. done. Qed.

(** Before the windows close nothing goes. *)
Example an_early_pass_takes_nothing : ids_of (snd (run_once (fun _ => false) 8 300 (days 92) 1 None sample)) = [10; 11].
Proof. vm_compute. done. Qed.

(** A hold on the file holds it; a hold on the policy of its site holds nothing, and neither does a policy
    that is switched off stop governing. *)
Definition wanted_change (trash purge : option Z) (hold enabled : option bool) : new_retention_policy := NewRetentionPolicy None None None trash purge hold enabled.
Definition rewrite_policy (new : new_retention_policy) (b : library) : library :=
  match update_policy (fun _ => true) 0 1 7 new b with Ok (_, b) => b | Err _ => empty_library end.
Example holds_of_files_and_of_policies :
  ids_of (snd (run_once (fun _ => false) 8 300 (days 400) 1 None (snd (set_hold 1 11 true sample)))) = [10; 11]
  /\ ids_of (snd (run_once (fun _ => false) 8 300 (days 400) 1 None (rewrite_policy (wanted_change None None (Some true) None) sample))) = [10]
  /\ ids_of (snd (run_once (fun _ => false) 8 300 (days 400) 1 None (rewrite_policy (wanted_change None None None (Some false)) sample))) = [10].
Proof. vm_compute. done. Qed.

(** The rule of a folder is asked by [governing_window] alone: the sweep takes the site's. *)
Definition with_folder_rule : library :=
  match create (fun _ => true) 9 0 1 (NewRetentionPolicy (Some s!"Campaign") (Some (Some 5)) None None (Some 3650) None None) sample with Ok (_, b) => b | Err _ => empty_library end.
Example folder_rules_are_not_asked :
  wi_purge_after_days (fst (governing_window 8 0 1 (Some 5) with_folder_rule)) = 3650
  /\ ids_of (snd (run_once (fun _ => false) 8 300 (days 400) 1 None with_folder_rule)) = [10].
Proof. vm_compute. done. Qed.

(** A stored restore window of ten days does not let the purge window become twenty. *)
Example lone_purge_window_meets_the_default :
  update_policy (fun _ => true) 0 1 7 (wanted_change None (Some 20) None None) (rewrite_policy (wanted_change (Some 10) None None None) sample)
    = Err (RetentionSetting s!"purge_after_days").
Proof. vm_compute. done. Qed.

Example site_rule_can_be_deleted : match delete_policy 1 7 sample with Ok b => lb_policies b = [] | Err _ => False end.
Proof. vm_compute. done. Qed.

(** A purge of a selection takes the bytes of a file that is not in the trash and leaves its row. *)
Example live_file_loses_its_bytes :
  let '(n, b) := bulk_purge (fun _ => false) 1 [10] sample in n = 0 /\ ids_of b = [10; 11] /\ lost b = [10].
Proof. vm_compute. done. Qed.

(** Neither a hold nor a reference is asked when somebody empties the trash. *)
Example emptied_trash_ignores_holds :
  let b := with_references [Reference 1 11 s!"page" s!"home" s!"hero" 0] (snd (set_hold 1 11 true sample)) in
  ids_of (snd (empty_trash (fun _ => false) 1 b)) = [10].
Proof. vm_compute. done. Qed.

(** A purge the bucket refuses half way leaves a file in the trash that has lost bytes. *)
Example refused_purge_keeps_a_file_without_bytes :
  let b := trash_files (days 3) [10] sample in
  let '(r, b) := purge_file (fun k => ends_with k s!".png") 10 b in
  r = Err ObjectRefused /\ ids_of (restore_files [10] b) = [10; 11] /\ lost (restore_files [10] b) = [10].
Proof. vm_compute. done. Qed.

(** Claiming, deleting the rows and deleting the objects are statements of their own: a file restored in
    between stays without its bytes. *)
Example restored_between_claim_and_delete :
  let w := site_window 8 (days 400) 1 sample in
  let ids := lf_id <$> claim_purge (days 400) 1 w RETENTION_SWEEP_BATCH sample in
  let keys := owned_object_keys ids sample in
  let b := delete_objects (fun _ => false) keys (snd (purge_files ids (restore_files [11] sample))) in
  ids = [11] /\ ids_of b = [10; 11] /\ lost b = [11] /\ lf_deleted_at <$> find_file 11 b = Some None.
Proof. vm_compute. done. Qed.

(** ** The hypotheses hold of concrete libraries *)

Lemma library_keeps_its_bytes_witness : careful_run sample /\ NoDup (fv_storage_key <$> lb_versions sample).
Proof. split; [exact sample_careful|]. exact (proj1 (proj2 (library_keeps_its_bytes sample sample_careful))). Defined.

(** The photo lost two versions to a purge while it was live and was given a third: the pass of a year
    later keeps the third. *)
Definition damaged : library :=
  get_ok empty_library (create_version 203 (days 3) 10 s!"again.png" s!"image/png" 6 (snd (bulk_purge (fun _ => false) 1 [10] sample))).
Lemma damaged_run : library_run damaged.
Proof.
  eapply rtc_r; [eapply rtc_r; [exact sample_run|by apply (step_any_bulk_purge _ (fun _ => false) 1 [10])]|].
  apply step_careful. eapply step_create_version; [|apply (get_ok_ok empty_library); by_compute]. by_compute.
Qed.
Lemma sweep_spares_what_it_must_witness :
  let b' := snd (run_once (fun _ => false) 8 300 (days 400) 1 None damaged) in
  length (List.filter (fun v => negb (bool_decide (fv_storage_key v ∈ lb_objects damaged))) (lb_versions damaged)) = 2%nat
  /\ library_run damaged /\ lf_storage_key <$> lb_files b' = [version_key 1 10 3 s!"again.png" s!"image/png"]
  /\ forall f, f ∈ lb_files b' -> f ∈ lb_files damaged /\ (lf_storage_key f ∈ lb_objects damaged -> lf_storage_key f ∈ lb_objects b').
Proof.
  split; [vm_compute; reflexivity|]. split; [exact damaged_run|]. split; [vm_compute; reflexivity|].
  exact (proj1 (proj2 (proj2 (sweep_spares_what_it_must (fun _ => false) 8 300 (days 400) 1 None damaged damaged_run)))).
Defined.

Lemma sweep_takes_what_is_due_witness : library_run sample /\ (8 ∉ rp_id <$> lb_policies sample) /\
  let '(t, _, b') := run_once (fun _ => false) 8 300 (days 400) 1 None sample in
  exists gone, length gone = 1%nat /\ forall f, f ∈ gone <-> f ∈ lb_files sample /\ f ∉ lb_files b'.
Proof.
  assert (8 ∉ rp_id <$> lb_policies sample) as H by by_compute.
  split; [exact sample_run|]. split; [exact H|].
  pose proof (sweep_takes_what_is_due (fun _ => false) 8 300 (days 400) 1 None sample sample_run H) as T.
  destruct (run_once (fun _ => false) 8 300 (days 400) 1 None sample) as [[t rs] b'].
  destruct T as (gone & _ & Hin & Hlen & _). exists gone. split; [rewrite Hlen; vm_compute; reflexivity|exact Hin].
Defined.

Lemma history_is_thinned_witness : library_run sample /\
  let '(t, _, b') := run_once (fun _ => false) 8 300 (days 400) 1 None sample in rt_versions_removed t = 1.
Proof.
  split; [exact sample_run|].
  pose proof (history_is_thinned (fun _ => false) 8 300 (days 400) 1 None sample sample_run) as T.
  destruct (run_once (fun _ => false) 8 300 (days 400) 1 None sample) as [[t rs] b'].
  destruct T as (gone & _ & _ & Hlen & E & _). rewrite E, Hlen. vm_compute. reflexivity.
Defined.

Lemma windows_stay_sane_witness : library_run sample /\ NoDup (rp_id <$> lb_policies sample).
Proof. split; [exact sample_run|]. exact (proj1 (windows_stay_sane sample sample_run)). Defined.

(** The pass over the neighbour's site ends before it deletes objects; the report goes all the same. *)
Definition neighbour : library_file := LibraryFile 12 2 None s!"logo.png" [] 3 false None.
Definition two_sites : library := upload_file 102 204 0 s!"image/png" neighbour sample.
Definition neighbour_stops (site : Z) : option nat := if site =? 2 then Some 4%nat else None.
Definition fresh_ids (k : nat) : Z * Z := (8 + Z.of_nat k, 300 + Z.of_nat k).
Lemma two_sites_run : library_run two_sites.
Proof.
  eapply rtc_r; [exact sample_run|]. apply step_careful, step_upload; [apply hex_is_uuid; cbn; lia|by_compute..].
Qed.
Example a_stopped_pass_is_counted :
  let '(r, b) := tick neighbour_stops (fun _ => false) fresh_ids (days 400) 10 two_sites in
  r = TickReport 2 1 1 0 1 /\ ids_of b = [10; 12] /\ is_idle r = false
  /\ (fun p => (rp_id p, rp_site_id p)) <$> lb_policies b = [(7, 1); (9, 2)] /\ (fun x => is_given (ru_finished_at x)) <$> lb_runs b = [true; false].
Proof. vm_compute. done. Qed.

Lemma tick_purges_what_is_due_witness : exists f, f ∈ lb_files two_sites /\ lf_id f = 11
  /\ f ∉ lb_files (snd (tick neighbour_stops (fun _ => false) fresh_ids (days 400) 10 two_sites)).
Proof.
  destruct (find_file_any_state 11 two_sites) as [f|] eqn:E; [|vm_compute in E; discriminate E].
  exists f. vm_compute in E. injection E as <-. split; [vm_compute; right; left|]. split; [reflexivity|].
  apply (tick_purges_what_is_due neighbour_stops (fun _ => false) fresh_ids (days 400) 10 two_sites);
    [exact two_sites_run|reflexivity|by_compute|vm_compute; lia|vm_compute; right; left|vm_compute; left|by_compute|reflexivity|intros r Hr; apply elem_of_nil in Hr; destruct Hr|vm_compute; lia].
Defined.
End Samples.
